(* ===== verification/_CoqProject ===== *)
-Q . S2P
Prelude.v
Wire.v
WireLogic.v
WireRead.v
WireFrame.v
ProtoTypes.v
ProtoSession.v
ProtoMessage.v
ProtoChannel.v
ProtoPrefs.v
ProtoCall.v
ProtoMedia.v
ProtoUsers.v
ProtoAdmin.v
Protocol.v
Framebuf.v
OpenAddr.v
Idmap.v
Srccount.v
Ratelimit.v
Base64url.v
Devicecodes.v
Cbor.v
Aead.v
Sframe.v
Jitter.v
Proxyproto.v
Mention.v
Notify.v
Totp.v
Searchq.v
Rows.v
ClientMsg.v
ClientLists.v
ClientModel.v
Demolimits.v
Outq.v
Calls.v
CallsInv.v
CallsStep.v
CallsRun.v
CallsSeats.v
CallsMain.v
Relay.v
RelayInv.v
RelayMain.v
Media.v
MediaMain.v
Pdm.v
PdmInv.v
PdmMain.v
