(* ===== verification/Prelude.v ===== *)
(** * OpenChime: a verification library for the core of the chat system

    OpenChime is a chat system in C: a daemon ([daemon/]), clients
    ([client/core/] with a graphical and a terminal front end) and the code both
    share ([shared/]).  A client and the daemon exchange binary frames over TLS.
    This library models the parts that carry the program's own logic and proves
    what makes each correct.  Everything is written in the order

      data of the component, its operations as the code has them, lemmas,
      theorems with a concrete instance of each.

    ** The parts and how they interact

    The wire protocol ([shared/protocol.c], [shared/protocol.h]):

    - [Wire]: the write buffer ([oc_wbuf]) and the read cursor ([oc_rbuf]) with
      their sticky [overflow] and [underflow] flags, the big-endian integers, the
      length-prefixed strings, [oc_frame_begin], [oc_frame_end],
      [oc_parse_frame], [r_done].  A writer is a state transformer, a reader a
      small state and error monad.
    - [WireLogic], [WireRead], [WireFrame]: the logic of writers ([Writes],
      [Encodes]) and of readers ([Parses], [ParsesAll], safety), and the record
      [frame_codec] with the laws a message's encoder and decoder promise.
    - [ProtoTypes]: every message record, enumeration and limit of the header.
    - [ProtoSession], [ProtoMessage], [ProtoChannel], [ProtoPrefs], [ProtoCall],
      [ProtoMedia], [ProtoUsers], [ProtoAdmin]: every [oc_encode_*] and
      [oc_decode_*], with a proved codec each.
    - [Protocol]: the registry of all codecs and the theorems over it (round
      trip of well-formed messages, atomic encoders, canonical layouts, decoders
      that stay in their payload), version negotiation, the checks of e-mail
      addresses and device tokens.

    From bytes to frames:

    - [Framebuf]: [shared/framebuf.c] and the read loop of [daemon/ioloop.c],
      which pushes each read and drains every whole frame.  Compared with
      [deframe], which cuts the whole stream at once; composed with the encoders
      in [stream_delivery].
    - [Proxyproto]: [daemon/proxyproto.c], the header a forwarder sends before
      TLS and the list of forwarders that are believed.

    The daemon's tables:

    - [OpenAddr]: linear probing and backward-shift deletion, shared by
      [Idmap] ([daemon/idmap.c], connections and users by id) and [Srccount]
      ([daemon/srccount.c], connections by source address); each refines a
      finite map.
    - [Ratelimit]: [daemon/ratelimit.c], refined by one fixed window per key.

    Signing in:

    - [Base64url]: the coder of [daemon/jwt.c].
    - [Devicecodes]: [daemon/devicecodes.c], the device flow of RFC 8628 as a
      state machine: [run] pairs a table with the history that led to it.
    - [Totp]: [daemon/totp.c] and [check_totp] of [daemon/dbwriter.c].
    - [Cbor]: [daemon/cbor.c], which reads the attestations of passkeys.

    Text of messages:

    - [Mention]: [shared/mention.c], the scanners for mentions, channel
      references and keywords.
    - [Notify]: [shared/notify.c], quiet hours and the decision to notify.
    - [Searchq]: [shared/searchq.c], the search box's words and filters and the
      sentence that describes them.

    The daemon's network loop ([daemon/netloop.c]), of which the parts that keep
    state of their own are modelled:

    - [Outq]: what a connection is owed: the output buffer, the replays of missed
      messages and the frames held behind them ([out_append], [backfill_next],
      [backfill_pump], [backfill_accept], [flush_out]).  Replays are contiguous
      (while none is accepted behind a frame that was cut) and drain, buffers are
      bounded, and the two ways a replay goes wrong.
    - [Demolimits]: [daemon/demolimits.c], refined by a map of counts.
    - [Calls]: the table of calls, the index of connections, every CALL_* request
      but CALL_MEDIA, and [process_call_auth] of [daemon/dbwriter.c].  A [loop] is the
      state of the thread, a [call_event] what can reach it, [call_run] a run;
      the trace keeps the frames the connections' outputs took ([Sent]) or had no
      room for ([Missed]) and the orders given to the relay.  Frames go through [Outq], the daily limit through
      [Demolimits], payloads through the decoders of [ProtoCall].
    - [CallsInv], [CallsStep], [CallsRun], [CallsSeats]: the invariant between
      table and trace, that every operation and event keeps it, and which seats
      an answer can fill.  [CallsMain]: the theorems (the table is well formed, a
      key id names one sender, everyone holds the current roster unless an
      over-full output dropped it, the relay serves exactly the participants, a leave wins over a join still out).

    - [Relay]: [daemon/relay.c], the media relay of calls, over three id maps and
      a doubly linked chain per call.  [RelayInv]: its specification, a list of
      entries, and the simulation of every operation.  [RelayMain]: any sequence
      of calls refines the list, and an address once learned is pinned.
    - [Media]: the loop of [Calls] with [Relay] behind it: the loop's
      authorizations and revocations ([relay_call]), the relay's two hooks
      ([relay_gone], [relay_tcp_send]), CALL_MEDIA frames, datagrams and sweeps.
      [MediaMain]: the two stay in step over any run, so a packet goes to the
      others of its sender's call and to no one else; random tokens are assumed
      to differ in the eight bytes the relay indexes.
    - [Pdm]: the encrypted DMs of [daemon/netloop.c], a table of rows that join
      two devices: opening, inviting, answering, the frames between the two with
      their queues, lost connections and sessions that come back, expiry, and
      the three ways a result about such a channel goes out ([fanout_members], the
      walk of a thread reply, [send_to_user]).  [PdmInv]: what the table and
      the trace say of each other.  [PdmMain]: frames and fanned-out results of a DM
      stay between two sessions, its frames arrive in order but for those an
      over-full output drops, a session that comes back finds its place, the
      limits hold; and what goes wrong: thread replies reach other devices, a full
      queue overflows the output, and others.

    End-to-end encryption:

    - [Aead]: what the sources rely on of AES-GCM, as a record of operations with
      its laws, and a scheme that has them.
    - [Sframe]: [shared/e2e_sframe.c], the packets of a call: opening inverts
      sealing exactly, and the replay window is exact below the last counter.

    The client:

    - [Jitter]: [client/core/call/jitter.c], the jitter buffer of a call.
    - [Rows]: arrays of rows, as the client's model uses them.
    - [ClientMsg], [ClientLists], [ClientModel]: [client/core/model.c], the
      messages with their reactions, polls and attachments, the lists (drafts,
      scheduled messages, threads, transfers and the like), and the
      conversations with their transcripts, unread counts and read markers.  The
      events folded are of messages with a nonzero id; an edit may come without
      the answer about its action.

    ** Conventions

    A C integer is a [Z]; conversions and wrap-around are written with [u8] to
    [u64], [i16], [i64] where the source has them.  A byte string is a [list Z],
    a C string the bytes before its NUL, a null pointer [None].  A buffer that is
    written in place is a list with the bytes past its length kept.  Functions
    with several results return a tuple, those that fail an [option], a sum or
    the C return value.  What the source calls outside the repository is a
    section parameter: hashes and ciphers (mbedtls), [inet_pton] and
    [inet_ntop], the random source, whether an allocation succeeds; what a
    theorem needs of it is a hypothesis.  In the client's model, [Outq],
    [Calls] and [Pdm] allocations succeed.  [Calls] reads the clock once per event, takes
    it between 1 and 2^63 ms and counts fewer than 2^31 - 1 events in a run, so that the
    32-bit epochs and join counters do not come round.  In [Pdm] the writer makes no
    channel with the id of a live DM (ids are a primary key, and a closed DM's may be used
    again) and a run has at most 2^63 events; DMs are numbered in the trace.  The text a rich body
    flattens to is a parameter of the client's model.

    ** Fuel

    Loops that are not structural take fuel.  [Framebuf.drain] gets one more than
    the bytes buffered (each frame takes at least eight); the probes and the
    backward shift of [OpenAddr] get the capacity (a table at most half full has
    an empty slot); [Cbor.times] and [map_loop] the bytes left (each turn reads
    one); [Mention], the loops of [Searchq] the length of the text;
    [Outq.backfill_next] the rows of the result and one per phase
    ([turns_enough]), [pump_replay] a slice and the queued results; the walk
    along a call in [Relay] one more than the rows of the table ([ptrs_count]).  The theorems are about the results,
    so running out of fuel would refute them; [idmap_refines_map] states that the
    loops end.  [Sframe.slide] takes the size of the window; for the last 64-bit
    counter no fuel is enough ([last_counter_hangs]).

    ** Not modelled

    The database writer ([daemon/dbwriter.c]) apart from [check_totp] and
    [process_call_auth]; the rest of [daemon/netloop.c]; the client's network
    thread; rich text; the HTTP server, JSON and web pages; the handshakes, the
    ratchet and HPKE of end-to-end encryption; TLS, sockets and threads; audio, video and speech; drawing;
    migrations and configuration; vendored libraries.  The next parts in the plan
    are the text formats ([shared/richtext.c], [shared/url.c], [daemon/http.c]). *)
From stdpp Require Import base tactics list numbers.
From Stdlib Require Export ZArith Lia.
From Stdlib Require Ascii String.

Declare Scope oc_scope.
Delimit Scope oc_scope with oc.
Global Open Scope Z_scope.

(** [lia] on goals with division and modulo by constants. *)
Ltac zlia := Z.to_euclidean_division_equations; lia.

(** ** Machine integers

    A C integer is a [Z]; a conversion to a narrower or unsigned type is
    written out where the source has one. *)

Definition u8 (v : Z) : Z := v mod 2 ^ 8.
Definition u16 (v : Z) : Z := v mod 2 ^ 16.
Definition u32 (v : Z) : Z := v mod 2 ^ 32.
Definition u64 (v : Z) : Z := v mod 2 ^ 64.
(** [(int16_t)v] and [(int64_t)v] of an unsigned value: two's complement. *)
Definition i16 (v : Z) : Z := (v + 2 ^ 15) mod 2 ^ 16 - 2 ^ 15.
Definition i64 (v : Z) : Z := (v + 2 ^ 63) mod 2 ^ 64 - 2 ^ 63.

(** The values a C object of each type can hold. *)
Definition is_u8 (v : Z) : Prop := 0 <= v < 2 ^ 8.
Definition is_u16 (v : Z) : Prop := 0 <= v < 2 ^ 16.
Definition is_u32 (v : Z) : Prop := 0 <= v < 2 ^ 32.
Definition is_u64 (v : Z) : Prop := 0 <= v < 2 ^ 64.
Definition is_i16 (v : Z) : Prop := - 2 ^ 15 <= v < 2 ^ 15.
Definition is_i64 (v : Z) : Prop := - 2 ^ 63 <= v < 2 ^ 63.
Definition is_bytes (l : list Z) : Prop := Forall is_u8 l.

#[export] Instance is_u16_dec v : Decision (is_u16 v).
Proof. unfold is_u16. apply _. Defined.

Ltac unfold_ints :=
  unfold u8, u16, u32, u64, i16, i64, is_u8, is_u16, is_u32, is_u64, is_i16, is_i64 in *.
(** Integer goals about the C types. *)
Ltac ilia := unfold_ints; zlia.

Create HintDb ints.
Create HintDb bytes.

Lemma u8_range v : is_u8 (u8 v). Proof. ilia. Qed.
Lemma u16_range v : is_u16 (u16 v). Proof. ilia. Qed.
Lemma u32_range v : is_u32 (u32 v). Proof. ilia. Qed.
Lemma u64_range v : is_u64 (u64 v). Proof. ilia. Qed.
Lemma i16_range v : is_i16 (i16 v). Proof. ilia. Qed.
Lemma i64_range v : is_i64 (i64 v). Proof. ilia. Qed.
#[export] Hint Resolve u8_range u16_range u32_range u64_range i16_range i64_range : ints.

Lemma u8_id v : is_u8 v → u8 v = v. Proof. ilia. Qed.
Lemma u16_id v : is_u16 v → u16 v = v. Proof. ilia. Qed.
Lemma u32_id v : is_u32 v → u32 v = v. Proof. ilia. Qed.
Lemma u64_id v : is_u64 v → u64 v = v. Proof. ilia. Qed.

(** A signed value sent as its unsigned image and cast back is unchanged. *)
Lemma i16_u16 v : is_i16 v → i16 (u16 v) = v. Proof. ilia. Qed.
Lemma i64_u64 v : is_i64 v → i64 (u64 v) = v. Proof. ilia. Qed.
Lemma u16_i16 v : is_u16 v → u16 (i16 v) = v. Proof. ilia. Qed.
Lemma u64_i64 v : is_u64 v → u64 (i64 v) = v. Proof. ilia. Qed.

(** A [lor] of disjoint bit ranges is a sum. *)
Lemma lor_disjoint_add x y n :
  0 <= n → 0 <= y < 2 ^ n → x mod 2 ^ n = 0 → Z.lor x y = x + y.
Proof.
  intros Hn Hy Hx. symmetry. rewrite <- Z.add_lor_land.
  enough (Z.land x y = 0) as ->; [lia|].
  apply Z.bits_inj'; intros i Hi. rewrite Z.land_spec, Z.bits_0.
  destruct (decide (i < n)) as [Hlt|Hge].
  - assert (Z.testbit x i = false) as ->; [|done].
    rewrite <- (Z.mod_pow2_bits_low x n i) by lia. by rewrite Hx, Z.bits_0.
  - assert (Z.testbit y i = false) as ->; [|apply andb_false_r].
    destruct (decide (y = 0)) as [->|Hy0]; [apply Z.bits_0|].
    apply Z.bits_above_log2; [lia|].
    apply Z.log2_lt_pow2; [lia|]. apply Z.lt_le_trans with (2 ^ n); [lia|].
    apply Z.pow_le_mono_r; lia.
Qed.

(** ** Lists indexed by [Z] *)

Definition zlen {A} (l : list A) : Z := Z.of_nat (length l).
Definition ztake {A} (n : Z) (l : list A) : list A := take (Z.to_nat n) l.
Definition zdrop {A} (n : Z) (l : list A) : list A := drop (Z.to_nat n) l.

Lemma zlen_nonneg {A} (l : list A) : 0 <= zlen l.
Proof. unfold zlen; lia. Qed.
Lemma zlen_nil {A} : zlen (@nil A) = 0. Proof. done. Qed.
Lemma zlen_cons {A} (x : A) l : zlen (x :: l) = 1 + zlen l.
Proof. unfold zlen; simpl; lia. Qed.
Lemma zlen_0 {A} (l : list A) : zlen l = 0 → l = [].
Proof. destruct l; [done|]. unfold zlen. simpl. lia. Qed.
Lemma zlen_app {A} (l1 l2 : list A) : zlen (l1 ++ l2) = zlen l1 + zlen l2.
Proof. unfold zlen; rewrite length_app; lia. Qed.
Lemma zlen_ztake {A} n (l : list A) : 0 <= n <= zlen l → zlen (ztake n l) = n.
Proof. unfold zlen, ztake; rewrite length_take; lia. Qed.
Lemma zlen_zdrop {A} n (l : list A) : 0 <= n <= zlen l → zlen (zdrop n l) = zlen l - n.
Proof. unfold zlen, zdrop; rewrite length_drop; lia. Qed.
Lemma ztake_zdrop {A} n (l : list A) : ztake n l ++ zdrop n l = l.
Proof. apply take_drop. Qed.
Lemma ztake_app_le {A} n (l1 l2 : list A) : n <= zlen l1 → ztake n (l1 ++ l2) = ztake n l1.
Proof. unfold zlen, ztake; intros. apply take_app_le; lia. Qed.
Lemma ztake_app_eq {A} n (l1 l2 : list A) : n = zlen l1 → ztake n (l1 ++ l2) = l1.
Proof. unfold zlen, ztake; intros ->. rewrite Nat2Z.id. apply take_app_length. Qed.
Lemma zdrop_app_eq {A} n (l1 l2 : list A) : n = zlen l1 → zdrop n (l1 ++ l2) = l2.
Proof. unfold zlen, zdrop; intros ->. rewrite Nat2Z.id. apply drop_app_length. Qed.
Lemma ztake_all {A} n (l : list A) : zlen l <= n → ztake n l = l.
Proof. unfold zlen, ztake; intros. apply take_ge; lia. Qed.
Lemma zdrop_all {A} n (l : list A) : zlen l <= n → zdrop n l = [].
Proof. unfold zlen, zdrop; intros. apply drop_ge; lia. Qed.
Lemma zdrop_zdrop {A} a b (l : list A) :
  0 <= a → 0 <= b → zdrop a (zdrop b l) = zdrop (a + b) l.
Proof. unfold zdrop; intros. rewrite drop_drop. f_equal; lia. Qed.
Lemma zdrop_ztake {A} a b (l : list A) :
  0 <= a → 0 <= b → zdrop a (ztake b l) = ztake (b - a) (zdrop a l).
Proof. unfold zdrop, ztake; intros. rewrite skipn_firstn_comm. f_equal; lia. Qed.
Lemma ztake_ztake_le {A} a b (l : list A) : a <= b → ztake a (ztake b l) = ztake a l.
Proof. unfold ztake; intros. rewrite take_take. f_equal; lia. Qed.
Lemma ztake_0 {A} (l : list A) : ztake 0 l = []. Proof. done. Qed.
Lemma zdrop_0 {A} (l : list A) : zdrop 0 l = l. Proof. done. Qed.

Lemma zdrop_app_lt {A} n (l1 l2 : list A) :
  0 <= n <= zlen l1 → zdrop n (l1 ++ l2) = zdrop n l1 ++ l2.
Proof. unfold zlen, zdrop; intros. rewrite drop_app_le; [done|lia]. Qed.

Lemma is_bytes_app l1 l2 : is_bytes (l1 ++ l2) ↔ is_bytes l1 ∧ is_bytes l2.
Proof. apply Forall_app. Qed.
Lemma is_bytes_ztake n l : is_bytes l → is_bytes (ztake n l).
Proof. apply Forall_take. Qed.
Lemma is_bytes_zdrop n l : is_bytes l → is_bytes (zdrop n l).
Proof. apply Forall_drop. Qed.
Lemma is_bytes_nil : is_bytes []. Proof. by constructor. Qed.
#[export] Hint Resolve is_bytes_ztake is_bytes_zdrop is_bytes_nil : bytes.

Lemma Forall_elem {A} (P : A → Prop) l x : Forall P l → x ∈ l → P x.
Proof. rewrite List.Forall_forall, list_elem_of_In. auto. Qed.

Lemma nth_replicate {A} (x : A) n i : nth i (replicate n x) x = x.
Proof. revert i; induction n as [|n IH]; intros [|i]; simpl; auto. Qed.

(** The bytes of a C string literal. *)
Definition text_bytes (s : String.string) : list Z := map (fun a => Z.of_nat (Ascii.nat_of_ascii a)) (String.list_ascii_of_string s).
Definition nonempty {A} (s : list A) : bool := match s with [] => false | _ => true end.

(** ** Counting *)

(** How many elements satisfy [p]. *)
Definition countb {A} (p : A → bool) (l : list A) : nat := length (List.filter p l).
#[global] Arguments countb : simpl never.

Lemma countb_insert {A} (p : A → bool) (l : list A) i x y :
  l !! i = Some x →
  (countb p (<[i := y]> l) + Nat.b2n (p x) = countb p l + Nat.b2n (p y))%nat.
Proof.
  unfold countb. revert i; induction l as [|z l IH]; intros [|i] H; simplify_eq/=.
  - destruct (p x), (p y); simpl; lia.
  - specialize (IH _ H). destruct (p z); simpl in *; lia.
Qed.

Lemma countb_fmap_le {A} (p : A → bool) (f : A → A) l :
  (∀ x, p (f x) = true → p x = true) → (countb p (f <$> l) <= countb p l)%nat.
Proof.
  intros H. unfold countb. induction l as [|x l IH]; [done|]. cbn.
  destruct (p (f x)) eqn:E; [rewrite (H _ E); cbn; lia|]. destruct (p x); cbn; lia.
Qed.

Lemma countb_pos {A} (p : A → bool) (l : list A) i x :
  l !! i = Some x → p x = true → (0 < countb p l)%nat.
Proof.
  unfold countb. revert i; induction l as [|z l IH]; intros [|i] H Hp; simplify_eq/=.
  - rewrite Hp. simpl. lia.
  - destruct (p z); simpl; [lia|eauto].
Qed.

Lemma countb_app {A} (p : A → bool) l k : countb p (l ++ k) = (countb p l + countb p k)%nat.
Proof. unfold countb. by rewrite List.filter_app, length_app. Qed.

Lemma countb_nil {A} (p : A → bool) : countb p [] = 0%nat.
Proof. done. Qed.

Lemma countb_cons {A} (p : A → bool) x l : countb p (x :: l) = (Nat.b2n (p x) + countb p l)%nat.
Proof. unfold countb. simpl. by destruct (p x). Qed.

Lemma countb_replicate {A} (p : A → bool) x n : p x = false → countb p (replicate n x) = 0%nat.
Proof. intros Hp. unfold countb. induction n as [|n IH]; [done|]. simpl. by rewrite Hp. Qed.

(** ** Record update

    [r <| f := v |>] is [r] with the field [f] replaced, for a record with an
    [Eta] instance that rebuilds it from its fields. *)

Class Eta (R : Type) := eta : R → R.
Class Setter {R T : Type} (p : R → T) := set_field : T → R → R.
#[global] Arguments set_field {R T} p {_} v r /.

Ltac solve_setter :=
  lazymatch goal with
  | |- @Setter ?R ?T ?p =>
      let e := constr:(_ : Eta R) in
      let e := eval hnf in e in
      exact (fun (v : T) (r : R) => ltac:(
        let t := eval cbv beta in (e r) in
        let t := eval pattern (p r) in t in
        lazymatch t with ?f _ => let u := eval cbv beta in (f v) in exact u end))
  end.
#[export] Hint Extern 1 (Setter _) => solve_setter : typeclass_instances.

Notation "r <| f := v |>" := (set_field f v r) (at level 12, left associativity) : oc_scope.
Open Scope oc_scope.
