(* ===== verification/Wire.v ===== *)
(** * The wire layer of [shared/protocol.c]

    Write and read cursors over caller-provided buffers, the primitive
    encodings (big-endian integers, length-prefixed runs, fixed-width runs),
    and the frame header: [oc_frame_begin], [oc_frame_end], [oc_parse_frame]
    and [r_done].

    A write buffer is the whole array [data] with its [cap], [len] and sticky
    [overflow] flag; a read buffer is the bytes with a cursor and a sticky
    [underflow] flag.  A slice, a view in C, is the bytes it views.  Writers
    are functions on the write buffer, decoders are an error and state monad
    over the read buffer: a primitive read that underflows marks the buffer
    and yields zeros, and only an early [return] is an [inl]. *)
From S2P Require Import Prelude.
From stdpp Require Import base tactics list numbers.
Local Open Scope Z_scope.

(** ** Constants of [protocol.h] *)

Definition OC_PROTOCOL_VERSION : Z := 33.
Definition OC_HANDSHAKE_VERSION : Z := 1.
Definition OC_HEADER_SIZE : Z := 8.
Definition OC_LENGTH_MIN : Z := 4.
Definition OC_MAX_FRAME_SIZE : Z := 66560.
Definition OC_MAX_BODY_SIZE : Z := 65536.
Definition OC_IDEM_SIZE : Z := 16.

Inductive oc_result :=
  | OC_OK | OC_E_OVERFLOW | OC_E_MALFORMED | OC_E_TOO_LARGE | OC_E_BODY_TOO_LARGE.

#[export] Instance oc_result_eq_dec : EqDecision oc_result.
Proof. solve_decision. Defined.

(** ** Buffers *)

Abbreviation oc_slice := (list Z) (only parsing).

Record oc_wbuf := mk_wbuf {
  w_data : list Z;
  w_cap : Z;
  w_len : Z;
  w_overflow : bool }.

Record oc_rbuf := mk_rbuf {
  r_data : list Z;
  r_len : Z;
  r_pos : Z;
  r_underflow : bool }.

Definition oc_wbuf_init (data : list Z) (cap : Z) : oc_wbuf := mk_wbuf data cap 0 false.
Definition oc_rbuf_init (data : list Z) (len : Z) : oc_rbuf := mk_rbuf data len 0 false.

(** The bytes of a NUL-terminated string held in an array. *)
Fixpoint oc_slice_str (s : list Z) : oc_slice :=
  match s with
  | [] => []
  | c :: s => if c =? 0 then [] else c :: oc_slice_str s
  end.

Definition byte_at (p : list Z) (i : nat) : Z := nth i p 0.

(** Store [bs] at offset [off] of an array. *)
Definition splice (off : Z) (bs data : list Z) : list Z :=
  ztake off data ++ bs ++ zdrop (off + zlen bs) data.

Definition wr := oc_wbuf → oc_wbuf.

(** [size_t] subtraction wraps. *)
Definition w_reserve (n : Z) (w : oc_wbuf) : option Z * oc_wbuf :=
  if w_overflow w || (u64 (w_cap w - w_len w) <? n)
  then (None, mk_wbuf (w_data w) (w_cap w) (w_len w) true)
  else (Some (w_len w), mk_wbuf (w_data w) (w_cap w) (w_len w + n) (w_overflow w)).

(** [if (p) memcpy(p, bs, n)]: the pointer is an offset into [data]. *)
Definition w_store (p : option Z) (bs : list Z) (w : oc_wbuf) : oc_wbuf :=
  match p with
  | Some off => mk_wbuf (splice off bs (w_data w)) (w_cap w) (w_len w) (w_overflow w)
  | None => w
  end.

Definition be16 (v : Z) : list Z := [u8 (Z.shiftr v 8); u8 v].
Definition be32 (v : Z) : list Z :=
  [u8 (Z.shiftr v 24); u8 (Z.shiftr v 16); u8 (Z.shiftr v 8); u8 v].
Definition be64 (v : Z) : list Z :=
  [u8 (Z.shiftr v 56); u8 (Z.shiftr v 48); u8 (Z.shiftr v 40); u8 (Z.shiftr v 32);
   u8 (Z.shiftr v 24); u8 (Z.shiftr v 16); u8 (Z.shiftr v 8); u8 v].

Definition oc_w_u8 (v : Z) : wr := fun w =>
  let '(p, w) := w_reserve 1 w in w_store p [v] w.
Definition oc_w_u16 (v : Z) : wr := fun w =>
  let '(p, w) := w_reserve 2 w in w_store p (be16 v) w.
Definition oc_w_u32 (v : Z) : wr := fun w =>
  let '(p, w) := w_reserve 4 w in w_store p (be32 v) w.
Definition oc_w_u64 (v : Z) : wr := fun w =>
  let '(p, w) := w_reserve 8 w in w_store p (be64 v) w.

Definition w_set_overflow (w : oc_wbuf) : oc_wbuf :=
  mk_wbuf (w_data w) (w_cap w) (w_len w) true.

(** [width] is 2 for [str], 4 for [lstr] and [bytes]. *)
Definition w_lenpref (s : oc_slice) (width : Z) : wr := fun w =>
  let tail := fun w =>
    let '(p, w) := w_reserve (zlen s) w in
    if zlen s =? 0 then w else w_store p s w in
  if width =? 2
  then if 0xFFFF <? zlen s then w_set_overflow w else tail (oc_w_u16 (u16 (zlen s)) w)
  else if 0xFFFFFFFF <? zlen s then w_set_overflow w else tail (oc_w_u32 (u32 (zlen s)) w).

Definition oc_w_str (s : oc_slice) : wr := w_lenpref s 2.
Definition oc_w_lstr (s : oc_slice) : wr := w_lenpref s 4.
Definition oc_w_bytes (s : oc_slice) : wr := w_lenpref s 4.

Definition w_raw (b : list Z) (n : Z) : wr := fun w =>
  let '(p, w) := w_reserve n w in w_store p (ztake n b) w.
Definition oc_w_idem (idem : list Z) : wr := fun w =>
  let '(p, w) := w_reserve OC_IDEM_SIZE w in w_store p (ztake OC_IDEM_SIZE idem) w.

(** ** Reading *)

Definition rd (A : Type) := oc_rbuf → (oc_result + A) * oc_rbuf.

Definition rret {A} (a : A) : rd A := fun r => (inr a, r).
(** An early [return e]. *)
Definition rfail {A} (e : oc_result) : rd A := fun r => (inl e, r).
Definition rbind {A B} (d : rd A) (k : A → rd B) : rd B := fun r =>
  match d r with
  | (inr a, r) => k a r
  | (inl e, r) => (inl e, r)
  end.

Definition r_take (n : Z) : rd (option (list Z)) := fun r =>
  if r_underflow r || (u64 (r_len r - r_pos r) <? n)
  then (inr None, mk_rbuf (r_data r) (r_len r) (r_pos r) true)
  else (inr (Some (ztake n (zdrop (r_pos r) (r_data r)))),
        mk_rbuf (r_data r) (r_len r) (r_pos r + n) (r_underflow r)).

Declare Scope wire_scope.
Delimit Scope wire_scope with wire.
Notation "x <- c ;; k" := (rbind c (fun x => k))
  (at level 100, c at next level, k at level 200, right associativity) : wire_scope.
Definition wseq (f g : wr) : wr := fun w => g (f w).
Notation "f ;; g" := (wseq f g) (at level 100, right associativity) : wire_scope.
Open Scope wire_scope.

Definition oc_r_u8 : rd Z :=
  p <- r_take 1 ;;
  rret (match p with Some p => byte_at p 0 | None => 0 end).
Definition oc_r_u16 : rd Z :=
  p <- r_take 2 ;;
  rret (match p with
        | Some p => u16 (Z.lor (Z.shiftl (byte_at p 0) 8) (byte_at p 1))
        | None => 0 end).
Definition oc_r_u32 : rd Z :=
  p <- r_take 4 ;;
  rret (match p with
        | Some p =>
            Z.lor (Z.lor (Z.lor (u32 (Z.shiftl (byte_at p 0) 24))
                                (u32 (Z.shiftl (byte_at p 1) 16)))
                         (u32 (Z.shiftl (byte_at p 2) 8)))
                  (byte_at p 3)
        | None => 0 end).
Definition oc_r_u64 : rd Z :=
  p <- r_take 8 ;;
  rret (match p with
        | Some p =>
            Z.lor (Z.lor (Z.lor (Z.lor (Z.lor (Z.lor (Z.lor
              (u64 (Z.shiftl (byte_at p 0) 56)) (u64 (Z.shiftl (byte_at p 1) 48)))
              (u64 (Z.shiftl (byte_at p 2) 40))) (u64 (Z.shiftl (byte_at p 3) 32)))
              (u64 (Z.shiftl (byte_at p 4) 24))) (u64 (Z.shiftl (byte_at p 5) 16)))
              (u64 (Z.shiftl (byte_at p 6) 8))) (byte_at p 7)
        | None => 0 end).

(** [(int16_t)oc_r_u16(p)] and [(int64_t)oc_r_u64(p)]. *)
Definition oc_r_i16 : rd Z := v <- oc_r_u16 ;; rret (i16 v).
Definition oc_r_i64 : rd Z := v <- oc_r_u64 ;; rret (i64 v).

Definition r_lenpref (width : Z) : rd oc_slice :=
  n <- (if width =? 2 then oc_r_u16 else oc_r_u32) ;;
  p <- r_take n ;;
  rret (match p with Some p => p | None => [] end).

Definition oc_r_str : rd oc_slice := r_lenpref 2.
Definition oc_r_lstr : rd oc_slice := r_lenpref 4.
Definition oc_r_bytes : rd oc_slice := r_lenpref 4.

Definition r_raw (n : Z) : rd (list Z) :=
  p <- r_take n ;;
  rret (match p with Some p => p | None => replicate (Z.to_nat n) 0 end).
Definition oc_r_idem : rd (list Z) :=
  p <- r_take OC_IDEM_SIZE ;;
  rret (match p with Some p => p | None => replicate (Z.to_nat OC_IDEM_SIZE) 0 end).

(** [p->underflow = 1], as a decoder that refuses a value in place does. *)
Definition r_set_underflow : rd unit := fun r =>
  (inr tt, mk_rbuf (r_data r) (r_len r) (r_pos r) true).
(** [if (b) p->underflow = 1;] and [if (b) return OC_E_MALFORMED;]. *)
Definition r_refuse_if (b : bool) : rd unit := if b then r_set_underflow else rret tt.
Definition r_fail_if (b : bool) : rd unit := if b then rfail OC_E_MALFORMED else rret tt.
(** [!p->underflow && p->pos < p->len]: an optional tail follows. *)
Definition r_more : rd bool := fun r =>
  (inr (negb (r_underflow r) && (r_pos r <? r_len r)), r).

(** [for (i = 0; i < n; i++)] with one [rd] per iteration, and the same with
    [&& !p->underflow] in the condition. *)
Fixpoint r_for {A} (n : nat) (d : rd A) : rd (list A) :=
  match n with
  | O => rret []
  | S n => x <- d ;; l <- r_for n d ;; rret (x :: l)
  end.
Fixpoint r_for_ok {A} (n : nat) (d : rd A) : rd (list A) :=
  match n with
  | O => rret []
  | S n => fun r =>
      if r_underflow r then (inr [], r)
      else (x <- d ;; l <- r_for_ok n d ;; rret (x :: l)) r
  end.
(** [x ? 1u : 0u]. *)
Definition b01 (x : Z) : Z := if x =? 0 then 0 else 1.
(** [n > max ? max : n]. *)
Definition clamp (max n : Z) : Z := if max <? n then max else n.
(** [for (i = 0; i < n; i++) f(arr[i])] on the write side. *)
Fixpoint w_each {A} (f : A → wr) (l : list A) : wr :=
  match l with
  | [] => id
  | x :: l => f x ;; w_each f l
  end.

(** [return r_done(p)] with the decoded structure. *)
Definition r_done {A} (m : A) : rd A := fun r =>
  if r_underflow r then (inl OC_E_MALFORMED, r)
  else if negb (r_pos r =? r_len r) then (inl OC_E_MALFORMED, r)
  else (inr m, r).

(** ** Framing *)

Record oc_header := mk_header { h_length : Z; h_version : Z; h_msg_type : Z }.

Definition oc_frame_begin (version msg_type : Z) (w : oc_wbuf) : Z * oc_wbuf :=
  let off := w_len w in
  (off, (oc_w_u32 0 ;; oc_w_u16 version ;; oc_w_u16 msg_type) w).

Definition oc_frame_end (length_off : Z) (w : oc_wbuf) : oc_result * oc_wbuf :=
  let back := mk_wbuf (w_data w) (w_cap w) length_off (w_overflow w) in
  if w_overflow w then (OC_E_OVERFLOW, back)
  else
    let total := u64 (w_len w - length_off) in
    let length := u64 (total - 4) in
    if OC_MAX_FRAME_SIZE <? total then (OC_E_TOO_LARGE, back)
    else (OC_OK, w_store (Some length_off) (be32 length) w).

(** An encoder's frame: [oc_frame_begin], the payload writes, [oc_frame_end]. *)
Definition encoder := oc_wbuf → oc_result * oc_wbuf.
Definition frame (version msg_type : Z) (payload : wr) : encoder := fun w =>
  let '(off, w) := oc_frame_begin version msg_type w in
  oc_frame_end off (payload w).

(** [OC_CHECK_BODY]: refuse a body over the cap before writing anything. *)
Definition OC_CHECK_BODY (s : oc_slice) (e : encoder) : encoder := fun w =>
  if OC_MAX_BODY_SIZE <? zlen s then (OC_E_BODY_TOO_LARGE, w) else e w.
(** A guard that returns [OC_E_MALFORMED] before writing anything. *)
Definition enc_refuse_if (b : bool) (e : encoder) : encoder := fun w =>
  if b then (OC_E_MALFORMED, w) else e w.

Definition oc_parse_frame (data : list Z) : oc_result + (oc_header * oc_rbuf) :=
  let len := zlen data in
  if len <? OC_HEADER_SIZE then inl OC_E_MALFORMED else
  let length :=
    Z.lor (Z.lor (Z.lor (u32 (Z.shiftl (byte_at data 0) 24))
                        (u32 (Z.shiftl (byte_at data 1) 16)))
                 (u32 (Z.shiftl (byte_at data 2) 8)))
          (byte_at data 3) in
  if length <? OC_LENGTH_MIN then inl OC_E_MALFORMED else
  if OC_MAX_FRAME_SIZE <? u64 (length + 4) then inl OC_E_TOO_LARGE else
  if len <? u64 (length + 4) then inl OC_E_MALFORMED else
  inr (mk_header length
         (u16 (Z.lor (Z.shiftl (byte_at data 4) 8) (byte_at data 5)))
         (u16 (Z.lor (Z.shiftl (byte_at data 6) 8) (byte_at data 7))),
       oc_rbuf_init (ztake (u64 (length - 4)) (zdrop OC_HEADER_SIZE data)) (u64 (length - 4))).

(** Decode one payload from a fresh cursor over it. *)
Definition run_decode {A} (d : rd A) (payload : list Z) : oc_result + A :=
  fst (d (oc_rbuf_init payload (zlen payload))).
