(* ===== verification/WireLogic.v ===== *)
(** * Reasoning about writers and decoders

    [Writes f o]: the writer [f] appends exactly the bytes [o] when they fit
    and otherwise marks overflow, leaving what was written before untouched.
    [Parses d o a]: decoder [d] reads back [a] from the bytes [o].
    [rd_wp d Q] and [rd_done d Q]: if [d] succeeds, [Q] holds of its result
    and of the bytes it consumed, all of them for [rd_done].  Each has a rule per primitive
    and per combinator, so a frame's proof is a walk over its definition. *)
From stdpp Require Import base tactics list numbers.
From S2P Require Import Prelude Wire.
Local Open Scope Z_scope.
Local Open Scope wire_scope.

(** ** Write buffers *)

Definition wbuf_ok (w : oc_wbuf) : Prop :=
  0 <= w_len w <= w_cap w ∧ w_cap w < 2 ^ 64 ∧ zlen (w_data w) = w_cap w.

(** What a caller that sends [w.len] bytes sends. *)
Definition written (w : oc_wbuf) : list Z := ztake (w_len w) (w_data w).

Definition fits (w : oc_wbuf) (bs : list Z) : bool :=
  negb (w_overflow w) && (w_len w + zlen bs <=? w_cap w).

Definition put (w : oc_wbuf) (bs : list Z) : oc_wbuf :=
  mk_wbuf (splice (w_len w) bs (w_data w)) (w_cap w) (w_len w + zlen bs) false.

(** [w'] extends [w]: the bytes of [w] are still there. *)
Definition w_ext (w w' : oc_wbuf) : Prop :=
  wbuf_ok w' ∧ w_cap w' = w_cap w ∧ w_len w <= w_len w' ∧
  ztake (w_len w) (w_data w') = ztake (w_len w) (w_data w).

Definition oapp (o1 o2 : option (list Z)) : option (list Z) :=
  match o1, o2 with Some a, Some b => Some (a ++ b) | _, _ => None end.
Fixpoint oconcat (l : list (option (list Z))) : option (list Z) :=
  match l with [] => Some [] | o :: l => oapp o (oconcat l) end.

Definition Writes (f : wr) (o : option (list Z)) : Prop :=
  ∀ w, wbuf_ok w →
    w_ext w (f w) ∧
    match o with
    | Some bs => if fits w bs then f w = put w bs else w_overflow (f w) = true
    | None => w_overflow (f w) = true
    end.

Lemma zlen_splice off bs data :
  0 <= off → off + zlen bs <= zlen data → zlen (splice off bs data) = zlen data.
Proof.
  intros. pose proof (zlen_nonneg bs). unfold splice.
  rewrite !zlen_app, zlen_ztake, zlen_zdrop by lia. lia.
Qed.

Lemma splice_below off bs data n :
  0 <= off <= zlen data → n <= off → ztake n (splice off bs data) = ztake n data.
Proof.
  intros. unfold splice. rewrite ztake_app_le by (rewrite zlen_ztake; lia).
  by apply ztake_ztake_le.
Qed.

Lemma splice_splice off a b data :
  0 <= off → off + zlen a + zlen b <= zlen data →
  splice (off + zlen a) b (splice off a data) = splice off (a ++ b) data.
Proof.
  intros. pose proof (zlen_nonneg a). pose proof (zlen_nonneg b). unfold splice.
  rewrite zlen_app. rewrite (app_assoc (ztake off data) a).
  rewrite ztake_app_eq by (rewrite zlen_app, zlen_ztake; lia).
  rewrite <- !app_assoc. do 3 f_equal.
  replace (off + zlen a + zlen b) with (zlen b + (off + zlen a)) by lia.
  rewrite <- zdrop_zdrop by lia. rewrite app_assoc.
  rewrite zdrop_app_eq by (rewrite zlen_app, zlen_ztake; lia).
  rewrite zdrop_zdrop by lia. f_equal; lia.
Qed.

Lemma fits_iff w bs :
  fits w bs = true ↔ w_overflow w = false ∧ w_len w + zlen bs <= w_cap w.
Proof.
  unfold fits. rewrite andb_true_iff, negb_true_iff, Z.leb_le. done.
Qed.

Lemma w_ext_refl w : wbuf_ok w → w_ext w w.
Proof. intros H. repeat split; try apply H; lia. Qed.

Lemma w_ext_trans w1 w2 w3 : w_ext w1 w2 → w_ext w2 w3 → w_ext w1 w3.
Proof.
  intros (Hok2 & Hc2 & Hl2 & Ht2) (Hok3 & Hc3 & Hl3 & Ht3).
  split; [done|]. split; [lia|]. split; [lia|].
  rewrite <- Ht2. rewrite <- (ztake_ztake_le _ (w_len w2)) by lia.
  rewrite Ht3. by apply ztake_ztake_le.
Qed.

Lemma put_ext w bs : wbuf_ok w → fits w bs = true → w_ext w (put w bs).
Proof.
  intros (Hl & Hc & Hd) [_ Hf]%fits_iff. pose proof (zlen_nonneg bs).
  unfold w_ext, wbuf_ok, put; simpl.
  rewrite zlen_splice, splice_below by lia. repeat split; lia.
Qed.

Lemma put_put w a b :
  wbuf_ok w → fits w (a ++ b) = true → put (put w a) b = put w (a ++ b).
Proof.
  intros (Hl & Hc & Hd) [_ Hf]%fits_iff. rewrite zlen_app in Hf.
  unfold put; simpl. rewrite splice_splice, zlen_app by lia. f_equal; lia.
Qed.

Lemma written_put w bs :
  wbuf_ok w → fits w bs = true → written (put w bs) = written w ++ bs.
Proof.
  intros (Hl & Hc & Hd) [_ Hf]%fits_iff. pose proof (zlen_nonneg bs).
  unfold written, put, splice; simpl. rewrite app_assoc.
  apply ztake_app_eq. rewrite zlen_app, zlen_ztake; lia.
Qed.

Lemma fits_app w a b : wbuf_ok w → fits w a = true →
  fits (put w a) b = fits w (a ++ b).
Proof.
  intros _ [Ho Hf]%fits_iff. unfold fits, put; simpl.
  rewrite Ho, zlen_app. simpl. f_equal. lia.
Qed.

Lemma fits_app_l w a b : fits w (a ++ b) = true → fits w a = true.
Proof.
  rewrite !fits_iff, zlen_app. pose proof (zlen_nonneg b). intros []; split; [done|lia].
Qed.

Lemma overflow_not_fits w bs : w_overflow w = true → fits w bs = false.
Proof. unfold fits. by intros ->. Qed.

(** The one primitive: reserve the bytes and store them. *)
Lemma writes_reserve n bs :
  n = zlen bs →
  Writes (fun w => let '(p, w) := w_reserve n w in w_store p bs w) (Some bs).
Proof.
  intros -> w Hw. destruct (fits w bs) eqn:Hf.
  - enough (E : (let '(p, w0) := w_reserve (zlen bs) w in w_store p bs w0) = put w bs).
    { rewrite E. split; [by apply put_ext|done]. }
    apply fits_iff in Hf as [Ho Hf]. destruct Hw as (Hl & Hc & Hd).
    unfold w_reserve. rewrite Ho. simpl. unfold u64. rewrite Z.mod_small by lia.
    destruct (Z.ltb_spec (w_cap w - w_len w) (zlen bs)); [lia|]. done.
  - unfold w_reserve, fits, u64 in *. pose proof (zlen_nonneg bs).
    destruct Hw as (Hl & Hc & Hd). rewrite Z.mod_small by lia.
    destruct (w_overflow w); simpl in *.
    + repeat split; simpl; lia.
    + destruct (Z.ltb_spec (w_cap w - w_len w) (zlen bs)); simpl; [|lia].
      repeat split; simpl; lia.
Qed.

Lemma writes_seq f g o1 o2 : Writes f o1 → Writes g o2 → Writes (f ;; g) (oapp o1 o2).
Proof.
  intros Hf Hg w Hw. unfold wseq. destruct (Hf w Hw) as [Ef Rf].
  destruct (Hg (f w) ltac:(apply Ef)) as [Eg Rg].
  split; [by eapply w_ext_trans|].
  assert (Hst : w_overflow (f w) = true → w_overflow (g (f w)) = true).
  { intros Ho. destruct o2 as [b|]; [|done]. by rewrite overflow_not_fits in Rg. }
  destruct o1 as [a|], o2 as [b|]; simpl; auto.
  destruct (fits w a) eqn:Fa.
  - rewrite Rf in *. rewrite fits_app in Rg by done.
    destruct (fits w (a ++ b)) eqn:Fab; [|done]. rewrite Rg. by apply put_put.
  - destruct (fits w (a ++ b)) eqn:Fab; [|auto].
    apply fits_app_l in Fab. congruence.
Qed.

Lemma writes_id : Writes id (Some []).
Proof.
  intros w Hw. split; [by apply w_ext_refl|].
  destruct (fits w []) eqn:F.
  - apply fits_iff in F as [Ho F]. unfold id, put, splice. rewrite zlen_nil, Z.add_0_r.
    simpl. rewrite ztake_zdrop. destruct w; simpl in *; by subst.
  - unfold fits in F. rewrite zlen_nil in F. destruct Hw as (? & ? & ?).
    destruct (Z.leb_spec (w_len w + 0) (w_cap w)); [|lia].
    unfold id. by destruct (w_overflow w).
Qed.

Lemma writes_overflow : Writes w_set_overflow None.
Proof. intros w (Hl & Hc & Hd). repeat split; simpl; lia. Qed.

Lemma writes_ext f g o : (∀ w, f w = g w) → Writes f o → Writes g o.
Proof. intros E H w Hw. rewrite <- E. by apply H. Qed.

Definition str_bytes (s : list Z) : option (list Z) :=
  if 0xFFFF <? zlen s then None else Some (be16 (zlen s) ++ s).
Definition lstr_bytes (s : list Z) : option (list Z) :=
  if 0xFFFFFFFF <? zlen s then None else Some (be32 (zlen s) ++ s).

Lemma writes_u8 v : Writes (oc_w_u8 v) (Some [v]).
Proof. by apply writes_reserve. Qed.
Lemma writes_u16 v : Writes (oc_w_u16 v) (Some (be16 v)).
Proof. by apply writes_reserve. Qed.
Lemma writes_u32 v : Writes (oc_w_u32 v) (Some (be32 v)).
Proof. by apply writes_reserve. Qed.
Lemma writes_u64 v : Writes (oc_w_u64 v) (Some (be64 v)).
Proof. by apply writes_reserve. Qed.
Lemma writes_raw b n : zlen b = n → Writes (w_raw b n) (Some b).
Proof.
  intros <-. unfold w_raw. rewrite (ztake_all (zlen b) b) by lia. by apply writes_reserve.
Qed.
Lemma writes_idem b : zlen b = OC_IDEM_SIZE → Writes (oc_w_idem b) (Some b).
Proof. intros H. exact (writes_raw b _ H). Qed.

(** The tail of [w_lenpref], where an empty run is reserved but not copied. *)
Lemma writes_run s :
  Writes (fun w => let '(p, w) := w_reserve (zlen s) w in
                   if zlen s =? 0 then w else w_store p s w) (Some s).
Proof.
  destruct s as [|c s].
  - eapply writes_ext; [|apply (writes_reserve 0 []); done].
    intros w. simpl. unfold w_reserve. destruct (w_overflow w || _); [done|].
    simpl. f_equal. unfold splice. rewrite (zlen_nil (A:=Z)), Z.add_0_r. apply ztake_zdrop.
  - eapply writes_ext; [|apply (writes_reserve (zlen (c :: s)) (c :: s)); done].
    intros w. rewrite zlen_cons. pose proof (zlen_nonneg s).
    destruct (Z.eqb_spec (1 + zlen s) 0); [lia|done].
Qed.

Lemma writes_str s : Writes (oc_w_str s) (str_bytes s).
Proof.
  unfold oc_w_str, w_lenpref, str_bytes. change (2 =? 2) with true. cbv iota.
  destruct (Z.ltb_spec 0xFFFF (zlen s)); [apply writes_overflow|].
  rewrite u16_id by (pose proof (zlen_nonneg s); ilia).
  exact (writes_seq _ _ _ _ (writes_u16 _) (writes_run s)).
Qed.

Lemma writes_lstr s : Writes (oc_w_lstr s) (lstr_bytes s).
Proof.
  unfold oc_w_lstr, w_lenpref, lstr_bytes. change (4 =? 2) with false. cbv iota.
  destruct (Z.ltb_spec 0xFFFFFFFF (zlen s)); [apply writes_overflow|].
  rewrite u32_id by (pose proof (zlen_nonneg s); ilia).
  exact (writes_seq _ _ _ _ (writes_u32 _) (writes_run s)).
Qed.

Lemma writes_bytes s : Writes (oc_w_bytes s) (lstr_bytes s).
Proof. exact (writes_lstr s). Qed.

Lemma writes_each {A} (f : A → wr) (ser : A → option (list Z)) l :
  (∀ x, x ∈ l → Writes (f x) (ser x)) → Writes (w_each f l) (oconcat (ser <$> l)).
Proof.
  induction l as [|x l IH]; intros H; simpl; [apply writes_id|].
  apply writes_seq; [apply H; left|]. apply IH. intros y Hy. apply H. by right.
Qed.

Lemma writes_if (b : bool) f g o1 o2 :
  Writes f o1 → Writes g o2 → Writes (if b then f else g) (if b then o1 else o2).
Proof. by destruct b. Qed.

(** ** Frames *)

Definition frame_bytes (version msg_type : Z) (bs : list Z) : list Z :=
  be32 (4 + zlen bs) ++ be16 version ++ be16 msg_type ++ bs.

Lemma zlen_be16 v : zlen (be16 v) = 2. Proof. done. Qed.
Lemma zlen_be32 v : zlen (be32 v) = 4. Proof. done. Qed.
Lemma zlen_be64 v : zlen (be64 v) = 8. Proof. done. Qed.

Lemma zlen_frame_bytes version ty bs : zlen (frame_bytes version ty bs) = 8 + zlen bs.
Proof. unfold frame_bytes. rewrite !zlen_app, !zlen_be16, zlen_be32. lia. Qed.

(** A failed encoder left the frames before it as they were, and its own out. *)
Definition enc_failed (w : oc_wbuf) (e : oc_result) (w' : oc_wbuf) : Prop :=
  e ≠ OC_OK ∧ wbuf_ok w' ∧ w_cap w' = w_cap w ∧
  w_len w' = w_len w ∧ written w' = written w.

(** The whole behaviour of an encoder on every buffer: [o] is the payload it
    means, [None] when a field cannot be represented or a guard refuses. *)
Definition Encodes (enc : encoder) (version ty : Z) (o : option (list Z)) : Prop :=
  ∀ w, wbuf_ok w →
    match o with
    | Some bs =>
        if fits w (frame_bytes version ty bs) && (8 + zlen bs <=? OC_MAX_FRAME_SIZE)
        then enc w = (OC_OK, put w (frame_bytes version ty bs))
        else enc_failed w (fst (enc w)) (snd (enc w))
    | None => enc_failed w (fst (enc w)) (snd (enc w))
    end.

Lemma enc_failed_back w w' e :
  wbuf_ok w → w_ext w w' → e ≠ OC_OK →
  enc_failed w e (mk_wbuf (w_data w') (w_cap w') (w_len w) (w_overflow w')).
Proof.
  intros (Hl & Hc & Hd) ((Hl' & Hc' & Hd') & Hcap & Hle & Ht) He.
  unfold enc_failed, wbuf_ok, written; simpl. repeat split; try done; lia.
Qed.

Lemma enc_refused w e : wbuf_ok w → e ≠ OC_OK → enc_failed w e w.
Proof. intros H He. by repeat split; try apply H. Qed.

(** Backpatching the length field of a frame just put. *)
Lemma put_backpatch w (old new rest : list Z) :
  wbuf_ok w → zlen old = zlen new → fits w (old ++ rest) = true →
  w_store (Some (w_len w)) new (put w (old ++ rest)) = put w (new ++ rest).
Proof.
  intros (Hl & Hc & Hd) Hlen [Ho Hf]%fits_iff. rewrite zlen_app in Hf.
  pose proof (zlen_nonneg new). pose proof (zlen_nonneg rest).
  unfold w_store, put; simpl. rewrite !zlen_app, Hlen. f_equal. unfold splice.
  rewrite ztake_app_eq by (rewrite zlen_ztake; lia). rewrite <- app_assoc. f_equal.
  rewrite (app_assoc (ztake _ _)), <- !app_assoc. f_equal.
  rewrite (app_assoc (ztake _ _)).
  rewrite zdrop_app_eq by (rewrite zlen_app, zlen_ztake; lia).
  rewrite !zlen_app, Hlen. done.
Qed.

Lemma writes_header version ty body o :
  Writes body o →
  Writes ((oc_w_u32 0 ;; oc_w_u16 version ;; oc_w_u16 ty) ;; body)
         (oapp (Some (be32 0 ++ be16 version ++ be16 ty)) o).
Proof.
  intros H. apply writes_seq; [|done].
  change (Some (be32 0 ++ be16 version ++ be16 ty))
    with (oapp (Some (be32 0)) (oapp (Some (be16 version)) (Some (be16 ty)))).
  auto using writes_seq, writes_u16, writes_u32.
Qed.

Lemma frame_encodes version ty body o :
  Writes body o → Encodes (frame version ty body) version ty o.
Proof.
  intros Hb w Hw. pose proof (writes_header version ty body o Hb w Hw) as [Hext Hr].
  unfold frame, oc_frame_begin. change (body ((oc_w_u32 0;; oc_w_u16 version;; oc_w_u16 ty) w))
    with (((oc_w_u32 0;; oc_w_u16 version;; oc_w_u16 ty) ;; body) w).
  set (w1 := ((oc_w_u32 0;; oc_w_u16 version;; oc_w_u16 ty) ;; body) w) in *.
  unfold oc_frame_end. destruct o as [bs|]; simpl in Hr.
  2: { rewrite Hr. simpl. by apply enc_failed_back. }
  assert (Hfit : fits w ((be32 0 ++ be16 version ++ be16 ty) ++ bs)
                 = fits w (frame_bytes version ty bs)).
  { unfold fits. by rewrite zlen_frame_bytes, zlen_app. }
  change (u8 (0 ≫ 24) :: u8 (0 ≫ 16) :: u8 (0 ≫ 8) :: u8 0 :: u8 (version ≫ 8)
    :: u8 version :: u8 (ty ≫ 8) :: u8 ty :: bs)
    with ((be32 0 ++ be16 version ++ be16 ty) ++ bs) in Hr.
  rewrite Hfit in Hr. destruct (fits w (frame_bytes version ty bs)) eqn:F; cbn [andb].
  2: { rewrite Hr. simpl. by apply enc_failed_back. }
  assert (E : w_store (Some (w_len w)) (be32 (4 + zlen bs)) w1
              = put w (frame_bytes version ty bs)).
  { rewrite Hr. apply (put_backpatch w (be32 0) (be32 (4 + zlen bs))); done. }
  assert (Hlen : w_len w1 = w_len w + (8 + zlen bs)).
  { rewrite Hr. unfold put, w_len at 1. by rewrite zlen_app. }
  assert (Ho : w_overflow w1 = false) by (by rewrite Hr).
  pose proof F as [_ F2]%fits_iff. rewrite zlen_frame_bytes in F2.
  pose proof (zlen_nonneg bs). destruct (Hw) as (Hl & Hc & Hd).
  rewrite Ho, Hlen. replace (w_len w + (8 + zlen bs) - w_len w) with (8 + zlen bs) by lia.
  rewrite (u64_id (8 + zlen bs)) by ilia. rewrite u64_id by ilia.
  destruct (Z.ltb_spec OC_MAX_FRAME_SIZE (8 + zlen bs)).
  - destruct (Z.leb_spec (8 + zlen bs) OC_MAX_FRAME_SIZE); [lia|]. simpl.
    rewrite <- Ho. by apply enc_failed_back.
  - destruct (Z.leb_spec (8 + zlen bs) OC_MAX_FRAME_SIZE); [|lia]. cbn [fst snd].
    replace (8 + zlen bs - 4) with (4 + zlen bs) by lia. by rewrite E.
Qed.

Lemma check_body_encodes s enc version ty o :
  Encodes enc version ty o →
  Encodes (OC_CHECK_BODY s enc) version ty (if OC_MAX_BODY_SIZE <? zlen s then None else o).
Proof.
  intros H. unfold OC_CHECK_BODY. destruct (OC_MAX_BODY_SIZE <? zlen s); [|done].
  intros w Hw. by apply enc_refused.
Qed.

Lemma refuse_encodes b enc version ty o :
  Encodes enc version ty o →
  Encodes (enc_refuse_if b enc) version ty (if b then None else o).
Proof.
  intros H. unfold enc_refuse_if. destruct b; [|done]. intros w Hw. by apply enc_refused.
Qed.

(** ** Error paths of the frame writer *)

Lemma frame_end_too_large off w :
  w_overflow w = false → OC_MAX_FRAME_SIZE < u64 (w_len w - off) →
  oc_frame_end off w = (OC_E_TOO_LARGE, mk_wbuf (w_data w) (w_cap w) off false).
Proof.
  intros Ho Hz. unfold oc_frame_end. rewrite Ho.
  by destruct (Z.ltb_spec OC_MAX_FRAME_SIZE (u64 (w_len w - off))); [|lia].
Qed.

(** A failure by size, unlike one by lack of room, does not stick.  When
    [oc_frame_end] refuses a frame over the wire limit it takes the frame out of
    the buffer but leaves [overflow] clear, and a next frame that fits the room
    left is appended to the same buffer. *)
Theorem too_large_does_not_stick off w version type payload bs :
  wbuf_ok w → w_overflow w = false → 0 <= off → off + OC_MAX_FRAME_SIZE < w_len w →
  Writes payload (Some bs) → 8 + zlen bs <= OC_MAX_FRAME_SIZE →
  fst (oc_frame_end off w) = OC_E_TOO_LARGE ∧
  let w1 := snd (oc_frame_end off w) in
  written w1 = ztake off (w_data w) ∧
  ∃ w2, frame version type payload w1 = (OC_OK, w2) ∧
        written w2 = written w1 ++ frame_bytes version type bs.
Proof.
  intros Hw Ho Hoff Hlen HW Hbs. pose proof Hw as (Hl & Hc & Hd).
  unfold OC_MAX_FRAME_SIZE in *. pose proof (zlen_nonneg bs).
  rewrite frame_end_too_large; [|done|rewrite u64_id by ilia; unfold OC_MAX_FRAME_SIZE; lia].
  split; [done|]. cbv zeta. cbn [fst snd]. split; [done|].
  set (w1 := mk_wbuf (w_data w) (w_cap w) off false).
  assert (Hw1 : wbuf_ok w1) by (split_and!; simpl; lia).
  pose proof (frame_encodes version type payload (Some bs) HW w1 Hw1) as HE.
  assert (F : fits w1 (frame_bytes version type bs) = true).
  { apply fits_iff. split; [done|]. rewrite zlen_frame_bytes. simpl. lia. }
  simpl in HE. rewrite F in HE.
  destruct (Z.leb_spec (8 + zlen bs) OC_MAX_FRAME_SIZE); [|unfold OC_MAX_FRAME_SIZE in *; lia].
  simpl in HE. eexists. split; [exact HE|]. by apply written_put.
Qed.

Lemma too_large_does_not_stick_witness :
  fst (oc_frame_end 0 (mk_wbuf (replicate (Z.to_nat 66600) 0) 66600 66561 false)) = OC_E_TOO_LARGE.
Proof.
  assert (Hz : zlen (replicate (Z.to_nat 66600) 0) = 66600)
    by (unfold zlen; rewrite length_replicate; lia).
  refine (proj1 (too_large_does_not_stick 0 _ 33 1 id [] _ _ _ _ writes_id _));
    unfold wbuf_ok, OC_MAX_FRAME_SIZE; cbn [w_len w_cap w_data w_overflow];
    rewrite ?Hz; change (zlen []) with 0; split_and?; (done || lia).
Defined.
