(* ===== verification/WireRead.v ===== *)
(** * Reasoning about decoders

    [Parses d o a] is completeness (what was written is read back),
    [rd_wp]/[rd_done] are soundness (what is accepted is what would have been
    written), [rd_safe] is memory safety of the cursor on every path. *)
From stdpp Require Import base tactics list numbers.
From S2P Require Import Prelude Wire WireLogic.
Local Open Scope Z_scope.
Local Open Scope wire_scope.

Definition rbuf_ok (r : oc_rbuf) : Prop :=
  0 <= r_pos r <= r_len r ∧ r_len r < 2 ^ 64 ∧ zlen (r_data r) = r_len r.

(** The bytes not yet read. *)
Definition rest (r : oc_rbuf) : list Z := zdrop (r_pos r) (r_data r).
Definition r_adv (n : Z) (r : oc_rbuf) : oc_rbuf :=
  mk_rbuf (r_data r) (r_len r) (r_pos r + n) (r_underflow r).

Lemma zlen_rest r : rbuf_ok r → zlen (rest r) = r_len r - r_pos r.
Proof. intros (H1 & H2 & H3). unfold rest. rewrite zlen_zdrop; lia. Qed.

Lemma r_adv_ok r n : rbuf_ok r → 0 <= n <= zlen (rest r) → rbuf_ok (r_adv n r).
Proof.
  intros H Hn. rewrite zlen_rest in Hn by done. destruct H as (H1 & H2 & H3).
  unfold rbuf_ok, r_adv; simpl. repeat split; (done || lia).
Qed.

Lemma rest_adv r n : rbuf_ok r → 0 <= n → rest (r_adv n r) = zdrop n (rest r).
Proof.
  intros (H1 & _) Hn. unfold rest, r_adv; simpl. rewrite zdrop_zdrop by lia. f_equal; lia.
Qed.

Lemma r_adv_adv a b r : r_adv b (r_adv a r) = r_adv (a + b) r.
Proof. unfold r_adv; simpl. f_equal; lia. Qed.

Lemma rbuf_init_ok bs : zlen bs < 2 ^ 64 → rbuf_ok (oc_rbuf_init bs (zlen bs)).
Proof. intros. unfold rbuf_ok; simpl. pose proof (zlen_nonneg bs). repeat split; (done || lia). Qed.

Lemma rest_init bs : rest (oc_rbuf_init bs (zlen bs)) = bs.
Proof. done. Qed.

(** ** Integer codecs *)

Definition of_be16 (p : list Z) : Z := u16 (Z.lor (Z.shiftl (byte_at p 0) 8) (byte_at p 1)).
Definition of_be32 (p : list Z) : Z :=
  Z.lor (Z.lor (Z.lor (u32 (Z.shiftl (byte_at p 0) 24)) (u32 (Z.shiftl (byte_at p 1) 16)))
               (u32 (Z.shiftl (byte_at p 2) 8))) (byte_at p 3).
Definition of_be64 (p : list Z) : Z :=
  Z.lor (Z.lor (Z.lor (Z.lor (Z.lor (Z.lor (Z.lor
    (u64 (Z.shiftl (byte_at p 0) 56)) (u64 (Z.shiftl (byte_at p 1) 48)))
    (u64 (Z.shiftl (byte_at p 2) 40))) (u64 (Z.shiftl (byte_at p 3) 32)))
    (u64 (Z.shiftl (byte_at p 4) 24))) (u64 (Z.shiftl (byte_at p 5) 16)))
    (u64 (Z.shiftl (byte_at p 6) 8))) (byte_at p 7).

Lemma shl_small (b n w : Z) : is_u8 b → 0 <= n → n + 8 <= w → Z.shiftl b n mod 2 ^ w = b * 2 ^ n.
Proof.
  intros Hb Hn Hw. rewrite Z.shiftl_mul_pow2 by done. apply Z.mod_small. split; [ilia|].
  apply Z.lt_le_trans with (2 ^ 8 * 2 ^ n).
  - apply Z.mul_lt_mono_pos_r; [lia|]. apply Hb.
  - rewrite <- Z.pow_add_r by lia. apply Z.pow_le_mono_r; lia.
Qed.

Lemma of_be16_sum b0 b1 : is_u8 b0 → is_u8 b1 → of_be16 [b0; b1] = b0 * 2 ^ 8 + b1.
Proof.
  intros H0 H1. unfold of_be16, byte_at; simpl nth. rewrite Z.shiftl_mul_pow2 by lia.
  unfold is_u8 in *. rewrite (lor_disjoint_add _ _ 8) by zlia. apply u16_id. ilia.
Qed.

Lemma of_be32_sum b0 b1 b2 b3 : is_u8 b0 → is_u8 b1 → is_u8 b2 → is_u8 b3 →
  of_be32 [b0; b1; b2; b3] = b0 * 2 ^ 24 + b1 * 2 ^ 16 + b2 * 2 ^ 8 + b3.
Proof.
  intros H0 H1 H2 H3. unfold of_be32, byte_at; simpl nth. unfold u32.
  rewrite !shl_small by (done || lia). unfold is_u8 in *.
  rewrite (lor_disjoint_add _ (b1 * 2 ^ 16) 24) by zlia.
  rewrite (lor_disjoint_add _ (b2 * 2 ^ 8) 16) by zlia.
  rewrite (lor_disjoint_add _ b3 8) by zlia. done.
Qed.

Lemma of_be64_sum b0 b1 b2 b3 b4 b5 b6 b7 :
  is_u8 b0 → is_u8 b1 → is_u8 b2 → is_u8 b3 → is_u8 b4 → is_u8 b5 → is_u8 b6 → is_u8 b7 →
  of_be64 [b0; b1; b2; b3; b4; b5; b6; b7] =
  b0 * 2 ^ 56 + b1 * 2 ^ 48 + b2 * 2 ^ 40 + b3 * 2 ^ 32 +
  b4 * 2 ^ 24 + b5 * 2 ^ 16 + b6 * 2 ^ 8 + b7.
Proof.
  intros. unfold of_be64, byte_at; simpl nth. unfold u64.
  rewrite !shl_small by (done || lia). unfold is_u8 in *.
  rewrite (lor_disjoint_add _ (b1 * 2 ^ 48) 56) by zlia.
  rewrite (lor_disjoint_add _ (b2 * 2 ^ 40) 48) by zlia.
  rewrite (lor_disjoint_add _ (b3 * 2 ^ 32) 40) by zlia.
  rewrite (lor_disjoint_add _ (b4 * 2 ^ 24) 32) by zlia.
  rewrite (lor_disjoint_add _ (b5 * 2 ^ 16) 24) by zlia.
  rewrite (lor_disjoint_add _ (b6 * 2 ^ 8) 16) by zlia.
  rewrite (lor_disjoint_add _ b7 8) by zlia. done.
Qed.

Lemma of_be16_be16 v : is_u16 v → of_be16 (be16 v) = v.
Proof.
  intros. unfold be16. rewrite of_be16_sum by auto with ints.
  rewrite Z.shiftr_div_pow2 by lia. ilia.
Qed.
Lemma of_be32_be32 v : is_u32 v → of_be32 (be32 v) = v.
Proof.
  intros. unfold be32. rewrite of_be32_sum by auto with ints.
  rewrite !Z.shiftr_div_pow2 by lia. ilia.
Qed.
Lemma of_be64_be64 v : is_u64 v → of_be64 (be64 v) = v.
Proof.
  intros. unfold be64. rewrite of_be64_sum by auto with ints.
  rewrite !Z.shiftr_div_pow2 by lia. ilia.
Qed.

Ltac inv_bytes := unfold is_bytes in *;
  repeat match goal with H : Forall _ (_ :: _) |- _ => inversion_clear H end.

(** The other direction: the bytes of a decoded integer. *)
Lemma be16_of_be16 p : zlen p = 2 → is_bytes p → is_u16 (of_be16 p) ∧ be16 (of_be16 p) = p.
Proof.
  intros Hl Hb. destruct p as [|b0 [|b1 [|]]]; try done.
  2: { rewrite !zlen_cons in Hl. pose proof (zlen_nonneg l). lia. }
  inv_bytes.
  rewrite of_be16_sum by done. unfold be16. rewrite Z.shiftr_div_pow2 by lia.
  split; [ilia|]. repeat f_equal; ilia.
Qed.
Lemma be32_of_be32 p : zlen p = 4 → is_bytes p → is_u32 (of_be32 p) ∧ be32 (of_be32 p) = p.
Proof.
  intros Hl Hb. destruct p as [|b0 [|b1 [|b2 [|b3 [|]]]]]; try done.
  2: { rewrite !zlen_cons in Hl. pose proof (zlen_nonneg l). lia. }
  inv_bytes.
  rewrite of_be32_sum by done. unfold be32. rewrite !Z.shiftr_div_pow2 by lia.
  split; [ilia|]. repeat f_equal; ilia.
Qed.
Lemma be64_of_be64 p : zlen p = 8 → is_bytes p → is_u64 (of_be64 p) ∧ be64 (of_be64 p) = p.
Proof.
  intros Hl Hb.
  destruct p as [|b0 [|b1 [|b2 [|b3 [|b4 [|b5 [|b6 [|b7 [|]]]]]]]]]; try done.
  2: { rewrite !zlen_cons in Hl. pose proof (zlen_nonneg l). lia. }
  inv_bytes.
  rewrite of_be64_sum by done. unfold be64. rewrite !Z.shiftr_div_pow2 by lia.
  split; [ilia|]. repeat f_equal; ilia.
Qed.

(** ** Completeness: what was written is read back *)

Definition Parses {A} (d : rd A) (o : option (list Z)) (a : A) : Prop :=
  ∀ bs, o = Some bs → ∀ r tl, rbuf_ok r → r_underflow r = false →
    rest r = bs ++ tl → d r = (inr a, r_adv (zlen bs) r).

Lemma parses_take bs : Parses (r_take (zlen bs)) (Some bs) (Some bs).
Proof.
  intros bs' [= <-] r tl Hr Hu Hrest. unfold r_take. rewrite Hu. simpl.
  pose proof (zlen_rest r Hr) as Hz. rewrite Hrest, zlen_app in Hz.
  pose proof (zlen_nonneg tl). pose proof (zlen_nonneg bs).
  destruct (Hr) as (H1 & H2 & H3). rewrite u64_id by ilia.
  destruct (Z.ltb_spec (r_len r - r_pos r) (zlen bs)); [lia|].
  unfold rest in Hrest. rewrite Hrest, ztake_app_eq by done. unfold r_adv. by rewrite Hu.
Qed.

Lemma parses_ret {A} (a : A) : Parses (rret a) (Some []) a.
Proof.
  intros bs [= <-] r tl _ _ _. unfold rret, r_adv. rewrite zlen_nil, Z.add_0_r. by destruct r.
Qed.

Lemma parses_bind {A B} (d : rd A) (k : A → rd B) o1 o2 a b :
  Parses d o1 a → Parses (k a) o2 b → Parses (rbind d k) (oapp o1 o2) b.
Proof.
  intros Hd Hk bs Hbs r tl Hr Hu Hrest.
  destruct o1 as [b1|], o2 as [b2|]; try done. injection Hbs as <-.
  rewrite <- app_assoc in Hrest. unfold rbind. rewrite (Hd b1 eq_refl r _ Hr Hu Hrest).
  pose proof (zlen_nonneg b1). pose proof (zlen_nonneg (b2 ++ tl)).
  rewrite (Hk b2 eq_refl _ tl).
  - by rewrite r_adv_adv, zlen_app.
  - apply r_adv_ok; [done|]. rewrite Hrest, zlen_app. lia.
  - done.
  - rewrite rest_adv by done. rewrite Hrest. by apply zdrop_app_eq.
Qed.

(** The same when the bytes were written by one [oc_w] call after another. *)
Lemma parses_map {A B} (d : rd A) (f : A → B) o a :
  Parses d o a → Parses (x <- d ;; rret (f x)) o (f a).
Proof.
  intros H bs -> . replace bs with (bs ++ []) by apply app_nil_r.
  apply (parses_bind d (fun x => rret (f x)) (Some bs) (Some []) a (f a)); [|apply parses_ret|done].
  intros bs' [= <-]. by apply H.
Qed.

Lemma parses_u8 v : Parses oc_r_u8 (Some [v]) v.
Proof. exact (parses_map (r_take 1) _ _ _ (parses_take [v])). Qed.
Lemma parses_u16 v : is_u16 v → Parses oc_r_u16 (Some (be16 v)) v.
Proof.
  intros H. pose proof (parses_map (r_take 2)
    (fun p => match p with Some p => of_be16 p | None => 0 end) _ _ (parses_take (be16 v))) as P.
  simpl in P. by rewrite of_be16_be16 in P.
Qed.
Lemma parses_u32 v : is_u32 v → Parses oc_r_u32 (Some (be32 v)) v.
Proof.
  intros H. pose proof (parses_map (r_take 4)
    (fun p => match p with Some p => of_be32 p | None => 0 end) _ _ (parses_take (be32 v))) as P.
  simpl in P. by rewrite of_be32_be32 in P.
Qed.
Lemma parses_u64 v : is_u64 v → Parses oc_r_u64 (Some (be64 v)) v.
Proof.
  intros H. pose proof (parses_map (r_take 8)
    (fun p => match p with Some p => of_be64 p | None => 0 end) _ _ (parses_take (be64 v))) as P.
  simpl in P. by rewrite of_be64_be64 in P.
Qed.
Lemma parses_i16 v : is_i16 v → Parses oc_r_i16 (Some (be16 (u16 v))) v.
Proof.
  intros H. rewrite <- (i16_u16 v H) at 2. apply parses_map, parses_u16. auto with ints.
Qed.
Lemma parses_i64 v : is_i64 v → Parses oc_r_i64 (Some (be64 (u64 v))) v.
Proof.
  intros H. rewrite <- (i64_u64 v H) at 2. apply parses_map, parses_u64. auto with ints.
Qed.
Lemma parses_raw b n : zlen b = n → Parses (r_raw n) (Some b) b.
Proof.
  intros <-. exact (parses_map (r_take (zlen b)) _ _ _ (parses_take b)).
Qed.
Lemma parses_idem b : zlen b = OC_IDEM_SIZE → Parses oc_r_idem (Some b) b.
Proof. intros H. exact (parses_raw b _ H). Qed.

Lemma parses_str s : Parses oc_r_str (str_bytes s) s.
Proof.
  unfold str_bytes. destruct (Z.ltb_spec 0xFFFF (zlen s)); [by intros bs|].
  pose proof (zlen_nonneg s). unfold oc_r_str, r_lenpref. change (2 =? 2) with true. cbv iota.
  apply (parses_bind oc_r_u16 _ (Some (be16 (zlen s))) (Some s) (zlen s)).
  - apply parses_u16. ilia.
  - exact (parses_map (r_take (zlen s)) _ _ _ (parses_take s)).
Qed.
Lemma parses_lstr s : Parses oc_r_lstr (lstr_bytes s) s.
Proof.
  unfold lstr_bytes. destruct (Z.ltb_spec 0xFFFFFFFF (zlen s)); [by intros bs|].
  pose proof (zlen_nonneg s). unfold oc_r_lstr, r_lenpref. change (4 =? 2) with false. cbv iota.
  apply (parses_bind oc_r_u32 _ (Some (be32 (zlen s))) (Some s) (zlen s)).
  - apply parses_u32. ilia.
  - exact (parses_map (r_take (zlen s)) _ _ _ (parses_take s)).
Qed.
Lemma parses_bytes s : Parses oc_r_bytes (lstr_bytes s) s.
Proof. exact (parses_lstr s). Qed.

Lemma oapp_nil_r o : oapp o (Some []) = o.
Proof. destruct o; simpl; [|done]. by rewrite app_nil_r. Qed.
Lemma oapp_assoc o1 o2 o3 : oapp (oapp o1 o2) o3 = oapp o1 (oapp o2 o3).
Proof. destruct o1, o2, o3; simpl; [|done..]. by rewrite app_assoc. Qed.

Lemma parses_for {A} (d : rd A) (ser : A → option (list Z)) (l : list A) :
  (∀ x, x ∈ l → Parses d (ser x) x) → Parses (r_for (length l) d) (oconcat (ser <$> l)) l.
Proof.
  induction l as [|x l IH]; intros H; simpl; [apply parses_ret|].
  eapply parses_bind; [apply H; left|].
  apply (parses_map (r_for (length l) d) (fun l => x :: l)), IH. intros y Hy. apply H. by right.
Qed.

Lemma parses_for_ok {A} (d : rd A) (ser : A → option (list Z)) (l : list A) :
  (∀ x, x ∈ l → Parses d (ser x) x) → Parses (r_for_ok (length l) d) (oconcat (ser <$> l)) l.
Proof.
  induction l as [|x l IH]; intros H; simpl; [apply parses_ret|].
  intros bs Hbs r tl Hr Hu Hrest. rewrite Hu. revert bs Hbs r tl Hr Hu Hrest.
  change (Parses (x <- d ;; l <- r_for_ok (length l) d ;; rret (x :: l))
    (oapp (ser x) (oconcat (ser <$> l))) (x :: l)).
  eapply parses_bind; [apply H; left|].
  apply (parses_map (r_for_ok (length l) d) (fun l => x :: l)), IH. intros y Hy. apply H. by right.
Qed.

(** A complete decoder on exactly the payload. *)
Definition ParsesAll {A} (d : rd A) (o : option (list Z)) (a : A) : Prop :=
  ∀ bs, o = Some bs → ∀ r, rbuf_ok r → r_underflow r = false → rest r = bs →
    d r = (inr a, r_adv (zlen bs) r).

Lemma parses_all_done {A} (m : A) : ParsesAll (r_done m) (Some []) m.
Proof.
  intros bs [= <-] r Hr Hu Hrest. unfold r_done. rewrite Hu.
  pose proof (zlen_rest r Hr) as Hz. rewrite Hrest, zlen_nil in Hz.
  replace (r_pos r =? r_len r) with true by (symmetry; apply Z.eqb_eq; lia). simpl.
  unfold r_adv. rewrite zlen_nil, Z.add_0_r. by destruct r.
Qed.

Lemma parses_all_bind {A B} (d : rd A) (k : A → rd B) o1 o2 a b :
  Parses d o1 a → ParsesAll (k a) o2 b → ParsesAll (rbind d k) (oapp o1 o2) b.
Proof.
  intros Hd Hk bs Hbs r Hr Hu Hrest.
  destruct o1 as [b1|], o2 as [b2|]; try done. injection Hbs as <-.
  unfold rbind. rewrite (Hd b1 eq_refl r _ Hr Hu Hrest).
  pose proof (zlen_nonneg b1). pose proof (zlen_nonneg b2).
  rewrite (Hk b2 eq_refl).
  - by rewrite r_adv_adv, zlen_app.
  - apply r_adv_ok; [done|]. rewrite Hrest, zlen_app. lia.
  - done.
  - rewrite rest_adv by done. rewrite Hrest. by apply zdrop_app_eq.
Qed.

Lemma parses_all_assoc {A B C} (d : rd A) (f : A → rd B) (k : B → rd C) o c :
  ParsesAll (x <- d ;; rbind (f x) k) o c → ParsesAll (rbind (rbind d f) k) o c.
Proof.
  intros H bs Hbs r Hr Hu Hrest. rewrite <- (H bs Hbs r Hr Hu Hrest).
  unfold rbind. by destruct (d r) as [[e|a] r'].
Qed.

Lemma parses_all_last {A B} (d : rd A) (f : A → B) o a :
  Parses d o a → ParsesAll (x <- d ;; r_done (f x)) o (f a).
Proof.
  intros H. rewrite <- (oapp_nil_r o). eapply parses_all_bind; [done|apply parses_all_done].
Qed.

(** The optional tail: present exactly when bytes remain. *)
Lemma parses_all_more {B} (k : bool → rd B) o b :
  (∀ bs, o = Some bs → ParsesAll (k (0 <? zlen bs)) (Some bs) b) →
  ParsesAll (rbind r_more k) o b.
Proof.
  intros H bs Hbs r Hr Hu Hrest. unfold rbind, r_more. rewrite Hu. cbn [negb andb].
  pose proof (zlen_rest r Hr) as Hz. rewrite Hrest in Hz.
  replace (r_pos r <? r_len r) with (0 <? zlen bs).
  - by apply (H bs Hbs).
  - destruct (Z.ltb_spec 0 (zlen bs)), (Z.ltb_spec (r_pos r) (r_len r)); (done || lia).
Qed.

Lemma parses_all_run {A} (d : rd A) bs (m : A) :
  ParsesAll d (Some bs) m → zlen bs < 2 ^ 64 → run_decode d bs = inr m.
Proof.
  intros H Hz. unfold run_decode.
  by rewrite (H bs eq_refl _ (rbuf_init_ok bs Hz) eq_refl (rest_init bs)).
Qed.

(** ** Soundness: what a decoder accepts *)

Definition rbuf_bytes (r : oc_rbuf) : Prop := rbuf_ok r ∧ is_bytes (r_data r).

(** If [d] succeeds and nothing underflowed, [Q] holds of the value and of
    exactly the bytes consumed. *)
Definition rd_wp {A} (d : rd A) (Q : A → list Z → Prop) : Prop :=
  ∀ r a r', rbuf_bytes r → d r = (inr a, r') →
    rbuf_bytes r' ∧
    (r_underflow r' = false →
     r_underflow r = false ∧ ∃ bs, rest r = bs ++ rest r' ∧ Q a bs).

(** A complete decoder consumed its whole input. *)
Definition rd_done {A} (d : rd A) (Q : A → list Z → Prop) : Prop :=
  ∀ r a r', rbuf_bytes r → d r = (inr a, r') → r_underflow r = false ∧ Q a (rest r).

Lemma wp_mono {A} (d : rd A) (P Q : A → list Z → Prop) :
  rd_wp d P → (∀ a bs, P a bs → Q a bs) → rd_wp d Q.
Proof.
  intros H HPQ r a r' Hr Hd. destruct (H r a r' Hr Hd) as [Hr' Hp]. split; [done|].
  intros Hu. destruct (Hp Hu) as (Hu0 & bs & ? & ?). eauto.
Qed.

Lemma wp_ret {A} (a : A) (Q : A → list Z → Prop) : Q a [] → rd_wp (rret a) Q.
Proof. intros H r a' r' Hr [= <- <-]. split; [done|]. intros Hu. split; [done|]. by exists []. Qed.

Lemma wp_fail {A} e (Q : A → list Z → Prop) : rd_wp (rfail e) Q.
Proof. by intros r a r' Hr [=]. Qed.

Lemma wp_bind {A B} (d : rd A) (k : A → rd B) (P : A → list Z → Prop) (Q : B → list Z → Prop) :
  rd_wp d P →
  (∀ a, rd_wp (k a) (fun b b2 => ∀ b1, P a b1 → Q b (b1 ++ b2))) →
  rd_wp (rbind d k) Q.
Proof.
  intros Hd Hk r b r' Hr E. unfold rbind in E.
  destruct (d r) as [[e|a] r1] eqn:Ed; [done|].
  destruct (Hd r a r1 Hr Ed) as [Hr1 Hp].
  destruct (Hk a r1 b r' Hr1 E) as [Hr' Hq]. split; [done|].
  intros Hu. destruct (Hq Hu) as (Hu1 & b2 & E2 & HQ).
  destruct (Hp Hu1) as (Hu0 & b1 & E1 & HP). split; [done|].
  exists (b1 ++ b2). rewrite E1, E2, app_assoc. auto.
Qed.

Lemma done_bind {A B} (d : rd A) (k : A → rd B) (P : A → list Z → Prop) (Q : B → list Z → Prop) :
  rd_wp d P →
  (∀ a, rd_done (k a) (fun b b2 => ∀ b1, P a b1 → Q b (b1 ++ b2))) →
  rd_done (rbind d k) Q.
Proof.
  intros Hd Hk r b r' Hr E. unfold rbind in E.
  destruct (d r) as [[e|a] r1] eqn:Ed; [done|].
  destruct (Hd r a r1 Hr Ed) as [Hr1 Hp].
  destruct (Hk a r1 b r' Hr1 E) as [Hu1 HQ].
  destruct (Hp Hu1) as (Hu0 & b1 & E1 & HP). rewrite E1. auto.
Qed.

Lemma done_r_done {A} (m : A) (Q : A → list Z → Prop) : Q m [] → rd_done (r_done m) Q.
Proof.
  intros H r a r' Hr E. unfold r_done in E. destruct (r_underflow r) eqn:U; [done|].
  destruct (Z.eqb_spec (r_pos r) (r_len r)) as [Ep|]; [|done]. injection E as <- <-.
  split; [done|]. destruct Hr as [(H1 & H2 & H3) _]. unfold rest.
  rewrite zdrop_all by lia. done.
Qed.

Lemma done_fail {A} e (Q : A → list Z → Prop) : rd_done (rfail e) Q.
Proof. by intros r a r' Hr [=]. Qed.

Lemma done_more {B} (k : bool → rd B) (Q : B → list Z → Prop) :
  rd_done (k true) (fun b bs => bs ≠ [] → Q b bs) →
  rd_done (k false) (fun b bs => bs = [] → Q b bs) →
  rd_done (rbind r_more k) Q.
Proof.
  intros Ht Hf r b r' Hr E. unfold rbind, r_more in E.
  pose proof (zlen_rest r (proj1 Hr)) as Hz.
  destruct (negb (r_underflow r) && (r_pos r <? r_len r)) eqn:C.
  - destruct (Ht r b r' Hr E) as [Hu HQ]. split; [done|]. apply HQ.
    intros En. rewrite En, zlen_nil in Hz.
    apply andb_true_iff in C as [_ C%Z.ltb_lt]. lia.
  - destruct (Hf r b r' Hr E) as [Hu HQ]. split; [done|]. apply HQ.
    rewrite Hu in C. simpl in C. apply Z.ltb_ge in C.
    destruct (rest r); [done|]. rewrite zlen_cons in Hz. pose proof (zlen_nonneg l). lia.
Qed.

Lemma done_run {A} (d : rd A) (Q : A → list Z → Prop) bs m :
  rd_done d Q → is_bytes bs → zlen bs < 2 ^ 64 → run_decode d bs = inr m → Q m bs.
Proof.
  intros H Hb Hz E. unfold run_decode in E.
  destruct (d (oc_rbuf_init bs (zlen bs))) as [x r'] eqn:Ed. simpl in E. subst x.
  exact (proj2 (H _ m r' (conj (rbuf_init_ok bs Hz) Hb) Ed)).
Qed.

Lemma wp_take n : 0 <= n →
  rd_wp (r_take n) (fun p bs => p = Some bs ∧ zlen bs = n ∧ is_bytes bs).
Proof.
  intros Hn r a r' [Hr Hb] E. destruct (Hr) as (H1 & H2 & H3). unfold r_take in E.
  rewrite (u64_id (r_len r - r_pos r)) in E by ilia.
  destruct (r_underflow r || _) eqn:C; injection E as <- <-; simpl; [done|].
  apply orb_false_iff in C as [-> C%Z.ltb_ge]. split.
  { split; [|done]. unfold rbuf_ok; simpl. repeat split; (done || lia). }
  intros _. split; [done|]. exists (ztake n (rest r)).
  assert (rest (mk_rbuf (r_data r) (r_len r) (r_pos r + n) false) = zdrop n (rest r)) as ->.
  { unfold rest; simpl. rewrite zdrop_zdrop by lia. f_equal. lia. }
  rewrite ztake_zdrop. split; [done|]. split; [done|].
  rewrite zlen_ztake by (rewrite zlen_rest by done; lia).
  split; [done|]. apply is_bytes_ztake, is_bytes_zdrop, Hb.
Qed.

Lemma wp_map {A B} (d : rd A) (f : A → B) (P : A → list Z → Prop) (Q : B → list Z → Prop) :
  rd_wp d P → (∀ a bs, P a bs → Q (f a) bs) → rd_wp (x <- d ;; rret (f x)) Q.
Proof.
  intros H HPQ. eapply wp_bind; [done|]. intros a. apply wp_ret. intros b1 HP.
  rewrite app_nil_r. auto.
Qed.

Lemma wp_u8 : rd_wp oc_r_u8 (fun v bs => is_u8 v ∧ Some [v] = Some bs).
Proof.
  eapply wp_map; [by apply wp_take|]. intros p bs (-> & Hz & Hb).
  destruct bs as [|b [|]]; try done.
  - inv_bytes. done.
  - rewrite !zlen_cons in Hz. pose proof (zlen_nonneg l). lia.
Qed.
Lemma wp_u16 : rd_wp oc_r_u16 (fun v bs => is_u16 v ∧ Some (be16 v) = Some bs).
Proof.
  eapply (wp_map _ (fun p => match p with Some p => of_be16 p | None => 0 end));
    [by apply wp_take|]. intros p bs (-> & Hz & Hb).
  destruct (be16_of_be16 bs Hz Hb) as [? ->]. done.
Qed.
Lemma wp_u32 : rd_wp oc_r_u32 (fun v bs => is_u32 v ∧ Some (be32 v) = Some bs).
Proof.
  eapply (wp_map _ (fun p => match p with Some p => of_be32 p | None => 0 end));
    [by apply wp_take|]. intros p bs (-> & Hz & Hb).
  destruct (be32_of_be32 bs Hz Hb) as [? ->]. done.
Qed.
Lemma wp_u64 : rd_wp oc_r_u64 (fun v bs => is_u64 v ∧ Some (be64 v) = Some bs).
Proof.
  eapply (wp_map _ (fun p => match p with Some p => of_be64 p | None => 0 end));
    [by apply wp_take|]. intros p bs (-> & Hz & Hb).
  destruct (be64_of_be64 bs Hz Hb) as [? ->]. done.
Qed.
Lemma wp_i16 : rd_wp oc_r_i16 (fun v bs => is_i16 v ∧ Some (be16 (u16 v)) = Some bs).
Proof.
  eapply wp_map; [apply wp_u16|]. intros v bs [Hv [= <-]]. rewrite u16_i16 by done.
  auto with ints.
Qed.
Lemma wp_i64 : rd_wp oc_r_i64 (fun v bs => is_i64 v ∧ Some (be64 (u64 v)) = Some bs).
Proof.
  eapply wp_map; [apply wp_u64|]. intros v bs [Hv [= <-]]. rewrite u64_i64 by done.
  auto with ints.
Qed.
Lemma wp_raw n : 0 <= n →
  rd_wp (r_raw n) (fun b bs => (zlen b = n ∧ is_bytes b) ∧ Some b = Some bs).
Proof.
  intros Hn. eapply wp_map; [by apply wp_take|]. by intros p bs (-> & Hz & Hb).
Qed.
Lemma wp_idem :
  rd_wp oc_r_idem (fun b bs => (zlen b = OC_IDEM_SIZE ∧ is_bytes b) ∧ Some b = Some bs).
Proof. by apply (wp_raw OC_IDEM_SIZE). Qed.

(** A length prefix is in range even when the read underflowed to 0. *)
Lemma take_result n r p r' : 0 <= n → rbuf_bytes r → r_take n r = (inr p, r') →
  p = None ∨ ∃ bs, p = Some bs ∧ zlen bs = n ∧ is_bytes bs.
Proof.
  intros Hn Hr E. pose proof (wp_take n Hn r p r' Hr E) as [_ H].
  unfold r_take in E. destruct (r_underflow r || _) eqn:C; injection E as <- <-; [by left|right].
  apply orb_false_iff in C as [Hu _]. destruct (H Hu) as (_ & bs & _ & ?). eauto.
Qed.

Lemma typed_u16 r v r' : rbuf_bytes r → oc_r_u16 r = (inr v, r') → 0 <= v.
Proof.
  intros Hr. unfold oc_r_u16, rbind. destruct (r_take 2 r) as [[e|p] r1] eqn:E; [done|].
  intros [= <- <-]. destruct p; [|done]. apply u16_range.
Qed.
Lemma typed_u32 r v r' : rbuf_bytes r → oc_r_u32 r = (inr v, r') → 0 <= v.
Proof.
  intros Hr. unfold oc_r_u32, rbind. destruct (r_take 4 r) as [[e|p] r1] eqn:E; [done|].
  intros [= <- <-]. destruct (take_result 4 r p r1 ltac:(lia) Hr E) as [->|(bs & -> & Hz & Hb)];
    [done|]. apply (be32_of_be32 bs Hz Hb).
Qed.

(** Reads of length-prefixed runs. *)
Lemma wp_lenpref (prefix : rd Z) (be : Z → list Z) (lim : Z → Prop) :
  (∀ r v r', rbuf_bytes r → prefix r = (inr v, r') → 0 <= v) →
  rd_wp prefix (fun v bs => lim v ∧ Some (be v) = Some bs) →
  rd_wp (n <- prefix ;; p <- r_take n ;; rret (match p with Some p => p | None => [] end))
    (fun s bs => (lim (zlen s) ∧ is_bytes s) ∧ Some (be (zlen s) ++ s) = Some bs).
Proof.
  intros Hpos Hp r s r' Hr E. unfold rbind at 1 in E.
  destruct (prefix r) as [[e|n] r1] eqn:Ep; [done|].
  destruct (Hp r n r1 Hr Ep) as [Hr1 Hp1]. pose proof (Hpos r n r1 Hr Ep) as Hn.
  destruct (wp_map (r_take n) (fun p => match p with Some p => p | None => [] end) _
    (fun s bs => s = bs ∧ zlen bs = n ∧ is_bytes bs) (wp_take n Hn)
    ltac:(by intros ? ? (-> & ? & ?)) r1 s r' Hr1 E) as [Hr' Hq].
  split; [done|]. intros Hu. destruct (Hq Hu) as (Hu1 & b2 & E2 & <- & Hz & Hb).
  destruct (Hp1 Hu1) as (Hu0 & b1 & E1 & Hl & [= <-]). split; [done|].
  exists (be n ++ s). rewrite E1, E2, app_assoc, Hz. done.
Qed.

(** What every C slice holds: bytes, at a length the prefix can carry. *)
Definition is_str (s : list Z) : Prop := is_bytes s ∧ zlen s <= 0xFFFF.

Lemma wp_str : rd_wp oc_r_str (fun s bs => is_bytes s ∧ str_bytes s = Some bs).
Proof.
  eapply wp_mono; [apply (wp_lenpref oc_r_u16 be16 is_u16); [apply typed_u16|apply wp_u16]|].
  intros s bs ((Hl & Hb) & E). split; [done|]. unfold str_bytes.
  destruct (Z.ltb_spec 0xFFFF (zlen s)); [ilia|done].
Qed.
Lemma wp_lstr : rd_wp oc_r_lstr (fun s bs => is_bytes s ∧ lstr_bytes s = Some bs).
Proof.
  eapply wp_mono; [apply (wp_lenpref oc_r_u32 be32 is_u32); [apply typed_u32|apply wp_u32]|].
  intros s bs ((Hl & Hb) & E). split; [done|]. unfold lstr_bytes.
  destruct (Z.ltb_spec 0xFFFFFFFF (zlen s)); [ilia|done].
Qed.
Lemma wp_bytes : rd_wp oc_r_bytes (fun s bs => is_bytes s ∧ lstr_bytes s = Some bs).
Proof. exact wp_lstr. Qed.

Lemma wp_refuse_if b : rd_wp (r_refuse_if b) (fun _ bs => b = false ∧ Some [] = Some bs).
Proof.
  destruct b; [|by apply wp_ret].
  intros r [] r' Hr [= <-]. split; [|done]. by destruct Hr.
Qed.
Lemma wp_fail_if b : rd_wp (r_fail_if b) (fun _ bs => b = false ∧ Some [] = Some bs).
Proof. destruct b; [apply wp_fail|by apply wp_ret]. Qed.
Lemma parses_refuse_if b : b = false → Parses (r_refuse_if b) (Some []) tt.
Proof. intros ->. apply parses_ret. Qed.
Lemma parses_fail_if b : b = false → Parses (r_fail_if b) (Some []) tt.
Proof. intros ->. apply parses_ret. Qed.

Lemma oconcat_cons {A} (ser : A → option (list Z)) x l :
  oconcat (ser <$> x :: l) = oapp (ser x) (oconcat (ser <$> l)).
Proof. done. Qed.

Section Loops.
Context {A : Type} (d : rd A) (R : A → Prop) (ser : A → option (list Z)).
Context (Hd : rd_wp d (fun a bs => R a ∧ ser a = Some bs)).

Lemma wp_for n :
  rd_wp (r_for n d)
    (fun l bs => (length l = n ∧ Forall R l) ∧ oconcat (ser <$> l) = Some bs).
Proof using Hd.
  induction n as [|n IH]; simpl; [by apply wp_ret|].
  eapply wp_bind; [exact Hd|]. intros x. eapply wp_map; [exact IH|].
  intros l bs ((Hl & HR) & E) b1 (Hx & Ex). rewrite oconcat_cons, Ex, E.
  split; [|done]. split; [by simpl; rewrite Hl|by constructor].
Qed.

Lemma wp_for_ok n :
  rd_wp (r_for_ok n d)
    (fun l bs => (length l = n ∧ Forall R l) ∧ oconcat (ser <$> l) = Some bs).
Proof using Hd.
  induction n as [|n IH]; simpl; [by apply wp_ret|].
  intros r l r' Hr E. destruct (r_underflow r) eqn:Hu.
  { injection E as <- <-. split; [done|]. rewrite Hu. done. }
  revert r l r' Hr E Hu.
  enough (H : rd_wp (x <- d ;; l <- r_for_ok n d ;; rret (x :: l))
    (fun l bs => (length l = S n ∧ Forall R l) ∧ oconcat (ser <$> l) = Some bs)).
  { intros r l r' Hr E Hu. 
    destruct (H r l r' Hr E) as [? Hq]. split; [done|]. intros Hu'. by destruct (Hq Hu'). }
  eapply wp_bind; [exact Hd|]. intros x. eapply wp_map; [exact IH|].
  intros l bs ((Hl & HR) & E) b1 (Hx & Ex). rewrite oconcat_cons, Ex, E.
  split; [|done]. split; [by simpl; rewrite Hl|by constructor].
Qed.
End Loops.

(** ** Safety of the cursor

    On every path, accepting or not, the cursor stays inside its buffer and
    the buffer is not changed. *)
Definition rd_safe {A} (d : rd A) : Prop :=
  ∀ r, rbuf_bytes r →
    rbuf_bytes (snd (d r)) ∧ r_data (snd (d r)) = r_data r ∧ r_pos r <= r_pos (snd (d r)).

Lemma safe_ret {A} (a : A) : rd_safe (rret a). Proof. intros r Hr. split; [done|]. simpl; split; [done|lia]. Qed.
Lemma safe_fail {A} e : rd_safe (@rfail A e). Proof. intros r Hr. split; [done|]. simpl; split; [done|lia]. Qed.
Lemma safe_bind_typed {A B} (d : rd A) (k : A → rd B) (T : A → Prop) :
  rd_safe d → (∀ r a r', rbuf_bytes r → d r = (inr a, r') → T a) →
  (∀ a, T a → rd_safe (k a)) → rd_safe (rbind d k).
Proof.
  intros Hd HT Hk r Hr. unfold rbind. pose proof (Hd r Hr) as (H1 & H2 & H3).
  destruct (d r) as [[e|a] r'] eqn:E; simpl in *; [done|].
  destruct (Hk a (HT r a r' Hr E) r' H1) as (? & ? & ?).
  split; [done|]. split; [congruence|lia].
Qed.
Lemma safe_bind {A B} (d : rd A) (k : A → rd B) :
  rd_safe d → (∀ a, rd_safe (k a)) → rd_safe (rbind d k).
Proof. intros. by eapply (safe_bind_typed d k (fun _ => True)). Qed.
Lemma safe_take n : 0 <= n → rd_safe (r_take n).
Proof.
  intros Hn r [Hr Hb]. destruct (Hr) as (H1 & H2 & H3). unfold r_take.
  rewrite (u64_id (r_len r - r_pos r)) by ilia.
  destruct (r_underflow r) eqn:U; simpl; [split; [done|]; split; [done|lia]|].
  destruct (Z.ltb_spec (r_len r - r_pos r) n); simpl; [split; [done|]; split; [done|lia]|].
  unfold rbuf_bytes, rbuf_ok; simpl. repeat split; (done || lia).
Qed.
Lemma safe_done {A} (m : A) : rd_safe (r_done m).
Proof.
  intros r Hr. unfold r_done. destruct (r_underflow r), (negb (r_pos r =? r_len r)); simpl;
    (split; [done|]; split; [done|lia]).
Qed.
Lemma safe_refuse_if b : rd_safe (r_refuse_if b).
Proof. destruct b; [|apply safe_ret]. intros r Hr. split; [by destruct Hr|]. simpl; split; [done|lia]. Qed.
Lemma safe_fail_if b : rd_safe (r_fail_if b).
Proof. destruct b; [apply safe_fail|apply safe_ret]. Qed.
Lemma safe_more : rd_safe r_more.
Proof. intros r Hr. split; [done|]. simpl; split; [done|lia]. Qed.
Lemma safe_for {A} n (d : rd A) : rd_safe d → rd_safe (r_for n d).
Proof. intros Hd. induction n; simpl; auto using safe_ret, safe_bind. Qed.
Lemma safe_for_ok {A} n (d : rd A) : rd_safe d → rd_safe (r_for_ok n d).
Proof.
  intros Hd. induction n as [|n IH]; simpl; [apply safe_ret|].
  intros r Hr. destruct (r_underflow r); [split; [done|]; simpl; split; [done|lia]|].
  revert r Hr. change (rd_safe (x <- d ;; l <- r_for_ok n d ;; rret (x :: l))).
  auto using safe_ret, safe_bind.
Qed.
Lemma safe_take_map {B} n (f : option (list Z) → B) : 0 <= n → rd_safe (x <- r_take n ;; rret (f x)).
Proof. intros. apply safe_bind; [by apply safe_take|intros; apply safe_ret]. Qed.
Lemma safe_u8 : rd_safe oc_r_u8. Proof. by apply safe_take_map. Qed.
Lemma safe_u16 : rd_safe oc_r_u16. Proof. by apply safe_take_map. Qed.
Lemma safe_u32 : rd_safe oc_r_u32. Proof. by apply safe_take_map. Qed.
Lemma safe_u64 : rd_safe oc_r_u64. Proof. by apply safe_take_map. Qed.
Lemma safe_i16 : rd_safe oc_r_i16.
Proof. apply safe_bind; [apply safe_u16|intros; apply safe_ret]. Qed.
Lemma safe_i64 : rd_safe oc_r_i64.
Proof. apply safe_bind; [apply safe_u64|intros; apply safe_ret]. Qed.
Lemma safe_raw n : 0 <= n → rd_safe (r_raw n). Proof. by apply safe_take_map. Qed.
Lemma safe_idem : rd_safe oc_r_idem. Proof. by apply (safe_raw OC_IDEM_SIZE). Qed.
Lemma safe_str : rd_safe oc_r_str.
Proof.
  apply (safe_bind_typed oc_r_u16 _ (fun n => 0 <= n));
    [apply safe_u16|apply typed_u16|intros; by apply safe_take_map].
Qed.
Lemma safe_lstr : rd_safe oc_r_lstr.
Proof.
  apply (safe_bind_typed oc_r_u32 _ (fun n => 0 <= n));
    [apply safe_u32|apply typed_u32|intros; by apply safe_take_map].
Qed.
Lemma safe_bytes : rd_safe oc_r_bytes. Proof. exact safe_lstr. Qed.

(** ** Counts and arrays *)

Lemma clamp_le max n : n <= max → clamp max n = n.
Proof. unfold clamp. intros. destruct (Z.ltb_spec max n); lia. Qed.
Lemma ztake_zlen {A} (l : list A) : ztake (zlen l) l = l.
Proof. apply ztake_all; lia. Qed.
Lemma zlen_to_nat {A} (l : list A) : Z.to_nat (zlen l) = length l.
Proof. unfold zlen. lia. Qed.
Lemma to_nat_zlen {A} (l : list A) n : 0 <= n → length l = Z.to_nat n → n = zlen l.
Proof. unfold zlen. lia. Qed.
Lemma b01_id x : 0 <= x <= 1 → b01 x = x.
Proof. unfold b01. intros. destruct (Z.eqb_spec x 0); lia. Qed.
