(* ===== verification/WireFrame.v ===== *)
(** * Frame codecs: the contract of an encoder and decoder pair

    A [frame_codec] names one frame of the registry: its message type, the
    encoder, the decoder and the values its C structure can hold.  The laws
    are proved once here from [Encodes], [ParsesAll] and [rd_done]; the
    [Proto] files discharge them for each frame with the tactics at the end. *)
From stdpp Require Import base tactics list numbers.
From S2P Require Import Prelude Wire WireLogic WireRead.
Local Open Scope Z_scope.
Local Open Scope wire_scope.

Record frame_codec := FrameCodec {
  fc_msg : Type;
  fc_type : Z;
  fc_version : Z → Z;
  fc_encode : Z → fc_msg → encoder;
  fc_decode : rd fc_msg;
  fc_wf : fc_msg → Prop }.

(** The payload the encoder means is the one the decoder reads back. *)
Definition fc_complete (c : frame_codec) : Prop :=
  ∃ pay : fc_msg c → option (list Z),
    (∀ version m, fc_wf c m →
       Encodes (fc_encode c version m) (fc_version c version) (fc_type c) (pay m)) ∧
    (∀ m, fc_wf c m → ParsesAll (fc_decode c) (pay m) m).

(** Every payload the decoder accepts is a well-formed value's own payload
    (or, behind a size guard, that of a value the encoder refuses). *)
Definition fc_exact (c : frame_codec) : Prop :=
  ∃ pay : fc_msg c → option (list Z),
    (∀ version m, fc_wf c m →
       Encodes (fc_encode c version m) (fc_version c version) (fc_type c) (pay m)) ∧
    rd_done (fc_decode c) (fun m bs => fc_wf c m ∧ (pay m = Some bs ∨ pay m = None)).

(** ** The laws a client relies on *)

(** An encoded frame, followed by anything, parses to its header and decodes
    to the message that was sent. *)
Definition fc_roundtrip (c : frame_codec) : Prop :=
  ∀ version m w w',
    is_u16 (fc_version c version) → wbuf_ok w → fc_wf c m →
    fc_encode c version m w = (OC_OK, w') →
    ∃ fr, written w' = written w ++ fr ∧
      ∀ tail, ∃ p,
        oc_parse_frame (fr ++ tail)
          = inr (mk_header (zlen fr - 4) (fc_version c version) (fc_type c), p) ∧
        fst (fc_decode c p) = inr m.

(** An encoder appends one whole frame within the wire limit, or appends
    nothing; and whether it succeeds depends only on the message and on the
    room left, a room of [OC_MAX_FRAME_SIZE] sufficing for all it can send. *)
Definition fc_atomic (c : frame_codec) : Prop :=
  ∀ version m, fc_wf c m →
    (∃ fr, 8 <= zlen fr <= OC_MAX_FRAME_SIZE ∧
      ∀ w, wbuf_ok w →
        if fits w fr
        then ∃ w', fc_encode c version m w = (OC_OK, w') ∧ written w' = written w ++ fr ∧
                   wbuf_ok w' ∧ w_overflow w' = false
        else enc_failed w (fst (fc_encode c version m w)) (snd (fc_encode c version m w))) ∨
    (∀ w, wbuf_ok w →
       enc_failed w (fst (fc_encode c version m w)) (snd (fc_encode c version m w))).

(** Decoding is injective on accepted payloads: re-encoding what was decoded
    gives back the very bytes. *)
Definition fc_canonical (c : frame_codec) : Prop :=
  ∀ version payload m w w',
    is_bytes payload → zlen payload < 2 ^ 32 →
    run_decode (fc_decode c) payload = inr m →
    fc_wf c m ∧
    (wbuf_ok w → fc_encode c version m w = (OC_OK, w') →
     written w' = written w ++ frame_bytes (fc_version c version) (fc_type c) payload).

(** ** Parsing a frame that was encoded, and conversely *)

Lemma parse_frame_bytes version ty bs tail :
  is_u16 version → is_u16 ty → 8 + zlen bs <= OC_MAX_FRAME_SIZE →
  oc_parse_frame (frame_bytes version ty bs ++ tail)
    = inr (mk_header (4 + zlen bs) version ty, oc_rbuf_init bs (zlen bs)).
Proof.
  intros Hv Ht Hz. pose proof (zlen_nonneg bs). pose proof (zlen_nonneg tail).
  unfold OC_MAX_FRAME_SIZE in Hz.
  assert (Hl : zlen (frame_bytes version ty bs ++ tail) = 8 + zlen bs + zlen tail)
    by (rewrite zlen_app, zlen_frame_bytes; lia).
  assert (Hlen : of_be32 (frame_bytes version ty bs ++ tail) = 4 + zlen bs)
    by (apply (of_be32_be32 (4 + zlen bs)); ilia).
  pose proof (of_be16_be16 version Hv) as Ev. pose proof (of_be16_be16 ty Ht) as Et.
  unfold oc_parse_frame. rewrite Hl. unfold OC_HEADER_SIZE, OC_LENGTH_MIN, OC_MAX_FRAME_SIZE.
  change (Z.lor _ (byte_at (frame_bytes version ty bs ++ tail) 3))
    with (of_be32 (frame_bytes version ty bs ++ tail)).
  change (u16 (Z.lor _ (byte_at (frame_bytes version ty bs ++ tail) 5))) with (of_be16 (be16 version)).
  change (u16 (Z.lor _ (byte_at (frame_bytes version ty bs ++ tail) 7))) with (of_be16 (be16 ty)).
  rewrite Hlen, Ev, Et. rewrite !u64_id by ilia.
  destruct (Z.ltb_spec (8 + zlen bs + zlen tail) 8); [lia|].
  destruct (Z.ltb_spec (4 + zlen bs) 4); [lia|].
  destruct (Z.ltb_spec 66560 (4 + zlen bs + 4)); [lia|].
  destruct (Z.ltb_spec (8 + zlen bs + zlen tail) (4 + zlen bs + 4)); [lia|].
  replace (4 + zlen bs - 4) with (zlen bs) by lia.
  change (frame_bytes version ty bs ++ tail)
    with ((be32 (4 + zlen bs) ++ be16 version ++ be16 ty) ++ bs ++ tail).
  rewrite (zdrop_app_eq 8) by done. by rewrite ztake_app_eq.
Qed.

(** A frame that parses is exactly the frame bytes of its header and payload. *)
Lemma parse_frame_inv data hdr p :
  is_bytes data → oc_parse_frame data = inr (hdr, p) →
  ∃ payload tail,
    data = frame_bytes (h_version hdr) (h_msg_type hdr) payload ++ tail ∧
    p = oc_rbuf_init payload (zlen payload) ∧ h_length hdr = 4 + zlen payload ∧
    8 + zlen payload <= OC_MAX_FRAME_SIZE ∧
    is_u16 (h_version hdr) ∧ is_u16 (h_msg_type hdr).
Proof.
  intros Hb E. unfold oc_parse_frame in E.
  destruct (Z.ltb_spec (zlen data) OC_HEADER_SIZE) as [|H8]; [done|].
  unfold OC_HEADER_SIZE, OC_LENGTH_MIN, OC_MAX_FRAME_SIZE in *.
  destruct data as [|b0 [|b1 [|b2 [|b3 [|b4 [|b5 [|b6 [|b7 rst]]]]]]]]; try done.
  unfold byte_at in E; cbn [nth] in E.
  change (Z.lor _ b3) with (of_be32 [b0; b1; b2; b3]) in E.
  change (u16 (Z.lor _ b5)) with (of_be16 [b4; b5]) in E.
  change (u16 (Z.lor _ b7)) with (of_be16 [b6; b7]) in E.
  assert (is_bytes [b0; b1; b2; b3] ∧ is_bytes [b4; b5] ∧ is_bytes [b6; b7] ∧ is_bytes rst)
    as (B0 & B4 & B6 & Br) by (inv_bytes; split_and!; auto 6 using Forall_nil, Forall_cons).
  destruct (be32_of_be32 [b0; b1; b2; b3] eq_refl B0) as [R0 E0].
  destruct (be16_of_be16 [b4; b5] eq_refl B4) as [R4 E4].
  destruct (be16_of_be16 [b6; b7] eq_refl B6) as [R6 E6].
  set (len := of_be32 [b0; b1; b2; b3]) in *. rewrite !u64_id in E by ilia.
  destruct (Z.ltb_spec len 4); [done|].
  rewrite (u64_id (len - 4)) in E by ilia.
  destruct (Z.ltb_spec 66560 (len + 4)); [done|].
  rewrite !zlen_cons in E, H8.
  destruct (Z.ltb_spec (1 + (1 + (1 + (1 + (1 + (1 + (1 + (1 + zlen rst)))))))) (len + 4)); [done|].
  injection E as <- <-. cbn [h_version h_msg_type h_length].
  change (zdrop 8 (b0 :: b1 :: b2 :: b3 :: b4 :: b5 :: b6 :: b7 :: rst)) with rst.
  assert (Hz : zlen (ztake (len - 4) rst) = len - 4) by (apply zlen_ztake; lia).
  exists (ztake (len - 4) rst), (zdrop (len - 4) rst). rewrite Hz.
  split; [|split; [done|]; unfold OC_MAX_FRAME_SIZE; split_and!; (done || apply R4 || apply R6 || lia)].
  unfold frame_bytes. rewrite Hz. replace (4 + (len - 4)) with len by lia.
  rewrite E0, E4, E6, <- !app_assoc, ztake_zdrop. done.
Qed.

(** ** Discharging the laws *)

Lemma encodes_ok enc version ty o w w' :
  Encodes enc version ty o → wbuf_ok w → enc w = (OC_OK, w') →
  ∃ bs, o = Some bs ∧ 8 + zlen bs <= OC_MAX_FRAME_SIZE ∧
    written w' = written w ++ frame_bytes version ty bs.
Proof.
  intros H Hw E. specialize (H w Hw).
  destruct o as [bs|]; [|rewrite E in H; by destruct H].
  destruct (fits w _) eqn:F; cbn [andb] in H; [|rewrite E in H; by destruct H].
  destruct (Z.leb_spec (8 + zlen bs) OC_MAX_FRAME_SIZE); [|rewrite E in H; by destruct H].
  rewrite H in E. injection E as <-. exists bs. by rewrite written_put.
Qed.

Lemma complete_roundtrip c : is_u16 (fc_type c) → fc_complete c → fc_roundtrip c.
Proof.
  intros Hty (pay & He & Hd) version m w w' Hv Hw Hwf E.
  destruct (encodes_ok _ _ _ _ _ _ (He version m Hwf) Hw E) as (bs & Hp & Hz & Hwr).
  eexists; split; [exact Hwr|]. intros tail.
  exists (oc_rbuf_init bs (zlen bs)). rewrite parse_frame_bytes by done.
  rewrite zlen_frame_bytes. replace (8 + zlen bs - 4) with (4 + zlen bs) by lia.
  split; [done|]. apply (parses_all_run (fc_decode c) bs m).
  - rewrite <- Hp. auto.
  - unfold OC_MAX_FRAME_SIZE in Hz. lia.
Qed.

Lemma complete_atomic c : fc_complete c → fc_atomic c.
Proof.
  intros (pay & He & _) version m Hwf. specialize (He version m Hwf).
  unfold Encodes in He. destruct (pay m) as [bs|]; [|right; exact He].
  destruct (Z.leb_spec (8 + zlen bs) OC_MAX_FRAME_SIZE) as [Hz|Hz].
  - left. exists (frame_bytes (fc_version c version) (fc_type c) bs).
    rewrite zlen_frame_bytes. pose proof (zlen_nonneg bs). split; [lia|].
    intros w Hw. specialize (He w Hw).
    rewrite andb_true_r in He.
    destruct (fits w _) eqn:F; [|exact He].
    eexists. split; [exact He|]. split; [by apply written_put|].
    split; [by apply put_ext|done].
  - right. intros w Hw. specialize (He w Hw).
    rewrite andb_false_r in He. exact He.
Qed.

Lemma exact_canonical c : fc_exact c → fc_canonical c.
Proof.
  intros (pay & He & Hd) version payload m w w' Hb Hz E.
  destruct (done_run _ _ payload m Hd Hb ltac:(lia) E) as [Hwf Hp]. split; [done|].
  intros Hw Ee. destruct (encodes_ok _ _ _ _ _ _ (He version m Hwf) Hw Ee) as (bs & Hbs & _ & ->).
  destruct Hp as [Hp|Hp]; congruence.
Qed.

(** Both directions for one frame, proved with one payload. *)
Definition fc_lawful (c : frame_codec) : Prop :=
  ∃ pay : fc_msg c → option (list Z),
    (∀ version m, fc_wf c m →
       Encodes (fc_encode c version m) (fc_version c version) (fc_type c) (pay m)) ∧
    (∀ m, fc_wf c m → ParsesAll (fc_decode c) (pay m) m) ∧
    rd_done (fc_decode c) (fun m bs => fc_wf c m ∧ (pay m = Some bs ∨ pay m = None)).

Lemma lawful_complete c : fc_lawful c → fc_complete c.
Proof. intros (pay & ? & ? & ?). by exists pay. Qed.
Lemma lawful_exact c : fc_lawful c → fc_exact c.
Proof. intros (pay & ? & ? & ?). by exists pay. Qed.

Lemma parses_all_guard {A} (d : rd A) (b : bool) o m :
  ParsesAll d o m → ParsesAll d (if b then None else o) m.
Proof. by destruct b. Qed.

Lemma parses_all_fail_if {A} (b : bool) (k : unit → rd A) o m :
  b = false → ParsesAll (k tt) o m → ParsesAll (rbind (r_fail_if b) k) o m.
Proof. by intros ->. Qed.
Lemma parses_all_refuse_if {A} (b : bool) (k : unit → rd A) o m :
  b = false → ParsesAll (k tt) o m → ParsesAll (rbind (r_refuse_if b) k) o m.
Proof. by intros ->. Qed.

Lemma parses_fail_if_bind {A} (b : bool) (k : unit → rd A) o m :
  b = false → Parses (k tt) o m → Parses (rbind (r_fail_if b) k) o m.
Proof. by intros ->. Qed.

Lemma parses_map_eq {A B} (d : rd A) (f : A → B) o a b :
  Parses d o a → f a = b → Parses (x <- d ;; rret (f x)) o b.
Proof. intros H <-. by apply parses_map. Qed.
Lemma parses_all_last_eq {A B} (d : rd A) (f : A → B) o a m :
  Parses d o a → f a = m → ParsesAll (x <- d ;; r_done (f x)) o m.
Proof. intros H <-. by apply parses_all_last. Qed.
Lemma parses_all_done_eq {A} (a m : A) : a = m → ParsesAll (r_done a) (Some []) m.
Proof. intros <-. apply parses_all_done. Qed.

(** The optional tail of a frame, absent and present. *)
Lemma parses_all_more_nil {B} (k : bool → rd B) b :
  ParsesAll (k false) (Some []) b → ParsesAll (rbind r_more k) (Some []) b.
Proof. intros H. apply parses_all_more. by intros bs [= <-]. Qed.
Lemma parses_all_more_cons {B} (k : bool → rd B) b1 o b :
  0 < zlen b1 → ParsesAll (k true) (oapp (Some b1) o) b →
  ParsesAll (rbind r_more k) (oapp (Some b1) o) b.
Proof.
  intros Hz H. apply parses_all_more. intros bs Hbs. rewrite <- Hbs.
  destruct o as [b2|]; [|done]. injection Hbs as <-. pose proof (zlen_nonneg b2).
  rewrite zlen_app. replace (0 <? zlen b1 + zlen b2) with true; [done|].
  symmetry. apply Z.ltb_lt. lia.
Qed.
Lemma parses_all_more_str {B} (k : bool → rd B) s b :
  ParsesAll (k true) (str_bytes s) b → ParsesAll (rbind r_more k) (str_bytes s) b.
Proof.
  intros H. unfold str_bytes in *. destruct (0xFFFF <? zlen s); [done|].
  exact (parses_all_more_cons k (be16 (zlen s)) (Some s) b ltac:(done) H).
Qed.

Lemma refuse_no b enc version ty o :
  b = false → Encodes enc version ty o → Encodes (enc_refuse_if b enc) version ty o.
Proof. by intros ->. Qed.

(** ** Automation *)

Arguments be16 : simpl never.
Arguments be32 : simpl never.
Arguments be64 : simpl never.
Arguments oapp : simpl never.
Arguments oconcat : simpl never.
Arguments str_bytes : simpl never.
Arguments lstr_bytes : simpl never.
Arguments r_for : simpl never.
Arguments r_for_ok : simpl never.
Arguments w_each : simpl never.
Arguments zlen : simpl never.
Arguments ztake : simpl never.
Arguments fmap : simpl never.

(** Well-formedness hypotheses, opened. *)
Ltac open_wf H := autounfold with wf in H; simpl in H; destruct_and? H.

Ltac wire_side := first [ assumption | done | ilia ].
(** A guard of the source, decided from the hypotheses. *)
Ltac wire_guard :=
  repeat match goal with |- _ || _ = false => apply orb_false_intro end;
  first [ done | apply Z.ltb_ge; lia | apply Z.eqb_neq; lia | apply negb_false_iff, Z.eqb_eq; lia ].

(** A count field is rewritten to the length of its array first. *)
Ltac norm_counts :=
  repeat match goal with H : _ = zlen _ |- _ => rewrite H end;
  repeat rewrite clamp_le by wire_side; repeat rewrite ztake_zlen;
  repeat rewrite b01_id by wire_side.

(** Facts about an element [x] of a well-formed list. *)
Ltac elem_wf :=
  lazymatch goal with
  | Hall : Forall ?P ?l, Hx : ?x ∈ ?l |- _ =>
      let H := fresh "Helem" in
      pose proof (Forall_elem P l x Hall Hx) as H; clear Hx; cbv beta in H; open_wf H
  end.

(** Laws of the runs that several frames share, declared where they are. *)
Create HintDb wire_writes.
Create HintDb wire_parses.
Create HintDb wire_wp.
Create HintDb wire_safe.

(** One step of [Encodes] or [Writes], the payload inferred. *)
Ltac writes_step :=
  lazymatch goal with
  | |- Encodes (OC_CHECK_BODY _ _) _ _ _ => eapply check_body_encodes
  | |- Encodes (enc_refuse_if _ _) _ _ _ =>
      first [ eapply refuse_no; [solve [wire_guard]|] | eapply refuse_encodes ]
  | |- Encodes (frame _ _ _) _ _ _ => eapply frame_encodes
  | |- Writes (wseq _ _) _ => eapply writes_seq
  | |- Writes (oc_w_u8 _) _ => eapply writes_u8
  | |- Writes (oc_w_u16 _) _ => eapply writes_u16
  | |- Writes (oc_w_u32 _) _ => eapply writes_u32
  | |- Writes (oc_w_u64 _) _ => eapply writes_u64
  | |- Writes (oc_w_str _) _ => eapply writes_str
  | |- Writes (oc_w_lstr _) _ => eapply writes_lstr
  | |- Writes (oc_w_bytes _) _ => eapply writes_bytes
  | |- Writes (oc_w_idem _) _ => eapply writes_idem; wire_side
  | |- Writes (w_raw _ _) _ => eapply writes_raw; wire_side
  | |- Writes (w_each _ _) _ => eapply writes_each; intros ?x ?Hx; cbv beta; try elem_wf; norm_counts
  | |- Writes (if _ then _ else _) _ => eapply writes_if
  | |- Writes id _ => eapply writes_id
  | |- Writes (?f ?a) _ => solve [eauto with wire_writes]
  | |- Writes (?f ?a ?b) _ => solve [eauto with wire_writes]
  end.
Ltac solve_writes := cbv zeta; norm_counts; repeat writes_step.

Ltac parses_prim :=
  lazymatch goal with
  | |- Parses oc_r_u8 _ _ => eapply parses_u8
  | |- Parses oc_r_u16 _ _ => eapply parses_u16; wire_side
  | |- Parses oc_r_u32 _ _ => eapply parses_u32; wire_side
  | |- Parses oc_r_u64 _ _ => eapply parses_u64; wire_side
  | |- Parses oc_r_i16 _ _ => eapply parses_i16; wire_side
  | |- Parses oc_r_i64 _ _ => eapply parses_i64; wire_side
  | |- Parses oc_r_str _ _ => eapply parses_str
  | |- Parses oc_r_lstr _ _ => eapply parses_lstr
  | |- Parses oc_r_bytes _ _ => eapply parses_bytes
  | |- Parses oc_r_idem _ _ => eapply parses_idem; wire_side
  | |- Parses (r_raw _) _ _ => eapply parses_raw; wire_side
  | |- Parses (rbind _ _) _ _ => fail
  | |- Parses (r_for _ _) _ _ => fail
  | |- Parses (r_for_ok _ _) _ _ => fail
  | |- Parses _ _ _ => solve [eauto with wire_parses]
  end.
(** The decoded value is the one sent, once counts and caps are resolved. *)
Ltac same_value :=
  repeat rewrite clamp_le by lia; repeat rewrite ztake_all by lia;
  repeat match goal with |- context [?a <? ?b] => destruct (Z.ltb_spec a b) end;
  first [ reflexivity | f_equal; lia ].
Ltac parses_elem_step :=
  lazymatch goal with
  | |- Parses (rbind (r_fail_if _) _) _ _ => apply parses_fail_if_bind; [solve [wire_guard]|cbv beta]
  | |- Parses (rbind _ (fun x => rret _)) _ _ => eapply parses_map_eq; [parses_one|same_value]
  | |- Parses (rbind _ _) (oapp _ _) _ => eapply parses_bind; [parses_one|cbv beta iota]
  | |- Parses (rbind _ _) ?o _ =>
      rewrite <- (oapp_nil_r o); eapply parses_bind; [parses_one|cbv beta iota]
  | |- Parses (rret _) (Some []) _ => apply parses_ret
  | |- _ => solve [parses_prim]
  end
with parses_item :=
  lazymatch goal with
  | |- Parses (r_for _ _) _ _ => eapply parses_for
  | |- Parses (r_for_ok _ _) _ _ => eapply parses_for_ok
  end;
  intros ?x ?Hx; cbv beta;
  lazymatch goal with
  | |- Parses (rbind _ _) _ ?x => destruct x; elem_wf
  | |- _ => elem_wf
  end; simpl; repeat match goal with H : ?n = zlen _ |- _ => subst n end;
  repeat parses_elem_step
with parses_one :=
  first [ solve [parses_prim]
        | repeat rewrite clamp_le by lia; rewrite ?zlen_to_nat; solve [parses_item] ].
Ltac parses_step :=
  lazymatch goal with
  | |- ParsesAll _ (if _ then None else _) _ => apply parses_all_guard
  | |- ParsesAll (rbind (r_fail_if _) _) _ _ => apply parses_all_fail_if; [solve [wire_guard]|cbv beta]
  | |- ParsesAll (rbind (r_refuse_if _) _) _ _ =>
      apply parses_all_refuse_if; [solve [wire_guard]|cbv beta]
  | |- ParsesAll (r_done _) (Some []) _ => apply parses_all_done_eq; same_value
  | |- ParsesAll (rbind _ _) (oapp _ _) _ => eapply parses_all_bind; [parses_one|cbv beta iota]
  | |- ParsesAll (rbind _ (fun x => r_done _)) _ _ => eapply parses_all_last_eq; [parses_one|same_value]
  | |- ParsesAll (rbind _ _) ?o _ =>
      rewrite <- (oapp_nil_r o); eapply parses_all_bind; [parses_one|cbv beta iota]
  end.
Ltac solve_parses := repeat parses_step.

Ltac wp_prim :=
  lazymatch goal with
  | |- rd_wp oc_r_u8 _ => apply wp_u8
  | |- rd_wp oc_r_u16 _ => apply wp_u16
  | |- rd_wp oc_r_u32 _ => apply wp_u32
  | |- rd_wp oc_r_u64 _ => apply wp_u64
  | |- rd_wp oc_r_i16 _ => apply wp_i16
  | |- rd_wp oc_r_i64 _ => apply wp_i64
  | |- rd_wp oc_r_str _ => apply wp_str
  | |- rd_wp oc_r_lstr _ => apply wp_lstr
  | |- rd_wp oc_r_bytes _ => apply wp_bytes
  | |- rd_wp oc_r_idem _ => apply wp_idem
  | |- rd_wp (r_raw _) _ => apply wp_raw; done
  | |- rd_wp (r_fail_if _) _ => apply wp_fail_if
  | |- rd_wp (r_refuse_if _) _ => apply wp_refuse_if
  | |- rd_wp (rbind _ _) _ => fail
  | |- rd_wp (r_for _ _) _ => fail
  | |- rd_wp (r_for_ok _ _) _ => fail
  | |- rd_wp _ _ => solve [eauto with wire_wp]
  end.

(** The final step of a soundness walk: the bytes of each field in order. *)
Ltac done_finish :=
  intros; destruct_and?; cbn [fst snd] in *;
  repeat match goal with H : Some _ = Some ?b |- _ => injection H as <- end;
  repeat match goal with
    | H : length ?l = Z.to_nat ?n |- _ =>
        apply to_nat_zlen in H; [subst n|ilia] end.
Ltac done_bytes :=
  first
    [ left; unfold oapp; rewrite ?app_nil_r; done
    | right; done
    | match goal with |- context [if ?b then _ else _] => destruct b; [by right|] end; done_bytes ].
Ltac use_bytes := simpl; repeat match goal with H : _ = Some _ |- _ => rewrite H; clear H end.
Ltac bool_facts :=
  repeat match goal with
    | H : _ || _ = false |- _ => apply orb_false_iff in H as [? ?]
    | H : (_ <? _) = false |- _ => apply Z.ltb_ge in H
    | H : (zlen ?l =? _) = false |- _ => apply Z.eqb_neq in H; pose proof (zlen_nonneg l)
    | H : (_ =? _) = false |- _ => apply Z.eqb_neq in H
    | H : negb _ = false |- _ => apply negb_false_iff in H
    | H : (_ =? _) = true |- _ => apply Z.eqb_eq in H
    end.
Ltac done_wf := autounfold with wf; simpl; bool_facts; split_and?; first [assumption | done | ilia].
Ltac done_close := done_finish; split; [done_wf|use_bytes; done_bytes].

(** The walk over one element of a loop: its [wf] and its bytes. *)
Ltac wp_elem :=
  first
    [ solve [wp_prim]
    | repeat (eapply wp_bind; [solve [wp_prim]|intros ?; cbv beta]);
      apply wp_ret; done_finish; split; [done_wf|use_bytes; unfold oapp; rewrite ?app_nil_r; done] ].
Ltac wp_loop R ser :=
  lazymatch goal with
  | |- rd_wp (r_for _ _) _ => apply (wp_for _ R ser)
  | |- rd_wp (r_for_ok _ _) _ => apply (wp_for_ok _ R ser)
  end; wp_elem.
(** [R] is what each element of the frame's arrays satisfies; how it is
    written is found in the payload being proved. *)
Ltac done_step R :=
  lazymatch goal with
  | |- rd_done (rbind (r_for _ _) _) ?Q =>
      match Q with context [oconcat (fmap ?ser _)] => eapply done_bind; [wp_loop R ser|intros ?; cbv beta] end
  | |- rd_done (rbind (r_for_ok _ _) _) ?Q =>
      match Q with context [oconcat (fmap ?ser _)] => eapply done_bind; [wp_loop R ser|intros ?; cbv beta] end
  | |- rd_done (match ?y with (_, _) => _ end) _ => destruct y
  | |- rd_done (rbind _ _) _ => eapply done_bind; [solve [wp_prim]|intros ?; cbv beta]
  | |- rd_done (r_done _) _ => apply done_r_done
  | |- rd_done (rfail _) _ => apply done_fail
  end.
Ltac solve_done R := repeat done_step R.

Ltac safe_step :=
  lazymatch goal with
  | |- rd_safe (rbind _ _) => apply safe_bind; [|intros ?; cbv beta]
  | |- rd_safe (rret _) => apply safe_ret
  | |- rd_safe (rfail _) => apply safe_fail
  | |- rd_safe (r_done _) => apply safe_done
  | |- rd_safe (r_fail_if _) => apply safe_fail_if
  | |- rd_safe (r_refuse_if _) => apply safe_refuse_if
  | |- rd_safe r_more => apply safe_more
  | |- rd_safe (r_for _ _) => apply safe_for
  | |- rd_safe (r_for_ok _ _) => apply safe_for_ok
  | |- rd_safe oc_r_u8 => apply safe_u8
  | |- rd_safe oc_r_u16 => apply safe_u16
  | |- rd_safe oc_r_u32 => apply safe_u32
  | |- rd_safe oc_r_u64 => apply safe_u64
  | |- rd_safe oc_r_i16 => apply safe_i16
  | |- rd_safe oc_r_i64 => apply safe_i64
  | |- rd_safe oc_r_str => apply safe_str
  | |- rd_safe oc_r_lstr => apply safe_lstr
  | |- rd_safe oc_r_bytes => apply safe_bytes
  | |- rd_safe oc_r_idem => apply safe_idem
  | |- rd_safe (r_raw _) => apply safe_raw; done
  | |- rd_safe (match _ with _ => _ end) => case_match
  | |- rd_safe _ => solve [eauto with wire_safe]
  end.
Ltac solve_safe := repeat safe_step.

Ltac fc_open := cbn [fc_msg fc_wf fc_encode fc_decode fc_version fc_type].
Ltac law_encodes enc :=
  intros version m Hwf; open_wf Hwf; unfold enc; solve_writes.
Ltac law_parses dec :=
  intros [] Hwf; open_wf Hwf; simpl;
  repeat match goal with H : ?n = zlen _ |- _ => subst n end;
  unfold dec; solve_parses.
Ltac law_done dec R := unfold dec; solve_done R; done_close.

(** Both directions of a frame; [R] describes the elements of its arrays. *)
Ltac lawful_with c enc dec R :=
  unfold fc_lawful, c; eexists (fun m => _); fc_open; split; [|split];
  [ law_encodes enc | law_parses dec | law_done dec R ].
Ltac lawful c enc dec := lawful_with c enc dec (fun _ : Z => True).
Ltac complete c enc dec :=
  unfold fc_complete, c; eexists (fun m => _); fc_open; split;
  [ law_encodes enc | law_parses dec ].

(** A frame with no payload. *)
Ltac lawful_empty c enc dec :=
  unfold fc_lawful, c; exists (fun _ => Some []); fc_open; split; [|split];
  [ intros version m _; unfold enc; solve_writes
  | intros [] _; unfold dec; apply parses_all_done
  | unfold dec; apply done_r_done; split; [done|by left] ].

(** [data] starts with a frame within the wire limit; [hdr] is its header and
    [p] a cursor over its payload. *)
Definition starts_with_frame (data : list Z) (hdr : oc_header) (p : oc_rbuf) : Prop :=
  ∃ version type payload tail,
    data = frame_bytes version type payload ++ tail ∧
    is_u16 version ∧ is_u16 type ∧ 8 + zlen payload <= OC_MAX_FRAME_SIZE ∧
    hdr = mk_header (4 + zlen payload) version type ∧ p = oc_rbuf_init payload (zlen payload).

(** [oc_parse_frame] accepts exactly the encodings of a header and a
    payload.  It succeeds on [data] precisely when [data] starts with the frame
    bytes of some version, type and payload within the wire limit, and then it
    yields that header and a cursor over that payload. *)
Theorem parse_frame_exact data hdr p :
  is_bytes data → oc_parse_frame data = inr (hdr, p) ↔ starts_with_frame data hdr p.
Proof.
  intros Hb. split.
  - intros E. destruct (parse_frame_inv data hdr p Hb E) as (payload & tail & ? & ? & ? & ? & ? & ?).
    exists (h_version hdr), (h_msg_type hdr), payload, tail. destruct hdr; simpl in *. by subst.
  - intros (version & type & payload & tail & -> & ? & ? & ? & -> & ->). by apply parse_frame_bytes.
Qed.

Lemma parse_frame_exact_witness :
  oc_parse_frame [0; 0; 0; 5; 0; 33; 0; 1; 9; 200]
    = inr (mk_header 5 33 1, oc_rbuf_init [9] 1).
Proof.
  apply (parse_frame_exact [0; 0; 0; 5; 0; 33; 0; 1; 9; 200]); [repeat constructor; lia|].
  exists 33, 1, [9], [200]. by split_and!.
Defined.
