(* ===== verification/ProtoTypes.v ===== *)
(** * The data of [shared/protocol.h]

    Message types, reason codes, limits, and one [Record] per C structure
    (a field [f] of [oc_s] is [s_f]).  An integer field is a [Z] and a slice
    the bytes it views; a pointer or array field is the list of its elements,
    beside the count field the C structure carries.  [wf_oc_s] says which
    values the C type can hold: each integer in the range of its type, each
    slice made of bytes, fixed arrays at their size. *)
From stdpp Require Import base tactics list numbers.
From S2P Require Import Prelude Wire.
Local Open Scope Z_scope.

(** ** Limits *)

Definition OC_CALL_DEVICE_KEY_LEN : Z := 32.
Definition OC_MSG_KIND_CALL : Z := 1.
Definition OC_ACTF_INVOLVED : Z := 0.
Definition OC_MAX_DISPLAY_NAME : Z := 48.
Definition OC_MAX_MEMBER_LIST : Z := 500.
Definition OC_MAX_ATTACH : Z := 16.
Definition OC_MEDIA_NONE : Z := 0.
Definition OC_MEDIA_VIDEO_MESSAGE : Z := 1.
Definition OC_MAX_SOURCES : Z := 8.
Definition OC_POLL_MAX_OPTIONS : Z := 10.
Definition OC_MAX_GROUP_DM : Z := 8.
Definition OC_MAX_GROUP_MEMBERS : Z := 1024.
Definition OC_MAX_GROUP_OP : Z := 256.
Definition OC_MAX_CHANNEL_GROUPS : Z := 32.
Definition OC_MAX_ALERTS : Z := 100.
Definition OC_MAX_ALERT_KEY : Z := 64.
Definition OC_MAX_ALERT_MESSAGE : Z := 400.
Definition OC_SCHEDULE_DAYS : Z := 7.
Definition OC_MAX_KEYWORDS : Z := 64.
Definition OC_MAX_PRIORITY : Z := 64.
Definition OC_DEVICE_TOKEN_MAX : Z := 512.
Definition OC_PDM_MAX_HS : Z := 256.
Definition OC_PDM_HEADER_LEN : Z := 40.
Definition OC_PDM_MAX_CT : Z := 16400.
Definition OC_TTS_VOICE_MAX : Z := 16.
Definition OC_CAP_MAX : Z := 16.
Definition OC_WS_SETTINGS_MAX : Z := 64.
Definition OC_RECEIPTS_ASK : Z := 2.
Definition OC_USER_SYSTEM : Z := 0x01.
Definition OC_UNRESOLVED_MAX : Z := 8.
Definition OC_THREADF_ALL : Z := 0.

(** ** Message types *)

Inductive oc_msg_type :=
  | OC_MSG_HELLO | OC_MSG_WELCOME | OC_MSG_REJECT | OC_MSG_AUTH | OC_MSG_AUTH_OK
  | OC_MSG_AUTH_CHALLENGE | OC_MSG_LOGOUT | OC_MSG_WORKSPACE_INFO | OC_MSG_AUTH_BEGIN
  | OC_MSG_AUTH_REDIRECT | OC_MSG_AUTH_CONTINUE | OC_MSG_AUTH_DEVICE_BEGIN
  | OC_MSG_AUTH_DEVICE | OC_MSG_AUTH_DEVICE_POLL | OC_MSG_AUTH_DEVICE_TOKEN
  | OC_MSG_WORKSPACE_ADDRESS | OC_MSG_RESET_CREDENTIAL | OC_MSG_CREDENTIAL_RESET
  | OC_MSG_ENABLE_USER | OC_MSG_SEND | OC_MSG_SEND_ACK | OC_MSG_BROADCAST
  | OC_MSG_CLIENT_ACK | OC_MSG_EDIT | OC_MSG_DELETE | OC_MSG_MSG_EDITED
  | OC_MSG_MSG_DELETED | OC_MSG_REACT | OC_MSG_REACTION_UPDATED | OC_MSG_LIST_REACTIONS
  | OC_MSG_REACTIONS | OC_MSG_SEND_REPLY | OC_MSG_THREAD_REPLY | OC_MSG_LIST_THREAD
  | OC_MSG_THREAD | OC_MSG_THREAD_META | OC_MSG_READ_CURSOR | OC_MSG_HISTORY_REQUEST
  | OC_MSG_HISTORY_AROUND | OC_MSG_PIN | OC_MSG_PIN_UPDATED | OC_MSG_LIST_PINS
  | OC_MSG_PINNED_MSG | OC_MSG_PINS | OC_MSG_LIST_MEMBERS | OC_MSG_MEMBER_ENTRY
  | OC_MSG_MEMBERS | OC_MSG_LIST_FILES | OC_MSG_FILE_ENTRY | OC_MSG_FILES
  | OC_MSG_CREATE_CHANNEL | OC_MSG_CHANNEL_INFO | OC_MSG_LIST_CHANNELS
  | OC_MSG_CHANNEL_LIST | OC_MSG_JOIN_CHANNEL | OC_MSG_LEAVE_CHANNEL
  | OC_MSG_INVITE_TO_CHANNEL | OC_MSG_REMOVE_FROM_CHANNEL | OC_MSG_OPEN_DM
  | OC_MSG_CREATE_WEBHOOK | OC_MSG_WEBHOOK_INFO | OC_MSG_LIST_WEBHOOKS
  | OC_MSG_WEBHOOK_LIST | OC_MSG_DELETE_WEBHOOK | OC_MSG_WEBHOOK_DELETED
  | OC_MSG_UPDATE_CHANNEL | OC_MSG_SET_NOTIFY_DEFAULT | OC_MSG_SET_AVATAR
  | OC_MSG_OPEN_GROUP_DM | OC_MSG_ADD_EMOJI | OC_MSG_DELETE_EMOJI | OC_MSG_LIST_EMOJI
  | OC_MSG_EMOJI_LIST | OC_MSG_LIST_SESSIONS | OC_MSG_SESSION_LIST
  | OC_MSG_LIST_FILE_CHANNELS | OC_MSG_FILE_CHANNELS | OC_MSG_SET_STATUS
  | OC_MSG_SET_PROFILE | OC_MSG_PROFILE_INFO | OC_MSG_SET_MUTE | OC_MSG_SET_READ_CURSOR
  | OC_MSG_SET_WEBHOOK_STATE | OC_MSG_ROTATE_WEBHOOK | OC_MSG_SAVE_ITEM
  | OC_MSG_SAVED_UPDATED | OC_MSG_LIST_SAVED | OC_MSG_SAVED_MSG | OC_MSG_SAVED
  | OC_MSG_LIST_ACTIVITY | OC_MSG_ACTIVITY_ENTRY | OC_MSG_ACTIVITY | OC_MSG_SET_PRESENCE
  | OC_MSG_PRESENCE_UPDATE | OC_MSG_TYPING | OC_MSG_TYPING_UPDATE | OC_MSG_UPLOAD_BEGIN
  | OC_MSG_UPLOAD_READY | OC_MSG_UPLOAD_CHUNK | OC_MSG_UPLOAD_ACK | OC_MSG_UPLOAD_END
  | OC_MSG_UPLOAD_OK | OC_MSG_DOWNLOAD_BEGIN | OC_MSG_DOWNLOAD_INFO
  | OC_MSG_DOWNLOAD_CHUNK | OC_MSG_DOWNLOAD_END | OC_MSG_TRANSFER_CANCEL
  | OC_MSG_MARK_ALL_READ | OC_MSG_GET_CHANNEL_DESCRIPTION | OC_MSG_CHANNEL_DESCRIPTION
  | OC_MSG_REVOKE_SESSION | OC_MSG_SET_NOTIFY_PREF | OC_MSG_LIST_NOTIFY_PREFS
  | OC_MSG_NOTIFY_PREFS | OC_MSG_SET_CLIENT_SETTING | OC_MSG_LIST_CLIENT_SETTINGS
  | OC_MSG_CLIENT_SETTINGS | OC_MSG_STORAGE_STATUS_REQ | OC_MSG_STORAGE_STATUS
  | OC_MSG_AUDIT_QUERY | OC_MSG_AUDIT_PAGE | OC_MSG_CALL_JOIN | OC_MSG_CALL_LEAVE
  | OC_MSG_CALL_JOINED | OC_MSG_CALL_ROSTER | OC_MSG_CALL_INVITE | OC_MSG_CALL_DECLINE
  | OC_MSG_CALL_END | OC_MSG_CALL_STATE | OC_MSG_CALL_KEY | OC_MSG_CALL_KEY_FOR
  | OC_MSG_CALL_SHARE | OC_MSG_CALL_MEDIA | OC_MSG_REGISTER_DEVICE_TOKEN
  | OC_MSG_UNREGISTER_DEVICE_TOKEN | OC_MSG_DEVICE_TOKEN_ACK | OC_MSG_MENTION_UNRESOLVED
  | OC_MSG_SET_DRAFT | OC_MSG_LIST_DRAFTS | OC_MSG_DRAFT | OC_MSG_DRAFTS
  | OC_MSG_SCHEDULE_MESSAGE | OC_MSG_LIST_SCHEDULED | OC_MSG_CANCEL_SCHEDULED
  | OC_MSG_UPDATE_SCHEDULED | OC_MSG_SCHEDULED | OC_MSG_SCHEDULED_LIST | OC_MSG_SET_SNOOZE
  | OC_MSG_SNOOZE | OC_MSG_SET_SCHEDULE | OC_MSG_SCHEDULE | OC_MSG_SET_KEYWORDS
  | OC_MSG_SET_PRIORITY | OC_MSG_ALERT_PREFS | OC_MSG_LIST_THREADS | OC_MSG_THREAD_SUMMARY
  | OC_MSG_THREADS | OC_MSG_SET_THREAD_FOLLOW | OC_MSG_MARK_THREAD_READ
  | OC_MSG_SET_TZ_OFFSET | OC_MSG_UNFURL | OC_MSG_FORWARD | OC_MSG_ACTION
  | OC_MSG_ATTACH_MEDIA_SET | OC_MSG_ATTACH_MEDIA_OK | OC_MSG_TTS_INFO | OC_MSG_AUDIO_GET
  | OC_MSG_AUDIO_INFO | OC_MSG_AUDIO_CHUNK | OC_MSG_AUDIO_END | OC_MSG_CAPABILITIES
  | OC_MSG_VOICE_PREVIEW_GET | OC_MSG_STT_INFO | OC_MSG_STT_BEGIN | OC_MSG_STT_CHUNK
  | OC_MSG_STT_END | OC_MSG_STT_TEXT | OC_MSG_LIST_GROUPS | OC_MSG_CREATE_GROUP
  | OC_MSG_UPDATE_GROUP | OC_MSG_DELETE_GROUP | OC_MSG_GROUP_ADD_MEMBERS
  | OC_MSG_GROUP_REMOVE_MEMBERS | OC_MSG_GROUP_INFO | OC_MSG_GROUP_DELETED
  | OC_MSG_GROUPS_END | OC_MSG_CHANNEL_ADD_GROUP | OC_MSG_CHANNEL_REMOVE_GROUP
  | OC_MSG_CHANNEL_GROUPS | OC_MSG_CHANNEL_VIA_GROUP | OC_MSG_MENTION_UNRESOLVED_MORE
  | OC_MSG_ALERTS_SUMMARY | OC_MSG_ALERTS_LIST | OC_MSG_ALERTS | OC_MSG_ALERT_ACK
  | OC_MSG_RESTORE | OC_MSG_MSG_RESTORED | OC_MSG_SUMMARIZE | OC_MSG_SUMMARY
  | OC_MSG_SUMMARY_QUEUED | OC_MSG_SUMMARY_DETACH | OC_MSG_SUMMARY_CANCEL
  | OC_MSG_SUMMARY_READY | OC_MSG_SUMMARY_OPEN | OC_MSG_SUMMARY_DISMISS
  | OC_MSG_SERVER_BUILD | OC_MSG_PDM_OPEN | OC_MSG_PDM_OPENED | OC_MSG_PDM_INVITE
  | OC_MSG_PDM_HS | OC_MSG_PDM_HS_FOR | OC_MSG_PDM_SEND | OC_MSG_PDM_MSG | OC_MSG_PDM_END
  | OC_MSG_POST_POLL | OC_MSG_VOTE | OC_MSG_POLL | OC_MSG_LIST_POLL_VOTERS
  | OC_MSG_POLL_VOTERS | OC_MSG_EDIT_POLL | OC_MSG_DEACTIVATE_SELF | OC_MSG_GET_PROFILE
  | OC_MSG_SET_COLLAPSED | OC_MSG_COLLAPSED_UPDATED | OC_MSG_WORKSPACE_SETTINGS
  | OC_MSG_READ_RECEIPTS | OC_MSG_LIST_USERS | OC_MSG_USER_LIST | OC_MSG_SET_ROLE
  | OC_MSG_INVITE_USER | OC_MSG_REMOVE_USER | OC_MSG_USER_UPDATED | OC_MSG_INVITE_CREATED
  | OC_MSG_SET_DISPLAY_NAME | OC_MSG_PROFILE_UPDATED | OC_MSG_LIST_INVITES
  | OC_MSG_INVITE_LIST | OC_MSG_REVOKE_INVITE | OC_MSG_SET_EMAIL | OC_MSG_INVITE_REVOKED
  | OC_MSG_SEARCH | OC_MSG_SEARCH_RESULTS | OC_MSG_BACKFILL_REQUEST | OC_MSG_BACKFILL_DONE
  | OC_MSG_ERROR.

Definition msg_code (t : oc_msg_type) : Z :=
  match t with
  | OC_MSG_HELLO => 0x0001
  | OC_MSG_WELCOME => 0x0002
  | OC_MSG_REJECT => 0x0003
  | OC_MSG_AUTH => 0x0010
  | OC_MSG_AUTH_OK => 0x0011
  | OC_MSG_AUTH_CHALLENGE => 0x0012
  | OC_MSG_LOGOUT => 0x0013
  | OC_MSG_WORKSPACE_INFO => 0x0014
  | OC_MSG_AUTH_BEGIN => 0x0015
  | OC_MSG_AUTH_REDIRECT => 0x0016
  | OC_MSG_AUTH_CONTINUE => 0x0017
  | OC_MSG_AUTH_DEVICE_BEGIN => 0x0018
  | OC_MSG_AUTH_DEVICE => 0x0019
  | OC_MSG_AUTH_DEVICE_POLL => 0x001A
  | OC_MSG_AUTH_DEVICE_TOKEN => 0x001B
  | OC_MSG_WORKSPACE_ADDRESS => 0x001C
  | OC_MSG_RESET_CREDENTIAL => 0x001D
  | OC_MSG_CREDENTIAL_RESET => 0x001E
  | OC_MSG_ENABLE_USER => 0x001F
  | OC_MSG_SEND => 0x0020
  | OC_MSG_SEND_ACK => 0x0021
  | OC_MSG_BROADCAST => 0x0022
  | OC_MSG_CLIENT_ACK => 0x0023
  | OC_MSG_EDIT => 0x0024
  | OC_MSG_DELETE => 0x0025
  | OC_MSG_MSG_EDITED => 0x0026
  | OC_MSG_MSG_DELETED => 0x0027
  | OC_MSG_REACT => 0x0028
  | OC_MSG_REACTION_UPDATED => 0x0029
  | OC_MSG_LIST_REACTIONS => 0x002A
  | OC_MSG_REACTIONS => 0x002B
  | OC_MSG_SEND_REPLY => 0x002C
  | OC_MSG_THREAD_REPLY => 0x002D
  | OC_MSG_LIST_THREAD => 0x002E
  | OC_MSG_THREAD => 0x002F
  | OC_MSG_THREAD_META => 0x0032
  | OC_MSG_READ_CURSOR => 0x0033
  | OC_MSG_HISTORY_REQUEST => 0x0034
  | OC_MSG_HISTORY_AROUND => 0x006A
  | OC_MSG_PIN => 0x0035
  | OC_MSG_PIN_UPDATED => 0x0036
  | OC_MSG_LIST_PINS => 0x0037
  | OC_MSG_PINNED_MSG => 0x0038
  | OC_MSG_PINS => 0x0039
  | OC_MSG_LIST_MEMBERS => 0x003A
  | OC_MSG_MEMBER_ENTRY => 0x003B
  | OC_MSG_MEMBERS => 0x003C
  | OC_MSG_LIST_FILES => 0x003D
  | OC_MSG_FILE_ENTRY => 0x003E
  | OC_MSG_FILES => 0x003F
  | OC_MSG_CREATE_CHANNEL => 0x0050
  | OC_MSG_CHANNEL_INFO => 0x0051
  | OC_MSG_LIST_CHANNELS => 0x0052
  | OC_MSG_CHANNEL_LIST => 0x0053
  | OC_MSG_JOIN_CHANNEL => 0x0054
  | OC_MSG_LEAVE_CHANNEL => 0x0055
  | OC_MSG_INVITE_TO_CHANNEL => 0x0056
  | OC_MSG_REMOVE_FROM_CHANNEL => 0x0057
  | OC_MSG_OPEN_DM => 0x0058
  | OC_MSG_CREATE_WEBHOOK => 0x0059
  | OC_MSG_WEBHOOK_INFO => 0x005A
  | OC_MSG_LIST_WEBHOOKS => 0x005B
  | OC_MSG_WEBHOOK_LIST => 0x005C
  | OC_MSG_DELETE_WEBHOOK => 0x005D
  | OC_MSG_WEBHOOK_DELETED => 0x005E
  | OC_MSG_UPDATE_CHANNEL => 0x005F
  | OC_MSG_SET_NOTIFY_DEFAULT => 0x0077
  | OC_MSG_SET_AVATAR => 0x0078
  | OC_MSG_OPEN_GROUP_DM => 0x0079
  | OC_MSG_ADD_EMOJI => 0x007A
  | OC_MSG_DELETE_EMOJI => 0x007B
  | OC_MSG_LIST_EMOJI => 0x007C
  | OC_MSG_EMOJI_LIST => 0x007D
  | OC_MSG_LIST_SESSIONS => 0x0075
  | OC_MSG_SESSION_LIST => 0x0076
  | OC_MSG_LIST_FILE_CHANNELS => 0x0073
  | OC_MSG_FILE_CHANNELS => 0x0074
  | OC_MSG_SET_STATUS => 0x006F
  | OC_MSG_SET_PROFILE => 0x00D8
  | OC_MSG_PROFILE_INFO => 0x0072
  | OC_MSG_SET_MUTE => 0x006D
  | OC_MSG_SET_READ_CURSOR => 0x006E
  | OC_MSG_SET_WEBHOOK_STATE => 0x006B
  | OC_MSG_ROTATE_WEBHOOK => 0x006C
  | OC_MSG_SAVE_ITEM => 0x0062
  | OC_MSG_SAVED_UPDATED => 0x0063
  | OC_MSG_LIST_SAVED => 0x0064
  | OC_MSG_SAVED_MSG => 0x0065
  | OC_MSG_SAVED => 0x0066
  | OC_MSG_LIST_ACTIVITY => 0x0067
  | OC_MSG_ACTIVITY_ENTRY => 0x0068
  | OC_MSG_ACTIVITY => 0x0069
  | OC_MSG_SET_PRESENCE => 0x0070
  | OC_MSG_PRESENCE_UPDATE => 0x0071
  | OC_MSG_TYPING => 0x007E
  | OC_MSG_TYPING_UPDATE => 0x007F
  | OC_MSG_UPLOAD_BEGIN => 0x0080
  | OC_MSG_UPLOAD_READY => 0x0081
  | OC_MSG_UPLOAD_CHUNK => 0x0082
  | OC_MSG_UPLOAD_ACK => 0x0083
  | OC_MSG_UPLOAD_END => 0x0084
  | OC_MSG_UPLOAD_OK => 0x0085
  | OC_MSG_DOWNLOAD_BEGIN => 0x0086
  | OC_MSG_DOWNLOAD_INFO => 0x0087
  | OC_MSG_DOWNLOAD_CHUNK => 0x0088
  | OC_MSG_DOWNLOAD_END => 0x0089
  | OC_MSG_TRANSFER_CANCEL => 0x008A
  | OC_MSG_MARK_ALL_READ => 0x008B
  | OC_MSG_GET_CHANNEL_DESCRIPTION => 0x008C
  | OC_MSG_CHANNEL_DESCRIPTION => 0x008D
  | OC_MSG_REVOKE_SESSION => 0x008E
  | OC_MSG_SET_NOTIFY_PREF => 0x0090
  | OC_MSG_LIST_NOTIFY_PREFS => 0x0092
  | OC_MSG_NOTIFY_PREFS => 0x0093
  | OC_MSG_SET_CLIENT_SETTING => 0x0094
  | OC_MSG_LIST_CLIENT_SETTINGS => 0x0095
  | OC_MSG_CLIENT_SETTINGS => 0x0096
  | OC_MSG_STORAGE_STATUS_REQ => 0x0097
  | OC_MSG_STORAGE_STATUS => 0x0098
  | OC_MSG_AUDIT_QUERY => 0x0099
  | OC_MSG_AUDIT_PAGE => 0x009A
  | OC_MSG_CALL_JOIN => 0x00A0
  | OC_MSG_CALL_LEAVE => 0x00A1
  | OC_MSG_CALL_JOINED => 0x00A2
  | OC_MSG_CALL_ROSTER => 0x00A3
  | OC_MSG_CALL_INVITE => 0x00A4
  | OC_MSG_CALL_DECLINE => 0x00A5
  | OC_MSG_CALL_END => 0x00A6
  | OC_MSG_CALL_STATE => 0x00A7
  | OC_MSG_CALL_KEY => 0x00A8
  | OC_MSG_CALL_KEY_FOR => 0x00A9
  | OC_MSG_CALL_SHARE => 0x00AA
  | OC_MSG_CALL_MEDIA => 0x00AB
  | OC_MSG_REGISTER_DEVICE_TOKEN => 0x00B0
  | OC_MSG_UNREGISTER_DEVICE_TOKEN => 0x00B1
  | OC_MSG_DEVICE_TOKEN_ACK => 0x00B2
  | OC_MSG_MENTION_UNRESOLVED => 0x00B3
  | OC_MSG_SET_DRAFT => 0x00C0
  | OC_MSG_LIST_DRAFTS => 0x00C1
  | OC_MSG_DRAFT => 0x00C2
  | OC_MSG_DRAFTS => 0x00C3
  | OC_MSG_SCHEDULE_MESSAGE => 0x00C4
  | OC_MSG_LIST_SCHEDULED => 0x00C5
  | OC_MSG_CANCEL_SCHEDULED => 0x00C6
  | OC_MSG_UPDATE_SCHEDULED => 0x00C7
  | OC_MSG_SCHEDULED => 0x00C8
  | OC_MSG_SCHEDULED_LIST => 0x00C9
  | OC_MSG_SET_SNOOZE => 0x00CA
  | OC_MSG_SNOOZE => 0x00CB
  | OC_MSG_SET_SCHEDULE => 0x00CC
  | OC_MSG_SCHEDULE => 0x00CD
  | OC_MSG_SET_KEYWORDS => 0x00CE
  | OC_MSG_SET_PRIORITY => 0x00CF
  | OC_MSG_ALERT_PREFS => 0x00D0
  | OC_MSG_LIST_THREADS => 0x00D1
  | OC_MSG_THREAD_SUMMARY => 0x00D2
  | OC_MSG_THREADS => 0x00D3
  | OC_MSG_SET_THREAD_FOLLOW => 0x00D4
  | OC_MSG_MARK_THREAD_READ => 0x00D5
  | OC_MSG_SET_TZ_OFFSET => 0x00D6
  | OC_MSG_UNFURL => 0x00D7
  | OC_MSG_FORWARD => 0x00D9
  | OC_MSG_ACTION => 0x00FC
  | OC_MSG_ATTACH_MEDIA_SET => 0x00DA
  | OC_MSG_ATTACH_MEDIA_OK => 0x00DB
  | OC_MSG_TTS_INFO => 0x00DC
  | OC_MSG_AUDIO_GET => 0x00DD
  | OC_MSG_AUDIO_INFO => 0x00DE
  | OC_MSG_AUDIO_CHUNK => 0x00DF
  | OC_MSG_AUDIO_END => 0x00E0
  | OC_MSG_CAPABILITIES => 0x00E1
  | OC_MSG_VOICE_PREVIEW_GET => 0x00E2
  | OC_MSG_STT_INFO => 0x00E3
  | OC_MSG_STT_BEGIN => 0x00E4
  | OC_MSG_STT_CHUNK => 0x00E5
  | OC_MSG_STT_END => 0x00E6
  | OC_MSG_STT_TEXT => 0x00E7
  | OC_MSG_LIST_GROUPS => 0x00E8
  | OC_MSG_CREATE_GROUP => 0x00E9
  | OC_MSG_UPDATE_GROUP => 0x00EA
  | OC_MSG_DELETE_GROUP => 0x00EB
  | OC_MSG_GROUP_ADD_MEMBERS => 0x00EC
  | OC_MSG_GROUP_REMOVE_MEMBERS => 0x00ED
  | OC_MSG_GROUP_INFO => 0x00EE
  | OC_MSG_GROUP_DELETED => 0x00EF
  | OC_MSG_GROUPS_END => 0x00F0
  | OC_MSG_CHANNEL_ADD_GROUP => 0x00F1
  | OC_MSG_CHANNEL_REMOVE_GROUP => 0x00F2
  | OC_MSG_CHANNEL_GROUPS => 0x00F3
  | OC_MSG_CHANNEL_VIA_GROUP => 0x00F4
  | OC_MSG_MENTION_UNRESOLVED_MORE => 0x00F5
  | OC_MSG_ALERTS_SUMMARY => 0x00F6
  | OC_MSG_ALERTS_LIST => 0x00F7
  | OC_MSG_ALERTS => 0x00F8
  | OC_MSG_ALERT_ACK => 0x00F9
  | OC_MSG_RESTORE => 0x00FA
  | OC_MSG_MSG_RESTORED => 0x00FB
  | OC_MSG_SUMMARIZE => 0x00FD
  | OC_MSG_SUMMARY => 0x00FE
  | OC_MSG_SUMMARY_QUEUED => 0x0100
  | OC_MSG_SUMMARY_DETACH => 0x0101
  | OC_MSG_SUMMARY_CANCEL => 0x0102
  | OC_MSG_SUMMARY_READY => 0x0103
  | OC_MSG_SUMMARY_OPEN => 0x0104
  | OC_MSG_SUMMARY_DISMISS => 0x0105
  | OC_MSG_SERVER_BUILD => 0x0106
  | OC_MSG_PDM_OPEN => 0x0107
  | OC_MSG_PDM_OPENED => 0x0108
  | OC_MSG_PDM_INVITE => 0x0109
  | OC_MSG_PDM_HS => 0x010A
  | OC_MSG_PDM_HS_FOR => 0x010B
  | OC_MSG_PDM_SEND => 0x010C
  | OC_MSG_PDM_MSG => 0x010D
  | OC_MSG_PDM_END => 0x010E
  | OC_MSG_POST_POLL => 0x010F
  | OC_MSG_VOTE => 0x0110
  | OC_MSG_POLL => 0x0111
  | OC_MSG_LIST_POLL_VOTERS => 0x0112
  | OC_MSG_POLL_VOTERS => 0x0113
  | OC_MSG_EDIT_POLL => 0x0114
  | OC_MSG_DEACTIVATE_SELF => 0x0115
  | OC_MSG_GET_PROFILE => 0x0116
  | OC_MSG_SET_COLLAPSED => 0x0117
  | OC_MSG_COLLAPSED_UPDATED => 0x0118
  | OC_MSG_WORKSPACE_SETTINGS => 0x0119
  | OC_MSG_READ_RECEIPTS => 0x011A
  | OC_MSG_LIST_USERS => 0x0040
  | OC_MSG_USER_LIST => 0x0041
  | OC_MSG_SET_ROLE => 0x0042
  | OC_MSG_INVITE_USER => 0x0043
  | OC_MSG_REMOVE_USER => 0x0044
  | OC_MSG_USER_UPDATED => 0x0045
  | OC_MSG_INVITE_CREATED => 0x0046
  | OC_MSG_SET_DISPLAY_NAME => 0x0048
  | OC_MSG_PROFILE_UPDATED => 0x004A
  | OC_MSG_LIST_INVITES => 0x004B
  | OC_MSG_INVITE_LIST => 0x004C
  | OC_MSG_REVOKE_INVITE => 0x004D
  | OC_MSG_SET_EMAIL => 0x004F
  | OC_MSG_INVITE_REVOKED => 0x004E
  | OC_MSG_SEARCH => 0x0060
  | OC_MSG_SEARCH_RESULTS => 0x0061
  | OC_MSG_BACKFILL_REQUEST => 0x0030
  | OC_MSG_BACKFILL_DONE => 0x0031
  | OC_MSG_ERROR => 0x00FF
  end.
Coercion msg_code : oc_msg_type >-> Z.

Definition all_msg_types : list oc_msg_type :=
  [OC_MSG_HELLO; OC_MSG_WELCOME; OC_MSG_REJECT; OC_MSG_AUTH; OC_MSG_AUTH_OK;
  OC_MSG_AUTH_CHALLENGE; OC_MSG_LOGOUT; OC_MSG_WORKSPACE_INFO; OC_MSG_AUTH_BEGIN;
  OC_MSG_AUTH_REDIRECT; OC_MSG_AUTH_CONTINUE; OC_MSG_AUTH_DEVICE_BEGIN; OC_MSG_AUTH_DEVICE;
  OC_MSG_AUTH_DEVICE_POLL; OC_MSG_AUTH_DEVICE_TOKEN; OC_MSG_WORKSPACE_ADDRESS;
  OC_MSG_RESET_CREDENTIAL; OC_MSG_CREDENTIAL_RESET; OC_MSG_ENABLE_USER; OC_MSG_SEND;
  OC_MSG_SEND_ACK; OC_MSG_BROADCAST; OC_MSG_CLIENT_ACK; OC_MSG_EDIT; OC_MSG_DELETE;
  OC_MSG_MSG_EDITED; OC_MSG_MSG_DELETED; OC_MSG_REACT; OC_MSG_REACTION_UPDATED;
  OC_MSG_LIST_REACTIONS; OC_MSG_REACTIONS; OC_MSG_SEND_REPLY; OC_MSG_THREAD_REPLY;
  OC_MSG_LIST_THREAD; OC_MSG_THREAD; OC_MSG_THREAD_META; OC_MSG_READ_CURSOR;
  OC_MSG_HISTORY_REQUEST; OC_MSG_HISTORY_AROUND; OC_MSG_PIN; OC_MSG_PIN_UPDATED;
  OC_MSG_LIST_PINS; OC_MSG_PINNED_MSG; OC_MSG_PINS; OC_MSG_LIST_MEMBERS;
  OC_MSG_MEMBER_ENTRY; OC_MSG_MEMBERS; OC_MSG_LIST_FILES; OC_MSG_FILE_ENTRY; OC_MSG_FILES;
  OC_MSG_CREATE_CHANNEL; OC_MSG_CHANNEL_INFO; OC_MSG_LIST_CHANNELS; OC_MSG_CHANNEL_LIST;
  OC_MSG_JOIN_CHANNEL; OC_MSG_LEAVE_CHANNEL; OC_MSG_INVITE_TO_CHANNEL;
  OC_MSG_REMOVE_FROM_CHANNEL; OC_MSG_OPEN_DM; OC_MSG_CREATE_WEBHOOK; OC_MSG_WEBHOOK_INFO;
  OC_MSG_LIST_WEBHOOKS; OC_MSG_WEBHOOK_LIST; OC_MSG_DELETE_WEBHOOK; OC_MSG_WEBHOOK_DELETED;
  OC_MSG_UPDATE_CHANNEL; OC_MSG_SET_NOTIFY_DEFAULT; OC_MSG_SET_AVATAR;
  OC_MSG_OPEN_GROUP_DM; OC_MSG_ADD_EMOJI; OC_MSG_DELETE_EMOJI; OC_MSG_LIST_EMOJI;
  OC_MSG_EMOJI_LIST; OC_MSG_LIST_SESSIONS; OC_MSG_SESSION_LIST; OC_MSG_LIST_FILE_CHANNELS;
  OC_MSG_FILE_CHANNELS; OC_MSG_SET_STATUS; OC_MSG_SET_PROFILE; OC_MSG_PROFILE_INFO;
  OC_MSG_SET_MUTE; OC_MSG_SET_READ_CURSOR; OC_MSG_SET_WEBHOOK_STATE; OC_MSG_ROTATE_WEBHOOK;
  OC_MSG_SAVE_ITEM; OC_MSG_SAVED_UPDATED; OC_MSG_LIST_SAVED; OC_MSG_SAVED_MSG;
  OC_MSG_SAVED; OC_MSG_LIST_ACTIVITY; OC_MSG_ACTIVITY_ENTRY; OC_MSG_ACTIVITY;
  OC_MSG_SET_PRESENCE; OC_MSG_PRESENCE_UPDATE; OC_MSG_TYPING; OC_MSG_TYPING_UPDATE;
  OC_MSG_UPLOAD_BEGIN; OC_MSG_UPLOAD_READY; OC_MSG_UPLOAD_CHUNK; OC_MSG_UPLOAD_ACK;
  OC_MSG_UPLOAD_END; OC_MSG_UPLOAD_OK; OC_MSG_DOWNLOAD_BEGIN; OC_MSG_DOWNLOAD_INFO;
  OC_MSG_DOWNLOAD_CHUNK; OC_MSG_DOWNLOAD_END; OC_MSG_TRANSFER_CANCEL; OC_MSG_MARK_ALL_READ;
  OC_MSG_GET_CHANNEL_DESCRIPTION; OC_MSG_CHANNEL_DESCRIPTION; OC_MSG_REVOKE_SESSION;
  OC_MSG_SET_NOTIFY_PREF; OC_MSG_LIST_NOTIFY_PREFS; OC_MSG_NOTIFY_PREFS;
  OC_MSG_SET_CLIENT_SETTING; OC_MSG_LIST_CLIENT_SETTINGS; OC_MSG_CLIENT_SETTINGS;
  OC_MSG_STORAGE_STATUS_REQ; OC_MSG_STORAGE_STATUS; OC_MSG_AUDIT_QUERY; OC_MSG_AUDIT_PAGE;
  OC_MSG_CALL_JOIN; OC_MSG_CALL_LEAVE; OC_MSG_CALL_JOINED; OC_MSG_CALL_ROSTER;
  OC_MSG_CALL_INVITE; OC_MSG_CALL_DECLINE; OC_MSG_CALL_END; OC_MSG_CALL_STATE;
  OC_MSG_CALL_KEY; OC_MSG_CALL_KEY_FOR; OC_MSG_CALL_SHARE; OC_MSG_CALL_MEDIA;
  OC_MSG_REGISTER_DEVICE_TOKEN; OC_MSG_UNREGISTER_DEVICE_TOKEN; OC_MSG_DEVICE_TOKEN_ACK;
  OC_MSG_MENTION_UNRESOLVED; OC_MSG_SET_DRAFT; OC_MSG_LIST_DRAFTS; OC_MSG_DRAFT;
  OC_MSG_DRAFTS; OC_MSG_SCHEDULE_MESSAGE; OC_MSG_LIST_SCHEDULED; OC_MSG_CANCEL_SCHEDULED;
  OC_MSG_UPDATE_SCHEDULED; OC_MSG_SCHEDULED; OC_MSG_SCHEDULED_LIST; OC_MSG_SET_SNOOZE;
  OC_MSG_SNOOZE; OC_MSG_SET_SCHEDULE; OC_MSG_SCHEDULE; OC_MSG_SET_KEYWORDS;
  OC_MSG_SET_PRIORITY; OC_MSG_ALERT_PREFS; OC_MSG_LIST_THREADS; OC_MSG_THREAD_SUMMARY;
  OC_MSG_THREADS; OC_MSG_SET_THREAD_FOLLOW; OC_MSG_MARK_THREAD_READ; OC_MSG_SET_TZ_OFFSET;
  OC_MSG_UNFURL; OC_MSG_FORWARD; OC_MSG_ACTION; OC_MSG_ATTACH_MEDIA_SET;
  OC_MSG_ATTACH_MEDIA_OK; OC_MSG_TTS_INFO; OC_MSG_AUDIO_GET; OC_MSG_AUDIO_INFO;
  OC_MSG_AUDIO_CHUNK; OC_MSG_AUDIO_END; OC_MSG_CAPABILITIES; OC_MSG_VOICE_PREVIEW_GET;
  OC_MSG_STT_INFO; OC_MSG_STT_BEGIN; OC_MSG_STT_CHUNK; OC_MSG_STT_END; OC_MSG_STT_TEXT;
  OC_MSG_LIST_GROUPS; OC_MSG_CREATE_GROUP; OC_MSG_UPDATE_GROUP; OC_MSG_DELETE_GROUP;
  OC_MSG_GROUP_ADD_MEMBERS; OC_MSG_GROUP_REMOVE_MEMBERS; OC_MSG_GROUP_INFO;
  OC_MSG_GROUP_DELETED; OC_MSG_GROUPS_END; OC_MSG_CHANNEL_ADD_GROUP;
  OC_MSG_CHANNEL_REMOVE_GROUP; OC_MSG_CHANNEL_GROUPS; OC_MSG_CHANNEL_VIA_GROUP;
  OC_MSG_MENTION_UNRESOLVED_MORE; OC_MSG_ALERTS_SUMMARY; OC_MSG_ALERTS_LIST; OC_MSG_ALERTS;
  OC_MSG_ALERT_ACK; OC_MSG_RESTORE; OC_MSG_MSG_RESTORED; OC_MSG_SUMMARIZE; OC_MSG_SUMMARY;
  OC_MSG_SUMMARY_QUEUED; OC_MSG_SUMMARY_DETACH; OC_MSG_SUMMARY_CANCEL;
  OC_MSG_SUMMARY_READY; OC_MSG_SUMMARY_OPEN; OC_MSG_SUMMARY_DISMISS; OC_MSG_SERVER_BUILD;
  OC_MSG_PDM_OPEN; OC_MSG_PDM_OPENED; OC_MSG_PDM_INVITE; OC_MSG_PDM_HS; OC_MSG_PDM_HS_FOR;
  OC_MSG_PDM_SEND; OC_MSG_PDM_MSG; OC_MSG_PDM_END; OC_MSG_POST_POLL; OC_MSG_VOTE;
  OC_MSG_POLL; OC_MSG_LIST_POLL_VOTERS; OC_MSG_POLL_VOTERS; OC_MSG_EDIT_POLL;
  OC_MSG_DEACTIVATE_SELF; OC_MSG_GET_PROFILE; OC_MSG_SET_COLLAPSED;
  OC_MSG_COLLAPSED_UPDATED; OC_MSG_WORKSPACE_SETTINGS; OC_MSG_READ_RECEIPTS;
  OC_MSG_LIST_USERS; OC_MSG_USER_LIST; OC_MSG_SET_ROLE; OC_MSG_INVITE_USER;
  OC_MSG_REMOVE_USER; OC_MSG_USER_UPDATED; OC_MSG_INVITE_CREATED; OC_MSG_SET_DISPLAY_NAME;
  OC_MSG_PROFILE_UPDATED; OC_MSG_LIST_INVITES; OC_MSG_INVITE_LIST; OC_MSG_REVOKE_INVITE;
  OC_MSG_SET_EMAIL; OC_MSG_INVITE_REVOKED; OC_MSG_SEARCH; OC_MSG_SEARCH_RESULTS;
  OC_MSG_BACKFILL_REQUEST; OC_MSG_BACKFILL_DONE; OC_MSG_ERROR].

(** ** Reason codes *)

Inductive oc_reason_code :=
  | OC_ERR_VERSION_TOO_OLD | OC_ERR_VERSION_TOO_NEW | OC_ERR_MALFORMED_FRAME
  | OC_ERR_FRAME_TOO_LARGE | OC_ERR_UNEXPECTED_MSG_TYPE | OC_ERR_VERSION_MISMATCH
  | OC_ERR_AUTH_REQUIRED | OC_ERR_AUTH_INVALID_TOKEN | OC_ERR_AUTH_RATE_LIMITED
  | OC_ERR_USER_LIMIT | OC_ERR_AUTH_SOURCE_UNAVAILABLE | OC_ERR_AUTH_NOT_ALLOWED
  | OC_ERR_AUTH_PENDING | OC_ERR_AUTH_SLOW_DOWN | OC_ERR_AUTH_EXPIRED | OC_ERR_AUTH_DENIED
  | OC_ERR_AUTH_USE_PROVIDER | OC_ERR_AUTH_SETUP_REQUIRED | OC_ERR_BODY_TOO_LARGE
  | OC_ERR_NOT_A_MEMBER | OC_ERR_UNKNOWN_CHANNEL | OC_ERR_SEND_RATE_LIMITED
  | OC_ERR_FORBIDDEN | OC_ERR_LAST_OWNER | OC_ERR_UNKNOWN_MESSAGE | OC_ERR_INVALID_CHANNEL
  | OC_ERR_INVALID_REACTION | OC_ERR_ATTACHMENT_TOO_LARGE | OC_ERR_UNKNOWN_ATTACHMENT
  | OC_ERR_STORAGE_FULL | OC_ERR_ATTACHMENT_GONE | OC_ERR_INVALID_DEVICE_TOKEN
  | OC_ERR_TRANSFER_PROTOCOL | OC_ERR_UNKNOWN_WEBHOOK | OC_ERR_CHANNEL_EXISTS
  | OC_ERR_TOO_MANY_PINS | OC_ERR_CHANNEL_ARCHIVED | OC_ERR_INVALID_MESSAGE
  | OC_ERR_MEDIA_INVALID | OC_ERR_MEDIA_TOO_LARGE | OC_ERR_NOT_RENDERABLE
  | OC_ERR_TTS_UNAVAILABLE | OC_ERR_CALL_UNAVAILABLE | OC_ERR_SEGMENT_TOO_LONG
  | OC_ERR_STT_UNAVAILABLE | OC_ERR_CALL_FULL | OC_ERR_NOT_CALL_STARTER
  | OC_ERR_NOT_IN_CALL | OC_ERR_INVITE_UNREDEEMABLE | OC_ERR_GROUP_HANDLE_TAKEN
  | OC_ERR_UNKNOWN_GROUP | OC_ERR_MEMBER_VIA_GROUP | OC_ERR_INVALID_GROUP
  | OC_ERR_SIGNUP_LIMITED | OC_ERR_DEMO_LIMIT | OC_ERR_INVALID_POLL | OC_ERR_POLL_CLOSED
  | OC_ERR_POLL_HAS_VOTES | OC_ERR_EDIT_WINDOW_CLOSED | OC_ERR_WORKSPACE_SENDER
  | OC_ERR_INTERNAL.

Definition reason_code (t : oc_reason_code) : Z :=
  match t with
  | OC_ERR_VERSION_TOO_OLD => 1001
  | OC_ERR_VERSION_TOO_NEW => 1002
  | OC_ERR_MALFORMED_FRAME => 1003
  | OC_ERR_FRAME_TOO_LARGE => 1004
  | OC_ERR_UNEXPECTED_MSG_TYPE => 1005
  | OC_ERR_VERSION_MISMATCH => 1006
  | OC_ERR_AUTH_REQUIRED => 2001
  | OC_ERR_AUTH_INVALID_TOKEN => 2002
  | OC_ERR_AUTH_RATE_LIMITED => 2003
  | OC_ERR_USER_LIMIT => 2004
  | OC_ERR_AUTH_SOURCE_UNAVAILABLE => 2006
  | OC_ERR_AUTH_NOT_ALLOWED => 2005
  | OC_ERR_AUTH_PENDING => 2007
  | OC_ERR_AUTH_SLOW_DOWN => 2008
  | OC_ERR_AUTH_EXPIRED => 2009
  | OC_ERR_AUTH_DENIED => 2010
  | OC_ERR_AUTH_USE_PROVIDER => 2011
  | OC_ERR_AUTH_SETUP_REQUIRED => 2012
  | OC_ERR_BODY_TOO_LARGE => 3001
  | OC_ERR_NOT_A_MEMBER => 3002
  | OC_ERR_UNKNOWN_CHANNEL => 3003
  | OC_ERR_SEND_RATE_LIMITED => 3004
  | OC_ERR_FORBIDDEN => 3005
  | OC_ERR_LAST_OWNER => 3006
  | OC_ERR_UNKNOWN_MESSAGE => 3007
  | OC_ERR_INVALID_CHANNEL => 3008
  | OC_ERR_INVALID_REACTION => 3009
  | OC_ERR_ATTACHMENT_TOO_LARGE => 3010
  | OC_ERR_UNKNOWN_ATTACHMENT => 3011
  | OC_ERR_STORAGE_FULL => 3012
  | OC_ERR_ATTACHMENT_GONE => 3013
  | OC_ERR_INVALID_DEVICE_TOKEN => 3014
  | OC_ERR_TRANSFER_PROTOCOL => 3015
  | OC_ERR_UNKNOWN_WEBHOOK => 3016
  | OC_ERR_CHANNEL_EXISTS => 3017
  | OC_ERR_TOO_MANY_PINS => 3018
  | OC_ERR_CHANNEL_ARCHIVED => 3019
  | OC_ERR_INVALID_MESSAGE => 3020
  | OC_ERR_MEDIA_INVALID => 3021
  | OC_ERR_MEDIA_TOO_LARGE => 3022
  | OC_ERR_NOT_RENDERABLE => 3023
  | OC_ERR_TTS_UNAVAILABLE => 3024
  | OC_ERR_CALL_UNAVAILABLE => 3025
  | OC_ERR_SEGMENT_TOO_LONG => 3026
  | OC_ERR_STT_UNAVAILABLE => 3027
  | OC_ERR_CALL_FULL => 3028
  | OC_ERR_NOT_CALL_STARTER => 3029
  | OC_ERR_NOT_IN_CALL => 3030
  | OC_ERR_INVITE_UNREDEEMABLE => 3031
  | OC_ERR_GROUP_HANDLE_TAKEN => 3032
  | OC_ERR_UNKNOWN_GROUP => 3033
  | OC_ERR_MEMBER_VIA_GROUP => 3034
  | OC_ERR_INVALID_GROUP => 3035
  | OC_ERR_SIGNUP_LIMITED => 3036
  | OC_ERR_DEMO_LIMIT => 3037
  | OC_ERR_INVALID_POLL => 3038
  | OC_ERR_POLL_CLOSED => 3039
  | OC_ERR_POLL_HAS_VOTES => 3040
  | OC_ERR_EDIT_WINDOW_CLOSED => 3041
  | OC_ERR_WORKSPACE_SENDER => 3042
  | OC_ERR_INTERNAL => 9001
  end.
Coercion reason_code : oc_reason_code >-> Z.

(** ** Structures *)

Create HintDb wf.

Record oc_attach_entry := mk_oc_attach_entry {
  attach_entry_id : Z;
  attach_entry_filename : list Z;
  attach_entry_mime : list Z;
  attach_entry_size : Z;
  attach_entry_reclaimed : Z;
  attach_entry_media_kind : Z;
  attach_entry_duration_ms : Z;
  attach_entry_width : Z;
  attach_entry_height : Z;
  attach_entry_poster_id : Z }.
Definition wf_oc_attach_entry (m : oc_attach_entry) : Prop :=
  is_u64 (attach_entry_id m) ∧
  is_bytes (attach_entry_filename m) ∧
  is_bytes (attach_entry_mime m) ∧
  is_u64 (attach_entry_size m) ∧
  is_u8 (attach_entry_reclaimed m) ∧
  is_u8 (attach_entry_media_kind m) ∧
  is_u32 (attach_entry_duration_ms m) ∧
  is_u16 (attach_entry_width m) ∧
  is_u16 (attach_entry_height m) ∧
  is_u64 (attach_entry_poster_id m).
#[export] Hint Unfold wf_oc_attach_entry : wf.

Record oc_attach_media_set := mk_oc_attach_media_set {
  attach_media_set_attachment_id : Z;
  attach_media_set_media_kind : Z;
  attach_media_set_duration_ms : Z;
  attach_media_set_width : Z;
  attach_media_set_height : Z;
  attach_media_set_poster_id : Z }.
Definition wf_oc_attach_media_set (m : oc_attach_media_set) : Prop :=
  is_u64 (attach_media_set_attachment_id m) ∧
  is_u8 (attach_media_set_media_kind m) ∧
  is_u32 (attach_media_set_duration_ms m) ∧
  is_u16 (attach_media_set_width m) ∧
  is_u16 (attach_media_set_height m) ∧
  is_u64 (attach_media_set_poster_id m).
#[export] Hint Unfold wf_oc_attach_media_set : wf.

Record oc_attach_media_ok := mk_oc_attach_media_ok { attach_media_ok_attachment_id : Z }.
Definition wf_oc_attach_media_ok (m : oc_attach_media_ok) : Prop :=
  is_u64 (attach_media_ok_attachment_id m).
#[export] Hint Unfold wf_oc_attach_media_ok : wf.

Record oc_hello := mk_oc_hello {
  hello_min_version : Z;
  hello_max_version : Z;
  hello_client_info : list Z }.
Definition wf_oc_hello (m : oc_hello) : Prop :=
  is_u16 (hello_min_version m) ∧
  is_u16 (hello_max_version m) ∧
  is_bytes (hello_client_info m).
#[export] Hint Unfold wf_oc_hello : wf.

Record oc_welcome := mk_oc_welcome { welcome_chosen_version : Z; welcome_server_time : Z }.
Definition wf_oc_welcome (m : oc_welcome) : Prop :=
  is_u16 (welcome_chosen_version m) ∧
  is_u64 (welcome_server_time m).
#[export] Hint Unfold wf_oc_welcome : wf.

Record oc_reject := mk_oc_reject { reject_code : Z; reject_message : list Z }.
Definition wf_oc_reject (m : oc_reject) : Prop :=
  is_u16 (reject_code m) ∧
  is_bytes (reject_message m).
#[export] Hint Unfold wf_oc_reject : wf.

Record oc_auth_source := mk_oc_auth_source {
  auth_source_id : list Z;
  auth_source_kind : Z;
  auth_source_label : list Z }.
Definition wf_oc_auth_source (m : oc_auth_source) : Prop :=
  is_bytes (auth_source_id m) ∧
  is_u8 (auth_source_kind m) ∧
  is_bytes (auth_source_label m).
#[export] Hint Unfold wf_oc_auth_source : wf.

Record oc_auth_challenge := mk_oc_auth_challenge {
  auth_challenge_n_sources : Z;
  auth_challenge_sources : list oc_auth_source }.
Definition wf_oc_auth_challenge (m : oc_auth_challenge) : Prop :=
  is_u8 (auth_challenge_n_sources m) ∧
  Forall wf_oc_auth_source (auth_challenge_sources m).
#[export] Hint Unfold wf_oc_auth_challenge : wf.

Record oc_auth := mk_oc_auth {
  auth_method : Z;
  auth_source : list Z;
  auth_credential : list Z;
  auth_proof : list Z;
  auth_state : list Z }.
Definition wf_oc_auth (m : oc_auth) : Prop :=
  is_u8 (auth_method m) ∧
  is_bytes (auth_source m) ∧
  is_bytes (auth_credential m) ∧
  is_bytes (auth_proof m) ∧
  is_bytes (auth_state m).
#[export] Hint Unfold wf_oc_auth : wf.

Record oc_auth_begin := mk_oc_auth_begin {
  auth_begin_source : list Z;
  auth_begin_redirect_uri : list Z;
  auth_begin_challenge : list Z }.
Definition wf_oc_auth_begin (m : oc_auth_begin) : Prop :=
  is_bytes (auth_begin_source m) ∧
  is_bytes (auth_begin_redirect_uri m) ∧
  is_bytes (auth_begin_challenge m).
#[export] Hint Unfold wf_oc_auth_begin : wf.

Record oc_auth_redirect := mk_oc_auth_redirect { auth_redirect_authorize_url : list Z }.
Definition wf_oc_auth_redirect (m : oc_auth_redirect) : Prop :=
  is_bytes (auth_redirect_authorize_url m).
#[export] Hint Unfold wf_oc_auth_redirect : wf.

Record oc_auth_device_begin := mk_oc_auth_device_begin {
  auth_device_begin_source : list Z;
  auth_device_begin_challenge : list Z }.
Definition wf_oc_auth_device_begin (m : oc_auth_device_begin) : Prop :=
  is_bytes (auth_device_begin_source m) ∧
  is_bytes (auth_device_begin_challenge m).
#[export] Hint Unfold wf_oc_auth_device_begin : wf.

Record oc_auth_device := mk_oc_auth_device {
  auth_device_device_code : list Z;
  auth_device_user_code : list Z;
  auth_device_verification_path : list Z;
  auth_device_interval_s : Z;
  auth_device_expires_in_s : Z }.
Definition wf_oc_auth_device (m : oc_auth_device) : Prop :=
  is_bytes (auth_device_device_code m) ∧
  is_bytes (auth_device_user_code m) ∧
  is_bytes (auth_device_verification_path m) ∧
  is_u16 (auth_device_interval_s m) ∧
  is_u16 (auth_device_expires_in_s m).
#[export] Hint Unfold wf_oc_auth_device : wf.

Record oc_auth_device_poll := mk_oc_auth_device_poll { auth_device_poll_device_code : list Z }.
Definition wf_oc_auth_device_poll (m : oc_auth_device_poll) : Prop :=
  is_bytes (auth_device_poll_device_code m).
#[export] Hint Unfold wf_oc_auth_device_poll : wf.

Record oc_auth_device_token := mk_oc_auth_device_token { auth_device_token_token : list Z }.
Definition wf_oc_auth_device_token (m : oc_auth_device_token) : Prop :=
  is_bytes (auth_device_token_token m).
#[export] Hint Unfold wf_oc_auth_device_token : wf.

Record oc_auth_continue := mk_oc_auth_continue { auth_continue_step : Z }.
Definition wf_oc_auth_continue (m : oc_auth_continue) : Prop :=
  is_u8 (auth_continue_step m).
#[export] Hint Unfold wf_oc_auth_continue : wf.

Record oc_auth_ok := mk_oc_auth_ok {
  auth_ok_user_id : Z;
  auth_ok_role : Z;
  auth_ok_session_expiry : Z;
  auth_ok_session_token : list Z }.
Definition wf_oc_auth_ok (m : oc_auth_ok) : Prop :=
  is_u64 (auth_ok_user_id m) ∧
  is_u8 (auth_ok_role m) ∧
  is_u64 (auth_ok_session_expiry m) ∧
  is_bytes (auth_ok_session_token m).
#[export] Hint Unfold wf_oc_auth_ok : wf.

Record oc_logout := mk_oc_logout { logout_scope : Z; logout_session_token : list Z }.
Definition wf_oc_logout (m : oc_logout) : Prop :=
  is_u8 (logout_scope m) ∧
  is_bytes (logout_session_token m).
#[export] Hint Unfold wf_oc_logout : wf.

Record oc_workspace_info := mk_oc_workspace_info {
  workspace_info_deployment_mode : Z;
  workspace_info_max_users : Z;
  workspace_info_workspace_name : list Z;
  workspace_info_call_max : Z;
  workspace_info_mode : Z;
  workspace_info_max_video_size : Z }.
Definition wf_oc_workspace_info (m : oc_workspace_info) : Prop :=
  is_u8 (workspace_info_deployment_mode m) ∧
  is_u32 (workspace_info_max_users m) ∧
  is_bytes (workspace_info_workspace_name m) ∧
  is_u8 (workspace_info_call_max m) ∧
  is_u8 (workspace_info_mode m) ∧
  is_u64 (workspace_info_max_video_size m).
#[export] Hint Unfold wf_oc_workspace_info : wf.

Record oc_workspace_address := mk_oc_workspace_address { workspace_address_address : list Z }.
Definition wf_oc_workspace_address (m : oc_workspace_address) : Prop :=
  is_bytes (workspace_address_address m).
#[export] Hint Unfold wf_oc_workspace_address : wf.

Record oc_server_build := mk_oc_server_build { server_build_build : list Z }.
Definition wf_oc_server_build (m : oc_server_build) : Prop :=
  is_bytes (server_build_build m).
#[export] Hint Unfold wf_oc_server_build : wf.

Record oc_send := mk_oc_send {
  send_channel_id : Z;
  send_idem : list Z;
  send_body : list Z;
  send_src_channel : Z;
  send_src_message : Z;
  send_n_attach : Z;
  send_attach_ids : list Z }.
Definition wf_oc_send (m : oc_send) : Prop :=
  is_u64 (send_channel_id m) ∧
  zlen (send_idem m) = OC_IDEM_SIZE ∧
  is_bytes (send_idem m) ∧
  is_bytes (send_body m) ∧
  is_u64 (send_src_channel m) ∧
  is_u64 (send_src_message m) ∧
  is_u16 (send_n_attach m) ∧
  Forall is_u64 (send_attach_ids m).
#[export] Hint Unfold wf_oc_send : wf.

Record oc_send_ack := mk_oc_send_ack {
  send_ack_idem : list Z;
  send_ack_channel_id : Z;
  send_ack_message_id : Z;
  send_ack_server_time : Z }.
Definition wf_oc_send_ack (m : oc_send_ack) : Prop :=
  zlen (send_ack_idem m) = OC_IDEM_SIZE ∧
  is_bytes (send_ack_idem m) ∧
  is_u64 (send_ack_channel_id m) ∧
  is_u64 (send_ack_message_id m) ∧
  is_u64 (send_ack_server_time m).
#[export] Hint Unfold wf_oc_send_ack : wf.

Record oc_broadcast := mk_oc_broadcast {
  broadcast_message_id : Z;
  broadcast_channel_id : Z;
  broadcast_author_id : Z;
  broadcast_server_time : Z;
  broadcast_kind : Z;
  broadcast_body : list Z;
  broadcast_n_attach : Z;
  broadcast_attach : list oc_attach_entry;
  broadcast_author_name : list Z;
  broadcast_broadcast_stored : Z }.
Definition wf_oc_broadcast (m : oc_broadcast) : Prop :=
  is_u64 (broadcast_message_id m) ∧
  is_u64 (broadcast_channel_id m) ∧
  is_u64 (broadcast_author_id m) ∧
  is_u64 (broadcast_server_time m) ∧
  is_u8 (broadcast_kind m) ∧
  is_bytes (broadcast_body m) ∧
  is_u16 (broadcast_n_attach m) ∧
  Forall wf_oc_attach_entry (broadcast_attach m) ∧
  is_bytes (broadcast_author_name m) ∧
  is_u8 (broadcast_broadcast_stored m).
#[export] Hint Unfold wf_oc_broadcast : wf.

Record oc_client_ack := mk_oc_client_ack {
  client_ack_channel_id : Z;
  client_ack_message_id : Z }.
Definition wf_oc_client_ack (m : oc_client_ack) : Prop :=
  is_u64 (client_ack_channel_id m) ∧
  is_u64 (client_ack_message_id m).
#[export] Hint Unfold wf_oc_client_ack : wf.

Record oc_read_cursor := mk_oc_read_cursor {
  read_cursor_channel_id : Z;
  read_cursor_user_id : Z;
  read_cursor_message_id : Z }.
Definition wf_oc_read_cursor (m : oc_read_cursor) : Prop :=
  is_u64 (read_cursor_channel_id m) ∧
  is_u64 (read_cursor_user_id m) ∧
  is_u64 (read_cursor_message_id m).
#[export] Hint Unfold wf_oc_read_cursor : wf.

Record oc_edit := mk_oc_edit { edit_channel_id : Z; edit_message_id : Z; edit_body : list Z }.
Definition wf_oc_edit (m : oc_edit) : Prop :=
  is_u64 (edit_channel_id m) ∧
  is_u64 (edit_message_id m) ∧
  is_bytes (edit_body m).
#[export] Hint Unfold wf_oc_edit : wf.

Record oc_delete := mk_oc_delete { delete_channel_id : Z; delete_message_id : Z }.
Definition wf_oc_delete (m : oc_delete) : Prop :=
  is_u64 (delete_channel_id m) ∧
  is_u64 (delete_message_id m).
#[export] Hint Unfold wf_oc_delete : wf.

Record oc_msg_edited := mk_oc_msg_edited {
  msg_edited_message_id : Z;
  msg_edited_channel_id : Z;
  msg_edited_author_id : Z;
  msg_edited_edited_at : Z;
  msg_edited_body : list Z }.
Definition wf_oc_msg_edited (m : oc_msg_edited) : Prop :=
  is_u64 (msg_edited_message_id m) ∧
  is_u64 (msg_edited_channel_id m) ∧
  is_u64 (msg_edited_author_id m) ∧
  is_u64 (msg_edited_edited_at m) ∧
  is_bytes (msg_edited_body m).
#[export] Hint Unfold wf_oc_msg_edited : wf.

Record oc_msg_deleted := mk_oc_msg_deleted {
  msg_deleted_message_id : Z;
  msg_deleted_channel_id : Z;
  msg_deleted_author_id : Z;
  msg_deleted_deleted_by : Z;
  msg_deleted_deleted_at : Z }.
Definition wf_oc_msg_deleted (m : oc_msg_deleted) : Prop :=
  is_u64 (msg_deleted_message_id m) ∧
  is_u64 (msg_deleted_channel_id m) ∧
  is_u64 (msg_deleted_author_id m) ∧
  is_u64 (msg_deleted_deleted_by m) ∧
  is_u64 (msg_deleted_deleted_at m).
#[export] Hint Unfold wf_oc_msg_deleted : wf.

Record oc_react := mk_oc_react {
  react_channel_id : Z;
  react_message_id : Z;
  react_emoji : list Z;
  react_op : Z }.
Definition wf_oc_react (m : oc_react) : Prop :=
  is_u64 (react_channel_id m) ∧
  is_u64 (react_message_id m) ∧
  is_bytes (react_emoji m) ∧
  is_u8 (react_op m).
#[export] Hint Unfold wf_oc_react : wf.

Record oc_reaction_updated := mk_oc_reaction_updated {
  reaction_updated_message_id : Z;
  reaction_updated_channel_id : Z;
  reaction_updated_user_id : Z;
  reaction_updated_emoji : list Z;
  reaction_updated_op : Z;
  reaction_updated_count : Z }.
Definition wf_oc_reaction_updated (m : oc_reaction_updated) : Prop :=
  is_u64 (reaction_updated_message_id m) ∧
  is_u64 (reaction_updated_channel_id m) ∧
  is_u64 (reaction_updated_user_id m) ∧
  is_bytes (reaction_updated_emoji m) ∧
  is_u8 (reaction_updated_op m) ∧
  is_u64 (reaction_updated_count m).
#[export] Hint Unfold wf_oc_reaction_updated : wf.

Record oc_list_reactions := mk_oc_list_reactions {
  list_reactions_channel_id : Z;
  list_reactions_message_id : Z }.
Definition wf_oc_list_reactions (m : oc_list_reactions) : Prop :=
  is_u64 (list_reactions_channel_id m) ∧
  is_u64 (list_reactions_message_id m).
#[export] Hint Unfold wf_oc_list_reactions : wf.

Record oc_reaction_entry := mk_oc_reaction_entry {
  reaction_entry_emoji : list Z;
  reaction_entry_user_id : Z }.
Definition wf_oc_reaction_entry (m : oc_reaction_entry) : Prop :=
  is_bytes (reaction_entry_emoji m) ∧
  is_u64 (reaction_entry_user_id m).
#[export] Hint Unfold wf_oc_reaction_entry : wf.

Record oc_reactions := mk_oc_reactions {
  reactions_message_id : Z;
  reactions_count : Z;
  reactions_entries : list oc_reaction_entry }.
Definition wf_oc_reactions (m : oc_reactions) : Prop :=
  is_u64 (reactions_message_id m) ∧
  is_u16 (reactions_count m) ∧
  Forall wf_oc_reaction_entry (reactions_entries m).
#[export] Hint Unfold wf_oc_reactions : wf.

Record oc_pin := mk_oc_pin { pin_channel_id : Z; pin_message_id : Z; pin_op : Z }.
Definition wf_oc_pin (m : oc_pin) : Prop :=
  is_u64 (pin_channel_id m) ∧
  is_u64 (pin_message_id m) ∧
  is_u8 (pin_op m).
#[export] Hint Unfold wf_oc_pin : wf.

Record oc_pin_updated := mk_oc_pin_updated {
  pin_updated_message_id : Z;
  pin_updated_channel_id : Z;
  pin_updated_user_id : Z;
  pin_updated_op : Z;
  pin_updated_pinned_at : Z }.
Definition wf_oc_pin_updated (m : oc_pin_updated) : Prop :=
  is_u64 (pin_updated_message_id m) ∧
  is_u64 (pin_updated_channel_id m) ∧
  is_u64 (pin_updated_user_id m) ∧
  is_u8 (pin_updated_op m) ∧
  is_u64 (pin_updated_pinned_at m).
#[export] Hint Unfold wf_oc_pin_updated : wf.

Record oc_list_pins := mk_oc_list_pins { list_pins_channel_id : Z }.
Definition wf_oc_list_pins (m : oc_list_pins) : Prop :=
  is_u64 (list_pins_channel_id m).
#[export] Hint Unfold wf_oc_list_pins : wf.

Record oc_pinned_msg := mk_oc_pinned_msg {
  pinned_msg_message_id : Z;
  pinned_msg_channel_id : Z;
  pinned_msg_author_id : Z;
  pinned_msg_server_time : Z;
  pinned_msg_pinned_by : Z;
  pinned_msg_pinned_at : Z;
  pinned_msg_body : list Z;
  pinned_msg_attach_name : list Z;
  pinned_msg_action : Z }.
Definition wf_oc_pinned_msg (m : oc_pinned_msg) : Prop :=
  is_u64 (pinned_msg_message_id m) ∧
  is_u64 (pinned_msg_channel_id m) ∧
  is_u64 (pinned_msg_author_id m) ∧
  is_u64 (pinned_msg_server_time m) ∧
  is_u64 (pinned_msg_pinned_by m) ∧
  is_u64 (pinned_msg_pinned_at m) ∧
  is_bytes (pinned_msg_body m) ∧
  is_bytes (pinned_msg_attach_name m) ∧
  is_u8 (pinned_msg_action m).
#[export] Hint Unfold wf_oc_pinned_msg : wf.

Record oc_pins := mk_oc_pins { pins_channel_id : Z; pins_count : Z }.
Definition wf_oc_pins (m : oc_pins) : Prop :=
  is_u64 (pins_channel_id m) ∧
  is_u32 (pins_count m).
#[export] Hint Unfold wf_oc_pins : wf.

Record oc_unfurl := mk_oc_unfurl {
  unfurl_message_id : Z;
  unfurl_channel_id : Z;
  unfurl_url : list Z;
  unfurl_title : list Z;
  unfurl_descr : list Z }.
Definition wf_oc_unfurl (m : oc_unfurl) : Prop :=
  is_u64 (unfurl_message_id m) ∧
  is_u64 (unfurl_channel_id m) ∧
  is_bytes (unfurl_url m) ∧
  is_bytes (unfurl_title m) ∧
  is_bytes (unfurl_descr m).
#[export] Hint Unfold wf_oc_unfurl : wf.

Record oc_forward := mk_oc_forward {
  forward_message_id : Z;
  forward_channel_id : Z;
  forward_src_channel : Z;
  forward_src_message : Z;
  forward_src_author : Z;
  forward_src_excerpt : list Z;
  forward_n_attach : Z;
  forward_src_attach_name : list Z;
  forward_src_action : Z }.
Definition wf_oc_forward (m : oc_forward) : Prop :=
  is_u64 (forward_message_id m) ∧
  is_u64 (forward_channel_id m) ∧
  is_u64 (forward_src_channel m) ∧
  is_u64 (forward_src_message m) ∧
  is_u64 (forward_src_author m) ∧
  is_bytes (forward_src_excerpt m) ∧
  is_u16 (forward_n_attach m) ∧
  is_bytes (forward_src_attach_name m) ∧
  is_u8 (forward_src_action m).
#[export] Hint Unfold wf_oc_forward : wf.

Record oc_action := mk_oc_action {
  action_message_id : Z;
  action_channel_id : Z;
  action_actor_id : Z;
  action_actor_name : list Z;
  action_text_start : Z;
  action_text_len : Z }.
Definition wf_oc_action (m : oc_action) : Prop :=
  is_u64 (action_message_id m) ∧
  is_u64 (action_channel_id m) ∧
  is_u64 (action_actor_id m) ∧
  is_bytes (action_actor_name m) ∧
  is_u32 (action_text_start m) ∧
  is_u32 (action_text_len m).
#[export] Hint Unfold wf_oc_action : wf.

Record oc_post_poll := mk_oc_post_poll {
  post_poll_channel_id : Z;
  post_poll_idem : list Z;
  post_poll_parent_id : Z;
  post_poll_question : list Z;
  post_poll_flags : Z;
  post_poll_close_at_ms : Z;
  post_poll_n_options : Z;
  post_poll_options : list (list Z) }.
Definition wf_oc_post_poll (m : oc_post_poll) : Prop :=
  is_u64 (post_poll_channel_id m) ∧
  zlen (post_poll_idem m) = OC_IDEM_SIZE ∧
  is_bytes (post_poll_idem m) ∧
  is_u64 (post_poll_parent_id m) ∧
  is_bytes (post_poll_question m) ∧
  is_u8 (post_poll_flags m) ∧
  is_u64 (post_poll_close_at_ms m) ∧
  is_u8 (post_poll_n_options m) ∧
  Forall is_bytes (post_poll_options m).
#[export] Hint Unfold wf_oc_post_poll : wf.

Record oc_vote := mk_oc_vote {
  vote_channel_id : Z;
  vote_message_id : Z;
  vote_count : Z;
  vote_picks : list Z }.
Definition wf_oc_vote (m : oc_vote) : Prop :=
  is_u64 (vote_channel_id m) ∧
  is_u64 (vote_message_id m) ∧
  is_u8 (vote_count m) ∧
  Forall is_u8 (vote_picks m).
#[export] Hint Unfold wf_oc_vote : wf.

Record oc_poll_option := mk_oc_poll_option {
  poll_option_label : list Z;
  poll_option_count : Z }.
Definition wf_oc_poll_option (m : oc_poll_option) : Prop :=
  is_bytes (poll_option_label m) ∧
  is_u32 (poll_option_count m).
#[export] Hint Unfold wf_oc_poll_option : wf.

Record oc_poll_msg := mk_oc_poll_msg {
  poll_msg_message_id : Z;
  poll_msg_channel_id : Z;
  poll_msg_flags : Z;
  poll_msg_close_at_ms : Z;
  poll_msg_voters : Z;
  poll_msg_mine : Z;
  poll_msg_n_options : Z;
  poll_msg_options : list oc_poll_option }.
Definition wf_oc_poll_msg (m : oc_poll_msg) : Prop :=
  is_u64 (poll_msg_message_id m) ∧
  is_u64 (poll_msg_channel_id m) ∧
  is_u8 (poll_msg_flags m) ∧
  is_u64 (poll_msg_close_at_ms m) ∧
  is_u32 (poll_msg_voters m) ∧
  is_u16 (poll_msg_mine m) ∧
  is_u8 (poll_msg_n_options m) ∧
  Forall wf_oc_poll_option (poll_msg_options m).
#[export] Hint Unfold wf_oc_poll_msg : wf.

Record oc_list_poll_voters := mk_oc_list_poll_voters {
  list_poll_voters_channel_id : Z;
  list_poll_voters_message_id : Z }.
Definition wf_oc_list_poll_voters (m : oc_list_poll_voters) : Prop :=
  is_u64 (list_poll_voters_channel_id m) ∧
  is_u64 (list_poll_voters_message_id m).
#[export] Hint Unfold wf_oc_list_poll_voters : wf.

Record oc_edit_poll := mk_oc_edit_poll {
  edit_poll_channel_id : Z;
  edit_poll_message_id : Z;
  edit_poll_flags : Z;
  edit_poll_close_at_ms : Z;
  edit_poll_n_options : Z;
  edit_poll_options : list (list Z) }.
Definition wf_oc_edit_poll (m : oc_edit_poll) : Prop :=
  is_u64 (edit_poll_channel_id m) ∧
  is_u64 (edit_poll_message_id m) ∧
  is_u8 (edit_poll_flags m) ∧
  is_u64 (edit_poll_close_at_ms m) ∧
  is_u8 (edit_poll_n_options m) ∧
  Forall is_bytes (edit_poll_options m).
#[export] Hint Unfold wf_oc_edit_poll : wf.

Record oc_poll_voter := mk_oc_poll_voter { poll_voter_option : Z; poll_voter_user_id : Z }.
Definition wf_oc_poll_voter (m : oc_poll_voter) : Prop :=
  is_u8 (poll_voter_option m) ∧
  is_u64 (poll_voter_user_id m).
#[export] Hint Unfold wf_oc_poll_voter : wf.

Record oc_summarize := mk_oc_summarize {
  summarize_req_id : Z;
  summarize_channel_id : Z;
  summarize_scope : Z;
  summarize_start_ms : Z;
  summarize_end_ms : Z }.
Definition wf_oc_summarize (m : oc_summarize) : Prop :=
  is_u32 (summarize_req_id m) ∧
  is_u64 (summarize_channel_id m) ∧
  is_u8 (summarize_scope m) ∧
  is_u64 (summarize_start_ms m) ∧
  is_u64 (summarize_end_ms m).
#[export] Hint Unfold wf_oc_summarize : wf.

Record oc_summary := mk_oc_summary {
  summary_req_id : Z;
  summary_status : Z;
  summary_summary_id : Z;
  summary_channel_id : Z;
  summary_start_ms : Z;
  summary_end_ms : Z;
  summary_version : list Z;
  summary_body : list Z }.
Definition wf_oc_summary (m : oc_summary) : Prop :=
  is_u32 (summary_req_id m) ∧
  is_u8 (summary_status m) ∧
  is_u64 (summary_summary_id m) ∧
  is_u64 (summary_channel_id m) ∧
  is_u64 (summary_start_ms m) ∧
  is_u64 (summary_end_ms m) ∧
  is_bytes (summary_version m) ∧
  is_bytes (summary_body m).
#[export] Hint Unfold wf_oc_summary : wf.

Record oc_summary_queued := mk_oc_summary_queued {
  summary_queued_req_id : Z;
  summary_queued_position : Z }.
Definition wf_oc_summary_queued (m : oc_summary_queued) : Prop :=
  is_u32 (summary_queued_req_id m) ∧
  is_u16 (summary_queued_position m).
#[export] Hint Unfold wf_oc_summary_queued : wf.

Record oc_summary_req := mk_oc_summary_req { summary_req_req_id : Z }.
Definition wf_oc_summary_req (m : oc_summary_req) : Prop :=
  is_u32 (summary_req_req_id m).
#[export] Hint Unfold wf_oc_summary_req : wf.

Record oc_summary_ready := mk_oc_summary_ready {
  summary_ready_notice_id : Z;
  summary_ready_channel_id : Z;
  summary_ready_scope : Z;
  summary_ready_status : Z;
  summary_ready_start_ms : Z;
  summary_ready_end_ms : Z;
  summary_ready_made_at_ms : Z }.
Definition wf_oc_summary_ready (m : oc_summary_ready) : Prop :=
  is_u64 (summary_ready_notice_id m) ∧
  is_u64 (summary_ready_channel_id m) ∧
  is_u8 (summary_ready_scope m) ∧
  is_u8 (summary_ready_status m) ∧
  is_u64 (summary_ready_start_ms m) ∧
  is_u64 (summary_ready_end_ms m) ∧
  is_u64 (summary_ready_made_at_ms m).
#[export] Hint Unfold wf_oc_summary_ready : wf.

Record oc_summary_open := mk_oc_summary_open {
  summary_open_req_id : Z;
  summary_open_notice_id : Z }.
Definition wf_oc_summary_open (m : oc_summary_open) : Prop :=
  is_u32 (summary_open_req_id m) ∧
  is_u64 (summary_open_notice_id m).
#[export] Hint Unfold wf_oc_summary_open : wf.

Record oc_summary_dismiss := mk_oc_summary_dismiss { summary_dismiss_notice_id : Z }.
Definition wf_oc_summary_dismiss (m : oc_summary_dismiss) : Prop :=
  is_u64 (summary_dismiss_notice_id m).
#[export] Hint Unfold wf_oc_summary_dismiss : wf.

Record oc_list_members := mk_oc_list_members { list_members_channel_id : Z }.
Definition wf_oc_list_members (m : oc_list_members) : Prop :=
  is_u64 (list_members_channel_id m).
#[export] Hint Unfold wf_oc_list_members : wf.

Record oc_member_entry := mk_oc_member_entry {
  member_entry_channel_id : Z;
  member_entry_user_id : Z;
  member_entry_role : Z;
  member_entry_joined_at : Z }.
Definition wf_oc_member_entry (m : oc_member_entry) : Prop :=
  is_u64 (member_entry_channel_id m) ∧
  is_u64 (member_entry_user_id m) ∧
  is_u8 (member_entry_role m) ∧
  is_u64 (member_entry_joined_at m).
#[export] Hint Unfold wf_oc_member_entry : wf.

Record oc_unresolved_mention := mk_oc_unresolved_mention {
  unresolved_mention_user_id : Z;
  unresolved_mention_name : list Z }.
Definition wf_oc_unresolved_mention (m : oc_unresolved_mention) : Prop :=
  is_u64 (unresolved_mention_user_id m) ∧
  zlen (unresolved_mention_name m) = OC_MAX_DISPLAY_NAME + 1 ∧
  is_bytes (unresolved_mention_name m).
#[export] Hint Unfold wf_oc_unresolved_mention : wf.

Record oc_mention_unresolved := mk_oc_mention_unresolved {
  mention_unresolved_channel_id : Z;
  mention_unresolved_message_id : Z;
  mention_unresolved_can_add : Z;
  mention_unresolved_is_private : Z;
  mention_unresolved_count : Z;
  mention_unresolved_who : list oc_unresolved_mention }.
Definition wf_oc_mention_unresolved (m : oc_mention_unresolved) : Prop :=
  is_u64 (mention_unresolved_channel_id m) ∧
  is_u64 (mention_unresolved_message_id m) ∧
  is_u8 (mention_unresolved_can_add m) ∧
  is_u8 (mention_unresolved_is_private m) ∧
  is_u16 (mention_unresolved_count m) ∧
  Forall wf_oc_unresolved_mention (mention_unresolved_who m).
#[export] Hint Unfold wf_oc_mention_unresolved : wf.

Record oc_members := mk_oc_members { members_channel_id : Z; members_count : Z }.
Definition wf_oc_members (m : oc_members) : Prop :=
  is_u64 (members_channel_id m) ∧
  is_u32 (members_count m).
#[export] Hint Unfold wf_oc_members : wf.

Record oc_list_files := mk_oc_list_files {
  list_files_channel_id : Z;
  list_files_before_ms : Z;
  list_files_before_id : Z }.
Definition wf_oc_list_files (m : oc_list_files) : Prop :=
  is_u64 (list_files_channel_id m) ∧
  is_u64 (list_files_before_ms m) ∧
  is_u64 (list_files_before_id m).
#[export] Hint Unfold wf_oc_list_files : wf.

Record oc_file_entry := mk_oc_file_entry {
  file_entry_attachment_id : Z;
  file_entry_channel_id : Z;
  file_entry_message_id : Z;
  file_entry_uploader_id : Z;
  file_entry_size : Z;
  file_entry_created_at : Z;
  file_entry_reclaimed : Z;
  file_entry_filename : list Z;
  file_entry_mime : list Z;
  file_entry_media_kind : Z;
  file_entry_duration_ms : Z }.
Definition wf_oc_file_entry (m : oc_file_entry) : Prop :=
  is_u64 (file_entry_attachment_id m) ∧
  is_u64 (file_entry_channel_id m) ∧
  is_u64 (file_entry_message_id m) ∧
  is_u64 (file_entry_uploader_id m) ∧
  is_u64 (file_entry_size m) ∧
  is_u64 (file_entry_created_at m) ∧
  is_u8 (file_entry_reclaimed m) ∧
  is_bytes (file_entry_filename m) ∧
  is_bytes (file_entry_mime m) ∧
  is_u8 (file_entry_media_kind m) ∧
  is_u32 (file_entry_duration_ms m).
#[export] Hint Unfold wf_oc_file_entry : wf.

Record oc_files := mk_oc_files { files_channel_id : Z; files_count : Z; files_more : Z }.
Definition wf_oc_files (m : oc_files) : Prop :=
  is_u64 (files_channel_id m) ∧
  is_u32 (files_count m) ∧
  is_u8 (files_more m).
#[export] Hint Unfold wf_oc_files : wf.

Record oc_send_reply := mk_oc_send_reply {
  send_reply_channel_id : Z;
  send_reply_idem : list Z;
  send_reply_parent_id : Z;
  send_reply_body : list Z;
  send_reply_n_attach : Z;
  send_reply_attach_ids : list Z }.
Definition wf_oc_send_reply (m : oc_send_reply) : Prop :=
  is_u64 (send_reply_channel_id m) ∧
  zlen (send_reply_idem m) = OC_IDEM_SIZE ∧
  is_bytes (send_reply_idem m) ∧
  is_u64 (send_reply_parent_id m) ∧
  is_bytes (send_reply_body m) ∧
  is_u16 (send_reply_n_attach m) ∧
  Forall is_u64 (send_reply_attach_ids m).
#[export] Hint Unfold wf_oc_send_reply : wf.

Record oc_thread_reply := mk_oc_thread_reply {
  thread_reply_message_id : Z;
  thread_reply_channel_id : Z;
  thread_reply_parent_id : Z;
  thread_reply_author_id : Z;
  thread_reply_server_time : Z;
  thread_reply_reply_count : Z;
  thread_reply_participant : Z;
  thread_reply_body : list Z;
  thread_reply_n_attach : Z;
  thread_reply_attach : list oc_attach_entry;
  thread_reply_broadcast_stored : Z }.
Definition wf_oc_thread_reply (m : oc_thread_reply) : Prop :=
  is_u64 (thread_reply_message_id m) ∧
  is_u64 (thread_reply_channel_id m) ∧
  is_u64 (thread_reply_parent_id m) ∧
  is_u64 (thread_reply_author_id m) ∧
  is_u64 (thread_reply_server_time m) ∧
  is_u32 (thread_reply_reply_count m) ∧
  is_u8 (thread_reply_participant m) ∧
  is_bytes (thread_reply_body m) ∧
  is_u16 (thread_reply_n_attach m) ∧
  Forall wf_oc_attach_entry (thread_reply_attach m) ∧
  is_u8 (thread_reply_broadcast_stored m).
#[export] Hint Unfold wf_oc_thread_reply : wf.

Record oc_list_thread := mk_oc_list_thread {
  list_thread_channel_id : Z;
  list_thread_parent_id : Z }.
Definition wf_oc_list_thread (m : oc_list_thread) : Prop :=
  is_u64 (list_thread_channel_id m) ∧
  is_u64 (list_thread_parent_id m).
#[export] Hint Unfold wf_oc_list_thread : wf.

Record oc_thread := mk_oc_thread {
  thread_parent_id : Z;
  thread_count : Z;
  thread_truncated : Z }.
Definition wf_oc_thread (m : oc_thread) : Prop :=
  is_u64 (thread_parent_id m) ∧
  is_u32 (thread_count m) ∧
  is_u8 (thread_truncated m).
#[export] Hint Unfold wf_oc_thread : wf.

Record oc_thread_meta := mk_oc_thread_meta {
  thread_meta_message_id : Z;
  thread_meta_reply_count : Z;
  thread_meta_last_reply_at : Z }.
Definition wf_oc_thread_meta (m : oc_thread_meta) : Prop :=
  is_u64 (thread_meta_message_id m) ∧
  is_u32 (thread_meta_reply_count m) ∧
  is_u64 (thread_meta_last_reply_at m).
#[export] Hint Unfold wf_oc_thread_meta : wf.

Record oc_create_channel := mk_oc_create_channel {
  create_channel_name : list Z;
  create_channel_is_public : Z }.
Definition wf_oc_create_channel (m : oc_create_channel) : Prop :=
  is_bytes (create_channel_name m) ∧
  is_u8 (create_channel_is_public m).
#[export] Hint Unfold wf_oc_create_channel : wf.

Record oc_update_channel := mk_oc_update_channel {
  update_channel_channel_id : Z;
  update_channel_op : Z;
  update_channel_value : list Z }.
Definition wf_oc_update_channel (m : oc_update_channel) : Prop :=
  is_u64 (update_channel_channel_id m) ∧
  is_u8 (update_channel_op m) ∧
  is_bytes (update_channel_value m).
#[export] Hint Unfold wf_oc_update_channel : wf.

Record oc_save_item := mk_oc_save_item { save_item_message_id : Z; save_item_op : Z }.
Definition wf_oc_save_item (m : oc_save_item) : Prop :=
  is_u64 (save_item_message_id m) ∧
  is_u8 (save_item_op m).
#[export] Hint Unfold wf_oc_save_item : wf.

Record oc_saved_updated := mk_oc_saved_updated {
  saved_updated_message_id : Z;
  saved_updated_op : Z;
  saved_updated_saved_at : Z }.
Definition wf_oc_saved_updated (m : oc_saved_updated) : Prop :=
  is_u64 (saved_updated_message_id m) ∧
  is_u8 (saved_updated_op m) ∧
  is_u64 (saved_updated_saved_at m).
#[export] Hint Unfold wf_oc_saved_updated : wf.

Record oc_saved_msg := mk_oc_saved_msg {
  saved_msg_message_id : Z;
  saved_msg_channel_id : Z;
  saved_msg_author_id : Z;
  saved_msg_server_time : Z;
  saved_msg_saved_at : Z;
  saved_msg_body : list Z;
  saved_msg_attach_name : list Z;
  saved_msg_action : Z }.
Definition wf_oc_saved_msg (m : oc_saved_msg) : Prop :=
  is_u64 (saved_msg_message_id m) ∧
  is_u64 (saved_msg_channel_id m) ∧
  is_u64 (saved_msg_author_id m) ∧
  is_u64 (saved_msg_server_time m) ∧
  is_u64 (saved_msg_saved_at m) ∧
  is_bytes (saved_msg_body m) ∧
  is_bytes (saved_msg_attach_name m) ∧
  is_u8 (saved_msg_action m).
#[export] Hint Unfold wf_oc_saved_msg : wf.

Record oc_saved := mk_oc_saved { saved_count : Z }.
Definition wf_oc_saved (m : oc_saved) : Prop :=
  is_u32 (saved_count m).
#[export] Hint Unfold wf_oc_saved : wf.

Record oc_set_collapsed := mk_oc_set_collapsed {
  set_collapsed_message_id : Z;
  set_collapsed_on : Z }.
Definition wf_oc_set_collapsed (m : oc_set_collapsed) : Prop :=
  is_u64 (set_collapsed_message_id m) ∧
  is_u8 (set_collapsed_on m).
#[export] Hint Unfold wf_oc_set_collapsed : wf.

Record oc_activity_entry := mk_oc_activity_entry {
  activity_entry_kind : Z;
  activity_entry_message_id : Z;
  activity_entry_channel_id : Z;
  activity_entry_actor_id : Z;
  activity_entry_at : Z;
  activity_entry_text : list Z;
  activity_entry_action : Z }.
Definition wf_oc_activity_entry (m : oc_activity_entry) : Prop :=
  is_u8 (activity_entry_kind m) ∧
  is_u64 (activity_entry_message_id m) ∧
  is_u64 (activity_entry_channel_id m) ∧
  is_u64 (activity_entry_actor_id m) ∧
  is_u64 (activity_entry_at m) ∧
  is_bytes (activity_entry_text m) ∧
  is_u8 (activity_entry_action m).
#[export] Hint Unfold wf_oc_activity_entry : wf.

Record oc_activity := mk_oc_activity { activity_count : Z; activity_seen_at : Z }.
Definition wf_oc_activity (m : oc_activity) : Prop :=
  is_u32 (activity_count m) ∧
  is_u64 (activity_seen_at m).
#[export] Hint Unfold wf_oc_activity : wf.

Record oc_channel_info := mk_oc_channel_info {
  channel_info_channel_id : Z;
  channel_info_kind : Z;
  channel_info_name : list Z;
  channel_info_is_public : Z;
  channel_info_joined : Z;
  channel_info_created_at : Z;
  channel_info_peer_id : Z;
  channel_info_topic : list Z;
  channel_info_archived : Z;
  channel_info_n_peers : Z;
  channel_info_peers : list Z;
  channel_info_e2e : Z }.
Definition wf_oc_channel_info (m : oc_channel_info) : Prop :=
  is_u64 (channel_info_channel_id m) ∧
  is_u8 (channel_info_kind m) ∧
  is_bytes (channel_info_name m) ∧
  is_u8 (channel_info_is_public m) ∧
  is_u8 (channel_info_joined m) ∧
  is_u64 (channel_info_created_at m) ∧
  is_u64 (channel_info_peer_id m) ∧
  is_bytes (channel_info_topic m) ∧
  is_u8 (channel_info_archived m) ∧
  is_u16 (channel_info_n_peers m) ∧
  Forall is_u64 (channel_info_peers m) ∧
  is_u8 (channel_info_e2e m).
#[export] Hint Unfold wf_oc_channel_info : wf.

Record oc_channel_ref := mk_oc_channel_ref { channel_ref_channel_id : Z }.
Definition wf_oc_channel_ref (m : oc_channel_ref) : Prop :=
  is_u64 (channel_ref_channel_id m).
#[export] Hint Unfold wf_oc_channel_ref : wf.

Record oc_channel_member_op := mk_oc_channel_member_op {
  channel_member_op_channel_id : Z;
  channel_member_op_user_id : Z }.
Definition wf_oc_channel_member_op (m : oc_channel_member_op) : Prop :=
  is_u64 (channel_member_op_channel_id m) ∧
  is_u64 (channel_member_op_user_id m).
#[export] Hint Unfold wf_oc_channel_member_op : wf.

Record oc_channel_list_entry := mk_oc_channel_list_entry {
  channel_list_entry_channel_id : Z;
  channel_list_entry_name : list Z;
  channel_list_entry_is_public : Z;
  channel_list_entry_joined : Z;
  channel_list_entry_kind : Z;
  channel_list_entry_last_message_at : Z;
  channel_list_entry_unread : Z;
  channel_list_entry_peer_id : Z;
  channel_list_entry_topic : list Z;
  channel_list_entry_archived : Z;
  channel_list_entry_created_at : Z;
  channel_list_entry_preview : list Z;
  channel_list_entry_preview_author : Z;
  channel_list_entry_preview_action : Z;
  channel_list_entry_n_peers : Z;
  channel_list_entry_peers : list Z;
  channel_list_entry_e2e : Z }.
Definition wf_oc_channel_list_entry (m : oc_channel_list_entry) : Prop :=
  is_u64 (channel_list_entry_channel_id m) ∧
  is_bytes (channel_list_entry_name m) ∧
  is_u8 (channel_list_entry_is_public m) ∧
  is_u8 (channel_list_entry_joined m) ∧
  is_u8 (channel_list_entry_kind m) ∧
  is_u64 (channel_list_entry_last_message_at m) ∧
  is_u32 (channel_list_entry_unread m) ∧
  is_u64 (channel_list_entry_peer_id m) ∧
  is_bytes (channel_list_entry_topic m) ∧
  is_u8 (channel_list_entry_archived m) ∧
  is_u64 (channel_list_entry_created_at m) ∧
  is_bytes (channel_list_entry_preview m) ∧
  is_u64 (channel_list_entry_preview_author m) ∧
  is_u8 (channel_list_entry_preview_action m) ∧
  is_u16 (channel_list_entry_n_peers m) ∧
  Forall is_u64 (channel_list_entry_peers m) ∧
  is_u8 (channel_list_entry_e2e m).
#[export] Hint Unfold wf_oc_channel_list_entry : wf.

Record oc_open_dm := mk_oc_open_dm { open_dm_user_id : Z }.
Definition wf_oc_open_dm (m : oc_open_dm) : Prop :=
  is_u64 (open_dm_user_id m).
#[export] Hint Unfold wf_oc_open_dm : wf.

Record oc_create_webhook := mk_oc_create_webhook {
  create_webhook_channel_id : Z;
  create_webhook_label : list Z }.
Definition wf_oc_create_webhook (m : oc_create_webhook) : Prop :=
  is_u64 (create_webhook_channel_id m) ∧
  is_bytes (create_webhook_label m).
#[export] Hint Unfold wf_oc_create_webhook : wf.

Record oc_webhook_info := mk_oc_webhook_info {
  webhook_info_webhook_id : Z;
  webhook_info_channel_id : Z;
  webhook_info_token : list Z }.
Definition wf_oc_webhook_info (m : oc_webhook_info) : Prop :=
  is_u64 (webhook_info_webhook_id m) ∧
  is_u64 (webhook_info_channel_id m) ∧
  is_bytes (webhook_info_token m).
#[export] Hint Unfold wf_oc_webhook_info : wf.

Record oc_list_webhooks := mk_oc_list_webhooks { list_webhooks_channel_id : Z }.
Definition wf_oc_list_webhooks (m : oc_list_webhooks) : Prop :=
  is_u64 (list_webhooks_channel_id m).
#[export] Hint Unfold wf_oc_list_webhooks : wf.

Record oc_webhook_list_entry := mk_oc_webhook_list_entry {
  webhook_list_entry_webhook_id : Z;
  webhook_list_entry_channel_id : Z;
  webhook_list_entry_label : list Z;
  webhook_list_entry_disabled : Z }.
Definition wf_oc_webhook_list_entry (m : oc_webhook_list_entry) : Prop :=
  is_u64 (webhook_list_entry_webhook_id m) ∧
  is_u64 (webhook_list_entry_channel_id m) ∧
  is_bytes (webhook_list_entry_label m) ∧
  is_u8 (webhook_list_entry_disabled m).
#[export] Hint Unfold wf_oc_webhook_list_entry : wf.

Record oc_webhook_list := mk_oc_webhook_list {
  webhook_list_count : Z;
  webhook_list_entries : list oc_webhook_list_entry }.
Definition wf_oc_webhook_list (m : oc_webhook_list) : Prop :=
  is_u16 (webhook_list_count m) ∧
  Forall wf_oc_webhook_list_entry (webhook_list_entries m).
#[export] Hint Unfold wf_oc_webhook_list : wf.

Record oc_set_webhook_state := mk_oc_set_webhook_state {
  set_webhook_state_webhook_id : Z;
  set_webhook_state_disabled : Z }.
Definition wf_oc_set_webhook_state (m : oc_set_webhook_state) : Prop :=
  is_u64 (set_webhook_state_webhook_id m) ∧
  is_u8 (set_webhook_state_disabled m).
#[export] Hint Unfold wf_oc_set_webhook_state : wf.

Record oc_rotate_webhook := mk_oc_rotate_webhook { rotate_webhook_webhook_id : Z }.
Definition wf_oc_rotate_webhook (m : oc_rotate_webhook) : Prop :=
  is_u64 (rotate_webhook_webhook_id m).
#[export] Hint Unfold wf_oc_rotate_webhook : wf.

Record oc_set_status := mk_oc_set_status {
  set_status_emoji : list Z;
  set_status_text : list Z;
  set_status_expires_at : Z }.
Definition wf_oc_set_status (m : oc_set_status) : Prop :=
  is_bytes (set_status_emoji m) ∧
  is_bytes (set_status_text m) ∧
  is_u64 (set_status_expires_at m).
#[export] Hint Unfold wf_oc_set_status : wf.

Record oc_set_profile := mk_oc_set_profile {
  set_profile_full_name : list Z;
  set_profile_title : list Z;
  set_profile_pronouns : list Z;
  set_profile_phone : list Z;
  set_profile_timezone : list Z;
  set_profile_voice_id : list Z }.
Definition wf_oc_set_profile (m : oc_set_profile) : Prop :=
  is_bytes (set_profile_full_name m) ∧
  is_bytes (set_profile_title m) ∧
  is_bytes (set_profile_pronouns m) ∧
  is_bytes (set_profile_phone m) ∧
  is_bytes (set_profile_timezone m) ∧
  is_bytes (set_profile_voice_id m).
#[export] Hint Unfold wf_oc_set_profile : wf.

Record oc_set_avatar := mk_oc_set_avatar { set_avatar_attachment_id : Z }.
Definition wf_oc_set_avatar (m : oc_set_avatar) : Prop :=
  is_u64 (set_avatar_attachment_id m).
#[export] Hint Unfold wf_oc_set_avatar : wf.

Record oc_create_group := mk_oc_create_group {
  create_group_handle : list Z;
  create_group_name : list Z;
  create_group_description : list Z }.
Definition wf_oc_create_group (m : oc_create_group) : Prop :=
  is_bytes (create_group_handle m) ∧
  is_bytes (create_group_name m) ∧
  is_bytes (create_group_description m).
#[export] Hint Unfold wf_oc_create_group : wf.

Record oc_update_group := mk_oc_update_group {
  update_group_group_id : Z;
  update_group_handle : list Z;
  update_group_name : list Z;
  update_group_description : list Z }.
Definition wf_oc_update_group (m : oc_update_group) : Prop :=
  is_u64 (update_group_group_id m) ∧
  is_bytes (update_group_handle m) ∧
  is_bytes (update_group_name m) ∧
  is_bytes (update_group_description m).
#[export] Hint Unfold wf_oc_update_group : wf.

Record oc_group_ref := mk_oc_group_ref { group_ref_group_id : Z }.
Definition wf_oc_group_ref (m : oc_group_ref) : Prop :=
  is_u64 (group_ref_group_id m).
#[export] Hint Unfold wf_oc_group_ref : wf.

Record oc_group_members_op := mk_oc_group_members_op {
  group_members_op_group_id : Z;
  group_members_op_count : Z;
  group_members_op_user_ids : list Z }.
Definition wf_oc_group_members_op (m : oc_group_members_op) : Prop :=
  is_u64 (group_members_op_group_id m) ∧
  is_u16 (group_members_op_count m) ∧
  Forall is_u64 (group_members_op_user_ids m).
#[export] Hint Unfold wf_oc_group_members_op : wf.

Record oc_group_info := mk_oc_group_info {
  group_info_group_id : Z;
  group_info_handle : list Z;
  group_info_name : list Z;
  group_info_description : list Z;
  group_info_created_by : Z;
  group_info_count : Z;
  group_info_members : list Z }.
Definition wf_oc_group_info (m : oc_group_info) : Prop :=
  is_u64 (group_info_group_id m) ∧
  is_bytes (group_info_handle m) ∧
  is_bytes (group_info_name m) ∧
  is_bytes (group_info_description m) ∧
  is_u64 (group_info_created_by m) ∧
  is_u16 (group_info_count m) ∧
  Forall is_u64 (group_info_members m).
#[export] Hint Unfold wf_oc_group_info : wf.

Record oc_groups_end := mk_oc_groups_end { groups_end_count : Z }.
Definition wf_oc_groups_end (m : oc_groups_end) : Prop :=
  is_u16 (groups_end_count m).
#[export] Hint Unfold wf_oc_groups_end : wf.

Record oc_channel_group_op := mk_oc_channel_group_op {
  channel_group_op_channel_id : Z;
  channel_group_op_group_id : Z }.
Definition wf_oc_channel_group_op (m : oc_channel_group_op) : Prop :=
  is_u64 (channel_group_op_channel_id m) ∧
  is_u64 (channel_group_op_group_id m).
#[export] Hint Unfold wf_oc_channel_group_op : wf.

Record oc_channel_groups := mk_oc_channel_groups {
  channel_groups_channel_id : Z;
  channel_groups_count : Z;
  channel_groups_group_ids : list Z }.
Definition wf_oc_channel_groups (m : oc_channel_groups) : Prop :=
  is_u64 (channel_groups_channel_id m) ∧
  is_u16 (channel_groups_count m) ∧
  Forall is_u64 (channel_groups_group_ids m).
#[export] Hint Unfold wf_oc_channel_groups : wf.

Record oc_channel_via_group := mk_oc_channel_via_group {
  channel_via_group_channel_id : Z;
  channel_via_group_count : Z;
  channel_via_group_user_ids : list Z }.
Definition wf_oc_channel_via_group (m : oc_channel_via_group) : Prop :=
  is_u64 (channel_via_group_channel_id m) ∧
  is_u16 (channel_via_group_count m) ∧
  Forall is_u64 (channel_via_group_user_ids m).
#[export] Hint Unfold wf_oc_channel_via_group : wf.

Record oc_mention_unresolved_more := mk_oc_mention_unresolved_more {
  mention_unresolved_more_channel_id : Z;
  mention_unresolved_more_message_id : Z;
  mention_unresolved_more_total : Z }.
Definition wf_oc_mention_unresolved_more (m : oc_mention_unresolved_more) : Prop :=
  is_u64 (mention_unresolved_more_channel_id m) ∧
  is_u64 (mention_unresolved_more_message_id m) ∧
  is_u16 (mention_unresolved_more_total m).
#[export] Hint Unfold wf_oc_mention_unresolved_more : wf.

Record oc_alerts_summary := mk_oc_alerts_summary {
  alerts_summary_unacked : Z;
  alerts_summary_current : Z }.
Definition wf_oc_alerts_summary (m : oc_alerts_summary) : Prop :=
  is_u32 (alerts_summary_unacked m) ∧
  is_u32 (alerts_summary_current m).
#[export] Hint Unfold wf_oc_alerts_summary : wf.

Record oc_restore := mk_oc_restore { restore_channel_id : Z; restore_message_id : Z }.
Definition wf_oc_restore (m : oc_restore) : Prop :=
  is_u64 (restore_channel_id m) ∧
  is_u64 (restore_message_id m).
#[export] Hint Unfold wf_oc_restore : wf.

Record oc_alert := mk_oc_alert {
  alert_id : Z;
  alert_first_ms : Z;
  alert_last_ms : Z;
  alert_count : Z;
  alert_current : Z;
  alert_acked : Z;
  alert_key : list Z;
  alert_message : list Z }.
Definition wf_oc_alert (m : oc_alert) : Prop :=
  is_u64 (alert_id m) ∧
  is_u64 (alert_first_ms m) ∧
  is_u64 (alert_last_ms m) ∧
  is_u32 (alert_count m) ∧
  is_u8 (alert_current m) ∧
  is_u8 (alert_acked m) ∧
  is_bytes (alert_key m) ∧
  is_bytes (alert_message m).
#[export] Hint Unfold wf_oc_alert : wf.

Record oc_alerts := mk_oc_alerts { alerts_count : Z; alerts_alerts : list oc_alert }.
Definition wf_oc_alerts (m : oc_alerts) : Prop :=
  is_u16 (alerts_count m) ∧
  Forall wf_oc_alert (alerts_alerts m).
#[export] Hint Unfold wf_oc_alerts : wf.

Record oc_alert_ack := mk_oc_alert_ack { alert_ack_alert_id : Z }.
Definition wf_oc_alert_ack (m : oc_alert_ack) : Prop :=
  is_u64 (alert_ack_alert_id m).
#[export] Hint Unfold wf_oc_alert_ack : wf.

Record oc_open_group_dm := mk_oc_open_group_dm {
  open_group_dm_count : Z;
  open_group_dm_user_ids : list Z }.
Definition wf_oc_open_group_dm (m : oc_open_group_dm) : Prop :=
  is_u16 (open_group_dm_count m) ∧
  Forall is_u64 (open_group_dm_user_ids m).
#[export] Hint Unfold wf_oc_open_group_dm : wf.

Record oc_add_emoji := mk_oc_add_emoji { add_emoji_name : list Z; add_emoji_attachment_id : Z }.
Definition wf_oc_add_emoji (m : oc_add_emoji) : Prop :=
  is_bytes (add_emoji_name m) ∧
  is_u64 (add_emoji_attachment_id m).
#[export] Hint Unfold wf_oc_add_emoji : wf.

Record oc_delete_emoji := mk_oc_delete_emoji { delete_emoji_name : list Z }.
Definition wf_oc_delete_emoji (m : oc_delete_emoji) : Prop :=
  is_bytes (delete_emoji_name m).
#[export] Hint Unfold wf_oc_delete_emoji : wf.

Record oc_emoji_entry := mk_oc_emoji_entry {
  emoji_entry_name : list Z;
  emoji_entry_attachment_id : Z;
  emoji_entry_created_by : Z }.
Definition wf_oc_emoji_entry (m : oc_emoji_entry) : Prop :=
  is_bytes (emoji_entry_name m) ∧
  is_u64 (emoji_entry_attachment_id m) ∧
  is_u64 (emoji_entry_created_by m).
#[export] Hint Unfold wf_oc_emoji_entry : wf.

Record oc_emoji_list := mk_oc_emoji_list {
  emoji_list_count : Z;
  emoji_list_entries : list oc_emoji_entry }.
Definition wf_oc_emoji_list (m : oc_emoji_list) : Prop :=
  is_u16 (emoji_list_count m) ∧
  Forall wf_oc_emoji_entry (emoji_list_entries m).
#[export] Hint Unfold wf_oc_emoji_list : wf.

Record oc_profile_info := mk_oc_profile_info {
  profile_info_user_id : Z;
  profile_info_display_name : list Z;
  profile_info_email : list Z;
  profile_info_status_emoji : list Z;
  profile_info_status_text : list Z;
  profile_info_status_expires : Z;
  profile_info_title : list Z;
  profile_info_timezone : list Z;
  profile_info_avatar_id : Z;
  profile_info_role : Z;
  profile_info_full_name : list Z;
  profile_info_pronouns : list Z;
  profile_info_phone : list Z;
  profile_info_voice_id : list Z }.
Definition wf_oc_profile_info (m : oc_profile_info) : Prop :=
  is_u64 (profile_info_user_id m) ∧
  is_bytes (profile_info_display_name m) ∧
  is_bytes (profile_info_email m) ∧
  is_bytes (profile_info_status_emoji m) ∧
  is_bytes (profile_info_status_text m) ∧
  is_u64 (profile_info_status_expires m) ∧
  is_bytes (profile_info_title m) ∧
  is_bytes (profile_info_timezone m) ∧
  is_u64 (profile_info_avatar_id m) ∧
  is_u8 (profile_info_role m) ∧
  is_bytes (profile_info_full_name m) ∧
  is_bytes (profile_info_pronouns m) ∧
  is_bytes (profile_info_phone m) ∧
  is_bytes (profile_info_voice_id m).
#[export] Hint Unfold wf_oc_profile_info : wf.

Record oc_session_entry := mk_oc_session_entry {
  session_entry_session_id : Z;
  session_entry_created_at : Z;
  session_entry_last_seen : Z;
  session_entry_expires_at : Z;
  session_entry_current : Z;
  session_entry_device_label : list Z }.
Definition wf_oc_session_entry (m : oc_session_entry) : Prop :=
  is_u64 (session_entry_session_id m) ∧
  is_u64 (session_entry_created_at m) ∧
  is_u64 (session_entry_last_seen m) ∧
  is_u64 (session_entry_expires_at m) ∧
  is_u8 (session_entry_current m) ∧
  is_bytes (session_entry_device_label m).
#[export] Hint Unfold wf_oc_session_entry : wf.

Record oc_session_list := mk_oc_session_list {
  session_list_count : Z;
  session_list_entries : list oc_session_entry }.
Definition wf_oc_session_list (m : oc_session_list) : Prop :=
  is_u16 (session_list_count m) ∧
  Forall wf_oc_session_entry (session_list_entries m).
#[export] Hint Unfold wf_oc_session_list : wf.

Record oc_file_channel_entry := mk_oc_file_channel_entry {
  file_channel_entry_channel_id : Z;
  file_channel_entry_count : Z }.
Definition wf_oc_file_channel_entry (m : oc_file_channel_entry) : Prop :=
  is_u64 (file_channel_entry_channel_id m) ∧
  is_u32 (file_channel_entry_count m).
#[export] Hint Unfold wf_oc_file_channel_entry : wf.

Record oc_file_channels := mk_oc_file_channels {
  file_channels_count : Z;
  file_channels_entries : list oc_file_channel_entry }.
Definition wf_oc_file_channels (m : oc_file_channels) : Prop :=
  is_u16 (file_channels_count m) ∧
  Forall wf_oc_file_channel_entry (file_channels_entries m).
#[export] Hint Unfold wf_oc_file_channels : wf.

Record oc_set_mute := mk_oc_set_mute { set_mute_channel_id : Z; set_mute_muted : Z }.
Definition wf_oc_set_mute (m : oc_set_mute) : Prop :=
  is_u64 (set_mute_channel_id m) ∧
  is_u8 (set_mute_muted m).
#[export] Hint Unfold wf_oc_set_mute : wf.

Record oc_set_read_cursor := mk_oc_set_read_cursor {
  set_read_cursor_channel_id : Z;
  set_read_cursor_message_id : Z }.
Definition wf_oc_set_read_cursor (m : oc_set_read_cursor) : Prop :=
  is_u64 (set_read_cursor_channel_id m) ∧
  is_u64 (set_read_cursor_message_id m).
#[export] Hint Unfold wf_oc_set_read_cursor : wf.

Record oc_delete_webhook := mk_oc_delete_webhook { delete_webhook_webhook_id : Z }.
Definition wf_oc_delete_webhook (m : oc_delete_webhook) : Prop :=
  is_u64 (delete_webhook_webhook_id m).
#[export] Hint Unfold wf_oc_delete_webhook : wf.

Record oc_webhook_deleted := mk_oc_webhook_deleted { webhook_deleted_webhook_id : Z }.
Definition wf_oc_webhook_deleted (m : oc_webhook_deleted) : Prop :=
  is_u64 (webhook_deleted_webhook_id m).
#[export] Hint Unfold wf_oc_webhook_deleted : wf.

Record oc_set_presence := mk_oc_set_presence { set_presence_status : Z }.
Definition wf_oc_set_presence (m : oc_set_presence) : Prop :=
  is_u8 (set_presence_status m).
#[export] Hint Unfold wf_oc_set_presence : wf.

Record oc_presence_update := mk_oc_presence_update {
  presence_update_user_id : Z;
  presence_update_status : Z;
  presence_update_dnd : Z }.
Definition wf_oc_presence_update (m : oc_presence_update) : Prop :=
  is_u64 (presence_update_user_id m) ∧
  is_u8 (presence_update_status m) ∧
  is_u8 (presence_update_dnd m).
#[export] Hint Unfold wf_oc_presence_update : wf.

Record oc_typing := mk_oc_typing { typing_channel_id : Z }.
Definition wf_oc_typing (m : oc_typing) : Prop :=
  is_u64 (typing_channel_id m).
#[export] Hint Unfold wf_oc_typing : wf.

Record oc_typing_update := mk_oc_typing_update {
  typing_update_channel_id : Z;
  typing_update_user_id : Z }.
Definition wf_oc_typing_update (m : oc_typing_update) : Prop :=
  is_u64 (typing_update_channel_id m) ∧
  is_u64 (typing_update_user_id m).
#[export] Hint Unfold wf_oc_typing_update : wf.

Record oc_set_notify_pref := mk_oc_set_notify_pref {
  set_notify_pref_channel_id : Z;
  set_notify_pref_level : Z }.
Definition wf_oc_set_notify_pref (m : oc_set_notify_pref) : Prop :=
  is_u64 (set_notify_pref_channel_id m) ∧
  is_u8 (set_notify_pref_level m).
#[export] Hint Unfold wf_oc_set_notify_pref : wf.

Record oc_schedule_day := mk_oc_schedule_day {
  schedule_day_weekday : Z;
  schedule_day_enabled : Z;
  schedule_day_start_min : Z;
  schedule_day_end_min : Z }.
Definition wf_oc_schedule_day (m : oc_schedule_day) : Prop :=
  is_u8 (schedule_day_weekday m) ∧
  is_u8 (schedule_day_enabled m) ∧
  is_u16 (schedule_day_start_min m) ∧
  is_u16 (schedule_day_end_min m).
#[export] Hint Unfold wf_oc_schedule_day : wf.

Record oc_schedule := mk_oc_schedule {
  schedule_mode : Z;
  schedule_tz_offset_min : Z;
  schedule_start_min : Z;
  schedule_end_min : Z;
  schedule_count : Z;
  schedule_days : list oc_schedule_day }.
Definition wf_oc_schedule (m : oc_schedule) : Prop :=
  is_u8 (schedule_mode m) ∧
  is_i16 (schedule_tz_offset_min m) ∧
  is_u16 (schedule_start_min m) ∧
  is_u16 (schedule_end_min m) ∧
  is_u8 (schedule_count m) ∧
  Forall wf_oc_schedule_day (schedule_days m).
#[export] Hint Unfold wf_oc_schedule : wf.

Record oc_set_keywords := mk_oc_set_keywords {
  set_keywords_count : Z;
  set_keywords_terms : list (list Z) }.
Definition wf_oc_set_keywords (m : oc_set_keywords) : Prop :=
  is_u8 (set_keywords_count m) ∧
  Forall is_bytes (set_keywords_terms m).
#[export] Hint Unfold wf_oc_set_keywords : wf.

Record oc_set_priority := mk_oc_set_priority {
  set_priority_count : Z;
  set_priority_people : list Z }.
Definition wf_oc_set_priority (m : oc_set_priority) : Prop :=
  is_u8 (set_priority_count m) ∧
  Forall is_u64 (set_priority_people m).
#[export] Hint Unfold wf_oc_set_priority : wf.

Record oc_alert_prefs := mk_oc_alert_prefs {
  alert_prefs_n_terms : Z;
  alert_prefs_terms : list (list Z);
  alert_prefs_n_people : Z;
  alert_prefs_people : list Z }.
Definition wf_oc_alert_prefs (m : oc_alert_prefs) : Prop :=
  is_u8 (alert_prefs_n_terms m) ∧
  Forall is_bytes (alert_prefs_terms m) ∧
  is_u8 (alert_prefs_n_people m) ∧
  Forall is_u64 (alert_prefs_people m).
#[export] Hint Unfold wf_oc_alert_prefs : wf.

Record oc_thread_summary := mk_oc_thread_summary {
  thread_summary_root_id : Z;
  thread_summary_channel_id : Z;
  thread_summary_root_author : Z;
  thread_summary_root_at : Z;
  thread_summary_last_reply_at : Z;
  thread_summary_reply_count : Z;
  thread_summary_unread : Z;
  thread_summary_following : Z;
  thread_summary_preview : list Z;
  thread_summary_action : Z }.
Definition wf_oc_thread_summary (m : oc_thread_summary) : Prop :=
  is_u64 (thread_summary_root_id m) ∧
  is_u64 (thread_summary_channel_id m) ∧
  is_u64 (thread_summary_root_author m) ∧
  is_u64 (thread_summary_root_at m) ∧
  is_u64 (thread_summary_last_reply_at m) ∧
  is_u32 (thread_summary_reply_count m) ∧
  is_u32 (thread_summary_unread m) ∧
  is_u8 (thread_summary_following m) ∧
  is_bytes (thread_summary_preview m) ∧
  is_u8 (thread_summary_action m).
#[export] Hint Unfold wf_oc_thread_summary : wf.

Record oc_list_threads := mk_oc_list_threads { list_threads_filter : Z }.
Definition wf_oc_list_threads (m : oc_list_threads) : Prop :=
  is_u8 (list_threads_filter m).
#[export] Hint Unfold wf_oc_list_threads : wf.

Record oc_threads := mk_oc_threads { threads_count : Z }.
Definition wf_oc_threads (m : oc_threads) : Prop :=
  is_u32 (threads_count m).
#[export] Hint Unfold wf_oc_threads : wf.

Record oc_set_thread_follow := mk_oc_set_thread_follow {
  set_thread_follow_root_id : Z;
  set_thread_follow_channel_id : Z;
  set_thread_follow_on : Z }.
Definition wf_oc_set_thread_follow (m : oc_set_thread_follow) : Prop :=
  is_u64 (set_thread_follow_root_id m) ∧
  is_u64 (set_thread_follow_channel_id m) ∧
  is_u8 (set_thread_follow_on m).
#[export] Hint Unfold wf_oc_set_thread_follow : wf.

Record oc_mark_thread_read := mk_oc_mark_thread_read {
  mark_thread_read_root_id : Z;
  mark_thread_read_up_to : Z }.
Definition wf_oc_mark_thread_read (m : oc_mark_thread_read) : Prop :=
  is_u64 (mark_thread_read_root_id m) ∧
  is_u64 (mark_thread_read_up_to m).
#[export] Hint Unfold wf_oc_mark_thread_read : wf.

Record oc_set_tz_offset := mk_oc_set_tz_offset { set_tz_offset_tz_offset_min : Z }.
Definition wf_oc_set_tz_offset (m : oc_set_tz_offset) : Prop :=
  is_i16 (set_tz_offset_tz_offset_min m).
#[export] Hint Unfold wf_oc_set_tz_offset : wf.

Record oc_set_snooze := mk_oc_set_snooze { set_snooze_minutes : Z }.
Definition wf_oc_set_snooze (m : oc_set_snooze) : Prop :=
  is_u32 (set_snooze_minutes m).
#[export] Hint Unfold wf_oc_set_snooze : wf.

Record oc_snooze := mk_oc_snooze { snooze_until_ms : Z }.
Definition wf_oc_snooze (m : oc_snooze) : Prop :=
  is_u64 (snooze_until_ms m).
#[export] Hint Unfold wf_oc_snooze : wf.

Record oc_register_device_token := mk_oc_register_device_token {
  register_device_token_platform : Z;
  register_device_token_token : list Z }.
Definition wf_oc_register_device_token (m : oc_register_device_token) : Prop :=
  is_u8 (register_device_token_platform m) ∧
  is_bytes (register_device_token_token m).
#[export] Hint Unfold wf_oc_register_device_token : wf.

Record oc_device_token_ack := mk_oc_device_token_ack {
  device_token_ack_ok : Z;
  device_token_ack_code : Z }.
Definition wf_oc_device_token_ack (m : oc_device_token_ack) : Prop :=
  is_u8 (device_token_ack_ok m) ∧
  is_u16 (device_token_ack_code m).
#[export] Hint Unfold wf_oc_device_token_ack : wf.

Record oc_notify_pref_entry := mk_oc_notify_pref_entry {
  notify_pref_entry_channel_id : Z;
  notify_pref_entry_level : Z;
  notify_pref_entry_muted : Z }.
Definition wf_oc_notify_pref_entry (m : oc_notify_pref_entry) : Prop :=
  is_u64 (notify_pref_entry_channel_id m) ∧
  is_u8 (notify_pref_entry_level m) ∧
  is_u8 (notify_pref_entry_muted m).
#[export] Hint Unfold wf_oc_notify_pref_entry : wf.

Record oc_set_notify_default := mk_oc_set_notify_default { set_notify_default_level : Z }.
Definition wf_oc_set_notify_default (m : oc_set_notify_default) : Prop :=
  is_u8 (set_notify_default_level m).
#[export] Hint Unfold wf_oc_set_notify_default : wf.

Record oc_notify_prefs := mk_oc_notify_prefs {
  notify_prefs_notify_default : Z;
  notify_prefs_count : Z;
  notify_prefs_entries : list oc_notify_pref_entry }.
Definition wf_oc_notify_prefs (m : oc_notify_prefs) : Prop :=
  is_u8 (notify_prefs_notify_default m) ∧
  is_u16 (notify_prefs_count m) ∧
  Forall wf_oc_notify_pref_entry (notify_prefs_entries m).
#[export] Hint Unfold wf_oc_notify_prefs : wf.

Record oc_set_draft := mk_oc_set_draft {
  set_draft_channel_id : Z;
  set_draft_thread_root : Z;
  set_draft_recipients : list Z;
  set_draft_body : list Z }.
Definition wf_oc_set_draft (m : oc_set_draft) : Prop :=
  is_u64 (set_draft_channel_id m) ∧
  is_u64 (set_draft_thread_root m) ∧
  is_bytes (set_draft_recipients m) ∧
  is_bytes (set_draft_body m).
#[export] Hint Unfold wf_oc_set_draft : wf.

Record oc_draft := mk_oc_draft {
  draft_id : Z;
  draft_channel_id : Z;
  draft_thread_root : Z;
  draft_updated_ms : Z;
  draft_recipients : list Z;
  draft_body : list Z }.
Definition wf_oc_draft (m : oc_draft) : Prop :=
  is_u64 (draft_id m) ∧
  is_u64 (draft_channel_id m) ∧
  is_u64 (draft_thread_root m) ∧
  is_u64 (draft_updated_ms m) ∧
  is_bytes (draft_recipients m) ∧
  is_bytes (draft_body m).
#[export] Hint Unfold wf_oc_draft : wf.

Record oc_schedule_message := mk_oc_schedule_message {
  schedule_message_channel_id : Z;
  schedule_message_thread_root : Z;
  schedule_message_send_at_ms : Z;
  schedule_message_body : list Z }.
Definition wf_oc_schedule_message (m : oc_schedule_message) : Prop :=
  is_u64 (schedule_message_channel_id m) ∧
  is_u64 (schedule_message_thread_root m) ∧
  is_u64 (schedule_message_send_at_ms m) ∧
  is_bytes (schedule_message_body m).
#[export] Hint Unfold wf_oc_schedule_message : wf.

Record oc_cancel_scheduled := mk_oc_cancel_scheduled { cancel_scheduled_id : Z }.
Definition wf_oc_cancel_scheduled (m : oc_cancel_scheduled) : Prop :=
  is_u64 (cancel_scheduled_id m).
#[export] Hint Unfold wf_oc_cancel_scheduled : wf.

Record oc_update_scheduled := mk_oc_update_scheduled {
  update_scheduled_id : Z;
  update_scheduled_send_at_ms : Z;
  update_scheduled_body : list Z }.
Definition wf_oc_update_scheduled (m : oc_update_scheduled) : Prop :=
  is_u64 (update_scheduled_id m) ∧
  is_u64 (update_scheduled_send_at_ms m) ∧
  is_bytes (update_scheduled_body m).
#[export] Hint Unfold wf_oc_update_scheduled : wf.

Record oc_scheduled := mk_oc_scheduled {
  scheduled_id : Z;
  scheduled_channel_id : Z;
  scheduled_thread_root : Z;
  scheduled_send_at_ms : Z;
  scheduled_created_ms : Z;
  scheduled_state : Z;
  scheduled_fail_reason : list Z;
  scheduled_body : list Z }.
Definition wf_oc_scheduled (m : oc_scheduled) : Prop :=
  is_u64 (scheduled_id m) ∧
  is_u64 (scheduled_channel_id m) ∧
  is_u64 (scheduled_thread_root m) ∧
  is_u64 (scheduled_send_at_ms m) ∧
  is_u64 (scheduled_created_ms m) ∧
  is_u8 (scheduled_state m) ∧
  is_bytes (scheduled_fail_reason m) ∧
  is_bytes (scheduled_body m).
#[export] Hint Unfold wf_oc_scheduled : wf.

Record oc_scheduled_list := mk_oc_scheduled_list { scheduled_list_count : Z }.
Definition wf_oc_scheduled_list (m : oc_scheduled_list) : Prop :=
  is_u16 (scheduled_list_count m).
#[export] Hint Unfold wf_oc_scheduled_list : wf.

Record oc_drafts := mk_oc_drafts { drafts_count : Z }.
Definition wf_oc_drafts (m : oc_drafts) : Prop :=
  is_u16 (drafts_count m).
#[export] Hint Unfold wf_oc_drafts : wf.

Record oc_set_client_setting := mk_oc_set_client_setting {
  set_client_setting_client_type : list Z;
  set_client_setting_key : list Z;
  set_client_setting_value : list Z }.
Definition wf_oc_set_client_setting (m : oc_set_client_setting) : Prop :=
  is_bytes (set_client_setting_client_type m) ∧
  is_bytes (set_client_setting_key m) ∧
  is_bytes (set_client_setting_value m).
#[export] Hint Unfold wf_oc_set_client_setting : wf.

Record oc_list_client_settings := mk_oc_list_client_settings {
  list_client_settings_client_type : list Z }.
Definition wf_oc_list_client_settings (m : oc_list_client_settings) : Prop :=
  is_bytes (list_client_settings_client_type m).
#[export] Hint Unfold wf_oc_list_client_settings : wf.

Record oc_client_setting_entry := mk_oc_client_setting_entry {
  client_setting_entry_key : list Z;
  client_setting_entry_value : list Z }.
Definition wf_oc_client_setting_entry (m : oc_client_setting_entry) : Prop :=
  is_bytes (client_setting_entry_key m) ∧
  is_bytes (client_setting_entry_value m).
#[export] Hint Unfold wf_oc_client_setting_entry : wf.

Record oc_storage_status := mk_oc_storage_status {
  storage_status_total_bytes : Z;
  storage_status_avail_bytes : Z;
  storage_status_attach_bytes : Z;
  storage_status_attach_count : Z;
  storage_status_reclaimed_orphan : Z;
  storage_status_reclaimed_expired : Z;
  storage_status_reclaimed_evicted : Z;
  storage_status_last_reclaim_ms : Z;
  storage_status_max_age_days : Z;
  storage_status_reserve_bytes : Z;
  storage_status_evict_enabled : Z;
  storage_status_under_pressure : Z }.
Definition wf_oc_storage_status (m : oc_storage_status) : Prop :=
  is_u64 (storage_status_total_bytes m) ∧
  is_u64 (storage_status_avail_bytes m) ∧
  is_u64 (storage_status_attach_bytes m) ∧
  is_u64 (storage_status_attach_count m) ∧
  is_u64 (storage_status_reclaimed_orphan m) ∧
  is_u64 (storage_status_reclaimed_expired m) ∧
  is_u64 (storage_status_reclaimed_evicted m) ∧
  is_u64 (storage_status_last_reclaim_ms m) ∧
  is_u64 (storage_status_max_age_days m) ∧
  is_u64 (storage_status_reserve_bytes m) ∧
  is_u8 (storage_status_evict_enabled m) ∧
  is_u8 (storage_status_under_pressure m).
#[export] Hint Unfold wf_oc_storage_status : wf.

Record oc_audit_query := mk_oc_audit_query {
  audit_query_before_ms : Z;
  audit_query_limit : Z;
  audit_query_family : Z;
  audit_query_actor_id : Z;
  audit_query_action : list Z }.
Definition wf_oc_audit_query (m : oc_audit_query) : Prop :=
  is_u64 (audit_query_before_ms m) ∧
  is_u16 (audit_query_limit m) ∧
  is_u8 (audit_query_family m) ∧
  is_u64 (audit_query_actor_id m) ∧
  is_bytes (audit_query_action m).
#[export] Hint Unfold wf_oc_audit_query : wf.

Record oc_audit_entry := mk_oc_audit_entry {
  audit_entry_at_ms : Z;
  audit_entry_actor_id : Z;
  audit_entry_target_id : Z;
  audit_entry_actor_name : list Z;
  audit_entry_action : list Z;
  audit_entry_target : list Z;
  audit_entry_detail : list Z;
  audit_entry_family : Z;
  audit_entry_outcome : Z }.
Definition wf_oc_audit_entry (m : oc_audit_entry) : Prop :=
  is_u64 (audit_entry_at_ms m) ∧
  is_u64 (audit_entry_actor_id m) ∧
  is_u64 (audit_entry_target_id m) ∧
  is_bytes (audit_entry_actor_name m) ∧
  is_bytes (audit_entry_action m) ∧
  is_bytes (audit_entry_target m) ∧
  is_bytes (audit_entry_detail m) ∧
  is_u8 (audit_entry_family m) ∧
  is_u8 (audit_entry_outcome m).
#[export] Hint Unfold wf_oc_audit_entry : wf.

Record oc_audit_page := mk_oc_audit_page {
  audit_page_count : Z;
  audit_page_entries : list oc_audit_entry }.
Definition wf_oc_audit_page (m : oc_audit_page) : Prop :=
  is_u16 (audit_page_count m) ∧
  Forall wf_oc_audit_entry (audit_page_entries m).
#[export] Hint Unfold wf_oc_audit_page : wf.

Record oc_client_settings := mk_oc_client_settings {
  client_settings_client_type : list Z;
  client_settings_count : Z;
  client_settings_entries : list oc_client_setting_entry }.
Definition wf_oc_client_settings (m : oc_client_settings) : Prop :=
  is_bytes (client_settings_client_type m) ∧
  is_u16 (client_settings_count m) ∧
  Forall wf_oc_client_setting_entry (client_settings_entries m).
#[export] Hint Unfold wf_oc_client_settings : wf.

Record oc_call_part := mk_oc_call_part {
  call_part_user_id : Z;
  call_part_slot : Z;
  call_part_device_key : list Z;
  call_part_codecs : Z;
  call_part_flags : Z }.
Definition wf_oc_call_part (m : oc_call_part) : Prop :=
  is_u64 (call_part_user_id m) ∧
  is_u8 (call_part_slot m) ∧
  zlen (call_part_device_key m) = OC_CALL_DEVICE_KEY_LEN ∧
  is_bytes (call_part_device_key m) ∧
  is_u8 (call_part_codecs m) ∧
  is_u8 (call_part_flags m).
#[export] Hint Unfold wf_oc_call_part : wf.

Record oc_call_join := mk_oc_call_join {
  call_join_channel_id : Z;
  call_join_device_key : list Z;
  call_join_n_invite : Z;
  call_join_invite : list Z;
  call_join_codecs : Z }.
Definition wf_oc_call_join (m : oc_call_join) : Prop :=
  is_u64 (call_join_channel_id m) ∧
  zlen (call_join_device_key m) = OC_CALL_DEVICE_KEY_LEN ∧
  is_bytes (call_join_device_key m) ∧
  is_u16 (call_join_n_invite m) ∧
  Forall is_u64 (call_join_invite m) ∧
  is_u8 (call_join_codecs m).
#[export] Hint Unfold wf_oc_call_join : wf.

Record oc_call_leave := mk_oc_call_leave { call_leave_channel_id : Z }.
Definition wf_oc_call_leave (m : oc_call_leave) : Prop :=
  is_u64 (call_leave_channel_id m).
#[export] Hint Unfold wf_oc_call_leave : wf.

Record oc_call_joined := mk_oc_call_joined {
  call_joined_channel_id : Z;
  call_joined_call_id : Z;
  call_joined_udp_port : Z;
  call_joined_token : list Z;
  call_joined_slot : Z;
  call_joined_epoch : Z;
  call_joined_starter : Z;
  call_joined_started_at : Z;
  call_joined_count : Z;
  call_joined_parts : list oc_call_part }.
Definition wf_oc_call_joined (m : oc_call_joined) : Prop :=
  is_u64 (call_joined_channel_id m) ∧
  is_u64 (call_joined_call_id m) ∧
  is_u16 (call_joined_udp_port m) ∧
  is_bytes (call_joined_token m) ∧
  is_u8 (call_joined_slot m) ∧
  is_u32 (call_joined_epoch m) ∧
  is_u64 (call_joined_starter m) ∧
  is_u64 (call_joined_started_at m) ∧
  is_u16 (call_joined_count m) ∧
  Forall wf_oc_call_part (call_joined_parts m).
#[export] Hint Unfold wf_oc_call_joined : wf.

Record oc_call_roster := mk_oc_call_roster {
  call_roster_channel_id : Z;
  call_roster_call_id : Z;
  call_roster_epoch : Z;
  call_roster_count : Z;
  call_roster_parts : list oc_call_part }.
Definition wf_oc_call_roster (m : oc_call_roster) : Prop :=
  is_u64 (call_roster_channel_id m) ∧
  is_u64 (call_roster_call_id m) ∧
  is_u32 (call_roster_epoch m) ∧
  is_u16 (call_roster_count m) ∧
  Forall wf_oc_call_part (call_roster_parts m).
#[export] Hint Unfold wf_oc_call_roster : wf.

Record oc_call_invite := mk_oc_call_invite {
  call_invite_channel_id : Z;
  call_invite_count : Z;
  call_invite_users : list Z }.
Definition wf_oc_call_invite (m : oc_call_invite) : Prop :=
  is_u64 (call_invite_channel_id m) ∧
  is_u16 (call_invite_count m) ∧
  Forall is_u64 (call_invite_users m).
#[export] Hint Unfold wf_oc_call_invite : wf.

Record oc_call_decline := mk_oc_call_decline { call_decline_channel_id : Z }.
Definition wf_oc_call_decline (m : oc_call_decline) : Prop :=
  is_u64 (call_decline_channel_id m).
#[export] Hint Unfold wf_oc_call_decline : wf.

Record oc_call_end := mk_oc_call_end { call_end_channel_id : Z }.
Definition wf_oc_call_end (m : oc_call_end) : Prop :=
  is_u64 (call_end_channel_id m).
#[export] Hint Unfold wf_oc_call_end : wf.

Record oc_call_state := mk_oc_call_state {
  call_state_channel_id : Z;
  call_state_call_id : Z;
  call_state_starter : Z;
  call_state_started_at : Z;
  call_state_ended : Z;
  call_state_n_parts : Z;
  call_state_parts : list Z;
  call_state_n_invited : Z;
  call_state_invited : list Z;
  call_state_sharer : Z }.
Definition wf_oc_call_state (m : oc_call_state) : Prop :=
  is_u64 (call_state_channel_id m) ∧
  is_u64 (call_state_call_id m) ∧
  is_u64 (call_state_starter m) ∧
  is_u64 (call_state_started_at m) ∧
  is_u8 (call_state_ended m) ∧
  is_u16 (call_state_n_parts m) ∧
  Forall is_u64 (call_state_parts m) ∧
  is_u16 (call_state_n_invited m) ∧
  Forall is_u64 (call_state_invited m) ∧
  is_u64 (call_state_sharer m).
#[export] Hint Unfold wf_oc_call_state : wf.

Record oc_call_share := mk_oc_call_share { call_share_channel_id : Z; call_share_on : Z }.
Definition wf_oc_call_share (m : oc_call_share) : Prop :=
  is_u64 (call_share_channel_id m) ∧
  is_u8 (call_share_on m).
#[export] Hint Unfold wf_oc_call_share : wf.

Record oc_call_media_pkt := mk_oc_call_media_pkt {
  call_media_pkt_sender : Z;
  call_media_pkt_seq : Z;
  call_media_pkt_ct : list Z }.
Definition wf_oc_call_media_pkt (m : oc_call_media_pkt) : Prop :=
  is_u64 (call_media_pkt_sender m) ∧
  is_u16 (call_media_pkt_seq m) ∧
  is_bytes (call_media_pkt_ct m).
#[export] Hint Unfold wf_oc_call_media_pkt : wf.

Record oc_call_key_entry := mk_oc_call_key_entry {
  call_key_entry_recipient : Z;
  call_key_entry_sealed : list Z }.
Definition wf_oc_call_key_entry (m : oc_call_key_entry) : Prop :=
  is_u64 (call_key_entry_recipient m) ∧
  is_bytes (call_key_entry_sealed m).
#[export] Hint Unfold wf_oc_call_key_entry : wf.

Record oc_call_key := mk_oc_call_key {
  call_key_channel_id : Z;
  call_key_call_id : Z;
  call_key_epoch : Z;
  call_key_count : Z;
  call_key_entries : list oc_call_key_entry }.
Definition wf_oc_call_key (m : oc_call_key) : Prop :=
  is_u64 (call_key_channel_id m) ∧
  is_u64 (call_key_call_id m) ∧
  is_u32 (call_key_epoch m) ∧
  is_u16 (call_key_count m) ∧
  Forall wf_oc_call_key_entry (call_key_entries m).
#[export] Hint Unfold wf_oc_call_key : wf.

Record oc_call_key_for := mk_oc_call_key_for {
  call_key_for_channel_id : Z;
  call_key_for_call_id : Z;
  call_key_for_epoch : Z;
  call_key_for_sender : Z;
  call_key_for_sealed : list Z }.
Definition wf_oc_call_key_for (m : oc_call_key_for) : Prop :=
  is_u64 (call_key_for_channel_id m) ∧
  is_u64 (call_key_for_call_id m) ∧
  is_u32 (call_key_for_epoch m) ∧
  is_u64 (call_key_for_sender m) ∧
  is_bytes (call_key_for_sealed m).
#[export] Hint Unfold wf_oc_call_key_for : wf.

Record oc_pdm_open := mk_oc_pdm_open { pdm_open_peer : Z; pdm_open_hs : list Z }.
Definition wf_oc_pdm_open (m : oc_pdm_open) : Prop :=
  is_u64 (pdm_open_peer m) ∧
  is_bytes (pdm_open_hs m).
#[export] Hint Unfold wf_oc_pdm_open : wf.

Record oc_pdm_opened := mk_oc_pdm_opened { pdm_opened_pdm_id : Z; pdm_opened_peer : Z }.
Definition wf_oc_pdm_opened (m : oc_pdm_opened) : Prop :=
  is_u64 (pdm_opened_pdm_id m) ∧
  is_u64 (pdm_opened_peer m).
#[export] Hint Unfold wf_oc_pdm_opened : wf.

Record oc_pdm_invite := mk_oc_pdm_invite {
  pdm_invite_pdm_id : Z;
  pdm_invite_from : Z;
  pdm_invite_hs : list Z }.
Definition wf_oc_pdm_invite (m : oc_pdm_invite) : Prop :=
  is_u64 (pdm_invite_pdm_id m) ∧
  is_u64 (pdm_invite_from m) ∧
  is_bytes (pdm_invite_hs m).
#[export] Hint Unfold wf_oc_pdm_invite : wf.

Record oc_pdm_hs := mk_oc_pdm_hs { pdm_hs_pdm_id : Z; pdm_hs_hs : list Z }.
Definition wf_oc_pdm_hs (m : oc_pdm_hs) : Prop :=
  is_u64 (pdm_hs_pdm_id m) ∧
  is_bytes (pdm_hs_hs m).
#[export] Hint Unfold wf_oc_pdm_hs : wf.

Record oc_pdm_msg := mk_oc_pdm_msg {
  pdm_msg_pdm_id : Z;
  pdm_msg_header : list Z;
  pdm_msg_ct : list Z }.
Definition wf_oc_pdm_msg (m : oc_pdm_msg) : Prop :=
  is_u64 (pdm_msg_pdm_id m) ∧
  is_bytes (pdm_msg_header m) ∧
  is_bytes (pdm_msg_ct m).
#[export] Hint Unfold wf_oc_pdm_msg : wf.

Record oc_pdm_end := mk_oc_pdm_end { pdm_end_pdm_id : Z; pdm_end_reason : Z }.
Definition wf_oc_pdm_end (m : oc_pdm_end) : Prop :=
  is_u64 (pdm_end_pdm_id m) ∧
  is_u8 (pdm_end_reason m).
#[export] Hint Unfold wf_oc_pdm_end : wf.

Record oc_upload_begin := mk_oc_upload_begin {
  upload_begin_channel_id : Z;
  upload_begin_idem : list Z;
  upload_begin_filename : list Z;
  upload_begin_mime : list Z;
  upload_begin_total_size : Z }.
Definition wf_oc_upload_begin (m : oc_upload_begin) : Prop :=
  is_u64 (upload_begin_channel_id m) ∧
  zlen (upload_begin_idem m) = OC_IDEM_SIZE ∧
  is_bytes (upload_begin_idem m) ∧
  is_bytes (upload_begin_filename m) ∧
  is_bytes (upload_begin_mime m) ∧
  is_u64 (upload_begin_total_size m).
#[export] Hint Unfold wf_oc_upload_begin : wf.

Record oc_upload_ready := mk_oc_upload_ready {
  upload_ready_attachment_id : Z;
  upload_ready_chunk_size : Z;
  upload_ready_window_bytes : Z }.
Definition wf_oc_upload_ready (m : oc_upload_ready) : Prop :=
  is_u64 (upload_ready_attachment_id m) ∧
  is_u32 (upload_ready_chunk_size m) ∧
  is_u32 (upload_ready_window_bytes m).
#[export] Hint Unfold wf_oc_upload_ready : wf.

Record oc_upload_chunk := mk_oc_upload_chunk {
  upload_chunk_attachment_id : Z;
  upload_chunk_seq : Z;
  upload_chunk_data : list Z }.
Definition wf_oc_upload_chunk (m : oc_upload_chunk) : Prop :=
  is_u64 (upload_chunk_attachment_id m) ∧
  is_u32 (upload_chunk_seq m) ∧
  is_bytes (upload_chunk_data m).
#[export] Hint Unfold wf_oc_upload_chunk : wf.

Record oc_upload_ack := mk_oc_upload_ack {
  upload_ack_attachment_id : Z;
  upload_ack_acked_through : Z }.
Definition wf_oc_upload_ack (m : oc_upload_ack) : Prop :=
  is_u64 (upload_ack_attachment_id m) ∧
  is_u32 (upload_ack_acked_through m).
#[export] Hint Unfold wf_oc_upload_ack : wf.

Record oc_upload_end := mk_oc_upload_end { upload_end_attachment_id : Z }.
Definition wf_oc_upload_end (m : oc_upload_end) : Prop :=
  is_u64 (upload_end_attachment_id m).
#[export] Hint Unfold wf_oc_upload_end : wf.

Record oc_upload_ok := mk_oc_upload_ok {
  upload_ok_attachment_id : Z;
  upload_ok_size : Z;
  upload_ok_sha256 : list Z }.
Definition wf_oc_upload_ok (m : oc_upload_ok) : Prop :=
  is_u64 (upload_ok_attachment_id m) ∧
  is_u64 (upload_ok_size m) ∧
  is_bytes (upload_ok_sha256 m).
#[export] Hint Unfold wf_oc_upload_ok : wf.

Record oc_download_begin := mk_oc_download_begin { download_begin_attachment_id : Z }.
Definition wf_oc_download_begin (m : oc_download_begin) : Prop :=
  is_u64 (download_begin_attachment_id m).
#[export] Hint Unfold wf_oc_download_begin : wf.

Record oc_download_info := mk_oc_download_info {
  download_info_attachment_id : Z;
  download_info_filename : list Z;
  download_info_mime : list Z;
  download_info_total_size : Z;
  download_info_sha256 : list Z }.
Definition wf_oc_download_info (m : oc_download_info) : Prop :=
  is_u64 (download_info_attachment_id m) ∧
  is_bytes (download_info_filename m) ∧
  is_bytes (download_info_mime m) ∧
  is_u64 (download_info_total_size m) ∧
  is_bytes (download_info_sha256 m).
#[export] Hint Unfold wf_oc_download_info : wf.

Record oc_download_chunk := mk_oc_download_chunk {
  download_chunk_attachment_id : Z;
  download_chunk_seq : Z;
  download_chunk_data : list Z }.
Definition wf_oc_download_chunk (m : oc_download_chunk) : Prop :=
  is_u64 (download_chunk_attachment_id m) ∧
  is_u32 (download_chunk_seq m) ∧
  is_bytes (download_chunk_data m).
#[export] Hint Unfold wf_oc_download_chunk : wf.

Record oc_download_end := mk_oc_download_end { download_end_attachment_id : Z }.
Definition wf_oc_download_end (m : oc_download_end) : Prop :=
  is_u64 (download_end_attachment_id m).
#[export] Hint Unfold wf_oc_download_end : wf.

Record oc_transfer_cancel := mk_oc_transfer_cancel { transfer_cancel_attachment_id : Z }.
Definition wf_oc_transfer_cancel (m : oc_transfer_cancel) : Prop :=
  is_u64 (transfer_cancel_attachment_id m).
#[export] Hint Unfold wf_oc_transfer_cancel : wf.

Record oc_tts_voice := mk_oc_tts_voice {
  tts_voice_id : list Z;
  tts_voice_label : list Z;
  tts_voice_lang : list Z }.
Definition wf_oc_tts_voice (m : oc_tts_voice) : Prop :=
  is_bytes (tts_voice_id m) ∧
  is_bytes (tts_voice_label m) ∧
  is_bytes (tts_voice_lang m).
#[export] Hint Unfold wf_oc_tts_voice : wf.

Record oc_tts_info := mk_oc_tts_info {
  tts_info_model_version : list Z;
  tts_info_count : Z;
  tts_info_voices : list oc_tts_voice;
  tts_info_preview : list Z }.
Definition wf_oc_tts_info (m : oc_tts_info) : Prop :=
  is_bytes (tts_info_model_version m) ∧
  is_u8 (tts_info_count m) ∧
  Forall wf_oc_tts_voice (tts_info_voices m) ∧
  is_bytes (tts_info_preview m).
#[export] Hint Unfold wf_oc_tts_info : wf.

Record oc_capabilities := mk_oc_capabilities {
  capabilities_count : Z;
  capabilities_names : list (list Z) }.
Definition wf_oc_capabilities (m : oc_capabilities) : Prop :=
  is_u8 (capabilities_count m) ∧
  Forall is_bytes (capabilities_names m).
#[export] Hint Unfold wf_oc_capabilities : wf.

Record oc_workspace_settings := mk_oc_workspace_settings {
  workspace_settings_count : Z;
  workspace_settings_keys : list (list Z);
  workspace_settings_values : list (list Z) }.
Definition wf_oc_workspace_settings (m : oc_workspace_settings) : Prop :=
  is_u8 (workspace_settings_count m) ∧
  Forall is_bytes (workspace_settings_keys m) ∧
  Forall is_bytes (workspace_settings_values m).
#[export] Hint Unfold wf_oc_workspace_settings : wf.

Record oc_read_receipts := mk_oc_read_receipts { read_receipts_share : Z }.
Definition wf_oc_read_receipts (m : oc_read_receipts) : Prop :=
  is_u8 (read_receipts_share m).
#[export] Hint Unfold wf_oc_read_receipts : wf.

Record oc_audio_get := mk_oc_audio_get { audio_get_message_id : Z }.
Definition wf_oc_audio_get (m : oc_audio_get) : Prop :=
  is_u64 (audio_get_message_id m).
#[export] Hint Unfold wf_oc_audio_get : wf.

Record oc_voice_preview_get := mk_oc_voice_preview_get { voice_preview_get_voice_id : list Z }.
Definition wf_oc_voice_preview_get (m : oc_voice_preview_get) : Prop :=
  is_bytes (voice_preview_get_voice_id m).
#[export] Hint Unfold wf_oc_voice_preview_get : wf.

Record oc_audio_info := mk_oc_audio_info {
  audio_info_message_id : Z;
  audio_info_duration_ms : Z;
  audio_info_total_size : Z }.
Definition wf_oc_audio_info (m : oc_audio_info) : Prop :=
  is_u64 (audio_info_message_id m) ∧
  is_u32 (audio_info_duration_ms m) ∧
  is_u64 (audio_info_total_size m).
#[export] Hint Unfold wf_oc_audio_info : wf.

Record oc_audio_chunk := mk_oc_audio_chunk {
  audio_chunk_message_id : Z;
  audio_chunk_seq : Z;
  audio_chunk_data : list Z }.
Definition wf_oc_audio_chunk (m : oc_audio_chunk) : Prop :=
  is_u64 (audio_chunk_message_id m) ∧
  is_u32 (audio_chunk_seq m) ∧
  is_bytes (audio_chunk_data m).
#[export] Hint Unfold wf_oc_audio_chunk : wf.

Record oc_audio_end := mk_oc_audio_end { audio_end_message_id : Z }.
Definition wf_oc_audio_end (m : oc_audio_end) : Prop :=
  is_u64 (audio_end_message_id m).
#[export] Hint Unfold wf_oc_audio_end : wf.

Record oc_stt_info := mk_oc_stt_info {
  stt_info_model_version : list Z;
  stt_info_lang : list Z;
  stt_info_max_segment_ms : Z }.
Definition wf_oc_stt_info (m : oc_stt_info) : Prop :=
  is_bytes (stt_info_model_version m) ∧
  is_bytes (stt_info_lang m) ∧
  is_u32 (stt_info_max_segment_ms m).
#[export] Hint Unfold wf_oc_stt_info : wf.

Record oc_stt_begin := mk_oc_stt_begin {
  stt_begin_segment_id : Z;
  stt_begin_mode : Z;
  stt_begin_channel_id : Z;
  stt_begin_thread_root : Z;
  stt_begin_idem : list Z;
  stt_begin_sample_count : Z }.
Definition wf_oc_stt_begin (m : oc_stt_begin) : Prop :=
  is_u32 (stt_begin_segment_id m) ∧
  is_u8 (stt_begin_mode m) ∧
  is_u64 (stt_begin_channel_id m) ∧
  is_u64 (stt_begin_thread_root m) ∧
  zlen (stt_begin_idem m) = OC_IDEM_SIZE ∧
  is_bytes (stt_begin_idem m) ∧
  is_u32 (stt_begin_sample_count m).
#[export] Hint Unfold wf_oc_stt_begin : wf.

Record oc_stt_chunk := mk_oc_stt_chunk {
  stt_chunk_segment_id : Z;
  stt_chunk_seq : Z;
  stt_chunk_data : list Z }.
Definition wf_oc_stt_chunk (m : oc_stt_chunk) : Prop :=
  is_u32 (stt_chunk_segment_id m) ∧
  is_u32 (stt_chunk_seq m) ∧
  is_bytes (stt_chunk_data m).
#[export] Hint Unfold wf_oc_stt_chunk : wf.

Record oc_stt_end := mk_oc_stt_end { stt_end_segment_id : Z }.
Definition wf_oc_stt_end (m : oc_stt_end) : Prop :=
  is_u32 (stt_end_segment_id m).
#[export] Hint Unfold wf_oc_stt_end : wf.

Record oc_stt_text := mk_oc_stt_text {
  stt_text_segment_id : Z;
  stt_text_message_id : Z;
  stt_text_text : list Z }.
Definition wf_oc_stt_text (m : oc_stt_text) : Prop :=
  is_u32 (stt_text_segment_id m) ∧
  is_u64 (stt_text_message_id m) ∧
  is_bytes (stt_text_text m).
#[export] Hint Unfold wf_oc_stt_text : wf.

Record oc_channel_list := mk_oc_channel_list {
  channel_list_count : Z;
  channel_list_entries : list oc_channel_list_entry }.
Definition wf_oc_channel_list (m : oc_channel_list) : Prop :=
  is_u16 (channel_list_count m) ∧
  Forall wf_oc_channel_list_entry (channel_list_entries m).
#[export] Hint Unfold wf_oc_channel_list : wf.

Record oc_user_list_entry := mk_oc_user_list_entry {
  user_list_entry_user_id : Z;
  user_list_entry_role : Z;
  user_list_entry_disabled : Z;
  user_list_entry_email : list Z;
  user_list_entry_display_name : list Z;
  user_list_entry_avatar_id : Z;
  user_list_entry_title : list Z;
  user_list_entry_timezone : list Z;
  user_list_entry_status_emoji : list Z;
  user_list_entry_status_text : list Z;
  user_list_entry_full_name : list Z;
  user_list_entry_pronouns : list Z;
  user_list_entry_voice_id : list Z;
  user_list_entry_flags : Z }.
Definition wf_oc_user_list_entry (m : oc_user_list_entry) : Prop :=
  is_u64 (user_list_entry_user_id m) ∧
  is_u8 (user_list_entry_role m) ∧
  is_u8 (user_list_entry_disabled m) ∧
  is_bytes (user_list_entry_email m) ∧
  is_bytes (user_list_entry_display_name m) ∧
  is_u64 (user_list_entry_avatar_id m) ∧
  is_bytes (user_list_entry_title m) ∧
  is_bytes (user_list_entry_timezone m) ∧
  is_bytes (user_list_entry_status_emoji m) ∧
  is_bytes (user_list_entry_status_text m) ∧
  is_bytes (user_list_entry_full_name m) ∧
  is_bytes (user_list_entry_pronouns m) ∧
  is_bytes (user_list_entry_voice_id m) ∧
  is_u8 (user_list_entry_flags m).
#[export] Hint Unfold wf_oc_user_list_entry : wf.

Record oc_user_list := mk_oc_user_list {
  user_list_count : Z;
  user_list_entries : list oc_user_list_entry }.
Definition wf_oc_user_list (m : oc_user_list) : Prop :=
  is_u16 (user_list_count m) ∧
  Forall wf_oc_user_list_entry (user_list_entries m).
#[export] Hint Unfold wf_oc_user_list : wf.

Record oc_set_role := mk_oc_set_role { set_role_user_id : Z; set_role_role : Z }.
Definition wf_oc_set_role (m : oc_set_role) : Prop :=
  is_u64 (set_role_user_id m) ∧
  is_u8 (set_role_role m).
#[export] Hint Unfold wf_oc_set_role : wf.

Record oc_invite_user := mk_oc_invite_user {
  invite_user_role : Z;
  invite_user_email : list Z;
  invite_user_uses : Z }.
Definition wf_oc_invite_user (m : oc_invite_user) : Prop :=
  is_u8 (invite_user_role m) ∧
  is_bytes (invite_user_email m) ∧
  is_u16 (invite_user_uses m).
#[export] Hint Unfold wf_oc_invite_user : wf.

Record oc_remove_user := mk_oc_remove_user { remove_user_user_id : Z }.
Definition wf_oc_remove_user (m : oc_remove_user) : Prop :=
  is_u64 (remove_user_user_id m).
#[export] Hint Unfold wf_oc_remove_user : wf.

Record oc_reset_credential := mk_oc_reset_credential {
  reset_credential_user_id : Z;
  reset_credential_clear_factors : Z }.
Definition wf_oc_reset_credential (m : oc_reset_credential) : Prop :=
  is_u64 (reset_credential_user_id m) ∧
  is_u8 (reset_credential_clear_factors m).
#[export] Hint Unfold wf_oc_reset_credential : wf.

Record oc_credential_reset := mk_oc_credential_reset {
  credential_reset_user_id : Z;
  credential_reset_token : list Z }.
Definition wf_oc_credential_reset (m : oc_credential_reset) : Prop :=
  is_u64 (credential_reset_user_id m) ∧
  is_bytes (credential_reset_token m).
#[export] Hint Unfold wf_oc_credential_reset : wf.

Record oc_enable_user := mk_oc_enable_user { enable_user_user_id : Z }.
Definition wf_oc_enable_user (m : oc_enable_user) : Prop :=
  is_u64 (enable_user_user_id m).
#[export] Hint Unfold wf_oc_enable_user : wf.

Record oc_get_profile := mk_oc_get_profile { get_profile_user_id : Z }.
Definition wf_oc_get_profile (m : oc_get_profile) : Prop :=
  is_u64 (get_profile_user_id m).
#[export] Hint Unfold wf_oc_get_profile : wf.

Record oc_revoke_session := mk_oc_revoke_session { revoke_session_session_id : Z }.
Definition wf_oc_revoke_session (m : oc_revoke_session) : Prop :=
  is_u64 (revoke_session_session_id m).
#[export] Hint Unfold wf_oc_revoke_session : wf.

Record oc_set_email := mk_oc_set_email { set_email_email : list Z }.
Definition wf_oc_set_email (m : oc_set_email) : Prop :=
  is_bytes (set_email_email m).
#[export] Hint Unfold wf_oc_set_email : wf.

Record oc_user_updated := mk_oc_user_updated {
  user_updated_user_id : Z;
  user_updated_role : Z;
  user_updated_disabled : Z }.
Definition wf_oc_user_updated (m : oc_user_updated) : Prop :=
  is_u64 (user_updated_user_id m) ∧
  is_u8 (user_updated_role m) ∧
  is_u8 (user_updated_disabled m).
#[export] Hint Unfold wf_oc_user_updated : wf.

Record oc_invite_created := mk_oc_invite_created {
  invite_created_token : list Z;
  invite_created_role : Z;
  invite_created_expires_at : Z;
  invite_created_uses : Z }.
Definition wf_oc_invite_created (m : oc_invite_created) : Prop :=
  is_bytes (invite_created_token m) ∧
  is_u8 (invite_created_role m) ∧
  is_u64 (invite_created_expires_at m) ∧
  is_u16 (invite_created_uses m).
#[export] Hint Unfold wf_oc_invite_created : wf.

Record oc_invite_entry := mk_oc_invite_entry {
  invite_entry_invite_id : Z;
  invite_entry_role : Z;
  invite_entry_created_at : Z;
  invite_entry_expires_at : Z;
  invite_entry_created_by : Z;
  invite_entry_uses : Z;
  invite_entry_used : Z }.
Definition wf_oc_invite_entry (m : oc_invite_entry) : Prop :=
  is_u64 (invite_entry_invite_id m) ∧
  is_u8 (invite_entry_role m) ∧
  is_u64 (invite_entry_created_at m) ∧
  is_u64 (invite_entry_expires_at m) ∧
  is_u64 (invite_entry_created_by m) ∧
  is_u16 (invite_entry_uses m) ∧
  is_u16 (invite_entry_used m).
#[export] Hint Unfold wf_oc_invite_entry : wf.

Record oc_invite_list := mk_oc_invite_list {
  invite_list_count : Z;
  invite_list_entries : list oc_invite_entry }.
Definition wf_oc_invite_list (m : oc_invite_list) : Prop :=
  is_u16 (invite_list_count m) ∧
  Forall wf_oc_invite_entry (invite_list_entries m).
#[export] Hint Unfold wf_oc_invite_list : wf.

Record oc_revoke_invite := mk_oc_revoke_invite { revoke_invite_invite_id : Z }.
Definition wf_oc_revoke_invite (m : oc_revoke_invite) : Prop :=
  is_u64 (revoke_invite_invite_id m).
#[export] Hint Unfold wf_oc_revoke_invite : wf.

Record oc_set_display_name := mk_oc_set_display_name { set_display_name_name : list Z }.
Definition wf_oc_set_display_name (m : oc_set_display_name) : Prop :=
  is_bytes (set_display_name_name m).
#[export] Hint Unfold wf_oc_set_display_name : wf.

Record oc_profile_updated := mk_oc_profile_updated {
  profile_updated_user_id : Z;
  profile_updated_display_name : list Z }.
Definition wf_oc_profile_updated (m : oc_profile_updated) : Prop :=
  is_u64 (profile_updated_user_id m) ∧
  is_bytes (profile_updated_display_name m).
#[export] Hint Unfold wf_oc_profile_updated : wf.

Record oc_search := mk_oc_search {
  search_query : list Z;
  search_limit : Z;
  search_before_id : Z;
  search_from_name : list Z;
  search_in_channel : list Z;
  search_has_mask : Z;
  search_after_ms : Z;
  search_before_ms : Z;
  search_sort : Z;
  search_cursor_rank : Z }.
Definition wf_oc_search (m : oc_search) : Prop :=
  is_bytes (search_query m) ∧
  is_u16 (search_limit m) ∧
  is_u64 (search_before_id m) ∧
  is_bytes (search_from_name m) ∧
  is_bytes (search_in_channel m) ∧
  is_u8 (search_has_mask m) ∧
  is_u64 (search_after_ms m) ∧
  is_u64 (search_before_ms m) ∧
  is_u8 (search_sort m) ∧
  is_i64 (search_cursor_rank m).
#[export] Hint Unfold wf_oc_search : wf.

Record oc_search_result_entry := mk_oc_search_result_entry {
  search_result_entry_message_id : Z;
  search_result_entry_channel_id : Z;
  search_result_entry_author_id : Z;
  search_result_entry_server_time : Z;
  search_result_entry_snippet : list Z;
  search_result_entry_action : Z;
  search_result_entry_rank : Z }.
Definition wf_oc_search_result_entry (m : oc_search_result_entry) : Prop :=
  is_u64 (search_result_entry_message_id m) ∧
  is_u64 (search_result_entry_channel_id m) ∧
  is_u64 (search_result_entry_author_id m) ∧
  is_u64 (search_result_entry_server_time m) ∧
  is_bytes (search_result_entry_snippet m) ∧
  is_u8 (search_result_entry_action m) ∧
  is_i64 (search_result_entry_rank m).
#[export] Hint Unfold wf_oc_search_result_entry : wf.

Record oc_search_results := mk_oc_search_results {
  search_results_count : Z;
  search_results_entries : list oc_search_result_entry;
  search_results_truncated : Z }.
Definition wf_oc_search_results (m : oc_search_results) : Prop :=
  is_u16 (search_results_count m) ∧
  Forall wf_oc_search_result_entry (search_results_entries m) ∧
  is_u8 (search_results_truncated m).
#[export] Hint Unfold wf_oc_search_results : wf.

Record oc_cursor := mk_oc_cursor { cursor_channel_id : Z; cursor_after_message_id : Z }.
Definition wf_oc_cursor (m : oc_cursor) : Prop :=
  is_u64 (cursor_channel_id m) ∧
  is_u64 (cursor_after_message_id m).
#[export] Hint Unfold wf_oc_cursor : wf.

Record oc_backfill_request := mk_oc_backfill_request {
  backfill_request_count : Z;
  backfill_request_cursors : list oc_cursor }.
Definition wf_oc_backfill_request (m : oc_backfill_request) : Prop :=
  is_u16 (backfill_request_count m) ∧
  Forall wf_oc_cursor (backfill_request_cursors m).
#[export] Hint Unfold wf_oc_backfill_request : wf.

Record oc_history_request := mk_oc_history_request {
  history_request_channel_id : Z;
  history_request_before_message_id : Z;
  history_request_limit : Z }.
Definition wf_oc_history_request (m : oc_history_request) : Prop :=
  is_u64 (history_request_channel_id m) ∧
  is_u64 (history_request_before_message_id m) ∧
  is_u16 (history_request_limit m).
#[export] Hint Unfold wf_oc_history_request : wf.

Record oc_history_around := mk_oc_history_around {
  history_around_channel_id : Z;
  history_around_message_id : Z;
  history_around_limit : Z }.
Definition wf_oc_history_around (m : oc_history_around) : Prop :=
  is_u64 (history_around_channel_id m) ∧
  is_u64 (history_around_message_id m) ∧
  is_u16 (history_around_limit m).
#[export] Hint Unfold wf_oc_history_around : wf.

Record oc_backfill_done := mk_oc_backfill_done {
  backfill_done_high_water : Z;
  backfill_done_more : Z }.
Definition wf_oc_backfill_done (m : oc_backfill_done) : Prop :=
  is_u64 (backfill_done_high_water m) ∧
  is_u8 (backfill_done_more m).
#[export] Hint Unfold wf_oc_backfill_done : wf.

Record oc_error := mk_oc_error {
  error_code : Z;
  error_fatal : Z;
  error_context : list Z;
  error_message : list Z }.
Definition wf_oc_error (m : oc_error) : Prop :=
  is_u16 (error_code m) ∧
  is_u8 (error_fatal m) ∧
  is_bytes (error_context m) ∧
  is_bytes (error_message m).
#[export] Hint Unfold wf_oc_error : wf.

Record oc_get_channel_description := mk_oc_get_channel_description {
  get_channel_description_channel_id : Z }.
Definition wf_oc_get_channel_description (m : oc_get_channel_description) : Prop :=
  is_u64 (get_channel_description_channel_id m).
#[export] Hint Unfold wf_oc_get_channel_description : wf.

Record oc_channel_description := mk_oc_channel_description {
  channel_description_channel_id : Z;
  channel_description_description : list Z }.
Definition wf_oc_channel_description (m : oc_channel_description) : Prop :=
  is_u64 (channel_description_channel_id m) ∧
  is_bytes (channel_description_description m).
#[export] Hint Unfold wf_oc_channel_description : wf.

(** ** Text of a reason code *)
From Stdlib Require Import String.

Definition oc_error_text (code : Z) : option string :=
  if code =? OC_ERR_VERSION_TOO_OLD then Some "this app is too old for the workspace: update it"%string else
  if code =? OC_ERR_VERSION_TOO_NEW then Some "the workspace is older than this app"%string else
  if code =? OC_ERR_MALFORMED_FRAME then Some "the workspace could not read a request"%string else
  if code =? OC_ERR_FRAME_TOO_LARGE then Some "that was too large to send"%string else
  if code =? OC_ERR_UNEXPECTED_MSG_TYPE then Some "the workspace did not expect that request"%string else
  if code =? OC_ERR_VERSION_MISMATCH then Some "the connection's version changed: reconnecting"%string else
  if code =? OC_ERR_AUTH_REQUIRED then Some "sign in first"%string else
  if code =? OC_ERR_AUTH_INVALID_TOKEN then Some "the sign-in was not accepted"%string else
  if code =? OC_ERR_AUTH_RATE_LIMITED then Some "too many attempts: try again in a minute"%string else
  if code =? OC_ERR_USER_LIMIT then Some "this workspace is full"%string else
  if code =? OC_ERR_AUTH_NOT_ALLOWED then Some "this account isn't allowed in this workspace"%string else
  if code =? OC_ERR_AUTH_SOURCE_UNAVAILABLE then Some "this way of signing in isn't available right now"%string else
  if code =? OC_ERR_AUTH_PENDING then Some "waiting for the code to be approved"%string else
  if code =? OC_ERR_AUTH_SLOW_DOWN then Some "waiting for the code to be approved"%string else
  if code =? OC_ERR_AUTH_EXPIRED then Some "the code expired: start again"%string else
  if code =? OC_ERR_AUTH_DENIED then Some "the sign-in was declined"%string else
  if code =? OC_ERR_AUTH_SETUP_REQUIRED then Some "this workspace requires two-step sign-in: set it up, then sign in"%string else
  if code =? OC_ERR_AUTH_USE_PROVIDER then Some "this address signs in here with Google or Microsoft: use that"%string else
  if code =? OC_ERR_BODY_TOO_LARGE then Some "that message is too long"%string else
  if code =? OC_ERR_NOT_A_MEMBER then Some "you are not in that channel"%string else
  if code =? OC_ERR_UNKNOWN_CHANNEL then Some "that channel no longer exists"%string else
  if code =? OC_ERR_SEND_RATE_LIMITED then Some "slow down: too many messages at once"%string else
  if code =? OC_ERR_FORBIDDEN then Some "you are not allowed to do that"%string else
  if code =? OC_ERR_LAST_OWNER then Some "a workspace needs at least one owner"%string else
  if code =? OC_ERR_UNKNOWN_MESSAGE then Some "that message no longer exists"%string else
  if code =? OC_ERR_INVALID_CHANNEL then Some "that is not a valid channel name"%string else
  if code =? OC_ERR_INVALID_REACTION then Some "that is not a valid reaction"%string else
  if code =? OC_ERR_ATTACHMENT_TOO_LARGE then Some "that file is too large"%string else
  if code =? OC_ERR_UNKNOWN_ATTACHMENT then Some "that file is not available"%string else
  if code =? OC_ERR_STORAGE_FULL then Some "upload refused: the server is low on storage"%string else
  if code =? OC_ERR_ATTACHMENT_GONE then Some "attachment is no longer available (reclaimed by the server's storage policy)"%string else
  if code =? OC_ERR_INVALID_DEVICE_TOKEN then Some "this device could not be registered for notifications"%string else
  if code =? OC_ERR_TRANSFER_PROTOCOL then Some "the file transfer failed: try again"%string else
  if code =? OC_ERR_UNKNOWN_WEBHOOK then Some "that webhook no longer exists"%string else
  if code =? OC_ERR_CHANNEL_EXISTS then Some "a channel of that name already exists"%string else
  if code =? OC_ERR_TOO_MANY_PINS then Some "this channel has as many pins as it can hold"%string else
  if code =? OC_ERR_CHANNEL_ARCHIVED then Some "this channel is archived and read-only"%string else
  if code =? OC_ERR_INVALID_MESSAGE then Some "there is nothing to send"%string else
  if code =? OC_ERR_MEDIA_INVALID then Some "that video could not be attached"%string else
  if code =? OC_ERR_MEDIA_TOO_LARGE then Some "that video is too large"%string else
  if code =? OC_ERR_NOT_RENDERABLE then Some "there is nothing in that message to read aloud"%string else
  if code =? OC_ERR_TTS_UNAVAILABLE then Some "read-aloud isn't available right now"%string else
  if code =? OC_ERR_CALL_UNAVAILABLE then Some "calls aren't available right now"%string else
  if code =? OC_ERR_SEGMENT_TOO_LONG then Some "that was too long to transcribe"%string else
  if code =? OC_ERR_STT_UNAVAILABLE then Some "voice input isn't available right now"%string else
  if code =? OC_ERR_CALL_FULL then Some "the call is full"%string else
  if code =? OC_ERR_NOT_CALL_STARTER then Some "only the person who started the call can end it for everyone"%string else
  if code =? OC_ERR_NOT_IN_CALL then Some "you are not in that call"%string else
  if code =? OC_ERR_INVITE_UNREDEEMABLE then Some "this workspace signs nobody in by email address: invite with a token instead"%string else
  if code =? OC_ERR_GROUP_HANDLE_TAKEN then Some "something already answers to that @name"%string else
  if code =? OC_ERR_UNKNOWN_GROUP then Some "that group no longer exists"%string else
  if code =? OC_ERR_MEMBER_VIA_GROUP then Some "they are in the channel through a group: change the group instead"%string else
  if code =? OC_ERR_INVALID_GROUP then Some "that group's name or handle is not valid, or there are too many"%string else
  if code =? OC_ERR_DEMO_LIMIT then Some "this is a public demo, and that is limited for the day"%string else
  if code =? OC_ERR_INVALID_POLL then Some "a poll needs a question and two to ten options, and a vote only options it has"%string else
  if code =? OC_ERR_POLL_CLOSED then Some "the poll has closed"%string else
  if code =? OC_ERR_POLL_HAS_VOTES then Some "people have voted, so the options and settings can no longer change"%string else
  if code =? OC_ERR_EDIT_WINDOW_CLOSED then Some "this workspace no longer lets you change or delete that message"%string else
  if code =? OC_ERR_WORKSPACE_SENDER then Some "messages from the workspace take no replies"%string else
  if code =? OC_ERR_SIGNUP_LIMITED then Some "too many accounts were made from this address; try again in an hour"%string else
  if code =? OC_ERR_INTERNAL then Some "the workspace had a problem: try again"%string else
  None.
