(* ===== verification/ProtoSession.v ===== *)
(** * Frames of [shared/protocol.c]: sign-in, session and workspace frames

    Each frame is the encoder and the decoder as the source has them, the
    [frame_codec] that pairs them, the proof of its laws, and that its decoder
    stays inside its buffer. *)
From stdpp Require Import base tactics list numbers.
From S2P Require Import Prelude Wire WireLogic WireRead WireFrame ProtoTypes.
Local Open Scope Z_scope.
Local Open Scope wire_scope.

Definition oc_encode_hello (m : oc_hello) : encoder :=
  frame OC_HANDSHAKE_VERSION OC_MSG_HELLO (
    oc_w_u16 (hello_min_version m) ;;
    oc_w_u16 (hello_max_version m) ;;
    oc_w_str (hello_client_info m)).

Definition oc_decode_hello : rd oc_hello :=
  min_version <- oc_r_u16 ;;
  max_version <- oc_r_u16 ;;
  client_info <- oc_r_str ;;
  r_done (mk_oc_hello min_version max_version client_info).

Definition hello_codec : frame_codec :=
  FrameCodec oc_hello OC_MSG_HELLO (fun _ => OC_HANDSHAKE_VERSION) (fun _ => oc_encode_hello) oc_decode_hello wf_oc_hello.
Lemma hello_lawful : fc_lawful hello_codec.
Proof. lawful hello_codec oc_encode_hello oc_decode_hello. Qed.
Lemma hello_safe : rd_safe oc_decode_hello.
Proof. unfold oc_decode_hello; solve_safe. Qed.

Definition oc_encode_welcome (m : oc_welcome) : encoder :=
  frame OC_HANDSHAKE_VERSION OC_MSG_WELCOME (
    oc_w_u16 (welcome_chosen_version m) ;;
    oc_w_u64 (welcome_server_time m)).

Definition oc_decode_welcome : rd oc_welcome :=
  chosen_version <- oc_r_u16 ;;
  server_time <- oc_r_u64 ;;
  r_done (mk_oc_welcome chosen_version server_time).

Definition welcome_codec : frame_codec :=
  FrameCodec oc_welcome OC_MSG_WELCOME (fun _ => OC_HANDSHAKE_VERSION) (fun _ => oc_encode_welcome) oc_decode_welcome wf_oc_welcome.
Lemma welcome_lawful : fc_lawful welcome_codec.
Proof. lawful welcome_codec oc_encode_welcome oc_decode_welcome. Qed.
Lemma welcome_safe : rd_safe oc_decode_welcome.
Proof. unfold oc_decode_welcome; solve_safe. Qed.

Definition oc_encode_reject (m : oc_reject) : encoder :=
  frame OC_HANDSHAKE_VERSION OC_MSG_REJECT (
    oc_w_u16 (reject_code m) ;;
    oc_w_str (reject_message m)).

Definition oc_decode_reject : rd oc_reject :=
  code <- oc_r_u16 ;;
  message <- oc_r_str ;;
  r_done (mk_oc_reject code message).

Definition reject_codec : frame_codec :=
  FrameCodec oc_reject OC_MSG_REJECT (fun _ => OC_HANDSHAKE_VERSION) (fun _ => oc_encode_reject) oc_decode_reject wf_oc_reject.
Lemma reject_lawful : fc_lawful reject_codec.
Proof. lawful reject_codec oc_encode_reject oc_decode_reject. Qed.
Lemma reject_safe : rd_safe oc_decode_reject.
Proof. unfold oc_decode_reject; solve_safe. Qed.

Definition oc_encode_auth_challenge (version : Z) (m : oc_auth_challenge) : encoder :=
  let n := clamp OC_MAX_SOURCES (auth_challenge_n_sources m) in
  frame version OC_MSG_AUTH_CHALLENGE (
    oc_w_u8 n ;;
    w_each (fun x =>
      oc_w_str (auth_source_id x) ;;
      oc_w_u8 (auth_source_kind x) ;;
      oc_w_str (auth_source_label x)) (ztake n (auth_challenge_sources m))).

Definition oc_decode_auth_challenge : rd oc_auth_challenge :=
  n <- oc_r_u8 ;;
  _ <- r_fail_if (OC_MAX_SOURCES <? n) ;;
  sources <- r_for (Z.to_nat n) (
    id <- oc_r_str ;;
    kind <- oc_r_u8 ;;
    label <- oc_r_str ;;
    rret (mk_oc_auth_source id kind label)) ;;
  r_done (mk_oc_auth_challenge n sources).

Definition wf_auth_challenge (m : oc_auth_challenge) : Prop :=
  wf_oc_auth_challenge m ∧
  auth_challenge_n_sources m = zlen (auth_challenge_sources m) ∧
  zlen (auth_challenge_sources m) <= OC_MAX_SOURCES.
#[export] Hint Unfold wf_auth_challenge : wf.

Definition auth_challenge_codec : frame_codec :=
  FrameCodec oc_auth_challenge OC_MSG_AUTH_CHALLENGE id oc_encode_auth_challenge oc_decode_auth_challenge wf_auth_challenge.
Lemma auth_challenge_lawful : fc_lawful auth_challenge_codec.
Proof. lawful_with auth_challenge_codec oc_encode_auth_challenge oc_decode_auth_challenge wf_oc_auth_source. Qed.
Lemma auth_challenge_safe : rd_safe oc_decode_auth_challenge.
Proof. unfold oc_decode_auth_challenge; solve_safe. Qed.

Definition oc_encode_auth_begin (version : Z) (m : oc_auth_begin) : encoder :=
  frame version OC_MSG_AUTH_BEGIN (
    oc_w_str (auth_begin_source m) ;;
    oc_w_str (auth_begin_redirect_uri m) ;;
    oc_w_str (auth_begin_challenge m)).

Definition oc_decode_auth_begin : rd oc_auth_begin :=
  source <- oc_r_str ;;
  redirect_uri <- oc_r_str ;;
  challenge <- oc_r_str ;;
  r_done (mk_oc_auth_begin source redirect_uri challenge).

Definition auth_begin_codec : frame_codec :=
  FrameCodec oc_auth_begin OC_MSG_AUTH_BEGIN id oc_encode_auth_begin oc_decode_auth_begin wf_oc_auth_begin.
Lemma auth_begin_lawful : fc_lawful auth_begin_codec.
Proof. lawful auth_begin_codec oc_encode_auth_begin oc_decode_auth_begin. Qed.
Lemma auth_begin_safe : rd_safe oc_decode_auth_begin.
Proof. unfold oc_decode_auth_begin; solve_safe. Qed.

Definition oc_encode_auth_redirect (version : Z) (m : oc_auth_redirect) : encoder :=
  frame version OC_MSG_AUTH_REDIRECT (
    oc_w_str (auth_redirect_authorize_url m)).

Definition oc_decode_auth_redirect : rd oc_auth_redirect :=
  authorize_url <- oc_r_str ;;
  r_done (mk_oc_auth_redirect authorize_url).

Definition auth_redirect_codec : frame_codec :=
  FrameCodec oc_auth_redirect OC_MSG_AUTH_REDIRECT id oc_encode_auth_redirect oc_decode_auth_redirect wf_oc_auth_redirect.
Lemma auth_redirect_lawful : fc_lawful auth_redirect_codec.
Proof. lawful auth_redirect_codec oc_encode_auth_redirect oc_decode_auth_redirect. Qed.
Lemma auth_redirect_safe : rd_safe oc_decode_auth_redirect.
Proof. unfold oc_decode_auth_redirect; solve_safe. Qed.

Definition oc_encode_auth_device_begin (version : Z) (m : oc_auth_device_begin) : encoder :=
  frame version OC_MSG_AUTH_DEVICE_BEGIN (
    oc_w_str (auth_device_begin_source m) ;;
    oc_w_str (auth_device_begin_challenge m)).

Definition oc_decode_auth_device_begin : rd oc_auth_device_begin :=
  source <- oc_r_str ;;
  challenge <- oc_r_str ;;
  r_done (mk_oc_auth_device_begin source challenge).

Definition auth_device_begin_codec : frame_codec :=
  FrameCodec oc_auth_device_begin OC_MSG_AUTH_DEVICE_BEGIN id oc_encode_auth_device_begin oc_decode_auth_device_begin wf_oc_auth_device_begin.
Lemma auth_device_begin_lawful : fc_lawful auth_device_begin_codec.
Proof. lawful auth_device_begin_codec oc_encode_auth_device_begin oc_decode_auth_device_begin. Qed.
Lemma auth_device_begin_safe : rd_safe oc_decode_auth_device_begin.
Proof. unfold oc_decode_auth_device_begin; solve_safe. Qed.

Definition oc_encode_auth_device (version : Z) (m : oc_auth_device) : encoder :=
  frame version OC_MSG_AUTH_DEVICE (
    oc_w_str (auth_device_device_code m) ;;
    oc_w_str (auth_device_user_code m) ;;
    oc_w_str (auth_device_verification_path m) ;;
    oc_w_u16 (auth_device_interval_s m) ;;
    oc_w_u16 (auth_device_expires_in_s m)).

Definition oc_decode_auth_device : rd oc_auth_device :=
  device_code <- oc_r_str ;;
  user_code <- oc_r_str ;;
  verification_path <- oc_r_str ;;
  interval_s <- oc_r_u16 ;;
  expires_in_s <- oc_r_u16 ;;
  r_done (mk_oc_auth_device device_code user_code verification_path interval_s expires_in_s).

Definition auth_device_codec : frame_codec :=
  FrameCodec oc_auth_device OC_MSG_AUTH_DEVICE id oc_encode_auth_device oc_decode_auth_device wf_oc_auth_device.
Lemma auth_device_lawful : fc_lawful auth_device_codec.
Proof. lawful auth_device_codec oc_encode_auth_device oc_decode_auth_device. Qed.
Lemma auth_device_safe : rd_safe oc_decode_auth_device.
Proof. unfold oc_decode_auth_device; solve_safe. Qed.

Definition oc_encode_auth_device_poll (version : Z) (m : oc_auth_device_poll) : encoder :=
  frame version OC_MSG_AUTH_DEVICE_POLL (
    oc_w_str (auth_device_poll_device_code m)).

Definition oc_decode_auth_device_poll : rd oc_auth_device_poll :=
  device_code <- oc_r_str ;;
  r_done (mk_oc_auth_device_poll device_code).

Definition auth_device_poll_codec : frame_codec :=
  FrameCodec oc_auth_device_poll OC_MSG_AUTH_DEVICE_POLL id oc_encode_auth_device_poll oc_decode_auth_device_poll wf_oc_auth_device_poll.
Lemma auth_device_poll_lawful : fc_lawful auth_device_poll_codec.
Proof. lawful auth_device_poll_codec oc_encode_auth_device_poll oc_decode_auth_device_poll. Qed.
Lemma auth_device_poll_safe : rd_safe oc_decode_auth_device_poll.
Proof. unfold oc_decode_auth_device_poll; solve_safe. Qed.

Definition oc_encode_auth_device_token (version : Z) (m : oc_auth_device_token) : encoder :=
  OC_CHECK_BODY (auth_device_token_token m) (
  frame version OC_MSG_AUTH_DEVICE_TOKEN (
    oc_w_lstr (auth_device_token_token m))).

Definition oc_decode_auth_device_token : rd oc_auth_device_token :=
  token <- oc_r_lstr ;;
  r_done (mk_oc_auth_device_token token).

Definition auth_device_token_codec : frame_codec :=
  FrameCodec oc_auth_device_token OC_MSG_AUTH_DEVICE_TOKEN id oc_encode_auth_device_token oc_decode_auth_device_token wf_oc_auth_device_token.
Lemma auth_device_token_lawful : fc_lawful auth_device_token_codec.
Proof. lawful auth_device_token_codec oc_encode_auth_device_token oc_decode_auth_device_token. Qed.
Lemma auth_device_token_safe : rd_safe oc_decode_auth_device_token.
Proof. unfold oc_decode_auth_device_token; solve_safe. Qed.

Definition oc_encode_auth_continue (version : Z) (m : oc_auth_continue) : encoder :=
  frame version OC_MSG_AUTH_CONTINUE (
    oc_w_u8 (auth_continue_step m)).

Definition oc_decode_auth_continue : rd oc_auth_continue :=
  step <- oc_r_u8 ;;
  r_done (mk_oc_auth_continue step).

Definition auth_continue_codec : frame_codec :=
  FrameCodec oc_auth_continue OC_MSG_AUTH_CONTINUE id oc_encode_auth_continue oc_decode_auth_continue wf_oc_auth_continue.
Lemma auth_continue_lawful : fc_lawful auth_continue_codec.
Proof. lawful auth_continue_codec oc_encode_auth_continue oc_decode_auth_continue. Qed.
Lemma auth_continue_safe : rd_safe oc_decode_auth_continue.
Proof. unfold oc_decode_auth_continue; solve_safe. Qed.

Definition oc_encode_auth (version : Z) (m : oc_auth) : encoder :=
  OC_CHECK_BODY (auth_credential m) (
  frame version OC_MSG_AUTH (
    oc_w_u8 (auth_method m) ;;
    oc_w_str (auth_source m) ;;
    oc_w_lstr (auth_credential m) ;;
    oc_w_str (auth_proof m) ;;
    oc_w_str (auth_state m))).

Definition oc_decode_auth : rd oc_auth :=
  method <- oc_r_u8 ;;
  source <- oc_r_str ;;
  credential <- oc_r_lstr ;;
  proof <- oc_r_str ;;
  state <- oc_r_str ;;
  r_done (mk_oc_auth method source credential proof state).

Definition auth_codec : frame_codec :=
  FrameCodec oc_auth OC_MSG_AUTH id oc_encode_auth oc_decode_auth wf_oc_auth.
Lemma auth_lawful : fc_lawful auth_codec.
Proof. lawful auth_codec oc_encode_auth oc_decode_auth. Qed.
Lemma auth_safe : rd_safe oc_decode_auth.
Proof. unfold oc_decode_auth; solve_safe. Qed.

Definition oc_encode_auth_ok (version : Z) (m : oc_auth_ok) : encoder :=
  frame version OC_MSG_AUTH_OK (
    oc_w_u64 (auth_ok_user_id m) ;;
    oc_w_u8 (auth_ok_role m) ;;
    oc_w_u64 (auth_ok_session_expiry m) ;;
    oc_w_bytes (auth_ok_session_token m)).

Definition oc_decode_auth_ok : rd oc_auth_ok :=
  user_id <- oc_r_u64 ;;
  role <- oc_r_u8 ;;
  session_expiry <- oc_r_u64 ;;
  session_token <- oc_r_bytes ;;
  r_done (mk_oc_auth_ok user_id role session_expiry session_token).

Definition auth_ok_codec : frame_codec :=
  FrameCodec oc_auth_ok OC_MSG_AUTH_OK id oc_encode_auth_ok oc_decode_auth_ok wf_oc_auth_ok.
Lemma auth_ok_lawful : fc_lawful auth_ok_codec.
Proof. lawful auth_ok_codec oc_encode_auth_ok oc_decode_auth_ok. Qed.
Lemma auth_ok_safe : rd_safe oc_decode_auth_ok.
Proof. unfold oc_decode_auth_ok; solve_safe. Qed.

Definition oc_encode_workspace_info (version : Z) (m : oc_workspace_info) : encoder :=
  frame version OC_MSG_WORKSPACE_INFO (
    oc_w_u8 (workspace_info_deployment_mode m) ;;
    oc_w_u32 (workspace_info_max_users m) ;;
    oc_w_str (workspace_info_workspace_name m) ;;
    oc_w_u8 (workspace_info_call_max m) ;;
    oc_w_u8 (workspace_info_mode m) ;;
    oc_w_u64 (workspace_info_max_video_size m)).

Definition oc_decode_workspace_info : rd oc_workspace_info :=
  deployment_mode <- oc_r_u8 ;;
  max_users <- oc_r_u32 ;;
  workspace_name <- oc_r_str ;;
  call_max <- oc_r_u8 ;;
  mode <- oc_r_u8 ;;
  max_video_size <- oc_r_u64 ;;
  r_done (mk_oc_workspace_info deployment_mode max_users workspace_name call_max mode max_video_size).

Definition workspace_info_codec : frame_codec :=
  FrameCodec oc_workspace_info OC_MSG_WORKSPACE_INFO id oc_encode_workspace_info oc_decode_workspace_info wf_oc_workspace_info.
Lemma workspace_info_lawful : fc_lawful workspace_info_codec.
Proof. lawful workspace_info_codec oc_encode_workspace_info oc_decode_workspace_info. Qed.
Lemma workspace_info_safe : rd_safe oc_decode_workspace_info.
Proof. unfold oc_decode_workspace_info; solve_safe. Qed.

Definition oc_encode_workspace_address (version : Z) (m : oc_workspace_address) : encoder :=
  frame version OC_MSG_WORKSPACE_ADDRESS (
    oc_w_str (workspace_address_address m)).

Definition oc_decode_workspace_address : rd oc_workspace_address :=
  address <- oc_r_str ;;
  r_done (mk_oc_workspace_address address).

Definition workspace_address_codec : frame_codec :=
  FrameCodec oc_workspace_address OC_MSG_WORKSPACE_ADDRESS id oc_encode_workspace_address oc_decode_workspace_address wf_oc_workspace_address.
Lemma workspace_address_lawful : fc_lawful workspace_address_codec.
Proof. lawful workspace_address_codec oc_encode_workspace_address oc_decode_workspace_address. Qed.
Lemma workspace_address_safe : rd_safe oc_decode_workspace_address.
Proof. unfold oc_decode_workspace_address; solve_safe. Qed.

Definition oc_encode_server_build (version : Z) (m : oc_server_build) : encoder :=
  frame version OC_MSG_SERVER_BUILD (
    oc_w_str (server_build_build m)).

Definition oc_decode_server_build : rd oc_server_build :=
  build <- oc_r_str ;;
  r_done (mk_oc_server_build build).

Definition server_build_codec : frame_codec :=
  FrameCodec oc_server_build OC_MSG_SERVER_BUILD id oc_encode_server_build oc_decode_server_build wf_oc_server_build.
Lemma server_build_lawful : fc_lawful server_build_codec.
Proof. lawful server_build_codec oc_encode_server_build oc_decode_server_build. Qed.
Lemma server_build_safe : rd_safe oc_decode_server_build.
Proof. unfold oc_decode_server_build; solve_safe. Qed.

Definition oc_encode_logout (version : Z) (m : oc_logout) : encoder :=
  frame version OC_MSG_LOGOUT (
    oc_w_u8 (logout_scope m) ;;
    oc_w_bytes (logout_session_token m)).

Definition oc_decode_logout : rd oc_logout :=
  scope <- oc_r_u8 ;;
  session_token <- oc_r_bytes ;;
  r_done (mk_oc_logout scope session_token).

Definition logout_codec : frame_codec :=
  FrameCodec oc_logout OC_MSG_LOGOUT id oc_encode_logout oc_decode_logout wf_oc_logout.
Lemma logout_lawful : fc_lawful logout_codec.
Proof. lawful logout_codec oc_encode_logout oc_decode_logout. Qed.
Lemma logout_safe : rd_safe oc_decode_logout.
Proof. unfold oc_decode_logout; solve_safe. Qed.

(** ** The frames of this file

    [cap] is the length of the array a decoder is given, where it takes one. *)

Definition session_lawful_codecs (cap : Z) : list frame_codec :=
  [hello_codec; welcome_codec; reject_codec; auth_challenge_codec; auth_begin_codec;
   auth_redirect_codec; auth_device_begin_codec; auth_device_codec; auth_device_poll_codec;
   auth_device_token_codec; auth_continue_codec; auth_codec; auth_ok_codec;
   workspace_info_codec; workspace_address_codec; server_build_codec; logout_codec].

Lemma session_lawful cap : Forall fc_lawful (session_lawful_codecs cap).
Proof.
  apply List.Forall_cons; [exact hello_lawful|].
  apply List.Forall_cons; [exact welcome_lawful|].
  apply List.Forall_cons; [exact reject_lawful|].
  apply List.Forall_cons; [exact auth_challenge_lawful|].
  apply List.Forall_cons; [exact auth_begin_lawful|].
  apply List.Forall_cons; [exact auth_redirect_lawful|].
  apply List.Forall_cons; [exact auth_device_begin_lawful|].
  apply List.Forall_cons; [exact auth_device_lawful|].
  apply List.Forall_cons; [exact auth_device_poll_lawful|].
  apply List.Forall_cons; [exact auth_device_token_lawful|].
  apply List.Forall_cons; [exact auth_continue_lawful|].
  apply List.Forall_cons; [exact auth_lawful|].
  apply List.Forall_cons; [exact auth_ok_lawful|].
  apply List.Forall_cons; [exact workspace_info_lawful|].
  apply List.Forall_cons; [exact workspace_address_lawful|].
  apply List.Forall_cons; [exact server_build_lawful|].
  apply List.Forall_cons; [exact logout_lawful|].
  apply List.Forall_nil.
Qed.
Definition session_complete_codecs (cap : Z) : list frame_codec :=
  [].

Lemma session_complete cap : Forall fc_complete (session_complete_codecs cap).
Proof.
  apply List.Forall_nil.
Qed.
Lemma session_safe cap :
  Forall (fun c => rd_safe (fc_decode c)) (session_lawful_codecs cap ++ session_complete_codecs cap).
Proof.
  apply List.Forall_cons; [exact hello_safe|].
  apply List.Forall_cons; [exact welcome_safe|].
  apply List.Forall_cons; [exact reject_safe|].
  apply List.Forall_cons; [exact auth_challenge_safe|].
  apply List.Forall_cons; [exact auth_begin_safe|].
  apply List.Forall_cons; [exact auth_redirect_safe|].
  apply List.Forall_cons; [exact auth_device_begin_safe|].
  apply List.Forall_cons; [exact auth_device_safe|].
  apply List.Forall_cons; [exact auth_device_poll_safe|].
  apply List.Forall_cons; [exact auth_device_token_safe|].
  apply List.Forall_cons; [exact auth_continue_safe|].
  apply List.Forall_cons; [exact auth_safe|].
  apply List.Forall_cons; [exact auth_ok_safe|].
  apply List.Forall_cons; [exact workspace_info_safe|].
  apply List.Forall_cons; [exact workspace_address_safe|].
  apply List.Forall_cons; [exact server_build_safe|].
  apply List.Forall_cons; [exact logout_safe|].
  apply List.Forall_nil.
Qed.

(** Requests without a payload, as the type and the encoder. *)
Definition session_bare_frames : list (oc_msg_type * (Z → encoder)) :=
  [].
