(* ===== verification/ProtoMessage.v ===== *)
(** * Frames of [shared/protocol.c]: messages, reactions, pins, polls, summaries, files and threads

    Each frame is the encoder and the decoder as the source has them, the
    [frame_codec] that pairs them, the proof of its laws, and that its decoder
    stays inside its buffer. *)
From stdpp Require Import base tactics list numbers.
From S2P Require Import Prelude Wire WireLogic WireRead WireFrame ProtoTypes.
Local Open Scope Z_scope.
Local Open Scope wire_scope.

(** ** Attachment lists

    [w_attach_entry] and [r_attach_entry], and the optional trailing list that
    SEND, SEND_REPLY, THREAD_REPLY and BROADCAST end in: written only when it
    is not empty, read only when bytes remain. *)
Definition w_attach_entry (a : oc_attach_entry) : wr :=
  oc_w_u64 (attach_entry_id a) ;;
  oc_w_str (attach_entry_filename a) ;;
  oc_w_str (attach_entry_mime a) ;;
  oc_w_u64 (attach_entry_size a) ;;
  oc_w_u8 (attach_entry_reclaimed a) ;;
  oc_w_u8 (attach_entry_media_kind a) ;;
  if attach_entry_media_kind a =? OC_MEDIA_VIDEO_MESSAGE then
    (oc_w_u32 (attach_entry_duration_ms a) ;;
     oc_w_u16 (attach_entry_width a) ;;
     oc_w_u16 (attach_entry_height a) ;;
     oc_w_u64 (attach_entry_poster_id a))
  else id.

Definition r_attach_entry : rd oc_attach_entry :=
  id <- oc_r_u64 ;;
  filename <- oc_r_str ;;
  mime <- oc_r_str ;;
  size <- oc_r_u64 ;;
  reclaimed <- oc_r_u8 ;;
  media_kind <- oc_r_u8 ;;
  if media_kind =? OC_MEDIA_VIDEO_MESSAGE then
    duration_ms <- oc_r_u32 ;;
    width <- oc_r_u16 ;;
    height <- oc_r_u16 ;;
    poster_id <- oc_r_u64 ;;
    rret (mk_oc_attach_entry id filename mime size reclaimed media_kind duration_ms width height poster_id)
  else
    _ <- r_fail_if (negb (media_kind =? OC_MEDIA_NONE)) ;;
    rret (mk_oc_attach_entry id filename mime size reclaimed media_kind 0 0 0 0).

(** An entry the wire can carry: a defined media kind, and the recording's
    fields zero unless it is a video message. *)
Definition wf_attach_entry (a : oc_attach_entry) : Prop :=
  wf_oc_attach_entry a ∧
  (attach_entry_media_kind a = OC_MEDIA_VIDEO_MESSAGE ∨
   (attach_entry_media_kind a = OC_MEDIA_NONE ∧ attach_entry_duration_ms a = 0 ∧
    attach_entry_width a = 0 ∧ attach_entry_height a = 0 ∧ attach_entry_poster_id a = 0)).

Definition attach_entry_bytes (a : oc_attach_entry) : option (list Z) :=
  oapp (Some (be64 (attach_entry_id a)))
    (oapp (str_bytes (attach_entry_filename a))
      (oapp (str_bytes (attach_entry_mime a))
        (oapp (Some (be64 (attach_entry_size a)))
          (oapp (Some [attach_entry_reclaimed a])
            (oapp (Some [attach_entry_media_kind a])
              (if attach_entry_media_kind a =? OC_MEDIA_VIDEO_MESSAGE
               then oapp (Some (be32 (attach_entry_duration_ms a)))
                      (oapp (Some (be16 (attach_entry_width a)))
                        (oapp (Some (be16 (attach_entry_height a)))
                          (Some (be64 (attach_entry_poster_id a)))))
               else Some [])))))).

Lemma writes_attach_entry a : Writes (w_attach_entry a) (attach_entry_bytes a).
Proof. unfold w_attach_entry, attach_entry_bytes. solve_writes. Qed.
Lemma parses_attach_entry a : wf_attach_entry a → Parses r_attach_entry (attach_entry_bytes a) a.
Proof.
  destruct a. intros [Hwf Hk]. open_wf Hwf. simpl in Hk. unfold r_attach_entry, attach_entry_bytes. simpl.
  do 6 parses_elem_step. destruct Hk as [-> | (-> & -> & -> & -> & ->)].
  - rewrite Z.eqb_refl. cbv iota. repeat parses_elem_step.
  - change (OC_MEDIA_NONE =? OC_MEDIA_VIDEO_MESSAGE) with false. cbv iota. repeat parses_elem_step.
Qed.
Lemma safe_attach_entry : rd_safe r_attach_entry.
Proof. unfold r_attach_entry. solve_safe. Qed.
#[export] Hint Resolve safe_attach_entry : wire_safe.

(** The list itself, of ids or of entries. *)
Definition w_attach_list {A} (f : A → wr) (n_attach : Z) (attach : list A) : wr :=
  let n := clamp OC_MAX_ATTACH n_attach in
  oc_w_u16 n ;; w_each f (ztake n attach).
Definition r_attach_list {A} (d : rd A) : rd (Z * list A) :=
  n <- oc_r_u16 ;;
  _ <- r_fail_if (OC_MAX_ATTACH <? n) ;;
  attach <- r_for_ok (Z.to_nat n) d ;;
  rret (n, attach).
Definition w_attach_tail {A} (f : A → wr) (n_attach : Z) (attach : list A) : wr :=
  if negb (n_attach =? 0) then w_attach_list f n_attach attach else id.
Definition r_attach_tail {A} (d : rd A) : rd (Z * list A) :=
  more <- r_more ;;
  if (more : bool) then r_attach_list d else rret (0, []).

Section Tail.
Context {A : Type} (f : A → wr) (d : rd A) (R : A → Prop) (ser : A → option (list Z)).
Context (Hf : ∀ x, Writes (f x) (ser x)) (Hd : ∀ x, R x → Parses d (ser x) x).

Definition attach_bytes (l : list A) : option (list Z) :=
  oapp (Some (be16 (zlen l))) (oconcat (ser <$> l)).

Lemma writes_attach_list l :
  zlen l <= OC_MAX_ATTACH → Writes (w_attach_list f (zlen l) l) (attach_bytes l).
Proof using Hf.
  intros Hl. unfold w_attach_list. cbv zeta. norm_counts.
  apply writes_seq; [apply writes_u16|]. apply writes_each. intros x _. apply Hf.
Qed.
Lemma writes_attach_tail n l :
  n = zlen l → zlen l <= OC_MAX_ATTACH →
  Writes (w_attach_tail f n l) (if zlen l =? 0 then Some [] else attach_bytes l).
Proof using Hf.
  intros -> Hl. unfold w_attach_tail. destruct (zlen l =? 0); [apply writes_id|].
  by apply writes_attach_list.
Qed.
Lemma parses_attach_list l :
  zlen l <= OC_MAX_ATTACH → Forall R l → Parses (r_attach_list d) (attach_bytes l) (zlen l, l).
Proof using Hd.
  intros Hl HR. unfold OC_MAX_ATTACH in *. pose proof (zlen_nonneg l).
  eapply parses_bind; [apply parses_u16; ilia|].
  apply parses_fail_if_bind; [unfold OC_MAX_ATTACH; wire_guard|].
  eapply parses_map_eq; [|done]. rewrite zlen_to_nat. apply parses_for_ok.
  intros x Hx. apply Hd, (Forall_elem R l x HR Hx).
Qed.
Lemma parses_all_attach_tail {B} (k : Z * list A → rd B) l b :
  zlen l <= OC_MAX_ATTACH → Forall R l → ParsesAll (k (zlen l, l)) (Some []) b →
  ParsesAll (rbind (r_attach_tail d) k)
    (if zlen l =? 0 then Some [] else attach_bytes l) b.
Proof using Hd.
  intros Hl HR Hk. destruct (Z.eqb_spec (zlen l) 0) as [E|E].
  - apply zlen_0 in E. subst l.
    exact (parses_all_more_nil (fun m : bool => rbind (if m then r_attach_list d else rret (0, [])) k) b Hk).
  - rewrite <- (oapp_nil_r (attach_bytes l)). unfold attach_bytes. rewrite oapp_assoc.
    apply (parses_all_more_cons (fun m : bool => rbind (if m then r_attach_list d else rret (0, [])) k)); [done|].
    rewrite <- oapp_assoc. eapply parses_all_bind; [by apply parses_attach_list|done].
Qed.
Lemma safe_attach_list : rd_safe d → rd_safe (r_attach_list d).
Proof. intros. unfold r_attach_list. solve_safe. Qed.
Lemma safe_attach_tail : rd_safe d → rd_safe (r_attach_tail d).
Proof.
  intros. unfold r_attach_tail. apply safe_bind; [apply safe_more|]. intros [];
    [by apply safe_attach_list|apply safe_ret].
Qed.
End Tail.
#[export] Hint Resolve safe_attach_list safe_attach_tail safe_u64 : wire_safe.

(** How a frame's proof meets its tail. *)
Ltac attach_side := first [exact writes_u64 | exact writes_attach_entry | exact parses_u64
  | exact parses_attach_entry | assumption | wire_side].
Ltac attach_writes :=
  match goal with |- Writes (w_attach_tail _ _ _) _ => eapply writes_attach_tail; attach_side end.
Ltac attach_parses :=
  match goal with |- ParsesAll (rbind (r_attach_tail _) _) _ _ =>
    eapply parses_all_attach_tail; [attach_side..|cbv iota] end.

Definition oc_encode_send (version : Z) (m : oc_send) : encoder :=
  OC_CHECK_BODY (send_body m) (
  frame version OC_MSG_SEND (
    oc_w_u64 (send_channel_id m) ;;
    oc_w_idem (send_idem m) ;;
    oc_w_lstr (send_body m) ;;
    oc_w_u64 (send_src_channel m) ;;
    oc_w_u64 (send_src_message m) ;;
    w_attach_tail oc_w_u64 (send_n_attach m) (send_attach_ids m))).

Definition oc_decode_send : rd oc_send :=
  channel_id <- oc_r_u64 ;;
  idem <- oc_r_idem ;;
  body <- oc_r_lstr ;;
  src_channel <- oc_r_u64 ;;
  src_message <- oc_r_u64 ;;
  tail <- r_attach_tail oc_r_u64 ;;
  let '(n_attach, attach_ids) := tail in
  r_done (mk_oc_send channel_id idem body src_channel src_message n_attach attach_ids).

Definition wf_send (m : oc_send) : Prop :=
  wf_oc_send m ∧ send_n_attach m = zlen (send_attach_ids m) ∧
  zlen (send_attach_ids m) <= OC_MAX_ATTACH.
#[export] Hint Unfold wf_send : wf.
Definition send_codec : frame_codec :=
  FrameCodec oc_send OC_MSG_SEND id oc_encode_send oc_decode_send wf_send.
Lemma send_complete : fc_complete send_codec.
Proof.
  unfold fc_complete, send_codec; eexists (fun m => _); fc_open; split.
  - law_encodes oc_encode_send. attach_writes.
  - law_parses oc_decode_send. attach_parses. apply parses_all_done.
Qed.
Lemma send_safe : rd_safe oc_decode_send.
Proof. unfold oc_decode_send; solve_safe. Qed.

Definition oc_encode_send_ack (version : Z) (m : oc_send_ack) : encoder :=
  frame version OC_MSG_SEND_ACK (
    oc_w_idem (send_ack_idem m) ;;
    oc_w_u64 (send_ack_channel_id m) ;;
    oc_w_u64 (send_ack_message_id m) ;;
    oc_w_u64 (send_ack_server_time m)).

Definition oc_decode_send_ack : rd oc_send_ack :=
  idem <- oc_r_idem ;;
  channel_id <- oc_r_u64 ;;
  message_id <- oc_r_u64 ;;
  server_time <- oc_r_u64 ;;
  r_done (mk_oc_send_ack idem channel_id message_id server_time).

Definition send_ack_codec : frame_codec :=
  FrameCodec oc_send_ack OC_MSG_SEND_ACK id oc_encode_send_ack oc_decode_send_ack wf_oc_send_ack.
Lemma send_ack_lawful : fc_lawful send_ack_codec.
Proof. lawful send_ack_codec oc_encode_send_ack oc_decode_send_ack. Qed.
Lemma send_ack_safe : rd_safe oc_decode_send_ack.
Proof. unfold oc_decode_send_ack; solve_safe. Qed.

(** BROADCAST and MSG_RESTORED share a layout.  Two optional fields share its
    tail: an author name with no attachments still writes a zero count. *)
Definition encode_broadcast_as (version type : Z) (m : oc_broadcast) : encoder :=
  OC_CHECK_BODY (broadcast_body m) (
  frame version type (
    oc_w_u64 (broadcast_message_id m) ;;
    oc_w_u64 (broadcast_channel_id m) ;;
    oc_w_u64 (broadcast_author_id m) ;;
    oc_w_u64 (broadcast_server_time m) ;;
    oc_w_u8 (broadcast_kind m) ;;
    oc_w_u8 (b01 (broadcast_broadcast_stored m)) ;;
    oc_w_lstr (broadcast_body m) ;;
    if negb (broadcast_n_attach m =? 0) || negb (zlen (broadcast_author_name m) =? 0) then
      (w_attach_list w_attach_entry (broadcast_n_attach m) (broadcast_attach m) ;;
       if negb (zlen (broadcast_author_name m) =? 0) then oc_w_str (broadcast_author_name m) else id)
    else id)).

Definition oc_encode_broadcast (version : Z) (m : oc_broadcast) : encoder :=
  encode_broadcast_as version OC_MSG_BROADCAST m.
Definition oc_encode_msg_restored (version : Z) (m : oc_broadcast) : encoder :=
  encode_broadcast_as version OC_MSG_MSG_RESTORED m.

Definition r_broadcast_tail : rd (Z * list oc_attach_entry * oc_slice) :=
  more <- r_more ;;
  if (more : bool) then
    l <- r_attach_list r_attach_entry ;;
    more <- r_more ;;
    if (more : bool) then (author_name <- oc_r_str ;; rret (l, author_name)) else rret (l, [])
  else rret (0, [], []).

Definition oc_decode_broadcast : rd oc_broadcast :=
  message_id <- oc_r_u64 ;;
  channel_id <- oc_r_u64 ;;
  author_id <- oc_r_u64 ;;
  server_time <- oc_r_u64 ;;
  kind <- oc_r_u8 ;;
  _ <- r_fail_if (OC_MSG_KIND_CALL <? kind) ;;
  broadcast_stored <- oc_r_u8 ;;
  _ <- r_fail_if (1 <? broadcast_stored) ;;
  body <- oc_r_lstr ;;
  tail <- r_broadcast_tail ;;
  let '(n_attach, attach, author_name) := tail in
  r_done (mk_oc_broadcast message_id channel_id author_id server_time kind body n_attach attach
            author_name broadcast_stored).

Definition wf_broadcast (m : oc_broadcast) : Prop :=
  wf_oc_broadcast m ∧ broadcast_n_attach m = zlen (broadcast_attach m) ∧
  zlen (broadcast_attach m) <= OC_MAX_ATTACH ∧ Forall wf_attach_entry (broadcast_attach m) ∧
  broadcast_kind m <= OC_MSG_KIND_CALL ∧ 0 <= broadcast_broadcast_stored m <= 1.
#[export] Hint Unfold wf_broadcast : wf.

Definition broadcast_tail_bytes (l : list oc_attach_entry) (name : oc_slice) : option (list Z) :=
  if negb (zlen l =? 0) || negb (zlen name =? 0) then
    oapp (attach_bytes attach_entry_bytes l) (if negb (zlen name =? 0) then str_bytes name else Some [])
  else Some [].

Lemma parses_all_broadcast_tail {B} (k : Z * list oc_attach_entry * oc_slice → rd B) l name b :
  zlen l <= OC_MAX_ATTACH → Forall wf_attach_entry l →
  ParsesAll (k (zlen l, l, name)) (Some []) b →
  ParsesAll (rbind r_broadcast_tail k) (broadcast_tail_bytes l name) b.
Proof.
  intros Hl HR Hk. unfold broadcast_tail_bytes, r_broadcast_tail.
  apply parses_all_assoc.
  destruct (negb (zlen l =? 0) || negb (zlen name =? 0)) eqn:E.
  - unfold attach_bytes. rewrite oapp_assoc. apply parses_all_more_cons; [done|].
    rewrite <- oapp_assoc. apply parses_all_assoc. eapply parses_all_bind.
    { by apply (parses_attach_list _ wf_attach_entry _ parses_attach_entry). }
    apply parses_all_assoc. destruct (Z.eqb_spec (zlen name) 0) as [En|_]; cbn [negb].
    + apply zlen_0 in En. subst name. by apply parses_all_more_nil.
    + apply parses_all_more_str. rewrite <- (oapp_nil_r (str_bytes name)).
      eapply parses_all_bind; [|exact Hk]. eapply parses_map_eq; [apply parses_str|done].
  - apply orb_false_iff in E as [El En]. bool_facts. apply zlen_0 in El, En. subst.
    by apply parses_all_more_nil.
Qed.
Lemma safe_broadcast_tail : rd_safe r_broadcast_tail.
Proof. unfold r_broadcast_tail. solve_safe. Qed.
#[export] Hint Resolve safe_broadcast_tail : wire_safe.

Definition broadcast_codec (type : Z) : frame_codec :=
  FrameCodec oc_broadcast type id (fun version => encode_broadcast_as version type)
    oc_decode_broadcast wf_broadcast.
Lemma broadcast_complete type : fc_complete (broadcast_codec type).
Proof.
  unfold fc_complete, broadcast_codec; eexists (fun m => _); fc_open; split.
  - law_encodes encode_broadcast_as.
    apply (writes_attach_list _ _ writes_attach_entry). done.
  - law_parses oc_decode_broadcast. apply parses_all_broadcast_tail; [done..|].
    apply parses_all_done.
Qed.
Lemma broadcast_safe : rd_safe oc_decode_broadcast.
Proof. unfold oc_decode_broadcast; solve_safe. Qed.

Definition oc_encode_client_ack (version : Z) (m : oc_client_ack) : encoder :=
  frame version OC_MSG_CLIENT_ACK (
    oc_w_u64 (client_ack_channel_id m) ;;
    oc_w_u64 (client_ack_message_id m)).

Definition oc_decode_client_ack : rd oc_client_ack :=
  channel_id <- oc_r_u64 ;;
  message_id <- oc_r_u64 ;;
  r_done (mk_oc_client_ack channel_id message_id).

Definition client_ack_codec : frame_codec :=
  FrameCodec oc_client_ack OC_MSG_CLIENT_ACK id oc_encode_client_ack oc_decode_client_ack wf_oc_client_ack.
Lemma client_ack_lawful : fc_lawful client_ack_codec.
Proof. lawful client_ack_codec oc_encode_client_ack oc_decode_client_ack. Qed.
Lemma client_ack_safe : rd_safe oc_decode_client_ack.
Proof. unfold oc_decode_client_ack; solve_safe. Qed.

Definition oc_encode_read_cursor (version : Z) (m : oc_read_cursor) : encoder :=
  frame version OC_MSG_READ_CURSOR (
    oc_w_u64 (read_cursor_channel_id m) ;;
    oc_w_u64 (read_cursor_user_id m) ;;
    oc_w_u64 (read_cursor_message_id m)).

Definition oc_decode_read_cursor : rd oc_read_cursor :=
  channel_id <- oc_r_u64 ;;
  user_id <- oc_r_u64 ;;
  message_id <- oc_r_u64 ;;
  r_done (mk_oc_read_cursor channel_id user_id message_id).

Definition read_cursor_codec : frame_codec :=
  FrameCodec oc_read_cursor OC_MSG_READ_CURSOR id oc_encode_read_cursor oc_decode_read_cursor wf_oc_read_cursor.
Lemma read_cursor_lawful : fc_lawful read_cursor_codec.
Proof. lawful read_cursor_codec oc_encode_read_cursor oc_decode_read_cursor. Qed.
Lemma read_cursor_safe : rd_safe oc_decode_read_cursor.
Proof. unfold oc_decode_read_cursor; solve_safe. Qed.

Definition oc_encode_edit (version : Z) (m : oc_edit) : encoder :=
  OC_CHECK_BODY (edit_body m) (
  frame version OC_MSG_EDIT (
    oc_w_u64 (edit_channel_id m) ;;
    oc_w_u64 (edit_message_id m) ;;
    oc_w_lstr (edit_body m))).

Definition oc_decode_edit : rd oc_edit :=
  channel_id <- oc_r_u64 ;;
  message_id <- oc_r_u64 ;;
  body <- oc_r_lstr ;;
  r_done (mk_oc_edit channel_id message_id body).

Definition edit_codec : frame_codec :=
  FrameCodec oc_edit OC_MSG_EDIT id oc_encode_edit oc_decode_edit wf_oc_edit.
Lemma edit_lawful : fc_lawful edit_codec.
Proof. lawful edit_codec oc_encode_edit oc_decode_edit. Qed.
Lemma edit_safe : rd_safe oc_decode_edit.
Proof. unfold oc_decode_edit; solve_safe. Qed.

Definition oc_encode_delete (version : Z) (m : oc_delete) : encoder :=
  frame version OC_MSG_DELETE (
    oc_w_u64 (delete_channel_id m) ;;
    oc_w_u64 (delete_message_id m)).

Definition oc_decode_delete : rd oc_delete :=
  channel_id <- oc_r_u64 ;;
  message_id <- oc_r_u64 ;;
  r_done (mk_oc_delete channel_id message_id).

Definition delete_codec : frame_codec :=
  FrameCodec oc_delete OC_MSG_DELETE id oc_encode_delete oc_decode_delete wf_oc_delete.
Lemma delete_lawful : fc_lawful delete_codec.
Proof. lawful delete_codec oc_encode_delete oc_decode_delete. Qed.
Lemma delete_safe : rd_safe oc_decode_delete.
Proof. unfold oc_decode_delete; solve_safe. Qed.

Definition oc_encode_msg_edited (version : Z) (m : oc_msg_edited) : encoder :=
  OC_CHECK_BODY (msg_edited_body m) (
  frame version OC_MSG_MSG_EDITED (
    oc_w_u64 (msg_edited_message_id m) ;;
    oc_w_u64 (msg_edited_channel_id m) ;;
    oc_w_u64 (msg_edited_author_id m) ;;
    oc_w_u64 (msg_edited_edited_at m) ;;
    oc_w_lstr (msg_edited_body m))).

Definition oc_decode_msg_edited : rd oc_msg_edited :=
  message_id <- oc_r_u64 ;;
  channel_id <- oc_r_u64 ;;
  author_id <- oc_r_u64 ;;
  edited_at <- oc_r_u64 ;;
  body <- oc_r_lstr ;;
  r_done (mk_oc_msg_edited message_id channel_id author_id edited_at body).

Definition msg_edited_codec : frame_codec :=
  FrameCodec oc_msg_edited OC_MSG_MSG_EDITED id oc_encode_msg_edited oc_decode_msg_edited wf_oc_msg_edited.
Lemma msg_edited_lawful : fc_lawful msg_edited_codec.
Proof. lawful msg_edited_codec oc_encode_msg_edited oc_decode_msg_edited. Qed.
Lemma msg_edited_safe : rd_safe oc_decode_msg_edited.
Proof. unfold oc_decode_msg_edited; solve_safe. Qed.

Definition oc_encode_msg_deleted (version : Z) (m : oc_msg_deleted) : encoder :=
  frame version OC_MSG_MSG_DELETED (
    oc_w_u64 (msg_deleted_message_id m) ;;
    oc_w_u64 (msg_deleted_channel_id m) ;;
    oc_w_u64 (msg_deleted_author_id m) ;;
    oc_w_u64 (msg_deleted_deleted_by m) ;;
    oc_w_u64 (msg_deleted_deleted_at m)).

Definition oc_decode_msg_deleted : rd oc_msg_deleted :=
  message_id <- oc_r_u64 ;;
  channel_id <- oc_r_u64 ;;
  author_id <- oc_r_u64 ;;
  deleted_by <- oc_r_u64 ;;
  deleted_at <- oc_r_u64 ;;
  r_done (mk_oc_msg_deleted message_id channel_id author_id deleted_by deleted_at).

Definition msg_deleted_codec : frame_codec :=
  FrameCodec oc_msg_deleted OC_MSG_MSG_DELETED id oc_encode_msg_deleted oc_decode_msg_deleted wf_oc_msg_deleted.
Lemma msg_deleted_lawful : fc_lawful msg_deleted_codec.
Proof. lawful msg_deleted_codec oc_encode_msg_deleted oc_decode_msg_deleted. Qed.
Lemma msg_deleted_safe : rd_safe oc_decode_msg_deleted.
Proof. unfold oc_decode_msg_deleted; solve_safe. Qed.

Definition oc_encode_react (version : Z) (m : oc_react) : encoder :=
  frame version OC_MSG_REACT (
    oc_w_u64 (react_channel_id m) ;;
    oc_w_u64 (react_message_id m) ;;
    oc_w_str (react_emoji m) ;;
    oc_w_u8 (react_op m)).

Definition oc_decode_react : rd oc_react :=
  channel_id <- oc_r_u64 ;;
  message_id <- oc_r_u64 ;;
  emoji <- oc_r_str ;;
  op <- oc_r_u8 ;;
  r_done (mk_oc_react channel_id message_id emoji op).

Definition react_codec : frame_codec :=
  FrameCodec oc_react OC_MSG_REACT id oc_encode_react oc_decode_react wf_oc_react.
Lemma react_lawful : fc_lawful react_codec.
Proof. lawful react_codec oc_encode_react oc_decode_react. Qed.
Lemma react_safe : rd_safe oc_decode_react.
Proof. unfold oc_decode_react; solve_safe. Qed.

Definition oc_encode_reaction_updated (version : Z) (m : oc_reaction_updated) : encoder :=
  frame version OC_MSG_REACTION_UPDATED (
    oc_w_u64 (reaction_updated_message_id m) ;;
    oc_w_u64 (reaction_updated_channel_id m) ;;
    oc_w_u64 (reaction_updated_user_id m) ;;
    oc_w_str (reaction_updated_emoji m) ;;
    oc_w_u8 (reaction_updated_op m) ;;
    oc_w_u64 (reaction_updated_count m)).

Definition oc_decode_reaction_updated : rd oc_reaction_updated :=
  message_id <- oc_r_u64 ;;
  channel_id <- oc_r_u64 ;;
  user_id <- oc_r_u64 ;;
  emoji <- oc_r_str ;;
  op <- oc_r_u8 ;;
  count <- oc_r_u64 ;;
  r_done (mk_oc_reaction_updated message_id channel_id user_id emoji op count).

Definition reaction_updated_codec : frame_codec :=
  FrameCodec oc_reaction_updated OC_MSG_REACTION_UPDATED id oc_encode_reaction_updated oc_decode_reaction_updated wf_oc_reaction_updated.
Lemma reaction_updated_lawful : fc_lawful reaction_updated_codec.
Proof. lawful reaction_updated_codec oc_encode_reaction_updated oc_decode_reaction_updated. Qed.
Lemma reaction_updated_safe : rd_safe oc_decode_reaction_updated.
Proof. unfold oc_decode_reaction_updated; solve_safe. Qed.

Definition oc_encode_pin (version : Z) (m : oc_pin) : encoder :=
  frame version OC_MSG_PIN (
    oc_w_u64 (pin_channel_id m) ;;
    oc_w_u64 (pin_message_id m) ;;
    oc_w_u8 (pin_op m)).

Definition oc_decode_pin : rd oc_pin :=
  channel_id <- oc_r_u64 ;;
  message_id <- oc_r_u64 ;;
  op <- oc_r_u8 ;;
  r_done (mk_oc_pin channel_id message_id op).

Definition pin_codec : frame_codec :=
  FrameCodec oc_pin OC_MSG_PIN id oc_encode_pin oc_decode_pin wf_oc_pin.
Lemma pin_lawful : fc_lawful pin_codec.
Proof. lawful pin_codec oc_encode_pin oc_decode_pin. Qed.
Lemma pin_safe : rd_safe oc_decode_pin.
Proof. unfold oc_decode_pin; solve_safe. Qed.

Definition oc_encode_pin_updated (version : Z) (m : oc_pin_updated) : encoder :=
  frame version OC_MSG_PIN_UPDATED (
    oc_w_u64 (pin_updated_message_id m) ;;
    oc_w_u64 (pin_updated_channel_id m) ;;
    oc_w_u64 (pin_updated_user_id m) ;;
    oc_w_u8 (pin_updated_op m) ;;
    oc_w_u64 (pin_updated_pinned_at m)).

Definition oc_decode_pin_updated : rd oc_pin_updated :=
  message_id <- oc_r_u64 ;;
  channel_id <- oc_r_u64 ;;
  user_id <- oc_r_u64 ;;
  op <- oc_r_u8 ;;
  pinned_at <- oc_r_u64 ;;
  r_done (mk_oc_pin_updated message_id channel_id user_id op pinned_at).

Definition pin_updated_codec : frame_codec :=
  FrameCodec oc_pin_updated OC_MSG_PIN_UPDATED id oc_encode_pin_updated oc_decode_pin_updated wf_oc_pin_updated.
Lemma pin_updated_lawful : fc_lawful pin_updated_codec.
Proof. lawful pin_updated_codec oc_encode_pin_updated oc_decode_pin_updated. Qed.
Lemma pin_updated_safe : rd_safe oc_decode_pin_updated.
Proof. unfold oc_decode_pin_updated; solve_safe. Qed.

Definition oc_encode_unfurl (version : Z) (m : oc_unfurl) : encoder :=
  frame version OC_MSG_UNFURL (
    oc_w_u64 (unfurl_message_id m) ;;
    oc_w_u64 (unfurl_channel_id m) ;;
    oc_w_str (unfurl_url m) ;;
    oc_w_str (unfurl_title m) ;;
    oc_w_str (unfurl_descr m)).

Definition oc_decode_unfurl : rd oc_unfurl :=
  message_id <- oc_r_u64 ;;
  channel_id <- oc_r_u64 ;;
  url <- oc_r_str ;;
  title <- oc_r_str ;;
  descr <- oc_r_str ;;
  r_done (mk_oc_unfurl message_id channel_id url title descr).

Definition unfurl_codec : frame_codec :=
  FrameCodec oc_unfurl OC_MSG_UNFURL id oc_encode_unfurl oc_decode_unfurl wf_oc_unfurl.
Lemma unfurl_lawful : fc_lawful unfurl_codec.
Proof. lawful unfurl_codec oc_encode_unfurl oc_decode_unfurl. Qed.
Lemma unfurl_safe : rd_safe oc_decode_unfurl.
Proof. unfold oc_decode_unfurl; solve_safe. Qed.

Definition oc_encode_attach_media_set (version : Z) (m : oc_attach_media_set) : encoder :=
  frame version OC_MSG_ATTACH_MEDIA_SET (
    oc_w_u64 (attach_media_set_attachment_id m) ;;
    oc_w_u8 (attach_media_set_media_kind m) ;;
    oc_w_u32 (attach_media_set_duration_ms m) ;;
    oc_w_u16 (attach_media_set_width m) ;;
    oc_w_u16 (attach_media_set_height m) ;;
    oc_w_u64 (attach_media_set_poster_id m)).

Definition oc_decode_attach_media_set : rd oc_attach_media_set :=
  attachment_id <- oc_r_u64 ;;
  media_kind <- oc_r_u8 ;;
  duration_ms <- oc_r_u32 ;;
  width <- oc_r_u16 ;;
  height <- oc_r_u16 ;;
  poster_id <- oc_r_u64 ;;
  r_done (mk_oc_attach_media_set attachment_id media_kind duration_ms width height poster_id).

Definition attach_media_set_codec : frame_codec :=
  FrameCodec oc_attach_media_set OC_MSG_ATTACH_MEDIA_SET id oc_encode_attach_media_set oc_decode_attach_media_set wf_oc_attach_media_set.
Lemma attach_media_set_lawful : fc_lawful attach_media_set_codec.
Proof. lawful attach_media_set_codec oc_encode_attach_media_set oc_decode_attach_media_set. Qed.
Lemma attach_media_set_safe : rd_safe oc_decode_attach_media_set.
Proof. unfold oc_decode_attach_media_set; solve_safe. Qed.

Definition oc_encode_attach_media_ok (version : Z) (m : oc_attach_media_ok) : encoder :=
  frame version OC_MSG_ATTACH_MEDIA_OK (
    oc_w_u64 (attach_media_ok_attachment_id m)).

Definition oc_decode_attach_media_ok : rd oc_attach_media_ok :=
  attachment_id <- oc_r_u64 ;;
  r_done (mk_oc_attach_media_ok attachment_id).

Definition attach_media_ok_codec : frame_codec :=
  FrameCodec oc_attach_media_ok OC_MSG_ATTACH_MEDIA_OK id oc_encode_attach_media_ok oc_decode_attach_media_ok wf_oc_attach_media_ok.
Lemma attach_media_ok_lawful : fc_lawful attach_media_ok_codec.
Proof. lawful attach_media_ok_codec oc_encode_attach_media_ok oc_decode_attach_media_ok. Qed.
Lemma attach_media_ok_safe : rd_safe oc_decode_attach_media_ok.
Proof. unfold oc_decode_attach_media_ok; solve_safe. Qed.

Definition oc_encode_forward (version : Z) (m : oc_forward) : encoder :=
  frame version OC_MSG_FORWARD (
    oc_w_u64 (forward_message_id m) ;;
    oc_w_u64 (forward_channel_id m) ;;
    oc_w_u64 (forward_src_channel m) ;;
    oc_w_u64 (forward_src_message m) ;;
    oc_w_u64 (forward_src_author m) ;;
    oc_w_str (forward_src_excerpt m) ;;
    oc_w_u16 (forward_n_attach m) ;;
    oc_w_str (forward_src_attach_name m) ;;
    oc_w_u8 (forward_src_action m)).

Definition oc_decode_forward : rd oc_forward :=
  message_id <- oc_r_u64 ;;
  channel_id <- oc_r_u64 ;;
  src_channel <- oc_r_u64 ;;
  src_message <- oc_r_u64 ;;
  src_author <- oc_r_u64 ;;
  src_excerpt <- oc_r_str ;;
  n_attach <- oc_r_u16 ;;
  src_attach_name <- oc_r_str ;;
  src_action <- oc_r_u8 ;;
  r_done (mk_oc_forward message_id channel_id src_channel src_message src_author src_excerpt n_attach src_attach_name src_action).

Definition forward_codec : frame_codec :=
  FrameCodec oc_forward OC_MSG_FORWARD id oc_encode_forward oc_decode_forward wf_oc_forward.
Lemma forward_lawful : fc_lawful forward_codec.
Proof. lawful forward_codec oc_encode_forward oc_decode_forward. Qed.
Lemma forward_safe : rd_safe oc_decode_forward.
Proof. unfold oc_decode_forward; solve_safe. Qed.

Definition oc_encode_action (version : Z) (m : oc_action) : encoder :=
  frame version OC_MSG_ACTION (
    oc_w_u64 (action_message_id m) ;;
    oc_w_u64 (action_channel_id m) ;;
    oc_w_u64 (action_actor_id m) ;;
    oc_w_str (action_actor_name m) ;;
    oc_w_u32 (action_text_start m) ;;
    oc_w_u32 (action_text_len m)).

Definition oc_decode_action : rd oc_action :=
  message_id <- oc_r_u64 ;;
  channel_id <- oc_r_u64 ;;
  actor_id <- oc_r_u64 ;;
  actor_name <- oc_r_str ;;
  text_start <- oc_r_u32 ;;
  text_len <- oc_r_u32 ;;
  r_done (mk_oc_action message_id channel_id actor_id actor_name text_start text_len).

Definition action_codec : frame_codec :=
  FrameCodec oc_action OC_MSG_ACTION id oc_encode_action oc_decode_action wf_oc_action.
Lemma action_lawful : fc_lawful action_codec.
Proof. lawful action_codec oc_encode_action oc_decode_action. Qed.
Lemma action_safe : rd_safe oc_decode_action.
Proof. unfold oc_decode_action; solve_safe. Qed.

Definition oc_encode_post_poll (version : Z) (m : oc_post_poll) : encoder :=
  let n := clamp OC_POLL_MAX_OPTIONS (post_poll_n_options m) in
  OC_CHECK_BODY (post_poll_question m) (
  frame version OC_MSG_POST_POLL (
    oc_w_u64 (post_poll_channel_id m) ;;
    oc_w_idem (post_poll_idem m) ;;
    oc_w_u64 (post_poll_parent_id m) ;;
    oc_w_lstr (post_poll_question m) ;;
    oc_w_u8 (post_poll_flags m) ;;
    oc_w_u64 (post_poll_close_at_ms m) ;;
    oc_w_u8 n ;;
    w_each oc_w_str (ztake n (post_poll_options m)))).

Definition oc_decode_post_poll : rd oc_post_poll :=
  channel_id <- oc_r_u64 ;;
  idem <- oc_r_idem ;;
  parent_id <- oc_r_u64 ;;
  question <- oc_r_lstr ;;
  flags <- oc_r_u8 ;;
  close_at_ms <- oc_r_u64 ;;
  n <- oc_r_u8 ;;
  _ <- r_fail_if (OC_POLL_MAX_OPTIONS <? n) ;;
  options <- r_for (Z.to_nat n) oc_r_str ;;
  r_done (mk_oc_post_poll channel_id idem parent_id question flags close_at_ms n options).

Definition wf_post_poll (m : oc_post_poll) : Prop :=
  wf_oc_post_poll m ∧
  post_poll_n_options m = zlen (post_poll_options m) ∧
  zlen (post_poll_options m) <= OC_POLL_MAX_OPTIONS.
#[export] Hint Unfold wf_post_poll : wf.

Definition post_poll_codec : frame_codec :=
  FrameCodec oc_post_poll OC_MSG_POST_POLL id oc_encode_post_poll oc_decode_post_poll wf_post_poll.
Lemma post_poll_lawful : fc_lawful post_poll_codec.
Proof. lawful_with post_poll_codec oc_encode_post_poll oc_decode_post_poll is_bytes. Qed.
Lemma post_poll_safe : rd_safe oc_decode_post_poll.
Proof. unfold oc_decode_post_poll; solve_safe. Qed.

Definition oc_encode_vote (version : Z) (m : oc_vote) : encoder :=
  let n := clamp OC_POLL_MAX_OPTIONS (vote_count m) in
  frame version OC_MSG_VOTE (
    oc_w_u64 (vote_channel_id m) ;;
    oc_w_u64 (vote_message_id m) ;;
    oc_w_u8 n ;;
    w_each oc_w_u8 (ztake n (vote_picks m))).

Definition oc_decode_vote : rd oc_vote :=
  channel_id <- oc_r_u64 ;;
  message_id <- oc_r_u64 ;;
  n <- oc_r_u8 ;;
  _ <- r_fail_if (OC_POLL_MAX_OPTIONS <? n) ;;
  picks <- r_for (Z.to_nat n) oc_r_u8 ;;
  r_done (mk_oc_vote channel_id message_id n picks).

Definition wf_vote (m : oc_vote) : Prop :=
  wf_oc_vote m ∧
  vote_count m = zlen (vote_picks m) ∧
  zlen (vote_picks m) <= OC_POLL_MAX_OPTIONS.
#[export] Hint Unfold wf_vote : wf.

Definition vote_codec : frame_codec :=
  FrameCodec oc_vote OC_MSG_VOTE id oc_encode_vote oc_decode_vote wf_vote.
Lemma vote_lawful : fc_lawful vote_codec.
Proof. lawful_with vote_codec oc_encode_vote oc_decode_vote is_u8. Qed.
Lemma vote_safe : rd_safe oc_decode_vote.
Proof. unfold oc_decode_vote; solve_safe. Qed.

Definition oc_encode_poll (version : Z) (m : oc_poll_msg) : encoder :=
  let n := clamp OC_POLL_MAX_OPTIONS (poll_msg_n_options m) in
  frame version OC_MSG_POLL (
    oc_w_u64 (poll_msg_message_id m) ;;
    oc_w_u64 (poll_msg_channel_id m) ;;
    oc_w_u8 (poll_msg_flags m) ;;
    oc_w_u64 (poll_msg_close_at_ms m) ;;
    oc_w_u32 (poll_msg_voters m) ;;
    oc_w_u16 (poll_msg_mine m) ;;
    oc_w_u8 n ;;
    w_each (fun x =>
      oc_w_str (poll_option_label x) ;;
      oc_w_u32 (poll_option_count x)) (ztake n (poll_msg_options m))).

Definition oc_decode_poll : rd oc_poll_msg :=
  message_id <- oc_r_u64 ;;
  channel_id <- oc_r_u64 ;;
  flags <- oc_r_u8 ;;
  close_at_ms <- oc_r_u64 ;;
  voters <- oc_r_u32 ;;
  mine <- oc_r_u16 ;;
  n <- oc_r_u8 ;;
  _ <- r_fail_if (OC_POLL_MAX_OPTIONS <? n) ;;
  options <- r_for (Z.to_nat n) (
    label <- oc_r_str ;;
    count <- oc_r_u32 ;;
    rret (mk_oc_poll_option label count)) ;;
  r_done (mk_oc_poll_msg message_id channel_id flags close_at_ms voters mine n options).

Definition wf_poll (m : oc_poll_msg) : Prop :=
  wf_oc_poll_msg m ∧
  poll_msg_n_options m = zlen (poll_msg_options m) ∧
  zlen (poll_msg_options m) <= OC_POLL_MAX_OPTIONS.
#[export] Hint Unfold wf_poll : wf.

Definition poll_codec : frame_codec :=
  FrameCodec oc_poll_msg OC_MSG_POLL id oc_encode_poll oc_decode_poll wf_poll.
Lemma poll_lawful : fc_lawful poll_codec.
Proof. lawful_with poll_codec oc_encode_poll oc_decode_poll wf_oc_poll_option. Qed.
Lemma poll_safe : rd_safe oc_decode_poll.
Proof. unfold oc_decode_poll; solve_safe. Qed.

Definition oc_encode_edit_poll (version : Z) (m : oc_edit_poll) : encoder :=
  let n := clamp OC_POLL_MAX_OPTIONS (edit_poll_n_options m) in
  frame version OC_MSG_EDIT_POLL (
    oc_w_u64 (edit_poll_channel_id m) ;;
    oc_w_u64 (edit_poll_message_id m) ;;
    oc_w_u8 (edit_poll_flags m) ;;
    oc_w_u64 (edit_poll_close_at_ms m) ;;
    oc_w_u8 n ;;
    w_each oc_w_str (ztake n (edit_poll_options m))).

Definition oc_decode_edit_poll : rd oc_edit_poll :=
  channel_id <- oc_r_u64 ;;
  message_id <- oc_r_u64 ;;
  flags <- oc_r_u8 ;;
  close_at_ms <- oc_r_u64 ;;
  n <- oc_r_u8 ;;
  _ <- r_fail_if (OC_POLL_MAX_OPTIONS <? n) ;;
  options <- r_for (Z.to_nat n) oc_r_str ;;
  r_done (mk_oc_edit_poll channel_id message_id flags close_at_ms n options).

Definition wf_edit_poll (m : oc_edit_poll) : Prop :=
  wf_oc_edit_poll m ∧
  edit_poll_n_options m = zlen (edit_poll_options m) ∧
  zlen (edit_poll_options m) <= OC_POLL_MAX_OPTIONS.
#[export] Hint Unfold wf_edit_poll : wf.

Definition edit_poll_codec : frame_codec :=
  FrameCodec oc_edit_poll OC_MSG_EDIT_POLL id oc_encode_edit_poll oc_decode_edit_poll wf_edit_poll.
Lemma edit_poll_lawful : fc_lawful edit_poll_codec.
Proof. lawful_with edit_poll_codec oc_encode_edit_poll oc_decode_edit_poll is_bytes. Qed.
Lemma edit_poll_safe : rd_safe oc_decode_edit_poll.
Proof. unfold oc_decode_edit_poll; solve_safe. Qed.

Definition oc_encode_list_poll_voters (version : Z) (m : oc_list_poll_voters) : encoder :=
  frame version OC_MSG_LIST_POLL_VOTERS (
    oc_w_u64 (list_poll_voters_channel_id m) ;;
    oc_w_u64 (list_poll_voters_message_id m)).

Definition oc_decode_list_poll_voters : rd oc_list_poll_voters :=
  channel_id <- oc_r_u64 ;;
  message_id <- oc_r_u64 ;;
  r_done (mk_oc_list_poll_voters channel_id message_id).

Definition list_poll_voters_codec : frame_codec :=
  FrameCodec oc_list_poll_voters OC_MSG_LIST_POLL_VOTERS id oc_encode_list_poll_voters oc_decode_list_poll_voters wf_oc_list_poll_voters.
Lemma list_poll_voters_lawful : fc_lawful list_poll_voters_codec.
Proof. lawful list_poll_voters_codec oc_encode_list_poll_voters oc_decode_list_poll_voters. Qed.
Lemma list_poll_voters_safe : rd_safe oc_decode_list_poll_voters.
Proof. unfold oc_decode_list_poll_voters; solve_safe. Qed.

(** No structure in the source: message id, voters and their count are
    separate arguments, and separate results of the decoder. *)
Definition oc_encode_poll_voters (version message_id : Z) (voters : list oc_poll_voter) (count : Z) : encoder :=
  frame version OC_MSG_POLL_VOTERS (
    oc_w_u64 message_id ;;
    oc_w_u16 count ;;
    w_each (fun x =>
      oc_w_u8 (poll_voter_option x) ;;
      oc_w_u64 (poll_voter_user_id x)) (ztake count voters)).

Definition oc_decode_poll_voters (cap : Z) : rd (Z * Z * list oc_poll_voter) :=
  message_id <- oc_r_u64 ;;
  count <- oc_r_u16 ;;
  voters <- r_for_ok (Z.to_nat count) (
    opt <- oc_r_u8 ;;
    uid <- oc_r_u64 ;;
    rret (mk_oc_poll_voter opt uid)) ;;
  r_done (message_id, count, ztake cap voters).

Definition wf_poll_voters (cap : Z) (m : Z * Z * list oc_poll_voter) : Prop :=
  is_u64 m.1.1 ∧ is_u16 m.1.2 ∧ Forall wf_oc_poll_voter m.2 ∧ m.1.2 = zlen m.2 ∧ zlen m.2 <= cap.
#[export] Hint Unfold wf_poll_voters : wf.

Definition poll_voters_codec (cap : Z) : frame_codec :=
  FrameCodec (Z * Z * list oc_poll_voter) OC_MSG_POLL_VOTERS id
    (fun version m => oc_encode_poll_voters version m.1.1 m.2 m.1.2)
    (oc_decode_poll_voters cap) (wf_poll_voters cap).
Lemma poll_voters_complete cap : fc_complete (poll_voters_codec cap).
Proof.
  unfold fc_complete, poll_voters_codec; eexists (fun m => _); fc_open; split;
    [law_encodes oc_encode_poll_voters|].
  intros [[message_id count] voters] Hwf; open_wf Hwf; simpl; subst count.
  unfold oc_decode_poll_voters; solve_parses.
Qed.
Lemma poll_voters_safe cap : rd_safe (oc_decode_poll_voters cap).
Proof. unfold oc_decode_poll_voters; solve_safe. Qed.

Definition oc_encode_summarize (version : Z) (m : oc_summarize) : encoder :=
  frame version OC_MSG_SUMMARIZE (
    oc_w_u32 (summarize_req_id m) ;;
    oc_w_u64 (summarize_channel_id m) ;;
    oc_w_u8 (summarize_scope m) ;;
    oc_w_u64 (summarize_start_ms m) ;;
    oc_w_u64 (summarize_end_ms m)).

Definition oc_decode_summarize : rd oc_summarize :=
  req_id <- oc_r_u32 ;;
  channel_id <- oc_r_u64 ;;
  scope <- oc_r_u8 ;;
  start_ms <- oc_r_u64 ;;
  end_ms <- oc_r_u64 ;;
  r_done (mk_oc_summarize req_id channel_id scope start_ms end_ms).

Definition summarize_codec : frame_codec :=
  FrameCodec oc_summarize OC_MSG_SUMMARIZE id oc_encode_summarize oc_decode_summarize wf_oc_summarize.
Lemma summarize_lawful : fc_lawful summarize_codec.
Proof. lawful summarize_codec oc_encode_summarize oc_decode_summarize. Qed.
Lemma summarize_safe : rd_safe oc_decode_summarize.
Proof. unfold oc_decode_summarize; solve_safe. Qed.

Definition oc_encode_summary (version : Z) (m : oc_summary) : encoder :=
  frame version OC_MSG_SUMMARY (
    oc_w_u32 (summary_req_id m) ;;
    oc_w_u8 (summary_status m) ;;
    oc_w_u64 (summary_summary_id m) ;;
    oc_w_u64 (summary_channel_id m) ;;
    oc_w_u64 (summary_start_ms m) ;;
    oc_w_u64 (summary_end_ms m) ;;
    oc_w_str (summary_version m) ;;
    oc_w_lstr (summary_body m)).

Definition oc_decode_summary : rd oc_summary :=
  req_id <- oc_r_u32 ;;
  status <- oc_r_u8 ;;
  summary_id <- oc_r_u64 ;;
  channel_id <- oc_r_u64 ;;
  start_ms <- oc_r_u64 ;;
  end_ms <- oc_r_u64 ;;
  version <- oc_r_str ;;
  body <- oc_r_lstr ;;
  r_done (mk_oc_summary req_id status summary_id channel_id start_ms end_ms version body).

Definition summary_codec : frame_codec :=
  FrameCodec oc_summary OC_MSG_SUMMARY id oc_encode_summary oc_decode_summary wf_oc_summary.
Lemma summary_lawful : fc_lawful summary_codec.
Proof. lawful summary_codec oc_encode_summary oc_decode_summary. Qed.
Lemma summary_safe : rd_safe oc_decode_summary.
Proof. unfold oc_decode_summary; solve_safe. Qed.

Definition oc_encode_summary_queued (version : Z) (m : oc_summary_queued) : encoder :=
  frame version OC_MSG_SUMMARY_QUEUED (
    oc_w_u32 (summary_queued_req_id m) ;;
    oc_w_u16 (summary_queued_position m)).

Definition oc_decode_summary_queued : rd oc_summary_queued :=
  req_id <- oc_r_u32 ;;
  position <- oc_r_u16 ;;
  r_done (mk_oc_summary_queued req_id position).

Definition summary_queued_codec : frame_codec :=
  FrameCodec oc_summary_queued OC_MSG_SUMMARY_QUEUED id oc_encode_summary_queued oc_decode_summary_queued wf_oc_summary_queued.
Lemma summary_queued_lawful : fc_lawful summary_queued_codec.
Proof. lawful summary_queued_codec oc_encode_summary_queued oc_decode_summary_queued. Qed.
Lemma summary_queued_safe : rd_safe oc_decode_summary_queued.
Proof. unfold oc_decode_summary_queued; solve_safe. Qed.

Definition oc_encode_summary_req (version : Z) (type : Z) (m : oc_summary_req) : encoder :=
  frame version type (
    oc_w_u32 (summary_req_req_id m)).

Definition oc_decode_summary_req : rd oc_summary_req :=
  req_id <- oc_r_u32 ;;
  r_done (mk_oc_summary_req req_id).


Definition summary_req_codec (type : Z) : frame_codec :=
  FrameCodec oc_summary_req type id (fun version => oc_encode_summary_req version type) oc_decode_summary_req wf_oc_summary_req.
Lemma summary_req_lawful type : fc_lawful (summary_req_codec type).
Proof. lawful_with summary_req_codec oc_encode_summary_req oc_decode_summary_req (fun _ : Z => True). Qed.
Lemma summary_req_safe : rd_safe oc_decode_summary_req.
Proof. unfold oc_decode_summary_req; solve_safe. Qed.

Definition oc_encode_summary_ready (version : Z) (m : oc_summary_ready) : encoder :=
  frame version OC_MSG_SUMMARY_READY (
    oc_w_u64 (summary_ready_notice_id m) ;;
    oc_w_u64 (summary_ready_channel_id m) ;;
    oc_w_u8 (summary_ready_scope m) ;;
    oc_w_u8 (summary_ready_status m) ;;
    oc_w_u64 (summary_ready_start_ms m) ;;
    oc_w_u64 (summary_ready_end_ms m) ;;
    oc_w_u64 (summary_ready_made_at_ms m)).

Definition oc_decode_summary_ready : rd oc_summary_ready :=
  notice_id <- oc_r_u64 ;;
  channel_id <- oc_r_u64 ;;
  scope <- oc_r_u8 ;;
  status <- oc_r_u8 ;;
  start_ms <- oc_r_u64 ;;
  end_ms <- oc_r_u64 ;;
  made_at_ms <- oc_r_u64 ;;
  r_done (mk_oc_summary_ready notice_id channel_id scope status start_ms end_ms made_at_ms).

Definition summary_ready_codec : frame_codec :=
  FrameCodec oc_summary_ready OC_MSG_SUMMARY_READY id oc_encode_summary_ready oc_decode_summary_ready wf_oc_summary_ready.
Lemma summary_ready_lawful : fc_lawful summary_ready_codec.
Proof. lawful summary_ready_codec oc_encode_summary_ready oc_decode_summary_ready. Qed.
Lemma summary_ready_safe : rd_safe oc_decode_summary_ready.
Proof. unfold oc_decode_summary_ready; solve_safe. Qed.

Definition oc_encode_summary_open (version : Z) (m : oc_summary_open) : encoder :=
  frame version OC_MSG_SUMMARY_OPEN (
    oc_w_u32 (summary_open_req_id m) ;;
    oc_w_u64 (summary_open_notice_id m)).

Definition oc_decode_summary_open : rd oc_summary_open :=
  req_id <- oc_r_u32 ;;
  notice_id <- oc_r_u64 ;;
  r_done (mk_oc_summary_open req_id notice_id).

Definition summary_open_codec : frame_codec :=
  FrameCodec oc_summary_open OC_MSG_SUMMARY_OPEN id oc_encode_summary_open oc_decode_summary_open wf_oc_summary_open.
Lemma summary_open_lawful : fc_lawful summary_open_codec.
Proof. lawful summary_open_codec oc_encode_summary_open oc_decode_summary_open. Qed.
Lemma summary_open_safe : rd_safe oc_decode_summary_open.
Proof. unfold oc_decode_summary_open; solve_safe. Qed.

Definition oc_encode_summary_dismiss (version : Z) (m : oc_summary_dismiss) : encoder :=
  frame version OC_MSG_SUMMARY_DISMISS (
    oc_w_u64 (summary_dismiss_notice_id m)).

Definition oc_decode_summary_dismiss : rd oc_summary_dismiss :=
  notice_id <- oc_r_u64 ;;
  r_done (mk_oc_summary_dismiss notice_id).

Definition summary_dismiss_codec : frame_codec :=
  FrameCodec oc_summary_dismiss OC_MSG_SUMMARY_DISMISS id oc_encode_summary_dismiss oc_decode_summary_dismiss wf_oc_summary_dismiss.
Lemma summary_dismiss_lawful : fc_lawful summary_dismiss_codec.
Proof. lawful summary_dismiss_codec oc_encode_summary_dismiss oc_decode_summary_dismiss. Qed.
Lemma summary_dismiss_safe : rd_safe oc_decode_summary_dismiss.
Proof. unfold oc_decode_summary_dismiss; solve_safe. Qed.

Definition oc_encode_list_pins (version : Z) (m : oc_list_pins) : encoder :=
  frame version OC_MSG_LIST_PINS (
    oc_w_u64 (list_pins_channel_id m)).

Definition oc_decode_list_pins : rd oc_list_pins :=
  channel_id <- oc_r_u64 ;;
  r_done (mk_oc_list_pins channel_id).

Definition list_pins_codec : frame_codec :=
  FrameCodec oc_list_pins OC_MSG_LIST_PINS id oc_encode_list_pins oc_decode_list_pins wf_oc_list_pins.
Lemma list_pins_lawful : fc_lawful list_pins_codec.
Proof. lawful list_pins_codec oc_encode_list_pins oc_decode_list_pins. Qed.
Lemma list_pins_safe : rd_safe oc_decode_list_pins.
Proof. unfold oc_decode_list_pins; solve_safe. Qed.

Definition oc_encode_pinned_msg (version : Z) (m : oc_pinned_msg) : encoder :=
  frame version OC_MSG_PINNED_MSG (
    oc_w_u64 (pinned_msg_message_id m) ;;
    oc_w_u64 (pinned_msg_channel_id m) ;;
    oc_w_u64 (pinned_msg_author_id m) ;;
    oc_w_u64 (pinned_msg_server_time m) ;;
    oc_w_u64 (pinned_msg_pinned_by m) ;;
    oc_w_u64 (pinned_msg_pinned_at m) ;;
    oc_w_str (pinned_msg_body m) ;;
    oc_w_str (pinned_msg_attach_name m) ;;
    oc_w_u8 (pinned_msg_action m)).

Definition oc_decode_pinned_msg : rd oc_pinned_msg :=
  message_id <- oc_r_u64 ;;
  channel_id <- oc_r_u64 ;;
  author_id <- oc_r_u64 ;;
  server_time <- oc_r_u64 ;;
  pinned_by <- oc_r_u64 ;;
  pinned_at <- oc_r_u64 ;;
  body <- oc_r_str ;;
  attach_name <- oc_r_str ;;
  action <- oc_r_u8 ;;
  r_done (mk_oc_pinned_msg message_id channel_id author_id server_time pinned_by pinned_at body attach_name action).

Definition pinned_msg_codec : frame_codec :=
  FrameCodec oc_pinned_msg OC_MSG_PINNED_MSG id oc_encode_pinned_msg oc_decode_pinned_msg wf_oc_pinned_msg.
Lemma pinned_msg_lawful : fc_lawful pinned_msg_codec.
Proof. lawful pinned_msg_codec oc_encode_pinned_msg oc_decode_pinned_msg. Qed.
Lemma pinned_msg_safe : rd_safe oc_decode_pinned_msg.
Proof. unfold oc_decode_pinned_msg; solve_safe. Qed.

Definition oc_encode_pins (version : Z) (m : oc_pins) : encoder :=
  frame version OC_MSG_PINS (
    oc_w_u64 (pins_channel_id m) ;;
    oc_w_u32 (pins_count m)).

Definition oc_decode_pins : rd oc_pins :=
  channel_id <- oc_r_u64 ;;
  count <- oc_r_u32 ;;
  r_done (mk_oc_pins channel_id count).

Definition pins_codec : frame_codec :=
  FrameCodec oc_pins OC_MSG_PINS id oc_encode_pins oc_decode_pins wf_oc_pins.
Lemma pins_lawful : fc_lawful pins_codec.
Proof. lawful pins_codec oc_encode_pins oc_decode_pins. Qed.
Lemma pins_safe : rd_safe oc_decode_pins.
Proof. unfold oc_decode_pins; solve_safe. Qed.

Definition oc_encode_list_members (version : Z) (m : oc_list_members) : encoder :=
  frame version OC_MSG_LIST_MEMBERS (
    oc_w_u64 (list_members_channel_id m)).

Definition oc_decode_list_members : rd oc_list_members :=
  channel_id <- oc_r_u64 ;;
  r_done (mk_oc_list_members channel_id).

Definition list_members_codec : frame_codec :=
  FrameCodec oc_list_members OC_MSG_LIST_MEMBERS id oc_encode_list_members oc_decode_list_members wf_oc_list_members.
Lemma list_members_lawful : fc_lawful list_members_codec.
Proof. lawful list_members_codec oc_encode_list_members oc_decode_list_members. Qed.
Lemma list_members_safe : rd_safe oc_decode_list_members.
Proof. unfold oc_decode_list_members; solve_safe. Qed.

Definition oc_encode_member_entry (version : Z) (m : oc_member_entry) : encoder :=
  frame version OC_MSG_MEMBER_ENTRY (
    oc_w_u64 (member_entry_channel_id m) ;;
    oc_w_u64 (member_entry_user_id m) ;;
    oc_w_u8 (member_entry_role m) ;;
    oc_w_u64 (member_entry_joined_at m)).

Definition oc_decode_member_entry : rd oc_member_entry :=
  channel_id <- oc_r_u64 ;;
  user_id <- oc_r_u64 ;;
  role <- oc_r_u8 ;;
  joined_at <- oc_r_u64 ;;
  r_done (mk_oc_member_entry channel_id user_id role joined_at).

Definition member_entry_codec : frame_codec :=
  FrameCodec oc_member_entry OC_MSG_MEMBER_ENTRY id oc_encode_member_entry oc_decode_member_entry wf_oc_member_entry.
Lemma member_entry_lawful : fc_lawful member_entry_codec.
Proof. lawful member_entry_codec oc_encode_member_entry oc_decode_member_entry. Qed.
Lemma member_entry_safe : rd_safe oc_decode_member_entry.
Proof. unfold oc_decode_member_entry; solve_safe. Qed.

(** Names travel as strings and are stored NUL-padded in [char[49]]. *)
Definition oc_encode_mention_unresolved (version : Z) (m : oc_mention_unresolved) : encoder :=
  let n := clamp OC_UNRESOLVED_MAX (mention_unresolved_count m) in
  frame version OC_MSG_MENTION_UNRESOLVED (
    oc_w_u64 (mention_unresolved_channel_id m) ;;
    oc_w_u64 (mention_unresolved_message_id m) ;;
    oc_w_u8 (mention_unresolved_can_add m) ;;
    oc_w_u8 (mention_unresolved_is_private m) ;;
    oc_w_u16 n ;;
    w_each (fun x =>
      oc_w_u64 (unresolved_mention_user_id x) ;;
      oc_w_str (oc_slice_str (unresolved_mention_name x))) (ztake n (mention_unresolved_who m))).

(** The first 48 bytes of the name into the zeroed array, NUL after them. *)
Definition store_name (nm : oc_slice) : list Z :=
  let len := if zlen nm <? OC_MAX_DISPLAY_NAME then zlen nm else OC_MAX_DISPLAY_NAME in
  ztake len nm ++ replicate (Z.to_nat (OC_MAX_DISPLAY_NAME + 1 - len)) 0.

Definition oc_decode_mention_unresolved : rd oc_mention_unresolved :=
  channel_id <- oc_r_u64 ;;
  message_id <- oc_r_u64 ;;
  can_add <- oc_r_u8 ;;
  is_private <- oc_r_u8 ;;
  n <- oc_r_u16 ;;
  who <- r_for (Z.to_nat n) (
    uid <- oc_r_u64 ;;
    nm <- oc_r_str ;;
    rret (mk_oc_unresolved_mention uid (store_name nm))) ;;
  r_done (mk_oc_mention_unresolved channel_id message_id can_add is_private
            (clamp OC_UNRESOLVED_MAX n) (ztake OC_UNRESOLVED_MAX who)).

(** The array is a NUL-terminated name and zeros to its end. *)
Definition is_name (a : list Z) : Prop := a = store_name (oc_slice_str a).
Definition wf_unresolved (x : oc_unresolved_mention) : Prop :=
  wf_oc_unresolved_mention x ∧ is_name (unresolved_mention_name x).
Definition wf_mention_unresolved (m : oc_mention_unresolved) : Prop :=
  is_u64 (mention_unresolved_channel_id m) ∧ is_u64 (mention_unresolved_message_id m) ∧
  is_u8 (mention_unresolved_can_add m) ∧ is_u8 (mention_unresolved_is_private m) ∧
  is_u16 (mention_unresolved_count m) ∧ Forall wf_unresolved (mention_unresolved_who m) ∧
  mention_unresolved_count m = zlen (mention_unresolved_who m) ∧
  zlen (mention_unresolved_who m) <= OC_UNRESOLVED_MAX.
#[export] Hint Unfold wf_unresolved wf_mention_unresolved : wf.

Definition mention_unresolved_codec : frame_codec :=
  FrameCodec oc_mention_unresolved OC_MSG_MENTION_UNRESOLVED id oc_encode_mention_unresolved
    oc_decode_mention_unresolved wf_mention_unresolved.
Lemma parses_unresolved x : wf_unresolved x →
  Parses (uid <- oc_r_u64 ;; nm <- oc_r_str ;; rret (mk_oc_unresolved_mention uid (store_name nm)))
    (oapp (Some (be64 (unresolved_mention_user_id x))) (str_bytes (oc_slice_str (unresolved_mention_name x)))) x.
Proof.
  destruct x as [uid a]. intros [(Hu & _ & _) Ha]. simpl in *.
  eapply parses_bind; [by apply parses_u64|].
  eapply parses_map_eq; [apply parses_str|]. by rewrite <- Ha.
Qed.
Lemma mention_unresolved_complete : fc_complete mention_unresolved_codec.
Proof.
  unfold fc_complete, mention_unresolved_codec; eexists (fun m => _); fc_open; split.
  - law_encodes oc_encode_mention_unresolved.
  - intros [] (? & ? & ? & ? & ? & Hl & Hn & Hm). simpl in *. subst.
    unfold oc_decode_mention_unresolved. do 5 (eapply parses_all_bind; [parses_one|cbv beta]).
    eapply parses_all_last_eq.
    + rewrite zlen_to_nat. apply parses_for.
      intros x Hx. apply parses_unresolved, (Forall_elem _ _ _ Hl Hx).
    + same_value.
Qed.
Lemma mention_unresolved_safe : rd_safe oc_decode_mention_unresolved.
Proof. unfold oc_decode_mention_unresolved; solve_safe. Qed.

Definition oc_encode_members (version : Z) (m : oc_members) : encoder :=
  frame version OC_MSG_MEMBERS (
    oc_w_u64 (members_channel_id m) ;;
    oc_w_u32 (members_count m)).

Definition oc_decode_members : rd oc_members :=
  channel_id <- oc_r_u64 ;;
  count <- oc_r_u32 ;;
  r_done (mk_oc_members channel_id count).

Definition members_codec : frame_codec :=
  FrameCodec oc_members OC_MSG_MEMBERS id oc_encode_members oc_decode_members wf_oc_members.
Lemma members_lawful : fc_lawful members_codec.
Proof. lawful members_codec oc_encode_members oc_decode_members. Qed.
Lemma members_safe : rd_safe oc_decode_members.
Proof. unfold oc_decode_members; solve_safe. Qed.

Definition oc_encode_list_files (version : Z) (m : oc_list_files) : encoder :=
  frame version OC_MSG_LIST_FILES (
    oc_w_u64 (list_files_channel_id m) ;;
    oc_w_u64 (list_files_before_ms m) ;;
    oc_w_u64 (list_files_before_id m)).

Definition oc_decode_list_files : rd oc_list_files :=
  channel_id <- oc_r_u64 ;;
  before_ms <- oc_r_u64 ;;
  before_id <- oc_r_u64 ;;
  r_done (mk_oc_list_files channel_id before_ms before_id).

Definition list_files_codec : frame_codec :=
  FrameCodec oc_list_files OC_MSG_LIST_FILES id oc_encode_list_files oc_decode_list_files wf_oc_list_files.
Lemma list_files_lawful : fc_lawful list_files_codec.
Proof. lawful list_files_codec oc_encode_list_files oc_decode_list_files. Qed.
Lemma list_files_safe : rd_safe oc_decode_list_files.
Proof. unfold oc_decode_list_files; solve_safe. Qed.

Definition oc_encode_file_entry (version : Z) (m : oc_file_entry) : encoder :=
  frame version OC_MSG_FILE_ENTRY (
    oc_w_u64 (file_entry_attachment_id m) ;;
    oc_w_u64 (file_entry_channel_id m) ;;
    oc_w_u64 (file_entry_message_id m) ;;
    oc_w_u64 (file_entry_uploader_id m) ;;
    oc_w_u64 (file_entry_size m) ;;
    oc_w_u64 (file_entry_created_at m) ;;
    oc_w_u8 (file_entry_reclaimed m) ;;
    oc_w_str (file_entry_filename m) ;;
    oc_w_str (file_entry_mime m) ;;
    oc_w_u8 (file_entry_media_kind m) ;;
    oc_w_u32 (file_entry_duration_ms m)).

Definition oc_decode_file_entry : rd oc_file_entry :=
  attachment_id <- oc_r_u64 ;;
  channel_id <- oc_r_u64 ;;
  message_id <- oc_r_u64 ;;
  uploader_id <- oc_r_u64 ;;
  size <- oc_r_u64 ;;
  created_at <- oc_r_u64 ;;
  reclaimed <- oc_r_u8 ;;
  filename <- oc_r_str ;;
  mime <- oc_r_str ;;
  media_kind <- oc_r_u8 ;;
  duration_ms <- oc_r_u32 ;;
  r_done (mk_oc_file_entry attachment_id channel_id message_id uploader_id size created_at reclaimed filename mime media_kind duration_ms).

Definition file_entry_codec : frame_codec :=
  FrameCodec oc_file_entry OC_MSG_FILE_ENTRY id oc_encode_file_entry oc_decode_file_entry wf_oc_file_entry.
Lemma file_entry_lawful : fc_lawful file_entry_codec.
Proof. lawful file_entry_codec oc_encode_file_entry oc_decode_file_entry. Qed.
Lemma file_entry_safe : rd_safe oc_decode_file_entry.
Proof. unfold oc_decode_file_entry; solve_safe. Qed.

Definition oc_encode_files (version : Z) (m : oc_files) : encoder :=
  frame version OC_MSG_FILES (
    oc_w_u64 (files_channel_id m) ;;
    oc_w_u32 (files_count m) ;;
    oc_w_u8 (files_more m)).

Definition oc_decode_files : rd oc_files :=
  channel_id <- oc_r_u64 ;;
  count <- oc_r_u32 ;;
  more <- oc_r_u8 ;;
  r_done (mk_oc_files channel_id count more).

Definition files_codec : frame_codec :=
  FrameCodec oc_files OC_MSG_FILES id oc_encode_files oc_decode_files wf_oc_files.
Lemma files_lawful : fc_lawful files_codec.
Proof. lawful files_codec oc_encode_files oc_decode_files. Qed.
Lemma files_safe : rd_safe oc_decode_files.
Proof. unfold oc_decode_files; solve_safe. Qed.

Definition oc_encode_list_reactions (version : Z) (m : oc_list_reactions) : encoder :=
  frame version OC_MSG_LIST_REACTIONS (
    oc_w_u64 (list_reactions_channel_id m) ;;
    oc_w_u64 (list_reactions_message_id m)).

Definition oc_decode_list_reactions : rd oc_list_reactions :=
  channel_id <- oc_r_u64 ;;
  message_id <- oc_r_u64 ;;
  r_done (mk_oc_list_reactions channel_id message_id).

Definition list_reactions_codec : frame_codec :=
  FrameCodec oc_list_reactions OC_MSG_LIST_REACTIONS id oc_encode_list_reactions oc_decode_list_reactions wf_oc_list_reactions.
Lemma list_reactions_lawful : fc_lawful list_reactions_codec.
Proof. lawful list_reactions_codec oc_encode_list_reactions oc_decode_list_reactions. Qed.
Lemma list_reactions_safe : rd_safe oc_decode_list_reactions.
Proof. unfold oc_decode_list_reactions; solve_safe. Qed.

Definition oc_encode_reactions (version : Z) (m : oc_reactions) : encoder :=
  frame version OC_MSG_REACTIONS (
    oc_w_u64 (reactions_message_id m) ;;
    oc_w_u16 (reactions_count m) ;;
    w_each (fun x =>
      oc_w_str (reaction_entry_emoji x) ;;
      oc_w_u64 (reaction_entry_user_id x)) (ztake (reactions_count m) (reactions_entries m))).

Definition oc_decode_reactions (cap : Z) : rd oc_reactions :=
  message_id <- oc_r_u64 ;;
  count <- oc_r_u16 ;;
  entries <- r_for_ok (Z.to_nat count) (
    emoji <- oc_r_str ;;
    uid <- oc_r_u64 ;;
    rret (mk_oc_reaction_entry emoji uid)) ;;
  r_done (mk_oc_reactions message_id count (ztake cap entries)).

Definition wf_reactions (cap : Z) (m : oc_reactions) : Prop :=
  wf_oc_reactions m ∧
  reactions_count m = zlen (reactions_entries m) ∧
  zlen (reactions_entries m) <= cap.
#[export] Hint Unfold wf_reactions : wf.

Definition reactions_codec (cap : Z) : frame_codec :=
  FrameCodec oc_reactions OC_MSG_REACTIONS id oc_encode_reactions (oc_decode_reactions cap) (wf_reactions cap).
Lemma reactions_complete cap : fc_complete (reactions_codec cap).
Proof. complete reactions_codec oc_encode_reactions oc_decode_reactions. Qed.
Lemma reactions_safe cap : rd_safe (oc_decode_reactions cap).
Proof. unfold oc_decode_reactions; solve_safe. Qed.

Definition oc_encode_send_reply (version : Z) (m : oc_send_reply) : encoder :=
  OC_CHECK_BODY (send_reply_body m) (
  frame version OC_MSG_SEND_REPLY (
    oc_w_u64 (send_reply_channel_id m) ;;
    oc_w_idem (send_reply_idem m) ;;
    oc_w_u64 (send_reply_parent_id m) ;;
    oc_w_lstr (send_reply_body m) ;;
    w_attach_tail oc_w_u64 (send_reply_n_attach m) (send_reply_attach_ids m))).

Definition oc_decode_send_reply : rd oc_send_reply :=
  channel_id <- oc_r_u64 ;;
  idem <- oc_r_idem ;;
  parent_id <- oc_r_u64 ;;
  body <- oc_r_lstr ;;
  tail <- r_attach_tail oc_r_u64 ;;
  let '(n_attach, attach_ids) := tail in
  r_done (mk_oc_send_reply channel_id idem parent_id body n_attach attach_ids).

Definition wf_send_reply (m : oc_send_reply) : Prop :=
  wf_oc_send_reply m ∧ send_reply_n_attach m = zlen (send_reply_attach_ids m) ∧
  zlen (send_reply_attach_ids m) <= OC_MAX_ATTACH.
#[export] Hint Unfold wf_send_reply : wf.
Definition send_reply_codec : frame_codec :=
  FrameCodec oc_send_reply OC_MSG_SEND_REPLY id oc_encode_send_reply oc_decode_send_reply wf_send_reply.
Lemma send_reply_complete : fc_complete send_reply_codec.
Proof.
  unfold fc_complete, send_reply_codec; eexists (fun m => _); fc_open; split.
  - law_encodes oc_encode_send_reply. attach_writes.
  - law_parses oc_decode_send_reply. attach_parses. apply parses_all_done.
Qed.
Lemma send_reply_safe : rd_safe oc_decode_send_reply.
Proof. unfold oc_decode_send_reply; solve_safe. Qed.

Definition oc_encode_thread_reply (version : Z) (m : oc_thread_reply) : encoder :=
  OC_CHECK_BODY (thread_reply_body m) (
  frame version OC_MSG_THREAD_REPLY (
    oc_w_u64 (thread_reply_message_id m) ;;
    oc_w_u64 (thread_reply_channel_id m) ;;
    oc_w_u64 (thread_reply_parent_id m) ;;
    oc_w_u64 (thread_reply_author_id m) ;;
    oc_w_u64 (thread_reply_server_time m) ;;
    oc_w_u32 (thread_reply_reply_count m) ;;
    oc_w_u8 (b01 (thread_reply_participant m)) ;;
    oc_w_u8 (b01 (thread_reply_broadcast_stored m)) ;;
    oc_w_lstr (thread_reply_body m) ;;
    w_attach_tail w_attach_entry (thread_reply_n_attach m) (thread_reply_attach m))).

Definition oc_decode_thread_reply : rd oc_thread_reply :=
  message_id <- oc_r_u64 ;;
  channel_id <- oc_r_u64 ;;
  parent_id <- oc_r_u64 ;;
  author_id <- oc_r_u64 ;;
  server_time <- oc_r_u64 ;;
  reply_count <- oc_r_u32 ;;
  participant <- oc_r_u8 ;;
  broadcast_stored <- oc_r_u8 ;;
  _ <- r_fail_if (1 <? broadcast_stored) ;;
  body <- oc_r_lstr ;;
  tail <- r_attach_tail r_attach_entry ;;
  let '(n_attach, attach) := tail in
  r_done (mk_oc_thread_reply message_id channel_id parent_id author_id server_time reply_count
            participant body n_attach attach broadcast_stored).

(** The two flags are sent as 0 or 1. *)
Definition wf_thread_reply (m : oc_thread_reply) : Prop :=
  wf_oc_thread_reply m ∧ thread_reply_n_attach m = zlen (thread_reply_attach m) ∧
  zlen (thread_reply_attach m) <= OC_MAX_ATTACH ∧ Forall wf_attach_entry (thread_reply_attach m) ∧
  0 <= thread_reply_participant m <= 1 ∧ 0 <= thread_reply_broadcast_stored m <= 1.
#[export] Hint Unfold wf_thread_reply : wf.
Definition thread_reply_codec : frame_codec :=
  FrameCodec oc_thread_reply OC_MSG_THREAD_REPLY id oc_encode_thread_reply oc_decode_thread_reply
    wf_thread_reply.
Lemma thread_reply_complete : fc_complete thread_reply_codec.
Proof.
  unfold fc_complete, thread_reply_codec; eexists (fun m => _); fc_open; split.
  - law_encodes oc_encode_thread_reply. attach_writes.
  - law_parses oc_decode_thread_reply. attach_parses. apply parses_all_done.
Qed.
Lemma thread_reply_safe : rd_safe oc_decode_thread_reply.
Proof. unfold oc_decode_thread_reply; solve_safe. Qed.

Definition oc_encode_list_thread (version : Z) (m : oc_list_thread) : encoder :=
  frame version OC_MSG_LIST_THREAD (
    oc_w_u64 (list_thread_channel_id m) ;;
    oc_w_u64 (list_thread_parent_id m)).

Definition oc_decode_list_thread : rd oc_list_thread :=
  channel_id <- oc_r_u64 ;;
  parent_id <- oc_r_u64 ;;
  r_done (mk_oc_list_thread channel_id parent_id).

Definition list_thread_codec : frame_codec :=
  FrameCodec oc_list_thread OC_MSG_LIST_THREAD id oc_encode_list_thread oc_decode_list_thread wf_oc_list_thread.
Lemma list_thread_lawful : fc_lawful list_thread_codec.
Proof. lawful list_thread_codec oc_encode_list_thread oc_decode_list_thread. Qed.
Lemma list_thread_safe : rd_safe oc_decode_list_thread.
Proof. unfold oc_decode_list_thread; solve_safe. Qed.

Definition oc_encode_thread (version : Z) (m : oc_thread) : encoder :=
  frame version OC_MSG_THREAD (
    oc_w_u64 (thread_parent_id m) ;;
    oc_w_u32 (thread_count m) ;;
    oc_w_u8 (thread_truncated m)).

Definition oc_decode_thread : rd oc_thread :=
  parent_id <- oc_r_u64 ;;
  count <- oc_r_u32 ;;
  truncated <- oc_r_u8 ;;
  r_done (mk_oc_thread parent_id count truncated).

Definition thread_codec : frame_codec :=
  FrameCodec oc_thread OC_MSG_THREAD id oc_encode_thread oc_decode_thread wf_oc_thread.
Lemma thread_lawful : fc_lawful thread_codec.
Proof. lawful thread_codec oc_encode_thread oc_decode_thread. Qed.
Lemma thread_safe : rd_safe oc_decode_thread.
Proof. unfold oc_decode_thread; solve_safe. Qed.

Definition oc_encode_thread_meta (version : Z) (m : oc_thread_meta) : encoder :=
  frame version OC_MSG_THREAD_META (
    oc_w_u64 (thread_meta_message_id m) ;;
    oc_w_u32 (thread_meta_reply_count m) ;;
    oc_w_u64 (thread_meta_last_reply_at m)).

Definition oc_decode_thread_meta : rd oc_thread_meta :=
  message_id <- oc_r_u64 ;;
  reply_count <- oc_r_u32 ;;
  last_reply_at <- oc_r_u64 ;;
  r_done (mk_oc_thread_meta message_id reply_count last_reply_at).

Definition thread_meta_codec : frame_codec :=
  FrameCodec oc_thread_meta OC_MSG_THREAD_META id oc_encode_thread_meta oc_decode_thread_meta wf_oc_thread_meta.
Lemma thread_meta_lawful : fc_lawful thread_meta_codec.
Proof. lawful thread_meta_codec oc_encode_thread_meta oc_decode_thread_meta. Qed.
Lemma thread_meta_safe : rd_safe oc_decode_thread_meta.
Proof. unfold oc_decode_thread_meta; solve_safe. Qed.

(** ** The frames of this file

    [cap] is the length of the array a decoder is given, where it takes one. *)

Definition message_lawful_codecs (cap : Z) : list frame_codec :=
  [send_ack_codec; client_ack_codec; read_cursor_codec; edit_codec; delete_codec;
   msg_edited_codec; msg_deleted_codec; react_codec; reaction_updated_codec; pin_codec;
   pin_updated_codec; unfurl_codec; attach_media_set_codec; attach_media_ok_codec;
   forward_codec; action_codec; post_poll_codec; vote_codec; poll_codec; edit_poll_codec;
   list_poll_voters_codec; summarize_codec; summary_codec; summary_queued_codec;
   summary_req_codec OC_MSG_SUMMARY_DETACH; summary_req_codec OC_MSG_SUMMARY_CANCEL;
   summary_ready_codec; summary_open_codec; summary_dismiss_codec; list_pins_codec;
   pinned_msg_codec; pins_codec; list_members_codec; member_entry_codec; members_codec;
   list_files_codec; file_entry_codec; files_codec; list_reactions_codec; list_thread_codec;
   thread_codec; thread_meta_codec].

Lemma message_lawful cap : Forall fc_lawful (message_lawful_codecs cap).
Proof.
  apply List.Forall_cons; [exact send_ack_lawful|].
  apply List.Forall_cons; [exact client_ack_lawful|].
  apply List.Forall_cons; [exact read_cursor_lawful|].
  apply List.Forall_cons; [exact edit_lawful|].
  apply List.Forall_cons; [exact delete_lawful|].
  apply List.Forall_cons; [exact msg_edited_lawful|].
  apply List.Forall_cons; [exact msg_deleted_lawful|].
  apply List.Forall_cons; [exact react_lawful|].
  apply List.Forall_cons; [exact reaction_updated_lawful|].
  apply List.Forall_cons; [exact pin_lawful|].
  apply List.Forall_cons; [exact pin_updated_lawful|].
  apply List.Forall_cons; [exact unfurl_lawful|].
  apply List.Forall_cons; [exact attach_media_set_lawful|].
  apply List.Forall_cons; [exact attach_media_ok_lawful|].
  apply List.Forall_cons; [exact forward_lawful|].
  apply List.Forall_cons; [exact action_lawful|].
  apply List.Forall_cons; [exact post_poll_lawful|].
  apply List.Forall_cons; [exact vote_lawful|].
  apply List.Forall_cons; [exact poll_lawful|].
  apply List.Forall_cons; [exact edit_poll_lawful|].
  apply List.Forall_cons; [exact list_poll_voters_lawful|].
  apply List.Forall_cons; [exact summarize_lawful|].
  apply List.Forall_cons; [exact summary_lawful|].
  apply List.Forall_cons; [exact summary_queued_lawful|].
  apply List.Forall_cons; [exact (summary_req_lawful OC_MSG_SUMMARY_DETACH)|].
  apply List.Forall_cons; [exact (summary_req_lawful OC_MSG_SUMMARY_CANCEL)|].
  apply List.Forall_cons; [exact summary_ready_lawful|].
  apply List.Forall_cons; [exact summary_open_lawful|].
  apply List.Forall_cons; [exact summary_dismiss_lawful|].
  apply List.Forall_cons; [exact list_pins_lawful|].
  apply List.Forall_cons; [exact pinned_msg_lawful|].
  apply List.Forall_cons; [exact pins_lawful|].
  apply List.Forall_cons; [exact list_members_lawful|].
  apply List.Forall_cons; [exact member_entry_lawful|].
  apply List.Forall_cons; [exact members_lawful|].
  apply List.Forall_cons; [exact list_files_lawful|].
  apply List.Forall_cons; [exact file_entry_lawful|].
  apply List.Forall_cons; [exact files_lawful|].
  apply List.Forall_cons; [exact list_reactions_lawful|].
  apply List.Forall_cons; [exact list_thread_lawful|].
  apply List.Forall_cons; [exact thread_lawful|].
  apply List.Forall_cons; [exact thread_meta_lawful|].
  apply List.Forall_nil.
Qed.
Definition message_complete_codecs (cap : Z) : list frame_codec :=
  [send_codec; broadcast_codec OC_MSG_BROADCAST; broadcast_codec OC_MSG_MSG_RESTORED;
   poll_voters_codec cap; mention_unresolved_codec; reactions_codec cap; send_reply_codec;
   thread_reply_codec].

Lemma message_complete cap : Forall fc_complete (message_complete_codecs cap).
Proof.
  apply List.Forall_cons; [exact send_complete|].
  apply List.Forall_cons; [exact (broadcast_complete OC_MSG_BROADCAST)|].
  apply List.Forall_cons; [exact (broadcast_complete OC_MSG_MSG_RESTORED)|].
  apply List.Forall_cons; [exact (poll_voters_complete cap)|].
  apply List.Forall_cons; [exact mention_unresolved_complete|].
  apply List.Forall_cons; [exact (reactions_complete cap)|].
  apply List.Forall_cons; [exact send_reply_complete|].
  apply List.Forall_cons; [exact thread_reply_complete|].
  apply List.Forall_nil.
Qed.
Lemma message_safe cap :
  Forall (fun c => rd_safe (fc_decode c)) (message_lawful_codecs cap ++ message_complete_codecs cap).
Proof.
  apply List.Forall_cons; [exact send_ack_safe|].
  apply List.Forall_cons; [exact client_ack_safe|].
  apply List.Forall_cons; [exact read_cursor_safe|].
  apply List.Forall_cons; [exact edit_safe|].
  apply List.Forall_cons; [exact delete_safe|].
  apply List.Forall_cons; [exact msg_edited_safe|].
  apply List.Forall_cons; [exact msg_deleted_safe|].
  apply List.Forall_cons; [exact react_safe|].
  apply List.Forall_cons; [exact reaction_updated_safe|].
  apply List.Forall_cons; [exact pin_safe|].
  apply List.Forall_cons; [exact pin_updated_safe|].
  apply List.Forall_cons; [exact unfurl_safe|].
  apply List.Forall_cons; [exact attach_media_set_safe|].
  apply List.Forall_cons; [exact attach_media_ok_safe|].
  apply List.Forall_cons; [exact forward_safe|].
  apply List.Forall_cons; [exact action_safe|].
  apply List.Forall_cons; [exact post_poll_safe|].
  apply List.Forall_cons; [exact vote_safe|].
  apply List.Forall_cons; [exact poll_safe|].
  apply List.Forall_cons; [exact edit_poll_safe|].
  apply List.Forall_cons; [exact list_poll_voters_safe|].
  apply List.Forall_cons; [exact summarize_safe|].
  apply List.Forall_cons; [exact summary_safe|].
  apply List.Forall_cons; [exact summary_queued_safe|].
  apply List.Forall_cons; [exact summary_req_safe|].
  apply List.Forall_cons; [exact summary_req_safe|].
  apply List.Forall_cons; [exact summary_ready_safe|].
  apply List.Forall_cons; [exact summary_open_safe|].
  apply List.Forall_cons; [exact summary_dismiss_safe|].
  apply List.Forall_cons; [exact list_pins_safe|].
  apply List.Forall_cons; [exact pinned_msg_safe|].
  apply List.Forall_cons; [exact pins_safe|].
  apply List.Forall_cons; [exact list_members_safe|].
  apply List.Forall_cons; [exact member_entry_safe|].
  apply List.Forall_cons; [exact members_safe|].
  apply List.Forall_cons; [exact list_files_safe|].
  apply List.Forall_cons; [exact file_entry_safe|].
  apply List.Forall_cons; [exact files_safe|].
  apply List.Forall_cons; [exact list_reactions_safe|].
  apply List.Forall_cons; [exact list_thread_safe|].
  apply List.Forall_cons; [exact thread_safe|].
  apply List.Forall_cons; [exact thread_meta_safe|].
  apply List.Forall_cons; [exact send_safe|].
  apply List.Forall_cons; [exact broadcast_safe|].
  apply List.Forall_cons; [exact broadcast_safe|].
  apply List.Forall_cons; [exact (poll_voters_safe cap)|].
  apply List.Forall_cons; [exact mention_unresolved_safe|].
  apply List.Forall_cons; [exact (reactions_safe cap)|].
  apply List.Forall_cons; [exact send_reply_safe|].
  apply List.Forall_cons; [exact thread_reply_safe|].
  apply List.Forall_nil.
Qed.

(** Requests without a payload, as the type and the encoder. *)
Definition message_bare_frames : list (oc_msg_type * (Z → encoder)) :=
  [].
