(* ===== verification/ProtoChannel.v ===== *)
(** * Frames of [shared/protocol.c]: channels, saved items, activity, webhooks, presence and schedules

    Each frame is the encoder and the decoder as the source has them, the
    [frame_codec] that pairs them, the proof of its laws, and that its decoder
    stays inside its buffer. *)
From stdpp Require Import base tactics list numbers.
From S2P Require Import Prelude Wire WireLogic WireRead WireFrame ProtoTypes.
Local Open Scope Z_scope.
Local Open Scope wire_scope.

Definition oc_encode_create_channel (version : Z) (m : oc_create_channel) : encoder :=
  frame version OC_MSG_CREATE_CHANNEL (
    oc_w_str (create_channel_name m) ;;
    oc_w_u8 (create_channel_is_public m)).

Definition oc_decode_create_channel : rd oc_create_channel :=
  name <- oc_r_str ;;
  is_public <- oc_r_u8 ;;
  r_done (mk_oc_create_channel name is_public).

Definition create_channel_codec : frame_codec :=
  FrameCodec oc_create_channel OC_MSG_CREATE_CHANNEL id oc_encode_create_channel oc_decode_create_channel wf_oc_create_channel.
Lemma create_channel_lawful : fc_lawful create_channel_codec.
Proof. lawful create_channel_codec oc_encode_create_channel oc_decode_create_channel. Qed.
Lemma create_channel_safe : rd_safe oc_decode_create_channel.
Proof. unfold oc_decode_create_channel; solve_safe. Qed.

Definition oc_encode_update_channel (version : Z) (m : oc_update_channel) : encoder :=
  frame version OC_MSG_UPDATE_CHANNEL (
    oc_w_u64 (update_channel_channel_id m) ;;
    oc_w_u8 (update_channel_op m) ;;
    oc_w_str (update_channel_value m)).

Definition oc_decode_update_channel : rd oc_update_channel :=
  channel_id <- oc_r_u64 ;;
  op <- oc_r_u8 ;;
  value <- oc_r_str ;;
  r_done (mk_oc_update_channel channel_id op value).

Definition update_channel_codec : frame_codec :=
  FrameCodec oc_update_channel OC_MSG_UPDATE_CHANNEL id oc_encode_update_channel oc_decode_update_channel wf_oc_update_channel.
Lemma update_channel_lawful : fc_lawful update_channel_codec.
Proof. lawful update_channel_codec oc_encode_update_channel oc_decode_update_channel. Qed.
Lemma update_channel_safe : rd_safe oc_decode_update_channel.
Proof. unfold oc_decode_update_channel; solve_safe. Qed.

Definition oc_encode_save_item (version : Z) (m : oc_save_item) : encoder :=
  frame version OC_MSG_SAVE_ITEM (
    oc_w_u64 (save_item_message_id m) ;;
    oc_w_u8 (save_item_op m)).

Definition oc_decode_save_item : rd oc_save_item :=
  message_id <- oc_r_u64 ;;
  op <- oc_r_u8 ;;
  r_done (mk_oc_save_item message_id op).

Definition save_item_codec : frame_codec :=
  FrameCodec oc_save_item OC_MSG_SAVE_ITEM id oc_encode_save_item oc_decode_save_item wf_oc_save_item.
Lemma save_item_lawful : fc_lawful save_item_codec.
Proof. lawful save_item_codec oc_encode_save_item oc_decode_save_item. Qed.
Lemma save_item_safe : rd_safe oc_decode_save_item.
Proof. unfold oc_decode_save_item; solve_safe. Qed.

Definition oc_encode_saved_updated (version : Z) (m : oc_saved_updated) : encoder :=
  frame version OC_MSG_SAVED_UPDATED (
    oc_w_u64 (saved_updated_message_id m) ;;
    oc_w_u8 (saved_updated_op m) ;;
    oc_w_u64 (saved_updated_saved_at m)).

Definition oc_decode_saved_updated : rd oc_saved_updated :=
  message_id <- oc_r_u64 ;;
  op <- oc_r_u8 ;;
  saved_at <- oc_r_u64 ;;
  r_done (mk_oc_saved_updated message_id op saved_at).

Definition saved_updated_codec : frame_codec :=
  FrameCodec oc_saved_updated OC_MSG_SAVED_UPDATED id oc_encode_saved_updated oc_decode_saved_updated wf_oc_saved_updated.
Lemma saved_updated_lawful : fc_lawful saved_updated_codec.
Proof. lawful saved_updated_codec oc_encode_saved_updated oc_decode_saved_updated. Qed.
Lemma saved_updated_safe : rd_safe oc_decode_saved_updated.
Proof. unfold oc_decode_saved_updated; solve_safe. Qed.

Definition oc_encode_list_saved (version : Z) : encoder :=
  frame version OC_MSG_LIST_SAVED id.

Definition oc_encode_saved_msg (version : Z) (m : oc_saved_msg) : encoder :=
  frame version OC_MSG_SAVED_MSG (
    oc_w_u64 (saved_msg_message_id m) ;;
    oc_w_u64 (saved_msg_channel_id m) ;;
    oc_w_u64 (saved_msg_author_id m) ;;
    oc_w_u64 (saved_msg_server_time m) ;;
    oc_w_u64 (saved_msg_saved_at m) ;;
    oc_w_str (saved_msg_body m) ;;
    oc_w_str (saved_msg_attach_name m) ;;
    oc_w_u8 (saved_msg_action m)).

Definition oc_decode_saved_msg : rd oc_saved_msg :=
  message_id <- oc_r_u64 ;;
  channel_id <- oc_r_u64 ;;
  author_id <- oc_r_u64 ;;
  server_time <- oc_r_u64 ;;
  saved_at <- oc_r_u64 ;;
  body <- oc_r_str ;;
  attach_name <- oc_r_str ;;
  action <- oc_r_u8 ;;
  r_done (mk_oc_saved_msg message_id channel_id author_id server_time saved_at body attach_name action).

Definition saved_msg_codec : frame_codec :=
  FrameCodec oc_saved_msg OC_MSG_SAVED_MSG id oc_encode_saved_msg oc_decode_saved_msg wf_oc_saved_msg.
Lemma saved_msg_lawful : fc_lawful saved_msg_codec.
Proof. lawful saved_msg_codec oc_encode_saved_msg oc_decode_saved_msg. Qed.
Lemma saved_msg_safe : rd_safe oc_decode_saved_msg.
Proof. unfold oc_decode_saved_msg; solve_safe. Qed.

Definition oc_encode_saved (version : Z) (m : oc_saved) : encoder :=
  frame version OC_MSG_SAVED (
    oc_w_u32 (saved_count m)).

Definition oc_decode_saved : rd oc_saved :=
  count <- oc_r_u32 ;;
  r_done (mk_oc_saved count).

Definition saved_codec : frame_codec :=
  FrameCodec oc_saved OC_MSG_SAVED id oc_encode_saved oc_decode_saved wf_oc_saved.
Lemma saved_lawful : fc_lawful saved_codec.
Proof. lawful saved_codec oc_encode_saved oc_decode_saved. Qed.
Lemma saved_safe : rd_safe oc_decode_saved.
Proof. unfold oc_decode_saved; solve_safe. Qed.

Definition encode_collapsed (version type : Z) (m : oc_set_collapsed) : encoder :=
  frame version type (
    oc_w_u64 (set_collapsed_message_id m) ;;
    oc_w_u8 (b01 (set_collapsed_on m))).
Definition oc_encode_set_collapsed (version : Z) (m : oc_set_collapsed) : encoder :=
  encode_collapsed version OC_MSG_SET_COLLAPSED m.
Definition oc_encode_collapsed_updated (version : Z) (m : oc_set_collapsed) : encoder :=
  encode_collapsed version OC_MSG_COLLAPSED_UPDATED m.

Definition oc_decode_set_collapsed : rd oc_set_collapsed :=
  message_id <- oc_r_u64 ;;
  on <- oc_r_u8 ;;
  r_done (mk_oc_set_collapsed message_id on).

Definition wf_set_collapsed (m : oc_set_collapsed) : Prop :=
  wf_oc_set_collapsed m ∧ 0 <= set_collapsed_on m <= 1.
#[export] Hint Unfold wf_set_collapsed : wf.
Definition set_collapsed_codec (type : Z) : frame_codec :=
  FrameCodec oc_set_collapsed type id (fun version => encode_collapsed version type)
    oc_decode_set_collapsed wf_set_collapsed.
Lemma set_collapsed_complete type : fc_complete (set_collapsed_codec type).
Proof. complete set_collapsed_codec encode_collapsed oc_decode_set_collapsed. Qed.
Lemma set_collapsed_safe : rd_safe oc_decode_set_collapsed.
Proof. unfold oc_decode_set_collapsed; solve_safe. Qed.

(** A request whose empty body asks the original question: the underflow is
    cleared, a default stands in, and bytes after the filter are not refused. *)
Definition r_u8_or (dflt : Z) : rd Z :=
  f <- oc_r_u8 ;;
  fun r => if r_underflow r
           then (inr dflt, mk_rbuf (r_data r) (r_len r) (r_pos r) false)
           else (inr f, r).
Lemma parses_u8_or dflt v : ParsesAll (r_u8_or dflt) (Some [v]) v.
Proof.
  intros bs [= <-] r Hr Hu Hrest. unfold r_u8_or, rbind.
  rewrite (parses_u8 v [v] eq_refl r [] Hr Hu Hrest). simpl. by rewrite Hu.
Qed.
Lemma u8_or_empty dflt : run_decode (r_u8_or dflt) [] = inr dflt.
Proof. done. Qed.
Lemma safe_u8_or dflt : rd_safe (r_u8_or dflt).
Proof.
  apply safe_bind; [apply safe_u8|]. intros f r Hr. destruct (r_underflow r); simpl;
    (split; [by destruct Hr|]; split; [done|lia]).
Qed.

Definition oc_encode_list_activity (version filter : Z) : encoder :=
  frame version OC_MSG_LIST_ACTIVITY (oc_w_u8 filter).
Definition oc_decode_list_activity : rd Z := r_u8_or OC_ACTF_INVOLVED.

Definition list_activity_codec : frame_codec :=
  FrameCodec Z OC_MSG_LIST_ACTIVITY id oc_encode_list_activity oc_decode_list_activity is_u8.
Lemma list_activity_complete : fc_complete list_activity_codec.
Proof.
  exists (fun v => Some [v]). split; [|intros v _; apply parses_u8_or].
  intros version m _. unfold list_activity_codec, oc_encode_list_activity; fc_open. solve_writes.
Qed.
Lemma list_activity_safe : rd_safe oc_decode_list_activity.
Proof. apply safe_u8_or. Qed.

Definition oc_encode_activity_entry (version : Z) (m : oc_activity_entry) : encoder :=
  frame version OC_MSG_ACTIVITY_ENTRY (
    oc_w_u8 (activity_entry_kind m) ;;
    oc_w_u64 (activity_entry_message_id m) ;;
    oc_w_u64 (activity_entry_channel_id m) ;;
    oc_w_u64 (activity_entry_actor_id m) ;;
    oc_w_u64 (activity_entry_at m) ;;
    oc_w_str (activity_entry_text m) ;;
    oc_w_u8 (activity_entry_action m)).

Definition oc_decode_activity_entry : rd oc_activity_entry :=
  kind <- oc_r_u8 ;;
  message_id <- oc_r_u64 ;;
  channel_id <- oc_r_u64 ;;
  actor_id <- oc_r_u64 ;;
  at_ <- oc_r_u64 ;;
  text <- oc_r_str ;;
  action <- oc_r_u8 ;;
  r_done (mk_oc_activity_entry kind message_id channel_id actor_id at_ text action).

Definition activity_entry_codec : frame_codec :=
  FrameCodec oc_activity_entry OC_MSG_ACTIVITY_ENTRY id oc_encode_activity_entry oc_decode_activity_entry wf_oc_activity_entry.
Lemma activity_entry_lawful : fc_lawful activity_entry_codec.
Proof. lawful activity_entry_codec oc_encode_activity_entry oc_decode_activity_entry. Qed.
Lemma activity_entry_safe : rd_safe oc_decode_activity_entry.
Proof. unfold oc_decode_activity_entry; solve_safe. Qed.

Definition oc_encode_activity (version : Z) (m : oc_activity) : encoder :=
  frame version OC_MSG_ACTIVITY (
    oc_w_u32 (activity_count m) ;;
    oc_w_u64 (activity_seen_at m)).

Definition oc_decode_activity : rd oc_activity :=
  count <- oc_r_u32 ;;
  seen_at <- oc_r_u64 ;;
  r_done (mk_oc_activity count seen_at).

Definition activity_codec : frame_codec :=
  FrameCodec oc_activity OC_MSG_ACTIVITY id oc_encode_activity oc_decode_activity wf_oc_activity.
Lemma activity_lawful : fc_lawful activity_codec.
Proof. lawful activity_codec oc_encode_activity oc_decode_activity. Qed.
Lemma activity_safe : rd_safe oc_decode_activity.
Proof. unfold oc_decode_activity; solve_safe. Qed.

Definition oc_encode_history_around (version : Z) (m : oc_history_around) : encoder :=
  frame version OC_MSG_HISTORY_AROUND (
    oc_w_u64 (history_around_channel_id m) ;;
    oc_w_u64 (history_around_message_id m) ;;
    oc_w_u16 (history_around_limit m)).

Definition oc_decode_history_around : rd oc_history_around :=
  channel_id <- oc_r_u64 ;;
  message_id <- oc_r_u64 ;;
  limit <- oc_r_u16 ;;
  r_done (mk_oc_history_around channel_id message_id limit).

Definition history_around_codec : frame_codec :=
  FrameCodec oc_history_around OC_MSG_HISTORY_AROUND id oc_encode_history_around oc_decode_history_around wf_oc_history_around.
Lemma history_around_lawful : fc_lawful history_around_codec.
Proof. lawful history_around_codec oc_encode_history_around oc_decode_history_around. Qed.
Lemma history_around_safe : rd_safe oc_decode_history_around.
Proof. unfold oc_decode_history_around; solve_safe. Qed.

Definition oc_encode_channel_info (version : Z) (m : oc_channel_info) : encoder :=
  let np := clamp (OC_MAX_GROUP_DM + 1) (channel_info_n_peers m) in
  frame version OC_MSG_CHANNEL_INFO (
    oc_w_u64 (channel_info_channel_id m) ;;
    oc_w_u8 (channel_info_kind m) ;;
    oc_w_str (channel_info_name m) ;;
    oc_w_u8 (channel_info_is_public m) ;;
    oc_w_u8 (channel_info_joined m) ;;
    oc_w_u64 (channel_info_created_at m) ;;
    oc_w_u64 (channel_info_peer_id m) ;;
    oc_w_str (channel_info_topic m) ;;
    oc_w_u8 (channel_info_archived m) ;;
    oc_w_u16 np ;;
    w_each oc_w_u64 (ztake np (channel_info_peers m)) ;;
    oc_w_u8 (channel_info_e2e m)).

Definition oc_decode_channel_info : rd oc_channel_info :=
  channel_id <- oc_r_u64 ;;
  kind <- oc_r_u8 ;;
  name <- oc_r_str ;;
  is_public <- oc_r_u8 ;;
  joined <- oc_r_u8 ;;
  created_at <- oc_r_u64 ;;
  peer_id <- oc_r_u64 ;;
  topic <- oc_r_str ;;
  archived <- oc_r_u8 ;;
  n_peers <- oc_r_u16 ;;
  _ <- r_fail_if (OC_MAX_GROUP_DM + 1 <? n_peers) ;;
  peers <- r_for (Z.to_nat n_peers) oc_r_u64 ;;
  e2e <- oc_r_u8 ;;
  r_done (mk_oc_channel_info channel_id kind name is_public joined created_at peer_id topic archived n_peers peers e2e).

Definition wf_channel_info (m : oc_channel_info) : Prop :=
  wf_oc_channel_info m ∧
  channel_info_n_peers m = zlen (channel_info_peers m) ∧
  zlen (channel_info_peers m) <= (OC_MAX_GROUP_DM + 1).
#[export] Hint Unfold wf_channel_info : wf.

Definition channel_info_codec : frame_codec :=
  FrameCodec oc_channel_info OC_MSG_CHANNEL_INFO id oc_encode_channel_info oc_decode_channel_info wf_channel_info.
Lemma channel_info_lawful : fc_lawful channel_info_codec.
Proof. lawful_with channel_info_codec oc_encode_channel_info oc_decode_channel_info is_u64. Qed.
Lemma channel_info_safe : rd_safe oc_decode_channel_info.
Proof. unfold oc_decode_channel_info; solve_safe. Qed.

Definition oc_encode_list_channels (version : Z) : encoder :=
  frame version OC_MSG_LIST_CHANNELS id.

Definition oc_decode_list_channels : rd unit := r_done tt.

Definition list_channels_codec : frame_codec :=
  FrameCodec unit OC_MSG_LIST_CHANNELS id (fun version _ => oc_encode_list_channels version) oc_decode_list_channels (fun _ => True).
Lemma list_channels_lawful : fc_lawful list_channels_codec.
Proof. lawful_empty list_channels_codec oc_encode_list_channels oc_decode_list_channels. Qed.
Lemma list_channels_safe : rd_safe oc_decode_list_channels.
Proof. unfold oc_decode_list_channels; solve_safe. Qed.

Definition oc_encode_deactivate_self (version : Z) : encoder :=
  frame version OC_MSG_DEACTIVATE_SELF id.

Definition oc_encode_storage_status_req (version : Z) : encoder :=
  frame version OC_MSG_STORAGE_STATUS_REQ id.

Definition oc_encode_channel_list (version : Z) (m : oc_channel_list) : encoder :=
  frame version OC_MSG_CHANNEL_LIST (
    oc_w_u16 (channel_list_count m) ;;
    w_each (fun x =>
      let np := clamp (OC_MAX_GROUP_DM + 1) (channel_list_entry_n_peers x) in
      oc_w_u64 (channel_list_entry_channel_id x) ;;
      oc_w_str (channel_list_entry_name x) ;;
      oc_w_u8 (channel_list_entry_is_public x) ;;
      oc_w_u8 (channel_list_entry_joined x) ;;
      oc_w_u8 (channel_list_entry_kind x) ;;
      oc_w_u64 (channel_list_entry_last_message_at x) ;;
      oc_w_u32 (channel_list_entry_unread x) ;;
      oc_w_u64 (channel_list_entry_peer_id x) ;;
      oc_w_str (channel_list_entry_topic x) ;;
      oc_w_u8 (channel_list_entry_archived x) ;;
      oc_w_u64 (channel_list_entry_created_at x) ;;
      oc_w_str (channel_list_entry_preview x) ;;
      oc_w_u64 (channel_list_entry_preview_author x) ;;
      oc_w_u8 (channel_list_entry_preview_action x) ;;
      oc_w_u16 np ;;
      w_each oc_w_u64 (ztake np (channel_list_entry_peers x)) ;;
      oc_w_u8 (channel_list_entry_e2e x)) (ztake (channel_list_count m) (channel_list_entries m))).

Definition oc_decode_channel_list (cap : Z) : rd oc_channel_list :=
  count <- oc_r_u16 ;;
  entries <- r_for_ok (Z.to_nat count) (
    id <- oc_r_u64 ;;
    name <- oc_r_str ;;
    is_public <- oc_r_u8 ;;
    joined <- oc_r_u8 ;;
    kind <- oc_r_u8 ;;
    last_at <- oc_r_u64 ;;
    unread <- oc_r_u32 ;;
    peer <- oc_r_u64 ;;
    topic <- oc_r_str ;;
    archived <- oc_r_u8 ;;
    created <- oc_r_u64 ;;
    prev <- oc_r_str ;;
    prev_a <- oc_r_u64 ;;
    prev_act <- oc_r_u8 ;;
    np <- oc_r_u16 ;;
    _ <- r_fail_if (OC_MAX_GROUP_DM + 1 <? np) ;;
    peers <- r_for (Z.to_nat np) oc_r_u64 ;;
    e2e <- oc_r_u8 ;;
    rret (mk_oc_channel_list_entry id name is_public joined kind last_at unread peer topic archived created prev prev_a prev_act np peers e2e)) ;;
  r_done (mk_oc_channel_list count (ztake cap entries)).

Definition wf_channel_entry (x : oc_channel_list_entry) : Prop :=
  wf_oc_channel_list_entry x ∧
  channel_list_entry_n_peers x = zlen (channel_list_entry_peers x) ∧
  zlen (channel_list_entry_peers x) <= OC_MAX_GROUP_DM + 1.
#[export] Hint Unfold wf_channel_entry : wf.
Definition wf_channel_list (cap : Z) (m : oc_channel_list) : Prop :=
  channel_list_count m = zlen (channel_list_entries m) ∧
  is_u16 (channel_list_count m) ∧ Forall wf_channel_entry (channel_list_entries m) ∧
  zlen (channel_list_entries m) <= cap.
#[export] Hint Unfold wf_channel_list : wf.

Definition channel_list_codec (cap : Z) : frame_codec :=
  FrameCodec oc_channel_list OC_MSG_CHANNEL_LIST id oc_encode_channel_list (oc_decode_channel_list cap) (wf_channel_list cap).
Lemma channel_list_complete cap : fc_complete (channel_list_codec cap).
Proof. complete channel_list_codec oc_encode_channel_list oc_decode_channel_list. Qed.
Lemma channel_list_safe cap : rd_safe (oc_decode_channel_list cap).
Proof. unfold oc_decode_channel_list; solve_safe. Qed.

Definition oc_encode_open_dm (version : Z) (m : oc_open_dm) : encoder :=
  frame version OC_MSG_OPEN_DM (
    oc_w_u64 (open_dm_user_id m)).

Definition oc_decode_open_dm : rd oc_open_dm :=
  user_id <- oc_r_u64 ;;
  r_done (mk_oc_open_dm user_id).

Definition open_dm_codec : frame_codec :=
  FrameCodec oc_open_dm OC_MSG_OPEN_DM id oc_encode_open_dm oc_decode_open_dm wf_oc_open_dm.
Lemma open_dm_lawful : fc_lawful open_dm_codec.
Proof. lawful open_dm_codec oc_encode_open_dm oc_decode_open_dm. Qed.
Lemma open_dm_safe : rd_safe oc_decode_open_dm.
Proof. unfold oc_decode_open_dm; solve_safe. Qed.

Definition oc_encode_create_webhook (version : Z) (m : oc_create_webhook) : encoder :=
  frame version OC_MSG_CREATE_WEBHOOK (
    oc_w_u64 (create_webhook_channel_id m) ;;
    oc_w_str (create_webhook_label m)).

Definition oc_decode_create_webhook : rd oc_create_webhook :=
  channel_id <- oc_r_u64 ;;
  label <- oc_r_str ;;
  r_done (mk_oc_create_webhook channel_id label).

Definition create_webhook_codec : frame_codec :=
  FrameCodec oc_create_webhook OC_MSG_CREATE_WEBHOOK id oc_encode_create_webhook oc_decode_create_webhook wf_oc_create_webhook.
Lemma create_webhook_lawful : fc_lawful create_webhook_codec.
Proof. lawful create_webhook_codec oc_encode_create_webhook oc_decode_create_webhook. Qed.
Lemma create_webhook_safe : rd_safe oc_decode_create_webhook.
Proof. unfold oc_decode_create_webhook; solve_safe. Qed.

Definition oc_encode_webhook_info (version : Z) (m : oc_webhook_info) : encoder :=
  frame version OC_MSG_WEBHOOK_INFO (
    oc_w_u64 (webhook_info_webhook_id m) ;;
    oc_w_u64 (webhook_info_channel_id m) ;;
    oc_w_bytes (webhook_info_token m)).

Definition oc_decode_webhook_info : rd oc_webhook_info :=
  webhook_id <- oc_r_u64 ;;
  channel_id <- oc_r_u64 ;;
  token <- oc_r_bytes ;;
  r_done (mk_oc_webhook_info webhook_id channel_id token).

Definition webhook_info_codec : frame_codec :=
  FrameCodec oc_webhook_info OC_MSG_WEBHOOK_INFO id oc_encode_webhook_info oc_decode_webhook_info wf_oc_webhook_info.
Lemma webhook_info_lawful : fc_lawful webhook_info_codec.
Proof. lawful webhook_info_codec oc_encode_webhook_info oc_decode_webhook_info. Qed.
Lemma webhook_info_safe : rd_safe oc_decode_webhook_info.
Proof. unfold oc_decode_webhook_info; solve_safe. Qed.

Definition oc_encode_list_webhooks (version : Z) (m : oc_list_webhooks) : encoder :=
  frame version OC_MSG_LIST_WEBHOOKS (
    oc_w_u64 (list_webhooks_channel_id m)).

Definition oc_decode_list_webhooks : rd oc_list_webhooks :=
  channel_id <- oc_r_u64 ;;
  r_done (mk_oc_list_webhooks channel_id).

Definition list_webhooks_codec : frame_codec :=
  FrameCodec oc_list_webhooks OC_MSG_LIST_WEBHOOKS id oc_encode_list_webhooks oc_decode_list_webhooks wf_oc_list_webhooks.
Lemma list_webhooks_lawful : fc_lawful list_webhooks_codec.
Proof. lawful list_webhooks_codec oc_encode_list_webhooks oc_decode_list_webhooks. Qed.
Lemma list_webhooks_safe : rd_safe oc_decode_list_webhooks.
Proof. unfold oc_decode_list_webhooks; solve_safe. Qed.

Definition oc_encode_webhook_list (version : Z) (m : oc_webhook_list) : encoder :=
  frame version OC_MSG_WEBHOOK_LIST (
    oc_w_u16 (webhook_list_count m) ;;
    w_each (fun x =>
      oc_w_u64 (webhook_list_entry_webhook_id x) ;;
      oc_w_u64 (webhook_list_entry_channel_id x) ;;
      oc_w_str (webhook_list_entry_label x) ;;
      oc_w_u8 (webhook_list_entry_disabled x)) (ztake (webhook_list_count m) (webhook_list_entries m))).

Definition oc_decode_webhook_list (cap : Z) : rd oc_webhook_list :=
  count <- oc_r_u16 ;;
  entries <- r_for_ok (Z.to_nat count) (
    wid <- oc_r_u64 ;;
    cid <- oc_r_u64 ;;
    label <- oc_r_str ;;
    disabled <- oc_r_u8 ;;
    rret (mk_oc_webhook_list_entry wid cid label disabled)) ;;
  r_done (mk_oc_webhook_list count (ztake cap entries)).

Definition wf_webhook_list (cap : Z) (m : oc_webhook_list) : Prop :=
  wf_oc_webhook_list m ∧
  webhook_list_count m = zlen (webhook_list_entries m) ∧
  zlen (webhook_list_entries m) <= cap.
#[export] Hint Unfold wf_webhook_list : wf.

Definition webhook_list_codec (cap : Z) : frame_codec :=
  FrameCodec oc_webhook_list OC_MSG_WEBHOOK_LIST id oc_encode_webhook_list (oc_decode_webhook_list cap) (wf_webhook_list cap).
Lemma webhook_list_complete cap : fc_complete (webhook_list_codec cap).
Proof. complete webhook_list_codec oc_encode_webhook_list oc_decode_webhook_list. Qed.
Lemma webhook_list_safe cap : rd_safe (oc_decode_webhook_list cap).
Proof. unfold oc_decode_webhook_list; solve_safe. Qed.

Definition oc_encode_delete_webhook (version : Z) (m : oc_delete_webhook) : encoder :=
  frame version OC_MSG_DELETE_WEBHOOK (
    oc_w_u64 (delete_webhook_webhook_id m)).

Definition oc_decode_delete_webhook : rd oc_delete_webhook :=
  webhook_id <- oc_r_u64 ;;
  r_done (mk_oc_delete_webhook webhook_id).

Definition delete_webhook_codec : frame_codec :=
  FrameCodec oc_delete_webhook OC_MSG_DELETE_WEBHOOK id oc_encode_delete_webhook oc_decode_delete_webhook wf_oc_delete_webhook.
Lemma delete_webhook_lawful : fc_lawful delete_webhook_codec.
Proof. lawful delete_webhook_codec oc_encode_delete_webhook oc_decode_delete_webhook. Qed.
Lemma delete_webhook_safe : rd_safe oc_decode_delete_webhook.
Proof. unfold oc_decode_delete_webhook; solve_safe. Qed.

Definition oc_encode_webhook_deleted (version : Z) (m : oc_webhook_deleted) : encoder :=
  frame version OC_MSG_WEBHOOK_DELETED (
    oc_w_u64 (webhook_deleted_webhook_id m)).

Definition oc_decode_webhook_deleted : rd oc_webhook_deleted :=
  webhook_id <- oc_r_u64 ;;
  r_done (mk_oc_webhook_deleted webhook_id).

Definition webhook_deleted_codec : frame_codec :=
  FrameCodec oc_webhook_deleted OC_MSG_WEBHOOK_DELETED id oc_encode_webhook_deleted oc_decode_webhook_deleted wf_oc_webhook_deleted.
Lemma webhook_deleted_lawful : fc_lawful webhook_deleted_codec.
Proof. lawful webhook_deleted_codec oc_encode_webhook_deleted oc_decode_webhook_deleted. Qed.
Lemma webhook_deleted_safe : rd_safe oc_decode_webhook_deleted.
Proof. unfold oc_decode_webhook_deleted; solve_safe. Qed.

Definition oc_encode_set_presence (version : Z) (m : oc_set_presence) : encoder :=
  frame version OC_MSG_SET_PRESENCE (
    oc_w_u8 (set_presence_status m)).

Definition oc_decode_set_presence : rd oc_set_presence :=
  status <- oc_r_u8 ;;
  r_done (mk_oc_set_presence status).

Definition set_presence_codec : frame_codec :=
  FrameCodec oc_set_presence OC_MSG_SET_PRESENCE id oc_encode_set_presence oc_decode_set_presence wf_oc_set_presence.
Lemma set_presence_lawful : fc_lawful set_presence_codec.
Proof. lawful set_presence_codec oc_encode_set_presence oc_decode_set_presence. Qed.
Lemma set_presence_safe : rd_safe oc_decode_set_presence.
Proof. unfold oc_decode_set_presence; solve_safe. Qed.

Definition oc_encode_presence_update (version : Z) (m : oc_presence_update) : encoder :=
  frame version OC_MSG_PRESENCE_UPDATE (
    oc_w_u64 (presence_update_user_id m) ;;
    oc_w_u8 (presence_update_status m) ;;
    oc_w_u8 (presence_update_dnd m)).

Definition oc_decode_presence_update : rd oc_presence_update :=
  user_id <- oc_r_u64 ;;
  status <- oc_r_u8 ;;
  dnd <- oc_r_u8 ;;
  r_done (mk_oc_presence_update user_id status dnd).

Definition presence_update_codec : frame_codec :=
  FrameCodec oc_presence_update OC_MSG_PRESENCE_UPDATE id oc_encode_presence_update oc_decode_presence_update wf_oc_presence_update.
Lemma presence_update_lawful : fc_lawful presence_update_codec.
Proof. lawful presence_update_codec oc_encode_presence_update oc_decode_presence_update. Qed.
Lemma presence_update_safe : rd_safe oc_decode_presence_update.
Proof. unfold oc_decode_presence_update; solve_safe. Qed.

Definition oc_encode_set_tz_offset (version : Z) (m : oc_set_tz_offset) : encoder :=
  frame version OC_MSG_SET_TZ_OFFSET (
    oc_w_u16 (u16 (set_tz_offset_tz_offset_min m))).

Definition oc_decode_set_tz_offset : rd oc_set_tz_offset :=
  tz_offset_min <- oc_r_i16 ;;
  r_done (mk_oc_set_tz_offset tz_offset_min).


Definition set_tz_offset_codec : frame_codec :=
  FrameCodec oc_set_tz_offset OC_MSG_SET_TZ_OFFSET id oc_encode_set_tz_offset oc_decode_set_tz_offset wf_oc_set_tz_offset.
Lemma set_tz_offset_lawful : fc_lawful set_tz_offset_codec.
Proof. lawful_with set_tz_offset_codec oc_encode_set_tz_offset oc_decode_set_tz_offset (fun _ : Z => True). Qed.
Lemma set_tz_offset_safe : rd_safe oc_decode_set_tz_offset.
Proof. unfold oc_decode_set_tz_offset; solve_safe. Qed.

Definition oc_encode_set_snooze (version : Z) (m : oc_set_snooze) : encoder :=
  frame version OC_MSG_SET_SNOOZE (
    oc_w_u32 (set_snooze_minutes m)).

Definition oc_decode_set_snooze : rd oc_set_snooze :=
  minutes <- oc_r_u32 ;;
  r_done (mk_oc_set_snooze minutes).

Definition set_snooze_codec : frame_codec :=
  FrameCodec oc_set_snooze OC_MSG_SET_SNOOZE id oc_encode_set_snooze oc_decode_set_snooze wf_oc_set_snooze.
Lemma set_snooze_lawful : fc_lawful set_snooze_codec.
Proof. lawful set_snooze_codec oc_encode_set_snooze oc_decode_set_snooze. Qed.
Lemma set_snooze_safe : rd_safe oc_decode_set_snooze.
Proof. unfold oc_decode_set_snooze; solve_safe. Qed.

Definition oc_encode_snooze (version : Z) (m : oc_snooze) : encoder :=
  frame version OC_MSG_SNOOZE (
    oc_w_u64 (snooze_until_ms m)).

Definition oc_decode_snooze : rd oc_snooze :=
  until_ms <- oc_r_u64 ;;
  r_done (mk_oc_snooze until_ms).

Definition snooze_codec : frame_codec :=
  FrameCodec oc_snooze OC_MSG_SNOOZE id oc_encode_snooze oc_decode_snooze wf_oc_snooze.
Lemma snooze_lawful : fc_lawful snooze_codec.
Proof. lawful snooze_codec oc_encode_snooze oc_decode_snooze. Qed.
Lemma snooze_safe : rd_safe oc_decode_snooze.
Proof. unfold oc_decode_snooze; solve_safe. Qed.

Definition enc_schedule (version : Z) (type : Z) (m : oc_schedule) : encoder :=
  let n := clamp OC_SCHEDULE_DAYS (schedule_count m) in
  frame version type (
    oc_w_u8 (schedule_mode m) ;;
    oc_w_u16 (u16 (schedule_tz_offset_min m)) ;;
    oc_w_u16 (schedule_start_min m) ;;
    oc_w_u16 (schedule_end_min m) ;;
    oc_w_u8 n ;;
    w_each (fun x =>
      oc_w_u8 (schedule_day_weekday x) ;;
      oc_w_u8 (schedule_day_enabled x) ;;
      oc_w_u16 (schedule_day_start_min x) ;;
      oc_w_u16 (schedule_day_end_min x)) (ztake n (schedule_days m))).

Definition oc_encode_set_schedule (version : Z) (m : oc_schedule) : encoder :=
  enc_schedule version OC_MSG_SET_SCHEDULE m.
Definition oc_encode_schedule (version : Z) (m : oc_schedule) : encoder :=
  enc_schedule version OC_MSG_SCHEDULE m.

Definition oc_decode_schedule : rd oc_schedule :=
  mode <- oc_r_u8 ;;
  tz_offset_min <- oc_r_i16 ;;
  start_min <- oc_r_u16 ;;
  end_min <- oc_r_u16 ;;
  n <- oc_r_u8 ;;
  _ <- r_fail_if (OC_SCHEDULE_DAYS <? n) ;;
  days <- r_for_ok (Z.to_nat n) (
    weekday <- oc_r_u8 ;;
    enabled <- oc_r_u8 ;;
    start_min <- oc_r_u16 ;;
    end_min <- oc_r_u16 ;;
    rret (mk_oc_schedule_day weekday enabled start_min end_min)) ;;
  r_done (mk_oc_schedule mode tz_offset_min start_min end_min n days).

Definition wf_schedule (m : oc_schedule) : Prop :=
  wf_oc_schedule m ∧
  schedule_count m = zlen (schedule_days m) ∧
  zlen (schedule_days m) <= OC_SCHEDULE_DAYS.
#[export] Hint Unfold wf_schedule : wf.

Definition schedule_codec (type : Z) : frame_codec :=
  FrameCodec oc_schedule type id (fun version => enc_schedule version type) oc_decode_schedule wf_schedule.
Lemma schedule_lawful type : fc_lawful (schedule_codec type).
Proof. lawful_with schedule_codec enc_schedule oc_decode_schedule wf_oc_schedule_day. Qed.
Lemma schedule_safe : rd_safe oc_decode_schedule.
Proof. unfold oc_decode_schedule; solve_safe. Qed.

Definition oc_encode_set_keywords (version : Z) (m : oc_set_keywords) : encoder :=
  let n := clamp OC_MAX_KEYWORDS (set_keywords_count m) in
  frame version OC_MSG_SET_KEYWORDS (
    oc_w_u8 n ;;
    w_each oc_w_str (ztake n (set_keywords_terms m))).

Definition oc_decode_set_keywords (cap : Z) : rd oc_set_keywords :=
  n <- oc_r_u8 ;;
  terms <- r_for_ok (Z.to_nat n) oc_r_str ;;
  r_done (mk_oc_set_keywords (clamp cap n) (ztake cap terms)).

Definition wf_set_keywords (cap : Z) (m : oc_set_keywords) : Prop :=
  wf_oc_set_keywords m ∧
  set_keywords_count m = zlen (set_keywords_terms m) ∧
  zlen (set_keywords_terms m) <= OC_MAX_KEYWORDS ∧
  zlen (set_keywords_terms m) <= cap.
#[export] Hint Unfold wf_set_keywords : wf.

Definition set_keywords_codec (cap : Z) : frame_codec :=
  FrameCodec oc_set_keywords OC_MSG_SET_KEYWORDS id oc_encode_set_keywords (oc_decode_set_keywords cap) (wf_set_keywords cap).
Lemma set_keywords_complete cap : fc_complete (set_keywords_codec cap).
Proof. complete set_keywords_codec oc_encode_set_keywords oc_decode_set_keywords. Qed.
Lemma set_keywords_safe cap : rd_safe (oc_decode_set_keywords cap).
Proof. unfold oc_decode_set_keywords; solve_safe. Qed.

Definition oc_encode_set_priority (version : Z) (m : oc_set_priority) : encoder :=
  let n := clamp OC_MAX_PRIORITY (set_priority_count m) in
  frame version OC_MSG_SET_PRIORITY (
    oc_w_u8 n ;;
    w_each oc_w_u64 (ztake n (set_priority_people m))).

Definition oc_decode_set_priority (cap : Z) : rd oc_set_priority :=
  n <- oc_r_u8 ;;
  people <- r_for_ok (Z.to_nat n) oc_r_u64 ;;
  r_done (mk_oc_set_priority (clamp cap n) (ztake cap people)).

Definition wf_set_priority (cap : Z) (m : oc_set_priority) : Prop :=
  wf_oc_set_priority m ∧
  set_priority_count m = zlen (set_priority_people m) ∧
  zlen (set_priority_people m) <= OC_MAX_PRIORITY ∧
  zlen (set_priority_people m) <= cap.
#[export] Hint Unfold wf_set_priority : wf.

Definition set_priority_codec (cap : Z) : frame_codec :=
  FrameCodec oc_set_priority OC_MSG_SET_PRIORITY id oc_encode_set_priority (oc_decode_set_priority cap) (wf_set_priority cap).
Lemma set_priority_complete cap : fc_complete (set_priority_codec cap).
Proof. complete set_priority_codec oc_encode_set_priority oc_decode_set_priority. Qed.
Lemma set_priority_safe cap : rd_safe (oc_decode_set_priority cap).
Proof. unfold oc_decode_set_priority; solve_safe. Qed.

Definition oc_encode_alert_prefs (version : Z) (m : oc_alert_prefs) : encoder :=
  let nt := clamp OC_MAX_KEYWORDS (alert_prefs_n_terms m) in
  let np := clamp OC_MAX_PRIORITY (alert_prefs_n_people m) in
  frame version OC_MSG_ALERT_PREFS (
    oc_w_u8 nt ;;
    w_each oc_w_str (ztake nt (alert_prefs_terms m)) ;;
    oc_w_u8 np ;;
    w_each oc_w_u64 (ztake np (alert_prefs_people m))).

Definition oc_decode_alert_prefs (tcap : Z) (pcap : Z) : rd oc_alert_prefs :=
  nt <- oc_r_u8 ;;
  terms <- r_for_ok (Z.to_nat nt) oc_r_str ;;
  np <- oc_r_u8 ;;
  people <- r_for_ok (Z.to_nat np) oc_r_u64 ;;
  r_done (mk_oc_alert_prefs (clamp tcap nt) (ztake tcap terms) (clamp pcap np) (ztake pcap people)).

Definition wf_alert_prefs (tcap : Z) (pcap : Z) (m : oc_alert_prefs) : Prop :=
  wf_oc_alert_prefs m ∧
  alert_prefs_n_terms m = zlen (alert_prefs_terms m) ∧
  zlen (alert_prefs_terms m) <= OC_MAX_KEYWORDS ∧
  alert_prefs_n_people m = zlen (alert_prefs_people m) ∧
  zlen (alert_prefs_people m) <= OC_MAX_PRIORITY ∧
  zlen (alert_prefs_terms m) <= tcap ∧
  zlen (alert_prefs_people m) <= pcap.
#[export] Hint Unfold wf_alert_prefs : wf.

Definition alert_prefs_codec (tcap : Z) (pcap : Z) : frame_codec :=
  FrameCodec oc_alert_prefs OC_MSG_ALERT_PREFS id oc_encode_alert_prefs (oc_decode_alert_prefs tcap pcap) (wf_alert_prefs tcap pcap).
Lemma alert_prefs_complete tcap pcap : fc_complete (alert_prefs_codec tcap pcap).
Proof. complete alert_prefs_codec oc_encode_alert_prefs oc_decode_alert_prefs. Qed.
Lemma alert_prefs_safe tcap pcap : rd_safe (oc_decode_alert_prefs tcap pcap).
Proof. unfold oc_decode_alert_prefs; solve_safe. Qed.

(** ** The frames of this file

    [cap] is the length of the array a decoder is given, where it takes one. *)

Definition channel_lawful_codecs (cap : Z) : list frame_codec :=
  [create_channel_codec; update_channel_codec; save_item_codec; saved_updated_codec;
   saved_msg_codec; saved_codec; activity_entry_codec; activity_codec; history_around_codec;
   channel_info_codec; list_channels_codec; open_dm_codec; create_webhook_codec;
   webhook_info_codec; list_webhooks_codec; delete_webhook_codec; webhook_deleted_codec;
   set_presence_codec; presence_update_codec; set_tz_offset_codec; set_snooze_codec;
   snooze_codec; schedule_codec OC_MSG_SET_SCHEDULE; schedule_codec OC_MSG_SCHEDULE].

Lemma channel_lawful cap : Forall fc_lawful (channel_lawful_codecs cap).
Proof.
  apply List.Forall_cons; [exact create_channel_lawful|].
  apply List.Forall_cons; [exact update_channel_lawful|].
  apply List.Forall_cons; [exact save_item_lawful|].
  apply List.Forall_cons; [exact saved_updated_lawful|].
  apply List.Forall_cons; [exact saved_msg_lawful|].
  apply List.Forall_cons; [exact saved_lawful|].
  apply List.Forall_cons; [exact activity_entry_lawful|].
  apply List.Forall_cons; [exact activity_lawful|].
  apply List.Forall_cons; [exact history_around_lawful|].
  apply List.Forall_cons; [exact channel_info_lawful|].
  apply List.Forall_cons; [exact list_channels_lawful|].
  apply List.Forall_cons; [exact open_dm_lawful|].
  apply List.Forall_cons; [exact create_webhook_lawful|].
  apply List.Forall_cons; [exact webhook_info_lawful|].
  apply List.Forall_cons; [exact list_webhooks_lawful|].
  apply List.Forall_cons; [exact delete_webhook_lawful|].
  apply List.Forall_cons; [exact webhook_deleted_lawful|].
  apply List.Forall_cons; [exact set_presence_lawful|].
  apply List.Forall_cons; [exact presence_update_lawful|].
  apply List.Forall_cons; [exact set_tz_offset_lawful|].
  apply List.Forall_cons; [exact set_snooze_lawful|].
  apply List.Forall_cons; [exact snooze_lawful|].
  apply List.Forall_cons; [exact (schedule_lawful OC_MSG_SET_SCHEDULE)|].
  apply List.Forall_cons; [exact (schedule_lawful OC_MSG_SCHEDULE)|].
  apply List.Forall_nil.
Qed.
Definition channel_complete_codecs (cap : Z) : list frame_codec :=
  [set_collapsed_codec OC_MSG_SET_COLLAPSED; set_collapsed_codec OC_MSG_COLLAPSED_UPDATED;
   list_activity_codec; channel_list_codec cap; webhook_list_codec cap;
   set_keywords_codec cap; set_priority_codec cap; alert_prefs_codec cap cap].

Lemma channel_complete cap : Forall fc_complete (channel_complete_codecs cap).
Proof.
  apply List.Forall_cons; [exact (set_collapsed_complete OC_MSG_SET_COLLAPSED)|].
  apply List.Forall_cons; [exact (set_collapsed_complete OC_MSG_COLLAPSED_UPDATED)|].
  apply List.Forall_cons; [exact list_activity_complete|].
  apply List.Forall_cons; [exact (channel_list_complete cap)|].
  apply List.Forall_cons; [exact (webhook_list_complete cap)|].
  apply List.Forall_cons; [exact (set_keywords_complete cap)|].
  apply List.Forall_cons; [exact (set_priority_complete cap)|].
  apply List.Forall_cons; [exact (alert_prefs_complete cap cap)|].
  apply List.Forall_nil.
Qed.
Lemma channel_safe cap :
  Forall (fun c => rd_safe (fc_decode c)) (channel_lawful_codecs cap ++ channel_complete_codecs cap).
Proof.
  apply List.Forall_cons; [exact create_channel_safe|].
  apply List.Forall_cons; [exact update_channel_safe|].
  apply List.Forall_cons; [exact save_item_safe|].
  apply List.Forall_cons; [exact saved_updated_safe|].
  apply List.Forall_cons; [exact saved_msg_safe|].
  apply List.Forall_cons; [exact saved_safe|].
  apply List.Forall_cons; [exact activity_entry_safe|].
  apply List.Forall_cons; [exact activity_safe|].
  apply List.Forall_cons; [exact history_around_safe|].
  apply List.Forall_cons; [exact channel_info_safe|].
  apply List.Forall_cons; [exact list_channels_safe|].
  apply List.Forall_cons; [exact open_dm_safe|].
  apply List.Forall_cons; [exact create_webhook_safe|].
  apply List.Forall_cons; [exact webhook_info_safe|].
  apply List.Forall_cons; [exact list_webhooks_safe|].
  apply List.Forall_cons; [exact delete_webhook_safe|].
  apply List.Forall_cons; [exact webhook_deleted_safe|].
  apply List.Forall_cons; [exact set_presence_safe|].
  apply List.Forall_cons; [exact presence_update_safe|].
  apply List.Forall_cons; [exact set_tz_offset_safe|].
  apply List.Forall_cons; [exact set_snooze_safe|].
  apply List.Forall_cons; [exact snooze_safe|].
  apply List.Forall_cons; [exact schedule_safe|].
  apply List.Forall_cons; [exact schedule_safe|].
  apply List.Forall_cons; [exact set_collapsed_safe|].
  apply List.Forall_cons; [exact set_collapsed_safe|].
  apply List.Forall_cons; [exact list_activity_safe|].
  apply List.Forall_cons; [exact (channel_list_safe cap)|].
  apply List.Forall_cons; [exact (webhook_list_safe cap)|].
  apply List.Forall_cons; [exact (set_keywords_safe cap)|].
  apply List.Forall_cons; [exact (set_priority_safe cap)|].
  apply List.Forall_cons; [exact (alert_prefs_safe cap cap)|].
  apply List.Forall_nil.
Qed.

(** Requests without a payload, as the type and the encoder. *)
Definition channel_bare_frames : list (oc_msg_type * (Z → encoder)) :=
  [(OC_MSG_LIST_SAVED, oc_encode_list_saved);
   (OC_MSG_DEACTIVATE_SELF, oc_encode_deactivate_self);
   (OC_MSG_STORAGE_STATUS_REQ, oc_encode_storage_status_req)].
