(* ===== verification/ProtoPrefs.v ===== *)
(** * Frames of [shared/protocol.c]: threads view, notification preferences, drafts, settings, audit

    Each frame is the encoder and the decoder as the source has them, the
    [frame_codec] that pairs them, the proof of its laws, and that its decoder
    stays inside its buffer. *)
From stdpp Require Import base tactics list numbers.
From S2P Require Import Prelude Wire WireLogic WireRead WireFrame ProtoTypes ProtoChannel.
Local Open Scope Z_scope.
Local Open Scope wire_scope.

Definition oc_encode_list_threads (version : Z) (m : oc_list_threads) : encoder :=
  frame version OC_MSG_LIST_THREADS (oc_w_u8 (list_threads_filter m)).
(** As [oc_decode_list_activity]: an empty body stands for the default filter. *)
Definition oc_decode_list_threads : rd oc_list_threads := fun r =>
  match r_u8_or OC_THREADF_ALL r with
  | (inr f, r) => (inr (mk_oc_list_threads f), r)
  | (inl e, r) => (inl e, r)
  end.

Definition list_threads_codec : frame_codec :=
  FrameCodec oc_list_threads OC_MSG_LIST_THREADS id oc_encode_list_threads oc_decode_list_threads
    wf_oc_list_threads.
Lemma list_threads_complete : fc_complete list_threads_codec.
Proof.
  exists (fun m : oc_list_threads => Some [list_threads_filter m]). split.
  - intros version m _. unfold list_threads_codec, oc_encode_list_threads; fc_open. solve_writes.
  - intros [f] _ bs Hbs r Hr Hu Hrest. unfold list_threads_codec, oc_decode_list_threads; fc_open.
    by rewrite (parses_u8_or OC_THREADF_ALL f bs Hbs r Hr Hu Hrest).
Qed.
Lemma list_threads_safe : rd_safe oc_decode_list_threads.
Proof.
  intros r Hr. unfold oc_decode_list_threads. pose proof (safe_u8_or OC_THREADF_ALL r Hr) as H.
  by destruct (r_u8_or OC_THREADF_ALL r) as [[e|f] r'].
Qed.

Definition oc_encode_thread_summary (version : Z) (m : oc_thread_summary) : encoder :=
  frame version OC_MSG_THREAD_SUMMARY (
    oc_w_u64 (thread_summary_root_id m) ;;
    oc_w_u64 (thread_summary_channel_id m) ;;
    oc_w_u64 (thread_summary_root_author m) ;;
    oc_w_u64 (thread_summary_root_at m) ;;
    oc_w_u64 (thread_summary_last_reply_at m) ;;
    oc_w_u32 (thread_summary_reply_count m) ;;
    oc_w_u32 (thread_summary_unread m) ;;
    oc_w_u8 (thread_summary_following m) ;;
    oc_w_str (thread_summary_preview m) ;;
    oc_w_u8 (thread_summary_action m)).

Definition oc_decode_thread_summary : rd oc_thread_summary :=
  root_id <- oc_r_u64 ;;
  channel_id <- oc_r_u64 ;;
  root_author <- oc_r_u64 ;;
  root_at <- oc_r_u64 ;;
  last_reply_at <- oc_r_u64 ;;
  reply_count <- oc_r_u32 ;;
  unread <- oc_r_u32 ;;
  following <- oc_r_u8 ;;
  preview <- oc_r_str ;;
  action <- oc_r_u8 ;;
  r_done (mk_oc_thread_summary root_id channel_id root_author root_at last_reply_at reply_count unread following preview action).

Definition thread_summary_codec : frame_codec :=
  FrameCodec oc_thread_summary OC_MSG_THREAD_SUMMARY id oc_encode_thread_summary oc_decode_thread_summary wf_oc_thread_summary.
Lemma thread_summary_lawful : fc_lawful thread_summary_codec.
Proof. lawful thread_summary_codec oc_encode_thread_summary oc_decode_thread_summary. Qed.
Lemma thread_summary_safe : rd_safe oc_decode_thread_summary.
Proof. unfold oc_decode_thread_summary; solve_safe. Qed.

Definition oc_encode_threads (version : Z) (m : oc_threads) : encoder :=
  frame version OC_MSG_THREADS (
    oc_w_u32 (threads_count m)).

Definition oc_decode_threads : rd oc_threads :=
  count <- oc_r_u32 ;;
  r_done (mk_oc_threads count).

Definition threads_codec : frame_codec :=
  FrameCodec oc_threads OC_MSG_THREADS id oc_encode_threads oc_decode_threads wf_oc_threads.
Lemma threads_lawful : fc_lawful threads_codec.
Proof. lawful threads_codec oc_encode_threads oc_decode_threads. Qed.
Lemma threads_safe : rd_safe oc_decode_threads.
Proof. unfold oc_decode_threads; solve_safe. Qed.

Definition oc_encode_set_thread_follow (version : Z) (m : oc_set_thread_follow) : encoder :=
  frame version OC_MSG_SET_THREAD_FOLLOW (
    oc_w_u64 (set_thread_follow_root_id m) ;;
    oc_w_u64 (set_thread_follow_channel_id m) ;;
    oc_w_u8 (set_thread_follow_on m)).

Definition oc_decode_set_thread_follow : rd oc_set_thread_follow :=
  root_id <- oc_r_u64 ;;
  channel_id <- oc_r_u64 ;;
  on <- oc_r_u8 ;;
  r_done (mk_oc_set_thread_follow root_id channel_id on).

Definition set_thread_follow_codec : frame_codec :=
  FrameCodec oc_set_thread_follow OC_MSG_SET_THREAD_FOLLOW id oc_encode_set_thread_follow oc_decode_set_thread_follow wf_oc_set_thread_follow.
Lemma set_thread_follow_lawful : fc_lawful set_thread_follow_codec.
Proof. lawful set_thread_follow_codec oc_encode_set_thread_follow oc_decode_set_thread_follow. Qed.
Lemma set_thread_follow_safe : rd_safe oc_decode_set_thread_follow.
Proof. unfold oc_decode_set_thread_follow; solve_safe. Qed.

Definition oc_encode_mark_thread_read (version : Z) (m : oc_mark_thread_read) : encoder :=
  frame version OC_MSG_MARK_THREAD_READ (
    oc_w_u64 (mark_thread_read_root_id m) ;;
    oc_w_u64 (mark_thread_read_up_to m)).

Definition oc_decode_mark_thread_read : rd oc_mark_thread_read :=
  root_id <- oc_r_u64 ;;
  up_to <- oc_r_u64 ;;
  r_done (mk_oc_mark_thread_read root_id up_to).

Definition mark_thread_read_codec : frame_codec :=
  FrameCodec oc_mark_thread_read OC_MSG_MARK_THREAD_READ id oc_encode_mark_thread_read oc_decode_mark_thread_read wf_oc_mark_thread_read.
Lemma mark_thread_read_lawful : fc_lawful mark_thread_read_codec.
Proof. lawful mark_thread_read_codec oc_encode_mark_thread_read oc_decode_mark_thread_read. Qed.
Lemma mark_thread_read_safe : rd_safe oc_decode_mark_thread_read.
Proof. unfold oc_decode_mark_thread_read; solve_safe. Qed.

Definition oc_encode_typing (version : Z) (m : oc_typing) : encoder :=
  frame version OC_MSG_TYPING (
    oc_w_u64 (typing_channel_id m)).

Definition oc_decode_typing : rd oc_typing :=
  channel_id <- oc_r_u64 ;;
  r_done (mk_oc_typing channel_id).

Definition typing_codec : frame_codec :=
  FrameCodec oc_typing OC_MSG_TYPING id oc_encode_typing oc_decode_typing wf_oc_typing.
Lemma typing_lawful : fc_lawful typing_codec.
Proof. lawful typing_codec oc_encode_typing oc_decode_typing. Qed.
Lemma typing_safe : rd_safe oc_decode_typing.
Proof. unfold oc_decode_typing; solve_safe. Qed.

Definition oc_encode_typing_update (version : Z) (m : oc_typing_update) : encoder :=
  frame version OC_MSG_TYPING_UPDATE (
    oc_w_u64 (typing_update_channel_id m) ;;
    oc_w_u64 (typing_update_user_id m)).

Definition oc_decode_typing_update : rd oc_typing_update :=
  channel_id <- oc_r_u64 ;;
  user_id <- oc_r_u64 ;;
  r_done (mk_oc_typing_update channel_id user_id).

Definition typing_update_codec : frame_codec :=
  FrameCodec oc_typing_update OC_MSG_TYPING_UPDATE id oc_encode_typing_update oc_decode_typing_update wf_oc_typing_update.
Lemma typing_update_lawful : fc_lawful typing_update_codec.
Proof. lawful typing_update_codec oc_encode_typing_update oc_decode_typing_update. Qed.
Lemma typing_update_safe : rd_safe oc_decode_typing_update.
Proof. unfold oc_decode_typing_update; solve_safe. Qed.

Definition oc_encode_set_notify_pref (version : Z) (m : oc_set_notify_pref) : encoder :=
  frame version OC_MSG_SET_NOTIFY_PREF (
    oc_w_u64 (set_notify_pref_channel_id m) ;;
    oc_w_u8 (set_notify_pref_level m)).

Definition oc_decode_set_notify_pref : rd oc_set_notify_pref :=
  channel_id <- oc_r_u64 ;;
  level <- oc_r_u8 ;;
  r_done (mk_oc_set_notify_pref channel_id level).

Definition set_notify_pref_codec : frame_codec :=
  FrameCodec oc_set_notify_pref OC_MSG_SET_NOTIFY_PREF id oc_encode_set_notify_pref oc_decode_set_notify_pref wf_oc_set_notify_pref.
Lemma set_notify_pref_lawful : fc_lawful set_notify_pref_codec.
Proof. lawful set_notify_pref_codec oc_encode_set_notify_pref oc_decode_set_notify_pref. Qed.
Lemma set_notify_pref_safe : rd_safe oc_decode_set_notify_pref.
Proof. unfold oc_decode_set_notify_pref; solve_safe. Qed.

Definition oc_encode_list_notify_prefs (version : Z) : encoder :=
  frame version OC_MSG_LIST_NOTIFY_PREFS id.

Definition oc_decode_list_notify_prefs : rd unit := r_done tt.

Definition list_notify_prefs_codec : frame_codec :=
  FrameCodec unit OC_MSG_LIST_NOTIFY_PREFS id (fun version _ => oc_encode_list_notify_prefs version) oc_decode_list_notify_prefs (fun _ => True).
Lemma list_notify_prefs_lawful : fc_lawful list_notify_prefs_codec.
Proof. lawful_empty list_notify_prefs_codec oc_encode_list_notify_prefs oc_decode_list_notify_prefs. Qed.
Lemma list_notify_prefs_safe : rd_safe oc_decode_list_notify_prefs.
Proof. unfold oc_decode_list_notify_prefs; solve_safe. Qed.

Definition oc_encode_notify_prefs (version : Z) (m : oc_notify_prefs) : encoder :=
  frame version OC_MSG_NOTIFY_PREFS (
    oc_w_u8 (notify_prefs_notify_default m) ;;
    oc_w_u16 (notify_prefs_count m) ;;
    w_each (fun x =>
      oc_w_u64 (notify_pref_entry_channel_id x) ;;
      oc_w_u8 (notify_pref_entry_level x) ;;
      oc_w_u8 (notify_pref_entry_muted x)) (ztake (notify_prefs_count m) (notify_prefs_entries m))).

Definition oc_decode_notify_prefs (cap : Z) : rd oc_notify_prefs :=
  dflt <- oc_r_u8 ;;
  count <- oc_r_u16 ;;
  entries <- r_for_ok (Z.to_nat count) (
    cid <- oc_r_u64 ;;
    level <- oc_r_u8 ;;
    muted <- oc_r_u8 ;;
    rret (mk_oc_notify_pref_entry cid level muted)) ;;
  r_done (mk_oc_notify_prefs dflt count (ztake cap entries)).

Definition wf_notify_prefs (cap : Z) (m : oc_notify_prefs) : Prop :=
  wf_oc_notify_prefs m ∧
  notify_prefs_count m = zlen (notify_prefs_entries m) ∧
  zlen (notify_prefs_entries m) <= cap.
#[export] Hint Unfold wf_notify_prefs : wf.

Definition notify_prefs_codec (cap : Z) : frame_codec :=
  FrameCodec oc_notify_prefs OC_MSG_NOTIFY_PREFS id oc_encode_notify_prefs (oc_decode_notify_prefs cap) (wf_notify_prefs cap).
Lemma notify_prefs_complete cap : fc_complete (notify_prefs_codec cap).
Proof. complete notify_prefs_codec oc_encode_notify_prefs oc_decode_notify_prefs. Qed.
Lemma notify_prefs_safe cap : rd_safe (oc_decode_notify_prefs cap).
Proof. unfold oc_decode_notify_prefs; solve_safe. Qed.

Definition oc_encode_register_device_token (version : Z) (m : oc_register_device_token) : encoder :=
  frame version OC_MSG_REGISTER_DEVICE_TOKEN (
    oc_w_u8 (register_device_token_platform m) ;;
    oc_w_str (register_device_token_token m)).

Definition oc_decode_register_device_token : rd oc_register_device_token :=
  platform <- oc_r_u8 ;;
  token <- oc_r_str ;;
  r_done (mk_oc_register_device_token platform token).

Definition register_device_token_codec : frame_codec :=
  FrameCodec oc_register_device_token OC_MSG_REGISTER_DEVICE_TOKEN id oc_encode_register_device_token oc_decode_register_device_token wf_oc_register_device_token.
Lemma register_device_token_lawful : fc_lawful register_device_token_codec.
Proof. lawful register_device_token_codec oc_encode_register_device_token oc_decode_register_device_token. Qed.
Lemma register_device_token_safe : rd_safe oc_decode_register_device_token.
Proof. unfold oc_decode_register_device_token; solve_safe. Qed.

Definition oc_encode_unregister_device_token (version : Z) (token : oc_slice) : encoder :=
  frame version OC_MSG_UNREGISTER_DEVICE_TOKEN (oc_w_str token).
Definition oc_decode_unregister_device_token : rd oc_slice :=
  token <- oc_r_str ;; r_done token.

Definition unregister_device_token_codec : frame_codec :=
  FrameCodec (list Z) OC_MSG_UNREGISTER_DEVICE_TOKEN id oc_encode_unregister_device_token
    oc_decode_unregister_device_token is_bytes.
Lemma unregister_device_token_lawful : fc_lawful unregister_device_token_codec.
Proof.
  exists str_bytes. unfold unregister_device_token_codec; fc_open; split; [|split].
  - law_encodes oc_encode_unregister_device_token.
  - intros m _. unfold oc_decode_unregister_device_token. apply (parses_all_last _ id), parses_str.
  - law_done oc_decode_unregister_device_token (fun _ : Z => True).
Qed.
Lemma unregister_device_token_safe : rd_safe oc_decode_unregister_device_token.
Proof. unfold oc_decode_unregister_device_token; solve_safe. Qed.

Definition oc_encode_device_token_ack (version : Z) (m : oc_device_token_ack) : encoder :=
  frame version OC_MSG_DEVICE_TOKEN_ACK (
    oc_w_u8 (device_token_ack_ok m) ;;
    oc_w_u16 (device_token_ack_code m)).

Definition oc_decode_device_token_ack : rd oc_device_token_ack :=
  ok <- oc_r_u8 ;;
  code <- oc_r_u16 ;;
  r_done (mk_oc_device_token_ack ok code).

Definition device_token_ack_codec : frame_codec :=
  FrameCodec oc_device_token_ack OC_MSG_DEVICE_TOKEN_ACK id oc_encode_device_token_ack oc_decode_device_token_ack wf_oc_device_token_ack.
Lemma device_token_ack_lawful : fc_lawful device_token_ack_codec.
Proof. lawful device_token_ack_codec oc_encode_device_token_ack oc_decode_device_token_ack. Qed.
Lemma device_token_ack_safe : rd_safe oc_decode_device_token_ack.
Proof. unfold oc_decode_device_token_ack; solve_safe. Qed.

Definition oc_encode_set_draft (version : Z) (m : oc_set_draft) : encoder :=
  frame version OC_MSG_SET_DRAFT (
    oc_w_u64 (set_draft_channel_id m) ;;
    oc_w_u64 (set_draft_thread_root m) ;;
    oc_w_str (set_draft_recipients m) ;;
    oc_w_str (set_draft_body m)).

Definition oc_decode_set_draft : rd oc_set_draft :=
  channel_id <- oc_r_u64 ;;
  thread_root <- oc_r_u64 ;;
  recipients <- oc_r_str ;;
  body <- oc_r_str ;;
  r_done (mk_oc_set_draft channel_id thread_root recipients body).

Definition set_draft_codec : frame_codec :=
  FrameCodec oc_set_draft OC_MSG_SET_DRAFT id oc_encode_set_draft oc_decode_set_draft wf_oc_set_draft.
Lemma set_draft_lawful : fc_lawful set_draft_codec.
Proof. lawful set_draft_codec oc_encode_set_draft oc_decode_set_draft. Qed.
Lemma set_draft_safe : rd_safe oc_decode_set_draft.
Proof. unfold oc_decode_set_draft; solve_safe. Qed.

Definition oc_encode_list_drafts (version : Z) : encoder :=
  frame version OC_MSG_LIST_DRAFTS id.

Definition oc_encode_draft (version : Z) (m : oc_draft) : encoder :=
  frame version OC_MSG_DRAFT (
    oc_w_u64 (draft_id m) ;;
    oc_w_u64 (draft_channel_id m) ;;
    oc_w_u64 (draft_thread_root m) ;;
    oc_w_u64 (draft_updated_ms m) ;;
    oc_w_str (draft_recipients m) ;;
    oc_w_str (draft_body m)).

Definition oc_decode_draft : rd oc_draft :=
  id <- oc_r_u64 ;;
  channel_id <- oc_r_u64 ;;
  thread_root <- oc_r_u64 ;;
  updated_ms <- oc_r_u64 ;;
  recipients <- oc_r_str ;;
  body <- oc_r_str ;;
  r_done (mk_oc_draft id channel_id thread_root updated_ms recipients body).

Definition draft_codec : frame_codec :=
  FrameCodec oc_draft OC_MSG_DRAFT id oc_encode_draft oc_decode_draft wf_oc_draft.
Lemma draft_lawful : fc_lawful draft_codec.
Proof. lawful draft_codec oc_encode_draft oc_decode_draft. Qed.
Lemma draft_safe : rd_safe oc_decode_draft.
Proof. unfold oc_decode_draft; solve_safe. Qed.

Definition oc_encode_drafts (version : Z) (m : oc_drafts) : encoder :=
  frame version OC_MSG_DRAFTS (
    oc_w_u16 (drafts_count m)).

Definition oc_decode_drafts : rd oc_drafts :=
  count <- oc_r_u16 ;;
  r_done (mk_oc_drafts count).

Definition drafts_codec : frame_codec :=
  FrameCodec oc_drafts OC_MSG_DRAFTS id oc_encode_drafts oc_decode_drafts wf_oc_drafts.
Lemma drafts_lawful : fc_lawful drafts_codec.
Proof. lawful drafts_codec oc_encode_drafts oc_decode_drafts. Qed.
Lemma drafts_safe : rd_safe oc_decode_drafts.
Proof. unfold oc_decode_drafts; solve_safe. Qed.

Definition oc_encode_schedule_message (version : Z) (m : oc_schedule_message) : encoder :=
  frame version OC_MSG_SCHEDULE_MESSAGE (
    oc_w_u64 (schedule_message_channel_id m) ;;
    oc_w_u64 (schedule_message_thread_root m) ;;
    oc_w_u64 (schedule_message_send_at_ms m) ;;
    oc_w_str (schedule_message_body m)).

Definition oc_decode_schedule_message : rd oc_schedule_message :=
  channel_id <- oc_r_u64 ;;
  thread_root <- oc_r_u64 ;;
  send_at_ms <- oc_r_u64 ;;
  body <- oc_r_str ;;
  r_done (mk_oc_schedule_message channel_id thread_root send_at_ms body).

Definition schedule_message_codec : frame_codec :=
  FrameCodec oc_schedule_message OC_MSG_SCHEDULE_MESSAGE id oc_encode_schedule_message oc_decode_schedule_message wf_oc_schedule_message.
Lemma schedule_message_lawful : fc_lawful schedule_message_codec.
Proof. lawful schedule_message_codec oc_encode_schedule_message oc_decode_schedule_message. Qed.
Lemma schedule_message_safe : rd_safe oc_decode_schedule_message.
Proof. unfold oc_decode_schedule_message; solve_safe. Qed.

Definition oc_encode_list_scheduled (version : Z) : encoder :=
  frame version OC_MSG_LIST_SCHEDULED id.

Definition oc_encode_cancel_scheduled (version : Z) (m : oc_cancel_scheduled) : encoder :=
  frame version OC_MSG_CANCEL_SCHEDULED (
    oc_w_u64 (cancel_scheduled_id m)).

Definition oc_decode_cancel_scheduled : rd oc_cancel_scheduled :=
  id <- oc_r_u64 ;;
  r_done (mk_oc_cancel_scheduled id).

Definition cancel_scheduled_codec : frame_codec :=
  FrameCodec oc_cancel_scheduled OC_MSG_CANCEL_SCHEDULED id oc_encode_cancel_scheduled oc_decode_cancel_scheduled wf_oc_cancel_scheduled.
Lemma cancel_scheduled_lawful : fc_lawful cancel_scheduled_codec.
Proof. lawful cancel_scheduled_codec oc_encode_cancel_scheduled oc_decode_cancel_scheduled. Qed.
Lemma cancel_scheduled_safe : rd_safe oc_decode_cancel_scheduled.
Proof. unfold oc_decode_cancel_scheduled; solve_safe. Qed.

Definition oc_encode_update_scheduled (version : Z) (m : oc_update_scheduled) : encoder :=
  frame version OC_MSG_UPDATE_SCHEDULED (
    oc_w_u64 (update_scheduled_id m) ;;
    oc_w_u64 (update_scheduled_send_at_ms m) ;;
    oc_w_str (update_scheduled_body m)).

Definition oc_decode_update_scheduled : rd oc_update_scheduled :=
  id <- oc_r_u64 ;;
  send_at_ms <- oc_r_u64 ;;
  body <- oc_r_str ;;
  r_done (mk_oc_update_scheduled id send_at_ms body).

Definition update_scheduled_codec : frame_codec :=
  FrameCodec oc_update_scheduled OC_MSG_UPDATE_SCHEDULED id oc_encode_update_scheduled oc_decode_update_scheduled wf_oc_update_scheduled.
Lemma update_scheduled_lawful : fc_lawful update_scheduled_codec.
Proof. lawful update_scheduled_codec oc_encode_update_scheduled oc_decode_update_scheduled. Qed.
Lemma update_scheduled_safe : rd_safe oc_decode_update_scheduled.
Proof. unfold oc_decode_update_scheduled; solve_safe. Qed.

Definition oc_encode_scheduled (version : Z) (m : oc_scheduled) : encoder :=
  frame version OC_MSG_SCHEDULED (
    oc_w_u64 (scheduled_id m) ;;
    oc_w_u64 (scheduled_channel_id m) ;;
    oc_w_u64 (scheduled_thread_root m) ;;
    oc_w_u64 (scheduled_send_at_ms m) ;;
    oc_w_u64 (scheduled_created_ms m) ;;
    oc_w_u8 (scheduled_state m) ;;
    oc_w_str (scheduled_fail_reason m) ;;
    oc_w_str (scheduled_body m)).

Definition oc_decode_scheduled : rd oc_scheduled :=
  id <- oc_r_u64 ;;
  channel_id <- oc_r_u64 ;;
  thread_root <- oc_r_u64 ;;
  send_at_ms <- oc_r_u64 ;;
  created_ms <- oc_r_u64 ;;
  state <- oc_r_u8 ;;
  fail_reason <- oc_r_str ;;
  body <- oc_r_str ;;
  r_done (mk_oc_scheduled id channel_id thread_root send_at_ms created_ms state fail_reason body).

Definition scheduled_codec : frame_codec :=
  FrameCodec oc_scheduled OC_MSG_SCHEDULED id oc_encode_scheduled oc_decode_scheduled wf_oc_scheduled.
Lemma scheduled_lawful : fc_lawful scheduled_codec.
Proof. lawful scheduled_codec oc_encode_scheduled oc_decode_scheduled. Qed.
Lemma scheduled_safe : rd_safe oc_decode_scheduled.
Proof. unfold oc_decode_scheduled; solve_safe. Qed.

Definition oc_encode_scheduled_list (version : Z) (m : oc_scheduled_list) : encoder :=
  frame version OC_MSG_SCHEDULED_LIST (
    oc_w_u16 (scheduled_list_count m)).

Definition oc_decode_scheduled_list : rd oc_scheduled_list :=
  count <- oc_r_u16 ;;
  r_done (mk_oc_scheduled_list count).

Definition scheduled_list_codec : frame_codec :=
  FrameCodec oc_scheduled_list OC_MSG_SCHEDULED_LIST id oc_encode_scheduled_list oc_decode_scheduled_list wf_oc_scheduled_list.
Lemma scheduled_list_lawful : fc_lawful scheduled_list_codec.
Proof. lawful scheduled_list_codec oc_encode_scheduled_list oc_decode_scheduled_list. Qed.
Lemma scheduled_list_safe : rd_safe oc_decode_scheduled_list.
Proof. unfold oc_decode_scheduled_list; solve_safe. Qed.

Definition oc_encode_set_client_setting (version : Z) (m : oc_set_client_setting) : encoder :=
  frame version OC_MSG_SET_CLIENT_SETTING (
    oc_w_str (set_client_setting_client_type m) ;;
    oc_w_str (set_client_setting_key m) ;;
    oc_w_str (set_client_setting_value m)).

Definition oc_decode_set_client_setting : rd oc_set_client_setting :=
  client_type <- oc_r_str ;;
  key <- oc_r_str ;;
  value <- oc_r_str ;;
  r_done (mk_oc_set_client_setting client_type key value).

Definition set_client_setting_codec : frame_codec :=
  FrameCodec oc_set_client_setting OC_MSG_SET_CLIENT_SETTING id oc_encode_set_client_setting oc_decode_set_client_setting wf_oc_set_client_setting.
Lemma set_client_setting_lawful : fc_lawful set_client_setting_codec.
Proof. lawful set_client_setting_codec oc_encode_set_client_setting oc_decode_set_client_setting. Qed.
Lemma set_client_setting_safe : rd_safe oc_decode_set_client_setting.
Proof. unfold oc_decode_set_client_setting; solve_safe. Qed.

Definition oc_encode_list_client_settings (version : Z) (m : oc_list_client_settings) : encoder :=
  frame version OC_MSG_LIST_CLIENT_SETTINGS (
    oc_w_str (list_client_settings_client_type m)).

Definition oc_decode_list_client_settings : rd oc_list_client_settings :=
  client_type <- oc_r_str ;;
  r_done (mk_oc_list_client_settings client_type).

Definition list_client_settings_codec : frame_codec :=
  FrameCodec oc_list_client_settings OC_MSG_LIST_CLIENT_SETTINGS id oc_encode_list_client_settings oc_decode_list_client_settings wf_oc_list_client_settings.
Lemma list_client_settings_lawful : fc_lawful list_client_settings_codec.
Proof. lawful list_client_settings_codec oc_encode_list_client_settings oc_decode_list_client_settings. Qed.
Lemma list_client_settings_safe : rd_safe oc_decode_list_client_settings.
Proof. unfold oc_decode_list_client_settings; solve_safe. Qed.

Definition oc_encode_audit_query (version : Z) (m : oc_audit_query) : encoder :=
  frame version OC_MSG_AUDIT_QUERY (
    oc_w_u64 (audit_query_before_ms m) ;;
    oc_w_u16 (audit_query_limit m) ;;
    oc_w_u8 (audit_query_family m) ;;
    oc_w_u64 (audit_query_actor_id m) ;;
    oc_w_str (audit_query_action m)).

Definition oc_decode_audit_query : rd oc_audit_query :=
  before_ms <- oc_r_u64 ;;
  limit <- oc_r_u16 ;;
  family <- oc_r_u8 ;;
  actor_id <- oc_r_u64 ;;
  action <- oc_r_str ;;
  r_done (mk_oc_audit_query before_ms limit family actor_id action).

Definition audit_query_codec : frame_codec :=
  FrameCodec oc_audit_query OC_MSG_AUDIT_QUERY id oc_encode_audit_query oc_decode_audit_query wf_oc_audit_query.
Lemma audit_query_lawful : fc_lawful audit_query_codec.
Proof. lawful audit_query_codec oc_encode_audit_query oc_decode_audit_query. Qed.
Lemma audit_query_safe : rd_safe oc_decode_audit_query.
Proof. unfold oc_decode_audit_query; solve_safe. Qed.

Definition oc_encode_audit_page (version : Z) (m : oc_audit_page) : encoder :=
  frame version OC_MSG_AUDIT_PAGE (
    oc_w_u16 (audit_page_count m) ;;
    w_each (fun x =>
      oc_w_u64 (audit_entry_at_ms x) ;;
      oc_w_u64 (audit_entry_actor_id x) ;;
      oc_w_u64 (audit_entry_target_id x) ;;
      oc_w_u8 (audit_entry_family x) ;;
      oc_w_u8 (audit_entry_outcome x) ;;
      oc_w_str (audit_entry_actor_name x) ;;
      oc_w_str (audit_entry_action x) ;;
      oc_w_str (audit_entry_target x) ;;
      oc_w_str (audit_entry_detail x)) (ztake (audit_page_count m) (audit_page_entries m))).

Definition oc_decode_audit_page (cap : Z) : rd oc_audit_page :=
  count <- oc_r_u16 ;;
  let count := clamp cap count in
  entries <- r_for (Z.to_nat count) (
    at_ms <- oc_r_u64 ;;
    actor_id <- oc_r_u64 ;;
    target_id <- oc_r_u64 ;;
    family <- oc_r_u8 ;;
    outcome <- oc_r_u8 ;;
    actor_name <- oc_r_str ;;
    action <- oc_r_str ;;
    target <- oc_r_str ;;
    detail <- oc_r_str ;;
    rret (mk_oc_audit_entry at_ms actor_id target_id actor_name action target detail family outcome)) ;;
  r_done (mk_oc_audit_page count entries).

Definition wf_audit_page (cap : Z) (m : oc_audit_page) : Prop :=
  wf_oc_audit_page m ∧
  audit_page_count m = zlen (audit_page_entries m) ∧
  zlen (audit_page_entries m) <= cap.
#[export] Hint Unfold wf_audit_page : wf.

Definition audit_page_codec (cap : Z) : frame_codec :=
  FrameCodec oc_audit_page OC_MSG_AUDIT_PAGE id oc_encode_audit_page (oc_decode_audit_page cap) (wf_audit_page cap).
Lemma audit_page_complete cap : fc_complete (audit_page_codec cap).
Proof. complete audit_page_codec oc_encode_audit_page oc_decode_audit_page. Qed.
Lemma audit_page_safe cap : rd_safe (oc_decode_audit_page cap).
Proof. unfold oc_decode_audit_page; solve_safe. Qed.

Definition oc_encode_storage_status (version : Z) (m : oc_storage_status) : encoder :=
  frame version OC_MSG_STORAGE_STATUS (
    oc_w_u64 (storage_status_total_bytes m) ;;
    oc_w_u64 (storage_status_avail_bytes m) ;;
    oc_w_u64 (storage_status_attach_bytes m) ;;
    oc_w_u64 (storage_status_attach_count m) ;;
    oc_w_u64 (storage_status_reclaimed_orphan m) ;;
    oc_w_u64 (storage_status_reclaimed_expired m) ;;
    oc_w_u64 (storage_status_reclaimed_evicted m) ;;
    oc_w_u64 (storage_status_last_reclaim_ms m) ;;
    oc_w_u64 (storage_status_max_age_days m) ;;
    oc_w_u64 (storage_status_reserve_bytes m) ;;
    oc_w_u8 (storage_status_evict_enabled m) ;;
    oc_w_u8 (storage_status_under_pressure m)).

Definition oc_decode_storage_status : rd oc_storage_status :=
  total_bytes <- oc_r_u64 ;;
  avail_bytes <- oc_r_u64 ;;
  attach_bytes <- oc_r_u64 ;;
  attach_count <- oc_r_u64 ;;
  reclaimed_orphan <- oc_r_u64 ;;
  reclaimed_expired <- oc_r_u64 ;;
  reclaimed_evicted <- oc_r_u64 ;;
  last_reclaim_ms <- oc_r_u64 ;;
  max_age_days <- oc_r_u64 ;;
  reserve_bytes <- oc_r_u64 ;;
  evict_enabled <- oc_r_u8 ;;
  under_pressure <- oc_r_u8 ;;
  r_done (mk_oc_storage_status total_bytes avail_bytes attach_bytes attach_count reclaimed_orphan reclaimed_expired reclaimed_evicted last_reclaim_ms max_age_days reserve_bytes evict_enabled under_pressure).

Definition storage_status_codec : frame_codec :=
  FrameCodec oc_storage_status OC_MSG_STORAGE_STATUS id oc_encode_storage_status oc_decode_storage_status wf_oc_storage_status.
Lemma storage_status_lawful : fc_lawful storage_status_codec.
Proof. lawful storage_status_codec oc_encode_storage_status oc_decode_storage_status. Qed.
Lemma storage_status_safe : rd_safe oc_decode_storage_status.
Proof. unfold oc_decode_storage_status; solve_safe. Qed.

Definition oc_encode_client_settings (version : Z) (m : oc_client_settings) : encoder :=
  frame version OC_MSG_CLIENT_SETTINGS (
    oc_w_str (client_settings_client_type m) ;;
    oc_w_u16 (client_settings_count m) ;;
    w_each (fun x =>
      oc_w_str (client_setting_entry_key x) ;;
      oc_w_str (client_setting_entry_value x)) (ztake (client_settings_count m) (client_settings_entries m))).

Definition oc_decode_client_settings (cap : Z) : rd oc_client_settings :=
  client_type <- oc_r_str ;;
  count <- oc_r_u16 ;;
  entries <- r_for_ok (Z.to_nat count) (
    k <- oc_r_str ;;
    v <- oc_r_str ;;
    rret (mk_oc_client_setting_entry k v)) ;;
  r_done (mk_oc_client_settings client_type (clamp cap count) (ztake cap entries)).

Definition wf_client_settings (cap : Z) (m : oc_client_settings) : Prop :=
  wf_oc_client_settings m ∧
  client_settings_count m = zlen (client_settings_entries m) ∧
  zlen (client_settings_entries m) <= cap.
#[export] Hint Unfold wf_client_settings : wf.

Definition client_settings_codec (cap : Z) : frame_codec :=
  FrameCodec oc_client_settings OC_MSG_CLIENT_SETTINGS id oc_encode_client_settings (oc_decode_client_settings cap) (wf_client_settings cap).
Lemma client_settings_complete cap : fc_complete (client_settings_codec cap).
Proof. complete client_settings_codec oc_encode_client_settings oc_decode_client_settings. Qed.
Lemma client_settings_safe cap : rd_safe (oc_decode_client_settings cap).
Proof. unfold oc_decode_client_settings; solve_safe. Qed.

(** ** The frames of this file

    [cap] is the length of the array a decoder is given, where it takes one. *)

Definition prefs_lawful_codecs (cap : Z) : list frame_codec :=
  [thread_summary_codec; threads_codec; set_thread_follow_codec; mark_thread_read_codec;
   typing_codec; typing_update_codec; set_notify_pref_codec; list_notify_prefs_codec;
   register_device_token_codec; unregister_device_token_codec; device_token_ack_codec;
   set_draft_codec; draft_codec; drafts_codec; schedule_message_codec;
   cancel_scheduled_codec; update_scheduled_codec; scheduled_codec; scheduled_list_codec;
   set_client_setting_codec; list_client_settings_codec; audit_query_codec;
   storage_status_codec].

Lemma prefs_lawful cap : Forall fc_lawful (prefs_lawful_codecs cap).
Proof.
  apply List.Forall_cons; [exact thread_summary_lawful|].
  apply List.Forall_cons; [exact threads_lawful|].
  apply List.Forall_cons; [exact set_thread_follow_lawful|].
  apply List.Forall_cons; [exact mark_thread_read_lawful|].
  apply List.Forall_cons; [exact typing_lawful|].
  apply List.Forall_cons; [exact typing_update_lawful|].
  apply List.Forall_cons; [exact set_notify_pref_lawful|].
  apply List.Forall_cons; [exact list_notify_prefs_lawful|].
  apply List.Forall_cons; [exact register_device_token_lawful|].
  apply List.Forall_cons; [exact unregister_device_token_lawful|].
  apply List.Forall_cons; [exact device_token_ack_lawful|].
  apply List.Forall_cons; [exact set_draft_lawful|].
  apply List.Forall_cons; [exact draft_lawful|].
  apply List.Forall_cons; [exact drafts_lawful|].
  apply List.Forall_cons; [exact schedule_message_lawful|].
  apply List.Forall_cons; [exact cancel_scheduled_lawful|].
  apply List.Forall_cons; [exact update_scheduled_lawful|].
  apply List.Forall_cons; [exact scheduled_lawful|].
  apply List.Forall_cons; [exact scheduled_list_lawful|].
  apply List.Forall_cons; [exact set_client_setting_lawful|].
  apply List.Forall_cons; [exact list_client_settings_lawful|].
  apply List.Forall_cons; [exact audit_query_lawful|].
  apply List.Forall_cons; [exact storage_status_lawful|].
  apply List.Forall_nil.
Qed.
Definition prefs_complete_codecs (cap : Z) : list frame_codec :=
  [list_threads_codec; notify_prefs_codec cap; audit_page_codec cap;
   client_settings_codec cap].

Lemma prefs_complete cap : Forall fc_complete (prefs_complete_codecs cap).
Proof.
  apply List.Forall_cons; [exact list_threads_complete|].
  apply List.Forall_cons; [exact (notify_prefs_complete cap)|].
  apply List.Forall_cons; [exact (audit_page_complete cap)|].
  apply List.Forall_cons; [exact (client_settings_complete cap)|].
  apply List.Forall_nil.
Qed.
Lemma prefs_safe cap :
  Forall (fun c => rd_safe (fc_decode c)) (prefs_lawful_codecs cap ++ prefs_complete_codecs cap).
Proof.
  apply List.Forall_cons; [exact thread_summary_safe|].
  apply List.Forall_cons; [exact threads_safe|].
  apply List.Forall_cons; [exact set_thread_follow_safe|].
  apply List.Forall_cons; [exact mark_thread_read_safe|].
  apply List.Forall_cons; [exact typing_safe|].
  apply List.Forall_cons; [exact typing_update_safe|].
  apply List.Forall_cons; [exact set_notify_pref_safe|].
  apply List.Forall_cons; [exact list_notify_prefs_safe|].
  apply List.Forall_cons; [exact register_device_token_safe|].
  apply List.Forall_cons; [exact unregister_device_token_safe|].
  apply List.Forall_cons; [exact device_token_ack_safe|].
  apply List.Forall_cons; [exact set_draft_safe|].
  apply List.Forall_cons; [exact draft_safe|].
  apply List.Forall_cons; [exact drafts_safe|].
  apply List.Forall_cons; [exact schedule_message_safe|].
  apply List.Forall_cons; [exact cancel_scheduled_safe|].
  apply List.Forall_cons; [exact update_scheduled_safe|].
  apply List.Forall_cons; [exact scheduled_safe|].
  apply List.Forall_cons; [exact scheduled_list_safe|].
  apply List.Forall_cons; [exact set_client_setting_safe|].
  apply List.Forall_cons; [exact list_client_settings_safe|].
  apply List.Forall_cons; [exact audit_query_safe|].
  apply List.Forall_cons; [exact storage_status_safe|].
  apply List.Forall_cons; [exact list_threads_safe|].
  apply List.Forall_cons; [exact (notify_prefs_safe cap)|].
  apply List.Forall_cons; [exact (audit_page_safe cap)|].
  apply List.Forall_cons; [exact (client_settings_safe cap)|].
  apply List.Forall_nil.
Qed.

(** Requests without a payload, as the type and the encoder. *)
Definition prefs_bare_frames : list (oc_msg_type * (Z → encoder)) :=
  [(OC_MSG_LIST_DRAFTS, oc_encode_list_drafts);
   (OC_MSG_LIST_SCHEDULED, oc_encode_list_scheduled)].
