(* ===== verification/ProtoCall.v ===== *)
(** * Frames of [shared/protocol.c]: call signalling, call keys and private DMs

    Each frame is the encoder and the decoder as the source has them, the
    [frame_codec] that pairs them, the proof of its laws, and that its decoder
    stays inside its buffer. *)
From stdpp Require Import base tactics list numbers.
From S2P Require Import Prelude Wire WireLogic WireRead WireFrame ProtoTypes.
Local Open Scope Z_scope.
Local Open Scope wire_scope.

(** ** Runs shared by the call frames *)

Definition w_call_parts (n : Z) (parts : list oc_call_part) : wr :=
  oc_w_u16 n ;;
  w_each (fun x =>
    oc_w_u64 (call_part_user_id x) ;;
    oc_w_u8 (call_part_slot x) ;;
    w_raw (call_part_device_key x) OC_CALL_DEVICE_KEY_LEN ;;
    oc_w_u8 (call_part_codecs x) ;;
    oc_w_u8 (call_part_flags x)) (ztake n parts).

(** A count over the caller's array marks the buffer and leaves the count 0. *)
Definition r_call_parts (cap : Z) : rd (Z * list oc_call_part) :=
  n <- oc_r_u16 ;;
  if cap <? n then (_ <- r_set_underflow ;; rret (0, []))
  else
    parts <- r_for_ok (Z.to_nat n) (
      user_id <- oc_r_u64 ;;
      slot <- oc_r_u8 ;;
      device_key <- r_raw OC_CALL_DEVICE_KEY_LEN ;;
      codecs <- oc_r_u8 ;;
      flags <- oc_r_u8 ;;
      rret (mk_oc_call_part user_id slot device_key codecs flags)) ;;
    rret (n, parts).

Definition w_u64s (n : Z) (v : list Z) : wr :=
  oc_w_u16 n ;; w_each oc_w_u64 (ztake n v).

Definition r_u64s (cap : Z) : rd (Z * list Z) :=
  n <- oc_r_u16 ;;
  if cap <? n then (_ <- r_set_underflow ;; rret (0, []))
  else
    v <- r_for_ok (Z.to_nat n) oc_r_u64 ;;
    rret (n, v).

(** Both runs are a count and its elements, refused beyond [cap]. *)
Section Counted.
Context {A : Type} (d : rd A) (R : A → Prop) (ser : A → option (list Z)).

Definition counted_bytes (l : list A) : option (list Z) :=
  oapp (Some (be16 (zlen l))) (oconcat (ser <$> l)).
Definition r_counted (cap : Z) : rd (Z * list A) :=
  n <- oc_r_u16 ;;
  if cap <? n then (_ <- r_set_underflow ;; rret (0, []))
  else l <- r_for_ok (Z.to_nat n) d ;; rret (n, l).

Lemma parses_counted cap l :
  (∀ x, R x → Parses d (ser x) x) → Forall R l →
  is_u16 (zlen l) → zlen l <= cap → Parses (r_counted cap) (counted_bytes l) (zlen l, l).
Proof.
  intros Hd Hl Hn Hc. eapply parses_bind; [by apply parses_u16|].
  destruct (Z.ltb_spec cap (zlen l)); [lia|].
  eapply parses_map_eq; [|done]. rewrite zlen_to_nat. apply parses_for_ok.
  intros x Hx. apply Hd, (Forall_elem R l x Hl Hx).
Qed.

Lemma wp_counted cap :
  rd_wp d (fun a bs => R a ∧ ser a = Some bs) →
  rd_wp (r_counted cap) (fun p bs =>
    (is_u16 (fst p) ∧ fst p = zlen (snd p) ∧ zlen (snd p) <= cap ∧ Forall R (snd p)) ∧
    counted_bytes (snd p) = Some bs).
Proof.
  intros Hd. eapply wp_bind; [apply wp_u16|]. intros n. cbv beta.
  destruct (Z.ltb_spec cap n) as [|Hc].
  - intros r p r' Hr [= <- <-]. split; [exact Hr|done].
  - eapply wp_map; [by apply wp_for_ok|]. intros l bs ((Hn & HR) & E) b1 (Hu & [= <-]).
    apply to_nat_zlen in Hn; [|ilia]. subst n. simpl.
    split; [done|]. unfold counted_bytes. by rewrite E.
Qed.

Lemma safe_counted cap : rd_safe d → rd_safe (r_counted cap).
Proof.
  intros Hd. unfold r_counted. apply safe_bind; [apply safe_u16|]. intros n.
  destruct (cap <? n); [exact (safe_bind _ _ (safe_refuse_if true) (fun _ => safe_ret _))|].
  apply safe_bind; [by apply safe_for_ok|]. intros. apply safe_ret.
Qed.
End Counted.
Arguments counted_bytes : simpl never.

Definition call_part_bytes (x : oc_call_part) : option (list Z) :=
  oapp (Some (be64 (call_part_user_id x))) (oapp (Some [call_part_slot x])
    (oapp (Some (call_part_device_key x))
      (oapp (Some [call_part_codecs x]) (Some [call_part_flags x])))).

Lemma writes_u64s n v : n = zlen v → Writes (w_u64s n v) (counted_bytes (fun x => Some (be64 x)) v).
Proof.
  intros ->. unfold w_u64s. norm_counts. apply writes_seq; [apply writes_u16|].
  apply writes_each. intros x _. apply writes_u64.
Qed.
Lemma parses_u64s cap v :
  Forall is_u64 v → is_u16 (zlen v) → zlen v <= cap →
  Parses (r_u64s cap) (counted_bytes (fun x => Some (be64 x)) v) (zlen v, v).
Proof. intros. apply (parses_counted _ is_u64); [apply parses_u64|done..]. Qed.
Lemma wp_u64s cap :
  rd_wp (r_u64s cap) (fun p bs =>
    (is_u16 (fst p) ∧ fst p = zlen (snd p) ∧ zlen (snd p) <= cap ∧ Forall is_u64 (snd p)) ∧
    counted_bytes (fun x => Some (be64 x)) (snd p) = Some bs).
Proof. apply wp_counted, wp_u64. Qed.
Lemma safe_u64s cap : rd_safe (r_u64s cap).
Proof. apply safe_counted, safe_u64. Qed.

Lemma writes_call_parts n l :
  n = zlen l → Forall wf_oc_call_part l → Writes (w_call_parts n l) (counted_bytes call_part_bytes l).
Proof.
  intros -> Hl. unfold w_call_parts. norm_counts. apply writes_seq; [apply writes_u16|].
  apply writes_each. intros x Hx. elem_wf. solve_writes.
Qed.
Lemma parses_call_parts cap l :
  Forall wf_oc_call_part l → is_u16 (zlen l) → zlen l <= cap →
  Parses (r_call_parts cap) (counted_bytes call_part_bytes l) (zlen l, l).
Proof.
  intros. apply (parses_counted _ wf_oc_call_part); [|done..].
  intros [] Hx. open_wf Hx. unfold call_part_bytes. simpl. repeat parses_elem_step.
Qed.
Lemma wp_call_parts cap :
  rd_wp (r_call_parts cap) (fun p bs =>
    (is_u16 (fst p) ∧ fst p = zlen (snd p) ∧ zlen (snd p) <= cap ∧ Forall wf_oc_call_part (snd p)) ∧
    counted_bytes call_part_bytes (snd p) = Some bs).
Proof. apply wp_counted. unfold call_part_bytes. wp_elem. Qed.
Lemma safe_call_parts cap : rd_safe (r_call_parts cap).
Proof. apply safe_counted. solve_safe. Qed.
#[export] Hint Resolve writes_u64s writes_call_parts : wire_writes.
#[export] Hint Resolve parses_u64s parses_call_parts : wire_parses.
#[export] Hint Resolve wp_u64s wp_call_parts : wire_wp.
#[export] Hint Resolve safe_u64s safe_call_parts : wire_safe.

Definition oc_encode_call_join (version : Z) (m : oc_call_join) : encoder :=
  frame version OC_MSG_CALL_JOIN (
    oc_w_u64 (call_join_channel_id m) ;;
    w_raw (call_join_device_key m) OC_CALL_DEVICE_KEY_LEN ;;
    oc_w_u8 (call_join_codecs m) ;;
    w_u64s (call_join_n_invite m) (call_join_invite m)).

Definition oc_decode_call_join (cap : Z) : rd oc_call_join :=
  channel_id <- oc_r_u64 ;;
  device_key <- r_raw OC_CALL_DEVICE_KEY_LEN ;;
  codecs <- oc_r_u8 ;;
  run <- r_u64s cap ;; let '(n_invite, invite) := run in
  r_done (mk_oc_call_join channel_id device_key n_invite invite codecs).

Definition wf_call_join (cap : Z) (m : oc_call_join) : Prop :=
  wf_oc_call_join m ∧
  call_join_n_invite m = zlen (call_join_invite m) ∧
  zlen (call_join_invite m) <= cap.
#[export] Hint Unfold wf_call_join : wf.

Definition call_join_codec (cap : Z) : frame_codec :=
  FrameCodec oc_call_join OC_MSG_CALL_JOIN id oc_encode_call_join (oc_decode_call_join cap) (wf_call_join cap).
Lemma call_join_lawful cap : fc_lawful (call_join_codec cap).
Proof. lawful_with call_join_codec oc_encode_call_join oc_decode_call_join is_u64. Qed.
Lemma call_join_safe cap : rd_safe (oc_decode_call_join cap).
Proof. unfold oc_decode_call_join; solve_safe. Qed.

Definition oc_encode_call_leave (version : Z) (m : oc_call_leave) : encoder :=
  frame version OC_MSG_CALL_LEAVE (
    oc_w_u64 (call_leave_channel_id m)).

Definition oc_decode_call_leave : rd oc_call_leave :=
  channel_id <- oc_r_u64 ;;
  r_done (mk_oc_call_leave channel_id).

Definition call_leave_codec : frame_codec :=
  FrameCodec oc_call_leave OC_MSG_CALL_LEAVE id oc_encode_call_leave oc_decode_call_leave wf_oc_call_leave.
Lemma call_leave_lawful : fc_lawful call_leave_codec.
Proof. lawful call_leave_codec oc_encode_call_leave oc_decode_call_leave. Qed.
Lemma call_leave_safe : rd_safe oc_decode_call_leave.
Proof. unfold oc_decode_call_leave; solve_safe. Qed.

Definition oc_encode_call_joined (version : Z) (m : oc_call_joined) : encoder :=
  frame version OC_MSG_CALL_JOINED (
    oc_w_u64 (call_joined_channel_id m) ;;
    oc_w_u64 (call_joined_call_id m) ;;
    oc_w_u16 (call_joined_udp_port m) ;;
    oc_w_bytes (call_joined_token m) ;;
    oc_w_u8 (call_joined_slot m) ;;
    oc_w_u32 (call_joined_epoch m) ;;
    oc_w_u64 (call_joined_starter m) ;;
    oc_w_u64 (call_joined_started_at m) ;;
    w_call_parts (call_joined_count m) (call_joined_parts m)).

Definition oc_decode_call_joined (cap : Z) : rd oc_call_joined :=
  channel_id <- oc_r_u64 ;;
  call_id <- oc_r_u64 ;;
  udp_port <- oc_r_u16 ;;
  token <- oc_r_bytes ;;
  slot <- oc_r_u8 ;;
  epoch <- oc_r_u32 ;;
  starter <- oc_r_u64 ;;
  started_at <- oc_r_u64 ;;
  run <- r_call_parts cap ;; let '(count, parts) := run in
  r_done (mk_oc_call_joined channel_id call_id udp_port token slot epoch starter started_at count parts).

Definition wf_call_joined (cap : Z) (m : oc_call_joined) : Prop :=
  wf_oc_call_joined m ∧
  call_joined_count m = zlen (call_joined_parts m) ∧
  zlen (call_joined_parts m) <= cap.
#[export] Hint Unfold wf_call_joined : wf.

Definition call_joined_codec (cap : Z) : frame_codec :=
  FrameCodec oc_call_joined OC_MSG_CALL_JOINED id oc_encode_call_joined (oc_decode_call_joined cap) (wf_call_joined cap).
Lemma call_joined_lawful cap : fc_lawful (call_joined_codec cap).
Proof. lawful_with call_joined_codec oc_encode_call_joined oc_decode_call_joined wf_oc_call_part. Qed.
Lemma call_joined_safe cap : rd_safe (oc_decode_call_joined cap).
Proof. unfold oc_decode_call_joined; solve_safe. Qed.

Definition oc_encode_call_roster (version : Z) (m : oc_call_roster) : encoder :=
  frame version OC_MSG_CALL_ROSTER (
    oc_w_u64 (call_roster_channel_id m) ;;
    oc_w_u64 (call_roster_call_id m) ;;
    oc_w_u32 (call_roster_epoch m) ;;
    w_call_parts (call_roster_count m) (call_roster_parts m)).

Definition oc_decode_call_roster (cap : Z) : rd oc_call_roster :=
  channel_id <- oc_r_u64 ;;
  call_id <- oc_r_u64 ;;
  epoch <- oc_r_u32 ;;
  run <- r_call_parts cap ;; let '(count, parts) := run in
  r_done (mk_oc_call_roster channel_id call_id epoch count parts).

Definition wf_call_roster (cap : Z) (m : oc_call_roster) : Prop :=
  wf_oc_call_roster m ∧
  call_roster_count m = zlen (call_roster_parts m) ∧
  zlen (call_roster_parts m) <= cap.
#[export] Hint Unfold wf_call_roster : wf.

Definition call_roster_codec (cap : Z) : frame_codec :=
  FrameCodec oc_call_roster OC_MSG_CALL_ROSTER id oc_encode_call_roster (oc_decode_call_roster cap) (wf_call_roster cap).
Lemma call_roster_lawful cap : fc_lawful (call_roster_codec cap).
Proof. lawful_with call_roster_codec oc_encode_call_roster oc_decode_call_roster wf_oc_call_part. Qed.
Lemma call_roster_safe cap : rd_safe (oc_decode_call_roster cap).
Proof. unfold oc_decode_call_roster; solve_safe. Qed.

Definition oc_encode_call_invite (version : Z) (m : oc_call_invite) : encoder :=
  frame version OC_MSG_CALL_INVITE (
    oc_w_u64 (call_invite_channel_id m) ;;
    w_u64s (call_invite_count m) (call_invite_users m)).

Definition oc_decode_call_invite (cap : Z) : rd oc_call_invite :=
  channel_id <- oc_r_u64 ;;
  run <- r_u64s cap ;; let '(count, users) := run in
  r_done (mk_oc_call_invite channel_id count users).

Definition wf_call_invite (cap : Z) (m : oc_call_invite) : Prop :=
  wf_oc_call_invite m ∧
  call_invite_count m = zlen (call_invite_users m) ∧
  zlen (call_invite_users m) <= cap.
#[export] Hint Unfold wf_call_invite : wf.

Definition call_invite_codec (cap : Z) : frame_codec :=
  FrameCodec oc_call_invite OC_MSG_CALL_INVITE id oc_encode_call_invite (oc_decode_call_invite cap) (wf_call_invite cap).
Lemma call_invite_lawful cap : fc_lawful (call_invite_codec cap).
Proof. lawful_with call_invite_codec oc_encode_call_invite oc_decode_call_invite is_u64. Qed.
Lemma call_invite_safe cap : rd_safe (oc_decode_call_invite cap).
Proof. unfold oc_decode_call_invite; solve_safe. Qed.

Definition oc_encode_call_decline (version : Z) (m : oc_call_decline) : encoder :=
  frame version OC_MSG_CALL_DECLINE (
    oc_w_u64 (call_decline_channel_id m)).

Definition oc_decode_call_decline : rd oc_call_decline :=
  channel_id <- oc_r_u64 ;;
  r_done (mk_oc_call_decline channel_id).

Definition call_decline_codec : frame_codec :=
  FrameCodec oc_call_decline OC_MSG_CALL_DECLINE id oc_encode_call_decline oc_decode_call_decline wf_oc_call_decline.
Lemma call_decline_lawful : fc_lawful call_decline_codec.
Proof. lawful call_decline_codec oc_encode_call_decline oc_decode_call_decline. Qed.
Lemma call_decline_safe : rd_safe oc_decode_call_decline.
Proof. unfold oc_decode_call_decline; solve_safe. Qed.

Definition oc_encode_call_end (version : Z) (m : oc_call_end) : encoder :=
  frame version OC_MSG_CALL_END (
    oc_w_u64 (call_end_channel_id m)).

Definition oc_decode_call_end : rd oc_call_end :=
  channel_id <- oc_r_u64 ;;
  r_done (mk_oc_call_end channel_id).

Definition call_end_codec : frame_codec :=
  FrameCodec oc_call_end OC_MSG_CALL_END id oc_encode_call_end oc_decode_call_end wf_oc_call_end.
Lemma call_end_lawful : fc_lawful call_end_codec.
Proof. lawful call_end_codec oc_encode_call_end oc_decode_call_end. Qed.
Lemma call_end_safe : rd_safe oc_decode_call_end.
Proof. unfold oc_decode_call_end; solve_safe. Qed.

Definition oc_encode_call_state (version : Z) (m : oc_call_state) : encoder :=
  frame version OC_MSG_CALL_STATE (
    oc_w_u64 (call_state_channel_id m) ;;
    oc_w_u64 (call_state_call_id m) ;;
    oc_w_u64 (call_state_starter m) ;;
    oc_w_u64 (call_state_started_at m) ;;
    oc_w_u8 (call_state_ended m) ;;
    w_u64s (call_state_n_parts m) (call_state_parts m) ;;
    w_u64s (call_state_n_invited m) (call_state_invited m) ;;
    oc_w_u64 (call_state_sharer m)).

Definition oc_decode_call_state (pcap : Z) (icap : Z) : rd oc_call_state :=
  channel_id <- oc_r_u64 ;;
  call_id <- oc_r_u64 ;;
  starter <- oc_r_u64 ;;
  started_at <- oc_r_u64 ;;
  ended <- oc_r_u8 ;;
  run <- r_u64s pcap ;; let '(n_parts, parts) := run in
  run <- r_u64s icap ;; let '(n_invited, invited) := run in
  sharer <- oc_r_u64 ;;
  r_done (mk_oc_call_state channel_id call_id starter started_at ended n_parts parts n_invited invited sharer).

Definition wf_call_state (pcap : Z) (icap : Z) (m : oc_call_state) : Prop :=
  wf_oc_call_state m ∧
  call_state_n_parts m = zlen (call_state_parts m) ∧
  call_state_n_invited m = zlen (call_state_invited m) ∧
  zlen (call_state_parts m) <= pcap ∧
  zlen (call_state_invited m) <= icap.
#[export] Hint Unfold wf_call_state : wf.

Definition call_state_codec (pcap : Z) (icap : Z) : frame_codec :=
  FrameCodec oc_call_state OC_MSG_CALL_STATE id oc_encode_call_state (oc_decode_call_state pcap icap) (wf_call_state pcap icap).
Lemma call_state_lawful pcap icap : fc_lawful (call_state_codec pcap icap).
Proof. lawful_with call_state_codec oc_encode_call_state oc_decode_call_state is_u64. Qed.
Lemma call_state_safe pcap icap : rd_safe (oc_decode_call_state pcap icap).
Proof. unfold oc_decode_call_state; solve_safe. Qed.

Definition oc_encode_call_key (version : Z) (m : oc_call_key) : encoder :=
  frame version OC_MSG_CALL_KEY (
    oc_w_u64 (call_key_channel_id m) ;;
    oc_w_u64 (call_key_call_id m) ;;
    oc_w_u32 (call_key_epoch m) ;;
    oc_w_u16 (call_key_count m) ;;
    w_each (fun x =>
      oc_w_u64 (call_key_entry_recipient x) ;;
      oc_w_bytes (call_key_entry_sealed x)) (ztake (call_key_count m) (call_key_entries m))).

Definition oc_decode_call_key (cap : Z) : rd oc_call_key :=
  channel_id <- oc_r_u64 ;;
  call_id <- oc_r_u64 ;;
  epoch <- oc_r_u32 ;;
  n <- oc_r_u16 ;;
  _ <- r_refuse_if (cap <? n) ;;
  entries <- r_for_ok (Z.to_nat n) (
    recipient <- oc_r_u64 ;;
    sealed <- oc_r_bytes ;;
    rret (mk_oc_call_key_entry recipient sealed)) ;;
  r_done (mk_oc_call_key channel_id call_id epoch n entries).

Definition wf_call_key (cap : Z) (m : oc_call_key) : Prop :=
  wf_oc_call_key m ∧
  call_key_count m = zlen (call_key_entries m) ∧
  zlen (call_key_entries m) <= cap.
#[export] Hint Unfold wf_call_key : wf.

Definition call_key_codec (cap : Z) : frame_codec :=
  FrameCodec oc_call_key OC_MSG_CALL_KEY id oc_encode_call_key (oc_decode_call_key cap) (wf_call_key cap).
Lemma call_key_lawful cap : fc_lawful (call_key_codec cap).
Proof. lawful_with call_key_codec oc_encode_call_key oc_decode_call_key wf_oc_call_key_entry. Qed.
Lemma call_key_safe cap : rd_safe (oc_decode_call_key cap).
Proof. unfold oc_decode_call_key; solve_safe. Qed.

Definition oc_encode_call_key_for (version : Z) (m : oc_call_key_for) : encoder :=
  frame version OC_MSG_CALL_KEY_FOR (
    oc_w_u64 (call_key_for_channel_id m) ;;
    oc_w_u64 (call_key_for_call_id m) ;;
    oc_w_u32 (call_key_for_epoch m) ;;
    oc_w_u64 (call_key_for_sender m) ;;
    oc_w_bytes (call_key_for_sealed m)).

Definition oc_decode_call_key_for : rd oc_call_key_for :=
  channel_id <- oc_r_u64 ;;
  call_id <- oc_r_u64 ;;
  epoch <- oc_r_u32 ;;
  sender <- oc_r_u64 ;;
  sealed <- oc_r_bytes ;;
  r_done (mk_oc_call_key_for channel_id call_id epoch sender sealed).

Definition call_key_for_codec : frame_codec :=
  FrameCodec oc_call_key_for OC_MSG_CALL_KEY_FOR id oc_encode_call_key_for oc_decode_call_key_for wf_oc_call_key_for.
Lemma call_key_for_lawful : fc_lawful call_key_for_codec.
Proof. lawful call_key_for_codec oc_encode_call_key_for oc_decode_call_key_for. Qed.
Lemma call_key_for_safe : rd_safe oc_decode_call_key_for.
Proof. unfold oc_decode_call_key_for; solve_safe. Qed.

Definition oc_encode_pdm_open (version : Z) (m : oc_pdm_open) : encoder :=
  frame version OC_MSG_PDM_OPEN (
    oc_w_u64 (pdm_open_peer m) ;;
    oc_w_bytes (pdm_open_hs m)).

Definition oc_decode_pdm_open : rd oc_pdm_open :=
  peer <- oc_r_u64 ;;
  hs <- oc_r_bytes ;;
  _ <- r_refuse_if ((zlen hs =? 0) || (OC_PDM_MAX_HS <? zlen hs)) ;;
  r_done (mk_oc_pdm_open peer hs).

Definition wf_pdm_open (m : oc_pdm_open) : Prop :=
  wf_oc_pdm_open m ∧
  1 <= zlen (pdm_open_hs m) <= OC_PDM_MAX_HS.
#[export] Hint Unfold wf_pdm_open : wf.

Definition pdm_open_codec : frame_codec :=
  FrameCodec oc_pdm_open OC_MSG_PDM_OPEN id oc_encode_pdm_open oc_decode_pdm_open wf_pdm_open.
Lemma pdm_open_lawful : fc_lawful pdm_open_codec.
Proof. lawful_with pdm_open_codec oc_encode_pdm_open oc_decode_pdm_open (fun _ : Z => True). Qed.
Lemma pdm_open_safe : rd_safe oc_decode_pdm_open.
Proof. unfold oc_decode_pdm_open; solve_safe. Qed.

Definition oc_encode_pdm_opened (version : Z) (m : oc_pdm_opened) : encoder :=
  frame version OC_MSG_PDM_OPENED (
    oc_w_u64 (pdm_opened_pdm_id m) ;;
    oc_w_u64 (pdm_opened_peer m)).

Definition oc_decode_pdm_opened : rd oc_pdm_opened :=
  pdm_id <- oc_r_u64 ;;
  peer <- oc_r_u64 ;;
  r_done (mk_oc_pdm_opened pdm_id peer).

Definition pdm_opened_codec : frame_codec :=
  FrameCodec oc_pdm_opened OC_MSG_PDM_OPENED id oc_encode_pdm_opened oc_decode_pdm_opened wf_oc_pdm_opened.
Lemma pdm_opened_lawful : fc_lawful pdm_opened_codec.
Proof. lawful pdm_opened_codec oc_encode_pdm_opened oc_decode_pdm_opened. Qed.
Lemma pdm_opened_safe : rd_safe oc_decode_pdm_opened.
Proof. unfold oc_decode_pdm_opened; solve_safe. Qed.

Definition oc_encode_pdm_invite (version : Z) (m : oc_pdm_invite) : encoder :=
  frame version OC_MSG_PDM_INVITE (
    oc_w_u64 (pdm_invite_pdm_id m) ;;
    oc_w_u64 (pdm_invite_from m) ;;
    oc_w_bytes (pdm_invite_hs m)).

Definition oc_decode_pdm_invite : rd oc_pdm_invite :=
  pdm_id <- oc_r_u64 ;;
  from_ <- oc_r_u64 ;;
  hs <- oc_r_bytes ;;
  _ <- r_refuse_if ((zlen hs =? 0) || (OC_PDM_MAX_HS <? zlen hs)) ;;
  r_done (mk_oc_pdm_invite pdm_id from_ hs).

Definition wf_pdm_invite (m : oc_pdm_invite) : Prop :=
  wf_oc_pdm_invite m ∧
  1 <= zlen (pdm_invite_hs m) <= OC_PDM_MAX_HS.
#[export] Hint Unfold wf_pdm_invite : wf.

Definition pdm_invite_codec : frame_codec :=
  FrameCodec oc_pdm_invite OC_MSG_PDM_INVITE id oc_encode_pdm_invite oc_decode_pdm_invite wf_pdm_invite.
Lemma pdm_invite_lawful : fc_lawful pdm_invite_codec.
Proof. lawful_with pdm_invite_codec oc_encode_pdm_invite oc_decode_pdm_invite (fun _ : Z => True). Qed.
Lemma pdm_invite_safe : rd_safe oc_decode_pdm_invite.
Proof. unfold oc_decode_pdm_invite; solve_safe. Qed.

Definition oc_encode_pdm_hs (version : Z) (type : Z) (m : oc_pdm_hs) : encoder :=
  frame version type (
    oc_w_u64 (pdm_hs_pdm_id m) ;;
    oc_w_bytes (pdm_hs_hs m)).

Definition oc_decode_pdm_hs : rd oc_pdm_hs :=
  pdm_id <- oc_r_u64 ;;
  hs <- oc_r_bytes ;;
  _ <- r_refuse_if ((zlen hs =? 0) || (OC_PDM_MAX_HS <? zlen hs)) ;;
  r_done (mk_oc_pdm_hs pdm_id hs).

Definition wf_pdm_hs (m : oc_pdm_hs) : Prop :=
  wf_oc_pdm_hs m ∧
  1 <= zlen (pdm_hs_hs m) <= OC_PDM_MAX_HS.
#[export] Hint Unfold wf_pdm_hs : wf.

Definition pdm_hs_codec (type : Z) : frame_codec :=
  FrameCodec oc_pdm_hs type id (fun version => oc_encode_pdm_hs version type) oc_decode_pdm_hs wf_pdm_hs.
Lemma pdm_hs_lawful type : fc_lawful (pdm_hs_codec type).
Proof. lawful_with pdm_hs_codec oc_encode_pdm_hs oc_decode_pdm_hs (fun _ : Z => True). Qed.
Lemma pdm_hs_safe : rd_safe oc_decode_pdm_hs.
Proof. unfold oc_decode_pdm_hs; solve_safe. Qed.

Definition oc_encode_pdm_msg (version : Z) (type : Z) (m : oc_pdm_msg) : encoder :=
  frame version type (
    oc_w_u64 (pdm_msg_pdm_id m) ;;
    oc_w_bytes (pdm_msg_header m) ;;
    oc_w_bytes (pdm_msg_ct m)).

Definition oc_decode_pdm_msg : rd oc_pdm_msg :=
  pdm_id <- oc_r_u64 ;;
  header <- oc_r_bytes ;;
  ct <- oc_r_bytes ;;
  _ <- r_refuse_if (negb (zlen header =? OC_PDM_HEADER_LEN) || (zlen ct <? 16) || (OC_PDM_MAX_CT <? zlen ct)) ;;
  r_done (mk_oc_pdm_msg pdm_id header ct).

Definition wf_pdm_msg (m : oc_pdm_msg) : Prop :=
  wf_oc_pdm_msg m ∧
  zlen (pdm_msg_header m) = OC_PDM_HEADER_LEN ∧ 16 <= zlen (pdm_msg_ct m) <= OC_PDM_MAX_CT.
#[export] Hint Unfold wf_pdm_msg : wf.

Definition pdm_msg_codec (type : Z) : frame_codec :=
  FrameCodec oc_pdm_msg type id (fun version => oc_encode_pdm_msg version type) oc_decode_pdm_msg wf_pdm_msg.
Lemma pdm_msg_lawful type : fc_lawful (pdm_msg_codec type).
Proof. lawful_with pdm_msg_codec oc_encode_pdm_msg oc_decode_pdm_msg (fun _ : Z => True). Qed.
Lemma pdm_msg_safe : rd_safe oc_decode_pdm_msg.
Proof. unfold oc_decode_pdm_msg; solve_safe. Qed.

Definition oc_encode_pdm_end (version : Z) (m : oc_pdm_end) : encoder :=
  frame version OC_MSG_PDM_END (
    oc_w_u64 (pdm_end_pdm_id m) ;;
    oc_w_u8 (pdm_end_reason m)).

Definition oc_decode_pdm_end : rd oc_pdm_end :=
  pdm_id <- oc_r_u64 ;;
  reason <- oc_r_u8 ;;
  r_done (mk_oc_pdm_end pdm_id reason).

Definition pdm_end_codec : frame_codec :=
  FrameCodec oc_pdm_end OC_MSG_PDM_END id oc_encode_pdm_end oc_decode_pdm_end wf_oc_pdm_end.
Lemma pdm_end_lawful : fc_lawful pdm_end_codec.
Proof. lawful pdm_end_codec oc_encode_pdm_end oc_decode_pdm_end. Qed.
Lemma pdm_end_safe : rd_safe oc_decode_pdm_end.
Proof. unfold oc_decode_pdm_end; solve_safe. Qed.

Definition oc_encode_call_share (version : Z) (m : oc_call_share) : encoder :=
  frame version OC_MSG_CALL_SHARE (
    oc_w_u64 (call_share_channel_id m) ;;
    oc_w_u8 (call_share_on m)).

Definition oc_decode_call_share : rd oc_call_share :=
  channel_id <- oc_r_u64 ;;
  on <- oc_r_u8 ;;
  r_done (mk_oc_call_share channel_id on).

Definition call_share_codec : frame_codec :=
  FrameCodec oc_call_share OC_MSG_CALL_SHARE id oc_encode_call_share oc_decode_call_share wf_oc_call_share.
Lemma call_share_lawful : fc_lawful call_share_codec.
Proof. lawful call_share_codec oc_encode_call_share oc_decode_call_share. Qed.
Lemma call_share_safe : rd_safe oc_decode_call_share.
Proof. unfold oc_decode_call_share; solve_safe. Qed.

(** The client's direction carries no sender: the daemon fills it in. *)
Definition oc_encode_call_media_up (version : Z) (m : oc_call_media_pkt) : encoder :=
  frame version OC_MSG_CALL_MEDIA (
    oc_w_u16 (call_media_pkt_seq m) ;;
    oc_w_bytes (call_media_pkt_ct m)).

Definition oc_decode_call_media_up : rd oc_call_media_pkt :=
  seq <- oc_r_u16 ;;
  ct <- oc_r_bytes ;;
  r_done (mk_oc_call_media_pkt 0 seq ct).

Definition wf_call_media_up (m : oc_call_media_pkt) : Prop :=
  wf_oc_call_media_pkt m ∧ call_media_pkt_sender m = 0.
#[export] Hint Unfold wf_call_media_up : wf.
Definition call_media_up_codec : frame_codec :=
  FrameCodec oc_call_media_pkt OC_MSG_CALL_MEDIA id oc_encode_call_media_up oc_decode_call_media_up
    wf_call_media_up.
Lemma call_media_up_lawful : fc_lawful call_media_up_codec.
Proof. lawful call_media_up_codec oc_encode_call_media_up oc_decode_call_media_up. Qed.
Lemma call_media_up_safe : rd_safe oc_decode_call_media_up.
Proof. unfold oc_decode_call_media_up; solve_safe. Qed.

Definition oc_encode_call_media_down (version : Z) (m : oc_call_media_pkt) : encoder :=
  frame version OC_MSG_CALL_MEDIA (
    oc_w_u64 (call_media_pkt_sender m) ;;
    oc_w_u16 (call_media_pkt_seq m) ;;
    oc_w_bytes (call_media_pkt_ct m)).

Definition oc_decode_call_media_down : rd oc_call_media_pkt :=
  sender <- oc_r_u64 ;;
  seq <- oc_r_u16 ;;
  ct <- oc_r_bytes ;;
  r_done (mk_oc_call_media_pkt sender seq ct).

Definition call_media_down_codec : frame_codec :=
  FrameCodec oc_call_media_pkt OC_MSG_CALL_MEDIA id oc_encode_call_media_down oc_decode_call_media_down wf_oc_call_media_pkt.
Lemma call_media_down_lawful : fc_lawful call_media_down_codec.
Proof. lawful call_media_down_codec oc_encode_call_media_down oc_decode_call_media_down. Qed.
Lemma call_media_down_safe : rd_safe oc_decode_call_media_down.
Proof. unfold oc_decode_call_media_down; solve_safe. Qed.

(** ** The frames of this file

    [cap] is the length of the array a decoder is given, where it takes one. *)

Definition call_lawful_codecs (cap : Z) : list frame_codec :=
  [call_join_codec cap; call_leave_codec; call_joined_codec cap; call_roster_codec cap;
   call_invite_codec cap; call_decline_codec; call_end_codec; call_state_codec cap cap;
   call_key_codec cap; call_key_for_codec; pdm_open_codec; pdm_opened_codec;
   pdm_invite_codec; pdm_hs_codec OC_MSG_PDM_HS; pdm_hs_codec OC_MSG_PDM_HS_FOR;
   pdm_msg_codec OC_MSG_PDM_SEND; pdm_msg_codec OC_MSG_PDM_MSG; pdm_end_codec;
   call_share_codec; call_media_up_codec; call_media_down_codec].

Lemma call_lawful cap : Forall fc_lawful (call_lawful_codecs cap).
Proof.
  apply List.Forall_cons; [exact (call_join_lawful cap)|].
  apply List.Forall_cons; [exact call_leave_lawful|].
  apply List.Forall_cons; [exact (call_joined_lawful cap)|].
  apply List.Forall_cons; [exact (call_roster_lawful cap)|].
  apply List.Forall_cons; [exact (call_invite_lawful cap)|].
  apply List.Forall_cons; [exact call_decline_lawful|].
  apply List.Forall_cons; [exact call_end_lawful|].
  apply List.Forall_cons; [exact (call_state_lawful cap cap)|].
  apply List.Forall_cons; [exact (call_key_lawful cap)|].
  apply List.Forall_cons; [exact call_key_for_lawful|].
  apply List.Forall_cons; [exact pdm_open_lawful|].
  apply List.Forall_cons; [exact pdm_opened_lawful|].
  apply List.Forall_cons; [exact pdm_invite_lawful|].
  apply List.Forall_cons; [exact (pdm_hs_lawful OC_MSG_PDM_HS)|].
  apply List.Forall_cons; [exact (pdm_hs_lawful OC_MSG_PDM_HS_FOR)|].
  apply List.Forall_cons; [exact (pdm_msg_lawful OC_MSG_PDM_SEND)|].
  apply List.Forall_cons; [exact (pdm_msg_lawful OC_MSG_PDM_MSG)|].
  apply List.Forall_cons; [exact pdm_end_lawful|].
  apply List.Forall_cons; [exact call_share_lawful|].
  apply List.Forall_cons; [exact call_media_up_lawful|].
  apply List.Forall_cons; [exact call_media_down_lawful|].
  apply List.Forall_nil.
Qed.
Definition call_complete_codecs (cap : Z) : list frame_codec :=
  [].

Lemma call_complete cap : Forall fc_complete (call_complete_codecs cap).
Proof.
  apply List.Forall_nil.
Qed.
Lemma call_safe cap :
  Forall (fun c => rd_safe (fc_decode c)) (call_lawful_codecs cap ++ call_complete_codecs cap).
Proof.
  apply List.Forall_cons; [exact (call_join_safe cap)|].
  apply List.Forall_cons; [exact call_leave_safe|].
  apply List.Forall_cons; [exact (call_joined_safe cap)|].
  apply List.Forall_cons; [exact (call_roster_safe cap)|].
  apply List.Forall_cons; [exact (call_invite_safe cap)|].
  apply List.Forall_cons; [exact call_decline_safe|].
  apply List.Forall_cons; [exact call_end_safe|].
  apply List.Forall_cons; [exact (call_state_safe cap cap)|].
  apply List.Forall_cons; [exact (call_key_safe cap)|].
  apply List.Forall_cons; [exact call_key_for_safe|].
  apply List.Forall_cons; [exact pdm_open_safe|].
  apply List.Forall_cons; [exact pdm_opened_safe|].
  apply List.Forall_cons; [exact pdm_invite_safe|].
  apply List.Forall_cons; [exact pdm_hs_safe|].
  apply List.Forall_cons; [exact pdm_hs_safe|].
  apply List.Forall_cons; [exact pdm_msg_safe|].
  apply List.Forall_cons; [exact pdm_msg_safe|].
  apply List.Forall_cons; [exact pdm_end_safe|].
  apply List.Forall_cons; [exact call_share_safe|].
  apply List.Forall_cons; [exact call_media_up_safe|].
  apply List.Forall_cons; [exact call_media_down_safe|].
  apply List.Forall_nil.
Qed.

(** Requests without a payload, as the type and the encoder. *)
Definition call_bare_frames : list (oc_msg_type * (Z → encoder)) :=
  [].
