(* ===== verification/ProtoMedia.v ===== *)
(** * Frames of [shared/protocol.c]: transfers, read-aloud and voice input

    Each frame is the encoder and the decoder as the source has them, the
    [frame_codec] that pairs them, the proof of its laws, and that its decoder
    stays inside its buffer. *)
From stdpp Require Import base tactics list numbers.
From S2P Require Import Prelude Wire WireLogic WireRead WireFrame ProtoTypes.
Local Open Scope Z_scope.
Local Open Scope wire_scope.

Definition oc_encode_upload_begin (version : Z) (m : oc_upload_begin) : encoder :=
  frame version OC_MSG_UPLOAD_BEGIN (
    oc_w_u64 (upload_begin_channel_id m) ;;
    oc_w_idem (upload_begin_idem m) ;;
    oc_w_str (upload_begin_filename m) ;;
    oc_w_str (upload_begin_mime m) ;;
    oc_w_u64 (upload_begin_total_size m)).

Definition oc_decode_upload_begin : rd oc_upload_begin :=
  channel_id <- oc_r_u64 ;;
  idem <- oc_r_idem ;;
  filename <- oc_r_str ;;
  mime <- oc_r_str ;;
  total_size <- oc_r_u64 ;;
  r_done (mk_oc_upload_begin channel_id idem filename mime total_size).

Definition upload_begin_codec : frame_codec :=
  FrameCodec oc_upload_begin OC_MSG_UPLOAD_BEGIN id oc_encode_upload_begin oc_decode_upload_begin wf_oc_upload_begin.
Lemma upload_begin_lawful : fc_lawful upload_begin_codec.
Proof. lawful upload_begin_codec oc_encode_upload_begin oc_decode_upload_begin. Qed.
Lemma upload_begin_safe : rd_safe oc_decode_upload_begin.
Proof. unfold oc_decode_upload_begin; solve_safe. Qed.

Definition oc_encode_upload_ready (version : Z) (m : oc_upload_ready) : encoder :=
  frame version OC_MSG_UPLOAD_READY (
    oc_w_u64 (upload_ready_attachment_id m) ;;
    oc_w_u32 (upload_ready_chunk_size m) ;;
    oc_w_u32 (upload_ready_window_bytes m)).

Definition oc_decode_upload_ready : rd oc_upload_ready :=
  attachment_id <- oc_r_u64 ;;
  chunk_size <- oc_r_u32 ;;
  window_bytes <- oc_r_u32 ;;
  r_done (mk_oc_upload_ready attachment_id chunk_size window_bytes).

Definition upload_ready_codec : frame_codec :=
  FrameCodec oc_upload_ready OC_MSG_UPLOAD_READY id oc_encode_upload_ready oc_decode_upload_ready wf_oc_upload_ready.
Lemma upload_ready_lawful : fc_lawful upload_ready_codec.
Proof. lawful upload_ready_codec oc_encode_upload_ready oc_decode_upload_ready. Qed.
Lemma upload_ready_safe : rd_safe oc_decode_upload_ready.
Proof. unfold oc_decode_upload_ready; solve_safe. Qed.

Definition oc_encode_upload_chunk (version : Z) (m : oc_upload_chunk) : encoder :=
  frame version OC_MSG_UPLOAD_CHUNK (
    oc_w_u64 (upload_chunk_attachment_id m) ;;
    oc_w_u32 (upload_chunk_seq m) ;;
    oc_w_bytes (upload_chunk_data m)).

Definition oc_decode_upload_chunk : rd oc_upload_chunk :=
  attachment_id <- oc_r_u64 ;;
  seq <- oc_r_u32 ;;
  data <- oc_r_bytes ;;
  r_done (mk_oc_upload_chunk attachment_id seq data).

Definition upload_chunk_codec : frame_codec :=
  FrameCodec oc_upload_chunk OC_MSG_UPLOAD_CHUNK id oc_encode_upload_chunk oc_decode_upload_chunk wf_oc_upload_chunk.
Lemma upload_chunk_lawful : fc_lawful upload_chunk_codec.
Proof. lawful upload_chunk_codec oc_encode_upload_chunk oc_decode_upload_chunk. Qed.
Lemma upload_chunk_safe : rd_safe oc_decode_upload_chunk.
Proof. unfold oc_decode_upload_chunk; solve_safe. Qed.

Definition oc_encode_upload_ack (version : Z) (m : oc_upload_ack) : encoder :=
  frame version OC_MSG_UPLOAD_ACK (
    oc_w_u64 (upload_ack_attachment_id m) ;;
    oc_w_u32 (upload_ack_acked_through m)).

Definition oc_decode_upload_ack : rd oc_upload_ack :=
  attachment_id <- oc_r_u64 ;;
  acked_through <- oc_r_u32 ;;
  r_done (mk_oc_upload_ack attachment_id acked_through).

Definition upload_ack_codec : frame_codec :=
  FrameCodec oc_upload_ack OC_MSG_UPLOAD_ACK id oc_encode_upload_ack oc_decode_upload_ack wf_oc_upload_ack.
Lemma upload_ack_lawful : fc_lawful upload_ack_codec.
Proof. lawful upload_ack_codec oc_encode_upload_ack oc_decode_upload_ack. Qed.
Lemma upload_ack_safe : rd_safe oc_decode_upload_ack.
Proof. unfold oc_decode_upload_ack; solve_safe. Qed.

Definition oc_encode_upload_end (version : Z) (m : oc_upload_end) : encoder :=
  frame version OC_MSG_UPLOAD_END (
    oc_w_u64 (upload_end_attachment_id m)).

Definition oc_decode_upload_end : rd oc_upload_end :=
  attachment_id <- oc_r_u64 ;;
  r_done (mk_oc_upload_end attachment_id).

Definition upload_end_codec : frame_codec :=
  FrameCodec oc_upload_end OC_MSG_UPLOAD_END id oc_encode_upload_end oc_decode_upload_end wf_oc_upload_end.
Lemma upload_end_lawful : fc_lawful upload_end_codec.
Proof. lawful upload_end_codec oc_encode_upload_end oc_decode_upload_end. Qed.
Lemma upload_end_safe : rd_safe oc_decode_upload_end.
Proof. unfold oc_decode_upload_end; solve_safe. Qed.

Definition oc_encode_upload_ok (version : Z) (m : oc_upload_ok) : encoder :=
  frame version OC_MSG_UPLOAD_OK (
    oc_w_u64 (upload_ok_attachment_id m) ;;
    oc_w_u64 (upload_ok_size m) ;;
    oc_w_bytes (upload_ok_sha256 m)).

Definition oc_decode_upload_ok : rd oc_upload_ok :=
  attachment_id <- oc_r_u64 ;;
  size <- oc_r_u64 ;;
  sha256 <- oc_r_bytes ;;
  r_done (mk_oc_upload_ok attachment_id size sha256).

Definition upload_ok_codec : frame_codec :=
  FrameCodec oc_upload_ok OC_MSG_UPLOAD_OK id oc_encode_upload_ok oc_decode_upload_ok wf_oc_upload_ok.
Lemma upload_ok_lawful : fc_lawful upload_ok_codec.
Proof. lawful upload_ok_codec oc_encode_upload_ok oc_decode_upload_ok. Qed.
Lemma upload_ok_safe : rd_safe oc_decode_upload_ok.
Proof. unfold oc_decode_upload_ok; solve_safe. Qed.

Definition oc_encode_tts_info (version : Z) (m : oc_tts_info) : encoder :=
  let n := clamp OC_TTS_VOICE_MAX (tts_info_count m) in
  frame version OC_MSG_TTS_INFO (
    oc_w_str (tts_info_model_version m) ;;
    oc_w_u8 n ;;
    w_each (fun x =>
      oc_w_str (tts_voice_id x) ;;
      oc_w_str (tts_voice_label x) ;;
      oc_w_str (tts_voice_lang x)) (ztake n (tts_info_voices m)) ;;
    oc_w_str (tts_info_preview m)).

Definition oc_decode_tts_info : rd oc_tts_info :=
  model_version <- oc_r_str ;;
  n <- oc_r_u8 ;;
  _ <- r_fail_if (OC_TTS_VOICE_MAX <? n) ;;
  voices <- r_for (Z.to_nat n) (
    id <- oc_r_str ;;
    label <- oc_r_str ;;
    lang <- oc_r_str ;;
    rret (mk_oc_tts_voice id label lang)) ;;
  preview <- oc_r_str ;;
  r_done (mk_oc_tts_info model_version n voices preview).

Definition wf_tts_info (m : oc_tts_info) : Prop :=
  wf_oc_tts_info m ∧
  tts_info_count m = zlen (tts_info_voices m) ∧
  zlen (tts_info_voices m) <= OC_TTS_VOICE_MAX.
#[export] Hint Unfold wf_tts_info : wf.

Definition tts_info_codec : frame_codec :=
  FrameCodec oc_tts_info OC_MSG_TTS_INFO id oc_encode_tts_info oc_decode_tts_info wf_tts_info.
Lemma tts_info_lawful : fc_lawful tts_info_codec.
Proof. lawful_with tts_info_codec oc_encode_tts_info oc_decode_tts_info wf_oc_tts_voice. Qed.
Lemma tts_info_safe : rd_safe oc_decode_tts_info.
Proof. unfold oc_decode_tts_info; solve_safe. Qed.

Definition oc_encode_capabilities (version : Z) (m : oc_capabilities) : encoder :=
  let n := clamp OC_CAP_MAX (capabilities_count m) in
  frame version OC_MSG_CAPABILITIES (
    oc_w_u8 n ;;
    w_each oc_w_str (ztake n (capabilities_names m))).

Definition oc_decode_capabilities : rd oc_capabilities :=
  n <- oc_r_u8 ;;
  _ <- r_fail_if (OC_CAP_MAX <? n) ;;
  names <- r_for (Z.to_nat n) oc_r_str ;;
  r_done (mk_oc_capabilities n names).

Definition wf_capabilities (m : oc_capabilities) : Prop :=
  wf_oc_capabilities m ∧
  capabilities_count m = zlen (capabilities_names m) ∧
  zlen (capabilities_names m) <= OC_CAP_MAX.
#[export] Hint Unfold wf_capabilities : wf.

Definition capabilities_codec : frame_codec :=
  FrameCodec oc_capabilities OC_MSG_CAPABILITIES id oc_encode_capabilities oc_decode_capabilities wf_capabilities.
Lemma capabilities_lawful : fc_lawful capabilities_codec.
Proof. lawful_with capabilities_codec oc_encode_capabilities oc_decode_capabilities is_bytes. Qed.
Lemma capabilities_safe : rd_safe oc_decode_capabilities.
Proof. unfold oc_decode_capabilities; solve_safe. Qed.

(** Keys and values alternate on the wire. *)
Definition oc_encode_workspace_settings (version : Z) (m : oc_workspace_settings) : encoder :=
  let n := clamp OC_WS_SETTINGS_MAX (workspace_settings_count m) in
  frame version OC_MSG_WORKSPACE_SETTINGS (
    oc_w_u8 n ;;
    w_each (fun x => oc_w_str (fst x) ;; oc_w_str (snd x))
      (zip (ztake n (workspace_settings_keys m)) (ztake n (workspace_settings_values m)))).

Definition oc_decode_workspace_settings : rd oc_workspace_settings :=
  n <- oc_r_u8 ;;
  _ <- r_fail_if (OC_WS_SETTINGS_MAX <? n) ;;
  pairs <- r_for (Z.to_nat n) (
    key <- oc_r_str ;;
    value <- oc_r_str ;;
    rret (key, value)) ;;
  r_done (mk_oc_workspace_settings n pairs.*1 pairs.*2).

Definition wf_workspace_settings (m : oc_workspace_settings) : Prop :=
  wf_oc_workspace_settings m ∧
  workspace_settings_count m = zlen (workspace_settings_keys m) ∧
  zlen (workspace_settings_values m) = zlen (workspace_settings_keys m) ∧
  zlen (workspace_settings_keys m) <= OC_WS_SETTINGS_MAX.

Definition workspace_settings_codec : frame_codec :=
  FrameCodec oc_workspace_settings OC_MSG_WORKSPACE_SETTINGS id
    oc_encode_workspace_settings oc_decode_workspace_settings wf_workspace_settings.

Lemma workspace_settings_encodes version m : wf_workspace_settings m →
  Encodes (oc_encode_workspace_settings version m) version OC_MSG_WORKSPACE_SETTINGS
    (oapp (Some [workspace_settings_count m])
       (oconcat ((fun x => oapp (str_bytes (fst x)) (str_bytes (snd x))) <$>
          zip (workspace_settings_keys m) (workspace_settings_values m)))).
Proof.
  intros (_ & Hc & Hv & Hm). unfold oc_encode_workspace_settings.
  rewrite Hc, clamp_le by done. rewrite <- Hv at 3. rewrite !ztake_zlen. solve_writes.
Qed.
Lemma workspace_settings_parses m : wf_workspace_settings m →
  ParsesAll oc_decode_workspace_settings
    (oapp (Some [workspace_settings_count m])
       (oconcat ((fun x => oapp (str_bytes (fst x)) (str_bytes (snd x))) <$>
          zip (workspace_settings_keys m) (workspace_settings_values m)))) m.
Proof.
  destruct m as [n keys values]. intros (_ & Hc & Hv & Hm). simpl in *. subst n.
  unfold oc_decode_workspace_settings. eapply parses_all_bind; [apply parses_u8|].
  apply parses_all_fail_if; [wire_guard|].
  assert (Hl : length keys = length values) by (unfold zlen in Hv; lia).
  eapply parses_all_last_eq.
  - rewrite zlen_to_nat. replace (length keys) with (length (zip keys values))
      by (rewrite length_zip_with; lia).
    apply parses_for. intros [k v] _. simpl. repeat parses_elem_step.
  - simpl. by rewrite fst_zip, snd_zip by lia.
Qed.
Lemma workspace_settings_lawful : fc_lawful workspace_settings_codec.
Proof.
  eexists. split; [exact workspace_settings_encodes|]. split; [exact workspace_settings_parses|].
  unfold workspace_settings_codec, oc_decode_workspace_settings. fc_open.
  solve_done (fun x : list Z * list Z => is_bytes (fst x) ∧ is_bytes (snd x)).
  done_finish. simpl. bool_facts. rename select (list (list Z * list Z)) into pairs.
  rewrite zip_fst_snd. split.
  - unfold wf_workspace_settings, wf_oc_workspace_settings. simpl.
    assert (E : zlen pairs.*1 = zlen pairs ∧ zlen pairs.*2 = zlen pairs)
      by (unfold zlen; by rewrite !length_fmap).
    destruct E as [-> ->]. rewrite !Forall_fmap.
    rename select (Forall _ pairs) into Hp. split_and!; try done;
      (eapply List.Forall_impl; [|exact Hp]; by intros x [? ?]).
  - use_bytes. done_bytes.
Qed.
Lemma workspace_settings_safe : rd_safe oc_decode_workspace_settings.
Proof. unfold oc_decode_workspace_settings; solve_safe. Qed.

Definition oc_encode_voice_preview_get (version : Z) (m : oc_voice_preview_get) : encoder :=
  frame version OC_MSG_VOICE_PREVIEW_GET (
    oc_w_str (voice_preview_get_voice_id m)).

Definition oc_decode_voice_preview_get : rd oc_voice_preview_get :=
  voice_id <- oc_r_str ;;
  r_done (mk_oc_voice_preview_get voice_id).

Definition voice_preview_get_codec : frame_codec :=
  FrameCodec oc_voice_preview_get OC_MSG_VOICE_PREVIEW_GET id oc_encode_voice_preview_get oc_decode_voice_preview_get wf_oc_voice_preview_get.
Lemma voice_preview_get_lawful : fc_lawful voice_preview_get_codec.
Proof. lawful voice_preview_get_codec oc_encode_voice_preview_get oc_decode_voice_preview_get. Qed.
Lemma voice_preview_get_safe : rd_safe oc_decode_voice_preview_get.
Proof. unfold oc_decode_voice_preview_get; solve_safe. Qed.

Definition oc_encode_stt_info (version : Z) (m : oc_stt_info) : encoder :=
  frame version OC_MSG_STT_INFO (
    oc_w_str (stt_info_model_version m) ;;
    oc_w_str (stt_info_lang m) ;;
    oc_w_u32 (stt_info_max_segment_ms m)).

Definition oc_decode_stt_info : rd oc_stt_info :=
  model_version <- oc_r_str ;;
  lang <- oc_r_str ;;
  max_segment_ms <- oc_r_u32 ;;
  r_done (mk_oc_stt_info model_version lang max_segment_ms).

Definition stt_info_codec : frame_codec :=
  FrameCodec oc_stt_info OC_MSG_STT_INFO id oc_encode_stt_info oc_decode_stt_info wf_oc_stt_info.
Lemma stt_info_lawful : fc_lawful stt_info_codec.
Proof. lawful stt_info_codec oc_encode_stt_info oc_decode_stt_info. Qed.
Lemma stt_info_safe : rd_safe oc_decode_stt_info.
Proof. unfold oc_decode_stt_info; solve_safe. Qed.

Definition oc_encode_stt_begin (version : Z) (m : oc_stt_begin) : encoder :=
  frame version OC_MSG_STT_BEGIN (
    oc_w_u32 (stt_begin_segment_id m) ;;
    oc_w_u8 (stt_begin_mode m) ;;
    oc_w_u64 (stt_begin_channel_id m) ;;
    oc_w_u64 (stt_begin_thread_root m) ;;
    oc_w_idem (stt_begin_idem m) ;;
    oc_w_u32 (stt_begin_sample_count m)).

Definition oc_decode_stt_begin : rd oc_stt_begin :=
  segment_id <- oc_r_u32 ;;
  mode <- oc_r_u8 ;;
  channel_id <- oc_r_u64 ;;
  thread_root <- oc_r_u64 ;;
  idem <- oc_r_idem ;;
  sample_count <- oc_r_u32 ;;
  r_done (mk_oc_stt_begin segment_id mode channel_id thread_root idem sample_count).

Definition stt_begin_codec : frame_codec :=
  FrameCodec oc_stt_begin OC_MSG_STT_BEGIN id oc_encode_stt_begin oc_decode_stt_begin wf_oc_stt_begin.
Lemma stt_begin_lawful : fc_lawful stt_begin_codec.
Proof. lawful stt_begin_codec oc_encode_stt_begin oc_decode_stt_begin. Qed.
Lemma stt_begin_safe : rd_safe oc_decode_stt_begin.
Proof. unfold oc_decode_stt_begin; solve_safe. Qed.

Definition oc_encode_stt_chunk (version : Z) (m : oc_stt_chunk) : encoder :=
  frame version OC_MSG_STT_CHUNK (
    oc_w_u32 (stt_chunk_segment_id m) ;;
    oc_w_u32 (stt_chunk_seq m) ;;
    oc_w_bytes (stt_chunk_data m)).

Definition oc_decode_stt_chunk : rd oc_stt_chunk :=
  segment_id <- oc_r_u32 ;;
  seq <- oc_r_u32 ;;
  data <- oc_r_bytes ;;
  r_done (mk_oc_stt_chunk segment_id seq data).

Definition stt_chunk_codec : frame_codec :=
  FrameCodec oc_stt_chunk OC_MSG_STT_CHUNK id oc_encode_stt_chunk oc_decode_stt_chunk wf_oc_stt_chunk.
Lemma stt_chunk_lawful : fc_lawful stt_chunk_codec.
Proof. lawful stt_chunk_codec oc_encode_stt_chunk oc_decode_stt_chunk. Qed.
Lemma stt_chunk_safe : rd_safe oc_decode_stt_chunk.
Proof. unfold oc_decode_stt_chunk; solve_safe. Qed.

Definition oc_encode_stt_end (version : Z) (m : oc_stt_end) : encoder :=
  frame version OC_MSG_STT_END (
    oc_w_u32 (stt_end_segment_id m)).

Definition oc_decode_stt_end : rd oc_stt_end :=
  segment_id <- oc_r_u32 ;;
  r_done (mk_oc_stt_end segment_id).

Definition stt_end_codec : frame_codec :=
  FrameCodec oc_stt_end OC_MSG_STT_END id oc_encode_stt_end oc_decode_stt_end wf_oc_stt_end.
Lemma stt_end_lawful : fc_lawful stt_end_codec.
Proof. lawful stt_end_codec oc_encode_stt_end oc_decode_stt_end. Qed.
Lemma stt_end_safe : rd_safe oc_decode_stt_end.
Proof. unfold oc_decode_stt_end; solve_safe. Qed.

Definition oc_encode_stt_text (version : Z) (m : oc_stt_text) : encoder :=
  frame version OC_MSG_STT_TEXT (
    oc_w_u32 (stt_text_segment_id m) ;;
    oc_w_u64 (stt_text_message_id m) ;;
    oc_w_str (stt_text_text m)).

Definition oc_decode_stt_text : rd oc_stt_text :=
  segment_id <- oc_r_u32 ;;
  message_id <- oc_r_u64 ;;
  text <- oc_r_str ;;
  r_done (mk_oc_stt_text segment_id message_id text).

Definition stt_text_codec : frame_codec :=
  FrameCodec oc_stt_text OC_MSG_STT_TEXT id oc_encode_stt_text oc_decode_stt_text wf_oc_stt_text.
Lemma stt_text_lawful : fc_lawful stt_text_codec.
Proof. lawful stt_text_codec oc_encode_stt_text oc_decode_stt_text. Qed.
Lemma stt_text_safe : rd_safe oc_decode_stt_text.
Proof. unfold oc_decode_stt_text; solve_safe. Qed.

Definition oc_encode_audio_get (version : Z) (m : oc_audio_get) : encoder :=
  frame version OC_MSG_AUDIO_GET (
    oc_w_u64 (audio_get_message_id m)).

Definition oc_decode_audio_get : rd oc_audio_get :=
  message_id <- oc_r_u64 ;;
  r_done (mk_oc_audio_get message_id).

Definition audio_get_codec : frame_codec :=
  FrameCodec oc_audio_get OC_MSG_AUDIO_GET id oc_encode_audio_get oc_decode_audio_get wf_oc_audio_get.
Lemma audio_get_lawful : fc_lawful audio_get_codec.
Proof. lawful audio_get_codec oc_encode_audio_get oc_decode_audio_get. Qed.
Lemma audio_get_safe : rd_safe oc_decode_audio_get.
Proof. unfold oc_decode_audio_get; solve_safe. Qed.

Definition oc_encode_audio_info (version : Z) (m : oc_audio_info) : encoder :=
  frame version OC_MSG_AUDIO_INFO (
    oc_w_u64 (audio_info_message_id m) ;;
    oc_w_u32 (audio_info_duration_ms m) ;;
    oc_w_u64 (audio_info_total_size m)).

Definition oc_decode_audio_info : rd oc_audio_info :=
  message_id <- oc_r_u64 ;;
  duration_ms <- oc_r_u32 ;;
  total_size <- oc_r_u64 ;;
  r_done (mk_oc_audio_info message_id duration_ms total_size).

Definition audio_info_codec : frame_codec :=
  FrameCodec oc_audio_info OC_MSG_AUDIO_INFO id oc_encode_audio_info oc_decode_audio_info wf_oc_audio_info.
Lemma audio_info_lawful : fc_lawful audio_info_codec.
Proof. lawful audio_info_codec oc_encode_audio_info oc_decode_audio_info. Qed.
Lemma audio_info_safe : rd_safe oc_decode_audio_info.
Proof. unfold oc_decode_audio_info; solve_safe. Qed.

Definition oc_encode_audio_chunk (version : Z) (m : oc_audio_chunk) : encoder :=
  frame version OC_MSG_AUDIO_CHUNK (
    oc_w_u64 (audio_chunk_message_id m) ;;
    oc_w_u32 (audio_chunk_seq m) ;;
    oc_w_bytes (audio_chunk_data m)).

Definition oc_decode_audio_chunk : rd oc_audio_chunk :=
  message_id <- oc_r_u64 ;;
  seq <- oc_r_u32 ;;
  data <- oc_r_bytes ;;
  r_done (mk_oc_audio_chunk message_id seq data).

Definition audio_chunk_codec : frame_codec :=
  FrameCodec oc_audio_chunk OC_MSG_AUDIO_CHUNK id oc_encode_audio_chunk oc_decode_audio_chunk wf_oc_audio_chunk.
Lemma audio_chunk_lawful : fc_lawful audio_chunk_codec.
Proof. lawful audio_chunk_codec oc_encode_audio_chunk oc_decode_audio_chunk. Qed.
Lemma audio_chunk_safe : rd_safe oc_decode_audio_chunk.
Proof. unfold oc_decode_audio_chunk; solve_safe. Qed.

Definition oc_encode_audio_end (version : Z) (m : oc_audio_end) : encoder :=
  frame version OC_MSG_AUDIO_END (
    oc_w_u64 (audio_end_message_id m)).

Definition oc_decode_audio_end : rd oc_audio_end :=
  message_id <- oc_r_u64 ;;
  r_done (mk_oc_audio_end message_id).

Definition audio_end_codec : frame_codec :=
  FrameCodec oc_audio_end OC_MSG_AUDIO_END id oc_encode_audio_end oc_decode_audio_end wf_oc_audio_end.
Lemma audio_end_lawful : fc_lawful audio_end_codec.
Proof. lawful audio_end_codec oc_encode_audio_end oc_decode_audio_end. Qed.
Lemma audio_end_safe : rd_safe oc_decode_audio_end.
Proof. unfold oc_decode_audio_end; solve_safe. Qed.

Definition oc_encode_download_begin (version : Z) (m : oc_download_begin) : encoder :=
  frame version OC_MSG_DOWNLOAD_BEGIN (
    oc_w_u64 (download_begin_attachment_id m)).

Definition oc_decode_download_begin : rd oc_download_begin :=
  attachment_id <- oc_r_u64 ;;
  r_done (mk_oc_download_begin attachment_id).

Definition download_begin_codec : frame_codec :=
  FrameCodec oc_download_begin OC_MSG_DOWNLOAD_BEGIN id oc_encode_download_begin oc_decode_download_begin wf_oc_download_begin.
Lemma download_begin_lawful : fc_lawful download_begin_codec.
Proof. lawful download_begin_codec oc_encode_download_begin oc_decode_download_begin. Qed.
Lemma download_begin_safe : rd_safe oc_decode_download_begin.
Proof. unfold oc_decode_download_begin; solve_safe. Qed.

Definition oc_encode_download_info (version : Z) (m : oc_download_info) : encoder :=
  frame version OC_MSG_DOWNLOAD_INFO (
    oc_w_u64 (download_info_attachment_id m) ;;
    oc_w_str (download_info_filename m) ;;
    oc_w_str (download_info_mime m) ;;
    oc_w_u64 (download_info_total_size m) ;;
    oc_w_bytes (download_info_sha256 m)).

Definition oc_decode_download_info : rd oc_download_info :=
  attachment_id <- oc_r_u64 ;;
  filename <- oc_r_str ;;
  mime <- oc_r_str ;;
  total_size <- oc_r_u64 ;;
  sha256 <- oc_r_bytes ;;
  r_done (mk_oc_download_info attachment_id filename mime total_size sha256).

Definition download_info_codec : frame_codec :=
  FrameCodec oc_download_info OC_MSG_DOWNLOAD_INFO id oc_encode_download_info oc_decode_download_info wf_oc_download_info.
Lemma download_info_lawful : fc_lawful download_info_codec.
Proof. lawful download_info_codec oc_encode_download_info oc_decode_download_info. Qed.
Lemma download_info_safe : rd_safe oc_decode_download_info.
Proof. unfold oc_decode_download_info; solve_safe. Qed.

Definition oc_encode_download_chunk (version : Z) (m : oc_download_chunk) : encoder :=
  frame version OC_MSG_DOWNLOAD_CHUNK (
    oc_w_u64 (download_chunk_attachment_id m) ;;
    oc_w_u32 (download_chunk_seq m) ;;
    oc_w_bytes (download_chunk_data m)).

Definition oc_decode_download_chunk : rd oc_download_chunk :=
  attachment_id <- oc_r_u64 ;;
  seq <- oc_r_u32 ;;
  data <- oc_r_bytes ;;
  r_done (mk_oc_download_chunk attachment_id seq data).

Definition download_chunk_codec : frame_codec :=
  FrameCodec oc_download_chunk OC_MSG_DOWNLOAD_CHUNK id oc_encode_download_chunk oc_decode_download_chunk wf_oc_download_chunk.
Lemma download_chunk_lawful : fc_lawful download_chunk_codec.
Proof. lawful download_chunk_codec oc_encode_download_chunk oc_decode_download_chunk. Qed.
Lemma download_chunk_safe : rd_safe oc_decode_download_chunk.
Proof. unfold oc_decode_download_chunk; solve_safe. Qed.

Definition oc_encode_download_end (version : Z) (m : oc_download_end) : encoder :=
  frame version OC_MSG_DOWNLOAD_END (
    oc_w_u64 (download_end_attachment_id m)).

Definition oc_decode_download_end : rd oc_download_end :=
  attachment_id <- oc_r_u64 ;;
  r_done (mk_oc_download_end attachment_id).

Definition download_end_codec : frame_codec :=
  FrameCodec oc_download_end OC_MSG_DOWNLOAD_END id oc_encode_download_end oc_decode_download_end wf_oc_download_end.
Lemma download_end_lawful : fc_lawful download_end_codec.
Proof. lawful download_end_codec oc_encode_download_end oc_decode_download_end. Qed.
Lemma download_end_safe : rd_safe oc_decode_download_end.
Proof. unfold oc_decode_download_end; solve_safe. Qed.

Definition oc_encode_transfer_cancel (version : Z) (m : oc_transfer_cancel) : encoder :=
  frame version OC_MSG_TRANSFER_CANCEL (
    oc_w_u64 (transfer_cancel_attachment_id m)).

Definition oc_decode_transfer_cancel : rd oc_transfer_cancel :=
  attachment_id <- oc_r_u64 ;;
  r_done (mk_oc_transfer_cancel attachment_id).

Definition transfer_cancel_codec : frame_codec :=
  FrameCodec oc_transfer_cancel OC_MSG_TRANSFER_CANCEL id oc_encode_transfer_cancel oc_decode_transfer_cancel wf_oc_transfer_cancel.
Lemma transfer_cancel_lawful : fc_lawful transfer_cancel_codec.
Proof. lawful transfer_cancel_codec oc_encode_transfer_cancel oc_decode_transfer_cancel. Qed.
Lemma transfer_cancel_safe : rd_safe oc_decode_transfer_cancel.
Proof. unfold oc_decode_transfer_cancel; solve_safe. Qed.

(** ** The frames of this file

    [cap] is the length of the array a decoder is given, where it takes one. *)

Definition media_lawful_codecs (cap : Z) : list frame_codec :=
  [upload_begin_codec; upload_ready_codec; upload_chunk_codec; upload_ack_codec;
   upload_end_codec; upload_ok_codec; tts_info_codec; capabilities_codec;
   workspace_settings_codec; voice_preview_get_codec; stt_info_codec; stt_begin_codec;
   stt_chunk_codec; stt_end_codec; stt_text_codec; audio_get_codec; audio_info_codec;
   audio_chunk_codec; audio_end_codec; download_begin_codec; download_info_codec;
   download_chunk_codec; download_end_codec; transfer_cancel_codec].

Lemma media_lawful cap : Forall fc_lawful (media_lawful_codecs cap).
Proof.
  apply List.Forall_cons; [exact upload_begin_lawful|].
  apply List.Forall_cons; [exact upload_ready_lawful|].
  apply List.Forall_cons; [exact upload_chunk_lawful|].
  apply List.Forall_cons; [exact upload_ack_lawful|].
  apply List.Forall_cons; [exact upload_end_lawful|].
  apply List.Forall_cons; [exact upload_ok_lawful|].
  apply List.Forall_cons; [exact tts_info_lawful|].
  apply List.Forall_cons; [exact capabilities_lawful|].
  apply List.Forall_cons; [exact workspace_settings_lawful|].
  apply List.Forall_cons; [exact voice_preview_get_lawful|].
  apply List.Forall_cons; [exact stt_info_lawful|].
  apply List.Forall_cons; [exact stt_begin_lawful|].
  apply List.Forall_cons; [exact stt_chunk_lawful|].
  apply List.Forall_cons; [exact stt_end_lawful|].
  apply List.Forall_cons; [exact stt_text_lawful|].
  apply List.Forall_cons; [exact audio_get_lawful|].
  apply List.Forall_cons; [exact audio_info_lawful|].
  apply List.Forall_cons; [exact audio_chunk_lawful|].
  apply List.Forall_cons; [exact audio_end_lawful|].
  apply List.Forall_cons; [exact download_begin_lawful|].
  apply List.Forall_cons; [exact download_info_lawful|].
  apply List.Forall_cons; [exact download_chunk_lawful|].
  apply List.Forall_cons; [exact download_end_lawful|].
  apply List.Forall_cons; [exact transfer_cancel_lawful|].
  apply List.Forall_nil.
Qed.
Definition media_complete_codecs (cap : Z) : list frame_codec :=
  [].

Lemma media_complete cap : Forall fc_complete (media_complete_codecs cap).
Proof.
  apply List.Forall_nil.
Qed.
Lemma media_safe cap :
  Forall (fun c => rd_safe (fc_decode c)) (media_lawful_codecs cap ++ media_complete_codecs cap).
Proof.
  apply List.Forall_cons; [exact upload_begin_safe|].
  apply List.Forall_cons; [exact upload_ready_safe|].
  apply List.Forall_cons; [exact upload_chunk_safe|].
  apply List.Forall_cons; [exact upload_ack_safe|].
  apply List.Forall_cons; [exact upload_end_safe|].
  apply List.Forall_cons; [exact upload_ok_safe|].
  apply List.Forall_cons; [exact tts_info_safe|].
  apply List.Forall_cons; [exact capabilities_safe|].
  apply List.Forall_cons; [exact workspace_settings_safe|].
  apply List.Forall_cons; [exact voice_preview_get_safe|].
  apply List.Forall_cons; [exact stt_info_safe|].
  apply List.Forall_cons; [exact stt_begin_safe|].
  apply List.Forall_cons; [exact stt_chunk_safe|].
  apply List.Forall_cons; [exact stt_end_safe|].
  apply List.Forall_cons; [exact stt_text_safe|].
  apply List.Forall_cons; [exact audio_get_safe|].
  apply List.Forall_cons; [exact audio_info_safe|].
  apply List.Forall_cons; [exact audio_chunk_safe|].
  apply List.Forall_cons; [exact audio_end_safe|].
  apply List.Forall_cons; [exact download_begin_safe|].
  apply List.Forall_cons; [exact download_info_safe|].
  apply List.Forall_cons; [exact download_chunk_safe|].
  apply List.Forall_cons; [exact download_end_safe|].
  apply List.Forall_cons; [exact transfer_cancel_safe|].
  apply List.Forall_nil.
Qed.

(** Requests without a payload, as the type and the encoder. *)
Definition media_bare_frames : list (oc_msg_type * (Z → encoder)) :=
  [].
