(* ===== verification/ProtoUsers.v ===== *)
(** * Frames of [shared/protocol.c]: membership, users, search and backfill

    Each frame is the encoder and the decoder as the source has them, the
    [frame_codec] that pairs them, the proof of its laws, and that its decoder
    stays inside its buffer. *)
From stdpp Require Import base tactics list numbers.
From S2P Require Import Prelude Wire WireLogic WireRead WireFrame ProtoTypes.
Local Open Scope Z_scope.
Local Open Scope wire_scope.

Definition oc_encode_join_channel (version : Z) (m : oc_channel_ref) : encoder :=
  frame version OC_MSG_JOIN_CHANNEL (
    oc_w_u64 (channel_ref_channel_id m)).

Definition oc_decode_join_channel : rd oc_channel_ref :=
  channel_id <- oc_r_u64 ;;
  r_done (mk_oc_channel_ref channel_id).

Definition join_channel_codec : frame_codec :=
  FrameCodec oc_channel_ref OC_MSG_JOIN_CHANNEL id oc_encode_join_channel oc_decode_join_channel wf_oc_channel_ref.
Lemma join_channel_lawful : fc_lawful join_channel_codec.
Proof. lawful join_channel_codec oc_encode_join_channel oc_decode_join_channel. Qed.
Lemma join_channel_safe : rd_safe oc_decode_join_channel.
Proof. unfold oc_decode_join_channel; solve_safe. Qed.

Definition oc_encode_leave_channel (version : Z) (m : oc_channel_ref) : encoder :=
  frame version OC_MSG_LEAVE_CHANNEL (
    oc_w_u64 (channel_ref_channel_id m)).

Definition oc_decode_leave_channel : rd oc_channel_ref :=
  channel_id <- oc_r_u64 ;;
  r_done (mk_oc_channel_ref channel_id).

Definition leave_channel_codec : frame_codec :=
  FrameCodec oc_channel_ref OC_MSG_LEAVE_CHANNEL id oc_encode_leave_channel oc_decode_leave_channel wf_oc_channel_ref.
Lemma leave_channel_lawful : fc_lawful leave_channel_codec.
Proof. lawful leave_channel_codec oc_encode_leave_channel oc_decode_leave_channel. Qed.
Lemma leave_channel_safe : rd_safe oc_decode_leave_channel.
Proof. unfold oc_decode_leave_channel; solve_safe. Qed.

Definition oc_encode_invite_to_channel (version : Z) (m : oc_channel_member_op) : encoder :=
  frame version OC_MSG_INVITE_TO_CHANNEL (
    oc_w_u64 (channel_member_op_channel_id m) ;;
    oc_w_u64 (channel_member_op_user_id m)).

Definition oc_decode_invite_to_channel : rd oc_channel_member_op :=
  channel_id <- oc_r_u64 ;;
  user_id <- oc_r_u64 ;;
  r_done (mk_oc_channel_member_op channel_id user_id).

Definition invite_to_channel_codec : frame_codec :=
  FrameCodec oc_channel_member_op OC_MSG_INVITE_TO_CHANNEL id oc_encode_invite_to_channel oc_decode_invite_to_channel wf_oc_channel_member_op.
Lemma invite_to_channel_lawful : fc_lawful invite_to_channel_codec.
Proof. lawful invite_to_channel_codec oc_encode_invite_to_channel oc_decode_invite_to_channel. Qed.
Lemma invite_to_channel_safe : rd_safe oc_decode_invite_to_channel.
Proof. unfold oc_decode_invite_to_channel; solve_safe. Qed.

Definition oc_encode_remove_from_channel (version : Z) (m : oc_channel_member_op) : encoder :=
  frame version OC_MSG_REMOVE_FROM_CHANNEL (
    oc_w_u64 (channel_member_op_channel_id m) ;;
    oc_w_u64 (channel_member_op_user_id m)).

Definition oc_decode_remove_from_channel : rd oc_channel_member_op :=
  channel_id <- oc_r_u64 ;;
  user_id <- oc_r_u64 ;;
  r_done (mk_oc_channel_member_op channel_id user_id).

Definition remove_from_channel_codec : frame_codec :=
  FrameCodec oc_channel_member_op OC_MSG_REMOVE_FROM_CHANNEL id oc_encode_remove_from_channel oc_decode_remove_from_channel wf_oc_channel_member_op.
Lemma remove_from_channel_lawful : fc_lawful remove_from_channel_codec.
Proof. lawful remove_from_channel_codec oc_encode_remove_from_channel oc_decode_remove_from_channel. Qed.
Lemma remove_from_channel_safe : rd_safe oc_decode_remove_from_channel.
Proof. unfold oc_decode_remove_from_channel; solve_safe. Qed.

Definition oc_encode_list_users (version : Z) : encoder :=
  frame version OC_MSG_LIST_USERS id.

Definition oc_decode_list_users : rd unit := r_done tt.

Definition list_users_codec : frame_codec :=
  FrameCodec unit OC_MSG_LIST_USERS id (fun version _ => oc_encode_list_users version) oc_decode_list_users (fun _ => True).
Lemma list_users_lawful : fc_lawful list_users_codec.
Proof. lawful_empty list_users_codec oc_encode_list_users oc_decode_list_users. Qed.
Lemma list_users_safe : rd_safe oc_decode_list_users.
Proof. unfold oc_decode_list_users; solve_safe. Qed.

Definition oc_encode_user_list (version : Z) (m : oc_user_list) : encoder :=
  frame version OC_MSG_USER_LIST (
    oc_w_u16 (user_list_count m) ;;
    w_each (fun x =>
      oc_w_u64 (user_list_entry_user_id x) ;;
      oc_w_u8 (user_list_entry_role x) ;;
      oc_w_u8 (user_list_entry_disabled x) ;;
      oc_w_str (user_list_entry_email x) ;;
      oc_w_str (user_list_entry_display_name x) ;;
      oc_w_u64 (user_list_entry_avatar_id x) ;;
      oc_w_str (user_list_entry_title x) ;;
      oc_w_str (user_list_entry_timezone x) ;;
      oc_w_str (user_list_entry_status_emoji x) ;;
      oc_w_str (user_list_entry_status_text x) ;;
      oc_w_str (user_list_entry_full_name x) ;;
      oc_w_str (user_list_entry_pronouns x) ;;
      oc_w_str (user_list_entry_voice_id x) ;;
      oc_w_u8 (user_list_entry_flags x)) (ztake (user_list_count m) (user_list_entries m))).

Definition oc_decode_user_list (cap : Z) : rd oc_user_list :=
  count <- oc_r_u16 ;;
  entries <- r_for_ok (Z.to_nat count) (
    uid <- oc_r_u64 ;;
    role <- oc_r_u8 ;;
    disabled <- oc_r_u8 ;;
    email <- oc_r_str ;;
    name <- oc_r_str ;;
    avatar <- oc_r_u64 ;;
    title <- oc_r_str ;;
    tz <- oc_r_str ;;
    semoji <- oc_r_str ;;
    stext <- oc_r_str ;;
    fname <- oc_r_str ;;
    prn <- oc_r_str ;;
    voice <- oc_r_str ;;
    flags <- oc_r_u8 ;;
    rret (mk_oc_user_list_entry uid role disabled email name avatar title tz semoji stext fname prn voice flags)) ;;
  r_done (mk_oc_user_list count (ztake cap entries)).

Definition wf_user_list (cap : Z) (m : oc_user_list) : Prop :=
  wf_oc_user_list m ∧
  user_list_count m = zlen (user_list_entries m) ∧
  zlen (user_list_entries m) <= cap.
#[export] Hint Unfold wf_user_list : wf.

Definition user_list_codec (cap : Z) : frame_codec :=
  FrameCodec oc_user_list OC_MSG_USER_LIST id oc_encode_user_list (oc_decode_user_list cap) (wf_user_list cap).
Lemma user_list_complete cap : fc_complete (user_list_codec cap).
Proof. complete user_list_codec oc_encode_user_list oc_decode_user_list. Qed.
Lemma user_list_safe cap : rd_safe (oc_decode_user_list cap).
Proof. unfold oc_decode_user_list; solve_safe. Qed.

Definition oc_encode_set_role (version : Z) (m : oc_set_role) : encoder :=
  frame version OC_MSG_SET_ROLE (
    oc_w_u64 (set_role_user_id m) ;;
    oc_w_u8 (set_role_role m)).

Definition oc_decode_set_role : rd oc_set_role :=
  user_id <- oc_r_u64 ;;
  role <- oc_r_u8 ;;
  r_done (mk_oc_set_role user_id role).

Definition set_role_codec : frame_codec :=
  FrameCodec oc_set_role OC_MSG_SET_ROLE id oc_encode_set_role oc_decode_set_role wf_oc_set_role.
Lemma set_role_lawful : fc_lawful set_role_codec.
Proof. lawful set_role_codec oc_encode_set_role oc_decode_set_role. Qed.
Lemma set_role_safe : rd_safe oc_decode_set_role.
Proof. unfold oc_decode_set_role; solve_safe. Qed.

Definition oc_encode_invite_user (version : Z) (m : oc_invite_user) : encoder :=
  frame version OC_MSG_INVITE_USER (
    oc_w_u8 (invite_user_role m) ;;
    oc_w_str (invite_user_email m) ;;
    oc_w_u16 (invite_user_uses m)).

Definition oc_decode_invite_user : rd oc_invite_user :=
  role <- oc_r_u8 ;;
  email <- oc_r_str ;;
  uses <- oc_r_u16 ;;
  r_done (mk_oc_invite_user role email uses).

Definition invite_user_codec : frame_codec :=
  FrameCodec oc_invite_user OC_MSG_INVITE_USER id oc_encode_invite_user oc_decode_invite_user wf_oc_invite_user.
Lemma invite_user_lawful : fc_lawful invite_user_codec.
Proof. lawful invite_user_codec oc_encode_invite_user oc_decode_invite_user. Qed.
Lemma invite_user_safe : rd_safe oc_decode_invite_user.
Proof. unfold oc_decode_invite_user; solve_safe. Qed.

Definition oc_encode_remove_user (version : Z) (m : oc_remove_user) : encoder :=
  frame version OC_MSG_REMOVE_USER (
    oc_w_u64 (remove_user_user_id m)).

Definition oc_decode_remove_user : rd oc_remove_user :=
  user_id <- oc_r_u64 ;;
  r_done (mk_oc_remove_user user_id).

Definition remove_user_codec : frame_codec :=
  FrameCodec oc_remove_user OC_MSG_REMOVE_USER id oc_encode_remove_user oc_decode_remove_user wf_oc_remove_user.
Lemma remove_user_lawful : fc_lawful remove_user_codec.
Proof. lawful remove_user_codec oc_encode_remove_user oc_decode_remove_user. Qed.
Lemma remove_user_safe : rd_safe oc_decode_remove_user.
Proof. unfold oc_decode_remove_user; solve_safe. Qed.

Definition oc_encode_reset_credential (version : Z) (m : oc_reset_credential) : encoder :=
  frame version OC_MSG_RESET_CREDENTIAL (
    oc_w_u64 (reset_credential_user_id m) ;;
    oc_w_u8 (reset_credential_clear_factors m)).

Definition oc_decode_reset_credential : rd oc_reset_credential :=
  user_id <- oc_r_u64 ;;
  clear_factors <- oc_r_u8 ;;
  r_done (mk_oc_reset_credential user_id clear_factors).

Definition reset_credential_codec : frame_codec :=
  FrameCodec oc_reset_credential OC_MSG_RESET_CREDENTIAL id oc_encode_reset_credential oc_decode_reset_credential wf_oc_reset_credential.
Lemma reset_credential_lawful : fc_lawful reset_credential_codec.
Proof. lawful reset_credential_codec oc_encode_reset_credential oc_decode_reset_credential. Qed.
Lemma reset_credential_safe : rd_safe oc_decode_reset_credential.
Proof. unfold oc_decode_reset_credential; solve_safe. Qed.

Definition oc_encode_credential_reset (version : Z) (m : oc_credential_reset) : encoder :=
  frame version OC_MSG_CREDENTIAL_RESET (
    oc_w_u64 (credential_reset_user_id m) ;;
    oc_w_str (credential_reset_token m)).

Definition oc_decode_credential_reset : rd oc_credential_reset :=
  user_id <- oc_r_u64 ;;
  token <- oc_r_str ;;
  r_done (mk_oc_credential_reset user_id token).

Definition credential_reset_codec : frame_codec :=
  FrameCodec oc_credential_reset OC_MSG_CREDENTIAL_RESET id oc_encode_credential_reset oc_decode_credential_reset wf_oc_credential_reset.
Lemma credential_reset_lawful : fc_lawful credential_reset_codec.
Proof. lawful credential_reset_codec oc_encode_credential_reset oc_decode_credential_reset. Qed.
Lemma credential_reset_safe : rd_safe oc_decode_credential_reset.
Proof. unfold oc_decode_credential_reset; solve_safe. Qed.

Definition oc_encode_enable_user (version : Z) (m : oc_enable_user) : encoder :=
  frame version OC_MSG_ENABLE_USER (
    oc_w_u64 (enable_user_user_id m)).

Definition oc_decode_enable_user : rd oc_enable_user :=
  user_id <- oc_r_u64 ;;
  r_done (mk_oc_enable_user user_id).

Definition enable_user_codec : frame_codec :=
  FrameCodec oc_enable_user OC_MSG_ENABLE_USER id oc_encode_enable_user oc_decode_enable_user wf_oc_enable_user.
Lemma enable_user_lawful : fc_lawful enable_user_codec.
Proof. lawful enable_user_codec oc_encode_enable_user oc_decode_enable_user. Qed.
Lemma enable_user_safe : rd_safe oc_decode_enable_user.
Proof. unfold oc_decode_enable_user; solve_safe. Qed.

Definition oc_encode_get_profile (version : Z) (m : oc_get_profile) : encoder :=
  frame version OC_MSG_GET_PROFILE (
    oc_w_u64 (get_profile_user_id m)).

Definition oc_decode_get_profile : rd oc_get_profile :=
  user_id <- oc_r_u64 ;;
  r_done (mk_oc_get_profile user_id).

Definition get_profile_codec : frame_codec :=
  FrameCodec oc_get_profile OC_MSG_GET_PROFILE id oc_encode_get_profile oc_decode_get_profile wf_oc_get_profile.
Lemma get_profile_lawful : fc_lawful get_profile_codec.
Proof. lawful get_profile_codec oc_encode_get_profile oc_decode_get_profile. Qed.
Lemma get_profile_safe : rd_safe oc_decode_get_profile.
Proof. unfold oc_decode_get_profile; solve_safe. Qed.

Definition oc_encode_revoke_session (version : Z) (m : oc_revoke_session) : encoder :=
  frame version OC_MSG_REVOKE_SESSION (
    oc_w_u64 (revoke_session_session_id m)).

Definition oc_decode_revoke_session : rd oc_revoke_session :=
  session_id <- oc_r_u64 ;;
  r_done (mk_oc_revoke_session session_id).

Definition revoke_session_codec : frame_codec :=
  FrameCodec oc_revoke_session OC_MSG_REVOKE_SESSION id oc_encode_revoke_session oc_decode_revoke_session wf_oc_revoke_session.
Lemma revoke_session_lawful : fc_lawful revoke_session_codec.
Proof. lawful revoke_session_codec oc_encode_revoke_session oc_decode_revoke_session. Qed.
Lemma revoke_session_safe : rd_safe oc_decode_revoke_session.
Proof. unfold oc_decode_revoke_session; solve_safe. Qed.

Definition oc_encode_set_email (version : Z) (m : oc_set_email) : encoder :=
  frame version OC_MSG_SET_EMAIL (
    oc_w_str (set_email_email m)).

Definition oc_decode_set_email : rd oc_set_email :=
  email <- oc_r_str ;;
  r_done (mk_oc_set_email email).

Definition set_email_codec : frame_codec :=
  FrameCodec oc_set_email OC_MSG_SET_EMAIL id oc_encode_set_email oc_decode_set_email wf_oc_set_email.
Lemma set_email_lawful : fc_lawful set_email_codec.
Proof. lawful set_email_codec oc_encode_set_email oc_decode_set_email. Qed.
Lemma set_email_safe : rd_safe oc_decode_set_email.
Proof. unfold oc_decode_set_email; solve_safe. Qed.

Definition oc_encode_user_updated (version : Z) (m : oc_user_updated) : encoder :=
  frame version OC_MSG_USER_UPDATED (
    oc_w_u64 (user_updated_user_id m) ;;
    oc_w_u8 (user_updated_role m) ;;
    oc_w_u8 (user_updated_disabled m)).

Definition oc_decode_user_updated : rd oc_user_updated :=
  user_id <- oc_r_u64 ;;
  role <- oc_r_u8 ;;
  disabled <- oc_r_u8 ;;
  r_done (mk_oc_user_updated user_id role disabled).

Definition user_updated_codec : frame_codec :=
  FrameCodec oc_user_updated OC_MSG_USER_UPDATED id oc_encode_user_updated oc_decode_user_updated wf_oc_user_updated.
Lemma user_updated_lawful : fc_lawful user_updated_codec.
Proof. lawful user_updated_codec oc_encode_user_updated oc_decode_user_updated. Qed.
Lemma user_updated_safe : rd_safe oc_decode_user_updated.
Proof. unfold oc_decode_user_updated; solve_safe. Qed.

Definition oc_encode_invite_created (version : Z) (m : oc_invite_created) : encoder :=
  frame version OC_MSG_INVITE_CREATED (
    oc_w_bytes (invite_created_token m) ;;
    oc_w_u8 (invite_created_role m) ;;
    oc_w_u64 (invite_created_expires_at m) ;;
    oc_w_u16 (invite_created_uses m)).

Definition oc_decode_invite_created : rd oc_invite_created :=
  token <- oc_r_bytes ;;
  role <- oc_r_u8 ;;
  expires_at <- oc_r_u64 ;;
  uses <- oc_r_u16 ;;
  r_done (mk_oc_invite_created token role expires_at uses).

Definition invite_created_codec : frame_codec :=
  FrameCodec oc_invite_created OC_MSG_INVITE_CREATED id oc_encode_invite_created oc_decode_invite_created wf_oc_invite_created.
Lemma invite_created_lawful : fc_lawful invite_created_codec.
Proof. lawful invite_created_codec oc_encode_invite_created oc_decode_invite_created. Qed.
Lemma invite_created_safe : rd_safe oc_decode_invite_created.
Proof. unfold oc_decode_invite_created; solve_safe. Qed.

Definition oc_encode_set_display_name (version : Z) (m : oc_set_display_name) : encoder :=
  frame version OC_MSG_SET_DISPLAY_NAME (
    oc_w_str (set_display_name_name m)).

Definition oc_decode_set_display_name : rd oc_set_display_name :=
  name <- oc_r_str ;;
  r_done (mk_oc_set_display_name name).

Definition set_display_name_codec : frame_codec :=
  FrameCodec oc_set_display_name OC_MSG_SET_DISPLAY_NAME id oc_encode_set_display_name oc_decode_set_display_name wf_oc_set_display_name.
Lemma set_display_name_lawful : fc_lawful set_display_name_codec.
Proof. lawful set_display_name_codec oc_encode_set_display_name oc_decode_set_display_name. Qed.
Lemma set_display_name_safe : rd_safe oc_decode_set_display_name.
Proof. unfold oc_decode_set_display_name; solve_safe. Qed.

Definition oc_encode_profile_updated (version : Z) (m : oc_profile_updated) : encoder :=
  frame version OC_MSG_PROFILE_UPDATED (
    oc_w_u64 (profile_updated_user_id m) ;;
    oc_w_str (profile_updated_display_name m)).

Definition oc_decode_profile_updated : rd oc_profile_updated :=
  user_id <- oc_r_u64 ;;
  display_name <- oc_r_str ;;
  r_done (mk_oc_profile_updated user_id display_name).

Definition profile_updated_codec : frame_codec :=
  FrameCodec oc_profile_updated OC_MSG_PROFILE_UPDATED id oc_encode_profile_updated oc_decode_profile_updated wf_oc_profile_updated.
Lemma profile_updated_lawful : fc_lawful profile_updated_codec.
Proof. lawful profile_updated_codec oc_encode_profile_updated oc_decode_profile_updated. Qed.
Lemma profile_updated_safe : rd_safe oc_decode_profile_updated.
Proof. unfold oc_decode_profile_updated; solve_safe. Qed.

Definition oc_encode_search (version : Z) (m : oc_search) : encoder :=
  frame version OC_MSG_SEARCH (
    oc_w_str (search_query m) ;;
    oc_w_u16 (search_limit m) ;;
    oc_w_u64 (search_before_id m) ;;
    oc_w_str (search_from_name m) ;;
    oc_w_str (search_in_channel m) ;;
    oc_w_u8 (search_has_mask m) ;;
    oc_w_u64 (search_after_ms m) ;;
    oc_w_u64 (search_before_ms m) ;;
    oc_w_u8 (search_sort m) ;;
    oc_w_u64 (u64 (search_cursor_rank m))).

Definition oc_decode_search : rd oc_search :=
  query <- oc_r_str ;;
  limit <- oc_r_u16 ;;
  before_id <- oc_r_u64 ;;
  from_name <- oc_r_str ;;
  in_channel <- oc_r_str ;;
  has_mask <- oc_r_u8 ;;
  after_ms <- oc_r_u64 ;;
  before_ms <- oc_r_u64 ;;
  sort <- oc_r_u8 ;;
  cursor_rank <- oc_r_i64 ;;
  r_done (mk_oc_search query limit before_id from_name in_channel has_mask after_ms before_ms sort cursor_rank).


Definition search_codec : frame_codec :=
  FrameCodec oc_search OC_MSG_SEARCH id oc_encode_search oc_decode_search wf_oc_search.
Lemma search_lawful : fc_lawful search_codec.
Proof. lawful_with search_codec oc_encode_search oc_decode_search (fun _ : Z => True). Qed.
Lemma search_safe : rd_safe oc_decode_search.
Proof. unfold oc_decode_search; solve_safe. Qed.

Definition oc_encode_search_results (version : Z) (m : oc_search_results) : encoder :=
  frame version OC_MSG_SEARCH_RESULTS (
    oc_w_u16 (search_results_count m) ;;
    w_each (fun x =>
      oc_w_u64 (search_result_entry_message_id x) ;;
      oc_w_u64 (search_result_entry_channel_id x) ;;
      oc_w_u64 (search_result_entry_author_id x) ;;
      oc_w_u64 (search_result_entry_server_time x) ;;
      oc_w_str (search_result_entry_snippet x) ;;
      oc_w_u8 (search_result_entry_action x) ;;
      oc_w_u64 (u64 (search_result_entry_rank x))) (ztake (search_results_count m) (search_results_entries m)) ;;
    oc_w_u8 (search_results_truncated m)).

Definition oc_decode_search_results (cap : Z) : rd oc_search_results :=
  count <- oc_r_u16 ;;
  entries <- r_for_ok (Z.to_nat count) (
    mid <- oc_r_u64 ;;
    ch <- oc_r_u64 ;;
    author <- oc_r_u64 ;;
    ts <- oc_r_u64 ;;
    snip <- oc_r_str ;;
    act <- oc_r_u8 ;;
    rank <- oc_r_i64 ;;
    rret (mk_oc_search_result_entry mid ch author ts snip act rank)) ;;
  trunc <- oc_r_u8 ;;
  r_done (mk_oc_search_results count (ztake cap entries) trunc).

Definition wf_search_results (cap : Z) (m : oc_search_results) : Prop :=
  wf_oc_search_results m ∧
  search_results_count m = zlen (search_results_entries m) ∧
  zlen (search_results_entries m) <= cap.
#[export] Hint Unfold wf_search_results : wf.

Definition search_results_codec (cap : Z) : frame_codec :=
  FrameCodec oc_search_results OC_MSG_SEARCH_RESULTS id oc_encode_search_results (oc_decode_search_results cap) (wf_search_results cap).
Lemma search_results_complete cap : fc_complete (search_results_codec cap).
Proof. complete search_results_codec oc_encode_search_results oc_decode_search_results. Qed.
Lemma search_results_safe cap : rd_safe (oc_decode_search_results cap).
Proof. unfold oc_decode_search_results; solve_safe. Qed.

Definition oc_encode_history_request (version : Z) (m : oc_history_request) : encoder :=
  frame version OC_MSG_HISTORY_REQUEST (
    oc_w_u64 (history_request_channel_id m) ;;
    oc_w_u64 (history_request_before_message_id m) ;;
    oc_w_u16 (history_request_limit m)).

Definition oc_decode_history_request : rd oc_history_request :=
  channel_id <- oc_r_u64 ;;
  before_message_id <- oc_r_u64 ;;
  limit <- oc_r_u16 ;;
  r_done (mk_oc_history_request channel_id before_message_id limit).

Definition history_request_codec : frame_codec :=
  FrameCodec oc_history_request OC_MSG_HISTORY_REQUEST id oc_encode_history_request oc_decode_history_request wf_oc_history_request.
Lemma history_request_lawful : fc_lawful history_request_codec.
Proof. lawful history_request_codec oc_encode_history_request oc_decode_history_request. Qed.
Lemma history_request_safe : rd_safe oc_decode_history_request.
Proof. unfold oc_decode_history_request; solve_safe. Qed.

Definition oc_encode_backfill_request (version : Z) (m : oc_backfill_request) : encoder :=
  frame version OC_MSG_BACKFILL_REQUEST (
    oc_w_u16 (backfill_request_count m) ;;
    w_each (fun x =>
      oc_w_u64 (cursor_channel_id x) ;;
      oc_w_u64 (cursor_after_message_id x)) (ztake (backfill_request_count m) (backfill_request_cursors m))).

Definition oc_decode_backfill_request (cap : Z) : rd oc_backfill_request :=
  count <- oc_r_u16 ;;
  cursors <- r_for_ok (Z.to_nat count) (
    ch <- oc_r_u64 ;;
    after <- oc_r_u64 ;;
    rret (mk_oc_cursor ch after)) ;;
  r_done (mk_oc_backfill_request count (ztake cap cursors)).

Definition wf_backfill_request (cap : Z) (m : oc_backfill_request) : Prop :=
  wf_oc_backfill_request m ∧
  backfill_request_count m = zlen (backfill_request_cursors m) ∧
  zlen (backfill_request_cursors m) <= cap.
#[export] Hint Unfold wf_backfill_request : wf.

Definition backfill_request_codec (cap : Z) : frame_codec :=
  FrameCodec oc_backfill_request OC_MSG_BACKFILL_REQUEST id oc_encode_backfill_request (oc_decode_backfill_request cap) (wf_backfill_request cap).
Lemma backfill_request_complete cap : fc_complete (backfill_request_codec cap).
Proof. complete backfill_request_codec oc_encode_backfill_request oc_decode_backfill_request. Qed.
Lemma backfill_request_safe cap : rd_safe (oc_decode_backfill_request cap).
Proof. unfold oc_decode_backfill_request; solve_safe. Qed.

Definition oc_encode_backfill_done (version : Z) (m : oc_backfill_done) : encoder :=
  frame version OC_MSG_BACKFILL_DONE (
    oc_w_u64 (backfill_done_high_water m) ;;
    oc_w_u8 (backfill_done_more m)).

Definition oc_decode_backfill_done : rd oc_backfill_done :=
  high_water <- oc_r_u64 ;;
  more <- oc_r_u8 ;;
  r_done (mk_oc_backfill_done high_water more).

Definition backfill_done_codec : frame_codec :=
  FrameCodec oc_backfill_done OC_MSG_BACKFILL_DONE id oc_encode_backfill_done oc_decode_backfill_done wf_oc_backfill_done.
Lemma backfill_done_lawful : fc_lawful backfill_done_codec.
Proof. lawful backfill_done_codec oc_encode_backfill_done oc_decode_backfill_done. Qed.
Lemma backfill_done_safe : rd_safe oc_decode_backfill_done.
Proof. unfold oc_decode_backfill_done; solve_safe. Qed.

Definition oc_encode_error (version : Z) (m : oc_error) : encoder :=
  frame version OC_MSG_ERROR (
    oc_w_u16 (error_code m) ;;
    oc_w_u8 (error_fatal m) ;;
    oc_w_bytes (error_context m) ;;
    oc_w_str (error_message m)).

Definition oc_decode_error : rd oc_error :=
  code <- oc_r_u16 ;;
  fatal <- oc_r_u8 ;;
  context <- oc_r_bytes ;;
  message <- oc_r_str ;;
  r_done (mk_oc_error code fatal context message).

Definition error_codec : frame_codec :=
  FrameCodec oc_error OC_MSG_ERROR id oc_encode_error oc_decode_error wf_oc_error.
Lemma error_lawful : fc_lawful error_codec.
Proof. lawful error_codec oc_encode_error oc_decode_error. Qed.
Lemma error_safe : rd_safe oc_decode_error.
Proof. unfold oc_decode_error; solve_safe. Qed.

Definition oc_encode_read_receipts (version : Z) (m : oc_read_receipts) : encoder :=
  frame version OC_MSG_READ_RECEIPTS (
    oc_w_u8 (read_receipts_share m)).

Definition oc_decode_read_receipts : rd oc_read_receipts :=
  share <- oc_r_u8 ;;
  _ <- r_fail_if (OC_RECEIPTS_ASK <? share) ;;
  r_done (mk_oc_read_receipts share).

Definition wf_read_receipts (m : oc_read_receipts) : Prop :=
  wf_oc_read_receipts m ∧
  read_receipts_share m <= OC_RECEIPTS_ASK.
#[export] Hint Unfold wf_read_receipts : wf.

Definition read_receipts_codec : frame_codec :=
  FrameCodec oc_read_receipts OC_MSG_READ_RECEIPTS id oc_encode_read_receipts oc_decode_read_receipts wf_read_receipts.
Lemma read_receipts_lawful : fc_lawful read_receipts_codec.
Proof. lawful_with read_receipts_codec oc_encode_read_receipts oc_decode_read_receipts (fun _ : Z => True). Qed.
Lemma read_receipts_safe : rd_safe oc_decode_read_receipts.
Proof. unfold oc_decode_read_receipts; solve_safe. Qed.

(** ** The frames of this file

    [cap] is the length of the array a decoder is given, where it takes one. *)

Definition users_lawful_codecs (cap : Z) : list frame_codec :=
  [join_channel_codec; leave_channel_codec; invite_to_channel_codec;
   remove_from_channel_codec; list_users_codec; set_role_codec; invite_user_codec;
   remove_user_codec; reset_credential_codec; credential_reset_codec; enable_user_codec;
   get_profile_codec; revoke_session_codec; set_email_codec; user_updated_codec;
   invite_created_codec; set_display_name_codec; profile_updated_codec; search_codec;
   history_request_codec; backfill_done_codec; error_codec; read_receipts_codec].

Lemma users_lawful cap : Forall fc_lawful (users_lawful_codecs cap).
Proof.
  apply List.Forall_cons; [exact join_channel_lawful|].
  apply List.Forall_cons; [exact leave_channel_lawful|].
  apply List.Forall_cons; [exact invite_to_channel_lawful|].
  apply List.Forall_cons; [exact remove_from_channel_lawful|].
  apply List.Forall_cons; [exact list_users_lawful|].
  apply List.Forall_cons; [exact set_role_lawful|].
  apply List.Forall_cons; [exact invite_user_lawful|].
  apply List.Forall_cons; [exact remove_user_lawful|].
  apply List.Forall_cons; [exact reset_credential_lawful|].
  apply List.Forall_cons; [exact credential_reset_lawful|].
  apply List.Forall_cons; [exact enable_user_lawful|].
  apply List.Forall_cons; [exact get_profile_lawful|].
  apply List.Forall_cons; [exact revoke_session_lawful|].
  apply List.Forall_cons; [exact set_email_lawful|].
  apply List.Forall_cons; [exact user_updated_lawful|].
  apply List.Forall_cons; [exact invite_created_lawful|].
  apply List.Forall_cons; [exact set_display_name_lawful|].
  apply List.Forall_cons; [exact profile_updated_lawful|].
  apply List.Forall_cons; [exact search_lawful|].
  apply List.Forall_cons; [exact history_request_lawful|].
  apply List.Forall_cons; [exact backfill_done_lawful|].
  apply List.Forall_cons; [exact error_lawful|].
  apply List.Forall_cons; [exact read_receipts_lawful|].
  apply List.Forall_nil.
Qed.
Definition users_complete_codecs (cap : Z) : list frame_codec :=
  [user_list_codec cap; search_results_codec cap; backfill_request_codec cap].

Lemma users_complete cap : Forall fc_complete (users_complete_codecs cap).
Proof.
  apply List.Forall_cons; [exact (user_list_complete cap)|].
  apply List.Forall_cons; [exact (search_results_complete cap)|].
  apply List.Forall_cons; [exact (backfill_request_complete cap)|].
  apply List.Forall_nil.
Qed.
Lemma users_safe cap :
  Forall (fun c => rd_safe (fc_decode c)) (users_lawful_codecs cap ++ users_complete_codecs cap).
Proof.
  apply List.Forall_cons; [exact join_channel_safe|].
  apply List.Forall_cons; [exact leave_channel_safe|].
  apply List.Forall_cons; [exact invite_to_channel_safe|].
  apply List.Forall_cons; [exact remove_from_channel_safe|].
  apply List.Forall_cons; [exact list_users_safe|].
  apply List.Forall_cons; [exact set_role_safe|].
  apply List.Forall_cons; [exact invite_user_safe|].
  apply List.Forall_cons; [exact remove_user_safe|].
  apply List.Forall_cons; [exact reset_credential_safe|].
  apply List.Forall_cons; [exact credential_reset_safe|].
  apply List.Forall_cons; [exact enable_user_safe|].
  apply List.Forall_cons; [exact get_profile_safe|].
  apply List.Forall_cons; [exact revoke_session_safe|].
  apply List.Forall_cons; [exact set_email_safe|].
  apply List.Forall_cons; [exact user_updated_safe|].
  apply List.Forall_cons; [exact invite_created_safe|].
  apply List.Forall_cons; [exact set_display_name_safe|].
  apply List.Forall_cons; [exact profile_updated_safe|].
  apply List.Forall_cons; [exact search_safe|].
  apply List.Forall_cons; [exact history_request_safe|].
  apply List.Forall_cons; [exact backfill_done_safe|].
  apply List.Forall_cons; [exact error_safe|].
  apply List.Forall_cons; [exact read_receipts_safe|].
  apply List.Forall_cons; [exact (user_list_safe cap)|].
  apply List.Forall_cons; [exact (search_results_safe cap)|].
  apply List.Forall_cons; [exact (backfill_request_safe cap)|].
  apply List.Forall_nil.
Qed.

(** Requests without a payload, as the type and the encoder. *)
Definition users_bare_frames : list (oc_msg_type * (Z → encoder)) :=
  [].
