(* ===== verification/ProtoAdmin.v ===== *)
(** * Frames of [shared/protocol.c]: webhook, invite, profile, group, alert and emoji frames

    Each frame is the encoder and the decoder as the source has them, the
    [frame_codec] that pairs them, the proof of its laws, and that its decoder
    stays inside its buffer. *)
From stdpp Require Import base tactics list numbers.
From S2P Require Import Prelude Wire WireLogic WireRead WireFrame ProtoTypes.
Local Open Scope Z_scope.
Local Open Scope wire_scope.

(** The local-account credential carried inside AUTH: not a frame of its own. *)
Definition oc_encode_local_credential (username password : oc_slice) : encoder := fun w =>
  let w := (oc_w_str username ;; oc_w_str password) w in
  ((if w_overflow w then OC_E_OVERFLOW else OC_OK), w).

Definition oc_parse_local_credential (credential : oc_slice) : oc_result + (oc_slice * oc_slice) :=
  match (u <- oc_r_str ;; p <- oc_r_str ;; r_done (u, p)) (oc_rbuf_init credential (zlen credential)) with
  | (inr up, _) => inr up
  | (inl _, _) => inl OC_E_MALFORMED
  end.

Definition oc_encode_set_webhook_state (version : Z) (m : oc_set_webhook_state) : encoder :=
  frame version OC_MSG_SET_WEBHOOK_STATE (
    oc_w_u64 (set_webhook_state_webhook_id m) ;;
    oc_w_u8 (set_webhook_state_disabled m)).

Definition oc_decode_set_webhook_state : rd oc_set_webhook_state :=
  webhook_id <- oc_r_u64 ;;
  disabled <- oc_r_u8 ;;
  r_done (mk_oc_set_webhook_state webhook_id disabled).

Definition set_webhook_state_codec : frame_codec :=
  FrameCodec oc_set_webhook_state OC_MSG_SET_WEBHOOK_STATE id oc_encode_set_webhook_state oc_decode_set_webhook_state wf_oc_set_webhook_state.
Lemma set_webhook_state_lawful : fc_lawful set_webhook_state_codec.
Proof. lawful set_webhook_state_codec oc_encode_set_webhook_state oc_decode_set_webhook_state. Qed.
Lemma set_webhook_state_safe : rd_safe oc_decode_set_webhook_state.
Proof. unfold oc_decode_set_webhook_state; solve_safe. Qed.

Definition oc_encode_rotate_webhook (version : Z) (m : oc_rotate_webhook) : encoder :=
  frame version OC_MSG_ROTATE_WEBHOOK (
    oc_w_u64 (rotate_webhook_webhook_id m)).

Definition oc_decode_rotate_webhook : rd oc_rotate_webhook :=
  webhook_id <- oc_r_u64 ;;
  r_done (mk_oc_rotate_webhook webhook_id).

Definition rotate_webhook_codec : frame_codec :=
  FrameCodec oc_rotate_webhook OC_MSG_ROTATE_WEBHOOK id oc_encode_rotate_webhook oc_decode_rotate_webhook wf_oc_rotate_webhook.
Lemma rotate_webhook_lawful : fc_lawful rotate_webhook_codec.
Proof. lawful rotate_webhook_codec oc_encode_rotate_webhook oc_decode_rotate_webhook. Qed.
Lemma rotate_webhook_safe : rd_safe oc_decode_rotate_webhook.
Proof. unfold oc_decode_rotate_webhook; solve_safe. Qed.

Definition oc_encode_list_invites (version : Z) : encoder :=
  frame version OC_MSG_LIST_INVITES id.

Definition oc_encode_invite_list (version : Z) (m : oc_invite_list) : encoder :=
  frame version OC_MSG_INVITE_LIST (
    oc_w_u16 (invite_list_count m) ;;
    w_each (fun x =>
      oc_w_u64 (invite_entry_invite_id x) ;;
      oc_w_u8 (invite_entry_role x) ;;
      oc_w_u64 (invite_entry_created_at x) ;;
      oc_w_u64 (invite_entry_expires_at x) ;;
      oc_w_u64 (invite_entry_created_by x) ;;
      oc_w_u16 (invite_entry_uses x) ;;
      oc_w_u16 (invite_entry_used x)) (ztake (invite_list_count m) (invite_list_entries m))).

Definition oc_decode_invite_list (cap : Z) : rd oc_invite_list :=
  count <- oc_r_u16 ;;
  entries <- r_for_ok (Z.to_nat count) (
    invite_id <- oc_r_u64 ;;
    role <- oc_r_u8 ;;
    created_at <- oc_r_u64 ;;
    expires_at <- oc_r_u64 ;;
    created_by <- oc_r_u64 ;;
    uses <- oc_r_u16 ;;
    used <- oc_r_u16 ;;
    rret (mk_oc_invite_entry invite_id role created_at expires_at created_by uses used)) ;;
  r_done (mk_oc_invite_list (if count <? cap then count else cap) (ztake cap entries)).

Definition wf_invite_list (cap : Z) (m : oc_invite_list) : Prop :=
  wf_oc_invite_list m ∧
  invite_list_count m = zlen (invite_list_entries m) ∧
  zlen (invite_list_entries m) <= cap.
#[export] Hint Unfold wf_invite_list : wf.

Definition invite_list_codec (cap : Z) : frame_codec :=
  FrameCodec oc_invite_list OC_MSG_INVITE_LIST id oc_encode_invite_list (oc_decode_invite_list cap) (wf_invite_list cap).
Lemma invite_list_complete cap : fc_complete (invite_list_codec cap).
Proof. complete invite_list_codec oc_encode_invite_list oc_decode_invite_list. Qed.
Lemma invite_list_safe cap : rd_safe (oc_decode_invite_list cap).
Proof. unfold oc_decode_invite_list; solve_safe. Qed.

Definition oc_encode_revoke_invite (version : Z) (m : oc_revoke_invite) : encoder :=
  frame version OC_MSG_REVOKE_INVITE (
    oc_w_u64 (revoke_invite_invite_id m)).

Definition oc_decode_revoke_invite : rd oc_revoke_invite :=
  invite_id <- oc_r_u64 ;;
  r_done (mk_oc_revoke_invite invite_id).

Definition revoke_invite_codec : frame_codec :=
  FrameCodec oc_revoke_invite OC_MSG_REVOKE_INVITE id oc_encode_revoke_invite oc_decode_revoke_invite wf_oc_revoke_invite.
Lemma revoke_invite_lawful : fc_lawful revoke_invite_codec.
Proof. lawful revoke_invite_codec oc_encode_revoke_invite oc_decode_revoke_invite. Qed.
Lemma revoke_invite_safe : rd_safe oc_decode_revoke_invite.
Proof. unfold oc_decode_revoke_invite; solve_safe. Qed.

Definition oc_encode_invite_revoked (version : Z) (m : oc_revoke_invite) : encoder :=
  frame version OC_MSG_INVITE_REVOKED (
    oc_w_u64 (revoke_invite_invite_id m)).

Definition oc_decode_invite_revoked : rd oc_revoke_invite :=
  invite_id <- oc_r_u64 ;;
  r_done (mk_oc_revoke_invite invite_id).

Definition invite_revoked_codec : frame_codec :=
  FrameCodec oc_revoke_invite OC_MSG_INVITE_REVOKED id oc_encode_invite_revoked oc_decode_invite_revoked wf_oc_revoke_invite.
Lemma invite_revoked_lawful : fc_lawful invite_revoked_codec.
Proof. lawful invite_revoked_codec oc_encode_invite_revoked oc_decode_invite_revoked. Qed.
Lemma invite_revoked_safe : rd_safe oc_decode_invite_revoked.
Proof. unfold oc_decode_invite_revoked; solve_safe. Qed.

Definition oc_encode_set_mute (version : Z) (m : oc_set_mute) : encoder :=
  frame version OC_MSG_SET_MUTE (
    oc_w_u64 (set_mute_channel_id m) ;;
    oc_w_u8 (set_mute_muted m)).

Definition oc_decode_set_mute : rd oc_set_mute :=
  channel_id <- oc_r_u64 ;;
  muted <- oc_r_u8 ;;
  r_done (mk_oc_set_mute channel_id muted).

Definition set_mute_codec : frame_codec :=
  FrameCodec oc_set_mute OC_MSG_SET_MUTE id oc_encode_set_mute oc_decode_set_mute wf_oc_set_mute.
Lemma set_mute_lawful : fc_lawful set_mute_codec.
Proof. lawful set_mute_codec oc_encode_set_mute oc_decode_set_mute. Qed.
Lemma set_mute_safe : rd_safe oc_decode_set_mute.
Proof. unfold oc_decode_set_mute; solve_safe. Qed.

Definition oc_encode_set_read_cursor (version : Z) (m : oc_set_read_cursor) : encoder :=
  frame version OC_MSG_SET_READ_CURSOR (
    oc_w_u64 (set_read_cursor_channel_id m) ;;
    oc_w_u64 (set_read_cursor_message_id m)).

Definition oc_decode_set_read_cursor : rd oc_set_read_cursor :=
  channel_id <- oc_r_u64 ;;
  message_id <- oc_r_u64 ;;
  r_done (mk_oc_set_read_cursor channel_id message_id).

Definition set_read_cursor_codec : frame_codec :=
  FrameCodec oc_set_read_cursor OC_MSG_SET_READ_CURSOR id oc_encode_set_read_cursor oc_decode_set_read_cursor wf_oc_set_read_cursor.
Lemma set_read_cursor_lawful : fc_lawful set_read_cursor_codec.
Proof. lawful set_read_cursor_codec oc_encode_set_read_cursor oc_decode_set_read_cursor. Qed.
Lemma set_read_cursor_safe : rd_safe oc_decode_set_read_cursor.
Proof. unfold oc_decode_set_read_cursor; solve_safe. Qed.

Definition oc_encode_set_status (version : Z) (m : oc_set_status) : encoder :=
  frame version OC_MSG_SET_STATUS (
    oc_w_str (set_status_emoji m) ;;
    oc_w_str (set_status_text m) ;;
    oc_w_u64 (set_status_expires_at m)).

Definition oc_decode_set_status : rd oc_set_status :=
  emoji <- oc_r_str ;;
  text <- oc_r_str ;;
  expires_at <- oc_r_u64 ;;
  r_done (mk_oc_set_status emoji text expires_at).

Definition set_status_codec : frame_codec :=
  FrameCodec oc_set_status OC_MSG_SET_STATUS id oc_encode_set_status oc_decode_set_status wf_oc_set_status.
Lemma set_status_lawful : fc_lawful set_status_codec.
Proof. lawful set_status_codec oc_encode_set_status oc_decode_set_status. Qed.
Lemma set_status_safe : rd_safe oc_decode_set_status.
Proof. unfold oc_decode_set_status; solve_safe. Qed.

Definition oc_encode_set_profile (version : Z) (m : oc_set_profile) : encoder :=
  frame version OC_MSG_SET_PROFILE (
    oc_w_str (set_profile_full_name m) ;;
    oc_w_str (set_profile_title m) ;;
    oc_w_str (set_profile_pronouns m) ;;
    oc_w_str (set_profile_phone m) ;;
    oc_w_str (set_profile_timezone m) ;;
    oc_w_str (set_profile_voice_id m)).

Definition oc_decode_set_profile : rd oc_set_profile :=
  full_name <- oc_r_str ;;
  title <- oc_r_str ;;
  pronouns <- oc_r_str ;;
  phone <- oc_r_str ;;
  timezone <- oc_r_str ;;
  voice_id <- oc_r_str ;;
  r_done (mk_oc_set_profile full_name title pronouns phone timezone voice_id).

Definition set_profile_codec : frame_codec :=
  FrameCodec oc_set_profile OC_MSG_SET_PROFILE id oc_encode_set_profile oc_decode_set_profile wf_oc_set_profile.
Lemma set_profile_lawful : fc_lawful set_profile_codec.
Proof. lawful set_profile_codec oc_encode_set_profile oc_decode_set_profile. Qed.
Lemma set_profile_safe : rd_safe oc_decode_set_profile.
Proof. unfold oc_decode_set_profile; solve_safe. Qed.

Definition oc_encode_profile_info (version : Z) (m : oc_profile_info) : encoder :=
  frame version OC_MSG_PROFILE_INFO (
    oc_w_u64 (profile_info_user_id m) ;;
    oc_w_str (profile_info_display_name m) ;;
    oc_w_str (profile_info_email m) ;;
    oc_w_str (profile_info_status_emoji m) ;;
    oc_w_str (profile_info_status_text m) ;;
    oc_w_u64 (profile_info_status_expires m) ;;
    oc_w_str (profile_info_title m) ;;
    oc_w_str (profile_info_timezone m) ;;
    oc_w_u64 (profile_info_avatar_id m) ;;
    oc_w_u8 (profile_info_role m) ;;
    oc_w_str (profile_info_full_name m) ;;
    oc_w_str (profile_info_pronouns m) ;;
    oc_w_str (profile_info_phone m) ;;
    oc_w_str (profile_info_voice_id m)).

Definition oc_decode_profile_info : rd oc_profile_info :=
  user_id <- oc_r_u64 ;;
  display_name <- oc_r_str ;;
  email <- oc_r_str ;;
  status_emoji <- oc_r_str ;;
  status_text <- oc_r_str ;;
  status_expires <- oc_r_u64 ;;
  title <- oc_r_str ;;
  timezone <- oc_r_str ;;
  avatar_id <- oc_r_u64 ;;
  role <- oc_r_u8 ;;
  full_name <- oc_r_str ;;
  pronouns <- oc_r_str ;;
  phone <- oc_r_str ;;
  voice_id <- oc_r_str ;;
  r_done (mk_oc_profile_info user_id display_name email status_emoji status_text status_expires title timezone avatar_id role full_name pronouns phone voice_id).

Definition profile_info_codec : frame_codec :=
  FrameCodec oc_profile_info OC_MSG_PROFILE_INFO id oc_encode_profile_info oc_decode_profile_info wf_oc_profile_info.
Lemma profile_info_lawful : fc_lawful profile_info_codec.
Proof. lawful profile_info_codec oc_encode_profile_info oc_decode_profile_info. Qed.
Lemma profile_info_safe : rd_safe oc_decode_profile_info.
Proof. unfold oc_decode_profile_info; solve_safe. Qed.

Definition oc_encode_list_file_channels (version : Z) : encoder :=
  frame version OC_MSG_LIST_FILE_CHANNELS id.

Definition oc_encode_file_channels (version : Z) (m : oc_file_channels) : encoder :=
  frame version OC_MSG_FILE_CHANNELS (
    oc_w_u16 (file_channels_count m) ;;
    w_each (fun x =>
      oc_w_u64 (file_channel_entry_channel_id x) ;;
      oc_w_u32 (file_channel_entry_count x)) (ztake (file_channels_count m) (file_channels_entries m))).

Definition oc_decode_file_channels (cap : Z) : rd oc_file_channels :=
  count <- oc_r_u16 ;;
  entries <- r_for_ok (Z.to_nat count) (
    cid <- oc_r_u64 ;;
    n <- oc_r_u32 ;;
    rret (mk_oc_file_channel_entry cid n)) ;;
  r_done (mk_oc_file_channels (if count <? cap then count else cap) (ztake cap entries)).

Definition wf_file_channels (cap : Z) (m : oc_file_channels) : Prop :=
  wf_oc_file_channels m ∧
  file_channels_count m = zlen (file_channels_entries m) ∧
  zlen (file_channels_entries m) <= cap.
#[export] Hint Unfold wf_file_channels : wf.

Definition file_channels_codec (cap : Z) : frame_codec :=
  FrameCodec oc_file_channels OC_MSG_FILE_CHANNELS id oc_encode_file_channels (oc_decode_file_channels cap) (wf_file_channels cap).
Lemma file_channels_complete cap : fc_complete (file_channels_codec cap).
Proof. complete file_channels_codec oc_encode_file_channels oc_decode_file_channels. Qed.
Lemma file_channels_safe cap : rd_safe (oc_decode_file_channels cap).
Proof. unfold oc_decode_file_channels; solve_safe. Qed.

Definition oc_encode_list_sessions (version : Z) : encoder :=
  frame version OC_MSG_LIST_SESSIONS id.

Definition oc_encode_mark_all_read (version : Z) : encoder :=
  frame version OC_MSG_MARK_ALL_READ id.

Definition oc_encode_get_channel_description (version : Z) (m : oc_get_channel_description) : encoder :=
  frame version OC_MSG_GET_CHANNEL_DESCRIPTION (
    oc_w_u64 (get_channel_description_channel_id m)).

Definition oc_decode_get_channel_description : rd oc_get_channel_description :=
  channel_id <- oc_r_u64 ;;
  r_done (mk_oc_get_channel_description channel_id).

Definition get_channel_description_codec : frame_codec :=
  FrameCodec oc_get_channel_description OC_MSG_GET_CHANNEL_DESCRIPTION id oc_encode_get_channel_description oc_decode_get_channel_description wf_oc_get_channel_description.
Lemma get_channel_description_lawful : fc_lawful get_channel_description_codec.
Proof. lawful get_channel_description_codec oc_encode_get_channel_description oc_decode_get_channel_description. Qed.
Lemma get_channel_description_safe : rd_safe oc_decode_get_channel_description.
Proof. unfold oc_decode_get_channel_description; solve_safe. Qed.

Definition oc_encode_channel_description (version : Z) (m : oc_channel_description) : encoder :=
  frame version OC_MSG_CHANNEL_DESCRIPTION (
    oc_w_u64 (channel_description_channel_id m) ;;
    oc_w_str (channel_description_description m)).

Definition oc_decode_channel_description : rd oc_channel_description :=
  channel_id <- oc_r_u64 ;;
  description <- oc_r_str ;;
  r_done (mk_oc_channel_description channel_id description).

Definition channel_description_codec : frame_codec :=
  FrameCodec oc_channel_description OC_MSG_CHANNEL_DESCRIPTION id oc_encode_channel_description oc_decode_channel_description wf_oc_channel_description.
Lemma channel_description_lawful : fc_lawful channel_description_codec.
Proof. lawful channel_description_codec oc_encode_channel_description oc_decode_channel_description. Qed.
Lemma channel_description_safe : rd_safe oc_decode_channel_description.
Proof. unfold oc_decode_channel_description; solve_safe. Qed.

Definition oc_encode_session_list (version : Z) (m : oc_session_list) : encoder :=
  frame version OC_MSG_SESSION_LIST (
    oc_w_u16 (session_list_count m) ;;
    w_each (fun x =>
      oc_w_u64 (session_entry_session_id x) ;;
      oc_w_u64 (session_entry_created_at x) ;;
      oc_w_u64 (session_entry_last_seen x) ;;
      oc_w_u64 (session_entry_expires_at x) ;;
      oc_w_u8 (session_entry_current x) ;;
      oc_w_str (session_entry_device_label x)) (ztake (session_list_count m) (session_list_entries m))).

Definition oc_decode_session_list (cap : Z) : rd oc_session_list :=
  count <- oc_r_u16 ;;
  entries <- r_for_ok (Z.to_nat count) (
    session_id <- oc_r_u64 ;;
    created_at <- oc_r_u64 ;;
    last_seen <- oc_r_u64 ;;
    expires_at <- oc_r_u64 ;;
    current <- oc_r_u8 ;;
    device_label <- oc_r_str ;;
    rret (mk_oc_session_entry session_id created_at last_seen expires_at current device_label)) ;;
  r_done (mk_oc_session_list (if count <? cap then count else cap) (ztake cap entries)).

Definition wf_session_list (cap : Z) (m : oc_session_list) : Prop :=
  wf_oc_session_list m ∧
  session_list_count m = zlen (session_list_entries m) ∧
  zlen (session_list_entries m) <= cap.
#[export] Hint Unfold wf_session_list : wf.

Definition session_list_codec (cap : Z) : frame_codec :=
  FrameCodec oc_session_list OC_MSG_SESSION_LIST id oc_encode_session_list (oc_decode_session_list cap) (wf_session_list cap).
Lemma session_list_complete cap : fc_complete (session_list_codec cap).
Proof. complete session_list_codec oc_encode_session_list oc_decode_session_list. Qed.
Lemma session_list_safe cap : rd_safe (oc_decode_session_list cap).
Proof. unfold oc_decode_session_list; solve_safe. Qed.

Definition oc_encode_set_notify_default (version : Z) (m : oc_set_notify_default) : encoder :=
  frame version OC_MSG_SET_NOTIFY_DEFAULT (
    oc_w_u8 (set_notify_default_level m)).

Definition oc_decode_set_notify_default : rd oc_set_notify_default :=
  level <- oc_r_u8 ;;
  r_done (mk_oc_set_notify_default level).

Definition set_notify_default_codec : frame_codec :=
  FrameCodec oc_set_notify_default OC_MSG_SET_NOTIFY_DEFAULT id oc_encode_set_notify_default oc_decode_set_notify_default wf_oc_set_notify_default.
Lemma set_notify_default_lawful : fc_lawful set_notify_default_codec.
Proof. lawful set_notify_default_codec oc_encode_set_notify_default oc_decode_set_notify_default. Qed.
Lemma set_notify_default_safe : rd_safe oc_decode_set_notify_default.
Proof. unfold oc_decode_set_notify_default; solve_safe. Qed.

Definition oc_encode_set_avatar (version : Z) (m : oc_set_avatar) : encoder :=
  frame version OC_MSG_SET_AVATAR (
    oc_w_u64 (set_avatar_attachment_id m)).

Definition oc_decode_set_avatar : rd oc_set_avatar :=
  attachment_id <- oc_r_u64 ;;
  r_done (mk_oc_set_avatar attachment_id).

Definition set_avatar_codec : frame_codec :=
  FrameCodec oc_set_avatar OC_MSG_SET_AVATAR id oc_encode_set_avatar oc_decode_set_avatar wf_oc_set_avatar.
Lemma set_avatar_lawful : fc_lawful set_avatar_codec.
Proof. lawful set_avatar_codec oc_encode_set_avatar oc_decode_set_avatar. Qed.
Lemma set_avatar_safe : rd_safe oc_decode_set_avatar.
Proof. unfold oc_decode_set_avatar; solve_safe. Qed.

Definition oc_encode_open_group_dm (version : Z) (m : oc_open_group_dm) : encoder :=
  let n := clamp OC_MAX_GROUP_DM (open_group_dm_count m) in
  frame version OC_MSG_OPEN_GROUP_DM (
    oc_w_u16 n ;;
    w_each oc_w_u64 (ztake n (open_group_dm_user_ids m))).

Definition oc_decode_open_group_dm : rd oc_open_group_dm :=
  n <- oc_r_u16 ;;
  _ <- r_fail_if (OC_MAX_GROUP_DM <? n) ;;
  user_ids <- r_for (Z.to_nat n) oc_r_u64 ;;
  r_done (mk_oc_open_group_dm n user_ids).

Definition wf_open_group_dm (m : oc_open_group_dm) : Prop :=
  wf_oc_open_group_dm m ∧
  open_group_dm_count m = zlen (open_group_dm_user_ids m) ∧
  zlen (open_group_dm_user_ids m) <= OC_MAX_GROUP_DM.
#[export] Hint Unfold wf_open_group_dm : wf.

Definition open_group_dm_codec : frame_codec :=
  FrameCodec oc_open_group_dm OC_MSG_OPEN_GROUP_DM id oc_encode_open_group_dm oc_decode_open_group_dm wf_open_group_dm.
Lemma open_group_dm_lawful : fc_lawful open_group_dm_codec.
Proof. lawful_with open_group_dm_codec oc_encode_open_group_dm oc_decode_open_group_dm is_u64. Qed.
Lemma open_group_dm_safe : rd_safe oc_decode_open_group_dm.
Proof. unfold oc_decode_open_group_dm; solve_safe. Qed.

Definition oc_encode_list_groups (version : Z) : encoder :=
  frame version OC_MSG_LIST_GROUPS id.

Definition oc_decode_list_groups : rd unit := r_done tt.

Definition list_groups_codec : frame_codec :=
  FrameCodec unit OC_MSG_LIST_GROUPS id (fun version _ => oc_encode_list_groups version) oc_decode_list_groups (fun _ => True).
Lemma list_groups_lawful : fc_lawful list_groups_codec.
Proof. lawful_empty list_groups_codec oc_encode_list_groups oc_decode_list_groups. Qed.
Lemma list_groups_safe : rd_safe oc_decode_list_groups.
Proof. unfold oc_decode_list_groups; solve_safe. Qed.

Definition oc_encode_create_group (version : Z) (m : oc_create_group) : encoder :=
  frame version OC_MSG_CREATE_GROUP (
    oc_w_str (create_group_handle m) ;;
    oc_w_str (create_group_name m) ;;
    oc_w_str (create_group_description m)).

Definition oc_decode_create_group : rd oc_create_group :=
  handle <- oc_r_str ;;
  name <- oc_r_str ;;
  description <- oc_r_str ;;
  r_done (mk_oc_create_group handle name description).

Definition create_group_codec : frame_codec :=
  FrameCodec oc_create_group OC_MSG_CREATE_GROUP id oc_encode_create_group oc_decode_create_group wf_oc_create_group.
Lemma create_group_lawful : fc_lawful create_group_codec.
Proof. lawful create_group_codec oc_encode_create_group oc_decode_create_group. Qed.
Lemma create_group_safe : rd_safe oc_decode_create_group.
Proof. unfold oc_decode_create_group; solve_safe. Qed.

Definition oc_encode_update_group (version : Z) (m : oc_update_group) : encoder :=
  frame version OC_MSG_UPDATE_GROUP (
    oc_w_u64 (update_group_group_id m) ;;
    oc_w_str (update_group_handle m) ;;
    oc_w_str (update_group_name m) ;;
    oc_w_str (update_group_description m)).

Definition oc_decode_update_group : rd oc_update_group :=
  group_id <- oc_r_u64 ;;
  handle <- oc_r_str ;;
  name <- oc_r_str ;;
  description <- oc_r_str ;;
  r_done (mk_oc_update_group group_id handle name description).

Definition update_group_codec : frame_codec :=
  FrameCodec oc_update_group OC_MSG_UPDATE_GROUP id oc_encode_update_group oc_decode_update_group wf_oc_update_group.
Lemma update_group_lawful : fc_lawful update_group_codec.
Proof. lawful update_group_codec oc_encode_update_group oc_decode_update_group. Qed.
Lemma update_group_safe : rd_safe oc_decode_update_group.
Proof. unfold oc_decode_update_group; solve_safe. Qed.

Definition oc_encode_delete_group (version : Z) (m : oc_group_ref) : encoder :=
  frame version OC_MSG_DELETE_GROUP (oc_w_u64 (group_ref_group_id m)).
Definition oc_encode_group_deleted (version : Z) (m : oc_group_ref) : encoder :=
  frame version OC_MSG_GROUP_DELETED (oc_w_u64 (group_ref_group_id m)).
Definition oc_decode_group_ref : rd oc_group_ref :=
  group_id <- oc_r_u64 ;;
  r_done (mk_oc_group_ref group_id).

Definition delete_group_codec : frame_codec :=
  FrameCodec oc_group_ref OC_MSG_DELETE_GROUP id oc_encode_delete_group oc_decode_group_ref wf_oc_group_ref.
Lemma delete_group_lawful : fc_lawful delete_group_codec.
Proof. lawful delete_group_codec oc_encode_delete_group oc_decode_group_ref. Qed.
Definition group_deleted_codec : frame_codec :=
  FrameCodec oc_group_ref OC_MSG_GROUP_DELETED id oc_encode_group_deleted oc_decode_group_ref wf_oc_group_ref.
Lemma group_deleted_lawful : fc_lawful group_deleted_codec.
Proof. lawful group_deleted_codec oc_encode_group_deleted oc_decode_group_ref. Qed.
Lemma group_ref_safe : rd_safe oc_decode_group_ref.
Proof. unfold oc_decode_group_ref; solve_safe. Qed.

Definition oc_encode_group_members_op (version : Z) (type : Z) (m : oc_group_members_op) : encoder :=
  enc_refuse_if (negb (type =? OC_MSG_GROUP_ADD_MEMBERS) && negb (type =? OC_MSG_GROUP_REMOVE_MEMBERS)) (
  enc_refuse_if (OC_MAX_GROUP_OP <? group_members_op_count m) (
  frame version type (
    oc_w_u64 (group_members_op_group_id m) ;;
    oc_w_u16 (group_members_op_count m) ;;
    w_each oc_w_u64 (ztake (group_members_op_count m) (group_members_op_user_ids m))))).

Definition oc_decode_group_members_op : rd oc_group_members_op :=
  group_id <- oc_r_u64 ;;
  n <- oc_r_u16 ;;
  _ <- r_fail_if (OC_MAX_GROUP_OP <? n) ;;
  user_ids <- r_for (Z.to_nat n) oc_r_u64 ;;
  r_done (mk_oc_group_members_op group_id n user_ids).

Definition wf_group_members_op (m : oc_group_members_op) : Prop :=
  wf_oc_group_members_op m ∧
  group_members_op_count m = zlen (group_members_op_user_ids m) ∧
  zlen (group_members_op_user_ids m) <= OC_MAX_GROUP_OP.
#[export] Hint Unfold wf_group_members_op : wf.

Definition group_members_op_codec (type : Z) : frame_codec :=
  FrameCodec oc_group_members_op type id (fun version => oc_encode_group_members_op version type) oc_decode_group_members_op wf_group_members_op.
Lemma group_members_op_lawful type :
  (type = OC_MSG_GROUP_ADD_MEMBERS ∨ type = OC_MSG_GROUP_REMOVE_MEMBERS) →
 fc_lawful (group_members_op_codec type).
Proof. intros [-> | ->]; lawful_with group_members_op_codec oc_encode_group_members_op oc_decode_group_members_op is_u64. Qed.
Lemma group_members_op_safe : rd_safe oc_decode_group_members_op.
Proof. unfold oc_decode_group_members_op; solve_safe. Qed.

Definition oc_encode_group_info (version : Z) (m : oc_group_info) : encoder :=
  enc_refuse_if (OC_MAX_GROUP_MEMBERS <? group_info_count m) (
  frame version OC_MSG_GROUP_INFO (
    oc_w_u64 (group_info_group_id m) ;;
    oc_w_str (group_info_handle m) ;;
    oc_w_str (group_info_name m) ;;
    oc_w_str (group_info_description m) ;;
    oc_w_u64 (group_info_created_by m) ;;
    oc_w_u16 (group_info_count m) ;;
    w_each oc_w_u64 (ztake (group_info_count m) (group_info_members m)))).

Definition oc_decode_group_info (cap : Z) : rd oc_group_info :=
  group_id <- oc_r_u64 ;;
  handle <- oc_r_str ;;
  name <- oc_r_str ;;
  description <- oc_r_str ;;
  created_by <- oc_r_u64 ;;
  n <- oc_r_u16 ;;
  _ <- r_fail_if ((cap <? n) || (OC_MAX_GROUP_MEMBERS <? n)) ;;
  members <- r_for (Z.to_nat n) oc_r_u64 ;;
  r_done (mk_oc_group_info group_id handle name description created_by n members).

Definition wf_group_info (cap : Z) (m : oc_group_info) : Prop :=
  wf_oc_group_info m ∧
  group_info_count m = zlen (group_info_members m) ∧
  zlen (group_info_members m) <= OC_MAX_GROUP_MEMBERS ∧
  zlen (group_info_members m) <= cap.
#[export] Hint Unfold wf_group_info : wf.

Definition group_info_codec (cap : Z) : frame_codec :=
  FrameCodec oc_group_info OC_MSG_GROUP_INFO id oc_encode_group_info (oc_decode_group_info cap) (wf_group_info cap).
Lemma group_info_lawful cap : fc_lawful (group_info_codec cap).
Proof. lawful_with group_info_codec oc_encode_group_info oc_decode_group_info is_u64. Qed.
Lemma group_info_safe cap : rd_safe (oc_decode_group_info cap).
Proof. unfold oc_decode_group_info; solve_safe. Qed.

Definition oc_encode_groups_end (version : Z) (m : oc_groups_end) : encoder :=
  frame version OC_MSG_GROUPS_END (
    oc_w_u16 (groups_end_count m)).

Definition oc_decode_groups_end : rd oc_groups_end :=
  count <- oc_r_u16 ;;
  r_done (mk_oc_groups_end count).

Definition groups_end_codec : frame_codec :=
  FrameCodec oc_groups_end OC_MSG_GROUPS_END id oc_encode_groups_end oc_decode_groups_end wf_oc_groups_end.
Lemma groups_end_lawful : fc_lawful groups_end_codec.
Proof. lawful groups_end_codec oc_encode_groups_end oc_decode_groups_end. Qed.
Lemma groups_end_safe : rd_safe oc_decode_groups_end.
Proof. unfold oc_decode_groups_end; solve_safe. Qed.

Definition oc_encode_channel_group_op (version : Z) (type : Z) (m : oc_channel_group_op) : encoder :=
  enc_refuse_if (negb (type =? OC_MSG_CHANNEL_ADD_GROUP) && negb (type =? OC_MSG_CHANNEL_REMOVE_GROUP)) (
  frame version type (
    oc_w_u64 (channel_group_op_channel_id m) ;;
    oc_w_u64 (channel_group_op_group_id m))).

Definition oc_decode_channel_group_op : rd oc_channel_group_op :=
  channel_id <- oc_r_u64 ;;
  group_id <- oc_r_u64 ;;
  r_done (mk_oc_channel_group_op channel_id group_id).


Definition channel_group_op_codec (type : Z) : frame_codec :=
  FrameCodec oc_channel_group_op type id (fun version => oc_encode_channel_group_op version type) oc_decode_channel_group_op wf_oc_channel_group_op.
Lemma channel_group_op_lawful type :
  (type = OC_MSG_CHANNEL_ADD_GROUP ∨ type = OC_MSG_CHANNEL_REMOVE_GROUP) →
 fc_lawful (channel_group_op_codec type).
Proof. intros [-> | ->]; lawful_with channel_group_op_codec oc_encode_channel_group_op oc_decode_channel_group_op (fun _ : Z => True). Qed.
Lemma channel_group_op_safe : rd_safe oc_decode_channel_group_op.
Proof. unfold oc_decode_channel_group_op; solve_safe. Qed.

Definition oc_encode_channel_groups (version : Z) (m : oc_channel_groups) : encoder :=
  enc_refuse_if (OC_MAX_CHANNEL_GROUPS <? channel_groups_count m) (
  frame version OC_MSG_CHANNEL_GROUPS (
    oc_w_u64 (channel_groups_channel_id m) ;;
    oc_w_u16 (channel_groups_count m) ;;
    w_each oc_w_u64 (ztake (channel_groups_count m) (channel_groups_group_ids m)))).

Definition oc_decode_channel_groups (cap : Z) : rd oc_channel_groups :=
  channel_id <- oc_r_u64 ;;
  n <- oc_r_u16 ;;
  _ <- r_fail_if ((cap <? n) || (OC_MAX_CHANNEL_GROUPS <? n)) ;;
  group_ids <- r_for (Z.to_nat n) oc_r_u64 ;;
  r_done (mk_oc_channel_groups channel_id n group_ids).

Definition wf_channel_groups (cap : Z) (m : oc_channel_groups) : Prop :=
  wf_oc_channel_groups m ∧
  channel_groups_count m = zlen (channel_groups_group_ids m) ∧
  zlen (channel_groups_group_ids m) <= OC_MAX_CHANNEL_GROUPS ∧
  zlen (channel_groups_group_ids m) <= cap.
#[export] Hint Unfold wf_channel_groups : wf.

Definition channel_groups_codec (cap : Z) : frame_codec :=
  FrameCodec oc_channel_groups OC_MSG_CHANNEL_GROUPS id oc_encode_channel_groups (oc_decode_channel_groups cap) (wf_channel_groups cap).
Lemma channel_groups_lawful cap : fc_lawful (channel_groups_codec cap).
Proof. lawful_with channel_groups_codec oc_encode_channel_groups oc_decode_channel_groups is_u64. Qed.
Lemma channel_groups_safe cap : rd_safe (oc_decode_channel_groups cap).
Proof. unfold oc_decode_channel_groups; solve_safe. Qed.

Definition oc_encode_channel_via_group (version : Z) (m : oc_channel_via_group) : encoder :=
  enc_refuse_if (OC_MAX_MEMBER_LIST <? channel_via_group_count m) (
  frame version OC_MSG_CHANNEL_VIA_GROUP (
    oc_w_u64 (channel_via_group_channel_id m) ;;
    oc_w_u16 (channel_via_group_count m) ;;
    w_each oc_w_u64 (ztake (channel_via_group_count m) (channel_via_group_user_ids m)))).

Definition oc_decode_channel_via_group (cap : Z) : rd oc_channel_via_group :=
  channel_id <- oc_r_u64 ;;
  n <- oc_r_u16 ;;
  _ <- r_fail_if ((cap <? n) || (OC_MAX_MEMBER_LIST <? n)) ;;
  user_ids <- r_for (Z.to_nat n) oc_r_u64 ;;
  r_done (mk_oc_channel_via_group channel_id n user_ids).

Definition wf_channel_via_group (cap : Z) (m : oc_channel_via_group) : Prop :=
  wf_oc_channel_via_group m ∧
  channel_via_group_count m = zlen (channel_via_group_user_ids m) ∧
  zlen (channel_via_group_user_ids m) <= OC_MAX_MEMBER_LIST ∧
  zlen (channel_via_group_user_ids m) <= cap.
#[export] Hint Unfold wf_channel_via_group : wf.

Definition channel_via_group_codec (cap : Z) : frame_codec :=
  FrameCodec oc_channel_via_group OC_MSG_CHANNEL_VIA_GROUP id oc_encode_channel_via_group (oc_decode_channel_via_group cap) (wf_channel_via_group cap).
Lemma channel_via_group_lawful cap : fc_lawful (channel_via_group_codec cap).
Proof. lawful_with channel_via_group_codec oc_encode_channel_via_group oc_decode_channel_via_group is_u64. Qed.
Lemma channel_via_group_safe cap : rd_safe (oc_decode_channel_via_group cap).
Proof. unfold oc_decode_channel_via_group; solve_safe. Qed.

Definition oc_encode_mention_unresolved_more (version : Z) (m : oc_mention_unresolved_more) : encoder :=
  frame version OC_MSG_MENTION_UNRESOLVED_MORE (
    oc_w_u64 (mention_unresolved_more_channel_id m) ;;
    oc_w_u64 (mention_unresolved_more_message_id m) ;;
    oc_w_u16 (mention_unresolved_more_total m)).

Definition oc_decode_mention_unresolved_more : rd oc_mention_unresolved_more :=
  channel_id <- oc_r_u64 ;;
  message_id <- oc_r_u64 ;;
  total <- oc_r_u16 ;;
  r_done (mk_oc_mention_unresolved_more channel_id message_id total).

Definition mention_unresolved_more_codec : frame_codec :=
  FrameCodec oc_mention_unresolved_more OC_MSG_MENTION_UNRESOLVED_MORE id oc_encode_mention_unresolved_more oc_decode_mention_unresolved_more wf_oc_mention_unresolved_more.
Lemma mention_unresolved_more_lawful : fc_lawful mention_unresolved_more_codec.
Proof. lawful mention_unresolved_more_codec oc_encode_mention_unresolved_more oc_decode_mention_unresolved_more. Qed.
Lemma mention_unresolved_more_safe : rd_safe oc_decode_mention_unresolved_more.
Proof. unfold oc_decode_mention_unresolved_more; solve_safe. Qed.

Definition oc_encode_restore (version : Z) (m : oc_restore) : encoder :=
  frame version OC_MSG_RESTORE (
    oc_w_u64 (restore_channel_id m) ;;
    oc_w_u64 (restore_message_id m)).

Definition oc_decode_restore : rd oc_restore :=
  channel_id <- oc_r_u64 ;;
  message_id <- oc_r_u64 ;;
  r_done (mk_oc_restore channel_id message_id).

Definition restore_codec : frame_codec :=
  FrameCodec oc_restore OC_MSG_RESTORE id oc_encode_restore oc_decode_restore wf_oc_restore.
Lemma restore_lawful : fc_lawful restore_codec.
Proof. lawful restore_codec oc_encode_restore oc_decode_restore. Qed.
Lemma restore_safe : rd_safe oc_decode_restore.
Proof. unfold oc_decode_restore; solve_safe. Qed.

Definition oc_encode_alerts_summary (version : Z) (m : oc_alerts_summary) : encoder :=
  frame version OC_MSG_ALERTS_SUMMARY (
    oc_w_u32 (alerts_summary_unacked m) ;;
    oc_w_u32 (alerts_summary_current m)).

Definition oc_decode_alerts_summary : rd oc_alerts_summary :=
  unacked <- oc_r_u32 ;;
  current <- oc_r_u32 ;;
  r_done (mk_oc_alerts_summary unacked current).

Definition alerts_summary_codec : frame_codec :=
  FrameCodec oc_alerts_summary OC_MSG_ALERTS_SUMMARY id oc_encode_alerts_summary oc_decode_alerts_summary wf_oc_alerts_summary.
Lemma alerts_summary_lawful : fc_lawful alerts_summary_codec.
Proof. lawful alerts_summary_codec oc_encode_alerts_summary oc_decode_alerts_summary. Qed.
Lemma alerts_summary_safe : rd_safe oc_decode_alerts_summary.
Proof. unfold oc_decode_alerts_summary; solve_safe. Qed.

Definition oc_encode_alerts_list (version : Z) : encoder :=
  frame version OC_MSG_ALERTS_LIST id.

(** The guard loop ahead of the frame: every key and message within its cap. *)
Definition oc_encode_alerts (version : Z) (m : oc_alerts) : encoder :=
  enc_refuse_if (OC_MAX_ALERTS <? alerts_count m) (
  enc_refuse_if (existsb (fun x =>
      (OC_MAX_ALERT_KEY <? zlen (alert_key x)) || (OC_MAX_ALERT_MESSAGE <? zlen (alert_message x)))
      (ztake (alerts_count m) (alerts_alerts m))) (
  frame version OC_MSG_ALERTS (
    oc_w_u16 (alerts_count m) ;;
    w_each (fun x =>
      oc_w_u64 (alert_id x) ;;
      oc_w_u64 (alert_first_ms x) ;;
      oc_w_u64 (alert_last_ms x) ;;
      oc_w_u32 (alert_count x) ;;
      oc_w_u8 (alert_current x) ;;
      oc_w_u8 (alert_acked x) ;;
      oc_w_str (alert_key x) ;;
      oc_w_str (alert_message x)) (ztake (alerts_count m) (alerts_alerts m))))).

Definition oc_decode_alerts (cap : Z) : rd oc_alerts :=
  n <- oc_r_u16 ;;
  _ <- r_fail_if ((cap <? n) || (OC_MAX_ALERTS <? n)) ;;
  alerts <- r_for (Z.to_nat n) (
    id <- oc_r_u64 ;;
    first_ms <- oc_r_u64 ;;
    last_ms <- oc_r_u64 ;;
    count <- oc_r_u32 ;;
    current <- oc_r_u8 ;;
    acked <- oc_r_u8 ;;
    key <- oc_r_str ;;
    message <- oc_r_str ;;
    _ <- r_fail_if ((OC_MAX_ALERT_KEY <? zlen key) || (OC_MAX_ALERT_MESSAGE <? zlen message)) ;;
    rret (mk_oc_alert id first_ms last_ms count current acked key message)) ;;
  r_done (mk_oc_alerts n alerts).

Definition wf_alert (x : oc_alert) : Prop :=
  wf_oc_alert x ∧ zlen (alert_key x) <= OC_MAX_ALERT_KEY ∧ zlen (alert_message x) <= OC_MAX_ALERT_MESSAGE.
Definition wf_alerts (cap : Z) (m : oc_alerts) : Prop :=
  is_u16 (alerts_count m) ∧ Forall wf_alert (alerts_alerts m) ∧
  alerts_count m = zlen (alerts_alerts m) ∧
  zlen (alerts_alerts m) <= OC_MAX_ALERTS ∧ zlen (alerts_alerts m) <= cap.
#[export] Hint Unfold wf_alert wf_alerts : wf.

Lemma alerts_within l : Forall wf_alert l →
  existsb (fun x => (OC_MAX_ALERT_KEY <? zlen (alert_key x)) ||
                    (OC_MAX_ALERT_MESSAGE <? zlen (alert_message x))) l = false.
Proof.
  induction 1 as [|x l (_ & Hk & Hm) _ IH]; [done|]. cbn [existsb]. rewrite IH, orb_false_r.
  apply orb_false_intro; by apply Z.ltb_ge.
Qed.

Definition alerts_codec (cap : Z) : frame_codec :=
  FrameCodec oc_alerts OC_MSG_ALERTS id oc_encode_alerts (oc_decode_alerts cap) (wf_alerts cap).
Lemma alerts_lawful cap : fc_lawful (alerts_codec cap).
Proof.
  unfold fc_lawful, alerts_codec. eexists (fun m => _); fc_open; split; [|split].
  - intros version m (Hc & Hl & Hn & Hm & Hk). unfold oc_encode_alerts. rewrite Hn, ztake_zlen.
    apply refuse_no; [wire_guard|]. apply refuse_no; [by apply alerts_within|]. solve_writes.
  - law_parses oc_decode_alerts.
  - unfold oc_decode_alerts. solve_done wf_alert. done_close.
Qed.
Lemma alerts_safe cap : rd_safe (oc_decode_alerts cap).
Proof. unfold oc_decode_alerts; solve_safe. Qed.

Definition oc_encode_alert_ack (version : Z) (m : oc_alert_ack) : encoder :=
  frame version OC_MSG_ALERT_ACK (
    oc_w_u64 (alert_ack_alert_id m)).

Definition oc_decode_alert_ack : rd oc_alert_ack :=
  alert_id <- oc_r_u64 ;;
  r_done (mk_oc_alert_ack alert_id).

Definition alert_ack_codec : frame_codec :=
  FrameCodec oc_alert_ack OC_MSG_ALERT_ACK id oc_encode_alert_ack oc_decode_alert_ack wf_oc_alert_ack.
Lemma alert_ack_lawful : fc_lawful alert_ack_codec.
Proof. lawful alert_ack_codec oc_encode_alert_ack oc_decode_alert_ack. Qed.
Lemma alert_ack_safe : rd_safe oc_decode_alert_ack.
Proof. unfold oc_decode_alert_ack; solve_safe. Qed.

Definition oc_encode_add_emoji (version : Z) (m : oc_add_emoji) : encoder :=
  frame version OC_MSG_ADD_EMOJI (
    oc_w_str (add_emoji_name m) ;;
    oc_w_u64 (add_emoji_attachment_id m)).

Definition oc_decode_add_emoji : rd oc_add_emoji :=
  name <- oc_r_str ;;
  attachment_id <- oc_r_u64 ;;
  r_done (mk_oc_add_emoji name attachment_id).

Definition add_emoji_codec : frame_codec :=
  FrameCodec oc_add_emoji OC_MSG_ADD_EMOJI id oc_encode_add_emoji oc_decode_add_emoji wf_oc_add_emoji.
Lemma add_emoji_lawful : fc_lawful add_emoji_codec.
Proof. lawful add_emoji_codec oc_encode_add_emoji oc_decode_add_emoji. Qed.
Lemma add_emoji_safe : rd_safe oc_decode_add_emoji.
Proof. unfold oc_decode_add_emoji; solve_safe. Qed.

Definition oc_encode_delete_emoji (version : Z) (m : oc_delete_emoji) : encoder :=
  frame version OC_MSG_DELETE_EMOJI (
    oc_w_str (delete_emoji_name m)).

Definition oc_decode_delete_emoji : rd oc_delete_emoji :=
  name <- oc_r_str ;;
  r_done (mk_oc_delete_emoji name).

Definition delete_emoji_codec : frame_codec :=
  FrameCodec oc_delete_emoji OC_MSG_DELETE_EMOJI id oc_encode_delete_emoji oc_decode_delete_emoji wf_oc_delete_emoji.
Lemma delete_emoji_lawful : fc_lawful delete_emoji_codec.
Proof. lawful delete_emoji_codec oc_encode_delete_emoji oc_decode_delete_emoji. Qed.
Lemma delete_emoji_safe : rd_safe oc_decode_delete_emoji.
Proof. unfold oc_decode_delete_emoji; solve_safe. Qed.

Definition oc_encode_list_emoji (version : Z) : encoder :=
  frame version OC_MSG_LIST_EMOJI id.

Definition oc_decode_list_emoji : rd unit := r_done tt.

Definition list_emoji_codec : frame_codec :=
  FrameCodec unit OC_MSG_LIST_EMOJI id (fun version _ => oc_encode_list_emoji version) oc_decode_list_emoji (fun _ => True).
Lemma list_emoji_lawful : fc_lawful list_emoji_codec.
Proof. lawful_empty list_emoji_codec oc_encode_list_emoji oc_decode_list_emoji. Qed.
Lemma list_emoji_safe : rd_safe oc_decode_list_emoji.
Proof. unfold oc_decode_list_emoji; solve_safe. Qed.

Definition oc_encode_emoji_list (version : Z) (m : oc_emoji_list) : encoder :=
  frame version OC_MSG_EMOJI_LIST (
    oc_w_u16 (emoji_list_count m) ;;
    w_each (fun x =>
      oc_w_str (emoji_entry_name x) ;;
      oc_w_u64 (emoji_entry_attachment_id x) ;;
      oc_w_u64 (emoji_entry_created_by x)) (ztake (emoji_list_count m) (emoji_list_entries m))).

Definition oc_decode_emoji_list (cap : Z) : rd oc_emoji_list :=
  count <- oc_r_u16 ;;
  entries <- r_for_ok (Z.to_nat count) (
    nm <- oc_r_str ;;
    aid <- oc_r_u64 ;;
    by_ <- oc_r_u64 ;;
    rret (mk_oc_emoji_entry nm aid by_)) ;;
  r_done (mk_oc_emoji_list count (ztake cap entries)).

Definition wf_emoji_list (cap : Z) (m : oc_emoji_list) : Prop :=
  wf_oc_emoji_list m ∧
  emoji_list_count m = zlen (emoji_list_entries m) ∧
  zlen (emoji_list_entries m) <= cap.
#[export] Hint Unfold wf_emoji_list : wf.

Definition emoji_list_codec (cap : Z) : frame_codec :=
  FrameCodec oc_emoji_list OC_MSG_EMOJI_LIST id oc_encode_emoji_list (oc_decode_emoji_list cap) (wf_emoji_list cap).
Lemma emoji_list_complete cap : fc_complete (emoji_list_codec cap).
Proof. complete emoji_list_codec oc_encode_emoji_list oc_decode_emoji_list. Qed.
Lemma emoji_list_safe cap : rd_safe (oc_decode_emoji_list cap).
Proof. unfold oc_decode_emoji_list; solve_safe. Qed.

(** ** The frames of this file

    [cap] is the length of the array a decoder is given, where it takes one. *)

Definition admin_lawful_codecs (cap : Z) : list frame_codec :=
  [set_webhook_state_codec; rotate_webhook_codec; revoke_invite_codec; invite_revoked_codec;
   set_mute_codec; set_read_cursor_codec; set_status_codec; set_profile_codec;
   profile_info_codec; get_channel_description_codec; channel_description_codec;
   set_notify_default_codec; set_avatar_codec; open_group_dm_codec; list_groups_codec;
   create_group_codec; update_group_codec; delete_group_codec; group_deleted_codec;
   group_members_op_codec OC_MSG_GROUP_ADD_MEMBERS;
   group_members_op_codec OC_MSG_GROUP_REMOVE_MEMBERS; group_info_codec cap;
   groups_end_codec; channel_group_op_codec OC_MSG_CHANNEL_ADD_GROUP;
   channel_group_op_codec OC_MSG_CHANNEL_REMOVE_GROUP; channel_groups_codec cap;
   channel_via_group_codec cap; mention_unresolved_more_codec; restore_codec;
   alerts_summary_codec; alerts_codec cap; alert_ack_codec; add_emoji_codec;
   delete_emoji_codec; list_emoji_codec].

Lemma admin_lawful cap : Forall fc_lawful (admin_lawful_codecs cap).
Proof.
  apply List.Forall_cons; [exact set_webhook_state_lawful|].
  apply List.Forall_cons; [exact rotate_webhook_lawful|].
  apply List.Forall_cons; [exact revoke_invite_lawful|].
  apply List.Forall_cons; [exact invite_revoked_lawful|].
  apply List.Forall_cons; [exact set_mute_lawful|].
  apply List.Forall_cons; [exact set_read_cursor_lawful|].
  apply List.Forall_cons; [exact set_status_lawful|].
  apply List.Forall_cons; [exact set_profile_lawful|].
  apply List.Forall_cons; [exact profile_info_lawful|].
  apply List.Forall_cons; [exact get_channel_description_lawful|].
  apply List.Forall_cons; [exact channel_description_lawful|].
  apply List.Forall_cons; [exact set_notify_default_lawful|].
  apply List.Forall_cons; [exact set_avatar_lawful|].
  apply List.Forall_cons; [exact open_group_dm_lawful|].
  apply List.Forall_cons; [exact list_groups_lawful|].
  apply List.Forall_cons; [exact create_group_lawful|].
  apply List.Forall_cons; [exact update_group_lawful|].
  apply List.Forall_cons; [exact delete_group_lawful|].
  apply List.Forall_cons; [exact group_deleted_lawful|].
  apply List.Forall_cons; [exact (group_members_op_lawful OC_MSG_GROUP_ADD_MEMBERS (or_introl eq_refl))|].
  apply List.Forall_cons; [exact (group_members_op_lawful OC_MSG_GROUP_REMOVE_MEMBERS (or_intror eq_refl))|].
  apply List.Forall_cons; [exact (group_info_lawful cap)|].
  apply List.Forall_cons; [exact groups_end_lawful|].
  apply List.Forall_cons; [exact (channel_group_op_lawful OC_MSG_CHANNEL_ADD_GROUP (or_introl eq_refl))|].
  apply List.Forall_cons; [exact (channel_group_op_lawful OC_MSG_CHANNEL_REMOVE_GROUP (or_intror eq_refl))|].
  apply List.Forall_cons; [exact (channel_groups_lawful cap)|].
  apply List.Forall_cons; [exact (channel_via_group_lawful cap)|].
  apply List.Forall_cons; [exact mention_unresolved_more_lawful|].
  apply List.Forall_cons; [exact restore_lawful|].
  apply List.Forall_cons; [exact alerts_summary_lawful|].
  apply List.Forall_cons; [exact (alerts_lawful cap)|].
  apply List.Forall_cons; [exact alert_ack_lawful|].
  apply List.Forall_cons; [exact add_emoji_lawful|].
  apply List.Forall_cons; [exact delete_emoji_lawful|].
  apply List.Forall_cons; [exact list_emoji_lawful|].
  apply List.Forall_nil.
Qed.
Definition admin_complete_codecs (cap : Z) : list frame_codec :=
  [invite_list_codec cap; file_channels_codec cap; session_list_codec cap;
   emoji_list_codec cap].

Lemma admin_complete cap : Forall fc_complete (admin_complete_codecs cap).
Proof.
  apply List.Forall_cons; [exact (invite_list_complete cap)|].
  apply List.Forall_cons; [exact (file_channels_complete cap)|].
  apply List.Forall_cons; [exact (session_list_complete cap)|].
  apply List.Forall_cons; [exact (emoji_list_complete cap)|].
  apply List.Forall_nil.
Qed.
Lemma admin_safe cap :
  Forall (fun c => rd_safe (fc_decode c)) (admin_lawful_codecs cap ++ admin_complete_codecs cap).
Proof.
  apply List.Forall_cons; [exact set_webhook_state_safe|].
  apply List.Forall_cons; [exact rotate_webhook_safe|].
  apply List.Forall_cons; [exact revoke_invite_safe|].
  apply List.Forall_cons; [exact invite_revoked_safe|].
  apply List.Forall_cons; [exact set_mute_safe|].
  apply List.Forall_cons; [exact set_read_cursor_safe|].
  apply List.Forall_cons; [exact set_status_safe|].
  apply List.Forall_cons; [exact set_profile_safe|].
  apply List.Forall_cons; [exact profile_info_safe|].
  apply List.Forall_cons; [exact get_channel_description_safe|].
  apply List.Forall_cons; [exact channel_description_safe|].
  apply List.Forall_cons; [exact set_notify_default_safe|].
  apply List.Forall_cons; [exact set_avatar_safe|].
  apply List.Forall_cons; [exact open_group_dm_safe|].
  apply List.Forall_cons; [exact list_groups_safe|].
  apply List.Forall_cons; [exact create_group_safe|].
  apply List.Forall_cons; [exact update_group_safe|].
  apply List.Forall_cons; [exact group_ref_safe|].
  apply List.Forall_cons; [exact group_ref_safe|].
  apply List.Forall_cons; [exact group_members_op_safe|].
  apply List.Forall_cons; [exact group_members_op_safe|].
  apply List.Forall_cons; [exact (group_info_safe cap)|].
  apply List.Forall_cons; [exact groups_end_safe|].
  apply List.Forall_cons; [exact channel_group_op_safe|].
  apply List.Forall_cons; [exact channel_group_op_safe|].
  apply List.Forall_cons; [exact (channel_groups_safe cap)|].
  apply List.Forall_cons; [exact (channel_via_group_safe cap)|].
  apply List.Forall_cons; [exact mention_unresolved_more_safe|].
  apply List.Forall_cons; [exact restore_safe|].
  apply List.Forall_cons; [exact alerts_summary_safe|].
  apply List.Forall_cons; [exact (alerts_safe cap)|].
  apply List.Forall_cons; [exact alert_ack_safe|].
  apply List.Forall_cons; [exact add_emoji_safe|].
  apply List.Forall_cons; [exact delete_emoji_safe|].
  apply List.Forall_cons; [exact list_emoji_safe|].
  apply List.Forall_cons; [exact (invite_list_safe cap)|].
  apply List.Forall_cons; [exact (file_channels_safe cap)|].
  apply List.Forall_cons; [exact (session_list_safe cap)|].
  apply List.Forall_cons; [exact (emoji_list_safe cap)|].
  apply List.Forall_nil.
Qed.

(** Requests without a payload, as the type and the encoder. *)
Definition admin_bare_frames : list (oc_msg_type * (Z → encoder)) :=
  [(OC_MSG_LIST_INVITES, oc_encode_list_invites);
   (OC_MSG_LIST_FILE_CHANNELS, oc_encode_list_file_channels);
   (OC_MSG_LIST_SESSIONS, oc_encode_list_sessions);
   (OC_MSG_MARK_ALL_READ, oc_encode_mark_all_read);
   (OC_MSG_ALERTS_LIST, oc_encode_alerts_list)].

Lemma local_credential_encodes u p w :
  Writes (oc_w_str u ;; oc_w_str p) (oapp (str_bytes u) (str_bytes p)) ∧
  oc_encode_local_credential u p w
    = ((if w_overflow ((oc_w_str u ;; oc_w_str p) w) then OC_E_OVERFLOW else OC_OK),
       (oc_w_str u ;; oc_w_str p) w).
Proof. split; [apply writes_seq; apply writes_str|done]. Qed.

(** the local credential inside AUTH round-trips: written into an empty
    buffer and parsed back it is the user name and the password, whatever bytes
    they hold, embedded separators included. *)
Theorem local_credential_roundtrip u p data cap w' :
  wbuf_ok (oc_wbuf_init data cap) → cap <= 2 ^ 32 →
  oc_encode_local_credential u p (oc_wbuf_init data cap) = (OC_OK, w') →
  oc_parse_local_credential (written w') = inr (u, p).
Proof.
  intros Hw Hc E. destruct (local_credential_encodes u p (oc_wbuf_init data cap)) as [HW HE].
  rewrite HE in E. set (w0 := (oc_w_str u ;; oc_w_str p) (oc_wbuf_init data cap)) in *.
  destruct (w_overflow w0) eqn:Ho; [done|]. injection E as <-.
  destruct (HW _ Hw) as [_ HR]. fold w0 in HR.
  destruct (oapp (str_bytes u) (str_bytes p)) as [bs|] eqn:Eb; [|congruence].
  destruct (fits (oc_wbuf_init data cap) bs) eqn:F; [|congruence].
  rewrite HR, written_put by done. change (written (oc_wbuf_init data cap)) with (@nil Z).
  simpl app. apply fits_iff in F as [_ F]. simpl in F.
  unfold oc_parse_local_credential.
  assert (H : ParsesAll (u <- oc_r_str ;; p <- oc_r_str ;; r_done (u, p)) (Some bs) (u, p)).
  { rewrite <- Eb. eapply parses_all_bind; [apply parses_str|].
    apply (parses_all_last _ (fun p => (u, p))), parses_str. }
  by rewrite (H bs eq_refl _ (rbuf_init_ok bs ltac:(lia)) eq_refl (rest_init bs)).
Qed.

Lemma local_credential_roundtrip_witness :
  oc_parse_local_credential [0; 1; 97; 0; 2; 0; 98] = inr ([97], [0; 98]).
Proof.
  assert (E : oc_encode_local_credential [97] [0; 98] (oc_wbuf_init (replicate 8 0) 8)
    = (OC_OK, mk_wbuf [0; 1; 97; 0; 2; 0; 98; 0] 8 7 false)) by reflexivity.
  refine (local_credential_roundtrip [97] [0; 98] (replicate 8 0) 8 _ _ _ E); [|lia].
  by vm_compute.
Defined.
