(* ===== verification/Protocol.v ===== *)
(** * The protocol as a whole: registry, handshake and text predicates

    The frames of the [Proto] files gathered into one registry, and what is
    true of all of them; version negotiation; the credential carried inside
    AUTH; [oc_device_token_ok] and [oc_email_plausible]. *)
From stdpp Require Import base tactics list numbers sorting.
From S2P Require Import Prelude Wire WireLogic WireRead WireFrame ProtoTypes.
From S2P Require Import ProtoSession ProtoMessage ProtoChannel ProtoPrefs.
From S2P Require Import ProtoCall ProtoMedia ProtoUsers ProtoAdmin.
Local Open Scope Z_scope.
Local Open Scope wire_scope.

(** ** The registry *)

Definition lawful_codecs (cap : Z) : list frame_codec :=
  session_lawful_codecs cap ++ message_lawful_codecs cap ++ channel_lawful_codecs cap ++
  prefs_lawful_codecs cap ++ call_lawful_codecs cap ++ media_lawful_codecs cap ++
  users_lawful_codecs cap ++ admin_lawful_codecs cap.
Definition complete_codecs (cap : Z) : list frame_codec :=
  session_complete_codecs cap ++ message_complete_codecs cap ++ channel_complete_codecs cap ++
  prefs_complete_codecs cap ++ call_complete_codecs cap ++ media_complete_codecs cap ++
  users_complete_codecs cap ++ admin_complete_codecs cap.
Definition all_codecs (cap : Z) : list frame_codec := lawful_codecs cap ++ complete_codecs cap.
Definition bare_frames : list (oc_msg_type * (Z → encoder)) :=
  session_bare_frames ++ message_bare_frames ++ channel_bare_frames ++ prefs_bare_frames ++
  call_bare_frames ++ media_bare_frames ++ users_bare_frames ++ admin_bare_frames.

(** ** Version negotiation *)

(** [inl code] is [OC_E_MALFORMED] with the reject code, [inr v] the version. *)
Definition oc_negotiate_version (client_min client_max server_min server_max : Z)
    : oc_reason_code + Z :=
  if client_max <? server_min then inl OC_ERR_VERSION_TOO_OLD
  else if server_max <? client_min then inl OC_ERR_VERSION_TOO_NEW
  else inr (if server_max <? client_max then server_max else client_max).

(** ** Text predicates *)

Definition ascii_alnum (c : Z) : bool :=
  ((97 <=? c) && (c <=? 122)) || ((65 <=? c) && (c <=? 90)) || ((48 <=? c) && (c <=? 57)).

Definition device_token_char (c : Z) : bool :=
  ascii_alnum c || (c =? 95) || (c =? 45) || (c =? 58) || (c =? 46).

(** [tok] is [None] for a null pointer; the loop answers at the first bad byte. *)
Fixpoint device_token_loop (tok : list Z) : bool :=
  match tok with
  | [] => true
  | c :: tok => if negb (device_token_char c) then false else device_token_loop tok
  end.
Definition oc_device_token_ok (tok : option (list Z)) : bool :=
  match tok with
  | None => false
  | Some tok => if (zlen tok =? 0) || (OC_DEVICE_TOKEN_MAX <=? zlen tok) then false
                else device_token_loop tok
  end.

(** [strchr(s, '@')]: what precedes the character and what follows it. *)
Fixpoint strchr_at (s : list Z) : option (list Z * list Z) :=
  match s with
  | [] => None
  | c :: s =>
      if c =? 64 then Some ([], s)
      else match strchr_at s with
           | Some (a, b) => Some (c :: a, b)
           | None => None
           end
  end.

Definition email_local_char (c : Z) : bool :=
  negb ((c <=? 0x20) || (c =? 0x7f) || (c =? 60) || (c =? 62) || (c =? 44) || (c =? 59) ||
        (c =? 34) || (c =? 40) || (c =? 41) || (c =? 91) || (c =? 93) || (c =? 92)).
Definition email_domain_char (c : Z) : bool :=
  ascii_alnum c || (c =? 45) || (0x80 <=? c).

(** The domain loop, with its two counters; the end of the list is the NUL. *)
Fixpoint email_domain_loop (label labels : Z) (d : list Z) : bool :=
  match d with
  | [] => if label =? 0 then false else 2 <=? labels + 1
  | c :: d =>
      if c =? 46 then if label =? 0 then false else email_domain_loop 0 (labels + 1) d
      else if negb (email_domain_char c) then false
      else email_domain_loop (label + 1) labels d
  end.

(** The bytes of the string before its NUL; [None] for a null pointer. *)
Definition oc_email_plausible (s : option (list Z)) : bool :=
  match s with
  | None => false
  | Some s =>
      match strchr_at s with
      | None => false
      | Some (local, d) =>
          if (254 <? zlen s) || (if strchr_at d is Some _ then true else false) then false
          else if (zlen local =? 0) || (64 <? zlen local) then false
          else if negb (forallb email_local_char local) then false
          else email_domain_loop 0 0 d
      end
  end.

(** ** Lemmas *)

Lemma registry_lawful cap : Forall fc_lawful (lawful_codecs cap).
Proof.
  unfold lawful_codecs. rewrite !Forall_app. split_and!;
    auto using session_lawful, message_lawful, channel_lawful, prefs_lawful, call_lawful,
      media_lawful, users_lawful, admin_lawful.
Qed.
Lemma registry_complete cap : Forall fc_complete (all_codecs cap).
Proof.
  unfold all_codecs. apply Forall_app. split.
  - eapply Forall_impl; [apply registry_lawful|apply lawful_complete].
  - unfold complete_codecs. rewrite !Forall_app. split_and!;
      auto using session_complete, message_complete, channel_complete, prefs_complete,
        call_complete, media_complete, users_complete, admin_complete.
Qed.

Lemma registry_safe cap : Forall (fun c => rd_safe (fc_decode c)) (all_codecs cap).
Proof.
  assert (H : ∀ l1 l2 : list frame_codec, Forall (fun c => rd_safe (fc_decode c)) (l1 ++ l2) →
    Forall (fun c => rd_safe (fc_decode c)) l1 ∧ Forall (fun c => rd_safe (fc_decode c)) l2)
    by (intros l1 l2; apply Forall_app).
  destruct (H _ _ (session_safe cap)), (H _ _ (message_safe cap)), (H _ _ (channel_safe cap)),
    (H _ _ (prefs_safe cap)), (H _ _ (call_safe cap)), (H _ _ (media_safe cap)),
    (H _ _ (users_safe cap)), (H _ _ (admin_safe cap)).
  unfold all_codecs, lawful_codecs, complete_codecs. rewrite !Forall_app. by split_and!.
Qed.

(** The message type of every codec, independent of [cap]. *)
Definition codec_types (cap : Z) : list Z := fc_type <$> all_codecs cap.

Lemma codec_types_cap cap : codec_types cap = codec_types 0.
Proof. reflexivity. Qed.

Lemma registry_types_u16 cap : Forall (fun c => is_u16 (fc_type c)) (all_codecs cap).
Proof.
  apply (Forall_fmap fc_type is_u16).
  change (Forall is_u16 (codec_types cap)). rewrite codec_types_cap.
  apply (bool_decide_unpack _). vm_compute. exact I.
Qed.

(** *** E-mail addresses *)

Lemma strchr_at_spec s a b :
  strchr_at s = Some (a, b) ↔ s = a ++ 64 :: b ∧ Forall (.≠ 64) a.
Proof.
  revert a b. induction s as [|c s IH]; intros a b; simpl.
  { split; [done|]. intros [E _]. by destruct a. }
  destruct (Z.eqb_spec c 64) as [->|Hc].
  - split.
    + intros [= <- <-]. done.
    + destruct a as [|x a]; [by intros [[= <-] _]|].
      intros [[= <- ->] Ha]. by apply Forall_cons in Ha as [? _].
  - destruct (strchr_at s) as [[a' b']|] eqn:E.
    + destruct (proj1 (IH a' b') eq_refl) as [-> Ha']. split.
      * intros [= <- <-]. by rewrite Forall_cons.
      * destruct a as [|x a]; [by intros [[= ->] _]|]. intros [[= <- Es] Ha].
        apply Forall_cons in Ha as [_ Ha].
        assert (Some (a', b') = Some (a, b)) as [= -> ->] by (apply IH; done). done.
    + split; [done|]. destruct a as [|x a]; [by intros [[= ->] _]|]. intros [[= <- Es] Ha].
      apply Forall_cons in Ha as [_ Ha]. assert (None = Some (a, b)) by (by apply IH). done.
Qed.

(** Labels joined by dots. *)
Fixpoint join_dots (l : list Z) (ls : list (list Z)) : list Z :=
  match ls with
  | [] => l
  | l' :: ls => l ++ 46 :: join_dots l' ls
  end.
Definition is_label (l : list Z) : Prop := l ≠ [] ∧ Forall (fun c => email_domain_char c = true) l.

Lemma join_dots_cons c l ls : join_dots (c :: l) ls = c :: join_dots l ls.
Proof. by destruct ls. Qed.

(** [label] characters of the current label and [labels] whole ones were read. *)
Lemma email_domain_loop_spec d : ∀ label labels, 0 <= label →
  email_domain_loop label labels d = true ↔
  ∃ l ls, d = join_dots l ls ∧ Forall (fun c => email_domain_char c = true) l ∧
    (l ≠ [] ∨ 0 < label) ∧ Forall is_label ls ∧ 2 <= labels + 1 + zlen ls.
Proof.
  induction d as [|c d IH]; intros label labels Hl; simpl.
  { split.
    - destruct (Z.eqb_spec label 0); [done|]. intros H%Z.leb_le. exists [], [].
      split_and!; try done; [right; lia|]. change (zlen []) with 0. lia.
    - intros (l & ls & E & _ & Hne & _ & Hn). destruct ls as [|l' ls]; [|by destruct l].
      simpl in E. subst l. change (zlen []) with 0 in Hn. destruct Hne as [?|?]; [done|].
      destruct (Z.eqb_spec label 0); [lia|]. apply Z.leb_le. lia. }
  destruct (Z.eqb_spec c 46) as [->|Hc].
  - destruct (Z.eqb_spec label 0) as [->|H0].
    + split; [done|]. intros (l & ls & E & Hd & Hne & _ & _).
      destruct l as [|x l]; [destruct Hne; [done|lia]|]. rewrite join_dots_cons in E.
      injection E as <- ->. by apply Forall_cons in Hd as [? _].
    + rewrite IH by done. split.
      * intros (l & ls & -> & Hd & Hne & Hls & Hn). exists [], (l :: ls).
        rewrite zlen_cons. split_and!; try done; [right; lia| |lia].
        apply Forall_cons. split; [|done]. split; [|done]. destruct Hne; [done|lia].
      * intros (l & ls & E & Hd & Hne & Hls & Hn).
        destruct l as [|x l]; [|rewrite join_dots_cons in E; injection E as <- ->;
          by apply Forall_cons in Hd as [? _]].
        destruct ls as [|l' ls]; [done|]. simpl in E. injection E as ->.
        apply Forall_cons in Hls as [[? ?] Hls]. rewrite zlen_cons in Hn.
        exists l', ls. split_and!; try done; [by left|lia].
  - destruct (email_domain_char c) eqn:Ec; simpl.
    + rewrite IH by lia. split.
      * intros (l & ls & -> & Hd & _ & Hls & Hn). exists (c :: l), ls.
        rewrite join_dots_cons. split_and!; try done; [by apply Forall_cons|by left].
      * intros (l & ls & E & Hd & _ & Hls & Hn).
        destruct l as [|x l]; [by destruct ls; [|injection E]|].
        rewrite join_dots_cons in E. injection E as <- ->. apply Forall_cons in Hd as [_ Hd].
        exists l, ls. split_and!; try done. right. lia.
    + split; [done|]. intros (l & ls & E & Hd & _ & _).
      destruct l as [|x l]; [by destruct ls; [|injection E]|].
      rewrite join_dots_cons in E. injection E as <- ->. apply Forall_cons in Hd as [? _]. congruence.
Qed.

Lemma join_dots_no_at l ls :
  Forall (fun c => email_domain_char c = true) l → Forall is_label ls → Forall (.≠ 64) (join_dots l ls).
Proof.
  assert (H : ∀ l, Forall (fun c => email_domain_char c = true) l → Forall (.≠ 64) l).
  { intros l' Hl'. eapply Forall_impl; [exact Hl'|]. by intros c Hc ->. }
  revert l. induction ls as [|l' ls IH]; intros l Hl Hls; simpl; [auto|].
  apply Forall_cons in Hls as [[_ ?] ?]. rewrite Forall_app, Forall_cons. auto.
Qed.

Lemma strchr_at_none s : Forall (.≠ 64) s → strchr_at s = None.
Proof.
  induction 1 as [|c s Hc _ IH]; [done|]. simpl. rewrite IH.
  by destruct (Z.eqb_spec c 64).
Qed.

(** ** What holds of every frame *)

(** C1: every frame of the protocol round-trips.  Whenever an encoder succeeds
    on a well-formed message -- one within the ranges its decoder demands, [fc_wf];
    encoders themselves do not check enumerations and flags, and clamp some
    counts -- it has appended one frame to the buffer, and those
    bytes, with anything after them, parse to a header carrying the frame's
    version, its message type and its length, and decode to the very message. *)
Theorem protocol_roundtrip cap : Forall fc_roundtrip (all_codecs cap).
Proof.
  apply Forall_forall. intros c Hc. apply complete_roundtrip.
  - exact (Forall_elem _ _ _ (registry_types_u16 cap) Hc).
  - exact (Forall_elem _ _ _ (registry_complete cap) Hc).
Qed.

(** C28: an encoder is all or nothing.  For a well-formed message either there
    is one frame, of at most [OC_MAX_FRAME_SIZE] bytes, that it appends exactly
    when that frame fits, or it fails on every buffer; when it fails, the bytes
    already in the buffer are unchanged. *)
Theorem protocol_atomic cap : Forall fc_atomic (all_codecs cap).
Proof. eapply Forall_impl; [apply registry_complete|apply complete_atomic]. Qed.

(** C40: the layouts of the strict frames are canonical.  A payload their
    decoder accepts is a well-formed message, within every array bound, and
    whenever the encoder accepts that message (an edit's body may be longer than
    it does) it gives back the same bytes. *)
Theorem protocol_canonical cap : Forall fc_canonical (lawful_codecs cap).
Proof.
  eapply Forall_impl; [apply registry_lawful|]. intros c Hc. by apply exact_canonical, lawful_exact.
Qed.

(** C17: no decoder leaves its payload.  On any bytes at all, accepted or not,
    every decoder keeps its cursor inside the buffer, moves it only forward and
    leaves the bytes as they were. *)
Theorem protocol_decoders_safe cap c r :
  c ∈ all_codecs cap → rbuf_bytes r →
  let r' := snd (fc_decode c r) in
  0 <= r_pos r <= r_pos r' ∧ r_pos r' <= r_len r' ∧ r_len r' = zlen (r_data r') ∧
  r_data r' = r_data r.
Proof.
  intros Hc Hr. pose proof (Forall_elem _ _ _ (registry_safe cap) Hc r Hr) as ([H ?] & ? & ?).
  destruct H as (? & ? & ?). destruct Hr as [(? & ? & ?) _]. cbv zeta. split_and!; (done || lia).
Qed.

Lemma protocol_decoders_safe_witness :
  let r' := snd (oc_decode_send (oc_rbuf_init [1; 2; 3] 3)) in
  0 <= 0 <= r_pos r' ∧ r_pos r' <= r_len r' ∧ r_len r' = zlen (r_data r') ∧ r_data r' = [1; 2; 3].
Proof.
  apply (protocol_decoders_safe 0 send_codec (oc_rbuf_init [1; 2; 3] 3)).
  - apply list_elem_of_In. unfold all_codecs. apply List.in_or_app. right.
    unfold complete_codecs, session_complete_codecs, message_complete_codecs. simpl. by left.
  - split; [by apply (rbuf_init_ok [1; 2; 3])|]. repeat constructor; lia.
Defined.

(** The registry is complete and every opcode carries one layout.  The
    message types of all codecs and all requests without a payload are exactly
    the types [protocol.h] declares, each once, except CALL_MEDIA, whose two
    directions have one layout each; and no two types share a code. *)
Theorem protocol_opcodes cap :
  codec_types cap ++ (msg_code <$> bare_frames.*1)
    ≡ₚ msg_code OC_MSG_CALL_MEDIA :: (msg_code <$> all_msg_types) ∧
  NoDup (msg_code <$> all_msg_types).
Proof.
  rewrite codec_types_cap. split.
  - rewrite <- (merge_sort_Permutation Z.le (codec_types 0 ++ _)).
    rewrite <- (merge_sort_Permutation Z.le (_ :: _)).
    assert (E : ∀ l1 l2 : list Z, l1 = l2 → l1 ≡ₚ l2) by by intros ? ? ->.
    apply E. vm_compute. reflexivity.
  - apply (bool_decide_unpack _). vm_compute. exact I.
Qed.

(** a request without a payload is exactly one 8-byte header: its encoder
    succeeds whenever eight bytes are free and the frame parses to its own type
    and an empty payload. *)
Theorem bare_frames_header version tail :
  is_u16 version →
  Forall (fun f : oc_msg_type * (Z → encoder) =>
    let '(type, encode) := f in
    Encodes (encode version) version type (Some []) ∧
    oc_parse_frame (frame_bytes version type [] ++ tail)
      = inr (mk_header 4 version type, oc_rbuf_init [] 0)) bare_frames.
Proof.
  intros Hv.
  assert (H : Forall (fun f : oc_msg_type * (Z → encoder) =>
      Encodes (snd f version) version (fst f) (Some [])) bare_frames).
  { cbv [bare_frames session_bare_frames message_bare_frames channel_bare_frames prefs_bare_frames
      call_bare_frames media_bare_frames users_bare_frames admin_bare_frames app].
    rewrite !Forall_cons. cbn [fst snd].
    split_and!; [apply (frame_encodes _ _ id), writes_id..|apply List.Forall_nil]. }
  eapply Forall_impl; [exact H|]. intros [type encode] Hf. split; [exact Hf|].
  rewrite parse_frame_bytes; [done..| |done]. by destruct type.
Qed.

Lemma bare_frames_header_witness :
  oc_parse_frame (frame_bytes 33 OC_MSG_LIST_DRAFTS [] ++ [7])
    = inr (mk_header 4 33 OC_MSG_LIST_DRAFTS, oc_rbuf_init [] 0).
Proof.
  assert (Hv : is_u16 33) by done.
  refine (proj2 (Forall_elem _ _ (OC_MSG_LIST_DRAFTS, oc_encode_list_drafts) (bare_frames_header 33 [7] Hv) _)).
  apply list_elem_of_In. simpl. tauto.
Defined.

(** ** The handshake *)

(** Version negotiation is sound and complete.  For well-formed ranges it
    chooses a version exactly when the two ranges meet, the chosen version is
    the greatest one in both, and a refusal says on which side the client is:
    too old when all its versions are below the server's, too new when above. *)
Theorem negotiate_version_spec client_min client_max server_min server_max :
  client_min <= client_max → server_min <= server_max →
  match oc_negotiate_version client_min client_max server_min server_max with
  | inr v =>
      (client_min <= v <= client_max ∧ server_min <= v <= server_max) ∧
      ∀ v', client_min <= v' <= client_max → server_min <= v' <= server_max → v' <= v
  | inl code =>
      (∀ v, client_min <= v <= client_max → ¬ server_min <= v <= server_max) ∧
      (code = OC_ERR_VERSION_TOO_OLD ∧ client_max < server_min ∨
       code = OC_ERR_VERSION_TOO_NEW ∧ server_max < client_min)
  end.
Proof.
  intros Hc Hs. unfold oc_negotiate_version.
  destruct (Z.ltb_spec client_max server_min); [split; [lia|by left]|].
  destruct (Z.ltb_spec server_max client_min); [split; [lia|by right]|].
  destruct (Z.ltb_spec server_max client_max); split; lia.
Qed.

Lemma negotiate_version_spec_witness :
  match oc_negotiate_version 30 40 33 33 with
  | inr v => v = 33
  | inl _ => False
  end.
Proof.
  pose proof (negotiate_version_spec 30 40 33 33 ltac:(lia) ltac:(lia)) as H.
  change (oc_negotiate_version 30 40 33 33) with (inr 33 : oc_reason_code + Z) in *.
  destruct H as [[_ H] _]. simpl in *. lia.
Defined.

(** [oc_email_plausible] is the documented shape of an address: at most
    254 bytes, a local part of 1 to 64 bytes without spaces, controls or the
    reserved punctuation, one at sign, and a domain of at least two non-empty
    labels joined by dots, each of letters, digits, hyphens or bytes past ASCII. *)
Theorem email_plausible_spec s :
  oc_email_plausible (Some s) = true ↔
  ∃ local l ls,
    s = local ++ 64 :: join_dots l ls ∧ zlen s <= 254 ∧ 1 <= zlen local <= 64 ∧
    Forall (fun c => email_local_char c = true ∧ c ≠ 64) local ∧
    Forall is_label (l :: ls) ∧ ls ≠ [].
Proof.
  unfold oc_email_plausible. split.
  - destruct (strchr_at s) as [[local d]|] eqn:E; [|done].
    apply strchr_at_spec in E as [E Ha].
    destruct (Z.ltb_spec 254 (zlen s)); [done|]. simpl. destruct (strchr_at d) as [?|]; [done|].
    destruct (Z.eqb_spec (zlen local) 0); [done|]. simpl.
    destruct (Z.ltb_spec 64 (zlen local)); [done|].
    destruct (forallb email_local_char local) eqn:Hl; [|done]. simpl.
    intros Hd. apply email_domain_loop_spec in Hd as (l & ls & -> & Hd & Hne & Hls & Hn); [|lia].
    exists local, l, ls. pose proof (zlen_nonneg local). rewrite <- E. split_and!; try (done || lia).
    + apply Forall_and. split; [|done]. apply Forall_forall. intros c Hc.
      apply list_elem_of_In in Hc. by eapply forallb_forall in Hl.
    + apply Forall_cons. split; [|done]. split; [|done]. destruct Hne; [done|lia].
    + intros ->. change (zlen []) with 0 in Hn. lia.
  - intros (local & l & ls & E & Hz & Hl & Hf & Hls & Hne).
    apply Forall_and in Hf as [Hf Ha]. apply Forall_cons in Hls as [[Hn Hd] Hls].
    rewrite (proj2 (strchr_at_spec s local (join_dots l ls)) (conj E Ha)).
    rewrite (strchr_at_none (join_dots l ls)) by by apply join_dots_no_at.
    destruct (Z.ltb_spec 254 (zlen s)); [lia|]. simpl.
    destruct (Z.eqb_spec (zlen local) 0); [lia|]. simpl.
    destruct (Z.ltb_spec 64 (zlen local)); [lia|].
    replace (forallb email_local_char local) with true.
    2:{ symmetry. apply forallb_forall. intros c Hc. apply list_elem_of_In in Hc.
        exact (Forall_elem _ _ _ Hf Hc). }
    apply email_domain_loop_spec; [lia|]. exists l, ls. split_and!; try done; [by left|].
    destruct ls as [|l' ls']; [done|]. rewrite zlen_cons. pose proof (zlen_nonneg ls'). lia.
Qed.
