(* ===== verification/Framebuf.v ===== *)
(** * The frame reassembler: [shared/framebuf.c] and its read loop

    [oc_framebuf] as the code has it: a fixed array with the bytes written and
    the bytes already yielded.  [receive] is the read loop of
    [daemon/ioloop.c] around it: push one chunk, then yield frames until the
    buffer asks for more or reports a frame that can never be valid.

    The specification is [deframe], which cuts a whole byte stream into frames
    without any buffer. *)
From S2P Require Import Prelude Wire WireLogic WireRead WireFrame.
From stdpp Require Import base tactics list numbers.
Local Open Scope Z_scope.

Definition OC_READ_CHUNK : Z := 16384.

Record oc_framebuf := mk_framebuf {
  fb_buf : list Z;
  fb_cap : Z;
  fb_len : Z;
  fb_pos : Z }.

(** [malloc(fb->cap)] is the argument: [None] when it fails, otherwise an array
    of unspecified bytes. *)
Definition oc_framebuf_init (mem : option (list Z)) : Z * oc_framebuf :=
  let cap := OC_MAX_FRAME_SIZE + OC_READ_CHUNK in
  match mem with
  | Some buf => (0, mk_framebuf buf cap 0 0)
  | None => (-1, mk_framebuf [] cap 0 0)
  end.

Definition oc_framebuf_free (fb : oc_framebuf) : oc_framebuf := mk_framebuf [] 0 0 0.

Definition compact (fb : oc_framebuf) : oc_framebuf :=
  if fb_pos fb =? 0 then fb
  else
    let rem := u64 (fb_len fb - fb_pos fb) in
    mk_framebuf
      (if rem =? 0 then fb_buf fb
       else splice 0 (ztake rem (zdrop (fb_pos fb) (fb_buf fb))) (fb_buf fb))
      (fb_cap fb) rem 0.

Definition oc_framebuf_push (data : list Z) (fb : oc_framebuf) : Z * oc_framebuf :=
  let fb := compact fb in
  if u64 (fb_cap fb - fb_len fb) <? zlen data then (-1, fb)
  else (0, mk_framebuf (splice (fb_len fb) data (fb_buf fb)) (fb_cap fb)
             (fb_len fb + zlen data) (fb_pos fb)).

Inductive next_result :=
  | NextFrame (frame : list Z)   (* 1, with the view of the frame *)
  | NextMore                     (* 0 *)
  | NextError (e : oc_result).   (* a negative [oc_result] *)

Definition oc_framebuf_next (fb : oc_framebuf) : next_result * oc_framebuf :=
  let avail := u64 (fb_len fb - fb_pos fb) in
  if avail <? OC_HEADER_SIZE then (NextMore, fb) else
  let p := zdrop (fb_pos fb) (fb_buf fb) in
  let length :=
    Z.lor (Z.lor (Z.lor (u32 (Z.shiftl (byte_at p 0) 24)) (u32 (Z.shiftl (byte_at p 1) 16)))
                 (u32 (Z.shiftl (byte_at p 2) 8)))
          (byte_at p 3) in
  if length <? OC_LENGTH_MIN then (NextError OC_E_MALFORMED, fb) else
  let total := u64 (length + 4) in
  if OC_MAX_FRAME_SIZE <? total then (NextError OC_E_TOO_LARGE, fb) else
  if avail <? total then (NextMore, fb) else
  (NextFrame (ztake total p), mk_framebuf (fb_buf fb) (fb_cap fb) (fb_len fb) (fb_pos fb + total)).

(** How a read ends: waiting for bytes, or dropping the connection. *)
Inductive read_end :=
  | ReadMore
  | ReadBad (e : oc_result)
  | ReadOverflow.

(** [while ((r = oc_framebuf_next(...)) == 1)], with [fuel] iterations. *)
Fixpoint drain (fuel : nat) (fb : oc_framebuf) : list (list Z) * read_end * oc_framebuf :=
  match fuel with
  | O => ([], ReadMore, fb)
  | S fuel =>
      match oc_framebuf_next fb with
      | (NextFrame f, fb) => let '(fs, e, fb) := drain fuel fb in (f :: fs, e, fb)
      | (NextMore, fb) => ([], ReadMore, fb)
      | (NextError e, fb) => ([], ReadBad e, fb)
      end
  end.

(** A frame takes at least [OC_HEADER_SIZE] bytes of the buffer. *)
Definition drain_fuel (fb : oc_framebuf) : nat := S (Z.to_nat (fb_len fb - fb_pos fb)).

(** One chunk: frames yielded, how the read ended, the buffer after it. *)
Definition receive (chunk : list Z) (fb : oc_framebuf) : list (list Z) * read_end * oc_framebuf :=
  match oc_framebuf_push chunk fb with
  | (0, fb) => drain (drain_fuel fb) fb
  | (_, fb) => ([], ReadOverflow, fb)
  end.

(** The chunks of a connection, until one drops it. *)
Fixpoint receive_all (chunks : list (list Z)) (fb : oc_framebuf)
    : list (list Z) * read_end * oc_framebuf :=
  match chunks with
  | [] => ([], ReadMore, fb)
  | c :: chunks =>
      let '(fs, e, fb) := receive c fb in
      match e with
      | ReadMore => let '(fs', e, fb) := receive_all chunks fb in (fs ++ fs', e, fb)
      | _ => (fs, e, fb)
      end
  end.

(** ** Specification: cutting a whole stream *)

(** What the first bytes of a stream hold. *)
Inductive head := HeadFrame (total : Z) | HeadMore | HeadBad (e : oc_result).

Definition stream_head (bs : list Z) : head :=
  if zlen bs <? OC_HEADER_SIZE then HeadMore else
  let total := of_be32 bs + 4 in
  if total <? OC_HEADER_SIZE then HeadBad OC_E_MALFORMED
  else if OC_MAX_FRAME_SIZE <? total then HeadBad OC_E_TOO_LARGE
  else if zlen bs <? total then HeadMore
  else HeadFrame total.

Fixpoint deframe_fuel (fuel : nat) (bs : list Z) : list (list Z) * read_end * list Z :=
  match fuel with
  | O => ([], ReadMore, bs)
  | S fuel =>
      match stream_head bs with
      | HeadFrame total =>
          let '(fs, e, r) := deframe_fuel fuel (zdrop total bs) in (ztake total bs :: fs, e, r)
      | HeadMore => ([], ReadMore, bs)
      | HeadBad e => ([], ReadBad e, bs)
      end
  end.
Definition deframe (bs : list Z) : list (list Z) * read_end * list Z :=
  deframe_fuel (S (length bs)) bs.

(** ** The buffer refines the stream *)

Definition fb_ok (fb : oc_framebuf) : Prop :=
  0 <= fb_pos fb <= fb_len fb ∧ fb_len fb <= fb_cap fb ∧
  fb_cap fb = OC_MAX_FRAME_SIZE + OC_READ_CHUNK ∧ zlen (fb_buf fb) = fb_cap fb.
(** The bytes that arrived and were not yielded. *)
Definition pending (fb : oc_framebuf) : list Z :=
  ztake (fb_len fb - fb_pos fb) (zdrop (fb_pos fb) (fb_buf fb)).
Arguments pending : simpl never.

Lemma zlen_pending fb : fb_ok fb → zlen (pending fb) = fb_len fb - fb_pos fb.
Proof.
  intros (H1 & H2 & H3 & H4). unfold pending. apply zlen_ztake.
  rewrite zlen_zdrop by lia. lia.
Qed.

Lemma fb_avail fb : fb_ok fb → u64 (fb_len fb - fb_pos fb) = zlen (pending fb).
Proof.
  intros Hfb. rewrite zlen_pending by done. destruct Hfb as (? & ? & ? & ?).
  unfold OC_MAX_FRAME_SIZE, OC_READ_CHUNK in *. apply u64_id. ilia.
Qed.

Lemma ztake_splice off bs data :
  0 <= off → off + zlen bs <= zlen data → ztake (off + zlen bs) (splice off bs data) = ztake off data ++ bs.
Proof.
  intros Ho Hl. pose proof (zlen_nonneg bs). unfold splice. rewrite app_assoc.
  apply ztake_app_eq. rewrite zlen_app, zlen_ztake by lia. done.
Qed.

Lemma pending_0 buf cap len : pending (mk_framebuf buf cap len 0) = ztake len buf.
Proof. unfold pending. simpl. by rewrite Z.sub_0_r, zdrop_0. Qed.

Lemma compact_spec fb : fb_ok fb →
  fb_ok (compact fb) ∧ fb_pos (compact fb) = 0 ∧ pending (compact fb) = pending fb ∧
  fb_len (compact fb) = zlen (pending fb).
Proof.
  intros Hfb. pose proof (zlen_pending fb Hfb) as Hz. pose proof (fb_avail fb Hfb) as Ha.
  pose proof Hfb as (H1 & H2 & H3 & H4). unfold compact.
  destruct (Z.eqb_spec (fb_pos fb) 0) as [E|E]; [split_and!; (done || lia)|].
  rewrite Ha. fold (pending fb). destruct (Z.eqb_spec (zlen (pending fb)) 0) as [E0|E0].
  - pose proof (zlen_0 _ E0) as Ez. split; [|split; [done|split; [|done]]].
    + unfold fb_ok; simpl. split_and!; lia.
    + by rewrite pending_0, E0, Ez.
  - replace (ztake (zlen (pending fb)) (zdrop (fb_pos fb) (fb_buf fb))) with (pending fb)
      by (unfold pending at 1; by rewrite Hz).
    split; [|split; [done|split; [|done]]].
    { unfold fb_ok; simpl. split_and!; rewrite ?zlen_splice; lia. }
    rewrite pending_0. exact (ztake_splice 0 (pending fb) (fb_buf fb) ltac:(lia) ltac:(lia)).
Qed.

(** Push appends to the pending bytes, or refuses and keeps them. *)
Lemma push_spec data fb : fb_ok fb →
  let '(r, fb') := oc_framebuf_push data fb in
  fb_ok fb' ∧
  if zlen (pending fb) + zlen data <=? fb_cap fb
  then r = 0 ∧ pending fb' = pending fb ++ data
  else r = -1 ∧ pending fb' = pending fb.
Proof.
  intros Hfb. destruct (compact_spec fb Hfb) as (Hok & Hpos & Hp & Hlen).
  pose proof (zlen_nonneg data). unfold oc_framebuf_push. set (c := compact fb) in *.
  pose proof Hok as (H1 & H2 & H3 & H4). assert (Hcap : fb_cap c = fb_cap fb).
  { unfold c, compact. by destruct (fb_pos fb =? 0). }
  unfold OC_MAX_FRAME_SIZE, OC_READ_CHUNK in H3. rewrite u64_id by ilia. rewrite <- Hcap.
  destruct (Z.ltb_spec (fb_cap c - fb_len c) (zlen data)), (Z.leb_spec (zlen (pending fb) + zlen data) (fb_cap c));
    try lia; [done|]. split; [|split; [done|]].
  - unfold fb_ok, OC_MAX_FRAME_SIZE, OC_READ_CHUNK; simpl. split_and!; rewrite ?zlen_splice; lia.
  - rewrite Hpos, pending_0, ztake_splice by lia. f_equal. rewrite <- Hp. unfold pending.
    by rewrite Hpos, Z.sub_0_r, zdrop_0.
Qed.

Lemma of_be32_ztake n l : 4 <= n → of_be32 (ztake n l) = of_be32 l.
Proof.
  intros Hn. unfold ztake.
  replace (Z.to_nat n) with (S (S (S (S (Z.to_nat (n - 4)))))) by lia.
  by destruct l as [|a [|b [|c [|d l]]]].
Qed.
Lemma of_be32_app a b : 4 <= zlen a → of_be32 (a ++ b) = of_be32 a.
Proof.
  intros Ha. rewrite <- (of_be32_ztake (zlen a) (a ++ b)) by done. by rewrite ztake_app_eq.
Qed.
Lemma of_be32_range bs : is_bytes bs → 4 <= zlen bs → is_u32 (of_be32 bs).
Proof.
  intros Hb Hz. rewrite <- (of_be32_ztake 4 bs) by lia.
  apply be32_of_be32; [by rewrite zlen_ztake by lia|auto with bytes].
Qed.

(** The length field is read as the specification reads it. *)
Lemma stream_head_length bs : is_bytes bs → 8 <= zlen bs →
  u64 (of_be32 bs + 4) = of_be32 bs + 4 ∧
  (of_be32 bs <? OC_LENGTH_MIN) = (of_be32 bs + 4 <? OC_HEADER_SIZE).
Proof.
  intros Hb Hz. pose proof (of_be32_range bs Hb ltac:(lia)) as Hr. unfold is_u32 in Hr.
  split; [apply u64_id; ilia|]. unfold OC_LENGTH_MIN, OC_HEADER_SIZE.
  destruct (Z.ltb_spec (of_be32 bs) 4), (Z.ltb_spec (of_be32 bs + 4) 8); lia.
Qed.

Lemma next_spec fb : fb_ok fb → is_bytes (pending fb) →
  match stream_head (pending fb) with
  | HeadFrame total => ∃ fb',
      oc_framebuf_next fb = (NextFrame (ztake total (pending fb)), fb') ∧
      fb_ok fb' ∧ pending fb' = zdrop total (pending fb)
  | HeadMore => oc_framebuf_next fb = (NextMore, fb)
  | HeadBad e => oc_framebuf_next fb = (NextError e, fb)
  end.
Proof.
  intros Hfb Hb. unfold stream_head, oc_framebuf_next. rewrite (fb_avail fb Hfb).
  destruct (Z.ltb_spec (zlen (pending fb)) OC_HEADER_SIZE) as [|H8]; [done|].
  unfold OC_HEADER_SIZE in H8.
  destruct (stream_head_length (pending fb) Hb H8) as [Eu El].
  change (Z.lor _ _) with (of_be32 (zdrop (fb_pos fb) (fb_buf fb))).
  pose proof (zlen_pending fb Hfb) as Hz.
  rewrite <- (of_be32_ztake (fb_len fb - fb_pos fb) (zdrop (fb_pos fb) (fb_buf fb))) by lia.
  fold (pending fb). rewrite El, Eu.
  destruct (Z.ltb_spec (of_be32 (pending fb) + 4) OC_HEADER_SIZE) as [|Ht]; [done|].
  destruct (OC_MAX_FRAME_SIZE <? of_be32 (pending fb) + 4); [done|].
  destruct (Z.ltb_spec (zlen (pending fb)) (of_be32 (pending fb) + 4)) as [|Hle]; [done|].
  set (total := of_be32 (pending fb) + 4) in *. unfold OC_HEADER_SIZE in Ht.
  pose proof Hfb as (H1 & H2 & H3 & H4).
  assert (Hfr : ztake total (zdrop (fb_pos fb) (fb_buf fb)) = ztake total (pending fb))
    by (unfold pending; by rewrite ztake_ztake_le by lia).
  rewrite Hfr. eexists. split; [reflexivity|]. split; [unfold fb_ok; simpl; split_and!; lia|].
  unfold pending. simpl. rewrite zdrop_ztake, zdrop_zdrop by lia.
  f_equal; [lia|f_equal; lia].
Qed.

(** Draining the buffer is cutting its pending bytes. *)
Lemma drain_spec n : ∀ fb, fb_ok fb → is_bytes (pending fb) →
  let '(fs, e, fb') := drain n fb in
  fb_ok fb' ∧ deframe_fuel n (pending fb) = (fs, e, pending fb').
Proof.
  induction n as [|n IH]; intros fb Hfb Hb; [done|]. simpl.
  pose proof (next_spec fb Hfb Hb) as Hn. destruct (stream_head (pending fb)) as [total| |e].
  - destruct Hn as (fb' & -> & Hok & Hp). specialize (IH fb' Hok). rewrite Hp in IH.
    specialize (IH ltac:(auto with bytes)). destruct (drain n fb') as [[fs e] fb''].
    destruct IH as [? ->]. done.
  - by rewrite Hn.
  - by rewrite Hn.
Qed.

(** ** Cutting a stream *)

Lemma stream_head_frame bs total : stream_head bs = HeadFrame total →
  8 <= total <= zlen bs ∧ total <= OC_MAX_FRAME_SIZE ∧ total = of_be32 bs + 4.
Proof.
  unfold stream_head, OC_HEADER_SIZE. destruct (Z.ltb_spec (zlen bs) 8); [done|].
  destruct (Z.ltb_spec (of_be32 bs + 4) 8); [done|].
  destruct (Z.ltb_spec OC_MAX_FRAME_SIZE (of_be32 bs + 4)); [done|].
  destruct (Z.ltb_spec (zlen bs) (of_be32 bs + 4)); [done|]. intros [= <-]. lia.
Qed.

(** A drained buffer holds less than one frame. *)
Lemma stream_head_more bs : stream_head bs = HeadMore → zlen bs < OC_MAX_FRAME_SIZE.
Proof.
  unfold stream_head, OC_HEADER_SIZE, OC_MAX_FRAME_SIZE. destruct (Z.ltb_spec (zlen bs) 8); [lia|].
  destruct (Z.ltb_spec (of_be32 bs + 4) 8); [done|].
  destruct (Z.ltb_spec 66560 (of_be32 bs + 4)); [done|].
  destruct (Z.ltb_spec (zlen bs) (of_be32 bs + 4)); [lia|done].
Qed.

(** What is decided stays decided when bytes are appended. *)
Lemma stream_head_app a b : stream_head a ≠ HeadMore → stream_head (a ++ b) = stream_head a.
Proof.
  unfold stream_head, OC_HEADER_SIZE. pose proof (zlen_nonneg b). rewrite zlen_app.
  destruct (Z.ltb_spec (zlen a) 8); [done|].
  destruct (Z.ltb_spec (zlen a + zlen b) 8); [lia|]. rewrite of_be32_app by lia.
  destruct (of_be32 a + 4 <? 8); [done|]. destruct (OC_MAX_FRAME_SIZE <? of_be32 a + 4); [done|].
  destruct (Z.ltb_spec (zlen a) (of_be32 a + 4)); [done|].
  destruct (Z.ltb_spec (zlen a + zlen b) (of_be32 a + 4)); [lia|done].
Qed.

Lemma deframe_fuel_enough n : ∀ m bs, (length bs < n)%nat → (length bs < m)%nat →
  deframe_fuel n bs = deframe_fuel m bs.
Proof.
  induction n as [|n IH]; intros m bs Hn Hm; [lia|]. destruct m as [|m]; [lia|]. simpl.
  destruct (stream_head bs) as [total| |e] eqn:E; [|done..].
  apply stream_head_frame in E as (Ht & _ & _). unfold zlen in Ht.
  rewrite (IH m (zdrop total bs)); [done|unfold zdrop; rewrite length_drop; lia..].
Qed.

Lemma deframe_step bs :
  deframe bs = match stream_head bs with
    | HeadFrame total => let '(fs, e, r) := deframe (zdrop total bs) in (ztake total bs :: fs, e, r)
    | HeadMore => ([], ReadMore, bs)
    | HeadBad e => ([], ReadBad e, bs)
    end.
Proof.
  unfold deframe at 1. simpl. destruct (stream_head bs) as [total| |e] eqn:E; [|done..].
  apply stream_head_frame in E as (Ht & _ & _). unfold zlen in Ht. unfold deframe.
  rewrite (deframe_fuel_enough (length bs) (S (length (zdrop total bs)))); [done|..];
    unfold zdrop; rewrite length_drop; lia.
Qed.

Lemma deframe_app (a : list Z) : ∀ b,
  deframe (a ++ b) =
  match deframe a with
  | (fs, ReadMore, r) => let '(fs', e, r') := deframe (r ++ b) in (fs ++ fs', e, r')
  | (fs, e, r) => (fs, e, r ++ b)
  end.
Proof.
  remember (length a) as n eqn:En. revert a En.
  induction (lt_wf n) as [n _ IH]. intros a -> b.
  rewrite (deframe_step a). destruct (stream_head a) as [total| |e] eqn:E.
  - rewrite deframe_step, stream_head_app, E by congruence.
    apply stream_head_frame in E as (Ht & _ & _).
    rewrite ztake_app_le, zdrop_app_lt by lia.
    rewrite (IH (length (zdrop total a))) with (b := b);
      [|unfold zdrop, zlen in *; rewrite length_drop; lia|done].
    destruct (deframe (zdrop total a)) as [[fs []] r]; simpl; [|done..].
    by destruct (deframe (r ++ b)) as [[fs' e'] r'].
  - by destruct (deframe (a ++ b)) as [[fs' e'] r'].
  - rewrite deframe_step, stream_head_app, E by congruence. done.
Qed.

Lemma deframe_rest bs fs r : deframe bs = (fs, ReadMore, r) → stream_head r = HeadMore.
Proof.
  remember (length bs) as n eqn:En. revert bs fs En.
  induction (lt_wf n) as [n _ IH]. intros bs fs -> E. rewrite deframe_step in E.
  destruct (stream_head bs) as [total| |e] eqn:Eh; [|by injection E as <- <-|done].
  apply stream_head_frame in Eh as (Ht & _ & _).
  destruct (deframe (zdrop total bs)) as [[fs' e'] r'] eqn:Ed. injection E as <- -> ->.
  eapply (IH (length (zdrop total bs))); [unfold zdrop, zlen in *; rewrite length_drop; lia|done|done].
Qed.

Lemma deframe_concat bs fs e r : deframe bs = (fs, e, r) → bs = concat fs ++ r.
Proof.
  remember (length bs) as n eqn:En. revert bs fs En.
  induction (lt_wf n) as [n _ IH]. intros bs fs -> E. rewrite deframe_step in E.
  destruct (stream_head bs) as [total| |e'] eqn:Eh; [|by injection E as <- <- <-..].
  apply stream_head_frame in Eh as (Ht & _ & _).
  destruct (deframe (zdrop total bs)) as [[fs' e''] r'] eqn:Ed. injection E as <- -> ->.
  simpl. rewrite <- app_assoc.
  rewrite <- (IH (length (zdrop total bs))) with (bs := zdrop total bs);
    [by rewrite ztake_zdrop|unfold zdrop, zlen in *; rewrite length_drop; lia|done|done].
Qed.

Lemma deframe_bytes bs fs e r : is_bytes bs → deframe bs = (fs, e, r) → is_bytes r.
Proof. intros Hb E. rewrite (deframe_concat _ _ _ _ E), is_bytes_app in Hb. tauto. Qed.

Lemma deframe_more bs : stream_head bs = HeadMore → deframe bs = ([], ReadMore, bs).
Proof. intros E. by rewrite deframe_step, E. Qed.

Lemma deframe_never_overflows bs fs r : deframe bs ≠ (fs, ReadOverflow, r).
Proof.
  remember (length bs) as n eqn:En. revert bs fs En.
  induction (lt_wf n) as [n _ IH]. intros bs fs -> E. rewrite deframe_step in E.
  destruct (stream_head bs) as [total| |e] eqn:Eh; [|done..].
  apply stream_head_frame in Eh as (Ht & _ & _).
  destruct (deframe (zdrop total bs)) as [[fs' e'] r'] eqn:Ed. injection E as <- -> ->.
  eapply (IH (length (zdrop total bs))); [unfold zdrop, zlen in *; rewrite length_drop; lia|done|done].
Qed.

(** ** The read loop *)

Lemma receive_spec chunk fb :
  fb_ok fb → is_bytes (pending fb ++ chunk) → zlen (pending fb) + zlen chunk <= fb_cap fb →
  let '(fs, e, fb') := receive chunk fb in
  fb_ok fb' ∧ deframe (pending fb ++ chunk) = (fs, e, pending fb').
Proof.
  intros Hfb Hb Hz. unfold receive. pose proof (push_spec chunk fb Hfb) as Hp.
  destruct (oc_framebuf_push chunk fb) as [r fb1]. destruct Hp as [Hok Hp].
  destruct (Z.leb_spec (zlen (pending fb) + zlen chunk) (fb_cap fb)); [|lia].
  destruct Hp as [-> Hp]. rewrite <- Hp in Hb |- *.
  pose proof (drain_spec (drain_fuel fb1) fb1 Hok Hb) as Hd.
  destruct (drain (drain_fuel fb1) fb1) as [[fs e] fb2]. destruct Hd as [? Hd].
  split; [done|]. rewrite <- Hd. unfold deframe, drain_fuel.
  pose proof (zlen_pending fb1 Hok) as Hl. unfold zlen in Hl. f_equal. lia.
Qed.

Definition chunk_ok (c : list Z) : Prop := is_bytes c ∧ zlen c <= OC_READ_CHUNK.

Lemma receive_all_spec chunks : ∀ fb,
  fb_ok fb → is_bytes (pending fb) → stream_head (pending fb) = HeadMore → Forall chunk_ok chunks →
  let '(fs, e, fb') := receive_all chunks fb in
  let '(fs', e', r) := deframe (pending fb ++ concat chunks) in
  fs = fs' ∧ e = e' ∧ (e = ReadMore → pending fb' = r).
Proof.
  induction chunks as [|c chunks IH]; intros fb Hfb Hb Hm Hc; simpl.
  { rewrite app_nil_r, deframe_more by done. done. }
  apply Forall_cons_iff in Hc as [[Hcb Hcz] Hc].
  pose proof (stream_head_more _ Hm) as Hz. pose proof Hfb as (_ & _ & Hcap & _).
  pose proof (receive_spec c fb Hfb ltac:(by apply is_bytes_app) ltac:(lia)) as Hr.
  destruct (receive c fb) as [[fs e] fb1]. destruct Hr as [Hok Hd].
  rewrite app_assoc, deframe_app, Hd.
  destruct e; [|done..].
  pose proof (deframe_rest _ _ _ Hd) as Hm1.
  assert (Hb1 : is_bytes (pending fb1)).
  { apply (deframe_bytes (pending fb ++ c) fs ReadMore); [by apply is_bytes_app|done]. }
  specialize (IH fb1 Hok Hb1 Hm1 Hc). destruct (receive_all chunks fb1) as [[fs1 e1] fb2].
  destruct (deframe (pending fb1 ++ concat chunks)) as [[fs' e'] r].
  destruct IH as (-> & -> & IH). done.
Qed.

Lemma init_ok mem :
  zlen mem = OC_MAX_FRAME_SIZE + OC_READ_CHUNK →
  let fb := snd (oc_framebuf_init (Some mem)) in fb_ok fb ∧ pending fb = [].
Proof.
  intros Hm. simpl. unfold fb_ok, OC_MAX_FRAME_SIZE, OC_READ_CHUNK in *. simpl.
  split; [split_and!; lia|]. done.
Qed.

(** C16: the reassembler does not depend on how the network cuts the stream.
    On a fresh buffer, reads of at most [OC_READ_CHUNK] bytes yield exactly the
    frames [deframe] cuts from the whole stream, in order, and end as it ends:
    waiting with the same bytes left over, or dropping the connection with the
    same error; the buffer never overflows. *)
Theorem receive_all_chunking mem chunks :
  zlen mem = OC_MAX_FRAME_SIZE + OC_READ_CHUNK → Forall chunk_ok chunks →
  let '(fs, e, fb) := receive_all chunks (snd (oc_framebuf_init (Some mem))) in
  let '(fs', e', r) := deframe (concat chunks) in
  fs = fs' ∧ e = e' ∧ e ≠ ReadOverflow ∧ (e = ReadMore → pending fb = r).
Proof.
  intros Hm Hc. destruct (init_ok mem Hm) as [Hok Hp].
  pose proof (receive_all_spec chunks (snd (oc_framebuf_init (Some mem))) Hok) as H.
  rewrite Hp in H. specialize (H ltac:(constructor) ltac:(done) Hc). simpl app in H.
  destruct (receive_all chunks _) as [[fs e] fb].
  destruct (deframe (concat chunks)) as [[fs' e'] r] eqn:Ed. destruct H as (-> & -> & H).
  split_and!; try done. intros ->. by apply deframe_never_overflows in Ed.
Qed.

(** A block as [malloc] may return it. *)
Definition blank : list Z := replicate (Z.to_nat (OC_MAX_FRAME_SIZE + OC_READ_CHUNK)) 0.
Lemma zlen_blank : zlen blank = OC_MAX_FRAME_SIZE + OC_READ_CHUNK.
Proof.
  unfold blank, zlen. rewrite length_replicate, Z2Nat.id; [done|].
  unfold OC_MAX_FRAME_SIZE, OC_READ_CHUNK. lia.
Qed.
Opaque blank.

Lemma receive_all_chunking_witness :
  let '(fs, e, fb) := receive_all [[0; 0; 0]; [5; 0; 33; 0; 1; 9; 0]]
    (snd (oc_framebuf_init (Some blank))) in
  fs = [[0; 0; 0; 5; 0; 33; 0; 1; 9]] ∧ e = ReadMore ∧ pending fb = [0].
Proof.
  assert (Hc : Forall chunk_ok [[0; 0; 0]; [5; 0; 33; 0; 1; 9; 0]])
    by (repeat constructor; unfold OC_READ_CHUNK; vm_compute; done).
  pose proof (receive_all_chunking blank _ zlen_blank Hc) as H.
  destruct (receive_all _ _) as [[fs e] fb].
  change (deframe (concat [[0; 0; 0]; [5; 0; 33; 0; 1; 9; 0]]))
    with ([[0; 0; 0; 5; 0; 33; 0; 1; 9]], ReadMore, [0]) in H.
  cbv beta iota in H. destruct H as (-> & -> & _ & H). auto.
Defined.

(** A caller that drains after each push never overflows.  Once the
    reassembler asks for more bytes it holds less than one frame, and a push of
    at most [OC_READ_CHUNK] bytes succeeds and appends them. *)
Theorem drained_push_fits fb data :
  fb_ok fb → is_bytes (pending fb) → fst (oc_framebuf_next fb) = NextMore →
  zlen data <= OC_READ_CHUNK →
  zlen (pending fb) < OC_MAX_FRAME_SIZE ∧
  fst (oc_framebuf_push data fb) = 0 ∧
  pending (snd (oc_framebuf_push data fb)) = pending fb ++ data.
Proof.
  intros Hfb Hb Hn Hz. pose proof (next_spec fb Hfb Hb) as Hs.
  destruct (stream_head (pending fb)) as [total| |e] eqn:E.
  - destruct Hs as (fb' & Hs & _). by rewrite Hs in Hn.
  - pose proof (stream_head_more _ E) as Hm. split; [done|].
    pose proof (push_spec data fb Hfb) as Hp. destruct (oc_framebuf_push data fb) as [r fb'].
    destruct Hfb as (_ & _ & Hcap & _). destruct Hp as [_ Hp].
    destruct (Z.leb_spec (zlen (pending fb) + zlen data) (fb_cap fb)); [done|lia].
  - by rewrite Hs in Hn.
Qed.

Lemma drained_push_fits_witness :
  let fb := snd (oc_framebuf_init (Some blank)) in
  fst (oc_framebuf_push [1; 2; 3] fb) = 0 ∧ pending (snd (oc_framebuf_push [1; 2; 3] fb)) = [1; 2; 3].
Proof.
  destruct (init_ok blank zlen_blank) as [Hok Hp]. intros fb.
  refine (proj2 (drained_push_fits fb [1; 2; 3] Hok _ eq_refl _)); [|done].
  unfold fb. rewrite Hp. constructor.
Defined.

(** ** From the sender's frames to the receiver's *)

(** A frame as an encoder leaves it in its buffer. *)
Definition is_frame (f : list Z) : Prop :=
  ∃ version type payload,
    f = frame_bytes version type payload ∧ is_u16 version ∧ is_u16 type ∧
    8 + zlen payload <= OC_MAX_FRAME_SIZE.

Lemma stream_head_frame_bytes version type payload rest :
  8 + zlen payload <= OC_MAX_FRAME_SIZE →
  stream_head (frame_bytes version type payload ++ rest) = HeadFrame (8 + zlen payload).
Proof.
  intros Hz. pose proof (zlen_nonneg payload). pose proof (zlen_nonneg rest).
  unfold stream_head. rewrite zlen_app, zlen_frame_bytes, of_be32_app by (rewrite zlen_frame_bytes; lia).
  change (of_be32 (frame_bytes version type payload)) with (of_be32 (be32 (4 + zlen payload))).
  unfold OC_MAX_FRAME_SIZE, OC_HEADER_SIZE in *. rewrite of_be32_be32 by ilia.
  destruct (Z.ltb_spec (8 + zlen payload + zlen rest) 8); [lia|].
  destruct (Z.ltb_spec (4 + zlen payload + 4) 8); [lia|].
  destruct (Z.ltb_spec 66560 (4 + zlen payload + 4)); [lia|].
  destruct (Z.ltb_spec (8 + zlen payload + zlen rest) (4 + zlen payload + 4)); [lia|].
  f_equal. lia.
Qed.

Lemma deframe_frames fs rest : Forall is_frame fs →
  deframe (concat fs ++ rest) = let '(fs', e, r) := deframe rest in (fs ++ fs', e, r).
Proof.
  induction 1 as [|f fs (version & type & payload & -> & _ & _ & Hz) _ IH]; cbn [concat app].
  { by destruct (deframe rest) as [[? ?] ?]. }
  rewrite <- app_assoc, deframe_step, stream_head_frame_bytes by done.
  rewrite zdrop_app_eq, ztake_app_eq by (rewrite zlen_frame_bytes; lia). rewrite IH.
  by destruct (deframe rest) as [[? ?] ?].
Qed.

(** C3: what one side sends the other receives.  When a peer writes any
    sequence of frames and the network delivers their bytes in any chunks of at
    most [OC_READ_CHUNK], the receiver yields exactly those frames, in order,
    keeps the connection and is left with nothing pending. *)
Theorem stream_delivery mem frames chunks :
  zlen mem = OC_MAX_FRAME_SIZE + OC_READ_CHUNK → Forall chunk_ok chunks →
  Forall is_frame frames → concat chunks = concat frames →
  let '(fs, e, fb) := receive_all chunks (snd (oc_framebuf_init (Some mem))) in
  fs = frames ∧ e = ReadMore ∧ pending fb = [].
Proof.
  intros Hm Hc Hf E. destruct (init_ok mem Hm) as [Hok Hp].
  pose proof (receive_all_spec chunks (snd (oc_framebuf_init (Some mem))) Hok) as H.
  rewrite Hp in H. specialize (H ltac:(constructor) ltac:(done) Hc).
  change ([] ++ concat chunks) with (concat chunks) in H.
  rewrite E, <- (app_nil_r (concat frames)), deframe_frames in H by done.
  change (deframe []) with (@nil (list Z), ReadMore, @nil Z) in H. cbv iota in H.
  destruct (receive_all chunks _) as [[fs e] fb]. rewrite app_nil_r in H.
  destruct H as (-> & -> & H). auto.
Qed.

Lemma stream_delivery_witness :
  let '(fs, e, fb) := receive_all [[0; 0; 0; 4; 0; 33]; [0; 5; 0; 0; 0; 5; 0; 33; 0; 1; 9]]
    (snd (oc_framebuf_init (Some blank))) in
  fs = [[0; 0; 0; 4; 0; 33; 0; 5]; [0; 0; 0; 5; 0; 33; 0; 1; 9]] ∧ e = ReadMore ∧ pending fb = [].
Proof.
  apply (stream_delivery blank _ _ zlen_blank).
  - repeat constructor; unfold OC_READ_CHUNK; vm_compute; done.
  - repeat apply List.Forall_cons; [exists 33, 5, []|exists 33, 1, [9]|apply List.Forall_nil];
      by split_and!.
  - reflexivity.
Defined.

(** Every frame the reassembler yields is one [oc_parse_frame] accepts
    whole.  Its header carries the frame's own length and nothing follows the
    payload, so the dispatcher never sees a truncated or a padded frame. *)
Theorem yielded_frames_parse fb f fb' :
  fb_ok fb → is_bytes (pending fb) → oc_framebuf_next fb = (NextFrame f, fb') →
  pending fb = f ++ pending fb' ∧
  ∃ version type payload,
    f = frame_bytes version type payload ∧
    oc_parse_frame f = inr (mk_header (zlen f - 4) version type, oc_rbuf_init payload (zlen payload)).
Proof.
  intros Hfb Hb En. pose proof (next_spec fb Hfb Hb) as Hn.
  destruct (stream_head (pending fb)) as [total| |e] eqn:E; [|congruence..].
  destruct Hn as (fb1 & Hn & _ & Hp). rewrite Hn in En. injection En as <- <-.
  split; [by rewrite Hp, ztake_zdrop|].
  apply stream_head_frame in E as (Ht & Hmax & Etot).
  pose proof (zlen_ztake total (pending fb) ltac:(lia)) as Hzf.
  set (f := ztake total (pending fb)) in *.
  assert (Hbf : is_bytes f) by (apply is_bytes_ztake; done).
  assert (Hlf : of_be32 f = total - 4) by (unfold f; rewrite of_be32_ztake; lia).
  destruct (oc_parse_frame f) as [e|[hdr p]] eqn:Ep.
  - exfalso. revert Ep. unfold oc_parse_frame.
    change (Z.lor _ (byte_at f 3)) with (of_be32 f). rewrite Hlf, Hzf.
    unfold OC_HEADER_SIZE, OC_LENGTH_MIN, OC_MAX_FRAME_SIZE in *. rewrite u64_id by ilia.
    destruct (Z.ltb_spec total 8); [lia|]. destruct (Z.ltb_spec (total - 4) 4); [lia|].
    destruct (Z.ltb_spec 66560 (total - 4 + 4)); [lia|].
    by destruct (Z.ltb_spec total (total - 4 + 4)); [lia|].
  - destruct (parse_frame_inv f hdr p Hbf Ep) as (payload & tail & Ef & -> & Hl & Hz & Hv & Hty).
    assert (Hl' : h_length hdr = total - 4).
    { revert Ep. unfold oc_parse_frame. change (Z.lor _ (byte_at f 3)) with (of_be32 f). rewrite Hlf.
      repeat case_match; intros [=]; by subst. }
    assert (tail = []) as ->.
    { apply zlen_0. apply (f_equal zlen) in Ef. rewrite zlen_app, zlen_frame_bytes in Ef. lia. }
    rewrite app_nil_r in Ef. exists (h_version hdr), (h_msg_type hdr), payload. split; [done|].
    f_equal. rewrite Hzf, <- Hl'. by destruct hdr.
Qed.

Lemma yielded_frames_parse_witness :
  let fb := snd (oc_framebuf_push [0; 0; 0; 4; 0; 33; 0; 5; 1] (snd (oc_framebuf_init (Some blank)))) in
  pending fb = [0; 0; 0; 4; 0; 33; 0; 5] ++ pending (snd (oc_framebuf_next fb)) ∧
  fst (oc_framebuf_next fb) = NextFrame [0; 0; 0; 4; 0; 33; 0; 5].
Proof.
  intros fb. assert (En : fst (oc_framebuf_next fb) = NextFrame [0; 0; 0; 4; 0; 33; 0; 5]) by reflexivity.
  destruct (init_ok blank zlen_blank) as [Hok Hp].
  pose proof (push_spec [0; 0; 0; 4; 0; 33; 0; 5; 1] _ Hok) as Hpush.
  destruct (oc_framebuf_push _ _) as [r fb1] eqn:Ep. simpl in fb. destruct Hpush as [Hok1 Hpush].
  split; [|done].
  refine (proj1 (yielded_frames_parse fb _ (snd (oc_framebuf_next fb)) Hok1 _ _)).
  - rewrite Hp in Hpush. unfold fb. destruct Hpush as [_ ->]. repeat constructor; lia.
  - by rewrite <- En, <- surjective_pairing.
Defined.
