(* ===== verification/OpenAddr.v ===== *)
(** * Open addressing with linear probing and backward-shift deletion

    The table [daemon/idmap.c] and [daemon/srccount.c] share: two parallel
    arrays of [cap] slots, an empty key, a home slot per key.  [probe] is the
    search loop of both files, [backshift] the deletion loop.  Both loops have
    no bound in the source; here they run on [fuel], and [probe_total] and
    [backshift_total] prove that [cap] iterations are enough.

    [repr] relates a table to the finite map it stands for; it is the
    invariant of both components: every key is reachable from its home slot
    without crossing an empty one. *)
From stdpp Require Import base tactics list numbers gmap.
From S2P Require Import Prelude.
Local Open Scope Z_scope.

(** ** Arrays indexed by machine integers *)

Section Arrays.
Context {A : Type} (d : A).

Definition at_ (l : list A) (i : Z) : A := nth (Z.to_nat i) l d.
Definition set_ (i : Z) (x : A) (l : list A) : list A := <[Z.to_nat i := x]> l.

Lemma zlen_set i x l : zlen (set_ i x l) = zlen l.
Proof. unfold zlen, set_. by rewrite length_insert. Qed.
Lemma at_set i j x l : 0 <= i < zlen l → 0 <= j →
  at_ (set_ i x l) j = if i =? j then x else at_ l j.
Proof.
  intros Hi Hj. unfold at_, set_, zlen in *. rewrite !nth_lookup.
  destruct (Z.eqb_spec i j) as [->|Hne].
  - rewrite list_lookup_insert_eq by lia. done.
  - rewrite list_lookup_insert_ne by lia. done.
Qed.
End Arrays.

(** ** Circular positions *)

Section Circle.
Context (cap : Z) (Hcap : 0 < cap).

Definition slot_ok (i : Z) : Prop := 0 <= i < cap.
(** Steps from [a] forward to [b]. *)
Definition dist (a b : Z) : Z := if a <=? b then b - a else b - a + cap.
Definition succ (i : Z) : Z := if i + 1 =? cap then 0 else i + 1.
(** The slot [d] steps after [a]. *)
Definition walk (a d : Z) : Z := if a + d <? cap then a + d else a + d - cap.
End Circle.

Ltac circle :=
  unfold slot_ok, dist, succ, walk in *;
  repeat match goal with
    | |- context [if ?a <=? ?b then _ else _] => destruct (Z.leb_spec a b)
    | H : context [if ?a <=? ?b then _ else _] |- _ => destruct (Z.leb_spec a b)
    | |- context [if ?a =? ?b then _ else _] => destruct (Z.eqb_spec a b)
    | H : context [if ?a =? ?b then _ else _] |- _ => destruct (Z.eqb_spec a b)
    | |- context [if ?a <? ?b then _ else _] => destruct (Z.ltb_spec a b)
    | H : context [if ?a <? ?b then _ else _] |- _ => destruct (Z.ltb_spec a b)
    end; try lia.

(** [(i + 1) & (cap - 1)] for a power of two. *)
Definition power_of_two (cap : Z) : Prop := ∃ k, 0 < k ∧ cap = 2 ^ k.
Lemma land_mask cap x : power_of_two cap → Z.land x (cap - 1) = x mod cap.
Proof.
  intros (k & Hk & ->). rewrite <- Z.land_ones by lia. by rewrite Z.ones_equiv.
Qed.
Lemma power_of_two_pos cap : power_of_two cap → 2 <= cap.
Proof.
  intros (k & Hk & ->). replace k with (1 + (k - 1)) by lia. rewrite Z.pow_add_r by lia.
  pose proof (Z.pow_pos_nonneg 2 (k - 1)). lia.
Qed.
(** The test of [init]: [cap >= 2 && !(cap & (cap - 1))]. *)
Lemma power_of_two_test cap : 2 <= cap → Z.land cap (cap - 1) = 0 → power_of_two cap.
Proof.
  intros H2 Hl. set (k := Z.log2 cap).
  pose proof (Z.log2_spec cap ltac:(lia)) as [Hk1 Hk2]. fold k in Hk1, Hk2.
  assert (Hk : 0 < k) by (apply Z.log2_pos; lia). exists k. split; [done|].
  destruct (Z.eq_dec cap (2 ^ k)) as [|Hne]; [done|]. exfalso.
  assert (Hk' : Z.log2 (cap - 1) = k) by (apply Z.log2_unique; lia).
  assert (Hb : Z.testbit (Z.land cap (cap - 1)) k = true).
  { rewrite Z.land_spec. apply andb_true_intro. split; [by apply Z.bit_log2; lia|].
    rewrite <- Hk'. apply Z.bit_log2. lia. }
  rewrite Hl, Z.bits_0 in Hb. done.
Qed.

Section Table.
Context {K V : Type} `{EqDecision K} (k0 : K) (v0 : V).

(** ** The loops *)

Definition next (cap i : Z) : Z := Z.land (i + 1) (cap - 1).

(** From slot [i]: the slot holding [key], or the empty slot that ends its
    cluster. *)
Fixpoint probe (fuel : nat) (cap : Z) (keys : list K) (key : K) (i : Z) : option Z :=
  match fuel with
  | O => None
  | S fuel =>
      if decide (at_ k0 keys i = key) then Some i
      else if decide (at_ k0 keys i = k0) then Some i
      else probe fuel cap keys key (next cap i)
  end.

(** [home] lies strictly after the hole and no further than [j]. *)
Definition between (hole home j : Z) : bool :=
  if hole <=? j then (hole <? home) && (home <=? j) else (hole <? home) || (home <=? j).

Fixpoint backshift (fuel : nat) (cap : Z) (home : K → Z) (keys : list K) (vals : list V) (hole j : Z)
    : option (list K * list V * Z) :=
  match fuel with
  | O => None
  | S fuel =>
      if decide (at_ k0 keys j = k0) then Some (keys, vals, hole)
      else if between hole (home (at_ k0 keys j)) j
      then backshift fuel cap home keys vals hole (next cap j)
      else backshift fuel cap home (set_ hole (at_ k0 keys j) keys) (set_ hole (at_ v0 vals j) vals)
             j (next cap j)
  end.
End Table.

Lemma next_succ cap i : power_of_two cap → slot_ok cap i → next cap i = succ cap i.
Proof.
  intros Hp Hi. pose proof (power_of_two_pos cap Hp). unfold next. rewrite land_mask by done.
  unfold slot_ok, succ in *. destruct (Z.eqb_spec (i + 1) cap) as [->|].
  - by apply Z.mod_same; lia.
  - by apply Z.mod_small; lia.
Qed.

Lemma between_dist cap hole home j :
  slot_ok cap hole → slot_ok cap home → slot_ok cap j → hole ≠ j →
  between hole home j = true ↔ 0 < dist cap hole home <= dist cap hole j.
Proof.
  intros. unfold between. circle;
    rewrite ?andb_true_iff, ?orb_true_iff, ?Z.ltb_lt, ?Z.leb_le; lia.
Qed.

(** ** Refinement to a finite map *)

Section Refine.
Context {K V : Type} `{Countable K} (k0 : K) (v0 : V).
Context (cap : Z) (Hp : power_of_two cap).
Context (home : K → Z) (Hhome : ∀ k, slot_ok cap (home k)).

Abbreviation key := (at_ k0).
Abbreviation val := (at_ v0).
Abbreviation ok := (slot_ok cap).

(** The table of [keys] and [vals] stands for the map [M]. *)
Record repr (keys : list K) (vals : list V) (M : gmap K V) : Prop := {
  repr_keys : zlen keys = cap;
  repr_vals : zlen vals = cap;
  repr_map k v : M !! k = Some v ↔ k ≠ k0 ∧ ∃ i, ok i ∧ key keys i = k ∧ val vals i = v;
  repr_inj i j : ok i → ok j → key keys i ≠ k0 → key keys i = key keys j → i = j;
  repr_reach i d : ok i → key keys i ≠ k0 → 0 <= d <= dist cap (home (key keys i)) i →
    key keys (walk cap (home (key keys i)) d) ≠ k0 }.

(** *** A table that is not full has an empty slot *)

Lemma all_full_size keys vals M :
  repr keys vals M → (∀ i, ok i → key keys i ≠ k0) → (length keys <= size M)%nat.
Proof using Type.
  intros R Hfull. rewrite <- size_dom.
  assert (Hnd : NoDup keys).
  { apply NoDup_alt. intros i j x Hi Hj.
    assert (Hlt : ∀ i, keys !! i = Some x → ok (Z.of_nat i) ∧ key keys (Z.of_nat i) = x).
    { intros n Hn. pose proof (lookup_lt_Some _ _ _ Hn). pose proof (repr_keys _ _ _ R) as Hk.
      unfold zlen in Hk. split; [unfold slot_ok; lia|].
      unfold at_. rewrite Nat2Z.id, nth_lookup, Hn. done. }
    destruct (Hlt i Hi) as [Hi1 Hi2], (Hlt j Hj) as [Hj1 Hj2].
    assert (Z.of_nat i = Z.of_nat j); [|lia].
    apply (repr_inj _ _ _ R); [done..|by apply Hfull|congruence]. }
  rewrite <- (size_list_to_set (C := gset K)) by done. apply subseteq_size.
  intros x Hx. apply elem_of_list_to_set in Hx.
  apply list_elem_of_lookup in Hx as [n Hn].
  pose proof (lookup_lt_Some _ _ _ Hn). pose proof (repr_keys _ _ _ R) as Hk. unfold zlen in Hk.
  assert (Hok : ok (Z.of_nat n)) by (unfold slot_ok; lia).
  assert (Hkx : key keys (Z.of_nat n) = x) by (unfold at_; rewrite Nat2Z.id, nth_lookup, Hn; done).
  apply elem_of_dom. exists (val vals (Z.of_nat n)). apply (repr_map _ _ _ R).
  split; [rewrite <- Hkx; by apply Hfull|]. by exists (Z.of_nat n).
Qed.

Lemma has_empty keys vals M :
  repr keys vals M → Z.of_nat (size M) < cap → ∃ z, ok z ∧ key keys z = k0.
Proof using Type.
  intros R Hs. destruct (decide (k0 ∈ keys)) as [E|E].
  - apply list_elem_of_lookup in E as (n & Hn).
    pose proof (lookup_lt_Some _ _ _ Hn). pose proof (repr_keys _ _ _ R) as Hk. unfold zlen in Hk.
    exists (Z.of_nat n). split; [unfold slot_ok; lia|]. unfold at_. by rewrite Nat2Z.id, nth_lookup, Hn.
  - exfalso. pose proof (repr_keys _ _ _ R) as Hk. unfold zlen in Hk.
    assert (length keys <= size M)%nat; [|lia]. apply (all_full_size keys vals M R).
    intros i Hi Hz. apply E. apply list_elem_of_lookup. exists (Z.to_nat i).
    unfold slot_ok in Hi. destruct (lookup_lt_is_Some_2 keys (Z.to_nat i)) as [x Hx]; [lia|].
    unfold at_ in Hz. rewrite nth_lookup, Hx in Hz. simpl in Hz. congruence.
Qed.

(** *** Searching *)

Lemma probe_run keys kk z : ok z → key keys z = k0 →
  ∀ fuel i, ok i → dist cap i z < Z.of_nat fuel →
  ∃ s, probe k0 fuel cap keys kk i = Some s ∧ ok s ∧
    (key keys s = kk ∨ key keys s = k0) ∧
    ∀ d, 0 <= d < dist cap i s → key keys (walk cap i d) ≠ k0 ∧ key keys (walk cap i d) ≠ kk.
Proof using Hp.
  intros Hz Hkz. induction fuel as [|fuel IH]; intros i Hi Hd; [exfalso; circle|].
  simpl. pose proof (power_of_two_pos cap Hp).
  destruct (decide (key keys i = kk)) as [|Hne].
  { exists i. split_and!; auto. intros d. circle. }
  destruct (decide (key keys i = k0)) as [|Hne0].
  { exists i. split_and!; auto. intros d. circle. }
  assert (Hiz : i ≠ z) by congruence.
  rewrite next_succ by done.
  destruct (IH (succ cap i)) as (s & Hs & Hok & Hks & Hpath); [circle..|].
  exists s. split_and!; [done..|]. intros d Hdd.
  assert (His : i ≠ s) by (intros ->; destruct Hks; congruence).
  destruct (Z.eq_dec d 0) as [->|Hd0].
  - replace (walk cap i 0) with i by circle. done.
  - replace (walk cap i d) with (walk cap (succ cap i) (d - 1)) by circle.
    apply Hpath. circle.
Qed.

(** [cap] steps suffice, and the search finds the key exactly when it is in
    the map. *)
Lemma probe_total keys vals M kk :
  repr keys vals M → kk ≠ k0 → Z.of_nat (size M) < cap →
  ∃ s, probe k0 (Z.to_nat cap) cap keys kk (home kk) = Some s ∧ ok s ∧
    match M !! kk with
    | Some v => key keys s = kk ∧ val vals s = v
    | None => key keys s = k0 ∧
        ∀ d, 0 <= d < dist cap (home kk) s → key keys (walk cap (home kk) d) ≠ k0
    end.
Proof using Hp Hhome.
  intros R Hkk Hs. destruct (has_empty keys vals M R Hs) as (z & Hz & Hkz).
  pose proof (power_of_two_pos cap Hp). pose proof (Hhome kk) as Hh.
  destruct (probe_run keys kk z Hz Hkz (Z.to_nat cap) (home kk) Hh) as (s & Hps & Hok & Hks & Hpath);
    [circle|].
  exists s. split; [done|]. split; [done|]. destruct (M !! kk) as [v|] eqn:E.
  - apply (repr_map _ _ _ R) in E as (_ & i & Hi & Hki & Hvi).
    enough (s = i) as -> by done.
    destruct Hks as [Hks|Hks]; [by apply (repr_inj _ _ _ R); [..|congruence|congruence]|].
    exfalso. destruct (Z.le_gt_cases (dist cap (home kk) s) (dist cap (home kk) i)) as [Hle|Hgt].
    + pose proof (repr_reach _ _ _ R i (dist cap (home kk) s) Hi ltac:(congruence)) as Hr.
      rewrite Hki in Hr. replace (walk cap (home kk) (dist cap (home kk) s)) with s in Hr by circle.
      apply Hr; [|done]. circle.
    + destruct (Hpath (dist cap (home kk) i)) as [_ Hne]; [circle|]. apply Hne.
      by replace (walk cap (home kk) (dist cap (home kk) i)) with i by circle.
  - destruct Hks as [Hks|Hks].
    + exfalso. assert (M !! kk = Some (val vals s)); [|congruence].
      apply (repr_map _ _ _ R). split; [done|]. by exists s.
    + split; [done|]. intros d Hd. by apply Hpath.
Qed.

(** *** Inserting *)

(** A new key goes into the empty slot its search ended in. *)
Lemma repr_insert_new keys vals M kk v s :
  repr keys vals M → kk ≠ k0 → M !! kk = None → ok s → key keys s = k0 →
  (∀ d, 0 <= d < dist cap (home kk) s → key keys (walk cap (home kk) d) ≠ k0) →
  repr (set_ s kk keys) (set_ s v vals) (<[kk := v]> M).
Proof using Hhome Hp.
  intros R Hkk HM Hs Hks Hpath. destruct R as [Rk Rv Rm Ri Rr].
  assert (Hks' : ∀ i, ok i → key (set_ s kk keys) i = if s =? i then kk else key keys i)
    by (intros i Hi; apply at_set; unfold slot_ok in *; lia).
  assert (Hvs' : ∀ i, ok i → val (set_ s v vals) i = if s =? i then v else val vals i)
    by (intros i Hi; apply at_set; unfold slot_ok in *; lia).
  assert (Hnot : ∀ i, ok i → key keys i ≠ kk).
  { intros i Hi E. assert (M !! kk = Some (val vals i)); [|congruence].
    apply Rm. split; [done|]. by exists i. }
  split.
  - by rewrite zlen_set.
  - by rewrite zlen_set.
  - intros k w. destruct (decide (k = kk)) as [->|Hne].
    + rewrite lookup_insert_eq. split.
      * intros [= <-]. split; [done|]. exists s. rewrite Hks', Hvs', Z.eqb_refl by done. done.
      * intros (_ & i & Hi & Hki & Hvi). rewrite Hks' in Hki by done. rewrite Hvs' in Hvi by done.
        destruct (Z.eqb_spec s i); [congruence|]. by apply Hnot in Hki.
    + rewrite lookup_insert_ne, Rm by done. split; intros (Hk & i & Hi & Hki & Hvi);
        (split; [done|]); exists i; (rewrite Hks', Hvs' in * by done || rewrite Hks', Hvs' by done).
      * destruct (Z.eqb_spec s i); [congruence|done].
      * destruct (Z.eqb_spec s i); [congruence|done].
  - intros i j Hi Hj. rewrite !Hks' by done. specialize (Ri i j Hi Hj).
    destruct (Z.eqb_spec s i), (Z.eqb_spec s j); subst; auto; intros _ E; exfalso;
      [by eapply (Hnot j)|by eapply (Hnot i)].
  - intros i d Hi. rewrite Hks' by done. intros Hki Hd.
    set (h := home (if s =? i then kk else key keys i)) in *.
    assert (Hw : ok (walk cap h d)) by (pose proof (Hhome (if s =? i then kk else key keys i));
      fold h in H0; circle).
    rewrite Hks' by done. destruct (Z.eqb_spec s (walk cap h d)) as [|Hsw]; [done|].
    unfold h in *. destruct (Z.eqb_spec s i) as [->|]; [|by apply Rr].
    apply Hpath. pose proof (Hhome kk). circle.
Qed.

(** A key that is held keeps its slot. *)
Lemma repr_insert_old keys vals M kk v s :
  repr keys vals M → kk ≠ k0 → ok s → key keys s = kk →
  repr keys (set_ s v vals) (<[kk := v]> M).
Proof using Hhome Hp.
  intros [Rk Rv Rm Ri Rr] Hkk Hs Hks.
  assert (Hvs' : ∀ i, ok i → val (set_ s v vals) i = if s =? i then v else val vals i)
    by (intros i Hi; apply at_set; unfold slot_ok in *; lia).
  split; [done|by rewrite zlen_set| |done|done].
  intros k w. destruct (decide (k = kk)) as [->|Hne].
  - rewrite lookup_insert_eq. split.
    + intros [= <-]. split; [done|]. exists s. by rewrite Hvs', Z.eqb_refl.
    + intros (_ & i & Hi & Hki & Hvi). rewrite Hvs' in Hvi by done.
      assert (s = i) as -> by (apply Ri; congruence). rewrite Z.eqb_refl in Hvi. congruence.
  - rewrite lookup_insert_ne, Rm by done. split; intros (Hk & i & Hi & Hki & Hvi);
      (split; [done|]); exists i; split_and!; try done.
    + rewrite Hvs' by done. destruct (Z.eqb_spec s i); [congruence|done].
    + rewrite Hvs' in Hvi by done. destruct (Z.eqb_spec s i); [congruence|done].
Qed.

(** *** Deleting *)

(** The loop's invariant: slot [hole] counts as empty, though it still holds
    a stale key, and only keys at or beyond [j] may need to cross it. *)
Record holed (keys : list K) (vals : list V) (M : gmap K V) (hole j : Z) : Prop := {
  holed_keys : zlen keys = cap;
  holed_vals : zlen vals = cap;
  holed_hole : ok hole;
  holed_j : ok j;
  holed_ne : hole ≠ j;
  holed_stale : key keys hole ≠ k0;
  holed_map k v : M !! k = Some v ↔
    k ≠ k0 ∧ ∃ i, ok i ∧ i ≠ hole ∧ key keys i = k ∧ val vals i = v;
  holed_inj i i' : ok i → ok i' → i ≠ hole → i' ≠ hole →
    key keys i ≠ k0 → key keys i = key keys i' → i = i';
  holed_reach i d : ok i → i ≠ hole → key keys i ≠ k0 →
    0 <= d <= dist cap (home (key keys i)) i →
    key keys (walk cap (home (key keys i)) d) ≠ k0 ∧
    (walk cap (home (key keys i)) d = hole → dist cap hole j <= dist cap hole i) }.

Lemma holed_start keys vals M kk s :
  repr keys vals M → kk ≠ k0 → ok s → key keys s = kk →
  holed keys vals (delete kk M) s (succ cap s).
Proof using Hhome Hp.
  intros [Rk Rv Rm Ri Rr] Hkk Hs Hks. pose proof (power_of_two_pos cap Hp).
  split; try done.
  - circle.
  - circle.
  - congruence.
  - intros k v. rewrite lookup_delete_Some, Rm. split.
    + intros (Hne & Hk & i & Hi & Hki & Hvi). split; [done|]. exists i. split_and!; congruence.
    + intros (Hk & i & Hi & His & Hki & Hvi). split_and!; [|done|by exists i].
      intros ->. apply His. apply Ri; congruence.
  - intros i i' Hi Hi' _ _. by apply Ri.
  - intros i d Hi His Hki Hd. split; [by apply Rr|]. intros _. circle.
Qed.

(** The next empty slot ends the loop: nothing beyond it crosses the hole. *)
Lemma holed_finish keys vals M hole j :
  holed keys vals M hole j → key keys j = k0 →
  repr (set_ hole k0 keys) (set_ hole v0 vals) M.
Proof using Hhome Hp.
  intros [Hk Hv Hh Hj Hne Hst Hm Hi Hr] Hkj.
  assert (Hks' : ∀ i, ok i → key (set_ hole k0 keys) i = if hole =? i then k0 else key keys i)
    by (intros i ?; apply at_set; unfold slot_ok in *; lia).
  assert (Hvs' : ∀ i, ok i → val (set_ hole v0 vals) i = if hole =? i then v0 else val vals i)
    by (intros i ?; apply at_set; unfold slot_ok in *; lia).
  split.
  - by rewrite zlen_set.
  - by rewrite zlen_set.
  - intros k v. rewrite Hm. split; intros (Hk0 & i & Hok & Hrest); (split; [done|]); exists i.
    + destruct Hrest as (Hih & Hki & Hvi). rewrite Hks', Hvs' by done.
      by destruct (Z.eqb_spec hole i).
    + rewrite Hks', Hvs' in Hrest by done. destruct Hrest as [Hki Hvi].
      destruct (Z.eqb_spec hole i); [congruence|]. by split_and!.
  - intros i i' Hok Hok'. rewrite !Hks' by done.
    destruct (Z.eqb_spec hole i), (Z.eqb_spec hole i'); subst; try done;
      first [by apply Hi | intros ? E; congruence].
  - intros i d Hok. rewrite Hks' by done. destruct (Z.eqb_spec hole i) as [|Hih]; [done|].
    intros Hki Hd. pose proof (Hhome (key keys i)) as Hhm.
    destruct (Hr i d Hok (not_eq_sym Hih) Hki Hd) as [Hw Hcross].
    rewrite Hks' by circle. destruct (Z.eqb_spec hole (walk cap (home (key keys i)) d)) as [E|]; [|done].
    exfalso. specialize (Hcross (eq_sym E)).
    destruct (Hr i (d + dist cap hole j) Hok (not_eq_sym Hih) Hki) as [Hwj _]; [circle|].
    replace (walk cap (home (key keys i)) (d + dist cap hole j)) with j in Hwj by circle. done.
Qed.

(** A key whose home lies between hole and [j] stays. *)
Lemma holed_skip keys vals M hole j :
  holed keys vals M hole j → key keys j ≠ k0 →
  between hole (home (key keys j)) j = true → succ cap j ≠ hole →
  holed keys vals M hole (succ cap j).
Proof using Hhome Hp.
  intros [Hk Hv Hh Hj Hne Hst Hm Hi Hr] Hkj Hb Hs. pose proof (power_of_two_pos cap Hp).
  apply (between_dist cap) in Hb; [|done..].
  split; try done; [circle|].
  intros i d Hok Hih Hki Hd. pose proof (Hhome (key keys i)) as Hhm.
  destruct (Hr i d Hok Hih Hki Hd) as [Hw Hcross]. split; [done|]. intros E.
  specialize (Hcross E). destruct (Z.eq_dec i j) as [->|Hij]; [exfalso; circle|]. circle.
Qed.

(** Any other key moves into the hole, and its slot is the new hole. *)
Lemma holed_move keys vals M hole j :
  holed keys vals M hole j → key keys j ≠ k0 →
  between hole (home (key keys j)) j = false →
  holed (set_ hole (key keys j) keys) (set_ hole (val vals j) vals) M j (succ cap j).
Proof using Hhome Hp.
  intros [Hk Hv Hh Hj Hne Hst Hm Hi Hr] Hkj Hb. pose proof (power_of_two_pos cap Hp).
  assert (Hnb : ¬ 0 < dist cap hole (home (key keys j)) <= dist cap hole j).
  { rewrite <- (between_dist cap) by done. by rewrite Hb. }
  assert (Hks' : ∀ i, ok i → key (set_ hole (key keys j) keys) i = if hole =? i then key keys j else key keys i)
    by (intros i ?; apply at_set; unfold slot_ok in *; lia).
  assert (Hvs' : ∀ i, ok i → val (set_ hole (val vals j) vals) i = if hole =? i then val vals j else val vals i)
    by (intros i ?; apply at_set; unfold slot_ok in *; lia).
  split.
  - by rewrite zlen_set.
  - by rewrite zlen_set.
  - done.
  - circle.
  - circle.
  - rewrite Hks' by done. by destruct (Z.eqb_spec hole j).
  - intros k v. rewrite Hm. split; intros (Hk0 & i & Hok & Hne' & Hki & Hvi); (split; [done|]).
    + destruct (Z.eq_dec i j) as [->|Hij].
      * exists hole. rewrite Hks', Hvs', Z.eqb_refl by done. done.
      * exists i. rewrite Hks', Hvs' by done. by destruct (Z.eqb_spec hole i).
    + rewrite Hks' in Hki by done. rewrite Hvs' in Hvi by done.
      destruct (Z.eqb_spec hole i); [exists j|exists i]; split_and!; congruence.
  - intros i i' Hok Hok' Hij Hij'. rewrite !Hks' by done.
    destruct (Z.eqb_spec hole i) as [<-|], (Z.eqb_spec hole i') as [<-|]; try done.
    + intros _ E. exfalso. apply Hij'. symmetry. by apply Hi.
    + intros Hki E. exfalso. apply Hij. apply (Hi i j); auto using not_eq_sym.
    + apply (Hi i i'); auto using not_eq_sym.
  - intros i d Hok Hij. rewrite Hks' by done. intros Hki Hd.
    pose proof (Hhome (if hole =? i then key keys j else key keys i)) as Hhm.
    split; [|intros _; circle].
    rewrite Hks' by circle.
    destruct (Z.eqb_spec hole (walk cap (home (if hole =? i then key keys j else key keys i)) d))
      as [|_]; [done|].
    destruct (Z.eqb_spec hole i) as [<-|Hih]; [|by apply Hr]. apply Hr; [done..|]. circle.
Qed.

(** [cap] steps suffice, and the result is the table without the key. *)
Lemma backshift_run M z : ok z → ∀ fuel keys vals hole j,
  holed keys vals M hole j → key keys z = k0 →
  dist cap hole j <= dist cap hole z → dist cap j z < Z.of_nat fuel →
  ∃ keys' vals' hole',
    backshift k0 v0 fuel cap home keys vals hole j = Some (keys', vals', hole') ∧
    ok hole' ∧ zlen keys' = cap ∧ zlen vals' = cap ∧
    repr (set_ hole' k0 keys') (set_ hole' v0 vals') M.
Proof using Hhome Hp.
  intros Hz. induction fuel as [|fuel IH]; intros keys vals hole j Hd Hkz Hle Hf;
    [destruct Hd; exfalso; circle|]. simpl.
  destruct (decide (key keys j = k0)) as [Hkj|Hkj].
  { exists keys, vals, hole. pose proof (holed_finish _ _ _ _ _ Hd Hkj). destruct Hd. done. }
  pose proof Hd as [Hk _ Hh Hj Hne Hst _ _ _]. assert (Hjz : j ≠ z) by congruence.
  assert (Hhz : hole ≠ z) by congruence. pose proof (power_of_two_pos cap Hp).
  rewrite next_succ by done. destruct (between hole (home (key keys j)) j) eqn:Hb.
  - apply IH; [apply holed_skip; try done; circle|done|circle..].
  - apply IH; [by apply holed_move| |circle..].
    rewrite at_set by (unfold slot_ok in *; lia). by destruct (Z.eqb_spec hole z).
Qed.

Lemma backshift_total keys vals M kk s :
  repr keys vals M → kk ≠ k0 → ok s → key keys s = kk → Z.of_nat (size M) < cap →
  ∃ keys' vals' hole',
    backshift k0 v0 (Z.to_nat cap) cap home keys vals s (next cap s) = Some (keys', vals', hole') ∧
    repr (set_ hole' k0 keys') (set_ hole' v0 vals') (delete kk M).
Proof using Hhome Hp.
  intros R Hkk Hs Hks Hsz. destruct (has_empty keys vals M R Hsz) as (z & Hz & Hkz).
  pose proof (power_of_two_pos cap Hp). rewrite next_succ by done.
  assert (Hsz' : s ≠ z) by congruence.
  destruct (backshift_run (delete kk M) z Hz (Z.to_nat cap) keys vals s (succ cap s))
    as (keys' & vals' & hole' & E & _ & _ & _ & R'); [by apply holed_start|done|circle..|].
  by exists keys', vals', hole'.
Qed.

Lemma repr_empty :
  repr (replicate (Z.to_nat cap) k0) (replicate (Z.to_nat cap) v0) ∅.
Proof using Hhome Hp.
  pose proof (power_of_two_pos cap Hp).
  assert (Hk : ∀ i, key (replicate (Z.to_nat cap) k0) i = k0).
  { intros i. unfold at_. destruct (decide (Z.to_nat i < Z.to_nat cap)%nat).
    - by rewrite nth_lookup, lookup_replicate_2.
    - apply nth_overflow. rewrite length_replicate. lia. }
  split; try (unfold zlen; rewrite length_replicate; lia).
  - intros k v. rewrite lookup_empty. split; [done|]. intros (Hk0 & i & _ & Hki & _).
    by rewrite Hk in Hki.
  - intros i j _ _ Hki. by rewrite Hk in Hki.
  - intros i d _ Hki. by rewrite Hk in Hki.
Qed.
End Refine.
