(* ===== verification/Idmap.v ===== *)
(** * The id map of the net loop: [daemon/idmap.c]

    A pointer is a [Z] with 0 for NULL.  The search and deletion loops are
    [probe] and [backshift] of [OpenAddr], run for [cap] iterations; an
    operation is [None] only if they were not enough, which [get_refines],
    [put_refines] and [del_refines] exclude.

    The specification is a finite map that refuses a new key beyond [cap / 2]
    entries. *)
From stdpp Require Import base tactics list numbers gmap.
From S2P Require Import Prelude OpenAddr.
Local Open Scope Z_scope.

Record oc_idmap := mk_idmap {
  im_keys : list Z;
  im_vals : list Z;
  im_cap : Z;
  im_n : Z }.

Definition slot_of (cap key : Z) : Z :=
  Z.land (Z.shiftr (u64 (key * 0x9E3779B97F4A7C15)) 32) (cap - 1).

Definition oc_idmap_free (m : oc_idmap) : oc_idmap := mk_idmap [] [] 0 0.

(** [alloc] says whether both [calloc]s succeed. *)
Definition oc_idmap_init (alloc : bool) (cap : Z) : Z * oc_idmap :=
  let m := mk_idmap [] [] 0 0 in
  if (cap <? 2) || negb (Z.land cap (cap - 1) =? 0) then (-1, m)
  else if negb alloc then (-1, oc_idmap_free m)
  else (0, mk_idmap (replicate (Z.to_nat cap) 0) (replicate (Z.to_nat cap) 0) cap 0).

Definition idmap_find (m : oc_idmap) (key : Z) : option Z :=
  probe 0 (Z.to_nat (im_cap m)) (im_cap m) (im_keys m) key (slot_of (im_cap m) key).

Definition oc_idmap_get (m : oc_idmap) (key : Z) : option Z :=
  if (key =? 0) || (im_cap m =? 0) then Some 0
  else
    i ← idmap_find m key;
    Some (if at_ 0 (im_keys m) i =? key then at_ 0 (im_vals m) i else 0).

Definition oc_idmap_put (m : oc_idmap) (key val : Z) : option (Z * oc_idmap) :=
  if (key =? 0) || (im_cap m =? 0) then Some (-1, m)
  else
    i ← idmap_find m key;
    Some (if at_ 0 (im_keys m) i =? key
          then (0, mk_idmap (im_keys m) (set_ i val (im_vals m)) (im_cap m) (im_n m))
          else if im_cap m / 2 <=? im_n m then (-1, m)
          else (0, mk_idmap (set_ i key (im_keys m)) (set_ i val (im_vals m)) (im_cap m) (im_n m + 1))).

Definition oc_idmap_del (m : oc_idmap) (key : Z) : option oc_idmap :=
  if (key =? 0) || (im_cap m =? 0) then Some m
  else
    i ← idmap_find m key;
    if at_ 0 (im_keys m) i =? 0 then Some m
    else
      '(keys, vals, hole) ← backshift 0 0 (Z.to_nat (im_cap m)) (im_cap m) (slot_of (im_cap m))
                              (im_keys m) (im_vals m) i (next (im_cap m) i);
      Some (mk_idmap (set_ hole 0 keys) (set_ hole 0 vals) (im_cap m) (u64 (im_n m - 1))).

(** ** Refinement *)

(** The table stands for [M]: see [repr]; [n] counts it and is at most half. *)
Record idmap_repr (m : oc_idmap) (M : gmap Z Z) : Prop := {
  im_power : power_of_two (im_cap m);
  im_size : im_cap m < 2 ^ 64;
  im_repr : repr 0 0 (im_cap m) (slot_of (im_cap m)) (im_keys m) (im_vals m) M;
  im_count : im_n m = Z.of_nat (size M);
  im_half : im_n m <= im_cap m / 2 }.

Lemma slot_of_ok cap key : power_of_two cap → slot_ok cap (slot_of cap key).
Proof.
  intros Hp. pose proof (power_of_two_pos cap Hp). unfold slot_of, slot_ok. rewrite land_mask by done.
  apply Z.mod_pos_bound. lia.
Qed.

Lemma idmap_room m M : idmap_repr m M → Z.of_nat (size M) < im_cap m ∧ im_cap m ≠ 0.
Proof.
  intros R. pose proof (power_of_two_pos _ (im_power _ _ R)).
  pose proof (im_count _ _ R). pose proof (im_half _ _ R). split; [|lia].
  assert (im_cap m / 2 < im_cap m) by (apply Z.div_lt; lia). lia.
Qed.

Lemma idmap_no_zero m M : idmap_repr m M → M !! 0 = None.
Proof.
  intros R. destruct (M !! 0) as [v|] eqn:E; [|done].
  by apply (repr_map _ _ _ _ _ _ _ (im_repr _ _ R)) in E as [? _].
Qed.

(** The search, on a map that is represented. *)
Lemma idmap_find_spec m M key : idmap_repr m M → key ≠ 0 →
  ∃ s, idmap_find m key = Some s ∧ slot_ok (im_cap m) s ∧
    match M !! key with
    | Some v => at_ 0 (im_keys m) s = key ∧ at_ 0 (im_vals m) s = v
    | None => at_ 0 (im_keys m) s = 0 ∧
        ∀ d, 0 <= d < dist (im_cap m) (slot_of (im_cap m) key) s →
          at_ 0 (im_keys m) (walk (im_cap m) (slot_of (im_cap m) key) d) ≠ 0
    end.
Proof.
  intros R Hk. destruct (idmap_room m M R) as [Hr _].
  apply (probe_total 0 0 (im_cap m) (im_power _ _ R) (slot_of (im_cap m)));
    [intros; apply slot_of_ok, R|apply R|done|done].
Qed.

Lemma idmap_guard m M key : idmap_repr m M → key ≠ 0 → (key =? 0) || (im_cap m =? 0) = false.
Proof.
  intros R Hk. destruct (idmap_room m M R) as [_ Hc].
  apply orb_false_intro; by apply Z.eqb_neq.
Qed.

Lemma get_ok m M key :
  idmap_repr m M → oc_idmap_get m key = Some (default 0 (M !! key)).
Proof.
  intros R. unfold oc_idmap_get. destruct (Z.eqb_spec key 0) as [->|Hk].
  { by rewrite (idmap_no_zero m M R). }
  rewrite <- (proj2 (Z.eqb_neq key 0) Hk), (idmap_guard m M key R Hk).
  destruct (idmap_find_spec m M key R Hk) as (s & -> & _ & Hs). simpl.
  destruct (M !! key) as [v|].
  - destruct Hs as [-> ->]. by rewrite Z.eqb_refl.
  - destruct Hs as [-> _]. by destruct (Z.eqb_spec 0 key).
Qed.

(** ** The specification: a bounded finite map *)

Inductive idmap_op := Get (key : Z) | Put (key val : Z) | Del (key : Z).

(** The result of each call, 0 for the one that returns nothing. *)
Definition spec_step (cap : Z) (M : gmap Z Z) (op : idmap_op) : Z * gmap Z Z :=
  match op with
  | Get k => (default 0 (M !! k), M)
  | Put k v =>
      if bool_decide (k ≠ 0 ∧ (is_Some (M !! k) ∨ Z.of_nat (size M) < cap / 2))
      then (0, <[k := v]> M) else (-1, M)
  | Del k => (0, delete k M)
  end.
Definition idmap_step (m : oc_idmap) (op : idmap_op) : option (Z * oc_idmap) :=
  match op with
  | Get k => v ← oc_idmap_get m k; Some (v, m)
  | Put k v => oc_idmap_put m k v
  | Del k => m' ← oc_idmap_del m k; Some (0, m')
  end.

Fixpoint spec_run (cap : Z) (M : gmap Z Z) (ops : list idmap_op) : list Z :=
  match ops with
  | [] => []
  | op :: ops => let '(r, M) := spec_step cap M op in r :: spec_run cap M ops
  end.
Fixpoint idmap_run (m : oc_idmap) (ops : list idmap_op) : option (list Z) :=
  match ops with
  | [] => Some []
  | op :: ops =>
      '(r, m) ← idmap_step m op;
      rs ← idmap_run m ops;
      Some (r :: rs)
  end.

Lemma put_ok m M key val : idmap_repr m M →
  ∃ m', oc_idmap_put m key val = Some (fst (spec_step (im_cap m) M (Put key val)), m') ∧
    im_cap m' = im_cap m ∧ idmap_repr m' (snd (spec_step (im_cap m) M (Put key val))).
Proof.
  intros R. unfold oc_idmap_put. simpl. case_bool_decide as Hd.
  - destruct Hd as [Hk Hroom]. rewrite (idmap_guard m M key R Hk).
    destruct (idmap_find_spec m M key R Hk) as (s & -> & Hs & Hm). simpl.
    pose proof R as [Hp Hz Hr Hn Hh]. destruct (M !! key) as [v|] eqn:E.
    + destruct Hm as [Hks _]. rewrite Hks, Z.eqb_refl. eexists. split; [done|]. split; [done|].
      split; simpl; [done|done| |rewrite map_size_insert_Some by eauto; done|done].
      by apply (repr_insert_old 0 0 _ Hp _ (fun k => slot_of_ok _ k Hp)).
    + destruct Hm as [Hks Hpath]. rewrite Hks. destruct (Z.eqb_spec 0 key); [done|].
      destruct Hroom as [Hbad|Hroom]; [by destruct Hbad|].
      destruct (Z.leb_spec (im_cap m / 2) (im_n m)); [lia|].
      eexists. split; [done|]. split; [done|].
      split; simpl; [done|done| |rewrite map_size_insert_None by done; lia|lia].
      by apply (repr_insert_new 0 0 _ Hp _ (fun k => slot_of_ok _ k Hp)).
  - exists m. split; [|done]. destruct (Z.eqb_spec key 0) as [|Hk]; [done|].
    rewrite <- (proj2 (Z.eqb_neq key 0) Hk), (idmap_guard m M key R Hk).
    destruct (idmap_find_spec m M key R Hk) as (s & -> & _ & Hm). simpl.
    destruct (M !! key) as [v|] eqn:E; [destruct Hd; eauto|].
    destruct Hm as [-> _]. destruct (Z.eqb_spec 0 key); [done|].
    destruct (Z.leb_spec (im_cap m / 2) (im_n m)); [done|].
    destruct Hd. split; [done|]. right. rewrite <- (im_count _ _ R). done.
Qed.

Lemma del_ok m M key : idmap_repr m M →
  ∃ m', oc_idmap_del m key = Some m' ∧ im_cap m' = im_cap m ∧ idmap_repr m' (delete key M).
Proof.
  intros R. unfold oc_idmap_del. destruct (Z.eqb_spec key 0) as [->|Hk].
  { exists m. rewrite delete_id by (by apply (idmap_no_zero m)). done. }
  rewrite <- (proj2 (Z.eqb_neq key 0) Hk), (idmap_guard m M key R Hk).
  destruct (idmap_find_spec m M key R Hk) as (s & -> & Hs & Hm). simpl.
  pose proof R as [Hp Hz Hr Hn Hh]. destruct (M !! key) as [v|] eqn:E.
  - destruct Hm as [Hks _]. rewrite Hks. destruct (Z.eqb_spec key 0); [done|].
    destruct (backshift_total 0 0 (im_cap m) Hp (slot_of (im_cap m)) (fun k => slot_of_ok _ k Hp)
      (im_keys m) (im_vals m) M key s) as (keys & vals & hole & -> & Hr'); [done..|apply (idmap_room m M R)|].
    simpl. eexists. split; [done|]. split; [done|].
    assert (Hne : size M ≠ 0%nat) by (intros H0; apply map_size_empty_inv in H0; by subst).
    assert (Hsz : Z.of_nat (size (delete key M)) = im_n m - 1)
      by (rewrite map_size_delete_Some by eauto; lia).
    assert (Hu : u64 (im_n m - 1) = im_n m - 1).
    { destruct (idmap_room m M R). apply u64_id. unfold is_u64. lia. }
    split; simpl; [done|done|done|lia|lia].
  - destruct Hm as [-> _]. simpl. exists m. by rewrite delete_id.
Qed.

(** Each call does what the map does, and the table keeps standing for it. *)
Lemma step_ok m M op : idmap_repr m M →
  ∃ m', idmap_step m op = Some (fst (spec_step (im_cap m) M op), m') ∧
    im_cap m' = im_cap m ∧ idmap_repr m' (snd (spec_step (im_cap m) M op)).
Proof.
  intros R. destruct op as [k|k v|k]; simpl.
  - rewrite (get_ok m M k R). simpl. eauto.
  - exact (put_ok m M k v R).
  - destruct (del_ok m M k R) as (m' & -> & ? & ?). simpl. eauto.
Qed.

Lemma run_ok ops : ∀ m M, idmap_repr m M → idmap_run m ops = Some (spec_run (im_cap m) M ops).
Proof.
  induction ops as [|op ops IH]; intros m M R; [done|]. cbn [idmap_run spec_run].
  destruct (step_ok m M op R) as (m' & -> & Hc & R'). simpl mbind. rewrite (IH m' _ R'), Hc. by destruct (spec_step (im_cap m) M op).
Qed.

Lemma init_repr cap : 2 <= cap < 2 ^ 64 → Z.land cap (cap - 1) = 0 →
  oc_idmap_init true cap
    = (0, mk_idmap (replicate (Z.to_nat cap) 0) (replicate (Z.to_nat cap) 0) cap 0) ∧
  idmap_repr (snd (oc_idmap_init true cap)) ∅.
Proof.
  intros Hc Hl. unfold oc_idmap_init. destruct (Z.ltb_spec cap 2); [lia|]. rewrite Hl. simpl.
  split; [done|]. pose proof (power_of_two_test cap ltac:(lia) Hl) as Hp.
  split; simpl; [done|lia| |by rewrite map_size_empty|apply Z.div_pos; lia].
  exact (repr_empty 0 0 cap Hp _ (fun k => slot_of_ok cap k Hp)).
Qed.

(** C5: the id map is a finite map.  From a fresh table of any power-of-two
    capacity, every sequence of lookups, insertions and deletions returns what
    a finite map returns that refuses key 0 and a new key beyond half the
    capacity; every probe and every backward shift ends. *)
Theorem idmap_refines_map cap ops :
  2 <= cap < 2 ^ 64 → Z.land cap (cap - 1) = 0 →
  idmap_run (snd (oc_idmap_init true cap)) ops = Some (spec_run cap ∅ ops).
Proof.
  intros Hc Hl. destruct (init_repr cap Hc Hl) as [E R].
  rewrite (run_ok ops _ _ R). by rewrite E.
Qed.

Lemma idmap_refines_map_witness :
  idmap_run (snd (oc_idmap_init true 8)) [Put 1 10; Put 2 20; Put 6 60; Del 1; Get 6; Get 1; Put 0 5]
    = Some [0; 0; 0; 0; 60; 0; -1].
Proof. exact (idmap_refines_map 8 _ ltac:(lia) eq_refl). Defined.
