(* ===== verification/Srccount.v ===== *)
(** * Connections per peer address: [daemon/srccount.c]

    Strings are the bytes before their NUL, so the empty key is [[]].  The
    system's address conversions [inet_pton] and [inet_ntop] are parameters of
    the model.  A count is an [int] in the source; it is kept as a [Z], being
    bounded by the number of open connections.

    The specification counts per key in a finite map, a key being dropped when
    its count returns to zero. *)
From stdpp Require Import base tactics list numbers gmap.
From S2P Require Import Prelude OpenAddr.
Local Open Scope Z_scope.

Definition OC_SRC_LEN : Z := 46.

Record oc_srccount := mk_srccount {
  sc_keys : list (list Z);
  sc_counts : list Z;
  sc_cap : Z;
  sc_n : Z }.

(** FNV-1a over the bytes of the key. *)
Definition fnv1a (src : list Z) : Z :=
  foldl (fun h c => u64 (Z.lxor h c * 1099511628211)) 1469598103934665603 src.
Definition src_slot_of (cap : Z) (src : list Z) : Z := Z.land (fnv1a src) (cap - 1).

Definition oc_srccount_free (m : oc_srccount) : oc_srccount := mk_srccount [] [] 0 0.

(** [alloc] says whether both [calloc]s succeed. *)
Definition oc_srccount_init (alloc : bool) (cap : Z) : Z * oc_srccount :=
  let m := mk_srccount [] [] 0 0 in
  if (cap <? 2) || negb (Z.land cap (cap - 1) =? 0) then (-1, m)
  else if negb alloc then (-1, oc_srccount_free m)
  else (0, mk_srccount (replicate (Z.to_nat cap) []) (replicate (Z.to_nat cap) 0) cap 0).

(** [find]: the slot holding [src], or the empty slot that ends its cluster. *)
Definition src_find (m : oc_srccount) (src : list Z) : option Z :=
  probe [] (Z.to_nat (sc_cap m)) (sc_cap m) (sc_keys m) src (src_slot_of (sc_cap m) src).

(** The IPv4-mapped prefix, and the text [/64]. *)
Definition mapped : list Z := [0; 0; 0; 0; 0; 0; 0; 0; 0; 0; 0xff; 0xff].
Definition slash64 : list Z := [47; 54; 52].

Section Source.
(** [inet_pton(AF_INET6, s)]: the 16 bytes, or none when it is not an
    address; [inet_ntop] of 4 and of 16 bytes into a buffer of [cap]. *)
Context (inet_pton6 : list Z → option (list Z)).
Context (inet_ntop4 inet_ntop6 : list Z → Z → option (list Z)).

(** [snprintf(out, cap, "%s", s)]. *)
Definition snprintf_s (cap : Z) (s : list Z) : list Z := ztake (cap - 1) s.

Definition oc_source_key (addr : option (list Z)) (cap : Z) : list Z :=
  match addr with
  | None => []
  | Some addr =>
      match (if bool_decide (58 ∈ addr) then inet_pton6 addr else None) with
      | Some b =>
          if bool_decide (ztake 12 b = mapped) then default [] (inet_ntop4 (zdrop 12 b) cap)
          else match inet_ntop6 (ztake 8 b ++ replicate 8 0) OC_SRC_LEN with
               | Some a => snprintf_s cap (a ++ slash64)
               | None => snprintf_s cap addr
               end
      | None => snprintf_s cap addr
      end
  end.

Definition oc_srccount_get (m : oc_srccount) (src : list Z) : option Z :=
  let key := oc_source_key (Some src) OC_SRC_LEN in
  if bool_decide (key = []) || (sc_cap m =? 0) then Some 0
  else
    i ← src_find m key;
    Some (if bool_decide (at_ [] (sc_keys m) i = []) then 0 else at_ 0 (sc_counts m) i).

Definition oc_srccount_inc (m : oc_srccount) (src : list Z) : option (Z * oc_srccount) :=
  if OC_SRC_LEN <=? zlen src then Some (-1, m) else
  let key := oc_source_key (Some src) OC_SRC_LEN in
  if bool_decide (key = []) || (sc_cap m =? 0) then Some (-1, m)
  else
    i ← src_find m key;
    if bool_decide (at_ [] (sc_keys m) i = []) then
      if sc_cap m / 2 <=? sc_n m then Some (-1, m)
      else
        let counts := set_ i 0 (sc_counts m) in
        let c := at_ 0 counts i + 1 in
        Some (c, mk_srccount (set_ i key (sc_keys m)) (set_ i c counts) (sc_cap m) (sc_n m + 1))
    else
      let c := at_ 0 (sc_counts m) i + 1 in
      Some (c, mk_srccount (sc_keys m) (set_ i c (sc_counts m)) (sc_cap m) (sc_n m)).

Definition oc_srccount_dec (m : oc_srccount) (src : list Z) : option oc_srccount :=
  let key := oc_source_key (Some src) OC_SRC_LEN in
  if bool_decide (key = []) || (sc_cap m =? 0) then Some m
  else
    i ← src_find m key;
    if bool_decide (at_ [] (sc_keys m) i = []) then Some m
    else
      let c := at_ 0 (sc_counts m) i - 1 in
      let counts := set_ i c (sc_counts m) in
      if 0 <? c then Some (mk_srccount (sc_keys m) counts (sc_cap m) (sc_n m))
      else
        '(keys, counts, hole) ← backshift [] 0 (Z.to_nat (sc_cap m)) (sc_cap m)
           (src_slot_of (sc_cap m)) (sc_keys m) counts i (next (sc_cap m) i);
        Some (mk_srccount (set_ hole [] keys) (set_ hole 0 counts) (sc_cap m) (u64 (sc_n m - 1))).

(** ** The specification *)

Inductive src_op := SrcGet (src : list Z) | SrcInc (src : list Z) | SrcDec (src : list Z).

Definition src_key (src : list Z) : list Z := oc_source_key (Some src) OC_SRC_LEN.

Definition src_spec (cap : Z) (M : gmap (list Z) Z) (op : src_op) : Z * gmap (list Z) Z :=
  match op with
  | SrcGet s => (default 0 (M !! src_key s), M)
  | SrcInc s =>
      if bool_decide (zlen s < OC_SRC_LEN ∧ src_key s ≠ [] ∧
           (is_Some (M !! src_key s) ∨ Z.of_nat (size M) < cap / 2))
      then let c := default 0 (M !! src_key s) + 1 in (c, <[src_key s := c]> M)
      else (-1, M)
  | SrcDec s =>
      match M !! src_key s with
      | Some c => (0, if 0 <? c - 1 then <[src_key s := c - 1]> M else delete (src_key s) M)
      | None => (0, M)
      end
  end.
Definition src_step (m : oc_srccount) (op : src_op) : option (Z * oc_srccount) :=
  match op with
  | SrcGet s => v ← oc_srccount_get m s; Some (v, m)
  | SrcInc s => oc_srccount_inc m s
  | SrcDec s => m' ← oc_srccount_dec m s; Some (0, m')
  end.
Fixpoint src_spec_run (cap : Z) (M : gmap (list Z) Z) (ops : list src_op) : list Z :=
  match ops with
  | [] => []
  | op :: ops => let '(r, M) := src_spec cap M op in r :: src_spec_run cap M ops
  end.
Fixpoint src_run (m : oc_srccount) (ops : list src_op) : option (list Z) :=
  match ops with
  | [] => Some []
  | op :: ops =>
      '(r, m) ← src_step m op;
      rs ← src_run m ops;
      Some (r :: rs)
  end.

(** ** Refinement *)

Record src_repr (m : oc_srccount) (M : gmap (list Z) Z) : Prop := {
  sr_power : power_of_two (sc_cap m);
  sr_size : sc_cap m < 2 ^ 64;
  sr_repr : repr [] 0 (sc_cap m) (src_slot_of (sc_cap m)) (sc_keys m) (sc_counts m) M;
  sr_count : sc_n m = Z.of_nat (size M);
  sr_half : sc_n m <= sc_cap m / 2 }.

Lemma src_slot_ok cap key : power_of_two cap → slot_ok cap (src_slot_of cap key).
Proof.
  intros Hp. pose proof (power_of_two_pos cap Hp). unfold src_slot_of, slot_ok.
  rewrite land_mask by done. apply Z.mod_pos_bound. lia.
Qed.

Lemma src_room m M : src_repr m M → Z.of_nat (size M) < sc_cap m ∧ sc_cap m ≠ 0.
Proof.
  intros R. pose proof (power_of_two_pos _ (sr_power _ _ R)).
  pose proof (sr_count _ _ R). pose proof (sr_half _ _ R). split; [|lia].
  assert (sc_cap m / 2 < sc_cap m) by (apply Z.div_lt; lia). lia.
Qed.

Lemma src_no_empty m M : src_repr m M → M !! [] = None.
Proof.
  intros R. destruct (M !! []) as [v|] eqn:E; [|done].
  by apply (repr_map _ _ _ _ _ _ _ (sr_repr _ _ R)) in E as [? _].
Qed.

Lemma src_guard m M (key : list Z) : src_repr m M → key ≠ [] →
  bool_decide (key = []) || (sc_cap m =? 0) = false.
Proof.
  intros R Hk. destruct (src_room m M R) as [_ Hc].
  apply orb_false_intro; [by apply bool_decide_eq_false|by apply Z.eqb_neq].
Qed.

Lemma src_find_spec m M key : src_repr m M → key ≠ [] →
  ∃ s, src_find m key = Some s ∧ slot_ok (sc_cap m) s ∧
    match M !! key with
    | Some v => at_ [] (sc_keys m) s = key ∧ at_ 0 (sc_counts m) s = v
    | None => at_ [] (sc_keys m) s = [] ∧
        ∀ d, 0 <= d < dist (sc_cap m) (src_slot_of (sc_cap m) key) s →
          at_ [] (sc_keys m) (walk (sc_cap m) (src_slot_of (sc_cap m) key) d) ≠ []
    end.
Proof.
  intros R Hk. destruct (src_room m M R) as [Hr _].
  apply (probe_total [] 0 (sc_cap m) (sr_power _ _ R) (src_slot_of (sc_cap m)));
    [intros; apply src_slot_ok, R|apply R|done|done].
Qed.

Lemma src_get_ok m M s : src_repr m M →
  oc_srccount_get m s = Some (default 0 (M !! src_key s)).
Proof.
  intros R. unfold oc_srccount_get. fold (src_key s). cbv zeta.
  destruct (decide (src_key s = [])) as [->|Hk].
  { rewrite bool_decide_eq_true_2 by done. by rewrite (src_no_empty m M R). }
  rewrite (src_guard m M _ R Hk). destruct (src_find_spec m M _ R Hk) as (i & -> & _ & Hi). simpl.
  destruct (M !! src_key s) as [v|].
  - destruct Hi as [-> ->]. by rewrite bool_decide_eq_false_2.
  - destruct Hi as [-> _]. by rewrite bool_decide_eq_true_2.
Qed.

Lemma at_set_eq cap i (x : Z) l : slot_ok cap i → zlen l = cap → at_ 0 (set_ i x l) i = x.
Proof. intros Hi Hl. rewrite at_set by (unfold slot_ok in Hi; lia). by rewrite Z.eqb_refl. Qed.
Lemma set_set i (x y : Z) l : set_ i y (set_ i x l) = set_ i y l.
Proof. unfold set_. apply list_insert_insert_eq. Qed.

Lemma src_inc_ok m M s : src_repr m M →
  ∃ m', oc_srccount_inc m s = Some (fst (src_spec (sc_cap m) M (SrcInc s)), m') ∧
    sc_cap m' = sc_cap m ∧ src_repr m' (snd (src_spec (sc_cap m) M (SrcInc s))).
Proof.
  intros R. unfold oc_srccount_inc. fold (src_key s). simpl src_spec.
  destruct (Z.leb_spec OC_SRC_LEN (zlen s)) as [Hl|Hl].
  { rewrite bool_decide_eq_false_2 by (intros (? & _); lia). by exists m. }
  cbv zeta. destruct (decide (src_key s = [])) as [Hk|Hk].
  { rewrite Hk, (bool_decide_eq_true_2 (@nil Z = [])) by done.
    rewrite bool_decide_eq_false_2 by tauto. by exists m. }
  rewrite (src_guard m M _ R Hk). destruct (src_find_spec m M _ R Hk) as (i & -> & Hi & Hm).
  simpl mbind. pose proof R as [Hp Hz Hr Hn Hh]. destruct (M !! src_key s) as [v|] eqn:E.
  - destruct Hm as [Hks Hv]. rewrite Hks, (bool_decide_eq_false_2 (src_key s = [])) by done.
    rewrite bool_decide_eq_true_2 by eauto. rewrite Hv. eexists. split; [done|]. split; [done|].
    split; simpl; [done|done| |rewrite map_size_insert_Some by eauto; done|done].
    by apply (repr_insert_old [] 0 _ Hp _ (fun k => src_slot_ok _ k Hp)).
  - destruct Hm as [Hks Hpath]. rewrite Hks, (bool_decide_eq_true_2 (@nil Z = [])) by done.
    destruct (Z.leb_spec (sc_cap m / 2) (sc_n m)).
    { rewrite bool_decide_eq_false_2; [by exists m|].
      intros (_ & _ & [[? ?]|?]); [done|lia]. }
    rewrite bool_decide_eq_true_2 by (split_and!; try done; right; lia).
    rewrite (at_set_eq (sc_cap m)) by (done || apply Hr). rewrite set_set.
    eexists. split; [done|]. split; [done|].
    split; simpl; [done|done| |rewrite map_size_insert_None by done; lia|lia].
    by apply (repr_insert_new [] 0 _ Hp _ (fun k => src_slot_ok _ k Hp)).
Qed.

Lemma src_dec_ok m M s : src_repr m M →
  ∃ m', oc_srccount_dec m s = Some m' ∧
    sc_cap m' = sc_cap m ∧ src_repr m' (snd (src_spec (sc_cap m) M (SrcDec s))).
Proof.
  intros R. unfold oc_srccount_dec. fold (src_key s). simpl src_spec. cbv zeta.
  destruct (decide (src_key s = [])) as [Hk|Hk].
  { rewrite Hk, (src_no_empty m M R). by exists m. }
  rewrite (src_guard m M _ R Hk). destruct (src_find_spec m M _ R Hk) as (i & -> & Hi & Hm).
  simpl mbind. pose proof R as [Hp Hz Hr Hn Hh]. destruct (M !! src_key s) as [v|] eqn:E.
  2:{ destruct Hm as [-> _]. rewrite bool_decide_eq_true_2 by done. by exists m. }
  destruct Hm as [Hks Hv]. rewrite Hks, bool_decide_eq_false_2 by done. rewrite Hv.
  pose proof (repr_insert_old [] 0 _ Hp _ (fun k => src_slot_ok _ k Hp) _ _ _ _ (v - 1) i Hr Hk Hi Hks) as Hr1.
  destruct (Z.ltb_spec 0 (v - 1)).
  { eexists. split; [done|]. split; [done|].
    split; simpl; [done|done|done|rewrite map_size_insert_Some by eauto; done|done]. }
  destruct (backshift_total [] 0 (sc_cap m) Hp (src_slot_of (sc_cap m)) (fun k => src_slot_ok _ k Hp)
    _ _ _ (src_key s) i Hr1 Hk Hi Hks) as (keys & counts & hole & -> & Hr').
  { rewrite map_size_insert_Some by eauto. apply (src_room m M R). }
  simpl. eexists. split; [done|]. split; [done|].
  assert (Hne : size M ≠ 0%nat) by (intros H0; apply map_size_empty_inv in H0; by subst).
  assert (Hsz : Z.of_nat (size (delete (src_key s) M)) = sc_n m - 1)
    by (rewrite map_size_delete_Some by eauto; lia).
  assert (Hu : u64 (sc_n m - 1) = sc_n m - 1).
  { destruct (src_room m M R). apply u64_id. unfold is_u64. lia. }
  rewrite delete_insert_eq in Hr'. split; simpl; [done|done|done|lia|lia].
Qed.

Lemma src_step_ok m M op : src_repr m M →
  ∃ m', src_step m op = Some (fst (src_spec (sc_cap m) M op), m') ∧
    sc_cap m' = sc_cap m ∧ src_repr m' (snd (src_spec (sc_cap m) M op)).
Proof.
  intros R. destruct op as [s|s|s]; cbn [src_step].
  - rewrite (src_get_ok m M s R). simpl. eauto.
  - exact (src_inc_ok m M s R).
  - destruct (src_dec_ok m M s R) as (m' & -> & Hc & R'). simpl mbind. exists m'.
    split; [|done]. simpl. by destruct (M !! src_key s).
Qed.

Lemma src_run_ok ops : ∀ m M, src_repr m M → src_run m ops = Some (src_spec_run (sc_cap m) M ops).
Proof.
  induction ops as [|op ops IH]; intros m M R; [done|]. cbn [src_run src_spec_run].
  destruct (src_step_ok m M op R) as (m' & -> & Hc & R'). simpl mbind. rewrite (IH m' _ R'), Hc.
  by destruct (src_spec (sc_cap m) M op).
Qed.

Lemma src_init_repr cap : 2 <= cap < 2 ^ 64 → Z.land cap (cap - 1) = 0 →
  sc_cap (snd (oc_srccount_init true cap)) = cap ∧ src_repr (snd (oc_srccount_init true cap)) ∅.
Proof.
  intros Hc Hl. unfold oc_srccount_init. destruct (Z.ltb_spec cap 2); [lia|]. rewrite Hl. simpl.
  split; [done|]. pose proof (power_of_two_test cap ltac:(lia) Hl) as Hp.
  split; simpl; [done|lia| |by rewrite map_size_empty|apply Z.div_pos; lia].
  exact (repr_empty [] 0 cap Hp _ (fun k => src_slot_ok cap k Hp)).
Qed.

(** A source the cap applies to: it fits and has a key. *)
Definition counted_src (s : list Z) : Prop := zlen s < OC_SRC_LEN ∧ src_key s ≠ [].
(** How many of [l] share the key of [s]. *)
Definition same_key (s : list Z) (l : list (list Z)) : Z :=
  zlen (filter (fun s' => src_key s' = src_key s) l).

Lemma spec_incs cap l : ∀ M s,
  Forall counted_src l → Z.of_nat (size M) + zlen l <= cap / 2 →
  (∀ k c, M !! k = Some c → 0 < c) →
  ∃ rs, src_spec_run cap M ((SrcInc <$> l) ++ [SrcGet s])
          = rs ++ [default 0 (M !! src_key s) + same_key s l] ∧ Forall (fun r => 0 < r) rs.
Proof.
  unfold same_key. induction l as [|x l IH]; intros M s Hl Hz Hpos.
  { exists []. simpl. rewrite filter_nil. change (zlen []) with 0. by rewrite Z.add_0_r. }
  apply Forall_cons_iff in Hl as [[Hx Hk] Hl]. rewrite zlen_cons in Hz. pose proof (zlen_nonneg l).
  cbn [fmap list_fmap app src_spec_run]. simpl src_spec.
  rewrite bool_decide_eq_true_2 by (split_and!; try done; right; lia). cbv zeta.
  set (c := default 0 (M !! src_key x) + 1).
  assert (Hc : 0 < c).
  { unfold c. destruct (M !! src_key x) as [c0|] eqn:E; simpl; [apply Hpos in E|]; lia. }
  destruct (IH (<[src_key x := c]> M) s Hl) as (rs & E & Hrs).
  - assert (size (<[src_key x := c]> M) <= S (size M))%nat; [|lia].
    rewrite map_size_insert. destruct (M !! src_key x); unfold id; lia.
  - intros k c' Hk'. apply lookup_insert_Some in Hk' as [[_ <-]|[_ Hk']]; [done|eauto].
  - exists (c :: rs). change (fmap SrcInc l) with (SrcInc <$> l) in *. rewrite E.
    split; [|by constructor]. simpl. do 2 f_equal. f_equal. rewrite filter_cons.
    destruct (decide (src_key x = src_key s)) as [Es|Es].
    + rewrite Es, lookup_insert_eq, zlen_cons. unfold c. rewrite Es. simpl. lia.
    + by rewrite lookup_insert_ne.
Qed.
End Source.

(** The per-address counter is a map of counts.  From a fresh table of any
    power-of-two capacity, for any address conversions, every sequence of
    lookups, increments and decrements returns what a finite map of counts
    returns; every probe and every backward shift ends. *)
Theorem srccount_refines_map inet_pton6 inet_ntop4 inet_ntop6 cap ops :
  2 <= cap < 2 ^ 64 → Z.land cap (cap - 1) = 0 →
  src_run inet_pton6 inet_ntop4 inet_ntop6 (snd (oc_srccount_init true cap)) ops
    = Some (src_spec_run inet_pton6 inet_ntop4 inet_ntop6 cap ∅ ops).
Proof.
  intros Hc Hl. destruct (src_init_repr cap Hc Hl) as [E R].
  rewrite (src_run_ok _ _ _ ops _ _ R). by rewrite E.
Qed.

(** A resolver that knows no IPv6 address. *)
Definition no_pton6 : list Z → option (list Z) := fun _ => None.
Definition no_ntop : list Z → Z → option (list Z) := fun _ _ => None.

Lemma srccount_refines_map_witness :
  src_run no_pton6 no_ntop no_ntop (snd (oc_srccount_init true 4))
    [SrcInc [49]; SrcInc [49]; SrcInc [50]; SrcInc [51]; SrcDec [49]; SrcGet [49]; SrcDec [50]; SrcGet [50]]
    = Some [1; 2; 1; -1; 0; 1; 0; 0].
Proof. exact (srccount_refines_map no_pton6 no_ntop no_ntop 4 _ ltac:(lia) eq_refl). Defined.

(** A table sized at twice the connections never refuses one and counts
    them by key.  When at most [cap / 2] connections are counted in a fresh
    table, every increment succeeds and the count of an address is the number
    of them that share its key. *)
Theorem srccount_counts inet_pton6 inet_ntop4 inet_ntop6 cap l s :
  2 <= cap < 2 ^ 64 → Z.land cap (cap - 1) = 0 → zlen l <= cap / 2 →
  Forall (counted_src inet_pton6 inet_ntop4 inet_ntop6) l →
  ∃ rs, src_run inet_pton6 inet_ntop4 inet_ntop6 (snd (oc_srccount_init true cap))
          ((SrcInc <$> l) ++ [SrcGet s])
        = Some (rs ++ [same_key inet_pton6 inet_ntop4 inet_ntop6 s l]) ∧ Forall (fun r => 0 < r) rs.
Proof.
  intros Hc Hp Hz Hl. destruct (src_init_repr cap Hc Hp) as [E R].
  rewrite (src_run_ok _ _ _ _ _ _ R), E.
  destruct (spec_incs inet_pton6 inet_ntop4 inet_ntop6 cap l ∅ s Hl) as (rs & Hr & Hpos);
    [rewrite map_size_empty; lia|intros k c; by rewrite lookup_empty|].
  exists rs. split; [|done]. rewrite Hr, lookup_empty. done.
Qed.

Lemma srccount_counts_witness :
  ∃ rs, src_run no_pton6 no_ntop no_ntop (snd (oc_srccount_init true 8))
          ((SrcInc <$> [[49]; [50]; [49]]) ++ [SrcGet [49]]) = Some (rs ++ [2]) ∧ Forall (fun r => 0 < r) rs.
Proof.
  apply (srccount_counts no_pton6 no_ntop no_ntop 8 [[49]; [50]; [49]] [49]);
    [lia|reflexivity|vm_compute; discriminate|].
  repeat constructor; by vm_compute.
Defined.

(** one host cannot spread over its /64.  Two IPv6 addresses, neither of
    them an IPv4-mapped one, that agree on their first 64 bits are counted
    under one key. *)
Theorem source_key_64 inet_pton6 inet_ntop4 inet_ntop6 a1 a2 b1 b2 cap :
  58 ∈ a1 → 58 ∈ a2 → inet_pton6 a1 = Some b1 → inet_pton6 a2 = Some b2 →
  ztake 12 b1 ≠ mapped → ztake 12 b2 ≠ mapped → ztake 8 b1 = ztake 8 b2 →
  is_Some (inet_ntop6 (ztake 8 b1 ++ replicate 8 0) OC_SRC_LEN) →
  oc_source_key inet_pton6 inet_ntop4 inet_ntop6 (Some a1) cap
    = oc_source_key inet_pton6 inet_ntop4 inet_ntop6 (Some a2) cap.
Proof.
  intros H1 H2 E1 E2 N1 N2 E [t Et]. unfold oc_source_key.
  rewrite !(bool_decide_eq_true_2 (58 ∈ _)) by done. rewrite E1, E2.
  rewrite !(bool_decide_eq_false_2 (ztake 12 _ = mapped)) by done. by rewrite <- E, Et.
Qed.

(** [fe80::1] and [fe80::2] as text and as bytes, and their shared prefix. *)
Lemma source_key_64_witness :
  let bytes := fun n : Z => [0xfe; 0x80; 0; 0; 0; 0; 0; 0; 0; 0; 0; 0; 0; 0; 0; n] in
  let pton := fun s : list Z => Some (bytes (List.last s 0 - 48)) in
  let ntop := fun (b : list Z) (_ : Z) => Some [102; 101; 56; 48; 58; 58] in
  oc_source_key pton no_ntop ntop (Some [102; 101; 56; 48; 58; 58; 49]) 46
    = oc_source_key pton no_ntop ntop (Some [102; 101; 56; 48; 58; 58; 50]) 46.
Proof.
  intros bytes pton ntop.
  apply (source_key_64 pton no_ntop ntop _ _ (bytes 1) (bytes 2) 46);
    first [reflexivity | by (apply (bool_decide_unpack _); vm_compute) | discriminate | by eexists].
Defined.
