(* ===== verification/Ratelimit.v ===== *)
(** * The fixed-window rate limiter: [daemon/ratelimit.c]

    The slot table as the code has it, scanned linearly, with the window
    rolled by [find] and the least recently touched slot evicted when the table
    is full.  Keys are the bytes before their NUL, times are [uint64_t]
    milliseconds whose difference wraps.

    The specification keeps one window per key in a finite map, and never
    forgets one: the code implements it as long as the keys in use fit the
    table. *)
From stdpp Require Import base tactics list numbers gmap.
From S2P Require Import Prelude.
Local Open Scope Z_scope.

Definition OC_RL_KEYMAX : Z := 128.
Definition UINT32_MAX : Z := 0xFFFFFFFF.

Record slot := mk_slot {
  sl_key : list Z;
  sl_window_start : Z;
  sl_last_ms : Z;
  sl_count : Z;
  sl_used : bool }.

Record oc_ratelimit := mk_ratelimit {
  rl_max_events : Z;
  rl_window_ms : Z;
  rl_slots : list slot }.

Definition zero_slot : slot := mk_slot [] 0 0 0 false.

(** [None] for a capacity of 0; the allocations are taken to succeed. *)
Definition oc_ratelimit_new (max_events window_ms : Z) (capacity : nat) : option oc_ratelimit :=
  match capacity with
  | O => None
  | _ => Some (mk_ratelimit max_events window_ms (replicate capacity zero_slot))
  end.

Definition key_copy (key : list Z) : list Z :=
  let n := if OC_RL_KEYMAX <=? zlen key then OC_RL_KEYMAX - 1 else zlen key in ztake n key.

Definition matches (k : list Z) (s : slot) : bool := sl_used s && bool_decide (sl_key s = k).

(** The index of the first slot that satisfies [p]. *)
Fixpoint find_slot (p : slot → bool) (l : list slot) : option nat :=
  match l with
  | [] => None
  | s :: l => if p s then Some O else S <$> find_slot p l
  end.

Definition roll (window_ms now_ms : Z) (s : slot) : slot :=
  if window_ms <=? u64 (now_ms - sl_window_start s)
  then mk_slot (sl_key s) now_ms (sl_last_ms s) 0 (sl_used s) else s.

Definition with_slots (rl : oc_ratelimit) (slots : list slot) : oc_ratelimit :=
  mk_ratelimit (rl_max_events rl) (rl_window_ms rl) slots.

(** The slot of [key] with its window rolled, or none. *)
Definition find (rl : oc_ratelimit) (key : list Z) (now_ms : Z) : option nat * oc_ratelimit :=
  match find_slot (matches (key_copy key)) (rl_slots rl) with
  | Some i => (Some i, with_slots rl (alter (roll (rl_window_ms rl) now_ms) i (rl_slots rl)))
  | None => (None, rl)
  end.

(** The loop over the slots: [victim] is the index and last touch of the best
    candidate so far; a free slot ends it. *)
Fixpoint victim_loop (i : nat) (victim : option (nat * Z)) (l : list slot) : option nat :=
  match l with
  | [] => fst <$> victim
  | c :: l =>
      if negb (sl_used c) then Some i
      else
        match victim with
        | Some (v, last) =>
            if sl_last_ms c <? last then victim_loop (S i) (Some (i, sl_last_ms c)) l
            else victim_loop (S i) victim l
        | None => victim_loop (S i) (Some (i, sl_last_ms c)) l
        end
  end.

(** Never [None] on a table of at least one slot. *)
Definition find_or_alloc (rl : oc_ratelimit) (key : list Z) (now_ms : Z) : option nat * oc_ratelimit :=
  match find rl key now_ms with
  | (Some i, rl) => (Some i, rl)
  | (None, rl) =>
      match victim_loop 0 None (rl_slots rl) with
      | Some i => (Some i, with_slots rl (<[i := mk_slot (key_copy key) now_ms now_ms 0 true]> (rl_slots rl)))
      | None => (None, rl)
      end
  end.

Definition touch (now_ms : Z) (s : slot) : slot :=
  mk_slot (sl_key s) (sl_window_start s) now_ms (sl_count s) (sl_used s).
Definition bump (s : slot) : slot :=
  mk_slot (sl_key s) (sl_window_start s) (sl_last_ms s)
    (if sl_count s <? UINT32_MAX then sl_count s + 1 else sl_count s) (sl_used s).

Definition oc_ratelimit_blocked (rl : oc_ratelimit) (key : list Z) (now_ms : Z) : bool * oc_ratelimit :=
  match find rl key now_ms with
  | (Some i, rl) =>
      (match rl_slots rl !! i with
       | Some s => rl_max_events rl <=? sl_count s
       | None => false
       end, with_slots rl (alter (touch now_ms) i (rl_slots rl)))
  | (None, rl) => (false, rl)
  end.

Definition oc_ratelimit_record (rl : oc_ratelimit) (key : list Z) (now_ms : Z) : oc_ratelimit :=
  match find_or_alloc rl key now_ms with
  | (Some i, rl) => with_slots rl (alter (touch now_ms ∘ bump) i (rl_slots rl))
  | (None, rl) => rl
  end.

Definition unuse (s : slot) : slot :=
  mk_slot (sl_key s) (sl_window_start s) (sl_last_ms s) (sl_count s) false.
Definition oc_ratelimit_reset (rl : oc_ratelimit) (key : list Z) : oc_ratelimit :=
  match find_slot (matches (key_copy key)) (rl_slots rl) with
  | Some i => with_slots rl (alter unuse i (rl_slots rl))
  | None => rl
  end.

(** ** The specification *)

Inductive rl_op :=
  | Blocked (key : list Z) (now_ms : Z)
  | Record_ (key : list Z) (now_ms : Z)
  | Reset (key : list Z).
Definition op_key (op : rl_op) : list Z :=
  key_copy match op with Blocked k _ | Record_ k _ | Reset k => k end.

(** A window: when it started and the events in it. *)
Abbreviation window := (prod Z Z) (only parsing).
Definition roll_window (window_ms now_ms : Z) (w : window) : window :=
  if window_ms <=? u64 (now_ms - fst w) then (now_ms, 0) else w.
Definition add_event (w : window) : window :=
  (fst w, if snd w <? UINT32_MAX then snd w + 1 else snd w).

Definition rl_spec (max window_ms : Z) (M : gmap (list Z) window) (op : rl_op)
    : bool * gmap (list Z) window :=
  match op with
  | Blocked _ now =>
      match M !! op_key op with
      | Some w => let w := roll_window window_ms now w in (max <=? snd w, <[op_key op := w]> M)
      | None => (false, M)
      end
  | Record_ _ now =>
      let w := match M !! op_key op with
               | Some w => roll_window window_ms now w
               | None => (now, 0)
               end in
      (false, <[op_key op := add_event w]> M)
  | Reset _ => (false, delete (op_key op) M)
  end.
Definition rl_step (rl : oc_ratelimit) (op : rl_op) : bool * oc_ratelimit :=
  match op with
  | Blocked k now => oc_ratelimit_blocked rl k now
  | Record_ k now => (false, oc_ratelimit_record rl k now)
  | Reset k => (false, oc_ratelimit_reset rl k)
  end.
Fixpoint rl_spec_run (max window_ms : Z) (M : gmap (list Z) window) (ops : list rl_op) : list bool :=
  match ops with
  | [] => []
  | op :: ops => let '(r, M) := rl_spec max window_ms M op in r :: rl_spec_run max window_ms M ops
  end.
Fixpoint rl_run (rl : oc_ratelimit) (ops : list rl_op) : list bool :=
  match ops with
  | [] => []
  | op :: ops => let '(r, rl) := rl_step rl op in r :: rl_run rl ops
  end.

(** ** Refinement *)

Arguments key_copy : simpl never.

Definition slot_window (s : slot) : window := (sl_window_start s, sl_count s).

(** The used slots hold distinct keys and are the windows of [M]. *)
Record rl_repr (slots : list slot) (M : gmap (list Z) window) : Prop := {
  rr_map k w : M !! k = Some w ↔
    ∃ i s, slots !! i = Some s ∧ sl_used s = true ∧ sl_key s = k ∧ slot_window s = w;
  rr_inj i j s t : slots !! i = Some s → slots !! j = Some t →
    sl_used s = true → sl_used t = true → sl_key s = sl_key t → i = j }.

Lemma find_slot_spec p l :
  match find_slot p l with
  | Some i => ∃ s, l !! i = Some s ∧ p s = true
  | None => ∀ i s, l !! i = Some s → p s = false
  end.
Proof.
  induction l as [|s l IH]; simpl; [done|]. destruct (p s) eqn:E; [by exists s|].
  destruct (find_slot p l) as [i|]; simpl; [done|].
  intros [|i] t Ht; simpl in Ht; [congruence|eauto].
Qed.

Lemma matches_true k s : matches k s = true ↔ sl_used s = true ∧ sl_key s = k.
Proof. unfold matches. by rewrite andb_true_iff, bool_decide_eq_true. Qed.

(** The scan finds a key exactly when the map holds it. *)
Lemma find_slot_repr slots M k : rl_repr slots M →
  match find_slot (matches k) slots, M !! k with
  | Some i, Some w => ∃ s, slots !! i = Some s ∧ sl_used s = true ∧ sl_key s = k ∧ slot_window s = w
  | None, None => True
  | _, _ => False
  end.
Proof.
  intros R. pose proof (find_slot_spec (matches k) slots) as H.
  destruct (find_slot (matches k) slots) as [i|].
  - destruct H as (s & Hs & [Hu Hk]%matches_true).
    assert (E : M !! k = Some (slot_window s)) by (apply (rr_map _ _ R); by exists i, s).
    rewrite E. by exists s.
  - destruct (M !! k) as [w|] eqn:E; [|done].
    apply (rr_map _ _ R) in E as (i & s & Hs & Hu & Hk & _).
    assert (matches k s = true) by (by apply matches_true). rewrite (H i s Hs) in *. done.
Qed.

(** Changing the window of a used slot in place. *)
Lemma repr_alter slots M (f : slot → slot) i s :
  rl_repr slots M → slots !! i = Some s → sl_used s = true →
  sl_used (f s) = true → sl_key (f s) = sl_key s →
  rl_repr (alter f i slots) (<[sl_key s := slot_window (f s)]> M).
Proof.
  intros [Rm Ri] Hs Hu Hfu Hfk. split.
  - intros k w. destruct (decide (k = sl_key s)) as [->|Hne].
    + rewrite lookup_insert_eq. split.
      * intros [= <-]. exists i, (f s). rewrite list_lookup_alter_eq, Hs. done.
      * intros (j & t & Ht & Htu & Htk & <-). destruct (decide (i = j)) as [->|Hij].
        { rewrite list_lookup_alter_eq, Hs in Ht. simpl in Ht. by injection Ht as <-. }
        rewrite list_lookup_alter_ne in Ht by done. exfalso. apply Hij. by eapply Ri.
    + rewrite lookup_insert_ne, Rm by done. split; intros (j & t & Ht & Htu & Htk & Htw); exists j, t.
      * rewrite list_lookup_alter_ne; [done|]. intros ->. congruence.
      * destruct (decide (i = j)) as [->|Hij].
        { rewrite list_lookup_alter_eq, Hs in Ht. simpl in Ht. injection Ht as <-. congruence. }
        by rewrite list_lookup_alter_ne in Ht by done.
  - assert (H : ∀ j t, alter f i slots !! j = Some t → sl_used t = true →
      ∃ t', slots !! j = Some t' ∧ sl_used t' = true ∧ sl_key t' = sl_key t).
    { intros j t Ht Htu. destruct (decide (i = j)) as [->|Hij].
      - rewrite list_lookup_alter_eq, Hs in Ht. simpl in Ht. injection Ht as <-. by exists s.
      - rewrite list_lookup_alter_ne in Ht by done. by exists t. }
    intros j1 j2 t1 t2 H1 H2 U1 U2 E. destruct (H j1 t1 H1 U1) as (t1' & ? & ? & ?).
    destruct (H j2 t2 H2 U2) as (t2' & ? & ? & ?). eapply Ri; eauto. congruence.
Qed.

(** Claiming an unused slot for a new key. *)
Lemma repr_claim slots M i s t :
  rl_repr slots M → slots !! i = Some s → sl_used s = false → sl_used t = true →
  M !! sl_key t = None →
  rl_repr (<[i := t]> slots) (<[sl_key t := slot_window t]> M).
Proof.
  intros [Rm Ri] Hs Hu Htu HM. pose proof (lookup_lt_Some _ _ _ Hs) as Hlt.
  assert (Hnot : ∀ j r, slots !! j = Some r → sl_used r = true → sl_key r ≠ sl_key t).
  { intros j r Hr Hru E. assert (M !! sl_key t = Some (slot_window r)); [|congruence].
    apply Rm. by exists j, r. }
  split.
  - intros k w. destruct (decide (k = sl_key t)) as [->|Hne].
    + rewrite lookup_insert_eq. split.
      * intros [= <-]. exists i, t. by rewrite list_lookup_insert_eq.
      * intros (j & r & Hr & Hru & Hrk & <-). destruct (decide (i = j)) as [->|Hij].
        { rewrite list_lookup_insert_eq in Hr by done. by injection Hr as <-. }
        rewrite list_lookup_insert_ne in Hr by done. by destruct (Hnot j r).
    + rewrite lookup_insert_ne, Rm by done. split; intros (j & r & Hr & Hru & Hrk & Hrw); exists j, r.
      * rewrite list_lookup_insert_ne; [done|]. intros ->. congruence.
      * destruct (decide (i = j)) as [->|Hij].
        { rewrite list_lookup_insert_eq in Hr by done. injection Hr as <-. congruence. }
        by rewrite list_lookup_insert_ne in Hr by done.
  - intros j1 j2 r1 r2 H1 H2 U1 U2 E.
    destruct (decide (i = j1)) as [<-|N1], (decide (i = j2)) as [<-|N2]; [done|..].
    + rewrite list_lookup_insert_eq in H1 by done. rewrite list_lookup_insert_ne in H2 by done.
      injection H1 as <-. by destruct (Hnot j2 r2).
    + rewrite list_lookup_insert_ne in H1 by done. rewrite list_lookup_insert_eq in H2 by done.
      injection H2 as <-. by destruct (Hnot j1 r1).
    + rewrite list_lookup_insert_ne in H1, H2 by done. by eapply Ri.
Qed.

Lemma repr_unuse slots M i s :
  rl_repr slots M → slots !! i = Some s → sl_used s = true →
  rl_repr (alter unuse i slots) (delete (sl_key s) M).
Proof.
  intros [Rm Ri] Hs Hu.
  assert (H : ∀ j t, sl_used t = true → alter unuse i slots !! j = Some t ↔ slots !! j = Some t ∧ i ≠ j).
  { intros j t Ht. destruct (decide (i = j)) as [->|Hij].
    - rewrite list_lookup_alter_eq, Hs. simpl. split; [|tauto]. intros [= <-]. done.
    - rewrite list_lookup_alter_ne by done. tauto. }
  split.
  - intros k w. rewrite lookup_delete_Some, Rm. split.
    + intros (Hk & j & t & Ht & Htu & Htk & Htw). exists j, t. split_and!; try done.
      apply H; [done|]. split; [done|]. intros ->. congruence.
    + intros (j & t & Ht & Htu & Htk & Htw). apply H in Ht as [Ht Hij]; [|done].
      split; [|by exists j, t]. intros Hk. apply Hij. eapply Ri; eauto. congruence.
  - intros j1 j2 t1 t2 H1 H2 U1 U2. apply H in H1 as [H1 _]; [|done]. apply H in H2 as [H2 _]; [|done].
    by eapply Ri.
Qed.

(** The loop answers the first unused slot when there is one. *)
Lemma victim_free l : ∀ n v, Exists (fun s => sl_used s = false) l →
  ∃ i s, victim_loop n v l = Some (n + i)%nat ∧ l !! i = Some s ∧ sl_used s = false.
Proof.
  induction l as [|c l IH]; intros n v Hex; [by inversion Hex|]. simpl.
  destruct (sl_used c) eqn:Hc; simpl.
  - assert (Hl : Exists (fun s => sl_used s = false) l)
      by (apply Exists_cons in Hex as [?|?]; [congruence|done]).
    assert (Hgo : ∀ v, ∃ i s, victim_loop (S n) v l = Some (n + i)%nat ∧
        (c :: l) !! i = Some s ∧ sl_used s = false).
    { intros v'. destruct (IH (S n) v' Hl) as (i & s & -> & Hi & Hu). exists (S i), s.
      split; [f_equal; lia|done]. }
    destruct v as [[vi vl]|]; [destruct (sl_last_ms c <? vl)|]; apply Hgo.
  - exists O, c. by rewrite Nat.add_0_r.
Qed.

(** When every slot is used it answers one of those touched longest ago. *)
Lemma victim_lru l : ∀ n v, Forall (fun s => sl_used s = true) l →
  match victim_loop n v l with
  | Some k =>
      (∃ i s, k = (n + i)%nat ∧ l !! i = Some s ∧
         Forall (fun t => sl_last_ms s <= sl_last_ms t) l ∧
         (if v is Some (_, last) then sl_last_ms s <= last else True)) ∨
      (if v is Some (vi, last) then k = vi ∧ Forall (fun t => last <= sl_last_ms t) l else False)
  | None => v = None ∧ l = []
  end.
Proof.
  induction l as [|c l IH]; intros n v Hu; simpl.
  { destruct v as [[vi last]|]; [right|]; done. }
  apply Forall_cons_iff in Hu as [Hc Hu]. rewrite Hc. simpl.
  assert (Hgo : ∀ v' : nat * Z, snd v' <= sl_last_ms c →
    match victim_loop (S n) (Some v') l with
    | Some k =>
        (∃ i s, k = (n + i)%nat ∧ (c :: l) !! i = Some s ∧
           Forall (fun t => sl_last_ms s <= sl_last_ms t) (c :: l) ∧ sl_last_ms s <= snd v') ∨
        (k = fst v' ∧ Forall (fun t => snd v' <= sl_last_ms t) (c :: l))
    | None => False
    end).
  { intros [vi last] Hv. simpl in *. specialize (IH (S n) (Some (vi, last)) Hu).
    destruct (victim_loop (S n) (Some (vi, last)) l) as [k|]; [|by destruct IH].
    destruct IH as [(i & s & -> & Hi & Hall & Hle)|[-> Hall]].
    - left. exists (S i), s. split_and!; try done; [lia|]. constructor; [lia|done].
    - right. split; [done|]. by constructor. }
  destruct v as [[vi last]|]; [destruct (Z.ltb_spec (sl_last_ms c) last)|].
  - specialize (Hgo (n, sl_last_ms c) ltac:(simpl; lia)). simpl in Hgo.
    destruct (victim_loop _ _ _) as [k|]; [|done]. left.
    destruct Hgo as [(i & s & ? & ? & ? & ?)|[-> ?]].
    + exists i, s. split_and!; (done || lia).
    + exists O, c. rewrite Nat.add_0_r. split_and!; (done || lia).
  - specialize (Hgo (vi, last) ltac:(simpl; lia)). simpl in Hgo.
    destruct (victim_loop _ _ _) as [k|]; [|done].
    destruct Hgo as [(i & s & ? & ? & ? & ?)|[-> ?]]; [left|by right].
    by exists i, s.
  - specialize (Hgo (n, sl_last_ms c) ltac:(simpl; lia)). simpl in Hgo.
    destruct (victim_loop _ _ _) as [k|]; [|done]. left.
    destruct Hgo as [(i & s & ? & ? & ? & ?)|[-> ?]].
    + by exists i, s.
    + exists O, c. rewrite Nat.add_0_r. by split_and!.
Qed.

(** A table with fewer keys than slots has an unused one. *)
Lemma repr_free slots M : rl_repr slots M → (size M < length slots)%nat →
  Exists (fun s => sl_used s = false) slots.
Proof.
  intros [Rm Ri] Hlt. destruct (decide (Exists (fun s => sl_used s = false) slots)) as [|Hno]; [done|].
  exfalso. apply not_Exists_Forall in Hno; [|intros s; apply _].
  assert (Hall : ∀ i s, slots !! i = Some s → sl_used s = true).
  { intros i s Hs. pose proof (Forall_lookup_1 _ _ _ _ Hno Hs) as Hn. simpl in Hn. by destruct (sl_used s). }
  assert (length slots <= size M)%nat; [|lia].
  rewrite <- size_dom, <- (length_fmap sl_key slots).
  assert (Hnd : NoDup (sl_key <$> slots)).
  { apply NoDup_alt. intros i j k Hi Hj. apply list_lookup_fmap_Some in Hi as (s & -> & Hs).
    apply list_lookup_fmap_Some in Hj as (t & E & Ht). eapply (Ri i j s t); eauto. }
  rewrite <- (size_list_to_set (C := gset (list Z))) by done. apply subseteq_size.
  intros k Hk. apply elem_of_list_to_set in Hk. apply list_elem_of_fmap in Hk as (s & -> & Hs).
  apply list_elem_of_lookup in Hs as [i Hs]. apply elem_of_dom. exists (slot_window s).
  apply Rm. exists i, s. eauto.
Qed.

Lemma roll_keeps w now s :
  sl_used (roll w now s) = sl_used s ∧ sl_key (roll w now s) = sl_key s ∧
  slot_window (roll w now s) = roll_window w now (slot_window s).
Proof. unfold roll, roll_window, slot_window. simpl. by destruct (w <=? _). Qed.

(** [find] rolls the window of the key it finds, and of no other. *)
Lemma find_ok rl M key now : rl_repr (rl_slots rl) M →
  match M !! key_copy key with
  | Some w => ∃ i s rl', find rl key now = (Some i, rl') ∧
      rl_slots rl' !! i = Some s ∧ sl_used s = true ∧ sl_key s = key_copy key ∧
      slot_window s = roll_window (rl_window_ms rl) now w ∧
      rl' = with_slots rl (rl_slots rl') ∧ length (rl_slots rl') = length (rl_slots rl) ∧
      rl_repr (rl_slots rl') (<[key_copy key := slot_window s]> M)
  | None => find rl key now = (None, rl)
  end.
Proof.
  intros R. unfold find. pose proof (find_slot_repr _ _ (key_copy key) R) as H.
  destruct (find_slot (matches (key_copy key)) (rl_slots rl)) as [i|], (M !! key_copy key) as [w|]; try done.
  destruct H as (s & Hs & Hu & Hk & Hw). destruct (roll_keeps (rl_window_ms rl) now s) as (Ru & Rk & Rw).
  exists i, (roll (rl_window_ms rl) now s). eexists. split; [done|]. simpl.
  rewrite list_lookup_alter_eq, Hs. split; [done|]. split_and!; try congruence; [by rewrite length_alter|].
  rewrite <- Hk. apply (repr_alter _ _ (roll (rl_window_ms rl) now) i s R Hs Hu); congruence.
Qed.

(** Each call does what the specification does while its key has a slot or
    there is a slot for it. *)
Lemma rl_step_ok rl M op :
  rl_repr (rl_slots rl) M → (is_Some (M !! op_key op) ∨ (size M < length (rl_slots rl))%nat) →
  let '(r, rl') := rl_step rl op in
  let '(r', M') := rl_spec (rl_max_events rl) (rl_window_ms rl) M op in
  r = r' ∧ rl' = with_slots rl (rl_slots rl') ∧ length (rl_slots rl') = length (rl_slots rl) ∧
  rl_repr (rl_slots rl') M'.
Proof.
  intros R Hroom. destruct op as [key now|key now|key]; simpl rl_step; simpl rl_spec;
    unfold op_key in *; simpl in *.
  - unfold oc_ratelimit_blocked. pose proof (find_ok rl M key now R) as H.
    destruct (M !! key_copy key) as [w|]; [|by rewrite H; destruct rl].
    destruct H as (i & s & rl' & -> & Hs & Hu & Hk & Hw & Erl & Hlen & R'). rewrite Hs, <- Hw. simpl.
    rewrite Erl. simpl. split_and!; try done; [by rewrite length_alter|].
    pose proof (repr_alter _ _ (touch now) i s R' Hs Hu Hu eq_refl) as R2.
    by rewrite Hk, insert_insert_eq in R2.
  - unfold oc_ratelimit_record, find_or_alloc. pose proof (find_ok rl M key now R) as H.
    destruct (M !! key_copy key) as [w|] eqn:E.
    + destruct H as (i & s & rl' & -> & Hs & Hu & Hk & Hw & Erl & Hlen & R'). simpl.
      split; [done|]. rewrite Erl. simpl. split_and!; [done|by rewrite length_alter|].
      pose proof (repr_alter _ _ (touch now ∘ bump) i s R' Hs Hu Hu eq_refl) as R2.
      rewrite Hk, insert_insert_eq, <- Hw in *. exact R2.
    + rewrite H. destruct Hroom as [[? ?]|Hroom]; [done|].
      destruct (victim_free (rl_slots rl) 0 None (repr_free _ _ R Hroom)) as (i & s & -> & Hs & Hu).
      simpl. split; [done|]. split; [done|]. rewrite length_alter, length_insert. split; [done|].
      set (t := mk_slot (key_copy key) now now 0 true).
      pose proof (repr_claim _ _ i s t R Hs Hu eq_refl E) as R1.
      assert (Ht : <[i := t]> (rl_slots rl) !! i = Some t)
        by (apply list_lookup_insert_eq; by eapply lookup_lt_Some).
      pose proof (repr_alter _ _ (touch now ∘ bump) i t R1 Ht eq_refl eq_refl eq_refl) as R2.
      simpl in R2. rewrite insert_insert_eq in R2. exact R2.
  - unfold oc_ratelimit_reset. pose proof (find_slot_repr _ _ (key_copy key) R) as H.
    destruct (find_slot (matches (key_copy key)) (rl_slots rl)) as [i|], (M !! key_copy key) as [w|] eqn:E;
      try done; simpl.
    + destruct H as (s & Hs & Hu & Hk & Hw). split_and!; try done; [by rewrite length_alter|].
      rewrite <- Hk. by apply repr_unuse.
    + split_and!; try done; [by destruct rl|]. by rewrite delete_id.
Qed.

(** The keys a map holds stay among those of the operations. *)
Lemma rl_spec_dom (max w : Z) (M : gmap (list Z) window) (op : rl_op) (D : gset (list Z)) :
  dom M ⊆ D → op_key op ∈ D → dom (snd (rl_spec max w M op)) ⊆ D.
Proof.
  intros HM Hop. destruct op as [key now|key now|key]; simpl.
  - destruct (M !! _); simpl; [rewrite dom_insert|]; set_solver.
  - rewrite dom_insert. set_solver.
  - rewrite dom_delete. set_solver.
Qed.

Lemma rl_run_ok (D : gset (list Z)) ops : ∀ rl M,
  rl_repr (rl_slots rl) M → dom M ⊆ D → (size D <= length (rl_slots rl))%nat →
  Forall (fun op => op_key op ∈ D) ops →
  rl_run rl ops = rl_spec_run (rl_max_events rl) (rl_window_ms rl) M ops.
Proof.
  induction ops as [|op ops IH]; intros rl M R HM Hsz Hops; [done|].
  apply Forall_cons_iff in Hops as [Hop Hops].
  assert (Hroom : is_Some (M !! op_key op) ∨ (size M < length (rl_slots rl))%nat).
  { destruct (M !! op_key op) eqn:E; [by left; eauto|]. right.
    assert (size M < size D)%nat; [|lia]. rewrite <- size_dom. apply subset_size.
    split; [done|]. intros Hsub. apply not_elem_of_dom in E. set_solver. }
  pose proof (rl_step_ok rl M op R Hroom) as H.
  pose proof (rl_spec_dom (rl_max_events rl) (rl_window_ms rl) M op D HM Hop) as HM'.
  cbn [rl_run rl_spec_run]. destruct (rl_step rl op) as [r rl'].
  destruct (rl_spec (rl_max_events rl) (rl_window_ms rl) M op) as [r' M'].
  destruct H as (-> & Erl & Hlen & R'). f_equal.
  rewrite (IH rl' M' R' HM'); [by rewrite Erl|by rewrite Hlen|done].
Qed.

Lemma rl_repr_empty n : rl_repr (replicate n zero_slot) ∅.
Proof.
  assert (H : ∀ i s, replicate n zero_slot !! i = Some s → sl_used s = false)
    by (intros i s [-> _]%lookup_replicate; done).
  split.
  - intros k w. rewrite lookup_empty. split; [done|]. intros (i & s & Hs & Hu & _).
    rewrite (H i s Hs) in Hu. done.
  - intros i j s t Hs _ Hu. rewrite (H i s Hs) in Hu. done.
Qed.

(** C22: the limiter keeps one fixed window per key.  On a fresh limiter, a
    sequence of checks, records and resets over no more distinct keys than it
    has slots answers exactly as a table of independent fixed windows that
    never forgets a key. *)
Theorem ratelimit_refines_windows (max window_ms : Z) (capacity : nat) (rl : oc_ratelimit)
    (D : gset (list Z)) (ops : list rl_op) :
  oc_ratelimit_new max window_ms capacity = Some rl → (size D <= capacity)%nat →
  Forall (fun op => op_key op ∈ D) ops →
  rl_run rl ops = rl_spec_run max window_ms ∅ ops.
Proof.
  intros E Hsz Hops. destruct capacity as [|n]; [done|]. injection E as <-.
  apply (rl_run_ok D ops (mk_ratelimit max window_ms (replicate (S n) zero_slot)) ∅);
    simpl; [apply (rl_repr_empty (S n))|set_solver|by rewrite length_replicate|done].
Qed.

Lemma ratelimit_refines_windows_witness :
  ∃ rl, oc_ratelimit_new 2 1000 2 = Some rl ∧
    rl_run rl [Record_ [97] 0; Record_ [97] 10; Blocked [97] 20; Blocked [98] 20; Blocked [97] 1000]
      = [false; false; true; false; false].
Proof.
  eexists. split; [reflexivity|].
  refine (ratelimit_refines_windows 2 1000 2 _ {[ [97]; [98] ]} _ eq_refl _ _).
  - apply (bool_decide_unpack _). by vm_compute.
  - repeat (apply List.Forall_cons; [apply (bool_decide_unpack _); by vm_compute|]). apply List.Forall_nil.
Defined.

(** Records of one key inside the window its first one opened. *)
Lemma spec_records (max window_ms : Z) (key : list Z) (t0 : Z) (ts : list Z) :
  ∀ (M : gmap (list Z) window) (n t : Z),
  M !! key_copy key = Some (t0, n) → 0 <= t0 → t0 <= t < 2 ^ 64 →
  Forall (fun x => t0 <= x < t0 + window_ms ∧ x < 2 ^ 64) ts → 0 <= n → n + zlen ts <= UINT32_MAX →
  rl_spec_run max window_ms M ((Record_ key <$> ts) ++ [Blocked key t])
    = replicate (length ts) false ++
      [max <=? if window_ms <=? t - t0 then 0 else n + zlen ts].
Proof.
  induction ts as [|x ts IH]; intros M n t HM H0 Ht Hts Hn Hmax.
  - simpl. unfold op_key; simpl. rewrite HM. unfold roll_window; simpl.
    rewrite u64_id by ilia. change (zlen []) with 0. rewrite Z.add_0_r.
    by destruct (window_ms <=? t - t0).
  - apply Forall_cons_iff in Hts as [[Hx Hx64] Hts]. rewrite zlen_cons in *. pose proof (zlen_nonneg ts).
    cbn [fmap list_fmap app rl_spec_run length replicate]. simpl rl_spec. unfold op_key; simpl.
    rewrite HM. unfold roll_window; simpl. rewrite u64_id by ilia.
    destruct (Z.leb_spec window_ms (x - t0)); [lia|]. unfold add_event; simpl.
    destruct (Z.ltb_spec n UINT32_MAX); [|lia]. f_equal.
    change (list_fmap rl_op) with (@fmap list _ Z rl_op) in *.
    rewrite (IH (<[key_copy key := (t0, n + 1)]> M) (n + 1) t);
      [|by rewrite lookup_insert_eq|done|done|done|lia|lia].
    do 3 f_equal. destruct (window_ms <=? t - t0); lia.
Qed.

(** The limiter trips exactly at its limit and lets go with its window.
    After any number of records of a key inside the window the first of them
    opened, a check before the window ends blocks exactly when there were at
    least [max_events] of them; a check after it blocks no longer, for a
    positive limit. *)
Theorem ratelimit_trips (max window_ms : Z) (capacity : nat) (rl : oc_ratelimit)
    (key : list Z) (t0 : Z) (ts : list Z) (t : Z) :
  oc_ratelimit_new max window_ms capacity = Some rl →
  0 < max → 0 <= t0 → t0 <= t < 2 ^ 64 →
  Forall (fun x => t0 <= x < t0 + window_ms ∧ x < 2 ^ 64) ts → 1 + zlen ts <= UINT32_MAX →
  rl_run rl ((Record_ key <$> t0 :: ts) ++ [Blocked key t])
    = replicate (S (length ts)) false ++
      [(t - t0 <? window_ms) && (max <=? 1 + zlen ts)].
Proof.
  intros E Hmax H0 Ht Hts Hz. destruct capacity as [|n]; [done|]. injection E as <-.
  set (rl := mk_ratelimit max window_ms (replicate (S n) zero_slot)).
  rewrite (rl_run_ok {[ key_copy key ]} _ rl ∅);
    [|apply (rl_repr_empty (S n))|set_solver|rewrite size_singleton; simpl; rewrite length_replicate; lia|].
  - cbn [fmap list_fmap app rl_spec_run length replicate]. simpl rl_spec. unfold op_key; simpl.
    f_equal. change (list_fmap rl_op) with (@fmap list _ Z rl_op).
    rewrite (spec_records max window_ms key t0 ts _ 1 t);
      [|by rewrite lookup_insert_eq|done|done|done|lia|done].
    do 2 f_equal. destruct (Z.leb_spec window_ms (t - t0)), (Z.ltb_spec (t - t0) window_ms); lia.
  - apply Forall_forall. intros op Hop. apply elem_of_app in Hop as [Hop|Hop].
    + apply list_elem_of_fmap in Hop as (x & -> & _). set_solver.
    + apply list_elem_of_singleton in Hop as ->. set_solver.
Qed.

Lemma ratelimit_trips_witness :
  ∃ rl, oc_ratelimit_new 3 60000 16 = Some rl ∧
    rl_run rl ((Record_ [97] <$> [100; 200; 300]) ++ [Blocked [97] 400]) = [false; false; false; true].
Proof.
  eexists. split; [reflexivity|].
  refine (ratelimit_trips 3 60000 16 _ [97] 100 [200; 300] 400 eq_refl _ _ _ _ _); try lia.
  - repeat constructor; lia.
  - by vm_compute.
Defined.

(** Eviction takes a slot touched longest ago.  Recording a new key in a
    full table overwrites one slot whose last touch is the oldest of all, starts
    the key's window there with one event, and leaves every other slot as it
    was: the table never grows. *)
Theorem ratelimit_evicts_lru rl key now :
  Forall (fun s => sl_used s = true ∧ sl_key s ≠ key_copy key) (rl_slots rl) → rl_slots rl ≠ [] →
  ∃ i s, rl_slots rl !! i = Some s ∧
    Forall (fun t => sl_last_ms s <= sl_last_ms t) (rl_slots rl) ∧
    rl_slots (oc_ratelimit_record rl key now)
      = <[i := mk_slot (key_copy key) now now 1 true]> (rl_slots rl).
Proof.
  intros Hall Hne. unfold oc_ratelimit_record, find_or_alloc, find.
  pose proof (find_slot_spec (matches (key_copy key)) (rl_slots rl)) as Hf.
  destruct (find_slot (matches (key_copy key)) (rl_slots rl)) as [j|].
  { destruct Hf as (s & Hs & [_ Hk]%matches_true). pose proof (Forall_lookup_1 _ _ _ _ Hall Hs) as [_ ?]. done. }
  assert (Hu : Forall (fun s => sl_used s = true) (rl_slots rl))
    by (eapply List.Forall_impl; [|exact Hall]; by intros ? [? _]).
  pose proof (victim_lru (rl_slots rl) 0 None Hu) as Hv.
  destruct (victim_loop 0 None (rl_slots rl)) as [k|]; [|by destruct Hv].
  destruct Hv as [(i & s & -> & Hi & Hmin & _)|[]]. exists i, s. split; [done|]. split; [done|].
  simpl. apply list_eq. intros j. destruct (decide (i = j)) as [<-|Hij].
  - rewrite list_lookup_alter_eq, !list_lookup_insert_eq by (by eapply lookup_lt_Some). done.
  - by rewrite list_lookup_alter_ne, !list_lookup_insert_ne by done.
Qed.

Lemma ratelimit_evicts_lru_witness :
  let rl := mk_ratelimit 5 1000 [mk_slot [97] 0 50 2 true; mk_slot [98] 0 20 1 true] in
  ∃ i s, rl_slots rl !! i = Some s ∧ Forall (fun t => sl_last_ms s <= sl_last_ms t) (rl_slots rl) ∧
    rl_slots (oc_ratelimit_record rl [99] 60) = <[i := mk_slot [99] 60 60 1 true]> (rl_slots rl).
Proof.
  intros rl. apply (ratelimit_evicts_lru rl [99] 60); [|done].
  repeat (apply List.Forall_cons; [by split|]). apply List.Forall_nil.
Defined.
