(* ===== verification/Base64url.v ===== *)
(** * base64url without padding: [daemon/jwt.c]

    [oc_base64url_encode] and [oc_base64url_decode] on lists of bytes; the
    decoder keeps its 32-bit accumulator, of which only the low [bits] bits
    count. *)
From stdpp Require Import base tactics list numbers.
From S2P Require Import Prelude.
Local Open Scope Z_scope.

(** [B64URL[i]]: the 64 digits. *)
Definition B64URL (i : Z) : Z :=
  if i <? 26 then 65 + i else if i <? 52 then 97 + (i - 26) else if i <? 62 then 48 + (i - 52)
  else if i =? 62 then 45 else 95.

Fixpoint oc_base64url_encode (inp : list Z) : list Z :=
  match inp with
  | [] => []
  | a :: rest =>
      let v := u32 (Z.shiftl a 16) in
      match rest with
      | [] => [B64URL (Z.land (Z.shiftr v 18) 63); B64URL (Z.land (Z.shiftr v 12) 63)]
      | b :: rest =>
          let v := Z.lor v (u32 (Z.shiftl b 8)) in
          match rest with
          | [] => [B64URL (Z.land (Z.shiftr v 18) 63); B64URL (Z.land (Z.shiftr v 12) 63);
                   B64URL (Z.land (Z.shiftr v 6) 63)]
          | c :: rest =>
              let v := Z.lor v c in
              B64URL (Z.land (Z.shiftr v 18) 63) :: B64URL (Z.land (Z.shiftr v 12) 63) ::
              B64URL (Z.land (Z.shiftr v 6) 63) :: B64URL (Z.land v 63) :: oc_base64url_encode rest
          end
      end
  end.

Definition b64url_val (c : Z) : Z :=
  if (65 <=? c) && (c <=? 90) then c - 65
  else if (97 <=? c) && (c <=? 122) then c - 97 + 26
  else if (48 <=? c) && (c <=? 57) then c - 48 + 52
  else if c =? 45 then 62
  else if c =? 95 then 63
  else -1.

(** The loop: accumulator, bits in it, room left in the output. *)
Fixpoint b64_loop (inp : list Z) (buf bits room : Z) : option (list Z) :=
  match inp with
  | [] => Some []
  | c :: inp =>
      let v := b64url_val c in
      if v <? 0 then None else
      let buf := Z.lor (u32 (Z.shiftl buf 6)) v in
      let bits := bits + 6 in
      if 8 <=? bits then
        let bits := bits - 8 in
        if room <=? 0 then None
        else out ← b64_loop inp buf bits (room - 1);
             Some (u8 (Z.land (Z.shiftr buf bits) 0xFF) :: out)
      else b64_loop inp buf bits room
  end.
(** [None] is the error return, [Some out] the bytes written. *)
Definition oc_base64url_decode (inp : list Z) (out_cap : Z) : option (list Z) :=
  b64_loop inp 0 0 out_cap.

(** ** Lemmas *)

Lemma b64url_val_digit i : 0 <= i < 64 → b64url_val (B64URL i) = i.
Proof.
  intros Hi. unfold B64URL, b64url_val.
  destruct (Z.ltb_spec i 26); [|destruct (Z.ltb_spec i 52); [|destruct (Z.ltb_spec i 62);
    [|destruct (Z.eqb_spec i 62)]]];
  repeat match goal with |- context [?a <=? ?b] => destruct (Z.leb_spec a b); try lia end; simpl;
  repeat match goal with |- context [?a =? ?b] => destruct (Z.eqb_spec a b); try lia end; lia.
Qed.

Lemma land_ones_mod x n : 0 <= n → Z.land x (2 ^ n - 1) = x mod 2 ^ n.
Proof. intros Hn. rewrite <- Z.land_ones by done. by rewrite Z.ones_equiv. Qed.
Lemma land63 x : Z.land x 63 = x mod 64. Proof. exact (land_ones_mod x 6 ltac:(lia)). Qed.
Lemma land255 x : Z.land x 255 = x mod 256. Proof. exact (land_ones_mod x 8 ltac:(lia)). Qed.

(** One digit shifted into the accumulator. *)
Lemma shift_in buf v : 0 <= v < 64 → Z.lor (u32 (Z.shiftl buf 6)) v = (buf * 64) mod 2 ^ 32 + v.
Proof.
  intros Hv. rewrite Z.shiftl_mul_pow2 by lia. unfold u32. change (2 ^ 6) with 64.
  replace ((buf * 64) mod 2 ^ 32) with ((buf mod 2 ^ 26) * 2 ^ 6).
  - apply (lor_disjoint_add _ _ 6); [lia..|]. by rewrite Z.mod_mul by lia.
  - change (2 ^ 32) with (2 ^ 26 * 64). rewrite Z.mul_mod_distr_r by lia. done.
Qed.

(** A digit step of the loop. *)
Lemma b64_step i inp buf bits room : 0 <= i < 64 →
  b64_loop (B64URL i :: inp) buf bits room =
  let buf := (buf * 64) mod 2 ^ 32 + i in
  if 8 <=? bits + 6 then
    if room <=? 0 then None
    else out ← b64_loop inp buf (bits + 6 - 8) (room - 1);
         Some (Z.shiftr buf (bits + 6 - 8) mod 256 :: out)
  else b64_loop inp buf (bits + 6) room.
Proof.
  intros Hi. cbn [b64_loop]. rewrite b64url_val_digit by done.
  destruct (Z.ltb_spec i 0); [lia|]. rewrite shift_in by done. cbv zeta.
  destruct (8 <=? bits + 6); [|done]. destruct (room <=? 0); [done|].
  rewrite land255. by rewrite u8_id by (unfold is_u8; change (2 ^ 8) with 256; apply Z.mod_pos_bound; lia).
Qed.

Lemma pack1 a : is_u8 a → u32 (Z.shiftl a 16) = a * 65536.
Proof. intros. rewrite Z.shiftl_mul_pow2 by lia. ilia. Qed.
Lemma pack2 a b : is_u8 a → is_u8 b →
  Z.lor (u32 (Z.shiftl a 16)) (u32 (Z.shiftl b 8)) = a * 65536 + b * 256.
Proof.
  intros Ha Hb. rewrite pack1 by done. rewrite Z.shiftl_mul_pow2 by lia.
  replace (u32 (b * 2 ^ 8)) with (b * 256) by ilia.
  apply (lor_disjoint_add _ _ 16); [lia|ilia|]. exact (Z.mod_mul a 65536 ltac:(lia)).
Qed.
Lemma pack3 a b c : is_u8 a → is_u8 b → is_u8 c →
  Z.lor (Z.lor (u32 (Z.shiftl a 16)) (u32 (Z.shiftl b 8))) c = a * 65536 + b * 256 + c.
Proof.
  intros Ha Hb Hc. rewrite pack2 by done.
  apply (lor_disjoint_add _ _ 8); [lia|ilia|].
  replace (a * 65536 + b * 256) with ((a * 256 + b) * 256) by lia. exact (Z.mod_mul _ 256 ltac:(lia)).
Qed.

(** The digits of a packed group. *)
Lemma digits v : Z.land (Z.shiftr v 18) 63 = v / 262144 mod 64 ∧ Z.land (Z.shiftr v 12) 63 = v / 4096 mod 64 ∧
  Z.land (Z.shiftr v 6) 63 = v / 64 mod 64 ∧ Z.land v 63 = v mod 64.
Proof. by rewrite !land63, !Z.shiftr_div_pow2 by lia. Qed.

(** The accumulator modulo its width, as a sum. *)
Lemma acc_sum buf d : ∃ t, (buf * 64) mod 2 ^ 32 + d = buf * 64 + d + 2 ^ 32 * t.
Proof. exists (- (buf * 64 / 2 ^ 32)). pose proof (Z.div_mod (buf * 64) (2 ^ 32)). lia. Qed.
(** The byte above [n] bits, whatever lies above it. *)
Lemma byte_above K a n r : is_u8 a → 0 <= n → 0 <= r < 2 ^ n →
  Z.shiftr ((K * 256 + a) * 2 ^ n + r) n mod 256 = a.
Proof.
  intros Ha Hn Hr. rewrite Z.shiftr_div_pow2 by done. rewrite Z.div_add_l by lia.
  rewrite (Z.div_small r) by done. rewrite Z.add_0_r, Z.add_comm, Z.mod_add by lia.
  apply Z.mod_small. exact Ha.
Qed.

(** One digit of the input, with the number of bits computed. *)
Ltac b64_digit :=
  rewrite b64_step by ilia; cbv zeta;
  match goal with |- context [8 <=? ?e] =>
    let b := eval compute in (8 <=? e) in change (8 <=? e) with b end; cbv iota;
  repeat match goal with |- context [?a + 6 - 8] =>
    let n := eval compute in (a + 6 - 8) in change (a + 6 - 8) with n end;
  repeat match goal with |- context [?a + 6] =>
    let n := eval compute in (a + 6) in change (a + 6) with n end;
  match goal with |- context [(?b * 64) mod 2 ^ 32 + ?d] =>
    let t := fresh "t" in destruct (acc_sum b d) as [t ->] end;
  try match goal with |- context [?r <=? 0] => destruct (Z.leb_spec r 0); [lia|] end.

(** What the decoder makes of each group, whatever the accumulator held. *)
Lemma b64_group1 a buf room : is_u8 a → 0 < room →
  b64_loop (oc_base64url_encode [a]) buf 0 room = Some [a].
Proof.
  intros Ha Hr. cbn [oc_base64url_encode]. rewrite pack1 by done.
  destruct (digits (a * 65536)) as (-> & -> & _ & _).
  replace (a * 65536 / 262144 mod 64) with (a / 4) by ilia.
  replace (a * 65536 / 4096 mod 64) with (a mod 4 * 16) by ilia.
  do 2 b64_digit. cbn [b64_loop mbind option_bind]. f_equal. f_equal.
  match goal with |- Z.shiftr ?x 4 mod 256 = _ =>
    replace x with (((buf + 2 ^ 26 * t + 2 ^ 20 * t0) * 256 + a) * 2 ^ 4 + 0) by ilia end.
  by apply byte_above.
Qed.
Lemma b64_group2 a b buf room : is_u8 a → is_u8 b → 1 < room →
  b64_loop (oc_base64url_encode [a; b]) buf 0 room = Some [a; b].
Proof.
  intros Ha Hb Hr. cbn [oc_base64url_encode]. rewrite pack2 by done.
  destruct (digits (a * 65536 + b * 256)) as (-> & -> & -> & _).
  replace ((a * 65536 + b * 256) / 262144 mod 64) with (a / 4) by ilia.
  replace ((a * 65536 + b * 256) / 4096 mod 64) with (a mod 4 * 16 + b / 16) by ilia.
  replace ((a * 65536 + b * 256) / 64 mod 64) with (b mod 16 * 4) by ilia.
  do 3 b64_digit. cbn [b64_loop mbind option_bind]. f_equal. f_equal; [|f_equal].
  - match goal with |- Z.shiftr ?x 4 mod 256 = _ =>
      replace x with (((buf + 2 ^ 26 * t + 2 ^ 20 * t0) * 256 + a) * 2 ^ 4 + b / 16) by ilia end.
    apply byte_above; [done|lia|ilia].
  - match goal with |- Z.shiftr ?x 2 mod 256 = _ =>
      replace x with (((buf * 2 ^ 8 + 2 ^ 34 * t + 2 ^ 28 * t0 + 2 ^ 22 * t1 + a) * 256 + b) * 2 ^ 2 + 0)
        by ilia end.
    by apply byte_above.
Qed.
Lemma b64_group3 a b c rest buf room : is_u8 a → is_u8 b → is_u8 c → 2 < room →
  ∃ buf', b64_loop (oc_base64url_encode (a :: b :: c :: rest)) buf 0 room
    = out ← b64_loop (oc_base64url_encode rest) buf' 0 (room - 3); Some (a :: b :: c :: out).
Proof.
  intros Ha Hb Hc Hr. cbn [oc_base64url_encode]. rewrite pack3 by done.
  destruct (digits (a * 65536 + b * 256 + c)) as (-> & -> & -> & ->).
  replace ((a * 65536 + b * 256 + c) / 262144 mod 64) with (a / 4) by ilia.
  replace ((a * 65536 + b * 256 + c) / 4096 mod 64) with (a mod 4 * 16 + b / 16) by ilia.
  replace ((a * 65536 + b * 256 + c) / 64 mod 64) with (b mod 16 * 4 + c / 64) by ilia.
  replace ((a * 65536 + b * 256 + c) mod 64) with (c mod 64) by ilia.
  do 4 b64_digit.
  match goal with |- context [b64_loop (oc_base64url_encode rest) ?buf' _ _] => exists buf' end.
  replace (room - 1 - 1 - 1) with (room - 3) by lia.
  destruct (b64_loop (oc_base64url_encode rest) _ 0 (room - 3)) as [out|]; [|done]. cbn [mbind option_bind].
  f_equal. f_equal; [|f_equal; [|f_equal]].
  - match goal with |- Z.shiftr ?x 4 mod 256 = _ =>
      replace x with (((buf + 2 ^ 26 * t + 2 ^ 20 * t0) * 256 + a) * 2 ^ 4 + b / 16) by ilia end.
    apply byte_above; [done|lia|ilia].
  - match goal with |- Z.shiftr ?x 2 mod 256 = _ =>
      replace x with (((buf * 2 ^ 8 + 2 ^ 34 * t + 2 ^ 28 * t0 + 2 ^ 22 * t1 + a) * 256 + b) * 2 ^ 2 + c / 64)
        by ilia end.
    apply byte_above; [done|lia|ilia].
  - match goal with |- Z.shiftr ?x 0 mod 256 = _ =>
      replace x with (((buf * 2 ^ 16 + 2 ^ 42 * t + 2 ^ 36 * t0 + 2 ^ 30 * t1 + 2 ^ 24 * t2 + a * 2 ^ 8 + b) * 256 + c)
        * 2 ^ 0 + 0) by ilia end.
    by apply byte_above.
Qed.

Lemma b64_roundtrip_loop n : ∀ bs buf room, (length bs <= n)%nat → is_bytes bs → zlen bs <= room →
  b64_loop (oc_base64url_encode bs) buf 0 room = Some bs.
Proof.
  induction n as [|n IH]; intros bs buf room Hn Hb Hr.
  { destruct bs; [done|simpl in Hn; lia]. }
  destruct bs as [|a [|b [|c rest]]]; [done|..]; repeat (apply Forall_cons_iff in Hb as [? Hb]);
    rewrite !zlen_cons in Hr.
  - apply b64_group1; [done|]. change (zlen []) with 0 in Hr. lia.
  - apply b64_group2; [done..|]. change (zlen []) with 0 in Hr. lia.
  - pose proof (zlen_nonneg rest). destruct (b64_group3 a b c rest buf room) as [buf' ->]; [done..|lia|].
    simpl in Hn. rewrite (IH rest buf' (room - 3)); [done|lia|done|lia].
Qed.

(** Base64url round-trips.  Decoding what [oc_base64url_encode] wrote gives
    back the bytes, for any byte string, whenever the output buffer holds them. *)
Theorem base64url_roundtrip bs cap :
  is_bytes bs → zlen bs <= cap → oc_base64url_decode (oc_base64url_encode bs) cap = Some bs.
Proof. intros Hb Hz. by apply (b64_roundtrip_loop (length bs)). Qed.

Lemma base64url_roundtrip_witness :
  oc_base64url_decode (oc_base64url_encode [0; 255; 16; 131]) 4 = Some [0; 255; 16; 131].
Proof. apply (base64url_roundtrip [0; 255; 16; 131] 4); [repeat constructor; lia|by vm_compute]. Defined.
