(* ===== verification/Devicecodes.v ===== *)
(** * Device codes, RFC 8628: [daemon/devicecodes.c]

    The table of pending requests with its operations as the code has them.
    Strings are the bytes before their NUL and a null pointer is [None].  The
    hash [oc_sha256] (mbedtls) and the outcome of each [oc_rand_bytes] are
    parameters.

    The last section is the state machine: [reachable] tables under any
    sequence of operations, and the invariant they keep. *)
From stdpp Require Import base tactics list numbers.
From S2P Require Import Prelude Base64url.
Local Open Scope Z_scope.

Definition OC_DEVICE_TTL_MS : Z := 600000.
Definition OC_DEVICE_INTERVAL_S : Z := 5.
Definition OC_DEVICE_MAX : nat := 256.
Definition OC_DEVICE_PER_SOURCE : nat := 5.

(** ["BCDFGHJKLMNPQRSTVWXZ"]. *)
Definition ALPHA : list Z :=
  [66; 67; 68; 70; 71; 72; 74; 75; 76; 77; 78; 80; 81; 82; 83; 84; 86; 87; 88; 90].

Inductive dstate := ST_FREE | ST_PENDING | ST_APPROVED | ST_DENIED.
#[export] Instance dstate_eq_dec : EqDecision dstate.
Proof. solve_decision. Defined.

Record dentry := mk_dentry {
  de_st : dstate;
  de_secret_hash : list Z;
  de_user_code : list Z;
  de_challenge : list Z;
  de_source : list Z;
  de_addr : list Z;
  de_created_ms : Z;
  de_expires_ms : Z;
  de_last_poll_ms : Z;
  de_interval_s : Z;
  de_token : option (list Z) }.

Record oc_devcodes := mk_devcodes {
  dc_e : list dentry;
  dc_ttl_ms : Z;
  dc_interval_s : Z }.

(** [memset(x, 0, sizeof *x)], the token freed. *)
Definition clear : dentry := mk_dentry ST_FREE [] [] [] [] [] 0 0 0 0 None.

Definition oc_devcodes_new : oc_devcodes :=
  mk_devcodes (replicate OC_DEVICE_MAX clear) OC_DEVICE_TTL_MS OC_DEVICE_INTERVAL_S.

Definition oc_devcodes_set_ttl (ms : Z) (d : oc_devcodes) : oc_devcodes :=
  mk_devcodes (dc_e d) (if ms =? 0 then OC_DEVICE_TTL_MS else ms) (dc_interval_s d).
Definition oc_devcodes_set_interval (s : Z) (d : oc_devcodes) : oc_devcodes :=
  mk_devcodes (dc_e d) (dc_ttl_ms d) (if s =? 0 then OC_DEVICE_INTERVAL_S else s).
Definition oc_devcodes_interval (d : option oc_devcodes) : Z :=
  match d with Some d => dc_interval_s d | None => OC_DEVICE_INTERVAL_S end.

Definition with_entries (d : oc_devcodes) (e : list dentry) : oc_devcodes :=
  mk_devcodes e (dc_ttl_ms d) (dc_interval_s d).

(** Entries that are not free. *)
Definition live (x : dentry) : bool := negb (bool_decide (de_st x = ST_FREE)).

Definition sweep_entry (now : Z) (x : dentry) : dentry :=
  if live x && (de_expires_ms x <=? now) then clear else x.
Definition sweep (now : Z) (d : oc_devcodes) : oc_devcodes :=
  with_entries d (sweep_entry now <$> dc_e d).

(** The loop of [oc_user_code_normalise]: [k] is the letters so far. *)
Fixpoint normalise_loop (typed k : list Z) : option (list Z) :=
  match typed with
  | [] => if (length k =? 8)%nat then Some k else None
  | c :: typed =>
      if (c =? 45) || (c =? 32) then normalise_loop typed k
      else
        let c := if (97 <=? c) && (c <=? 122) then c - 97 + 65 else c in
        if negb (bool_decide (c ∈ ALPHA)) || (c =? 0) || (length k =? 8)%nat then None
        else normalise_loop typed (k ++ [c])
  end.
(** ["%.4s-%.4s"]. *)
Definition format_code (k : list Z) : list Z := take 4 k ++ [45] ++ take 4 (drop 4 k).
(** [None] is the return -1. *)
Definition oc_user_code_normalise (typed : option (list Z)) : option (list Z) :=
  format_code <$> normalise_loop (default [] typed) [].

(** The index of the first entry that satisfies [p]. *)
Fixpoint find_entry (p : dentry → bool) (l : list dentry) : option nat :=
  match l with
  | [] => None
  | x :: l => if p x then Some O else S <$> find_entry p l
  end.

Definition is_source (source : list Z) (x : dentry) : bool :=
  live x && bool_decide (de_source x = source).
Definition is_user (code : list Z) (x : dentry) : bool := live x && bool_decide (de_user_code x = code).
Definition by_user (d : oc_devcodes) (code : list Z) : option nat := find_entry (is_user code) (dc_e d).

(** [snprintf] into an array of [size]. *)
Definition copy_str (size : Z) (s : list Z) : list Z := ztake (size - 1) s.

Inductive dev_poll :=
  | OC_DEV_PENDING (interval_s : Z)
  | OC_DEV_SLOW (interval_s : Z)
  | OC_DEV_GONE
  | OC_DEV_DENIED
  | OC_DEV_TOKEN (token : list Z).

Record oc_dev_info := mk_dev_info {
  di_user_code : list Z;
  di_challenge : list Z;
  di_addr : list Z;
  di_created_ms : Z }.

(** What one call of [begin] draws: eight bytes for each try at a user code,
    32 for the secret; [None] is a failing [oc_rand_bytes]. *)
Record draws := mk_draws { rand_code : nat → option (list Z); rand_secret : option (list Z) }.

Definition code_of_bytes (r : list Z) : list Z :=
  format_code ((fun b => nth (Z.to_nat (b mod 20)) ALPHA 0) <$> take 8 r).

Section Devicecodes.
Context (sha256 : list Z → option (list Z)).

(** [for (int tries = 0; ; tries++)], which gives up at the eighth. *)
Fixpoint pick_code (n : nat) (tries : nat) (rnd : draws) (d : oc_devcodes) : option (list Z) :=
  match n with
  | O => None
  | S n =>
      r ← rand_code rnd tries;
      let user_code := code_of_bytes r in
      match by_user d user_code with
      | Some _ => pick_code n (S tries) rnd d
      | None => Some user_code
      end
  end.

(** [inl rc], or the device code and the user code. *)
Definition oc_devcodes_begin (rnd : draws) (source addr challenge : option (list Z)) (now_ms : Z)
    (d : oc_devcodes) : (Z + (list Z * list Z)) * oc_devcodes :=
  let d := sweep now_ms d in
  let slot := find_entry (fun x => negb (live x)) (dc_e d) in
  let from_source :=
    countb (is_source (default [] source)) (dc_e d) in
  if (OC_DEVICE_PER_SOURCE <=? from_source)%nat then (inl (-2), d) else
  match slot, challenge with
  | Some i, Some challenge =>
      if 48 <=? zlen challenge then (inl (-1), d) else
      match pick_code 8 0 rnd d, rand_secret rnd with
      | Some user_code, Some secret =>
          let device_code := oc_base64url_encode secret in
          match sha256 device_code with
          | Some h =>
              (inr (device_code, user_code),
               with_entries d (<[i := mk_dentry ST_PENDING h user_code challenge
                 (copy_str 46 (default [] source)) (copy_str 46 (default [] addr))
                 now_ms (u64 (now_ms + dc_ttl_ms d)) 0 (dc_interval_s d) None]> (dc_e d)))
          | None => (inl (-1), with_entries d (<[i := clear]> (dc_e d)))
          end
      | _, _ => (inl (-1), d)
      end
  | _, _ => (inl (-1), d)
  end.

Definition is_secret (h : list Z) (x : dentry) : bool := live x && bool_decide (de_secret_hash x = h).

Definition poll_slow (now_ms : Z) (x : dentry) : bool :=
  negb (de_last_poll_ms x =? 0) &&
  (now_ms <? u64 (de_last_poll_ms x + u64 (de_interval_s x * 1000))).
Definition poll_entry (now_ms : Z) (x : dentry) : dentry :=
  mk_dentry (de_st x) (de_secret_hash x) (de_user_code x) (de_challenge x) (de_source x) (de_addr x)
    (de_created_ms x) (de_expires_ms x) now_ms
    (if poll_slow now_ms x then u32 (de_interval_s x + 5) else de_interval_s x) (de_token x).

Definition oc_devcodes_poll (device_code : option (list Z)) (now_ms : Z) (d : oc_devcodes)
    : dev_poll * oc_devcodes :=
  let d := sweep now_ms d in
  match device_code ≫= sha256 with
  | None => (OC_DEV_GONE, d)
  | Some h =>
      match find_entry (is_secret h) (dc_e d) with
      | None => (OC_DEV_GONE, d)
      | Some i =>
          let x := nth i (dc_e d) clear in
          match de_st x with
          | ST_DENIED => (OC_DEV_DENIED, with_entries d (<[i := clear]> (dc_e d)))
          | ST_APPROVED =>
              (OC_DEV_TOKEN (default [] (de_token x)), with_entries d (<[i := clear]> (dc_e d)))
          | _ =>
              let x' := poll_entry now_ms x in
              (if poll_slow now_ms x then OC_DEV_SLOW (de_interval_s x')
               else OC_DEV_PENDING (de_interval_s x'),
               with_entries d (<[i := x']> (dc_e d)))
          end
      end
  end.

Definition oc_devcodes_find (typed : option (list Z)) (now_ms : Z) (d : oc_devcodes)
    : option oc_dev_info * oc_devcodes :=
  let d := sweep now_ms d in
  (code ← oc_user_code_normalise typed;
   i ← by_user d code;
   let x := nth i (dc_e d) clear in
   if bool_decide (de_st x = ST_PENDING)
   then Some (mk_dev_info (de_user_code x) (de_challenge x) (de_addr x) (de_created_ms x))
   else None, d).

Definition set_state (st : dstate) (token : option (list Z)) (x : dentry) : dentry :=
  mk_dentry st (de_secret_hash x) (de_user_code x) (de_challenge x) (de_source x) (de_addr x)
    (de_created_ms x) (de_expires_ms x) (de_last_poll_ms x) (de_interval_s x) token.

Definition pending_user (d : oc_devcodes) (user_code : option (list Z)) : option nat :=
  code ← user_code;
  i ← by_user d code;
  if bool_decide (de_st (nth i (dc_e d) clear) = ST_PENDING) then Some i else None.

(** [dup] is whether the [strdup] found memory. *)
Definition oc_devcodes_approve (dup : bool) (user_code token : option (list Z)) (now_ms : Z)
    (d : oc_devcodes) : Z * oc_devcodes :=
  let d := sweep now_ms d in
  match pending_user d user_code, token with
  | Some i, Some token =>
      let x := nth i (dc_e d) clear in
      if dup then (0, with_entries d (<[i := set_state ST_APPROVED (Some token) x]> (dc_e d)))
      else (-1, with_entries d (<[i := set_state (de_st x) None x]> (dc_e d)))
  | _, _ => (-1, d)
  end.

Definition oc_devcodes_deny (user_code : option (list Z)) (now_ms : Z) (d : oc_devcodes)
    : Z * oc_devcodes :=
  let d := sweep now_ms d in
  match pending_user d user_code with
  | Some i =>
      let x := nth i (dc_e d) clear in
      (0, with_entries d (<[i := set_state ST_DENIED (de_token x) x]> (dc_e d)))
  | None => (-1, d)
  end.
End Devicecodes.

(** ** Searching and counting in the table *)

Lemma find_entry_Some p l i :
  find_entry p l = Some i → ∃ x, l !! i = Some x ∧ nth i l clear = x ∧ p x = true.
Proof.
  revert i; induction l as [|x l IH]; intros i; [done|]. simpl.
  destruct (p x) eqn:E; [intros; simplify_eq; eauto|].
  destruct (find_entry p l) as [j|]; [|done]. intros; simplify_eq/=. eauto.
Qed.

Lemma find_entry_None p l : find_entry p l = None ↔ countb p l = 0%nat.
Proof.
  unfold countb. induction l as [|x l IH]; [done|]. simpl.
  destruct (p x); [split; [done|simpl; lia]|].
  rewrite <- IH. destruct (find_entry p l); done.
Qed.

(** Exactly one match: the search finds it wherever it is. *)
Lemma find_entry_unique p l i x :
  countb p l = 1%nat → l !! i = Some x → p x = true → find_entry p l = Some i.
Proof.
  intros Hc Hi Hp. revert i Hc Hi; induction l as [|z l IH]; intros [|i] Hc Hi; simplify_eq/=.
  - by rewrite Hp.
  - unfold countb in Hc. simpl in Hc. destruct (p z) eqn:E.
    + pose proof (countb_pos p l i x Hi Hp). unfold countb in *. simpl in Hc. lia.
    + by rewrite (IH i Hc Hi).
Qed.

Lemma live_clear : live clear = false. Proof. done. Qed.

Lemma sweep_entry_cases now x :
  sweep_entry now x = clear ∨ (sweep_entry now x = x ∧ (live x = true → now < de_expires_ms x)).
Proof.
  unfold sweep_entry. destruct (live x), (Z.leb_spec (de_expires_ms x) now); simpl; auto with lia.
Qed.

Lemma sweep_count now d p :
  p clear = false → (countb p (dc_e (sweep now d)) <= countb p (dc_e d))%nat.
Proof.
  intros Hc. apply countb_fmap_le. intros x.
  destruct (sweep_entry_cases now x) as [->|[-> _]]; congruence.
Qed.

(** Nothing that is live after a sweep has expired. *)
Lemma sweep_lookup now d i x :
  dc_e (sweep now d) !! i = Some x → live x = true → dc_e d !! i = Some x ∧ now < de_expires_ms x.
Proof.
  simpl. rewrite list_lookup_fmap. destruct (dc_e d !! i) as [y|] eqn:E; [|done]. simpl.
  intros [= <-] Hl. destruct (sweep_entry_cases now y) as [Hs|[Hs Hx]]; rewrite Hs in *; auto.
  by rewrite live_clear in Hl.
Qed.

Lemma sweep_keeps now d i x :
  dc_e d !! i = Some x → now < de_expires_ms x → dc_e (sweep now d) !! i = Some x.
Proof.
  intros H Hlt. simpl. rewrite list_lookup_fmap, H. simpl. f_equal. unfold sweep_entry.
  destruct (Z.leb_spec (de_expires_ms x) now); [lia|]. by rewrite andb_false_r.
Qed.

(** ** User codes *)

(** The letters a person typed: separators dropped, in upper case. *)
Definition is_sep (c : Z) : bool := (c =? 45) || (c =? 32).
Definition upper (c : Z) : Z := if (97 <=? c) && (c <=? 122) then c - 97 + 65 else c.
Definition letters (typed : list Z) : list Z := upper <$> List.filter (fun c => negb (is_sep c)) typed.
#[global] Arguments letters : simpl never.
#[global] Arguments format_code : simpl never.
Definition is_code (k : list Z) : bool :=
  forallb (fun c => bool_decide (c ∈ ALPHA)) k && (length k =? 8)%nat.

Lemma letters_cons c l : letters (c :: l) = if is_sep c then letters l else upper c :: letters l.
Proof. unfold letters. simpl. by destruct (is_sep c). Qed.

Lemma alpha_nz c : c ∈ ALPHA → (c =? 0) = false.
Proof. unfold ALPHA. rewrite !elem_of_cons, elem_of_nil. lia. Qed.

Lemma normalise_loop_spec typed : ∀ k,
  (length k <= 8)%nat →
  normalise_loop typed k =
    if forallb (fun c => bool_decide (c ∈ ALPHA)) (letters typed)
       && (length k + length (letters typed) =? 8)%nat
    then Some (k ++ letters typed) else None.
Proof.
  induction typed as [|c typed IH]; intros k Hk; cbn [normalise_loop].
  { cbn. rewrite Nat.add_0_r, app_nil_r. by destruct (_ =? _)%nat. }
  fold (is_sep c). fold (upper c). rewrite letters_cons.
  destruct (is_sep c); [by apply IH|]. cbn [forallb length]. cbv zeta. case_bool_decide as Ha; [|done].
  rewrite (alpha_nz _ Ha). cbn [negb orb andb]. destruct (Nat.eqb_spec (length k) 8) as [H8|H8].
  - rewrite (proj2 (Nat.eqb_neq _ 8)) by lia. by rewrite andb_false_r.
  - rewrite IH by (rewrite length_app; simpl; lia). rewrite length_app.
    rewrite <- !app_assoc. cbn [length app]. by replace (length k + 1 + length (letters typed))%nat
      with (length k + S (length (letters typed)))%nat by lia.
Qed.

Lemma normalise_spec typed :
  oc_user_code_normalise typed =
    let k := letters (default [] typed) in if is_code k then Some (format_code k) else None.
Proof.
  unfold oc_user_code_normalise, is_code. rewrite normalise_loop_spec by (simpl; lia). cbn.
  by destruct (_ && _).
Qed.

Lemma upper_alpha c : c ∈ ALPHA → upper c = c ∧ is_sep c = false.
Proof. unfold ALPHA, upper, is_sep. rewrite !elem_of_cons, elem_of_nil. intros. by destruct_or!; subst. Qed.

Lemma letters_alpha k : Forall (.∈ ALPHA) k → letters k = k.
Proof.
  induction 1 as [|c k Hc _ IH]; [done|]. destruct (upper_alpha c Hc) as [Hu Hs].
  by rewrite letters_cons, Hs, Hu, IH.
Qed.

Lemma letters_app a b : letters (a ++ b) = letters a ++ letters b.
Proof. unfold letters. by rewrite List.filter_app, fmap_app. Qed.

Lemma is_code_spec k : is_code k = true ↔ Forall (.∈ ALPHA) k ∧ length k = 8%nat.
Proof.
  unfold is_code. rewrite andb_true_iff, Nat.eqb_eq, forallb_forall, List.Forall_forall.
  by setoid_rewrite bool_decide_eq_true.
Qed.

Lemma letters_format k : is_code k = true → letters (format_code k) = k.
Proof.
  rewrite is_code_spec. intros [Ha Hl]. unfold format_code.
  rewrite (take_ge (drop 4 k)) by (rewrite length_drop; lia). rewrite !letters_app.
  rewrite (letters_alpha (take 4 k)), (letters_alpha (drop 4 k)) by auto using Forall_take, Forall_drop.
  apply take_drop.
Qed.

Lemma length_format k : is_code k = true → length (format_code k) = 9%nat.
Proof.
  rewrite is_code_spec. intros [_ Hl]. unfold format_code.
  rewrite !length_app, !length_take, length_drop, Hl. done.
Qed.

(** What is stored is a code: eight letters of the alphabet as [XXXX-XXXX]. *)
Definition stored_code (c : list Z) : Prop := ∃ k, is_code k = true ∧ c = format_code k.

Lemma alpha_nth n : (n < 20)%nat → nth n ALPHA 0 ∈ ALPHA.
Proof. intros. apply list_elem_of_In, nth_In. done. Qed.

Lemma code_of_bytes_stored r : (8 <= length r)%nat → stored_code (code_of_bytes r).
Proof.
  intros Hr. eexists; split; [|done]. apply is_code_spec. split.
  - apply Forall_fmap, List.Forall_forall. intros b _. simpl. apply alpha_nth. zlia.
  - rewrite length_fmap, length_take. lia.
Qed.

(** What a person types for a code finds it in whatever form: the typed
    string is accepted exactly when its letters, upper-cased and without
    dashes and spaces, are eight letters of the alphabet, the result is the
    stored form of those letters, and normalising a stored form changes
    nothing (every code the daemon draws is one). *)
Theorem user_code_normalised :
  (∀ typed out, oc_user_code_normalise typed = Some out ↔
     is_code (letters (default [] typed)) = true ∧ out = format_code (letters (default [] typed))) ∧
  (∀ typed out, oc_user_code_normalise typed = Some out → oc_user_code_normalise (Some out) = Some out) ∧
  (∀ r, length r = 8%nat → oc_user_code_normalise (Some (code_of_bytes r)) = Some (code_of_bytes r)).
Proof.
  assert (∀ c, stored_code c → oc_user_code_normalise (Some c) = Some c) as Hs.
  { intros c (k & Hk & ->). rewrite normalise_spec. cbn. by rewrite letters_format, Hk. }
  assert (∀ typed out, oc_user_code_normalise typed = Some out ↔
     is_code (letters (default [] typed)) = true ∧ out = format_code (letters (default [] typed))) as H1.
  { intros typed out. rewrite normalise_spec. cbn. destruct (is_code _).
    - split; [by intros [= <-]|by intros [_ ->]].
    - split; [done|by intros [? _]]. }
  split_and!; [exact H1| |].
  - intros typed out [Hc ->]%H1. apply Hs. by eexists.
  - intros r Hr. apply Hs, code_of_bytes_stored. lia.
Qed.

(** ** The state machine

    A [run] is a table with the history that led to it, newest event first:
    what [begin] issued and until when it is good, what the page answered and
    what the polls collected.  A source is what [oc_source_key] wrote into its
    46-byte array; the draws of [oc_rand_bytes] have the length asked for. *)

Inductive event :=
  | Begun (device_code user_code : list Z) (expires : Z)
  | Approved (user_code token : list Z)
  | Collected (device_code token : list Z).

Definition draws_ok (rnd : draws) : Prop :=
  ∀ n r, rand_code rnd n = Some r → length r = 8%nat.

Section Machine.
Context (sha256 : list Z → option (list Z)).

Definition begin_events (r : Z + (list Z * list Z)) (now ttl : Z) : list event :=
  match r with inr (dc, uc) => [Begun dc uc (u64 (now + ttl))] | inl _ => [] end.
Definition approve_events (rc : Z) (uc token : option (list Z)) : list event :=
  if rc =? 0 then [Approved (default [] uc) (default [] token)] else [].
Definition poll_events (dc : option (list Z)) (r : dev_poll) : list event :=
  match r with OC_DEV_TOKEN t => [Collected (default [] dc) t] | _ => [] end.

Inductive run : oc_devcodes → list event → Prop :=
  | run_new : run oc_devcodes_new []
  | run_set_ttl d tr ms : run d tr → run (oc_devcodes_set_ttl ms d) tr
  | run_set_interval d tr s : run d tr → run (oc_devcodes_set_interval s d) tr
  | run_begin d tr rnd source addr challenge now r d' :
      run d tr → draws_ok rnd → zlen (default [] source) <= 45 →
      oc_devcodes_begin sha256 rnd source addr challenge now d = (r, d') →
      run d' (begin_events r now (dc_ttl_ms d) ++ tr)
  | run_poll d tr device_code now r d' :
      run d tr → oc_devcodes_poll sha256 device_code now d = (r, d') →
      run d' (poll_events device_code r ++ tr)
  | run_find d tr typed now r d' :
      run d tr → oc_devcodes_find typed now d = (r, d') → run d' tr
  | run_approve d tr dup user_code token now rc d' :
      run d tr → oc_devcodes_approve dup user_code token now d = (rc, d') →
      run d' (approve_events rc user_code token ++ tr)
  | run_deny d tr user_code now rc d' :
      run d tr → oc_devcodes_deny user_code now d = (rc, d') → run d' tr.

(** Where a live entry comes from: a [Begun] of the history with its hash,
    code and expiry, and an [Approved] after that if it holds a token. *)
Definition sourced (tr : list event) (x : dentry) : Prop :=
  ∃ tr1 dc tr2, tr = tr1 ++ Begun dc (de_user_code x) (de_expires_ms x) :: tr2 ∧
    sha256 dc = Some (de_secret_hash x) ∧
    (∀ t, de_token x = Some t → Approved (de_user_code x) t ∈ tr1).

Definition entry_ok (tr : list event) (x : dentry) : Prop :=
  if live x
  then (de_st x = ST_APPROVED ↔ is_Some (de_token x)) ∧ stored_code (de_user_code x) ∧
       zlen (de_challenge x) <= 47 ∧ zlen (de_source x) <= 45 ∧ zlen (de_addr x) <= 45 ∧
       sourced tr x
  else x = clear.

Definition begun (h : list Z) (e : event) : bool :=
  match e with Begun dc _ _ => bool_decide (sha256 dc = Some h) | _ => false end.
Definition collected (h : list Z) (e : event) : bool :=
  match e with Collected dc _ => bool_decide (sha256 dc = Some h) | _ => false end.

Record table_ok (d : oc_devcodes) (tr : list event) : Prop := {
  ok_length : length (dc_e d) = OC_DEVICE_MAX;
  ok_entry : ∀ i x, dc_e d !! i = Some x → entry_ok tr x;
  ok_codes : ∀ c, (countb (is_user c) (dc_e d) <= 1)%nat;
  ok_sources : ∀ s, (countb (is_source s) (dc_e d) <= OC_DEVICE_PER_SOURCE)%nat;
  ok_hashes : ∀ h, (countb (is_secret h) (dc_e d) + countb (collected h) tr
                    <= countb (begun h) tr)%nat }.

Lemma entry_ok_mono evs tr x : entry_ok tr x → entry_ok (evs ++ tr) x.
Proof.
  unfold entry_ok. destruct (live x); [|done].
  intros (? & ? & ? & ? & ? & tr1 & dc & tr2 & -> & Hh & Ht). split_and!; try done.
  exists (evs ++ tr1), dc, tr2. rewrite <- app_assoc. split_and!; [done..|].
  intros t Hx. apply elem_of_app. eauto.
Qed.

Lemma entry_ok_clear tr : entry_ok tr clear. Proof. done. Qed.

Lemma table_ok_sweep now d tr : table_ok d tr → table_ok (sweep now d) tr.
Proof.
  intros [Hl He Hc Hs Hh]. split.
  - simpl. by rewrite length_fmap.
  - intros i x. simpl. rewrite list_lookup_fmap. destruct (dc_e d !! i) as [y|] eqn:E; [|done].
    simpl. intros [= <-]. destruct (sweep_entry_cases now y) as [->|[-> _]]; eauto using entry_ok_clear.
  - intros c. pose proof (sweep_count now d (is_user c) eq_refl). specialize (Hc c). lia.
  - intros s. pose proof (sweep_count now d (is_source s) eq_refl). specialize (Hs s). lia.
  - intros h. pose proof (sweep_count now d (is_secret h) eq_refl). specialize (Hh h). lia.
Qed.

(** Replacing entry [x] by [y], with what the history gains. *)
Lemma table_ok_insert d tr evs i x y :
  table_ok d tr → dc_e d !! i = Some x → entry_ok (evs ++ tr) y →
  (∀ c, (countb (is_user c) (dc_e d) + Nat.b2n (is_user c y) <= 1 + Nat.b2n (is_user c x))%nat) →
  (∀ s, (countb (is_source s) (dc_e d) + Nat.b2n (is_source s y)
         <= OC_DEVICE_PER_SOURCE + Nat.b2n (is_source s x))%nat) →
  (∀ h, (Nat.b2n (is_secret h y) + countb (collected h) evs
         <= Nat.b2n (is_secret h x) + countb (begun h) evs)%nat) →
  table_ok (with_entries d (<[i := y]> (dc_e d))) (evs ++ tr).
Proof.
  intros [Hl He _ _ Hh] Hi Hy Hc Hs Hh'. split; simpl.
  - by rewrite length_insert.
  - intros j z. destruct (decide (i = j)) as [<-|Hij].
    + rewrite list_lookup_insert_eq by (by eapply lookup_lt_Some). by intros [= <-].
    + rewrite list_lookup_insert_ne by done. eauto using entry_ok_mono.
  - intros c. pose proof (countb_insert (is_user c) _ i x y Hi). specialize (Hc c). lia.
  - intros s. pose proof (countb_insert (is_source s) _ i x y Hi). specialize (Hs s). lia.
  - intros h. pose proof (countb_insert (is_secret h) _ i x y Hi).
    specialize (Hh h). specialize (Hh' h). rewrite !countb_app. lia.
Qed.

(** What identifies an entry: its liveness, code, source and hash. *)
Definition same_id (x y : dentry) : Prop :=
  live y = live x ∧ de_user_code y = de_user_code x ∧ de_source y = de_source x ∧
  de_secret_hash y = de_secret_hash x.

Definition quiet (evs : list event) : Prop :=
  ∀ h, countb (collected h) evs = 0%nat ∧ countb (begun h) evs = 0%nat.
Lemma quiet_nil : quiet []. Proof. done. Qed.
Lemma quiet_approved uc t : quiet [Approved uc t]. Proof. done. Qed.

Lemma table_ok_update d tr evs i x y :
  table_ok d tr → dc_e d !! i = Some x → entry_ok (evs ++ tr) y → same_id x y → quiet evs →
  table_ok (with_entries d (<[i := y]> (dc_e d))) (evs ++ tr).
Proof.
  intros H Hi Hy (H1 & H2 & H3 & H4) Hq. apply table_ok_insert with (x := x); try done.
  - intros c. unfold is_user at 2 3. rewrite H1, H2. pose proof (ok_codes _ _ H c). lia.
  - intros s. unfold is_source at 2 3. rewrite H1, H3. pose proof (ok_sources _ _ H s). lia.
  - intros h. unfold is_secret. rewrite H1, H4. destruct (Hq h). lia.
Qed.

Lemma table_ok_clear d tr evs i x :
  table_ok d tr → dc_e d !! i = Some x →
  (∀ h, (countb (collected h) evs <= Nat.b2n (is_secret h x) + countb (begun h) evs)%nat) →
  table_ok (with_entries d (<[i := clear]> (dc_e d))) (evs ++ tr).
Proof.
  intros H Hi Hh. apply table_ok_insert with (x := x); try done.
  - intros c. pose proof (ok_codes _ _ H c). change (is_user c clear) with false. cbn [Nat.b2n]. lia.
  - intros s. pose proof (ok_sources _ _ H s). change (is_source s clear) with false. cbn [Nat.b2n]. lia.
Qed.

(** *** Each operation keeps the invariant *)

Lemma entry_ok_live tr x : entry_ok tr x → live x = true →
  (de_st x = ST_APPROVED ↔ is_Some (de_token x)) ∧ stored_code (de_user_code x) ∧
  zlen (de_challenge x) <= 47 ∧ zlen (de_source x) <= 45 ∧ zlen (de_addr x) <= 45 ∧ sourced tr x.
Proof. unfold entry_ok. by destruct (live x). Qed.

Lemma b2n_and_r a b : (Nat.b2n (a && b) <= Nat.b2n b)%nat.
Proof. by destruct a, b; simpl; lia. Qed.

Lemma live_st x : live x = true ↔ de_st x ≠ ST_FREE.
Proof. unfold live. case_bool_decide; simpl; naive_solver. Qed.

Lemma free_slot d tr i :
  table_ok d tr → find_entry (fun x => negb (live x)) (dc_e d) = Some i → dc_e d !! i = Some clear.
Proof.
  intros H (x & Hi & _ & Hx)%find_entry_Some. pose proof (ok_entry _ _ H i x Hi) as He.
  unfold entry_ok in He. apply negb_true_iff in Hx. by rewrite Hx in He; subst.
Qed.

Lemma pick_code_fresh n tries rnd d c :
  draws_ok rnd → pick_code n tries rnd d = Some c →
  stored_code c ∧ countb (is_user c) (dc_e d) = 0%nat.
Proof.
  intros Hr. revert tries; induction n as [|n IH]; intros tries; [done|]. simpl.
  destruct (rand_code rnd tries) as [r|] eqn:Er; [|done]. simpl.
  destruct (by_user d (code_of_bytes r)) eqn:Eb; [apply IH|].
  intros [= <-]. split; [|by apply find_entry_None].
  apply code_of_bytes_stored. rewrite (Hr _ _ Er). lia.
Qed.

Lemma zlen_copy_str n s : 1 <= n → zlen (copy_str n s) <= n - 1.
Proof. intros. unfold copy_str, zlen, ztake. rewrite length_take. lia. Qed.
Lemma copy_str_id n s : zlen s <= n - 1 → copy_str n s = s.
Proof. apply ztake_all. Qed.

Lemma table_ok_begin d tr rnd source addr challenge now r d' :
  table_ok d tr → draws_ok rnd → zlen (default [] source) <= 45 →
  oc_devcodes_begin sha256 rnd source addr challenge now d = (r, d') →
  table_ok d' (begin_events r now (dc_ttl_ms d) ++ tr).
Proof.
  intros H Hr Hsrc. apply (table_ok_sweep now) in H. unfold oc_devcodes_begin.
  change (dc_ttl_ms d) with (dc_ttl_ms (sweep now d)). revert H.
  generalize (sweep now d) as s. clear d. intros s H. cbv zeta.
  destruct (Nat.leb_spec OC_DEVICE_PER_SOURCE (countb (is_source (default [] source)) (dc_e s)))
    as [|Hlt]; [by intros [= <- <-]|].
  destruct (find_entry _ _) as [i|] eqn:Hslot; [|by intros [= <- <-]].
  apply (free_slot _ tr) in Hslot; [|done].
  destruct challenge as [chal|]; [|by intros [= <- <-]].
  destruct (Z.leb_spec 48 (zlen chal)); [by intros [= <- <-]|].
  destruct (pick_code _ _ _ _) as [uc|] eqn:Hpick; [|by intros [= <- <-]].
  apply pick_code_fresh in Hpick as [Hst Hfresh]; [|done].
  destruct (rand_secret rnd) as [secret|]; [|by intros [= <- <-]].
  destruct (sha256 (oc_base64url_encode secret)) as [h|] eqn:Hh; intros [= <- <-].
  - apply table_ok_insert with (x := clear); try done.
    + unfold entry_ok. cbn. split_and!; try done; try (by apply zlen_copy_str); try lia; try (by intros []).
      eexists [], _, tr. by split_and!.
    + intros c. unfold is_user at 2. etrans; [apply Nat.add_le_mono_l, b2n_and_r|]. cbn.
      case_bool_decide as Hc; cbn; [subst; lia|]. pose proof (ok_codes _ _ H c). lia.
    + intros s'. unfold is_source at 2. etrans; [apply Nat.add_le_mono_l, b2n_and_r|]. cbn.
      rewrite copy_str_id by lia. pose proof (ok_sources _ _ H s'). unfold OC_DEVICE_PER_SOURCE in *.
      case_bool_decide as Hc; cbn; [subst|]; lia.
    + intros h'. unfold is_secret. etrans; [apply Nat.add_le_mono_r, b2n_and_r|]. unfold countb. cbn.
      rewrite Hh. repeat case_bool_decide; cbn; try lia; congruence.
  - by apply (table_ok_clear _ _ []) with (x := clear).
Qed.

(** An update that keeps state, token and identity keeps [entry_ok]. *)
Lemma entry_ok_same tr x y :
  entry_ok tr x → live x = true → same_id x y → de_st y = de_st x → de_token y = de_token x →
  de_challenge y = de_challenge x → de_addr y = de_addr x → de_expires_ms y = de_expires_ms x →
  entry_ok tr y.
Proof.
  intros Hx Hl (H1 & H2 & H3 & H4) H5 H6 H7 H8 H9. unfold entry_ok in *. rewrite H1, Hl in *.
  unfold sourced in *. by rewrite H2, H3, H4, H5, H6, H7, H8, H9.
Qed.

Lemma found_secret s tr h i :
  table_ok s tr → find_entry (is_secret h) (dc_e s) = Some i →
  ∃ x, dc_e s !! i = Some x ∧ nth i (dc_e s) clear = x ∧ live x = true ∧ de_secret_hash x = h ∧
    entry_ok tr x.
Proof.
  intros H (x & Hi & Hn & Hx)%find_entry_Some. unfold is_secret in Hx.
  apply andb_true_iff in Hx as [Hl Hx%bool_decide_eq_true]. eauto 10 using ok_entry.
Qed.

Lemma table_ok_poll d tr device_code now r d' :
  table_ok d tr → oc_devcodes_poll sha256 device_code now d = (r, d') →
  table_ok d' (poll_events device_code r ++ tr).
Proof.
  intros H. apply (table_ok_sweep now) in H. unfold oc_devcodes_poll. revert H.
  generalize (sweep now d) as s. clear d. intros s H. cbv zeta.
  destruct device_code as [dc|]; simpl; [|by intros [= <- <-]].
  destruct (sha256 dc) as [h|] eqn:Hh; simpl; [|by intros [= <- <-]].
  destruct (find_entry _ _) as [i|] eqn:Hf; [|by intros [= <- <-]].
  destruct (found_secret _ _ _ _ H Hf) as (x & Hi & -> & Hl & Hx & He).
  assert (same_id x (poll_entry now x)) as Hsame by done.
  destruct (de_st x) eqn:Est; intros [= <- <-].
  - apply live_st in Hl. done.
  - destruct (poll_slow now x); apply (table_ok_update _ _ []) with (x := x); try done;
      by apply entry_ok_same with (x := x).
  - apply table_ok_clear with (x := x); try done. intros h'. unfold countb, is_secret. simpl.
    rewrite Hh, Hl, Hx. simpl. repeat case_bool_decide; simpl; try lia; congruence.
  - apply (table_ok_clear _ _ []) with (x := x); try done. intros h'. apply Nat.le_0_l.
Qed.

Lemma found_pending s tr code i :
  table_ok s tr → pending_user s code = Some i →
  ∃ x c, code = Some c ∧ dc_e s !! i = Some x ∧ nth i (dc_e s) clear = x ∧ live x = true ∧
    de_st x = ST_PENDING ∧ de_user_code x = c ∧ de_token x = None ∧ entry_ok tr x.
Proof.
  intros H. unfold pending_user, by_user. destruct code as [c|]; simpl; [|done].
  destruct (find_entry _ _) as [j|] eqn:Hf; simpl; [|done].
  apply find_entry_Some in Hf as (x & Hj & -> & Hx). case_bool_decide as Hst; [|done].
  intros [= ->]. unfold is_user in Hx. apply andb_true_iff in Hx as [Hl Hx%bool_decide_eq_true].
  pose proof (ok_entry _ _ H i x Hj) as He. exists x, c. split_and!; try done.
  - by apply nth_lookup_Some.
  - destruct (entry_ok_live _ _ He Hl) as ((_ & Ht) & _). destruct (de_token x); [|done].
    rewrite Hst in Ht. discriminate Ht. eauto.
Qed.

(** Approving records the token, with the event that says so. *)
Lemma entry_ok_approved tr x t :
  entry_ok tr x → live x = true →
  entry_ok ([Approved (de_user_code x) t] ++ tr) (set_state ST_APPROVED (Some t) x).
Proof.
  intros He Hl. destruct (entry_ok_live _ _ He Hl) as (_ & ? & ? & ? & ? & tr1 & dc & tr2 & -> & Hh & _).
  unfold entry_ok. change (live (set_state ST_APPROVED (Some t) x)) with true. cbn -[zlen].
  split_and!; try done.
  eexists (_ :: tr1), dc, tr2. split_and!; [done..|]. cbn. intros t' [= ->]. apply elem_of_cons. auto.
Qed.

Lemma table_ok_approve d tr dup user_code token now rc d' :
  table_ok d tr → oc_devcodes_approve dup user_code token now d = (rc, d') →
  table_ok d' (approve_events rc user_code token ++ tr).
Proof.
  intros H. apply (table_ok_sweep now) in H. unfold oc_devcodes_approve. revert H.
  generalize (sweep now d) as s. clear d. intros s H. cbv zeta.
  destruct (pending_user _ _) as [i|] eqn:Hp; [|by intros [= <- <-]].
  destruct token as [t|]; [|by intros [= <- <-]].
  destruct (found_pending _ _ _ _ H Hp) as (x & c & -> & Hi & -> & Hl & Hst & Hc & Ht & He).
  destruct dup; intros [= <- <-]; cbn [approve_events Z.eqb default].
  - subst c. apply table_ok_update with (x := x); [done..| | |apply quiet_approved].
    + by apply entry_ok_approved.
    + unfold same_id. by rewrite Hl.
  - apply (table_ok_update _ _ []) with (x := x); try done.
    + by apply entry_ok_same with (x := x).
Qed.

Lemma table_ok_deny d tr user_code now rc d' :
  table_ok d tr → oc_devcodes_deny user_code now d = (rc, d') → table_ok d' tr.
Proof.
  intros H. apply (table_ok_sweep now) in H. unfold oc_devcodes_deny. revert H.
  generalize (sweep now d) as s. clear d. intros s H. cbv zeta.
  destruct (pending_user _ _) as [i|] eqn:Hp; [|by intros [= <- <-]].
  destruct (found_pending _ _ _ _ H Hp) as (x & c & -> & Hi & -> & Hl & Hst & Hc & Ht & He).
  intros [= <- <-]. destruct (entry_ok_live _ _ He Hl) as (_ & Hrest).
  apply (table_ok_update _ _ []) with (x := x); try done.
  - unfold entry_ok. change (live (set_state ST_DENIED (de_token x) x)) with true. cbn -[zlen].
    split; [|done]. rewrite Ht. split; [done|by intros []].
Qed.

Lemma table_ok_new : table_ok oc_devcodes_new [].
Proof.
  pose proof (fun p Hp => countb_replicate p clear OC_DEVICE_MAX Hp) as Hz.
  split; cbn -[OC_DEVICE_MAX OC_DEVICE_PER_SOURCE].
  - apply length_replicate.
  - intros i x [-> _]%lookup_replicate. apply entry_ok_clear.
  - intros c. rewrite Hz by done. lia.
  - intros c. rewrite Hz by done. lia.
  - intros c. by rewrite Hz.
Qed.

Lemma run_table_ok d tr : run d tr → table_ok d tr.
Proof.
  induction 1; eauto using table_ok_new, table_ok_begin, table_ok_poll, table_ok_approve, table_ok_deny.
  - by destruct IHrun.
  - by destruct IHrun.
  - unfold oc_devcodes_find in *. simplify_eq. by apply table_ok_sweep.
Qed.
End Machine.

(** ** One request from start to finish *)

Section Flow.
Context (sha256 : list Z → option (list Z)).

(** An unexpired entry, alone with its key, is the one a search after the
    sweep finds. *)
Lemma found_after_sweep p now d i x :
  p clear = false → (countb p (dc_e d) <= 1)%nat → dc_e d !! i = Some x → p x = true →
  now < de_expires_ms x →
  dc_e (sweep now d) !! i = Some x ∧ find_entry p (dc_e (sweep now d)) = Some i ∧
  nth i (dc_e (sweep now d)) clear = x.
Proof.
  intros Hpc Hc Hi Hp Hlt. pose proof (sweep_keeps now d i x Hi Hlt) as Hs.
  split_and!; [done| |by apply nth_lookup_Some].
  apply find_entry_unique with (x := x); [|done..].
  pose proof (sweep_count now d p Hpc). pose proof (countb_pos p _ i x Hs Hp). lia.
Qed.

(** What a successful [begin] leaves in the table. *)
Lemma begin_entry rnd source addr challenge now d dc uc d' :
  oc_devcodes_begin sha256 rnd source addr challenge now d = (inr (dc, uc), d') →
  ∃ i h chal, challenge = Some chal ∧ sha256 dc = Some h ∧
    dc_e d' !! i = Some (mk_dentry ST_PENDING h uc chal (copy_str 46 (default [] source))
      (copy_str 46 (default [] addr)) now (u64 (now + dc_ttl_ms d)) 0 (dc_interval_s d) None) ∧
    (countb (is_secret h) (dc_e d') <= 1 + countb (is_secret h) (dc_e d))%nat.
Proof.
  unfold oc_devcodes_begin. cbv zeta. destruct (_ <=? _)%nat; [done|].
  destruct (find_entry _ _) as [i|] eqn:Hf; [|done]. destruct challenge as [chal|]; [|done].
  destruct (48 <=? zlen chal); [done|]. destruct (pick_code _ _ _ _) as [c|]; [|done].
  destruct (rand_secret rnd) as [secret|]; [|done].
  destruct (sha256 (oc_base64url_encode secret)) as [h|] eqn:Hh; [|done]. intros [= <- <- <-].
  apply find_entry_Some in Hf as (x & Hi & _ & _). exists i, h, chal. split_and!; [done..| |].
  - cbn [dc_e with_entries]. apply list_lookup_insert_eq. by eapply lookup_lt_Some.
  - cbn [dc_e with_entries]. pose proof (sweep_count now d (is_secret h) eq_refl).
    match goal with |- context [<[i := ?y]> _] =>
      pose proof (countb_insert (is_secret h) _ i x y Hi); destruct (is_secret h y) end;
      change (dc_e (sweep now d)) with (sweep_entry now <$> dc_e d) in *; cbn [Nat.b2n] in *; lia.
Qed.

Lemma approve_found d tr i x token now :
  table_ok sha256 d tr → dc_e d !! i = Some x → de_st x = ST_PENDING → now < de_expires_ms x →
  oc_devcodes_approve true (Some (de_user_code x)) (Some token) now d =
    (0, with_entries (sweep now d)
          (<[i := set_state ST_APPROVED (Some token) x]> (dc_e (sweep now d)))).
Proof.
  intros H Hi Hst Hlt. assert (live x = true) as Hl by (apply live_st; congruence).
  destruct (found_after_sweep (is_user (de_user_code x)) now d i x) as (Hs & Hf & Hn); [done| |done| |done|].
  { apply H. } { unfold is_user. rewrite Hl. by case_bool_decide. }
  unfold oc_devcodes_approve, pending_user, by_user. cbn [mbind option_bind]. rewrite Hf.
  cbn [mbind option_bind]. rewrite Hn, Hst. case_bool_decide; [|done]. by rewrite Hn.
Qed.

Lemma poll_found d i x secret token now :
  (countb (is_secret (de_secret_hash x)) (dc_e d) <= 1)%nat →
  dc_e d !! i = Some x → de_st x = ST_APPROVED → de_token x = Some token → now < de_expires_ms x →
  sha256 secret = Some (de_secret_hash x) →
  oc_devcodes_poll sha256 (Some secret) now d =
    (OC_DEV_TOKEN token, with_entries (sweep now d) (<[i := clear]> (dc_e (sweep now d)))).
Proof.
  intros Hc Hi Hst Ht Hlt Hh. assert (live x = true) as Hl by (apply live_st; congruence).
  destruct (found_after_sweep (is_secret (de_secret_hash x)) now d i x) as (Hs & Hf & Hn); [done..| |done|].
  { unfold is_secret. rewrite Hl. by case_bool_decide. }
  unfold oc_devcodes_poll. cbn [mbind option_bind]. by rewrite Hh, Hf, Hn, Hst, Ht.
Qed.

Lemma poll_gone d secret h now :
  sha256 secret = Some h → countb (is_secret h) (dc_e d) = 0%nat →
  (oc_devcodes_poll sha256 (Some secret) now d).1 = OC_DEV_GONE.
Proof.
  intros Hh Hc. unfold oc_devcodes_poll. cbn [mbind option_bind]. rewrite Hh.
  pose proof (sweep_count now d (is_secret h) eq_refl).
  by rewrite (proj2 (find_entry_None _ _)) by lia.
Qed.

Lemma find_found d tr i x typed now :
  table_ok sha256 d tr → dc_e d !! i = Some x → de_st x = ST_PENDING → now < de_expires_ms x →
  format_code (letters typed) = de_user_code x → is_code (letters typed) = true →
  (oc_devcodes_find (Some typed) now d).1 =
    Some (mk_dev_info (de_user_code x) (de_challenge x) (de_addr x) (de_created_ms x)).
Proof.
  intros H Hi Hst Hlt Hty Hc. assert (live x = true) as Hl by (apply live_st; congruence).
  destruct (found_after_sweep (is_user (de_user_code x)) now d i x) as (Hs & Hf & Hn); [done| |done| |done|].
  { apply H. } { unfold is_user. rewrite Hl. by case_bool_decide. }
  unfold oc_devcodes_find. cbn [fst]. rewrite normalise_spec. cbn [default]. cbv zeta. cbn [from_option].
  unfold id. rewrite Hc, Hty. cbn [mbind option_bind]. unfold by_user. rewrite Hf.
  cbn [mbind option_bind]. rewrite Hn, Hst. by case_bool_decide.
Qed.
End Flow.

(** C26: the table is bounded and unambiguous in every run.  However requests,
    polls, answers and expiries interleave, it has 256 places, no two live
    requests share a user code, no source has more than five, a place holds a
    token exactly while its request is approved, and a freed place holds
    nothing of the request it had. *)
Theorem devcodes_invariant sha256 d tr :
  run sha256 d tr →
  length (dc_e d) = 256%nat ∧
  (∀ i j x y, dc_e d !! i = Some x → dc_e d !! j = Some y → live x = true → live y = true →
     de_user_code x = de_user_code y → i = j) ∧
  (∀ s, (countb (is_source s) (dc_e d) <= 5)%nat) ∧
  (∀ i x, dc_e d !! i = Some x → de_st x = ST_APPROVED ↔ is_Some (de_token x)) ∧
  (∀ i x, dc_e d !! i = Some x → live x = false → x = clear).
Proof.
  intros H%run_table_ok. split_and!; [apply H| |apply H| |].
  - intros i j x y Hi Hj Hx Hy Hc. destruct (decide (i = j)) as [|Hij]; [done|].
    pose proof (ok_codes _ _ _ H (de_user_code x)) as Hle.
    pose proof (countb_insert (is_user (de_user_code x)) _ i x clear Hi) as Hins.
    assert (is_user (de_user_code x) x = true) as E by (unfold is_user; rewrite Hx; by case_bool_decide).
    rewrite E in Hins. change (is_user _ clear) with false in Hins. cbn [Nat.b2n] in Hins.
    enough (0 < countb (is_user (de_user_code x)) (<[i := clear]> (dc_e d)))%nat by lia.
    apply countb_pos with (i := j) (x := y); [by rewrite list_lookup_insert_ne|].
    unfold is_user. rewrite Hy. by case_bool_decide.
  - intros i x Hi. pose proof (ok_entry _ _ _ H i x Hi) as He. unfold entry_ok in He.
    destruct (live x); [by destruct He|]. subst. cbn. split; [done|by intros []].
  - intros i x Hi Hl. pose proof (ok_entry _ _ _ H i x Hi) as He. unfold entry_ok in He. by rewrite Hl in He.
Qed.

(** C12: a token is collected only by the secret it was approved for, in
    time.  When a poll in any run hands over a token, the history has a request
    whose secret hashes to the same value as the one polled with, the page
    approved that request's user code with exactly this token after the request
    was made, and the request has not expired. *)
Theorem token_provenance sha256 d tr device_code now t d' :
  run sha256 d tr → oc_devcodes_poll sha256 device_code now d = (OC_DEV_TOKEN t, d') →
  ∃ secret tr1 dc uc expires tr2,
    device_code = Some secret ∧ is_Some (sha256 secret) ∧ sha256 dc = sha256 secret ∧
    tr = tr1 ++ Begun dc uc expires :: tr2 ∧ Approved uc t ∈ tr1 ∧ now < expires.
Proof.
  intros H%run_table_ok. pose proof (table_ok_sweep _ now _ _ H) as Hs. unfold oc_devcodes_poll. cbv zeta.
  destruct device_code as [secret|]; cbn [mbind option_bind]; [|done].
  destruct (sha256 secret) as [h|] eqn:Hh; [|done].
  destruct (find_entry _ _) as [i|] eqn:Hf; [|done].
  destruct (found_secret _ _ _ _ _ Hs Hf) as (x & Hi & -> & Hl & Hx & He).
  destruct (entry_ok_live _ _ _ He Hl) as (Htok & _ & _ & _ & _ & tr1 & dc & tr2 & -> & Hdc & Happ).
  destruct (sweep_lookup _ _ _ _ Hi Hl) as [_ Hlt].
  destruct (de_st x) eqn:Est; try (by destruct (poll_slow now x)).
  destruct (proj1 Htok eq_refl) as [t' Ht']. rewrite Ht'. intros [= <- _].
  exists secret, tr1, dc, (de_user_code x), (de_expires_ms x), tr2. rewrite Hdc, Hx.
  split_and!; eauto.
Qed.

(** C13: a token is collected at most once.  In any run the polls that handed
    over a token for a secret's hash are at most the requests issued with that
    hash. *)
Theorem token_collected_once sha256 d tr h :
  run sha256 d tr →
  (countb (collected sha256 h) tr <= countb (begun sha256 h) tr)%nat.
Proof. intros H%run_table_ok. pose proof (ok_hashes _ _ _ H h). lia. Qed.

(** C27: the sign-in completes.  In any run, a request that was issued can be
    looked up by its code however the person types it, approved by the page, and
    its token collected with the secret, each until the request expires; after
    that the secret is worth nothing. *)
Theorem device_flow_completes sha256 d tr rnd source addr chal t0 dc uc d1 typed token t1 t2 t3 :
  run sha256 d tr → draws_ok rnd → zlen (default [] source) <= 45 →
  oc_devcodes_begin sha256 rnd source addr (Some chal) t0 d = (inr (dc, uc), d1) →
  (∀ h, sha256 dc = Some h → countb (is_secret h) (dc_e d) = 0%nat) →
  t1 < u64 (t0 + dc_ttl_ms d) → t2 < u64 (t0 + dc_ttl_ms d) →
  is_code (letters typed) = true → format_code (letters typed) = uc →
  (oc_devcodes_find (Some typed) t1 d1).1 =
    Some (mk_dev_info uc chal (copy_str 46 (default [] addr)) t0) ∧
  ∃ d2 d3,
    oc_devcodes_approve true (Some uc) (Some token) t1 d1 = (0, d2) ∧
    oc_devcodes_poll sha256 (Some dc) t2 d2 = (OC_DEV_TOKEN token, d3) ∧
    (oc_devcodes_poll sha256 (Some dc) t3 d3).1 = OC_DEV_GONE.
Proof.
  intros H%run_table_ok Hr Hsrc Hb Hnew Ht1 Ht2 Hcode Htyped.
  pose proof (table_ok_begin _ _ _ _ _ _ _ _ _ _ H Hr Hsrc Hb) as H1.
  destruct (begin_entry _ _ _ _ _ _ _ _ _ _ Hb) as (i & h & chal' & [= <-] & Hh & Hi & Hcnt).
  rewrite (Hnew _ Hh) in Hcnt. set (x := mk_dentry _ _ _ _ _ _ _ _ _ _ _) in Hi.
  split; [by rewrite (find_found _ _ _ i x _ _ H1)|].
  pose proof (approve_found _ _ _ i x token t1 H1 Hi eq_refl Ht1) as Ha.
  set (y := set_state ST_APPROVED (Some token) x) in *.
  pose proof (sweep_keeps t1 d1 i x Hi Ht1) as Hs.
  assert (is_secret h x = true ∧ is_secret h y = true) as [Hx Hy]
    by (unfold is_secret, x, y; by repeat case_bool_decide).
  pose proof (sweep_count t1 d1 (is_secret h) eq_refl) as Hc1.
  pose proof (countb_insert (is_secret h) _ i x y Hs) as Hc2. rewrite Hx, Hy in Hc2.
  eexists _, _. split; [exact Ha|].
  assert (<[i:=y]> (dc_e (sweep t1 d1)) !! i = Some y) as Hiy
    by (apply list_lookup_insert_eq; by eapply lookup_lt_Some).
  split.
  - apply poll_found with (x := y); try done. change (de_secret_hash y) with h. cbn [dc_e with_entries]. lia.
  - apply poll_gone with (h := h); [done|].
    set (d2 := with_entries _ (<[i:=y]> _)) in *.
    pose proof (sweep_keeps t2 d2 i y Hiy Ht2) as Hs2.
    pose proof (sweep_count t2 d2 (is_secret h) eq_refl) as Hc3.
    pose proof (countb_insert (is_secret h) _ i y clear Hs2) as Hc4. rewrite Hy in Hc4.
    change (is_secret h clear) with false in Hc4. cbn [Nat.b2n] in *. cbn [dc_e with_entries] in *.
    change (dc_e d2) with (<[i:=y]> (dc_e (sweep t1 d1))) in *. lia.
Qed.

(** ** A concrete run

    One request with the code [BCDF-GHJK], approved and collected, with the
    identity for a hash. *)

Definition demo_hash (s : list Z) : option (list Z) := Some s.
Definition demo_rnd : draws :=
  mk_draws (fun _ => Some [0; 1; 2; 3; 4; 5; 6; 7]) (Some [1; 2; 3]).
Definition demo_begin := oc_devcodes_begin demo_hash demo_rnd (Some [49]) None (Some [65]) 1000 oc_devcodes_new.
Definition demo_uc : list Z := [66; 67; 68; 70; 45; 71; 72; 74; 75].
Definition demo_dc : list Z := oc_base64url_encode [1; 2; 3].
Definition demo_approve := oc_devcodes_approve true (Some demo_uc) (Some [84]) 2000 demo_begin.2.
Definition demo_poll := oc_devcodes_poll demo_hash (Some demo_dc) 3000 demo_approve.2.
Definition demo_trace : list event :=
  [Collected demo_dc [84]; Approved demo_uc [84]; Begun demo_dc demo_uc 601000].

Lemma demo_draws : draws_ok demo_rnd.
Proof. intros n r [= <-]. done. Qed.
Lemma demo_run1 : run demo_hash demo_begin.2 [Begun demo_dc demo_uc 601000].
Proof.
  apply (run_begin _ oc_devcodes_new [] demo_rnd (Some [49]) None (Some [65]) 1000 demo_begin.1).
  - constructor.
  - exact demo_draws.
  - vm_compute. discriminate.
  - vm_compute. reflexivity.
Qed.
Lemma demo_run2 : run demo_hash demo_approve.2 [Approved demo_uc [84]; Begun demo_dc demo_uc 601000].
Proof.
  apply (run_approve _ demo_begin.2 [Begun demo_dc demo_uc 601000] true (Some demo_uc) (Some [84]) 2000 0).
  - exact demo_run1.
  - vm_compute. reflexivity.
Qed.

Lemma devcodes_invariant_witness : (countb (is_source [49%Z]) (dc_e demo_approve.2) <= 5)%nat.
Proof. exact (proj1 (proj2 (proj2 (devcodes_invariant _ _ _ demo_run2))) [49]). Defined.

Lemma token_provenance_witness :
  ∃ secret tr1 dc uc expires tr2,
    Some demo_dc = Some secret ∧ is_Some (demo_hash secret) ∧ demo_hash dc = demo_hash secret ∧
    [Approved demo_uc [84]; Begun demo_dc demo_uc 601000] = tr1 ++ Begun dc uc expires :: tr2 ∧
    Approved uc [84] ∈ tr1 ∧ 3000 < expires.
Proof.
  apply (token_provenance demo_hash demo_approve.2 _ (Some demo_dc) 3000 [84] demo_poll.2 demo_run2).
  vm_compute. reflexivity.
Defined.

Lemma token_collected_once_witness :
  (countb (collected demo_hash demo_dc) demo_trace
   <= countb (begun demo_hash demo_dc) demo_trace)%nat.
Proof.
  apply (token_collected_once demo_hash demo_poll.2).
  apply (run_poll _ demo_approve.2 [Approved demo_uc [84]; Begun demo_dc demo_uc 601000]
           (Some demo_dc) 3000 (OC_DEV_TOKEN [84]) demo_poll.2 demo_run2).
  vm_compute. reflexivity.
Defined.

(** The code typed in lower case without its dash. *)
Lemma device_flow_completes_witness :
  (oc_devcodes_find (Some [98; 99; 100; 102; 103; 104; 106; 107]) 2000 demo_begin.2).1 =
    Some (mk_dev_info demo_uc [65] (copy_str 46 []) 1000) ∧
  ∃ d2 d3,
    oc_devcodes_approve true (Some demo_uc) (Some [84]) 2000 demo_begin.2 = (0, d2) ∧
    oc_devcodes_poll demo_hash (Some demo_dc) 3000 d2 = (OC_DEV_TOKEN [84], d3) ∧
    (oc_devcodes_poll demo_hash (Some demo_dc) 4000 d3).1 = OC_DEV_GONE.
Proof.
  apply (device_flow_completes demo_hash oc_devcodes_new [] demo_rnd (Some [49]) None [65] 1000
           demo_dc demo_uc demo_begin.2 [98; 99; 100; 102; 103; 104; 106; 107] [84] 2000 3000 4000).
  - constructor.
  - exact demo_draws.
  - vm_compute. discriminate.
  - vm_compute. reflexivity.
  - intros h [= <-]. vm_compute. reflexivity.
  - vm_compute. reflexivity.
  - vm_compute. reflexivity.
  - vm_compute. reflexivity.
  - vm_compute. reflexivity.
Defined.
