(* ===== verification/Cbor.v ===== *)
(** * The CBOR reader: [daemon/cbor.c]

    A cursor [oc_cbor] is the list of the bytes from [p] up to [end]; a null
    [p] reads like an empty range.  Each reader returns its result with the
    cursor it leaves, [None] or [false] for the return -1.

    [is_head] and [item] say what a head and a well-formed item are (RFC 8949,
    definite lengths only); the theorems say that the readers accept exactly
    these. *)
From stdpp Require Import base tactics list numbers.
From S2P Require Import Prelude.
Local Open Scope Z_scope.

Definition OC_CBOR_MAX_DEPTH : nat := 8.
Definition INT64_MAX : Z := 0x7fffffffffffffff.

Inductive oc_cbor_major :=
  | OC_CBOR_UINT | OC_CBOR_NINT | OC_CBOR_BYTES | OC_CBOR_TEXT
  | OC_CBOR_ARRAY | OC_CBOR_MAP | OC_CBOR_TAG | OC_CBOR_SIMPLE.
#[export] Instance oc_cbor_major_eq_dec : EqDecision oc_cbor_major.
Proof. solve_decision. Defined.

(** The values of the enumeration, and the cast back from three bits. *)
Definition major_code (m : oc_cbor_major) : Z :=
  match m with
  | OC_CBOR_UINT => 0 | OC_CBOR_NINT => 1 | OC_CBOR_BYTES => 2 | OC_CBOR_TEXT => 3
  | OC_CBOR_ARRAY => 4 | OC_CBOR_MAP => 5 | OC_CBOR_TAG => 6 | OC_CBOR_SIMPLE => 7
  end.
Definition major_of (n : Z) : oc_cbor_major :=
  match n with
  | 0 => OC_CBOR_UINT | 1 => OC_CBOR_NINT | 2 => OC_CBOR_BYTES | 3 => OC_CBOR_TEXT
  | 4 => OC_CBOR_ARRAY | 5 => OC_CBOR_MAP | 6 => OC_CBOR_TAG | _ => OC_CBOR_SIMPLE
  end.

Definition oc_cbor : Type := list Z.

(** [v = (v << 8) | *c->p++] over the bytes of the argument. *)
Fixpoint be_fold (v : Z) (l : list Z) : Z :=
  match l with [] => v | b :: l => be_fold (Z.lor (u64 (Z.shiftl v 8)) b) l end.

Definition oc_cbor_head (c : oc_cbor) : option (oc_cbor_major * Z) * oc_cbor :=
  match c with
  | [] => (None, c)
  | b :: c =>
      let major := major_of (Z.shiftr b 5) in
      let ai := Z.land b 31 in
      if ai <? 24 then (Some (major, ai), c)
      else if 27 <? ai then (None, c)
      else
        let n := Z.shiftl 1 (ai - 24) in
        if zlen c <? n then (None, c)
        else (Some (major, be_fold 0 (ztake n c)), zdrop n c)
  end.

(** [for (i = 0; i < a; i++) if (f(c) fails) return -1;].  Each turn that goes
    on has read at least one byte, so the bytes left bound the turns. *)
Fixpoint times (fuel : nat) (a : Z) (f : oc_cbor → bool * oc_cbor) (c : oc_cbor) : bool * oc_cbor :=
  if a <=? 0 then (true, c) else
  match fuel with
  | O => (false, c)
  | S fuel =>
      match f c with
      | (true, c) => times fuel (a - 1) f c
      | (false, c) => (false, c)
      end
  end.

(** [fuel] is [OC_CBOR_MAX_DEPTH + 1 - depth]. *)
Fixpoint skip_depth (fuel : nat) (c : oc_cbor) : bool * oc_cbor :=
  match fuel with
  | O => (false, c)
  | S fuel =>
      match oc_cbor_head c with
      | (None, c) => (false, c)
      | (Some (m, a), c) =>
          match m with
          | OC_CBOR_UINT | OC_CBOR_NINT | OC_CBOR_SIMPLE => (true, c)
          | OC_CBOR_BYTES | OC_CBOR_TEXT => if zlen c <? a then (false, c) else (true, zdrop a c)
          | OC_CBOR_ARRAY => times (S (length c)) a (skip_depth fuel) c
          | OC_CBOR_MAP =>
              times (S (length c)) a
                (fun c => match skip_depth fuel c with
                          | (true, c) => skip_depth fuel c
                          | (false, c) => (false, c)
                          end) c
          | OC_CBOR_TAG => skip_depth fuel c
          end
      end
  end.

Definition oc_cbor_skip (c : oc_cbor) : bool * oc_cbor := skip_depth (S OC_CBOR_MAX_DEPTH) c.

Definition oc_cbor_string (c : oc_cbor) (want : oc_cbor_major) : option (list Z) * oc_cbor :=
  match oc_cbor_head c with
  | (None, c) => (None, c)
  | (Some (m, a), c) =>
      if negb (bool_decide (m = want)) || (zlen c <? a) then (None, c)
      else (Some (ztake a c), zdrop a c)
  end.

Definition oc_cbor_int (c : oc_cbor) : option Z * oc_cbor :=
  match oc_cbor_head c with
  | (None, c) => (None, c)
  | (Some (m, a), c) =>
      if INT64_MAX <? a then (None, c)
      else match m with
           | OC_CBOR_UINT => (Some a, c)
           | OC_CBOR_NINT => (Some (-1 - a), c)
           | _ => (None, c)
           end
  end.

(** -1, 0, or 1 with [*out]. *)
Inductive map_result := MapBad | MapAbsent | MapFound (out : oc_cbor).

Definition key_hit (key : option (list Z)) (ikey : Z) (c : oc_cbor) : bool :=
  match key with
  | Some key => match fst (oc_cbor_string c OC_CBOR_TEXT) with
                | Some s => bool_decide (s = key)
                | None => false
                end
  | None => match fst (oc_cbor_int c) with Some v => v =? ikey | None => false end
  end.

Fixpoint map_loop (fuel : nat) (n : Z) (key : option (list Z)) (ikey : Z) (c : oc_cbor) : map_result :=
  if n <=? 0 then MapAbsent else
  match fuel with
  | O => MapBad
  | S fuel =>
      match oc_cbor_skip c with
      | (false, _) => MapBad
      | (true, k) =>
          if key_hit key ikey c then MapFound k
          else match oc_cbor_skip k with
               | (false, _) => MapBad
               | (true, k) => map_loop fuel (n - 1) key ikey k
               end
      end
  end.

Definition oc_cbor_map_get (c : oc_cbor) (key : option (list Z)) (ikey : Z) : map_result :=
  match oc_cbor_head c with
  | (Some (OC_CBOR_MAP, n), c) => map_loop (S (length c)) n key ikey c
  | _ => MapBad
  end.

(** ** Heads *)

Fixpoint be_bytes (n : nat) (v : Z) : list Z :=
  match n with O => [] | S n => be_bytes n (v / 256) ++ [v mod 256] end.

(** The head of major type [m] and argument [a]: in the initial byte, or in
    1, 2, 4 or 8 bytes behind it, not necessarily the shortest. *)
Inductive is_head : oc_cbor_major → Z → list Z → Prop :=
  | head_short m a : 0 <= a < 24 → is_head m a [major_code m * 32 + a]
  | head_wide m a (k : nat) :
      (k < 4)%nat → 0 <= a < 2 ^ (8 * 2 ^ Z.of_nat k) →
      is_head m a ((major_code m * 32 + 24 + Z.of_nat k) :: be_bytes (2 ^ k) a).

Lemma be_fold_snoc v l b : be_fold v (l ++ [b]) = Z.lor (u64 (Z.shiftl (be_fold v l) 8)) b.
Proof. revert v; induction l as [|x l IH]; intros v; [done|]. apply IH. Qed.

Lemma pow256 n : 256 ^ Z.of_nat n = 2 ^ (8 * Z.of_nat n).
Proof. rewrite Z.pow_mul_r by lia. done. Qed.

Lemma be_fold_step v b n :
  0 <= v < 256 ^ Z.of_nat n → (n < 8)%nat → is_u8 b → Z.lor (u64 (Z.shiftl v 8)) b = v * 256 + b.
Proof.
  intros Hv Hn Hb. rewrite pow256 in Hv.
  assert (2 ^ (8 * Z.of_nat n) <= 2 ^ 56) by (apply Z.pow_le_mono_r; lia).
  rewrite Z.shiftl_mul_pow2 by lia. change (2 ^ 8) with 256.
  rewrite u64_id by (unfold is_u64; lia).
  apply lor_disjoint_add with (n := 8); [lia|exact Hb|]. change (2 ^ 8) with 256. apply Z.mod_mul; lia.
Qed.

Lemma be_fold_bytes n v : (n <= 8)%nat → 0 <= v < 256 ^ Z.of_nat n → be_fold 0 (be_bytes n v) = v.
Proof.
  revert v; induction n as [|n IH]; intros v Hn Hv; [simpl in *; lia|].
  cbn [be_bytes]. rewrite be_fold_snoc.
  assert (0 <= v / 256 < 256 ^ Z.of_nat n).
  { rewrite Nat2Z.inj_succ, Z.pow_succ_r in Hv by lia. split; [zlia|].
    apply Z.div_lt_upper_bound; lia. }
  rewrite IH by (done || lia). rewrite be_fold_step with (n := n) by (done || lia || ilia). zlia.
Qed.

Lemma be_bytes_fold l :
  (length l <= 8)%nat → is_bytes l →
  be_bytes (length l) (be_fold 0 l) = l ∧ 0 <= be_fold 0 l < 256 ^ zlen l.
Proof.
  induction l as [|b l IH] using rev_ind; intros Hl Hb; [done|].
  rewrite length_app in *. cbn [length] in *. apply is_bytes_app in Hb as [Hbl Hb].
  apply Forall_cons_iff in Hb as [Hb _]. destruct IH as [IH1 IH2]; [lia|done|].
  rewrite Nat.add_comm. cbn [be_bytes Nat.add]. rewrite be_fold_snoc.
  rewrite be_fold_step with (n := length l) by (done || lia). unfold is_u8 in Hb.
  replace ((be_fold 0 l * 256 + b) / 256) with (be_fold 0 l) by zlia.
  replace ((be_fold 0 l * 256 + b) mod 256) with b by zlia.
  split; [by rewrite IH1|]. unfold zlen in *. rewrite length_app, Nat2Z.inj_add.
  rewrite Z.pow_add_r by lia. change (256 ^ Z.of_nat (length [b])) with 256. lia.
Qed.

Lemma length_be_bytes n v : length (be_bytes n v) = n.
Proof. revert v; induction n as [|n IH]; intros v; [done|]. cbn. rewrite length_app, IH. simpl. lia. Qed.

Lemma is_bytes_be n v : is_bytes (be_bytes n v).
Proof.
  revert v; induction n as [|n IH]; intros v; [constructor|]. apply is_bytes_app. split; [done|].
  repeat constructor; ilia.
Qed.

(** The initial byte splits into major type and additional information. *)
Lemma first_byte b : is_u8 b →
  Z.land b 31 = b mod 32 ∧ Z.shiftr b 5 = b / 32 ∧ 0 <= b / 32 < 8.
Proof.
  intros Hb. split_and!; [apply (Z.land_ones b 5); lia|apply Z.shiftr_div_pow2; lia|ilia..].
Qed.

Lemma major_code_of n : 0 <= n < 8 → major_code (major_of n) = n.
Proof.
  intros Hn. assert (n = 0 ∨ n = 1 ∨ n = 2 ∨ n = 3 ∨ n = 4 ∨ n = 5 ∨ n = 6 ∨ n = 7) by lia.
  by destruct_or!; subst.
Qed.
Lemma major_of_code m : major_of (major_code m) = m.
Proof. by destruct m. Qed.
Lemma major_code_range m : 0 <= major_code m < 8.
Proof. by destruct m. Qed.

Lemma is_head_bytes m a h : is_head m a h → is_bytes h ∧ h ≠ [] ∧ 0 <= a < 2 ^ 64.
Proof.
  pose proof (major_code_range m). intros [m' a' Ha|m' a' k Hk Ha].
  - split_and!; [|done|lia..]. pose proof (major_code_range m'). repeat constructor; ilia.
  - pose proof (major_code_range m'). split_and!; [|done|lia|].
    + constructor; [ilia|apply is_bytes_be].
    + eapply Z.lt_le_trans; [apply Ha|]. apply Z.pow_le_mono_r; [lia|].
      do 4 (destruct k as [|k]; [simpl; lia|]). lia.
Qed.

Lemma head_complete m a h rest :
  is_head m a h → oc_cbor_head (h ++ rest) = (Some (m, a), rest).
Proof.
  intros [m' a' Ha|m' a' k Hk Ha]; cbn [app oc_cbor_head].
  - pose proof (major_code_range m').
    destruct (first_byte (major_code m' * 32 + a')) as (-> & -> & _); [ilia|].
    replace ((major_code m' * 32 + a') mod 32) with a' by zlia.
    replace ((major_code m' * 32 + a') / 32) with (major_code m') by zlia.
    rewrite major_of_code. destruct (Z.ltb_spec a' 24); [done|lia].
  - pose proof (major_code_range m').
    destruct (first_byte (major_code m' * 32 + 24 + Z.of_nat k)) as (-> & -> & _); [ilia|].
    replace ((major_code m' * 32 + 24 + Z.of_nat k) mod 32) with (24 + Z.of_nat k) by zlia.
    replace ((major_code m' * 32 + 24 + Z.of_nat k) / 32) with (major_code m') by zlia.
    rewrite major_of_code.
    rewrite (proj2 (Z.ltb_ge _ 24)), (proj2 (Z.ltb_ge 27 _)) by lia. cbv zeta.
    replace (24 + Z.of_nat k - 24) with (Z.of_nat k) by lia.
    rewrite Z.shiftl_mul_pow2, Z.mul_1_l by lia.
    assert (zlen (be_bytes (2 ^ k) a') = 2 ^ Z.of_nat k) as Hlen
      by (unfold zlen; by rewrite length_be_bytes, Nat2Z.inj_pow).
    rewrite zlen_app, Hlen, (proj2 (Z.ltb_ge _ _)) by (pose proof (zlen_nonneg rest); lia).
    rewrite ztake_app_eq, zdrop_app_eq, be_fold_bytes; try done.
    + do 4 (destruct k as [|k]; [simpl; lia|]). lia.
    + by rewrite pow256, Nat2Z.inj_pow.
Qed.

Lemma head_sound c m a rest :
  is_bytes c → oc_cbor_head c = (Some (m, a), rest) → ∃ h, is_head m a h ∧ c = h ++ rest.
Proof.
  intros Hc. destruct c as [|b c]; [done|]. cbn [oc_cbor_head].
  apply Forall_cons_iff in Hc as [Hb Hc]. destruct (first_byte b Hb) as (-> & -> & Hr).
  pose proof (major_code_of _ Hr) as Hm. cbv zeta.
  destruct (Z.ltb_spec (b mod 32) 24) as [Hs|Hs].
  { intros [= <- <- <-]. exists [b]. split; [|done].
    replace [b] with [major_code (major_of (b / 32)) * 32 + b mod 32] by (rewrite Hm; f_equal; zlia).
    constructor. zlia. }
  destruct (Z.ltb_spec 27 (b mod 32)); [done|].
  set (k := Z.to_nat (b mod 32 - 24)).
  assert (b mod 32 - 24 = Z.of_nat k ∧ (k < 4)%nat) as [Hk Hk4] by lia.
  rewrite Hk, Z.shiftl_mul_pow2, Z.mul_1_l by lia.
  destruct (Z.ltb_spec (zlen c) (2 ^ Z.of_nat k)) as [|Hl]; [done|]. intros [= <- <- <-].
  set (l := ztake (2 ^ Z.of_nat k) c).
  assert (zlen l = 2 ^ Z.of_nat k) as Hll by (apply zlen_ztake; lia).
  assert (length l = (2 ^ k)%nat) as Hln by (apply Nat2Z.inj; by rewrite Nat2Z.inj_pow).
  destruct (be_bytes_fold l) as [Hbf Hbr].
  { rewrite Hln. clearbody k. do 4 (destruct k as [|k]; [simpl; lia|]). lia. } { by apply is_bytes_ztake. }
  exists (b :: l). split; [|cbn; f_equal; symmetry; apply ztake_zdrop].
  replace b with (major_code (major_of (b / 32)) * 32 + 24 + Z.of_nat k) at 2 by (rewrite Hm; zlia).
  rewrite <- Hbf at 2. rewrite Hln. constructor; [done|].
  rewrite Hll in Hbr. change 256 with (2 ^ 8) in Hbr. rewrite <- Z.pow_mul_r in Hbr; lia.
Qed.

(** ** Items *)

(** [bs] is one well-formed item of at most [d] levels. *)
Fixpoint item (d : nat) (bs : list Z) : Prop :=
  match d with
  | O => False
  | S d =>
      ∃ m a h body, is_head m a h ∧ bs = h ++ body ∧
        match m with
        | OC_CBOR_UINT | OC_CBOR_NINT | OC_CBOR_SIMPLE => body = []
        | OC_CBOR_BYTES | OC_CBOR_TEXT => zlen body = a
        | OC_CBOR_ARRAY => ∃ l, zlen l = a ∧ Forall (item d) l ∧ body = concat l
        | OC_CBOR_MAP => ∃ l, zlen l = 2 * a ∧ Forall (item d) l ∧ body = concat l
        | OC_CBOR_TAG => item d body
        end
  end.

(** [f] reads exactly one [P] off the front of any bytes. *)
Definition reads (f : oc_cbor → bool * oc_cbor) (P : list Z → Prop) : Prop :=
  (∀ b rest, P b → f (b ++ rest) = (true, rest)) ∧
  (∀ c rest, is_bytes c → f c = (true, rest) → ∃ b, P b ∧ c = b ++ rest).

Definition pairs (P : list Z → Prop) (bs : list Z) : Prop := ∃ k v, P k ∧ P v ∧ bs = k ++ v.

Lemma reads_twice f P :
  reads f P →
  reads (fun c => match f c with (true, c) => f c | (false, c) => (false, c) end) (pairs P).
Proof.
  intros [Hc Hs]. split.
  - intros b rest (k & v & Hk & Hv & ->). rewrite <- app_assoc, (Hc k) by done. auto.
  - intros c rest Hb. destruct (f c) as [[] c'] eqn:E; [|done]. intros E'.
    destruct (Hs _ _ Hb E) as (k & Hk & ->). apply is_bytes_app in Hb as [_ Hb'].
    destruct (Hs _ _ Hb' E') as (v & Hv & ->). exists (k ++ v). rewrite app_assoc. split; [|done].
    by exists k, v.
Qed.

Lemma times_complete f P fuel l rest :
  reads f P → Forall P l → (length l <= fuel)%nat →
  times fuel (zlen l) f (concat l ++ rest) = (true, rest).
Proof.
  intros [Hc _] Hl. revert fuel; induction Hl as [|b l Hb _ IH]; intros fuel Hf.
  { by destruct fuel. }
  destruct fuel as [|fuel]; [simpl in Hf; lia|]. cbn [times concat].
  rewrite zlen_cons, (proj2 (Z.leb_gt _ 0)) by (pose proof (zlen_nonneg l); lia).
  rewrite <- app_assoc, Hc by done. replace (1 + zlen l - 1) with (zlen l) by lia.
  apply IH. simpl in Hf. lia.
Qed.

Lemma times_sound f P fuel : ∀ a c rest,
  reads f P → 0 <= a → is_bytes c → times fuel a f c = (true, rest) →
  ∃ l, zlen l = a ∧ Forall P l ∧ c = concat l ++ rest.
Proof.
  induction fuel as [|fuel IH]; intros a c rest Hf Ha Hb; cbn [times];
    (destruct (Z.leb_spec a 0) as [H0|H0]; [intros [= ->]; exists []; split_and!; [unfold zlen; simpl; lia|done..]|]);
    [done|].
  destruct (f c) as [[] c'] eqn:E; [|done]. intros E'.
  destruct (proj2 Hf _ _ Hb E) as (b & HPb & ->). apply is_bytes_app in Hb as [_ Hb'].
  destruct (IH (a - 1) c' rest Hf ltac:(lia) Hb' E') as (l & Hl & HP & ->).
  exists (b :: l). rewrite zlen_cons. cbn. rewrite app_assoc. split_and!; [lia|by constructor|done].
Qed.

(** An item is not empty, so a list of them is no longer than its bytes. *)
Lemma item_nonempty d b : item d b → b ≠ [].
Proof.
  destruct d as [|d]; [done|]. intros (m & a & h & body & Hh & -> & _).
  apply is_head_bytes in Hh as (_ & Hh & _). by destruct h.
Qed.

Lemma length_concat_ge (P : list Z → Prop) l :
  (∀ b, P b → b ≠ []) → Forall P l → (length l <= length (concat l))%nat.
Proof.
  intros Hne. induction 1 as [|b l Hb _ IH]; [done|]. cbn. rewrite length_app.
  specialize (Hne _ Hb). destruct b; [done|]. simpl. lia.
Qed.

(** A flat list of [2 n] is a list of [n] pairs, and back. *)
Lemma pair_up (P : list Z → Prop) n : ∀ l, zlen l = 2 * Z.of_nat n → Forall P l →
  ∃ l', zlen l' = Z.of_nat n ∧ Forall (pairs P) l' ∧ concat l' = concat l.
Proof.
  induction n as [|n IH]; intros l Hl HP.
  { apply zlen_0 in Hl as ->. exists []. by split_and!. }
  destruct l as [|k [|v l]]; [unfold zlen in Hl; simpl in Hl; lia..|].
  rewrite !zlen_cons in Hl. apply Forall_cons_iff in HP as [Hk HP]. apply Forall_cons_iff in HP as [Hv HP].
  destruct (IH l) as (l' & Hn & HP' & Hc); [lia|done|].
  exists ((k ++ v) :: l'). rewrite zlen_cons. cbn. rewrite Hc, app_assoc. split_and!; [lia| |done].
  constructor; [by exists k, v|done].
Qed.

Lemma unpair (P : list Z → Prop) l' : Forall (pairs P) l' →
  ∃ l, zlen l = 2 * zlen l' ∧ Forall P l ∧ concat l' = concat l.
Proof.
  induction 1 as [|b l' (k & v & Hk & Hv & ->) _ IH]; [by exists []|].
  destruct IH as (l & Hl & HP & Hc). exists (k :: v :: l). rewrite !zlen_cons. cbn.
  rewrite Hc, app_assoc. split_and!; [lia|by repeat constructor|done].
Qed.

Lemma pairs_nonempty (P : list Z → Prop) b : (∀ b, P b → b ≠ []) → pairs P b → b ≠ [].
Proof. intros HP (k & v & Hk & _ & ->). specialize (HP _ Hk). by destruct k. Qed.

Lemma times_list f P l rest :
  reads f P → (∀ b, P b → b ≠ []) → Forall P l →
  times (S (length (concat l ++ rest))) (zlen l) f (concat l ++ rest) = (true, rest).
Proof.
  intros Hf Hne HP. apply times_complete with (P := P); [done..|].
  pose proof (length_concat_ge P l Hne HP). rewrite length_app. lia.
Qed.

Lemma skip_complete d :
  reads (skip_depth d) (item d) →
  ∀ b rest, item (S d) b → skip_depth (S d) (b ++ rest) = (true, rest).
Proof.
  intros Hd b rest (m & a & h & body & Hh & -> & Hbody). cbn [skip_depth].
  rewrite <- app_assoc, (head_complete m a) by done.
  pose proof (is_head_bytes _ _ _ Hh) as (_ & _ & Ha).
  destruct m; try (by subst).
  - rewrite (proj2 (Z.ltb_ge _ _)) by (rewrite zlen_app; pose proof (zlen_nonneg rest); lia).
    by rewrite zdrop_app_eq.
  - rewrite (proj2 (Z.ltb_ge _ _)) by (rewrite zlen_app; pose proof (zlen_nonneg rest); lia).
    by rewrite zdrop_app_eq.
  - destruct Hbody as (l & <- & HP & ->). apply times_list with (P := item d); eauto using item_nonempty.
  - destruct Hbody as (l & Hl & HP & ->).
    destruct (pair_up (item d) (Z.to_nat a) l) as (l' & Hl' & HP' & <-); [lia|done|].
    replace a with (zlen l') by lia. apply times_list with (P := pairs (item d)); [by apply reads_twice| |done].
    intros b. apply pairs_nonempty, item_nonempty.
  - by apply Hd.
Qed.

Lemma skip_sound d :
  reads (skip_depth d) (item d) →
  ∀ c rest, is_bytes c → skip_depth (S d) c = (true, rest) → ∃ b, item (S d) b ∧ c = b ++ rest.
Proof.
  intros Hd c rest Hb. cbn [skip_depth].
  destruct (oc_cbor_head c) as [[[m a]|] c'] eqn:E; [|done].
  destruct (head_sound _ _ _ _ Hb E) as (h & Hh & ->).
  apply is_bytes_app in Hb as [_ Hb']. pose proof (is_head_bytes _ _ _ Hh) as (_ & _ & Ha).
  intros Hs. cut (∃ body, c' = body ++ rest ∧
    match m with
    | OC_CBOR_UINT | OC_CBOR_NINT | OC_CBOR_SIMPLE => body = []
    | OC_CBOR_BYTES | OC_CBOR_TEXT => zlen body = a
    | OC_CBOR_ARRAY => ∃ l, zlen l = a ∧ Forall (item d) l ∧ body = concat l
    | OC_CBOR_MAP => ∃ l, zlen l = 2 * a ∧ Forall (item d) l ∧ body = concat l
    | OC_CBOR_TAG => item d body
    end).
  { intros (body & -> & Hbody). exists (h ++ body). rewrite app_assoc. split; [|done].
    by exists m, a, h, body. }
  destruct m; try (by injection Hs as ->; exists []).
  - destruct (Z.ltb_spec (zlen c') a); [done|]. injection Hs as <-. exists (ztake a c').
    rewrite ztake_zdrop, zlen_ztake; [done|lia].
  - destruct (Z.ltb_spec (zlen c') a); [done|]. injection Hs as <-. exists (ztake a c').
    rewrite ztake_zdrop, zlen_ztake; [done|lia].
  - destruct (times_sound _ _ _ _ _ _ Hd (proj1 Ha) Hb' Hs) as (l & Hl & HP & ->). eauto 10.
  - destruct (times_sound _ _ _ _ _ _ (reads_twice _ _ Hd) (proj1 Ha) Hb' Hs) as (l' & Hl' & HP & ->).
    destruct (unpair _ _ HP) as (l & Hl & HP' & ->). exists (concat l). split; [done|].
    exists l. split_and!; [lia|done..].
  - destruct (proj2 Hd _ _ Hb' Hs) as (b & Hi & ->). eauto.
Qed.

Lemma skip_reads d : reads (skip_depth d) (item d).
Proof.
  induction d as [|d IH]; [by split|]. split; [by apply skip_complete|by apply skip_sound].
Qed.

(** ** Looking up a key *)

(** [k] is the item the caller asks for: the text [key], or the integer [ikey]. *)
Definition names_key (key : option (list Z)) (ikey : Z) (k : list Z) : Prop :=
  match key with
  | Some s => ∃ h, is_head OC_CBOR_TEXT (zlen s) h ∧ k = h ++ s
  | None => is_head OC_CBOR_UINT ikey k ∨ is_head OC_CBOR_NINT (-1 - ikey) k
  end.

Lemma head_inj m a h body m' a' h' body' :
  is_head m a h → is_head m' a' h' → h ++ body = h' ++ body' → m = m' ∧ a = a' ∧ body = body'.
Proof.
  intros H H' E. pose proof (head_complete _ _ _ body H) as E1. rewrite E in E1.
  rewrite (head_complete _ _ _ body' H') in E1. by injection E1 as -> -> ->.
Qed.

Lemma text_hit s ikey d k rest :
  item d k → key_hit (Some s) ikey (k ++ rest) = true ↔ names_key (Some s) ikey k.
Proof.
  destruct d as [|d]; [done|]. intros (m & a & h & body & Hh & -> & Hb).
  unfold key_hit, oc_cbor_string. rewrite <- app_assoc, (head_complete m a) by done.
  unfold names_key. split.
  - case_bool_decide as Hm; [|done]. subst m. cbn [negb orb].
    destruct (_ <? _); [done|]. cbn [fst]. rewrite ztake_app_eq by done.
    rewrite bool_decide_eq_true. intros <-. exists h. by rewrite Hb.
  - intros (h' & Hh' & E). destruct (head_inj _ _ _ _ _ _ _ _ Hh Hh' E) as (-> & -> & ->).
    rewrite bool_decide_eq_true_2 by done. cbn [negb orb].
    rewrite (proj2 (Z.ltb_ge _ _)) by (rewrite zlen_app; pose proof (zlen_nonneg rest); lia).
    cbn [fst]. rewrite ztake_app_eq by done. by rewrite bool_decide_eq_true.
Qed.

Lemma int_hit ikey d k rest :
  is_i64 ikey → item d k → key_hit None ikey (k ++ rest) = true ↔ names_key None ikey k.
Proof.
  destruct d as [|d]; [done|]. intros Hi (m & a & h & body & Hh & -> & Hb).
  unfold key_hit, oc_cbor_int. rewrite <- app_assoc, (head_complete m a) by done.
  pose proof (is_head_bytes _ _ _ Hh) as (_ & _ & Ha). unfold names_key, is_i64 in *. split.
  - destruct (Z.ltb_spec INT64_MAX a); [done|].
    destruct m; try done; cbn [fst]; rewrite Z.eqb_eq; subst body; rewrite app_nil_r; intros <-; [by left|right].
    by replace (-1 - (-1 - a)) with a by lia.
  - pose proof (eq_sym (app_nil_r (h ++ body))) as E. intros [H'|H'];
      destruct (head_inj _ _ _ _ _ _ _ _ Hh H' E) as (-> & Ea & _);
      rewrite (proj2 (Z.ltb_ge INT64_MAX a)) by (unfold INT64_MAX; lia); cbn [fst]; lia.
Qed.

Lemma key_hit_iff key ikey d k rest :
  is_i64 ikey → item d k → key_hit key ikey (k ++ rest) = true ↔ names_key key ikey k.
Proof. destruct key; eauto using text_hit, int_hit. Qed.

Definition pair_bytes (kv : list Z * list Z) : list Z := kv.1 ++ kv.2.
Definition map_bytes (l : list (list Z * list Z)) : list Z := concat (pair_bytes <$> l).

(** What a lookup in the entries [l] finds: the cursor at the value of the
    first entry with the key. *)
Definition looked_up (key : option (list Z)) (ikey : Z) (l : list (list Z * list Z)) (rest : list Z)
    (r : map_result) : Prop :=
  (∃ l1 k v l2, l = l1 ++ (k, v) :: l2 ∧ names_key key ikey k ∧
     Forall (fun kv => ¬ names_key key ikey kv.1) l1 ∧ r = MapFound (v ++ map_bytes l2 ++ rest)) ∨
  (Forall (fun kv => ¬ names_key key ikey kv.1) l ∧ r = MapAbsent).

Definition entry_items (kv : list Z * list Z) : Prop :=
  item (S OC_CBOR_MAX_DEPTH) kv.1 ∧ item (S OC_CBOR_MAX_DEPTH) kv.2.

Lemma map_bytes_cons k v l rest : map_bytes ((k, v) :: l) ++ rest = k ++ v ++ map_bytes l ++ rest.
Proof. unfold map_bytes. cbn. unfold pair_bytes at 1. cbn. by rewrite <- !app_assoc. Qed.

Lemma map_loop_spec key ikey l rest : ∀ fuel,
  is_i64 ikey → Forall entry_items l → (length l < fuel)%nat →
  looked_up key ikey l rest (map_loop fuel (zlen l) key ikey (map_bytes l ++ rest)).
Proof.
  induction l as [|[k v] l IH]; intros [|fuel] Hi Hl Hf; try (simpl in Hf; lia); cbn [map_loop].
  { right. by split. }
  apply Forall_cons_iff in Hl as [[Hk Hv] Hl]. cbn [fst snd] in Hk, Hv.
  rewrite zlen_cons, (proj2 (Z.leb_gt _ 0)) by (pose proof (zlen_nonneg l); lia).
  rewrite map_bytes_cons. unfold oc_cbor_skip.
  destruct (skip_reads (S OC_CBOR_MAX_DEPTH)) as [Hskip _]. rewrite !Hskip by done.
  destruct (key_hit key ikey (k ++ v ++ map_bytes l ++ rest)) eqn:Hhit.
  - left. exists [], k, v, l. split_and!; [done| |apply List.Forall_nil|done]. by apply (key_hit_iff _ _ _ _ _ Hi Hk) in Hhit.
  - assert (¬ names_key key ikey k) as Hno.
    { intros Hn. apply (key_hit_iff _ _ _ _ (v ++ map_bytes l ++ rest) Hi Hk) in Hn. congruence. }
    replace (1 + zlen l - 1) with (zlen l) by lia.
    destruct (IH fuel Hi Hl ltac:(simpl in Hf; lia)) as [(l1 & k' & v' & l2 & -> & Hn & Hl1 & ->)|[Hall ->]].
    + left. exists ((k, v) :: l1), k', v', l2. split_and!; try done. by constructor.
    + right. split; [by constructor|done].
Qed.

(** C31: [oc_cbor_skip] accepts exactly one well-formed item.  On any bytes it
    succeeds precisely when they start with an item of definite length and at
    most nine levels, and it leaves the cursor right behind that item. *)
Theorem cbor_skip_exact c rest :
  is_bytes c →
  oc_cbor_skip c = (true, rest) ↔ ∃ b, item (S OC_CBOR_MAX_DEPTH) b ∧ c = b ++ rest.
Proof.
  intros Hc. destruct (skip_reads (S OC_CBOR_MAX_DEPTH)) as [Hcomp Hsound]. split.
  - by apply Hsound.
  - intros (b & Hb & ->). by apply Hcomp.
Qed.

(** [{1: "a"}] and a byte behind it. *)
Lemma cbor_skip_exact_witness : ∃ b, item (S OC_CBOR_MAX_DEPTH) b ∧ [161; 1; 97; 65; 200] = b ++ [200].
Proof.
  apply (cbor_skip_exact [161; 1; 97; 65; 200] [200]); [repeat constructor; lia|]. vm_compute. reflexivity.
Defined.

(** [oc_cbor_map_get] finds the first entry with the key.  On a map of
    well-formed keys and values, whatever follows it, the result is the cursor at
    the value of the first entry whose key is the text or the integer asked for,
    and "absent" when no entry has it. *)
Theorem cbor_map_get_spec h l rest key ikey :
  is_head OC_CBOR_MAP (zlen l) h → Forall entry_items l → is_i64 ikey →
  looked_up key ikey l rest (oc_cbor_map_get (h ++ map_bytes l ++ rest) key ikey).
Proof.
  intros Hh Hl Hi. unfold oc_cbor_map_get. rewrite (head_complete _ _ _ _ Hh).
  apply map_loop_spec; [done..|].
  enough (length l <= length (map_bytes l))%nat by (rewrite length_app; lia).
  unfold map_bytes. rewrite <- (length_fmap pair_bytes l).
  apply length_concat_ge with (P := fun b => b ≠ []); [done|].
  apply Forall_fmap. eapply List.Forall_impl; [|exact Hl]. intros [k v] [Hk _]. cbn.
  apply item_nonempty in Hk. unfold pair_bytes. by destruct k.
Qed.

Lemma cbor_map_get_spec_witness :
  looked_up None (-2) [([1], [97; 65]); ([33], [66; 7; 8])] [9]
    (oc_cbor_map_get ([162] ++ map_bytes [([1], [97; 65]); ([33], [66; 7; 8])] ++ [9]) None (-2)).
Proof.
  apply cbor_map_get_spec; [apply (head_short OC_CBOR_MAP 2); lia| |done].
  assert (∀ b, is_bytes b → oc_cbor_skip b = (true, []) → item (S OC_CBOR_MAX_DEPTH) b) as Hi.
  { intros b Hb E. destruct (proj2 (skip_reads (S OC_CBOR_MAX_DEPTH)) b [] Hb E) as (b' & H & ->).
    by rewrite app_nil_r. }
  repeat apply List.Forall_cons; try apply List.Forall_nil; split;
    (apply Hi; [repeat constructor; lia|vm_compute; reflexivity]).
Defined.
