(* ===== verification/Aead.v ===== *)
(** * Authenticated encryption

    AES-GCM as the sources call it in mbedtls ([mbedtls_gcm_setkey] with
    [mbedtls_gcm_crypt_and_tag] or [mbedtls_gcm_auth_decrypt]), with a 16-byte tag,
    and what they rely on; and HKDF and HMAC with SHA-256. *)
From stdpp Require Import base tactics list numbers.
From S2P Require Import Prelude.
Local Open Scope Z_scope.

Record gcm := mk_gcm {
  (** [key] [nonce] [aad] [plaintext]: the ciphertext and the tag. *)
  gcm_crypt_and_tag : list Z → list Z → list Z → list Z → option (list Z * list Z);
  (** [key] [nonce] [aad] [ciphertext] [tag]: the plaintext. *)
  gcm_auth_decrypt : list Z → list Z → list Z → list Z → list Z → option (list Z) }.

(** The ciphertext is as long as the plaintext, what was sealed opens, and a
    ciphertext and tag that open are those that sealing gives: counter mode is a
    bijection and the tag is recomputed and compared. *)
Class GcmLaws (g : gcm) : Prop := {
  gcm_lens : ∀ k n a p c t, gcm_crypt_and_tag g k n a p = Some (c, t) → zlen c = zlen p ∧ zlen t = 16;
  gcm_opens : ∀ k n a p c t, gcm_crypt_and_tag g k n a p = Some (c, t) → gcm_auth_decrypt g k n a c t = Some p;
  gcm_only : ∀ k n a c t p, gcm_auth_decrypt g k n a c t = Some p → gcm_crypt_and_tag g k n a p = Some (c, t) }.

(** ** A scheme to run the definitions with *)

Definition toy_tag (k n a p : list Z) : list Z := replicate 16 (u8 (foldr Z.add 0 (k ++ n ++ a ++ p))).
Definition toy_gcm : gcm := mk_gcm
  (fun k n a p => Some (p, toy_tag k n a p))
  (fun k n a c t => if bool_decide (t = toy_tag k n a c) then Some c else None).
#[export] Instance toy_gcm_laws : GcmLaws toy_gcm.
Proof.
  split; cbn.
  - by intros k n a p c t [= <- <-].
  - intros k n a p c t [= <- <-]. by rewrite bool_decide_eq_true_2.
  - intros k n a c t p. case_bool_decide; [|done]. by intros [= <-]; subst.
Qed.
