(* ===== verification/Sframe.v ===== *)
(** * SFrame: [shared/e2e_sframe.c]

    The packets of a call, each encrypted under a sender's key: the header that
    names the key and the counter, the key derivation, sealing and opening, and
    the receiver's replay window.  AES-GCM and HKDF are those of mbedtls. *)
From stdpp Require Import base tactics list numbers strings.
From S2P Require Import Prelude.
From S2P Require Import Wire.
From S2P Require Import WireRead.
From S2P Require Import Aead.
Local Open Scope Z_scope.
Local Open Scope oc_scope.

Definition OC_SFRAME_SUITE : Z := 4.
Definition OC_SFRAME_TAG_LEN : Z := 16.
Definition OC_SFRAME_HDR_MAX : Z := 17.
Definition OC_SFRAME_REPLAY_WINDOW : Z := 1024.
Definition NK : Z := 16.
Definition NN : Z := 12.
Definition NH : Z := 32.
Definition AAD_MAX : Z := 128.

(** ** The header *)

Fixpoint min_bytes_from (fuel : nat) (n v : Z) : Z :=
  match fuel with
  | O => n
  | S fuel => if (n <? 8) && negb (Z.shiftr v (8 * n) =? 0) then min_bytes_from fuel (n + 1) v else n
  end.
Definition min_bytes (v : Z) : Z := min_bytes_from 8 1 v.

(** The [l] bytes of a field, most significant first. *)
Fixpoint field_bytes (l : nat) (v : Z) : list Z :=
  match l with
  | O => []
  | S l => u8 (Z.shiftr v (8 * Z.of_nat l)) :: field_bytes l v
  end.
Definition oc_sframe_header_encode (kid ctr : Z) : list Z :=
  let '(cfg, ks) :=
    if kid <? 8 then (u8 (Z.shiftl kid 4), [])
    else (u8 (Z.lor 0x80 (Z.shiftl (min_bytes kid - 1) 4)), field_bytes (Z.to_nat (min_bytes kid)) kid) in
  let '(cfg, cs) :=
    if ctr <? 8 then (Z.lor cfg (u8 ctr), [])
    else (Z.lor cfg (u8 (Z.lor 0x08 (min_bytes ctr - 1))), field_bytes (Z.to_nat (min_bytes ctr)) ctr) in
  cfg :: ks ++ cs.

Definition push (x b : Z) : Z := u64 (Z.lor (Z.shiftl x 8) b).
(** The value and the offset behind it. *)
Definition read_ext (inp : list Z) (off l : Z) : option (Z * Z) :=
  if zlen inp - off <? l then None
  else
    let x := foldl push 0 (ztake l (zdrop off inp)) in
    if (x <? 8) || negb (min_bytes x =? l) then None else Some (x, off + l).
Definition header_field (inp : list Z) (ext : bool) (bits off : Z) : option (Z * Z) :=
  if ext then read_ext inp off (bits + 1) else Some (bits, off).
(** The KID, the CTR and the header's length. *)
Definition oc_sframe_header_decode (inp : list Z) : option (Z * Z * Z) :=
  match inp with
  | [] => None
  | cfg :: _ =>
      '(kid, off) ← header_field inp (negb (Z.land cfg 0x80 =? 0)) (Z.land (Z.shiftr cfg 4) 7) 1;
      '(ctr, off) ← header_field inp (negb (Z.land cfg 0x08 =? 0)) (Z.land cfg 7) off;
      Some (kid, ctr, off)
  end.

(** ** Keys *)

Record oc_sframe_key := mk_sframe_key { sk_kid : Z; sk_key : list Z; sk_salt : list Z; sk_ready : bool }.
Definition sframe_no_key : oc_sframe_key := mk_sframe_key 0 [] [] false.
Definition key_label : string := "SFrame 1.0 Secret key ".
Definition salt_label : string := "SFrame 1.0 Secret salt ".
Definition sframe_label (s : string) (kid : Z) : list Z :=
  text_bytes s ++ be64 kid ++ [u8 (Z.shiftr OC_SFRAME_SUITE 8); u8 OC_SFRAME_SUITE].

Section sframe.
Context (g : gcm) (hkdf_extract : list Z → option (list Z)) (hkdf_expand : list Z → list Z → Z → option (list Z)).

(** [None] when it fails, which leaves the key wiped. *)
Definition oc_sframe_key_init (kid : Z) (base_key : list Z) : option oc_sframe_key :=
  secret ← hkdf_extract base_key;
  key ← hkdf_expand secret (sframe_label key_label kid) NK;
  salt ← hkdf_expand secret (sframe_label salt_label kid) NN;
  Some (mk_sframe_key kid key salt true).

(** ** Sealing and opening *)

Definition make_nonce (k : oc_sframe_key) (ctr : Z) : list Z :=
  foldl (fun nonce i => <[(11 - i)%nat := Z.lxor (nth (11 - i) nonce 0) (u8 (Z.shiftr ctr (8 * Z.of_nat i)))]> nonce) (sk_salt k) (seq 0 8).
Definition oc_sframe_encrypt (k : oc_sframe_key) (ctr : Z) (meta pt : list Z) (cap : Z) : option (list Z) :=
  if negb (sk_ready k) then None
  else
    let hdr := oc_sframe_header_encode (sk_kid k) ctr in
    if (AAD_MAX <? zlen hdr + zlen meta) || (cap <? zlen hdr + zlen pt + OC_SFRAME_TAG_LEN) then None
    else
      '(ct, tag) ← gcm_crypt_and_tag g (sk_key k) (make_nonce k ctr) (hdr ++ meta) pt;
      Some (hdr ++ ct ++ tag).
(** The plaintext and the counter. *)
Definition oc_sframe_decrypt (k : oc_sframe_key) (meta inp : list Z) (cap : Z) : option (list Z * Z) :=
  if negb (sk_ready k) then None
  else
    '(kid, c, hl) ← oc_sframe_header_decode inp;
    if negb (kid =? sk_kid k) || (zlen inp <? hl + OC_SFRAME_TAG_LEN) || (AAD_MAX <? hl + zlen meta) then None
    else
      let n := zlen inp - hl - OC_SFRAME_TAG_LEN in
      if cap <? n then None
      else
        pt ← gcm_auth_decrypt g (sk_key k) (make_nonce k c) (ztake hl inp ++ meta) (ztake n (zdrop hl inp)) (zdrop (hl + n) inp);
        Some (pt, c).
End sframe.

(** ** The replay window *)

Record oc_sframe_replay := mk_replay { rw_top : Z; rw_seen : list Z; rw_any : bool }.
Definition replay_words : list Z := replicate 16 0.
Definition replay_zero : oc_sframe_replay := mk_replay 0 replay_words false.
Definition word (seen : list Z) (i : Z) : Z := nth (Z.to_nat (i / 64)) seen 0.
Definition replay_bit (w : oc_sframe_replay) (ctr : Z) : bool :=
  let i := ctr mod OC_SFRAME_REPLAY_WINDOW in
  negb (Z.land (Z.shiftr (word (rw_seen w) i) (i mod 64)) 1 =? 0).
Definition set_bit (ctr : Z) (seen : list Z) : list Z :=
  let i := ctr mod OC_SFRAME_REPLAY_WINDOW in
  <[Z.to_nat (i / 64) := Z.lor (word seen i) (u64 (Z.shiftl 1 (i mod 64)))]> seen.
Definition clear_bit (ctr : Z) (seen : list Z) : list Z :=
  let i := ctr mod OC_SFRAME_REPLAY_WINDOW in
  <[Z.to_nat (i / 64) := Z.land (word seen i) (u64 (Z.lnot (Z.shiftl 1 (i mod 64))))]> seen.

Definition oc_sframe_replay_ok (w : oc_sframe_replay) (ctr : Z) : bool :=
  if negb (rw_any w) || (rw_top w <? ctr) then true
  else if OC_SFRAME_REPLAY_WINDOW <=? rw_top w - ctr then false
  else negb (replay_bit w ctr).

(** [for (c = top + 1; c <= ctr; c++)] over 64-bit counters; [None] when [fuel]
    turns are not enough. *)
Fixpoint slide (fuel : nat) (c ctr : Z) (seen : list Z) : option (list Z) :=
  if ctr <? c then Some seen
  else
    match fuel with
    | O => None
    | S fuel => slide fuel (u64 (c + 1)) ctr (clear_bit c seen)
    end.
Definition oc_sframe_replay_mark (fuel : nat) (w : oc_sframe_replay) (ctr : Z) : option oc_sframe_replay :=
  if negb (rw_any w) then Some (mk_replay ctr (set_bit ctr replay_words) true)
  else if rw_top w <? ctr then
    let step := ctr - rw_top w in
    seen ← (if OC_SFRAME_REPLAY_WINDOW <=? step then Some replay_words else slide fuel (u64 (rw_top w + 1)) ctr (rw_seen w));
    Some (mk_replay ctr (set_bit ctr seen) true)
  else if OC_SFRAME_REPLAY_WINDOW <=? rw_top w - ctr then Some w
  else Some (mk_replay (rw_top w) (set_bit ctr (rw_seen w)) true).

(** ** Facts of the header *)

Lemma shiftr_zero v n : 0 <= v → 0 <= n → Z.shiftr v n = 0 ↔ v < 2 ^ n.
Proof. intros. rewrite Z.shiftr_div_pow2 by lia. rewrite Z.div_small_iff by (apply Z.pow_nonzero; lia). split; [intros [|]; lia|lia]. Qed.
(** [l] bytes hold [v], and one less do not. *)
Definition fits (l v : Z) : Prop := 1 <= l <= 8 ∧ v < 2 ^ (8 * l) ∧ (l = 1 ∨ 2 ^ (8 * (l - 1)) <= v).
Lemma min_bytes_from_fits fuel : ∀ n v, 1 <= n <= 8 → 8 - n <= Z.of_nat fuel → is_u64 v → (n = 1 ∨ 2 ^ (8 * (n - 1)) <= v) → fits (min_bytes_from fuel n v) v.
Proof.
  induction fuel as [|fuel IH]; intros n v Hn Hf Hv Hlow; cbn [min_bytes_from].
  { assert (n = 8) as -> by lia. split; [lia|]. split; [apply Hv|done]. }
  destruct (Z.ltb_spec n 8) as [Hlt|]; cbn [andb]; [|assert (n = 8) as -> by lia; split; [lia|]; split; [apply Hv|done]].
  destruct (Z.eqb_spec (Z.shiftr v (8 * n)) 0) as [H0|H0]; cbn [negb]; rewrite shiftr_zero in H0 by (destruct Hv; lia); [by split_and!; [lia|lia|..]|].
  apply IH; [lia|lia|done|]. right. replace (8 * (n + 1 - 1)) with (8 * n) by lia. lia.
Qed.
Lemma min_bytes_fits v : is_u64 v → fits (min_bytes v) v.
Proof. intros. apply min_bytes_from_fits; auto; lia. Qed.
Lemma fits_unique l m v : fits l v → fits m v → l = m.
Proof.
  assert (H : ∀ l m, fits l v → fits m v → l <= m); [|intros; apply Z.le_antisymm; by apply H].
  clear. intros l m (Hl & _ & Hlow) (Hm & Hv & _). destruct Hlow as [->|Hlow]; [lia|]. assert (8 * (l - 1) < 8 * m) by (apply (Z.pow_lt_mono_r_iff 2); lia). lia.
Qed.

Lemma push_sum x b : 0 <= x < 2 ^ 56 → is_u8 b → push x b = x * 256 + b.
Proof.
  intros Hx Hb. unfold push. rewrite (lor_disjoint_add _ _ 8), Z.shiftl_mul_pow2 by (try rewrite Z.shiftl_mul_pow2; unfold_ints; zlia). apply u64_id. unfold_ints. lia.
Qed.
Lemma pow_byte l : 2 ^ (8 * Z.of_nat (S l)) = 2 ^ (8 * Z.of_nat l) * 256.
Proof. rewrite <- (Z.pow_add_r 2 _ 8) by lia. f_equal. lia. Qed.
Lemma pow_pos n : 0 <= n → 1 <= 2 ^ n.
Proof. intros. pose proof (Z.pow_pos_nonneg 2 n). lia. Qed.
Lemma field_value l : ∀ acc v, 0 <= acc → (acc + 1) * 2 ^ (8 * Z.of_nat l) <= 2 ^ 64 → 0 <= v →
  foldl push acc (field_bytes l v) = acc * 2 ^ (8 * Z.of_nat l) + v mod 2 ^ (8 * Z.of_nat l).
Proof.
  induction l as [|l IH]; intros acc v Ha Hb Hv; [cbn; rewrite Z.mod_1_r; lia|]. cbn [field_bytes foldl]. rewrite pow_byte in *. pose proof (pow_pos (8 * Z.of_nat l) ltac:(lia)) as Hp.
  set (P := 2 ^ (8 * Z.of_nat l)) in *. rewrite push_sum by (split; [lia|nia] || apply u8_range). rewrite IH by (try done; fold P; pose proof (u8_range (Z.shiftr v (8 * Z.of_nat l))); unfold_ints; nia).
  fold P. rewrite Z.shiftr_div_pow2 by lia. fold P. rewrite Z.rem_mul_r by lia. unfold u8. change (2 ^ 8) with 256. lia.
Qed.
Lemma field_of_value bs : ∀ acc, is_bytes bs → 0 <= acc → (acc + 1) * 2 ^ (8 * Z.of_nat (length bs)) <= 2 ^ 64 → let x := foldl push acc bs in
  acc * 2 ^ (8 * Z.of_nat (length bs)) <= x < (acc + 1) * 2 ^ (8 * Z.of_nat (length bs)) ∧ field_bytes (length bs) x = bs.
Proof.
  induction bs as [|b bs IH]; intros acc Hbs Ha Hb; [cbn in *; split; [lia|done]|]. apply list.Forall_cons in Hbs as [H8 Hbs]. cbn [length foldl field_bytes] in *. rewrite pow_byte in *.
  pose proof (pow_pos (8 * Z.of_nat (length bs)) ltac:(lia)) as Hp. set (P := 2 ^ (8 * Z.of_nat (length bs))) in *. rewrite push_sum by (split; [lia|nia] || done).
  destruct (IH (acc * 256 + b) Hbs) as [Hx Hf]; [unfold_ints; lia|fold P; unfold_ints; nia|]. fold P in Hx. set (x := foldl push (acc * 256 + b) bs) in *. split; [unfold_ints; nia|].
  f_equal; [|exact Hf]. rewrite Z.shiftr_div_pow2 by lia. fold P. assert (x / P = acc * 256 + b) as -> by (symmetry; apply (Z.div_unique _ _ _ (x - (acc * 256 + b) * P)); nia).
  unfold u8. change (2 ^ 8) with 256. rewrite Z.add_comm, Z.mod_add by lia. apply Z.mod_small. exact H8.
Qed.
Lemma field_length l v : length (field_bytes l v) = l.
Proof. induction l as [|l IH]; [done|]. cbn. by rewrite IH. Qed.
Lemma field_is_bytes l v : is_bytes (field_bytes l v).
Proof. induction l; cbn; constructor; [apply u8_range|done]. Qed.

(** The nibble of the config byte that stands for a field, and the bytes behind. *)
Definition nibble (v : Z) : Z := if v <? 8 then v else 8 + (min_bytes v - 1).
Definition ext (v : Z) : list Z := if v <? 8 then [] else field_bytes (Z.to_nat (min_bytes v)) v.
Lemma small_all n (P : Z → bool) : forallb P (seqZ 0 n) = true → ∀ i, 0 <= i < n → P i = true.
Proof. intros H i Hi. rewrite forallb_forall in H. apply H. apply list_elem_of_In, elem_of_seqZ. lia. Qed.
Lemma nibble_range v : is_u64 v → 0 <= nibble v < 16.
Proof. intros Hv. unfold nibble. destruct (min_bytes_fits v Hv) as [? _]. destruct (Z.ltb_spec v 8); unfold_ints; lia. Qed.
Lemma encode_shape kid ctr : is_u64 kid → is_u64 ctr → oc_sframe_header_encode kid ctr = (nibble kid * 16 + nibble ctr) :: ext kid ++ ext ctr.
Proof.
  intros Hk Hc. pose proof (nibble_range kid Hk) as Rk. pose proof (nibble_range ctr Hc) as Rc.
  assert (Ek : (if kid <? 8 then u8 (Z.shiftl kid 4) else u8 (Z.lor 0x80 (Z.shiftl (min_bytes kid - 1) 4))) = nibble kid * 16).
  { unfold nibble in *. destruct (min_bytes_fits kid Hk) as [? _]. destruct (Z.ltb_spec kid 8); apply Z.eqb_eq.
    - apply (small_all 8 (fun j => u8 (Z.shiftl j 4) =? j * 16)); [reflexivity|lia].
    - apply (small_all 8 (fun j => u8 (Z.lor 128 (Z.shiftl j 4)) =? (8 + j) * 16)); [reflexivity|lia]. }
  assert (Ec : (if ctr <? 8 then u8 ctr else u8 (Z.lor 0x08 (min_bytes ctr - 1))) = nibble ctr).
  { unfold nibble in *. destruct (min_bytes_fits ctr Hc) as [? _]. destruct (Z.ltb_spec ctr 8); apply Z.eqb_eq.
    - apply (small_all 8 (fun j => u8 j =? j)); [reflexivity|lia].
    - apply (small_all 8 (fun j => u8 (Z.lor 8 j) =? 8 + j)); [reflexivity|lia]. }
  unfold oc_sframe_header_encode, ext. rewrite <- (lor_disjoint_add _ _ 4), <- Ek, <- Ec; [by destruct (kid <? 8), (ctr <? 8)|lia|change (2 ^ 4) with 16; lia|].
  change (2 ^ 4) with 16. apply Z.mod_mul. lia.
Qed.
Lemma cfg_bits K C : 0 <= K < 16 → 0 <= C < 16 → let cfg := K * 16 + C in
  negb (Z.land cfg 0x80 =? 0) = (8 <=? K) ∧ Z.land (Z.shiftr cfg 4) 7 = K mod 8 ∧ negb (Z.land cfg 0x08 =? 0) = (8 <=? C) ∧ Z.land cfg 7 = C mod 8.
Proof.
  intros HK HC cfg. pose proof (small_all 16 (fun K => forallb (fun C => let cfg := K * 16 + C in
    eqb (negb (Z.land cfg 0x80 =? 0)) (8 <=? K) && (Z.land (Z.shiftr cfg 4) 7 =? K mod 8) && eqb (negb (Z.land cfg 0x08 =? 0)) (8 <=? C) && (Z.land cfg 7 =? C mod 8)) (seqZ 0 16))
    ltac:(vm_compute; reflexivity) K HK) as H. pose proof (small_all 16 _ H C HC) as H'. cbn beta zeta in H'. rewrite !andb_true_iff, !Z.eqb_eq, !eqb_true_iff in H'. unfold cfg. tauto.
Qed.
Lemma ext_length v : is_u64 v → zlen (ext v) = if v <? 8 then 0 else min_bytes v.
Proof. intros Hv. unfold ext. destruct (v <? 8); [done|]. unfold zlen. rewrite field_length. destruct (min_bytes_fits v Hv) as [? _]. lia. Qed.

Lemma field_reads pre v rest : is_u64 v → header_field (pre ++ ext v ++ rest) (8 <=? nibble v) (nibble v mod 8) (zlen pre) = Some (v, zlen pre + zlen (ext v)).
Proof.
  intros Hv. pose proof (ext_length v Hv) as Hl. destruct (min_bytes_fits v Hv) as (Hm & Hlt & Hlow). unfold header_field, nibble in *. destruct (Z.ltb_spec v 8) as [Hs|Hs].
  - rewrite (proj2 (Z.leb_gt 8 v)) by lia. rewrite Z.mod_small by (unfold_ints; lia). by rewrite Hl, Z.add_0_r.
  - rewrite (proj2 (Z.leb_le 8 _)) by lia. replace ((8 + (min_bytes v - 1)) mod 8 + 1) with (min_bytes v) by zlia. unfold read_ext. rewrite !zlen_app, Hl. pose proof (zlen_nonneg rest).
    destruct (Z.ltb_spec (zlen pre + (min_bytes v + zlen rest) - zlen pre) (min_bytes v)); [lia|]. rewrite zdrop_app_eq, ztake_app_eq by done. unfold ext. rewrite (proj2 (Z.ltb_ge v 8)) by lia.
    rewrite field_value; [|lia|rewrite Z.mul_1_l, Z2Nat.id by lia; apply Z.pow_le_mono_r; lia|apply Hv]. rewrite Z2Nat.id, Z.mod_small by (unfold_ints; lia). rewrite Z.mul_0_l, Z.add_0_l.
    rewrite (proj2 (Z.ltb_ge v 8)), Z.eqb_refl by lia. done.
Qed.
Lemma field_canonical inp K off v off' : is_bytes inp → 0 <= off <= zlen inp → 0 <= K < 16 → header_field inp (8 <=? K) (K mod 8) off = Some (v, off') →
  is_u64 v ∧ nibble v = K ∧ off' = off + zlen (ext v) ∧ ztake (zlen (ext v)) (zdrop off inp) = ext v ∧ off' <= zlen inp.
Proof.
  intros Hb Ho HK. unfold header_field, nibble. destruct (Z.leb_spec 8 K) as [H8|H8].
  - unfold read_ext. set (l := K mod 8 + 1). assert (Hl : 1 <= l <= 8) by (unfold l; zlia). destruct (Z.ltb_spec (zlen inp - off) l) as [|Hroom]; [done|].
    set (bs := ztake l (zdrop off inp)). assert (Hlen : length bs = Z.to_nat l) by (pose proof (zlen_ztake l (zdrop off inp) ltac:(rewrite zlen_zdrop by done; lia)) as H; unfold zlen in H; fold bs in H; lia).
    assert (Hbs : is_bytes bs) by (by apply is_bytes_ztake, is_bytes_zdrop). destruct (field_of_value bs 0 Hbs) as [Hx Hf]; [lia|rewrite Hlen, Z.mul_1_l, Z2Nat.id by lia; apply Z.pow_le_mono_r; lia|].
    set (x := foldl push 0 bs) in *. rewrite Hlen, Z2Nat.id in Hx by lia. assert (Hv : is_u64 x) by (split; [lia|]; apply Z.lt_le_trans with (2 ^ (8 * l)); [lia|apply Z.pow_le_mono_r; lia]).
    destruct ((x <? 8) || negb (min_bytes x =? l)) eqn:G; [done|]. apply orb_false_iff in G as [G1 G2%negb_false_iff%Z.eqb_eq]. intros [= <- <-]. pose proof (ext_length x Hv) as Hel. rewrite G1, G2 in *.
    split_and!; [done|unfold l; zlia|lia| |lia]. rewrite Hel. fold bs. unfold ext. by rewrite G1, G2, <- Hlen, Hf.
  - intros [= <- <-]. rewrite Z.mod_small by lia. assert (Hv : is_u64 K) by (unfold_ints; lia). pose proof (ext_length K Hv) as Hel. rewrite (proj2 (Z.ltb_lt K 8)) in * by lia.
    split_and!; [done|done|lia| |lia]. unfold ext. by rewrite (proj2 (Z.ltb_lt K 8)) by lia.
Qed.

Lemma decode_encode kid ctr rest : is_u64 kid → is_u64 ctr →
  oc_sframe_header_decode (oc_sframe_header_encode kid ctr ++ rest) = Some (kid, ctr, zlen (oc_sframe_header_encode kid ctr)).
Proof.
  intros Hk Hc. rewrite encode_shape by done. cbn [oc_sframe_header_decode app]. destruct (cfg_bits (nibble kid) (nibble ctr)) as (-> & -> & -> & ->); [by apply nibble_range..|].
  set (cfg := nibble kid * 16 + nibble ctr). rewrite <- app_assoc. change (cfg :: ext kid ++ ext ctr ++ rest) with ([cfg] ++ ext kid ++ (ext ctr ++ rest)).
  rewrite (field_reads [cfg]) by done. cbn [mbind option_bind]. replace ([cfg] ++ ext kid ++ ext ctr ++ rest) with (([cfg] ++ ext kid) ++ ext ctr ++ rest) by (by rewrite <- app_assoc).
  replace (zlen [cfg] + zlen (ext kid)) with (zlen ([cfg] ++ ext kid)) by apply zlen_app. rewrite field_reads by done. cbn [mbind option_bind]. by rewrite <- zlen_app, <- app_assoc.
Qed.
Lemma decode_canonical inp kid ctr hl : is_bytes inp → oc_sframe_header_decode inp = Some (kid, ctr, hl) →
  is_u64 kid ∧ is_u64 ctr ∧ hl <= zlen inp ∧ hl = zlen (oc_sframe_header_encode kid ctr) ∧ ztake hl inp = oc_sframe_header_encode kid ctr.
Proof.
  intros Hb. destruct inp as [|cfg rest]; [done|]. unfold oc_sframe_header_decode. pose proof Hb as [H8 Hrest]%list.Forall_cons. set (K := cfg / 16). set (C := cfg mod 16).
  assert (Hcfg : cfg = K * 16 + C) by (unfold K, C; zlia). assert (HK : 0 <= K < 16) by (unfold K; unfold_ints; zlia). assert (HC : 0 <= C < 16) by (unfold C; zlia).
  destruct (cfg_bits K C HK HC) as (E1 & E2 & E3 & E4). rewrite <- Hcfg in E1, E2, E3, E4. rewrite E1, E2, E3, E4. clear E1 E2 E3 E4. rewrite zlen_cons. pose proof (zlen_nonneg rest).
  destruct (header_field _ (8 <=? K) _ _) as [[v off]|] eqn:F1; [|done]. cbn [mbind option_bind]. apply field_canonical in F1 as (Hv & NK' & -> & T1 & B1); [|done|rewrite zlen_cons; lia|done].
  destruct (header_field _ (8 <=? C) _ _) as [[c off]|] eqn:F2; [|done]. cbn [mbind option_bind]. pose proof (zlen_nonneg (ext v)). apply field_canonical in F2 as (Hc & NC & -> & T2 & B2); [|done|lia|done].
  rewrite zlen_cons in *. intros [= <- <- <-]. rewrite encode_shape, NK', NC, <- Hcfg, zlen_cons, zlen_app by done. pose proof (zlen_nonneg (ext c)). split_and!; [done|done|lia|lia|].
  unfold ztake, zdrop in *. replace (Z.to_nat (1 + zlen (ext v) + zlen (ext c))) with (S (Z.to_nat (zlen (ext v)) + Z.to_nat (zlen (ext c)))) by lia. cbn [take]. f_equal.
  replace (Z.to_nat (1 + zlen (ext v))) with (S (Z.to_nat (zlen (ext v)))) in T2 by lia. change (Z.to_nat 1) with 1%nat in T1. cbn [drop] in T2. change (drop 1 (cfg :: rest)) with rest in T1.
  by rewrite <- take_take_drop, T1, T2.
Qed.

(** ** Nonces *)

Lemma nonce_shape k ctr : length (sk_salt k) = 12%nat → make_nonce k ctr = take 4 (sk_salt k) ++ zip_with Z.lxor (drop 4 (sk_salt k)) (be64 ctr).
Proof.
  intros H. unfold make_nonce. destruct (sk_salt k) as [|? [|? [|? [|? [|? [|? [|? [|? [|? [|? [|? [|? [|? ?]]]]]]]]]]]]]; try done.
Qed.
Lemma zip_lxor_inj xs : ∀ ys zs, length ys = length xs → length zs = length xs → zip_with Z.lxor xs ys = zip_with Z.lxor xs zs → ys = zs.
Proof.
  induction xs as [|x xs IH]; intros [|y ys] [|z zs]; cbn; try done. intros [= Hy] [= Hz] [= E1 E2]. f_equal; [|by apply IH].
  by rewrite <- (Z.lxor_0_l y), <- (Z.lxor_0_l z), <- (Z.lxor_nilpotent x), !Z.lxor_assoc, E1.
Qed.
Lemma nonce_inj k c c' : length (sk_salt k) = 12%nat → is_u64 c → is_u64 c' → make_nonce k c = make_nonce k c' → c = c'.
Proof.
  intros H Hc Hc'. rewrite !nonce_shape by done. intros E%app_inv_head. apply zip_lxor_inj in E; [|by rewrite length_drop, H..].
  by rewrite <- (of_be64_be64 c), <- (of_be64_be64 c'), E.
Qed.

(** ** Sealing and opening *)

Section codec.
Context (g : gcm) {L : GcmLaws g}.
Lemma seal_opens k ctr meta pt cap cap' out : is_u64 (sk_kid k) → is_u64 ctr → zlen pt <= cap' → oc_sframe_encrypt g k ctr meta pt cap = Some out →
  oc_sframe_decrypt g k meta out cap' = Some (pt, ctr).
Proof.
  intros Hk Hc Hp. unfold oc_sframe_encrypt, oc_sframe_decrypt. destruct (sk_ready k); [cbn [negb]|done]. set (hdr := oc_sframe_header_encode (sk_kid k) ctr).
  destruct ((AAD_MAX <? zlen hdr + zlen meta) || _) eqn:G; [done|]. apply orb_false_iff in G as [G _]. destruct (gcm_crypt_and_tag _ _ _ _ _) as [[ct tag]|] eqn:E; [|done]. cbn [mbind option_bind]. intros [= <-].
  destruct (gcm_lens _ _ _ _ _ _ E) as [Lc Lt]. pose proof (gcm_opens _ _ _ _ _ _ E) as O. assert (D : oc_sframe_header_decode (hdr ++ ct ++ tag) = Some (sk_kid k, ctr, zlen hdr)) by by apply decode_encode.
  rewrite D. cbn [mbind option_bind]. rewrite Z.eqb_refl, G, !zlen_app, Lc, Lt. cbn [negb orb].
  pose proof (zlen_nonneg pt). unfold OC_SFRAME_TAG_LEN. rewrite (proj2 (Z.ltb_ge _ _)) by lia. cbn [orb]. replace (zlen hdr + (zlen pt + 16) - zlen hdr - 16) with (zlen pt) by lia.
  rewrite (proj2 (Z.ltb_ge _ _)) by lia. rewrite ztake_app_eq, zdrop_app_eq by done. rewrite ztake_app_eq by done. rewrite app_assoc, zdrop_app_eq by (rewrite zlen_app; lia). by rewrite O.
Qed.
Lemma opens_sealed k ctr meta pt cap cap' inp : is_bytes inp → zlen inp <= cap → oc_sframe_decrypt g k meta inp cap' = Some (pt, ctr) →
  oc_sframe_encrypt g k ctr meta pt cap = Some inp.
Proof.
  intros Hb Hcap. unfold oc_sframe_encrypt, oc_sframe_decrypt. destruct (sk_ready k); [cbn [negb]|done]. destruct (oc_sframe_header_decode inp) as [[[kid c] hl]|] eqn:D; [|done]. cbn [mbind option_bind].
  apply decode_canonical in D as (Hk & Hc & Hle & Hhl & Hh); [|done]. destruct (_ || _ || _) eqn:G; [done|]. apply orb_false_iff in G as [G Ga]. apply orb_false_iff in G as [Gk%negb_false_iff%Z.eqb_eq Gl%Z.ltb_ge]. subst kid.
  set (n := zlen inp - hl - OC_SFRAME_TAG_LEN). destruct (cap' <? n); [done|]. destruct (gcm_auth_decrypt _ _ _ _ _ _) as [p|] eqn:O; [|done]. cbn [mbind option_bind]. intros [= <- <-].
  apply gcm_only in O. destruct (gcm_lens _ _ _ _ _ _ O) as [Lc Lt]. rewrite Hh in O. rewrite <- Hhl, Ga. unfold OC_SFRAME_TAG_LEN in *. pose proof (zlen_nonneg (oc_sframe_header_encode (sk_kid k) c)).
  rewrite zlen_ztake in Lc by (rewrite zlen_zdrop; lia). rewrite (proj2 (Z.ltb_ge _ _)) by lia. cbn [orb]. rewrite O. cbn [mbind option_bind]. f_equal.
  rewrite <- Hh. rewrite <- (ztake_zdrop hl inp) at 4. f_equal. rewrite <- (ztake_zdrop n (zdrop hl inp)) at 2. f_equal. symmetry. rewrite zdrop_zdrop by lia. f_equal. lia.
Qed.

(** C38: SFrame sealing and opening are inverse to each other: a packet opens under a
    key to a plaintext and a counter exactly when sealing that plaintext with that
    counter under the key gives the packet, byte for byte.  In particular no other
    spelling of a header is accepted, and what is sealed opens. *)
Theorem sframe_exact k meta inp pt ctr cap cap' : is_bytes inp → is_u64 (sk_kid k) → is_u64 ctr → zlen inp <= cap → zlen pt <= cap' →
  oc_sframe_encrypt g k ctr meta pt cap = Some inp ↔ oc_sframe_decrypt g k meta inp cap' = Some (pt, ctr).
Proof. intros Hb Hk Hc H1 H2. split; [by apply seal_opens|by apply opens_sealed]. Qed.
End codec.

(** A key of the KID 9, and a packet of the counter 300. *)
Definition ex_key : oc_sframe_key := mk_sframe_key 9 (replicate 16 1) (replicate 12 2) true.
Definition ex_packet : list Z := [129 + 8; 9; 1; 44; 5; 6; 7] ++ toy_tag (sk_key ex_key) (make_nonce ex_key 300) ([129 + 8; 9; 1; 44] ++ [77]) [5; 6; 7].
Lemma sframe_exact_witness : oc_sframe_decrypt toy_gcm ex_key [77] ex_packet 64 = Some ([5; 6; 7], 300).
Proof.
  apply (sframe_exact toy_gcm ex_key [77] ex_packet [5; 6; 7] 300 64 64); [|vm_compute; intuition discriminate..|vm_compute; reflexivity].
  repeat constructor; vm_compute; intuition discriminate.
Defined.

(** ** The replay window *)

Definition seen_at (seen : list Z) (i : Z) : bool := Z.testbit (word seen i) (i mod 64).
Lemma replay_bit_at w ctr : replay_bit w ctr = seen_at (rw_seen w) (ctr mod OC_SFRAME_REPLAY_WINDOW).
Proof.
  unfold replay_bit, seen_at. set (i := ctr mod _). set (x := word _ i). change 1 with (Z.ones 1). rewrite Z.land_ones by lia. change (2 ^ 1) with 2.
  assert (Hi : 0 <= i mod 64) by zlia. rewrite <- (Z.add_0_l (i mod 64)), <- Z.shiftr_spec, Z.bit0_odd, Zmod_odd by lia. rewrite Z.add_0_l. by destruct (Z.odd _).
Qed.
Lemma word_set seen j x i : length seen = 16%nat → 0 <= i < 1024 → 0 <= j < 1024 → word (<[Z.to_nat (j / 64) := x]> seen) i = if i / 64 =? j / 64 then x else word seen i.
Proof.
  intros Hl Hi Hj. unfold word. rewrite !nth_lookup. destruct (Z.eqb_spec (i / 64) (j / 64)) as [->|Hne].
  - rewrite list_lookup_insert_eq; [done|]. rewrite Hl. zlia.
  - rewrite list_lookup_insert_ne; [done|]. zlia.
Qed.
Lemma same_place i j : 0 <= i < 1024 → 0 <= j < 1024 → i / 64 = j / 64 → (i mod 64 =? j mod 64) = (i =? j).
Proof. intros. destruct (Z.eqb_spec (i mod 64) (j mod 64)), (Z.eqb_spec i j); try done; exfalso; zlia. Qed.
Lemma one_bit k j : 0 <= k < 64 → 0 <= j < 64 → Z.testbit (u64 (Z.shiftl 1 k)) j = (j =? k).
Proof. intros. unfold u64. rewrite Z.mod_pow2_bits_low, Z.shiftl_1_l by lia. destruct (Z.eqb_spec j k) as [->|]; [apply Z.pow2_bits_true; lia|apply Z.pow2_bits_false; lia]. Qed.
Lemma not_one_bit k j : 0 <= k < 64 → 0 <= j < 64 → Z.testbit (u64 (Z.lnot (Z.shiftl 1 k))) j = negb (j =? k).
Proof. intros. unfold u64. rewrite Z.mod_pow2_bits_low, Z.lnot_spec, Z.shiftl_1_l by lia. f_equal. destruct (Z.eqb_spec j k) as [->|]; [apply Z.pow2_bits_true; lia|apply Z.pow2_bits_false; lia]. Qed.
Lemma seen_set seen ctr i : length seen = 16%nat → 0 <= i < 1024 → seen_at (set_bit ctr seen) i = seen_at seen i || (i =? ctr mod 1024).
Proof.
  intros Hl Hi. unfold seen_at, set_bit, OC_SFRAME_REPLAY_WINDOW. set (j := ctr mod 1024). assert (Hj : 0 <= j < 1024) by (unfold j; zlia). rewrite word_set by done.
  destruct (Z.eqb_spec (i / 64) (j / 64)) as [E|E]; [|destruct (Z.eqb_spec i j); [by subst|by rewrite orb_false_r]].
  rewrite Z.lor_spec, one_bit, same_place by (done || zlia). f_equal. unfold word. by rewrite E.
Qed.
Lemma seen_clear seen ctr i : length seen = 16%nat → 0 <= i < 1024 → seen_at (clear_bit ctr seen) i = seen_at seen i && negb (i =? ctr mod 1024).
Proof.
  intros Hl Hi. unfold seen_at, clear_bit, OC_SFRAME_REPLAY_WINDOW. set (j := ctr mod 1024). assert (Hj : 0 <= j < 1024) by (unfold j; zlia). rewrite word_set by done.
  destruct (Z.eqb_spec (i / 64) (j / 64)) as [E|E]; [|destruct (Z.eqb_spec i j); [by subst|by rewrite andb_true_r]].
  rewrite Z.land_spec, not_one_bit, same_place by (done || zlia). f_equal. unfold word. by rewrite E.
Qed.
Lemma seen_none i : seen_at replay_words i = false.
Proof. unfold seen_at, word, replay_words. rewrite nth_replicate. apply Z.bits_0. Qed.
Lemma slide_clears ctr : ctr < 2 ^ 64 - 1 → ∀ fuel c seen, length seen = 16%nat → 0 <= c → ctr + 1 - c <= Z.of_nat fuel →
  ∃ seen', slide fuel c ctr seen = Some seen' ∧ length seen' = 16%nat ∧
    ∀ i, 0 <= i < 1024 → seen_at seen' i = true ↔ seen_at seen i = true ∧ ∀ d, c <= d <= ctr → d mod 1024 ≠ i.
Proof.
  intros Hctr fuel. induction fuel as [|fuel IH]; intros c seen Hl Hc Hf; cbn [slide]; (destruct (Z.ltb_spec ctr c) as [Hlt|Hge]; [exists seen; split_and!; [done|done|]; intros i Hi; split; [split; [done|lia]|tauto]|]); [lia|].
  rewrite u64_id by (unfold_ints; lia). destruct (IH (c + 1) (clear_bit c seen)) as (seen' & E & Hl' & H); [unfold clear_bit; by rewrite length_insert|lia|lia|].
  exists seen'. split_and!; [done|done|]. intros i Hi. rewrite H, seen_clear, andb_true_iff, negb_true_iff, Z.eqb_neq by done. split.
  - intros [[Hs Hn] Hd]. split; [done|]. intros d Hdr. destruct (decide (d = c)) as [->|]; [congruence|apply Hd; lia].
  - intros [Hs Hd]. split; [split; [done|]|]; [intros ->; by apply (Hd c ltac:(lia))|intros d Hdr; apply Hd; lia].
Qed.

(** The window after the counters [cs] were marked. *)
Record window (cs : list Z) (w : oc_sframe_replay) : Prop := {
  wi_any : rw_any w = nonempty cs;
  wi_top : cs ≠ [] → rw_top w ∈ cs;
  wi_max : ∀ c, c ∈ cs → c <= rw_top w;
  wi_len : length (rw_seen w) = 16%nat;
  wi_seen : cs ≠ [] → ∀ i, 0 <= i < 1024 → seen_at (rw_seen w) i = true ↔ ∃ c, c ∈ cs ∧ rw_top w - 1024 < c ∧ c mod 1024 = i }.
Lemma window_start : window [] replay_zero.
Proof. split; try done; by intros c ?%not_elem_of_nil. Qed.

Lemma window_ok cs w ctr : window cs w → oc_sframe_replay_ok w ctr = true ↔ ctr ∉ cs ∧ ∀ c, c ∈ cs → c - ctr < 1024.
Proof.
  intros [Ha Ht Hm Hl Hs]. unfold oc_sframe_replay_ok, OC_SFRAME_REPLAY_WINDOW. rewrite Ha. destruct cs as [|c0 cs']; cbn [nonempty negb orb].
  { split; [|done]. intros _. split; [apply not_elem_of_nil|by intros c ?%not_elem_of_nil]. }
  specialize (Ht ltac:(done)). specialize (Hs ltac:(done)). set (cs := c0 :: cs') in *. destruct (Z.ltb_spec (rw_top w) ctr) as [Hgt|Hle].
  { split; [|done]. intros _. split; [intros Hin; specialize (Hm _ Hin); lia|intros c Hc; specialize (Hm _ Hc); lia]. }
  destruct (Z.leb_spec 1024 (rw_top w - ctr)) as [Hold|Hin]; [split; [done|]; intros [_ H]; specialize (H _ Ht); lia|].
  rewrite replay_bit_at, negb_true_iff, <- not_true_iff_false, Hs by (unfold OC_SFRAME_REPLAY_WINDOW; zlia). unfold OC_SFRAME_REPLAY_WINDOW. split.
  - intros Hno. split; [intros Hc; apply Hno; exists ctr; split_and!; [done|lia|done]|intros c Hc; specialize (Hm _ Hc); lia].
  - intros [Hno _] (c & Hc & Hlo & Hmod). apply Hno. assert (c = ctr) as <-; [|done]. specialize (Hm _ Hc). zlia.
Qed.

Lemma window_mark cs w ctr : window cs w → (∀ c, c ∈ cs → 0 <= c) → 0 <= ctr < 2 ^ 64 - 1 → ∃ w', oc_sframe_replay_mark 1024 w ctr = Some w' ∧ window (cs ++ [ctr]) w'.
Proof.
  intros [Ha Ht Hm Hl Hs] H0 Hc. unfold oc_sframe_replay_mark, OC_SFRAME_REPLAY_WINDOW. rewrite Ha.
  assert (Hne : cs ++ [ctr] ≠ []) by (by destruct cs). assert (Hany : true = nonempty (cs ++ [ctr])) by (by destruct cs).
  assert (Hin : ∀ c, c ∈ cs ++ [ctr] ↔ c ∈ cs ∨ c = ctr) by (intros c; by rewrite elem_of_app, list_elem_of_singleton).
  (* the window moved to [ctr] *)
  assert (New : ∀ seen, length seen = 16%nat → (∀ c, c ∈ cs → c <= ctr) → (∀ i, 0 <= i < 1024 → seen_at seen i = true ↔ ∃ c, c ∈ cs ∧ ctr - 1024 < c ∧ c ≠ ctr ∧ c mod 1024 = i) →
    window (cs ++ [ctr]) (mk_replay ctr (set_bit ctr seen) true)).
  { intros seen Hls Hmax Hb. split; cbn [rw_any rw_top rw_seen]; [done|intros _; apply Hin; by right|intros c [Hcs| ->]%Hin; [auto|lia]|by unfold set_bit; rewrite length_insert|].
    intros _ i Hi. rewrite seen_set, orb_true_iff, Hb, Z.eqb_eq by done. split.
    - intros [(c & Hcs & Hlo & _ & Hmod)| ->]; [exists c|exists ctr]; rewrite Hin; split_and!; auto; lia.
    - intros (c & [Hcs| ->]%Hin & Hlo & Hmod); [|by right]. destruct (decide (c = ctr)) as [->|]; [by right|]. left. by exists c. }
  destruct cs as [|c0 cs']; cbn [nonempty negb].
  { eexists. split; [done|]. apply New; [done|by intros c ?%not_elem_of_nil|]. intros i Hi. rewrite seen_none. split; [done|]. by intros (c & ?%not_elem_of_nil & _). }
  specialize (Ht ltac:(done)). specialize (Hs ltac:(done)). set (cs := c0 :: cs') in *. pose proof (H0 _ Ht) as Ht0. destruct (Z.ltb_spec (rw_top w) ctr) as [Hgt|Hle].
  - assert (Hmax : ∀ c, c ∈ cs → c <= ctr) by (intros c Hcs; specialize (Hm _ Hcs); lia). destruct (Z.leb_spec 1024 (ctr - rw_top w)) as [Hfar|Hnear].
    + eexists. split; [done|]. apply New; [done|done|]. intros i Hi. rewrite seen_none. split; [done|]. intros (c & Hcs & Hlo & _). specialize (Hm _ Hcs). lia.
    + rewrite u64_id by (unfold_ints; lia). destruct (slide_clears ctr ltac:(lia) 1024 (rw_top w + 1) (rw_seen w) Hl) as (seen & E & Hls & Hb); [lia|lia|]. rewrite E. eexists. split; [done|].
      apply New; [done|done|]. intros i Hi. rewrite Hb, Hs by done. split.
      * intros [(c & Hcs & Hlo & Hmod) Hd]. exists c. specialize (Hm _ Hcs). split_and!; [done| |lia|done]. destruct (decide (ctr - 1024 < c)); [done|]. destruct (Hd (c + 1024)); [lia|]. zlia.
      * intros (c & Hcs & Hlo & Hn & Hmod). specialize (Hm _ Hcs). split; [exists c; split_and!; [done|lia|done]|]. intros d Hd. zlia.
  - destruct (Z.leb_spec 1024 (rw_top w - ctr)) as [Hold|Hwin]; eexists; (split; [done|]).
    + split; [by rewrite Ha|intros _; apply Hin; by left|intros c [Hcs| ->]%Hin; [auto|lia]|done|]. intros _ i Hi. rewrite Hs by done. split; intros (c & Hcs & Hlo & Hmod).
      * exists c. rewrite Hin. auto.
      * apply Hin in Hcs as [Hcs| ->]; [|lia]. eauto.
    + split; cbn [rw_any rw_top rw_seen]; [done|intros _; apply Hin; by left|intros c [Hcs| ->]%Hin; [auto|lia]|by unfold set_bit; rewrite length_insert|].
      intros _ i Hi. rewrite seen_set, orb_true_iff, Hs, Z.eqb_eq by done. split.
      * intros [(c & Hcs & Hlo & Hmod)| ->]; [exists c|exists ctr]; rewrite Hin; split_and!; auto; lia.
      * intros (c & [Hcs| ->]%Hin & Hlo & Hmod); [left; eauto|by right].
Qed.

(** The counters marked in turn. *)
Fixpoint replay_marks (fuel : nat) (cs : list Z) (w : oc_sframe_replay) : option oc_sframe_replay :=
  match cs with
  | [] => Some w
  | c :: cs => w ← oc_sframe_replay_mark fuel w c; replay_marks fuel cs w
  end.
Lemma marks_window cs : ∀ done w, window done w → (∀ c, c ∈ done → 0 <= c) → (∀ c, c ∈ cs → 0 <= c < 2 ^ 64 - 1) →
  ∃ w', replay_marks 1024 cs w = Some w' ∧ window (done ++ cs) w'.
Proof.
  induction cs as [|c cs IH]; intros dn w W H0 Hc; [exists w; by rewrite app_nil_r|]. cbn [replay_marks].
  destruct (window_mark dn w c W H0 (Hc c ltac:(by left))) as (w1 & -> & W1). cbn [mbind option_bind]. destruct (IH (dn ++ [c]) w1 W1) as (w2 & E & W2).
  - intros x [Hx|Hx%list_elem_of_singleton]%elem_of_app; [by apply H0|subst; by apply Hc; left].
  - intros x Hx. apply Hc. by right.
  - exists w2. split; [done|]. by rewrite <- app_assoc in W2.
Qed.

(** C39: the replay window, a ring of 1024 bits that slides, is exact: after any counters
    below 2^64 - 1 were marked in any order, each mark ending within 1024 turns, a
    counter is accepted exactly when it was not marked before and is less than 1024
    below the greatest marked. *)
Theorem replay_exact cs : (∀ c, c ∈ cs → 0 <= c < 2 ^ 64 - 1) → ∃ w, replay_marks 1024 cs replay_zero = Some w ∧
  ∀ ctr, oc_sframe_replay_ok w ctr = true ↔ ctr ∉ cs ∧ ∀ c, c ∈ cs → c - ctr < OC_SFRAME_REPLAY_WINDOW.
Proof.
  intros Hc. destruct (marks_window cs [] replay_zero window_start) as (w & E & W); [by intros c ?%not_elem_of_nil|done|].
  exists w. split; [done|]. intros ctr. by apply window_ok.
Qed.
Lemma replay_exact_witness : ∃ w, replay_marks 1024 [5; 2000; 1999; 3] replay_zero = Some w ∧ oc_sframe_replay_ok w 1999 = false ∧ oc_sframe_replay_ok w 976 = false ∧ oc_sframe_replay_ok w 977 = true.
Proof.
  destruct (replay_exact [5; 2000; 1999; 3]) as (w & E & H).
  - intros c Hc. rewrite !elem_of_cons in Hc. destruct Hc as [->|[->|[->|[->|Hc%not_elem_of_nil]]]]; lia || done.
  - exists w. split; [exact E|]. vm_compute in E. injection E as <-. vm_compute. auto.
Defined.

(** The counter 2^64 - 1, near the greatest marked: the loop that clears the slots
    never ends, since every 64-bit counter is at most it. *)
Lemma last_counter_hangs w : rw_any w = true → 0 <= rw_top w → 2 ^ 64 - 1 - 1024 < rw_top w < 2 ^ 64 - 1 → ∀ fuel, oc_sframe_replay_mark fuel w (2 ^ 64 - 1) = None.
Proof.
  intros Ha H0 Ht fuel. unfold oc_sframe_replay_mark, OC_SFRAME_REPLAY_WINDOW. rewrite Ha. cbn [negb]. rewrite (proj2 (Z.ltb_lt _ _)), (proj2 (Z.leb_gt _ _)) by lia.
  assert (Hs : ∀ fuel c seen, slide fuel (u64 c) (2 ^ 64 - 1) seen = None); [|by rewrite Hs].
  clear. induction fuel as [|fuel IH]; intros c seen; cbn [slide]; pose proof (u64_range c) as Hr; rewrite (proj2 (Z.ltb_ge _ _)) by (unfold is_u64 in Hr; lia); [done|apply IH].
Qed.
