(* ===== verification/Jitter.v ===== *)
(** * The jitter buffer: [client/core/call/jitter.c]

    One sender's packets, put by frame number and taken one per tick.  A slot's
    [data] are the [len] bytes it holds; frame numbers are 32 bits and compared
    by their signed difference, as in the code.  [qsort] is the sorted
    permutation; the arrival times are 64-bit and are not assumed to wrap.

    Two theorems about any sequence of calls: a packet is played only as it
    was put and at most once, and packets that arrive in any order within the
    buffer are played in the order of their frames. *)
From stdpp Require Import base tactics list numbers sorting.
From S2P Require Import Prelude.
Local Open Scope Z_scope.

Definition OC_JB_FRAME_MS : Z := 20.
Definition OC_JB_SLOTS : Z := 64.
Definition OC_JB_MAX_PACKET : Z := 512.
Definition OC_JB_HIST : Z := 100.
Definition OC_JB_MIN_MS : Z := 40.
Definition OC_JB_MAX_MS : Z := 240.
Definition OC_JB_PLC_MAX : Z := 3.

Inductive jb_kind := OC_JB_NONE | OC_JB_PACKET | OC_JB_FEC | OC_JB_PLC.

Record oc_jb_slot := mk_jb_slot {
  js_used : bool;
  js_frame : Z;
  js_data : list Z }.

Record oc_jitter := mk_jitter {
  jb_slot : list oc_jb_slot;
  jb_started : bool;
  jb_idle : bool;
  jb_play : Z;
  jb_newest : Z;
  jb_target : Z;
  jb_grow : Z;
  jb_concealed : Z;
  jb_delay : list Z;
  jb_n_delay : Z;
  jb_i_delay : Z;
  jb_received : Z;
  jb_late : Z;
  jb_dup : Z;
  jb_fec : Z;
  jb_plc : Z;
  jb_skipped : Z }.

Definition no_slot : oc_jb_slot := mk_jb_slot false 0 [].
Definition no_slots : list oc_jb_slot := replicate (Z.to_nat OC_JB_SLOTS) no_slot.

Definition oc_jb_init : oc_jitter :=
  mk_jitter no_slots false false 0 0 (OC_JB_MIN_MS / OC_JB_FRAME_MS) 0 0
    (replicate (Z.to_nat OC_JB_HIST) 0) 0 0 0 0 0 0 0 0.

Definition oc_jb_target_ms (j : oc_jitter) : Z := jb_target j * OC_JB_FRAME_MS.

(** [(int32_t)(a - b)] of two [uint32_t]. *)
Definition sdiff (a b : Z) : Z := (a - b + 2 ^ 31) mod 2 ^ 32 - 2 ^ 31.
(** [(int)v] of an [int64_t]. *)
Definition to_int (v : Z) : Z := (v + 2 ^ 31) mod 2 ^ 32 - 2 ^ 31.

(** Field updates. *)
Definition set_target (t : Z) (j : oc_jitter) : oc_jitter :=
  mk_jitter (jb_slot j) (jb_started j) (jb_idle j) (jb_play j) (jb_newest j) t (jb_grow j)
    (jb_concealed j) (jb_delay j) (jb_n_delay j) (jb_i_delay j) (jb_received j) (jb_late j)
    (jb_dup j) (jb_fec j) (jb_plc j) (jb_skipped j).
Definition set_delays (d : list Z) (n i : Z) (j : oc_jitter) : oc_jitter :=
  mk_jitter (jb_slot j) (jb_started j) (jb_idle j) (jb_play j) (jb_newest j) (jb_target j) (jb_grow j)
    (jb_concealed j) d n i (jb_received j) (jb_late j) (jb_dup j) (jb_fec j) (jb_plc j) (jb_skipped j).
(** [slot], [started], [idle], [play], [newest] and [grow]. *)
Definition set_clock (sl : list oc_jb_slot) (st id : bool) (p n g : Z) (j : oc_jitter) : oc_jitter :=
  mk_jitter sl st id p n (jb_target j) g
    (jb_concealed j) (jb_delay j) (jb_n_delay j) (jb_i_delay j) (jb_received j) (jb_late j)
    (jb_dup j) (jb_fec j) (jb_plc j) (jb_skipped j).
Definition set_slots (sl : list oc_jb_slot) (j : oc_jitter) : oc_jitter :=
  set_clock sl (jb_started j) (jb_idle j) (jb_play j) (jb_newest j) (jb_grow j) j.
Definition set_play (p : Z) (j : oc_jitter) : oc_jitter :=
  set_clock (jb_slot j) (jb_started j) (jb_idle j) p (jb_newest j) (jb_grow j) j.
Definition set_newest (n : Z) (j : oc_jitter) : oc_jitter :=
  set_clock (jb_slot j) (jb_started j) (jb_idle j) (jb_play j) n (jb_grow j) j.
Definition set_grow (g : Z) (j : oc_jitter) : oc_jitter :=
  set_clock (jb_slot j) (jb_started j) (jb_idle j) (jb_play j) (jb_newest j) g j.
Definition set_idle (b : bool) (j : oc_jitter) : oc_jitter :=
  set_clock (jb_slot j) (jb_started j) b (jb_play j) (jb_newest j) (jb_grow j) j.
Definition set_concealed (c : Z) (j : oc_jitter) : oc_jitter :=
  mk_jitter (jb_slot j) (jb_started j) (jb_idle j) (jb_play j) (jb_newest j) (jb_target j) (jb_grow j)
    c (jb_delay j) (jb_n_delay j) (jb_i_delay j) (jb_received j) (jb_late j)
    (jb_dup j) (jb_fec j) (jb_plc j) (jb_skipped j).
(** Adding to the counters: received, late, dup, fec, plc, skipped. *)
Definition count (r l d f p s : Z) (j : oc_jitter) : oc_jitter :=
  mk_jitter (jb_slot j) (jb_started j) (jb_idle j) (jb_play j) (jb_newest j) (jb_target j) (jb_grow j)
    (jb_concealed j) (jb_delay j) (jb_n_delay j) (jb_i_delay j)
    (u32 (jb_received j + r)) (u32 (jb_late j + l)) (u32 (jb_dup j + d)) (u32 (jb_fec j + f))
    (u32 (jb_plc j + p)) (u32 (jb_skipped j + s)).

Definition retarget (j : oc_jitter) : oc_jitter :=
  let n := jb_n_delay j in
  if n <? 2 then j else
  let v := merge_sort Z.le (ztake n (jb_delay j)) in
  let k := if (n * 95) / 100 <? n then (n * 95) / 100 else n - 1 in
  let spread := nth (Z.to_nat k) v 0 - nth 0 v 0 in
  let ms := to_int spread + OC_JB_FRAME_MS in
  let ms := if ms <? OC_JB_MIN_MS then OC_JB_MIN_MS else ms in
  let ms := if OC_JB_MAX_MS <? ms then OC_JB_MAX_MS else ms in
  set_target ((ms + OC_JB_FRAME_MS - 1) / OC_JB_FRAME_MS) j.

(** The arrival recorded in the ring of delays. *)
Definition note_delay (frame now_ms : Z) (j : oc_jitter) : oc_jitter :=
  set_delays (<[Z.to_nat (jb_i_delay j) := now_ms - frame * OC_JB_FRAME_MS]> (jb_delay j))
    (if jb_n_delay j <? OC_JB_HIST then jb_n_delay j + 1 else jb_n_delay j)
    ((jb_i_delay j + 1) mod OC_JB_HIST) j.

(** The first packet, or the first of a new talk spurt, sets the clock. *)
Definition start_clock (frame : Z) (j : oc_jitter) : oc_jitter :=
  if negb (jb_started j) then set_clock (jb_slot j) true (jb_idle j) frame frame (jb_target j) j
  else if jb_idle j && (0 <? sdiff frame (jb_newest j))
  then set_clock (jb_slot j) (jb_started j) false frame (jb_newest j) (jb_target j) j
  else j.

Definition slot_index (frame : Z) : nat := Z.to_nat (frame mod OC_JB_SLOTS).
Definition slot_at (frame : Z) (j : oc_jitter) : oc_jb_slot := nth (slot_index frame) (jb_slot j) no_slot.

Definition oc_jb_put (frame : Z) (data : list Z) (now_ms : Z) (j : oc_jitter) : Z * oc_jitter :=
  if OC_JB_MAX_PACKET <? zlen data then (2, j) else
  let j := start_clock frame (retarget (note_delay frame now_ms j)) in
  if sdiff frame (jb_play j) <? 0 then
    let j := count 0 1 0 0 0 0 j in
    (2, if jb_grow j <? 1 then set_grow 1 j else j)
  else
    let j :=
      if OC_JB_SLOTS <=? sdiff frame (jb_play j)
      then set_clock no_slots (jb_started j) (jb_idle j) frame frame (jb_target j) j else j in
    let s := slot_at frame j in
    if js_used s && (js_frame s =? frame) then (1, count 0 0 1 0 0 0 j)
    else
      let j := set_slots (<[slot_index frame := mk_jb_slot true frame data]> (jb_slot j)) j in
      let j := if 0 <? sdiff frame (jb_newest j) then set_newest frame j else j in
      (0, count 1 0 0 0 0 0 j).

(** [at]: the slot of [frame], if it holds that frame. *)
Definition at_frame (frame : Z) (j : oc_jitter) : option oc_jb_slot :=
  let s := slot_at frame j in
  if js_used s && (js_frame s =? frame) then Some s else None.

(** [s->used = 0] for the slot of [frame]. *)
Definition release (frame : Z) (j : oc_jitter) : oc_jitter :=
  let s := slot_at frame j in
  set_slots (<[slot_index frame := mk_jb_slot false (js_frame s) (js_data s)]> (jb_slot j)) j.

(** A concealed frame. *)
Definition conceal (j : oc_jitter) : oc_jitter := count 0 0 0 0 1 0 (set_concealed (jb_concealed j + 1) j).

(** Giving delay back: a frame dropped while nobody speaks. *)
Definition drop_one (quiet : bool) (j : oc_jitter) : oc_jitter :=
  if quiet && (jb_target j + 1 <? sdiff (jb_newest j) (jb_play j)) then
    let j := match at_frame (jb_play j) j with Some _ => release (jb_play j) j | None => j end in
    count 0 0 0 0 0 1 (set_play (u32 (jb_play j + 1)) j)
  else j.

(** The packet after [f], if it has bytes to recover [f] from. *)
Definition fec_next (f : Z) (j : oc_jitter) : option oc_jb_slot :=
  s ← at_frame (u32 (f + 1)) j;
  if zlen (js_data s) =? 0 then None else Some s.

(** Neither [f] nor the packet after it is there. *)
Definition missing (f : Z) (j : oc_jitter) : jb_kind * oc_jitter :=
  if 0 <? sdiff f (jb_newest j) then
    if (jb_concealed j <? OC_JB_PLC_MAX) && (0 <=? jb_concealed j) && negb (jb_idle j) then
      let j := conceal j in
      (OC_JB_PLC, if jb_concealed j =? OC_JB_PLC_MAX then set_idle true j else j)
    else (OC_JB_NONE, set_concealed 0 (set_idle true j))
  else if jb_concealed j <? OC_JB_PLC_MAX then (OC_JB_PLC, conceal j)
  else (OC_JB_NONE, j).

Definition oc_jb_get (quiet : bool) (j : oc_jitter) : jb_kind * list Z * oc_jitter :=
  if negb (jb_started j) then (OC_JB_NONE, [], j) else
  if 0 <? jb_grow j then
    let j := set_grow (jb_grow j - 1) j in
    if (0 <? jb_concealed j) && (jb_concealed j <? OC_JB_PLC_MAX) then (OC_JB_PLC, [], conceal j)
    else (OC_JB_NONE, [], j)
  else
  let j := drop_one quiet j in
  let f := jb_play j in
  let j := set_play (u32 (f + 1)) j in
  match at_frame f j with
  | Some s => (OC_JB_PACKET, js_data s, set_idle false (set_concealed 0 (release f j)))
  | None =>
      match fec_next f j with
      | Some next => (OC_JB_FEC, js_data next, set_concealed 0 (count 0 0 0 1 0 0 j))
      | None => let '(kind, j) := missing f j in (kind, [], j)
      end
  end.

(** ** Runs *)

(** What a run did: a packet kept, a packet played. *)
Inductive jb_event := Kept (frame : Z) (data : list Z) | Played (frame : Z) (data : list Z).

Definition put_events (rc frame : Z) (data : list Z) : list jb_event :=
  if rc =? 0 then [Kept frame data] else [].
(** A tick plays the frame the clock is at. *)
Definition get_events (kind : jb_kind) (quiet : bool) (j : oc_jitter) (data : list Z) : list jb_event :=
  match kind with OC_JB_PACKET => [Played (jb_play (drop_one quiet j)) data] | _ => [] end.

Inductive jb_run : oc_jitter → list jb_event → Prop :=
  | jb_run_init : jb_run oc_jb_init []
  | jb_run_put j tr frame data now rc j' :
      jb_run j tr → is_u32 frame → oc_jb_put frame data now j = (rc, j') →
      jb_run j' (put_events rc frame data ++ tr)
  | jb_run_get j tr quiet kind data j' :
      jb_run j tr → oc_jb_get quiet j = (kind, data, j') →
      jb_run j' (get_events kind quiet j data ++ tr).

Definition kept (f : Z) (d : list Z) (e : jb_event) : bool :=
  match e with Kept f' d' => (f' =? f) && bool_decide (d' = d) | _ => false end.
Definition played (f : Z) (d : list Z) (e : jb_event) : bool :=
  match e with Played f' d' => (f' =? f) && bool_decide (d' = d) | _ => false end.
Definition holds (f : Z) (d : list Z) (s : oc_jb_slot) : bool :=
  js_used s && ((js_frame s =? f) && bool_decide (js_data s = d)).

(** ** The slots *)

Record slots_ok (l : list oc_jb_slot) (tr : list jb_event) : Prop := {
  so_length : length l = 64%nat;
  so_size : Forall (fun s => zlen (js_data s) <= OC_JB_MAX_PACKET) l;
  so_count : ∀ f d, (countb (holds f d) l + countb (played f d) tr <= countb (kept f d) tr)%nat }.

Lemma slot_index_lt f : (slot_index f < 64)%nat.
Proof. unfold slot_index, OC_JB_SLOTS. zlia. Qed.

Lemma slot_at_lookup f j :
  length (jb_slot j) = 64%nat → jb_slot j !! slot_index f = Some (slot_at f j).
Proof.
  intros Hl. unfold slot_at. pose proof (slot_index_lt f).
  destruct (nth_lookup_or_length (jb_slot j) (slot_index f) no_slot) as [->|]; [done|lia].
Qed.

Lemma slots_ok_none tr l : slots_ok l tr → slots_ok no_slots tr.
Proof.
  intros [Hl Hs Hc]. split; [done| |].
  - apply Forall_replicate. done.
  - intros f d. unfold no_slots. rewrite countb_replicate by done. specialize (Hc f d). lia.
Qed.

(** Replacing one slot, with what the history gains. *)
Lemma slots_ok_insert l tr evs i x y :
  slots_ok l tr → l !! i = Some x → zlen (js_data y) <= OC_JB_MAX_PACKET →
  (∀ f d, (Nat.b2n (holds f d y) + countb (played f d) evs
           <= Nat.b2n (holds f d x) + countb (kept f d) evs)%nat) →
  slots_ok (<[i := y]> l) (evs ++ tr).
Proof.
  intros [Hl Hs Hc] Hi Hy He. split.
  - by rewrite length_insert.
  - by apply Forall_insert.
  - intros f d. rewrite !countb_app. pose proof (countb_insert (holds f d) l i x y Hi).
    specialize (Hc f d). specialize (He f d). lia.
Qed.

Lemma slots_ok_release j tr f :
  slots_ok (jb_slot j) tr → slots_ok (jb_slot (release f j)) tr.
Proof.
  intros H. pose proof (slot_at_lookup f j (so_length _ _ H)) as Hi.
  apply (slots_ok_insert _ _ [] _ _ _ H Hi); [|intros f' d; apply Nat.le_0_l].
  apply (Forall_lookup_1 _ _ _ _ (so_size _ _ H) Hi).
Qed.

Lemma slots_drop_one quiet j tr :
  slots_ok (jb_slot j) tr → slots_ok (jb_slot (drop_one quiet j)) tr.
Proof.
  intros H. unfold drop_one. destruct (quiet && _); [|done].
  destruct (at_frame _ _); [by apply slots_ok_release|done].
Qed.

Lemma slots_retarget j : jb_slot (retarget j) = jb_slot j.
Proof. unfold retarget. by destruct (_ <? _). Qed.
Lemma slots_start frame j : jb_slot (start_clock frame j) = jb_slot j.
Proof. unfold start_clock. by repeat case_match. Qed.

Lemma slots_put frame data now j rc j' tr :
  slots_ok (jb_slot j) tr → oc_jb_put frame data now j = (rc, j') →
  slots_ok (jb_slot j') (put_events rc frame data ++ tr).
Proof.
  intros H. unfold oc_jb_put. destruct (Z.ltb_spec OC_JB_MAX_PACKET (zlen data)) as [|Hlen];
    [by intros [= <- <-]|].
  assert (jb_slot (start_clock frame (retarget (note_delay frame now j))) = jb_slot j) as Hsl
    by by rewrite slots_start, slots_retarget.
  revert Hsl. generalize (start_clock frame (retarget (note_delay frame now j))) as j1. intros j1 Hsl.
  cbv zeta. destruct (sdiff frame (jb_play j1) <? 0).
  { destruct (_ <? 1); intros [= <- <-]; cbn; by rewrite Hsl. }
  set (j2 := if OC_JB_SLOTS <=? _ then _ else _).
  assert (slots_ok (jb_slot j2) tr) as H2.
  { unfold j2. destruct (_ <=? _); cbn; [by apply slots_ok_none in H|by rewrite Hsl]. }
  clearbody j2. destruct (_ && _) eqn:Edup; [by intros [= <- <-]|]. intros [= <- <-].
  set (y := mk_jb_slot true frame data).
  assert (slots_ok (<[slot_index frame := y]> (jb_slot j2)) (put_events 0 frame data ++ tr)) as H3;
    [|by destruct (_ <? _)].
  apply (slots_ok_insert _ _ [Kept frame data] _ _ _ H2 (slot_at_lookup frame j2 (so_length _ _ H2))); [done|].
  intros f d. rewrite !countb_cons, !countb_nil. unfold holds at 1, y. cbn. lia.
Qed.

Lemma at_frame_Some f j s :
  at_frame f j = Some s → s = slot_at f j ∧ js_used s = true ∧ js_frame s = f.
Proof.
  unfold at_frame. destruct (_ && _) eqn:E; [|done]. intros [= <-].
  apply andb_true_iff in E as [? ?%Z.eqb_eq]. done.
Qed.

Lemma missing_slots f j : fst (missing f j) ≠ OC_JB_PACKET ∧ jb_slot (snd (missing f j)) = jb_slot j.
Proof.
  unfold missing. destruct (0 <? _).
  - destruct (_ && _ && _); [|done]. cbn. by destruct (_ =? _).
  - by destruct (_ <? _).
Qed.

Lemma slots_get quiet j kind data j' tr :
  slots_ok (jb_slot j) tr → oc_jb_get quiet j = (kind, data, j') →
  slots_ok (jb_slot j') (get_events kind quiet j data ++ tr).
Proof.
  intros H. unfold oc_jb_get. destruct (negb _); [by intros [= <- <- <-]|].
  destruct (0 <? jb_grow j).
  { cbv zeta. destruct (_ && _); by intros [= <- <- <-]. }
  apply (slots_drop_one quiet) in H. unfold get_events. revert H.
  generalize (drop_one quiet j) as j1. intros j1 H. cbv zeta.
  destruct (at_frame (jb_play j1) _) as [s|] eqn:Ef.
  { apply at_frame_Some in Ef as (Hs & Hu & Hf). intros [= <- <- <-].
    pose proof (slot_at_lookup (jb_play j1) j1 (so_length _ _ H)) as Hi. change (slot_at _ _) with (slot_at (jb_play j1) j1) in Hs.
    rewrite <- Hs in Hi. cbn [jb_slot set_idle set_concealed set_clock release set_slots set_play].
    change (slot_at (jb_play j1) _) with (slot_at (jb_play j1) j1). rewrite <- Hs.
    apply (slots_ok_insert _ _ [Played (jb_play j1) (js_data s)] _ _ _ H Hi).
    - apply (Forall_lookup_1 _ _ _ _ (so_size _ _ H) Hi).
    - intros f d. rewrite !countb_cons, !countb_nil. unfold holds. rewrite Hu, Hf. cbn. lia. }
  destruct (fec_next _ _); [by intros [= <- <- <-]|].
  destruct (missing_slots (jb_play j1) (set_play (u32 (jb_play j1 + 1)) j1)) as [Hk Hm].
  destruct (missing _ _) as [k j2]. cbn [fst snd] in *. intros [= <- <- <-]. rewrite Hm.
  by destruct k.
Qed.

(** ** The clock *)

Record clock_ok (j : oc_jitter) : Prop := {
  ck_target : 2 <= jb_target j <= 12;
  ck_grow : 0 <= jb_grow j <= 12;
  ck_concealed : 0 <= jb_concealed j <= OC_JB_PLC_MAX;
  ck_delay : length (jb_delay j) = 100%nat;
  ck_n : 0 <= jb_n_delay j <= OC_JB_HIST;
  ck_i : 0 <= jb_i_delay j < OC_JB_HIST }.

Ltac clock := intros []; split; unfold OC_JB_PLC_MAX, OC_JB_HIST in *; cbn in *; lia.

Lemma clock_retarget j : clock_ok j → clock_ok (retarget j).
Proof.
  intros Hj. unfold retarget. destruct (_ <? 2); [done|].
  set (ms := to_int _ + _). clearbody ms. destruct Hj. cbv zeta.
  unfold OC_JB_MIN_MS, OC_JB_MAX_MS, OC_JB_FRAME_MS.
  split; cbn [set_target jb_target jb_grow jb_concealed jb_delay jb_n_delay jb_i_delay]; try done.
  destruct (Z.ltb_spec ms 40); [by vm_compute|]. destruct (Z.ltb_spec 240 ms); [by vm_compute|]. zlia.
Qed.

Lemma clock_note frame now j : clock_ok j → clock_ok (note_delay frame now j).
Proof.
  intros []. split; cbn [jb_target jb_grow jb_concealed jb_delay jb_n_delay jb_i_delay note_delay set_delays]; try done.
  - by rewrite length_insert.
  - unfold OC_JB_HIST in *. destruct (Z.ltb_spec (jb_n_delay j) 100); lia.
  - unfold OC_JB_HIST. zlia.
Qed.

Lemma clock_start frame j : clock_ok j → clock_ok (start_clock frame j).
Proof. unfold start_clock. destruct (negb _); [clock|]. destruct (_ && _); clock. Qed.

Lemma clock_put frame data now j rc j' :
  clock_ok j → oc_jb_put frame data now j = (rc, j') → clock_ok j'.
Proof.
  intros H. unfold oc_jb_put. destruct (_ <? _); [by intros [= <- <-]|].
  apply (clock_note frame now), clock_retarget, (clock_start frame) in H. revert H.
  generalize (start_clock frame (retarget (note_delay frame now j))) as j1. intros j1 H. cbv zeta.
  destruct (sdiff _ _ <? 0); [destruct (_ <? 1); intros [= <- <-]; revert H; clock|].
  set (j2 := if OC_JB_SLOTS <=? _ then _ else _).
  assert (clock_ok j2) as H2 by (unfold j2; destruct (_ <=? _); [revert H; clock|done]).
  clearbody j2. destruct (_ && _); [intros [= <- <-]; revert H2; clock|].
  destruct (_ <? _); intros [= <- <-]; revert H2; clock.
Qed.

Lemma clock_drop quiet j : clock_ok j → clock_ok (drop_one quiet j).
Proof. unfold drop_one. destruct (_ && _); [|clock]. destruct (at_frame _ _); clock. Qed.

Lemma clock_missing f j : clock_ok j → clock_ok (snd (missing f j)).
Proof.
  intros H. unfold missing. destruct (0 <? _).
  - destruct (Z.ltb_spec (jb_concealed j) OC_JB_PLC_MAX), (0 <=? _), (jb_idle j); cbn;
      try destruct (_ =? _); revert H; clock.
  - destruct (Z.ltb_spec (jb_concealed j) OC_JB_PLC_MAX); revert H; clock.
Qed.

Lemma clock_get quiet j kind data j' : clock_ok j → oc_jb_get quiet j = (kind, data, j') → clock_ok j'.
Proof.
  intros H. unfold oc_jb_get. destruct (negb _); [by intros [= <- <- <-]|].
  destruct (Z.ltb_spec 0 (jb_grow j)).
  { cbv zeta. cbn [jb_concealed set_grow set_clock]. destruct (Z.ltb_spec 0 (jb_concealed j)),
      (Z.ltb_spec (jb_concealed j) OC_JB_PLC_MAX); intros [= <- <- <-]; revert H; clock. }
  apply (clock_drop quiet) in H. revert H. generalize (drop_one quiet j) as j1. intros j1 H. cbv zeta.
  destruct (at_frame _ _); [intros [= <- <- <-]; revert H; clock|].
  destruct (fec_next _ _); [intros [= <- <- <-]; revert H; clock|].
  assert (clock_ok (set_play (u32 (jb_play j1 + 1)) j1)) as H1 by (revert H; clock).
  apply (clock_missing (jb_play j1)) in H1. destruct (missing _ _). by intros [= <- <- <-].
Qed.

Lemma jb_run_ok j tr : jb_run j tr → clock_ok j ∧ slots_ok (jb_slot j) tr.
Proof.
  induction 1 as [|j tr frame data now rc j' _ [Hc Hs] _ E|j tr quiet kind data j' _ [Hc Hs] E].
  - split; [by split|]. split; [done| |].
    + apply Forall_replicate. done.
    + intros f d. cbn [jb_slot oc_jb_init]. unfold no_slots. by rewrite countb_replicate.
  - eauto using clock_put, slots_put.
  - eauto using clock_get, slots_get.
Qed.

(** A call plays what was sent, once.  Over any sequence of arrivals and
    ticks, with every drop, restart and wrap of the frame numbers, a packet has
    been played at most as often as it was kept, so never twice and never one
    that did not arrive; the delay aimed at stays between 40 and 240 ms, at most
    three frames in a row are concealed, and no packet held is over 512 bytes. *)
Theorem jitter_plays_once j tr :
  jb_run j tr →
  (∀ f d, (countb (played f d) tr <= countb (kept f d) tr)%nat) ∧
  OC_JB_MIN_MS <= oc_jb_target_ms j <= OC_JB_MAX_MS ∧
  0 <= jb_concealed j <= OC_JB_PLC_MAX ∧
  Forall (fun s => zlen (js_data s) <= OC_JB_MAX_PACKET) (jb_slot j).
Proof.
  intros [[] []]%jb_run_ok. unfold oc_jb_target_ms, OC_JB_MIN_MS, OC_JB_MAX_MS, OC_JB_FRAME_MS.
  split_and!; try done; try lia. intros f d. specialize (so_count0 f d). lia.
Qed.

Lemma jitter_plays_once_witness :
  let tr := put_events 0 10 [1] ++ [] in (countb (played 10 [1%Z]) tr <= countb (kept 10 [1%Z]) tr)%nat.
Proof.
  refine (proj1 (jitter_plays_once (snd (oc_jb_put 10 [1] 1000 oc_jb_init)) _ _) 10 [1]).
  apply (jb_run_put oc_jb_init [] 10 [1] 1000 0); [constructor|done|]. vm_compute. reflexivity.
Defined.

(** ** Packets out of order *)

(** The frame [i] after [f0], and the tick-by-tick output. *)
Definition nth_frame (f0 : Z) (i : nat) : Z := u32 (f0 + Z.of_nat i).

Fixpoint put_all (f0 : Z) (ds : list (list Z)) (arrivals : list (nat * Z)) (j : oc_jitter) : oc_jitter :=
  match arrivals with
  | [] => j
  | (i, now) :: arrivals =>
      put_all f0 ds arrivals (snd (oc_jb_put (nth_frame f0 i) (nth i ds []) now j))
  end.

Fixpoint get_all (n : nat) (j : oc_jitter) : list (jb_kind * list Z) :=
  match n with
  | O => []
  | S n => let '(kind, data, j) := oc_jb_get false j in (kind, data) :: get_all n j
  end.

Lemma nth_frame_index f0 i i' :
  (i < 64)%nat → (i' < 64)%nat → slot_index (nth_frame f0 i) = slot_index (nth_frame f0 i') → i = i'.
Proof. unfold slot_index, nth_frame, OC_JB_SLOTS. intros. unfold u32 in *. zlia. Qed.

Lemma nth_frame_sdiff f0 i : is_u32 f0 → (i < 64)%nat → sdiff (nth_frame f0 i) f0 = Z.of_nat i.
Proof. intros. unfold sdiff, nth_frame. ilia. Qed.

Lemma nth_frame_succ f0 k : u32 (nth_frame f0 k + 1) = nth_frame f0 (S k).
Proof. unfold nth_frame. ilia. Qed.

Lemma at_frame_slots f j j' : jb_slot j = jb_slot j' → at_frame f j = at_frame f j'.
Proof. unfold at_frame, slot_at. by intros ->. Qed.

Lemma at_frame_insert f0 i i' s j l :
  (i < 64)%nat → (i' < 64)%nat → length (jb_slot j) = 64%nat →
  l = <[slot_index (nth_frame f0 i) := s]> (jb_slot j) →
  ∀ j', jb_slot j' = l →
  at_frame (nth_frame f0 i') j' =
    if (i' =? i)%nat
    then if js_used s && (js_frame s =? nth_frame f0 i) then Some s else None
    else at_frame (nth_frame f0 i') j.
Proof.
  intros Hi Hi' Hl -> j' Hj'. unfold at_frame, slot_at. rewrite Hj'.
  destruct (Nat.eqb_spec i' i) as [->|Hne].
  - rewrite (nth_lookup_Some _ _ _ s); [done|].
    apply list_lookup_insert_eq. rewrite Hl. apply slot_index_lt.
  - assert (slot_index (nth_frame f0 i) ≠ slot_index (nth_frame f0 i')) as Hn
      by (intros E; apply Hne; symmetry; by apply (nth_frame_index f0)).
    by rewrite !nth_lookup, list_lookup_insert_ne.
Qed.

(** The packets of [S] are in, the clock is at [f0] and two ticks from it. *)
Record waiting (f0 : Z) (ds : list (list Z)) (S : list nat) (j : oc_jitter) : Prop := {
  wt_started : jb_started j = true;
  wt_idle : jb_idle j = false;
  wt_play : jb_play j = f0;
  wt_grow : jb_grow j = 2;
  wt_concealed : jb_concealed j = 0;
  wt_length : length (jb_slot j) = 64%nat;
  wt_at : ∀ i, (i < length ds)%nat →
    at_frame (nth_frame f0 i) j =
      if bool_decide (i ∈ S) then Some (mk_jb_slot true (nth_frame f0 i) (nth i ds [])) else None }.

Lemma noted_fields frame now j :
  let j' := retarget (note_delay frame now j) in
  jb_slot j' = jb_slot j ∧ jb_started j' = jb_started j ∧ jb_idle j' = jb_idle j ∧
  jb_play j' = jb_play j ∧ jb_newest j' = jb_newest j ∧ jb_grow j' = jb_grow j ∧
  jb_concealed j' = jb_concealed j.
Proof. unfold retarget. cbv zeta. by destruct (_ <? 2). Qed.

Lemma waiting_put f0 ds S j i now :
  is_u32 f0 → (length ds <= 64)%nat → Forall (fun d => zlen d <= OC_JB_MAX_PACKET) ds →
  waiting f0 ds S j → (i < length ds)%nat → i ∉ S →
  waiting f0 ds (i :: S) (snd (oc_jb_put (nth_frame f0 i) (nth i ds []) now j)).
Proof.
  intros Hf Hn Hds [Hst Hid Hpl Hgr Hco Hle Hat] Hi HiS. unfold oc_jb_put.
  assert (zlen (nth i ds []) <= OC_JB_MAX_PACKET) as Hsz.
  { apply (Forall_lookup_1 _ _ i _ Hds). destruct (nth_lookup_or_length ds i []) as [->|]; [done|lia]. }
  rewrite (proj2 (Z.ltb_ge OC_JB_MAX_PACKET _)) by done.
  destruct (noted_fields (nth_frame f0 i) now j) as (E1 & E2 & E3 & E4 & E5 & E6 & E7).
  revert E1 E2 E3 E4 E5 E6 E7. generalize (retarget (note_delay (nth_frame f0 i) now j)) as j1.
  intros j1 E1 E2 E3 E4 _ E6 E7. unfold start_clock. rewrite E2, E3, Hst, Hid. cbn [negb andb]. cbv zeta.
  rewrite E4, Hpl, nth_frame_sdiff by (done || lia).
  rewrite (proj2 (Z.ltb_ge _ 0)), (proj2 (Z.leb_gt OC_JB_SLOTS _)) by (unfold OC_JB_SLOTS; lia).
  assert (at_frame (nth_frame f0 i) j1 = None) as Hnone.
  { rewrite (at_frame_slots _ _ j), Hat by done. by case_bool_decide. }
  unfold at_frame in Hnone. destruct (_ && _); [done|]. cbn [snd].
  set (j2 := count 1 0 0 0 0 0 _).
  assert (jb_slot j2 = <[slot_index (nth_frame f0 i) := mk_jb_slot true (nth_frame f0 i) (nth i ds [])]> (jb_slot j))
    as Hslots by (unfold j2; destruct (0 <? _); cbn; by rewrite E1).
  split; try (unfold j2; destruct (0 <? _); cbn; congruence).
  - by rewrite Hslots, length_insert.
  - intros i' Hi'. rewrite (at_frame_insert f0 i i' _ j _ ltac:(lia) ltac:(lia) Hle eq_refl j2 Hslots).
    cbn [js_used js_frame andb]. rewrite Z.eqb_refl. destruct (Nat.eqb_spec i' i) as [->|Hne].
    + rewrite bool_decide_eq_true_2; [done|]. by left.
    + rewrite Hat by done. rewrite (bool_decide_ext (i' ∈ i :: S) (i' ∈ S)); [done|].
      rewrite elem_of_cons. naive_solver.
Qed.

Lemma waiting_put_all f0 ds arrivals : ∀ S j,
  is_u32 f0 → (length ds <= 64)%nat → Forall (fun d => zlen d <= OC_JB_MAX_PACKET) ds →
  waiting f0 ds S j → NoDup (arrivals.*1 ++ S) → Forall (fun a => (a.1 < length ds)%nat) arrivals →
  ∃ S', waiting f0 ds S' (put_all f0 ds arrivals j) ∧ (∀ i, i ∈ S' ↔ i ∈ arrivals.*1 ∨ i ∈ S).
Proof.
  induction arrivals as [|[i now] arrivals IH]; intros S j Hf Hn Hds Hw Hnd Hlt.
  { exists S. split; [done|]. intros i. rewrite elem_of_nil. naive_solver. }
  apply Forall_cons_iff in Hlt as [Hi Hlt]. cbn [fst fmap list_fmap app] in *.
  apply NoDup_cons in Hnd as [Hni Hnd]. rewrite elem_of_app in Hni.
  destruct (IH (i :: S) (snd (oc_jb_put (nth_frame f0 i) (nth i ds []) now j))) as (S' & HS' & Hin); try done.
  - apply waiting_put; try done. naive_solver.
  - apply NoDup_app in Hnd as (H1 & H2 & H3). apply NoDup_app. split_and!; [done| |].
    + intros x Hx. rewrite elem_of_cons. intros [->|Hx']; [naive_solver|by apply (H2 x)].
    + constructor; [naive_solver|done].
  - exists S'. split; [done|]. intros x. rewrite Hin, !elem_of_cons. naive_solver.
Qed.

(** The packets from [k] on are in and the clock is at [k]. *)
Record playing (f0 : Z) (ds : list (list Z)) (k : nat) (j : oc_jitter) : Prop := {
  pl_started : jb_started j = true;
  pl_play : jb_play j = nth_frame f0 k;
  pl_grow : jb_grow j = 0;
  pl_length : length (jb_slot j) = 64%nat;
  pl_at : ∀ i, (k <= i < length ds)%nat →
    at_frame (nth_frame f0 i) j = Some (mk_jb_slot true (nth_frame f0 i) (nth i ds [])) }.

Lemma playing_get f0 ds k j :
  (length ds <= 64)%nat → playing f0 ds k j → (k < length ds)%nat →
  ∃ j', oc_jb_get false j = (OC_JB_PACKET, nth k ds [], j') ∧ playing f0 ds (S k) j'.
Proof.
  intros Hn [Hst Hpl Hgr Hle Hat] Hk. unfold oc_jb_get. rewrite Hst, Hgr. cbn [negb Z.ltb Z.compare].
  unfold drop_one. cbn [andb]. cbv zeta. rewrite (at_frame_slots _ _ j), Hpl, Hat by (done || lia).
  cbn [js_data]. eexists. split; [done|].
  split; cbn [jb_started jb_play jb_grow jb_slot set_idle set_concealed set_clock release set_slots set_play]; try done.
  - apply nth_frame_succ.
  - by rewrite length_insert.
  - intros i Hi.
    erewrite (at_frame_insert f0 k i _ j); [|lia|lia|done|reflexivity|reflexivity].
    destruct (Nat.eqb_spec i k); [lia|]. apply Hat. lia.
Qed.

Lemma playing_get_all f0 ds k j :
  (length ds <= 64)%nat → playing f0 ds k j → (k <= length ds)%nat →
  get_all (length ds - k) j = (fun d => (OC_JB_PACKET, d)) <$> drop k ds.
Proof.
  intros Hn. remember (length ds - k)%nat as n eqn:En. revert k j En.
  induction n as [|n IH]; intros k j En Hp Hk.
  { by rewrite drop_ge by lia. }
  destruct (playing_get f0 ds k j Hn Hp ltac:(lia)) as (j' & E & Hp'). cbn [get_all]. rewrite E.
  rewrite (IH (S k) j') by (done || lia).
  destruct (nth_lookup_or_length ds k []) as [Hl|]; [|lia]. by rewrite (drop_S _ _ _ Hl).
Qed.

Lemma waiting_get f0 ds S j :
  waiting f0 ds S j → is_u32 f0 → (∀ i, (i < length ds)%nat → i ∈ S) →
  ∃ j', playing f0 ds 0 j' ∧
    ∀ n, get_all (2 + n) j = (OC_JB_NONE, []) :: (OC_JB_NONE, []) :: get_all n j'.
Proof.
  intros [Hst Hid Hpl Hgr Hco Hle Hat] Hf HS.
  exists (set_grow 0 j). split.
  - split; cbn; try done.
    + rewrite Hpl. unfold nth_frame. rewrite Z.add_0_r. by rewrite u32_id.
    + intros i Hi. rewrite (at_frame_slots _ _ j), Hat by (done || lia).
      rewrite bool_decide_eq_true_2; [done|]. apply HS. lia.
  - intros n. cbn [get_all Nat.add]. unfold oc_jb_get at 1. rewrite Hst, Hgr. cbn [negb Z.ltb Z.compare].
    cbn [jb_concealed set_grow set_clock]. rewrite Hco. cbn [Z.ltb Z.compare andb].
    unfold oc_jb_get at 1. cbn [jb_started jb_grow jb_concealed set_grow set_clock]. rewrite Hst, Hco.
    cbn. by rewrite ?Hst.
Qed.

Lemma waiting_first f0 ds t0 :
  is_u32 f0 → (0 < length ds <= 64)%nat → Forall (fun d => zlen d <= OC_JB_MAX_PACKET) ds →
  waiting f0 ds [0%nat] (snd (oc_jb_put (nth_frame f0 0) (nth 0 ds []) t0 oc_jb_init)).
Proof.
  intros Hf Hn Hds.
  assert (nth_frame f0 0 = f0) as E0 by (unfold nth_frame; rewrite Z.add_0_r; by apply u32_id).
  assert (zlen (nth 0 ds []) <= OC_JB_MAX_PACKET) as Hsz.
  { apply (Forall_lookup_1 _ _ 0%nat _ Hds). destruct (nth_lookup_or_length ds 0 []) as [->|]; [done|lia]. }
  unfold oc_jb_put. rewrite (proj2 (Z.ltb_ge OC_JB_MAX_PACKET _)) by done.
  set (j1 := start_clock _ _). cbv zeta. rewrite E0.
  assert (jb_play j1 = f0) as -> by exact E0.
  assert (sdiff f0 f0 = 0) as -> by (unfold sdiff; by rewrite Z.sub_diag).
  cbn [Z.ltb Z.compare Z.leb]. change (OC_JB_SLOTS <=? 0) with false. cbn iota.
  assert (slot_at f0 j1 = no_slot) as -> by (apply nth_replicate).
  cbn [js_used no_slot andb]. cbn [snd].
  set (j2 := count 1 0 0 0 0 0 _).
  assert (jb_slot j2 = <[slot_index (nth_frame f0 0) := mk_jb_slot true f0 (nth 0 ds [])]> no_slots) as Hslots
    by (rewrite E0; unfold j2; by destruct (0 <? _)).
  split; try (unfold j2; destruct (0 <? _); done).
  - by rewrite Hslots, length_insert.
  - intros i Hi. rewrite (at_frame_insert f0 0 i _ oc_jb_init _ ltac:(lia) ltac:(lia) eq_refl eq_refl j2 Hslots).
    cbn [js_used js_frame andb]. rewrite E0, Z.eqb_refl. destruct (Nat.eqb_spec i 0) as [->|Hne].
    + by rewrite E0.
    + rewrite bool_decide_eq_false_2 by (rewrite elem_of_cons, elem_of_nil; lia).
      unfold at_frame, slot_at. cbn [jb_slot oc_jb_init]. unfold no_slots. by rewrite nth_replicate.
Qed.

(** C29: the network's reordering is undone.  When, into a fresh buffer, the first
    packet of a burst of up to 64 frames arrives first and the others arrive in any
    order, at any times, before the first tick, ticks while the last output was not
    quiet give two frames of silence
    and then every packet of the burst in the order of its frames, also across
    the wrap of the frame number. *)
Theorem jitter_reorders f0 ds t0 arrivals :
  is_u32 f0 → (0 < length ds <= 64)%nat → Forall (fun d => zlen d <= OC_JB_MAX_PACKET) ds →
  arrivals.*1 ≡ₚ seq 1 (length ds - 1) →
  get_all (2 + length ds) (put_all f0 ds ((0%nat, t0) :: arrivals) oc_jb_init)
  = (OC_JB_NONE, []) :: (OC_JB_NONE, []) :: ((fun d => (OC_JB_PACKET, d)) <$> ds).
Proof.
  intros Hf Hn Hds Hp. cbn [put_all].
  destruct (waiting_put_all f0 ds arrivals [0%nat] _ Hf ltac:(lia) Hds (waiting_first f0 ds t0 Hf Hn Hds))
    as (S & HS & Hin).
  - rewrite Hp. replace [0%nat] with (seq 0 1) by done. rewrite Permutation_app_comm.
    replace (seq 0 1 ++ seq 1 (length ds - 1)) with (seq 0 (1 + (length ds - 1))) by apply seq_app.
    apply NoDup_seq.
  - apply List.Forall_forall. intros [i t] Hi. cbn.
    apply (in_map fst), (Permutation_in _ Hp), in_seq in Hi. cbn in Hi. lia.
  - destruct (waiting_get _ _ _ _ HS Hf) as (j' & Hpl & ->).
    { intros i Hi. apply Hin. destruct (decide (i = 0%nat)) as [->|]; [right; by left|left].
      rewrite Hp. apply elem_of_seq. lia. }
    rewrite <- (Nat.sub_0_r (length ds)). by rewrite (playing_get_all f0) by (done || lia).
Qed.

(** Four frames over the wrap of the counter, the last three reversed. *)
Lemma jitter_reorders_witness :
  get_all 6 (put_all 4294967294 [[1]; [2]; [3]; [4]] [(0%nat, 0); (3%nat, 70); (2%nat, 70); (1%nat, 71)] oc_jb_init)
  = [(OC_JB_NONE, []); (OC_JB_NONE, []); (OC_JB_PACKET, [1]); (OC_JB_PACKET, [2]);
     (OC_JB_PACKET, [3]); (OC_JB_PACKET, [4])].
Proof.
  apply (jitter_reorders 4294967294 [[1]; [2]; [3]; [4]] 0 [(3%nat, 70); (2%nat, 70); (1%nat, 71)]).
  - done.
  - simpl. lia.
  - repeat apply List.Forall_cons; try apply List.Forall_nil; by vm_compute.
  - symmetry. exact (Permutation_rev [1; 2; 3]%nat).
Defined.
