(* ===== verification/Proxyproto.v ===== *)
(** * The PROXY protocol and the trusted forwarders: [daemon/proxyproto.c]

    The reader of a version 2 header, the list of trusted address blocks and
    the match of a peer against it.  [inet_pton] and [inet_ntop] are parameters;
    [strtol] is the C library's, in base ten with a 64-bit [long].  A string is
    the bytes before its NUL; the parse of the list returns [None] where the
    code returns NULL with a reason (allocation is taken to succeed). *)
From stdpp Require Import base tactics list numbers.
From S2P Require Import Prelude.
Local Open Scope Z_scope.

Definition OC_PROXY_V2_MAX : Z := 552.
Definition LONG_MAX : Z := 0x7fffffffffffffff.

Inductive family := AF_INET | AF_INET6.
#[export] Instance family_eq_dec : EqDecision family.
Proof. solve_decision. Defined.

Record net_block := mk_block { nb_family : family; nb_addr : list Z; nb_bits : Z }.

Definition byte (l : list Z) (i : Z) : Z := nth (Z.to_nat i) l 0.

Definition bits_match (a b : list Z) (bits : Z) : bool :=
  let full := bits / 8 in
  let rest := bits mod 8 in
  if negb (bool_decide (ztake full a = ztake full b)) then false
  else if rest =? 0 then true
  else
    let mask := u8 (Z.shiftl 0xFF (8 - rest)) in
    Z.land (byte a full) mask =? Z.land (byte b full) mask.

(** ** The list of trusted blocks *)

Definition isspace (c : Z) : bool := ((9 <=? c) && (c <=? 13)) || (c =? 32).
Definition isdigit (c : Z) : bool := (48 <=? c) && (c <=? 57).

(** The digits at the front, added to [v], and what follows them. *)
Fixpoint digits (v : Z) (s : list Z) : Z * list Z :=
  match s with
  | c :: s' => if isdigit c then digits (v * 10 + (c - 48)) s' else (v, s)
  | [] => (v, [])
  end.
Fixpoint skip_space (s : list Z) : list Z :=
  match s with c :: s' => if isspace c then skip_space s' else s | [] => [] end.
(** [strtol(s, &endp, 10)]: the value and [endp]. *)
Definition strtol (s : list Z) : Z * list Z :=
  let t := skip_space s in
  let '(neg, t) := match t with
                   | 45 :: t' => (true, t') | 43 :: t' => (false, t') | _ => (false, t) end in
  match t with
  | c :: _ => if isdigit c
              then let '(v, e) := digits 0 t in
                   (if neg then Z.max (- LONG_MAX - 1) (- v) else Z.min LONG_MAX v, e)
              else (0, s)
  | [] => (0, s)
  end.

(** [(int)v] of a [long]. *)
Definition int_of_long (v : Z) : Z := (v + 2 ^ 31) mod 2 ^ 32 - 2 ^ 31.

Definition is_blank (c : Z) : bool := (c =? 32) || (c =? 9).
Fixpoint trim_front (s : list Z) : list Z :=
  match s with c :: s' => if is_blank c then trim_front s' else s | [] => [] end.
Definition trim (s : list Z) : list Z := rev (trim_front (rev (trim_front s))).

(** Before the first slash, and after it if there is one. *)
Fixpoint cut_slash (s : list Z) : list Z * option (list Z) :=
  match s with
  | [] => ([], None)
  | c :: s => if c =? 47 then ([], Some s)
              else let '(a, r) := cut_slash s in (c :: a, r)
  end.

Section Proxyproto.
Context (pton4 pton6 : list Z → option (list Z)) (ntop4 ntop6 : list Z → option (list Z)).

(** The prefix length written behind the slash; -1 without one. *)
Definition parse_bits (slash : option (list Z)) : option Z :=
  match slash with
  | None => Some (-1)
  | Some rest =>
      let '(v, endp) := strtol rest in
      if bool_decide (rest = []) || negb (bool_decide (endp = [])) || (v <? 0) then None
      else Some (int_of_long v)
  end.

(** One entry between commas; [None] is [goto bad]. *)
Definition parse_item (seg : list Z) (t : list net_block) : option (list net_block) :=
  let item := trim seg in
  if bool_decide (item = []) then Some t else
  if 80 <=? zlen item then None else
  let '(addr, slash) := cut_slash item in
  bits ← parse_bits slash;
  match pton4 addr with
  | Some b =>
      let bits := if bits <? 0 then 32 else bits in
      if 32 <? bits then None else Some (t ++ [mk_block AF_INET b bits])
  | None =>
      match pton6 addr with
      | Some b =>
          let bits := if bits <? 0 then 128 else bits in
          if 128 <? bits then None else Some (t ++ [mk_block AF_INET6 b bits])
      | None => None
      end
  end.

(** [seg] is the entry read so far. *)
Fixpoint parse_list (spec seg : list Z) (t : list net_block) : option (list net_block) :=
  match spec with
  | [] => parse_item seg t
  | c :: spec =>
      if c =? 44 then t ← parse_item seg t; parse_list spec [] t
      else parse_list spec (seg ++ [c]) t
  end.

Definition oc_trusted_proxies_parse (spec : option (list Z)) : option (list net_block) :=
  match spec with None | Some [] => Some [] | Some spec => parse_list spec [] [] end.

(** The [ss_family] of the peer with its address. *)
Inductive sockaddr := SockV4 (addr : list Z) | SockV6 (addr : list Z) | SockOther.

Definition V4MAPPED : list Z := [0; 0; 0; 0; 0; 0; 0; 0; 0; 0; 0xFF; 0xFF].

Definition oc_trusted_proxies_match (t : list net_block) (peer : sockaddr) : bool :=
  let v4 := match peer with
            | SockV4 a => Some a
            | SockV6 a => if bool_decide (ztake 12 a = V4MAPPED) then Some (zdrop 12 a) else None
            | SockOther => None
            end in
  let v6 := match peer with SockV6 a => Some a | _ => None end in
  existsb (fun b =>
    match nb_family b with
    | AF_INET => match v4 with Some a => bits_match a (nb_addr b) (nb_bits b) | None => false end
    | AF_INET6 => match v6 with Some a => bits_match a (nb_addr b) (nb_bits b) | None => false end
    end) t.

(** ** The header *)

Definition SIG : list Z := [0x0D; 0x0A; 0x0D; 0x0A; 0x00; 0x0D; 0x0A; 0x51; 0x55; 0x49; 0x54; 0x0A].

(** The source address of a PROXY command, [None] where the code returns -1. *)
Definition proxy_source (buf : list Z) (fam body : Z) : option (list Z) :=
  if fam =? 0x11 then
    if body <? 12 then None else ntop4 (ztake 4 (zdrop 16 buf))
  else if fam =? 0x21 then
    if body <? 36 then None
    else if bool_decide (ztake 12 (zdrop 16 buf) = V4MAPPED) then ntop4 (ztake 4 (zdrop 28 buf))
    else ntop6 (ztake 16 (zdrop 16 buf))
  else None.

(** The return value, and [src]. *)
Definition oc_proxy_v2_parse (buf : list Z) : Z * list Z :=
  let len := zlen buf in
  let cmp := if len <? 12 then len else 12 in
  if negb (bool_decide (ztake cmp buf = ztake cmp SIG)) then (-1, []) else
  if len <? 16 then (0, []) else
  let ver := Z.shiftr (byte buf 12) 4 in
  let cmd := Z.land (byte buf 12) 0x0F in
  let fam := byte buf 13 in
  let body := Z.lor (Z.shiftl (byte buf 14) 8) (byte buf 15) in
  if negb (ver =? 2) || (negb (cmd =? 0) && negb (cmd =? 1)) then (-1, []) else
  if OC_PROXY_V2_MAX <? 16 + body then (-1, []) else
  if len <? 16 + body then (0, []) else
  if cmd =? 0 then (16 + body, []) else
  match proxy_source buf fam body with
  | None => (-1, [])
  | Some src => (16 + body, src)
  end.
End Proxyproto.

(** ** Reading the header from a stream *)

Lemma ztake_prefix {A} (c c' : Z) (a b : list A) :
  c <= c' → ztake c' a = ztake c' b → ztake c a = ztake c b.
Proof. intros Hc E. by rewrite <- (ztake_ztake_le c c' a), E, ztake_ztake_le. Qed.

Lemma byte_app l ext i : 0 <= i < zlen l → byte (l ++ ext) i = byte l i.
Proof. unfold byte, zlen. intros. apply app_nth1. lia. Qed.

Lemma field_app {A} (l ext : list A) off n :
  0 <= off → 0 <= n → off + n <= zlen l → ztake n (zdrop off (l ++ ext)) = ztake n (zdrop off l).
Proof.
  intros Ho Hn Hl. rewrite zdrop_app_lt by lia. apply ztake_app_le. rewrite zlen_zdrop; lia.
Qed.

Section Stream.
Context (ntop4 ntop6 : list Z → option (list Z)).
Let parse := oc_proxy_v2_parse ntop4 ntop6.

Lemma proxy_source_app buf ext fam body :
  16 + body <= zlen buf →
  proxy_source ntop4 ntop6 (buf ++ ext) fam body = proxy_source ntop4 ntop6 buf fam body.
Proof.
  intros Hl. unfold proxy_source. destruct (fam =? 0x11).
  - destruct (Z.ltb_spec body 12); [done|]. by rewrite field_app by lia.
  - destruct (fam =? 0x21); [|done]. destruct (Z.ltb_spec body 36); [done|].
    by rewrite !field_app by lia.
Qed.

(** The part of the header that says how long it is. *)
Lemma header_app buf ext :
  16 <= zlen buf →
  byte (buf ++ ext) 12 = byte buf 12 ∧ byte (buf ++ ext) 13 = byte buf 13 ∧
  byte (buf ++ ext) 14 = byte buf 14 ∧ byte (buf ++ ext) 15 = byte buf 15 ∧
  ztake 12 (buf ++ ext) = ztake 12 buf.
Proof. intros Hl. split_and!; [apply byte_app; lia..|apply ztake_app_le; lia]. Qed.

Lemma parse_stable buf ext : (parse buf).1 ≠ 0 → parse (buf ++ ext) = parse buf.
Proof.
  unfold parse, oc_proxy_v2_parse. cbv zeta. pose proof (zlen_nonneg ext). rewrite zlen_app.
  case_bool_decide as Hsig; cbn [negb].
  - destruct (Z.ltb_spec (zlen buf) 16) as [|Hl]; [done|].
    destruct (header_app buf ext Hl) as (-> & -> & -> & -> & Ht).
    rewrite (proj2 (Z.ltb_ge (zlen buf) 12)) in Hsig by lia.
    rewrite (proj2 (Z.ltb_ge (_ + _) 12)), (proj2 (Z.ltb_ge (_ + _) 16)) by lia.
    rewrite Ht, bool_decide_eq_true_2 by done. cbn [negb].
    destruct (_ || _); [done|]. destruct (_ <? _); [done|].
    destruct (Z.ltb_spec (zlen buf) (16 + Z.lor (Z.shiftl (byte buf 14) 8) (byte buf 15))); [done|].
    rewrite (proj2 (Z.ltb_ge _ _)) by lia. destruct (_ =? 0); [done|].
    intros _. by rewrite proxy_source_app.
  - intros _. rewrite bool_decide_eq_false_2; [done|]. intros E. apply Hsig.
    rewrite <- (ztake_app_le _ buf ext) by (destruct (Z.ltb_spec (zlen buf) 12); lia).
    eapply ztake_prefix; [|exact E].
    destruct (Z.ltb_spec (zlen buf) 12), (Z.ltb_spec (zlen buf + zlen ext) 12); lia.
Qed.

Lemma parse_waits buf k : 0 <= k < (parse buf).1 → parse (ztake k buf) = (0, []).
Proof.
  unfold parse. unfold oc_proxy_v2_parse at 1. cbv zeta.
  case_bool_decide as Hsig; cbn [negb]; [|simpl; lia].
  destruct (Z.ltb_spec (zlen buf) 16) as [|Hl]; [simpl; lia|].
  rewrite (proj2 (Z.ltb_ge (zlen buf) 12)) in Hsig by lia.
  set (body := Z.lor _ _). destruct (_ || _) eqn:Ehdr; [simpl; lia|].
  destruct (_ <? _) eqn:Emax; [simpl; lia|].
  destruct (Z.ltb_spec (zlen buf) (16 + body)); [simpl; lia|].
  intros Hk. assert (k < 16 + body) as Hkb.
  { revert Hk. destruct (_ =? 0); [simpl; lia|]. destruct (proxy_source _ _ _ _ _); simpl; lia. }
  assert (k <= zlen buf) as Hkl by lia. assert (zlen (ztake k buf) = k) as Hlk by (apply zlen_ztake; lia).
  unfold oc_proxy_v2_parse. cbv zeta. rewrite Hlk.
  rewrite bool_decide_eq_true_2; cycle 1.
  { rewrite ztake_ztake_le by (destruct (Z.ltb_spec k 12); lia).
    apply (ztake_prefix _ 12); [destruct (Z.ltb_spec k 12); lia|done]. }
  cbn [negb]. destruct (Z.ltb_spec k 16) as [|Hk16]; [done|].
  assert (∀ i, 0 <= i < 16 → byte (ztake k buf) i = byte buf i) as E.
  { intros i Hi. rewrite <- (byte_app (ztake k buf) (zdrop k buf)) by lia. by rewrite ztake_zdrop. }
  rewrite !E by lia. fold body. rewrite Ehdr, Emax. by rewrite (proj2 (Z.ltb_lt _ _)).
Qed.
End Stream.

(** ** Address blocks *)

(** Bit [k] of an address, from its first. *)
Definition addr_bit (a : list Z) (k : Z) : bool := Z.testbit (byte a (k / 8)) (7 - k mod 8).

Lemma u8_testbit_high x j : is_u8 x → 8 <= j → Z.testbit x j = false.
Proof.
  intros Hx Hj. rewrite <- (u8_id x Hx). unfold u8. by apply Z.mod_pow2_bits_high.
Qed.

Lemma u8_ext x y :
  is_u8 x → is_u8 y → x = y ↔ ∀ j, 0 <= j < 8 → Z.testbit x j = Z.testbit y j.
Proof.
  intros Hx Hy. split; [by intros ->|]. intros H. apply Z.bits_inj'. intros j Hj.
  destruct (decide (j < 8)); [by apply H|]. by rewrite !u8_testbit_high by (done || lia).
Qed.

Lemma mask_testbit n j : 0 <= n → 0 <= j →
  Z.testbit (u8 (Z.shiftl 0xFF n)) j = (n <=? j) && (j <? 8).
Proof.
  intros Hn Hj. unfold u8. destruct (Z.ltb_spec j 8) as [H8|H8].
  - rewrite Z.mod_pow2_bits_low, Z.shiftl_spec by lia. change 0xFF with (Z.ones 8).
    destruct (Z.leb_spec n j).
    + by rewrite Z.ones_spec_low by lia.
    + by rewrite Z.testbit_neg_r by lia.
  - rewrite Z.mod_pow2_bits_high by lia. by rewrite andb_false_r.
Qed.

Lemma masked_eq x y n :
  0 <= n → (Z.land x (u8 (Z.shiftl 0xFF n)) =? Z.land y (u8 (Z.shiftl 0xFF n))) = true ↔
  ∀ j, n <= j < 8 → Z.testbit x j = Z.testbit y j.
Proof.
  intros Hn. rewrite Z.eqb_eq. split.
  - intros E j Hj. apply (f_equal (fun v => Z.testbit v j)) in E.
    rewrite !Z.land_spec, mask_testbit in E by lia.
    by rewrite (proj2 (Z.leb_le n j)), (proj2 (Z.ltb_lt j 8)), !andb_true_r in E by lia.
  - intros H. apply Z.bits_inj'. intros j Hj. rewrite !Z.land_spec, mask_testbit by lia.
    destruct (Z.leb_spec n j), (Z.ltb_spec j 8); simpl; rewrite ?andb_false_r, ?andb_true_r; try done.
    apply H. lia.
Qed.

Lemma ztake_eq_bytes a b n :
  zlen a = zlen b → 0 <= n <= zlen a →
  ztake n a = ztake n b ↔ ∀ i, 0 <= i < n → byte a i = byte b i.
Proof.
  unfold zlen, ztake, byte. intros Hl Hn. split.
  - intros E i Hi. apply (f_equal (fun l => nth (Z.to_nat i) l 0)) in E.
    by rewrite !nth_firstn, (proj2 (Nat.ltb_lt _ _)) in E by lia.
  - intros H. apply (nth_ext _ _ 0 0); rewrite !length_take; [lia|]. intros i Hi.
    rewrite !nth_firstn, (proj2 (Nat.ltb_lt _ _)) by lia.
    specialize (H (Z.of_nat i)). rewrite Nat2Z.id in H. apply H. lia.
Qed.

Lemma byte_u8 a i : is_bytes a → is_u8 (byte a i).
Proof.
  intros Ha. unfold byte. destruct (nth_in_or_default (Z.to_nat i) a 0) as [H| ->]; [|done].
  by apply (proj1 (List.Forall_forall _ _) Ha).
Qed.

Lemma bits_match_spec a b bits :
  is_bytes a → is_bytes b → zlen a = zlen b → 0 <= bits <= 8 * zlen a →
  bits_match a b bits = true ↔ ∀ k, 0 <= k < bits → addr_bit a k = addr_bit b k.
Proof.
  intros Ha Hb Hl Hbits. unfold bits_match. cbv zeta.
  assert (0 <= bits / 8 <= zlen a) as Hf by zlia.
  case_bool_decide as Hfull; rewrite (ztake_eq_bytes a b _ Hl Hf) in Hfull; cbn [negb].
  - assert (∀ k, 0 <= k < bits / 8 * 8 → addr_bit a k = addr_bit b k) as Hlow.
    { intros k Hk. unfold addr_bit. by rewrite Hfull by zlia. }
    destruct (Z.eqb_spec (bits mod 8) 0) as [H0|H0].
    { split; [|done]. intros _ k Hk. apply Hlow. zlia. }
    rewrite masked_eq by zlia. split.
    + intros H k Hk. destruct (decide (k < bits / 8 * 8)); [apply Hlow; lia|].
      unfold addr_bit. replace (k / 8) with (bits / 8) by zlia. apply H. zlia.
    + intros H j Hj. specialize (H (bits / 8 * 8 + (7 - j)) ltac:(zlia)). unfold addr_bit in H.
      replace ((bits / 8 * 8 + (7 - j)) / 8) with (bits / 8) in H by zlia.
      by replace (7 - (bits / 8 * 8 + (7 - j)) mod 8) with j in H by zlia.
  - split; [done|]. intros H. destruct Hfull. intros i Hi. apply u8_ext; [by apply byte_u8..|].
    intros j Hj. specialize (H (8 * i + (7 - j)) ltac:(zlia)). unfold addr_bit in H.
    replace ((8 * i + (7 - j)) / 8) with i in H by zlia.
    by replace (7 - (8 * i + (7 - j)) mod 8) with j in H by zlia.
Qed.

Definition family_bytes (f : family) : Z := match f with AF_INET => 4 | AF_INET6 => 16 end.
Definition block_ok (b : net_block) : Prop :=
  is_bytes (nb_addr b) ∧ zlen (nb_addr b) = family_bytes (nb_family b) ∧
  0 <= nb_bits b <= 8 * family_bytes (nb_family b).
Definition peer_ok (p : sockaddr) : Prop :=
  match p with
  | SockV4 a => is_bytes a ∧ zlen a = 4
  | SockV6 a => is_bytes a ∧ zlen a = 16
  | SockOther => True
  end.

(** The address of the peer in a family: an IPv4-mapped one is in both. *)
Definition peer_addr (f : family) (p : sockaddr) (a : list Z) : Prop :=
  match f, p with
  | AF_INET, SockV4 b => a = b
  | AF_INET, SockV6 b => b = V4MAPPED ++ a
  | AF_INET6, SockV6 b => a = b
  | _, _ => False
  end.
Definition in_block (b : net_block) (p : sockaddr) : Prop :=
  ∃ a, peer_addr (nb_family b) p a ∧ ∀ k, 0 <= k < nb_bits b → addr_bit a k = addr_bit (nb_addr b) k.

Section Trusted.
Context (pton4 pton6 : list Z → option (list Z)).

(** What [inet_pton] writes: four bytes, or sixteen. *)
Definition pton_ok : Prop :=
  (∀ s b, pton4 s = Some b → is_bytes b ∧ zlen b = 4) ∧
  (∀ s b, pton6 s = Some b → is_bytes b ∧ zlen b = 16).

Lemma parse_item_ok seg t t' :
  pton_ok → Forall block_ok t → parse_item pton4 pton6 seg t = Some t' → Forall block_ok t'.
Proof.
  intros [H4 H6] Ht. unfold parse_item. cbv zeta. case_bool_decide; [by intros [= <-]|].
  destruct (80 <=? _); [done|]. destruct (cut_slash _) as [addr slash].
  destruct (parse_bits slash) as [bits|]; cbn [mbind option_bind]; [|done].
  destruct (pton4 addr) as [b|] eqn:E4.
  - apply H4 in E4 as [Hb Hl]. destruct (Z.ltb_spec 32 (if bits <? 0 then 32 else bits)); [done|].
    intros [= <-]. apply Forall_app. split; [done|]. apply List.Forall_cons; [|constructor].
    split_and!; cbn; try done; try lia. destruct (Z.ltb_spec bits 0); lia.
  - destruct (pton6 addr) as [b|] eqn:E6; [|done]. apply H6 in E6 as [Hb Hl].
    destruct (Z.ltb_spec 128 (if bits <? 0 then 128 else bits)); [done|].
    intros [= <-]. apply Forall_app. split; [done|]. apply List.Forall_cons; [|constructor].
    split_and!; cbn; try done; try lia. destruct (Z.ltb_spec bits 0); lia.
Qed.

Lemma parse_list_ok spec : ∀ seg t t',
  pton_ok → Forall block_ok t → parse_list pton4 pton6 spec seg t = Some t' → Forall block_ok t'.
Proof.
  induction spec as [|c spec IH]; intros seg t t' Hp Ht; cbn [parse_list]; [by apply parse_item_ok|].
  destruct (c =? 44); [|by apply IH].
  destruct (parse_item pton4 pton6 seg t) as [t1|] eqn:E; [|done]. cbn [mbind option_bind].
  apply IH; [done|]. by apply (parse_item_ok seg t).
Qed.

Lemma parse_ok spec t : pton_ok → oc_trusted_proxies_parse pton4 pton6 spec = Some t → Forall block_ok t.
Proof.
  intros Hp. unfold oc_trusted_proxies_parse. destruct spec as [[|c s]|]; try (intros [= <-]; constructor).
  apply parse_list_ok; [done|constructor].
Qed.
End Trusted.

Lemma block_match b p :
  block_ok b → peer_ok p → oc_trusted_proxies_match [b] p = true ↔ in_block b p.
Proof.
  intros (Hb & Hl & Hbits) Hp. unfold oc_trusted_proxies_match, in_block. cbn [existsb]. rewrite orb_false_r.
  destruct (nb_family b), p as [a|a|]; cbn [family_bytes peer_addr peer_ok] in *;
    try (split; [done|by intros (? & [] & _)]); destruct Hp as [Ha Hla].
  - rewrite bits_match_spec by (done || lia). split; [by exists a|by intros (? & -> & ?)].
  - case_bool_decide as Hm; cycle 1.
    { split; [done|]. intros (a' & -> & _). destruct Hm. by apply ztake_app_eq. }
    rewrite bits_match_spec; [|by apply is_bytes_zdrop|done|rewrite zlen_zdrop; lia|rewrite zlen_zdrop; lia].
    split.
    + intros H. exists (zdrop 12 a). rewrite <- Hm. by rewrite ztake_zdrop.
    + intros (a' & -> & H). by rewrite zdrop_app_eq.
  - rewrite bits_match_spec by (done || lia). split; [by exists a|by intros (? & -> & ?)].
Qed.

(** A peer is trusted exactly when an entry of the list covers it.  For
    a list the parser accepts, [oc_trusted_proxies_match] holds precisely when
    some entry's first [bits] bits, bit by bit, are the peer's, an IPv4 entry
    covering an IPv4 peer seen through a dual-stack socket too, and no entry of
    one family covers a peer of the other. *)
Theorem trusted_match_spec pton4 pton6 spec t p :
  pton_ok pton4 pton6 → oc_trusted_proxies_parse pton4 pton6 spec = Some t → peer_ok p →
  oc_trusted_proxies_match t p = true ↔ ∃ b, b ∈ t ∧ in_block b p.
Proof.
  intros Hp Ht%parse_ok Hpeer; [|done]. unfold oc_trusted_proxies_match. rewrite existsb_exists.
  split.
  - intros (b & Hin & Hm). exists b. split; [by apply list_elem_of_In|].
    apply block_match; [|done|]. { by apply (proj1 (List.Forall_forall _ _) Ht). }
    unfold oc_trusted_proxies_match. cbn [existsb]. by rewrite Hm.
  - intros (b & Hin & Hm). apply list_elem_of_In in Hin. exists b. split; [done|].
    apply block_match in Hm; [|by apply (proj1 (List.Forall_forall _ _) Ht)|done].
    unfold oc_trusted_proxies_match in Hm. cbn [existsb] in Hm. by rewrite orb_false_r in Hm.
Qed.

(** An IPv4 parser that knows one address, 10.0.0.0. *)
Definition demo_pton4 (s : list Z) : option (list Z) :=
  if bool_decide (s = [49; 48; 46; 48; 46; 48; 46; 48]) then Some [10; 0; 0; 0] else None.
Definition demo_pton6 (s : list Z) : option (list Z) := None.

Lemma demo_pton_ok : pton_ok demo_pton4 demo_pton6.
Proof.
  split; [|done]. intros s b. unfold demo_pton4. case_bool_decide; [|done]. intros [= <-].
  split; [|done]. repeat constructor; lia.
Qed.

(** "10.0.0.0/8" and the peer 10.1.2.3. *)
Lemma trusted_match_spec_witness :
  oc_trusted_proxies_match [mk_block AF_INET [10; 0; 0; 0] 8] (SockV4 [10; 1; 2; 3]) = true ↔
  ∃ b, b ∈ [mk_block AF_INET [10; 0; 0; 0] 8] ∧ in_block b (SockV4 [10; 1; 2; 3]).
Proof.
  apply (trusted_match_spec demo_pton4 demo_pton6 (Some [49; 48; 46; 48; 46; 48; 46; 48; 47; 56])).
  - exact demo_pton_ok.
  - vm_compute. reflexivity.
  - split; [repeat constructor; lia|done].
Defined.

Lemma body_nonneg buf : is_bytes buf → 0 <= Z.lor (Z.shiftl (byte buf 14) 8) (byte buf 15).
Proof.
  intros Hb. apply Z.lor_nonneg. split; [apply Z.shiftl_nonneg|]; by apply byte_u8.
Qed.

(** ** The format of a header *)

(** Version 2: the signature, the command, the family, the length of what follows in
    two bytes, the high one first, and the addresses. *)
Definition v2_header (cmd fam : Z) (payload : list Z) : list Z :=
  SIG ++ [0x20 + cmd; fam; zlen payload / 256; zlen payload mod 256] ++ payload.

Section Format.
Context (ntop4 ntop6 : list Z → option (list Z)).

(** The source it names: nothing for LOCAL; for PROXY the first address of the payload,
    of TCP over IPv4 or IPv6, a mapped one as IPv4. *)
Definition v2_source (cmd fam : Z) (payload : list Z) : option (list Z) :=
  if cmd =? 0 then Some []
  else if (fam =? 0x11) && (12 <=? zlen payload) then ntop4 (ztake 4 payload)
  else if (fam =? 0x21) && (36 <=? zlen payload) then
    if bool_decide (ztake 12 payload = V4MAPPED) then ntop4 (ztake 4 (zdrop 12 payload)) else ntop6 (ztake 16 payload)
  else None.

Lemma two_bytes hi lo : 0 <= lo < 256 → Z.lor (Z.shiftl hi 8) lo = hi * 256 + lo.
Proof.
  intros Hl. rewrite Z.shiftl_mul_pow2 by lia. change (2 ^ 8) with 256. enough (Z.land (hi * 256) lo = 0) as E by (rewrite <- Z.add_lor_land, E; lia).
  apply Z.bits_inj'. intros k Hk. rewrite Z.land_spec, Z.bits_0. destruct (Z.ltb_spec k 8).
  - change 256 with (2 ^ 8). by rewrite Z.mul_pow2_bits_low.
  - change 256 with (2 ^ 8) in *. rewrite (Z.bits_above_log2 lo k); [apply andb_false_r|lia|].
    destruct (decide (lo = 0)) as [->|]; [simpl; lia|]. enough (Z.log2 lo < 8) by lia. apply Z.log2_lt_pow2; lia.
Qed.
Lemma nibbles x : is_u8 x → x = 16 * Z.shiftr x 4 + Z.land x 0x0F ∧ 0 <= Z.land x 0x0F < 16.
Proof. intros Hx. rewrite Z.shiftr_div_pow2 by lia. change 0x0F with (Z.ones 4). rewrite Z.land_ones by lia. zlia. Qed.

(** A header in full is read as what it says. *)
Lemma parse_header cmd fam payload rest : 0 <= cmd <= 1 → 16 + zlen payload <= OC_PROXY_V2_MAX →
  oc_proxy_v2_parse ntop4 ntop6 (v2_header cmd fam payload ++ rest) =
  match v2_source cmd fam payload with Some src => (16 + zlen payload, src) | None => (-1, []) end.
Proof.
  intros Hc Hm. pose proof (zlen_nonneg payload) as Hp. set (h := v2_header cmd fam payload). assert (Hl : zlen h = 16 + zlen payload) by (unfold h, v2_header, zlen; rewrite !length_app; simpl; lia).
  assert (E : oc_proxy_v2_parse ntop4 ntop6 h = match v2_source cmd fam payload with Some src => (16 + zlen payload, src) | None => (-1, []) end).
  { unfold oc_proxy_v2_parse. cbv zeta. rewrite Hl. rewrite (proj2 (Z.ltb_ge _ 12)), (proj2 (Z.ltb_ge _ 16)) by lia.
    change (ztake 12 h) with SIG. change (ztake 12 SIG) with SIG. rewrite bool_decide_eq_true_2 by done. cbn [negb].
    change (byte h 12) with (0x20 + cmd). change (byte h 13) with fam. change (byte h 14) with (zlen payload / 256). change (byte h 15) with (zlen payload mod 256).
    rewrite two_bytes by zlia. replace (zlen payload / 256 * 256 + zlen payload mod 256) with (zlen payload) by zlia.
    assert (Z.shiftr (0x20 + cmd) 4 = 2 ∧ Z.land (0x20 + cmd) 0x0F = cmd) as [-> ->] by (assert (cmd = 0 ∨ cmd = 1) as [-> | ->] by lia; done).
    assert (negb (2 =? 2) || (negb (cmd =? 0) && negb (cmd =? 1)) = false) as -> by (assert (cmd = 0 ∨ cmd = 1) as [-> | ->] by lia; done).
    rewrite (proj2 (Z.ltb_ge OC_PROXY_V2_MAX _)), (proj2 (Z.ltb_ge (16 + zlen payload) (16 + zlen payload))) by lia.
    unfold v2_source, proxy_source. change (zdrop 16 h) with payload. change (zdrop 28 h) with (zdrop 12 payload). destruct (cmd =? 0); [done|].
    destruct (Z.eqb_spec fam 0x11) as [->|]; cbn [andb].
    - destruct (Z.ltb_spec (zlen payload) 12), (Z.leb_spec 12 (zlen payload)); try lia; [|done]. cbn. done.
    - destruct (fam =? 0x21); cbn [andb]; [|done]. destruct (Z.ltb_spec (zlen payload) 36), (Z.leb_spec 36 (zlen payload)); try lia; done. }
  rewrite <- E. apply (parse_stable ntop4 ntop6). rewrite E. destruct (v2_source _ _ _); simpl; lia.
Qed.
(** What is accepted is a header in full. *)
Lemma accepted_header buf : is_bytes buf → 0 < (oc_proxy_v2_parse ntop4 ntop6 buf).1 →
  ∃ cmd fam payload rest, 0 <= cmd <= 1 ∧ is_bytes payload ∧ is_u8 fam ∧ 16 + zlen payload <= OC_PROXY_V2_MAX ∧ buf = v2_header cmd fam payload ++ rest.
Proof.
  intros Hb. unfold oc_proxy_v2_parse. cbv zeta. case_bool_decide as Hsig; cbn [negb]; [|simpl; lia].
  destruct (Z.ltb_spec (zlen buf) 16) as [|Hl]; [simpl; lia|]. rewrite (proj2 (Z.ltb_ge (zlen buf) 12)) in Hsig by lia. change (ztake 12 SIG) with SIG in Hsig.
  rewrite (two_bytes (byte buf 14)) by (by apply byte_u8). destruct (_ || _) eqn:Ehdr; [simpl; lia|]. set (body := byte buf 14 * 256 + byte buf 15).
  destruct (Z.ltb_spec OC_PROXY_V2_MAX (16 + body)) as [|Hmax]; [simpl; lia|]. destruct (Z.ltb_spec (zlen buf) (16 + body)) as [|Hlen]; [simpl; lia|]. intros _.
  pose proof (byte_u8 buf 12 Hb) as B12. pose proof (byte_u8 buf 14 Hb) as B14. pose proof (byte_u8 buf 15 Hb) as B15. destruct (nibbles _ B12) as [En Hn].
  apply orb_false_iff in Ehdr as [Hv%negb_false_iff%Z.eqb_eq Hc]. rewrite Hv in En. unfold is_u8 in *.
  exists (Z.land (byte buf 12) 0x0F), (byte buf 13), (ztake body (zdrop 16 buf)), (zdrop (16 + body) buf).
  assert (zlen (ztake body (zdrop 16 buf)) = body) as Hpl by (apply zlen_ztake; rewrite zlen_zdrop; lia).
  rewrite Hpl. split_and!; [lia|destruct (Z.eqb_spec (Z.land (byte buf 12) 0x0F) 0), (Z.eqb_spec (Z.land (byte buf 12) 0x0F) 1); simpl in Hc; lia|by apply is_bytes_ztake, is_bytes_zdrop|by apply byte_u8|by apply byte_u8|done|].
  unfold v2_header. rewrite Hpl. replace (0x20 + Z.land (byte buf 12) 0x0F) with (byte buf 12) by lia.
  replace (body / 256) with (byte buf 14) by (unfold body; zlia). replace (body mod 256) with (byte buf 15) by (unfold body; zlia).
  rewrite <- (ztake_zdrop 12 buf) at 1. rewrite Hsig, <- app_assoc. f_equal.
  assert (Hd : zdrop 12 buf = [byte buf 12; byte buf 13; byte buf 14; byte buf 15] ++ zdrop 16 buf).
  { unfold zlen in Hl. clear -Hl. do 16 (destruct buf as [|? buf]; [simpl in Hl; lia|]). done. }
  rewrite Hd, <- app_assoc. f_equal. rewrite <- (ztake_zdrop body (zdrop 16 buf)) at 1. f_equal. rewrite zdrop_zdrop by lia. f_equal. lia.
Qed.
End Format.

(** C32: the header is read the same however it arrives, for what it says, and the
    peek is always enough.  [oc_proxy_v2_parse] accepts exactly the bytes that begin with
    a version 2 header in full -- of at most 552 bytes, LOCAL, or PROXY over TCP with its
    addresses -- and returns the header's length, which its two length bytes give, and
    the source it names; once it has decided, more bytes change nothing; it waits on every
    shorter prefix of a header it accepts; and on 552 bytes, what the caller peeks at, it
    never waits. *)
Theorem proxy_header_stream ntop4 ntop6 buf :
  is_bytes buf →
  (∀ n src, oc_proxy_v2_parse ntop4 ntop6 buf = (n, src) ∧ 0 < n ↔
     ∃ cmd fam payload rest, 0 <= cmd <= 1 ∧ buf = v2_header cmd fam payload ++ rest ∧
       n = 16 + zlen payload ∧ n <= OC_PROXY_V2_MAX ∧ v2_source ntop4 ntop6 cmd fam payload = Some src) ∧
  (∀ ext, (oc_proxy_v2_parse ntop4 ntop6 buf).1 ≠ 0 →
     oc_proxy_v2_parse ntop4 ntop6 (buf ++ ext) = oc_proxy_v2_parse ntop4 ntop6 buf) ∧
  (∀ k, 0 <= k < (oc_proxy_v2_parse ntop4 ntop6 buf).1 → oc_proxy_v2_parse ntop4 ntop6 (ztake k buf) = (0, [])) ∧
  (OC_PROXY_V2_MAX <= zlen buf → (oc_proxy_v2_parse ntop4 ntop6 buf).1 ≠ 0).
Proof.
  intros Hb. split_and!; [|intros ext; apply parse_stable|intros k; apply parse_waits|].
  - intros n src. split.
    + intros [E Hn]. destruct (accepted_header ntop4 ntop6 buf Hb) as (cmd & fam & payload & rest & Hc & _ & _ & Hm & ->); [by rewrite E|].
      rewrite parse_header in E by done. destruct (v2_source _ _ _ _ _) as [src'|] eqn:Es; injection E as <- <-; [|lia]. exists cmd, fam, payload, rest. split_and!; (done || lia).
    + intros (cmd & fam & payload & rest & Hc & -> & -> & Hm & Es). pose proof (zlen_nonneg payload). rewrite parse_header by done. rewrite Es. split; [done|lia].
  - pose proof (body_nonneg buf Hb). unfold oc_proxy_v2_parse, OC_PROXY_V2_MAX. intros Hl. cbv zeta.
    set (body := Z.lor _ _) in *. destruct (negb _); [done|]. rewrite (proj2 (Z.ltb_ge _ 16)) by lia.
    destruct (_ || _); [done|]. destruct (Z.ltb_spec 552 (16 + body)); [done|].
    rewrite (proj2 (Z.ltb_ge _ _)) by lia. destruct (_ =? 0); [simpl; lia|].
    destruct (proxy_source _ _ _ _ _); simpl; lia.
Qed.

(** A PROXY header over IPv4 from 10.1.2.3, and the start of a TLS record behind it. *)
Definition ex_proxy : list Z := [10; 1; 2; 3; 10; 0; 0; 1; 4; 0; 1; 187].
Lemma proxy_header_stream_witness :
  oc_proxy_v2_parse Some Some (v2_header 1 0x11 ex_proxy ++ [22; 3]) = (28, [10; 1; 2; 3]).
Proof.
  assert (is_bytes (v2_header 1 0x11 ex_proxy ++ [22; 3])) as Hb by (repeat constructor; vm_compute; intuition discriminate).
  destruct (proxy_header_stream Some Some _ Hb) as (H & _). apply (H 28 [10; 1; 2; 3]).
  exists 1, 0x11, ex_proxy, [22; 3]. split_and!; try lia; vm_compute; (reflexivity || discriminate).
Defined.

(** ** A prefix length past 32 bits *)

Definition no_special (c : Z) : Prop := c ≠ 44 ∧ c ≠ 47 ∧ is_blank c = false.
(** ["/4294967296"]. *)
Definition slash_2_32 : list Z := [47; 52; 50; 57; 52; 57; 54; 55; 50; 57; 54].

Lemma parse_list_plain pton4 pton6 spec : ∀ seg t,
  Forall (fun c => c ≠ 44) spec → parse_list pton4 pton6 spec seg t = parse_item pton4 pton6 (seg ++ spec) t.
Proof.
  induction spec as [|c spec IH]; intros seg t H; cbn [parse_list]; [by rewrite app_nil_r|].
  apply Forall_cons_iff in H as [Hc H]. rewrite (proj2 (Z.eqb_neq c 44)) by done.
  rewrite IH by done. by rewrite <- app_assoc.
Qed.

Lemma trim_front_plain s : Forall (fun c => is_blank c = false) s → trim_front s = s.
Proof. intros H. destruct H as [|c s Hc H]; [done|]. cbn. by rewrite Hc. Qed.

Lemma trim_plain s : Forall (fun c => is_blank c = false) s → trim s = s.
Proof.
  intros H. unfold trim. rewrite (trim_front_plain s) by done.
  rewrite trim_front_plain by (by apply List.Forall_rev). apply rev_involutive.
Qed.

Lemma cut_slash_at a r : Forall (fun c => c ≠ 47) a → cut_slash (a ++ 47 :: r) = (a, Some r).
Proof.
  induction 1 as [|c a Hc _ IH]; [done|]. cbn [app cut_slash].
  by rewrite (proj2 (Z.eqb_neq c 47)), IH by done.
Qed.

(** A prefix length that does not fit an [int] is not refused: it wraps.
    The entry "address/4294967296" parses as a block of prefix length 0, which
    trusts every IPv4 peer, although the parser is documented to stop the boot
    on an entry it does not understand. *)
Theorem trusted_prefix_wraps pton4 pton6 addr b peer :
  Forall no_special addr → zlen addr < 69 → pton4 addr = Some b → zlen peer = 4 →
  oc_trusted_proxies_parse pton4 pton6 (Some (addr ++ slash_2_32)) = Some [mk_block AF_INET b 0] ∧
  oc_trusted_proxies_match [mk_block AF_INET b 0] (SockV4 peer) = true.
Proof.
  intros Ha Hl Hp Hpeer. split; [|done]. unfold oc_trusted_proxies_parse.
  destruct (addr ++ slash_2_32) as [|c0 s0] eqn:E0; [by destruct addr|]. rewrite <- E0. clear E0 c0 s0.
  rewrite parse_list_plain; cycle 1.
  { apply Forall_app. split; [|repeat constructor; lia]. eapply List.Forall_impl; [|exact Ha]. by intros c []. }
  cbn [app]. unfold parse_item. cbv zeta. rewrite trim_plain; cycle 1.
  { apply Forall_app. split; [|by repeat constructor]. eapply List.Forall_impl; [|exact Ha]. by intros c (_ & _ & ?). }
  rewrite bool_decide_eq_false_2 by (by destruct addr).
  rewrite zlen_app, (proj2 (Z.leb_gt 80 _)) by (change (zlen slash_2_32) with 11; lia).
  unfold slash_2_32. rewrite cut_slash_at; cycle 1.
  { eapply List.Forall_impl; [|exact Ha]. by intros c (_ & ? & _). }
  change (parse_bits _) with (Some 0). cbn [mbind option_bind]. by rewrite Hp.
Qed.

Lemma trusted_prefix_wraps_witness :
  oc_trusted_proxies_match [mk_block AF_INET [10; 0; 0; 0] 0] (SockV4 [8; 8; 8; 8]) = true.
Proof.
  refine (proj2 (trusted_prefix_wraps demo_pton4 demo_pton6 [49; 48; 46; 48; 46; 48; 46; 48] _ [8; 8; 8; 8] _ _ _ _)).
  - repeat apply List.Forall_cons; try apply List.Forall_nil; by split_and!.
  - done.
  - vm_compute. reflexivity.
  - done.
Defined.
