(* ===== verification/Mention.v ===== *)
(** * Mentions, channel references and keywords: [shared/mention.c]

    A body is its list of bytes, an offset a [nat].  The two scanners are one
    loop here, [scan_from], with what they differ in as parameters: the sigil
    and the heading rule of the channel references.  [found] is the length of the
    whole list the loop yields and [out] its first [max] elements.

    The theorems compare each loop, which jumps over the names it has read, with
    a reference that looks at every offset on its own. *)
From stdpp Require Import base tactics list numbers.
From S2P Require Import Prelude.
Local Open Scope Z_scope.

Definition OC_MENTION_NAME_MAX : nat := 64.

Inductive mention_kind :=
  | OC_MENTION_USER | OC_MENTION_HERE | OC_MENTION_CHANNEL | OC_MENTION_EVERYONE
  | OC_MENTION_KEYWORD | OC_MENTION_GROUP.
#[export] Instance mention_kind_eq_dec : EqDecision mention_kind.
Proof. solve_decision. Defined.

Record oc_mention := mk_mention { mn_start : nat; mn_len : nat; mn_kind : mention_kind; mn_name : list Z }.
Record oc_chanref := mk_chanref { cr_start : nat; cr_len : nat; cr_name : list Z }.

Definition letter_or_digit (c : Z) : bool :=
  ((97 <=? c) && (c <=? 122)) || ((65 <=? c) && (c <=? 90)) || ((48 <=? c) && (c <=? 57)).
Definition name_byte (c : Z) : bool := letter_or_digit c || (c =? 46) || (c =? 95) || (c =? 45).
Definition is_punct (c : Z) : bool := (c =? 46) || (c =? 45) || (c =? 95).

Definition lower (c : Z) : Z := if (65 <=? c) && (c <=? 90) then c + 32 else c.
Fixpoint ieq (a b : list Z) : bool :=
  match a, b with
  | x :: a, y :: b => (lower x =? lower y) && ieq a b
  | [], [] => true
  | _, _ => false
  end.

Definition at_ (body : list Z) (i : nat) : Z := nth i body 0.

(** [while (j < len && name_byte(body[j])) j++], from the start of [l]. *)
Fixpoint run_len (l : list Z) : nat :=
  match l with c :: l => if name_byte c then S (run_len l) else O | [] => O end.
(** The loop that gives trailing punctuation back to the sentence. *)
Fixpoint strip (n : nat) (l : list Z) : nat :=
  match n with O => O | S m => if is_punct (nth m l 0) then strip m l else n end.
Definition name_len (l : list Z) : nat := strip (run_len l) l.

(** "##" and "# " are headings. *)
Definition heading (body : list Z) (i : nat) : bool :=
  (S i <? length body)%nat && ((at_ body (S i) =? 35) || (at_ body (S i) =? 32)).
Definition no_heading (body : list Z) (i : nat) : bool := false.

Fixpoint scan_from (sigil : Z) (skip : list Z → nat → bool) (body : list Z) (fuel i : nat)
    : list (nat * list Z) :=
  match fuel with
  | O => []
  | S fuel =>
      if (length body <=? i)%nat then []
      else if negb (at_ body i =? sigil) then scan_from sigil skip body fuel (S i)
      else if (0 <? i)%nat && name_byte (at_ body (i - 1)) then scan_from sigil skip body fuel (S i)
      else if skip body i then scan_from sigil skip body fuel (S i)
      else
        let nlen := name_len (drop (S i) body) in
        let j := (S i + nlen)%nat in
        if (nlen =? 0)%nat || (OC_MENTION_NAME_MAX <=? nlen)%nat
        then scan_from sigil skip body fuel j
        else (i, take nlen (drop (S i) body)) :: scan_from sigil skip body fuel j
  end.

(** ["here"], ["channel"], ["everyone"]. *)
Definition s_here : list Z := [104; 101; 114; 101].
Definition s_channel : list Z := [99; 104; 97; 110; 110; 101; 108].
Definition s_everyone : list Z := [101; 118; 101; 114; 121; 111; 110; 101].

Definition kind_of (name : list Z) : mention_kind :=
  if ieq name s_here then OC_MENTION_HERE
  else if ieq name s_channel then OC_MENTION_CHANNEL
  else if ieq name s_everyone then OC_MENTION_EVERYONE
  else OC_MENTION_USER.

Definition mk_found (r : nat * list Z) : oc_mention :=
  mk_mention r.1 (S (length r.2)) (kind_of r.2) r.2.
Definition mk_ref (r : nat * list Z) : oc_chanref := mk_chanref r.1 (S (length r.2)) r.2.

(** The count, and [out]. *)
Definition oc_mention_scan (body : option (list Z)) (max : nat) : nat * list oc_mention :=
  match body with
  | None => (O, [])
  | Some body =>
      let l := mk_found <$> scan_from 64 no_heading body (length body) 0 in (length l, take max l)
  end.
Definition oc_chanref_scan (body : option (list Z)) (max : nat) : nat * list oc_chanref :=
  match body with
  | None => (O, [])
  | Some body =>
      let l := mk_ref <$> scan_from 35 heading body (length body) 0 in (length l, take max l)
  end.

Definition hits (name : option (list Z)) (m : oc_mention) : bool :=
  negb (bool_decide (mn_kind m = OC_MENTION_USER)) ||
  match name with Some (c :: s) => ieq (mn_name m) (c :: s) | _ => false end.
Definition oc_mention_targets (body : option (list Z)) (name : option (list Z)) : bool :=
  existsb (hits name) (oc_mention_scan body 32).2.

(** *** Keywords *)

Definition kw_wordish (c : Z) : bool := letter_or_digit c || (c =? 95).
Fixpoint prefix_ieq (term l : list Z) : bool :=
  match term, l with
  | [], _ => true
  | b :: term, a :: l => (lower a =? lower b) && prefix_ieq term l
  | _, [] => false
  end.
Definition kw_at (body term : list Z) (i : nat) : bool :=
  negb ((0 <? i)%nat && kw_wordish (at_ body (i - 1))) &&
  prefix_ieq term (drop i body) &&
  negb ((i + length term <? length body)%nat && kw_wordish (at_ body (i + length term))).
Fixpoint kw_loop (fuel : nat) (body term : list Z) (i : nat) : option nat :=
  match fuel with
  | O => None
  | S fuel =>
      if (i + length term <=? length body)%nat
      then if kw_at body term i then Some i else kw_loop fuel body term (S i)
      else None
  end.
(** [None] is 0; the span starts at the offset and is as long as the term. *)
Definition oc_keyword_match (body term : option (list Z)) : option (nat * nat) :=
  match body, term with
  | Some body, Some (c :: s) =>
      let term := c :: s in
      if (length body <? length term)%nat then None
      else (fun i => (i, length term)) <$> kw_loop (S (length body)) body term 0
  | _, _ => None
  end.

(** ** The scanners against a look at every offset *)

(** What stands at offset [i], read on its own. *)
Definition ref_at (sigil : Z) (skip : list Z → nat → bool) (body : list Z) (i : nat) : option (nat * list Z) :=
  let nlen := name_len (drop (S i) body) in
  if (at_ body i =? sigil) && negb ((0 <? i)%nat && name_byte (at_ body (i - 1))) && negb (skip body i)
     && negb (nlen =? 0)%nat && negb (OC_MENTION_NAME_MAX <=? nlen)%nat
  then Some (i, take nlen (drop (S i) body)) else None.

Lemma strip_le n l : (strip n l <= n)%nat.
Proof. induction n as [|n IH]; cbn; [lia|]. destruct (is_punct _); lia. Qed.

Lemma run_len_name l k : (k < run_len l)%nat → (k < length l)%nat ∧ name_byte (nth k l 0) = true.
Proof.
  revert k; induction l as [|c l IH]; intros k; cbn; [lia|]. destruct (name_byte c) eqn:E; [|lia].
  destruct k as [|k]; cbn; [split; [lia|done]|]. intros Hk. destruct (IH k); [lia|]. split; [lia|done].
Qed.

Lemma name_len_spec body i k :
  (i < k)%nat → (k < S i + name_len (drop (S i) body))%nat →
  (k < length body)%nat ∧ name_byte (at_ body k) = true.
Proof.
  intros Hik Hk. unfold name_len in Hk. pose proof (strip_le (run_len (drop (S i) body)) (drop (S i) body)).
  destruct (run_len_name (drop (S i) body) (k - S i)) as [Hl Hn]; [lia|].
  rewrite length_drop in Hl. split; [lia|]. unfold at_.
  rewrite nth_skipn in Hn. by replace (S i + (k - S i))%nat with k in Hn by lia.
Qed.

Lemma omap_none {A B} (f : A → option B) l : (∀ x, x ∈ l → f x = None) → omap f l = [].
Proof.
  induction l as [|x l IH]; intros H; [done|]. cbn. rewrite (H x) by (by left).
  apply IH. intros y Hy. apply H. by right.
Qed.

Section Scan.
Context (sigil : Z) (skip : list Z → nat → bool) (Hsigil : name_byte sigil = false).

Lemma ref_at_name body k : name_byte (at_ body k) = true → ref_at sigil skip body k = None.
Proof.
  intros H. unfold ref_at. destruct (Z.eqb_spec (at_ body k) sigil); [congruence|done].
Qed.

Lemma scan_from_spec body : ∀ fuel i, (length body - i <= fuel)%nat →
  scan_from sigil skip body fuel i = omap (ref_at sigil skip body) (seq i (length body - i)).
Proof.
  induction fuel as [|fuel IH]; intros i Hf.
  { by replace (length body - i)%nat with O by lia. }
  cbn [scan_from]. destruct (Nat.leb_spec (length body) i).
  { by replace (length body - i)%nat with O by lia. }
  replace (length body - i)%nat with (S (length body - S i)) by lia. cbn [seq omap list_omap].
  unfold ref_at at 1. destruct (at_ body i =? sigil); cbn [negb andb]; [|apply IH; lia].
  destruct ((0 <? i)%nat && _); cbn [negb andb]; [apply IH; lia|].
  destruct (skip body i); cbn [negb andb]; [apply IH; lia|]. cbv zeta.
  set (n := name_len _).
  assert (scan_from sigil skip body fuel (S i + n) =
    omap (ref_at sigil skip body) (seq (S i) (length body - S i))) as Hrest.
  { assert (n <= length body - S i)%nat as Hn.
    { destruct n as [|n'] eqn:En; [lia|].
      destruct (name_len_spec body i (S i + n')) as [? _]; [lia|unfold n in En; lia|lia]. }
    rewrite IH by lia. replace (length body - S i)%nat with (n + (length body - (S i + n)))%nat by lia.
    rewrite seq_app, omap_app, (omap_none _ (seq (S i) n)); [done|].
    intros k Hk. apply elem_of_seq in Hk. apply ref_at_name.
    apply (name_len_spec body i k); [lia|unfold n in Hk; lia]. }
  rewrite Hrest. destruct (n =? 0)%nat; cbn [negb andb orb]; [done|].
  by destruct (OC_MENTION_NAME_MAX <=? n)%nat.
Qed.
End Scan.

(** A name that was found: not empty, of name bytes, not ending in punctuation. *)
Lemma strip_last n l : (0 < strip n l)%nat → is_punct (nth (strip n l - 1) l 0) = false.
Proof.
  induction n as [|n IH]; cbn; [lia|]. destruct (is_punct (nth n l 0)) eqn:E; [done|].
  intros _. cbn. by rewrite Nat.sub_0_r.
Qed.

Lemma ref_at_shape sigil skip body i i' name :
  ref_at sigil skip body i = Some (i', name) →
  i' = i ∧ at_ body i = sigil ∧ ((0 < i)%nat → name_byte (at_ body (i - 1)) = false) ∧
  (0 < length name < OC_MENTION_NAME_MAX)%nat ∧ name = take (length name) (drop (S i) body) ∧
  Forall (fun c => name_byte c = true) name ∧ is_punct (at_ name (length name - 1)) = false.
Proof.
  unfold ref_at. cbv zeta. set (l := drop (S i) body). set (n := name_len l).
  destruct (_ && _) eqn:E; [|done]. intros [= <- <-].
  rewrite !andb_true_iff, !negb_true_iff, Z.eqb_eq, Nat.eqb_neq, Nat.leb_gt in E.
  destruct E as ((((Hs & Hb) & _) & Hn) & Hmax).
  assert (n <= run_len l)%nat as Hle by apply strip_le.
  assert (length (take n l) = n) as Hlen.
  { rewrite length_take. enough (n <= length l)%nat by lia.
    destruct (run_len_name l (n - 1)); [lia|]. lia. }
  rewrite Hlen. split_and!; try done; try lia.
  - intros Hi. rewrite (proj2 (Nat.ltb_lt 0 i)) in Hb by done. done.
  - apply List.Forall_forall. intros c Hc. apply (In_nth _ _ 0) in Hc as (k & Hk & <-).
    rewrite Hlen in Hk. rewrite nth_firstn, (proj2 (Nat.ltb_lt k n)) by done.
    apply run_len_name. lia.
  - unfold at_. rewrite nth_firstn, (proj2 (Nat.ltb_lt _ n)) by lia. apply strip_last. fold (name_len l). fold n. lia.
Qed.

(** The scanners miss nothing and invent nothing.  For any body, what
    [oc_mention_scan] and [oc_chanref_scan] report, in count and in order, is what
    a look at every offset on its own gives: a sigil at a word boundary (and not
    a heading) followed by a name; and each name is as the code says: of name
    bytes, of 1 to 63 of them, its last not a dot, a dash or an underscore. *)
Theorem scanners_exact body max :
  let mentions := omap (ref_at 64 no_heading body) (seq 0 (length body)) in
  let chanrefs := omap (ref_at 35 heading body) (seq 0 (length body)) in
  oc_mention_scan (Some body) max = (length mentions, take max (mk_found <$> mentions)) ∧
  oc_chanref_scan (Some body) max = (length chanrefs, take max (mk_ref <$> chanrefs)) ∧
  Forall (fun r : nat * list Z => (0 < length r.2 < OC_MENTION_NAME_MAX)%nat ∧
    Forall (fun c => name_byte c = true) r.2 ∧ is_punct (at_ r.2 (length r.2 - 1)) = false)
    (mentions ++ chanrefs).
Proof.
  cbv zeta. unfold oc_mention_scan, oc_chanref_scan.
  rewrite !scan_from_spec by (done || lia). rewrite !Nat.sub_0_r, !length_fmap.
  split_and!; [done..|]. apply Forall_app. split; apply List.Forall_forall; intros [i name] Hin%list_elem_of_In;
    apply list_elem_of_omap in Hin as (k & _ & Hr); apply ref_at_shape in Hr as (_ & _ & _ & ? & _ & ? & ?); done.
Qed.

(** The keyword found is the first at a word boundary on both sides. *)
Lemma kw_loop_first body term : ∀ fuel i,
  (length body < i + fuel)%nat →
  match kw_loop fuel body term i with
  | Some k => (i <= k)%nat ∧ (k + length term <= length body)%nat ∧ kw_at body term k = true ∧
              ∀ k', (i <= k' < k)%nat → kw_at body term k' = false
  | None => ∀ k, (i <= k)%nat → (k + length term <= length body)%nat → kw_at body term k = false
  end.
Proof.
  induction fuel as [|fuel IH]; intros i Hf; cbn [kw_loop]; [lia|].
  destruct (Nat.leb_spec (i + length term) (length body)) as [Hle|]; [|intros; lia].
  destruct (kw_at body term i) eqn:E; [split_and!; [lia..|done|intros; lia]|].
  specialize (IH (S i) ltac:(lia)). destruct (kw_loop fuel body term (S i)) as [k|].
  - destruct IH as (? & ? & ? & H). split_and!; [lia|done..|]. intros k' Hk'.
    destruct (decide (k' = i)) as [->|]; [done|]. apply H. lia.
  - intros k Hk Hl. destruct (decide (k = i)) as [->|]; [done|]. apply IH; lia.
Qed.
