(* ===== verification/Notify.v ===== *)
(** * When a user is quiet, and when a message notifies: [shared/notify.c]

    The C booleans are [bool]; minutes of the day, the weekday (0 is Sunday),
    the mode and the level are integers as in the code. *)
From stdpp Require Import base tactics list numbers.
From S2P Require Import Prelude.
Local Open Scope Z_scope.

Definition OC_DND_OFF : Z := 0.
Definition OC_DND_EVERY_DAY : Z := 1.
Definition OC_DND_WEEKDAYS : Z := 2.
Definition OC_DND_CUSTOM : Z := 3.
Definition OC_NOTIFY_ALL : Z := 0.
Definition OC_NOTIFY_MENTIONS : Z := 1.
Definition OC_NOTIFY_NONE : Z := 2.

Definition oc_notify_in_window (start_min end_min now_min : Z) : bool :=
  if start_min =? end_min then false
  else if start_min <? end_min then (start_min <=? now_min) && (now_min <? end_min)
  else (start_min <=? now_min) || (now_min <? end_min).

Definition oc_notify_quiet (mode base_start base_end : Z) (day_present day_enabled : bool)
    (day_start day_end local_min weekday : Z) : bool :=
  if mode =? OC_DND_OFF then false
  else if (mode =? OC_DND_WEEKDAYS) && ((weekday =? 0) || (weekday =? 6)) then true
  else if mode =? OC_DND_CUSTOM then
    if negb day_present || negb day_enabled then true
    else negb (oc_notify_in_window day_start day_end local_min)
  else negb (oc_notify_in_window base_start base_end local_min).

Definition oc_notify_decide (own muted vip : bool) (level : Z)
    (mentioned keyword_hit thread_reply quiet paused : bool) : bool :=
  if own then false
  else if muted then false
  else if vip then true
  else if quiet || paused then false
  else if level =? OC_NOTIFY_ALL then true
  else if level =? OC_NOTIFY_MENTIONS then mentioned || keyword_hit || thread_reply
  else false.

(** A minute of the day. *)
Definition is_minute (m : Z) : Prop := 0 <= m < 1440.

(** The minutes from [start] on, around midnight. *)
Lemma window_circular start_min end_min now_min :
  is_minute start_min → is_minute end_min → is_minute now_min →
  oc_notify_in_window start_min end_min now_min = true ↔
  (now_min - start_min) mod 1440 < (end_min - start_min) mod 1440.
Proof.
  unfold is_minute, oc_notify_in_window. intros.
  destruct (Z.eqb_spec start_min end_min); [subst; split; [done|]; zlia|].
  destruct (Z.ltb_spec start_min end_min).
  - rewrite andb_true_iff, Z.leb_le, Z.ltb_lt. zlia.
  - rewrite orb_true_iff, Z.leb_le, Z.ltb_lt. zlia.
Qed.

(** The schedule is circular and complementary.  A window holds a minute
    exactly when it is reached from the window's start, going forward around
    midnight, before its end; of the windows from [a] to [b] and from [b] to [a]
    exactly one holds each minute; and under a daily schedule swapping the two
    ends turns quiet into not quiet. *)
Theorem notify_window_circular a b m :
  is_minute a → is_minute b → is_minute m →
  (oc_notify_in_window a b m = true ↔ (m - a) mod 1440 < (b - a) mod 1440) ∧
  (a ≠ b → oc_notify_in_window b a m = negb (oc_notify_in_window a b m)) ∧
  (∀ wd ds de p e, a ≠ b →
     oc_notify_quiet OC_DND_EVERY_DAY b a p e ds de m wd
     = negb (oc_notify_quiet OC_DND_EVERY_DAY a b p e ds de m wd)).
Proof.
  intros Ha Hb Hm.
  assert (a ≠ b → oc_notify_in_window b a m = negb (oc_notify_in_window a b m)) as Hc.
  { intros Hab. apply eq_bool_prop_intro. rewrite negb_True, !Is_true_true, !window_circular by done.
    unfold is_minute in *. zlia. }
  split_and!; [by apply window_circular|done|].
  intros. unfold oc_notify_quiet. cbn. by rewrite Hc.
Qed.

(** 22:00 to 07:00 at 01:00. *)
Lemma notify_window_circular_witness : oc_notify_in_window 420 1320 60 = negb (oc_notify_in_window 1320 420 60).
Proof. apply (notify_window_circular 1320 420 60); done. Defined.

(** A mute is absolute, and a priority person pierces everything else. *)
Lemma notify_priorities own level m k t q p :
  oc_notify_decide own true true level m k t q p = false ∧
  oc_notify_decide own false true level m k t q p = negb own ∧
  (q || p = true → oc_notify_decide own false false level m k t q p = false).
Proof. unfold oc_notify_decide. destruct own; split_and!; try done. by intros ->. Qed.
