(* ===== verification/Totp.v ===== *)
(** * One-time codes: [daemon/totp.c], and the check of a second step in
    [daemon/dbwriter.c]

    HMAC-SHA-1 and AES-GCM (mbedtls) are parameters, as is what
    [oc_rand_bytes] gives; [None] is their failure.  [check_totp] is the database
    writer's use of them: its row of [local_totp] is a record, [None] when the
    query finds none, and whether the UPDATE ran is an argument.  Loading the
    factor key from its file is not modelled. *)
From stdpp Require Import base tactics list numbers.
From Stdlib Require Import Sorted.
From S2P Require Import Prelude.
Local Open Scope Z_scope.

Definition OC_TOTP_SECRET_LEN : Z := 20.
Definition OC_TOTP_STEP_S : Z := 30.
Definition OC_TOTP_DIGITS : Z := 6.
Definition OC_TOTP_SEALED_LEN : Z := 12 + OC_TOTP_SECRET_LEN + 16.

Definition byte (l : list Z) (i : Z) : Z := nth (Z.to_nat i) l 0.

(** The bytes of a 64-bit value, the most significant first. *)
Definition be8 (v : Z) : list Z :=
  (fun i => u8 (Z.shiftr v (8 * i))) <$> [7; 6; 5; 4; 3; 2; 1; 0].

(** *** base32 *)

(** ["ABCDEFGHIJKLMNOPQRSTUVWXYZ234567"]. *)
Definition base32_char (v : Z) : Z := if v <? 26 then 65 + v else 50 + (v - 26).

(** [while (bits >= 5) ...]: at most two turns, since [bits] is at most 12. *)
Fixpoint emit5 (fuel : nat) (buf bits : Z) : list Z * Z :=
  match fuel with
  | O => ([], bits)
  | S fuel =>
      if 5 <=? bits then
        let '(o, bits') := emit5 fuel buf (bits - 5) in
        (base32_char (Z.land (Z.shiftr buf (bits - 5)) 31) :: o, bits')
      else ([], bits)
  end.

Fixpoint base32_loop (inp : list Z) (buf bits : Z) : list Z :=
  match inp with
  | [] => if 0 <? bits then [base32_char (Z.land (u32 (Z.shiftl buf (5 - bits))) 31)] else []
  | b :: inp =>
      let buf := Z.lor (u32 (Z.shiftl buf 8)) b in
      let '(o, bits) := emit5 3 buf (bits + 8) in
      o ++ base32_loop inp buf bits
  end.

(** [None] is -1; otherwise the text, whose length is returned. *)
Definition oc_base32_encode (inp : list Z) (cap : Z) : option (list Z) :=
  let need := (zlen inp * 8 + 4) / 5 in
  if cap <=? need then None else Some (base32_loop inp 0 0).

Section Totp.
Context (hmac : list Z → list Z → option (list Z)).

Definition oc_totp_code (secret : list Z) (step : Z) : Z :=
  match hmac secret (be8 step) with
  | None => 1000000
  | Some mac =>
      let off := Z.land (byte mac 19) 0x0f in
      let bin := Z.lor (Z.lor (Z.lor (Z.shiftl (Z.land (byte mac off) 0x7f) 24)
                                     (Z.shiftl (byte mac (off + 1)) 16))
                              (Z.shiftl (byte mac (off + 2)) 8))
                       (byte mac (off + 3)) in
      bin mod 1000000
  end.

(** The digits of the code, [None] at a character that is none. *)
Fixpoint read_digits (want : Z) (code : list Z) : option Z :=
  match code with
  | [] => Some want
  | c :: code => if (c <? 48) || (57 <? c) then None else read_digits (want * 10 + (c - 48)) code
  end.

(** One turn of the loop over [d]; [hit] is the match so far. *)
Definition try_step (secret : list Z) (want last_step step d : Z) (hit : option Z) : option Z :=
  if (d <? 0) && (step =? 0) then hit
  else
    let s := u64 (step + d) in
    let got := oc_totp_code secret s in
    match hit with
    | Some _ => hit
    | None => if (got =? want) && (last_step <? s) then Some s else None
    end.

Definition oc_totp_verify (secret : list Z) (code : option (list Z)) (now_s last_step : Z) : option Z :=
  match code with
  | None => None
  | Some code =>
      if negb (zlen code =? OC_TOTP_DIGITS) then None
      else
        want ← read_digits 0 code;
        let step := now_s / OC_TOTP_STEP_S in
        try_step secret want last_step step 1
          (try_step secret want last_step step 0
            (try_step secret want last_step step (-1) None))
  end.
End Totp.

Section Factor.
Context (gcm_encrypt : list Z → list Z → list Z → list Z → option (list Z * list Z)).
Context (gcm_decrypt : list Z → list Z → list Z → list Z → list Z → option (list Z)).

(** [gcm_encrypt key iv ad plain] is the ciphertext and the tag,
    [gcm_decrypt key iv ad tag cipher] the plaintext. *)
Definition oc_factor_seal (key : list Z) (uid : Z) (secret : list Z) (iv : option (list Z)) : option (list Z) :=
  iv ← iv;
  '(cipher, tag) ← gcm_encrypt key iv (be8 uid) secret;
  Some (iv ++ cipher ++ tag).

Definition oc_factor_open (key : list Z) (uid : Z) (sealed : option (list Z)) : option (list Z) :=
  sealed ← sealed;
  if negb (zlen sealed =? OC_TOTP_SEALED_LEN) then None
  else gcm_decrypt key (ztake 12 sealed) (be8 uid) (zdrop (12 + OC_TOTP_SECRET_LEN) sealed)
         (ztake OC_TOTP_SECRET_LEN (zdrop 12 sealed)).

Context (hmac : list Z → list Z → option (list Z)).

(** The columns of [local_totp] the check reads. *)
Record totp_row := mk_totp_row { tr_secret : list Z; tr_last_step : Z }.

(** The return value with the row after it; [updated] is the success of the
    UPDATE. *)
Definition check_totp (factor_key : option (list Z)) (uid : Z) (code : option (list Z)) (now_ms : Z)
    (updated : bool) (row : option totp_row) : Z * option totp_row :=
  match row with
  | None => (0, row)
  | Some r =>
      if negb (zlen (tr_secret r) =? OC_TOTP_SEALED_LEN) then (0, row) else
      match key ← factor_key; oc_factor_open key uid (Some (tr_secret r)) with
      | None => (-1, row)
      | Some secret =>
          match oc_totp_verify hmac secret code (now_ms / 1000) (tr_last_step r) with
          | None => (0, row)
          | Some matched =>
              if updated && (tr_last_step r <? matched)
              then (1, Some (mk_totp_row (tr_secret r) matched))
              else (0, row)
          end
      end
  end.
End Factor.

(** ** What is accepted *)

Section Verify.
Context (hmac : list Z → list Z → option (list Z)).

(** [s] is the step of now or a neighbour, later than the last one accepted, and
    [v] is its code. *)
Definition acceptable (secret : list Z) (v last now_s s : Z) : Prop :=
  0 <= s ∧ now_s / OC_TOTP_STEP_S - 1 <= s <= now_s / OC_TOTP_STEP_S + 1 ∧
  last < s ∧ oc_totp_code hmac secret s = v.

Definition candidates (step : Z) : list Z :=
  if step =? 0 then [0; 1] else [step - 1; step; step + 1].
Definition matches (secret : list Z) (v last s : Z) : bool :=
  (oc_totp_code hmac secret s =? v) && (last <? s).

Lemma try_step_find secret v last step d hit :
  0 <= step + d < 2 ^ 64 → (d < 0 → step ≠ 0) →
  try_step hmac secret v last step d hit =
    match hit with Some s => Some s | None => List.find (matches secret v last) [step + d] end.
Proof.
  intros Hr Hd. unfold try_step. rewrite u64_id by done.
  destruct (Z.ltb_spec d 0), (Z.eqb_spec step 0); try (exfalso; auto with lia; fail); cbn [andb];
    destruct hit; try done; cbn; unfold matches; by destruct (_ && _).
Qed.

Lemma find_app {A} (p : A → bool) l1 l2 :
  List.find p (l1 ++ l2) = match List.find p l1 with Some x => Some x | None => List.find p l2 end.
Proof. induction l1 as [|x l1 IH]; [done|]. cbn. by destruct (p x). Qed.

Lemma verify_find secret code now_s last :
  0 <= now_s < 2 ^ 64 →
  oc_totp_verify hmac secret code now_s last =
    c ← code;
    if negb (zlen c =? OC_TOTP_DIGITS) then None
    else v ← read_digits 0 c; List.find (matches secret v last) (candidates (now_s / OC_TOTP_STEP_S)).
Proof.
  intros Hn. unfold oc_totp_verify. set (step := now_s / OC_TOTP_STEP_S).
  assert (0 <= step ∧ step + 1 < 2 ^ 64) as [Hs0 Hs1] by (unfold step, OC_TOTP_STEP_S; zlia).
  destruct code as [c|]; [|done]. cbn [mbind option_bind]. destruct (negb _); [done|].
  destruct (read_digits 0 c) as [v|]; [|done]. cbn [mbind option_bind].
  rewrite (try_step_find secret v last step 1), (try_step_find secret v last step 0) by lia.
  unfold candidates. destruct (Z.eqb_spec step 0) as [H0|H0].
  - rewrite H0. change [0; 1] with ([0 + 0] ++ [0 + 1]). by rewrite find_app.
  - rewrite (try_step_find secret v last step (-1)) by lia.
    replace [step - 1; step; step + 1] with (([step + -1] ++ [step + 0]) ++ [step + 1])
      by (cbn; repeat f_equal; lia).
    by rewrite !find_app.
Qed.

Lemma step_matches secret v last s :
  matches secret v last s = true ↔ oc_totp_code hmac secret s = v ∧ last < s.
Proof. unfold matches. by rewrite andb_true_iff, Z.eqb_eq, Z.ltb_lt. Qed.

Lemma candidates_in step s :
  0 <= step → In s (candidates step) ↔ 0 <= s ∧ step - 1 <= s <= step + 1.
Proof. intros. unfold candidates. destruct (Z.eqb_spec step 0); cbn; lia. Qed.

(** A code is accepted exactly when it is the code of an acceptable step. *)
Lemma totp_verify_sound secret code now_s last s :
  0 <= now_s < 2 ^ 64 → oc_totp_verify hmac secret code now_s last = Some s →
  ∃ c v, code = Some c ∧ read_digits 0 c = Some v ∧ acceptable secret v last now_s s.
Proof.
  intros Hn. rewrite verify_find by done. destruct code as [c|]; [|done]. cbn [mbind option_bind].
  destruct (negb _); [done|]. destruct (read_digits 0 c) as [v|] eqn:Ev; [|done]. cbn [mbind option_bind].
  intros [Hin Hm]%find_some. apply candidates_in in Hin; [|unfold OC_TOTP_STEP_S; zlia].
  apply step_matches in Hm. exists c, v. unfold acceptable. intuition.
Qed.

Lemma totp_verify_complete secret c v now_s last s :
  0 <= now_s < 2 ^ 64 → zlen c = OC_TOTP_DIGITS → read_digits 0 c = Some v →
  acceptable secret v last now_s s → is_Some (oc_totp_verify hmac secret (Some c) now_s last).
Proof.
  intros Hn Hl Hv (Hs & Hw & Hlast & Hc). rewrite verify_find by done. cbn [mbind option_bind].
  rewrite Hl, Z.eqb_refl, Hv. cbn [negb mbind option_bind].
  destruct (List.find _ _) eqn:E; [eauto|]. exfalso.
  assert (matches secret v last s = false) as Hf.
  { apply (find_none _ _ E). apply candidates_in; [unfold OC_TOTP_STEP_S; zlia|done]. }
  by rewrite (proj2 (step_matches secret v last s)) in Hf.
Qed.
End Verify.

(** ** A code works once *)

Section Once.
Context (gcm_decrypt : list Z → list Z → list Z → list Z → list Z → option (list Z)).
Context (hmac : list Z → list Z → option (list Z)).

Record attempt := mk_attempt { at_code : list Z; at_now_ms : Z; at_updated : bool }.

(** The attempts that passed, with the steps recorded for them. *)
Fixpoint passed (key : option (list Z)) (uid : Z) (attempts : list attempt) (row : totp_row)
    : list (attempt * Z) :=
  match attempts with
  | [] => []
  | a :: attempts =>
      match check_totp gcm_decrypt hmac key uid (Some (at_code a)) (at_now_ms a) (at_updated a) (Some row) with
      | (1, Some row') => (a, tr_last_step row') :: passed key uid attempts row'
      | (_, Some row') => passed key uid attempts row'
      | (_, None) => []
      end
  end.

Lemma check_totp_cases key uid code now_ms updated row :
  0 <= now_ms < 2 ^ 64 →
  let r := check_totp gcm_decrypt hmac key uid (Some code) now_ms updated (Some row) in
  (r.1 ≠ 1 ∧ r.2 = Some row) ∨
  ∃ secret s v, r = (1, Some (mk_totp_row (tr_secret row) s)) ∧ read_digits 0 code = Some v ∧
    (k ← key; oc_factor_open gcm_decrypt k uid (Some (tr_secret row))) = Some secret ∧
    acceptable hmac secret v (tr_last_step row) (now_ms / 1000) s.
Proof.
  intros Hn. unfold check_totp. cbv zeta. destruct (negb _); [by left|].
  destruct (k ← key; _) as [secret|] eqn:Ek; [|by left].
  destruct (oc_totp_verify _ _ _ _ _) as [s|] eqn:Ev; [|by left].
  apply totp_verify_sound in Ev as (c & v & [= <-] & Hv & Ha); [|zlia].
  destruct updated; cbn [andb]; [|by left].
  rewrite (proj2 (Z.ltb_lt _ _)) by apply Ha. right. by exists secret, s, v.
Qed.

Lemma passed_sorted key uid attempts : ∀ row,
  Forall (fun a => 0 <= at_now_ms a < 2 ^ 64) attempts →
  Forall (fun p => tr_last_step row < p.2) (passed key uid attempts row) ∧
  StronglySorted (fun p q => p.2 < q.2) (passed key uid attempts row).
Proof.
  induction attempts as [|a attempts IH]; intros row H; cbn [passed]; [by repeat constructor|].
  apply Forall_cons_iff in H as [Ha H].
  destruct (check_totp_cases key uid (at_code a) (at_now_ms a) (at_updated a) row Ha)
    as [[Hne Hrow]|(secret & s & v & E & _ & _ & Hacc)].
  - destruct (check_totp _ _ _ _ _ _ _ _) as [rc row'] eqn:Ec. cbn in Hne, Hrow. subst row'.
    destruct (IH row H). destruct rc as [|[]|]; done.
  - rewrite E. destruct (IH (mk_totp_row (tr_secret row) s) H) as [Hall Hsort]. cbn in Hall.
    destruct Hacc as (_ & _ & Hlt & _). split.
    + apply List.Forall_cons; [done|]. eapply List.Forall_impl; [|exact Hall]. cbn. intros. lia.
    + by constructor.
Qed.
End Once.

(** C30: a one-time code works once.  Over any sequence of attempts at a
    user's second step, at any times, the steps recorded for those that passed
    strictly increase, so a code that was accepted is never accepted again for its
    30 seconds; and an attempt that passed gave the six digits of the step
    recorded for it, which is the step of that moment or a neighbour. *)
Theorem totp_code_once gcm_decrypt hmac key uid attempts row :
  Forall (fun a => 0 <= at_now_ms a < 2 ^ 64) attempts →
  StronglySorted (fun p q => p.2 < q.2) (passed gcm_decrypt hmac key uid attempts row) ∧
  ∀ a s row', passed gcm_decrypt hmac key uid [a] row' = [(a, s)] → 0 <= at_now_ms a < 2 ^ 64 →
    ∃ secret v, read_digits 0 (at_code a) = Some v ∧
      (k ← key; oc_factor_open gcm_decrypt k uid (Some (tr_secret row'))) = Some secret ∧
      acceptable hmac secret v (tr_last_step row') (at_now_ms a / 1000) s.
Proof.
  intros H. split; [by apply passed_sorted|]. intros a s row' E Hn. cbn [passed] in E.
  destruct (check_totp_cases gcm_decrypt hmac key uid (at_code a) (at_now_ms a) (at_updated a) row' Hn)
    as [[Hne Hrow]|(secret & s' & v & Ec & Hv & Hk & Hacc)].
  - destruct (check_totp _ _ _ _ _ _ _ _) as [rc r'] eqn:Ec. cbn in Hne, Hrow. subst r'.
    by destruct rc as [|[]|].
  - rewrite Ec in E. cbn in E. injection E as <-. by exists secret, v.
Qed.

(** An HMAC that ends in the step, and a cipher that hides nothing. *)
Definition demo_hmac (secret msg : list Z) : option (list Z) := Some ([0; 0; 0] ++ drop 7 msg ++ replicate 16 0).
Definition demo_dec (key iv ad tag cipher : list Z) : option (list Z) := Some cipher.
Definition demo_row : totp_row := mk_totp_row (replicate 48 7) 0.
(** "000003" at 95 seconds, again a second later, then "000004". *)
Definition demo_attempts : list attempt :=
  [mk_attempt [48; 48; 48; 48; 48; 51] 95000 true; mk_attempt [48; 48; 48; 48; 48; 51] 96000 true;
   mk_attempt [48; 48; 48; 48; 48; 52] 97000 true].

Example demo_passed :
  (passed demo_dec demo_hmac (Some []) 1 demo_attempts demo_row).*2 = [3; 4].
Proof. vm_compute. reflexivity. Qed.

Lemma totp_code_once_witness :
  StronglySorted (fun p q : attempt * Z => p.2 < q.2) (passed demo_dec demo_hmac (Some []) 1 demo_attempts demo_row).
Proof.
  refine (proj1 (totp_code_once demo_dec demo_hmac (Some []) 1 demo_attempts demo_row _)).
  repeat apply List.Forall_cons; try apply List.Forall_nil; by cbn.
Defined.

(** ** base32 as a stream of bits *)

(** The low [n] bits of [v], the highest first. *)
Fixpoint bits_n (n : nat) (v : Z) : list bool :=
  match n with O => [] | S n => Z.testbit v (Z.of_nat n) :: bits_n n v end.
(** The value of a character of the alphabet. *)
Definition base32_val (c : Z) : Z := if c <? 65 then c - 50 + 26 else c - 65.
Definition bits_of_text (s : list Z) : list bool := concat ((fun c => bits_n 5 (base32_val c)) <$> s).
Definition bits_of_bytes (s : list Z) : list bool := concat (bits_n 8 <$> s).

Lemma base32_val_char v : 0 <= v < 32 → base32_val (base32_char v) = v.
Proof.
  intros. unfold base32_val, base32_char. destruct (Z.ltb_spec v 26).
  - destruct (Z.ltb_spec (65 + v) 65); lia.
  - destruct (Z.ltb_spec (50 + (v - 26)) 65); lia.
Qed.

Lemma bits_n_ext n v w :
  (∀ i, 0 <= i < Z.of_nat n → Z.testbit v i = Z.testbit w i) → bits_n n v = bits_n n w.
Proof.
  induction n as [|n IH]; intros H; [done|]. cbn. rewrite (H (Z.of_nat n)) by lia.
  f_equal. apply IH. intros i Hi. apply H. lia.
Qed.

Lemma bits_n_app a b v : bits_n (a + b) v = bits_n a (Z.shiftr v (Z.of_nat b)) ++ bits_n b v.
Proof.
  induction a as [|a IH]; [done|]. cbn. rewrite IH, Z.shiftr_spec by lia. do 2 f_equal. lia.
Qed.

Lemma land31 x : 0 <= Z.land x 31 < 32 ∧ bits_n 5 (Z.land x 31) = bits_n 5 x.
Proof.
  change 31 with (Z.ones 5). split.
  - rewrite Z.land_ones by lia. apply Z.mod_pos_bound. lia.
  - apply bits_n_ext. intros i Hi. rewrite Z.land_spec, Z.ones_spec_low by lia. apply andb_true_r.
Qed.

Lemma bits_char x : bits_n 5 (base32_val (base32_char (Z.land x 31))) = bits_n 5 x.
Proof. destruct (land31 x) as [Hr Hb]. by rewrite base32_val_char. Qed.

Lemma bits_of_text_cons c s : bits_of_text (c :: s) = bits_n 5 (base32_val c) ++ bits_of_text s.
Proof. done. Qed.
Lemma bits_of_text_app s t : bits_of_text (s ++ t) = bits_of_text s ++ bits_of_text t.
Proof. unfold bits_of_text. by rewrite fmap_app, concat_app. Qed.

Lemma emit5_bits fuel buf : ∀ n,
  (n < 5 * S fuel)%nat →
  ∃ (o : list Z) (m : nat), emit5 fuel buf (Z.of_nat n) = (o, Z.of_nat m) ∧ (m < 5 ∨ fuel = 0)%nat ∧
    bits_of_text o ++ bits_n m buf = bits_n n buf ∧ (length o * 5 + m = n)%nat.
Proof.
  induction fuel as [|fuel IH]; intros n Hn; cbn [emit5]; [by exists [], n; auto|].
  destruct (Z.leb_spec 5 (Z.of_nat n)) as [H5|H5]; [|by exists [], n; split_and!; auto with lia].
  replace (Z.of_nat n - 5) with (Z.of_nat (n - 5)) by lia.
  destruct (IH (n - 5)%nat ltac:(lia)) as (o & m & -> & Hm & Hb & Hl).
  exists (base32_char (Z.land (Z.shiftr buf (Z.of_nat (n - 5))) 31) :: o), m.
  split_and!; [done| | |simpl; lia].
  - left. destruct Hm as [|Hm]; [done|]. subst fuel. lia.
  - rewrite bits_of_text_cons, bits_char, <- app_assoc, Hb, <- bits_n_app. f_equal. lia.
Qed.

(** Taking in a byte appends its bits to those pending. *)
Lemma take_byte m buf b :
  (m < 5)%nat → is_u8 b →
  bits_n (m + 8) (Z.lor (u32 (Z.shiftl buf 8)) b) = bits_n m buf ++ bits_n 8 b.
Proof.
  intros Hm Hb. rewrite bits_n_app. f_equal; apply bits_n_ext; intros i Hi.
  - rewrite Z.shiftr_spec, Z.lor_spec by lia. unfold u32.
    rewrite Z.mod_pow2_bits_low, Z.shiftl_spec by lia.
    rewrite <- (u8_id b Hb). unfold u8. rewrite Z.mod_pow2_bits_high by lia.
    rewrite orb_false_r. f_equal. lia.
  - rewrite Z.lor_spec. unfold u32. rewrite Z.mod_pow2_bits_low, Z.shiftl_spec by lia.
    by rewrite Z.testbit_neg_r by lia.
Qed.

Lemma flush_bits m buf :
  (m < 5)%nat → bits_n 5 (u32 (Z.shiftl buf (5 - Z.of_nat m))) = bits_n m buf ++ replicate (5 - m) false.
Proof.
  intros Hm. replace 5%nat with (m + (5 - m))%nat at 1 by lia. rewrite bits_n_app. f_equal.
  - apply bits_n_ext. intros i Hi. rewrite Z.shiftr_spec by lia. unfold u32.
    rewrite Z.mod_pow2_bits_low, Z.shiftl_spec by lia. f_equal. lia.
  - assert (∀ k, (k <= 5 - m)%nat → bits_n k (u32 (Z.shiftl buf (5 - Z.of_nat m))) = replicate k false) as Hz.
    { induction k as [|k IH]; intros Hk; [done|]. cbn. rewrite IH by lia. f_equal. unfold u32.
      rewrite Z.mod_pow2_bits_low, Z.shiftl_spec by lia. apply Z.testbit_neg_r. lia. }
    by apply Hz.
Qed.

Lemma base32_loop_bits inp : ∀ buf (m : nat),
  (m < 5)%nat → is_bytes inp →
  ∃ pad, (pad < 5)%nat ∧
    bits_of_text (base32_loop inp buf (Z.of_nat m))
    = bits_n m buf ++ bits_of_bytes inp ++ replicate pad false.
Proof.
  induction inp as [|b inp IH]; intros buf m Hm Hb; cbn [base32_loop].
  - destruct (Z.ltb_spec 0 (Z.of_nat m)).
    + exists (5 - m)%nat. split; [lia|]. rewrite bits_of_text_cons, bits_char, flush_bits by done.
      by rewrite app_nil_r.
    + exists O. split; [lia|]. by replace m with O by lia.
  - apply Forall_cons_iff in Hb as [Hb Hinp].
    replace (Z.of_nat m + 8) with (Z.of_nat (m + 8)) by lia. cbv zeta.
    destruct (emit5_bits 3 (Z.lor (u32 (Z.shiftl buf 8)) b) (m + 8)%nat ltac:(lia))
      as (o & m' & -> & [Hm'|] & Ho & _); [|done].
    destruct (IH (Z.lor (u32 (Z.shiftl buf 8)) b) m' Hm' Hinp) as (pad & Hp & E).
    exists pad. split; [done|].
    rewrite bits_of_text_app, E, app_assoc, Ho, take_byte by done.
    unfold bits_of_bytes. cbn [fmap list_fmap concat]. by rewrite <- !app_assoc.
Qed.

Lemma length_bits_n n v : length (bits_n n v) = n.
Proof. induction n as [|n IH]; cbn; auto. Qed.
Lemma length_bits_text s : length (bits_of_text s) = (5 * length s)%nat.
Proof. induction s as [|c s IH]; [done|]. rewrite bits_of_text_cons, length_app, length_bits_n, IH. cbn. lia. Qed.
Lemma length_bits_bytes s : length (bits_of_bytes s) = (8 * length s)%nat.
Proof.
  induction s as [|c s IH]; [done|]. unfold bits_of_bytes in *. cbn [fmap list_fmap concat].
  rewrite length_app, length_bits_n, IH. cbn. lia.
Qed.

(** The secret a user is shown is the secret stored.  The base32 text,
    read back five bits a character, is exactly the bits of the bytes it was made
    from, followed by fewer than five zero bits, so no two secrets of one length
    have the same text; and the text with its NUL fits the buffer. *)
Theorem base32_faithful inp cap out :
  is_bytes inp → oc_base32_encode inp cap = Some out →
  zlen out < cap ∧
  ∃ pad, (pad < 5)%nat ∧ bits_of_text out = bits_of_bytes inp ++ replicate pad false.
Proof.
  intros Hb. unfold oc_base32_encode. destruct (Z.leb_spec cap ((zlen inp * 8 + 4) / 5)); [done|]. intros [= <-].
  destruct (base32_loop_bits inp 0 0 ltac:(lia) Hb) as (pad & Hp & E). split; [|by exists pad].
  apply (f_equal length) in E. rewrite !length_app, length_replicate, length_bits_text, length_bits_bytes in E.
  change (length (bits_n 0 0)) with 0%nat in E. change (Z.of_nat 0) with 0 in E. unfold zlen in *. zlia.
Qed.

(** "foobar", of RFC 4648: "MZXW6YTBOI". *)
Lemma base32_faithful_witness :
  ∃ pad, (pad < 5)%nat ∧
    bits_of_text [77; 90; 88; 87; 54; 89; 84; 66; 79; 73]
    = bits_of_bytes [102; 111; 111; 98; 97; 114] ++ replicate pad false.
Proof.
  refine (proj2 (base32_faithful _ 17 _ _ _)); [repeat constructor; lia|]. vm_compute. reflexivity.
Defined.
