(* ===== verification/Searchq.v ===== *)
(** * Search queries: [shared/searchq.c]

    The parser of a typed query and its description.  A string is the bytes
    before its NUL.  [sq_text] is what has been written into the array [text] and
    [tn] the code's own count of it, which runs ahead of the array when an
    [snprintf] truncates; a write that starts past the end of the array is kept in
    [sq_past], since what it does then is no longer the parser's to say.  The
    conversion of a date by [mktime] is not modelled. *)
From stdpp Require Import base tactics list numbers.
From S2P Require Import Prelude.
Local Open Scope Z_scope.

Definition OC_SQ_NAME_MAX : Z := 64.
Definition OC_SQ_TEXT_MAX : Z := 512.
Definition OC_SQ_HAS_FILE : Z := 0x01.
Definition OC_SQ_HAS_LINK : Z := 0x02.
Definition OC_SQ_HAS_IMAGE : Z := 0x04.
Definition OC_SQ_HAS_VIDEO : Z := 0x08.

Record oc_searchq := mk_searchq {
  sq_text : list Z;
  sq_from : list Z;
  sq_in : list Z;
  sq_has : Z;
  sq_before : list Z;
  sq_after : list Z;
  sq_n_filters : Z }.

(** The parser's state: [out], [tn], and the writes past the array. *)
Record sq_state := mk_state { sq_out : oc_searchq; sq_tn : Z; sq_past : list (Z * list Z) }.

Definition sq_lower (c : Z) : Z := if (65 <=? c) && (c <=? 90) then c + 32 else c.

(** What follows the prefix, if [s] starts with it. *)
Fixpoint sq_prefix (s pfx : list Z) : option (list Z) :=
  match pfx, s with
  | [], _ => Some s
  | b :: pfx, a :: s => if sq_lower a =? sq_lower b then sq_prefix s pfx else None
  | _, [] => None
  end.

Definition is_blank (c : Z) : bool := (c =? 32) || (c =? 9).
(** Up to the first byte that satisfies [p], and the rest from it on. *)
Fixpoint break_at (p : Z → bool) (s : list Z) : list Z * list Z :=
  match s with
  | [] => ([], [])
  | c :: s' => if p c then ([], s) else let '(a, r) := break_at p s' in (c :: a, r)
  end.

(** The token copied into an array of [cap], and the rest of the query. *)
Definition sq_take (p : list Z) (cap : Z) : list Z * list Z :=
  match p with
  | [] => ([], [])
  | c :: p' =>
      if c =? 34
      then let '(a, r) := break_at (fun c => c =? 34) p' in
           (ztake (cap - 1) a, match r with _ :: r => r | [] => [] end)
      else let '(a, r) := break_at is_blank p in (ztake (cap - 1) a, r)
  end.

Definition set_out (o : oc_searchq) (st : sq_state) : sq_state := mk_state o (sq_tn st) (sq_past st).
Definition with_text (t : list Z) (o : oc_searchq) : oc_searchq :=
  mk_searchq t (sq_from o) (sq_in o) (sq_has o) (sq_before o) (sq_after o) (sq_n_filters o).
(** [n_filters++] for a filter that constrains. *)
Definition bump (b : bool) (o : oc_searchq) : oc_searchq :=
  mk_searchq (sq_text o) (sq_from o) (sq_in o) (sq_has o) (sq_before o) (sq_after o)
    (if b then u8 (sq_n_filters o + 1) else sq_n_filters o).
Definition nonempty (s : list Z) : bool := negb (bool_decide (s = [])).

Definition set_from (v : list Z) (o : oc_searchq) : oc_searchq :=
  bump (nonempty v) (mk_searchq (sq_text o) v (sq_in o) (sq_has o) (sq_before o) (sq_after o) (sq_n_filters o)).
Definition set_in (v : list Z) (o : oc_searchq) : oc_searchq :=
  let v := match v with 35 :: v' => v' | _ => v end in
  bump (nonempty v) (mk_searchq (sq_text o) (sq_from o) v (sq_has o) (sq_before o) (sq_after o) (sq_n_filters o)).
Definition set_before (v : list Z) (o : oc_searchq) : oc_searchq :=
  bump (nonempty v) (mk_searchq (sq_text o) (sq_from o) (sq_in o) (sq_has o) v (sq_after o) (sq_n_filters o)).
Definition set_after (v : list Z) (o : oc_searchq) : oc_searchq :=
  bump (nonempty v) (mk_searchq (sq_text o) (sq_from o) (sq_in o) (sq_has o) (sq_before o) v (sq_n_filters o)).
Definition set_on (v : list Z) (o : oc_searchq) : oc_searchq :=
  if nonempty v
  then bump true (mk_searchq (sq_text o) (sq_from o) (sq_in o) (sq_has o) v v (sq_n_filters o)) else o.
Definition add_has (bit : Z) (o : oc_searchq) : oc_searchq :=
  bump true (mk_searchq (sq_text o) (sq_from o) (sq_in o) (Z.lor (sq_has o) bit) (sq_before o) (sq_after o)
               (sq_n_filters o)).

(** The separating space, then the [snprintf] of [s] at [tn]. *)
Definition put_text (s : list Z) (st : sq_state) : sq_state :=
  let o := sq_out st in
  let sp := (0 <? sq_tn st) && (sq_tn st + 1 <? OC_SQ_TEXT_MAX) in
  let text := if sp then sq_text o ++ [32] else sq_text o in
  let tn := if sp then sq_tn st + 1 else sq_tn st in
  if OC_SQ_TEXT_MAX <? tn
  then mk_state (with_text text o) (tn + zlen s) (sq_past st ++ [(tn, s)])
  else mk_state (with_text (text ++ ztake (OC_SQ_TEXT_MAX - tn - 1) s) o) (tn + zlen s) (sq_past st).

(** The operators and values, as bytes. *)
Definition s_from : list Z := [102; 114; 111; 109; 58].
Definition s_in : list Z := [105; 110; 58].
Definition s_has : list Z := [104; 97; 115; 58].
Definition s_before : list Z := [98; 101; 102; 111; 114; 101; 58].
Definition s_after : list Z := [97; 102; 116; 101; 114; 58].
Definition s_on : list Z := [111; 110; 58].
Definition s_file : list Z := [102; 105; 108; 101].
Definition s_link : list Z := [108; 105; 110; 107].
Definition s_image : list Z := [105; 109; 97; 103; 101].
Definition s_pic : list Z := [112; 105; 99].
Definition s_video : list Z := [118; 105; 100; 101; 111].
Definition plural (s : list Z) : list Z := s ++ [115].

Definition has_bit (v : list Z) : Z :=
  if bool_decide (v = s_file) || bool_decide (v = plural s_file) then OC_SQ_HAS_FILE
  else if bool_decide (v = s_link) || bool_decide (v = plural s_link) then OC_SQ_HAS_LINK
  else if bool_decide (v = s_image) || bool_decide (v = plural s_image) ||
          bool_decide (v = s_pic) || bool_decide (v = plural s_pic) then OC_SQ_HAS_IMAGE
  else if bool_decide (v = s_video) || bool_decide (v = plural s_video) then OC_SQ_HAS_VIDEO
  else 0.

(** One token at [p], which is not blank: the state after it and the rest. *)
Definition token (p : list Z) (st : sq_state) : sq_state * list Z :=
  match sq_prefix p s_from with
  | Some p => let '(v, p) := sq_take p OC_SQ_NAME_MAX in (set_out (set_from v (sq_out st)) st, p)
  | None =>
  match sq_prefix p s_in with
  | Some p => let '(v, p) := sq_take p OC_SQ_NAME_MAX in (set_out (set_in v (sq_out st)) st, p)
  | None =>
  match sq_prefix p s_has with
  | Some p =>
      let '(v, p) := sq_take p 24 in
      (if has_bit v =? 0 then put_text (s_has ++ v) st else set_out (add_has (has_bit v) (sq_out st)) st, p)
  | None =>
  match sq_prefix p s_before with
  | Some p => let '(v, p) := sq_take p 16 in (set_out (set_before v (sq_out st)) st, p)
  | None =>
  match sq_prefix p s_after with
  | Some p => let '(v, p) := sq_take p 16 in (set_out (set_after v (sq_out st)) st, p)
  | None =>
  match sq_prefix p s_on with
  | Some p => let '(v, p) := sq_take p 16 in (set_out (set_on v (sq_out st)) st, p)
  | None =>
      let '(word, p) := sq_take p OC_SQ_TEXT_MAX in
      (if nonempty word then put_text word st else st, p)
  end end end end end end.

Fixpoint skip_blanks (p : list Z) : list Z :=
  match p with c :: p' => if is_blank c then skip_blanks p' else p | [] => [] end.

(** The loop: each turn takes at least one byte. *)
Fixpoint parse_loop (fuel : nat) (p : list Z) (st : sq_state) : sq_state :=
  match fuel with
  | O => st
  | S fuel =>
      match skip_blanks p with
      | [] => st
      | p => let '(st, p) := token p st in parse_loop fuel p st
      end
  end.

Definition empty_searchq : oc_searchq := mk_searchq [] [] [] 0 [] [] 0.
Definition oc_searchq_parse (q : option (list Z)) : sq_state :=
  match q with
  | None => mk_state empty_searchq 0 []
  | Some q => parse_loop (S (length q)) q (mk_state empty_searchq 0 [])
  end.

(** *** Describing a query *)

(** [SQ_ADD] with the leading space. *)
Definition sq_add (cap : Z) (s : list Z) (acc : list Z * Z) : list Z * Z :=
  let '(out, n) := acc in
  let s := if n =? 0 then s else 32 :: s in
  if n <? cap then (out ++ ztake (cap - n - 1) s, n + zlen s) else (out, n).
Definition sq_add_if (b : bool) (cap : Z) (s : list Z) (acc : list Z * Z) : list Z * Z :=
  if b then sq_add cap s acc else acc.

Definition oc_searchq_describe (sq : option oc_searchq) (cap : Z) : list Z :=
  match sq with
  | None => []
  | Some sq =>
      if cap =? 0 then [] else
      let acc := sq_add_if (nonempty (sq_from sq)) cap (s_from ++ sq_from sq) ([], 0) in
      let acc := sq_add_if (nonempty (sq_in sq)) cap (s_in ++ sq_in sq) acc in
      let has b := negb (Z.land (sq_has sq) b =? 0) in
      let acc := sq_add_if (has OC_SQ_HAS_FILE) cap (s_has ++ s_file) acc in
      let acc := sq_add_if (has OC_SQ_HAS_LINK) cap (s_has ++ s_link) acc in
      let acc := sq_add_if (has OC_SQ_HAS_IMAGE) cap (s_has ++ s_image) acc in
      let acc := sq_add_if (has OC_SQ_HAS_VIDEO) cap (s_has ++ s_video) acc in
      let acc :=
        if nonempty (sq_after sq) && nonempty (sq_before sq) && bool_decide (sq_after sq = sq_before sq)
        then sq_add cap (s_on ++ sq_after sq) acc
        else sq_add_if (nonempty (sq_before sq)) cap (s_before ++ sq_before sq)
               (sq_add_if (nonempty (sq_after sq)) cap (s_after ++ sq_after sq) acc) in
      let acc := sq_add_if (nonempty (sq_text sq)) cap (sq_text sq) acc in
      fst acc
  end.

(** ** Lemmas *)

Lemma break_at_app p s : s = fst (break_at p s) ++ snd (break_at p s).
Proof.
  induction s as [|c s IH]; [done|]. simpl. destruct (p c); [done|].
  destruct (break_at p s). simpl in *. by f_equal.
Qed.
Lemma break_at_head p s :
  match snd (break_at p s) with [] => True | c :: _ => p c = true end.
Proof.
  induction s as [|c s IH]; [done|]. simpl. destruct (p c) eqn:E; [done|].
  by destruct (break_at p s).
Qed.
Lemma break_at_len p s : zlen s = zlen (fst (break_at p s)) + zlen (snd (break_at p s)).
Proof. by rewrite (break_at_app p s) at 1; rewrite zlen_app. Qed.
Lemma zlen_ztake_le {A} n (l : list A) : zlen (ztake n l) <= zlen l.
Proof. unfold zlen, ztake. rewrite length_take. lia. Qed.

(** Nothing follows directly: the end of the query or a blank. *)
Definition at_break (p : list Z) : Prop :=
  match p with [] => True | c :: _ => is_blank c = true end.

(** The value fits in what was read, with room for a separator unless the value
    ends at a break. *)
Lemma sq_take_len p cap :
  zlen (fst (sq_take p cap)) + zlen (snd (sq_take p cap)) <= zlen p ∧
  (at_break (snd (sq_take p cap)) ∨
   zlen (fst (sq_take p cap)) + zlen (snd (sq_take p cap)) + 1 <= zlen p).
Proof.
  assert (Hu : ∀ p, let '(a, r) := break_at is_blank p in
    zlen (ztake (cap - 1) a) + zlen r <= zlen p ∧ at_break r).
  { intros p'. pose proof (break_at_len is_blank p'). pose proof (break_at_head is_blank p').
    destruct (break_at is_blank p') as [a r]. simpl in *. pose proof (zlen_ztake_le (cap - 1) a).
    split; [lia|]. unfold at_break. by destruct r. }
  assert (Hq : ∀ p', let '(a, r) := break_at (fun c => c =? 34) p' in
    zlen (ztake (cap - 1) a) + zlen (match r with _ :: r => r | [] => [] end) + 1 <= zlen (34 :: p')).
  { intros p'. pose proof (break_at_len (fun c => c =? 34) p').
    destruct (break_at _ p') as [a r]. simpl in *. pose proof (zlen_ztake_le (cap - 1) a).
    rewrite zlen_cons. destruct r; rewrite ?zlen_cons, ?zlen_nil in *; lia. }
  destruct p as [|c p']; [split; [unfold zlen; simpl; lia|by left]|].
  unfold sq_take. destruct (c =? 34) eqn:E; simpl.
  - apply Z.eqb_eq in E as ->. specialize (Hq p'). destruct (break_at _ p') as [a r]. simpl. lia.
  - specialize (Hu (c :: p')). simpl in Hu. destruct (is_blank c); [simpl in *; tauto|].
    destruct (break_at is_blank p') as [a r]. simpl. tauto.
Qed.

Lemma sq_prefix_len s pfx r : sq_prefix s pfx = Some r → zlen s = zlen pfx + zlen r.
Proof.
  revert s. induction pfx as [|b pfx IH]; intros s H; [by destruct s; simplify_eq/=|].
  destruct s as [|a s]; [done|]. simpl in H. destruct (_ =? _); [|done].
  apply IH in H. rewrite !zlen_cons. lia.
Qed.

(** ** The text never outgrows the query *)

(** The separator fits: there is no text yet, a break follows, or a byte to spare. *)
Definition roomy (L tn : Z) (p : list Z) : Prop := tn = 0 ∨ at_break p ∨ tn + 1 + zlen p <= L.
Record in_bounds (L : Z) (p : list Z) (st : sq_state) : Prop := {
  ib_past : sq_past st = [];
  ib_text : zlen (sq_text (sq_out st)) = sq_tn st;
  ib_room : sq_tn st + zlen p <= L;
  ib_sep : roomy L (sq_tn st) p }.

Lemma put_text_ok L s st :
  sq_past st = [] → zlen (sq_text (sq_out st)) = sq_tn st →
  sq_tn st + (if 0 <? sq_tn st then 1 else 0) + zlen s <= L → L < OC_SQ_TEXT_MAX →
  put_text s st =
  mk_state (with_text (sq_text (sq_out st) ++ (if 0 <? sq_tn st then [32] else []) ++ s) (sq_out st))
    (sq_tn st + (if 0 <? sq_tn st then 1 else 0) + zlen s) [].
Proof.
  intros Hp Ht Hr HL. pose proof (zlen_nonneg s). pose proof (zlen_nonneg (sq_text (sq_out st))).
  unfold put_text. unfold OC_SQ_TEXT_MAX in *. rewrite Hp.
  destruct (0 <? sq_tn st) eqn:E; cbn [andb].
  - rewrite (proj2 (Z.ltb_lt (sq_tn st + 1) 512)) by lia.
    rewrite (proj2 (Z.ltb_ge 512 (sq_tn st + 1))) by lia. rewrite ztake_all by lia. by rewrite <- app_assoc.
  - rewrite (proj2 (Z.ltb_ge 512 (sq_tn st))) by lia. rewrite ztake_all by lia. by rewrite Z.add_0_r.
Qed.

(** A filter leaves the text alone. *)
Lemma in_bounds_filter L p r st o :
  in_bounds L p st → sq_text o = sq_text (sq_out st) → zlen r + 1 <= zlen p →
  (sq_tn st = 0 ∨ sq_tn st + 1 + zlen p <= L) → in_bounds L r (set_out o st).
Proof. intros [Hp Ht Hr Hs] E Hl Hd. unfold roomy in *. constructor; simpl; [done|congruence|lia|unfold roomy; lia]. Qed.

(** A text value of at most the bytes read is appended with room to spare. *)
Lemma in_bounds_put L p s r st :
  in_bounds L p st → L < OC_SQ_TEXT_MAX → (sq_tn st = 0 ∨ sq_tn st + 1 + zlen p <= L) →
  zlen s + zlen r <= zlen p → (at_break r ∨ zlen s + zlen r + 1 <= zlen p) →
  in_bounds L r (put_text s st).
Proof.
  intros [Hp Ht Hr _] HL Hd Hl Hb. pose proof (zlen_nonneg r). pose proof (zlen_nonneg (sq_text (sq_out st))).
  rewrite (put_text_ok L s st Hp Ht) by (done || destruct (0 <? sq_tn st) eqn:E; lia).
  constructor; simpl; [done| | |]; destruct (0 <? sq_tn st) eqn:E; rewrite ?zlen_app, ?zlen_cons, ?zlen_nil;
    unfold roomy; lia || (destruct Hb; [tauto|lia]).
Qed.

Lemma set_text_from v o : sq_text (set_from v o) = sq_text o. Proof. done. Qed.
Lemma set_text_in v o : sq_text (set_in v o) = sq_text o. Proof. done. Qed.
Lemma set_text_before v o : sq_text (set_before v o) = sq_text o. Proof. done. Qed.
Lemma set_text_after v o : sq_text (set_after v o) = sq_text o. Proof. done. Qed.
Lemma set_text_on v o : sq_text (set_on v o) = sq_text o. Proof. unfold set_on. by case_match. Qed.
Lemma set_text_has v o : sq_text (add_has v o) = sq_text o. Proof. done. Qed.
Create HintDb searchq.
#[export] Hint Resolve set_text_from set_text_in set_text_before set_text_after set_text_on set_text_has : searchq.

Ltac searchq_filter cap :=
  match goal with
  | H : sq_prefix ?p ?pfx = Some ?r |- _ =>
      apply sq_prefix_len in H; change (zlen pfx) with (Z.of_nat (length pfx)) in H; simpl in H;
      pose proof (sq_take_len r cap) as [? ?]; pose proof (zlen_nonneg (fst (sq_take r cap)));
      destruct (sq_take r cap) as [v r']; simpl in *;
      try (eapply in_bounds_filter; eauto with searchq; lia)
  end.

Lemma token_in_bounds L p st :
  in_bounds L p st → L < OC_SQ_TEXT_MAX → 0 < zlen p →
  (sq_tn st = 0 ∨ sq_tn st + 1 + zlen p <= L) →
  in_bounds L (snd (token p st)) (fst (token p st)).
Proof.
  intros H HL Hlen Hd. unfold token.
  destruct (sq_prefix p s_from) eqn:E1; [searchq_filter OC_SQ_NAME_MAX|].
  destruct (sq_prefix p s_in) eqn:E2; [searchq_filter OC_SQ_NAME_MAX|].
  destruct (sq_prefix p s_has) eqn:E3.
  { searchq_filter 24. case_match; [|eapply in_bounds_filter; eauto with searchq; lia].
    eapply in_bounds_put; eauto; rewrite !zlen_cons; [lia|].
    destruct H1; [by left|right; lia]. }
  destruct (sq_prefix p s_before) eqn:E4; [searchq_filter 16|].
  destruct (sq_prefix p s_after) eqn:E5; [searchq_filter 16|].
  destruct (sq_prefix p s_on) eqn:E6; [searchq_filter 16|].
  pose proof (sq_take_len p OC_SQ_TEXT_MAX) as [Hl Hb].
  destruct (sq_take p OC_SQ_TEXT_MAX) as [w r]; simpl in *. pose proof (zlen_nonneg w).
  case_match; [by eapply in_bounds_put|].
  destruct H as [Hp Ht Hr Hs]. constructor; [done..|lia|]. unfold roomy.
  destruct Hb; [tauto|]. lia.
Qed.

Lemma skip_blanks_len p : zlen (skip_blanks p) <= zlen p.
Proof. induction p as [|c p IH]; [done|]. simpl. case_match; rewrite ?zlen_cons in *; lia. Qed.

Lemma skip_in_bounds L p st :
  in_bounds L p st →
  in_bounds L (skip_blanks p) st ∧
  (skip_blanks p ≠ [] → sq_tn st = 0 ∨ sq_tn st + 1 + zlen (skip_blanks p) <= L).
Proof.
  intros [Hp Ht Hr Hs].
  assert (skip_blanks p ≠ [] → sq_tn st = 0 ∨ sq_tn st + 1 + zlen (skip_blanks p) <= L) as Hn.
  { intros Hne. destruct Hs as [|[Hs|Hs]]; [by left| |pose proof (skip_blanks_len p); lia].
    destruct p as [|c p]; [done|]. simpl in *. rewrite Hs. rewrite zlen_cons in Hr.
    pose proof (skip_blanks_len p). lia. }
  pose proof (skip_blanks_len p). split; [|done]. constructor; [done..|lia|].
  destruct (skip_blanks p) eqn:E; [unfold roomy, at_break; tauto|]. unfold roomy. rewrite <- E in *.
  destruct Hn; [congruence|tauto|]. lia.
Qed.

Lemma parse_loop_in_bounds L fuel p st :
  in_bounds L p st → L < OC_SQ_TEXT_MAX → ∃ r, in_bounds L r (parse_loop fuel p st).
Proof.
  revert p st. induction fuel as [|fuel IH]; intros p st H HL; [by exists p|]. simpl.
  destruct (skip_in_bounds L p st H) as [H' Hn]. destruct (skip_blanks p) as [|c r] eqn:E; [by exists []|].
  pose proof (zlen_nonneg r).
  pose proof (token_in_bounds L (c :: r) st H' HL ltac:(rewrite zlen_cons; lia) (Hn ltac:(done))).
  destruct (token (c :: r) st) as [st' p']. by apply IH.
Qed.

(** *** Every turn of the loop takes a byte *)

Lemma sq_take_shrinks c p cap : is_blank c = false → zlen (snd (sq_take (c :: p) cap)) <= zlen p.
Proof.
  intros Hc. unfold sq_take. destruct (c =? 34); simpl.
  - pose proof (break_at_len (fun c => c =? 34) p). destruct (break_at _ p) as [a r]. simpl in *.
    pose proof (zlen_nonneg a). destruct r; rewrite ?zlen_cons in *; lia.
  - rewrite Hc. pose proof (break_at_len is_blank p). destruct (break_at _ p) as [a r]. simpl in *.
    pose proof (zlen_nonneg a). lia.
Qed.

Lemma token_shrinks c p st : is_blank c = false → zlen (snd (token (c :: p) st)) <= zlen p.
Proof.
  intros Hc. unfold token. pose proof (sq_take_shrinks c p OC_SQ_TEXT_MAX Hc) as Hw.
  assert (Hf : ∀ pfx r cap, sq_prefix (c :: p) pfx = Some r → 1 <= zlen pfx →
                            zlen (snd (sq_take r cap)) <= zlen p).
  { intros pfx r cap H Hp. apply sq_prefix_len in H. rewrite zlen_cons in H.
    pose proof (sq_take_len r cap) as [Hl _]. pose proof (zlen_nonneg (fst (sq_take r cap))). lia. }
  repeat match goal with
  | |- context [match sq_prefix (c :: p) ?pfx with _ => _ end] =>
      destruct (sq_prefix (c :: p) pfx) as [r|] eqn:?;
      [match goal with |- context [sq_take r ?cap] =>
         specialize (Hf pfx r cap ltac:(done) ltac:(unfold zlen; simpl; lia));
         destruct (sq_take r cap); done end|]
  end.
  by destruct (sq_take (c :: p) OC_SQ_TEXT_MAX).
Qed.

Lemma skip_blanks_head p c r : skip_blanks p = c :: r → is_blank c = false.
Proof.
  induction p as [|a p IH]; [done|]. simpl. destruct (is_blank a) eqn:E; [done|]. intros; by simplify_eq.
Qed.

(** More fuel than bytes changes nothing. *)
Lemma parse_loop_fuel f1 f2 p st :
  (length p < f1)%nat → (length p < f2)%nat → parse_loop f1 p st = parse_loop f2 p st.
Proof.
  revert f2 p st. induction f1 as [|f1 IH]; intros [|f2] p st H1 H2; try lia. simpl.
  pose proof (skip_blanks_len p) as Hs. destruct (skip_blanks p) as [|c r] eqn:E; [done|].
  pose proof (token_shrinks c r st (skip_blanks_head _ _ _ E)) as Ht.
  destruct (token (c :: r) st) as [st' p']. unfold zlen in *. simpl in *. apply IH; lia.
Qed.

(** ** Describing and parsing back *)

(** Words with a space between each two. *)
Fixpoint join (l : list (list Z)) : list Z :=
  match l with [] => [] | [s] => s | s :: l => s ++ 32 :: join l end.
(** A value that is typed without quotes. *)
Definition plain (s : list Z) : bool :=
  match s with [] => false | c :: _ => negb (c =? 34) && forallb (fun c => negb (is_blank c)) s end.
Definition no_operator (w : list Z) : bool :=
  forallb (fun pfx => match sq_prefix w pfx with None => true | Some _ => false end)
    [s_from; s_in; s_has; s_before; s_after; s_on].
(** What [describe] prints, part by part. *)
Definition opt (s v : list Z) : list (list Z) := if nonempty v then [s ++ v] else [].
Definition has_part (sq : oc_searchq) (bit : Z) (s : list Z) : list (list Z) :=
  if negb (Z.land (sq_has sq) bit =? 0) then [s_has ++ s] else [].
Definition same_day (sq : oc_searchq) : bool :=
  nonempty (sq_after sq) && nonempty (sq_before sq) && bool_decide (sq_after sq = sq_before sq).
Definition date_parts (sq : oc_searchq) : list (list Z) :=
  if same_day sq then [s_on ++ sq_after sq] else opt s_after (sq_after sq) ++ opt s_before (sq_before sq).
Definition has_parts (sq : oc_searchq) : list (list Z) :=
  has_part sq OC_SQ_HAS_FILE s_file ++ has_part sq OC_SQ_HAS_LINK s_link ++
  has_part sq OC_SQ_HAS_IMAGE s_image ++ has_part sq OC_SQ_HAS_VIDEO s_video.
Definition filter_parts (sq : oc_searchq) : list (list Z) :=
  opt s_from (sq_from sq) ++ opt s_in (sq_in sq) ++ has_parts sq ++ date_parts sq.

Lemma join_snoc l s : Forall (.≠ []) l → join (l ++ [s]) = join l ++ (if decide (l = []) then s else 32 :: s).
Proof.
  induction l as [|x l IH]; intros H; [done|]. inversion_clear H as [|?? Hx Hl].
  destruct l as [|y l]; [by rewrite decide_False by done|].
  change (join ((x :: y :: l) ++ [s])) with (x ++ 32 :: join ((y :: l) ++ [s])). rewrite IH by done.
  rewrite !decide_False by done. simpl. by rewrite <- app_assoc.
Qed.
Lemma join_nil l : Forall (.≠ []) l → join l = [] → l = [].
Proof. destruct l as [|x [|y l]]; intros H E; [done|by inversion_clear H|]. by destruct x. Qed.
Lemma join_app_text l ws : ws ≠ [] → join (l ++ [join ws]) = join (l ++ ws).
Proof.
  intros Hw. induction l as [|x l IH]; [done|]. simpl. rewrite IH.
  destruct l; [by destruct ws|done].
Qed.

Lemma join_elem_len w ws : In w ws → zlen w <= zlen (join ws).
Proof.
  induction ws as [|x ws IH]; [done|]. pose proof (zlen_nonneg w). pose proof (zlen_nonneg x).
  intros [->|Hin]; [destruct ws as [|y ws]; [done|]|destruct ws as [|y ws]; [done|specialize (IH Hin)]];
    change (join (?z :: y :: ws)) with (z ++ 32 :: join (y :: ws));
    rewrite zlen_app, zlen_cons; pose proof (zlen_nonneg (join (y :: ws))); lia.
Qed.

Definition add_all (cap : Z) (l : list (list Z)) (acc : list Z * Z) : list Z * Z :=
  foldl (fun acc s => sq_add cap s acc) acc l.

Lemma join_prefix_len k s l : zlen (join (k ++ [s])) <= zlen (join (k ++ s :: l)).
Proof.
  induction k as [|x k IH]; simpl.
  - destruct l as [|y l]; [lia|]. rewrite zlen_app, zlen_cons. pose proof (zlen_nonneg (join (y :: l))). lia.
  - destruct (k ++ [s]) eqn:E1; [by destruct k|]. destruct (k ++ s :: l) eqn:E2; [by destruct k|].
    rewrite !zlen_app, !zlen_cons. lia.
Qed.

Lemma add_all_join cap l k :
  Forall (.≠ []) (k ++ l) → zlen (join (k ++ l)) < cap →
  add_all cap l (join k, zlen (join k)) = (join (k ++ l), zlen (join (k ++ l))).
Proof.
  revert k. induction l as [|s l IH]; intros k Hn Hc; [by rewrite app_nil_r|].
  assert (Hs : sq_add cap s (join k, zlen (join k)) = (join (k ++ [s]), zlen (join (k ++ [s])))).
  { pose proof (join_prefix_len k s l) as Hle.
    apply Forall_app in Hn as [Hk Hn]. rewrite join_snoc in * by done. unfold sq_add.
    pose proof (zlen_nonneg (join k)).
    assert ((zlen (join k) =? 0) = bool_decide (k = [])) as ->.
    { case_bool_decide as E; [by subst|]. apply Z.eqb_neq. intros E'. by apply zlen_0, join_nil in E'. }
    case_bool_decide; case_decide; try done; rewrite zlen_app in *;
      rewrite (proj2 (Z.ltb_lt _ _)) by (rewrite ?zlen_cons in *; pose proof (zlen_nonneg s); lia);
      rewrite ztake_all by lia; done. }
  unfold add_all in *. cbn [foldl]. rewrite Hs. specialize (IH (k ++ [s])). rewrite <- app_assoc in IH. by apply IH.
Qed.

Lemma add_all_app cap l k acc : add_all cap (l ++ k) acc = add_all cap k (add_all cap l acc).
Proof. apply foldl_app. Qed.
Lemma add_all_if (b : bool) cap s acc : add_all cap (if b then [s] else []) acc = sq_add_if b cap s acc.
Proof. by destruct b. Qed.

Lemma describe_add_all sq cap :
  cap ≠ 0 →
  oc_searchq_describe (Some sq) cap =
  fst (add_all cap (filter_parts sq ++ opt [] (sq_text sq)) ([], 0)).
Proof.
  intros Hc. unfold oc_searchq_describe. rewrite (proj2 (Z.eqb_neq cap 0)) by done.
  unfold filter_parts, has_parts, has_part, date_parts, opt, same_day.
  rewrite !add_all_app, !add_all_if. f_equal. rewrite app_nil_l. f_equal.
  destruct (_ && _ && _); [done|]. by rewrite add_all_app, !add_all_if.
Qed.

Lemma opt_ne s v : Forall (.≠ []) (opt s v).
Proof.
  unfold opt, nonempty. case_bool_decide; simpl; [constructor|]. constructor; [by destruct s|constructor].
Qed.
Lemma filter_parts_ne sq : Forall (.≠ []) (filter_parts sq).
Proof.
  assert (∀ bit s, Forall (.≠ []) (has_part sq bit s)).
  { intros. unfold has_part. case_match; constructor; [done|constructor]. }
  unfold filter_parts, date_parts, has_parts. rewrite !Forall_app. split_and!; try done; try apply opt_ne.
  case_match; [by repeat constructor|]. rewrite Forall_app. split; apply opt_ne.
Qed.

(** What fits is printed as the parts with a space between each two. *)
Lemma describe_join sq cap :
  zlen (join (filter_parts sq ++ opt [] (sq_text sq))) < cap →
  oc_searchq_describe (Some sq) cap = join (filter_parts sq ++ opt [] (sq_text sq)).
Proof.
  intros H. pose proof (zlen_nonneg (join (filter_parts sq ++ opt [] (sq_text sq)))).
  rewrite describe_add_all by lia. change ([], 0) with (join [], zlen (join [])).
  rewrite (add_all_join cap _ []); [done| |done]. rewrite app_nil_l. apply Forall_app; split; [apply filter_parts_ne|apply opt_ne].
Qed.

(** *** The effect of each part *)

(** [t] is read as one token with the effect [e], whatever follows the break. *)
Definition reads (t : list Z) (e : sq_state → sq_state) : Prop :=
  (match t with [] => False | c :: _ => is_blank c = false end) ∧
  ∀ r st, at_break r → token (t ++ r) st = (e st, r).

Lemma parse_reads (es : list (list Z * (sq_state → sq_state))) st :
  Forall (fun te => reads (fst te) (snd te)) es →
  ∀ fuel, (length (join (fst <$> es)) < fuel)%nat →
  parse_loop fuel (join (fst <$> es)) st = foldl (fun st te => snd te st) st es.
Proof.
  intros H. revert st. induction H as [|[t e] es [Ht He] H IH]; intros st fuel Hf; [by destruct fuel|].
  rewrite fmap_cons in *. cbn [fst snd foldl] in *. destruct t as [|c t]; [done|].
  destruct fuel as [|fuel]; [lia|].
  destruct (fst <$> es) as [|u us] eqn:E.
  - apply fmap_nil_inv in E as ->. cbn [join parse_loop skip_blanks]. rewrite Ht.
    specialize (He [] st I). rewrite app_nil_r in He. rewrite He. by destruct fuel.
  - change (join ((c :: t) :: u :: us)) with ((c :: t) ++ 32 :: join (u :: us)) in *.
    cbn [parse_loop app skip_blanks]. rewrite Ht. rewrite (app_comm_cons t _ c), He by done.
    rewrite <- (IH (e st) fuel) by (rewrite ?length_app in *; simpl in *; lia).
    destruct fuel; [rewrite ?length_app in *; simpl in *; lia|]. done.
Qed.

Lemma break_at_plain v r :
  forallb (fun c => negb (is_blank c)) v = true → at_break r → break_at is_blank (v ++ r) = (v, r).
Proof.
  induction v as [|c v IH]; intros Hv Hr; simpl in *.
  - destruct r as [|c r]; [done|]. simpl in *. by rewrite Hr.
  - destruct (is_blank c); [done|]. by rewrite IH.
Qed.
Lemma sq_take_plain v r cap :
  plain v = true → at_break r → zlen v < cap → sq_take (v ++ r) cap = (v, r).
Proof.
  destruct v as [|c v]; [done|]. intros Hv Hr Hl.
  apply andb_true_iff in Hv as [Hc Hv]. unfold sq_take. rewrite <- app_comm_cons.
  destruct (c =? 34); [done|]. rewrite (app_comm_cons v r c), break_at_plain by done.
  by rewrite ztake_all by lia.
Qed.
Lemma sq_prefix_app pfx r : sq_prefix (pfx ++ r) pfx = Some r.
Proof. induction pfx as [|c pfx IH]; [by destruct r|]. simpl. by rewrite Z.eqb_refl. Qed.

(** A word that is no operator is none in front of a break either. *)
Lemma sq_prefix_none w pfx r :
  forallb (fun c => negb (is_blank c || (sq_lower c =? 32) || (sq_lower c =? 9))) pfx = true →
  at_break r → sq_prefix w pfx = None → sq_prefix (w ++ r) pfx = None.
Proof.
  revert w. induction pfx as [|b pfx IH]; intros [|a w] Hp Hr H; try done.
  - destruct r as [|c r]; [done|]. simpl in *. apply andb_true_iff in Hp as [Hb _].
    assert (sq_lower c = c ∧ (c = 32 ∨ c = 9)) as [-> Hc].
    { unfold is_blank in Hr. assert (c = 32 ∨ c = 9) as [-> | ->] by lia; split; vm_compute; tauto. }
    rewrite (proj2 (Z.eqb_neq c (sq_lower b))); [done|]. intros Heq. unfold is_blank in *. lia.
  - simpl in *. destruct (sq_lower a =? sq_lower b); [|done]. apply andb_true_iff in Hp as [_ Hp]. by apply IH.
Qed.

Lemma reads_from v : plain v = true → zlen v < 64 →
  reads (s_from ++ v) (fun st => set_out (set_from v (sq_out st)) st).
Proof. intros. split; [done|]. intros r st Hr. rewrite <- app_assoc. unfold token.
  by rewrite sq_prefix_app, sq_take_plain. Qed.
Ltac reads_op pfx :=
  intros; split; [done|]; intros r st Hr; rewrite <- app_assoc; unfold token;
  repeat match goal with |- context [match sq_prefix (pfx ++ ?x) ?q with _ => _ end] =>
    lazymatch q with
    | pfx => fail
    | _ => change (sq_prefix (pfx ++ x) q) with (@None (list Z)); cbv beta iota
    end end;
  rewrite sq_prefix_app, sq_take_plain by done.
Lemma reads_in v : plain v = true → zlen v < 64 →
  reads (s_in ++ v) (fun st => set_out (set_in v (sq_out st)) st).
Proof. by reads_op s_in. Qed.
Lemma reads_before v : plain v = true → zlen v < 16 →
  reads (s_before ++ v) (fun st => set_out (set_before v (sq_out st)) st).
Proof. by reads_op s_before. Qed.
Lemma reads_after v : plain v = true → zlen v < 16 →
  reads (s_after ++ v) (fun st => set_out (set_after v (sq_out st)) st).
Proof. by reads_op s_after. Qed.
Lemma reads_on v : plain v = true → zlen v < 16 →
  reads (s_on ++ v) (fun st => set_out (set_on v (sq_out st)) st).
Proof. by reads_op s_on. Qed.
Lemma reads_has v : plain v = true → zlen v < 24 → has_bit v ≠ 0 →
  reads (s_has ++ v) (fun st => set_out (add_has (has_bit v) (sq_out st)) st).
Proof. reads_op s_has. by rewrite (proj2 (Z.eqb_neq (has_bit v) 0)). Qed.

Lemma reads_word w : plain w = true → no_operator w = true → zlen w < 512 → reads w (put_text w).
Proof.
  intros Hw Hn Hl. split.
  { destruct w as [|c w]; [done|]. simpl in Hw. by destruct (is_blank c), (c =? 34). }
  intros r st Hr. unfold no_operator in Hn. rewrite forallb_forall in Hn.
  assert (H : ∀ pfx, In pfx [s_from; s_in; s_has; s_before; s_after; s_on] → sq_prefix (w ++ r) pfx = None).
  { intros pfx Hin. apply sq_prefix_none; [|done|].
    - repeat destruct Hin as [<-|Hin]; by vm_compute.
    - specialize (Hn pfx Hin). by destruct (sq_prefix w pfx). }
  unfold token. rewrite !H by (simpl; tauto). rewrite sq_take_plain by done.
  unfold nonempty. by destruct w.
Qed.

(** *** Each part with its effect *)

Definition effect : Type := sq_state → sq_state.
Definition run_effects (st : sq_state) (es : list (list Z * effect)) : sq_state :=
  foldl (fun st te => snd te st) st es.
Definition on_out (f : oc_searchq → oc_searchq) : effect := fun st => set_out (f (sq_out st)) st.
Definition opt_e (s v : list Z) (f : list Z → oc_searchq → oc_searchq) : list (list Z * effect) :=
  if nonempty v then [(s ++ v, on_out (f v))] else [].
Definition has_e (sq : oc_searchq) (bit : Z) (s : list Z) : list (list Z * effect) :=
  if negb (Z.land (sq_has sq) bit =? 0) then [(s_has ++ s, on_out (add_has (has_bit s)))] else [].
Definition has_es (sq : oc_searchq) : list (list Z * effect) :=
  has_e sq OC_SQ_HAS_FILE s_file ++ has_e sq OC_SQ_HAS_LINK s_link ++
  has_e sq OC_SQ_HAS_IMAGE s_image ++ has_e sq OC_SQ_HAS_VIDEO s_video.
Definition date_es (sq : oc_searchq) : list (list Z * effect) :=
  if same_day sq then [(s_on ++ sq_after sq, on_out (set_on (sq_after sq)))]
  else opt_e s_after (sq_after sq) set_after ++ opt_e s_before (sq_before sq) set_before.
Definition filter_es (sq : oc_searchq) : list (list Z * effect) :=
  opt_e s_from (sq_from sq) set_from ++ opt_e s_in (sq_in sq) set_in ++ has_es sq ++ date_es sq.
Definition word_es (ws : list (list Z)) : list (list Z * effect) := (fun w => (w, put_text w)) <$> ws.

Lemma opt_es_parts s v f : fst <$> opt_e s v f = opt s v.
Proof. unfold opt_e, opt. by case_match. Qed.
Lemma filter_es_parts sq : fst <$> filter_es sq = filter_parts sq.
Proof.
  assert (Hh : ∀ bit s, fst <$> has_e sq bit s = has_part sq bit s).
  { intros. unfold has_e, has_part. by case_match. }
  assert (Hd : fst <$> date_es sq = date_parts sq).
  { unfold date_es, date_parts. case_match; [done|]. by rewrite fmap_app, !opt_es_parts. }
  unfold filter_es, filter_parts, has_es, has_parts. by rewrite !fmap_app, !opt_es_parts, !Hh, Hd.
Qed.

(** A value that can be typed: absent, or plain and shorter than its array. *)
Definition value_ok (cap : Z) (v : list Z) : Prop := v = [] ∨ (plain v = true ∧ zlen v < cap).
Definition no_sigil (v : list Z) : Prop := match v with 35 :: _ => False | _ => True end.
Record searchq_ok (sq : oc_searchq) : Prop := {
  so_from : value_ok OC_SQ_NAME_MAX (sq_from sq);
  so_in : value_ok OC_SQ_NAME_MAX (sq_in sq);
  so_sigil : no_sigil (sq_in sq);
  so_has : 0 <= sq_has sq < 16;
  so_before : value_ok 16 (sq_before sq);
  so_after : value_ok 16 (sq_after sq) }.

Lemma opt_e_reads cap s v f :
  value_ok cap v → (plain v = true → zlen v < cap → reads (s ++ v) (on_out (f v))) →
  Forall (fun te => reads (fst te) (snd te)) (opt_e s v f).
Proof.
  intros [->|[Hp Hl]] H; [constructor|]. unfold opt_e. case_match; constructor; [by apply H|constructor].
Qed.
Lemma filter_es_reads sq :
  searchq_ok sq → Forall (fun te => reads (fst te) (snd te)) (filter_es sq).
Proof.
  intros [Hf Hi _ _ Hb Ha].
  assert (Hh : ∀ bit s, plain s = true → zlen s < 24 → has_bit s ≠ 0 →
    Forall (fun te => reads (fst te) (snd te)) (has_e sq bit s)).
  { intros. unfold has_e. case_match; constructor; [by apply reads_has|constructor]. }
  unfold filter_es, has_es, date_es. rewrite !Forall_app. split_and!; try by apply Hh.
  - eapply opt_e_reads; [done|]. apply reads_from.
  - eapply opt_e_reads; [done|]. apply reads_in.
  - destruct (same_day sq) eqn:E.
    + constructor; [|constructor]. unfold same_day, nonempty in E.
      destruct Ha as [Ha|[Ha1 Ha2]]; [by rewrite Ha in E|]. by apply reads_on.
    + rewrite Forall_app. split; eapply opt_e_reads; eauto using reads_after, reads_before.
Qed.

(** *** The state after the parts *)

Lemma run_opt_e (s v : list Z) f g st :
  (f v (sq_out st) = g (if nonempty v then u8 (sq_n_filters (sq_out st) + 1) else sq_n_filters (sq_out st))) →
  (v = [] → sq_out st = g (sq_n_filters (sq_out st))) →
  is_u8 (sq_n_filters (sq_out st) + 1) →
  run_effects st (opt_e s v f) =
  set_out (g (sq_n_filters (sq_out st) + zlen (opt s v))) st.
Proof.
  intros H1 H2 Hn. unfold opt_e, opt, nonempty in *. case_bool_decide as E; simpl in *.
  - destruct st as [o tn past]. rewrite Z.add_0_r. unfold set_out. simpl in *. by rewrite <- H2.
  - unfold on_out. rewrite H1. change (zlen [s ++ v]) with 1. by rewrite u8_id.
Qed.

Lemma opt_len s v : 0 <= zlen (opt s v) <= 1.
Proof. unfold opt. case_match; unfold zlen; simpl; lia. Qed.

Lemma run_has_es sq t f i b a n tn past :
  0 <= sq_has sq < 16 → 0 <= n <= 4 →
  run_effects (mk_state (mk_searchq t f i 0 b a n) tn past) (has_es sq) =
  mk_state (mk_searchq t f i (sq_has sq) b a (n + zlen (has_parts sq))) tn past.
Proof.
  intros Hh Hn. unfold has_es, has_parts, has_e, has_part. destruct sq as [t' f' i' h b' a' n']. simpl in *.
  assert (h = 0 ∨ h = 1 ∨ h = 2 ∨ h = 3 ∨ h = 4 ∨ h = 5 ∨ h = 6 ∨ h = 7 ∨ h = 8 ∨ h = 9 ∨ h = 10 ∨
          h = 11 ∨ h = 12 ∨ h = 13 ∨ h = 14 ∨ h = 15) as Hc by lia.
  assert (n = 0 ∨ n = 1 ∨ n = 2 ∨ n = 3 ∨ n = 4) as Hc' by lia.
  repeat destruct Hc as [->|Hc]; subst; repeat destruct Hc' as [->|Hc']; subst; reflexivity.
Qed.

Lemma run_effects_app st k l : run_effects st (k ++ l) = run_effects (run_effects st k) l.
Proof. apply foldl_app. Qed.

Lemma run_date_es sq t f i h n tn past :
  searchq_ok sq → 0 <= n <= 100 →
  run_effects (mk_state (mk_searchq t f i h [] [] n) tn past) (date_es sq) =
  mk_state (mk_searchq t f i h (sq_before sq) (sq_after sq) (n + zlen (date_parts sq))) tn past.
Proof.
  intros _ Hn. unfold date_es, date_parts. destruct (same_day sq) eqn:E.
  - unfold same_day in E. apply andb_true_iff in E as [[Hna _]%andb_true_iff Hs%bool_decide_eq_true].
    simpl. unfold on_out, set_on. rewrite Hna. unfold set_out, bump. simpl. rewrite Hs.
    change (zlen _) with 1. by rewrite u8_id by ilia.
  - rewrite run_effects_app, zlen_app.
    rewrite (run_opt_e s_after (sq_after sq) set_after (mk_searchq t f i h [] (sq_after sq))); simpl; [|done|by intros ->|ilia].
    pose proof (opt_len s_after (sq_after sq)).
    rewrite (run_opt_e _ _ _ (mk_searchq t f i h (sq_before sq) (sq_after sq))); simpl; [|done|by intros ->|ilia].
    unfold set_out. simpl. by rewrite Z.add_assoc.
Qed.

Lemma set_in_plain v o : no_sigil v →
  set_in v o = bump (nonempty v) (mk_searchq (sq_text o) (sq_from o) v (sq_has o) (sq_before o) (sq_after o) (sq_n_filters o)).
Proof. intros H. unfold set_in. unfold no_sigil in H. by repeat case_match. Qed.

Lemma run_filter_es sq :
  searchq_ok sq →
  run_effects (mk_state empty_searchq 0 []) (filter_es sq) =
  mk_state (mk_searchq [] (sq_from sq) (sq_in sq) (sq_has sq) (sq_before sq) (sq_after sq)
              (zlen (filter_parts sq))) 0 [].
Proof.
  intros Hok. unfold filter_es, filter_parts, empty_searchq. rewrite !run_effects_app, !zlen_app.
  pose proof (opt_len s_from (sq_from sq)). pose proof (opt_len s_in (sq_in sq)).
  rewrite (run_opt_e s_from (sq_from sq) set_from (mk_searchq [] (sq_from sq) [] 0 [] [])); simpl; [|done|by intros ->|ilia].
  rewrite (run_opt_e s_in (sq_in sq) set_in (mk_searchq [] (sq_from sq) (sq_in sq) 0 [] []));
    simpl; [|by rewrite set_in_plain by apply Hok|by intros ->|ilia].
  unfold set_out. simpl. rewrite run_has_es; [|apply Hok|lia].
  assert (0 <= zlen (has_parts sq) <= 4).
  { unfold has_parts, has_part. rewrite !zlen_app. repeat case_match; unfold zlen; simpl; lia. }
  rewrite run_date_es by (done || lia). do 2 f_equal. lia.
Qed.

(** Words go to the text, one after the other. *)
Lemma run_word_es ws k o :
  Forall (fun w => plain w = true) ws → Forall (fun w => plain w = true) k → sq_text o = join k →
  zlen (join (k ++ ws)) < OC_SQ_TEXT_MAX →
  run_effects (mk_state o (zlen (join k)) []) (word_es ws) =
  mk_state (with_text (join (k ++ ws)) o) (zlen (join (k ++ ws))) [].
Proof.
  revert k o. induction ws as [|w ws IH]; intros k o Hw Hk Ho Hl.
  { rewrite app_nil_r in *. destruct o. simpl in *. by subst. }
  apply Forall_cons_iff in Hw as [Hw Hws]. assert (Hne : ∀ l, Forall (fun w => plain w = true) l → Forall (.≠ []) l).
  { intros l. apply Forall_impl. by intros []. }
  assert (Hput : put_text w (mk_state o (zlen (join k)) []) =
                 mk_state (with_text (join (k ++ [w])) o) (zlen (join (k ++ [w]))) []).
  { pose proof (join_prefix_len k w ws) as Hle. specialize (Hne k Hk).
    assert (Hz : (0 <? zlen (join k)) = negb (bool_decide (k = []))).
    { case_bool_decide as E; [by subst|]. pose proof (zlen_nonneg (join k)).
      apply Z.ltb_lt. destruct (decide (zlen (join k) = 0)) as [E'|]; [|lia]. by apply zlen_0, join_nil in E'. }
    rewrite join_snoc in * by done. rewrite (put_text_ok (zlen (join (k ++ w :: ws)))); simpl; rewrite ?Hz, ?Ho; try done;
      case_bool_decide; case_decide; try done; simpl; rewrite !zlen_app, ?zlen_cons in *; simpl; try lia; f_equal; lia. }
  unfold run_effects, word_es in *. cbn [fmap list_fmap foldl snd]. rewrite Hput.
  specialize (IH (k ++ [w]) (with_text (join (k ++ [w])) o)). rewrite <- app_assoc in IH. cbn [app] in IH.
  rewrite IH; [done|done| |done|done]. apply Forall_app. by repeat constructor.
Qed.

(** ** The theorems *)

(** A query shorter than the text array is parsed within it: no write starts past the array,
    the code's count of the text is the text's length, and the text is no longer than the
    query.  The loop ends: any fuel above the query's length gives the same result. *)
Theorem searchq_in_bounds (q : list Z) :
  zlen q < OC_SQ_TEXT_MAX →
  let st := oc_searchq_parse (Some q) in
  sq_past st = [] ∧ zlen (sq_text (sq_out st)) = sq_tn st ∧ sq_tn st <= zlen q ∧
  ∀ fuel, (length q < fuel)%nat → parse_loop fuel q (mk_state empty_searchq 0 []) = st.
Proof.
  intros Hq st. destruct (parse_loop_in_bounds (zlen q) (S (length q)) q (mk_state empty_searchq 0 []))
    as [r [Hp Ht Hr _]]; [|done|].
  { constructor; simpl; [done..|lia|]. by left. }
  pose proof (zlen_nonneg r). unfold st, oc_searchq_parse.
  split_and!; [done|done|lia|]. intros fuel Hf. apply parse_loop_fuel; lia.
Qed.

Definition short_query : list Z := s_from ++ [97; 32; 98; 32; 32; 99].
Lemma searchq_in_bounds_witness :
  let st := oc_searchq_parse (Some short_query) in
  sq_past st = [] ∧ zlen (sq_text (sq_out st)) = sq_tn st ∧ sq_tn st <= zlen short_query ∧
  ∀ fuel, (length short_query < fuel)%nat → parse_loop fuel short_query (mk_state empty_searchq 0 []) = st.
Proof. apply searchq_in_bounds. vm_compute. reflexivity. Defined.

(** C33: A description parses back: a query whose values can be typed without quotes and whose
    text is words that are no operators is described by [oc_searchq_describe], when the
    description fits, as a string from which [oc_searchq_parse] recovers every field and the
    whole text, counting one filter per operator printed. *)
Theorem searchq_roundtrip (sq : oc_searchq) (ws : list (list Z)) (cap : Z) :
  searchq_ok sq → sq_text sq = join ws →
  Forall (fun w => plain w = true ∧ no_operator w = true) ws →
  zlen (join ws) < OC_SQ_TEXT_MAX → zlen (join (filter_parts sq ++ ws)) < cap →
  oc_searchq_parse (Some (oc_searchq_describe (Some sq) cap)) =
  mk_state (mk_searchq (sq_text sq) (sq_from sq) (sq_in sq) (sq_has sq) (sq_before sq) (sq_after sq)
              (zlen (filter_parts sq))) (zlen (sq_text sq)) [].
Proof.
  intros Hok Ht Hw Hl Hc.
  assert (Hpl : Forall (fun w => plain w = true) ws) by (eapply Forall_impl; [|exact Hw]; naive_solver).
  assert (Hd : join (filter_parts sq ++ opt [] (sq_text sq)) = join (filter_parts sq ++ ws)).
  { unfold opt, nonempty. rewrite Ht. case_bool_decide as E; simpl; [|apply join_app_text; by intros ->].
    apply join_nil in E as ->; [done|]. eapply Forall_impl; [|exact Hpl]. by intros []. }
  rewrite describe_join, Hd by (by rewrite Hd).
  set (es := filter_es sq ++ word_es ws).
  assert (fst <$> es = filter_parts sq ++ ws) as <-.
  { unfold es, word_es. rewrite fmap_app, filter_es_parts. f_equal. rewrite <- list_fmap_compose.
    apply list_fmap_id. }
  unfold oc_searchq_parse. rewrite (parse_reads es); [| |apply Nat.lt_succ_diag_r].
  - fold (run_effects (mk_state empty_searchq 0 []) es). unfold es.
    rewrite run_effects_app, run_filter_es by done.
    change 0 with (zlen (join [])) at 1. rewrite (run_word_es ws []); simpl; [|done..]. by rewrite Ht.
  - unfold es. apply Forall_app. split; [by apply filter_es_reads|].
    unfold word_es. rewrite Forall_fmap. rewrite List.Forall_forall in Hw |- *.
    intros w Hin. destruct (Hw w Hin). apply reads_word; [done..|].
    cbn [fst]. pose proof (join_elem_len w ws Hin). unfold OC_SQ_TEXT_MAX in Hl. lia.
Qed.

Definition ex_query : oc_searchq :=
  mk_searchq [104; 105; 32; 121; 111; 117] [97; 110; 110] [100; 101; 118] 5 [50; 48] [50; 48] 5.
Lemma searchq_roundtrip_witness :
  oc_searchq_parse (Some (oc_searchq_describe (Some ex_query) 256)) = mk_state ex_query 6 [].
Proof.
  apply (searchq_roundtrip ex_query [[104; 105]; [121; 111; 117]] 256);
    [|done|repeat constructor|vm_compute; done|vm_compute; done].
  split; simpl; try lia; try done; right; vm_compute; done.
Defined.

(** A query as long as a client can type: two words of 300 bytes and one more. *)
Definition long_query : list Z := replicate 300 97 ++ 32 :: replicate 300 97 ++ [32; 98].

(** A query longer than the text array is not: the count [tn] grows by what [snprintf] would
    have written, so after a truncated word the next one is printed at an offset past the end
    of [text], with a size that wraps around.  For two words of 300 bytes and a third, the
    third is written at offset 601 of the array of 512. *)
Theorem searchq_overflow :
  sq_past (oc_searchq_parse (Some long_query)) = [(601, [98])] ∧
  OC_SQ_TEXT_MAX < 601 ∧ zlen (sq_text (sq_out (oc_searchq_parse (Some long_query)))) = 511.
Proof. split_and!; by vm_compute. Qed.
