(* ===== verification/Rows.v ===== *)
(** * Arrays of rows

    The loops over arrays of structs that the client's model repeats, and their
    laws for rows with a key.  [snprintf] of a string into an array of [n] bytes
    keeps [fit n s]. *)
From S2P Require Import Prelude.
From stdpp Require Import base tactics list numbers.
Local Open Scope Z_scope.

Definition fit (n : Z) (s : list Z) : list Z := ztake (n - 1) s.

(** [for (i...) if (p(a[i])) { f(&a[i]); break; }] *)
Fixpoint upd_first {A} (p : A → bool) (f : A → A) (l : list A) : list A :=
  match l with
  | [] => []
  | x :: l => if p x then f x :: l else x :: upd_first p f l
  end.

(** [for (i...) if (p(a[i])) return &a[i]; return NULL;] *)
Definition find_row {A} (p : A → bool) (l : list A) : option A := List.find p l.

(** The row that satisfies [p] becomes [f] of it; without one, [x] is appended. *)
Definition upsert {A} (p : A → bool) (f : A → A) (x : A) (l : list A) : list A :=
  if existsb p l then upd_first p f l else l ++ [x].

(** [a[i] = a[--n]] *)
Definition swap_remove {A} (i : nat) (l : list A) : list A :=
  match list.last l with
  | Some x => take (length l - 1) (<[i := x]> l)
  | None => l
  end.
(** The same at the first row that satisfies [p]. *)
Fixpoint index_of {A} (p : A → bool) (l : list A) : option nat :=
  match l with
  | [] => None
  | x :: l => if p x then Some O else S <$> index_of p l
  end.
Definition remove_row {A} (p : A → bool) (l : list A) : list A :=
  match index_of p l with Some i => swap_remove i l | None => l end.
(** [memmove(&a[i], &a[i + 1], ...); n--] at the first row that satisfies [p]. *)
Fixpoint delete_row {A} (p : A → bool) (l : list A) : list A :=
  match l with
  | [] => []
  | x :: l => if p x then l else x :: delete_row p l
  end.
(** Appending to an array of [n] that gives up its oldest row when it is full. *)
Definition push_bounded {A} (n : nat) (x : A) (l : list A) : list A :=
  (if (length l =? n)%nat then drop 1 l else l) ++ [x].

(** [for (i = n; i-- > 0;) if (!keep(a[i])) a[i] = a[--n];] *)
Fixpoint sweep_from {A} (keep : A → bool) (i : nat) (l : list A) : list A :=
  match i with
  | O => l
  | S i => sweep_from keep i (match l !! i with
                              | Some x => if keep x then l else swap_remove i l
                              | None => l
                              end)
  end.
Definition sweep {A} (keep : A → bool) (l : list A) : list A := sweep_from keep (length l) l.

(** ** Removal *)

Lemma index_of_Some {A} (p : A → bool) l i :
  index_of p l = Some i → ∃ x, l !! i = Some x ∧ p x = true ∧ ∀ j y, (j < i)%nat → l !! j = Some y → p y = false.
Proof.
  revert i. induction l as [|x l IH]; intros i H; [done|]. simpl in H. destruct (p x) eqn:E.
  - injection H as <-. exists x. repeat split; [done|]. intros; lia.
  - destruct (index_of p l) as [k|] eqn:Ek; [|done]. injection H as <-.
    destruct (IH _ eq_refl) as (y & Hy & Hp & Hb). exists y. repeat split; [done..|].
    intros [|j] z Hj Hz; [by simplify_eq/=|]. eapply Hb; [|done]. lia.
Qed.
Lemma index_of_None {A} (p : A → bool) l : index_of p l = None ↔ existsb p l = false.
Proof.
  induction l as [|x l IH]; simpl; [done|]. destruct (p x); simpl; [done|].
  rewrite <- IH. destruct (index_of p l); naive_solver.
Qed.
Lemma swap_remove_perm {A} i (l : list A) x : l !! i = Some x → x :: swap_remove i l ≡ₚ l.
Proof.
  intros Hi. unfold swap_remove. destruct (list.last l) as [y|] eqn:El.
  2:{ apply last_None in El as ->. done. }
  apply last_Some in El as [k ->]. rewrite length_app. simpl.
  replace (length k + 1 - 1)%nat with (length k) by lia.
  destruct (decide (i < length k)%nat) as [Hlt|Hge].
  - rewrite insert_app_l by done. rewrite take_app_length' by (by rewrite length_insert).
    rewrite lookup_app_l in Hi by done. rewrite insert_take_drop by done.
    rewrite <- (take_drop_middle k i x Hi) at 3. rewrite <- app_assoc. simpl.
    rewrite <- (Permutation_middle (take i k) (drop (S i) k ++ [y]) x). apply perm_skip.
    apply Permutation_app_head, Permutation_cons_append.
  - assert (i = length k) as ->.
    { apply lookup_lt_Some in Hi. rewrite length_app in Hi. simpl in Hi. lia. }
    rewrite lookup_app_r, Nat.sub_diag in Hi by lia. simplify_eq/=.
    rewrite insert_app_r_alt, Nat.sub_diag by lia. simpl. rewrite take_app_length. apply Permutation_cons_append.
Qed.

Lemma swap_remove_drop {A} (P : A → Prop) i (l : list A) :
  Forall P (drop (S i) l) → Forall P (drop i (swap_remove i l)).
Proof.
  intros H. unfold swap_remove. destruct (list.last l) as [y|] eqn:El.
  2:{ apply last_None in El as ->. by rewrite drop_nil. }
  apply last_Some in El as [k ->]. rewrite length_app. simpl.
  replace (length k + 1 - 1)%nat with (length k) by lia.
  destruct (decide (i < length k)%nat) as [Hlt|Hge].
  - rewrite insert_app_l by done. rewrite take_app_length' by (by rewrite length_insert).
    rewrite drop_app_le in H by lia. apply Forall_app in H as [H Hy]. inversion_clear Hy.
    rewrite insert_take_drop by done. rewrite drop_app_length' by (rewrite length_take; lia).
    by constructor.
  - rewrite drop_ge; [constructor|]. rewrite length_take. lia.
Qed.

#[export] Instance filterb_perm {A} (p : A → bool) : Proper (Permutation ==> Permutation) (List.filter p).
Proof.
  intros l k H. induction H as [|x l k H IH|x y l|l k j H1 IH1 H2 IH2]; simpl.
  - done.
  - destruct (p x); [by apply perm_skip|done].
  - destruct (p x), (p y); try done. apply perm_swap.
  - by rewrite IH1.
Qed.

Lemma sweep_from_perm {A} (keep : A → bool) i l :
  Forall (fun x => keep x = true) (drop i l) → sweep_from keep i l ≡ₚ List.filter keep l.
Proof.
  revert l. induction i as [|i IH]; intros l H; simpl.
  - rewrite drop_0 in H. induction H as [|x l Hx H IH]; simpl; [done|]. rewrite Hx. by apply perm_skip.
  - destruct (l !! i) as [x|] eqn:Ex.
    2:{ apply IH. rewrite drop_ge; [constructor|]. by apply lookup_ge_None. }
    destruct (keep x) eqn:Ek.
    + apply IH. rewrite (drop_S l x i) by done. by constructor.
    + rewrite IH by (by apply swap_remove_drop). rewrite <- (swap_remove_perm i l x Ex) at 2.
      simpl. by rewrite Ek.
Qed.

(** What the sweep leaves is what it keeps, in some order. *)
Lemma sweep_perm {A} (keep : A → bool) l : sweep keep l ≡ₚ List.filter keep l.
Proof. apply sweep_from_perm. rewrite drop_all. constructor. Qed.

(** ** Updates *)

Lemma upd_first_elem {A} (p : A → bool) f (l : list A) x :
  x ∈ upd_first p f l → x ∈ l ∨ ∃ y, p y = true ∧ x = f y.
Proof.
  induction l as [|y l IH]; simpl; [by left|]. destruct (p y) eqn:E; rewrite !elem_of_cons; naive_solver.
Qed.
Lemma upd_first_length {A} (p : A → bool) f (l : list A) : length (upd_first p f l) = length l.
Proof. induction l as [|y l IH]; simpl; [done|]. destruct (p y); simpl; congruence. Qed.

(** ** Rows with a key *)

Section Keyed.
Context {A K : Type} `{EqDecision K} (key : A → K).

Definition has_key (k : K) (x : A) : bool := bool_decide (key x = k).
(** The row of a key. *)
Definition row (k : K) (l : list A) : option A := find_row (has_key k) l.
Definition keys_ok (l : list A) : Prop := NoDup (key <$> l).

Lemma row_cons k x l : row k (x :: l) = if decide (key x = k) then Some x else row k l.
Proof. unfold row, find_row, has_key. simpl. case_bool_decide; case_decide; done. Qed.
Lemma row_app k l x : row k (l ++ [x]) = match row k l with Some y => Some y | None => if decide (key x = k) then Some x else None end.
Proof. induction l as [|y l IH]; [apply row_cons|]. rewrite <- app_comm_cons, !row_cons.
  destruct (decide (key y = k)); [done|apply IH]. Qed.
Lemma row_Some k l x : row k l = Some x → x ∈ l ∧ key x = k.
Proof.
  induction l as [|y l IH]; [done|]. rewrite row_cons. destruct (decide (key y = k)); intros Hr.
  - simplify_eq. split; [left|done].
  - destruct (IH Hr). split; [by right|done].
Qed.
Lemma row_None k l : row k l = None ↔ k ∉ key <$> l.
Proof.
  induction l as [|y l IH]; [split; [intros _; apply not_elem_of_nil|done]|].
  rewrite row_cons, fmap_cons, not_elem_of_cons, <- IH. case_decide; naive_solver.
Qed.
Lemma row_unique k l x : keys_ok l → x ∈ l → key x = k → row k l = Some x.
Proof.
  unfold keys_ok. induction l as [|y l IH]; intros Hn Hin Hk; [by apply not_elem_of_nil in Hin|].
  rewrite fmap_cons, list.NoDup_cons in Hn. destruct Hn as [Hy Hn]. rewrite row_cons.
  apply elem_of_cons in Hin as [->|Hin]; [by rewrite decide_True|].
  case_decide as E; [|by apply IH]. destruct Hy. rewrite E, <- Hk. by apply list_elem_of_fmap_2.
Qed.
Lemma keys_ok_perm l k : l ≡ₚ k → keys_ok l → keys_ok k.
Proof. unfold keys_ok. intros H. by rewrite H. Qed.
Lemma row_perm k l l' : keys_ok l → l ≡ₚ l' → row k l' = row k l.
Proof.
  intros Hn Hp. destruct (row k l) as [x|] eqn:E.
  - apply row_Some in E as [Hin Hk]. apply row_unique; [by eapply keys_ok_perm|by rewrite <- Hp|done].
  - apply row_None. rewrite <- Hp. by apply row_None.
Qed.

Lemma existsb_row k l : existsb (has_key k) l = bool_decide (is_Some (row k l)).
Proof.
  induction l as [|y l IH]; [done|]. rewrite row_cons. simpl. rewrite IH. unfold has_key.
  destruct (decide (key y = k)) as [E|E].
  - by rewrite !bool_decide_eq_true_2 by eauto.
  - by rewrite (bool_decide_eq_false_2 (key y = k)) by done.
Qed.
Lemma upd_first_keys k f l : (∀ x, key x = k → key (f x) = k) → key <$> upd_first (has_key k) f l = key <$> l.
Proof.
  intros Hf. induction l as [|y l IH]; [done|]. simpl.
  destruct (has_key k y) eqn:E; rewrite fmap_cons; [|by rewrite IH].
  apply bool_decide_eq_true in E. by rewrite (Hf _ E), <- E.
Qed.
Lemma row_upd_first k k' f l : (∀ x, key x = k → key (f x) = k) →
  row k' (upd_first (has_key k) f l) = if decide (k' = k) then f <$> row k l else row k' l.
Proof.
  intros Hf. induction l as [|y l IH]; [by case_decide|]. cbn [upd_first].
  rewrite !row_cons. destruct (has_key k y) eqn:E; rewrite row_cons;
    [apply bool_decide_eq_true in E|apply bool_decide_eq_false in E].
  - rewrite (Hf _ E). destruct (decide (k' = k)) as [->|Hk]; [by rewrite !decide_True|].
    by rewrite !decide_False by congruence.
  - rewrite IH. destruct (decide (k' = k)) as [->|Hk]; [by rewrite !decide_False by done|]. done.
Qed.

Lemma upsert_None k f x l : row k l = None → upsert (has_key k) f x l = l ++ [x].
Proof. intros H. unfold upsert. rewrite existsb_row, H. by rewrite bool_decide_eq_false_2 by (by intros []). Qed.
Lemma upsert_Some k f x l y : row k l = Some y → upsert (has_key k) f x l = upd_first (has_key k) f l.
Proof. intros H. unfold upsert. rewrite existsb_row, H. by rewrite bool_decide_eq_true_2 by eauto. Qed.
Lemma index_of_row k l : row k l = None ↔ index_of (has_key k) l = None.
Proof.
  rewrite index_of_None, existsb_row, bool_decide_eq_false. destruct (row k l); [|naive_solver].
  split; [done|]. intros []. eauto.
Qed.

(** An upsert stores one row for its key and touches no other. *)
Lemma row_upsert k k' f x l : (∀ x, key x = k → key (f x) = k) → key x = k →
  row k' (upsert (has_key k) f x l) =
  if decide (k' = k) then Some (match row k l with Some y => f y | None => x end) else row k' l.
Proof.
  intros Hf Hx. unfold upsert. rewrite existsb_row. destruct (row k l) as [y|] eqn:E.
  - rewrite bool_decide_eq_true_2 by eauto. rewrite row_upd_first by done. by rewrite E.
  - rewrite bool_decide_eq_false_2 by (by intros []). rewrite row_app, Hx.
    destruct (decide (k' = k)) as [->|Hk]; [by rewrite E, decide_True|].
    rewrite decide_False by done. by destruct (row k' l).
Qed.
Lemma keys_ok_upsert k f x l : (∀ x, key x = k → key (f x) = k) → key x = k →
  keys_ok l → keys_ok (upsert (has_key k) f x l).
Proof.
  intros Hf Hx Hn. unfold upsert, keys_ok in *. rewrite existsb_row. case_bool_decide as E.
  - by rewrite upd_first_keys.
  - rewrite fmap_app. change (key <$> [x]) with [key x]. rewrite Hx. apply list.NoDup_app. split_and!; [done| |apply NoDup_singleton].
    intros y Hy ->%list_elem_of_singleton. apply E. destruct (row k l) eqn:Er; [eauto|]. by apply row_None in Er.
Qed.

(** Removal by moving the last row into the hole removes that key alone. *)
Lemma remove_row_perm k l x : row k l = Some x → x :: remove_row (has_key k) l ≡ₚ l.
Proof.
  intros Hr. unfold remove_row. destruct (index_of (has_key k) l) as [i|] eqn:Ei.
  - apply index_of_Some in Ei as (y & Hy & Hp & Hb). assert (x = y) as ->; [|by apply swap_remove_perm].
    clear -Hr Hy Hp Hb. revert l Hr Hy Hb. induction i as [|i IH]; intros [|z l] Hr Hy Hb; try done; rewrite row_cons in Hr.
    + simplify_eq/=. apply bool_decide_eq_true in Hp. rewrite decide_True in Hr by done. congruence.
    + pose proof (Hb O z ltac:(lia) eq_refl) as Hz. apply bool_decide_eq_false in Hz.
      rewrite decide_False in Hr by done. apply (IH l); [done..|]. intros j w Hj. apply (Hb (S j)). lia.
  - apply index_of_None in Ei. rewrite existsb_row, Hr in Ei. by apply bool_decide_eq_false in Ei as []; eauto.
Qed.
Lemma remove_row_id k l : row k l = None → remove_row (has_key k) l = l.
Proof.
  intros Hr. unfold remove_row. destruct (index_of (has_key k) l) as [i|] eqn:Ei; [|done].
  apply index_of_Some in Ei as (y & Hy & Hp & _). apply bool_decide_eq_true in Hp.
  apply row_None in Hr as []. rewrite <- Hp. apply list_elem_of_fmap_2. by eapply list_elem_of_lookup_2.
Qed.
Lemma keys_ok_remove k l : keys_ok l → keys_ok (remove_row (has_key k) l).
Proof.
  intros Hn. destruct (row k l) as [x|] eqn:E; [|by rewrite remove_row_id].
  pose proof (remove_row_perm k l x E) as Hp. symmetry in Hp. apply (keys_ok_perm _ _ Hp) in Hn.
  unfold keys_ok in *. rewrite fmap_cons, list.NoDup_cons in Hn. tauto.
Qed.
Lemma row_remove k k' l : keys_ok l →
  row k' (remove_row (has_key k) l) = if decide (k' = k) then None else row k' l.
Proof.
  intros Hn. destruct (row k l) as [x|] eqn:E.
  - pose proof (remove_row_perm k l x E) as Hp. pose proof (row_Some _ _ _ E) as [_ Hx].
    assert (Hn' : keys_ok (x :: remove_row (has_key k) l)) by (by eapply keys_ok_perm; [symmetry|]).
    rewrite (row_perm k' _ _ Hn' Hp) , row_cons, Hx. destruct (decide (k' = k)) as [->|Hk].
    + apply row_None. unfold keys_ok in Hn'. rewrite fmap_cons, list.NoDup_cons, Hx in Hn'. tauto.
    + by rewrite decide_False by done.
  - rewrite remove_row_id by done. case_decide; [by subst|done].
Qed.

(** After a sweep a key has its row exactly when that row is kept. *)
Lemma keys_ok_filter (keep : A → bool) l : keys_ok l → keys_ok (List.filter keep l).
Proof.
  unfold keys_ok. induction l as [|y l IH]; [done|]. rewrite fmap_cons, list.NoDup_cons. intros [Hy Hn]. simpl.
  destruct (keep y); [|by apply IH]. rewrite fmap_cons, list.NoDup_cons. split; [|by apply IH].
  intros Hin. apply Hy. apply list_elem_of_fmap in Hin as (z & -> & Hz). apply list_elem_of_fmap_2.
  apply list_elem_of_In, filter_In in Hz as [Hz _]. by apply list_elem_of_In.
Qed.
Lemma row_filter (keep : A → bool) k l : keys_ok l →
  row k (List.filter keep l) = match row k l with Some x => if keep x then Some x else None | None => None end.
Proof.
  intros Hn. destruct (row k l) as [x|] eqn:E.
  - apply row_Some in E as [Hin Hk]. destruct (keep x) eqn:Ek.
    + apply row_unique; [by apply keys_ok_filter| |done]. apply list_elem_of_In, filter_In. split; [by apply list_elem_of_In|done].
    + apply row_None. intros (z & Hz & Hin')%list_elem_of_fmap. apply list_elem_of_In, filter_In in Hin' as [Hin' Hkz].
      apply list_elem_of_In in Hin'. pose proof (row_unique k l x Hn Hin Hk). pose proof (row_unique k l z Hn Hin' (eq_sym Hz)).
      congruence.
  - apply row_None. apply row_None in E. intros (z & Hz & Hin')%list_elem_of_fmap. apply E.
    apply list_elem_of_In, filter_In in Hin' as [Hin' _]. rewrite Hz. apply list_elem_of_fmap_2. by apply list_elem_of_In.
Qed.
Lemma keys_ok_sweep (keep : A → bool) l : keys_ok l → keys_ok (sweep keep l).
Proof. intros Hn. eapply keys_ok_perm; [symmetry; apply sweep_perm|]. by apply keys_ok_filter. Qed.
Lemma row_sweep (keep : A → bool) k l : keys_ok l →
  row k (sweep keep l) = match row k l with Some x => if keep x then Some x else None | None => None end.
Proof.
  intros Hn. rewrite <- row_filter by done. apply row_perm; [by apply keys_ok_filter|]. symmetry. apply sweep_perm.
Qed.
End Keyed.
