(* ===== verification/ClientMsg.v ===== *)
(** * Messages of the client's model: [client/core/model.c], [client/core/model.h]

    One message as the client holds it, and the folds of the daemon's events into
    one message.  A heap string is an [option], a fixed array of characters the
    string it holds.  Arrays grow by doubling and the allocations are taken to
    succeed; the capacity of the reactions is kept, since its [uint8_t] can wrap:
    [mg_freed] says that [realloc] was asked for no bytes, which frees the array
    the message still points at. *)
From stdpp Require Import base tactics list numbers.
From S2P Require Import Prelude.
From S2P Require Import Rows.
Local Open Scope Z_scope.
Local Open Scope oc_scope.

Definition OC_MAX_ATTACH : Z := 16.
Definition OC_REACT_ADD : Z := 1.
Definition OC_POLL_HAS_MINE : Z := 0x04.

Record oc_reaction := mk_reaction { re_emoji : list Z; re_count : Z; re_mine : bool }.

Record oc_attachment := mk_attachment {
  at_id : Z;
  at_filename : list Z;
  at_mime : list Z;
  at_size : Z;
  at_reclaimed : Z;
  at_media_kind : Z;
  at_duration_ms : Z;
  at_width : Z;
  at_height : Z;
  at_poster_id : Z }.

Record oc_msg_unfurl := mk_unfurl { un_url : list Z; un_title : list Z; un_descr : option (list Z) }.

Record oc_msg_forward := mk_forward {
  fw_src_channel : Z;
  fw_src_message : Z;
  fw_src_author : Z;
  fw_excerpt : option (list Z);
  fw_attach_name : list Z;
  fw_n_attach : Z;
  fw_src_action : bool }.

Record oc_msg_action := mk_action { ac_present : bool; ac_start : Z; ac_len : Z; ac_actor_name : list Z }.
Definition no_action : oc_msg_action := mk_action false 0 0 [].

Record oc_poll_view := mk_poll {
  po_flags : Z;
  po_n_options : Z;
  po_close_at_ms : Z;
  po_voters : Z;
  po_mine : Z;
  po_labels : list (list Z);
  po_counts : list Z }.
#[export] Instance poll_eta : Eta oc_poll_view := fun r =>
  mk_poll (po_flags r) (po_n_options r) (po_close_at_ms r) (po_voters r) (po_mine r) (po_labels r) (po_counts r).

Record oc_msg := mk_msg {
  mg_body : option (list Z);
  mg_author_name : list Z;
  mg_author_id : Z;
  mg_id : Z;
  mg_server_time : Z;
  mg_reactions : list oc_reaction;
  mg_cap_reactions : Z;
  mg_freed : bool;
  mg_attach : list oc_attachment;
  mg_edited : bool;
  mg_deleted : bool;
  mg_reply_count : Z;
  mg_pinned : bool;
  mg_pinned_by : Z;
  mg_pinned_at : Z;
  mg_saved : bool;
  mg_saved_at : Z;
  mg_collapsed : bool;
  mg_kind : Z;
  mg_broadcast_stored : bool;
  mg_unfurls : list oc_msg_unfurl;
  mg_forward : option oc_msg_forward;
  mg_action : oc_msg_action;
  mg_poll : option oc_poll_view }.
#[export] Instance msg_eta : Eta oc_msg := fun r =>
  mk_msg (mg_body r) (mg_author_name r) (mg_author_id r) (mg_id r) (mg_server_time r) (mg_reactions r)
    (mg_cap_reactions r) (mg_freed r) (mg_attach r) (mg_edited r) (mg_deleted r) (mg_reply_count r)
    (mg_pinned r) (mg_pinned_by r) (mg_pinned_at r) (mg_saved r) (mg_saved_at r) (mg_collapsed r)
    (mg_kind r) (mg_broadcast_stored r) (mg_unfurls r) (mg_forward r) (mg_action r) (mg_poll r).

(** A new message after its [memset]. *)
Definition new_msg (body : option (list Z)) (author_name : list Z)
    (author_id message_id server_time kind : Z) (broadcast_stored : bool) : oc_msg :=
  mk_msg body author_name author_id message_id server_time [] 0 false [] false false 0
    false 0 0 false 0 false kind broadcast_stored [] None no_action None.

(** ** The folds *)

Definition msg_clear_unfurls (m : oc_msg) : oc_msg := m <| mg_unfurls := [] |>.

Definition msg_tombstone (m : oc_msg) : oc_msg :=
  msg_clear_unfurls
    (m <| mg_deleted := true |> <| mg_reactions := [] |> <| mg_cap_reactions := 0 |> <| mg_attach := [] |>)
    <| mg_pinned := false |> <| mg_pinned_by := 0 |> <| mg_pinned_at := 0 |>
    <| mg_saved := false |> <| mg_saved_at := 0 |> <| mg_action := no_action |> <| mg_poll := None |>.

(** The action an event carries. *)
Record ev_action := mk_ev_action {
  ea_known : bool;
  ea_action : bool;
  ea_start : Z;
  ea_len : Z;
  ea_actor_name : list Z }.

Definition msg_set_action (m : oc_msg) (e : ev_action) : oc_msg :=
  if negb (ea_known e) then m else
  let m := m <| mg_action := no_action |> in
  match mg_body m with
  | Some body =>
      if negb (ea_action e) || mg_deleted m then m
      else if (ea_len e =? 0) || (zlen body <? ea_start e) || (zlen body - ea_start e <? ea_len e) then m
      else m <| mg_action := mk_action true (ea_start e) (ea_len e) (fit 64 (ea_actor_name e)) |>
  | None => m
  end.

Definition msg_untombstone (m : oc_msg) (body : option (list Z)) : oc_msg :=
  if negb (mg_deleted m) then m else m <| mg_deleted := false |> <| mg_body := body |>.

Definition msg_set_saved (m : oc_msg) (op pinned_at : Z) : oc_msg :=
  m <| mg_saved := (op =? 1) |> <| mg_saved_at := if op =? 1 then pinned_at else 0 |>.

Definition msg_set_pinned (m : oc_msg) (op user_id server_time : Z) : oc_msg :=
  m <| mg_pinned := (op =? 1) |> <| mg_pinned_by := if op =? 1 then user_id else 0 |>
    <| mg_pinned_at := if op =? 1 then server_time else 0 |>.

Definition is_emoji (emoji : list Z) (r : oc_reaction) : bool := bool_decide (re_emoji r = emoji).
(** The count, and the mark when the reaction is this user's. *)
Definition set_reaction (count op : Z) (is_me : bool) (r : oc_reaction) : oc_reaction :=
  mk_reaction (re_emoji r) count (if is_me then op =? OC_REACT_ADD else re_mine r).
(** [cap ? (uint8_t)(cap * 2) : 4] *)
Definition grown (cap : Z) : Z := if cap =? 0 then 4 else u8 (cap * 2).

Definition msg_apply_reaction (m : oc_msg) (emoji : list Z) (count op : Z) (is_me : bool) : oc_msg :=
  match emoji with
  | [] => m
  | _ =>
      let l := mg_reactions m in
      match index_of (is_emoji emoji) l with
      | Some i =>
          if count =? 0 then m <| mg_reactions := swap_remove i l |>
          else m <| mg_reactions := upd_first (is_emoji emoji) (set_reaction count op is_me) l |>
      | None =>
          if count =? 0 then m else
          let cap := if zlen l =? mg_cap_reactions m then grown (mg_cap_reactions m) else mg_cap_reactions m in
          if cap =? 0 then m <| mg_freed := true |>
          else m <| mg_cap_reactions := cap |>
                 <| mg_reactions := l ++ [set_reaction count op is_me (mk_reaction (fit 40 emoji) 0 false)] |>
      end
  end.

(** [a] is the attachment the event describes. *)
Definition msg_add_attach (m : oc_msg) (a : oc_attachment) : oc_msg :=
  if existsb (fun x => at_id x =? at_id a) (mg_attach m) then m
  else if OC_MAX_ATTACH <=? zlen (mg_attach m) then m
  else m <| mg_attach := mg_attach m ++
         [mk_attachment (at_id a) (fit 128 (at_filename a)) (fit 64 (at_mime a)) (at_size a) (at_reclaimed a)
            (at_media_kind a) (at_duration_ms a) (at_width a) (at_height a) (at_poster_id a)] |>.

Definition msg_set_poll (m : oc_msg) (pv : option oc_poll_view) : oc_msg :=
  match pv with
  | None => m
  | Some p =>
      if mg_deleted m then m else
      let had := match mg_poll m with Some q => po_mine q | None => 0 end in
      let q := if Z.land (po_flags p) OC_POLL_HAS_MINE =? 0 then p <| po_mine := had |> else p in
      m <| mg_poll := Some (q <| po_flags := Z.land (po_flags q) (255 - OC_POLL_HAS_MINE) |>) |>
  end.

(** [OC_EV_FORWARD], on the message found. *)
Definition msg_set_forward (m : oc_msg) (f : oc_msg_forward) : oc_msg :=
  if mg_deleted m then m else m <| mg_forward := Some f |>.

(** [OC_EV_UNFURL], on the message found: at most three, one per address. *)
Definition msg_set_unfurl (m : oc_msg) (u : oc_msg_unfurl) : oc_msg :=
  let same x := bool_decide (un_url x = un_url u) in
  if mg_deleted m then m
  else if existsb same (mg_unfurls m) then m <| mg_unfurls := upd_first same (fun _ => u) (mg_unfurls m) |>
  else if 3 <=? zlen (mg_unfurls m) then m
  else m <| mg_unfurls := mg_unfurls m ++ [u] |>.

(** [OC_EV_EDIT], on the message found. *)
Definition msg_edit (m : oc_msg) (body : option (list Z)) (act : ev_action) : oc_msg :=
  msg_set_action (msg_clear_unfurls (m <| mg_body := body |> <| mg_edited := true |>)) act.

(** [OC_EV_RESTORE], on the message found. *)
Definition msg_restore (m : oc_msg) (body : option (list Z)) (act : ev_action) (broadcast_stored : bool) : oc_msg :=
  msg_set_action (msg_untombstone m body) act <| mg_broadcast_stored := broadcast_stored |>.

(** ** What always holds of a message *)

(** An action is inside its body until the message is edited: an edit handed on without
    the answer about its action leaves the old one over the new body. *)
Record action_ok (m : oc_msg) : Prop := {
  ao_live : mg_deleted m = false;
  ao_span : mg_edited m = false → ∃ b, mg_body m = Some b ∧ 0 <= ac_start (mg_action m) ∧ 0 < ac_len (mg_action m) ∧
                 ac_start (mg_action m) + ac_len (mg_action m) <= zlen b }.
Record msg_ok (m : oc_msg) : Prop := {
  mo_action : ac_present (mg_action m) = true → action_ok m;
  mo_dead : mg_deleted m = true → mg_poll m = None ∧ mg_unfurls m = [];
  mo_unfurls : zlen (mg_unfurls m) <= 3 ∧ keys_ok un_url (mg_unfurls m);
  mo_attach : zlen (mg_attach m) <= OC_MAX_ATTACH ∧ keys_ok at_id (mg_attach m);
  mo_reactions : keys_ok re_emoji (mg_reactions m) }.
(** The ranges of an event's fields. *)
Definition ev_action_ok (e : ev_action) : Prop := 0 <= ea_start e ∧ 0 <= ea_len e.

(** A message whose texts, files and reactions are untouched stays as good. *)
Lemma msg_ok_same m m' :
  msg_ok m → mg_action m' = mg_action m → mg_deleted m' = mg_deleted m → mg_body m' = mg_body m →
  mg_poll m' = mg_poll m → mg_unfurls m' = mg_unfurls m → mg_attach m' = mg_attach m →
  mg_reactions m' = mg_reactions m → mg_edited m' = mg_edited m → msg_ok m'.
Proof.
  intros [Ha Hd Hu Hat Hr] E1 E2 E3 E4 E5 E6 E7 E8.
  constructor; rewrite ?E1, ?E2, ?E4, ?E5, ?E6, ?E7; try done.
  intros Hp. destruct (Ha Hp) as [Hl Hs]. constructor; rewrite ?E1, ?E2, ?E3, ?E8; done.
Qed.

Lemma new_msg_ok body name author id time kind stored : msg_ok (new_msg body name author id time kind stored).
Proof.
  constructor; simpl; try done; try split; try apply NoDup_nil_2; unfold zlen, OC_MAX_ATTACH; simpl; lia.
Qed.

Lemma msg_set_action_ok m e : msg_ok m → ev_action_ok e → msg_ok (msg_set_action m e).
Proof.
  intros H [Hs Hl]. unfold msg_set_action. destruct (ea_known e); [|done]. cbn [negb].
  assert (Hc : msg_ok (m <| mg_action := no_action |>)) by (destruct H as [Ha Hd Hu Hat Hr]; constructor; done).
  clear H. destruct m. simpl in *. case_match; [|done]. destruct (ea_action e); [|done]. destruct mg_deleted0 eqn:Ed; [done|]. simpl.
  destruct (_ || _ || _) eqn:E; [done|].
  destruct Hc as [Hc1 Hc2 Hc3 Hc4 Hc5]. constructor; simpl in *; try done.
  intros _. constructor; simpl; [done|]. intros _. subst. eexists. split; [done|]. lia.
Qed.

Lemma msg_tombstone_ok m : msg_ok (msg_tombstone m).
Proof. constructor; simpl; try done; try split; try apply NoDup_nil_2; unfold zlen, OC_MAX_ATTACH; simpl; lia. Qed.

Lemma msg_untombstone_ok m body : msg_ok m → msg_ok (msg_untombstone m body).
Proof.
  intros [Ha Hd Hu Hat Hr]. unfold msg_untombstone. destruct (mg_deleted m) eqn:Ed; simpl; [|constructor; by rewrite ?Ed].
  constructor; simpl; try done. intros Hp. destruct (Ha Hp). congruence.
Qed.

Lemma msg_add_attach_ok m a : msg_ok m → msg_ok (msg_add_attach m a).
Proof.
  intros [Ha Hd Hu [Hl Hk] Hr]. unfold msg_add_attach.
  destruct (existsb _ _) eqn:Ex; [by constructor|]. destruct (Z.leb_spec OC_MAX_ATTACH (zlen (mg_attach m))); [by constructor|].
  constructor; simpl; try done.
  - intros Hp. destruct (Ha Hp). by constructor.
  - rewrite zlen_app, zlen_cons, zlen_nil. split; [lia|]. unfold keys_ok in *. rewrite fmap_app.
    apply list.NoDup_app. split_and!; [done| |apply NoDup_singleton].
    intros k Hk' ->%list_elem_of_singleton. apply list_elem_of_fmap in Hk' as (x & Hx & Hin).
    apply not_true_iff_false in Ex as []. apply existsb_exists. exists x. split; [by apply list_elem_of_In|]. simpl in *. lia.
Qed.

Lemma msg_set_unfurl_ok m u : msg_ok m → msg_ok (msg_set_unfurl m u).
Proof.
  intros [Ha Hd [Hl Hk] Hat Hr]. unfold msg_set_unfurl. destruct (mg_deleted m) eqn:Ed; [constructor; by rewrite ?Ed|].
  change (fun x => bool_decide (un_url x = un_url u)) with (has_key un_url (un_url u)).
  destruct (existsb _ _) eqn:Ex; [|destruct (Z.leb_spec 3 (zlen (mg_unfurls m)))].
  - constructor; simpl; rewrite ?Ed; try done.
    + intros Hp. destruct (Ha Hp). by constructor.
    + split; [unfold zlen in *; by rewrite upd_first_length|]. unfold keys_ok. by rewrite upd_first_keys.
  - constructor; by rewrite ?Ed.
  - pose proof (keys_ok_upsert un_url (un_url u) (fun _ => u) u (mg_unfurls m)) as Hup. unfold upsert in Hup. rewrite Ex in Hup.
    constructor; simpl; rewrite ?Ed; try done.
    + intros Hp. destruct (Ha Hp). by constructor.
    + split; [rewrite zlen_app, zlen_cons, zlen_nil; lia|by apply Hup].
Qed.
Lemma msg_set_poll_ok m p : msg_ok m → msg_ok (msg_set_poll m p).
Proof.
  intros [Ha Hd Hu Hat Hr]. unfold msg_set_poll. destruct p as [p|]; [|by constructor].
  destruct (mg_deleted m) eqn:Ed; [constructor; by rewrite ?Ed|].
  constructor; simpl; rewrite ?Ed; try done. intros Hp. destruct (Ha Hp). by constructor.
Qed.
Lemma msg_set_forward_ok m f : msg_ok m → msg_ok (msg_set_forward m f).
Proof. intros H. unfold msg_set_forward. case_match; [done|]. by eapply msg_ok_same. Qed.

(** *** Reactions *)

Lemma fit_id n s : zlen s < n → fit n s = s.
Proof. intros. apply ztake_all. lia. Qed.

Lemma is_emoji_key emoji : is_emoji emoji = has_key re_emoji emoji.
Proof. done. Qed.

(** What an aggregate says of its emoji. *)
Definition said_reaction (count op : Z) (is_me : bool) (old : option oc_reaction) (emoji : list Z) : option oc_reaction :=
  if count =? 0 then None
  else Some (set_reaction count op is_me (default (mk_reaction emoji 0 false) old)).

Lemma msg_apply_reaction_row m emoji count op is_me :
  keys_ok re_emoji (mg_reactions m) → emoji ≠ [] → zlen emoji < 40 →
  (row re_emoji emoji (mg_reactions m) = None → zlen (mg_reactions m) = mg_cap_reactions m →
   grown (mg_cap_reactions m) ≠ 0) → 0 <= mg_cap_reactions m →
  zlen (mg_reactions m) <= mg_cap_reactions m →
  keys_ok re_emoji (mg_reactions (msg_apply_reaction m emoji count op is_me)) ∧
  ∀ k, row re_emoji k (mg_reactions (msg_apply_reaction m emoji count op is_me)) =
       if decide (k = emoji) then said_reaction count op is_me (row re_emoji emoji (mg_reactions m)) emoji
       else row re_emoji k (mg_reactions m).
Proof.
  intros Hk Hne Hlen Hg Hc Hn. unfold msg_apply_reaction. rewrite is_emoji_key. unfold said_reaction.
  destruct (row re_emoji emoji (mg_reactions m)) as [x|] eqn:Er.
  - assert (index_of (has_key re_emoji emoji) (mg_reactions m) ≠ None) as Hi by (rewrite <- index_of_row; congruence).
    pose proof (keys_ok_remove re_emoji emoji _ Hk) as Hk1.
    pose proof (fun k => row_remove re_emoji emoji k _ Hk) as Hr1. unfold remove_row in Hk1, Hr1.
    destruct emoji as [|e0 es]; [done|]. destruct (index_of _ _) as [i|]; [|done].
    destruct (count =? 0); simpl; [done|].
    split; [unfold keys_ok; by rewrite upd_first_keys|]. intros k. rewrite row_upd_first by done. by rewrite Er.
  - assert (index_of (has_key re_emoji emoji) (mg_reactions m) = None) as Hi by (by apply index_of_row).
    destruct emoji as [|e0 es]; [done|]. rewrite Hi. destruct (count =? 0); simpl.
    { split; [done|]. intros k. case_decide; [by subst|done]. }
    rewrite (proj2 (Z.eqb_neq _ 0)).
    2:{ destruct (Z.eqb_spec (zlen (mg_reactions m)) (mg_cap_reactions m)); [by apply Hg|].
        pose proof (zlen_nonneg (mg_reactions m)). lia. }
    simpl. rewrite fit_id by done. set (x := set_reaction count op is_me (mk_reaction (e0 :: es) 0 false)).
    rewrite <- (upsert_None re_emoji (e0 :: es) (fun _ => x) x) by done.
    split; [by apply keys_ok_upsert|]. intros k. rewrite row_upsert by done. by rewrite Er.
Qed.

Record aggregate := mk_aggregate { ag_emoji : list Z; ag_count : Z; ag_op : Z; ag_me : bool }.
Definition react (m : oc_msg) (a : aggregate) : oc_msg :=
  msg_apply_reaction m (ag_emoji a) (ag_count a) (ag_op a) (ag_me a).
(** The reactions as a map of the emoji: each aggregate replaces its own. *)
Definition agg (as_ : list aggregate) : list Z → option oc_reaction :=
  foldl (fun f a k => if decide (k = ag_emoji a)
                      then said_reaction (ag_count a) (ag_op a) (ag_me a) (f (ag_emoji a)) (ag_emoji a)
                      else f k) (fun _ => None) as_.
Definition aggregate_ok (a : aggregate) : Prop := ag_emoji a ≠ [] ∧ zlen (ag_emoji a) < 40.

Definition cap_ok (cap : Z) : Prop := cap = 0 ∨ cap = 4 ∨ cap = 8 ∨ cap = 16 ∨ cap = 32 ∨ cap = 64 ∨ cap = 128.
Lemma grown_ok cap : cap_ok cap → cap ≠ 128 → cap_ok (grown cap) ∧ cap < grown cap.
Proof. unfold cap_ok. intros H Hne. repeat destruct H as [->|H]; subst; try done; vm_compute; repeat split; tauto. Qed.

Record reactions_ok (as_ : list aggregate) (m : oc_msg) : Prop := {
  ro_keys : keys_ok re_emoji (mg_reactions m);
  ro_cap : cap_ok (mg_cap_reactions m);
  ro_len : zlen (mg_reactions m) <= mg_cap_reactions m;
  ro_freed : mg_freed m = false;
  ro_row : ∀ k, row re_emoji k (mg_reactions m) = agg as_ k;
  ro_from : ∀ k, is_Some (agg as_ k) → k ∈ ag_emoji <$> as_ }.

Lemma react_room as_ m a :
  reactions_ok as_ m → zlen (remove_dups (ag_emoji <$> as_ ++ [a])) <= 128 →
  row re_emoji (ag_emoji a) (mg_reactions m) = None → zlen (mg_reactions m) < 128.
Proof.
  intros [Hk _ _ _ Hr Hf] Hn Hno. apply row_None in Hno.
  assert (Hs : ag_emoji a :: (re_emoji <$> mg_reactions m) ⊆+ remove_dups (ag_emoji <$> as_ ++ [a])).
  { apply NoDup_submseteq; [by apply list.NoDup_cons|]. intros k. rewrite elem_of_cons, elem_of_remove_dups, fmap_app, elem_of_app.
    intros [->|(x & -> & Hx)%list_elem_of_fmap]; [right; by apply list_elem_of_singleton|left].
    apply Hf. rewrite <- Hr. exists x. by apply row_unique. }
  apply submseteq_length in Hs. simpl in Hs. rewrite length_fmap in Hs. unfold zlen in *. lia.
Qed.

Lemma react_ok as_ m a :
  reactions_ok as_ m → aggregate_ok a → zlen (remove_dups (ag_emoji <$> as_ ++ [a])) <= 128 →
  reactions_ok (as_ ++ [a]) (react m a).
Proof.
  intros H [Hne Hlen] Hn. pose proof (react_room as_ m a H Hn) as Hroom. destruct H as [Hk Hc Hl Hf Hr Hfrom].
  assert (0 <= mg_cap_reactions m) by (unfold cap_ok in Hc; lia).
  assert (Hshape : mg_freed (react m a) = false ∧ cap_ok (mg_cap_reactions (react m a)) ∧
                   zlen (mg_reactions (react m a)) <= mg_cap_reactions (react m a)).
  { unfold react, msg_apply_reaction. destruct (ag_emoji a) as [|e0 es] eqn:Ee; [done|]. rewrite is_emoji_key.
    destruct (index_of _ _) as [i|] eqn:Ei.
    - destruct (ag_count a =? 0); simpl; split_and!; try done.
      + apply index_of_Some in Ei as (x & Hx & _). apply swap_remove_perm, Permutation_length in Hx. simpl in Hx.
        unfold zlen in *. lia.
      + unfold zlen in *. by rewrite upd_first_length.
    - apply index_of_row in Ei. specialize (Hroom Ei). destruct (ag_count a =? 0); [by simpl|].
      destruct (Z.eqb_spec (zlen (mg_reactions m)) (mg_cap_reactions m)) as [E|E].
      + destruct (grown_ok _ Hc ltac:(lia)) as [Hg1 Hg2]. rewrite (proj2 (Z.eqb_neq _ 0)) by lia. simpl.
        split_and!; [done..|]. rewrite zlen_app, zlen_cons, zlen_nil. lia.
      + rewrite (proj2 (Z.eqb_neq _ 0)) by (pose proof (zlen_nonneg (mg_reactions m)); lia). simpl.
        split_and!; [done..|]. rewrite zlen_app, zlen_cons, zlen_nil. lia. }
  destruct Hshape as (Hs1 & Hs2 & Hs3).
  destruct (msg_apply_reaction_row m (ag_emoji a) (ag_count a) (ag_op a) (ag_me a)) as [Hk' Hr']; try done.
  { intros Hno E. specialize (Hroom Hno). destruct (grown_ok _ Hc ltac:(lia)). lia. }
  assert (Hagg : ∀ k, agg (as_ ++ [a]) k = if decide (k = ag_emoji a)
    then said_reaction (ag_count a) (ag_op a) (ag_me a) (agg as_ (ag_emoji a)) (ag_emoji a) else agg as_ k).
  { intros k. unfold agg. by rewrite foldl_app. }
  constructor; [done..| |].
  - intros k. unfold react. rewrite Hr', Hagg, !Hr. done.
  - intros k Hs. rewrite Hagg in Hs. rewrite fmap_app, elem_of_app. destruct (decide (k = ag_emoji a)) as [->|Hk0].
    + right. by apply list_elem_of_singleton.
    + left. by apply Hfrom.
Qed.

(** The reactions of a message are a map of the emoji.  After any aggregates on a new message
    that name at most 128 different emoji, each emoji shows what the last aggregate that named
    it said -- the count, and this user's own mark, which only their own aggregate moves --
    and nothing once that count was 0; the array is never outgrown. *)
Theorem reactions_aggregate (m : oc_msg) (as_ : list aggregate) :
  mg_reactions m = [] → mg_cap_reactions m = 0 → mg_freed m = false →
  Forall aggregate_ok as_ → zlen (remove_dups (ag_emoji <$> as_)) <= 128 →
  let m' := foldl react m as_ in
  mg_freed m' = false ∧ zlen (mg_reactions m') <= mg_cap_reactions m' <= 128 ∧
  ∀ emoji, row re_emoji emoji (mg_reactions m') = agg as_ emoji.
Proof.
  intros E1 E2 E3 Ha Hn. cut (reactions_ok as_ (foldl react m as_)).
  { intros [_ Hc Hl Hf Hr _]. split_and!; [done..|unfold cap_ok in Hc; lia|done]. }
  revert Ha Hn. induction as_ as [|a as_ IH] using rev_ind; intros Ha.
  - constructor; simpl; rewrite ?E1, ?E2; [apply NoDup_nil_2|by left|done|done|done|by intros k []].
  - intros Hn. rewrite foldl_app. simpl. apply Forall_app in Ha as [Has Ha]. inversion_clear Ha.
    apply react_ok; [|done..]. apply IH; [done|].
    enough (zlen (remove_dups (ag_emoji <$> as_)) <= zlen (remove_dups (ag_emoji <$> as_ ++ [a]))) by lia.
    unfold zlen. apply inj_le, submseteq_length, NoDup_submseteq; [apply NoDup_remove_dups|].
    intros t. rewrite !elem_of_remove_dups, fmap_app, elem_of_app. by left.
Qed.

Definition ex_msg : oc_msg := new_msg (Some [104; 105]) [] 2 10 0 0 false.
Lemma reactions_aggregate_witness :
  row re_emoji [128077] (mg_reactions (foldl react ex_msg
    [mk_aggregate [128077] 1 1 true; mk_aggregate [10084] 1 1 false; mk_aggregate [128077] 3 1 false;
     mk_aggregate [10084] 0 0 false])) = Some (mk_reaction [128077] 3 true).
Proof.
  destruct (reactions_aggregate ex_msg
    [mk_aggregate [128077] 1 1 true; mk_aggregate [10084] 1 1 false; mk_aggregate [128077] 3 1 false;
     mk_aggregate [10084] 0 0 false]) as (_ & _ & H); [done|done|done| |vm_compute; done|].
  - repeat constructor; try done; vm_compute; reflexivity.
  - rewrite H. vm_compute. reflexivity.
Defined.

(** The 129th different emoji on one message frees the reactions it still shows.  The capacity
    is a byte that doubles from 4, so at 128 rows it becomes 0 and [realloc] is asked for no
    bytes: the array is released while the message keeps its pointer and its 128 rows. *)
Theorem reactions_overflow :
  let m := foldl react ex_msg ((fun i => mk_aggregate [Z.of_nat i] 1 1 false) <$> seq 1 129) in
  mg_freed m = true ∧ zlen (mg_reactions m) = 128.
Proof. split; by vm_compute. Qed.

Lemma msg_apply_reaction_ok m emoji count op is_me :
  msg_ok m → zlen emoji < 40 → msg_ok (msg_apply_reaction m emoji count op is_me).
Proof.
  intros [Ha Hd Hu Hat Hr] Hlen.
  assert (Hwith : ∀ l cap fr, keys_ok re_emoji l →
    msg_ok (m <| mg_freed := fr |> <| mg_cap_reactions := cap |> <| mg_reactions := l |>)).
  { intros l cap fr Hl. constructor; simpl; try done. intros Hp. destruct (Ha Hp). by constructor. }
  assert (Hsame : msg_ok m) by by constructor.
  unfold msg_apply_reaction. destruct emoji as [|e0 es]; [done|]. set (emoji := e0 :: es) in *. rewrite is_emoji_key.
  pose proof (keys_ok_remove re_emoji emoji _ Hr) as Hk1. unfold remove_row in Hk1.
  destruct (index_of (has_key re_emoji emoji) (mg_reactions m)) as [i|] eqn:Ei; destruct (count =? 0); try done.
  - by apply (Hwith _ (mg_cap_reactions m) (mg_freed m)).
  - apply (Hwith _ (mg_cap_reactions m) (mg_freed m)). unfold keys_ok. by rewrite upd_first_keys.
  - apply index_of_row in Ei. cbv zeta. set (cap := if zlen (mg_reactions m) =? _ then _ else _).
    destruct (cap =? 0); [by apply (Hwith _ (mg_cap_reactions m) true)|].
    rewrite fit_id by done. set (x := set_reaction count op is_me (mk_reaction emoji 0 false)).
    rewrite <- (upsert_None re_emoji emoji (fun _ => x) x) by done.
    apply (Hwith _ cap (mg_freed m)). by apply keys_ok_upsert.
Qed.

(** The folds keep the message's id. *)
Lemma msg_set_action_id m e : mg_id (msg_set_action m e) = mg_id m.
Proof. unfold msg_set_action. by repeat case_match. Qed.
Lemma msg_apply_reaction_id m emoji count op me : mg_id (msg_apply_reaction m emoji count op me) = mg_id m.
Proof. unfold msg_apply_reaction. by repeat case_match. Qed.
Lemma msg_add_attach_id m a : mg_id (msg_add_attach m a) = mg_id m.
Proof. unfold msg_add_attach. by repeat case_match. Qed.
Lemma msg_set_poll_id m p : mg_id (msg_set_poll m p) = mg_id m.
Proof. unfold msg_set_poll. by repeat case_match. Qed.
Lemma msg_set_forward_id m f : mg_id (msg_set_forward m f) = mg_id m.
Proof. unfold msg_set_forward. by case_match. Qed.
Lemma msg_set_unfurl_id m u : mg_id (msg_set_unfurl m u) = mg_id m.
Proof. unfold msg_set_unfurl. by repeat case_match. Qed.
Lemma msg_edit_id m b e : mg_id (msg_edit m b e) = mg_id m.
Proof. unfold msg_edit. by rewrite msg_set_action_id. Qed.
Lemma msg_restore_id m b e s : mg_id (msg_restore m b e s) = mg_id m.
Proof. unfold msg_restore. simpl. rewrite msg_set_action_id. unfold msg_untombstone. by case_match. Qed.
Create HintDb client.
#[export] Hint Resolve msg_set_action_id msg_apply_reaction_id msg_add_attach_id msg_set_poll_id
  msg_set_forward_id msg_set_unfurl_id msg_edit_id msg_restore_id : client.

Lemma msg_edit_ok m b e : msg_ok m → ev_action_ok e → msg_ok (msg_edit m b e).
Proof.
  intros [Ha Hd Hu Hat Hr] He. apply msg_set_action_ok; [|done]. constructor; simpl; try done.
  - intros Hp. destruct (Ha Hp) as [Hl _]. by constructor.
  - intros Hdel. split; [by apply Hd|done].
  - split; [done|apply NoDup_nil_2].
Qed.
Lemma msg_restore_ok m b e s : msg_ok m → ev_action_ok e → msg_ok (msg_restore m b e s).
Proof.
  intros H He. apply (msg_ok_same (msg_set_action (msg_untombstone m b) e)); [|done..].
  apply msg_set_action_ok; [|done]. by apply msg_untombstone_ok.
Qed.
#[export] Hint Resolve msg_edit_ok msg_restore_ok msg_set_action_ok msg_tombstone_ok msg_add_attach_ok
  msg_set_unfurl_ok msg_set_poll_ok msg_set_forward_ok msg_apply_reaction_ok new_msg_ok : client.
