(* ===== verification/ClientLists.v ===== *)
(** * The lists of the client's model: [client/core/model.c]

    What the model keeps besides messages: presence, typing marks, read cursors,
    transfers, synced settings, and the lists the daemon resends whole: drafts and
    scheduled messages after every sign-in, threads when their view is opened.  Each is the array of the
    model as a list; the generation counters are the model's fields of the same
    name.  Allocations are taken to succeed. *)
From S2P Require Import Prelude.
From S2P Require Import Rows.
From stdpp Require Import base tactics list numbers.
Local Open Scope Z_scope.
Local Open Scope oc_scope.

Definition OC_TYPING_TIMEOUT : Z := 6.
Definition OC_MODEL_XFERS : Z := 32.
Definition OC_PRESENCE_OFFLINE : Z := 0.
Definition OC_SCHED_PENDING : Z := 0.
Definition OC_SCHED_SENT : Z := 1.
Definition OC_SCHED_FAILED : Z := 2.
Definition OC_SCHED_GONE : Z := 3.

(** ** Presence *)

Record oc_presence_row := mk_presence { pr_user_id : Z; pr_status : Z; pr_dnd : bool }.
Definition presence_set (l : list oc_presence_row) (user_id status : Z) (dnd : bool) : list oc_presence_row :=
  upsert (has_key pr_user_id user_id) (fun r => mk_presence (pr_user_id r) status dnd)
    (mk_presence user_id status dnd) l.
Definition oc_model_dnd_of (l : list oc_presence_row) (user_id : Z) : bool :=
  match row pr_user_id user_id l with Some r => pr_dnd r | None => false end.
Definition oc_model_note_presence (l : list oc_presence_row) (user_id status : Z) : list oc_presence_row :=
  presence_set l user_id status (oc_model_dnd_of l user_id).
Definition oc_model_presence_of (authed : bool) (l : list oc_presence_row) (user_id : Z) : Z :=
  if negb authed then OC_PRESENCE_OFFLINE
  else match row pr_user_id user_id l with Some r => pr_status r | None => OC_PRESENCE_OFFLINE end.

(** ** Typing marks; [now] is [time(NULL)] *)

Record oc_typing_row := mk_typing { ty_channel_id : Z; ty_user_id : Z; ty_seen : Z }.
Definition expired (now : Z) (r : oc_typing_row) : bool := OC_TYPING_TIMEOUT <? now - ty_seen r.
Definition is_mark (channel_id user_id : Z) (r : oc_typing_row) : bool :=
  (ty_channel_id r =? channel_id) && (ty_user_id r =? user_id).
(** The row found is the last one that matches. *)
Definition upd_last {A} (p : A → bool) (f : A → A) (l : list A) : list A :=
  reverse (upd_first p f (reverse l)).
Definition typing_touch (now : Z) (l : list oc_typing_row) (channel_id user_id : Z) : list oc_typing_row :=
  let l := List.filter (fun r => negb (expired now r)) l in
  if existsb (is_mark channel_id user_id) l
  then upd_last (is_mark channel_id user_id) (fun r => mk_typing (ty_channel_id r) (ty_user_id r) now) l
  else l ++ [mk_typing channel_id user_id now].
Definition oc_model_typing (now : Z) (l : list oc_typing_row) (channel_id exclude cap : Z) : list Z :=
  ztake cap (ty_user_id <$> List.filter (fun r =>
    (ty_channel_id r =? channel_id) && negb (ty_user_id r =? exclude) && negb (expired now r)) l).

(** ** Read cursors of a channel *)

Record oc_read_cursor := mk_cursor { rc_user_id : Z; rc_message_id : Z }.
Definition reader_advance (l : list oc_read_cursor) (user_id message_id : Z) : list oc_read_cursor :=
  upsert (has_key rc_user_id user_id)
    (fun r => if rc_message_id r <? message_id then mk_cursor (rc_user_id r) message_id else r)
    (mk_cursor user_id message_id) l.

(** ** Transfers: the slots in use, in the order of their first notice *)

Record oc_xfer_state := mk_xfer { xf_tag : Z; xf_done : Z; xf_total : Z; xf_phase : Z; xf_file : Z }.
Definition running (x : oc_xfer_state) : bool := xf_phase x =? 0.
(** The slot a full table gives up: the first finished one, else the first. *)
Definition gone_slot (l : list oc_xfer_state) : nat :=
  match index_of (fun x => negb (running x)) l with Some i => i | None => O end.
Definition note_xfer (l : list oc_xfer_state) (x : oc_xfer_state) : list oc_xfer_state :=
  if xf_tag x =? 0 then l
  else if existsb (has_key xf_tag (xf_tag x)) l then upd_first (has_key xf_tag (xf_tag x)) (fun _ => x) l
  else if zlen l =? OC_MODEL_XFERS then delete (gone_slot l) l ++ [x]
  else l ++ [x].
Definition oc_model_xfer (l : list oc_xfer_state) (tag : Z) : option oc_xfer_state :=
  if tag =? 0 then None else row xf_tag tag l.

(** ** Synced settings *)

Record oc_setting := mk_setting { st_key : list Z; st_value : list Z }.
Definition setting_upsert (l : list oc_setting) (key value : list Z) : list oc_setting :=
  match key with
  | [] => l
  | _ => upsert (has_key st_key key) (fun s => mk_setting (st_key s) (fit 513 value))
           (mk_setting (fit 65 key) (fit 513 value)) l
  end.
Definition oc_model_setting (l : list oc_setting) (key : list Z) : option (list Z) :=
  st_value <$> row st_key key l.

(** ** Drafts *)

Record oc_draft_view := mk_draft {
  dr_channel_id : Z;
  dr_thread_root : Z;
  dr_updated_ms : Z;
  dr_body : list Z;
  dr_recipients : option (list Z);
  dr_gen : Z }.
Definition draft_key (d : oc_draft_view) : Z * Z := (dr_channel_id d, dr_thread_root d).
Definition draft_find (l : list oc_draft_view) (cid root : Z) : option oc_draft_view := row draft_key (cid, root) l.
(** [recipients] not stated keep the ones held. *)
Definition draft_store (gen updated_ms : Z) (body : list Z) (recipients : option (list Z))
    (d : oc_draft_view) : oc_draft_view :=
  mk_draft (dr_channel_id d) (dr_thread_root d) updated_ms body
    (match recipients with Some r => Some r | None => dr_recipients d end) gen.
Definition draft_apply (gen : Z) (l : list oc_draft_view) (cid root updated_ms : Z)
    (body : option (list Z)) (recipients : option (list Z)) : list oc_draft_view :=
  match body with
  | None | Some [] => remove_row (has_key draft_key (cid, root)) l
  | Some b =>
      let f := draft_store gen updated_ms b recipients in
      upsert (has_key draft_key (cid, root)) f (f (mk_draft cid root 0 [] None 0)) l
  end.
Definition oc_model_has_draft (l : list oc_draft_view) (cid : Z) : bool :=
  existsb (fun d => dr_channel_id d =? cid) l.
(** [OC_EV_DRAFTS_END] *)
Definition drafts_end (gen : Z) (l : list oc_draft_view) : list oc_draft_view :=
  sweep (fun d => dr_gen d =? gen) l.
Definition oc_model_draft_local (gen : Z) (l : list oc_draft_view) (cid root : Z) (body : option (list Z)) :=
  draft_apply gen l cid root 0 body None.
Definition oc_model_draft_local_to (gen : Z) (l : list oc_draft_view) (recipients body : option (list Z)) :=
  draft_apply gen l 0 0 0 body (Some (default [] recipients)).
Definition oc_model_draft_recipients (l : list oc_draft_view) : option (list Z) :=
  match draft_find l 0 0 with Some d => dr_recipients d | None => None end.

(** ** Scheduled messages *)

Record oc_sched_view := mk_sched {
  sc_id : Z;
  sc_channel_id : Z;
  sc_send_at_ms : Z;
  sc_state : Z;
  sc_body : list Z;
  sc_fail : list Z;
  sc_gen : Z }.
Definition sched_apply (gen : Z) (l : list oc_sched_view) (id cid at_ms state : Z)
    (body fail : option (list Z)) : list oc_sched_view :=
  if (state =? OC_SCHED_GONE) || (state =? OC_SCHED_SENT) then remove_row (has_key sc_id id) l
  else
    let d := mk_sched id cid at_ms state (default [] body) (fit 96 (default [] fail)) gen in
    upsert (has_key sc_id id) (fun _ => d) d l.
Definition scheduled_end (gen : Z) (l : list oc_sched_view) : list oc_sched_view :=
  sweep (fun d => sc_gen d =? gen) l.
Definition oc_model_scheduled_pending (l : list oc_sched_view) : nat := countb (fun d => sc_state d =? OC_SCHED_PENDING) l.
Definition oc_model_scheduled_failed (l : list oc_sched_view) : nat := countb (fun d => sc_state d =? OC_SCHED_FAILED) l.

(** ** Threads this user is in *)

Record oc_thread_view := mk_thread {
  th_root_id : Z;
  th_channel_id : Z;
  th_root_author : Z;
  th_root_at : Z;
  th_last_reply_at : Z;
  th_reply_count : Z;
  th_unread : Z;
  th_following : bool;
  th_preview : option (list Z);
  th_action : bool;
  th_gen : Z }.
#[export] Instance thread_eta : Eta oc_thread_view := fun r =>
  mk_thread (th_root_id r) (th_channel_id r) (th_root_author r) (th_root_at r) (th_last_reply_at r)
    (th_reply_count r) (th_unread r) (th_following r) (th_preview r) (th_action r) (th_gen r).
Definition oc_model_thread_unread (l : list oc_thread_view) : Z :=
  foldl (fun n t => u32 (n + th_unread t)) 0 l.

(** ** Lists the daemon resends

    Drafts and scheduled messages are kept in step the same way: a sign-in starts a
    generation of each, every entry that is applied carries it, and the end of the
    daemon's list sweeps what does not.  [Synced] states what one entry does to such
    a table. *)

Class Synced (A E K V : Type) `{EqDecision K} := {
  sy_key : A → K;
  sy_gen : A → Z;
  sy_val : A → V;
  sy_apply : Z → list A → E → list A;
  sy_ekey : E → K;
  (** what the entry says of its key: [None] that there is none *)
  sy_said : E → option V;
  sy_keys g l e : keys_ok sy_key l → keys_ok sy_key (sy_apply g l e);
  sy_other g l e k : keys_ok sy_key l → k ≠ sy_ekey e → row sy_key k (sy_apply g l e) = row sy_key k l;
  sy_hit g l e : keys_ok sy_key l →
    match sy_said e with
    | None => row sy_key (sy_ekey e) (sy_apply g l e) = None
    | Some v => ∃ d, row sy_key (sy_ekey e) (sy_apply g l e) = Some d ∧ sy_val d = v ∧ sy_gen d = g
    end }.

Section Synced.
Context {A E K V : Type} `{EqDecision K} `{!Synced A E K V}.


Lemma sweep_elem (keep : A → bool) (l : list A) d : d ∈ sweep keep l → d ∈ l ∧ keep d = true.
Proof. rewrite sweep_perm, list_elem_of_In, filter_In, <- list_elem_of_In. done. Qed.





End Synced.

(** *** The two tables *)

Record ev_draft := mk_ev_draft {
  ed_channel_id : Z; ed_thread_root : Z; ed_updated_ms : Z; ed_body : option (list Z); ed_recipients : option (list Z) }.
Definition draft_said (e : ev_draft) : option (Z * list Z) :=
  match ed_body e with None | Some [] => None | Some b => Some (ed_updated_ms e, b) end.
#[export] Program Instance drafts_synced : Synced oc_draft_view ev_draft (Z * Z) (Z * list Z) := {|
  sy_key := draft_key; sy_gen := dr_gen; sy_val d := (dr_updated_ms d, dr_body d);
  sy_apply g l e := draft_apply g l (ed_channel_id e) (ed_thread_root e) (ed_updated_ms e) (ed_body e) (ed_recipients e);
  sy_ekey e := (ed_channel_id e, ed_thread_root e); sy_said := draft_said |}.
Next Obligation.
  intros g l e Hk. unfold draft_apply. repeat case_match; try by apply keys_ok_remove.
  apply keys_ok_upsert; [by intros ?|done|done].
Qed.
Next Obligation.
  intros g l e k Hk Hne. unfold draft_apply.
  repeat case_match; rewrite ?row_remove, ?row_upsert by (done || by intros ?); by rewrite decide_False by done.
Qed.
Next Obligation.
  intros g l e Hk. unfold draft_said, draft_apply.
  repeat case_match; simplify_eq; rewrite ?row_remove, ?row_upsert by (done || by intros ?); rewrite ?decide_True by done; try done.
  eexists. split; [done|]. by case_match.
Qed.

Record ev_sched := mk_ev_sched {
  es_id : Z; es_channel_id : Z; es_send_at_ms : Z; es_state : Z; es_body : option (list Z); es_fail : option (list Z) }.
Definition sched_said (e : ev_sched) : option (Z * Z * Z * list Z * list Z) :=
  if (es_state e =? OC_SCHED_GONE) || (es_state e =? OC_SCHED_SENT) then None
  else Some (es_channel_id e, es_send_at_ms e, es_state e, default [] (es_body e), fit 96 (default [] (es_fail e))).
#[export] Program Instance scheds_synced : Synced oc_sched_view ev_sched Z (Z * Z * Z * list Z * list Z) := {|
  sy_key := sc_id; sy_gen := sc_gen; sy_val d := (sc_channel_id d, sc_send_at_ms d, sc_state d, sc_body d, sc_fail d);
  sy_apply g l e := sched_apply g l (es_id e) (es_channel_id e) (es_send_at_ms e) (es_state e) (es_body e) (es_fail e);
  sy_ekey := es_id; sy_said := sched_said |}.
Next Obligation.
  intros g l e Hk. unfold sched_apply. case_match; [by apply keys_ok_remove|by apply keys_ok_upsert].
Qed.
Next Obligation.
  intros g l e k Hk Hne. unfold sched_apply.
  case_match; rewrite ?row_remove, ?row_upsert by done; by rewrite decide_False by done.
Qed.
Next Obligation.
  intros g l e Hk. unfold sched_said, sched_apply.
  destruct (_ || _); rewrite ?row_remove, ?row_upsert by done; rewrite ?decide_True by done; [done|].
  eexists. split; [done|]. by case_match.
Qed.



(** ** Threads

    Opening the view of threads starts their generation; live replies raise the
    unread count of a thread that is listed. *)






(** ** Transfers *)

(** The last notice given for a tag. *)
Definition latest (xs : list oc_xfer_state) (tag : Z) : option oc_xfer_state :=
  foldl (fun a x => if xf_tag x =? tag then Some x else a) None xs.

Record xfers_ok (xs l : list oc_xfer_state) : Prop := {
  xo_len : zlen l <= OC_MODEL_XFERS;
  xo_keys : keys_ok xf_tag l;
  xo_nonzero : ∀ x, x ∈ l → xf_tag x ≠ 0;
  xo_latest : ∀ x, x ∈ l → latest xs (xf_tag x) = Some x }.

Lemma latest_snoc xs x tag : latest (xs ++ [x]) tag = if xf_tag x =? tag then Some x else latest xs tag.
Proof. unfold latest. by rewrite foldl_app. Qed.

Lemma keys_ok_snoc l x : keys_ok xf_tag l → row xf_tag (xf_tag x) l = None → keys_ok xf_tag (l ++ [x]).
Proof.
  intros Hk Hr. unfold keys_ok in *. rewrite fmap_app. change (xf_tag <$> [x]) with [xf_tag x].
  apply list.NoDup_app. split_and!; [done| |apply NoDup_singleton].
  intros y Hy ->%list_elem_of_singleton. by apply row_None in Hr.
Qed.
Lemma keys_ok_delete i l : keys_ok xf_tag l → keys_ok xf_tag (delete i l).
Proof. unfold keys_ok. rewrite list_fmap_delete. intros H. eapply sublist_NoDup; [exact H|apply sublist_delete]. Qed.

Lemma xfers_ok_add xs l x :
  xfers_ok xs l → xf_tag x ≠ 0 → row xf_tag (xf_tag x) l = None → zlen l < OC_MODEL_XFERS →
  xfers_ok (xs ++ [x]) (l ++ [x]).
Proof.
  intros [Hl Hk Hz Ht] Hx Hr Hlt. constructor.
  - rewrite zlen_app, zlen_cons, zlen_nil. lia.
  - by apply keys_ok_snoc.
  - intros y [Hy|Hy%list_elem_of_singleton]%elem_of_app; [by apply Hz|by subst].
  - intros y [Hy|Hy%list_elem_of_singleton]%elem_of_app; rewrite latest_snoc.
    + rewrite (proj2 (Z.eqb_neq (xf_tag x) (xf_tag y))); [by apply Ht|]. intros E.
      apply row_None in Hr as []. rewrite E. by apply list_elem_of_fmap_2.
    + subst. by rewrite Z.eqb_refl.
Qed.
Lemma xfers_ok_delete xs l i : xfers_ok xs l → xfers_ok xs (delete i l).
Proof.
  intros [Hl Hk Hz Ht].
  assert (Hin : ∀ y, y ∈ delete i l → y ∈ l) by (intros y; apply list_subseteq_delete).
  constructor; [|by apply keys_ok_delete|eauto..].
  pose proof (sublist_length _ _ (sublist_delete l i)). unfold zlen in *. lia.
Qed.

Lemma gone_slot_lt l : 0 < zlen l → (gone_slot l < length l)%nat.
Proof.
  intros H. unfold gone_slot. destruct (index_of _ l) as [i|] eqn:E.
  - apply index_of_Some in E as (x & Hx & _). by eapply lookup_lt_Some.
  - unfold zlen in H. lia.
Qed.
Lemma zlen_delete {A} i (l : list A) : (i < length l)%nat → zlen (delete i l) = zlen l - 1.
Proof. intros H. unfold zlen. destruct (lookup_lt_is_Some_2 l i H). rewrite length_delete by eauto. lia. Qed.

Lemma note_xfer_ok xs l x : xfers_ok xs l → xfers_ok (if xf_tag x =? 0 then xs else xs ++ [x]) (note_xfer l x).
Proof.
  intros H. unfold note_xfer. destruct (Z.eqb_spec (xf_tag x) 0) as [Hz|Hz]; [done|].
  rewrite existsb_row. case_bool_decide as Er.
  - destruct H as [Hl Hk Hnz Ht]. constructor.
    + unfold zlen in *. by rewrite upd_first_length.
    + unfold keys_ok. by rewrite upd_first_keys.
    + intros y [Hy|(z & _ & ->)]%upd_first_elem; [by apply Hnz|done].
    + intros y Hy. rewrite latest_snoc. destruct (Z.eqb_spec (xf_tag x) (xf_tag y)) as [E|E].
      * assert (Hr : row xf_tag (xf_tag y) (upd_first (has_key xf_tag (xf_tag x)) (fun _ => x) l) = Some y).
        { apply row_unique; [|done..]. unfold keys_ok. by rewrite upd_first_keys. }
        rewrite row_upd_first, decide_True in Hr by done. by destruct (row _ _ l); simplify_eq/=.
      * apply upd_first_elem in Hy as [Hy|(z & _ & ->)]; [by apply Ht|done].
  - assert (row xf_tag (xf_tag x) l = None) as Hr by (destruct (row _ _ _); naive_solver).
    destruct (Z.eqb_spec (zlen l) OC_MODEL_XFERS) as [Hf|Hf].
    + apply xfers_ok_add; [by apply xfers_ok_delete|done| |].
      * apply row_None in Hr. apply row_None. intros Hin. apply Hr.
        apply list_elem_of_fmap in Hin as (y & -> & Hy). apply list_elem_of_fmap_2.
        by eapply list_subseteq_delete.
      * rewrite zlen_delete; [lia|]. apply gone_slot_lt. unfold OC_MODEL_XFERS in *. lia.
    + apply xfers_ok_add; [done..|]. destruct H as [Hl _ _ _]. lia.
Qed.

Lemma xfers_run_ok xs : xfers_ok (List.filter (fun x => negb (xf_tag x =? 0)) xs) (foldl note_xfer [] xs).
Proof.
  induction xs as [|x xs IH] using rev_ind.
  - constructor; [done|apply NoDup_nil_2|by intros ? ?%not_elem_of_nil..].
  - rewrite foldl_app, filter_app. simpl. apply (note_xfer_ok _ _ x) in IH.
    destruct (xf_tag x =? 0); simpl; [by rewrite app_nil_r|done].
Qed.

Lemma latest_nonzero xs tag : tag ≠ 0 → latest (List.filter (fun x => negb (xf_tag x =? 0)) xs) tag = latest xs tag.
Proof.
  intros Ht. induction xs as [|x xs IH] using rev_ind; [done|]. rewrite filter_app, latest_snoc. simpl.
  destruct (Z.eqb_spec (xf_tag x) 0) as [E|E]; simpl.
  - rewrite app_nil_r, IH, E. by rewrite (proj2 (Z.eqb_neq 0 tag)) by done.
  - by rewrite latest_snoc, IH.
Qed.
Lemma latest_None xs tag : latest xs tag = None ↔ tag ∉ xf_tag <$> xs.
Proof.
  induction xs as [|x xs IH] using rev_ind; [split; [intros _; apply not_elem_of_nil|done]|].
  rewrite latest_snoc, fmap_app, elem_of_app. change (xf_tag <$> [x]) with [xf_tag x]. rewrite list_elem_of_singleton.
  destruct (Z.eqb_spec (xf_tag x) tag) as [E|E]; [naive_solver|]. rewrite IH. naive_solver.
Qed.

Lemma distinct_snoc (xs : list oc_xfer_state) x :
  zlen (remove_dups (xf_tag <$> xs)) <= zlen (remove_dups (xf_tag <$> xs ++ [x])).
Proof.
  unfold zlen. apply inj_le. apply submseteq_length, NoDup_submseteq; [apply NoDup_remove_dups|].
  intros t. rewrite !elem_of_remove_dups, fmap_app, elem_of_app. by left.
Qed.

(** A table that was offered at most 32 transfers holds them all. *)
Lemma xfers_complete xs :
  zlen (remove_dups (xf_tag <$> xs)) <= OC_MODEL_XFERS →
  ∀ t, t ≠ 0 → t ∈ xf_tag <$> xs → t ∈ xf_tag <$> foldl note_xfer [] xs.
Proof.
  induction xs as [|x xs IH] using rev_ind; intros Hn t Ht Hin; [done|].
  pose proof (distinct_snoc xs x). specialize (IH ltac:(lia)). pose proof (xfers_run_ok xs) as [Hl Hk Hz Hla].
  rewrite foldl_app. cbn [foldl]. set (l := foldl note_xfer [] xs) in *.
  rewrite fmap_app, elem_of_app in Hin. change (xf_tag <$> [x]) with [xf_tag x] in Hin. rewrite list_elem_of_singleton in Hin.
  unfold note_xfer. destruct (Z.eqb_spec (xf_tag x) 0) as [E|E]; [apply IH; naive_solver|].
  rewrite existsb_row. case_bool_decide as Er.
  { rewrite upd_first_keys by done. destruct Hin as [Hin| ->]; [by apply IH|].
    destruct Er as [y Hy]. apply row_Some in Hy as [Hy <-]. by apply list_elem_of_fmap_2. }
  assert (row xf_tag (xf_tag x) l = None) as Hr by (destruct (row _ _ _); naive_solver).
  assert (zlen l ≠ OC_MODEL_XFERS) as Hlt.
  { intros Hf. apply row_None in Hr.
    assert (Hs : xf_tag x :: (xf_tag <$> l) ⊆+ remove_dups (xf_tag <$> xs ++ [x])).
    { apply NoDup_submseteq; [by apply list.NoDup_cons|]. intros u. rewrite elem_of_cons, elem_of_remove_dups, fmap_app, elem_of_app.
      intros [->|Hu]; [right; by apply list_elem_of_singleton|left].
      apply list_elem_of_fmap in Hu as (y & -> & Hy). pose proof (Hla y Hy) as Hly.
      destruct (decide (xf_tag y ∈ xf_tag <$> xs)) as [|Hno]; [done|].
      apply latest_None in Hno. rewrite <- latest_nonzero in Hno by (by apply Hz). congruence. }
    apply submseteq_length in Hs. simpl in Hs. rewrite length_fmap in Hs. unfold zlen in *. lia. }
  rewrite (proj2 (Z.eqb_neq _ _) Hlt), fmap_app, elem_of_app. destruct Hin as [Hin| ->]; [left; by apply IH|].
  right. by apply list_elem_of_singleton.
Qed.

(** The transfer table keeps the newest notice of each transfer it holds.  After any notices
    it has at most 32 slots with distinct tags; a tag found carries its last notice; the
    transfer noticed last is always found; and while at most 32 transfers have been noticed,
    every one of them is found. *)
Theorem xfers_latest (xs : list oc_xfer_state) (x : oc_xfer_state) :
  let l := foldl note_xfer [] xs in
  zlen l <= OC_MODEL_XFERS ∧
  (∀ tag y, oc_model_xfer l tag = Some y → latest xs tag = Some y ∧ xf_tag y = tag) ∧
  (xf_tag x ≠ 0 → oc_model_xfer (note_xfer l x) (xf_tag x) = Some x) ∧
  (∀ tag, tag ≠ 0 → zlen (remove_dups (xf_tag <$> xs)) <= OC_MODEL_XFERS →
          oc_model_xfer l tag = latest xs tag).
Proof.
  intros l. pose proof (xfers_run_ok xs) as Hok. fold l in Hok.
  assert (Hfound : ∀ tag y, oc_model_xfer l tag = Some y → latest xs tag = Some y ∧ xf_tag y = tag).
  { intros tag y Hy. unfold oc_model_xfer in Hy. destruct (Z.eqb_spec tag 0) as [|Hz]; [done|].
    apply row_Some in Hy as [Hin Ht]. split; [|done]. rewrite <- latest_nonzero by done. subst tag.
    by apply Hok. }
  split_and!; [apply Hok|done| |].
  - intros Hx. pose proof (note_xfer_ok _ _ x Hok) as Hok'. unfold oc_model_xfer.
    rewrite (proj2 (Z.eqb_neq _ _) Hx) in *.
    assert (Hin : x ∈ note_xfer l x).
    { unfold note_xfer. rewrite (proj2 (Z.eqb_neq _ _) Hx), existsb_row. case_bool_decide as Er.
      - destruct Er as [y Hy]. assert (Hr : row xf_tag (xf_tag x) (upd_first (has_key xf_tag (xf_tag x)) (fun _ => x) l) = Some x)
          by (by rewrite row_upd_first, decide_True, Hy by done).
        by apply row_Some in Hr as [Hr _].
      - case_match; apply elem_of_app; right; by apply list_elem_of_singleton. }
    apply row_unique; [apply Hok'|done|done].
  - intros tag Ht Hn. destruct (latest xs tag) as [y|] eqn:El.
    + assert (Hin : tag ∈ xf_tag <$> xs).
      { destruct (decide (tag ∈ xf_tag <$> xs)) as [|Hno]; [done|]. apply latest_None in Hno. congruence. }
      apply (xfers_complete xs Hn tag Ht), list_elem_of_fmap in Hin as (z & Hz & Hin). fold l in Hin.
      assert (Hr : oc_model_xfer l tag = Some z).
      { unfold oc_model_xfer. rewrite (proj2 (Z.eqb_neq _ _) Ht). apply row_unique; [apply Hok|done|done]. }
      destruct (Hfound _ _ Hr). congruence.
    + destruct (oc_model_xfer l tag) as [z|] eqn:Er; [|done]. destruct (Hfound _ _ Er). congruence.
Qed.

Lemma xfers_latest_witness :
  oc_model_xfer (foldl note_xfer [] [mk_xfer 5 1 9 0 0; mk_xfer 6 2 2 1 0; mk_xfer 5 3 9 0 0]) 5 = Some (mk_xfer 5 3 9 0 0).
Proof.
  apply (proj2 (proj2 (proj2 (xfers_latest [mk_xfer 5 1 9 0 0; mk_xfer 6 2 2 1 0; mk_xfer 5 3 9 0 0] (mk_xfer 5 3 9 0 0))))
    5); [done|vm_compute; done].
Defined.
