(* ===== verification/ClientModel.v ===== *)
(** * Conversations in the client's model: [client/core/model.c]

    The state a client keeps of its conversations and the reducers that fold the
    daemon's events into it.  [oc_model] has the fields these reducers read and
    write; an [oc_ev] is the tag with the fields its reducer reads, named as in the
    struct.  [oc_rt_flatten_at] is the flattening of rich text at the reader's clock
    (the wall clock and the time zone), a parameter here.  Allocations are taken to
    succeed, and the ownership of heap strings is not tracked. *)
From S2P Require Import Prelude.
From S2P Require Import Rows.
From S2P Require Import Mention.
From S2P Require Import Notify.
From S2P Require Import ClientMsg.
From S2P Require Import ClientLists.
From stdpp Require Import base tactics list numbers sorting.
Local Open Scope Z_scope.
Local Open Scope oc_scope.

Definition OC_CHANNEL_KIND_DM : Z := 1.
Definition OC_MSG_KIND_MESSAGE : Z := 0.
Definition OC_MEDIA_VIDEO_MESSAGE : Z := 1.
Definition OC_LISTEN_QUEUE_MAX : nat := 64.
Definition OC_MAX_THREAD_NOTICES : nat := 32.
Definition OC_MENTION_MAX : nat := 32.

Record oc_channel := mk_channel {
  ch_id : Z;
  ch_name : option (list Z);
  ch_msgs : list oc_msg;
  ch_topic : option (list Z);
  ch_description : option (list Z);
  ch_description_known : bool;
  ch_archived : Z;
  ch_e2e : bool;
  ch_forgotten : bool;
  ch_info_seq : Z;
  ch_created_at : Z;
  ch_preview : list Z;
  ch_preview_author : Z;
  ch_preview_action : bool;
  ch_high_water : Z;
  ch_read_marker : Z;
  ch_unread : Z;
  ch_priority_unread : Z;
  ch_last_message_at : Z;
  ch_srv_unread : Z;
  ch_joined : Z;
  ch_kind : Z;
  ch_is_public : Z;
  ch_peer_id : Z;
  ch_peers : list Z;
  ch_notify_level : Z;
  ch_muted : bool;
  ch_readers : list oc_read_cursor;
  ch_groups : list Z }.
#[export] Instance channel_eta : Eta oc_channel := fun r =>
  mk_channel (ch_id r) (ch_name r) (ch_msgs r) (ch_topic r) (ch_description r) (ch_description_known r)
    (ch_archived r) (ch_e2e r) (ch_forgotten r) (ch_info_seq r) (ch_created_at r) (ch_preview r)
    (ch_preview_author r) (ch_preview_action r) (ch_high_water r) (ch_read_marker r) (ch_unread r)
    (ch_priority_unread r) (ch_last_message_at r) (ch_srv_unread r) (ch_joined r) (ch_kind r)
    (ch_is_public r) (ch_peer_id r) (ch_peers r) (ch_notify_level r) (ch_muted r) (ch_readers r) (ch_groups r).

(** A channel after its [memset], at the user's global level. *)
Definition new_channel (id notify_default : Z) : oc_channel :=
  mk_channel id None [] None None false 0 false false 0 0 [] 0 false 0 0 0 0 0 0 0 0 0 0 [] notify_default
    false [] [].

Record oc_thread_notice := mk_notice {
  nt_channel_id : Z;
  nt_message_id : Z;
  nt_parent_id : Z;
  nt_author_id : Z;
  nt_mentioned : bool;
  nt_keyword_hit : bool;
  nt_action : bool;
  nt_body : list Z }.

Record oc_group_view := mk_group {
  gr_id : Z;
  gr_handle : list Z;
  gr_members : list Z }.

Record oc_pinned_row := mk_pinned {
  pn_message_id : Z;
  pn_author_id : Z;
  pn_server_time : Z;
  pn_pinned_by : Z;
  pn_pinned_at : Z;
  pn_body : option (list Z);
  pn_attach_name : list Z;
  pn_action : bool }.

Record oc_saved_view := mk_saved {
  sv_message_id : Z;
  sv_channel_id : Z;
  sv_author_id : Z;
  sv_server_time : Z;
  sv_saved_at : Z;
  sv_body : option (list Z);
  sv_attach_name : list Z;
  sv_action : bool }.

(** The roster fields the reducers here read. *)
Record oc_member := mk_member { us_user_id : Z; us_label : list Z }.

Record oc_model := mk_model {
  md_user_id : Z;
  md_listen_channel : Z;
  md_listen_queue : list Z;
  md_listen_skipped : Z;
  md_channels : list oc_channel;
  md_thread_open : bool;
  md_thread_channel : Z;
  md_thread_parent : Z;
  md_thread_msgs : list oc_msg;
  md_thread_replay : bool;
  md_notices : list oc_thread_notice;
  md_threads : list oc_thread_view;
  md_users : list oc_member;
  md_ws_sender : Z;
  md_groups : list (oc_group_view * Z);
  md_groups_gen : Z;
  md_kw_terms : list (list Z);
  md_pri_people : list Z;
  md_notify_default : Z;
  md_pinlist_open : bool;
  md_pinlist_channel : Z;
  md_pinlist_loading : bool;
  md_pins : list oc_pinned_row;
  md_saved_open : bool;
  md_saved_loading : bool;
  md_saved : list oc_saved_view }.
#[export] Instance model_eta : Eta oc_model := fun r =>
  mk_model (md_user_id r) (md_listen_channel r) (md_listen_queue r) (md_listen_skipped r) (md_channels r)
    (md_thread_open r) (md_thread_channel r) (md_thread_parent r) (md_thread_msgs r) (md_thread_replay r)
    (md_notices r) (md_threads r) (md_users r) (md_ws_sender r) (md_groups r) (md_groups_gen r)
    (md_kw_terms r) (md_pri_people r) (md_notify_default r) (md_pinlist_open r) (md_pinlist_channel r)
    (md_pinlist_loading r) (md_pins r) (md_saved_open r) (md_saved_loading r) (md_saved r).
Definition oc_model_init : oc_model :=
  mk_model 0 0 [] 0 [] false 0 0 [] false [] [] [] 0 [] 0 [] [] 0 false 0 false [] false false [].

(** ** Who a message is about *)

Definition oc_model_is_workspace_sender (m : oc_model) (user_id : Z) : bool :=
  negb (user_id =? 0) && (user_id =? md_ws_sender m).
(** ["Workspace"] *)
Definition s_workspace : list Z := [87; 111; 114; 107; 115; 112; 97; 99; 101].
Definition oc_model_user_name (m : oc_model) (user_id : Z) : list Z :=
  if oc_model_is_workspace_sender m user_id then s_workspace
  else match row us_user_id user_id (md_users m) with Some u => us_label u | None => [] end.
Definition oc_model_in_group (g : oc_group_view) (user_id : Z) : bool := existsb (Z.eqb user_id) (gr_members g).

(** The mentions of a body: a broadcast counts as the daemon stored it. *)
Definition oc_model_mentions_me_in (m : oc_model) (broadcast_stored : bool) (body : list Z) : bool :=
  let me := oc_model_user_name m (md_user_id m) in
  let mine x :=
    (nonempty me && ieq (mn_name x) me) ||
    existsb (fun g => oc_model_in_group (fst g) (md_user_id m) && ieq (mn_name x) (gr_handle (fst g))) (md_groups m) in
  let mm := snd (oc_mention_scan (Some body) OC_MENTION_MAX) in
  existsb (fun x => bool_decide (mn_kind x = OC_MENTION_USER) && mine x) mm ||
  (existsb (fun x => negb (bool_decide (mn_kind x = OC_MENTION_USER))) mm && broadcast_stored).

Definition oc_model_keyword_hit (m : oc_model) (body : list Z) : bool :=
  nonempty body && existsb (fun t => match oc_keyword_match (Some body) (Some t) with Some _ => true | None => false end)
                     (md_kw_terms m).
Definition oc_model_is_priority (m : oc_model) (user_id : Z) : bool :=
  negb (user_id =? 0) && existsb (Z.eqb user_id) (md_pri_people m).

(** ** Excerpts *)

(** [strstr] *)
Fixpoint has_prefix (sub s : list Z) : bool :=
  match sub, s with
  | [], _ => true
  | a :: sub, b :: s => (a =? b) && has_prefix sub s
  | _, [] => false
  end.
Fixpoint contains (sub s : list Z) : bool :=
  has_prefix sub s || match s with [] => false | _ :: s => contains sub s end.

Section Reducers.
Context (oc_rt_flatten_at : list Z → Z → list Z).

(** A text that holds a table, a time or a spoiler is flattened; ['|'], ["<time:"],
    ["```spoiler"] and [">!"] are what tells. *)
Definition preview_set (cap : Z) (text : option (list Z)) : list Z :=
  match text with
  | None => []
  | Some t =>
      if contains [124] t || contains [60; 116; 105; 109; 101; 58] t ||
         contains [96; 96; 96; 115; 112; 111; 105; 108; 101; 114] t || contains [62; 33] t
      then oc_rt_flatten_at t cap else fit cap t
  end.

Definition oc_model_line (m : oc_model) (author_id : Z) (name : list Z) (action : bool) (text : list Z) (cap : Z) : list Z :=
  if negb action then preview_set cap (Some text) else
  let who := (if nonempty name then name else oc_model_user_name m author_id) ++ [32] in
  if zlen who <? cap then who ++ preview_set (cap - zlen who) (Some text) else fit cap who.

(** ["%u"] and ["%02u"] *)
Fixpoint digits (fuel : nat) (n : Z) (acc : list Z) : list Z :=
  match fuel with
  | O => acc
  | S fuel => let acc := (48 + n mod 10) :: acc in if n / 10 =? 0 then acc else digits fuel (n / 10) acc
  end.
Definition dec (n : Z) : list Z := digits 10 n [].
Definition dec02 (n : Z) : list Z := if n <? 10 then 48 :: dec n else dec n.
Definition oc_model_format_duration (ms cap : Z) : list Z :=
  let s := u32 (ms + 500) / 1000 in
  fit cap (if 3600 <=? s then dec (s / 3600) ++ [58] ++ dec02 ((s / 60) mod 60) ++ [58] ++ dec02 (s mod 60)
           else dec (s / 60) ++ [58] ++ dec02 (s mod 60)).

(** The camera and ["Video message ("]; the paper clip. *)
Definition s_video_message : list Z :=
  [240; 159; 142; 165; 32; 86; 105; 100; 101; 111; 32; 109; 101; 115; 115; 97; 103; 101; 32; 40].
Definition s_clip : list Z := [240; 159; 147; 142; 32].
Definition oc_model_msg_preview (m : oc_model) (msg : oc_msg) (cap : Z) : list Z :=
  match ac_present (mg_action msg), mg_body msg with
  | true, Some b =>
      oc_model_line m (mg_author_id msg)
        (if nonempty (ac_actor_name (mg_action msg)) then ac_actor_name (mg_action msg) else mg_author_name msg)
        true (zdrop (ac_start (mg_action msg)) b) cap
  | _, Some (c :: b) => preview_set cap (Some (c :: b))
  | _, _ =>
      match mg_attach msg with
      | [] => []
      | a :: _ =>
          if at_media_kind a =? OC_MEDIA_VIDEO_MESSAGE
          then fit cap (s_video_message ++ oc_model_format_duration (at_duration_ms a) 16 ++ [41])
          else fit cap (s_clip ++ at_filename a)
      end
  end.

(** The excerpt of a body that may be an action. *)
Definition action_of (act : ev_action) (body : list Z) : bool :=
  ea_known act && ea_action act && negb (ea_len act =? 0) &&
  (ea_start act <=? zlen body) && (ea_len act <=? zlen body - ea_start act).
Definition excerpt_of (act : ev_action) (body : list Z) : list Z :=
  if action_of act body then zdrop (ea_start act) body else body.

(** ** Channels *)

Definition oc_model_channel (m : oc_model) (channel_id : Z) : option oc_channel := row ch_id channel_id (md_channels m).
(** What the code does to the channel it found. *)
Definition upd_channel (channel_id : Z) (f : oc_channel → oc_channel) (m : oc_model) : oc_model :=
  m <| md_channels := upd_first (has_key ch_id channel_id) f (md_channels m) |>.
Definition channel_ensure (m : oc_model) (channel_id : Z) : oc_model :=
  if existsb (has_key ch_id channel_id) (md_channels m) then m
  else m <| md_channels := md_channels m ++ [new_channel channel_id (md_notify_default m)] |>.

(** The message of an id in the channel, and in the open thread. *)
Definition upd_msg (message_id : Z) (f : oc_msg → oc_msg) (c : oc_channel) : oc_channel :=
  c <| ch_msgs := upd_first (has_key mg_id message_id) f (ch_msgs c) |>.
Definition upd_thread_msg (message_id : Z) (f : oc_msg → oc_msg) (m : oc_model) : oc_model :=
  m <| md_thread_msgs := upd_first (has_key mg_id message_id) f (md_thread_msgs m) |>.

(** [while (at > 0 && msgs[at - 1].message_id > message_id) at--;] *)
Fixpoint insert_pos (at_ : nat) (l : list oc_msg) (message_id : Z) : nat :=
  match at_ with
  | O => O
  | S k => match l !! k with
           | Some x => if message_id <? mg_id x then insert_pos k l message_id else S k
           | None => S k
           end
  end.

(** The channel with the message, and whether one was appended. *)
Definition channel_append (c : oc_channel) (author_id : Z) (author_name : list Z)
    (message_id server_time kind : Z) (broadcast_stored : bool) (body : option (list Z)) : oc_channel * bool :=
  let older := negb (message_id =? 0) && (message_id <=? ch_high_water c) in
  if older && existsb (has_key mg_id message_id) (ch_msgs c) then (c, false) else
  let l := ch_msgs c in
  let k := if older then insert_pos (length l) l message_id else length l in
  let msg := new_msg body (fit 64 author_name) author_id message_id server_time kind broadcast_stored in
  (c <| ch_msgs := take k l ++ msg :: drop k l |>
     <| ch_high_water := if ch_high_water c <? message_id then message_id else ch_high_water c |>, true).

Definition oc_model_mark_read (m : oc_model) (channel_id : Z) : oc_model :=
  upd_channel channel_id (fun c => c <| ch_read_marker := ch_high_water c |> <| ch_unread := 0 |>
                                     <| ch_priority_unread := 0 |>) m.

(** How a message counts: whether it is about this user, and whether it would
    notify with the schedule and the pause left out. *)
Definition mentions (m : oc_model) (msg : oc_msg) : bool :=
  match mg_body msg with Some b => oc_model_mentions_me_in m (mg_broadcast_stored msg) b | None => false end.
Definition keyword (m : oc_model) (msg : oc_msg) : bool :=
  match mg_body msg with Some b => oc_model_keyword_hit m b | None => false end.
Definition own_or_workspace (m : oc_model) (author_id : Z) : bool :=
  (author_id =? md_user_id m) || oc_model_is_workspace_sender m author_id.
Definition counts (m : oc_model) (c : oc_channel) (author_id : Z) (msg : oc_msg) : bool :=
  oc_notify_decide (own_or_workspace m author_id) (ch_muted c) (oc_model_is_priority m author_id)
    (ch_notify_level c) (mentions m msg) (keyword m msg) false false false.
Definition is_priority_msg (m : oc_model) (author_id : Z) (msg : oc_msg) : bool :=
  mentions m msg || keyword m msg || oc_model_is_priority m author_id.

Definition recount (m : oc_model) (c : oc_channel) (message_id : Z) : list oc_msg :=
  List.filter (fun x => negb ((mg_id x <=? message_id) || mg_deleted x) && counts m c (mg_author_id x) x) (ch_msgs c).
Definition oc_model_set_read_marker (m : oc_model) (channel_id message_id : Z) : oc_model :=
  upd_channel channel_id (fun c =>
    let n := zlen (recount m c message_id) in
    let pri := Z.of_nat (countb (fun x => is_priority_msg m (mg_author_id x) x) (recount m c message_id)) in
    c <| ch_read_marker := message_id |> <| ch_unread := n |> <| ch_priority_unread := pri |>
      <| ch_srv_unread := u32 n |>) m.

(** The badge: a number, and a dot. *)
Definition oc_model_badge (c : option oc_channel) : Z * bool :=
  match c with
  | Some c =>
      if negb (ch_muted c) && (0 <? ch_unread c)
      then let n := if ch_kind c =? OC_CHANNEL_KIND_DM then ch_unread c else ch_priority_unread c in (n, n =? 0)
      else (0, false)
  | None => (0, false)
  end.

(** ** Threads *)

Definition oc_model_close_thread (m : oc_model) : oc_model :=
  m <| md_thread_msgs := [] |> <| md_thread_open := false |> <| md_thread_parent := 0 |>
    <| md_thread_channel := 0 |> <| md_thread_replay := false |>.
Definition oc_model_open_thread (m : oc_model) (channel_id parent_id : Z) : oc_model :=
  oc_model_close_thread m <| md_thread_open := true |> <| md_thread_channel := channel_id |>
    <| md_thread_parent := parent_id |> <| md_thread_replay := true |>.
(** The replies, and whether one was appended. *)
Definition thread_append (l : list oc_msg) (message_id author_id server_time : Z) (body : option (list Z))
    : list oc_msg * bool :=
  if existsb (has_key mg_id message_id) l then (l, false)
  else (l ++ [new_msg body [] author_id message_id server_time 0 false], true).

(** The first channel that holds the message. *)
Definition holds (message_id : Z) (c : oc_channel) : bool := existsb (has_key mg_id message_id) (ch_msgs c).
Definition raise_replies (count : Z) (x : oc_msg) : oc_msg :=
  if mg_reply_count x <? count then x <| mg_reply_count := count |> else x.
Definition bump_reply_count (m : oc_model) (message_id count : Z) : oc_model :=
  m <| md_channels := upd_first (holds message_id) (upd_msg message_id (raise_replies count)) (md_channels m) |>.

Definition notice_push (m : oc_model) (channel_id message_id parent_id author_id : Z) (broadcast_stored : bool)
    (body : option (list Z)) (act : ev_action) : oc_model :=
  let n := match body with
           | Some b => mk_notice channel_id message_id parent_id author_id
                         (oc_model_mentions_me_in m broadcast_stored b) (oc_model_keyword_hit m b)
                         (action_of act b) (preview_set 256 (Some (excerpt_of act b)))
           | None => mk_notice channel_id message_id parent_id author_id false false false []
           end in
  m <| md_notices := push_bounded OC_MAX_THREAD_NOTICES n (md_notices m) |>.

(** The notices that notify now, the first [max] of them; all are considered once. *)
Definition oc_model_thread_notify_take (m : oc_model) (quiet paused : bool) (max : Z)
    : list oc_thread_notice * oc_model :=
  (ztake max (List.filter (fun n =>
     match oc_model_channel m (nt_channel_id n) with
     | None => false
     | Some c => oc_notify_decide false (ch_muted c) (oc_model_is_priority m (nt_author_id n)) (ch_notify_level c)
                   (nt_mentioned n) (nt_keyword_hit n) true quiet paused
     end) (md_notices m)), m <| md_notices := [] |>).

(** What the toast pass of a channel picks: the newest message that notifies, and
    whether any of those that do is a mention, a keyword or by a priority person. *)
Definition oc_model_notify_scan (m : oc_model) (c : oc_channel) (since_id : Z) (quiet paused : bool)
    : option oc_msg * bool * bool * bool :=
  let l := List.filter (fun x =>
    negb (mg_id x <=? since_id) && negb (mg_deleted x) && negb (mg_author_id x =? md_user_id m) &&
    (mg_kind x =? OC_MSG_KIND_MESSAGE) &&
    oc_notify_decide (oc_model_is_workspace_sender m (mg_author_id x)) (ch_muted c)
      (oc_model_is_priority m (mg_author_id x)) (ch_notify_level c) (mentions m x) (keyword m x) false quiet paused)
    (ch_msgs c) in
  (list.last l, existsb (mentions m) l, existsb (keyword m) l,
   existsb (fun x => oc_model_is_priority m (mg_author_id x)) l).

(** ** Groups *)

Definition group_upsert (m : oc_model) (g : option oc_group_view) : oc_model :=
  match g with
  | None => m
  | Some g =>
      let x := (g, md_groups_gen m) in
      m <| md_groups := upsert (has_key (gr_id ∘ fst) (gr_id g)) (fun _ => x) x (md_groups m) |>
  end.
Definition group_drop (m : oc_model) (group_id : Z) : oc_model :=
  m <| md_groups := remove_row (has_key (gr_id ∘ fst) group_id) (md_groups m) |>
    <| md_channels := (fun c => c <| ch_groups := remove_row (Z.eqb group_id) (ch_groups c) |>) <$> md_channels m |>.
(** [OC_EV_GROUPS_END]: each turn drops a group or passes one. *)
Fixpoint groups_end (fuel i : nat) (m : oc_model) : oc_model :=
  match fuel with
  | O => m
  | S fuel =>
      match md_groups m !! i with
      | None => m
      | Some (g, gen) =>
          if gen =? md_groups_gen m then groups_end fuel (S i) m else groups_end fuel i (group_drop m (gr_id g))
      end
  end.

(** ** Events *)

(** What a [CHANNEL] event says. *)
Record ev_channel := mk_ev_channel {
  ec_status : Z;
  ec_op : Z;
  ec_is_public : Z;
  ec_user_id : Z;
  ec_peers : list Z;
  ec_server_time : Z;
  ec_count : Z;
  ec_body : option (list Z);
  ec_archived : Z;
  ec_e2e : bool;
  ec_created_at : Z;
  ec_preview : option (list Z);
  ec_preview_author : Z;
  ec_action : bool;
  ec_topic : option (list Z) }.

Inductive oc_ev :=
  | OC_EV_CHANNEL (channel_id : Z) (e : ev_channel)
  | OC_EV_CHANNEL_DESCRIPTION (channel_id : Z) (body : option (list Z))
  | OC_EV_MESSAGE (channel_id author_id : Z) (author_name : list Z) (message_id server_time msg_kind : Z)
      (broadcast_stored : bool) (body : option (list Z)) (act : ev_action)
  | OC_EV_COLLAPSED (message_id op : Z)
  | OC_EV_SAVED_MSG (row : oc_saved_view)
  | OC_EV_SAVED_END
  | OC_EV_SAVED_UPDATED (message_id op pinned_at : Z)
  | OC_EV_PIN (channel_id message_id op user_id server_time : Z)
  | OC_EV_PINNED_MSG (channel_id : Z) (row : oc_pinned_row)
  | OC_EV_PINS_END (channel_id : Z)
  | OC_EV_REACTION (channel_id message_id user_id : Z) (emoji : list Z) (count op : Z)
  | OC_EV_ACTION (channel_id message_id : Z) (act : ev_action)
  | OC_EV_POLL (channel_id message_id : Z) (poll : option oc_poll_view)
  | OC_EV_FORWARD (channel_id message_id : Z) (f : oc_msg_forward)
  | OC_EV_UNFURL (channel_id message_id : Z) (body topic preview : option (list Z))
  | OC_EV_EDIT (channel_id message_id : Z) (body : option (list Z)) (act : ev_action)
  | OC_EV_DELETE (channel_id message_id : Z)
  | OC_EV_RESTORE (channel_id message_id : Z) (body : option (list Z)) (act : ev_action) (broadcast_stored : bool)
  | OC_EV_THREAD_REPLY (channel_id message_id parent_id author_id server_time count : Z) (participant : bool)
      (broadcast_stored : bool) (body : option (list Z)) (act : ev_action)
  | OC_EV_THREAD_END (parent_id : Z)
  | OC_EV_THREAD_META (message_id count : Z)
  | OC_EV_DND (op : Z)
  | OC_EV_NOTIFY_PREF (channel_id op : Z) (status : bool)
  | OC_EV_ALERT_PREFS (kw_terms : list (list Z)) (pri_people : list Z)
  | OC_EV_GROUP (group : option oc_group_view)
  | OC_EV_GROUP_DELETED (message_id : Z)
  | OC_EV_GROUPS_END
  | OC_EV_CHANNEL_GROUPS (channel_id : Z) (groups : list Z)
  | OC_EV_READ_CURSOR (user_id channel_id message_id : Z)
  | OC_EV_READ_STATE (channel_id : Z)
  | OC_EV_ATTACHMENT (message_id : Z) (a : oc_attachment).

(** *** The longer handlers *)

(** [(int)v] of a [uint32_t]. *)
Definition i32 (v : Z) : Z := (v + 2 ^ 31) mod 2 ^ 32 - 2 ^ 31.

Definition fold_channel (e : ev_channel) (c : oc_channel) : oc_channel :=
  let or_keep v old := if v =? 0 then old else v in
  c <| ch_info_seq := u32 (ch_info_seq c + 1) |> <| ch_joined := ec_status e |> <| ch_kind := ec_op e |>
    <| ch_is_public := ec_is_public e |> <| ch_peer_id := or_keep (ec_user_id e) (ch_peer_id c) |>
    <| ch_peers := ztake 9 (ec_peers e) |>
    <| ch_last_message_at := or_keep (ec_server_time e) (ch_last_message_at c) |>
    <| ch_srv_unread := or_keep (ec_count e) (ch_srv_unread c) |>
    <| ch_unread := if negb (ec_count e =? 0) && (ch_unread c =? 0) then i32 (ec_count e) else ch_unread c |>
    <| ch_name := match ec_body e with Some b => Some b | None => ch_name c end |>
    <| ch_archived := ec_archived e |> <| ch_e2e := ec_e2e e || ch_e2e c |>
    <| ch_created_at := or_keep (ec_created_at e) (ch_created_at c) |>
    <| ch_preview := match ec_preview e with Some t => preview_set 128 (Some t) | None => ch_preview c end |>
    <| ch_preview_author := match ec_preview e with Some _ => ec_preview_author e | None => ch_preview_author c end |>
    <| ch_preview_action := match ec_preview e with Some _ => ec_action e | None => ch_preview_action c end |>
    <| ch_topic := match ec_topic e with Some (x :: t) => Some (x :: t) | _ => None end |>.

(** The preview of a message at least as new as the newest. *)
Definition preview_message (message_id author_id : Z) (body : option (list Z)) (act : ev_action) (c : oc_channel) : oc_channel :=
  match body with
  | Some b =>
      if ch_high_water c <=? message_id
      then c <| ch_preview := preview_set 128 (Some (excerpt_of act b)) |> <| ch_preview_author := author_id |>
             <| ch_preview_action := action_of act b |>
      else c
  | None => c
  end.
(** What follows an append: the action is set on, and the count asked of, the last
    message of the array. *)
Definition count_message (m : oc_model) (message_id author_id : Z) (act : ev_action) (c : oc_channel) : oc_channel :=
  let c := c <| ch_msgs := alter (fun x => msg_set_action x act) (length (ch_msgs c) - 1)%nat (ch_msgs c) |> in
  match list.last (ch_msgs c) with
  | None => c
  | Some msg =>
      if (ch_read_marker c <? message_id) && counts m c author_id msg
      then c <| ch_unread := ch_unread c + 1 |>
             <| ch_priority_unread := ch_priority_unread c + if is_priority_msg m author_id msg then 1 else 0 |>
      else c
  end.
(** Talking mode. *)
Definition listen_push (channel_id author_id message_id msg_kind : Z) (m : oc_model) : oc_model :=
  if (md_listen_channel m =? channel_id) && negb (author_id =? md_user_id m) && (msg_kind =? OC_MSG_KIND_MESSAGE)
  then m <| md_listen_queue := push_bounded OC_LISTEN_QUEUE_MAX message_id (md_listen_queue m) |>
         <| md_listen_skipped := if (length (md_listen_queue m) =? OC_LISTEN_QUEUE_MAX)%nat
                                 then u32 (md_listen_skipped m + 1) else md_listen_skipped m |>
  else m.
Definition on_message (m : oc_model) (channel_id author_id : Z) (author_name : list Z)
    (message_id server_time msg_kind : Z) (broadcast_stored : bool) (body : option (list Z)) (act : ev_action) : oc_model :=
  let m := upd_channel channel_id (preview_message message_id author_id body act) (channel_ensure m channel_id) in
  match oc_model_channel m channel_id with
  | None => m
  | Some c =>
      let '(c', appended) := channel_append c author_id author_name message_id server_time msg_kind broadcast_stored body in
      if appended
      then listen_push channel_id author_id message_id msg_kind
             (upd_channel channel_id (fun _ => count_message m message_id author_id act c') m)
      else m
  end.

(** An action on its own frame, on the channel: the preview too when it is the
    newest message's. *)
Definition fold_action (message_id : Z) (act : ev_action) (c : oc_channel) : oc_channel :=
  match index_of (has_key mg_id message_id) (ch_msgs c) with
  | None => c
  | Some i =>
      let c := upd_msg message_id (fun x => msg_set_action x act) c in
      match ch_msgs c !! i with
      | Some msg =>
          match mg_body msg with
          | Some b =>
              if (S i =? length (ch_msgs c))%nat && (ch_preview_author c =? mg_author_id msg)
              then c <| ch_preview := preview_set 128 (Some (if ac_present (mg_action msg)
                                                             then zdrop (ac_start (mg_action msg)) b else b)) |>
                     <| ch_preview_action := ac_present (mg_action msg) |>
              else c
          | None => c
          end
      | None => c
      end
  end.

Definition attach_to_msg (m : oc_model) (message_id : Z) (a : oc_attachment) : oc_model :=
  if existsb (holds message_id) (md_channels m)
  then m <| md_channels := upd_first (holds message_id) (fun c =>
         let c := upd_msg message_id (fun x => msg_add_attach x a) c in
         match row mg_id message_id (ch_msgs c) with
         | Some msg =>
             if negb (match mg_body msg with Some b => nonempty b | None => false end) &&
                (zlen (mg_attach msg) =? 1) && (ch_high_water c <=? mg_id msg) &&
                (ch_preview_author c =? mg_author_id msg)
             then c <| ch_preview := oc_model_msg_preview m msg 128 |> else c
         | None => c
         end) (md_channels m) |>
  else upd_thread_msg message_id (fun x => msg_add_attach x a) m.

Definition on_thread_reply (m : oc_model) (channel_id message_id parent_id author_id server_time count : Z)
    (participant broadcast_stored : bool) (body : option (list Z)) (act : ev_action) : oc_model :=
  let m := bump_reply_count m parent_id count in
  let m := if participant && negb (author_id =? md_user_id m) && negb (md_thread_replay m)
           then let m := notice_push m channel_id message_id parent_id author_id broadcast_stored body act in
                m <| md_threads := upd_first (has_key th_root_id parent_id)
                                     (fun t => t <| th_unread := u32 (th_unread t + 1) |>) (md_threads m) |>
           else m in
  if md_thread_open m && (parent_id =? md_thread_parent m)
  then let '(l, appended) := thread_append (md_thread_msgs m) message_id author_id server_time body in
       m <| md_thread_msgs := if appended
            then alter (fun x => msg_set_action x act <| mg_broadcast_stored := broadcast_stored |>) (length l - 1)%nat l
            else l |>
  else m.

(** *** The reducer *)

Definition each_channel (f : oc_channel → oc_channel) (m : oc_model) : oc_model :=
  m <| md_channels := f <$> md_channels m |>.

Definition oc_model_apply (m : oc_model) (e : oc_ev) : oc_model :=
  match e with
  | OC_EV_CHANNEL channel_id e => upd_channel channel_id (fold_channel e) (channel_ensure m channel_id)
  | OC_EV_CHANNEL_DESCRIPTION channel_id body =>
      upd_channel channel_id (fun c => c <| ch_description := match body with Some (x :: b) => Some (x :: b) | _ => None end |>
                                         <| ch_description_known := true |>) m
  | OC_EV_MESSAGE channel_id author_id author_name message_id server_time msg_kind broadcast_stored body act =>
      on_message m channel_id author_id author_name message_id server_time msg_kind broadcast_stored body act
  | OC_EV_COLLAPSED message_id op =>
      let f x := x <| mg_collapsed := negb (op =? 0) |> in
      upd_thread_msg message_id f (each_channel (upd_msg message_id f) m)
  | OC_EV_SAVED_MSG row =>
      if md_saved_open m && md_saved_loading m
      then m <| md_saved := md_saved m ++ [mk_saved (sv_message_id row) (sv_channel_id row) (sv_author_id row)
             (sv_server_time row) (sv_saved_at row) (sv_body row) (fit 128 (sv_attach_name row)) (sv_action row)] |>
      else m
  | OC_EV_SAVED_END => if md_saved_open m then m <| md_saved_loading := false |> else m
  | OC_EV_SAVED_UPDATED message_id op pinned_at =>
      let f x := msg_set_saved x op pinned_at in
      let m := upd_thread_msg message_id f (each_channel (upd_msg message_id f) m) in
      if md_saved_open m && (op =? 0)
      then m <| md_saved := delete_row (has_key sv_message_id message_id) (md_saved m) |> else m
  | OC_EV_PIN channel_id message_id op user_id server_time =>
      let f x := msg_set_pinned x op user_id server_time in
      let m := upd_thread_msg message_id f (upd_channel channel_id (upd_msg message_id f) m) in
      if md_pinlist_open m && (md_pinlist_channel m =? channel_id) && negb (op =? 1)
      then m <| md_pins := delete_row (has_key pn_message_id message_id) (md_pins m) |> else m
  | OC_EV_PINNED_MSG channel_id row =>
      if md_pinlist_open m && (md_pinlist_channel m =? channel_id)
      then m <| md_pins := md_pins m ++ [mk_pinned (pn_message_id row) (pn_author_id row) (pn_server_time row)
             (pn_pinned_by row) (pn_pinned_at row) (pn_body row) (fit 128 (pn_attach_name row)) (pn_action row)] |>
      else m
  | OC_EV_PINS_END channel_id =>
      if md_pinlist_open m && (md_pinlist_channel m =? channel_id) then m <| md_pinlist_loading := false |> else m
  | OC_EV_REACTION channel_id message_id user_id emoji count op =>
      upd_channel channel_id
        (upd_msg message_id (fun x => msg_apply_reaction x emoji count op (user_id =? md_user_id m))) m
  | OC_EV_ACTION channel_id message_id act =>
      upd_thread_msg message_id (fun x => msg_set_action x act) (upd_channel channel_id (fold_action message_id act) m)
  | OC_EV_POLL channel_id message_id poll =>
      let f x := msg_set_poll x poll in upd_thread_msg message_id f (upd_channel channel_id (upd_msg message_id f) m)
  | OC_EV_FORWARD channel_id message_id f => upd_channel channel_id (upd_msg message_id (fun x => msg_set_forward x f)) m
  | OC_EV_UNFURL channel_id message_id body topic preview =>
      match body, topic with
      | Some url, Some title =>
          upd_channel channel_id (upd_msg message_id (fun x => msg_set_unfurl x (mk_unfurl url title preview))) m
      | _, _ => m
      end
  | OC_EV_EDIT channel_id message_id body act =>
      upd_channel channel_id (upd_msg message_id (fun x => msg_edit x body act)) m
  | OC_EV_DELETE channel_id message_id =>
      upd_thread_msg message_id msg_tombstone (upd_channel channel_id (upd_msg message_id msg_tombstone) m)
  | OC_EV_RESTORE channel_id message_id body act broadcast_stored =>
      let f x := msg_restore x body act broadcast_stored in
      upd_thread_msg message_id f (upd_channel channel_id (upd_msg message_id f) m)
  | OC_EV_THREAD_REPLY channel_id message_id parent_id author_id server_time count participant broadcast_stored body act =>
      on_thread_reply m channel_id message_id parent_id author_id server_time count participant broadcast_stored body act
  | OC_EV_THREAD_END parent_id => if parent_id =? md_thread_parent m then m <| md_thread_replay := false |> else m
  | OC_EV_THREAD_META message_id count => bump_reply_count m message_id count
  | OC_EV_DND op => each_channel (fun c => c <| ch_notify_level := op |>) (m <| md_notify_default := op |>)
  | OC_EV_NOTIFY_PREF channel_id op status =>
      upd_channel channel_id (fun c => c <| ch_notify_level := op |> <| ch_muted := status |>) m
  | OC_EV_ALERT_PREFS kw_terms pri_people => m <| md_kw_terms := fit 64 <$> kw_terms |> <| md_pri_people := pri_people |>
  | OC_EV_GROUP group => group_upsert m group
  | OC_EV_GROUP_DELETED message_id => group_drop m message_id
  | OC_EV_GROUPS_END =>
      let m := groups_end (length (md_groups m)) 0 m in m <| md_groups_gen := u64 (md_groups_gen m + 1) |>
  | OC_EV_CHANNEL_GROUPS channel_id groups => upd_channel channel_id (fun c => c <| ch_groups := ztake 32 groups |>) m
  | OC_EV_READ_CURSOR user_id channel_id message_id =>
      if user_id =? md_user_id m then oc_model_set_read_marker m channel_id message_id
      else upd_channel channel_id (fun c => c <| ch_readers := reader_advance (ch_readers c) user_id message_id |>) m
  | OC_EV_READ_STATE channel_id => oc_model_mark_read m channel_id
  | OC_EV_ATTACHMENT message_id a => attach_to_msg m message_id a
  end.

Definition oc_model_run (m : oc_model) (es : list oc_ev) : oc_model := foldl oc_model_apply m es.
End Reducers.

(** ** The transcript of a channel *)

Definition id_lt (x y : oc_msg) : Prop := mg_id x < mg_id y.
Definition asc (l : list oc_msg) : Prop := StronglySorted id_lt l.
Record transcript_ok (c : oc_channel) : Prop := {
  tr_asc : asc (ch_msgs c);
  tr_ids : ∀ x, x ∈ ch_msgs c → 0 < mg_id x <= ch_high_water c }.

Lemma asc_app l k : asc (l ++ k) ↔ asc l ∧ asc k ∧ ∀ x y, x ∈ l → y ∈ k → id_lt x y.
Proof.
  unfold asc. induction l as [|z l IH]; simpl.
  - split; [|tauto]. intros H. split_and!; [constructor|done|by intros ?? ?%not_elem_of_nil].
  - split.
    + intros H. inversion_clear H as [|?? Hs Hf]. apply IH in Hs as (H1 & H2 & H3). rewrite Forall_app in Hf. destruct Hf as [Hf1 Hf2].
      split_and!; [by constructor|done|]. intros x y [->|Hx]%elem_of_cons Hy; [|by apply H3].
      rewrite List.Forall_forall in Hf2. apply Hf2. by apply list_elem_of_In.
    + intros (H1 & H2 & H3). inversion_clear H1 as [|?? Hs Hf]. constructor.
      * apply IH. split_and!; [done..|]. intros x y Hx Hy. apply H3; [by right|done].
      * apply Forall_app. split; [done|]. apply List.Forall_forall. intros y Hy%list_elem_of_In. apply H3; [left|done].
Qed.

(** Two transcripts with the same messages are the same. *)
Lemma asc_ext l k : asc l → asc k → (∀ x, x ∈ l ↔ x ∈ k) → l = k.
Proof.
  intros Hl. revert k. induction Hl as [|x l Hs IH Hf]; intros k Hk Hext.
  - destruct k as [|y k]; [done|]. pose proof (proj2 (Hext y) ltac:(left)) as Hx. by apply not_elem_of_nil in Hx.
  - destruct Hk as [|y k Hks Hkf]; [pose proof (proj1 (Hext x) ltac:(left)) as Hx; by apply not_elem_of_nil in Hx|].
    rewrite List.Forall_forall in Hf, Hkf.
    assert (x = y) as ->.
    { pose proof (proj1 (Hext x) ltac:(left)) as [|Hx]%elem_of_cons; [done|].
      pose proof (proj2 (Hext y) ltac:(left)) as [|Hy]%elem_of_cons; [done|].
      apply list_elem_of_In, Hkf in Hx. apply list_elem_of_In, Hf in Hy. unfold id_lt in *. lia. }
    f_equal. apply IH; [done|]. intros z. specialize (Hext z). rewrite !elem_of_cons in Hext.
    assert (∀ l, (∀ x, In x l → id_lt y x) → z ∈ l → z ≠ y) as Hne.
    { intros l' Hl' Hz ->. apply list_elem_of_In, Hl' in Hz. unfold id_lt in Hz. lia. }
    split; intros Hz; [pose proof (Hne l Hf Hz)|pose proof (Hne k Hkf Hz)]; tauto.
Qed.

Lemma insert_pos_spec l mid n :
  asc l → (n <= length l)%nat → (∀ x, x ∈ l → mg_id x ≠ mid) → (∀ x, x ∈ drop n l → mid < mg_id x) →
  (insert_pos n l mid <= n)%nat ∧
  (∀ x, x ∈ take (insert_pos n l mid) l → mg_id x < mid) ∧ (∀ x, x ∈ drop (insert_pos n l mid) l → mid < mg_id x).
Proof.
  intros Ha Hn Hne. revert Hn. induction n as [|k IH]; intros Hn Hd; simpl.
  { split_and!; [done|by intros ? ?%not_elem_of_nil|done]. }
  destruct (lookup_lt_is_Some_2 l k Hn) as [y Hy]. rewrite Hy.
  destruct (Z.ltb_spec mid (mg_id y)) as [Hlt|Hge].
  - destruct IH as (H1 & H2 & H3); [lia| |split_and!; [lia|done..]].
    intros x. rewrite (drop_S l y k Hy). intros [->|Hx]%elem_of_cons; [done|by apply Hd].
  - split_and!; [done| |done]. intros x Hx.
    assert (mg_id y < mid) by (pose proof (Hne y (list_elem_of_lookup_2 _ _ _ Hy)); lia).
    rewrite (take_S_r l k y Hy) in Hx. apply elem_of_app in Hx as [Hx|Hx%list_elem_of_singleton]; [|by subst].
    rewrite <- (take_drop k l) in Ha. apply asc_app in Ha as (_ & _ & Ha).
    enough (id_lt x y) by (unfold id_lt in *; lia). apply Ha; [done|]. rewrite (drop_S l y k Hy). left.
Qed.

(** A message as it is delivered. *)
Record delivery := mk_delivery {
  dl_author_id : Z;
  dl_author_name : list Z;
  dl_id : Z;
  dl_time : Z;
  dl_kind : Z;
  dl_stored : bool;
  dl_body : option (list Z) }.
Definition append (c : oc_channel) (d : delivery) : oc_channel * bool :=
  channel_append c (dl_author_id d) (dl_author_name d) (dl_id d) (dl_time d) (dl_kind d) (dl_stored d) (dl_body d).
Definition msg_of (d : delivery) : oc_msg :=
  new_msg (dl_body d) (fit 64 (dl_author_name d)) (dl_author_id d) (dl_id d) (dl_time d) (dl_kind d) (dl_stored d).

Lemma append_spec c d :
  transcript_ok c → 0 < dl_id d →
  let c' := (append c d).1 in
  (append c d).2 = negb (existsb (has_key mg_id (dl_id d)) (ch_msgs c)) ∧
  transcript_ok c' ∧ ch_high_water c' = Z.max (ch_high_water c) (dl_id d) ∧
  (∀ x, x ∈ ch_msgs c' ↔ x ∈ ch_msgs c ∨ ((append c d).2 = true ∧ x = msg_of d)).
Proof.
  intros [Ha Hi] Hd. unfold append, channel_append. rewrite (proj2 (Z.eqb_neq (dl_id d) 0)) by lia. simpl negb. simpl andb.
  destruct (existsb (has_key mg_id (dl_id d)) (ch_msgs c)) eqn:Ex.
  - rewrite existsb_row in Ex. apply bool_decide_eq_true in Ex as [x Hx]. apply row_Some in Hx as [Hx Hid].
    pose proof (Hi x Hx). rewrite (proj2 (Z.leb_le _ _)) by lia. simpl.
    split_and!; [done|by constructor|lia|]. intros y. naive_solver.
  - assert (Hne : ∀ x, x ∈ ch_msgs c → mg_id x ≠ dl_id d).
    { intros x Hx E. apply not_true_iff_false in Ex as []. rewrite existsb_row. apply bool_decide_eq_true.
      destruct (row _ _ _) eqn:Er; [eauto|]. apply row_None in Er as []. rewrite <- E. by apply list_elem_of_fmap_2. }
    rewrite andb_false_r. cbv iota. set (k := if dl_id d <=? ch_high_water c then _ else _). fold (msg_of d). simpl.
    assert ((∀ x, x ∈ take k (ch_msgs c) → mg_id x < dl_id d) ∧ (∀ x, x ∈ drop k (ch_msgs c) → dl_id d < mg_id x)) as [H1 H2].
    { unfold k. destruct (Z.leb_spec (dl_id d) (ch_high_water c)).
      - destruct (insert_pos_spec (ch_msgs c) (dl_id d) (length (ch_msgs c))) as (_ & ? & ?); try done.
        intros x. rewrite drop_all. by intros ?%not_elem_of_nil.
      - rewrite firstn_all, drop_all. split; [|by intros ? ?%not_elem_of_nil]. intros x Hx. pose proof (Hi x Hx). lia. }
    assert (Hmem : ∀ x, x ∈ take k (ch_msgs c) ++ msg_of d :: drop k (ch_msgs c) ↔ x ∈ ch_msgs c ∨ (true = true ∧ x = msg_of d)).
    { intros x. rewrite <- (take_drop k (ch_msgs c)) at 3. rewrite !elem_of_app, elem_of_cons. naive_solver. }
    split_and!; [done| |case_match; lia|done].
    rewrite <- (take_drop k (ch_msgs c)) in Ha. apply asc_app in Ha as (Ha1 & Ha2 & Ha3).
    constructor; simpl.
    + apply asc_app. split_and!; [done| |].
      * constructor; [done|]. apply List.Forall_forall. intros y Hy%list_elem_of_In. by apply H2.
      * intros x y Hx [->|Hy]%elem_of_cons; [by apply H1|by apply Ha3].
    + intros x Hx%Hmem. destruct Hx as [Hx|[_ ->]]; [pose proof (Hi x Hx)|simpl]; case_match; lia.
Qed.

Definition deliver (c : oc_channel) (d : delivery) : oc_channel := (append c d).1.
#[export] Instance delivery_eq_dec : EqDecision delivery.
Proof. solve_decision. Defined.
(** Two deliveries of one id are the same message. *)
Definition consistent (ds : list delivery) : Prop := ∀ d d', d ∈ ds → d' ∈ ds → dl_id d = dl_id d' → d = d'.

Lemma deliver_all c ds :
  transcript_ok c → Forall (fun d => 0 < dl_id d) ds → consistent ds →
  let c' := foldl deliver c ds in
  transcript_ok c' ∧ ch_high_water c' = foldl Z.max (ch_high_water c) (dl_id <$> ds) ∧
  (∀ x, x ∈ ch_msgs c' ↔ x ∈ ch_msgs c ∨ ∃ d, d ∈ ds ∧ x = msg_of d ∧ dl_id d ∉ mg_id <$> ch_msgs c).
Proof.
  intros Hc. induction ds as [|d ds IH] using rev_ind; intros Hp Hcons; cbv zeta in *.
  { split_and!; [done..|]. intros x. split; [by left|]. intros [|(d & Hd & _)]; [done|by apply not_elem_of_nil in Hd]. }
  apply Forall_app in Hp as [Hp Hd]. inversion_clear Hd as [|?? Hd' _].
  destruct IH as (Hok & Hhw & Hmem); [done|intros a b Ha Hb; apply Hcons; apply elem_of_app; by left|].
  rewrite !foldl_app, fmap_app, foldl_app. simpl. unfold deliver at 1 3 5.
  destruct (append_spec _ d Hok Hd') as (Hb & Hok' & Hhw' & Hmem'). split_and!; [done|congruence|].
  intros x. rewrite Hmem', Hmem, Hb, existsb_row, negb_true_iff, bool_decide_eq_false. setoid_rewrite elem_of_app.
  setoid_rewrite list_elem_of_singleton.
  assert (Hrow : ¬ is_Some (row mg_id (dl_id d) (ch_msgs (foldl deliver c ds))) ↔
                 dl_id d ∉ mg_id <$> ch_msgs c ∧ d ∉ ds).
  { rewrite <- eq_None_not_Some, row_None. split.
    - intros Hno. assert (dl_id d ∉ mg_id <$> ch_msgs c) as Hno'.
      { intros (y & E & Hy)%list_elem_of_fmap. apply Hno. rewrite E. apply list_elem_of_fmap_2, Hmem. by left. }
      split; [done|]. intros Hin. apply Hno. change (dl_id d) with (mg_id (msg_of d)).
      apply list_elem_of_fmap_2, Hmem. right. by exists d.
    - intros [Hno Hnd] (y & E & Hy)%list_elem_of_fmap. apply Hmem in Hy as [Hy|(d' & Hd2 & -> & _)].
      + apply Hno. rewrite E. by apply list_elem_of_fmap_2.
      + apply Hnd. rewrite (Hcons d d'); [done|apply elem_of_app; right; by apply list_elem_of_singleton|apply elem_of_app; by left|done]. }
  rewrite Hrow. split.
  - intros [[Hx|(d' & ? & ? & ?)]|[[? ?] ->]]; [by left|right; exists d'; tauto|right; exists d; tauto].
  - intros [Hx|(d' & [Hd2| ->] & -> & Hno)]; [tauto|left; right; by exists d'|].
    destruct (decide (d ∈ ds)) as [Hin|Hin]; [left; right; by exists d|right; tauto].
Qed.

Lemma foldl_max_le h l b : foldl Z.max h l <= b ↔ h <= b ∧ ∀ x, x ∈ l → x <= b.
Proof.
  revert h. induction l as [|y l IH]; intros h; simpl.
  - split; [intros; split; [done|by intros ? ?%not_elem_of_nil]|tauto].
  - rewrite IH, Z.max_lub_iff. setoid_rewrite elem_of_cons. naive_solver.
Qed.

Lemma foldl_max_ext h l k : (∀ x, x ∈ l ↔ x ∈ k) → foldl Z.max h l = foldl Z.max h k.
Proof.
  intros Hext. pose proof (proj1 (foldl_max_le h l _) (Z.le_refl _)) as [H1 H2].
  pose proof (proj1 (foldl_max_le h k _) (Z.le_refl _)) as [H3 H4].
  apply Z.le_antisymm; apply foldl_max_le; (split; [done|]); intros x Hx; [apply H4|apply H2]; by apply Hext.
Qed.

Lemma deliver_order_free (c : oc_channel) (ds ds' : list delivery) :
  transcript_ok c → Forall (fun d => 0 < dl_id d) ds → consistent ds → (∀ d, d ∈ ds ↔ d ∈ ds') →
  transcript_ok (foldl deliver c ds) ∧
  ch_msgs (foldl deliver c ds') = ch_msgs (foldl deliver c ds) ∧
  ch_high_water (foldl deliver c ds') = ch_high_water (foldl deliver c ds).
Proof.
  intros Hc Hp Hcons Hext.
  assert (Hp' : Forall (fun d => 0 < dl_id d) ds').
  { rewrite List.Forall_forall in Hp |- *. intros d Hd%list_elem_of_In. apply Hp, list_elem_of_In. by apply Hext. }
  assert (Hcons' : consistent ds') by (intros d d' Hd Hd'; apply Hcons; by apply Hext).
  destruct (deliver_all c ds Hc Hp Hcons) as (Hok & Hhw & Hmem).
  destruct (deliver_all c ds' Hc Hp' Hcons') as (Hok' & Hhw' & Hmem').
  split_and!; [done| |].
  - apply asc_ext; [apply Hok'|apply Hok|]. intros x. rewrite Hmem, Hmem'. setoid_rewrite Hext. done.
  - rewrite Hhw, Hhw'. apply foldl_max_ext. intros i. rewrite !list_elem_of_fmap. by setoid_rewrite Hext.
Qed.

(** ** What always holds of the model *)

Record chan_ok (c : oc_channel) : Prop := {
  co_transcript : transcript_ok c;
  co_msgs : Forall msg_ok (ch_msgs c);
  co_unread : 0 <= ch_priority_unread c <= ch_unread c }.
Record model_ok (m : oc_model) : Prop := {
  mk_ids : keys_ok ch_id (md_channels m);
  mk_chans : Forall chan_ok (md_channels m);
  mk_thread_ids : keys_ok mg_id (md_thread_msgs m);
  mk_thread_msgs : Forall msg_ok (md_thread_msgs m);
  mk_notices_len : (length (md_notices m) <= OC_MAX_THREAD_NOTICES)%nat;
  mk_listen_len : (length (md_listen_queue m) <= OC_LISTEN_QUEUE_MAX)%nat;
  mk_group_ids : keys_ok (gr_id ∘ fst) (md_groups m) }.

Lemma Forall_upd_first {A} (P : A → Prop) (p : A → bool) f l :
  Forall P l → (∀ x, P x → p x = true → P (f x)) → Forall P (upd_first p f l).
Proof. intros H Hf. induction H as [|x l Hx H IH]; simpl; [done|]. destruct (p x) eqn:E; constructor; auto. Qed.

Lemma asc_ids l k : mg_id <$> l = mg_id <$> k → asc l → asc k.
Proof.
  intros E Hl. revert k E. induction Hl as [|x l Hs IH Hf]; intros [|y k] E; simplify_eq/=; [constructor|].
  constructor; [by apply IH|]. rewrite List.Forall_forall in Hf |- *. intros z Hz.
  assert (mg_id z ∈ mg_id <$> l) as (w & Hw & Hin)%list_elem_of_fmap
    by (rewrite H0; by apply list_elem_of_fmap_2, list_elem_of_In).
  apply list_elem_of_In, Hf in Hin. unfold id_lt in *. congruence.
Qed.

(** A change of messages that keeps their ids. *)
Lemma chan_ok_msgs c l :
  chan_ok c → mg_id <$> l = mg_id <$> ch_msgs c → Forall msg_ok l → chan_ok (c <| ch_msgs := l |>).
Proof.
  intros [[Ha Hi] Hm Hu] E Hl. constructor; simpl; [|done..]. constructor; simpl.
  - by eapply asc_ids.
  - intros x Hx. assert (mg_id x ∈ mg_id <$> ch_msgs c) as (y & -> & Hy)%list_elem_of_fmap
      by (rewrite <- E; by apply list_elem_of_fmap_2).
    by apply Hi.
Qed.
(** A change of anything but the messages, their mark and the counts. *)
Lemma chan_ok_same c c' :
  chan_ok c → ch_msgs c' = ch_msgs c → ch_high_water c' = ch_high_water c → ch_unread c' = ch_unread c →
  ch_priority_unread c' = ch_priority_unread c → chan_ok c'.
Proof.
  intros [[Ha Hi] Hm Hu] E1 E2 E3 E4. constructor; rewrite ?E1, ?E3, ?E4; [|done..].
  constructor; rewrite ?E1, ?E2; done.
Qed.

Lemma upd_msg_ok mid f c :
  chan_ok c → (∀ x, msg_ok x → msg_ok (f x)) → (∀ x, mg_id (f x) = mg_id x) → chan_ok (upd_msg mid f c).
Proof.
  intros Hc Hf Hid. apply chan_ok_msgs; [done|by apply upd_first_keys; intros ? <-|].
  apply Forall_upd_first; [apply Hc|auto].
Qed.

Lemma model_ok_channels m l :
  model_ok m → ch_id <$> l = ch_id <$> md_channels m → Forall chan_ok l → model_ok (m <| md_channels := l |>).
Proof. intros [] E Hl. constructor; simpl; try done. unfold keys_ok. by rewrite E. Qed.
Lemma upd_channel_ok id f m :
  model_ok m → (∀ c, chan_ok c → chan_ok (f c)) → (∀ c, ch_id (f c) = ch_id c) → model_ok (upd_channel id f m).
Proof.
  intros Hm Hf Hid. apply model_ok_channels; [done|by apply upd_first_keys; intros ? <-|].
  apply Forall_upd_first; [apply Hm|auto].
Qed.
Lemma each_channel_ok f m :
  model_ok m → (∀ c, chan_ok c → chan_ok (f c)) → (∀ c, ch_id (f c) = ch_id c) → model_ok (each_channel f m).
Proof.
  intros Hm Hf Hid. apply model_ok_channels; [done| |].
  - rewrite <- list_fmap_compose. apply list_fmap_ext. intros. apply Hid.
  - apply Forall_fmap. eapply Forall_impl; [apply Hm|]. auto.
Qed.
Lemma upd_thread_msg_ok mid f m :
  model_ok m → (∀ x, msg_ok x → msg_ok (f x)) → (∀ x, mg_id (f x) = mg_id x) → model_ok (upd_thread_msg mid f m).
Proof.
  intros [] Hf Hid. constructor; simpl; try done.
  - unfold keys_ok. rewrite upd_first_keys; [done|]. by intros ? <-.
  - apply Forall_upd_first; auto.
Qed.
Lemma channel_ensure_ok m id : model_ok m → model_ok (channel_ensure m id).
Proof.
  intros Hm. unfold channel_ensure. destruct (existsb _ _) eqn:Ex; [done|]. destruct Hm. constructor; simpl; try done.
  - pose proof (keys_ok_upsert ch_id id (fun c => c) (new_channel id (md_notify_default m)) (md_channels m)) as Hk.
    unfold upsert in Hk. rewrite Ex in Hk. by apply Hk.
  - apply Forall_app. split; [done|]. constructor; [|done].
    constructor; simpl; [|done|done]. constructor; [constructor|by intros ? ?%not_elem_of_nil].
Qed.

Lemma alter_ids f i (l : list oc_msg) : (∀ x, mg_id (f x) = mg_id x) → mg_id <$> alter f i l = mg_id <$> l.
Proof.
  intros Hf. revert i. induction l as [|x l IH]; intros [|i]; [done..| |].
  - change (alter f 0%nat (x :: l)) with (f x :: l). by rewrite !fmap_cons, Hf.
  - change (alter f (S i) (x :: l)) with (x :: alter f i l). by rewrite !fmap_cons, IH.
Qed.
Lemma Forall_alter_ok (f : oc_msg → oc_msg) i l : (∀ x, msg_ok x → msg_ok (f x)) → Forall msg_ok l → Forall msg_ok (alter f i l).
Proof.
  intros Hf Hl. revert i. induction Hl as [|x l Hx Hl IH]; intros [|i]; [constructor..| |].
  - change (alter f 0%nat (x :: l)) with (f x :: l). constructor; auto.
  - change (alter f (S i) (x :: l)) with (x :: alter f i l). constructor; auto.
Qed.

Lemma countb_le {A} (p : A → bool) l : (countb p l <= length l)%nat.
Proof. induction l as [|x l IH]; [done|]. rewrite countb_cons. simpl. destruct (p x); simpl; lia. Qed.
Lemma push_bounded_length {A} n (x : A) l : (length l <= n)%nat → (0 < n)%nat → (length (push_bounded n x l) <= n)%nat.
Proof.
  intros Hl Hn. unfold push_bounded. rewrite length_app. simpl.
  destruct (Nat.eqb_spec (length l) n); [rewrite length_drop; lia|lia].
Qed.

Section Invariant.
Context (oc_rt_flatten_at : list Z → Z → list Z).
Notation apply := (oc_model_apply oc_rt_flatten_at).

Lemma fold_channel_id e c : ch_id (fold_channel oc_rt_flatten_at e c) = ch_id c.
Proof. done. Qed.
Lemma fold_channel_ok e c : chan_ok c → 0 <= ec_count e < 2 ^ 31 → chan_ok (fold_channel oc_rt_flatten_at e c).
Proof.
  intros [[Ha Hi] Hm Hu] He. assert (i32 (ec_count e) = ec_count e) as E by (unfold i32; zlia).
  constructor; simpl; [by constructor|done|]. rewrite E. destruct (_ && _) eqn:Eb; lia.
Qed.

Lemma append_ok c d : chan_ok c → 0 < dl_id d → chan_ok (append c d).1 ∧ ch_id (append c d).1 = ch_id c.
Proof.
  intros [Ht Hm Hu] Hd. destruct (append_spec c d Ht Hd) as (_ & Hok & _ & Hmem). split.
  - constructor; [done| |].
    + apply List.Forall_forall. intros x Hx%list_elem_of_In%Hmem. rewrite List.Forall_forall in Hm.
      destruct Hx as [Hx|[_ ->]]; [by apply Hm, list_elem_of_In|apply new_msg_ok].
    + unfold append, channel_append. by case_match.
  - unfold append, channel_append. by case_match.
Qed.
Lemma count_message_ok m mid author act c :
  chan_ok c → ev_action_ok act → chan_ok (count_message m mid author act c).
Proof.
  intros Hc Ha. unfold count_message.
  assert (Hc' : chan_ok (c <| ch_msgs := alter (fun x => msg_set_action x act) (length (ch_msgs c) - 1)%nat (ch_msgs c) |>)).
  { apply chan_ok_msgs; [done|apply alter_ids; auto with client|apply Forall_alter_ok; auto with client; apply Hc]. }
  revert Hc'. generalize (c <| ch_msgs := alter (fun x => msg_set_action x act) (length (ch_msgs c) - 1)%nat (ch_msgs c) |>).
  intros c' [Ht Hm Hu]. destruct (list.last (ch_msgs c')) as [x|]; [|by constructor].
  destruct (_ && _); [|by constructor]. constructor; simpl; [by constructor; apply Ht|done|]. case_match; lia.
Qed.
Lemma count_message_id m mid author act c : ch_id (count_message m mid author act c) = ch_id c.
Proof. unfold count_message. by repeat case_match. Qed.

Lemma on_message_ok m ch author name mid time kind stored body act :
  model_ok m → 0 < mid → ev_action_ok act →
  model_ok (on_message oc_rt_flatten_at m ch author name mid time kind stored body act).
Proof.
  intros Hm Hid Ha. unfold on_message.
  set (m1 := upd_channel ch _ (channel_ensure m ch)).
  assert (Hm1 : model_ok m1).
  { apply upd_channel_ok; [by apply channel_ensure_ok| |].
    - intros c Hc. unfold preview_message. repeat case_match; try done. by eapply chan_ok_same.
    - intros c. unfold preview_message. by repeat case_match. }
  destruct (oc_model_channel m1 ch) as [c|] eqn:Ec; [|done].
  assert (Hin : c ∈ md_channels m1 ∧ ch_id c = ch) by (by apply row_Some in Ec).
  assert (Hc : chan_ok c) by (pose proof (mk_chans _ Hm1) as H; rewrite List.Forall_forall in H; apply H, list_elem_of_In; tauto).
  pose proof (append_ok c (mk_delivery author name mid time kind stored body) Hc Hid) as [Hc' Hid'].
  unfold append in Hc', Hid'. simpl in Hc', Hid'. destruct (channel_append c _ _ _ _ _ _ _) as [c' []]; [|done]. simpl in *.
  assert (Hm2 : model_ok (upd_channel ch (fun _ => count_message m1 mid author act c') m1)).
  { apply model_ok_channels; [done| |].
    - apply upd_first_keys. intros x Hx. rewrite count_message_id. destruct Hin. congruence.
    - apply Forall_upd_first; [apply Hm1|]. intros. by apply count_message_ok. }
  unfold listen_push. destruct (_ && _ && _); [|done]. destruct Hm2. constructor; simpl; try done.
  apply push_bounded_length; [done|unfold OC_LISTEN_QUEUE_MAX; lia].
Qed.

Lemma set_read_marker_ok m ch mid : model_ok m → model_ok (oc_model_set_read_marker m ch mid).
Proof.
  intros Hm. apply upd_channel_ok; [done| |done]. intros c [[Ha Hi] Hx Hu].
  constructor; simpl; [by constructor|done|]. pose proof (countb_le (fun x => is_priority_msg m (mg_author_id x) x) (recount m c mid)).
  unfold zlen. lia.
Qed.
Lemma mark_read_ok m ch : model_ok m → model_ok (oc_model_mark_read m ch).
Proof.
  intros Hm. apply upd_channel_ok; [done| |done]. intros c [[Ha Hi] Hx Hu]. constructor; simpl; [by constructor|done|lia].
Qed.

Lemma raise_replies_ok n x : msg_ok x → msg_ok (raise_replies n x).
Proof. intros H. unfold raise_replies. case_match; [|done]. by apply (msg_ok_same x). Qed.
Lemma bump_reply_count_ok m mid n : model_ok m → model_ok (bump_reply_count m mid n).
Proof.
  intros Hm. apply model_ok_channels; [done| |].
  - induction (md_channels m) as [|c l IH]; [done|]. cbn [upd_first]. destruct (holds mid c); [done|]. by rewrite !fmap_cons, IH.
  - apply Forall_upd_first; [apply Hm|]. intros c Hc _. apply upd_msg_ok; [done|intros; by apply raise_replies_ok|].
    intros x. unfold raise_replies. by case_match.
Qed.
Lemma notice_push_ok m ch mid par au st b act : model_ok m → model_ok (notice_push oc_rt_flatten_at m ch mid par au st b act).
Proof.
  intros []. constructor; simpl; try done. apply push_bounded_length; [done|unfold OC_MAX_THREAD_NOTICES; lia].
Qed.
Lemma keys_ok_ids (l k : list oc_msg) : mg_id <$> l = mg_id <$> k → keys_ok mg_id k → keys_ok mg_id l.
Proof. unfold keys_ok. by intros ->. Qed.
Lemma on_thread_reply_ok m ch mid par au time n p st b act :
  model_ok m → ev_action_ok act →
  model_ok (on_thread_reply oc_rt_flatten_at m ch mid par au time n p st b act).
Proof.
  intros Hm Ha. unfold on_thread_reply. pose proof (bump_reply_count_ok m par n Hm) as Hm1. cbv zeta.
  set (m2 := if p && _ && _ then _ else _).
  assert (Hm2 : model_ok m2).
  { unfold m2. destruct (_ && _); [|done]. pose proof (notice_push_ok _ ch mid par au st b act Hm1) as []. by constructor. }
  clearbody m2. destruct (_ && _); [|done]. unfold thread_append. destruct (existsb _ _) eqn:Ex.
  { destruct Hm2. by constructor. }
  set (x := new_msg b [] au mid time 0 false).
  assert (Hk : keys_ok mg_id (md_thread_msgs m2 ++ [x])).
  { pose proof (keys_ok_upsert mg_id mid (fun y => y) x (md_thread_msgs m2)) as Hk. unfold upsert in Hk. rewrite Ex in Hk.
    apply Hk; [done|done|apply Hm2]. }
  destruct Hm2. constructor; simpl; try done.
  - eapply keys_ok_ids; [apply alter_ids|done]. intros y. simpl. apply msg_set_action_id.
  - apply Forall_alter_ok; [|apply Forall_app; split; [done|by constructor; [apply new_msg_ok|constructor]]].
    intros y Hy. apply (msg_ok_same (msg_set_action y act)); [|done..]. by apply msg_set_action_ok.
Qed.

Lemma fold_action_ok mid act c : chan_ok c → ev_action_ok act → chan_ok (fold_action oc_rt_flatten_at mid act c).
Proof.
  intros Hc Ha. unfold fold_action. destruct (index_of _ _) as [i|]; [|done].
  assert (H : chan_ok (upd_msg mid (fun x => msg_set_action x act) c)) by (apply upd_msg_ok; auto with client).
  repeat case_match; done || by apply (chan_ok_same _ _ H).
Qed.
Lemma fold_action_id mid act c : ch_id (fold_action oc_rt_flatten_at mid act c) = ch_id c.
Proof. unfold fold_action. by repeat case_match. Qed.
Lemma attach_to_msg_ok m mid a : model_ok m → model_ok (attach_to_msg oc_rt_flatten_at m mid a).
Proof.
  intros Hm. unfold attach_to_msg. destruct (existsb _ _).
  - apply model_ok_channels; [done| |].
    + induction (md_channels m) as [|c l IH]; [done|]. cbn [upd_first]. destruct (holds mid c); [|by rewrite !fmap_cons, IH].
      rewrite !fmap_cons. f_equal. by repeat case_match.
    + apply Forall_upd_first; [apply Hm|]. intros c Hc _.
      assert (H : chan_ok (upd_msg mid (fun x => msg_add_attach x a) c)) by (apply upd_msg_ok; auto with client).
      cbv zeta. repeat case_match; done || by apply (chan_ok_same _ _ H).
  - apply upd_thread_msg_ok; auto with client.
Qed.

Lemma group_drop_ok m g : model_ok m → model_ok (group_drop m g).
Proof.
  intros Hm. pose proof (each_channel_ok (fun c => c <| ch_groups := remove_row (Z.eqb g) (ch_groups c) |>) m Hm) as H.
  destruct H; [intros c Hc; by apply (chan_ok_same c)|done|].
  constructor; simpl in *; try done. by apply keys_ok_remove.
Qed.
Lemma groups_end_ok fuel i m : model_ok m → model_ok (groups_end fuel i m).
Proof.
  revert i m. induction fuel as [|fuel IH]; intros i m Hm; [done|]. simpl.
  destruct (md_groups m !! i) as [[g gen]|]; [|done]. case_match; apply IH; [done|by apply group_drop_ok].
Qed.

(** The events a daemon and the network thread produce: a message has an id (the daemon
    numbers them from 1; [channel_append] keeps one without), and fields are in their
    ranges. *)
Definition ev_ok (e : oc_ev) : Prop :=
  match e with
  | OC_EV_CHANNEL _ e => 0 <= ec_count e < 2 ^ 31
  | OC_EV_MESSAGE _ _ _ message_id _ _ _ _ act => 0 < message_id ∧ ev_action_ok act
  | OC_EV_REACTION _ _ _ emoji _ _ => zlen emoji < 40
  | OC_EV_EDIT _ _ _ act | OC_EV_ACTION _ _ act | OC_EV_RESTORE _ _ _ act _ | OC_EV_THREAD_REPLY _ _ _ _ _ _ _ _ _ act => ev_action_ok act
  | _ => True
  end.

Lemma fields_ok m m' :
  model_ok m → md_channels m' = md_channels m → md_thread_msgs m' = md_thread_msgs m → md_notices m' = md_notices m →
  md_listen_queue m' = md_listen_queue m → md_groups m' = md_groups m → model_ok m'.
Proof. intros [] E1 E2 E3 E4 E5. constructor; by rewrite ?E1, ?E2, ?E3, ?E4, ?E5. Qed.

Ltac msg_same := eapply msg_ok_same; [eassumption|reflexivity..].
Ltac in_msg := try (intros c Hc; apply upd_msg_ok; [done|intros ? ?|intros ?]); try done; intros; auto with client.
Lemma apply_ok m e : model_ok m → ev_ok e → model_ok (apply m e).
Proof.
  intros Hm He. destruct e; simpl in He; cbn [oc_model_apply].
  - apply upd_channel_ok; [by apply channel_ensure_ok|intros; by apply fold_channel_ok|apply fold_channel_id].
  - apply upd_channel_ok; [done| |done]. intros c Hc. by apply (chan_ok_same c).
  - destruct He. by apply on_message_ok.
  - apply upd_thread_msg_ok; [apply each_channel_ok|..]; in_msg; msg_same.
  - case_match; [|done]. by apply (fields_ok m).
  - case_match; [|done]. by apply (fields_ok m).
  - cbv zeta. match goal with |- context [upd_thread_msg ?a ?f ?x] => assert (model_ok (upd_thread_msg a f x)) as Hb end.
    { apply upd_thread_msg_ok; [apply each_channel_ok|..]; in_msg; msg_same. }
    case_match; [by apply (fields_ok _ _ Hb)|done].
  - cbv zeta. match goal with |- context [upd_thread_msg ?a ?f ?x] => assert (model_ok (upd_thread_msg a f x)) as Hb end.
    { apply upd_thread_msg_ok; [apply upd_channel_ok|..]; in_msg; msg_same. }
    case_match; [by apply (fields_ok _ _ Hb)|done].
  - case_match; [|done]. by apply (fields_ok m).
  - case_match; [|done]. by apply (fields_ok m).
  - apply upd_channel_ok; in_msg.
  - apply upd_thread_msg_ok; [apply upd_channel_ok|..]; in_msg; [by apply fold_action_ok|apply fold_action_id].
  - apply upd_thread_msg_ok; [apply upd_channel_ok|..]; in_msg.
  - apply upd_channel_ok; in_msg.
  - repeat case_match; try done. apply upd_channel_ok; in_msg.
  - apply upd_channel_ok; in_msg.
  - apply upd_thread_msg_ok; [apply upd_channel_ok|..]; in_msg.
  - apply upd_thread_msg_ok; [apply upd_channel_ok|..]; in_msg.
  - by apply on_thread_reply_ok.
  - case_match; [|done]. by apply (fields_ok m).
  - by apply bump_reply_count_ok.
  - apply each_channel_ok; [by apply (fields_ok m)| |done]. intros c Hc. by apply (chan_ok_same c).
  - apply upd_channel_ok; [done| |done]. intros c Hc. by apply (chan_ok_same c).
  - by apply (fields_ok m).
  - destruct group as [g|]; [|done]. destruct Hm. constructor; simpl; try done. by apply keys_ok_upsert.
  - by apply group_drop_ok.
  - pose proof (groups_end_ok (length (md_groups m)) 0 m Hm). by eapply fields_ok.
  - apply upd_channel_ok; [done| |done]. intros c Hc. by apply (chan_ok_same c).
  - case_match; [by apply set_read_marker_ok|]. apply upd_channel_ok; [done| |done]. intros c Hc. by apply (chan_ok_same c).
  - by apply mark_read_ok.
  - by apply attach_to_msg_ok.
Qed.

(** *** Everything a client does to the model *)

Inductive client_op :=
  | Fold (e : oc_ev)
  | Open_thread (channel_id parent_id : Z)
  | Close_thread
  | Mark_read (channel_id : Z)
  | Set_read_marker (channel_id message_id : Z)
  | Take_notices (quiet paused : bool) (max : Z).
Definition client_step (m : oc_model) (o : client_op) : oc_model :=
  match o with
  | Fold e => apply m e
  | Open_thread ch parent => oc_model_open_thread m ch parent
  | Close_thread => oc_model_close_thread m
  | Mark_read ch => oc_model_mark_read m ch
  | Set_read_marker ch mid => oc_model_set_read_marker m ch mid
  | Take_notices q p max => snd (oc_model_thread_notify_take m q p max)
  end.
Definition client_run (m : oc_model) (os : list client_op) : oc_model := foldl client_step m os.
Definition op_ok (o : client_op) : Prop := match o with Fold e => ev_ok e | _ => True end.

Lemma client_step_ok m o : model_ok m → op_ok o → model_ok (client_step m o).
Proof.
  intros Hm Ho. destruct o; simpl in *.
  - by apply apply_ok.
  - destruct Hm. constructor; simpl; try done. apply NoDup_nil_2.
  - destruct Hm. constructor; simpl; try done. apply NoDup_nil_2.
  - by apply mark_read_ok.
  - by apply set_read_marker_ok.
  - destruct Hm. constructor; simpl; try done. lia.
Qed.
Lemma client_run_ok m os : model_ok m → Forall op_ok os → model_ok (client_run m os).
Proof. intros Hm Hos. revert m Hm. induction Hos as [|o os Ho Hos IH]; intros m Hm; simpl; [done|]. by apply IH, client_step_ok. Qed.
Lemma model_init_ok : model_ok oc_model_init.
Proof. constructor; simpl; try apply NoDup_nil_2; try constructor; lia. Qed.

(** ** Unread counts *)



Lemma mentions_set_action m x act : mentions m (msg_set_action x act) = mentions m x.
Proof. unfold msg_set_action. repeat case_match; try done; unfold mentions; simpl; by repeat case_match. Qed.
Lemma keyword_set_action m x act : keyword m (msg_set_action x act) = keyword m x.
Proof. unfold msg_set_action. repeat case_match; try done; unfold keyword; simpl; by repeat case_match. Qed.
Lemma counts_set_action m c a x act : counts m c a (msg_set_action x act) = counts m c a x.
Proof. unfold counts. by rewrite mentions_set_action, keyword_set_action. Qed.
Lemma priority_set_action m a x act : is_priority_msg m a (msg_set_action x act) = is_priority_msg m a x.
Proof. unfold is_priority_msg. by rewrite mentions_set_action, keyword_set_action. Qed.





Lemma channel_upd m ch f id : (∀ c, ch_id c = ch → ch_id (f c) = ch) →
  oc_model_channel (upd_channel ch f m) id = if decide (id = ch) then f <$> oc_model_channel m ch else oc_model_channel m id.
Proof. intros Hf. apply (row_upd_first ch_id ch id f (md_channels m) Hf). Qed.


Lemma channel_ensure_spec m ch id :
  oc_model_channel (channel_ensure m ch) id =
  if decide (id = ch) then Some (default (new_channel ch (md_notify_default m)) (oc_model_channel m ch))
  else oc_model_channel m id.
Proof.
  pose proof (row_upsert ch_id ch id (fun c => c) (new_channel ch (md_notify_default m)) (md_channels m)) as H.
  unfold upsert in H. unfold channel_ensure, oc_model_channel.
  destruct (existsb (has_key ch_id ch) (md_channels m)) eqn:Ex.
  - assert (upd_first (has_key ch_id ch) (fun c => c) (md_channels m) = md_channels m) as E.
    { clear. induction (md_channels m) as [|c l IH]; [done|]. simpl. case_match; [done|by rewrite IH]. }
    rewrite E in H. rewrite H by done. case_decide; [|done]. by destruct (row ch_id ch _).
  - simpl. rewrite H by done. case_decide; [|done]. by destruct (row ch_id ch _).
Qed.




(** C23: The client's model is always well formed.  From the initial model, whatever events are
    folded -- of messages that have an id, with an unread count under 2^31 and an emoji under 40
    bytes ([ev_ok]); edits with or without the answer about their action -- and whatever a
    frontend does in between, channel ids are distinct; every channel's
    messages ascend by id without a repetition and lie at or below its high-water mark; the
    badge's count is between zero and the unread count; every message, in a channel or in the
    open thread, has an action only while it is not deleted and, until it is edited, only
    inside its body, at most three link previews and sixteen files without a repetition, one row per emoji, and neither
    poll nor previews once deleted; thread replies are distinct; and the notice and listening
    queues keep their bounds. *)
Theorem client_model_invariant :
  model_ok oc_model_init ∧
  ∀ m os, model_ok m → Forall op_ok os → model_ok (client_run m os).
Proof. split; [apply model_init_ok|]. intros m os. apply client_run_ok. Qed.

End Invariant.

(** ** The transcript the reducer builds *)

(** A channel's transcript: its messages, whatever action the last event left on them,
    and its mark. *)
Definition bare (x : oc_msg) : oc_msg := x <| mg_action := no_action |>.
Definition strip (c : oc_channel) : oc_channel :=
  new_channel 0 0 <| ch_msgs := bare <$> ch_msgs c |> <| ch_high_water := ch_high_water c |>.
Definition transcript_of (ch : Z) (m : oc_model) : oc_channel := strip (default (new_channel ch 0) (oc_model_channel m ch)).
(** The messages the events deliver to channel [ch]. *)
Definition delivered (ch : Z) (e : oc_ev) : option delivery :=
  match e with
  | OC_EV_MESSAGE ch' author name mid time kind stored body _ =>
      if ch' =? ch then Some (mk_delivery author name mid time kind stored body) else None
  | _ => None
  end.
Definition is_message (e : oc_ev) : bool := match e with OC_EV_MESSAGE _ _ _ _ _ _ _ _ _ => true | _ => false end.

Lemma bare_set_action x act : bare (msg_set_action x act) = bare x.
Proof. unfold msg_set_action. by repeat case_match. Qed.
Lemma has_bare mid (l : list oc_msg) : existsb (has_key mg_id mid) (bare <$> l) = existsb (has_key mg_id mid) l.
Proof. induction l as [|x l IH]; [done|]. by rewrite fmap_cons; cbn [existsb]; rewrite IH. Qed.
Lemma insert_pos_bare n (l : list oc_msg) mid : insert_pos n (bare <$> l) mid = insert_pos n l mid.
Proof. induction n as [|k IH]; [done|]. cbn [insert_pos]. rewrite list_lookup_fmap. destruct (l !! k); [|done]. cbn [fmap option_fmap option_map]. by rewrite IH. Qed.
Lemma bare_insert k x (l : list oc_msg) : bare <$> (take k l ++ x :: drop k l) = take k (bare <$> l) ++ bare x :: drop k (bare <$> l).
Proof. by rewrite fmap_app, fmap_cons, fmap_take, fmap_drop. Qed.
Lemma strip_deliver c d : strip (deliver c d) = deliver (strip c) d.
Proof.
  unfold deliver, append, channel_append. change (ch_msgs (strip c)) with (bare <$> ch_msgs c). change (ch_high_water (strip c)) with (ch_high_water c).
  rewrite has_bare, length_fmap, insert_pos_bare.
  destruct (_ && existsb _ _); [done|]. cbn [fst].
  change (strip (c <| ch_msgs := ?l |> <| ch_high_water := ?h |>)) with (new_channel 0 0 <| ch_msgs := bare <$> l |> <| ch_high_water := h |>).
  by rewrite bare_insert.
Qed.
Lemma strip_count m mid a act c : strip (count_message m mid a act c) = strip c.
Proof.
  assert (E : bare <$> alter (fun x => msg_set_action x act) (length (ch_msgs c) - 1)%nat (ch_msgs c) = bare <$> ch_msgs c).
  { generalize (length (ch_msgs c) - 1)%nat. induction (ch_msgs c) as [|x l IH]; intros [|i]; [done..| |].
    - change (alter (fun x => msg_set_action x act) 0%nat (x :: l)) with (msg_set_action x act :: l). by rewrite !fmap_cons, bare_set_action.
    - change (alter (fun x => msg_set_action x act) (S i) (x :: l)) with (x :: alter (fun x => msg_set_action x act) i l). by rewrite !fmap_cons, IH. }
  unfold count_message, strip. repeat case_match; cbn [ch_msgs ch_high_water set_field]; by rewrite E.
Qed.

Section Transcript.
Context (oc_rt_flatten_at : list Z → Z → list Z).
Notation apply := (oc_model_apply oc_rt_flatten_at).

Lemma strip_preview mid a b act c : strip (preview_message oc_rt_flatten_at mid a b act c) = strip c.
Proof. unfold preview_message. by repeat case_match. Qed.
Lemma message_transcript m ch ch' author name mid time kind stored body act :
  transcript_of ch (on_message oc_rt_flatten_at m ch' author name mid time kind stored body act) =
  if ch' =? ch then deliver (transcript_of ch m) (mk_delivery author name mid time kind stored body) else transcript_of ch m.
Proof.
  unfold on_message. set (f := preview_message oc_rt_flatten_at mid author body act). set (m1 := upd_channel ch' f _).
  assert (Hf : ∀ c, ch_id (f c) = ch_id c) by (intros c; unfold f, preview_message; by repeat case_match).
  assert (E1 : ∀ id, oc_model_channel m1 id = if decide (id = ch') then Some (f (default (new_channel ch' (md_notify_default m)) (oc_model_channel m ch'))) else oc_model_channel m id).
  { intros id. unfold m1. rewrite channel_upd by (by intros c <-). rewrite !channel_ensure_spec. by case_decide; [rewrite decide_True|]. }
  assert (T1 : transcript_of ch m1 = transcript_of ch m).
  { unfold transcript_of. rewrite E1. case_decide as Hd; [|done]. subst ch'. etransitivity; [apply (strip_preview mid author body act)|]. by destruct (oc_model_channel m ch). }
  clearbody m1. rewrite E1, decide_True by done. set (c := f _) in *. set (d := mk_delivery author name mid time kind stored body).
  change (channel_append c author name mid time kind stored body) with (append c d). destruct (append c d) as [c' b] eqn:Ea.
  assert (Hc : c' = deliver c d) by (unfold deliver; by rewrite Ea).
  assert (Tc : ch' = ch → transcript_of ch m1 = strip c) by (intros ->; unfold transcript_of; by rewrite E1, decide_True).
  destruct b.
  - assert (T2 : ∀ m2, md_channels m2 = md_channels (upd_channel ch' (fun _ => count_message m1 mid author act c') m1) →
      transcript_of ch m2 = if ch' =? ch then deliver (transcript_of ch m) d else transcript_of ch m).
    { intros m2 E2. unfold transcript_of at 1, oc_model_channel at 1. rewrite E2.
      change (row ch_id ch (md_channels (upd_channel ch' ?g ?m))) with (oc_model_channel (upd_channel ch' g m) ch).
      rewrite channel_upd.
      2:{ intros x _. rewrite count_message_id, Hc. unfold deliver, append, channel_append. assert (ch_id c = ch').
          { unfold c. rewrite Hf. destruct (oc_model_channel m ch') as [c0|] eqn:E0; [by apply row_Some in E0 as [_ ?]|done]. }
          by case_match. }
      rewrite <- T1. destruct (Z.eqb_spec ch' ch) as [Heq|Hne].
      - rewrite (Tc Heq). rewrite decide_True by congruence. rewrite E1, decide_True by done. etransitivity; [apply (strip_count m1 mid author act c')|]. by rewrite Hc, strip_deliver.
      - rewrite decide_False by congruence. done. }
    apply T2. unfold listen_push. by destruct (_ && _ && _).
  - assert (Hno : deliver c d = c).
    { revert Ea. unfold deliver, append, channel_append. by case_match. }
    rewrite T1. destruct (Z.eqb_spec ch' ch) as [Heq|]; [|done]. rewrite <- T1, (Tc Heq), <- strip_deliver. by rewrite Hno.
Qed.
Lemma run_transcript ch es : Forall (fun e => is_message e = true) es → ∀ m,
  transcript_of ch (oc_model_run oc_rt_flatten_at m es) = foldl deliver (transcript_of ch m) (omap (delivered ch) es).
Proof.
  induction 1 as [|e es He Hes IH]; intros m; [done|]. unfold oc_model_run. cbn [foldl]. etransitivity; [apply IH|].
  destruct e; try done. cbn [oc_model_apply omap list_omap delivered]. rewrite message_transcript. by destruct (_ =? _).
Qed.

(** C14: A channel's transcript does not depend on the order in which messages arrive.
    However live messages, history pages and redeliveries are interleaved, in this channel and
    others -- as long as one id, never 0, always names one message -- the reducer leaves the
    channel with the same messages in the same order, ascending by id with none twice, and the
    same high-water mark.  (Messages are compared without the action they may carry, which the
    reducer sets on the last message of the array: see [action_on_newest].) *)
Theorem transcript_order_free (m : oc_model) (ch : Z) (es es' : list oc_ev) :
  transcript_ok (transcript_of ch m) → Forall (fun e => is_message e = true) es → Forall (fun e => is_message e = true) es' →
  Forall (fun d => 0 < dl_id d) (omap (delivered ch) es) → consistent (omap (delivered ch) es) →
  (∀ d, d ∈ omap (delivered ch) es ↔ d ∈ omap (delivered ch) es') →
  let t := transcript_of ch (oc_model_run oc_rt_flatten_at m es) in
  let t' := transcript_of ch (oc_model_run oc_rt_flatten_at m es') in
  transcript_ok t ∧ ch_msgs t' = ch_msgs t ∧ ch_high_water t' = ch_high_water t.
Proof. intros Hc He He' Hp Hcons Hext. cbv zeta. rewrite !run_transcript by done. by apply deliver_order_free. Qed.
End Transcript.

(** *** Instances *)

Definition plain_text (t : list Z) (cap : Z) : list Z := fit cap t.
Definition no_act : ev_action := mk_ev_action true false 0 0 [].
(** User 1, called "ann". *)
Definition ex_model : oc_model := oc_model_init <| md_user_id := 1 |> <| md_users := [mk_member 1 [97; 110; 110]] |>.
Definition ex_message (id : Z) (body : list Z) : oc_ev := OC_EV_MESSAGE 7 2 [98; 111; 98] id 0 0 false (Some body) no_act.
(** ["@ann"], ["hi"] *)
Definition ex_mention : list Z := [64; 97; 110; 110].
Definition ex_hi : list Z := [104; 105].

Lemma ex_model_ok : model_ok ex_model.
Proof. apply (fields_ok oc_model_init); done || apply model_init_ok. Defined.

(** Messages 30, 10, 20 with repeats, and 10, 20, 30. *)
Lemma transcript_order_free_witness :
  let run ids := oc_model_run plain_text ex_model ((fun id => ex_message id ex_hi) <$> ids) in
  ch_msgs (transcript_of 7 (run [30; 10; 10; 20; 30])) = ch_msgs (transcript_of 7 (run [10; 20; 30])).
Proof.
  apply (transcript_order_free plain_text ex_model 7 ((fun id => ex_message id ex_hi) <$> [10; 20; 30])).
  - constructor; [constructor|by intros ? ?%not_elem_of_nil].
  - repeat constructor.
  - repeat constructor.
  - repeat constructor.
  - intros d d' Hd Hd' E. simpl in Hd, Hd'. rewrite !elem_of_cons in Hd, Hd'.
    destruct Hd as [->|[->|[->|?%not_elem_of_nil]]], Hd' as [->|[->|[->|?%not_elem_of_nil]]]; done.
  - intros d. simpl. rewrite !elem_of_cons. tauto.
Defined.

Lemma client_model_invariant_witness :
  model_ok (client_run plain_text ex_model
    [Fold (ex_message 10 ex_mention); Open_thread 7 10; Fold (ex_message 9 ex_hi); Fold (OC_EV_DELETE 7 10)]).
Proof.
  apply (proj2 (client_model_invariant plain_text)); [exact ex_model_ok|].
  repeat constructor; simpl; lia.
Defined.


(** A message of an older page is counted by the newest message's text.  In a channel set to
    mentions only, after a live "@ann" the older "hi" of a history page is counted as a mention
    too, because the reducer asks about the last message of the array, not the one it has just
    inserted before it: the channel shows two unread mentions where a recount finds one. *)
Theorem older_counted_by_newest :
  let m := oc_model_run plain_text (ex_model <| md_notify_default := OC_NOTIFY_MENTIONS |>)
             [ex_message 10 ex_mention; ex_message 9 ex_hi] in
  ∃ c, oc_model_channel m 7 = Some c ∧ mg_id <$> ch_msgs c = [9; 10] ∧
       ch_unread c = 2 ∧ ch_priority_unread c = 2 ∧ zlen (recount m c (ch_read_marker c)) = 1.
Proof. eexists. split; [vm_compute; reflexivity|]. split_and!; vm_compute; reflexivity. Qed.
(** An edit handed on without the answer about its action, as one is when the connection
    goes first, keeps the old action over the new body: here it starts two bytes past the end
    of it, where the one-line preview would read. *)
Definition ex_action : ev_action := mk_ev_action true true 3 2 [].
Definition ex_unpaired : ev_action := mk_ev_action false false 0 0 [].
Example edit_keeps_stale_action :
  let m := oc_model_run plain_text ex_model
             [OC_EV_MESSAGE 7 2 [98; 111; 98] 10 0 0 false (Some [47; 109; 101; 104; 105]) ex_action; OC_EV_EDIT 7 10 (Some [104]) ex_unpaired] in
  ∃ c x, oc_model_channel m 7 = Some c ∧ ch_msgs c = [x] ∧ mg_body x = Some [104] ∧ ac_present (mg_action x) = true ∧ ac_start (mg_action x) = 3.
Proof. eexists _, _. split; [vm_compute; reflexivity|]. split; [reflexivity|]. split_and!; vm_compute; reflexivity. Qed.
(** The action an older message of a history page carries is set on the newest message of
    the channel, which arrived before it. *)
Definition ex_page : oc_ev := OC_EV_MESSAGE 7 2 [98; 111; 98] 9 0 0 false (Some [47; 109; 101; 104; 105]) ex_action.
Definition ex_newest : oc_ev := OC_EV_MESSAGE 7 2 [98; 111; 98] 10 0 0 false (Some [104; 101; 108; 108; 111]) ex_unpaired.
Definition actions_of (es : list oc_ev) : option (list (Z * bool)) :=
  c ← oc_model_channel (oc_model_run plain_text ex_model es) 7; Some ((fun x => (mg_id x, ac_present (mg_action x))) <$> ch_msgs c).
Example action_on_newest : actions_of [ex_page; ex_newest] = Some [(9, true); (10, false)] ∧ actions_of [ex_newest; ex_page] = Some [(9, false); (10, true)].
Proof. split; vm_compute; reflexivity. Qed.
