(* ===== verification/Demolimits.v ===== *)
(** * The daily limits of a demo workspace: [daemon/demolimits.c]

    Counts per person and for the workspace, in memory, for one UTC day.  The
    people are kept by open addressing: the search is [probe] of [OpenAddr] over
    [DL_USERS] slots, whose [next] is [(i + 1) % DL_USERS] for a power of two.

    The specification counts the history of a day instead: a request is granted
    when fewer than the limit were granted before it. *)
From S2P Require Import Prelude.
From S2P Require Import OpenAddr.
From stdpp Require Import base tactics list numbers gmap.
Local Open Scope Z_scope.
Local Open Scope oc_scope.

Inductive oc_dl_kind :=
  | OC_DL_MESSAGE | OC_DL_UPLOAD | OC_DL_CALL | OC_DL_INVITE | OC_DL_SUMMARY | OC_DL_PUSH | OC_DL_MAIL.
#[export] Instance oc_dl_kind_eq_dec : EqDecision oc_dl_kind.
Proof. solve_decision. Defined.
Definition OC_DL_N : nat := 7.
Definition dl_index (k : oc_dl_kind) : nat :=
  match k with
  | OC_DL_MESSAGE => 0 | OC_DL_UPLOAD => 1 | OC_DL_CALL => 2 | OC_DL_INVITE => 3
  | OC_DL_SUMMARY => 4 | OC_DL_PUSH => 5 | OC_DL_MAIL => 6
  end%nat.

(** Per person and for the workspace; 0 is none. *)
Definition LIMITS (k : oc_dl_kind) : Z * Z :=
  match k with
  | OC_DL_MESSAGE => (200, 5000)
  | OC_DL_UPLOAD => (20, 500)
  | OC_DL_CALL => (30, 500)
  | OC_DL_INVITE => (10, 50)
  | OC_DL_SUMMARY => (5, 100)
  | OC_DL_PUSH => (0, 5000)
  | OC_DL_MAIL => (0, 20)
  end.
Definition oc_dl_limits (k : oc_dl_kind) : Z * Z := LIMITS k.

Definition DL_USERS : Z := 2048.

Record oc_dl := mk_dl {
  dl_day : Z;
  dl_ws : list Z;
  dl_user : list Z;
  dl_n : list (list Z) }.
#[export] Instance dl_eta : Eta oc_dl := fun d => mk_dl (dl_day d) (dl_ws d) (dl_user d) (dl_n d).

Definition no_counts : list Z := replicate OC_DL_N 0.
Definition dl_clear (day : Z) : oc_dl :=
  mk_dl day no_counts (replicate (Z.to_nat DL_USERS) 0) (replicate (Z.to_nat DL_USERS) no_counts).
Definition oc_dl_new : oc_dl := dl_clear 0.

Definition dl_home (user : Z) : Z := Z.shiftr (u64 (user * 0x9E3779B97F4A7C15)) 40 mod DL_USERS.
(** The slot of a person's counts, claimed if it was empty; [None] for the
    workspace's own and when the table is full. *)
Definition user_counts (d : oc_dl) (user : Z) : option Z * oc_dl :=
  if user =? 0 then (None, d)
  else match probe 0 (Z.to_nat DL_USERS) DL_USERS (dl_user d) user (dl_home user) with
       | None => (None, d)
       | Some i => (Some i, if at_ 0 (dl_user d) i =? user then d else d <| dl_user := set_ i user (dl_user d) |>)
       end.

Definition count_at (k : oc_dl_kind) (n : list Z) : Z := nth (dl_index k) n 0.
Definition bump (k : oc_dl_kind) (n : list Z) : list Z := <[dl_index k := u32 (count_at k n + 1)]> n.

Definition oc_dl_take (d : oc_dl) (k : oc_dl_kind) (user now_ms : Z) : bool * oc_dl :=
  let day := now_ms / 86400000 in
  let d := if day =? dl_day d then d else dl_clear day in
  let '(per_user, per_ws) := LIMITS k in
  if negb (per_ws =? 0) && (per_ws <=? count_at k (dl_ws d)) then (false, d)
  else
    let '(n, d) := if negb (per_user =? 0) then user_counts d user else (None, d) in
    match n with
    | Some i =>
        if per_user <=? count_at k (at_ no_counts (dl_n d) i) then (false, d)
        else (true, d <| dl_ws := bump k (dl_ws d) |> <| dl_n := set_ i (bump k (at_ no_counts (dl_n d) i)) (dl_n d) |>)
    | None => (true, d <| dl_ws := bump k (dl_ws d) |>)
    end.

(** ** The specification *)

Record dl_request := mk_request { rq_kind : oc_dl_kind; rq_user : Z; rq_now : Z }.
(** The granted requests of the day, newest first. *)
Definition granted_kind (k : oc_dl_kind) (h : list (oc_dl_kind * Z)) : Z :=
  Z.of_nat (countb (fun e => bool_decide (fst e = k)) h).
Definition granted_to (k : oc_dl_kind) (user : Z) (h : list (oc_dl_kind * Z)) : Z :=
  Z.of_nat (countb (fun e => bool_decide (e = (k, user))) h).

Definition spec_take (s : Z * list (oc_dl_kind * Z)) (r : dl_request) : bool * (Z * list (oc_dl_kind * Z)) :=
  let day := rq_now r / 86400000 in
  let h := if day =? fst s then snd s else [] in
  let '(per_user, per_ws) := LIMITS (rq_kind r) in
  let ok := (granted_kind (rq_kind r) h <? per_ws) &&
            ((per_user =? 0) || (rq_user r =? 0) || (granted_to (rq_kind r) (rq_user r) h <? per_user)) in
  (ok, (day, if ok then (rq_kind r, rq_user r) :: h else h)).

Fixpoint dl_run (d : oc_dl) (rs : list dl_request) : list bool :=
  match rs with
  | [] => []
  | r :: rs => let '(ok, d) := oc_dl_take d (rq_kind r) (rq_user r) (rq_now r) in ok :: dl_run d rs
  end.
Fixpoint dl_spec_run (s : Z * list (oc_dl_kind * Z)) (rs : list dl_request) : list bool :=
  match rs with
  | [] => []
  | r :: rs => let '(ok, s) := spec_take s r in ok :: dl_spec_run s rs
  end.

(** ** Refinement *)

Lemma dl_power : power_of_two DL_USERS.
Proof. exists 11. split; [lia|done]. Qed.
Lemma dl_home_ok user : slot_ok DL_USERS (dl_home user).
Proof. unfold slot_ok, dl_home. apply Z.mod_pos_bound. done. Qed.

Abbreviation dl_repr := (repr 0 no_counts DL_USERS dl_home).

(** The counts of a person in the table, nothing for one not there. *)
Definition counts_of (M : gmap Z (list Z)) (user : Z) : list Z := default no_counts (M !! user).
Lemma counts_of_same M u n : counts_of (<[u := n]> M) u = n.
Proof. unfold counts_of. by rewrite lookup_insert_eq. Qed.
Lemma counts_of_other M u u' n : u ≠ u' → counts_of (<[u := n]> M) u' = counts_of M u'.
Proof. intros. unfold counts_of. by rewrite lookup_insert_ne. Qed.
Definition dl_empty_clear (d : oc_dl) : Prop :=
  ∀ i, slot_ok DL_USERS i → at_ 0 (dl_user d) i = 0 → at_ no_counts (dl_n d) i = no_counts.

Record dl_ok (people : gset Z) (d : oc_dl) (h : list (oc_dl_kind * Z)) : Prop := {
  ok_len : length (dl_ws d) = OC_DL_N;
  ok_ws : ∀ k, count_at k (dl_ws d) = granted_kind k h;
  ok_below : ∀ k, granted_kind k h <= snd (LIMITS k);
  ok_clear : dl_empty_clear d;
  ok_table : ∃ M, dl_repr (dl_user d) (dl_n d) M ∧ dom M ⊆ people ∧
    (∀ u, length (counts_of M u) = OC_DL_N) ∧
    ∀ k u, u ≠ 0 → fst (LIMITS k) ≠ 0 → count_at k (counts_of M u) = granted_to k u h }.

Lemma at_replicate {A} (x : A) n i : at_ x (replicate n x) i = x.
Proof. unfold at_. rewrite nth_lookup. destruct (replicate n x !! Z.to_nat i) eqn:E; [|done]. by apply lookup_replicate in E as [-> _]. Qed.
Lemma set_same {A} (x : A) i l : set_ i (at_ x l i) l = l.
Proof.
  unfold set_, at_. destruct (decide (Z.to_nat i < length l)%nat) as [H|H].
  - destruct (lookup_lt_is_Some_2 l (Z.to_nat i) H) as [y E]. rewrite nth_lookup, E. by apply list_insert_id.
  - apply list_insert_ge. lia.
Qed.

Lemma clear_ok people day : dl_ok people (dl_clear day) [].
Proof.
  split; cbn [dl_ws dl_clear dl_user dl_n].
  - done.
  - by intros [].
  - by intros [].
  - intros i _ _. apply at_replicate.
  - exists ∅. split_and!; [exact (repr_empty 0 no_counts DL_USERS dl_power dl_home dl_home_ok)|set_solver|done|].
    intros k u _ _. unfold counts_of. rewrite lookup_empty. by destruct k.
Qed.

Lemma bump_len k n : length (bump k n) = length n.
Proof. apply length_insert. Qed.
Lemma bump_same k n : length n = OC_DL_N → is_u32 (count_at k n + 1) → count_at k (bump k n) = count_at k n + 1.
Proof.
  intros Hn Hu. unfold count_at, bump. rewrite nth_lookup, list_lookup_insert_eq; [simpl; by apply u32_id|].
  rewrite Hn. destruct k; unfold OC_DL_N; simpl; lia.
Qed.
Lemma bump_other k k' n : k ≠ k' → count_at k' (bump k n) = count_at k' n.
Proof.
  intros Hk. unfold count_at, bump. rewrite !nth_lookup, list_lookup_insert_ne; [done|]. by destruct k, k'.
Qed.

Lemma granted_kind_cons k e h : granted_kind k (e :: h) = granted_kind k h + if decide (fst e = k) then 1 else 0.
Proof. unfold granted_kind. rewrite countb_cons. destruct (decide (fst e = k)) as [E|E]; [rewrite bool_decide_eq_true_2 by done|rewrite bool_decide_eq_false_2 by done]; simpl; lia. Qed.
Lemma granted_to_cons k u e h : granted_to k u (e :: h) = granted_to k u h + if decide (e = (k, u)) then 1 else 0.
Proof. unfold granted_to. rewrite countb_cons. destruct (decide (e = (k, u))) as [E|E]; [rewrite bool_decide_eq_true_2 by done|rewrite bool_decide_eq_false_2 by done]; simpl; lia. Qed.
Lemma granted_to_le k u h : granted_to k u h <= granted_kind k h.
Proof.
  unfold granted_to, granted_kind. induction h as [|e h IH]; [done|]. rewrite !countb_cons.
  destruct (decide (e = (k, u))) as [->|E]; [rewrite !bool_decide_eq_true_2 by done; lia|].
  rewrite (bool_decide_eq_false_2 (e = (k, u))) by done. destruct (bool_decide _); simpl; lia.
Qed.

(** The table finds the counts of anyone, or makes room for them. *)
Lemma user_counts_ok people d M u :
  dl_repr (dl_user d) (dl_n d) M → dl_empty_clear d → dom M ⊆ people → u ≠ 0 → Z.of_nat (size people) < DL_USERS →
  ∃ i users, user_counts d u = (Some i, d <| dl_user := users |>) ∧
    at_ no_counts (dl_n d) i = counts_of M u ∧
    ∀ n, dl_repr users (set_ i n (dl_n d)) (<[u := n]> M) ∧ dl_empty_clear (d <| dl_user := users |> <| dl_n := set_ i n (dl_n d) |>).
Proof.
  intros R Hc Hd Hu0 Hs.
  assert (Hsize : Z.of_nat (size M) < DL_USERS).
  { rewrite <- size_dom. pose proof (subseteq_size _ _ Hd). lia. }
  destruct (probe_total 0 no_counts DL_USERS dl_power dl_home dl_home_ok _ _ M u R Hu0 Hsize) as (i & E & Hi & Hm).
  pose proof (repr_keys _ _ _ _ _ _ _ R) as Lk. pose proof (repr_vals _ _ _ _ _ _ _ R) as Lv.
  unfold user_counts. rewrite (proj2 (Z.eqb_neq u 0) Hu0), E. unfold counts_of. destruct (M !! u) as [v|] eqn:EM.
  - destruct Hm as [Hk Hv]. rewrite Hk, Z.eqb_refl. exists i, (dl_user d). split_and!; [by destruct d|done|].
    intros n. split; [by apply (repr_insert_old 0 no_counts _ dl_power _ dl_home_ok)|].
    intros j Hj. cbn [dl_user dl_n set_field]. intros H0. rewrite at_set; [|rewrite Lv; exact Hi|apply Hj].
    destruct (Z.eqb_spec i j) as [->|]; [congruence|by apply Hc].
  - destruct Hm as [Hk Hp]. rewrite Hk. destruct (Z.eqb_spec 0 u); [done|].
    exists i, (set_ i u (dl_user d)). split_and!; [done|by apply Hc|].
    intros n0. split; [by apply (repr_insert_new 0 no_counts _ dl_power _ dl_home_ok)|].
    intros j Hj. cbn [dl_user dl_n set_field]. rewrite !at_set; [|by rewrite ?Lk, ?Lv; try apply Hi; apply Hj..].
    destruct (Z.eqb_spec i j) as [->|]; [done|by apply Hc].
Qed.

(** One more grant, seen in the workspace's counts and in a person's. *)
Lemma ws_grant k u d h : length (dl_ws d) = OC_DL_N → (∀ k, count_at k (dl_ws d) = granted_kind k h) →
  granted_kind k h < snd (LIMITS k) → ∀ k', count_at k' (bump k (dl_ws d)) = granted_kind k' ((k, u) :: h).
Proof.
  intros Hl Hw Hb k'. rewrite granted_kind_cons. cbn [fst]. destruct (decide (k = k')) as [<-|Hk].
  - rewrite bump_same; [by rewrite Hw|done|]. rewrite Hw. pose proof (granted_to_le k 0 h).
    unfold is_u32, granted_to, granted_kind in *. destruct k; cbn in Hb; lia.
  - rewrite bump_other by done. rewrite Hw. lia.
Qed.
Lemma below_grant k u h : (∀ k, granted_kind k h <= snd (LIMITS k)) → granted_kind k h < snd (LIMITS k) →
  ∀ k', granted_kind k' ((k, u) :: h) <= snd (LIMITS k').
Proof. intros Hb Hk k'. rewrite granted_kind_cons. cbn [fst]. pose proof (Hb k'). destruct (decide (k = k')) as [<-|]; lia. Qed.
Lemma small_u32 k u h : granted_kind k h < snd (LIMITS k) → is_u32 (granted_to k u h + 1).
Proof.
  pose proof (granted_to_le k u h). unfold is_u32. assert (0 <= granted_to k u h) by (unfold granted_to; lia).
  destruct k; cbn; lia.
Qed.
Lemma counts_grant k u M h : u ≠ 0 → fst (LIMITS k) ≠ 0 → granted_kind k h < snd (LIMITS k) →
  (∀ u, length (counts_of M u) = OC_DL_N) →
  (∀ k u, u ≠ 0 → fst (LIMITS k) ≠ 0 → count_at k (counts_of M u) = granted_to k u h) →
  ∀ k' u', u' ≠ 0 → fst (LIMITS k') ≠ 0 →
  count_at k' (counts_of (<[u := bump k (counts_of M u)]> M) u') = granted_to k' u' ((k, u) :: h).
Proof.
  intros Hu Hf Hs Hl Hc k' u' Hu' Hf'. rewrite granted_to_cons.
  destruct (decide (u = u')) as [<-|Hne]; [rewrite counts_of_same|rewrite counts_of_other by done].
  - destruct (decide (k = k')) as [<-|Hk].
    + rewrite decide_True by done. rewrite bump_same; [by rewrite Hc|done|]. rewrite Hc by done. by apply small_u32.
    + rewrite bump_other by done. rewrite decide_False by congruence. rewrite Hc by done. lia.
  - rewrite decide_False by congruence. rewrite Hc by done. lia.
Qed.
Lemma counts_skip k u h k' u' : u' ≠ 0 → fst (LIMITS k') ≠ 0 → fst (LIMITS k) = 0 ∨ u = 0 →
  granted_to k' u' ((k, u) :: h) = granted_to k' u' h.
Proof. intros Hu Hf H. rewrite granted_to_cons. rewrite decide_False; [lia|]. intros [= -> ->]. by destruct H. Qed.

(** A request of a day under way. *)
Lemma take_ok people d h k u now :
  dl_ok people d h → now / 86400000 = dl_day d → u = 0 ∨ u ∈ people → Z.of_nat (size people) < DL_USERS →
  ∃ d', oc_dl_take d k u now = (fst (spec_take (dl_day d, h) (mk_request k u now)), d') ∧
    dl_day d' = dl_day d ∧ dl_ok people d' (snd (snd (spec_take (dl_day d, h) (mk_request k u now)))).
Proof.
  intros [Hl Hw Hb Hc (M & R & Hd & HL & HM)] Hday Hu Hs. unfold oc_dl_take, spec_take. cbn [rq_kind rq_user rq_now fst snd].
  rewrite Hday, Z.eqb_refl. destruct (LIMITS k) as [per_user per_ws] eqn:EL.
  assert (Hpw : per_ws =? 0 = false) by (destruct k; injection EL as <- <-; done).
  rewrite Hpw, Hw. cbn [negb andb]. destruct (Z.leb_spec per_ws (granted_kind k h)) as [Hf|Hf].
  { rewrite (proj2 (Z.ltb_ge (granted_kind k h) per_ws) Hf). cbn [andb fst snd]. exists d. split_and!; [done..|].
    split; [done..|]. by exists M. }
  rewrite (proj2 (Z.ltb_lt (granted_kind k h) per_ws) Hf). cbn [andb fst snd].
  assert (Hf' : granted_kind k h < snd (LIMITS k)) by (by rewrite EL).
  destruct (decide (per_user = 0 ∨ u = 0)) as [Hskip|Hn].
  { assert (E : (if negb (per_user =? 0) then user_counts d u else (None, d)) = (None, d)).
    { destruct (Z.eqb_spec per_user 0); [done|]. destruct Hskip as [|Hu0]; [done|]. cbn [negb]. unfold user_counts. by rewrite Hu0. }
    rewrite E. assert (E2 : (per_user =? 0) || (u =? 0) = true) by (destruct Hskip as [->| ->]; [done|apply orb_true_r]).
    rewrite E2. cbn [orb fst snd]. eexists. split_and!; [done|done|].
    split; cbn [dl_ws dl_user dl_n set_field]; [by rewrite bump_len|by apply ws_grant|by apply below_grant|exact Hc|].
    exists M. split_and!; [done..|]. intros k' u' Hu' Hk'. rewrite counts_skip; [by apply HM|done..|]. by rewrite EL. }
  apply Decidable.not_or in Hn as [Hp0 Hu0]. destruct Hu as [|Hu]; [done|].
  destruct (user_counts_ok people d M u R Hc Hd Hu0 Hs) as (i & users & E & Hat & Hr).
  rewrite (proj2 (Z.eqb_neq _ _) Hp0), (proj2 (Z.eqb_neq _ _) Hu0). cbn [negb orb]. rewrite E. cbn [dl_n dl_ws dl_user set_field].
  rewrite Hat. rewrite HM by (rewrite ?EL; done). rewrite Z.ltb_antisym. destruct (Z.leb_spec per_user (granted_to k u h)) as [Hq|Hq]; cbn [negb fst snd].
  - eexists. split_and!; [done|done|]. destruct (Hr (counts_of M u)) as [R' C']. rewrite <- Hat, set_same in C', R'. rewrite Hat in R'.
    split; [done..| |].
    + exact C'.
    + exists (<[u := counts_of M u]> M). split_and!; [exact R'|rewrite dom_insert; set_solver| |];
        [intros u'|intros k' u' ??]; (destruct (decide (u = u')) as [<-|]; [rewrite counts_of_same|rewrite counts_of_other by done]); by (apply HL || apply HM).
  - eexists. split_and!; [done|done|]. destruct (Hr (bump k (counts_of M u))) as [R' C'].
    split; cbn [dl_ws dl_user dl_n set_field]; [by rewrite bump_len|by apply ws_grant|by apply below_grant|exact C'|].
    exists (<[u := bump k (counts_of M u)]> M). split_and!; [exact R'|rewrite dom_insert; set_solver| |].
    + intros u'. destruct (decide (u = u')) as [<-|]; [rewrite counts_of_same; by rewrite bump_len|rewrite counts_of_other by done; apply HL].
    + apply counts_grant; [done|by rewrite EL|done..].
Qed.

(** A request of a new day is a request of an empty one. *)
Lemma take_new_day d k u now : now / 86400000 ≠ dl_day d →
  oc_dl_take d k u now = oc_dl_take (dl_clear (now / 86400000)) k u now.
Proof. intros H. unfold oc_dl_take. cbn [dl_day dl_clear]. by rewrite (proj2 (Z.eqb_neq _ _) H), Z.eqb_refl. Qed.
Lemma spec_new_day s r : rq_now r / 86400000 ≠ fst s → spec_take s r = spec_take (rq_now r / 86400000, []) r.
Proof. intros H. unfold spec_take. cbn [fst snd]. by rewrite (proj2 (Z.eqb_neq _ _) H), Z.eqb_refl. Qed.
Lemma spec_day s r : fst (snd (spec_take s r)) = rq_now r / 86400000.
Proof. unfold spec_take. by destruct (LIMITS (rq_kind r)). Qed.

Lemma dl_run_ok people rs : Z.of_nat (size people) < DL_USERS → Forall (fun r => rq_user r = 0 ∨ rq_user r ∈ people) rs →
  ∀ d h, dl_ok people d h → dl_run d rs = dl_spec_run (dl_day d, h) rs.
Proof.
  intros Hs. induction 1 as [|r rs Hu _ IH]; intros d h Hok; [done|]. destruct r as [k u now]. cbn [rq_user] in Hu.
  cbn [dl_run dl_spec_run rq_kind rq_user rq_now].
  enough (∃ d', oc_dl_take d k u now = (fst (spec_take (dl_day d, h) (mk_request k u now)), d') ∧
    dl_day d' = fst (snd (spec_take (dl_day d, h) (mk_request k u now))) ∧
    dl_ok people d' (snd (snd (spec_take (dl_day d, h) (mk_request k u now))))) as (d' & -> & Hday & Hok').
  { rewrite (IH _ _ Hok'), Hday. by destruct (spec_take _ _) as [? []]. }
  rewrite spec_day. cbn [rq_now]. destruct (decide (now / 86400000 = dl_day d)) as [E|E].
  - destruct (take_ok people d h k u now Hok E Hu Hs) as (d' & ? & ? & ?). exists d'. split_and!; congruence || done.
  - rewrite (take_new_day _ _ _ _ E), (spec_new_day (dl_day d, h)) by done. cbn [rq_now].
    destruct (take_ok people _ _ k u now (clear_ok people (now / 86400000)) eq_refl Hu Hs) as (d' & ? & ? & ?). eauto.
Qed.

(** The demo limits are those of the table.  While fewer than 2048 people
    ask, the counters answer every sequence of requests the way the history of
    the day does: a request is granted exactly when fewer than the workspace's
    limit, and fewer than the person's where there is one, of its kind were
    granted since the day began; the clock may jump either way. *)
Theorem demo_limits_refine people rs :
  Z.of_nat (size people) < DL_USERS → Forall (fun r => rq_user r = 0 ∨ rq_user r ∈ (people : gset Z)) rs →
  dl_run oc_dl_new rs = dl_spec_run (0, []) rs.
Proof. intros Hs Hr. exact (dl_run_ok people rs Hs Hr oc_dl_new [] (clear_ok people 0)). Qed.

Lemma demo_limits_refine_witness :
  let day2 := 86400000 * 2 in
  let rs := replicate 6 (mk_request OC_DL_SUMMARY 7 86400005) ++ [mk_request OC_DL_SUMMARY 8 86400006; mk_request OC_DL_SUMMARY 7 day2] in
  dl_run oc_dl_new rs = [true; true; true; true; true; false; true; true].
Proof.
  intros day2 rs. rewrite (demo_limits_refine {[7; 8]} rs); [done|done|].
  apply Forall_forall. intros r Hr. right. unfold rs in Hr. apply elem_of_app in Hr as [Hr|Hr].
  - apply elem_of_replicate in Hr as [-> _]. set_solver.
  - repeat (apply elem_of_cons in Hr as [->|Hr]; [set_solver|]). by apply elem_of_nil in Hr.
Defined.
