(* ===== verification/Outq.v ===== *)
(** * What a connection is sent: the output of [daemon/netloop.c]

    A connection's staged bytes ([out]), the bytes handed to its I/O thread, the
    backfills waiting to be replayed ([bf]) and the bytes of every other frame
    held behind them ([dq]).  [oq_handed] is everything given to [oc_ioloop_send],
    in order.  Allocations are taken to succeed; whether [oc_ioloop_send] takes
    the bytes is an argument of each operation that calls it.  A connection that is
    closed is [None].

    A frame is taken whole, behind everything taken before, or not at all. *)
From S2P Require Import Prelude.
From S2P Require Import Wire.
From S2P Require Import WireLogic.
From S2P Require Import WireRead.
From S2P Require Import WireFrame.
From S2P Require Import ProtoTypes.
From S2P Require Import ProtoMessage.
From S2P Require Import ProtoChannel.
From S2P Require Import ProtoUsers.
From stdpp Require Import base tactics list numbers.
Local Open Scope Z_scope.
Local Open Scope oc_scope.

Definition OC_MAX_OUT_BUFFER : Z := 1048576.
Definition OC_BF_SLICE : nat := 64.
Definition OC_BF_SOFT : Z := 262144.
Definition OC_BF_QUEUE : nat := 8.

(** ** A backfill result *)

Record oc_attach_meta := mk_attach_meta {
  am_id : Z;
  am_filename : option (list Z);
  am_mime : option (list Z);
  am_size : Z;
  am_reclaimed : Z;
  am_media_kind : Z;
  am_duration_ms : Z;
  am_width : Z;
  am_height : Z;
  am_poster_id : Z }.

Record oc_replay_msg := mk_replay_msg {
  rm_message_id : Z;
  rm_channel_id : Z;
  rm_author_id : Z;
  rm_server_time : Z;
  rm_body : list Z;
  rm_reply_count : Z;
  rm_last_reply_at : Z;
  rm_attach : list oc_attach_meta;
  rm_author_name : option (list Z);
  rm_pinned_by : Z;
  rm_pinned_at : Z;
  rm_saved : bool;
  rm_saved_at : Z;
  rm_collapsed : bool;
  rm_kind : Z;
  rm_broadcast_stored : Z }.

Record oc_replay_react := mk_replay_react {
  rr_message_id : Z;
  rr_channel_id : Z;
  rr_user_id : Z;
  rr_count : Z;
  rr_emoji : option (list Z) }.

Record oc_replay_unfurl := mk_replay_unfurl {
  ru_message_id : Z;
  ru_channel_id : Z;
  ru_url : option (list Z);
  ru_title : option (list Z);
  ru_descr : option (list Z) }.

Record oc_replay_forward := mk_replay_forward {
  rf_message_id : Z;
  rf_channel_id : Z;
  rf_src_channel : Z;
  rf_src_message : Z;
  rf_src_author : Z;
  rf_excerpt : option (list Z);
  rf_attach_name : option (list Z);
  rf_n_attach : Z;
  rf_src_action : Z }.

Record oc_replay_action := mk_replay_action {
  ra_message_id : Z;
  ra_channel_id : Z;
  ra_actor_id : Z;
  ra_actor_name : option (list Z);
  ra_text_start : Z;
  ra_text_len : Z }.

(** [options] are the first [n_options] labels and counts. *)
Record oc_replay_poll := mk_replay_poll {
  rp_message_id : Z;
  rp_channel_id : Z;
  rp_close_at_ms : Z;
  rp_flags : Z;
  rp_mine : Z;
  rp_voters : Z;
  rp_options : list (option (list Z) * Z) }.

Record oc_dbres := mk_dbres {
  db_replay : list oc_replay_msg;
  db_rreact : list oc_replay_react;
  db_runfurl : list oc_replay_unfurl;
  db_rfwd : list oc_replay_forward;
  db_ract : list oc_replay_action;
  db_rpoll : list oc_replay_poll;
  db_high_water : Z;
  db_truncated : Z }.

(** ** The frames of a replay *)

(** [oc_slice_str(s ? s : "")]: a heap string has no NUL inside. *)
Definition str_or_empty (s : option (list Z)) : list Z := match s with Some s => s | None => [] end.

Definition fill_attach_entries (att : list oc_attach_meta) : list oc_attach_entry :=
  (fun a => mk_oc_attach_entry (am_id a) (str_or_empty (am_filename a)) (str_or_empty (am_mime a)) (am_size a)
              (am_reclaimed a) (am_media_kind a) (am_duration_ms a) (am_width a) (am_height a) (am_poster_id a))
  <$> ztake OC_MAX_ATTACH att.

(** The static scratch buffer, and the bytes an encoder leaves in it. *)
Definition g_enc : oc_wbuf := oc_wbuf_init (replicate (Z.to_nat OC_MAX_FRAME_SIZE) 0) OC_MAX_FRAME_SIZE.
Definition encoded (e : encoder) : list Z := written (snd (e g_enc)).
Definition encodes (e : encoder) : bool := bool_decide (fst (e g_enc) = OC_OK).

Definition bf_msg (m : oc_replay_msg) : encoder :=
  let attach := fill_attach_entries (rm_attach m) in
  oc_encode_broadcast OC_PROTOCOL_VERSION
    (mk_oc_broadcast (rm_message_id m) (rm_channel_id m) (rm_author_id m) (rm_server_time m) (rm_kind m) (rm_body m)
       (zlen attach) attach (str_or_empty (rm_author_name m)) (rm_broadcast_stored m)).
Definition bf_meta (m : oc_replay_msg) : encoder :=
  oc_encode_thread_meta OC_PROTOCOL_VERSION (mk_oc_thread_meta (rm_message_id m) (rm_reply_count m) (rm_last_reply_at m)).
Definition OC_PIN_ADD : Z := 1.
Definition OC_SAVE_ADD : Z := 1.
Definition OC_REACT_ADD : Z := 1.
Definition bf_pin (m : oc_replay_msg) : encoder :=
  oc_encode_pin_updated OC_PROTOCOL_VERSION
    (mk_oc_pin_updated (rm_message_id m) (rm_channel_id m) (rm_pinned_by m) OC_PIN_ADD (rm_pinned_at m)).
Definition bf_saved (m : oc_replay_msg) : encoder :=
  oc_encode_saved_updated OC_PROTOCOL_VERSION (mk_oc_saved_updated (rm_message_id m) OC_SAVE_ADD (rm_saved_at m)).
Definition bf_collapsed (m : oc_replay_msg) : encoder :=
  oc_encode_collapsed_updated OC_PROTOCOL_VERSION (mk_oc_set_collapsed (rm_message_id m) 1).
Definition bf_react (r : oc_replay_react) : encoder :=
  oc_encode_reaction_updated OC_PROTOCOL_VERSION
    (mk_oc_reaction_updated (rr_message_id r) (rr_channel_id r) (rr_user_id r) (str_or_empty (rr_emoji r))
       OC_REACT_ADD (rr_count r)).
Definition bf_unfurl (r : oc_replay_unfurl) : encoder :=
  oc_encode_unfurl OC_PROTOCOL_VERSION
    (mk_oc_unfurl (ru_message_id r) (ru_channel_id r) (str_or_empty (ru_url r)) (str_or_empty (ru_title r))
       (str_or_empty (ru_descr r))).
Definition bf_fwd (r : oc_replay_forward) : encoder :=
  oc_encode_forward OC_PROTOCOL_VERSION
    (mk_oc_forward (rf_message_id r) (rf_channel_id r) (rf_src_channel r) (rf_src_message r) (rf_src_author r)
       (str_or_empty (rf_excerpt r)) (rf_n_attach r) (str_or_empty (rf_attach_name r)) (rf_src_action r)).
Definition encode_action_entry (a : oc_replay_action) : encoder :=
  oc_encode_action OC_PROTOCOL_VERSION
    (mk_oc_action (ra_message_id a) (ra_channel_id a) (ra_actor_id a) (str_or_empty (ra_actor_name a))
       (ra_text_start a) (ra_text_len a)).
Definition OC_POLL_HAS_MINE : Z := 0x04.
Definition encode_poll_entry (e : oc_replay_poll) (mine : bool) : encoder :=
  oc_encode_poll OC_PROTOCOL_VERSION
    (mk_oc_poll_msg (rp_message_id e) (rp_channel_id e)
       (if mine then rp_flags e else u8 (Z.land (rp_flags e) (Z.lnot OC_POLL_HAS_MINE))) (rp_close_at_ms e) (rp_voters e)
       (if mine then rp_mine e else 0) (zlen (rp_options e))
       ((fun o => mk_oc_poll_option (str_or_empty (fst o)) (snd o)) <$> rp_options e)).
Definition bf_done (r : oc_dbres) : encoder :=
  oc_encode_backfill_done OC_PROTOCOL_VERSION (mk_oc_backfill_done (db_high_water r) (db_truncated r)).

Inductive bf_phase :=
  | BF_MSG | BF_META | BF_PIN | BF_SAVED | BF_COLLAPSED | BF_REACT | BF_UNFURL | BF_FWD | BF_ACT | BF_POLL
  | BF_DONE | BF_END.

(** One turn of the loop of [backfill_next] on a result at [(phase, i)]: a frame
    and where it leaves off, or where the loop goes on, or the end. *)
Variant bf_turn := Frame (bytes : list Z) (phase : bf_phase) (i : nat) | Again (phase : bf_phase) (i : nat) | Ended.

(** The phases that walk a list: [i] past its end goes to [next], an entry that is
    [shown] is sent. *)
Definition bf_walk {A} (l : list A) (next : bf_phase) (here : bf_phase) (shown : A → bool) (enc : A → encoder) (i : nat) : bf_turn :=
  match l !! i with
  | None => Again next 0
  | Some x => if shown x then Frame (encoded (enc x)) here (S i) else Again here (S i)
  end.

Definition bf_turn_of (r : oc_dbres) (phase : bf_phase) (i : nat) : bf_turn :=
  match phase with
  | BF_MSG => match db_replay r !! i with
              | None => Again BF_PIN 0
              | Some m => Frame (encoded (bf_msg m)) BF_META i
              end
  | BF_META => match db_replay r !! i with
               | None => Again BF_MSG (S i)
               | Some m => if rm_reply_count m =? 0 then Again BF_MSG (S i) else Frame (encoded (bf_meta m)) BF_MSG (S i)
               end
  | BF_PIN => bf_walk (db_replay r) BF_SAVED BF_PIN
                (fun m => negb ((rm_pinned_by m =? 0) && (rm_pinned_at m =? 0))) bf_pin i
  | BF_SAVED => bf_walk (db_replay r) BF_COLLAPSED BF_SAVED rm_saved bf_saved i
  | BF_COLLAPSED => bf_walk (db_replay r) BF_REACT BF_COLLAPSED rm_collapsed bf_collapsed i
  | BF_REACT => bf_walk (db_rreact r) BF_UNFURL BF_REACT (fun _ => true) bf_react i
  | BF_UNFURL => bf_walk (db_runfurl r) BF_FWD BF_UNFURL (fun _ => true) bf_unfurl i
  | BF_FWD => bf_walk (db_rfwd r) BF_ACT BF_FWD (fun _ => true) bf_fwd i
  | BF_ACT => bf_walk (db_ract r) BF_POLL BF_ACT (fun a => encodes (encode_action_entry a)) encode_action_entry i
  | BF_POLL => bf_walk (db_rpoll r) BF_DONE BF_POLL (fun e => encodes (encode_poll_entry e true))
                 (fun e => encode_poll_entry e true) i
  | BF_DONE => Frame (encoded (bf_done r)) BF_END i
  | BF_END => Ended
  end.

(** The next frame, no bytes when there is none left, and the new position.
    [backfill_steps] turns are enough: see [backfill_next_spec]. *)
Fixpoint backfill_next_from (fuel : nat) (r : oc_dbres) (phase : bf_phase) (i : nat) : list Z * bf_phase * nat :=
  match fuel with
  | O => ([], phase, i)
  | S fuel =>
      match bf_turn_of r phase i with
      | Frame b phase i => (b, phase, i)
      | Again phase i => backfill_next_from fuel r phase i
      | Ended => ([], phase, i)
      end
  end.
Definition backfill_steps (r : oc_dbres) : nat :=
  (12 + 5 * length (db_replay r) + length (db_rreact r) + length (db_runfurl r) + length (db_rfwd r) +
   length (db_ract r) + length (db_rpoll r))%nat.
Definition backfill_next (r : oc_dbres) (phase : bf_phase) (i : nat) : list Z * bf_phase * nat :=
  backfill_next_from (backfill_steps r) r phase i.

(** ** A connection's output *)

Record outq := mk_outq {
  oq_out : list Z;
  oq_out_sent : Z;
  oq_sent_total : Z;
  oq_written_total : Z;
  oq_bf : list oc_dbres;
  oq_bf_pumping : bool;
  oq_bf_phase : bf_phase;
  oq_bf_i : nat;
  oq_dq : list Z;
  oq_handed : list Z }.
#[export] Instance outq_eta : Eta outq := fun q =>
  mk_outq (oq_out q) (oq_out_sent q) (oq_sent_total q) (oq_written_total q) (oq_bf q) (oq_bf_pumping q)
    (oq_bf_phase q) (oq_bf_i q) (oq_dq q) (oq_handed q).
Definition outq_new : outq := mk_outq [] 0 0 0 [] false BF_MSG 0 [] [].

Definition defer_append (q : outq) (buf : list Z) : bool * outq :=
  if OC_MAX_OUT_BUFFER <? zlen (oq_dq q) + zlen buf then (false, q)
  else (true, q <| oq_dq := oq_dq q ++ buf |>).

Definition out_append (q : outq) (buf : list Z) : bool * outq :=
  if (nonempty (oq_bf q) || nonempty (oq_dq q)) && negb (oq_bf_pumping q) then defer_append q buf
  else
    let q := q <| oq_out := zdrop (oq_out_sent q) (oq_out q) |> <| oq_out_sent := 0 |> in
    if OC_MAX_OUT_BUFFER <? u64 (zlen (oq_out q) + zlen buf + u64 (oq_sent_total q - oq_written_total q)) then (false, q)
    else (true, q <| oq_out := oq_out q ++ buf |>).

Definition flush_out (io : bool) (q : outq) : bool * outq :=
  let bytes := zdrop (oq_out_sent q) (oq_out q) in
  if nonempty bytes && negb io then (false, q)
  else (true, q <| oq_handed := oq_handed q ++ bytes |> <| oq_sent_total := u64 (oq_sent_total q + zlen bytes) |>
                <| oq_out := [] |> <| oq_out_sent := 0 |>).

Definition pending_out (q : outq) : Z :=
  u64 ((zlen (oq_out q) - oq_out_sent q) + u64 (oq_sent_total q - oq_written_total q)).

(** The replay loop: [None] once more than [pending_out] allows is waiting or the
    slice is used, [Some] of whether the output cap was reached otherwise. *)
Fixpoint pump_replay (fuel frames : nat) (q : outq) : option bool * outq :=
  match fuel with
  | O => (Some true, q)
  | S fuel =>
      match oq_bf q with
      | [] => (Some true, q)
      | r :: bf =>
          if (OC_BF_SLICE <=? frames)%nat then (Some true, q)
          else if OC_BF_SOFT <=? pending_out q then (None, q)
          else
            let '(buf, phase, i) := backfill_next r (oq_bf_phase q) (oq_bf_i q) in
            match buf with
            | [] => pump_replay fuel frames (q <| oq_bf := bf |> <| oq_bf_phase := BF_MSG |> <| oq_bf_i := O |>)
            | _ =>
                let '(ok, q) := out_append (q <| oq_bf_phase := phase |> <| oq_bf_i := i |>) buf in
                if ok then pump_replay fuel (S frames) q else (Some false, q)
            end
      end
  end.
(** What waited behind the replays. *)
Definition pump_held (q : outq) : bool * outq :=
  if negb (nonempty (oq_bf q)) && nonempty (oq_dq q) then
    let pending := pending_out q in
    let room := if pending <? OC_BF_SOFT then OC_BF_SOFT - pending else 0 in
    let n := if zlen (oq_dq q) <? room then zlen (oq_dq q) else room in
    if n =? 0 then (true, q)
    else
      let '(ok, q) := out_append q (ztake n (oq_dq q)) in
      if ok then (true, q <| oq_dq := zdrop n (oq_dq q) |>) else (false, q)
  else (true, q).
Definition backfill_pump (q : outq) : bool * outq :=
  if negb (nonempty (oq_bf q)) && negb (nonempty (oq_dq q)) then (true, q)
  else
    let '(res, q) := pump_replay (OC_BF_SLICE + length (oq_bf q) + 1) 0 (q <| oq_bf_pumping := true |>) in
    let '(ok, q) := match res with
                    | None => (true, q)
                    | Some false => (false, q)
                    | Some true => pump_held q
                    end in
    (ok, q <| oq_bf_pumping := false |>).

(** ** The operations of the loop *)

(** [None]: the connection is closed. *)
Definition unless_failed (r : bool * outq) (k : outq → option outq) : option outq :=
  if fst r then k (snd r) else None.

Definition backfill_accept (io : bool) (q : outq) (r : oc_dbres) : option outq :=
  if (length (oq_bf q) =? OC_BF_QUEUE)%nat then None
  else
    unless_failed (backfill_pump (q <| oq_bf := oq_bf q ++ [r] |>)) (fun q =>
    unless_failed (flush_out io q) Some).
Definition send_bytes (io : bool) (q : outq) (buf : list Z) : option outq :=
  unless_failed (out_append q buf) (fun q => unless_failed (flush_out io q) Some).
Definition presence_send (io : bool) (q : outq) (buf : list Z) : outq :=
  let '(ok, q) := out_append q buf in if ok then snd (flush_out io q) else q.
(** [OC_IO_WRITTEN] of a connection with no download. *)
Definition io_written (io : bool) (q : outq) (written : Z) : option outq :=
  unless_failed (backfill_pump (q <| oq_written_total := if oq_written_total q <? written then written else oq_written_total q |>)) (fun q =>
  unless_failed (flush_out io q) Some).

Inductive out_op :=
  | Send (buf : list Z) (io : bool)
  | Offer (buf : list Z) (io : bool)
  | Accept (r : oc_dbres) (io : bool)
  | Written (total : Z) (io : bool).
Definition out_step (q : outq) (op : out_op) : option outq :=
  match op with
  | Send buf io => send_bytes io q buf
  | Offer buf io => Some (presence_send io q buf)
  | Accept r io => backfill_accept io q r
  | Written total io => io_written io q total
  end.
Fixpoint out_run (q : outq) (ops : list out_op) : option outq :=
  match ops with
  | [] => Some q
  | op :: ops => q ← out_step q op; out_run q ops
  end.

(** ** The frames a replay has left *)

Definition walk_rest {A} (l : list A) (shown : A → bool) (enc : A → encoder) (i : nat) : list (list Z) :=
  (fun x => encoded (enc x)) <$> List.filter shown (drop i l).
Definition meta_rest (m : oc_replay_msg) : list (list Z) :=
  if rm_reply_count m =? 0 then [] else [encoded (bf_meta m)].
Definition msg_rest (r : oc_dbres) (i : nat) : list (list Z) :=
  drop i (db_replay r) ≫= fun m => encoded (bf_msg m) :: meta_rest m.

Definition done_rest (r : oc_dbres) : list (list Z) := [encoded (bf_done r)].
Definition poll_rest r i := walk_rest (db_rpoll r) (fun e => encodes (encode_poll_entry e true))
                              (fun e => encode_poll_entry e true) i ++ done_rest r.
Definition act_rest r i := walk_rest (db_ract r) (fun a => encodes (encode_action_entry a)) encode_action_entry i ++ poll_rest r 0.
Definition fwd_rest r i := walk_rest (db_rfwd r) (fun _ => true) bf_fwd i ++ act_rest r 0.
Definition unfurl_rest r i := walk_rest (db_runfurl r) (fun _ => true) bf_unfurl i ++ fwd_rest r 0.
Definition react_rest r i := walk_rest (db_rreact r) (fun _ => true) bf_react i ++ unfurl_rest r 0.
Definition collapsed_rest r i := walk_rest (db_replay r) rm_collapsed bf_collapsed i ++ react_rest r 0.
Definition saved_rest r i := walk_rest (db_replay r) rm_saved bf_saved i ++ collapsed_rest r 0.
Definition pin_rest r i := walk_rest (db_replay r) (fun m => negb ((rm_pinned_by m =? 0) && (rm_pinned_at m =? 0))) bf_pin i
                           ++ saved_rest r 0.

Definition rest_of (r : oc_dbres) (phase : bf_phase) (i : nat) : list (list Z) :=
  match phase with
  | BF_MSG => msg_rest r i ++ pin_rest r 0
  | BF_META => (match db_replay r !! i with Some m => meta_rest m | None => [] end) ++ msg_rest r (S i) ++ pin_rest r 0
  | BF_PIN => pin_rest r i
  | BF_SAVED => saved_rest r i
  | BF_COLLAPSED => collapsed_rest r i
  | BF_REACT => react_rest r i
  | BF_UNFURL => unfurl_rest r i
  | BF_FWD => fwd_rest r i
  | BF_ACT => act_rest r i
  | BF_POLL => poll_rest r i
  | BF_DONE => done_rest r
  | BF_END => []
  end.
(** Everything a result replays: the messages with their thread counts, then what
    hangs on them, then [BACKFILL_DONE]. *)
Definition replay_frames (r : oc_dbres) : list (list Z) := rest_of r BF_MSG 0.

(** How many turns [backfill_next] can take before it yields. *)
Definition turns_left (r : oc_dbres) (phase : bf_phase) (i : nat) : nat :=
  let n := length (db_replay r) in
  let w (l k : nat) := (S (l - i) + k)%nat in
  let p_poll := 1%nat in
  let p_act := (S (length (db_rpoll r)) + p_poll)%nat in
  let p_fwd := (S (length (db_ract r)) + p_act)%nat in
  let p_unf := (S (length (db_rfwd r)) + p_fwd)%nat in
  let p_rea := (S (length (db_runfurl r)) + p_unf)%nat in
  let p_col := (S (length (db_rreact r)) + p_rea)%nat in
  let p_sav := (S n + p_col)%nat in
  let p_pin := (S n + p_sav)%nat in
  let p_msg := (S n + p_pin)%nat in
  match phase with
  | BF_MSG => S p_msg
  | BF_META => S (S p_msg)
  | BF_PIN => w n p_pin
  | BF_SAVED => w n p_sav
  | BF_COLLAPSED => w n p_col
  | BF_REACT => w (length (db_rreact r)) p_rea
  | BF_UNFURL => w (length (db_runfurl r)) p_unf
  | BF_FWD => w (length (db_rfwd r)) p_fwd
  | BF_ACT => w (length (db_ract r)) p_act
  | BF_POLL => w (length (db_rpoll r)) p_poll
  | BF_DONE | BF_END => O
  end.

Definition turn_ok (r : oc_dbres) (phase : bf_phase) (i : nat) (t : bf_turn) : Prop :=
  match t with
  | Frame b phase' i' => rest_of r phase i = b :: rest_of r phase' i'
  | Again phase' i' => rest_of r phase i = rest_of r phase' i' ∧ (turns_left r phase' i' < turns_left r phase i)%nat
  | Ended => rest_of r phase i = []
  end.

Lemma walk_turn {A} (l : list A) next here shown (enc : A → encoder) i r (after : list (list Z)) :
  (∀ k, rest_of r here k = walk_rest l shown enc k ++ after) → rest_of r next 0 = after →
  (∀ k, (length l <= k)%nat → (turns_left r next 0 < turns_left r here k)%nat) →
  (∀ k, (k < length l)%nat → (turns_left r here (S k) < turns_left r here k)%nat) →
  turn_ok r here i (bf_walk l next here shown enc i).
Proof.
  intros Hr Hn Hm Hs. unfold bf_walk. destruct (l !! i) as [x|] eqn:E.
  - assert (Hw : walk_rest l shown enc i = if shown x then encoded (enc x) :: walk_rest l shown enc (S i) else walk_rest l shown enc (S i)).
    { unfold walk_rest. rewrite (drop_S l x i E). simpl. by destruct (shown x). }
    destruct (shown x) eqn:Ex; simpl; rewrite !Hr, Hw; [done|]. split; [done|].
    apply Hs. by apply lookup_lt_Some in E.
  - simpl. apply lookup_ge_None in E. rewrite Hr, Hn. unfold walk_rest. rewrite drop_ge by done. split; [done|]. by apply Hm.
Qed.

Lemma turn_of_ok r phase i : turn_ok r phase i (bf_turn_of r phase i).
Proof.
  destruct phase; cbn [bf_turn_of];
    try (eapply walk_turn; [done|done| |]; intros; cbn [turns_left]; lia); try done.
  - destruct (db_replay r !! i) as [m|] eqn:E; cbn [turn_ok rest_of].
    + unfold msg_rest at 1. rewrite (drop_S _ m i E), E. simpl. by rewrite <- app_assoc.
    + unfold msg_rest. apply lookup_ge_None in E. rewrite drop_ge by done. split; [done|]. cbn [turns_left]. lia.
  - destruct (db_replay r !! i) as [m|] eqn:E; cbn [turn_ok].
    + destruct (rm_reply_count m =? 0) eqn:Ec; cbn [turn_ok rest_of]; rewrite E; unfold meta_rest; rewrite Ec; [|done].
      split; [done|]. cbn [turns_left]. lia.
    + cbn [rest_of]. rewrite E. split; [done|]. cbn [turns_left]. lia.
Qed.

Lemma turns_enough r phase i : (turns_left r phase i < backfill_steps r)%nat.
Proof. unfold backfill_steps. destruct phase; cbn [turns_left]; lia. Qed.

(** [backfill_next] yields the frames a result has left, one at a time. *)
Lemma backfill_next_spec r phase i :
  let '(b, phase', i') := backfill_next r phase i in
  match rest_of r phase i with
  | [] => b = []
  | f :: fs => b = f ∧ rest_of r phase' i' = fs
  end.
Proof.
  unfold backfill_next. pose proof (turns_enough r phase i) as Hf.
  revert phase i Hf. induction (backfill_steps r) as [|fuel IH]; intros phase i Hf; [lia|].
  cbn [backfill_next_from]. pose proof (turn_of_ok r phase i) as Ht.
  destruct (bf_turn_of r phase i) as [b p' i'|p' i'|]; cbn [turn_ok] in Ht.
  - by rewrite Ht.
  - destruct Ht as [-> Ht]. apply IH. lia.
  - by rewrite Ht.
Qed.

Lemma zlen_fill_attach att : zlen (fill_attach_entries att) <= OC_MAX_ATTACH.
Proof. unfold fill_attach_entries, zlen, ztake, OC_MAX_ATTACH. rewrite length_fmap, length_take. lia. Qed.

(** Every frame of a replay is one whole frame, or no bytes when it cannot be
    encoded. *)
Definition framed (e : encoder) : Prop := ∃ ty o, Encodes e OC_PROTOCOL_VERSION ty o.
Definition frame_or_nothing (f : list Z) : Prop :=
  f = [] ∨ ∃ ty bs, f = frame_bytes OC_PROTOCOL_VERSION ty bs ∧ 8 + zlen bs <= OC_MAX_FRAME_SIZE.

Lemma g_enc_ok : wbuf_ok g_enc.
Proof.
  unfold wbuf_ok, g_enc, oc_wbuf_init, zlen, OC_MAX_FRAME_SIZE; cbn [w_len w_cap w_data]. rewrite length_replicate. lia.
Qed.
Lemma encoded_framed e :
  framed e → frame_or_nothing (encoded e) ∧ (encodes e = true ↔ encoded e ≠ []).
Proof.
  intros (ty & o & H). specialize (H g_enc g_enc_ok). unfold encoded, encodes.
  assert (Hfail : enc_failed g_enc (fst (e g_enc)) (snd (e g_enc)) →
    frame_or_nothing (written (snd (e g_enc))) ∧ (bool_decide (fst (e g_enc) = OC_OK) = true ↔ written (snd (e g_enc)) ≠ [])).
  { intros (Hne & _ & _ & _ & ->). rewrite bool_decide_eq_false_2 by done. split; [by left|done]. }
  destruct o as [bs|]; [|by apply Hfail].
  destruct (fits g_enc _) eqn:F; [|by apply Hfail]. destruct (Z.leb_spec (8 + zlen bs) OC_MAX_FRAME_SIZE); [|by apply Hfail].
  cbn [andb] in H. rewrite H. cbn [fst snd]. rewrite written_put by (done || apply g_enc_ok).
  change (written g_enc) with (@nil Z). rewrite app_nil_l. split; [right; by exists ty, bs|]. by rewrite bool_decide_eq_true_2.
Qed.

Ltac prove_framed := intros; do 2 eexists; solve_writes.
Lemma bf_meta_framed m : framed (bf_meta m). Proof. unfold bf_meta, oc_encode_thread_meta. prove_framed. Qed.
Lemma bf_pin_framed m : framed (bf_pin m). Proof. unfold bf_pin, oc_encode_pin_updated. prove_framed. Qed.
Lemma bf_saved_framed m : framed (bf_saved m). Proof. unfold bf_saved, oc_encode_saved_updated. prove_framed. Qed.
Lemma bf_collapsed_framed m : framed (bf_collapsed m). Proof. unfold bf_collapsed, oc_encode_collapsed_updated, encode_collapsed. prove_framed. Qed.
Lemma bf_react_framed r : framed (bf_react r). Proof. unfold bf_react, oc_encode_reaction_updated. prove_framed. Qed.
Lemma bf_unfurl_framed r : framed (bf_unfurl r). Proof. unfold bf_unfurl, oc_encode_unfurl. prove_framed. Qed.
Lemma bf_fwd_framed r : framed (bf_fwd r). Proof. unfold bf_fwd, oc_encode_forward. prove_framed. Qed.
Lemma action_framed a : framed (encode_action_entry a). Proof. unfold encode_action_entry, oc_encode_action. prove_framed. Qed.
Lemma poll_framed e : framed (encode_poll_entry e true). Proof. unfold encode_poll_entry, oc_encode_poll. prove_framed. Qed.
Lemma bf_done_framed r : framed (bf_done r). Proof. unfold bf_done, oc_encode_backfill_done. prove_framed. Qed.
Lemma bf_msg_framed m : framed (bf_msg m).
Proof.
  unfold bf_msg, oc_encode_broadcast, encode_broadcast_as. do 2 eexists. solve_writes.
  cbn [broadcast_n_attach broadcast_attach]. apply (writes_attach_list _ _ writes_attach_entry).
  apply zlen_fill_attach.
Qed.

Lemma walk_rest_framed {A} (l : list A) shown (enc : A → encoder) i :
  (∀ x, framed (enc x)) → Forall frame_or_nothing (walk_rest l shown enc i).
Proof.
  intros He. unfold walk_rest. apply List.Forall_forall. intros f Hf. apply list_elem_of_In, list_elem_of_fmap in Hf as (x & -> & _).
  by apply encoded_framed.
Qed.
Lemma rest_framed r phase i : Forall frame_or_nothing (rest_of r phase i).
Proof.
  assert (Hdone : Forall frame_or_nothing (done_rest r)).
  { apply List.Forall_cons; [apply encoded_framed, bf_done_framed|constructor]. }
  assert (Hpoll : ∀ i, Forall frame_or_nothing (poll_rest r i)) by (intros; apply Forall_app; auto using walk_rest_framed, poll_framed).
  assert (Hact : ∀ i, Forall frame_or_nothing (act_rest r i)) by (intros; apply Forall_app; auto using walk_rest_framed, action_framed).
  assert (Hfwd : ∀ i, Forall frame_or_nothing (fwd_rest r i)) by (intros; apply Forall_app; auto using walk_rest_framed, bf_fwd_framed).
  assert (Hunf : ∀ i, Forall frame_or_nothing (unfurl_rest r i)) by (intros; apply Forall_app; auto using walk_rest_framed, bf_unfurl_framed).
  assert (Hrea : ∀ i, Forall frame_or_nothing (react_rest r i)) by (intros; apply Forall_app; auto using walk_rest_framed, bf_react_framed).
  assert (Hcol : ∀ i, Forall frame_or_nothing (collapsed_rest r i)) by (intros; apply Forall_app; auto using walk_rest_framed, bf_collapsed_framed).
  assert (Hsav : ∀ i, Forall frame_or_nothing (saved_rest r i)) by (intros; apply Forall_app; auto using walk_rest_framed, bf_saved_framed).
  assert (Hpin : ∀ i, Forall frame_or_nothing (pin_rest r i)) by (intros; apply Forall_app; auto using walk_rest_framed, bf_pin_framed).
  assert (Hmeta : ∀ m, Forall frame_or_nothing (meta_rest m)).
  { intros m. unfold meta_rest. case_match; [constructor|]. apply List.Forall_cons; [apply encoded_framed, bf_meta_framed|constructor]. }
  assert (Hmsg : ∀ i, Forall frame_or_nothing (msg_rest r i)).
  { intros k. unfold msg_rest. induction (drop k (db_replay r)) as [|m l IH]; [constructor|]. simpl.
    constructor; [apply encoded_framed, bf_msg_framed|]. by apply Forall_app. }
  destruct phase; cbn [rest_of]; auto.
  - by apply Forall_app.
  - apply Forall_app. split; [case_match; auto|]. by apply Forall_app.
Qed.

(** What the pump sends of a result: it takes a frame with no bytes, one that could
    not be encoded, for the end. *)
Fixpoint until_empty (l : list (list Z)) : list (list Z) :=
  match l with
  | (x :: f) :: l => (x :: f) :: until_empty l
  | _ => []
  end.
Definition sent_frames (r : oc_dbres) : list (list Z) := until_empty (replay_frames r).

Lemma until_empty_all l : Forall (fun f => f ≠ []) l → until_empty l = l.
Proof. induction 1 as [|[|x f] l Hf Hl IH]; simpl; [done|done|by rewrite IH]. Qed.

(** ** The whole stream *)

(** Handed or staged; the frames of the replays to come; and everything. *)
Definition stream (q : outq) : list Z := oq_handed q ++ zdrop (oq_out_sent q) (oq_out q).
Definition replays_left (q : outq) : list (list Z) :=
  match oq_bf q with
  | [] => []
  | r :: bf => until_empty (rest_of r (oq_bf_phase q) (oq_bf_i q)) ++ (bf ≫= sent_frames)
  end.
Definition everything (q : outq) : list Z := stream q ++ concat (replays_left q) ++ oq_dq q.
(** Between operations nothing is being pumped, and an idle replay is at its start. *)
Definition at_rest (q : outq) : Prop :=
  oq_bf_pumping q = false ∧ oq_out_sent q = 0 ∧ (oq_bf q = [] → oq_bf_phase q = BF_MSG ∧ oq_bf_i q = O).

Lemma zdrop0 {A} (l : list A) : zdrop 0 l = l. Proof. done. Qed.

Lemma out_append_pumping q buf ok q' :
  oq_bf_pumping q = true → oq_out_sent q = 0 → out_append q buf = (ok, q') →
  q' = if ok then q <| oq_out := oq_out q ++ buf |> else q.
Proof.
  intros Hp Hs H. unfold out_append in H. rewrite Hp in H. rewrite andb_false_r in H.
  destruct q; simpl in *; subst. rewrite zdrop0 in H.
  case_match; by injection H as <- <-.
Qed.

Lemma pump_replay_idle fuel frames q : oq_bf q = [] → pump_replay fuel frames q = (Some true, q).
Proof. intros E. destruct fuel; cbn [pump_replay]; by rewrite ?E. Qed.

Lemma pump_replay_ok fuel : ∀ frames q res q',
  oq_bf_pumping q = true → oq_out_sent q = 0 → (oq_bf q = [] → oq_bf_phase q = BF_MSG ∧ oq_bf_i q = O) →
  pump_replay fuel frames q = (res, q') → res ≠ Some false →
  oq_bf_pumping q' = true ∧ oq_out_sent q' = 0 ∧ (oq_bf q' = [] → oq_bf_phase q' = BF_MSG ∧ oq_bf_i q' = O) ∧
  oq_dq q' = oq_dq q ∧ stream q' ++ concat (replays_left q') = stream q ++ concat (replays_left q).
Proof.
  induction fuel as [|fuel IH]; intros frames q res q' Hp Hs Hi H Hres; cbn [pump_replay] in H; [by injection H as <- <-|].
  destruct (oq_bf q) as [|r bf] eqn:Eb; [injection H as <- <-; by rewrite Eb|].
  destruct (OC_BF_SLICE <=? frames)%nat; [injection H as <- <-; by rewrite Eb|].
  destruct (OC_BF_SOFT <=? pending_out q); [injection H as <- <-; by rewrite Eb|].
  pose proof (backfill_next_spec r (oq_bf_phase q) (oq_bf_i q)) as Hn.
  destruct (backfill_next r (oq_bf_phase q) (oq_bf_i q)) as [[buf phase] i].
  destruct buf as [|x buf].
  - apply IH in H as (? & ? & ? & Hd & Hst); [|done..]. split_and!; [done..|]. rewrite Hst. clear Hst.
    change (stream (q <| oq_bf := bf |> <| oq_bf_phase := BF_MSG |> <| oq_bf_i := 0%nat |>)) with (stream q). f_equal. f_equal.
    unfold replays_left. rewrite Eb. simpl.
    assert (until_empty (rest_of r (oq_bf_phase q) (oq_bf_i q)) = []) as ->.
    { destruct (rest_of r _ _) as [|f fs]; [done|]. by destruct Hn as [<- _]. }
    simpl. by destruct bf.
  - destruct (out_append _ (x :: buf)) as [ok q1] eqn:Ea. apply out_append_pumping in Ea; [|done..].
    destruct (rest_of r (oq_bf_phase q) (oq_bf_i q)) as [|f fs] eqn:Er; [done|]. destruct Hn as [<- Hn].
    assert (Hst : stream (q <| oq_bf_phase := phase |> <| oq_bf_i := i |> <| oq_out := oq_out q ++ x :: buf |>)
      ++ concat (replays_left (q <| oq_bf_phase := phase |> <| oq_bf_i := i |> <| oq_out := oq_out q ++ x :: buf |>))
      = stream q ++ concat (replays_left q)).
    { unfold stream, replays_left. simpl. rewrite Eb, Hs, Er, Hn, !zdrop0. simpl. by rewrite <- !app_assoc. }
    destruct ok.
    + apply IH in H as (? & ? & ? & Hd & Hst'); subst q1; [|done|done|simpl; by rewrite Eb|done].
      split_and!; [done..|]. rewrite Hst'. exact Hst.
    + by injection H as <- <-.
Qed.

Lemma out_append_held q buf ok q' :
  at_rest q → out_append q buf = (ok, q') →
  at_rest q' ∧ oq_bf q' = oq_bf q ∧ replays_left q' = replays_left q ∧
  everything q' = everything q ++ (if ok then buf else []) ∧
  (oq_bf q ≠ [] → stream q' = stream q ∧ oq_dq q' = oq_dq q ++ if ok then buf else []).
Proof.
  intros (Hp & Hs & Hi) H. unfold out_append in H. rewrite Hp, andb_true_r in H. unfold everything.
  destruct (nonempty (oq_bf q) || nonempty (oq_dq q)) eqn:En.
  - unfold defer_append in H. case_match; injection H as <- <-.
    + rewrite !app_nil_r. by split_and!.
    + split_and!; try done. cbn. by rewrite !app_assoc.
  - apply orb_false_elim in En as [Eb Ed]. destruct (oq_bf q) eqn:Eb'; [|done]. destruct (oq_dq q) eqn:Ed'; [|done].
    destruct q as [out sent st wt bf pu ph i dq ha]; simpl in *. subst. rewrite zdrop0 in H.
    unfold replays_left, stream in *. simpl in *.
    case_match; injection H as <- <-; simpl; rewrite ?zdrop0, ?app_nil_r, <- ?app_assoc; split_and!; done.
Qed.

Lemma flush_out_ok io q ok q' :
  at_rest q → flush_out io q = (ok, q') →
  at_rest q' ∧ oq_bf q' = oq_bf q ∧ oq_dq q' = oq_dq q ∧ stream q' = stream q ∧ replays_left q' = replays_left q.
Proof.
  intros (Hp & Hs & Hi) H. unfold flush_out in H. case_match; injection H as <- <-; [done|].
  split_and!; try done. unfold stream. simpl. by rewrite zdrop0, app_nil_r.
Qed.

Lemma backfill_pump_ok q q' :
  at_rest q → backfill_pump q = (true, q') →
  at_rest q' ∧ everything q' = everything q ∧
  (oq_bf q' ≠ [] → oq_bf q ≠ [] ∧ oq_dq q' = oq_dq q ∧
     stream q' ++ concat (replays_left q') = stream q ++ concat (replays_left q)).
Proof.
  intros (Hp & Hs & Hi) H. unfold backfill_pump in H.
  destruct (negb (nonempty (oq_bf q)) && negb (nonempty (oq_dq q))) eqn:En.
  { injection H as <-. split_and!; done. }
  destruct (pump_replay _ 0 _) as [res q1] eqn:Ep.
  assert (Hb : oq_bf q = [] → oq_bf q1 = []).
  { intros E. rewrite pump_replay_idle in Ep by done. by injection Ep as <- <-. }
  destruct (decide (res = Some false)) as [->|Hres]; [by injection H|].
  apply pump_replay_ok in Ep as (Hp1 & Hs1 & Hi1 & Hd1 & Hst1); [|done..].
  assert (He1 : everything q1 = everything q).
  { unfold everything. by rewrite !app_assoc, Hst1, Hd1. }
  assert (Hfin : ∀ q2, oq_bf_pumping q2 = true → at_rest (q2 <| oq_bf_pumping := false |>) ↔ (oq_out_sent q2 = 0 ∧ (oq_bf q2 = [] → oq_bf_phase q2 = BF_MSG ∧ oq_bf_i q2 = O))) by (intros; unfold at_rest; simpl; tauto).
  destruct res as [[]|]; [|done|].
  - unfold pump_held in H. destruct (negb (nonempty (oq_bf q1)) && nonempty (oq_dq q1)) eqn:Ec.
    + apply andb_prop in Ec as [Ec _]. destruct (oq_bf q1) eqn:Eb1; [|done].
      assert (Hr1 : replays_left q1 = []) by (unfold replays_left; by rewrite Eb1).
      set (n := if zlen _ <? _ then _ else _) in H.
      destruct (n =? 0); [injection H as <-; split_and!; [by apply Hfin; rewrite ?Eb1|done|simpl; by rewrite Eb1]|].
      destruct (out_append q1 _) as [ok q2] eqn:Ea. apply out_append_pumping in Ea; [|done..].
      destruct ok; [|done]. injection H as <-. subst q2. split_and!; [apply Hfin; simpl; by rewrite ?Eb1| |simpl; by rewrite Eb1].
      rewrite <- He1. unfold everything, stream. simpl. rewrite Hr1, Hs1, !zdrop0.
      change (replays_left _) with (replays_left q1). rewrite Hr1. simpl. by rewrite <- !app_assoc, ztake_zdrop.
    + injection H as <-. split_and!; [by apply Hfin|done|]. intros Hne. split; [intros E; by rewrite (Hb E) in Hne|]. done.
  - injection H as <-. split_and!; [by apply Hfin|done|]. intros Hne. split; [intros E; by rewrite (Hb E) in Hne|]. done.
Qed.

(** ** The order things are sent in *)

(** What the connection took: a frame of the loop's, or a replay. *)
Variant item := Live (buf : list Z) | Replay (frames : list (list Z)).
Definition item_frames (x : item) : list (list Z) := match x with Live buf => [buf] | Replay fs => fs end.
Definition is_live (x : item) : bool := match x with Live _ => true | Replay _ => false end.

Definition taken (q : outq) (op : out_op) : list item :=
  match op with
  | Send buf _ => [Live buf]
  | Offer buf _ => if fst (out_append q buf) then [Live buf] else []
  | Accept r _ => [Replay (sent_frames r)]
  | Written _ _ => []
  end.
Fixpoint history (q : outq) (ops : list out_op) : list item :=
  match ops with
  | [] => []
  | op :: ops => taken q op ++ match out_step q op with Some q => history q ops | None => [] end
  end.

(** An order of sending: what arrives goes last, except that a replay may go before
    frames that arrived ahead of it.  No frame is inside a replay, frames keep
    their order and replays theirs, and a frame that arrives after a replay is
    sent after it. *)
Inductive schedule : list item → list item → Prop :=
  | sched_nil : schedule [] []
  | sched_last h us x : schedule h us → schedule (h ++ [x]) (us ++ [x])
  | sched_overtakes h us1 us2 fs :
      schedule h (us1 ++ us2) → Forall (fun x => is_live x = true) us2 →
      schedule (h ++ [Replay fs]) (us1 ++ Replay fs :: us2).

(** No replay arrives while only held bytes are left of an earlier one. *)
Fixpoint clean (q : outq) (ops : list out_op) : bool :=
  match ops with
  | [] => true
  | op :: ops =>
      match op with Accept _ _ => nonempty (oq_bf q) || negb (nonempty (oq_dq q)) | _ => true end &&
      match out_step q op with Some q => clean q ops | None => true end
  end.

Definition frames_of (us : list item) : list Z := concat (us ≫= item_frames).
Lemma frames_of_app us1 us2 : frames_of (us1 ++ us2) = frames_of us1 ++ frames_of us2.
Proof. unfold frames_of. by rewrite bind_app, concat_app. Qed.
Lemma frames_of_one x : frames_of [x] = concat (item_frames x).
Proof. unfold frames_of. simpl. by rewrite app_nil_r. Qed.

(** The queue holds the history [h]: while a replay is left, what is held is whole
    frames that arrived behind it. *)
Definition holds_history (h : list item) (q : outq) : Prop :=
  at_rest q ∧ ∃ us, schedule h us ∧ everything q = frames_of us ∧
  (oq_bf q ≠ [] → ∃ us1 us2, us = us1 ++ us2 ∧ Forall (fun x => is_live x = true) us2 ∧
     stream q ++ concat (replays_left q) = frames_of us1 ∧ oq_dq q = frames_of us2).

Lemma history_append h q buf q' :
  holds_history h q → out_append q buf = (true, q') → holds_history (h ++ [Live buf]) q'.
Proof.
  intros (Hr & us & Hsch & He & Hb) H. destruct (out_append_held _ _ _ _ Hr H) as (Hr' & Eb & Erl & He' & Hst).
  split; [done|]. exists (us ++ [Live buf]). split; [by constructor|].
  rewrite He', He, frames_of_app, frames_of_one. simpl. rewrite app_nil_r. split; [done|].
  rewrite Eb. intros Hne. destruct (Hb Hne) as (us1 & us2 & -> & Hl & H1 & H2). destruct (Hst Hne) as [Hst1 Hst2].
  exists us1, (us2 ++ [Live buf]). rewrite Erl, Hst1, Hst2, H2, frames_of_app, frames_of_one. simpl. rewrite app_nil_r.
  split_and!; [by rewrite app_assoc| |done|done]. apply Forall_app. split; [done|]. by repeat constructor.
Qed.

Lemma history_refused h q buf q' : holds_history h q → out_append q buf = (false, q') → holds_history h q'.
Proof.
  intros (Hr & us & Hsch & He & Hb) H. destruct (out_append_held _ _ _ _ Hr H) as (Hr' & Eb & Erl & He' & Hst).
  split; [done|]. exists us. rewrite He', He, app_nil_r. split_and!; [done..|]. rewrite Eb. intros Hne.
  destruct (Hst Hne) as [-> ->]. rewrite Erl, app_nil_r. by apply Hb.
Qed.

Lemma history_flush h io q ok q' : holds_history h q → flush_out io q = (ok, q') → holds_history h q'.
Proof.
  intros (Hr & us & Hsch & He & Hb) H. destruct (flush_out_ok _ _ _ _ Hr H) as (Hr' & Eb & Ed & Hst & Erl).
  split; [done|]. exists us. unfold everything. rewrite Eb, Ed, Hst, Erl. done.
Qed.

Lemma history_pump h q q' : holds_history h q → backfill_pump q = (true, q') → holds_history h q'.
Proof.
  intros (Hr & us & Hsch & He & Hb) H. destruct (backfill_pump_ok _ _ Hr H) as (Hr' & He' & Hb').
  split; [done|]. exists us. split_and!; [done|by rewrite He'|]. intros Hne.
  destruct (Hb' Hne) as (Hne0 & -> & ->). by apply Hb.
Qed.

Lemma history_queue h q r :
  holds_history h q → nonempty (oq_bf q) || negb (nonempty (oq_dq q)) = true →
  holds_history (h ++ [Replay (sent_frames r)]) (q <| oq_bf := oq_bf q ++ [r] |>).
Proof.
  intros ((Hp & Hs & Hi) & us & Hsch & He & Hb) Hc.
  assert (Hrl : replays_left (q <| oq_bf := oq_bf q ++ [r] |>) = replays_left q ++ sent_frames r).
  { unfold replays_left. simpl. destruct (oq_bf q) as [|r0 bf] eqn:E; simpl.
    - destruct (Hi eq_refl) as [-> ->]. by rewrite app_nil_r.
    - rewrite bind_app. simpl. by rewrite app_nil_r, app_assoc. }
  assert (∃ us1 us2, us = us1 ++ us2 ∧ Forall (fun x => is_live x = true) us2 ∧
     stream q ++ concat (replays_left q) = frames_of us1 ∧ oq_dq q = frames_of us2) as (us1 & us2 & -> & Hl & H1 & H2).
  { destruct (oq_bf q) as [|r0 bf] eqn:E; [|by apply Hb]. destruct (oq_dq q) eqn:Ed; [|done].
    exists us, []. rewrite app_nil_r. split_and!; [done|constructor| |done].
    rewrite <- He. unfold everything. by rewrite Ed, app_nil_r. }
  split; [split_and!; [done|done|]; simpl; intros E; by destruct (oq_bf q)|].
  exists (us1 ++ Replay (sent_frames r) :: us2). split; [by constructor|].
  assert (Hst : stream (q <| oq_bf := oq_bf q ++ [r] |>) ++ concat (replays_left (q <| oq_bf := oq_bf q ++ [r] |>))
    = frames_of (us1 ++ [Replay (sent_frames r)])).
  { rewrite Hrl, concat_app, frames_of_app, frames_of_one, app_assoc. simpl. by rewrite <- H1. }
  split.
  - unfold everything. rewrite app_assoc, Hst.
    replace (us1 ++ Replay (sent_frames r) :: us2) with ((us1 ++ [Replay (sent_frames r)]) ++ us2)
      by (by rewrite <- app_assoc).
    by rewrite (frames_of_app _ us2), <- H2.
  - intros _. exists (us1 ++ [Replay (sent_frames r)]), us2. rewrite <- app_assoc. done.
Qed.

Lemma history_step h q op q' :
  holds_history h q → clean q [op] = true → out_step q op = Some q' → holds_history (h ++ taken q op) q'.
Proof.
  intros Hh Hc H. unfold clean in Hc. destruct op as [buf io|buf io|r io|total io]; cbn [out_step taken] in *.
  - unfold send_bytes, unless_failed in H. destruct (out_append q buf) as [[] q1] eqn:E; [|done]. simpl in H.
    destruct (flush_out io q1) as [[] q2] eqn:E2; [|done]. injection H as <-.
    eapply history_flush; [|done]. by eapply history_append.
  - injection H as <-. unfold presence_send. destruct (out_append q buf) as [ok q1] eqn:E. destruct ok; simpl.
    + destruct (flush_out io q1) as [ok2 q2] eqn:E2. eapply history_flush; [|done]. by eapply history_append.
    + rewrite app_nil_r. by eapply history_refused.
  - unfold backfill_accept, unless_failed in H. case_match; [done|].
    destruct (backfill_pump _) as [[] q1] eqn:E; [|done]. simpl in H.
    destruct (flush_out io q1) as [[] q2] eqn:E2; [|done]. injection H as <-.
    eapply history_flush; [|done]. eapply history_pump; [|done]. apply history_queue; [done|].
    by apply andb_prop in Hc as [Hc _].
  - unfold io_written, unless_failed in H. destruct (backfill_pump _) as [[] q1] eqn:E; [|done]. simpl in H.
    destruct (flush_out io q1) as [[] q2] eqn:E2; [|done]. injection H as <-. rewrite app_nil_r.
    eapply history_flush; [|done]. eapply history_pump; [|done]. exact Hh.
Qed.

Lemma history_run ops : ∀ h q q',
  holds_history h q → clean q ops = true → out_run q ops = Some q' → holds_history (h ++ history q ops) q'.
Proof.
  induction ops as [|op ops IH]; intros h q q' Hh Hc H; cbn [out_run history clean] in *.
  - injection H as <-. by rewrite app_nil_r.
  - apply andb_prop in Hc as [Hc1 Hc2]. destruct (out_step q op) as [q1|] eqn:E; [|done]. simpl in H.
    rewrite app_assoc. apply IH; [|done|done]. eapply history_step; [done| |done]. cbn [clean]. rewrite Hc1. by rewrite E.
Qed.

(** C4: a replay is never interrupted.  Whatever a connection takes from the loop
    while backfills are replayed to it in slices, provided no replay is accepted while
    only held bytes are left of an earlier one ([clean]; [replay_splits_frame] is what
    happens otherwise), its stream is made of the whole frames it took, in an order
    where no frame is inside a replay, frames and replays each keep their order, and a
    frame that came after a replay follows it: what was handed over, what the replays
    have left and what is held make exactly those bytes.  The frames of a replay are
    those before its first message that cannot be encoded ([sent_frames]), and all of
    them when every one can. *)
Theorem replay_uninterrupted ops q :
  out_run outq_new ops = Some q → clean outq_new ops = true →
  (∃ us, schedule (history outq_new ops) us ∧
    stream q ++ concat (replays_left q) ++ oq_dq q = frames_of us) ∧
  ∀ r, Forall (fun f => f ≠ []) (replay_frames r) → sent_frames r = replay_frames r.
Proof.
  intros H Hc. split; [|intros r; apply until_empty_all].
  assert (H0 : holds_history [] outq_new).
  { split; [by split_and!|]. exists []. split_and!; [constructor|done|done]. }
  destruct (history_run ops [] outq_new q H0 Hc H) as (_ & us & Hs & He & _). by exists us.
Qed.

(** ** Draining *)

(** Bytes not yet written; and how much is left to send. *)
Definition backlog (q : outq) : Z := zlen (oq_out q) + u64 (oq_sent_total q - oq_written_total q).
Definition left_to_send (q : outq) : nat :=
  (length (replays_left q) + length (oq_bf q) + length (oq_dq q))%nat.

Lemma out_append_room q buf :
  oq_bf_pumping q = true → oq_out_sent q = 0 → backlog q + zlen buf <= OC_MAX_OUT_BUFFER →
  out_append q buf = (true, q <| oq_out := oq_out q ++ buf |>).
Proof.
  intros Hp Hs Hb. unfold out_append. rewrite Hp, andb_false_r. destruct q; simpl in *; subst. rewrite zdrop0.
  unfold backlog, OC_MAX_OUT_BUFFER in *; simpl in *. pose proof (u64_range (oq_sent_total0 - oq_written_total0)).
  pose proof (zlen_nonneg oq_out0). pose proof (zlen_nonneg buf). rewrite (u64_id (_ + _ + _)) by (unfold is_u64 in *; lia).
  destruct (Z.ltb_spec 1048576 (zlen oq_out0 + zlen buf + u64 (oq_sent_total0 - oq_written_total0))); [lia|done].
Qed.

Lemma pending_backlog q : oq_out_sent q = 0 → backlog q < 2 ^ 64 → pending_out q = backlog q.
Proof.
  intros Hs Hb. unfold pending_out, backlog in *. rewrite Hs, Z.sub_0_r. apply u64_id.
  pose proof (u64_range (oq_sent_total q - oq_written_total q)). pose proof (zlen_nonneg (oq_out q)).
  unfold is_u64 in *. lia.
Qed.

Lemma frame_or_nothing_len f : frame_or_nothing f → zlen f <= OC_MAX_FRAME_SIZE.
Proof. intros [->|(ty & bs & -> & H)]; [done|]. by rewrite zlen_frame_bytes. Qed.

Lemma left_to_send_pop q r bf :
  oq_bf q = r :: bf →
  (left_to_send (q <| oq_bf := bf |> <| oq_bf_phase := BF_MSG |> <| oq_bf_i := 0%nat |>) < left_to_send q)%nat.
Proof.
  intros Eb. unfold left_to_send, replays_left. cbn [oq_bf oq_bf_phase oq_bf_i oq_dq set_field]. rewrite Eb, length_app.
  destruct bf as [|r0 bf]; [simpl; lia|]. rewrite bind_cons, !length_app. cbn [length].
  change (until_empty (rest_of r0 BF_MSG 0)) with (sent_frames r0). lia.
Qed.

Lemma pump_replay_drains fuel : ∀ frames q res q',
  oq_bf_pumping q = true → oq_out_sent q = 0 → (oq_bf q = [] → oq_bf_phase q = BF_MSG ∧ oq_bf_i q = O) →
  backlog q < OC_BF_SOFT + OC_MAX_FRAME_SIZE → pump_replay fuel frames q = (res, q') →
  res ≠ Some false ∧ backlog q' < OC_BF_SOFT + OC_MAX_FRAME_SIZE ∧ (left_to_send q' <= left_to_send q)%nat ∧
  (oq_bf q ≠ [] → (0 < fuel)%nat → (frames < OC_BF_SLICE)%nat → backlog q < OC_BF_SOFT →
     (left_to_send q' < left_to_send q)%nat).
Proof.
  unfold OC_BF_SOFT, OC_MAX_FRAME_SIZE.
  induction fuel as [|fuel IH]; intros frames q res q' Hp Hs Hi Hb H; cbn [pump_replay] in H;
    [injection H as <- <-; split_and!; (done || lia)|].
  destruct (oq_bf q) as [|r bf] eqn:Eb; [injection H as <- <-; split_and!; (done || lia)|].
  destruct (Nat.leb_spec OC_BF_SLICE frames); [injection H as <- <-; split_and!; (done || lia)|].
  pose proof (pending_backlog q Hs ltac:(lia)) as Hpe. unfold OC_BF_SOFT in H. rewrite Hpe in H.
  destruct (Z.leb_spec 262144 (backlog q)); [injection H as <- <-; split_and!; (done || lia)|].
  pose proof (backfill_next_spec r (oq_bf_phase q) (oq_bf_i q)) as Hn.
  pose proof (rest_framed r (oq_bf_phase q) (oq_bf_i q)) as Hfr.
  destruct (backfill_next r (oq_bf_phase q) (oq_bf_i q)) as [[buf phase] i].
  destruct buf as [|x buf].
  - apply IH in H as (? & ? & Hl & _); [|done..]. split_and!; [done|done| |];
      pose proof (left_to_send_pop q r bf Eb); lia.
  - destruct (rest_of r (oq_bf_phase q) (oq_bf_i q)) as [|f fs] eqn:Er; [done|]. destruct Hn as [<- Hn].
    apply list.Forall_cons in Hfr as [Hf _]. apply frame_or_nothing_len in Hf. unfold OC_MAX_FRAME_SIZE in Hf.
    rewrite out_append_room in H; [|done|done|unfold OC_MAX_OUT_BUFFER; change (backlog (q <| oq_bf_phase := phase |> <| oq_bf_i := i |>)) with (backlog q); lia].
    set (q1 := q <| oq_bf_phase := phase |> <| oq_bf_i := i |> <| oq_out := _ |>) in H.
    assert (Hb1 : backlog q1 = backlog q + zlen (x :: buf)) by (unfold backlog, q1; simpl; rewrite zlen_app; lia).
    assert (Hl1 : (left_to_send q1 < left_to_send q)%nat).
    { unfold left_to_send, replays_left, q1. simpl. rewrite Eb, Er, Hn. simpl. lia. }
    apply IH in H as (? & ? & Hl & _); [|done|done|unfold q1; simpl; by rewrite Eb|lia]. split_and!; [done|done|lia|lia].
Qed.

(** A connection whose writes are reported keeps going until nothing waits. *)
Lemma pump_drains q :
  at_rest q → backlog q = 0 → (0 < left_to_send q)%nat →
  ∃ q', backfill_pump q = (true, q') ∧ (left_to_send q' < left_to_send q)%nat.
Proof.
  intros (Hp & Hs & Hi) Hb Hl. unfold backfill_pump.
  destruct (negb (nonempty (oq_bf q)) && negb (nonempty (oq_dq q))) eqn:En.
  { exfalso. apply andb_prop in En as [E1 E2]. unfold left_to_send, replays_left in Hl.
    destruct (oq_bf q); [|done]. destruct (oq_dq q); [|done]. simpl in Hl. lia. }
  destruct (pump_replay _ 0 _) as [res q1] eqn:Ep.
  assert (Hq0 : oq_bf q = [] → q1 = q <| oq_bf_pumping := true |>).
  { intros E. rewrite pump_replay_idle in Ep by done. by injection Ep as <- <-. }
  pose proof Ep as Ed. apply pump_replay_drains in Ed as (Hr1 & Hb1 & Hl1 & Hlt1);
    [|done..|change (backlog (q <| oq_bf_pumping := true |>)) with (backlog q); unfold OC_BF_SOFT, OC_MAX_FRAME_SIZE; lia].
  pose proof Ep as Ep'. apply pump_replay_ok in Ep' as (Hp1 & Hs1 & Hi1 & Hd1 & Hst1); [|done..].
  assert (Hpe1 : pending_out q1 = backlog q1) by (apply pending_backlog; [done|]; unfold OC_BF_SOFT, OC_MAX_FRAME_SIZE in *; lia).
  assert (Hlt : oq_bf q ≠ [] → (left_to_send q1 < left_to_send q)%nat).
  { intros Hne. apply Hlt1; [done|lia|unfold OC_BF_SLICE; lia|].
    change (backlog (q <| oq_bf_pumping := true |>)) with (backlog q). unfold OC_BF_SOFT. lia. }
  change (left_to_send (q <| oq_bf_pumping := true |>)) with (left_to_send q) in Hl1.
  assert (Hq1 : oq_bf q ≠ [] → ∃ q', (true, q1 <| oq_bf_pumping := false |>) = (true, q') ∧ (left_to_send q' < left_to_send q)%nat).
  { intros Hne. eexists. split; [done|]. by apply Hlt. }
  destruct res as [[]|]; [|done|].
  2:{ apply Hq1. intros E. by rewrite pump_replay_idle in Ep. }
  unfold pump_held. destruct (negb (nonempty (oq_bf q1)) && nonempty (oq_dq q1)) eqn:Ec.
  2:{ apply Hq1. intros E. rewrite (Hq0 E) in Ec. simpl in Ec. rewrite E in En, Ec. simpl in En, Ec.
      by destruct (nonempty (oq_dq q)). }
  apply andb_prop in Ec as [Ec1 Ec2]. destruct (oq_bf q1) eqn:Eb1; [|done].
  assert (Hr : replays_left q1 = []) by (unfold replays_left; by rewrite Eb1).
  rewrite Hpe1. set (room := if backlog q1 <? OC_BF_SOFT then _ else _). set (n := if zlen _ <? room then _ else _).
  pose proof (zlen_nonneg (oq_dq q1)) as Hnn.
  assert (Hn : 0 <= n <= zlen (oq_dq q1) ∧ n <= room).
  { unfold n, room, OC_BF_SOFT. destruct (Z.ltb_spec (backlog q1) 262144); case_match eqn:E; rewrite ?Z.ltb_lt, ?Z.ltb_ge in E; lia. }
  destruct (Z.eqb_spec n 0) as [En0|En0].
  { apply Hq1. intros E. pose proof (Hq0 E) as Hq. unfold n, room in En0.
    assert (Hb0 : backlog q1 = 0) by (by rewrite Hq). assert (Hd0 : oq_dq q1 ≠ []) by (by destruct (oq_dq q1)).
    rewrite Hb0 in En0. change (0 <? OC_BF_SOFT) with true in En0. cbv iota in En0. unfold OC_BF_SOFT in En0.
    destruct (oq_dq q1) as [|b d]; [done|]. rewrite zlen_cons in En0. pose proof (zlen_nonneg d).
    destruct (1 + zlen d <? 262144 - 0); lia. }
  rewrite out_append_room; [|done|done|].
  2:{ unfold ztake, zlen. rewrite length_take. unfold OC_MAX_OUT_BUFFER, room, OC_BF_SOFT, OC_MAX_FRAME_SIZE in *. unfold zlen in Hn.
      destruct (Z.ltb_spec (backlog q1) 262144); lia. }
  eexists. split; [done|].
  eapply Nat.lt_le_trans; [|exact Hl1].
  unfold left_to_send, replays_left. simpl. rewrite Eb1. simpl. unfold zdrop. rewrite length_drop. unfold zlen in *. lia.
Qed.

(** The I/O thread reports everything written, again and again. *)
Fixpoint drain (n : nat) (q : outq) : option outq :=
  match n with
  | O => Some q
  | S n => q ← out_step q (Written (oq_sent_total q) true); drain n q
  end.

Lemma written_all q :
  at_rest q → oq_out q = [] → oq_written_total q <= oq_sent_total q → is_u64 (oq_sent_total q) →
  let q0 := q <| oq_written_total := if oq_written_total q <? oq_sent_total q then oq_sent_total q else oq_written_total q |> in
  at_rest q0 ∧ backlog q0 = 0 ∧ left_to_send q0 = left_to_send q ∧ everything q0 = everything q.
Proof.
  intros Hr Ho Hw Hu q0. unfold q0. split_and!; [done| |done|done].
  unfold backlog. simpl. rewrite Ho. destruct (Z.ltb_spec (oq_written_total q) (oq_sent_total q)) as [|Hge];
    [|assert (oq_written_total q = oq_sent_total q) as -> by lia]; by rewrite Z.sub_diag.
Qed.

(** Flushed between operations, with the totals in order. *)
Definition flushed (q : outq) : Prop :=
  at_rest q ∧ oq_out q = [] ∧ oq_written_total q <= oq_sent_total q ∧ is_u64 (oq_sent_total q).

Lemma pump_totals q ok q' : backfill_pump q = (ok, q') →
  oq_sent_total q' = oq_sent_total q ∧ oq_written_total q' = oq_written_total q ∧ oq_handed q' = oq_handed q.
Proof.
  assert (Ha : ∀ q buf ok q', out_append q buf = (ok, q') →
    oq_sent_total q' = oq_sent_total q ∧ oq_written_total q' = oq_written_total q ∧ oq_handed q' = oq_handed q).
  { intros q0 buf ok0 q0' E. unfold out_append, defer_append in E. repeat case_match; by injection E as <- <-. }
  assert (Hp : ∀ fuel frames q res q', pump_replay fuel frames q = (res, q') →
    oq_sent_total q' = oq_sent_total q ∧ oq_written_total q' = oq_written_total q ∧ oq_handed q' = oq_handed q).
  { intros fuel. induction fuel as [|fuel IH]; intros frames q0 res q0' E; cbn [pump_replay] in E; [by injection E as <- <-|].
    repeat case_match; simplify_eq; try done.
    - apply IH in E. done.
    - apply IH in E as (-> & -> & ->). match goal with H : out_append _ _ = _ |- _ => apply Ha in H as (-> & -> & ->) end. done.
    - match goal with H : out_append _ _ = _ |- _ => apply Ha in H as (-> & -> & ->) end. done. }
  unfold backfill_pump, pump_held. intros E. repeat case_match; simplify_eq; try done;
    repeat match goal with
    | H : out_append _ _ = _ |- _ => apply Ha in H as (? & ? & ?)
    | H : pump_replay _ _ _ = _ |- _ => apply Hp in H as (? & ? & ?)
    end; simpl in *; split_and!; congruence.
Qed.

Lemma drain_step q :
  flushed q → (0 < left_to_send q)%nat → oq_sent_total q - zlen (oq_handed q) + zlen (everything q) < 2 ^ 64 →
  ∃ q', out_step q (Written (oq_sent_total q) true) = Some q' ∧ flushed q' ∧ everything q' = everything q ∧
    (left_to_send q' < left_to_send q)%nat ∧
    oq_sent_total q' - zlen (oq_handed q') = oq_sent_total q - zlen (oq_handed q).
Proof.
  intros (Hr & Ho & Hw & Hu) Hl Ht. destruct (written_all q Hr Ho Hw Hu) as (Hr0 & Hb0 & Hl0 & He0).
  cbn [out_step]. unfold io_written. set (q0 := q <| oq_written_total := _ |>) in *.
  destruct (pump_drains q0 Hr0 Hb0 ltac:(lia)) as (q1 & E1 & Hlt).
  destruct (backfill_pump_ok _ _ Hr0 E1) as (Hr1 & He1 & _). destruct (pump_totals _ _ _ E1) as (Hs1 & Hw1 & Hh1).
  rewrite E1. unfold unless_failed. cbn [fst snd].
  destruct (flush_out true q1) as [ok q2] eqn:E2. pose proof E2 as E2'.
  destruct (flush_out_ok _ _ _ _ Hr1 E2) as (Hr2 & Eb2 & Ed2 & Hst2 & Erl2).
  unfold flush_out in E2'. rewrite andb_false_r in E2'. injection E2' as <- <-. cbn [fst snd].
  eexists. split; [done|].
  assert (Hlen : zlen (oq_handed q) + zlen (zdrop (oq_out_sent q1) (oq_out q1)) <= zlen (everything q)).
  { rewrite <- He0, <- He1. unfold everything, stream. rewrite !zlen_app, Hh1. change (oq_handed q0) with (oq_handed q).
    pose proof (zlen_nonneg (concat (replays_left q1))). pose proof (zlen_nonneg (oq_dq q1)). lia. }
  assert (Hu2 : u64 (oq_sent_total q1 + zlen (zdrop (oq_out_sent q1) (oq_out q1))) = oq_sent_total q + zlen (zdrop (oq_out_sent q1) (oq_out q1))).
  { rewrite Hs1. change (oq_sent_total q0) with (oq_sent_total q). apply u64_id. pose proof (zlen_nonneg (zdrop (oq_out_sent q1) (oq_out q1))).
    unfold is_u64 in *. lia. }
  pose proof (zlen_nonneg (zdrop (oq_out_sent q1) (oq_out q1))) as Hnn.
  split_and!.
  - split_and!; [exact Hr2|done| |]; simpl; rewrite Hu2.
    + rewrite Hw1. unfold q0. simpl. case_match eqn:E; rewrite ?Z.ltb_lt, ?Z.ltb_ge in E; lia.
    + unfold is_u64 in *. lia.
  - rewrite <- He0, <- He1. unfold everything. rewrite Hst2, Erl2, Ed2. done.
  - rewrite Hl0 in Hlt. unfold left_to_send in *. rewrite Erl2, Eb2, Ed2. exact Hlt.
  - simpl. rewrite Hu2, zlen_app, Hh1. change (oq_handed q0) with (oq_handed q). lia.
Qed.

Lemma nothing_left q : flushed q → left_to_send q = 0%nat → oq_bf q = [] ∧ oq_dq q = [] ∧ oq_handed q = everything q.
Proof.
  intros ((_ & Hs & _) & Ho & _) H. unfold left_to_send in H.
  destruct (oq_bf q) eqn:Eb; [|simpl in H; lia]. destruct (oq_dq q) eqn:Ed; [|simpl in H; lia].
  unfold everything, stream, replays_left. rewrite Eb, Ed, Ho. simpl. split_and!; [done|done|].
  unfold zdrop. by rewrite drop_nil, !app_nil_r.
Qed.

(** All that the queued replays are made of, encodable or not. *)
Definition replays_whole (q : outq) : list (list Z) :=
  match oq_bf q with
  | [] => []
  | r :: bf => rest_of r (oq_bf_phase q) (oq_bf_i q) ++ (bf ≫= replay_frames)
  end.
Lemma replays_left_whole q : Forall (fun f => f ≠ []) (replays_whole q) → replays_left q = replays_whole q.
Proof.
  unfold replays_whole, replays_left. destruct (oq_bf q) as [|r bf]; [done|]. intros [H1 H2]%Forall_app. rewrite until_empty_all by done. f_equal. clear H1.
  induction bf as [|r' bf IH]; [done|]. rewrite bind_cons in H2 |- *. rewrite bind_cons. apply Forall_app in H2 as [H2 H3]. f_equal; [by apply until_empty_all|by apply IH].
Qed.

(** C24: replays drain.  From a state with nothing staged and the totals in order
    ([flushed]), fewer than 2^64 bytes to count, and the peer reading all it is sent, as
    many reports of what was written as there are frames, replays and held bytes left
    are enough: no replay and no held frame is queued any more, and what was handed over
    is all the connection took, the frames of each replay up to its first message that
    cannot be encoded; when all can, it is every frame of every replay, its end mark
    included, and then the held frames. *)
Theorem replays_drain q :
  flushed q → oq_sent_total q - zlen (oq_handed q) + zlen (everything q) < 2 ^ 64 →
  ∃ n q', (n <= left_to_send q)%nat ∧ drain n q = Some q' ∧ oq_bf q' = [] ∧ oq_dq q' = [] ∧ oq_handed q' = everything q ∧
    (Forall (fun f => f ≠ []) (replays_whole q) → oq_handed q' = oq_handed q ++ concat (replays_whole q) ++ oq_dq q).
Proof.
  intros Hf Ht. enough (∃ n q', (n <= left_to_send q)%nat ∧ drain n q = Some q' ∧ oq_bf q' = [] ∧ oq_dq q' = [] ∧ oq_handed q' = everything q)
    as (n & q' & Hn & H1 & H2 & H3 & H4).
  { exists n, q'. split_and!; try done. intros Hw. rewrite H4. unfold everything, stream. rewrite (replays_left_whole q Hw).
    destruct Hf as (_ & -> & _). unfold zdrop. by rewrite drop_nil, app_nil_r. }
  remember (left_to_send q) as k eqn:Ek. revert q Ek Hf Ht. induction (lt_wf k) as [k _ IH]. intros q -> Hf Ht.
  destruct (decide (left_to_send q = 0%nat)) as [E0|Hne].
  { exists O, q. destruct (nothing_left q Hf E0) as (? & ? & ?). split_and!; [lia|done..]. }
  destruct (drain_step q Hf ltac:(lia) Ht) as (q1 & E1 & Hf1 & He1 & Hl1 & Hd1).
  destruct (IH _ Hl1 q1 eq_refl Hf1) as (n & q' & Hn & E & ? & ? & ?).
  - rewrite He1. lia.
  - exists (S n), q'. cbn [drain]. rewrite E1. simpl. rewrite <- He1. split_and!; [lia|done..].
Qed.

(** ** Bounds *)

Definition bounded (q : outq) : Prop :=
  oq_out_sent q = 0 ∧ backlog q <= OC_MAX_OUT_BUFFER ∧ zlen (oq_dq q) <= OC_MAX_OUT_BUFFER ∧
  is_u64 (oq_sent_total q) ∧ 0 <= oq_written_total q.

Lemma out_append_bounded q buf ok q' :
  bounded q → zlen buf <= OC_MAX_OUT_BUFFER → out_append q buf = (ok, q') → bounded q'.
Proof.
  unfold bounded, backlog, OC_MAX_OUT_BUFFER. intros (Hs & Hb & Hd & Hst & Hwt) Hl H.
  unfold out_append, defer_append, OC_MAX_OUT_BUFFER in H. rewrite Hs, zdrop0 in H.
  pose proof (u64_range (oq_sent_total q - oq_written_total q)) as Hu. pose proof (zlen_nonneg (oq_out q)). pose proof (zlen_nonneg buf).
  cbn [oq_out oq_sent_total oq_written_total set_field] in H.
  rewrite (u64_id (zlen (oq_out q) + _ + _)) in H by (unfold is_u64 in *; lia).
  repeat case_match; simplify_eq; simpl in *; rewrite ?zlen_app; bool_facts; split_and!; (done || apply Hst || lia).
Qed.

Lemma pump_replay_bounded fuel : ∀ frames q res q', bounded q → pump_replay fuel frames q = (res, q') → bounded q'.
Proof.
  induction fuel as [|fuel IH]; intros frames q res q' Hb H; cbn [pump_replay] in H; [by injection H as <- <-|].
  destruct (oq_bf q) as [|r bf]; [by injection H as <- <-|]. case_match; [by injection H as <- <-|].
  case_match; [by injection H as <- <-|].
  pose proof (backfill_next_spec r (oq_bf_phase q) (oq_bf_i q)) as Hn. pose proof (rest_framed r (oq_bf_phase q) (oq_bf_i q)) as Hf.
  destruct (backfill_next r _ _) as [[buf phase] i]. destruct buf as [|x buf]; [by apply IH in H|].
  destruct (rest_of r _ _) as [|f fs]; [done|]. destruct Hn as [<- _]. apply list.Forall_cons in Hf as [Hf _].
  apply frame_or_nothing_len in Hf. destruct (out_append _ (x :: buf)) as [ok q1] eqn:E.
  apply out_append_bounded in E; [|done|unfold OC_MAX_FRAME_SIZE, OC_MAX_OUT_BUFFER in *; lia].
  destruct ok; [by apply IH in H|by injection H as <- <-].
Qed.

Lemma pump_bounded q ok q' : bounded q → backfill_pump q = (ok, q') → bounded q'.
Proof.
  intros Hb H. unfold backfill_pump in H. case_match; [by injection H as <- <-|].
  destruct (pump_replay _ 0 _) as [res q1] eqn:Ep. apply pump_replay_bounded in Ep; [|done].
  assert (Hh : ∀ ok q2, pump_held q1 = (ok, q2) → bounded q2).
  { intros ok2 q2 E. unfold pump_held in E. case_match; [|by injection E as <- <-].
    set (n := if _ <? _ then _ else _) in E. case_match; [by injection E as <- <-|].
    destruct (out_append q1 _) as [ok3 q3] eqn:Ea.
    assert (Hn : n <= OC_BF_SOFT).
    { unfold n, OC_BF_SOFT. pose proof (zlen_nonneg (oq_dq q1)). unfold pending_out. pose proof (u64_range ((zlen (oq_out q1) - oq_out_sent q1) + u64 (oq_sent_total q1 - oq_written_total q1))).
      unfold is_u64 in *. repeat case_match; bool_facts; lia. }
    apply out_append_bounded in Ea; [|done|unfold ztake, zlen; rewrite length_take; unfold OC_MAX_OUT_BUFFER, OC_BF_SOFT in *; lia].
    destruct ok3; injection E as <- <-; [|done]. destruct Ea as (? & ? & Hd & ? & ?). split_and!; [done|done| |done|done].
    simpl. unfold zdrop, zlen in *. rewrite length_drop. lia. }
  destruct res as [[]|]; [|by injection H as <- <-|by injection H as <- <-].
  destruct (pump_held q1) as [ok2 q2] eqn:E. injection H as <- <-. by apply (Hh _ _ eq_refl).
Qed.

Lemma u64_advance s w n : 0 <= n → n + u64 (s - w) < 2 ^ 64 → u64 (u64 (s + n) - w) = n + u64 (s - w).
Proof.
  unfold u64. intros Hn Hb. rewrite Zminus_mod_idemp_l. replace (s + n - w) with (n + (s - w)) by lia.
  rewrite <- Zplus_mod_idemp_r. apply Z.mod_small. pose proof (Z.mod_pos_bound (s - w) (2 ^ 64) ltac:(lia)). lia.
Qed.

Lemma flush_bounded io q ok q' : bounded q → flush_out io q = (ok, q') → bounded q'.
Proof.
  unfold bounded, backlog, OC_MAX_OUT_BUFFER. intros (Hs & Hb & Hd & Hst & Hwt) H. unfold flush_out in H. rewrite Hs, zdrop0 in H.
  case_match; injection H as <- <-; [done|]. simpl. split_and!; [done| |done|apply u64_range|done].
  rewrite zlen_nil, u64_advance; pose proof (zlen_nonneg (oq_out q)); lia.
Qed.

(** A frame fits the wire, and the I/O thread reports no more than it was handed. *)
Fixpoint sane (q : outq) (ops : list out_op) : bool :=
  match ops with
  | [] => true
  | op :: ops =>
      match op with
      | Send buf _ | Offer buf _ => zlen buf <=? OC_MAX_FRAME_SIZE
      | Written total _ => (oq_written_total q <=? oq_sent_total q) && (total <=? oq_sent_total q)
      | Accept _ _ => true
      end && match out_step q op with Some q => sane q ops | None => true end
  end.

Lemma step_bounded q op q' : bounded q → sane q [op] = true → out_step q op = Some q' → bounded q'.
Proof.
  intros Hb Hs H. cbn [sane] in Hs. apply andb_prop in Hs as [Hs _].
  destruct op as [buf io|buf io|r io|total io]; cbn [out_step] in *; bool_facts.
  - unfold send_bytes, unless_failed in H. destruct (out_append q buf) as [[] q1] eqn:E; [|done]. simpl in H.
    apply out_append_bounded in E; [|done|unfold OC_MAX_FRAME_SIZE, OC_MAX_OUT_BUFFER in *; lia].
    destruct (flush_out io q1) as [[] q2] eqn:E2; [|done]. injection H as <-. by eapply flush_bounded.
  - injection H as <-. unfold presence_send. destruct (out_append q buf) as [ok q1] eqn:E.
    apply out_append_bounded in E; [|done|unfold OC_MAX_FRAME_SIZE, OC_MAX_OUT_BUFFER in *; lia].
    destruct ok; [|done]. destruct (flush_out io q1) as [ok2 q2] eqn:E2. by eapply flush_bounded.
  - unfold backfill_accept, unless_failed in H. case_match; [done|].
    destruct (backfill_pump _) as [[] q1] eqn:E; [|done]. simpl in H. apply pump_bounded in E; [|done].
    destruct (flush_out io q1) as [[] q2] eqn:E2; [|done]. injection H as <-. by eapply flush_bounded.
  - unfold io_written, unless_failed in H. destruct (backfill_pump _) as [[] q1] eqn:E; [|done]. simpl in H.
    apply pump_bounded in E.
    + destruct (flush_out io q1) as [[] q2] eqn:E2; [|done]. injection H as <-. by eapply flush_bounded.
    + destruct Hb as (? & Hb & ? & Hst & Hwt). unfold bounded, backlog in *.
      cbn [oq_out oq_sent_total oq_written_total oq_dq oq_out_sent set_field].
      destruct (Z.ltb_spec (oq_written_total q) total); split_and!; try done; [|lia].
      unfold u64, is_u64 in *. rewrite Z.mod_small in * by lia. lia.
Qed.

Lemma run_bounded ops : ∀ q q', bounded q → sane q ops = true → out_run q ops = Some q' → bounded q'.
Proof.
  induction ops as [|op ops IH]; intros q q' Hb Hs H; cbn [out_run sane] in *; [by injection H as <-|].
  apply andb_prop in Hs as [Hs1 Hs2]. destruct (out_step q op) as [q1|] eqn:E; [|done]. simpl in H.
  apply (IH q1); [|done|done]. eapply step_bounded; [done| |done]. cbn [sane]. rewrite Hs1. by rewrite E.
Qed.

(** C25: a slow or hostile reader cannot grow the daemon.  Whatever is sent to a
    connection and however little it reads, what is staged and what waits on the
    I/O thread together stay within [OC_MAX_OUT_BUFFER], and so do the bytes held
    behind its replays. *)
Theorem output_bounded ops q :
  out_run outq_new ops = Some q → sane outq_new ops = true →
  pending_out q <= OC_MAX_OUT_BUFFER ∧ zlen (oq_dq q) <= OC_MAX_OUT_BUFFER.
Proof.
  intros H Hs. destruct (run_bounded ops outq_new q ltac:(by split_and!) Hs H) as (Hs0 & Hb & Hd & _).
  split; [|done]. rewrite pending_backlog; [done|done|]. unfold OC_MAX_OUT_BUFFER in *. lia.
Qed.

(** ** Two ways a replay goes wrong *)

Lemma pump_replay_grows fuel : ∀ frames q res q',
  oq_bf_pumping q = true → oq_out_sent q = 0 → pump_replay fuel frames q = (res, q') →
  oq_bf_pumping q' = true ∧ oq_out_sent q' = 0 ∧ ∃ more, oq_out q' = oq_out q ++ more.
Proof.
  assert (Hid : ∀ q, oq_bf_pumping q = true → oq_out_sent q = 0 →
    oq_bf_pumping q = true ∧ oq_out_sent q = 0 ∧ ∃ more, oq_out q = oq_out q ++ more).
  { intros q ? ?. split_and!; [done..|]. exists []. by rewrite app_nil_r. }
  induction fuel as [|fuel IH]; intros frames q res q' Hp Hs H; cbn [pump_replay] in H; [injection H as <- <-; auto|].
  destruct (oq_bf q) as [|r bf]; [injection H as <- <-; auto|]. case_match; [injection H as <- <-; auto|].
  case_match; [injection H as <- <-; auto|]. destruct (backfill_next r _ _) as [[buf phase] i].
  destruct buf as [|x buf]; [by apply IH in H|]. destruct (out_append _ (x :: buf)) as [ok q1] eqn:E.
  apply out_append_pumping in E; [|done..]. destruct ok; subst q1.
  - apply IH in H as (? & ? & more & Hm); [|done..]. split_and!; [done..|]. exists ((x :: buf) ++ more).
    rewrite Hm. simpl. by rewrite <- app_assoc.
  - injection H as <- <-. split_and!; [done..|]. exists []. by rewrite app_nil_r.
Qed.

(** The first turn of the pump on a replay that has not started. *)
Lemma pump_replay_first k frames q r bf g fs :
  oq_bf_pumping q = true → oq_out_sent q = 0 → oq_bf q = r :: bf → oq_bf_phase q = BF_MSG → oq_bf_i q = O →
  backlog q = 0 → (frames < OC_BF_SLICE)%nat → replay_frames r = g :: fs → g ≠ [] →
  ∃ phase i, pump_replay (S k) frames q =
    pump_replay k (S frames) (q <| oq_bf_phase := phase |> <| oq_bf_i := i |> <| oq_out := oq_out q ++ g |>).
Proof.
  intros Hp Hs Eb Eph Ei Hb Hfr Hr Hg. cbn [pump_replay]. rewrite Eb, Eph, Ei, (pending_backlog q), Hb by (done || lia).
  destruct (Nat.leb_spec OC_BF_SLICE frames); [lia|]. change (OC_BF_SOFT <=? 0) with false. cbv iota.
  pose proof (backfill_next_spec r BF_MSG 0) as Hn. pose proof (rest_framed r BF_MSG 0) as Hf. unfold replay_frames in Hr.
  destruct (backfill_next r BF_MSG 0) as [[buf phase] i]. rewrite Hr in Hn, Hf. destruct Hn as [-> _].
  apply list.Forall_cons in Hf as [Hf _]. apply frame_or_nothing_len in Hf. destruct g as [|x g]; [done|].
  exists phase, i. rewrite out_append_room; [done|done|done|].
  change (backlog (q <| oq_bf_phase := phase |> <| oq_bf_i := i |>)) with (backlog q).
  unfold OC_MAX_FRAME_SIZE, OC_MAX_OUT_BUFFER in *. lia.
Qed.

Lemma pump_held_grows q ok q' :
  oq_bf_pumping q = true → oq_out_sent q = 0 → pump_held q = (ok, q') → ∃ more, oq_out q' = oq_out q ++ more.
Proof.
  intros Hp Hs H.
  assert (Hid : ∃ more, oq_out q = oq_out q ++ more) by (exists []; by rewrite app_nil_r).
  unfold pump_held in H. destruct (negb (nonempty (oq_bf q)) && nonempty (oq_dq q)); [|by injection H as <- <-].
  set (n := if zlen _ <? _ then _ else _) in H. destruct (n =? 0); [by injection H as <- <-|].
  destruct (out_append q _) as [ok1 q1] eqn:E. apply out_append_pumping in E; [|done..].
  destruct ok1; injection H as <- <-; subst q1; [by eexists|done].
Qed.

Lemma pump_first q r bf g fs q' :
  at_rest q → oq_bf q = r :: bf → oq_bf_phase q = BF_MSG → oq_bf_i q = O → backlog q = 0 →
  replay_frames r = g :: fs → g ≠ [] → backfill_pump q = (true, q') → ∃ more, oq_out q' = oq_out q ++ g ++ more.
Proof.
  intros (Hp & Hs & _) Eb Eph Ei Hb Hr Hg H. unfold backfill_pump in H.
  assert (Hc : negb (nonempty (oq_bf q)) && negb (nonempty (oq_dq q)) = false) by (by rewrite Eb). rewrite Hc in H. clear Hc.
  rewrite (Nat.add_comm (OC_BF_SLICE + _) 1) in H. revert H. generalize (OC_BF_SLICE + length (oq_bf q))%nat. intros k H.
  destruct (pump_replay_first k 0 (q <| oq_bf_pumping := true |>) r bf g fs) as (phase & i & E);
    [done..|unfold OC_BF_SLICE; lia|done|done|].
  change (1 + k)%nat with (S k) in H. rewrite E in H. clear E.
  destruct (pump_replay k 1 _) as [res q1] eqn:Ep. apply pump_replay_grows in Ep as (Hp1 & Hs1 & more & Hm); [|done..].
  change (oq_out q1 = (oq_out q ++ g) ++ more) in Hm. rewrite <- app_assoc in Hm.
  destruct res as [[]|]; [|by injection H|injection H as <-; by exists more].
  destruct (pump_held q1) as [ok q2] eqn:E2. injection H as -> <-.
  destruct (pump_held_grows _ _ _ Hp1 Hs1 E2) as (more2 & Hm2). exists (more ++ more2).
  change (oq_out q2 = oq_out q ++ g ++ more ++ more2). by rewrite Hm2, Hm, <- !app_assoc.
Qed.

Lemma pump_cuts q :
  at_rest q → oq_bf q = [] → backlog q = 0 → OC_BF_SOFT < zlen (oq_dq q) →
  backfill_pump q = (true, q <| oq_out := oq_out q ++ ztake OC_BF_SOFT (oq_dq q) |> <| oq_dq := zdrop OC_BF_SOFT (oq_dq q) |>).
Proof.
  intros (Hp & Hs & Hi) Eb Hb Hd. pose proof (zlen_nonneg (oq_dq q)) as Hnn. unfold backfill_pump.
  assert (Hc : nonempty (oq_dq q) = true) by (destruct (oq_dq q); [|done]; unfold zlen, OC_BF_SOFT in Hd; simpl in Hd; lia).
  assert (Hc' : negb (nonempty (oq_bf q)) && negb (nonempty (oq_dq q)) = false) by (by rewrite Eb, Hc).
  rewrite Hc', pump_replay_idle by done. unfold pump_held.
  set (q0 := q <| oq_bf_pumping := true |>).
  assert (oq_bf q0 = [] ∧ oq_dq q0 = oq_dq q ∧ backlog q0 = 0 ∧ oq_out_sent q0 = 0 ∧ oq_bf_pumping q0 = true)
    as (Eb0 & Ed0 & Hb0 & Hs0 & Hp0) by done.
  rewrite Eb0, Ed0, Hc, (pending_backlog q0), Hb0 by (done || (rewrite Hb0; done)). cbn [nonempty negb andb].
  change (0 <? OC_BF_SOFT) with true. cbv iota. rewrite Z.sub_0_r.
  destruct (Z.ltb_spec (zlen (oq_dq q)) OC_BF_SOFT); [lia|]. change (OC_BF_SOFT =? 0) with false. cbv iota.
  rewrite (out_append_room q0) by (done || (rewrite Hb0, zlen_ztake; unfold OC_BF_SOFT, OC_MAX_OUT_BUFFER in *; lia)).
  unfold q0. destruct q; simpl in *. by subst.
Qed.

Lemma pump_too_full q r bf :
  at_rest q → oq_bf q = r :: bf → OC_BF_SOFT <= backlog q < 2 ^ 64 → backfill_pump q = (true, q).
Proof.
  intros (Hp & Hs & _) Eb Hb. unfold backfill_pump.
  assert (Hc : negb (nonempty (oq_bf q)) && negb (nonempty (oq_dq q)) = false) by (by rewrite Eb). rewrite Hc. clear Hc.
  rewrite (Nat.add_comm (OC_BF_SLICE + _) 1). generalize (OC_BF_SLICE + length (oq_bf q))%nat. intros k.
  set (q0 := q <| oq_bf_pumping := true |>).
  assert (oq_bf q0 = r :: bf ∧ pending_out q0 = backlog q) as [Eb0 Hpe]
    by (split; [done|]; apply (pending_backlog q0 Hs); apply Hb).
  change (1 + k)%nat with (S k). cbn [pump_replay]. rewrite Eb0, Hpe. change (OC_BF_SLICE <=? 0)%nat with false. cbv iota.
  destruct (Z.leb_spec OC_BF_SOFT (backlog q)); [|lia]. unfold q0. destruct q; simpl in *. by subst.
Qed.

Lemma flush_idle q : oq_out q = [] → oq_out_sent q = 0 → is_u64 (oq_sent_total q) → flush_out true q = (true, q).
Proof.
  intros Ho Hs Hu. unfold flush_out. rewrite andb_false_r. destruct q as [out sent st wt bf pu ph i dq ha]; simpl in *; subst.
  change (zdrop 0 []) with (@nil Z). change (zlen (@nil Z)) with 0. by rewrite Z.add_0_r, (u64_id st Hu), app_nil_r.
Qed.

(** The three operations of [replay_splits_frame], one by one. *)
Lemma cut_held q :
  flushed q → oq_bf q = [] → OC_BF_SOFT < zlen (oq_dq q) → oq_sent_total q < 2 ^ 63 →
  ∃ q1, out_step q (Written (oq_sent_total q) true) = Some q1 ∧ at_rest q1 ∧ oq_out q1 = [] ∧ oq_bf q1 = [] ∧
    oq_sent_total q1 = oq_sent_total q + OC_BF_SOFT ∧ oq_written_total q1 = oq_sent_total q ∧
    oq_handed q1 = oq_handed q ++ ztake OC_BF_SOFT (oq_dq q).
Proof.
  intros (Hr & Ho & Hw & Hu) Eb Hd Ht. destruct (written_all q Hr Ho Hw Hu) as (Hr0 & Hb0 & _ & _).
  cbn [out_step]. unfold io_written. set (q0 := q <| oq_written_total := _ |>) in *.
  assert (Hw0 : oq_written_total q0 = oq_sent_total q).
  { unfold q0. cbn [oq_written_total set_field]. destruct (Z.ltb_spec (oq_written_total q) (oq_sent_total q)); lia. }
  rewrite (pump_cuts q0 Hr0 Eb Hb0 Hd). change (oq_dq q0) with (oq_dq q).
  assert (Hl : zlen (ztake OC_BF_SOFT (oq_dq q)) = OC_BF_SOFT) by (apply zlen_ztake; unfold OC_BF_SOFT in *; lia).
  revert Hl. generalize (ztake OC_BF_SOFT (oq_dq q)) (zdrop OC_BF_SOFT (oq_dq q)). intros cut rest Hl.
  assert (Hu1 : u64 (oq_sent_total q + zlen cut) = oq_sent_total q + OC_BF_SOFT).
  { rewrite Hl. apply u64_id. unfold is_u64, OC_BF_SOFT in *. lia. }
  unfold unless_failed. cbn [fst snd]. unfold flush_out. rewrite andb_false_r. cbn [fst snd].
  eexists. split; [done|]. destruct Hr0 as (Hp0 & Hs0 & Hi0). cbn [oq_out oq_out_sent oq_bf oq_sent_total oq_written_total oq_handed set_field].
  change (oq_out q0) with (oq_out q). rewrite Ho, Hs0, zdrop0. cbn [app]. change (oq_sent_total q0) with (oq_sent_total q).
  rewrite Hu1. done.
Qed.

Lemma accept_too_late q r :
  at_rest q → oq_out q = [] → oq_bf q = [] → oq_sent_total q = oq_written_total q + OC_BF_SOFT → is_u64 (oq_sent_total q) →
  out_step q (Accept r true) = Some (q <| oq_bf := [r] |>).
Proof.
  intros (Hp & Hs & Hi) Ho Eb Ht Hu. cbn [out_step]. unfold backfill_accept. rewrite Eb. cbn [length Nat.eqb app].
  assert (Hb : backlog (q <| oq_bf := [r] |>) = OC_BF_SOFT).
  { unfold backlog. cbn [oq_out oq_sent_total oq_written_total set_field]. rewrite Ho, Ht, zlen_nil.
    replace (oq_written_total q + OC_BF_SOFT - oq_written_total q) with OC_BF_SOFT by lia. done. }
  change (0 =? OC_BF_QUEUE)%nat with false. cbv iota.
  rewrite (pump_too_full _ r []) by (done || (rewrite Hb; done)). unfold unless_failed. cbn [fst snd].
  by rewrite flush_idle.
Qed.

(** A replay can split a frame.  When only held bytes are left of a replay and
    more of them than the pump takes at once, they are cut at [OC_BF_SOFT] bytes,
    wherever a frame ends; a replay that arrives then is written right behind the
    cut, in the middle of a frame. *)
Theorem replay_splits_frame q r g fs :
  flushed q → oq_bf q = [] → OC_BF_SOFT < zlen (oq_dq q) → oq_sent_total q < 2 ^ 63 →
  replay_frames r = g :: fs → g ≠ [] →
  ∃ q1 q2 q3 more,
    out_step q (Written (oq_sent_total q) true) = Some q1 ∧
    out_step q1 (Accept r true) = Some q2 ∧
    out_step q2 (Written (oq_sent_total q2) true) = Some q3 ∧
    oq_handed q3 = oq_handed q ++ ztake OC_BF_SOFT (oq_dq q) ++ g ++ more.
Proof.
  intros Hf Eb Hd Ht Hg Hne. destruct (cut_held q Hf Eb Hd Ht) as (q1 & E1 & Hr1 & Ho1 & Eb1 & Hs1 & Hw1 & Hh1).
  destruct Hf as (_ & _ & _ & Hu).
  assert (Hu1 : is_u64 (oq_sent_total q1)) by (rewrite Hs1; unfold is_u64, OC_BF_SOFT in *; lia).
  pose proof (accept_too_late q1 r Hr1 Ho1 Eb1 ltac:(lia) Hu1) as E2.
  set (q2 := q1 <| oq_bf := [r] |>) in *. pose proof Hr1 as (Hp1 & Hs1' & Hi1). destruct (Hi1 Eb1) as [Eph Ei].
  assert (Hr2 : at_rest q2) by (split_and!; done).
  destruct (written_all q2 Hr2 Ho1) as (Hr3 & Hb3 & Hl3 & _);
    [change (oq_written_total q1 <= oq_sent_total q1); unfold OC_BF_SOFT in *; lia|done|].
  cbn [out_step] in *. set (q3 := q2 <| oq_written_total := _ |>) in *.
  destruct (pump_drains q3 Hr3 Hb3) as (q4 & E3 & _).
  { rewrite Hl3. unfold left_to_send. change (oq_bf q2) with [r]. simpl. lia. }
  destruct (pump_first q3 r [] g fs q4 Hr3 eq_refl Eph Ei Hb3 Hg Hne E3) as (more & Hm).
  destruct (pump_totals _ _ _ E3) as (_ & _ & Hh). destruct (backfill_pump_ok _ _ Hr3 E3) as ((_ & Hs4 & _) & _).
  eexists q1, q2, _, more. split_and!; [exact E1|exact E2| |].
  - unfold io_written. fold q3. rewrite E3. unfold unless_failed, flush_out. rewrite andb_false_r. done.
  - cbn [oq_handed set_field fst snd]. rewrite Hs4, zdrop0, Hh, Hm. change (oq_out q3) with (oq_out q1). change (oq_handed q3) with (oq_handed q1).
    by rewrite Ho1, Hh1, <- !app_assoc.
Qed.

(** A message that cannot be encoded ends its replay.  A stored message whose
    frame is over the wire limit (a body of the largest size with a few files) is
    taken for the end of the result: the frames before it are sent, and no later
    message, no reaction and no [BACKFILL_DONE]. *)
Theorem unencodable_ends_replay r before m after :
  db_replay r = before ++ m :: after →
  Forall (fun f => f ≠ []) (before ≫= fun x => encoded (bf_msg x) :: meta_rest x) → encodes (bf_msg m) = false →
  sent_frames r = (before ≫= fun x => encoded (bf_msg x) :: meta_rest x) ∧
  encoded (bf_done r) ∈ replay_frames r ∧ (length (sent_frames r) < length (replay_frames r))%nat.
Proof.
  intros Hr Hb Hm.
  assert (Em : encoded (bf_msg m) = []).
  { destruct (encoded_framed _ (bf_msg_framed m)) as [_ H]. destruct (encoded (bf_msg m)) eqn:E; [done|].
    destruct H as [_ H]. rewrite H in Hm; done. }
  assert (Ef : ∃ l, replay_frames r = (before ≫= fun x => encoded (bf_msg x) :: meta_rest x) ++ [] :: l ++ [encoded (bf_done r)]).
  { assert (∃ l, pin_rest r 0 = l ++ [encoded (bf_done r)]) as (l & El).
    { unfold pin_rest, saved_rest, collapsed_rest, react_rest, unfurl_rest, fwd_rest, act_rest, poll_rest, done_rest.
      eexists. rewrite !app_assoc. reflexivity. }
    unfold replay_frames. cbn [rest_of]. unfold msg_rest. rewrite drop_0, Hr, bind_app, bind_cons, Em, El.
    exists (meta_rest m ++ (after ≫= fun x => encoded (bf_msg x) :: meta_rest x) ++ l).
    by rewrite <- !app_assoc. }
  destruct Ef as (l & Ef). unfold sent_frames. rewrite Ef. clear Ef.
  assert (Hs : ∀ fs k, Forall (fun f => f ≠ []) fs → until_empty (fs ++ [] :: k) = fs).
  { intros fs k. induction 1 as [|[|x f] fs Hf Hfs IH]; simpl; [done|done|by rewrite IH]. }
  rewrite Hs by done. split_and!; [done| |rewrite !length_app; simpl; lia].
  apply elem_of_app. right. right. apply elem_of_app. right. left.
Qed.

(** ** Instances *)

(** A message of the largest body with sixteen files. *)
Definition long_name : oc_attach_meta := mk_attach_meta 1 (Some (replicate 60 97)) None 5 0 0 0 0 0 0.
Definition big_msg : oc_replay_msg :=
  mk_replay_msg 7 3 2 1000 (replicate 65536 97) 0 0 (replicate 16 long_name) None 0 0 false 0 false 0 0.
Definition small_msg (id : Z) : oc_replay_msg :=
  mk_replay_msg id 3 2 1000 [104; 105] 1 1000 [] None 4 900 true 950 false 0 0.
Definition res_of (l : list oc_replay_msg) : oc_dbres := mk_dbres l [] [] [] [] [] 9 0.

Lemma unencodable_ends_replay_witness :
  length (sent_frames (res_of [small_msg 1; big_msg; small_msg 2])) = 2%nat.
Proof.
  destruct (unencodable_ends_replay (res_of [small_msg 1; big_msg; small_msg 2]) [small_msg 1] big_msg [small_msg 2])
    as (-> & _ & _); [done| |vm_compute; reflexivity|vm_compute; reflexivity].
  vm_compute. repeat constructor; done.
Defined.

Definition short_run : list out_op :=
  [Send [1; 2; 3] true; Accept (res_of (small_msg <$> [1; 2])) true; Send [4; 5] true; Offer [6] true; Written 3 true].
Lemma replay_uninterrupted_witness :
  ∃ q us, out_run outq_new short_run = Some q ∧ schedule (history outq_new short_run) us ∧
    stream q ++ concat (replays_left q) ++ oq_dq q = frames_of us.
Proof.
  destruct (out_run outq_new short_run) as [q|] eqn:E; [|vm_compute in E; discriminate].
  destruct (replay_uninterrupted short_run q E) as [(us & H1 & H2) _]; [vm_compute; reflexivity|].
  exists q, us. split; [exact eq_refl|]. split; [exact H1|exact H2].
Defined.
Lemma output_bounded_witness :
  ∃ q, out_run outq_new short_run = Some q ∧ pending_out q <= OC_MAX_OUT_BUFFER.
Proof.
  destruct (out_run outq_new short_run) as [q|] eqn:E; [|vm_compute in E; discriminate].
  exists q. split; [exact eq_refl|]. exact (proj1 (output_bounded short_run q E ltac:(vm_compute; reflexivity))).
Defined.

(** More messages than a slice, and more held bytes than two pumps take. *)
Definition long_run : list out_op :=
  Accept (res_of (small_msg ∘ Z.of_nat <$> seq 1 20)) true
    :: (replicate 10 (Send (replicate (Z.to_nat OC_MAX_FRAME_SIZE) 7) true)
        ++ [Written 2440 true]).
Definition flushed_b (q : outq) : bool :=
  negb (oq_bf_pumping q) && (oq_out_sent q =? 0) && bool_decide (length (oq_bf q) = O) &&
  match oq_bf_phase q with BF_MSG => true | _ => false end && (oq_bf_i q =? 0)%nat && bool_decide (length (oq_out q) = O) &&
  (oq_written_total q <=? oq_sent_total q) && (0 <=? oq_sent_total q) && (oq_sent_total q <? 2 ^ 63).
Lemma flushed_b_ok q : flushed_b q = true → flushed q ∧ oq_bf q = [] ∧ oq_sent_total q < 2 ^ 63.
Proof.
  unfold flushed_b. intros H. repeat (apply andb_prop in H as [H ?]). bool_facts.
  assert (oq_bf q = []) as Eb by (destruct (oq_bf q); [done|simpl in *; lia]).
  assert (oq_out q = []) as Eo by (destruct (oq_out q); [done|simpl in *; lia]).
  unfold flushed, at_rest, is_u64. rewrite Eb, Eo. destruct (oq_bf_phase q) eqn:E; try done.
  split_and!; try done; try lia; [by destruct (oq_bf_pumping q)|]. intros _. split; [done|]. by apply Nat.eqb_eq.
Qed.

Lemma long_run_state : ∃ q, out_run outq_new long_run = Some q ∧ flushed_b q = true ∧ OC_BF_SOFT < zlen (oq_dq q).
Proof.
  assert (H : match out_run outq_new long_run with
              | Some q => flushed_b q && (OC_BF_SOFT <? zlen (oq_dq q)) | None => false end = true)
    by (vm_compute; reflexivity).
  destruct (out_run outq_new long_run) as [q|]; [|done]. apply andb_prop in H as [H1 H2]. apply Z.ltb_lt in H2. exists q.
  split; [exact eq_refl|]. split; [exact H1|exact H2].
Qed.
Lemma replay_splits_frame_witness :
  ∃ q q1 q2 q3 more, out_run outq_new long_run = Some q ∧
    out_step q (Written (oq_sent_total q) true) = Some q1 ∧
    out_step q1 (Accept (res_of [small_msg 50]) true) = Some q2 ∧
    out_step q2 (Written (oq_sent_total q2) true) = Some q3 ∧
    oq_handed q3 = oq_handed q ++ ztake OC_BF_SOFT (oq_dq q) ++ encoded (bf_msg (small_msg 50)) ++ more.
Proof.
  destruct long_run_state as (q & E & Hb & Hd). destruct (flushed_b_ok q Hb) as (Hf & Eb & Ht).
  destruct (replay_splits_frame q (res_of [small_msg 50]) (encoded (bf_msg (small_msg 50)))
    (tail (replay_frames (res_of [small_msg 50]))) Hf Eb Hd Ht) as (q1 & q2 & q3 & more & H1 & H2 & H3 & H4);
    [reflexivity|vm_compute; discriminate|]. exists q, q1, q2, q3, more. split; [exact E|]. split; [exact H1|].
  split; [exact H2|]. split; [exact H3|exact H4].
Defined.
Lemma replays_drain_witness :
  ∃ q n q', out_run outq_new long_run = Some q ∧ drain n q = Some q' ∧ oq_bf q' = [] ∧ oq_dq q' = [].
Proof.
  destruct long_run_state as (q & E & Hb & Hd). destruct (flushed_b_ok q Hb) as (Hf & Eb & Ht).
  assert (Hz : oq_sent_total q - zlen (oq_handed q) + zlen (everything q) < 2 ^ 64).
  { assert (Hv : match out_run outq_new long_run with
                 | Some q => oq_sent_total q - zlen (oq_handed q) + zlen (everything q) <? 2 ^ 64 | None => false end = true)
      by (vm_compute; reflexivity). rewrite E in Hv. by apply Z.ltb_lt in Hv. }
  destruct (replays_drain q Hf Hz) as (n & q' & _ & H1 & H2 & H3 & _). exists q, n, q'.
  split; [exact E|]. split; [exact H1|]. split; [exact H2|exact H3].
Defined.
