(* ===== verification/Calls.v ===== *)
(** * The calls of the network loop: [daemon/netloop.c]

    A call is a row of [g_calls], found by its conversation; a participant is a
    user on one connection, with a slot, a media token and a device key.  Frames
    of the clients, answers of the database reader, closed connections, the
    relay's sweep and the tick that gives up held seats change them, and what
    they send goes through the output queues of [Outq].

    [loop] is the state of the network thread those read and write: the
    connections by id ([g_by_id], a finite map by [Idmap]), each user's
    connections newest first ([g_by_user] and the [u_next] lists), the calls, the
    jobs the reader has not answered, and the demo limits.  [lp_trace] records
    what the loop did: frames given to a connection, the relay's [authorize] and
    [revoke], pushes and missed-call jobs, in order.

    The clock is read once in a step ([e_now]); allocations succeed; [e_rand] is
    what [oc_rand_bytes] gives, [None] when it fails; [e_io] says which
    connections' I/O threads take bytes. *)
From stdpp Require Import base tactics list numbers gmap strings.
From S2P Require Import Prelude.
From S2P Require Import Wire.
From S2P Require Import ProtoTypes.
From S2P Require Import ProtoCall.
From S2P Require Import ProtoUsers.
From S2P Require Import Demolimits.
From S2P Require Import Outq.
Local Open Scope Z_scope.
Local Open Scope oc_scope.

Definition OC_MAX_CALLS : nat := 64.
Definition OC_MAX_CALL_PARTICIPANTS : Z := 32.
Definition OC_MAX_CALL_INVITES : Z := OC_MAX_CALL_PARTICIPANTS.
Definition OC_CALL_RATE_MAX : Z := 60.
Definition OC_CALL_RATE_MS : Z := 10000.
Definition OC_DEMO_CALL_MAX_MS : Z := 1200000.
Definition OC_CALL_SEALED_LEN : Z := 64.
Definition OC_CALL_PART_AWAY : Z := 1.

(** ** Connections *)

Record rate_win := mk_rate_win { rw_start : Z; rw_count : Z }.
#[export] Instance rate_win_eta : Eta rate_win := fun w => mk_rate_win (rw_start w) (rw_count w).
Definition win_ok (now : Z) (w : rate_win) (max window_ms : Z) : bool * rate_win :=
  let w := if window_ms <=? u64 (now - rw_start w) then mk_rate_win now 0 else w in
  let w := w <| rw_count := u32 (rw_count w + 1) |> in
  (rw_count w <=? max, w).

Record conn := mk_conn {
  cn_authed : bool;
  cn_user : Z;
  cn_call_rl : rate_win;
  cn_call_gen : Z;
  cn_call_join_ch : Z;
  cn_fan_gen : Z;
  cn_out : outq }.
#[export] Instance conn_eta : Eta conn := fun c =>
  mk_conn (cn_authed c) (cn_user c) (cn_call_rl c) (cn_call_gen c) (cn_call_join_ch c) (cn_fan_gen c) (cn_out c).
Definition conn_zero : conn := mk_conn false 0 (mk_rate_win 0 0) 0 0 0 outq_new.

(** ** Calls *)

Record call_part := mk_call_part {
  pt_user : Z;
  pt_conn : Z;
  pt_slot : Z;
  pt_token : list Z;
  pt_key : list Z;
  pt_codecs : Z;
  pt_detached : Z }.
#[export] Instance call_part_eta : Eta call_part := fun p =>
  mk_call_part (pt_user p) (pt_conn p) (pt_slot p) (pt_token p) (pt_key p) (pt_codecs p) (pt_detached p).

(** [channel_id] 0 marks a free row; [n] and [n_inv] are the lengths. *)
Record call_t := mk_call {
  ct_channel : Z;
  ct_id : Z;
  ct_starter : Z;
  ct_started : Z;
  ct_epoch : Z;
  ct_others_joined : bool;
  ct_invited_any : bool;
  ct_parts : list call_part;
  ct_invited : list Z;
  ct_members : list Z;
  ct_sharer : Z }.
#[export] Instance call_eta : Eta call_t := fun c =>
  mk_call (ct_channel c) (ct_id c) (ct_starter c) (ct_started c) (ct_epoch c) (ct_others_joined c) (ct_invited_any c)
    (ct_parts c) (ct_invited c) (ct_members c) (ct_sharer c).
Definition call_zero : call_t := mk_call 0 0 0 0 0 false false [] [] [] 0.
Definition call_live (c : call_t) : bool := negb (ct_channel c =? 0).

(** ** Frames and the trace *)

Inductive call_frame :=
  | FJoined (m : oc_call_joined)
  | FRoster (m : oc_call_roster)
  | FState (m : oc_call_state)
  | FKeyFor (m : oc_call_key_for)
  | FError (m : oc_error).
(** [Sent]: the connection's output took the frame; [Missed]: it had no room. *)
Inductive effect :=
  | Sent (cid : Z) (fr : call_frame)
  | Missed (cid : Z) (fr : call_frame)
  | Authorize (call_id user cid : Z) (token : list Z)
  | Revoke (token : list Z)
  | Swept (token : list Z)
  | MissedCall (starter channel : Z)
  | PushCall (channel inviter user : Z).

Definition frame_encoder (fr : call_frame) : encoder :=
  match fr with
  | FJoined m => oc_encode_call_joined OC_PROTOCOL_VERSION m
  | FRoster m => oc_encode_call_roster OC_PROTOCOL_VERSION m
  | FState m => oc_encode_call_state OC_PROTOCOL_VERSION m
  | FKeyFor m => oc_encode_call_key_for OC_PROTOCOL_VERSION m
  | FError m => oc_encode_error OC_PROTOCOL_VERSION m
  end.
(** The bytes of a frame in a buffer of [cap], [None] when it does not encode. *)
Definition encode_in (cap : Z) (fr : call_frame) : option (list Z) :=
  let '(r, w) := frame_encoder fr (oc_wbuf_init (replicate (Z.to_nat cap) 0) cap) in
  if bool_decide (r = OC_OK) then Some (ztake (w_len w) (w_data w)) else None.

(** A job the reader has not answered. *)
Inductive call_op := OC_CALL_OP_JOIN | OC_CALL_OP_INVITE.
Record call_job := mk_call_job {
  jb_conn : Z;
  jb_user : Z;
  jb_op : call_op;
  jb_channel : Z;
  jb_gen : Z;
  jb_key : list Z;
  jb_codecs : Z;
  jb_uids : list Z }.

Record loop := mk_loop {
  lp_conns : gmap Z conn;
  lp_users : gmap Z (list Z);
  lp_next_conn : Z;
  lp_fan_gen : Z;
  lp_calls : list call_t;
  lp_next_call : Z;
  lp_jobs : list call_job;
  lp_demo : option oc_dl;
  lp_trace : list effect }.
#[export] Instance loop_eta : Eta loop := fun l =>
  mk_loop (lp_conns l) (lp_users l) (lp_next_conn l) (lp_fan_gen l) (lp_calls l) (lp_next_call l) (lp_jobs l)
    (lp_demo l) (lp_trace l).

Record call_cfg := mk_call_cfg {
  cfg_call_max : Z;
  cfg_prefix : list Z;
  cfg_port : Z;
  cfg_relay : bool;
  cfg_grace : Z }.
Record call_env := mk_call_env { e_now : Z; e_io : Z → bool; e_rand : option (list Z) }.

Definition loop_init (demo : bool) : loop :=
  mk_loop ∅ ∅ 1 0 (replicate OC_MAX_CALLS call_zero) 0 [] (if demo then Some oc_dl_new else None) [].

Definition note (x : effect) (l : loop) : loop := l <| lp_trace := lp_trace l ++ [x] |>.
Definition find_by_id (cid : Z) (l : loop) : option conn := lp_conns l !! cid.
Definition put_conn (cid : Z) (c : conn) (l : loop) : loop := l <| lp_conns := <[cid := c]> (lp_conns l) |>.
Definition call_at (i : nat) (l : loop) : call_t := nth i (lp_calls l) call_zero.
Definition put_call (i : nat) (c : call_t) (l : loop) : loop := l <| lp_calls := <[i := c]> (lp_calls l) |>.

(** The ids a user's connections have, newest first. *)
Definition user_conns (uid : Z) (l : loop) : list Z := default [] (lp_users l !! uid).
Definition user_unlink (cid : Z) (l : loop) : loop :=
  match find_by_id cid l with
  | None => l
  | Some c =>
      let rest := filter (fun x => x ≠ cid) (user_conns (cn_user c) l) in
      l <| lp_users := if nonempty rest then <[cn_user c := rest]> (lp_users l) else delete (cn_user c) (lp_users l) |>
  end.
Definition user_link (cid uid : Z) (l : loop) : loop := l <| lp_users := <[uid := cid :: user_conns uid l]> (lp_users l) |>.
Definition index_add (l : loop) : loop :=
  put_conn (lp_next_conn l) conn_zero l <| lp_next_conn := u64 (lp_next_conn l + 1) |>.
Definition index_remove (cid : Z) (l : loop) : loop :=
  let l := user_unlink cid l in l <| lp_conns := delete cid (lp_conns l) |>.
(** The start of [OC_RES_AUTH_OK]. *)
Definition auth_ok (cid uid : Z) (l : loop) : loop :=
  match find_by_id cid l with
  | None => l
  | Some c => user_link cid uid (put_conn cid (c <| cn_authed := true |> <| cn_user := uid |>) (user_unlink cid l))
  end.

(** ** The parts of a call *)

Fixpoint find_index_from {A} (f : A → bool) (i : nat) (xs : list A) : option nat :=
  match xs with
  | [] => None
  | x :: xs => if f x then Some i else find_index_from f (S i) xs
  end.
Definition find_index {A} (f : A → bool) (xs : list A) : option nat := find_index_from f 0 xs.
(** [a[idx] = a[--n]]. *)
Definition swap_remove {A} (idx : nat) (xs : list A) : list A :=
  match list.last xs with
  | None => xs
  | Some z => take (length xs - 1) (<[idx := z]> xs)
  end.

Definition call_find (ch : Z) (l : loop) : option nat :=
  if ch =? 0 then None else find_index (fun c => ct_channel c =? ch) (lp_calls l).
Definition part_of_conn (c : call_t) (cid : Z) : option nat := find_index (fun p => pt_conn p =? cid) (ct_parts c).
Definition call_of_conn (cid : Z) (l : loop) : option (nat * nat) :=
  i ← find_index (fun c => call_live c && bool_decide (is_Some (part_of_conn c cid))) (lp_calls l);
  k ← part_of_conn (call_at i l) cid;
  Some (i, k).
Definition call_part_of_user (c : call_t) (uid : Z) : option nat := find_index (fun p => pt_user p =? uid) (ct_parts c).
Definition call_invited (c : call_t) (uid : Z) : option nat := find_index (fun u => u =? uid) (ct_invited c).

Definition part_zero : call_part := mk_call_part 0 0 0 [] [] 0 0.
Definition part_at (c : call_t) (k : nat) : call_part := nth k (ct_parts c) part_zero.
Definition call_remove_part (c : call_t) (k : nat) : call_t :=
  (if pt_conn (part_at c k) =? ct_sharer c then c <| ct_sharer := 0 |> else c)
    <| ct_parts := swap_remove k (ct_parts c) |>.
Definition call_sharer (c : call_t) : Z :=
  match find_index (fun p => pt_conn p =? ct_sharer c) (ct_parts c) with
  | Some k => pt_user (part_at c k)
  | None => 0
  end.
Definition call_uninvite (c : call_t) (uid : Z) : call_t :=
  match call_invited c uid with
  | Some k => c <| ct_invited := swap_remove k (ct_invited c) |>
  | None => c
  end.
Definition call_free_slot (c : call_t) : Z :=
  match find_index (fun s => negb (existsb (fun p => pt_slot p =? Z.of_nat s) (ct_parts c))) (seq 0 256) with
  | Some s => Z.of_nat s
  | None => 0
  end.
Definition call_take_members (c : call_t) (members : list Z) : call_t := c <| ct_members := members |>.
Definition in_members (uid : Z) (m : list Z) : bool := existsb (fun x => x =? uid) m.
Definition call_audience (c : call_t) (uid : Z) : bool :=
  in_members uid (ct_members c) || bool_decide (is_Some (call_invited c uid)) ||
  bool_decide (is_Some (call_part_of_user c uid)).

Definition call_new (now ch starter : Z) (l : loop) : option (nat * loop) :=
  i ← find_index (fun c => ct_channel c =? 0) (lp_calls l);
  let next := if lp_next_call l =? 0 then now else lp_next_call l in
  Some (i, put_call i (mk_call ch next starter now 0 false false [] [] [] 0) l <| lp_next_call := u64 (next + 1) |>).

(** ** What is sent *)

(** [call_send], which is [presence_send]: an over-full connection misses the frame. *)
Definition call_send (e : call_env) (buf : list Z) (fr : call_frame) (cid : Z) (l : loop) : loop :=
  match find_by_id cid l with
  | None => l
  | Some c => note (if fst (out_append (cn_out c) buf) then Sent cid fr else Missed cid fr)
                (put_conn cid (c <| cn_out := presence_send (e_io e cid) (cn_out c) buf |>) l)
  end.
Definition send_once (e : call_env) (gen : Z) (buf : list Z) (fr : call_frame) (l : loop) (cid : Z) : loop :=
  match find_by_id cid l with
  | None => l
  | Some c => if cn_fan_gen c =? gen then l else call_send e buf fr cid (put_conn cid (c <| cn_fan_gen := gen |>) l)
  end.
Definition call_send_users (e : call_env) (uids : list Z) (gen : Z) (buf : list Z) (fr : call_frame) (l : loop) : loop :=
  foldl (fun l uid => foldl (send_once e gen buf fr) l (user_conns uid l)) l uids.

Definition state_frame (c : call_t) (ended : bool) : call_frame :=
  FState (mk_oc_call_state (ct_channel c) (ct_id c) (ct_starter c) (ct_started c) (if ended then 1 else 0)
    (zlen (ct_parts c)) (map pt_user (ct_parts c)) (zlen (ct_invited c)) (ct_invited c)
    (if ended || (ct_sharer c =? 0) then 0 else call_sharer c)).
Definition call_encode_state (c : call_t) (ended : bool) : option (list Z) := encode_in 1024 (state_frame c ended).
Definition call_send_state (e : call_env) (c : call_t) (ended : bool) (l : loop) : loop :=
  match call_encode_state c ended with
  | None => l
  | Some buf =>
      let l := l <| lp_fan_gen := u64 (lp_fan_gen l + 1) |> in
      let to uids l := call_send_users e uids (lp_fan_gen l) buf (state_frame c ended) l in
      to (map pt_user (ct_parts c)) (to (ct_invited c) (to (ct_members c) l))
  end.

Definition call_fill_parts (c : call_t) : list oc_call_part :=
  map (fun p => mk_oc_call_part (pt_user p) (pt_slot p) (pt_key p) (pt_codecs p)
                  (if pt_detached p =? 0 then 0 else OC_CALL_PART_AWAY)) (ct_parts c).
Definition roster_frame (c : call_t) : call_frame :=
  FRoster (mk_oc_call_roster (ct_channel c) (ct_id c) (ct_epoch c) (zlen (ct_parts c)) (call_fill_parts c)).
Definition call_send_roster (e : call_env) (c : call_t) (except_conn also_conn : Z) (l : loop) : loop :=
  let cids := filter (fun cid => cid ≠ except_conn) (map pt_conn (ct_parts c)) ++
              (if also_conn =? 0 then [] else [also_conn]) in
  match encode_in 2048 (roster_frame c) with
  | None => l
  | Some buf => foldl (fun l cid => call_send e buf (roster_frame c) cid l) l cids
  end.

Definition error_frame (code : Z) (msg : string) : call_frame := FError (mk_oc_error code 0 [] (text_bytes msg)).
Definition send_call_error (e : call_env) (cid : Z) (code : Z) (msg : string) (l : loop) : loop :=
  match encode_in 256 (error_frame code msg) with
  | None => l
  | Some buf => call_send e buf (error_frame code msg) cid l
  end.

Definition demo_ok (now : Z) (k : oc_dl_kind) (user : Z) (l : loop) : bool * loop :=
  match lp_demo l with
  | None => (true, l)
  | Some d => let '(ok, d) := oc_dl_take d k user now in (ok, l <| lp_demo := Some d |>)
  end.
Definition call_push_invites (e : call_env) (c : call_t) (uids : list Z) (inviter : Z) (l : loop) : loop :=
  foldl (fun l uid => let '(ok, l) := demo_ok (e_now e) OC_DL_PUSH 0 l in
                      if ok then note (PushCall (ct_channel c) inviter uid) l else l) l uids.

(** ** Ending, leaving, losing a connection *)

Definition revoke_all (ps : list call_part) (l : loop) : loop := foldl (fun l p => note (Revoke (pt_token p)) l) l ps.
Definition call_finish (e : call_env) (i : nat) (l : loop) : loop :=
  let done := call_at i l in
  let l := put_call i (done <| ct_channel := 0 |> <| ct_members := [] |>) l in
  let l := revoke_all (ct_parts done) l in
  let l := call_send_state e done true l in
  if negb (ct_others_joined done) && ct_invited_any done then note (MissedCall (ct_starter done) (ct_channel done)) l else l.
Definition call_drop_tell (e : call_env) (i k : nat) (tell_conn : Z) (l : loop) : loop :=
  let c := call_at i l in
  let l := note (Revoke (pt_token (part_at c k))) l in
  let c := call_remove_part c k in
  let l := put_call i c l in
  if (length (ct_parts c) =? 0)%nat then call_finish e i l
  else
    let c := c <| ct_epoch := u32 (ct_epoch c + 1) |> in
    let l := call_send_roster e c 0 tell_conn (put_call i c l) in
    match call_find (ct_channel c) l with
    | Some j => call_send_state e (call_at j l) false l
    | None => l
    end.
Definition call_drop (e : call_env) (i k : nat) (l : loop) : loop := call_drop_tell e i k 0 l.
Definition call_conn_closed (e : call_env) (cid : Z) (l : loop) : loop :=
  match call_of_conn cid l with
  | None => l
  | Some (i, k) =>
      let c := call_at i l in
      let p := part_at c k in
      let l := note (Revoke (pt_token p)) l in
      let was_sharer := ct_sharer c =? cid in
      let c := if was_sharer then c <| ct_sharer := 0 |> else c in
      let p := p <| pt_conn := 0 |> <| pt_detached := if e_now e =? 0 then 1 else e_now e |> in
      let c := c <| ct_parts := <[k := p]> (ct_parts c) |> <| ct_epoch := u32 (ct_epoch c + 1) |> in
      let l := call_send_roster e c 0 0 (put_call i c l) in
      if was_sharer then call_send_state e c false l else l
  end.
(** The calls' part of [conn_close]. *)
Definition conn_close (e : call_env) (cid : Z) (l : loop) : loop :=
  match find_by_id cid l with
  | None => l
  | Some _ => call_conn_closed e cid (index_remove cid l)
  end.

(** Seats [k - 1] down to 0 of row [i]. *)
Fixpoint expire_seats (e : call_env) (cfg : call_cfg) (i k : nat) (l : loop) : loop :=
  match k with
  | O => l
  | S k =>
      let c := call_at i l in
      if call_live c then
        let p := part_at c k in
        expire_seats e cfg i k
          (if negb (pt_detached p =? 0) && (cfg_grace cfg <=? u64 (e_now e - pt_detached p)) then call_drop e i k l else l)
      else l
  end.
Definition expire_call (e : call_env) (cfg : call_cfg) (l : loop) (i : nat) : loop :=
  let c := call_at i l in
  if bool_decide (is_Some (lp_demo l)) && call_live c && negb (ct_started c =? 0) &&
     (OC_DEMO_CALL_MAX_MS <=? u64 (e_now e - ct_started c))
  then call_finish e i l
  else expire_seats e cfg i (if call_live c then length (ct_parts c) else O) l.
Definition call_expire_detached (e : call_env) (cfg : call_cfg) (l : loop) : loop :=
  foldl (expire_call e cfg) l (seq 0 OC_MAX_CALLS).

(** The relay swept [token]; it is no longer authorized there. *)
Definition call_drop_token (e : call_env) (token : list Z) (l : loop) : loop :=
  let has (c : call_t) := find_index (fun p => bool_decide (pt_token p = token)) (ct_parts c) in
  match find_index (fun c => call_live c && bool_decide (is_Some (has c))) (lp_calls l) with
  | None => l
  | Some i =>
      match has (call_at i l) with
      | None => l
      | Some k => call_drop_tell e i k (pt_conn (part_at (call_at i l) k)) l
      end
  end.

(** ** Invitations *)

Fixpoint pick_invites (c : call_t) (uids added : list Z) : list Z :=
  match uids with
  | [] => added
  | u :: uids =>
      if OC_MAX_CALL_INVITES <=? zlen added then added
      else if bool_decide (is_Some (call_part_of_user c u)) || bool_decide (is_Some (call_invited c u)) then pick_invites c uids added
      else pick_invites c uids (if existsb (fun x => x =? u) added then added else added ++ [u])
  end.
(** [None] when they do not fit. *)
Definition call_add_invites (cfg : call_cfg) (c : call_t) (uids : list Z) : option (list Z * call_t) :=
  let added := pick_invites c uids [] in
  if cfg_call_max cfg <? zlen (ct_parts c) + zlen (ct_invited c) + zlen added then None
  else Some (added, c <| ct_invited := ct_invited c ++ added |> <| ct_invited_any := ct_invited_any c || nonempty added |>).
(** The invitations of a start: those that fit when all do not. *)
Definition start_invites (cfg : call_cfg) (c : call_t) (uids : list Z) : list Z * call_t :=
  if nonempty uids then
    match call_add_invites cfg c uids with
    | Some r => r
    | None =>
        let fit := u64 (cfg_call_max cfg - zlen (ct_parts c)) in
        default ([], c) (call_add_invites cfg c (if fit <? zlen uids then ztake fit uids else uids))
    end
  else ([], c).

(** ** The reader's answers *)

(** What the reader finds in the database when it answers. *)
Record call_db := mk_call_db {
  channel_read_access : Z → Z → bool;
  load_members : Z → list Z;
  user_is_active : Z → bool }.
Inductive call_res :=
  | CALL_ERR (cid code : Z)
  | CALL_AUTH (j : call_job) (members uids : list Z).
Definition process_call_auth (db : call_db) (j : call_job) : call_res :=
  if negb (channel_read_access db (jb_channel j) (jb_user j)) then CALL_ERR (jb_conn j) (reason_code OC_ERR_NOT_A_MEMBER)
  else CALL_AUTH j (load_members db (jb_channel j))
    (filter (fun u => Is_true (negb (u =? 0) && negb (u =? jb_user j) && user_is_active db u &&
                               channel_read_access db (jb_channel j) u)) (jb_uids j)).

Definition answer_invite (e : call_env) (cfg : call_cfg) (jc : conn) (j : call_job) (members uids : list Z) (l : loop) : loop :=
  match call_of_conn (jb_conn j) l with
  | Some (i, _) =>
      if ct_channel (call_at i l) =? jb_channel j then
        let c := call_take_members (call_at i l) members in
        match call_add_invites cfg c uids with
        | None => send_call_error e (jb_conn j) (reason_code OC_ERR_CALL_FULL) "the call is full" (put_call i c l)
        | Some (added, c) =>
            let l := put_call i c l in
            if nonempty added then call_push_invites e c added (cn_user jc) (call_send_state e c false l) else l
        end
      else send_call_error e (jb_conn j) (reason_code OC_ERR_NOT_IN_CALL) "not in this call" l
  | None => send_call_error e (jb_conn j) (reason_code OC_ERR_NOT_IN_CALL) "not in this call" l
  end.

(** The participant is put in row [i], and everyone is told. *)
Definition joined_frame (cfg : call_cfg) (c : call_t) (p : call_part) : call_frame :=
  FJoined (mk_oc_call_joined (ct_channel c) (ct_id c) (cfg_port cfg) (pt_token p) (pt_slot p) (ct_epoch c)
    (ct_starter c) (ct_started c) (zlen (ct_parts c)) (call_fill_parts c)).
Definition join_enter (e : call_env) (cfg : call_cfg) (jc : conn) (j : call_job) (members uids : list Z)
    (i : nat) (starting : bool) (moved_from : Z) (l : loop) : loop :=
  let c := call_take_members (call_at i l) members in
  let l := put_call i c l in
  match e_rand e with
  | None =>
      let l := if starting then put_call i (c <| ct_channel := 0 |> <| ct_members := [] |>) l
               else if (length (ct_parts c) =? 0)%nat then call_finish e i l else l in
      send_call_error e (jb_conn j) (reason_code OC_ERR_INTERNAL) "no randomness" l
  | Some rnd =>
      let p := mk_call_part (cn_user jc) (jb_conn j) (call_free_slot c) (cfg_prefix cfg ++ rnd) (jb_key j) (jb_codecs j) 0 in
      let c := c <| ct_parts := ct_parts c ++ [p] |> <| ct_epoch := u32 (ct_epoch c + 1) |> in
      let c := call_uninvite c (cn_user jc) in
      let c := if cn_user jc =? ct_starter c then c else c <| ct_others_joined := true |> in
      let '(added, c) := if starting then start_invites cfg c uids else ([], c) in
      let l := note (Authorize (ct_id c) (pt_user p) (pt_conn p) (pt_token p)) (put_call i c l) in
      let l := match encode_in 2048 (joined_frame cfg c p) with
               | Some buf => call_send e buf (joined_frame cfg c p) (jb_conn j) l
               | None => l
               end in
      let l := call_send_roster e c (jb_conn j) moved_from l in
      let l := call_send_state e c false l in
      call_push_invites e c added (ct_starter c) l
  end.
(** The seat the user holds on another device is given up. *)
Definition join_seat (e : call_env) (cfg : call_cfg) (jc : conn) (j : call_job) (members uids : list Z) (l : loop) : loop :=
  match call_find (jb_channel j) l with
  | Some i =>
      let c := call_at i l in
      let '(moved_from, l) := match call_part_of_user c (cn_user jc) with
                              | Some k => (pt_conn (part_at c k), put_call i (call_remove_part c k) (note (Revoke (pt_token (part_at c k))) l))
                              | None => (0, l)
                              end in
      let c := call_at i l in
      if cfg_call_max cfg <=? zlen (ct_parts c) then
        let l := send_call_error e (jb_conn j) (reason_code OC_ERR_CALL_FULL) "the call is full" l in
        if moved_from =? 0 then l
        else
          let c := c <| ct_epoch := u32 (ct_epoch c + 1) |> in
          call_send_state e c false (call_send_roster e c 0 moved_from (put_call i c l))
      else join_enter e cfg jc j members uids i false moved_from l
  | None =>
      match call_new (e_now e) (jb_channel j) (cn_user jc) l with
      | None => send_call_error e (jb_conn j) (reason_code OC_ERR_CALL_UNAVAILABLE) "too many calls" l
      | Some (i, l) => join_enter e cfg jc j members uids i true 0 l
      end
  end.
(** The call the connection was in is left. *)
Definition join_leave (e : call_env) (j : call_job) (l : loop) : loop :=
  match call_of_conn (jb_conn j) l with
  | Some (i, k) =>
      let c := call_at i l in
      if ct_channel c =? jb_channel j then put_call i (call_remove_part c k) (note (Revoke (pt_token (part_at c k))) l)
      else call_drop e i k l
  | None => l
  end.
Definition answer_join (e : call_env) (cfg : call_cfg) (jc : conn) (j : call_job) (members uids : list Z) (l : loop) : loop :=
  if negb (jb_gen j =? cn_call_gen jc) then l
  else if negb (cfg_relay cfg) then
    send_call_error e (jb_conn j) (reason_code OC_ERR_CALL_UNAVAILABLE) "calls are unavailable" l
  else
    let l := join_leave e j l in
    match find_by_id (jb_conn j) l with
    | Some jc => join_seat e cfg jc j members uids l
    | None =>
        match call_find (jb_channel j) l with
        | Some i => if (length (ct_parts (call_at i l)) =? 0)%nat then call_finish e i l else l
        | None => l
        end
    end.
Definition deliver_call (e : call_env) (cfg : call_cfg) (r : call_res) (l : loop) : loop :=
  match r with
  | CALL_ERR cid code => send_call_error e cid code "call join denied" l
  | CALL_AUTH j members uids =>
      match find_by_id (jb_conn j) l with
      | None => l
      | Some jc =>
          if negb (cn_authed jc) then l
          else match jb_op j with
               | OC_CALL_OP_INVITE => answer_invite e cfg jc j members uids l
               | OC_CALL_OP_JOIN => answer_join e cfg jc j members uids l
               end
      end
  end.

(** ** The frames of a client *)

Definition submit (j : call_job) (l : loop) : loop := l <| lp_jobs := lp_jobs l ++ [j] |>.
(** A handler gives [false] when the connection is to be closed ([return -1]). *)
Definition handled : Type := bool * loop.
Definition with_conn (cid : Z) (l : loop) (k : conn → handled) : handled :=
  match find_by_id cid l with Some c => k c | None => (true, l) end.
(** An error appended without a flush. *)
Definition append_error (cap cid : Z) (m : oc_error) (l : loop) : handled :=
  with_conn cid l (fun c =>
  match encode_in cap (FError m) with
  | Some buf =>
      let '(ok, q) := out_append (cn_out c) buf in
      let l := put_conn cid (c <| cn_out := q |>) l in
      (ok, if ok then note (Sent cid (FError m)) l else l)
  | None => (false, l)
  end).
Definition call_rate_refuse (cid : Z) (l : loop) : handled :=
  append_error 96 cid (mk_oc_error (reason_code OC_ERR_SEND_RATE_LIMITED) 0 [] (text_bytes "call signalling rate exceeded")) l.
Definition demo_call_why : string := "This is a public demo: each person may join 30 calls a day, of up to 20 minutes each.".
Definition demo_refuse_call (cid : Z) (l : loop) : handled :=
  append_error 320 cid (mk_oc_error (reason_code OC_ERR_DEMO_LIMIT) 0 [] (text_bytes demo_call_why)) l.

Definition on_join (e : call_env) (cid : Z) (m : oc_call_join) (l : loop) : handled :=
  with_conn cid l (fun c =>
  let '(ok, l) := demo_ok (e_now e) OC_DL_CALL (cn_user c) l in
  if negb ok then demo_refuse_call cid l
  else
    let gen := u32 (cn_call_gen c + 1) in
    let l := put_conn cid (c <| cn_call_gen := gen |> <| cn_call_join_ch := call_join_channel_id m |>) l in
    (true, submit (mk_call_job cid (cn_user c) OC_CALL_OP_JOIN (call_join_channel_id m) gen (call_join_device_key m)
                    (call_join_codecs m) (call_join_invite m)) l)).
Definition on_invite (cid : Z) (m : oc_call_invite) (l : loop) : handled :=
  with_conn cid l (fun c =>
  (true, submit (mk_call_job cid (cn_user c) OC_CALL_OP_INVITE (call_invite_channel_id m) 0 [] 0 (call_invite_users m)) l)).
Definition on_leave (e : call_env) (cid : Z) (m : oc_call_leave) (l : loop) : handled :=
  with_conn cid l (fun c =>
  let ch := call_leave_channel_id m in
  let l := if cn_call_join_ch c =? ch
           then put_conn cid (c <| cn_call_gen := u32 (cn_call_gen c + 1) |> <| cn_call_join_ch := 0 |>) l else l in
  (true, match call_of_conn cid l with
       | Some (i, k) => if ct_channel (call_at i l) =? ch then call_drop e i k l else l
       | None => l
       end)).
Definition on_decline (e : call_env) (cid : Z) (m : oc_call_decline) (l : loop) : handled :=
  with_conn cid l (fun c =>
  (true, match call_find (call_decline_channel_id m) l with
       | Some i =>
           match call_invited (call_at i l) (cn_user c) with
           | Some _ => let cc := call_uninvite (call_at i l) (cn_user c) in call_send_state e cc false (put_call i cc l)
           | None => l
           end
       | None => l
       end)).
Definition on_end (e : call_env) (cid : Z) (m : oc_call_end) (l : loop) : handled :=
  with_conn cid l (fun c =>
  (true, match call_find (call_end_channel_id m) l with
       | None => send_call_error e cid (reason_code OC_ERR_NOT_IN_CALL) "no call here" l
       | Some i => if negb (ct_starter (call_at i l) =? cn_user c)
                   then send_call_error e cid (reason_code OC_ERR_NOT_CALL_STARTER) "only the starter can end the call" l
                   else call_finish e i l
       end)).
(** The call the connection is in, when it is the conversation's. *)
Definition own_call (cid ch : Z) (l : loop) : option nat :=
  '(i, _) ← call_of_conn cid l;
  if ct_channel (call_at i l) =? ch then Some i else None.
Definition on_share (e : call_env) (cid : Z) (m : oc_call_share) (l : loop) : handled :=
  (true, match own_call cid (call_share_channel_id m) l with
       | None => send_call_error e cid (reason_code OC_ERR_NOT_IN_CALL) "not in this call" l
       | Some i =>
           let c := call_at i l in
           let sharer := if negb (call_share_on m =? 0) then cid else if ct_sharer c =? cid then 0 else ct_sharer c in
           let c' := c <| ct_sharer := sharer |> in
           let l := put_call i c' l in
           if sharer =? ct_sharer c then l else call_send_state e c' false l
       end).
(** The copies of a CALL_KEY that are forwarded, with the connection of each. *)
Definition keys_for (c : call_t) (sender : Z) (ents : list oc_call_key_entry) : list (Z * call_frame) :=
  omap (fun en =>
    k ← call_part_of_user c (call_key_entry_recipient en);
    if (call_key_entry_recipient en =? sender) || negb (zlen (call_key_entry_sealed en) =? OC_CALL_SEALED_LEN) then None
    else Some (pt_conn (part_at c k),
               FKeyFor (mk_oc_call_key_for (ct_channel c) (ct_id c) (ct_epoch c) sender (call_key_entry_sealed en)))) ents.
Definition on_key (e : call_env) (cid : Z) (m : oc_call_key) (l : loop) : handled :=
  with_conn cid l (fun c =>
  (true, match own_call cid (call_key_channel_id m) l with
       | None => send_call_error e cid (reason_code OC_ERR_NOT_IN_CALL) "not in this call" l
       | Some i =>
           let cc := call_at i l in
           if negb (call_key_call_id m =? ct_id cc) || negb (call_key_epoch m =? ct_epoch cc) then l
           else foldl (fun l x => match encode_in 256 (snd x) with
                                  | Some buf => call_send e buf (snd x) (fst x) l
                                  | None => l
                                  end) l (keys_for cc (cn_user c) (call_key_entries m))
       end)).

(** A frame's payload, decoded and handled; [false] closes the connection. *)
Definition decoded {A} (d : rd A) (payload : list Z) (l : loop) (k : A → handled) : handled :=
  match run_decode d payload with
  | inl _ => (false, l)
  | inr m => k m
  end.
Inductive call_msg := M_JOIN | M_INVITE | M_LEAVE | M_DECLINE | M_END | M_SHARE | M_KEY.
Definition rate_limited (t : call_msg) : bool :=
  match t with M_JOIN | M_INVITE | M_SHARE | M_KEY => true | _ => false end.
Definition handle_call (e : call_env) (cid : Z) (t : call_msg) (payload : list Z) (l : loop) : handled :=
  match t with
  | M_JOIN => decoded (oc_decode_call_join OC_MAX_CALL_INVITES) payload l (fun m => on_join e cid m l)
  | M_INVITE => decoded (oc_decode_call_invite OC_MAX_CALL_INVITES) payload l (fun m => on_invite cid m l)
  | M_LEAVE => decoded oc_decode_call_leave payload l (fun m => on_leave e cid m l)
  | M_DECLINE => decoded oc_decode_call_decline payload l (fun m => on_decline e cid m l)
  | M_END => decoded oc_decode_call_end payload l (fun m => on_end e cid m l)
  | M_SHARE => decoded oc_decode_call_share payload l (fun m => on_share e cid m l)
  | M_KEY => decoded (oc_decode_call_key OC_MAX_CALL_PARTICIPANTS) payload l (fun m => on_key e cid m l)
  end.
Definition on_call_frame (e : call_env) (cid : Z) (t : call_msg) (payload : list Z) (l : loop) : handled :=
  with_conn cid l (fun c =>
  if rate_limited t then
    let '(ok, w) := win_ok (e_now e) (cn_call_rl c) OC_CALL_RATE_MAX OC_CALL_RATE_MS in
    let l := put_conn cid (c <| cn_call_rl := w |>) l in
    if ok then handle_call e cid t payload l else call_rate_refuse cid l
  else handle_call e cid t payload l).

(** ** The loop *)

Inductive call_event :=
  | EvOpen
  | EvAuthOk (cid uid : Z)
  | EvClose (cid : Z)
  | EvFrame (cid : Z) (t : call_msg) (payload : list Z)
  | EvAnswer (k : nat) (db : call_db)
  | EvSwept (token : list Z)
  | EvTick.
Definition call_step (cfg : call_cfg) (e : call_env) (ev : call_event) (l : loop) : loop :=
  match ev with
  | EvOpen => index_add l
  | EvAuthOk cid uid => auth_ok cid uid l
  | EvClose cid => conn_close e cid l
  | EvFrame cid t payload =>
      match find_by_id cid l with
      | Some c => if cn_authed c
                  then let '(ok, l) := on_call_frame e cid t payload l in if ok then l else conn_close e cid l
                  else l
      | None => l
      end
  | EvAnswer k db =>
      match lp_jobs l !! k with
      | None => l
      | Some j => deliver_call e cfg (process_call_auth db j) (l <| lp_jobs := delete k (lp_jobs l) |>)
      end
  | EvSwept token => call_drop_token e token (note (Swept token) l)
  | EvTick => call_expire_detached e cfg l
  end.
Definition call_run (cfg : call_cfg) (l : loop) (evs : list (call_env * call_event)) : loop :=
  foldl (fun l x => call_step cfg (fst x) (snd x) l) l evs.
