(* ===== verification/CallsInv.v ===== *)
(** * The invariant of the calls

    Every call the loop keeps is well formed, calls do not share conversations,
    connections or tokens, and what was sent and told to the relay agrees with
    them.  A row under change is taken out of the invariant ([hole]) and put
    back, with the frames that tell everyone ([hole_told]), silently
    ([hole_silent]), or as a free row ([hole_freed]). *)
From stdpp Require Import base tactics list numbers gmap strings.
From S2P Require Import Prelude.
From S2P Require Import Wire.
From S2P Require Import WireLogic.
From S2P Require Import WireFrame.
From S2P Require Import ProtoTypes.
From S2P Require Import ProtoCall.
From S2P Require Import ProtoUsers.
From S2P Require Import Demolimits.
From S2P Require Import Outq.
From S2P Require Import Calls.
Local Open Scope Z_scope.
Local Open Scope oc_scope.

(** ** Rows of the table *)

Lemma nodup_sub {A} (k l : list A) : k ⊆+ l → NoDup l → NoDup k.
Proof. intros H. apply submseteq_Permutation in H as [r ->]. by intros [? _]%NoDup_app. Qed.

Section Gather.
Context {A : Type} (f : call_t → list A).

Definition gather (calls : list call_t) : list A := concat (f <$> calls).

Lemma gather_split calls i c : calls !! i = Some c → gather calls ≡ₚ f c ++ gather (delete i calls).
Proof.
  intros E. unfold gather. rewrite <- (take_drop_middle calls i c E) at 1. rewrite delete_take_drop.
  rewrite !fmap_app, !concat_app. cbn [fmap list_fmap concat]. apply Permutation_app_swap_app.
Qed.
Lemma delete_set (calls : list call_t) i (c : call_t) : delete i (<[i := c]> calls) = delete i calls.
Proof.
  destruct (decide (i < length calls)%nat) as [H|H]; [|by rewrite list_insert_ge by lia].
  rewrite !delete_take_drop, take_insert_ge, drop_insert_lt by lia. done.
Qed.
Lemma gather_set calls i c c' : calls !! i = Some c → gather (<[i := c']> calls) ≡ₚ f c' ++ gather (delete i calls).
Proof.
  intros E. rewrite (gather_split _ i c') by (apply list_lookup_insert_eq, (lookup_lt_Some _ _ _ E)). by rewrite delete_set.
Qed.
Lemma elem_of_gather x calls : x ∈ gather calls ↔ ∃ c, c ∈ calls ∧ x ∈ f c.
Proof.
  unfold gather. rewrite list_elem_of_In, in_concat. split.
  - intros (ys & H1 & H2). apply list_elem_of_In, list_elem_of_fmap in H1 as (c & -> & H). exists c. split; [done|by apply list_elem_of_In].
  - intros (c & H1 & H2). exists (f c). rewrite <- !list_elem_of_In. split; [by apply list_elem_of_fmap_2|done].
Qed.
Lemma gather_nodup_set calls i c c' : calls !! i = Some c → f c' ⊆+ f c → NoDup (gather calls) → NoDup (gather (<[i := c']> calls)).
Proof.
  intros E Hs. rewrite (gather_split _ _ _ E), (gather_set _ _ _ c' E). apply nodup_sub. by apply submseteq_app.
Qed.
End Gather.

Lemma forall_row (P : call_t → Prop) calls i c : calls !! i = Some c → Forall P calls ↔ P c ∧ Forall P (delete i calls).
Proof.
  intros E. rewrite <- (take_drop_middle calls i c E) at 1. rewrite delete_take_drop, !Forall_app, list.Forall_cons. tauto.
Qed.
Lemma forall_set (P : call_t → Prop) calls i c c' : calls !! i = Some c → Forall P (<[i := c']> calls) ↔ P c' ∧ Forall P (delete i calls).
Proof. intros E. rewrite (forall_row P _ i c'), delete_set; [done|]. apply list_lookup_insert_eq, (lookup_lt_Some _ _ _ E). Qed.

Definition if_live {A} (c : call_t) (x : list A) : list A := if call_live c then x else [].
Definition attached (c : call_t) : list Z := filter (fun cid => cid ≠ 0) (pt_conn <$> ct_parts c).
Definition chan_of (c : call_t) : list Z := if_live c [ct_channel c].
Definition id_of (c : call_t) : list Z := if_live c [ct_id c].
Definition att_of (c : call_t) : list Z := if_live c (attached c).
Definition toks_of (c : call_t) : list (list Z) := if_live c (pt_token <$> ct_parts c).
Definition relay_entry (c : call_t) (p : call_part) : list Z * (Z * Z * Z) := (pt_token p, (ct_id c, pt_user p, pt_conn p)).
Definition ents_of (c : call_t) : list (list Z * (Z * Z * Z)) :=
  if_live c (relay_entry c <$> filter (fun p => pt_conn p ≠ 0) (ct_parts c)).

(** ** What was sent *)

(** The call, epoch and participants a frame announces. *)
Definition announced (fr : call_frame) : option (Z * Z * list oc_call_part) :=
  match fr with
  | FJoined m => Some (call_joined_call_id m, call_joined_epoch m, call_joined_parts m)
  | FRoster m => Some (call_roster_call_id m, call_roster_epoch m, call_roster_parts m)
  | _ => None
  end.
Definition announcement (x : effect) : option (Z * (Z * Z * list oc_call_part)) :=
  match x with
  | Sent cid fr | Missed cid fr => a ← announced fr; Some (cid, a)
  | _ => None
  end.
(** The rosters made for connections, those missed among them. *)
Definition rosters (tr : list effect) : list (Z * Z * list oc_call_part) := snd <$> omap announcement tr.
(** The last roster made for a connection, and the last it was sent. *)
Definition view (tr : list effect) (cid : Z) : option (Z * Z * list oc_call_part) :=
  snd <$> list.last (filter (fun a => fst a = cid) (omap announcement tr)).
Definition receipt (x : effect) : option (Z * (Z * Z * list oc_call_part)) :=
  match x with Sent cid fr => a ← announced fr; Some (cid, a) | _ => None end.
Definition got (tr : list effect) (cid : Z) : option (Z * Z * list oc_call_part) :=
  snd <$> list.last (filter (fun a => fst a = cid) (omap receipt tr)).
(** Whom the relay forwards for: the calls to [authorize] and [revoke], and its own sweep. *)
Definition relay_apply (m : gmap (list Z) (Z * Z * Z)) (x : effect) : gmap (list Z) (Z * Z * Z) :=
  match x with
  | Authorize id user cid token => <[token := (id, user, cid)]> m
  | Revoke token | Swept token => delete token m
  | _ => m
  end.
Definition relay_view (tr : list effect) : gmap (list Z) (Z * Z * Z) := foldl relay_apply ∅ tr.
Definition plain (x : effect) : Prop :=
  match x with
  | Sent _ fr | Missed _ fr => announced fr = None
  | MissedCall _ _ | PushCall _ _ _ => True
  | _ => False
  end.

Lemma rosters_app t1 t2 : rosters (t1 ++ t2) = rosters t1 ++ rosters t2.
Proof. unfold rosters. by rewrite omap_app, fmap_app. Qed.
Lemma relay_view_app t1 t2 : relay_view (t1 ++ t2) = foldl relay_apply (relay_view t1) t2.
Proof. apply foldl_app. Qed.
Lemma plain_announces s : Forall plain s → omap announcement s = [].
Proof. induction 1 as [|x s Hx _ IH]; [done|]. destruct x; cbn; try done; cbn in Hx; by rewrite Hx. Qed.
Lemma plain_relay s m : Forall plain s → foldl relay_apply m s = m.
Proof. intros H. revert m. induction H as [|x s Hx _ IH]; intros m; [done|]. destruct x; cbn; try done; apply IH. Qed.
Lemma view_app t1 t2 cid : view (t1 ++ t2) cid =
  match list.last (filter (fun a => fst a = cid) (omap announcement t2)) with Some a => Some (snd a) | None => view t1 cid end.
Proof. unfold view. rewrite omap_app, filter_app, last_app. by destruct (list.last _). Qed.
Lemma got_app t1 t2 cid : got (t1 ++ t2) cid =
  match list.last (filter (fun a => fst a = cid) (omap receipt t2)) with Some a => Some (snd a) | None => got t1 cid end.
Proof. unfold got. rewrite omap_app, filter_app, last_app. by destruct (list.last _). Qed.
(** The last roster made for a connection was sent to it, or missed. *)
Lemma view_got tr cid a : view tr cid = Some a → got tr cid = Some a ∨ ∃ fr, Missed cid fr ∈ tr ∧ announced fr = Some a.
Proof.
  induction tr as [|x tr IH] using rev_ind; [done|]. rewrite view_app, got_app. intros H.
  assert (Hold : view tr cid = Some a → match list.last (filter (fun a => fst a = cid) (omap receipt [x])) with Some a => Some (snd a) | None => got tr cid end = got tr cid →
    got tr cid = Some a ∨ ∃ fr, Missed cid fr ∈ tr ++ [x] ∧ announced fr = Some a).
  { intros Hv _. destruct (IH Hv) as [?|(fr & Hin & Hfr)]; [by left|]. right. exists fr. split; [apply elem_of_app; by left|done]. }
  destruct x as [d fr|d fr|id u d tok|tok|tok|st ch|ch inv u]; cbn in *; try (by apply Hold); destruct (announced fr) as [b|] eqn:Hb; cbn in *; try (by apply Hold).
  - destruct (decide (d = cid)) as [->|Hne]; cbn in *; [by left|by apply Hold].
  - destruct (decide (d = cid)) as [->|Hne]; cbn in *; [|by apply Hold]. injection H as ->. right. exists fr. split; [apply elem_of_app; right; by left|done].
Qed.
Lemma view_silent t1 t2 cid : (∀ a, a ∈ omap announcement t2 → fst a ≠ cid) → view (t1 ++ t2) cid = view t1 cid.
Proof.
  intros H. rewrite view_app. destruct (list.last _) as [a|] eqn:E; [|done].
  apply last_Some_elem_of, list_elem_of_filter in E as [E1 E2]. by apply H in E2.
Qed.
Lemma view_told t1 t2 cid x : (∀ a, a ∈ omap announcement t2 → snd a = x) → (∃ a, a ∈ omap announcement t2 ∧ fst a = cid) →
  view (t1 ++ t2) cid = Some x.
Proof.
  intros H (a & Ha & E). rewrite view_app. destruct (list.last _) as [b|] eqn:El.
  - apply last_Some_elem_of, list_elem_of_filter in El as [_ El]. by rewrite (H b El).
  - apply last_None in El. assert (a ∈ filter (fun a => fst a = cid) (omap announcement t2)) as Hf by (by apply list_elem_of_filter).
    rewrite El in Hf. by apply not_elem_of_nil in Hf.
Qed.

(** ** Searches and removals in a row *)

Lemma find_index_from_spec {A} (f : A → bool) xs : ∀ n,
  match find_index_from f n xs with
  | Some i => ∃ x, (n <= i)%nat ∧ xs !! (i - n)%nat = Some x ∧ f x = true ∧ ∀ j y, (j < i - n)%nat → xs !! j = Some y → f y = false
  | None => Forall (fun x => f x = false) xs
  end.
Proof.
  induction xs as [|x xs IH]; intros n; cbn [find_index_from]; [done|]. destruct (f x) eqn:E.
  - exists x. rewrite Nat.sub_diag. split_and!; [lia|done|done|lia].
  - specialize (IH (S n)). destruct (find_index_from f (S n) xs) as [i|]; [|by constructor].
    destruct IH as (y & Hi & Hy & Hf & Hall). exists y. replace (i - n)%nat with (S (i - S n)) by lia.
    split_and!; [lia|done|done|]. intros [|j] z Hj Hz; cbn in Hz; [congruence|]. apply (Hall j); [lia|done].
Qed.
Lemma find_index_Some {A} (f : A → bool) xs i : find_index f xs = Some i → ∃ x, xs !! i = Some x ∧ f x = true.
Proof.
  intros E. pose proof (find_index_from_spec f xs 0) as H. unfold find_index in E. rewrite E in H.
  destruct H as (x & _ & Hx & Hf & _). rewrite Nat.sub_0_r in Hx. eauto.
Qed.
Lemma find_index_None {A} (f : A → bool) xs x : find_index f xs = None → x ∈ xs → f x = false.
Proof.
  intros E. pose proof (find_index_from_spec f xs 0) as H. unfold find_index in E. rewrite E in H.
  rewrite Forall_forall in H. apply H.
Qed.
Lemma find_index_is_Some {A} (f : A → bool) xs x : x ∈ xs → f x = true → is_Some (find_index f xs).
Proof. intros Hx Hf. destruct (find_index f xs) eqn:E; [eauto|]. pose proof (find_index_None _ _ _ E Hx). congruence. Qed.

Lemma swap_out_perm {A} (xs : list A) k x : xs !! k = Some x → swap_remove k xs ≡ₚ delete k xs.
Proof.
  intros E. unfold swap_remove. pose proof (lookup_lt_Some _ _ _ E) as Hk.
  destruct (list.last xs) as [z|] eqn:L; [|apply last_None in L; by subst].
  apply last_Some in L as [ys ->]. rewrite length_app in *. cbn [length] in *.
  replace (length ys + 1 - 1)%nat with (length ys) by lia.
  destruct (decide (k = length ys)) as [->|Hne].
  - rewrite take_insert_ge by lia. rewrite take_app_length. rewrite delete_take_drop, take_app_length.
    rewrite drop_ge by (rewrite length_app; simpl; lia). by rewrite app_nil_r.
  - rewrite insert_app_l by lia. rewrite <- (length_insert ys k z) at 1. rewrite take_app_length.
    assert (Hk' : (k < length ys)%nat) by lia. rewrite insert_take_drop by done.
    rewrite delete_take_drop, take_app_le, drop_app_le by lia.
    rewrite (Permutation_app_comm (drop (S k) ys)). cbn [app]. done.
Qed.
Lemma swap_out_split {A} (xs : list A) k x : xs !! k = Some x → xs ≡ₚ x :: swap_remove k xs.
Proof. intros E. rewrite (swap_out_perm _ _ _ E). by apply delete_Permutation. Qed.

Lemma part_at_lookup c k p : ct_parts c !! k = Some p → part_at c k = p.
Proof. intros E. unfold part_at. by rewrite nth_lookup, E. Qed.
Lemma call_at_lookup i l c : lp_calls l !! i = Some c → call_at i l = c.
Proof. intros E. unfold call_at. by rewrite nth_lookup, E. Qed.
Lemma call_find_spec ch l i : call_find ch l = Some i → ∃ c, lp_calls l !! i = Some c ∧ ct_channel c = ch ∧ call_live c = true.
Proof.
  unfold call_find. destruct (Z.eqb_spec ch 0) as [|Hc]; [done|]. intros (c & E & H)%find_index_Some. apply Z.eqb_eq in H.
  exists c. split_and!; [done|done|]. unfold call_live. by rewrite H, (proj2 (Z.eqb_neq _ _) Hc).
Qed.
Lemma call_of_conn_spec cid l i k : call_of_conn cid l = Some (i, k) →
  ∃ c p, lp_calls l !! i = Some c ∧ call_live c = true ∧ ct_parts c !! k = Some p ∧ pt_conn p = cid.
Proof.
  unfold call_of_conn. destruct (find_index _ (lp_calls l)) as [i'|] eqn:E; [|done]. cbn.
  destruct (part_of_conn (call_at i' l) cid) as [k'|] eqn:Ek; [|done]. cbn. intros [= <- <-].
  apply find_index_Some in E as (c & E & H). apply andb_true_iff in H as [Hl _]. rewrite (call_at_lookup _ _ _ E) in Ek.
  apply find_index_Some in Ek as (p & Ep & Hp). apply Z.eqb_eq in Hp. eauto 8.
Qed.
Lemma call_of_conn_None cid l c : call_of_conn cid l = None → c ∈ lp_calls l → call_live c = true → cid ∉ pt_conn <$> ct_parts c.
Proof.
  unfold call_of_conn. destruct (find_index _ (lp_calls l)) as [i|] eqn:E.
  - cbn. pose proof E as E0. apply find_index_Some in E as (d & E & H). rewrite (call_at_lookup _ _ _ E).
    apply andb_true_iff in H as [_ H]. apply bool_decide_eq_true in H as [k ->]. done.
  - intros _ Hc Hl Hin. apply list_elem_of_fmap in Hin as (p & Hp & Hin).
    pose proof (find_index_None _ _ _ E Hc) as H. cbn in H. rewrite Hl in H. cbn [andb] in H.
    apply bool_decide_eq_false in H. apply H. unfold part_of_conn. apply (find_index_is_Some _ _ p Hin). subst. apply Z.eqb_refl.
Qed.

(** The lowest slot nobody holds: there is one among the first [n + 1]. *)
Lemma call_free_slot_spec c : zlen (ct_parts c) < 256 →
  0 <= call_free_slot c <= zlen (ct_parts c) ∧ call_free_slot c ∉ pt_slot <$> ct_parts c.
Proof.
  intros Hn. set (n := length (ct_parts c)). assert (Hz : zlen (ct_parts c) = Z.of_nat n) by done. unfold call_free_slot.
  set (f := fun s => negb (existsb (fun p => pt_slot p =? Z.of_nat s) (ct_parts c))).
  assert (Hf : ∀ s, f s = true ↔ Z.of_nat s ∉ pt_slot <$> ct_parts c).
  { intros s. unfold f. rewrite negb_true_iff, <- not_true_iff_false, existsb_exists. split; intros H Hin; apply H.
    - apply list_elem_of_fmap in Hin as (p & Hp & Hin). exists p. apply list_elem_of_In in Hin. split; [done|]. by apply Z.eqb_eq.
    - destruct Hin as (p & Hin & Hp). apply Z.eqb_eq in Hp. rewrite <- Hp. by apply list_elem_of_fmap_2, list_elem_of_In. }
  assert (Hex : ∃ s, (s <= n)%nat ∧ f s = true).
  { destruct (decide (Exists (fun s => f s = true) (seq 0 (S n)))) as [H|H].
    - apply Exists_exists in H as (s & Hs & Hf'). apply elem_of_seq in Hs. exists s. split; [lia|done].
    - exfalso. assert (Hsub : (Z.of_nat <$> seq 0 (S n)) ⊆+ (pt_slot <$> ct_parts c)).
      { apply NoDup_submseteq; [apply NoDup_fmap_2; [intros ???; lia|apply NoDup_seq]|].
        intros x (s & -> & Hs)%list_elem_of_fmap. destruct (decide (Z.of_nat s ∈ pt_slot <$> ct_parts c)) as [|Hne]; [done|].
        exfalso. apply H, Exists_exists. exists s. split; [done|]. by apply Hf. }
      apply submseteq_length in Hsub. rewrite !length_fmap, length_seq in Hsub. lia. }
  destruct Hex as (s & Hs & Hfs). pose proof (find_index_from_spec f (seq 0 256) 0) as H. fold (find_index f (seq 0 256)) in H.
  destruct (find_index f (seq 0 256)) as [i|].
  - destruct H as (x & _ & Hx & Hfx & Hmin). rewrite Nat.sub_0_r in *. apply lookup_seq in Hx as [-> Hi]. cbn in Hfx.
    assert (¬ (s < i)%nat). { intros Hlt. pose proof (Hmin s s Hlt). rewrite lookup_seq_lt in H by lia. rewrite H in Hfs; done. }
    split; [lia|]. by apply Hf.
  - rewrite Forall_forall in H. rewrite (H s) in Hfs; [done|]. apply elem_of_seq. lia.
Qed.

(** ** The invariant *)

Definition cfg_ok (cfg : call_cfg) : Prop :=
  2 <= cfg_call_max cfg <= OC_MAX_CALL_PARTICIPANTS ∧ is_bytes (cfg_prefix cfg) ∧ zlen (cfg_prefix cfg) <= 16 ∧ is_u16 (cfg_port cfg).
(** The clock is past 0 and below 2^63 ms and the random bytes are sixteen bytes. *)
Definition env_ok (e : call_env) : Prop :=
  0 < e_now e < 2 ^ 63 ∧ ∀ r, e_rand e = Some r → is_bytes r ∧ zlen r = 16.

Definition part_ok (cfg : call_cfg) (p : call_part) : Prop :=
  is_u64 (pt_user p) ∧ 0 <= pt_slot p < cfg_call_max cfg ∧ zlen (pt_key p) = OC_CALL_DEVICE_KEY_LEN ∧
  is_bytes (pt_key p) ∧ is_u8 (pt_codecs p) ∧ (pt_conn p = 0 ↔ pt_detached p ≠ 0).
(** A call that may have nobody in it for a moment; [b] bounds its changes. *)
Record row_pre (cfg : call_cfg) (next b : Z) (c : call_t) : Prop := {
  rp_max : zlen (ct_parts c) <= cfg_call_max cfg;
  rp_parts : Forall (part_ok cfg) (ct_parts c);
  rp_users : NoDup (pt_user <$> ct_parts c);
  rp_slots : NoDup (pt_slot <$> ct_parts c);
  rp_sharer : ct_sharer c = 0 ∨ ct_sharer c ∈ pt_conn <$> ct_parts c;
  rp_invited : NoDup (ct_invited c);
  rp_apart : ∀ u, u ∈ ct_invited c → u ∉ pt_user <$> ct_parts c;
  rp_inv_max : zlen (ct_invited c) <= cfg_call_max cfg;
  rp_chan : is_u64 (ct_channel c);
  rp_starter : is_u64 (ct_starter c) ∧ is_u64 (ct_started c);
  rp_id : 0 < ct_id c < next;
  rp_epoch : 0 <= ct_epoch c ∧ ct_epoch c + zlen (ct_parts c) <= b }.
Definition row_ok (cfg : call_cfg) (next b : Z) (c : call_t) : Prop :=
  call_live c = true → row_pre cfg next b c ∧ ct_parts c ≠ [].

(** What a roster says of a call. *)
Definition info (c : call_t) : Z * Z * list oc_call_part := (ct_id c, ct_epoch c, call_fill_parts c).
Definition current (tr : list effect) (c : call_t) : Prop :=
  call_live c = true → ∀ cid, cid ∈ attached c → view tr cid = Some (info c).
Definition slots_apart (x : Z * Z * list oc_call_part) : Prop := NoDup (call_part_slot <$> snd x).
Record rosters_ok (next : Z) (calls : list call_t) (tr : list effect) : Prop := {
  ro_id : ∀ x, x ∈ rosters tr → fst (fst x) < next;
  ro_old : ∀ x c, x ∈ rosters tr → c ∈ calls → call_live c = true → fst (fst x) = ct_id c → snd (fst x) <= ct_epoch c;
  ro_same : ∀ x y, x ∈ rosters tr → y ∈ rosters tr → fst x = fst y → x = y;
  ro_slots : Forall slots_apart (rosters tr) }.
Definition newer (c : call_t) (tr : list effect) : Prop := ∀ x, x ∈ rosters tr → fst (fst x) = ct_id c → snd (fst x) < ct_epoch c.

Definition job_ok (j : call_job) : Prop :=
  is_u64 (jb_channel j) ∧ (jb_op j = OC_CALL_OP_JOIN → zlen (jb_key j) = OC_CALL_DEVICE_KEY_LEN ∧ is_bytes (jb_key j) ∧ is_u8 (jb_codecs j)).

Section Invariant.
Context (cfg : call_cfg) (strict : bool) (used : list (list Z)).

Definition tokens_ok (calls : list call_t) (tr : list effect) : Prop :=
  NoDup (gather toks_of calls) ∧ (∀ tok, tok ∈ gather toks_of calls → ∃ r, r ∈ used ∧ tok = cfg_prefix cfg ++ r) ∧
  ∀ tok x, relay_view tr !! tok = Some x ↔ (tok, x) ∈ gather ents_of calls.
Record base (t : Z) (l : loop) : Prop := {
  ba_chan : NoDup (gather chan_of (lp_calls l));
  ba_id : NoDup (gather id_of (lp_calls l));
  ba_att : NoDup (gather att_of (lp_calls l));
  ba_open : ∀ cid, cid ∈ gather att_of (lp_calls l) → is_Some (lp_conns l !! cid);
  ba_conns : ∀ cid c, lp_conns l !! cid = Some c → 0 < cid < lp_next_conn l ∧ is_u64 (cn_user c);
  ba_next : 0 <= lp_next_call l <= 2 ^ 63 + t ∧ 0 < lp_next_conn l <= 1 + t ∧ 0 <= t < 2 ^ 31 - 1;
  ba_jobs : Forall job_ok (lp_jobs l);
  ba_rosters : rosters_ok (lp_next_call l) (lp_calls l) (lp_trace l);
  ba_tokens : strict = true → tokens_ok (lp_calls l) (lp_trace l) }.
Record inv (t : Z) (l : loop) : Prop := {
  in_base : base t l;
  in_rows : Forall (row_ok cfg (lp_next_call l) (2 * t)) (lp_calls l);
  in_current : strict = true → Forall (current (lp_trace l)) (lp_calls l) }.
(** Row [i], holding [c], is being changed. *)
Record hole (t b : Z) (i : nat) (c : call_t) (l : loop) : Prop := {
  ho_base : base t l;
  ho_at : lp_calls l !! i = Some c;
  ho_live : call_live c = true;
  ho_pre : row_pre cfg (lp_next_call l) b c;
  ho_rows : Forall (row_ok cfg (lp_next_call l) (2 * t)) (delete i (lp_calls l));
  ho_current : strict = true → Forall (current (lp_trace l)) (delete i (lp_calls l)) }.

Lemma open_row t i c l : inv t l → lp_calls l !! i = Some c → call_live c = true → hole t (2 * t) i c l ∧ ct_parts c ≠ [].
Proof.
  intros [B R C] E Hl. apply (forall_row _ _ _ _ E) in R as [Rc R]. destruct (Rc Hl) as [Hp Hn]. split; [|done].
  split; try done. intros Hs. by apply (forall_row _ _ _ _ E), C.
Qed.
Lemma hole_mono t b b' i c l : hole t b i c l → b <= b' → hole t b' i c l.
Proof. intros [B E L [] R C] Hb. split; [done..| |done|done]. split; try done. lia. Qed.
End Invariant.

(** ** Steps that leave the invariant alone *)

Definition core (c : conn) : bool * Z * Z * Z := (cn_authed c, cn_user c, cn_call_gen c, cn_call_join_ch c).
Record eqv (l l' : loop) : Prop := {
  ev_calls : lp_calls l' = lp_calls l;
  ev_next : lp_next_call l' = lp_next_call l;
  ev_nconn : lp_next_conn l' = lp_next_conn l;
  ev_jobs : lp_jobs l' = lp_jobs l;
  ev_conns : core <$> lp_conns l' = core <$> lp_conns l }.
#[export] Instance eqv_preorder : PreOrder eqv.
Proof. split; [done|]. intros l1 l2 l3 [????] [????]. split; congruence. Qed.
Lemma eqv_conn l l' cid : eqv l l' → core <$> lp_conns l' !! cid = core <$> lp_conns l !! cid.
Proof. intros H. rewrite <- !lookup_fmap. by rewrite (ev_conns _ _ H). Qed.

(** From [l] to [l'] the call of [x] was announced, and no other: not to [avoid], and to all of [D]. *)
Definition told (x : Z * Z * list oc_call_part) (avoid D : list Z) (l l' : loop) : Prop :=
  eqv l l' ∧ ∃ s, lp_trace l' = lp_trace l ++ s ∧
    (∀ a, a ∈ omap announcement s → snd a = x ∧ fst a ∉ avoid) ∧
    (∀ d, d ∈ D → ∃ a, a ∈ omap announcement s ∧ fst a = d) ∧
    ∀ m, foldl relay_apply m s = m.
Definition quietly (l l' : loop) : Prop := eqv l l' ∧ ∃ s, lp_trace l' = lp_trace l ++ s ∧ Forall plain s.
#[export] Instance quietly_preorder : PreOrder quietly.
Proof.
  split.
  - intros l. split; [done|]. exists []. by rewrite app_nil_r.
  - intros l1 l2 l3 [H1 (s1 & E1 & P1)] [H2 (s2 & E2 & P2)]. split; [by transitivity l2|].
    exists (s1 ++ s2). rewrite E2, E1, app_assoc. split; [done|]. by apply Forall_app.
Qed.
Lemma quietly_told x avoid l l' : quietly l l' → told x avoid [] l l'.
Proof.
  intros [H (s & E & P)]. split; [done|]. exists s. rewrite (plain_announces s P).
  split_and!; [done|by intros a ?%not_elem_of_nil|by intros d ?%not_elem_of_nil|intros m; by apply plain_relay].
Qed.
Lemma told_trans x avoid D1 D2 l1 l2 l3 : told x avoid D1 l1 l2 → told x avoid D2 l2 l3 → told x avoid (D1 ++ D2) l1 l3.
Proof.
  intros [H1 (s1 & E1 & A1 & C1 & R1)] [H2 (s2 & E2 & A2 & C2 & R2)]. split; [by transitivity l2|].
  exists (s1 ++ s2). rewrite E2, E1, app_assoc, omap_app. split_and!; [done| | |].
  - intros a [|]%elem_of_app; auto.
  - intros d [Hd|Hd]%elem_of_app; [destruct (C1 d Hd) as (a & ? & ?)|destruct (C2 d Hd) as (a & ? & ?)]; exists a; split; try done; apply elem_of_app; auto.
  - intros m. by rewrite foldl_app, R1, R2.
Qed.
Lemma told_weaken x avoid D D' l1 l2 : told x avoid D l1 l2 → (∀ d, d ∈ D' → d ∈ D) → told x avoid D' l1 l2.
Proof. intros [H (s & E & A & C & R)] Hd. split; [done|]. exists s. split_and!; auto. Qed.

Lemma told_rosters x avoid D l l' : told x avoid D l l' →
  ∃ s, rosters (lp_trace l') = rosters (lp_trace l) ++ s ∧ ∀ y, y ∈ s → y = x.
Proof.
  intros [_ (s & E & A & _)]. exists (rosters s). rewrite E, rosters_app. split; [done|].
  intros y (a & -> & Ha)%list_elem_of_fmap. by apply A.
Qed.
Lemma told_relay x avoid D l l' : told x avoid D l l' → relay_view (lp_trace l') = relay_view (lp_trace l).
Proof. intros [_ (s & E & _ & _ & R)]. by rewrite E, relay_view_app. Qed.
Lemma told_current x avoid D l l' c : told x avoid D l l' → (call_live c = true → ∀ cid, cid ∈ attached c → cid ∈ avoid) →
  current (lp_trace l) c → current (lp_trace l') c.
Proof.
  intros [_ (s & E & A & _)] Hav Hc Hl cid Hcid. rewrite E, view_silent; [by apply Hc|].
  intros a Ha Heq. destruct (A a Ha) as [_ Hn]. apply Hn. rewrite Heq. by apply Hav.
Qed.
Lemma quiet_rosters l l' : quietly l l' → rosters (lp_trace l') = rosters (lp_trace l).
Proof. intros [_ (s & E & P)]. rewrite E, rosters_app. unfold rosters at 2. by rewrite (plain_announces s P), app_nil_r. Qed.
Lemma quiet_relay l l' : quietly l l' → relay_view (lp_trace l') = relay_view (lp_trace l).
Proof. intros [_ (s & E & P)]. by rewrite E, relay_view_app, plain_relay. Qed.
Lemma quiet_view l l' cid : quietly l l' → view (lp_trace l') cid = view (lp_trace l) cid.
Proof. intros [_ (s & E & P)]. rewrite E, view_silent; [done|]. rewrite (plain_announces s P). by intros a ?%not_elem_of_nil. Qed.

Lemma row_ok_mono cfg next next' b b' c : row_ok cfg next b c → next <= next' → b <= b' → row_ok cfg next' b' c.
Proof. intros H Hn Hb Hl. destruct (H Hl) as [[] ?]. split; [|done]. split; try done; lia. Qed.

Section Kept.
Context (cfg : call_cfg) (strict : bool) (used : list (list Z)).
Notation base := (base cfg strict used).
Notation inv := (inv cfg strict used).
Notation hole := (hole cfg strict used).

Lemma base_step t t' l l' : base t l → eqv l l' → t <= t' < 2 ^ 31 - 1 →
  rosters_ok (lp_next_call l) (lp_calls l) (lp_trace l') → relay_view (lp_trace l') = relay_view (lp_trace l) → base t' l'.
Proof.
  intros [] [Ec En Enc Ej Econ] Ht Hr Hv.
  assert (Hco : ∀ cid, core <$> lp_conns l' !! cid = core <$> lp_conns l !! cid) by (intros; by rewrite <- !lookup_fmap, Econ).
  split; rewrite ?Ec, ?En, ?Enc, ?Ej; try done.
  - intros cid H. apply ba_open0 in H as [c H]. specialize (Hco cid). rewrite H in Hco. destruct (lp_conns l' !! cid); [eauto|done].
  - intros cid c H. specialize (Hco cid). rewrite H in Hco. destruct (lp_conns l !! cid) as [c0|] eqn:E; [|done].
    apply ba_conns0 in E. injection Hco as Ha Hu. rewrite Hu. done.
  - lia.
  - intros Hs. destruct (ba_tokens0 Hs) as (?&?&?). split_and!; [done|done|]. by rewrite Hv.
Qed.

Lemma inv_mono t t' l : inv t l → t <= t' < 2 ^ 31 - 1 → inv t' l.
Proof.
  intros [B R C] Ht. split; [|eapply Forall_impl; [exact R|]; intros; eapply row_ok_mono; eauto; lia|done].
  by apply (base_step t t' l l B); [done|..|apply B|].
Qed.
Lemma inv_quiet t l l' : inv t l → quietly l l' → inv t l'.
Proof.
  intros [B R C] Q. pose proof Q as [E _]. assert (Ht := ba_next _ _ _ _ _ B). split.
  - apply (base_step t t l l' B E); [lia| |by apply quiet_relay].
    destruct (ba_rosters _ _ _ _ _ B). by split; rewrite (quiet_rosters _ _ Q).
  - by rewrite (ev_calls _ _ E), (ev_next _ _ E).
  - intros Hs. rewrite (ev_calls _ _ E). eapply Forall_impl; [by apply C|]. intros c Hc Hl cid Hin. rewrite (quiet_view _ _ _ Q). by apply Hc.
Qed.

(** The row goes back, and everybody in the call is told what it is now. *)
Lemma hole_told t t' b i c l l' : hole t b i c l → ct_parts c ≠ [] → newer c (lp_trace l) →
  t <= t' < 2 ^ 31 - 1 → b <= 2 * t' →
  told (info c) (gather att_of (delete i (lp_calls l))) (attached c) l l' → inv t' l'.
Proof.
  intros [B E L P R C] Hn Hnew Ht Hb T. pose proof T as [V (s & Etr & A & D & _)].
  destruct (told_rosters _ _ _ _ _ T) as (s' & Er & Hs'). pose proof (ba_rosters _ _ _ _ _ B) as [Rid Rold Rsame Rslots].
  assert (Hc : c ∈ lp_calls l) by (by eapply list_elem_of_lookup_2).
  split.
  - apply (base_step t t' l l' B V Ht); [|by eapply told_relay]. split; rewrite Er.
    + intros x [Hx|Hx]%elem_of_app; [by apply Rid|]. rewrite (Hs' x Hx). apply P.
    + intros x d [Hx|Hx]%elem_of_app Hd Hl Hid; [by apply (Rold x d)|]. rewrite (Hs' x Hx) in *. cbn in Hid |- *.
      pose proof (delete_Permutation _ _ _ E) as Ep. rewrite Ep in Hd. apply elem_of_cons in Hd as [->|Hd]; [lia|]. exfalso.
      pose proof (ba_id _ _ _ _ _ B) as Nid. rewrite (gather_split _ _ _ _ E) in Nid.
      apply NoDup_app in Nid as (_ & Nid & _). apply (Nid (ct_id c)); [unfold id_of, if_live; rewrite L; by left|].
      apply elem_of_gather. exists d. split; [done|]. unfold id_of, if_live. rewrite Hl, Hid. by left.
    + intros x y [Hx|Hx]%elem_of_app [Hy|Hy]%elem_of_app Heq; [by apply Rsame| | |].
      * exfalso. rewrite (Hs' y Hy) in Heq. pose proof (Hnew x Hx). rewrite Heq in H. cbn in H. specialize (H eq_refl). lia.
      * exfalso. rewrite (Hs' x Hx) in Heq. pose proof (Hnew y Hy). rewrite <- Heq in H. cbn in H. specialize (H eq_refl). lia.
      * by rewrite (Hs' x Hx), (Hs' y Hy).
    + apply Forall_app. split; [done|]. apply Forall_forall. intros x Hx. rewrite (Hs' x Hx). unfold slots_apart, info, call_fill_parts. cbn [snd].
      rewrite <- list_fmap_compose. apply P.
  - rewrite (ev_calls _ _ V), (ev_next _ _ V). apply (forall_row _ _ _ _ E). split.
    + intros _. split; [|done]. destruct P. split; try done. lia.
    + eapply Forall_impl; [exact R|]. intros; eapply row_ok_mono; eauto; lia.
  - intros Hs. rewrite (ev_calls _ _ V). apply (forall_row _ _ _ _ E). split.
    + intros _ cid Hcid. rewrite Etr. apply view_told; [|by apply D]. intros a Ha. by apply A.
    + rewrite Forall_forall. intros d Hd. eapply told_current; [exact T| |].
      * intros Ld cid Hcid. apply elem_of_gather. exists d. split; [done|]. unfold att_of, if_live. by rewrite Ld.
      * by eapply Forall_forall in C.
Qed.

(** The row goes back without a word. *)
Lemma hole_silent t t' b i c l l' : strict = false → hole t b i c l → ct_parts c ≠ [] → t <= t' < 2 ^ 31 - 1 → b <= 2 * t' →
  quietly l l' → inv t' l'.
Proof.
  intros Hs [B E L P R C] Hn Ht Hb Q. pose proof Q as [V _]. split; [|rewrite (ev_calls _ _ V), (ev_next _ _ V); apply (forall_row _ _ _ _ E); split|by rewrite Hs].
  - apply (base_step t t' l l' B V Ht); [|by apply quiet_relay]. destruct (ba_rosters _ _ _ _ _ B). by split; rewrite (quiet_rosters _ _ Q).
  - intros _. split; [|done]. destruct P. split; try done. lia.
  - eapply Forall_impl; [exact R|]. intros; eapply row_ok_mono; eauto; lia.
Qed.

(** [s] takes the tokens [ts] from the relay and announces nothing. *)
Definition revoking (ts : list (list Z)) (s : list effect) : Prop :=
  omap announcement s = [] ∧ ∀ m tok, foldl relay_apply m s !! tok = if decide (tok ∈ ts) then None else m !! tok.
(** Row [i] becomes [c'] and tokens are revoked; nothing is sent. *)
Record changed (i : nat) (c' : call_t) (ts : list (list Z)) (l l' : loop) : Prop := {
  ch_calls : lp_calls l' = <[i := c']> (lp_calls l);
  ch_trace : ∃ s, lp_trace l' = lp_trace l ++ s ∧ revoking ts s;
  ch_next : lp_next_call l' = lp_next_call l;
  ch_nconn : lp_next_conn l' = lp_next_conn l;
  ch_jobs : lp_jobs l' = lp_jobs l;
  ch_conns : lp_conns l' = lp_conns l }.

Lemma revokes_silent ts : omap announcement (Revoke <$> ts) = [].
Proof. by induction ts. Qed.
Lemma revokes_relay ts m tok : foldl relay_apply m (Revoke <$> ts) !! tok = if decide (tok ∈ ts) then None else m !! tok.
Proof.
  revert m. induction ts as [|t ts IH]; intros m; [by rewrite decide_False by (by intros ?%not_elem_of_nil)|].
  rewrite fmap_cons. cbn [foldl relay_apply]. rewrite IH. destruct (decide (tok ∈ ts)); [rewrite decide_True by (by right); done|].
  destruct (decide (tok = t)) as [->|Hne]; [rewrite decide_True by (by left); by rewrite lookup_delete_eq|].
  rewrite decide_False by (intros [|]%elem_of_cons; done). by rewrite lookup_delete_ne.
Qed.
Lemma revoking_all ts : revoking ts (Revoke <$> ts).
Proof. split; [apply revokes_silent|]. intros m tok. apply revokes_relay. Qed.
Lemma revoking_nil : revoking [] [].
Proof. exact (revoking_all []). Qed.
Lemma revoking_one tok : revoking [tok] [Revoke tok].
Proof. exact (revoking_all [tok]). Qed.
Lemma revoking_swept tok : revoking [tok] [Swept tok; Revoke tok].
Proof.
  split; [done|]. intros m tok'. transitivity (foldl relay_apply (delete tok m) (Revoke <$> [tok]) !! tok'); [done|].
  rewrite revokes_relay. destruct (decide (tok' ∈ [tok])) as [|Hn]; [done|]. rewrite lookup_delete_ne; [done|]. intros ->. apply Hn. by left.
Qed.
Lemma ents_toks calls tok x : (tok, x) ∈ gather ents_of calls → tok ∈ gather toks_of calls.
Proof.
  intros (c & Hc & H)%elem_of_gather. apply elem_of_gather. exists c. split; [done|]. unfold ents_of, toks_of, if_live in *.
  destruct (call_live c); [|by apply not_elem_of_nil in H]. apply list_elem_of_fmap in H as (p & [= -> ->] & H).
  apply list_elem_of_filter in H as [_ H]. by apply list_elem_of_fmap_2.
Qed.
Lemma tokens_revoke calls tr i c c' ts s : revoking ts s → tokens_ok cfg used calls tr → calls !! i = Some c →
  toks_of c' ⊆+ toks_of c → ts ⊆ toks_of c → (∀ tok x, (tok, x) ∈ ents_of c' ↔ (tok, x) ∈ ents_of c ∧ tok ∉ ts) →
  tokens_ok cfg used (<[i := c']> calls) (tr ++ s).
Proof.
  intros [_ Hrv] (N & U & R) E Ht Hts He. pose proof N as N0. rewrite (gather_split _ _ _ _ E) in N0. apply NoDup_app in N0 as (_ & N0 & _). split_and!.
  - by apply (gather_nodup_set _ _ _ _ _ E).
  - intros tok Hin. apply U. rewrite (gather_split _ _ _ _ E). rewrite (gather_set _ _ _ _ c' E) in Hin.
    apply elem_of_app in Hin as [Hin|Hin]; apply elem_of_app; [left|by right]. by eapply elem_of_submseteq.
  - intros tok x. rewrite relay_view_app, Hrv, (gather_set _ _ _ _ c' E), elem_of_app, He.
    specialize (R tok x). rewrite (gather_split _ _ _ _ E), elem_of_app in R. destruct (decide (tok ∈ ts)) as [Hin|Hin]; [|tauto].
    split; [done|]. intros [[_ ?]|Hr]; [done|]. exfalso. apply Hts in Hin. apply (N0 tok Hin). by apply (ents_toks _ _ x).
Qed.

Lemma base_change t i c c' ts l l' : base t l → lp_calls l !! i = Some c → changed i c' ts l l' →
  chan_of c' ⊆+ chan_of c → id_of c' ⊆+ id_of c → att_of c' ⊆+ att_of c →
  (call_live c' = true → call_live c = true ∧ ct_id c' = ct_id c ∧ ct_epoch c <= ct_epoch c') →
  (strict = true → toks_of c' ⊆+ toks_of c ∧ ts ⊆ toks_of c ∧ (∀ tok x, (tok, x) ∈ ents_of c' ↔ (tok, x) ∈ ents_of c ∧ tok ∉ ts)) →
  base t l'.
Proof.
  intros [] E [Ec (s & Et & Hrv) En Enc Ej Eco] H1 H2 H3 H4 H5. split; rewrite ?Ec, ?Et, ?En, ?Enc, ?Ej, ?Eco; try done.
  - by apply (gather_nodup_set _ _ _ _ _ E).
  - by apply (gather_nodup_set _ _ _ _ _ E).
  - by apply (gather_nodup_set _ _ _ _ _ E).
  - intros cid. rewrite (gather_set _ _ _ _ c' E). intros Hin. apply ba_open0. rewrite (gather_split _ _ _ _ E).
    apply elem_of_app in Hin as [Hin|Hin]; apply elem_of_app; [left|by right]. by eapply elem_of_submseteq.
  - assert (Hr : rosters (lp_trace l ++ s) = rosters (lp_trace l)).
    { rewrite rosters_app. unfold rosters at 2. by rewrite (proj1 Hrv), app_nil_r. }
    destruct ba_rosters0 as [R1 R2 R3 R4]. split; rewrite Hr; try done.
    intros x d Hx Hd Hl Hid. apply list_elem_of_lookup in Hd as (j & Hj). destruct (decide (i = j)) as [<-|Hne].
    + rewrite list_lookup_insert_eq in Hj by (by eapply lookup_lt_Some). injection Hj as <-.
      destruct (H4 Hl) as (Hl' & Hid' & He). pose proof (R2 x c Hx (list_elem_of_lookup_2 _ _ _ E) Hl'). rewrite Hid in H. specialize (H Hid'). lia.
    + rewrite list_lookup_insert_ne in Hj by done. apply (R2 x d); try done. by eapply list_elem_of_lookup_2.
  - intros Hs. destruct (H5 Hs) as (?&?&?). by apply (tokens_revoke _ _ _ c _ ts s); auto.
Qed.

Lemma revoked_current ts s tr c : revoking ts s → current tr c → current (tr ++ s) c.
Proof. intros [Hs _] H Hl cid Hin. rewrite view_silent; [by apply H|]. rewrite Hs. by intros a ?%not_elem_of_nil. Qed.
Lemma hole_change t b b' i c c' ts l l' : hole t b i c l → changed i c' ts l l' →
  ct_channel c' = ct_channel c → ct_id c' = ct_id c → ct_epoch c <= ct_epoch c' → attached c' ⊆+ attached c →
  row_pre cfg (lp_next_call l) b' c' →
  (strict = true → toks_of c' ⊆+ toks_of c ∧ ts ⊆ toks_of c ∧ (∀ tok x, (tok, x) ∈ ents_of c' ↔ (tok, x) ∈ ents_of c ∧ tok ∉ ts)) →
  hole t b' i c' l'.
Proof.
  intros [B E L P R C] Ch Hch Hid Hep Hatt Hpre Htok. pose proof Ch as [Ec (s & Et & Hrv) En Enc Ej Eco].
  assert (L' : call_live c' = true) by (unfold call_live in *; by rewrite Hch).
  split; rewrite ?Ec, ?En; try done.
  - apply (base_change t i c c' ts l l'); try done.
    + unfold chan_of, if_live. by rewrite L, L', Hch.
    + unfold id_of, if_live. by rewrite L, L', Hid.
    + unfold att_of, if_live. by rewrite L, L'.
  - apply list_lookup_insert_eq. by eapply lookup_lt_Some.
  - by rewrite delete_set.
  - intros Hs. rewrite delete_set, Et. eapply Forall_impl; [by apply C|]. intros d. by apply (revoked_current ts).
Qed.
(** The row is free: the call is over. *)
Lemma hole_freed t b i c c' ts l l' : hole t b i c l → changed i c' ts l l' → call_live c' = false →
  ts ⊆ toks_of c → (∀ p, p ∈ ct_parts c → pt_token p ∈ ts) → inv t l'.
Proof.
  intros [B E L P R C] Ch L' Hts Hall. pose proof Ch as [Ec (s & Et & Hrv) En Enc Ej Eco]. split.
  - apply (base_change t i c c' ts l l'); try done.
    1-3: unfold chan_of, id_of, att_of, if_live; rewrite L'; apply submseteq_nil_l.
    { by rewrite L'. }
    intros _. unfold toks_of, ents_of, if_live in *. rewrite L', L in *. split_and!; [apply submseteq_nil_l|done|].
    intros tok x. split; [by intros ?%not_elem_of_nil|]. intros [Hin Hn]. exfalso. apply Hn.
    apply list_elem_of_fmap in Hin as (p & [= -> ->] & Hp). apply list_elem_of_filter in Hp as [_ Hp]. by apply Hall.
  - rewrite Ec, En. apply (forall_set _ _ _ _ c' E). split; [intros H; congruence|done].
  - intros Hs. rewrite Ec, Et. apply (forall_set _ _ _ _ c' E). split; [intros H; congruence|].
    eapply Forall_impl; [by apply C|]. intros d. by apply (revoked_current ts).
Qed.
End Kept.
