(* ===== verification/CallsStep.v ===== *)
(** * Each operation on the calls keeps the invariant

    What is sent ([call_send] and its callers), the changes of one row, and
    then the operations of [Calls] that the loop's events run. *)
From stdpp Require Import base tactics list numbers gmap strings.
From S2P Require Import Prelude.
From S2P Require Import Wire.
From S2P Require Import WireLogic.
From S2P Require Import WireFrame.
From S2P Require Import ProtoTypes.
From S2P Require Import ProtoCall.
From S2P Require Import ProtoUsers.
From S2P Require Import Demolimits.
From S2P Require Import Outq.
From S2P Require Import Calls.
From S2P Require Import CallsInv.
Local Open Scope Z_scope.
Local Open Scope oc_scope.
Local Open Scope wire_scope.

(** ** Sending *)

Lemma eqv_put_conn cid c c' l : lp_conns l !! cid = Some c → core c' = core c → eqv l (put_conn cid c' l).
Proof.
  intros E Hc. split; try done. unfold put_conn. cbn [lp_conns set_field]. rewrite fmap_insert, Hc. apply insert_id.
  by rewrite lookup_fmap, E.
Qed.
Lemma note_conns x l : lp_conns (note x l) = lp_conns l.
Proof. reflexivity. Qed.
Lemma eqv_note x l l' : eqv l l' → eqv l (note x l').
Proof. intros [H1 H2 H3 H4 H5]. split; [exact H1|exact H2|exact H3|exact H4|]. rewrite note_conns. exact H5. Qed.
Lemma call_send_does e buf fr cid l :
  eqv l (call_send e buf fr cid l) ∧
  ∃ x, (x = Sent cid fr ∨ x = Missed cid fr) ∧
    lp_trace (call_send e buf fr cid l) = lp_trace l ++ (if decide (is_Some (lp_conns l !! cid)) then [x] else []).
Proof.
  unfold call_send, find_by_id. destruct (lp_conns l !! cid) as [c|] eqn:E.
  - split; [apply eqv_note; by apply (eqv_put_conn cid c)|]. eexists. rewrite decide_True by eauto. split; [|done]. destruct (fst _); auto.
  - split; [done|]. exists (Sent cid fr). rewrite decide_False by (by intros []). rewrite app_nil_r. auto.
Qed.
Lemma call_send_quiet e buf fr cid l : announced fr = None → quietly l (call_send e buf fr cid l).
Proof.
  intros Hfr. destruct (call_send_does e buf fr cid l) as (H & x & Hx & E). split; [done|]. eexists. split; [exact E|].
  destruct (decide _); [|done]. constructor; [by destruct Hx as [-> | ->]|done].
Qed.
Lemma send_once_quiet e gen buf fr cid l : announced fr = None → quietly l (send_once e gen buf fr l cid).
Proof.
  intros Hfr. unfold send_once, find_by_id. destruct (lp_conns l !! cid) as [c|] eqn:E; [|done].
  destruct (cn_fan_gen c =? gen); [done|]. transitivity (put_conn cid (c <| cn_fan_gen := gen |>) l); [|by apply call_send_quiet].
  split; [by apply (eqv_put_conn cid c)|]. exists []. by rewrite app_nil_r.
Qed.
Lemma foldl_quiet {A} (f : loop → A → loop) : (∀ l x, quietly l (f l x)) → ∀ xs l, quietly l (foldl f l xs).
Proof. intros H xs. induction xs as [|x xs IH]; intros l; [done|]. cbn. transitivity (f l x); auto. Qed.
Lemma call_send_users_quiet e uids gen buf fr l : announced fr = None → quietly l (call_send_users e uids gen buf fr l).
Proof. intros Hfr. apply foldl_quiet. intros l' uid. apply foldl_quiet. intros. by apply send_once_quiet. Qed.
Lemma call_send_state_quiet e c ended l : quietly l (call_send_state e c ended l).
Proof.
  unfold call_send_state. destruct (call_encode_state c ended) as [buf|]; [|done].
  etransitivity; [|by apply call_send_users_quiet]. etransitivity; [|by apply call_send_users_quiet].
  etransitivity; [|by apply call_send_users_quiet]. split; [done|]. exists []. by rewrite app_nil_r.
Qed.
Lemma send_call_error_quiet e cid code msg l : quietly l (send_call_error e cid code msg l).
Proof. unfold send_call_error. destruct (encode_in 256 _); [by apply call_send_quiet|done]. Qed.
Lemma demo_ok_quiet now k u l : quietly l (snd (demo_ok now k u l)).
Proof.
  unfold demo_ok. destruct (lp_demo l); [|done]. destruct (oc_dl_take _ _ _ _). split; [done|]. exists []. by rewrite app_nil_r.
Qed.
Lemma note_quiet x l : plain x → quietly l (note x l).
Proof. intros Hx. split; [done|]. exists [x]. split; [done|]. by constructor. Qed.
Lemma call_push_invites_quiet e c uids inviter l : quietly l (call_push_invites e c uids inviter l).
Proof.
  apply foldl_quiet. intros l' uid. pose proof (demo_ok_quiet (e_now e) OC_DL_PUSH 0 l') as H.
  destruct (demo_ok _ _ _ l') as [[] l'']; cbn [snd] in H; [|done]. etransitivity; [exact H|]. by apply note_quiet.
Qed.

(** ** The frames that announce a call fit their buffers *)

Lemma encode_in_ok cap fr ty bs : 8 + zlen bs <= cap → cap <= OC_MAX_FRAME_SIZE →
  Encodes (frame_encoder fr) OC_PROTOCOL_VERSION ty (Some bs) → is_Some (encode_in cap fr).
Proof.
  intros Hc Hm He. unfold encode_in. pose proof (zlen_nonneg bs). set (w := oc_wbuf_init (replicate (Z.to_nat cap) 0) cap).
  assert (Hw : wbuf_ok w).
  { unfold wbuf_ok, w, oc_wbuf_init, zlen; cbn [w_len w_cap w_data]. rewrite length_replicate. unfold OC_MAX_FRAME_SIZE in Hm. lia. }
  specialize (He w Hw). cbn beta iota in He.
  assert (fits w (frame_bytes OC_PROTOCOL_VERSION ty bs) = true) as Hf.
  { unfold fits, w, oc_wbuf_init. cbn [w_overflow w_len w_cap negb andb]. rewrite zlen_frame_bytes. apply Z.leb_le. lia. }
  rewrite Hf in He. rewrite (proj2 (Z.leb_le _ _)) in He by lia. cbn [andb] in He. rewrite He. rewrite bool_decide_eq_true_2 by done. eauto.
Qed.
Lemma parts_len l : Forall wf_oc_call_part l → ∃ bs, counted_bytes call_part_bytes l = Some bs ∧ zlen bs = 2 + 43 * zlen l.
Proof.
  intros H. unfold counted_bytes. assert (∃ bs, oconcat (call_part_bytes <$> l) = Some bs ∧ zlen bs = 43 * zlen l) as (bs & -> & Hz).
  { induction H as [|x l Hx _ IH]; [by exists []|]. destruct IH as (bs & E & Hz). rewrite fmap_cons.
    assert (oconcat (call_part_bytes x :: (call_part_bytes <$> l)) = oapp (call_part_bytes x) (Some bs)) as -> by (by rewrite <- E).
    unfold wf_oc_call_part in Hx. eexists. split; [reflexivity|]. rewrite !zlen_app, !zlen_cons, Hz.
    destruct Hx as (_ & _ & -> & _). change (zlen (be64 _)) with 8. change (zlen (@nil Z)) with 0. unfold OC_CALL_DEVICE_KEY_LEN. lia. }
  eexists. split; [reflexivity|]. rewrite zlen_app, Hz. done.
Qed.
Lemma writes_then f g a b : Writes f (Some a) → Writes g (Some b) → Writes (f ;; g) (Some (a ++ b)).
Proof. exact (writes_seq f g (Some a) (Some b)). Qed.
Create HintDb wire_ints.
#[local] Hint Resolve writes_u8 writes_u16 writes_u32 writes_u64 : wire_ints.
Lemma roster_encodes m : wf_call_roster OC_MAX_CALL_PARTICIPANTS m → is_Some (encode_in 2048 (FRoster m)).
Proof.
  intros ((?&?&?&?&Hp) & Hn & Hm). destruct (parts_len _ Hp) as (bs & E & Hz). unfold OC_MAX_CALL_PARTICIPANTS in Hm.
  pose proof (writes_call_parts _ _ Hn Hp) as W. rewrite E in W.
  eapply encode_in_ok; [| |unfold frame_encoder, oc_encode_call_roster; apply frame_encodes; repeat first [exact W|eapply writes_then; [solve [eauto with wire_ints]|]]].
  - rewrite !zlen_app, Hz. change (zlen (be64 _)) with 8. change (zlen (be32 _)) with 4. lia.
  - done.
Qed.
Lemma joined_encodes m : wf_call_joined OC_MAX_CALL_PARTICIPANTS m → zlen (call_joined_token m) <= 32 → is_Some (encode_in 2048 (FJoined m)).
Proof.
  intros ((?&?&?&?&?&?&?&?&?&Hp) & Hn & Hm) Ht. destruct (parts_len _ Hp) as (bs & E & Hz). unfold OC_MAX_CALL_PARTICIPANTS in Hm.
  pose proof (writes_call_parts _ _ Hn Hp) as W. rewrite E in W.
  pose proof (writes_bytes (call_joined_token m)) as Wt. unfold lstr_bytes in Wt. rewrite (proj2 (Z.ltb_ge _ _)) in Wt by lia.
  eapply encode_in_ok; [| |unfold frame_encoder, oc_encode_call_joined; apply frame_encodes; repeat first [exact W|eapply writes_then; [solve [eauto with wire_ints]|]]].
  - rewrite !zlen_app, Hz, zlen_cons. change (zlen (be64 _)) with 8. change (zlen (be32 _)) with 4. change (zlen (be16 _)) with 2.
    change (zlen (@nil Z)) with 0. lia.
  - done.
Qed.

Lemma fill_parts_wf cfg next b c : cfg_ok cfg → row_pre cfg next b c → Forall wf_oc_call_part (call_fill_parts c) ∧ zlen (call_fill_parts c) = zlen (ct_parts c).
Proof.
  intros (Hm & _) P. unfold OC_MAX_CALL_PARTICIPANTS in Hm. split; [|unfold zlen, call_fill_parts; by rewrite length_map].
  unfold call_fill_parts. rewrite Forall_forall. intros x (p & <- & Hp)%list_elem_of_In%in_map_iff.
  apply list_elem_of_In in Hp. pose proof (rp_parts _ _ _ _ P) as HP. rewrite Forall_forall in HP. destruct (HP p Hp) as (?&?&?&?&?&_).
  split_and!; cbn; try done; [unfold is_u8; lia|]. unfold is_u8. destruct (pt_detached p =? 0); unfold OC_CALL_PART_AWAY; lia.
Qed.
Lemma roster_fits cfg next b c : cfg_ok cfg → row_pre cfg next b c → next <= 2 ^ 63 + 2 ^ 31 → b < 2 ^ 32 → is_Some (encode_in 2048 (roster_frame c)).
Proof.
  intros Hc P Hn Hb. destruct (fill_parts_wf _ _ _ _ Hc P) as [Hw Hz]. destruct Hc as (Hm & _). unfold OC_MAX_CALL_PARTICIPANTS in Hm.
  pose proof (zlen_nonneg (ct_parts c)). destruct P. apply roster_encodes. unfold wf_call_roster, wf_oc_call_roster, is_u64, is_u32, is_u16 in *. cbn.
  unfold OC_MAX_CALL_PARTICIPANTS. rewrite Hz. split_and!; done || lia.
Qed.

Lemma eqv_open l l' cid : eqv l l' → is_Some (lp_conns l !! cid) → is_Some (lp_conns l' !! cid).
Proof. intros V [c E]. pose proof (eqv_conn _ _ cid V) as H. rewrite E in H. destruct (lp_conns l' !! cid); [eauto|done]. Qed.
Lemma call_send_told e buf fr x avoid cid l : announced fr = Some x → cid ∉ avoid →
  told x avoid (if decide (is_Some (lp_conns l !! cid)) then [cid] else []) l (call_send e buf fr cid l).
Proof.
  intros Hfr Hav. destruct (call_send_does e buf fr cid l) as (V & y & Hy & E). split; [done|]. eexists. split; [exact E|].
  assert (Ha : announcement y = Some (cid, x)) by (destruct Hy as [-> | ->]; cbn; by rewrite Hfr).
  destruct (decide _); cbn; [rewrite Ha; cbn|]; split_and!; try done; try (by intros ? ?%not_elem_of_nil).
  - intros a [->|?%not_elem_of_nil]%elem_of_cons; done.
  - intros d [->|?%not_elem_of_nil]%elem_of_cons; [|done]. eexists. split; [by left|done].
  - intros m. by destruct Hy as [-> | ->].
Qed.
Lemma sends_told e buf fr x avoid cids : announced fr = Some x → (∀ cid, cid ∈ cids → cid ∉ avoid) →
  ∀ l D, (∀ d, d ∈ D → d ∈ cids ∧ is_Some (lp_conns l !! d)) → told x avoid D l (foldl (fun l cid => call_send e buf fr cid l) l cids).
Proof.
  intros Hfr. induction cids as [|cid cids IH]; intros Hav l D HD.
  - cbn [foldl]. eapply told_weaken; [by apply quietly_told|]. intros d Hd. by destruct (HD d Hd) as [?%not_elem_of_nil _].
  - cbn [foldl]. set (l1 := call_send e buf fr cid l).
    assert (T1 : told x avoid (if decide (is_Some (lp_conns l !! cid)) then [cid] else []) l l1)
      by (apply call_send_told; [done|apply Hav; by left]).
    eapply told_weaken; [eapply told_trans; [exact T1|apply (IH ltac:(intros; apply Hav; by right) l1 (filter (fun d => d ≠ cid) D))]|].
    + intros d (Hne & Hd)%list_elem_of_filter. destruct (HD d Hd) as [[->|Hin]%elem_of_cons Ho]; [done|]. split; [done|].
      by apply (eqv_open l); [apply T1|].
    + intros d Hd. apply elem_of_app. destruct (decide (d = cid)) as [->|]; [left|right; by apply list_elem_of_filter].
      rewrite decide_True; [by left|]. by apply HD.
Qed.
Lemma call_send_roster_told cfg next b e c except also avoid D l :
  cfg_ok cfg → row_pre cfg next b c → next <= 2 ^ 63 + 2 ^ 31 → b < 2 ^ 32 →
  (∀ cid, cid ∈ pt_conn <$> ct_parts c → cid ≠ except → cid ∉ avoid) → (also ≠ 0 → also ∉ avoid) →
  (∀ d, d ∈ D → d ∈ pt_conn <$> ct_parts c ∧ d ≠ except ∧ is_Some (lp_conns l !! d)) →
  told (info c) avoid D l (call_send_roster e c except also l).
Proof.
  intros Hc P Hn Hb Hav Hal HD. unfold call_send_roster. destruct (roster_fits _ _ _ _ Hc P Hn Hb) as [buf ->].
  apply sends_told; [done| |].
  - intros cid [(Hne & Hin)%list_elem_of_filter|Hin]%elem_of_app; [by apply Hav|]. destruct (Z.eqb_spec also 0); [by apply not_elem_of_nil in Hin|].
    apply list_elem_of_singleton in Hin as ->. by apply Hal.
  - intros d Hd. destruct (HD d Hd) as (Hin & Hne & Ho). split; [|done]. apply elem_of_app. left. by apply list_elem_of_filter.
Qed.

(** ** Changes of a row *)

Lemma removed_parts c k p : ct_parts c !! k = Some p → ct_parts c ≡ₚ p :: ct_parts (call_remove_part c k).
Proof. intros E. unfold call_remove_part. destruct (_ =? _); by apply swap_out_split. Qed.
Lemma zlen_perm {A} (xs ys : list A) : xs ≡ₚ ys → zlen xs = zlen ys.
Proof. intros H. unfold zlen. by rewrite H. Qed.
Lemma remove_fields c k : let c' := call_remove_part c k in
  ct_channel c' = ct_channel c ∧ ct_id c' = ct_id c ∧ ct_starter c' = ct_starter c ∧ ct_started c' = ct_started c ∧
  ct_epoch c' = ct_epoch c ∧ ct_invited c' = ct_invited c.
Proof. unfold call_remove_part. by destruct (_ =? _). Qed.
Lemma row_pre_remove cfg next b c k p : row_pre cfg next b c → ct_parts c !! k = Some p → row_pre cfg next (b - 1) (call_remove_part c k).
Proof.
  intros [Rmax Rparts Rusers Rslots Rsh Rinv Rap Rim Rch Rst Rid Rep] E. pose proof (removed_parts c k p E) as HP. pose proof (remove_fields c k) as (F1 & F2 & F3 & F4 & F5 & F6).
  set (c' := call_remove_part c k) in *. pose proof (zlen_perm _ _ HP) as Hz. rewrite zlen_cons in Hz.
  rewrite HP in Rparts, Rusers, Rslots. rewrite fmap_cons in Rusers, Rslots.
  apply list.Forall_cons in Rparts as [_ ?]. apply list.NoDup_cons in Rusers as [_ ?], Rslots as [_ ?].
  split; rewrite ?F1, ?F2, ?F3, ?F4, ?F5, ?F6; try done; try lia.
  - unfold c', call_remove_part. rewrite (part_at_lookup _ _ _ E). destruct (Z.eqb_spec (pt_conn p) (ct_sharer c)) as [|Hne]; [by left|]. cbn.
    destruct Rsh as [|Hin]; [by left|right]. rewrite HP, fmap_cons in Hin. apply elem_of_cons in Hin as [|Hin]; [done|].
    unfold c', call_remove_part in Hin. rewrite (part_at_lookup _ _ _ E), (proj2 (Z.eqb_neq _ _) Hne) in Hin. exact Hin.
  - intros u Hu Hin. apply (Rap u Hu). rewrite HP, fmap_cons. by right.
Qed.

Lemma attached_cons p ps c c' : ct_parts c ≡ₚ p :: ps → ct_parts c' = ps → attached c ≡ₚ (if decide (pt_conn p ≠ 0) then [pt_conn p] else []) ++ attached c'.
Proof. intros H <-. unfold attached. rewrite H, fmap_cons, filter_cons. by destruct (decide _). Qed.
Lemma ents_iff c tok x : call_live c = true → (tok, x) ∈ ents_of c ↔ ∃ p, p ∈ ct_parts c ∧ pt_conn p ≠ 0 ∧ (tok, x) = relay_entry c p.
Proof.
  intros L. unfold ents_of, if_live. rewrite L, list_elem_of_fmap. split.
  - intros (p & E & [Hc Hp]%list_elem_of_filter). eauto.
  - intros (p & Hp & Hc & E). exists p. split; [done|]. by apply list_elem_of_filter.
Qed.
Lemma row_toks cfg used calls tr i c : tokens_ok cfg used calls tr → calls !! i = Some c → call_live c = true → NoDup (pt_token <$> ct_parts c).
Proof.
  intros (N & _) E L. rewrite (gather_split _ _ _ _ E) in N. apply NoDup_app in N as [N _]. unfold toks_of, if_live in N. by rewrite L in N.
Qed.

Section Rows.
Context (cfg : call_cfg) (strict : bool) (used : list (list Z)).
Notation inv := (inv cfg strict used).
Notation hole := (hole cfg strict used).

Lemma hole_remove t b i c k p l l0 : hole t b i c l → ct_parts c !! k = Some p → l0 = l ∨ l0 = note (Swept (pt_token p)) l →
  hole t (b - 1) i (call_remove_part c k) (put_call i (call_remove_part c k) (note (Revoke (pt_token p)) l0)).
Proof using Type.
  intros H E Hl0. pose proof (removed_parts c k p E) as HP. pose proof (remove_fields c k) as (F1 & F2 & F3 & F4 & F5 & F6).
  pose proof (ho_live _ _ _ _ _ _ _ _ H) as L. assert (L' : call_live (call_remove_part c k) = true) by (unfold call_live in *; by rewrite F1).
  apply (hole_change cfg strict used t b (b - 1) i c (call_remove_part c k) [pt_token p] l); try done.
  - destruct Hl0 as [->| ->]; split; try done; [exists [Revoke (pt_token p)]|exists [Swept (pt_token p); Revoke (pt_token p)]];
      (split; [|apply revoking_one || apply revoking_swept]); cbn; rewrite <- ?app_assoc; done.
  - by rewrite F5.
  - rewrite (attached_cons p _ c (call_remove_part c k) HP eq_refl). apply submseteq_inserts_l. done.
  - apply row_pre_remove with p; [apply H|done].
  - intros Hs. pose proof (row_toks _ _ _ _ _ _ (ba_tokens _ _ _ _ _ (ho_base _ _ _ _ _ _ _ _ H) Hs) (ho_at _ _ _ _ _ _ _ _ H) L) as N.
    unfold toks_of, if_live. rewrite L, L', HP in *. rewrite fmap_cons in *. apply list.NoDup_cons in N as [N1 N2].
    split_and!; [by apply submseteq_cons|intros tok [->|?%not_elem_of_nil]%elem_of_cons; [by left|done]|].
    intros tok x. rewrite !ents_iff by done. rewrite list_elem_of_singleton. split.
    + intros (q & Hq & Hc & Eq). split.
      * exists q. rewrite HP. split_and!; [by right|done|]. unfold relay_entry in *. by rewrite F2 in Eq.
      * unfold relay_entry in Eq. injection Eq as -> _. intros Heq. apply N1. rewrite <- Heq. by apply list_elem_of_fmap_2.
    + intros [(q & Hq & Hc & Eq) Hne]. exists q. rewrite HP in Hq. apply elem_of_cons in Hq as [->|Hq].
      * unfold relay_entry in Eq. by injection Eq as -> _.
      * split_and!; [done|done|]. unfold relay_entry in *. by rewrite F2.
Qed.

(** The connection of participant [k] went. *)
Definition detach (c : call_t) (k : nat) (p : call_part) (cid d : Z) : call_t :=
  (if ct_sharer c =? cid then c <| ct_sharer := 0 |> else c) <| ct_parts := <[k := p <| pt_conn := 0 |> <| pt_detached := d |>]> (ct_parts c) |>.
Lemma detach_parts c k p cid d : ct_parts c !! k = Some p →
  ct_parts (detach c k p cid d) ≡ₚ (p <| pt_conn := 0 |> <| pt_detached := d |>) :: delete k (ct_parts c).
Proof using Type.
  intros E. unfold detach. assert (ct_parts (_ <| ct_parts := <[k := p <| pt_conn := 0 |> <| pt_detached := d |>]> (ct_parts c) |>) =
    <[k := p <| pt_conn := 0 |> <| pt_detached := d |>]> (ct_parts c)) as -> by (by destruct (_ =? _)).
  pose proof (lookup_lt_Some _ _ _ E). rewrite (delete_Permutation _ k (p <| pt_conn := 0 |> <| pt_detached := d |>)) by (by apply list_lookup_insert_eq).
  f_equiv. rewrite !delete_take_drop, take_insert_ge, drop_insert_lt by lia. done.
Qed.

Lemma row_pre_detach next b c k p cid d : row_pre cfg next b c → ct_parts c !! k = Some p → pt_conn p = cid → d ≠ 0 → row_pre cfg next b (detach c k p cid d).
Proof using Type.
  intros [Rmax Rparts Rusers Rslots Rsh Rinv Rap Rim Rch Rst Rid Rep] E Hcid Hd.
  pose proof (delete_Permutation _ _ _ E) as HP. pose proof (detach_parts c k p cid d E) as HD.
  set (p' := p <| pt_conn := 0 |> <| pt_detached := d |>) in *. set (c' := detach c k p cid d) in *.
  assert (F : ct_channel c' = ct_channel c ∧ ct_id c' = ct_id c ∧ ct_starter c' = ct_starter c ∧ ct_started c' = ct_started c ∧
    ct_epoch c' = ct_epoch c ∧ ct_invited c' = ct_invited c) by (unfold c', detach; by destruct (_ =? _)).
  destruct F as (F1 & F2 & F3 & F4 & F5 & F6).
  pose proof (zlen_perm _ _ HP) as Hz. pose proof (zlen_perm _ _ HD) as Hz'. rewrite zlen_cons in Hz, Hz'.
  rewrite HP in Rparts, Rusers, Rslots. rewrite fmap_cons in Rusers, Rslots. apply list.Forall_cons in Rparts as [Rp Rparts].
  split; rewrite ?F1, ?F2, ?F3, ?F4, ?F5, ?F6; try done; try lia; try (rewrite HD, fmap_cons; done).
  - rewrite HD. apply list.Forall_cons. split; [|done]. destruct Rp as (H1 & H2 & H3 & H4 & H5 & _).
    exact (conj H1 (conj H2 (conj H3 (conj H4 (conj H5 (conj (fun _ => Hd) (fun _ => eq_refl))))))).
  - rewrite HD, fmap_cons. unfold c', detach. destruct (Z.eqb_spec (ct_sharer c) cid) as [|Hne]; [by left|]. cbn.
    destruct Rsh as [|Hin]; [by left|right]. rewrite HP, fmap_cons in Hin. apply elem_of_cons in Hin as [|Hin]; [congruence|by right].
  - intros u Hu. rewrite HD, fmap_cons. change (pt_user p') with (pt_user p). specialize (Rap u Hu). by rewrite HP, fmap_cons in Rap.
Qed.

Lemma u32_epoch b e : 0 <= e → e <= b → b + 1 < 2 ^ 32 → u32 (e + 1) = e + 1.
Proof using Type. intros. apply u32_id. unfold is_u32. lia. Qed.
Lemma hole_newer t b i c l c' : hole t b i c l → ct_id c' = ct_id c → ct_epoch c' = ct_epoch c + 1 → newer c' (lp_trace l).
Proof using Type.
  intros [B E L P _ _] Hid He x Hx Heq. pose proof (ro_old _ _ _ (ba_rosters _ _ _ _ _ B) x c Hx (list_elem_of_lookup_2 _ _ _ E) L).
  rewrite <- Hid in H. specialize (H Heq). lia.
Qed.

Definition bump_epoch (c : call_t) : call_t := c <| ct_epoch := u32 (ct_epoch c + 1) |>.
Lemma bump_of t b i c l : hole t b i c l → b + 1 < 2 ^ 32 → ct_epoch (bump_epoch c) = ct_epoch c + 1.
Proof using Type. intros H Hb. pose proof (rp_epoch _ _ _ _ (ho_pre _ _ _ _ _ _ _ _ H)). pose proof (zlen_nonneg (ct_parts c)). apply (u32_epoch b); lia. Qed.
Lemma row_pre_bump next b c : row_pre cfg next b c → b + 1 < 2 ^ 32 → row_pre cfg next (b + 1) (bump_epoch c).
Proof using Type.
  intros [] Hb. pose proof (zlen_nonneg (ct_parts c)). split; try done. cbn. rewrite (u32_epoch b) by lia. lia.
Qed.
Lemma hole_bump t b i c l : hole t b i c l → b + 1 < 2 ^ 32 → hole t (b + 1) i (bump_epoch c) (put_call i (bump_epoch c) l).
Proof using Type.
  intros H Hb. pose proof (bump_of _ _ _ _ _ H Hb) as He.
  apply (hole_change cfg strict used t b (b + 1) i c (bump_epoch c) [] l); try done.
  - split; try done. exists []. rewrite app_nil_r. split; [done|apply revoking_nil].
  - lia.
  - apply row_pre_bump; [apply H|done].
  - intros _. split_and!; [done|set_solver|]. intros tok x. rewrite !ents_iff by apply H. split; [|by intros [? _]].
    intros Hx. split; [exact Hx|]. by apply not_elem_of_nil.
Qed.

(** Everything but the conversation, the call, its epoch and its participants may change. *)
Record same_call (c c' : call_t) : Prop := {
  sc_channel : ct_channel c' = ct_channel c;
  sc_id : ct_id c' = ct_id c;
  sc_epoch : ct_epoch c' = ct_epoch c;
  sc_parts : ct_parts c' = ct_parts c }.
Lemma same_ents c c' : same_call c c' → ents_of c' = ents_of c ∧ toks_of c' = toks_of c.
Proof using Type. intros [F1 F2 F3 F4]. unfold ents_of, toks_of, if_live, call_live, relay_entry. by rewrite F1, F2, F4. Qed.
Lemma hole_tweak t b i c c' l : hole t b i c l → same_call c c' → row_pre cfg (lp_next_call l) b c' → hole t b i c' (put_call i c' l).
Proof using Type.
  intros H S P. pose proof (same_ents _ _ S) as [Ee Et]. destruct S as [F1 F2 F3 F4].
  apply (hole_change cfg strict used t b b i c c' [] l); try done.
  - split; try done. exists []. rewrite app_nil_r. split; [done|apply revoking_nil].
  - lia.
  - unfold attached. by rewrite F4.
  - intros _. rewrite Ee, Et. split_and!; [done|set_solver|]. intros tok x. split; [|by intros []]. intros Hx. split; [done|by apply not_elem_of_nil].
Qed.
(** A row that is only tweaked stays in the invariant. *)
Lemma inv_tweak t i c c' l : inv t l → lp_calls l !! i = Some c → call_live c = true → same_call c c' →
  (row_pre cfg (lp_next_call l) (2 * t) c → row_pre cfg (lp_next_call l) (2 * t) c') → inv t (put_call i c' l).
Proof using Type.
  intros H E L S P. destruct (open_row _ _ _ _ _ _ _ H E L) as [Ho Hn]. pose proof (hole_tweak _ _ _ _ c' _ Ho S (P (ho_pre _ _ _ _ _ _ _ _ Ho))) as Ho'.
  pose proof S as [F1 F2 F3 F4]. split; [apply Ho'| |].
  - unfold put_call. cbn. apply (forall_set _ _ _ _ c' E). split; [|apply Ho]. intros _. split; [by apply P, Ho|by rewrite F4].
  - intros Hs. unfold put_call. cbn. apply (forall_set _ _ _ _ c' E). split; [|by apply Ho]. intros _ cid. unfold attached, info, call_fill_parts.
    rewrite F2, F3, F4. pose proof (in_current _ _ _ _ _ H Hs) as C. rewrite Forall_forall in C. apply (C c); [by eapply list_elem_of_lookup_2|done].
Qed.
Lemma put_call_put i c c' l : put_call i c' (put_call i c l) = put_call i c' l.
Proof using Type. unfold put_call. destruct l. cbn. f_equal. apply list_insert_insert_eq. Qed.
End Rows.

(** ** Ending, leaving, losing a connection *)

Lemma revoke_all_does ps l : let l' := revoke_all ps l in
  lp_calls l' = lp_calls l ∧ lp_trace l' = lp_trace l ++ (Revoke <$> (pt_token <$> ps)) ∧ lp_next_call l' = lp_next_call l ∧
  lp_next_conn l' = lp_next_conn l ∧ lp_jobs l' = lp_jobs l ∧ lp_conns l' = lp_conns l.
Proof.
  unfold revoke_all. revert l. induction ps as [|p ps IH]; intros l; [cbn; by rewrite app_nil_r|]. cbn [foldl].
  destruct (IH (note (Revoke (pt_token p)) l)) as (-> & -> & -> & -> & -> & ->). split_and!; try done. cbn. by rewrite <- app_assoc.
Qed.
Lemma call_live_zero c : call_live (c <| ct_channel := 0 |> <| ct_members := [] |>) = false.
Proof. done. Qed.

Section Ops.
Context (cfg : call_cfg) (strict : bool) (used : list (list Z)) (Hcfg : cfg_ok cfg).
Notation inv := (inv cfg strict used).
Notation hole := (hole cfg strict used).

Lemma finish_ok e t b i c l : hole t b i c l → inv t (call_finish e i l).
Proof using Type.
  intros H. pose proof (ho_at _ _ _ _ _ _ _ _ H) as E. pose proof (ho_live _ _ _ _ _ _ _ _ H) as L. unfold call_finish. rewrite (call_at_lookup _ _ _ E).
  set (dead := c <| ct_channel := 0 |> <| ct_members := [] |>). set (l1 := revoke_all (ct_parts c) (put_call i dead l)).
  assert (I1 : inv t l1).
  { destruct (revoke_all_does (ct_parts c) (put_call i dead l)) as (H1 & H2 & H3 & H4 & H5 & H6).
    apply (hole_freed cfg strict used t b i c dead (pt_token <$> ct_parts c) l); try done.
    - split; try done. exists (Revoke <$> (pt_token <$> ct_parts c)). split; [done|apply revoking_all].
    - intros tok Htok. unfold toks_of, if_live. by rewrite L.
    - intros p Hp. by apply list_elem_of_fmap_2. }
  pose proof (call_send_state_quiet e c true l1) as Q. destruct (negb _ && _).
  - eapply inv_quiet; [exact I1|]. etransitivity; [exact Q|]. by apply note_quiet.
  - by eapply inv_quiet.
Qed.

Lemma gather_att_nonzero calls : 0 ∉ gather att_of calls.
Proof using Type.
  intros (c & _ & H)%elem_of_gather. unfold att_of, if_live in H. destruct (call_live c); [|by apply not_elem_of_nil in H].
  by apply list_elem_of_filter in H as [? _].
Qed.
Lemma hole_avoid t b i c l cid : hole t b i c l → cid ∈ pt_conn <$> ct_parts c → cid ∉ gather att_of (delete i (lp_calls l)).
Proof using Type.
  intros H Hin. destruct (decide (cid = 0)) as [->|Hne]; [apply gather_att_nonzero|].
  pose proof (ba_att _ _ _ _ _ (ho_base _ _ _ _ _ _ _ _ H)) as N. rewrite (gather_split _ _ _ _ (ho_at _ _ _ _ _ _ _ _ H)) in N.
  apply NoDup_app in N as (_ & N & _). apply N. unfold att_of, if_live. rewrite (ho_live _ _ _ _ _ _ _ _ H). by apply list_elem_of_filter.
Qed.
Lemma hole_attached t b i c l d : hole t b i c l → d ∈ attached c → d ∈ pt_conn <$> ct_parts c ∧ d ≠ 0 ∧ is_Some (lp_conns l !! d).
Proof using Type.
  intros H Hd. pose proof Hd as [? ?]%list_elem_of_filter. split_and!; [done|done|]. apply (ba_open _ _ _ _ _ (ho_base _ _ _ _ _ _ _ _ H)).
  rewrite (gather_split _ _ _ _ (ho_at _ _ _ _ _ _ _ _ H)). apply elem_of_app. left. unfold att_of, if_live. by rewrite (ho_live _ _ _ _ _ _ _ _ H).
Qed.
Lemma hole_bounds t b i c l : hole t b i c l → 0 <= t < 2 ^ 31 - 1 ∧ lp_next_call l <= 2 ^ 63 + 2 ^ 31.
Proof using Type. intros H. pose proof (ba_next _ _ _ _ _ (ho_base _ _ _ _ _ _ _ _ H)). lia. Qed.

(** Everyone in the call gets the roster, then whatever else is sent. *)
Lemma hole_roster e t t' b i c also l l' : hole t b i c l → ct_parts c ≠ [] → newer c (lp_trace l) →
  t <= t' < 2 ^ 31 - 1 → b <= 2 * t' → (also ≠ 0 → also ∉ gather att_of (delete i (lp_calls l))) →
  quietly (call_send_roster e c 0 also l) l' → inv t' l'.
Proof using Hcfg.
  intros H Hn Hnew Ht Hb Hal Q. destruct (hole_bounds _ _ _ _ _ H) as [_ Hnext].
  apply (hole_told cfg strict used t t' b i c l); try done. rewrite <- (app_nil_r (attached c)).
  eapply told_trans; [|by apply quietly_told].
  eapply call_send_roster_told; [done|apply H|done|lia| |done|].
  - intros cid Hc _. by apply (hole_avoid _ _ _ _ _ _ H).
  - intros d Hd. by apply (hole_attached _ _ _ _ _ _ H).
Qed.

Lemma drop_tell_ok e t i c k p tell l l0 : inv t l → lp_calls l !! i = Some c → call_live c = true → ct_parts c !! k = Some p →
  l0 = l ∨ l0 = note (Swept (pt_token p)) l → tell = 0 ∨ tell = pt_conn p → inv t (call_drop_tell e i k tell l0).
Proof using Hcfg.
  intros I E L Ek Hl0 Htell. destruct (open_row _ _ _ _ _ _ _ I E L) as [H _]. destruct (hole_bounds _ _ _ _ _ H) as [Ht _].
  unfold call_drop_tell. assert (call_at i l0 = c) as -> by (destruct Hl0 as [->| ->]; by apply call_at_lookup).
  rewrite (part_at_lookup _ _ _ Ek). pose proof (hole_remove _ _ _ _ _ _ _ _ _ _ l0 H Ek Hl0) as H1.
  set (c1 := call_remove_part c k) in *. set (l1 := put_call i c1 (note (Revoke (pt_token p)) l0)) in *.
  destruct (Nat.eqb_spec (length (ct_parts c1)) 0) as [Hz|Hz]; [by eapply finish_ok|].
  pose proof (hole_bump _ _ _ _ _ _ _ _ H1 ltac:(lia)) as H2. change (c1 <| ct_epoch := u32 (ct_epoch c1 + 1) |>) with (bump_epoch c1).
  eapply (hole_roster e t t _ i _ tell _ _ H2); [intros Hnil; apply Hz; change (ct_parts (bump_epoch c1)) with (ct_parts c1) in Hnil; by rewrite Hnil| | | | |].
  - apply (hole_newer _ _ _ _ _ _ _ _ (bump_epoch c1) H1); [done|eapply bump_of; [exact H1|lia]].
  - lia.
  - lia.
  - intros Hne. destruct Htell as [| ->]; [done|].
    assert (delete i (lp_calls (put_call i (bump_epoch c1) l1)) = delete i (lp_calls l)) as ->.
    { unfold put_call, l1. cbn. rewrite delete_set. cbn. rewrite delete_set. by destruct Hl0 as [->| ->]. }
    apply (hole_avoid _ _ _ _ _ _ H). apply list_elem_of_fmap. exists p. split; [done|]. by eapply list_elem_of_lookup_2.
  - destruct (call_find _ _); [apply call_send_state_quiet|done].
Qed.

(** *** A connection closes *)

Record conn_gone (cid : Z) (l l' : loop) : Prop := {
  cg_calls : lp_calls l' = lp_calls l;
  cg_trace : lp_trace l' = lp_trace l;
  cg_next : lp_next_call l' = lp_next_call l;
  cg_nconn : lp_next_conn l' = lp_next_conn l;
  cg_jobs : lp_jobs l' = lp_jobs l;
  cg_conns : lp_conns l' = delete cid (lp_conns l) }.
Lemma index_remove_gone cid l : conn_gone cid l (index_remove cid l).
Proof using Type. unfold index_remove, user_unlink. by destruct (find_by_id cid l). Qed.
Lemma gone_change cid i c x l l0 : conn_gone cid l l0 → conn_gone cid (put_call i c (note x l)) (put_call i c (note x l0)).
Proof using Type.
  intros [E1 E2 E3 E4 E5 E6]. split; unfold put_call, note; cbn [lp_calls lp_trace lp_next_call lp_next_conn lp_jobs lp_conns set_field]; congruence.
Qed.
Lemma base_gone t cid l l' : base cfg strict used t l → conn_gone cid l l' → cid ∉ gather att_of (lp_calls l) → base cfg strict used t l'.
Proof using Type.
  intros [B1 B2 B3 B4 B5 B6 B7 B8 B9] [E1 E2 E3 E4 E5 E6] Hn. split; rewrite ?E1, ?E2, ?E3, ?E4, ?E5, ?E6; try done.
  - intros d Hd. rewrite lookup_delete_ne; [by apply B4|]. by intros ->.
  - intros d c [_ Hd]%lookup_delete_Some. by apply (B5 d c).
Qed.
Lemma inv_gone t cid l l' : inv t l → conn_gone cid l l' → cid ∉ gather att_of (lp_calls l) → inv t l'.
Proof using Type.
  intros [B R C] G Hn. split; [by apply (base_gone t cid l)|..]; destruct G as [E1 E2 E3 _ _ _]; rewrite ?E1, ?E2, ?E3; done.
Qed.
Lemma hole_gone t b i c cid l l' : hole t b i c l → conn_gone cid l l' → cid ∉ gather att_of (lp_calls l) → hole t b i c l'.
Proof using Type.
  intros [B E L P R C] G Hn. pose proof (base_gone t cid l l' B G Hn). destruct G as [E1 E2 E3 _ _ _]. split; rewrite ?E1, ?E2, ?E3; done.
Qed.
Lemma detach_same c k p cid d : let c' := detach c k p cid d in
  ct_channel c' = ct_channel c ∧ ct_id c' = ct_id c ∧ ct_epoch c' = ct_epoch c.
Proof using Type. unfold detach. by destruct (_ =? _). Qed.
Lemma hole_detach t b i c k p cid d l : hole t b i c l → ct_parts c !! k = Some p → pt_conn p = cid → cid ≠ 0 → d ≠ 0 →
  hole t b i (detach c k p cid d) (put_call i (detach c k p cid d) (note (Revoke (pt_token p)) l)) ∧
  cid ∉ gather att_of (<[i := detach c k p cid d]> (lp_calls l)).
Proof using Type.
  intros H E Hcid Hne Hd. pose proof (detach_same c k p cid d) as (F1 & F2 & F3). pose proof (detach_parts c k p cid d E) as HD.
  pose proof (delete_Permutation _ _ _ E) as HP. pose proof (ho_live _ _ _ _ _ _ _ _ H) as L. pose proof (ho_at _ _ _ _ _ _ _ _ H) as Ei.
  set (c' := detach c k p cid d) in *. assert (L' : call_live c' = true) by (unfold call_live in *; by rewrite F1).
  remember (delete k (ct_parts c)) as ps eqn:Eps. clear Eps.
  assert (Hatt : attached c ≡ₚ cid :: attached c').
  { unfold attached. rewrite HP, HD, !fmap_cons, !filter_cons. cbn [pt_conn set_field]. rewrite Hcid, decide_True by done. by rewrite decide_False by (intros Hx; by apply Hx). }
  split.
  - apply (hole_change cfg strict used t b b i c c' [pt_token p] l); try done.
    + split; try done. exists [Revoke (pt_token p)]. split; [done|apply revoking_one].
    + lia.
    + rewrite Hatt. by apply submseteq_cons.
    + apply row_pre_detach; try done. apply H.
    + intros Hs. pose proof (row_toks _ _ _ _ _ _ (ba_tokens _ _ _ _ _ (ho_base _ _ _ _ _ _ _ _ H) Hs) Ei L) as N.
      assert (Ht : pt_token <$> ct_parts c' ≡ₚ pt_token <$> ct_parts c) by (by rewrite HD, HP, !fmap_cons).
      split_and!; [unfold toks_of, if_live; by rewrite L, L', Ht|unfold toks_of, if_live; rewrite L, HP, fmap_cons; intros tok [->|?%not_elem_of_nil]%elem_of_cons; [by left|done]|].
      rewrite HP, fmap_cons in N. apply list.NoDup_cons in N as [N1 _].
      intros tok x. rewrite !ents_iff, list_elem_of_singleton by done. split.
      * intros (q & Hq & Hc & Eq). rewrite HD in Hq. apply elem_of_cons in Hq as [->|Hq]; [done|]. split.
        -- exists q. rewrite HP. split_and!; [by right|done|]. unfold relay_entry in *. by rewrite F2 in Eq.
        -- unfold relay_entry in Eq. injection Eq as -> _. intros Heq. apply N1. rewrite <- Heq. by apply list_elem_of_fmap_2.
      * intros [(q & Hq & Hc & Eq) Hn]. exists q. rewrite HP in Hq. apply elem_of_cons in Hq as [->|Hq].
        -- unfold relay_entry in Eq. by injection Eq as -> _.
        -- rewrite HD. split_and!; [by right|done|]. unfold relay_entry in *. by rewrite F2.
  - pose proof (ba_att _ _ _ _ _ (ho_base _ _ _ _ _ _ _ _ H)) as N. rewrite (gather_split _ _ _ _ Ei) in N. rewrite (gather_set _ _ _ _ c' Ei).
    unfold att_of at 1. unfold att_of in N at 1. unfold if_live in *. rewrite L, Hatt in N. rewrite L'. cbn [app] in N. by apply list.NoDup_cons in N as [N _].
Qed.

Lemma call_of_conn_calls cid l l' : lp_calls l' = lp_calls l → call_of_conn cid l' = call_of_conn cid l.
Proof using Type. intros E. unfold call_of_conn, call_at. by rewrite E. Qed.
Lemma att_of_conn cid l : cid ≠ 0 → call_of_conn cid l = None → cid ∉ gather att_of (lp_calls l).
Proof using Type.
  intros Hne E (c & Hc & Hin)%elem_of_gather. unfold att_of, if_live in Hin. destruct (call_live c) eqn:L; [|by apply not_elem_of_nil in Hin].
  apply list_elem_of_filter in Hin as [_ Hin]. by apply (call_of_conn_None cid l c).
Qed.
Lemma conn_close_ok e t cid l : inv t l → t + 1 < 2 ^ 31 - 1 → inv (t + 1) (conn_close e cid l).
Proof using Hcfg.
  intros I Ht. pose proof (ba_next _ _ _ _ _ (in_base _ _ _ _ _ I)) as (_ & _ & Ht0). unfold conn_close, find_by_id.
  destruct (lp_conns l !! cid) as [cc|] eqn:Ec; [|eapply inv_mono; [exact I|lia]].
  destruct (ba_conns _ _ _ _ _ (in_base _ _ _ _ _ I) _ _ Ec) as [Hcid _]. pose proof (index_remove_gone cid l) as G.
  set (l0 := index_remove cid l) in *. unfold call_conn_closed. rewrite (call_of_conn_calls cid l l0) by apply G.
  destruct (call_of_conn cid l) as [[i k]|] eqn:Eo.
  2: { apply (inv_mono cfg strict used t); [|lia]. apply (inv_gone t cid l); [done|done|]. apply att_of_conn; [lia|done]. }
  apply call_of_conn_spec in Eo as (c & p & E & L & Ek & Hp). destruct (open_row _ _ _ _ _ _ _ I E L) as [H Hn].
  assert (call_at i l0 = c) as -> by (apply call_at_lookup; by rewrite (cg_calls _ _ _ G)). rewrite (part_at_lookup _ _ _ Ek).
  set (d := if e_now e =? 0 then 1 else e_now e). assert (Hd : d ≠ 0) by (unfold d; destruct (Z.eqb_spec (e_now e) 0); lia).
  destruct (hole_detach _ _ _ _ _ _ _ d _ H Ek Hp ltac:(lia) Hd) as [H1 Hatt].
  set (c1 := detach c k p cid d) in *.
  match goal with |- context [put_call i ?x (note (Revoke (pt_token p)) l0)] => assert (x = bump_epoch c1) as -> end.
  { unfold bump_epoch, c1, detach. by destruct (ct_sharer c =? cid). }
  pose proof (hole_bump _ _ _ _ _ _ _ _ H1 ltac:(lia)) as H2. rewrite put_call_put in H2.
  assert (H3 : hole t (2 * t + 1) i (bump_epoch c1) (put_call i (bump_epoch c1) (note (Revoke (pt_token p)) l0))).
  { apply (hole_gone _ _ _ _ cid _ _ H2); [by apply gone_change|].
    cbn. pose proof (gather_set att_of _ _ _ (bump_epoch c1) E) as Hg. pose proof (gather_set att_of _ _ _ c1 E) as Hg'.
    rewrite Hg. rewrite Hg' in Hatt. exact Hatt. }
  assert (Hnew : newer (bump_epoch c1) (lp_trace (put_call i (bump_epoch c1) (note (Revoke (pt_token p)) l0)))).
  { pose proof (hole_newer _ _ _ _ _ _ _ _ (bump_epoch c1) H1 eq_refl (bump_of _ _ _ _ _ _ _ _ H1 ltac:(lia))) as Hnew.
    destruct G as [_ E2 _ _ _ _]. unfold put_call, note in *. cbn [lp_trace set_field] in *. by rewrite E2. }
  eapply (hole_roster e t (t + 1) _ i _ 0 _ _ H3); [|exact Hnew|lia|lia|done|].
  - intros Hnil. pose proof (detach_parts c k p cid d Ek) as HD. fold c1 in HD. change (ct_parts (bump_epoch c1)) with (ct_parts c1) in Hnil.
    rewrite Hnil in HD. by apply Permutation_nil_cons in HD.
  - destruct (ct_sharer c =? cid); [apply call_send_state_quiet|done].
Qed.
End Ops.
