(* ===== verification/CallsRun.v ===== *)
(** * The calls over a run of the loop

    Joining and the other events keep the invariant, so it holds of every
    reachable state; and what the events do to who sits where. *)
From stdpp Require Import base tactics list numbers gmap strings.
From S2P Require Import Prelude.
From S2P Require Import Wire.
From S2P Require Import WireLogic.
From S2P Require Import WireFrame.
From S2P Require Import ProtoTypes.
From S2P Require Import ProtoCall.
From S2P Require Import ProtoUsers.
From S2P Require Import Demolimits.
From S2P Require Import Outq.
From S2P Require Import Calls.
From S2P Require Import CallsInv.
From S2P Require Import CallsStep.
Local Open Scope Z_scope.
Local Open Scope oc_scope.

(** ** What an operation leaves of the connections and of the other rows *)

Record keeps (l l' : loop) : Prop := {
  kp_nconn : lp_next_conn l' = lp_next_conn l;
  kp_jobs : lp_jobs l' = lp_jobs l;
  kp_conns : core <$> lp_conns l' = core <$> lp_conns l }.
#[export] Instance keeps_preorder : PreOrder keeps.
Proof. split; [done|]. intros l1 l2 l3 [???] [???]. split; congruence. Qed.
Lemma eqv_keeps l l' : eqv l l' → keeps l l'.
Proof. intros [? ? ? ? ?]. by split. Qed.
Lemma quiet_keeps l l' : quietly l l' → keeps l l'.
Proof. intros [? _]. by apply eqv_keeps. Qed.
Lemma keeps_put i c l : keeps l (put_call i c l).
Proof. done. Qed.
Lemma keeps_note x l : keeps l (note x l).
Proof. done. Qed.
Lemma keeps_conn l l' cid : keeps l l' → core <$> lp_conns l' !! cid = core <$> lp_conns l !! cid.
Proof. intros H. by rewrite <- !lookup_fmap, (kp_conns _ _ H). Qed.

Lemma roster_eqv e c except also l : eqv l (call_send_roster e c except also l).
Proof.
  unfold call_send_roster. destruct (encode_in 2048 _) as [buf|]; [|done].
  match goal with |- eqv l (foldl _ l ?xs) => generalize xs end. intros cids. revert l. induction cids as [|cid cids IH]; intros l; [done|].
  cbn [foldl]. transitivity (call_send e buf (roster_frame c) cid l); [apply call_send_does|apply IH].
Qed.
Lemma revoke_all_keeps ps l : keeps l (revoke_all ps l).
Proof. destruct (revoke_all_does ps l) as (? & ? & ? & ? & ? & E). split; try done. by rewrite E. Qed.

(** A call over, or without its [k]-th participant. *)
Definition over (c : call_t) : call_t := c <| ct_channel := 0 |> <| ct_members := [] |>.
Lemma finish_does e i l : keeps l (call_finish e i l) ∧ lp_calls (call_finish e i l) = <[i := over (call_at i l)]> (lp_calls l).
Proof.
  unfold call_finish, over. set (c := call_at i l). set (dead := c <| ct_channel := 0 |> <| ct_members := [] |>).
  set (l1 := revoke_all (ct_parts c) (put_call i dead l)).
  assert (K : keeps l l1) by (transitivity (put_call i dead l); [done|apply revoke_all_keeps]).
  assert (E : lp_calls l1 = <[i := dead]> (lp_calls l)) by (unfold l1; destruct (revoke_all_does (ct_parts c) (put_call i dead l)) as (-> & _); done).
  pose proof (call_send_state_quiet e c true l1) as Q. pose proof (ev_calls _ _ (proj1 Q)) as Eq.
  assert (K2 : keeps l (call_send_state e c true l1)) by (transitivity l1; [done|by apply quiet_keeps]).
  destruct (negb _ && _); (split; [|transitivity (lp_calls (call_send_state e c true l1)); [done|by rewrite Eq]]); [|done].
  transitivity (call_send_state e c true l1); [done|apply keeps_note].
Qed.
Lemma drop_does e i k tell l : ∃ x, keeps l (call_drop_tell e i k tell l) ∧ lp_calls (call_drop_tell e i k tell l) = <[i := x]> (lp_calls l) ∧
  (call_live x = false ∨ x = bump_epoch (call_remove_part (call_at i l) k)).
Proof.
  unfold call_drop_tell. set (c1 := call_remove_part (call_at i l) k). set (l1 := put_call i c1 (note (Revoke (pt_token (part_at (call_at i l) k))) l)).
  destruct (Nat.eqb_spec (length (ct_parts c1)) 0) as [Hz|Hz].
  - destruct (finish_does e i l1) as [K E]. exists (over (call_at i l1)). split_and!; [transitivity l1; [done|exact K]| |by left].
    rewrite E. unfold l1, put_call. cbn. by rewrite list_insert_insert_eq.
  - change (c1 <| ct_epoch := u32 (ct_epoch c1 + 1) |>) with (bump_epoch c1). set (l2 := put_call i (bump_epoch c1) l1).
    pose proof (roster_eqv e (bump_epoch c1) 0 tell l2) as V. exists (bump_epoch c1).
    assert (E2 : lp_calls l2 = <[i := bump_epoch c1]> (lp_calls l)) by (unfold l2, l1, put_call; cbn; apply list_insert_insert_eq).
    assert (K : keeps l l2) by done. destruct (call_find _ _) as [j|].
    + pose proof (call_send_state_quiet e (call_at j (call_send_roster e (bump_epoch c1) 0 tell l2)) false (call_send_roster e (bump_epoch c1) 0 tell l2)) as Q.
      split_and!; [transitivity l2; [done|]; transitivity (call_send_roster e (bump_epoch c1) 0 tell l2); [by apply eqv_keeps|by apply quiet_keeps]| |by right].
      rewrite (ev_calls _ _ (proj1 Q)), (ev_calls _ _ V). done.
    + split_and!; [transitivity l2; [done|by apply eqv_keeps]| |by right]. by rewrite (ev_calls _ _ V).
Qed.

(** ** Ticks, sweeps and the frames that do not join *)

Section Events.
Context (cfg : call_cfg) (strict : bool) (used : list (list Z)) (Hcfg : cfg_ok cfg).
Notation inv := (inv cfg strict used).
Notation hole := (hole cfg strict used).

Lemma drop_ok e t i c k p l : inv t l → lp_calls l !! i = Some c → call_live c = true → ct_parts c !! k = Some p → inv t (call_drop e i k l).
Proof using Hcfg. intros I E L Ek. apply (drop_tell_ok cfg strict used Hcfg e t i c k p 0 l l); auto. Qed.
Lemma finish_inv e t i c l : inv t l → lp_calls l !! i = Some c → call_live c = true → inv t (call_finish e i l).
Proof using Type. intros I E L. destruct (open_row _ _ _ _ _ _ _ I E L) as [H _]. by eapply finish_ok. Qed.
Lemma live_row i l : call_live (call_at i l) = true → lp_calls l !! i = Some (call_at i l).
Proof using Type. unfold call_at. rewrite nth_lookup. by destruct (lp_calls l !! i). Qed.
Lemma detached_part c k : pt_detached (part_at c k) ≠ 0 → ct_parts c !! k = Some (part_at c k).
Proof using Type. unfold part_at. rewrite nth_lookup. by destruct (ct_parts c !! k). Qed.

Lemma expire_seats_ok e t i k : ∀ l, inv t l → inv t (expire_seats e cfg i k l).
Proof using Hcfg.
  induction k as [|k IH]; intros l I; [done|]. cbn [expire_seats]. destruct (call_live (call_at i l)) eqn:L; [|done].
  apply IH. destruct (Z.eqb_spec (pt_detached (part_at (call_at i l) k)) 0) as [|Hd]; [done|]. destruct (cfg_grace cfg <=? _); [|done].
  cbn [negb andb]. apply (drop_ok e t i (call_at i l) k (part_at (call_at i l) k)); [done|by apply live_row|done|by apply detached_part].
Qed.
Lemma expire_ok e t l : inv t l → inv t (call_expire_detached e cfg l).
Proof using Hcfg.
  unfold call_expire_detached. generalize (seq 0 OC_MAX_CALLS). intros rows. revert l. induction rows as [|i rows IH]; intros l I; [done|].
  cbn [foldl]. apply IH. unfold expire_call. destruct (bool_decide _ && call_live (call_at i l) && _ && _) eqn:E; [|by apply expire_seats_ok].
  rewrite !andb_true_iff in E. destruct E as [[[_ L] _] _]. apply (finish_inv e t i (call_at i l)); [done|by apply live_row|done].
Qed.

Lemma swept_ok t tok l : inv t l → (∀ c p, c ∈ lp_calls l → call_live c = true → p ∈ ct_parts c → pt_token p ≠ tok) → inv t (note (Swept tok) l).
Proof using Type.
  intros [B R C] Hno. split; [| |].
  - destruct B as [B1 B2 B3 B4 B5 B6 B7 B8 B9]. split; try done.
    + destruct B8 as [R1 R2 R3 R4]. assert (Er : rosters (lp_trace (note (Swept tok) l)) = rosters (lp_trace l)).
      { unfold note. cbn [lp_trace set_field]. by rewrite rosters_app, app_nil_r. }
      split; rewrite Er; done.
    + intros Hs. destruct (B9 Hs) as (N & U & V). split_and!; [done|done|]. intros tok' x. unfold note. cbn [lp_trace lp_calls set_field].
      rewrite relay_view_app. cbn [foldl relay_apply]. rewrite <- V. destruct (decide (tok = tok')) as [<-|Hne]; [|by rewrite lookup_delete_ne].
      rewrite lookup_delete_eq. split; [done|]. intros Hx. apply V, elem_of_gather in Hx as (c & Hc & Hx). exfalso.
      destruct (call_live c) eqn:L; [|unfold ents_of, if_live in Hx; rewrite L in Hx; by apply not_elem_of_nil in Hx].
      apply (ents_iff _ _ _ L) in Hx as (p & Hp & _ & [= -> ->]). by apply (Hno c p).
  - done.
  - intros Hs. eapply Forall_impl; [by apply C|]. intros c Hc L cid Hcid. unfold note. cbn [lp_trace set_field]. rewrite view_silent; [by apply Hc|].
    by intros a ?%not_elem_of_nil.
Qed.
Lemma drop_token_ok e t tok l : inv t l → inv t (call_drop_token e tok (note (Swept tok) l)).
Proof using Hcfg.
  intros I. remember (note (Swept tok) l) as l0 eqn:El0. assert (Ec : lp_calls l0 = lp_calls l) by (by rewrite El0). unfold call_drop_token. rewrite Ec.
  match goal with |- context [find_index ?f (lp_calls l)] => destruct (find_index f (lp_calls l)) as [i|] eqn:Ei end.
  - apply find_index_Some in Ei as (c & E & Hc). rewrite andb_true_iff in Hc. destruct Hc as [L Hc]. apply bool_decide_eq_true in Hc as [k Ek].
    assert (call_at i l0 = c) as -> by (apply call_at_lookup; by rewrite Ec). rewrite Ek.
    apply find_index_Some in Ek as (p & Ep & Hp). apply bool_decide_eq_true in Hp. rewrite (part_at_lookup _ _ _ Ep).
    apply (drop_tell_ok cfg strict used Hcfg e t i c k p (pt_conn p) l); auto. right. by rewrite Hp, El0.
  - rewrite El0. apply swept_ok; [done|]. intros c p Hc L Hp Heq. pose proof (find_index_None _ _ c Ei Hc) as Hf. cbn in Hf. rewrite L in Hf. cbn [andb] in Hf.
    apply bool_decide_eq_false in Hf. apply Hf. apply (find_index_is_Some _ _ p Hp). by apply bool_decide_eq_true.
Qed.

(** *** Tweaks *)

Lemma row_pre_uninvite next b c u : row_pre cfg next b c → row_pre cfg next b (call_uninvite c u).
Proof using Type.
  unfold call_uninvite. destruct (call_invited c u) as [k|] eqn:E; [|done]. apply find_index_Some in E as (v & Ev & _).
  pose proof (swap_out_split _ _ _ Ev) as HP. intros [Rmax Rparts Rusers Rslots Rsh Rinv Rap Rim Rch Rst Rid Rep].
  pose proof (zlen_perm _ _ HP) as Hz. rewrite zlen_cons in Hz. rewrite HP in Rinv. apply list.NoDup_cons in Rinv as [_ Rinv].
  split; cbn; try done; [|lia]. intros w Hw. apply Rap. rewrite HP. by right.
Qed.
Lemma uninvite_same c u : same_call c (call_uninvite c u).
Proof using Type. unfold call_uninvite. by destruct (call_invited c u). Qed.
Lemma share_pre next b c s : row_pre cfg next b c → s = 0 ∨ s ∈ pt_conn <$> ct_parts c → row_pre cfg next b (c <| ct_sharer := s |>).
Proof using Type. intros [Rmax Rparts Rusers Rslots Rsh Rinv Rap Rim Rch Rst Rid Rep] Hs. by split. Qed.

Lemma pick_invites_ok c uids : ∀ added, NoDup added → (∀ u, u ∈ added → u ∉ pt_user <$> ct_parts c ∧ u ∉ ct_invited c) →
  NoDup (pick_invites c uids added) ∧ ∀ u, u ∈ pick_invites c uids added → u ∉ pt_user <$> ct_parts c ∧ u ∉ ct_invited c.
Proof using Type.
  induction uids as [|u uids IH]; intros added Hn Ha; cbn [pick_invites]; [done|]. destruct (_ <=? _); [done|].
  destruct (bool_decide (is_Some (call_part_of_user c u))) eqn:Ep; [by apply IH|]. destruct (bool_decide (is_Some (call_invited c u))) eqn:Ei; [by apply IH|].
  cbn [orb]. destruct (existsb (fun x => x =? u) added) eqn:Ex; [by apply IH|]. apply bool_decide_eq_false in Ep, Ei. apply IH.
  - apply NoDup_app. split_and!; [done| |apply NoDup_singleton]. intros x Hx Hu. apply list_elem_of_singleton in Hu as ->.
    rewrite <- not_true_iff_false, existsb_exists in Ex. apply Ex. exists u. split; [by apply list_elem_of_In|apply Z.eqb_refl].
  - intros v [Hv|Hv]%elem_of_app; [by apply Ha|]. apply list_elem_of_singleton in Hv as ->. split; intros Hin.
    + apply list_elem_of_fmap in Hin as (p & -> & Hp). apply Ep. apply (find_index_is_Some _ _ p Hp). apply Z.eqb_refl.
    + apply Ei. apply (find_index_is_Some _ _ u Hin). apply Z.eqb_refl.
Qed.
Lemma add_invites_ok next b c uids added c' : row_pre cfg next b c → call_add_invites cfg c uids = Some (added, c') →
  same_call c c' ∧ row_pre cfg next b c'.
Proof using Type.
  intros P. unfold call_add_invites. destruct (Z.ltb_spec (cfg_call_max cfg) (zlen (ct_parts c) + zlen (ct_invited c) + zlen (pick_invites c uids []))) as [|Hle]; [done|].
  intros [= <- <-]. destruct (pick_invites_ok c uids [] (NoDup_nil_2) ltac:(by intros ? ?%not_elem_of_nil)) as [N A].
  split; [done|]. pose proof (zlen_nonneg (ct_parts c)). destruct P as [Rmax Rparts Rusers Rslots Rsh Rinv Rap Rim Rch Rst Rid Rep]. split; cbn; try done.
  - apply NoDup_app. split_and!; [done| |done]. intros u Hu Hin. by destruct (A u Hin).
  - intros u [Hu|Hu]%elem_of_app; [by apply Rap|by apply A].
  - rewrite zlen_app. lia.
Qed.
Lemma start_invites_ok next b c uids added c' : row_pre cfg next b c → start_invites cfg c uids = (added, c') → same_call c c' ∧ row_pre cfg next b c'.
Proof using Type.
  intros P. unfold start_invites. destruct (nonempty uids); [|by intros [= <- <-]].
  destruct (call_add_invites cfg c uids) as [[a1 c1]|] eqn:E; [intros [= <- <-]; by eapply add_invites_ok|].
  match goal with |- context [call_add_invites cfg c ?x] => destruct (call_add_invites cfg c x) as [[a1 c1]|] eqn:E2 end; cbn; intros [= <- <-];
    [by eapply add_invites_ok|by split].
Qed.
Lemma members_pre next b c m : row_pre cfg next b c → row_pre cfg next b (call_take_members c m).
Proof using Type. by intros []. Qed.
End Events.

(** ** Joining *)

Definition used_after (e : call_env) (used : list (list Z)) : list (list Z) :=
  match e_rand e with Some r => r :: used | None => used end.
Lemma used_grows e used r : r ∈ used → r ∈ used_after e used.
Proof. unfold used_after. destruct (e_rand e); [by right|done]. Qed.
Lemma inv_used cfg strict used used' t l : (∀ r, r ∈ used → r ∈ used') → inv cfg strict used t l → inv cfg strict used' t l.
Proof.
  intros Hu [[B1 B2 B3 B4 B5 B6 B7 B8 B9] R C]. split; [|done|done]. split; try done. intros Hs. destruct (B9 Hs) as (N & U & V).
  split_and!; [done| |done]. intros tok Htok. destruct (U tok Htok) as (r & ? & ?). eauto.
Qed.

Definition with_part (c : call_t) (p : call_part) : call_t := c <| ct_parts := ct_parts c ++ [p] |> <| ct_epoch := u32 (ct_epoch c + 1) |>.
Lemma uninvited c u : NoDup (ct_invited c) → u ∉ ct_invited (call_uninvite c u) ∧ (∀ v, v ∈ ct_invited (call_uninvite c u) → v ∈ ct_invited c) ∧
  NoDup (ct_invited (call_uninvite c u)) ∧ zlen (ct_invited (call_uninvite c u)) <= zlen (ct_invited c).
Proof.
  intros N. unfold call_uninvite. destruct (call_invited c u) as [k|] eqn:E.
  - apply find_index_Some in E as (v & Ev & Hv). apply Z.eqb_eq in Hv as ->. pose proof (swap_out_split _ _ _ Ev) as HP.
    pose proof (zlen_perm _ _ HP) as Hz. rewrite zlen_cons in Hz. rewrite HP in N. apply list.NoDup_cons in N as [N1 N2]. cbn.
    split_and!; [done| |done|lia]. intros w Hw. rewrite HP. by right.
  - split_and!; [|done|done|lia]. intros Hin. by pose proof (find_index_None _ _ _ E Hin) as ?%Z.eqb_neq.
Qed.
Lemma row_pre_enter cfg next b c p : row_pre cfg next b c → part_ok cfg p → zlen (ct_parts c) < cfg_call_max cfg →
  pt_user p ∉ pt_user <$> ct_parts c → pt_slot p ∉ pt_slot <$> ct_parts c → b + 1 < 2 ^ 32 →
  row_pre cfg next (b + 2) (call_uninvite (with_part c p) (pt_user p)).
Proof.
  intros [Rmax Rparts Rusers Rslots Rsh Rinv Rap Rim Rch Rst Rid Rep] Hp Hm Hu Hs Hb.
  destruct (uninvited (with_part c p) (pt_user p) Rinv) as (U1 & U2 & U3 & U4). set (c' := call_uninvite (with_part c p) (pt_user p)) in *.
  assert (F : ct_parts c' = ct_parts c ++ [p] ∧ ct_sharer c' = ct_sharer c ∧ ct_channel c' = ct_channel c ∧ ct_starter c' = ct_starter c ∧
    ct_started c' = ct_started c ∧ ct_id c' = ct_id c ∧ ct_epoch c' = u32 (ct_epoch c + 1)) by (unfold c', call_uninvite; by destruct (call_invited _ _)).
  destruct F as (F1 & F2 & F3 & F4 & F5 & F6 & F7). pose proof (zlen_nonneg (ct_parts c)).
  split; rewrite ?F1, ?F2, ?F3, ?F4, ?F5, ?F6, ?F7, ?fmap_app, ?zlen_app, ?zlen_cons; change (zlen (@nil call_part)) with 0; try done; try lia.
  - apply Forall_app. split; [done|]. by apply list.Forall_cons.
  - apply NoDup_app. split_and!; [done| |apply NoDup_singleton]. intros x Hx ->%list_elem_of_singleton. done.
  - apply NoDup_app. split_and!; [done| |apply NoDup_singleton]. intros x Hx ->%list_elem_of_singleton. done.
  - destruct Rsh as [|Hin]; [by left|right]. apply elem_of_app. by left.
  - intros v Hv. rewrite not_elem_of_app. split; [apply Rap; by apply U2|]. intros ->%list_elem_of_singleton. by apply U1.
  - etransitivity; [exact U4|]. done.
  - rewrite (u32_epoch b) by lia. lia.
Qed.

Section Join.
Context (cfg : call_cfg) (strict : bool) (used : list (list Z)) (Hcfg : cfg_ok cfg).

Lemma hole_enter r t b i c c3 p l l3 : hole cfg strict used t b i c l →
  ct_channel c3 = ct_channel c → ct_id c3 = ct_id c → ct_epoch c <= ct_epoch c3 → ct_parts c3 = ct_parts c ++ [p] →
  row_pre cfg (lp_next_call l) (b + 2) c3 → pt_conn p ≠ 0 → is_Some (lp_conns l !! pt_conn p) → pt_conn p ∉ gather att_of (lp_calls l) →
  (strict = true → pt_token p = cfg_prefix cfg ++ r ∧ r ∉ used) →
  lp_calls l3 = <[i := c3]> (lp_calls l) → lp_trace l3 = lp_trace l ++ [Authorize (ct_id c3) (pt_user p) (pt_conn p) (pt_token p)] →
  lp_next_call l3 = lp_next_call l → lp_next_conn l3 = lp_next_conn l → lp_jobs l3 = lp_jobs l → lp_conns l3 = lp_conns l →
  hole cfg strict (r :: used) t (b + 2) i c3 l3.
Proof using Type.
  intros [B E L P R C] F1 F2 F3 F4 P3 Hc0 Ho Hna Htok E1 E2 E3 E4 E5 E6. destruct B as [B1 B2 B3 B4 B5 B6 B7 B8 B9].
  assert (L3 : call_live c3 = true) by (unfold call_live in *; by rewrite F1).
  assert (Ha : att_of c3 ≡ₚ pt_conn p :: att_of c).
  { unfold att_of, if_live, attached. rewrite L, L3, F4, fmap_app, filter_app. change (pt_conn <$> [p]) with [pt_conn p]. rewrite filter_cons_True, filter_nil by done.
    by rewrite Permutation_app_comm. }
  assert (Hgs : gather att_of (<[i := c3]> (lp_calls l)) ≡ₚ pt_conn p :: gather att_of (lp_calls l)).
  { rewrite (gather_set _ _ _ _ c3 E), (gather_split att_of _ _ _ E), Ha. done. }
  split; rewrite ?E1, ?E2, ?E3; try done.
  - split; rewrite ?E1, ?E2, ?E3, ?E4, ?E5, ?E6; try done.
    + apply (gather_nodup_set _ _ _ _ _ E); [unfold chan_of, if_live; by rewrite L, L3, F1|done].
    + apply (gather_nodup_set _ _ _ _ _ E); [unfold id_of, if_live; by rewrite L, L3, F2|done].
    + rewrite Hgs. by apply list.NoDup_cons.
    + intros cid. rewrite Hgs. intros [->|Hin]%elem_of_cons; [done|by apply B4].
    + assert (Er : rosters (lp_trace l ++ [Authorize (ct_id c3) (pt_user p) (pt_conn p) (pt_token p)]) = rosters (lp_trace l)) by (by rewrite rosters_app, app_nil_r).
      destruct B8 as [R1 R2 R3 R4]. split; rewrite Er; try done. intros x d Hx Hd Hl Hid. apply list_elem_of_lookup in Hd as (j & Hj).
      destruct (decide (i = j)) as [<-|Hne].
      * rewrite list_lookup_insert_eq in Hj by (by eapply lookup_lt_Some). injection Hj as <-. rewrite F2 in Hid.
        pose proof (R2 x c Hx (list_elem_of_lookup_2 _ _ _ E) L Hid). lia.
      * rewrite list_lookup_insert_ne in Hj by done. apply (R2 x d); try done. by eapply list_elem_of_lookup_2.
    + intros Hs. destruct (Htok Hs) as [Et Hr]. destruct (B9 Hs) as (N & U & V).
      assert (Hfresh : pt_token p ∉ gather toks_of (lp_calls l)).
      { intros (r' & Hr' & Heq)%U. rewrite Et in Heq. apply app_inv_head in Heq as ->. done. }
      assert (Ht : gather toks_of (<[i := c3]> (lp_calls l)) ≡ₚ pt_token p :: gather toks_of (lp_calls l)).
      { rewrite (gather_set _ _ _ _ c3 E), (gather_split toks_of _ _ _ E). unfold toks_of at 1 3, if_live. rewrite L, L3, F4, fmap_app.
        change (pt_token <$> [p]) with [pt_token p]. rewrite (Permutation_app_comm _ [pt_token p]). done. }
      split_and!.
      * rewrite Ht. by apply list.NoDup_cons.
      * intros tok. rewrite Ht. intros [->|Hin]%elem_of_cons; [exists r; split; [by left|done]|]. destruct (U tok Hin) as (r' & ? & ?). exists r'. split; [by right|done].
      * intros tok x. rewrite relay_view_app. cbn [foldl relay_apply]. rewrite (gather_set _ _ _ _ c3 E), elem_of_app. specialize (V tok x).
        rewrite (gather_split _ _ _ _ E), elem_of_app, ents_iff in V by done. rewrite ents_iff by done. rewrite F4. split.
        -- destruct (decide (pt_token p = tok)) as [<-|Hne].
           ++ rewrite lookup_insert_eq. intros [= <-]. left. exists p. split_and!; [apply elem_of_app; right; by left|done|done].
           ++ rewrite lookup_insert_ne by done. intros [(q & ? & ? & Eq)|]%V; [left|by right]. exists q. split_and!; [apply elem_of_app; by left|done|]. unfold relay_entry in *. by rewrite F2.
        -- intros Hin. destruct (decide (pt_token p = tok)) as [<-|Hne].
           ++ rewrite lookup_insert_eq. destruct Hin as [(q & [Hq|Hq]%elem_of_app & _ & Eq)|Hin].
              ** exfalso. apply Hfresh. apply elem_of_gather. exists c. split; [by eapply list_elem_of_lookup_2|]. unfold toks_of, if_live. rewrite L.
                 unfold relay_entry in Eq. injection Eq as -> _. by apply list_elem_of_fmap_2.
              ** apply list_elem_of_singleton in Hq as ->. unfold relay_entry in Eq. by injection Eq as ->.
              ** exfalso. apply Hfresh. rewrite (gather_split _ _ _ _ E). apply elem_of_app. right. by apply (ents_toks _ _ x).
           ++ rewrite lookup_insert_ne by done. apply V. destruct Hin as [(q & [Hq|Hq]%elem_of_app & Hc & Eq)|]; [left|exfalso|by right].
              ** exists q. split_and!; [done|done|]. unfold relay_entry in *. by rewrite F2 in Eq.
              ** apply list_elem_of_singleton in Hq as ->. unfold relay_entry in Eq. injection Eq as -> _. done.
  - apply list_lookup_insert_eq. by eapply lookup_lt_Some.
  - by rewrite delete_set.
  - intros Hs. rewrite delete_set. eapply Forall_impl; [by apply C|]. intros d Hd Hl cid Hcid. rewrite view_silent; [by apply Hd|]. by intros a ?%not_elem_of_nil.
Qed.

Lemma same_call_trans c1 c2 c3 : same_call c1 c2 → same_call c2 c3 → same_call c1 c3.
Proof using Type. intros [????] [????]. split; congruence. Qed.
Lemma joined_fits next b c p : row_pre cfg next b c → p ∈ ct_parts c → next <= 2 ^ 63 + 2 ^ 31 → b < 2 ^ 32 →
  is_bytes (pt_token p) → zlen (pt_token p) <= 32 → is_Some (encode_in 2048 (joined_frame cfg c p)).
Proof using Hcfg.
  intros P Hp Hn Hb Ht Htl. destruct (fill_parts_wf _ _ _ _ Hcfg P) as [Hw Hz]. destruct Hcfg as (Hm & _ & _ & Hport). unfold OC_MAX_CALL_PARTICIPANTS in Hm.
  pose proof (rp_parts _ _ _ _ P) as HP. rewrite Forall_forall in HP. destruct (HP p Hp) as (_ & Hslot & _).
  pose proof (zlen_nonneg (ct_parts c)). destruct P. apply joined_encodes; [|done].
  unfold wf_call_joined, wf_oc_call_joined, is_u64, is_u32, is_u16, is_u8 in *. cbn. unfold OC_MAX_CALL_PARTICIPANTS. rewrite Hz. split_and!; done || lia.
Qed.

Lemma told_entered e t t' b i c p moved added l l' : hole cfg strict used t b i c l → ct_parts c ≠ [] → newer c (lp_trace l) →
  t <= t' < 2 ^ 31 - 1 → b <= 2 * t' → p ∈ ct_parts c → pt_conn p ≠ 0 → is_bytes (pt_token p) → zlen (pt_token p) <= 32 →
  (moved ≠ 0 → moved ∉ gather att_of (delete i (lp_calls l))) →
  l' = (let l := match encode_in 2048 (joined_frame cfg c p) with Some buf => call_send e buf (joined_frame cfg c p) (pt_conn p) l | None => l end in
        let l := call_send_roster e c (pt_conn p) moved l in
        call_push_invites e c added (ct_starter c) (call_send_state e c false l)) →
  inv cfg strict used t' l'.
Proof using Hcfg.
  intros H Hn Hnew Ht Hb Hp Hc0 Htk Htl Hmov ->. destruct (hole_bounds _ _ _ _ _ _ _ _ H) as [_ Hnext]. cbv zeta.
  destruct (joined_fits _ b c p (ho_pre _ _ _ _ _ _ _ _ H) Hp Hnext ltac:(lia) Htk Htl) as [buf ->].
  set (l1 := call_send e buf (joined_frame cfg c p) (pt_conn p) l). set (av := gather att_of (delete i (lp_calls l))) in *.
  assert (Hpc : pt_conn p ∈ pt_conn <$> ct_parts c) by (by apply list_elem_of_fmap_2).
  assert (Hpa : pt_conn p ∈ attached c) by (by apply list_elem_of_filter).
  assert (Ho : is_Some (lp_conns l !! pt_conn p)) by (by apply (hole_attached _ _ _ _ _ _ _ _ _ H)).
  assert (T1 : told (info c) av [pt_conn p] l l1).
  { pose proof (call_send_told e buf (joined_frame cfg c p) (info c) av (pt_conn p) l eq_refl (hole_avoid _ _ _ _ _ _ _ _ _ H Hpc)) as T. by rewrite decide_True in T by done. }
  assert (T2 : told (info c) av (filter (fun d => d ≠ pt_conn p) (attached c)) l1 (call_send_roster e c (pt_conn p) moved l1)).
  { eapply (call_send_roster_told cfg (lp_next_call l) b); [done|apply H|done|lia| |done|].
    - intros cid Hc _. by apply (hole_avoid _ _ _ _ _ _ _ _ _ H).
    - intros d (Hne & Hd)%list_elem_of_filter. destruct (hole_attached _ _ _ _ _ _ _ _ _ H Hd) as (? & _ & ?). split_and!; [done|done|].
      apply (eqv_open l); [apply T1|done]. }
  apply (hole_told cfg strict used t t' b i c l); try done.
  eapply told_weaken; [eapply told_trans; [exact T1|]; eapply told_trans; [exact T2|]; apply quietly_told; etransitivity; [apply call_send_state_quiet|apply call_push_invites_quiet]|].
  intros d Hd. rewrite app_nil_r. destruct (decide (d = pt_conn p)) as [->|]; [by left|right]. by apply list_elem_of_filter.
Qed.

End Join.

Section Enter.
Context (cfg : call_cfg) (strict : bool) (used : list (list Z)) (Hcfg : cfg_ok cfg).

(** Without randomness the call is left as it is, or ends if nobody is in it. *)
Lemma no_rand_ok e t t' b i c starting cid l : strict = false → hole cfg strict used t b i c l → (starting = true → ct_parts c = []) →
  t <= t' < 2 ^ 31 - 1 → b <= 2 * t' →
  inv cfg strict used t' (send_call_error e cid (reason_code OC_ERR_INTERNAL) "no randomness"
    (if starting then put_call i (over c) l else if (length (ct_parts c) =? 0)%nat then call_finish e i l else l)).
Proof using Hcfg.
  intros Hs H Hst Ht Hb. destruct starting.
  - eapply inv_quiet; [|apply send_call_error_quiet]. apply (inv_mono _ _ _ t); [|done].
    apply (hole_freed cfg strict used t b i c (over c) [] l); try done; [|set_solver|].
    + split; try done. exists []. rewrite app_nil_r. split; [done|apply revoking_nil].
    + intros p Hp. rewrite (Hst eq_refl) in Hp. by apply not_elem_of_nil in Hp.
  - destruct (Nat.eqb_spec (length (ct_parts c)) 0) as [Hz|Hz].
    + eapply inv_quiet; [|apply send_call_error_quiet]. apply (inv_mono _ _ _ t); [|done]. by eapply finish_ok.
    + eapply (hole_silent cfg strict used t t' b i c l); try done; [|apply send_call_error_quiet]. intros Hnil. apply Hz. by rewrite Hnil.
Qed.

Lemma join_enter_ok e t t' b jc j members uids i starting moved c l :
  env_ok e → job_ok j → jb_op j = OC_CALL_OP_JOIN → is_u64 (cn_user jc) →
  hole cfg strict used t b i c l → (starting = true → ct_parts c = []) → zlen (ct_parts c) < cfg_call_max cfg →
  cn_user jc ∉ pt_user <$> ct_parts c → jb_conn j ≠ 0 → is_Some (lp_conns l !! jb_conn j) → jb_conn j ∉ gather att_of (lp_calls l) →
  (moved ≠ 0 → moved ∉ gather att_of (delete i (lp_calls l))) → t <= t' < 2 ^ 31 - 1 → b + 2 <= 2 * t' →
  (strict = true → ∃ r, e_rand e = Some r ∧ r ∉ used) →
  inv cfg strict (used_after e used) t' (join_enter e cfg jc j members uids i starting moved l).
Proof using Hcfg.
  intros He Hj Hop Hu H Hst Hm Hnu Hc0 Ho Hna Hmov Ht Hb Hr. unfold join_enter. rewrite (call_at_lookup _ _ _ (ho_at _ _ _ _ _ _ _ _ H)).
  pose proof (hole_tweak _ _ _ t b i c (call_take_members c members) l H ltac:(by split) (members_pre _ _ _ _ _ (ho_pre _ _ _ _ _ _ _ _ H))) as H1.
  set (c1 := call_take_members c members) in *. unfold used_after. destruct (e_rand e) as [r|] eqn:Er.
  2: { assert (Hs : strict = false) by (destruct strict; [destruct (Hr eq_refl) as (? & ? & _); done|done]).
       apply (no_rand_ok e t t' b i c1 starting (jb_conn j) _ Hs H1 Hst Ht). lia. }
  destruct He as [_ He]. destruct (He r Er) as [Hrb Hrl]. destruct Hj as [_ Hj]. destruct (Hj Hop) as (Hk1 & Hk2 & Hk3).
  pose proof Hcfg as (Hmax & Hpb & Hpl & _). unfold OC_MAX_CALL_PARTICIPANTS in Hmax.
  destruct (call_free_slot_spec c1 ltac:(change (ct_parts c1) with (ct_parts c); lia)) as [Hs1 Hs2].
  set (p := mk_call_part (cn_user jc) (jb_conn j) (call_free_slot c1) (cfg_prefix cfg ++ r) (jb_key j) (jb_codecs j) 0).
  assert (Hp : part_ok cfg p).
  { refine (conj Hu (conj _ (conj Hk1 (conj Hk2 (conj Hk3 _))))); [change (ct_parts c1) with (ct_parts c) in *; cbn; lia|]. cbn. split; [done|lia]. }
  change (c1 <| ct_parts := ct_parts c1 ++ [p] |> <| ct_epoch := u32 (ct_epoch c1 + 1) |>) with (with_part c1 p).
  pose proof (row_pre_enter cfg _ b c1 p (ho_pre _ _ _ _ _ _ _ _ H1) Hp Hm Hnu Hs2 ltac:(lia)) as P3. change (pt_user p) with (cn_user jc) in P3.
  set (c3 := call_uninvite (with_part c1 p) (cn_user jc)) in *.
  set (c4 := if cn_user jc =? ct_starter c3 then c3 else c3 <| ct_others_joined := true |>).
  assert (S4 : same_call c3 c4 ∧ row_pre cfg (lp_next_call (put_call i c1 l)) (b + 2) c4)
    by (unfold c4; destruct (_ =? _); [by split|split; [by split|by destruct P3]]).
  destruct (if starting then start_invites cfg c4 uids else ([], c4)) as [added c5] eqn:E5.
  assert (S5 : same_call c3 c5 ∧ row_pre cfg (lp_next_call (put_call i c1 l)) (b + 2) c5).
  { destruct S4 as [S4 P4]. destruct starting; [|by injection E5 as <- <-]. destruct (start_invites_ok _ _ _ _ _ _ _ P4 E5) as [S5 P5].
    split; [by eapply same_call_trans|done]. }
  destruct S5 as [S5 P5]. pose proof (same_call_trans _ _ _ (uninvite_same (with_part c1 p) (cn_user jc)) S5) as [F1 F2 F3 F4].
  assert (Hep : ct_epoch c5 = ct_epoch c1 + 1).
  { rewrite F3. pose proof (rp_epoch _ _ _ _ (ho_pre _ _ _ _ _ _ _ _ H1)). pose proof (zlen_nonneg (ct_parts c1)). apply (u32_epoch b); lia. }
  set (l3 := note (Authorize (ct_id c5) (pt_user p) (pt_conn p) (pt_token p)) (put_call i c5 (put_call i c1 l))).
  assert (H3 : hole cfg strict (r :: used) t (b + 2) i c5 l3).
  { apply (hole_enter cfg strict used r t b i c1 c5 p (put_call i c1 l)); try done.
    - lia.
    - unfold put_call. cbn [lp_calls set_field]. rewrite (gather_set _ _ _ _ c1 (ho_at _ _ _ _ _ _ _ _ H)). rewrite (gather_split att_of _ _ _ (ho_at _ _ _ _ _ _ _ _ H)) in Hna. exact Hna.
    - intros Hs. destruct (Hr Hs) as (r' & E & Hr'). injection E as <-. done. }
  eapply (told_entered cfg strict (r :: used) Hcfg e t t' (b + 2) i c5 p moved added l3); try done.
  - rewrite F4. intros Hnil. by apply app_eq_nil in Hnil as [_ ?].
  - pose proof (hole_newer cfg strict used t b i c1 _ c5 H1 F2 Hep) as Hnew. intros x Hx. apply Hnew. unfold l3, note in Hx. cbn [lp_trace set_field] in Hx.
    by rewrite rosters_app, app_nil_r in Hx.
  - rewrite F4. apply elem_of_app. right. by left.
  - apply Forall_app. done.
  - cbn. rewrite zlen_app. lia.
  - intros Hm0. unfold l3, put_call. cbn [lp_calls set_field note]. rewrite !delete_set. by apply Hmov.
Qed.

Lemma new_row t now ch u i l l1 : inv cfg strict used t l → 0 < now < 2 ^ 63 → ch ≠ 0 → is_u64 ch → is_u64 u → t + 1 < 2 ^ 31 - 1 →
  call_find ch l = None → call_new now ch u l = Some (i, l1) →
  ∃ c, hole cfg strict used (t + 1) 0 i c l1 ∧ ct_parts c = [] ∧ lp_conns l1 = lp_conns l ∧ gather att_of (lp_calls l1) ≡ₚ gather att_of (lp_calls l).
Proof using Hcfg.
  intros [[B1 B2 B3 B4 B5 B6 B7 B8 B9] R C] Hnow Hch Hcu Hu Ht Hf. unfold call_new.
  destruct (find_index _ (lp_calls l)) as [i'|] eqn:Ei; [|done]. cbn. intros [= <- <-]. apply find_index_Some in Ei as (d & E & Hd). apply Z.eqb_eq in Hd.
  set (nx := if lp_next_call l =? 0 then now else lp_next_call l).
  assert (Hnx : lp_next_call l <= nx ∧ 0 < nx <= 2 ^ 63 + t) by (unfold nx; destruct (Z.eqb_spec (lp_next_call l) 0); lia).
  set (c := mk_call ch nx u now 0 false false [] [] [] 0). exists c.
  assert (Ld : call_live d = false) by (unfold call_live; by rewrite Hd).
  assert (L : call_live c = true) by (unfold call_live, c; cbn; by rewrite (proj2 (Z.eqb_neq _ _) Hch)).
  assert (Hsame : ∀ A (f : call_t → list A), f c = [] → f d = [] → gather f (<[i' := c]> (lp_calls l)) ≡ₚ gather f (lp_calls l))
    by (intros A f Hc0 Hd0; rewrite (gather_set _ _ _ _ c E), (gather_split f _ _ _ E), Hc0, Hd0; done).
  assert (Hatt : gather att_of (<[i' := c]> (lp_calls l)) ≡ₚ gather att_of (lp_calls l)) by (apply Hsame; unfold att_of, if_live; [by rewrite L|by rewrite Ld]).
  assert (Htk : gather toks_of (<[i' := c]> (lp_calls l)) ≡ₚ gather toks_of (lp_calls l)) by (apply Hsame; unfold toks_of, if_live; [by rewrite L|by rewrite Ld]).
  assert (Hen : gather ents_of (<[i' := c]> (lp_calls l)) ≡ₚ gather ents_of (lp_calls l)) by (apply Hsame; unfold ents_of, if_live; [by rewrite L|by rewrite Ld]).
  assert (Hu64 : u64 (nx + 1) = nx + 1) by (apply u64_id; unfold is_u64; lia).
  pose proof (proj1 (forall_row _ _ _ _ E) R) as [_ Rr]. rewrite Forall_forall in Rr.
  split_and!; [|done|done|exact Hatt].
  split; unfold put_call; cbn [lp_calls lp_conns lp_next_call lp_next_conn lp_jobs lp_trace set_field]; fold nx; fold c; rewrite ?Hu64; try done.
  - split; unfold put_call; cbn [lp_calls lp_conns lp_next_call lp_next_conn lp_jobs lp_trace set_field]; fold nx; fold c; rewrite ?Hu64; try done.
    + rewrite (gather_set _ _ _ _ c E). rewrite (gather_split _ _ _ _ E) in B1. apply NoDup_app in B1 as (_ & _ & B1).
      unfold chan_of at 1, if_live. rewrite L. apply list.NoDup_cons. split; [|done]. intros (x & Hx & Hin)%elem_of_gather.
      unfold chan_of, if_live in Hin. destruct (call_live x) eqn:Lx; [|by apply not_elem_of_nil in Hin]. apply list_elem_of_singleton in Hin.
      unfold call_find in Hf. rewrite (proj2 (Z.eqb_neq _ _) Hch) in Hf. assert (Hx' : x ∈ lp_calls l) by (rewrite (delete_Permutation _ _ _ E); by right).
      pose proof (find_index_None _ _ _ Hf Hx') as Hneq%Z.eqb_neq. by apply Hneq.
    + rewrite (gather_set _ _ _ _ c E). rewrite (gather_split _ _ _ _ E) in B2. apply NoDup_app in B2 as (_ & _ & B2).
      unfold id_of at 1, if_live. rewrite L. apply list.NoDup_cons. split; [|done]. intros (x & Hx & Hin)%elem_of_gather.
      unfold id_of, if_live in Hin. destruct (call_live x) eqn:Lx; [|by apply not_elem_of_nil in Hin]. apply list_elem_of_singleton in Hin.
      destruct (Rr x Hx Lx) as [[] _]. cbn in Hin. lia.
    + by rewrite Hatt.
    + intros cid. rewrite Hatt. apply B4.
    + lia.
    + destruct B8 as [R1 R2 R3 R4]. split; try done; [intros x Hx; pose proof (R1 x Hx); lia|]. intros x y Hx Hy Hl Hid. apply list_elem_of_lookup in Hy as (k & Hk).
      destruct (decide (i' = k)) as [<-|Hne].
      * rewrite list_lookup_insert_eq in Hk by (by eapply lookup_lt_Some). injection Hk as <-. pose proof (R1 x Hx). cbn in Hid. lia.
      * rewrite list_lookup_insert_ne in Hk by done. apply (R2 x y); try done. by eapply list_elem_of_lookup_2.
    + intros Hs. destruct (B9 Hs) as (N & U & V). split_and!; [by rewrite Htk|intros tok; rewrite Htk; apply U|]. intros tok x. rewrite Hen. apply V.
  - apply list_lookup_insert_eq. by eapply lookup_lt_Some.
  - split; try exact (NoDup_nil_2); try exact (list.Forall_nil_2 _); cbn; try done; try (by intros ? ?%not_elem_of_nil); try (destruct Hcfg as ((? & _) & _); unfold zlen; cbn; lia).
    split; [done|unfold is_u64; lia].
  - rewrite delete_set. rewrite Forall_forall. intros x Hx. eapply row_ok_mono; [by apply Rr|lia|lia].
  - intros Hs. rewrite delete_set. pose proof (proj1 (forall_row _ _ _ _ E) (C Hs)) as [_ Cr]. done.
Qed.

Lemma remove_att i c k p l l' cid : lp_calls l !! i = Some c → call_live c = true → ct_parts c !! k = Some p → lp_calls l' = <[i := call_remove_part c k]> (lp_calls l) →
  cid ∉ gather att_of (lp_calls l) → cid ∉ gather att_of (lp_calls l').
Proof using Type.
  intros E L Ek -> Hn Hin. apply Hn. rewrite (gather_set _ _ _ _ _ E) in Hin. rewrite (gather_split _ _ _ _ E).
  apply elem_of_app in Hin as [Hin|Hin]; apply elem_of_app; [left|by right]. destruct (remove_fields c k) as (F & _).
  unfold att_of, if_live, call_live in *. rewrite F, L in *. pose proof (attached_cons p _ c (call_remove_part c k) (removed_parts c k p Ek) eq_refl) as Ha.
  rewrite Ha. apply elem_of_app. by right.
Qed.
(** The joiner takes a seat in the call there is. *)
Lemma seat_found e t b jc j members uids i c l :
  env_ok e → job_ok j → jb_op j = OC_CALL_OP_JOIN → is_u64 (cn_user jc) → hole cfg strict used t b i c l → b <= 2 * t →
  inv cfg strict used t l ∨ zlen (ct_parts c) < cfg_call_max cfg → call_find (jb_channel j) l = Some i →
  jb_conn j ≠ 0 → is_Some (lp_conns l !! jb_conn j) → jb_conn j ∉ gather att_of (lp_calls l) → t + 1 < 2 ^ 31 - 1 →
  (strict = true → ∃ r, e_rand e = Some r ∧ r ∉ used) →
  inv cfg strict (used_after e used) (t + 1) (join_seat e cfg jc j members uids l).
Proof using Hcfg.
  intros He Hj Hop Hu H Hb Hfull Hf Hc0 Ho Hna Ht Hr. pose proof (ho_at _ _ _ _ _ _ _ _ H) as E. pose proof (ho_live _ _ _ _ _ _ _ _ H) as L.
  destruct (hole_bounds _ _ _ _ _ _ _ _ H) as [Ht0 _]. unfold join_seat. rewrite Hf, (call_at_lookup _ _ _ E).
  destruct (call_part_of_user c (cn_user jc)) as [k|] eqn:Ek.
  - apply find_index_Some in Ek as (p & Ek & Hp). apply Z.eqb_eq in Hp. rewrite (part_at_lookup _ _ _ Ek).
    pose proof (hole_remove _ _ _ _ _ _ _ _ _ _ l H Ek (or_introl eq_refl)) as H1. set (c1 := call_remove_part c k) in *.
    set (l1 := put_call i c1 (note (Revoke (pt_token p)) l)) in *. rewrite (call_at_lookup _ _ _ (ho_at _ _ _ _ _ _ _ _ H1)).
    pose proof (removed_parts c k p Ek) as HP. fold c1 in HP. pose proof (zlen_perm _ _ HP) as Hz. rewrite zlen_cons in Hz.
    pose proof (rp_max _ _ _ _ (ho_pre _ _ _ _ _ _ _ _ H)). rewrite (proj2 (Z.leb_gt _ _)) by lia.
    eapply (join_enter_ok e t (t + 1) (b - 1) jc j members uids i false (pt_conn p) c1 l1); try done; try lia.
    + pose proof (rp_users _ _ _ _ (ho_pre _ _ _ _ _ _ _ _ H)) as N. rewrite HP, fmap_cons, Hp in N. by apply list.NoDup_cons in N as [N _].
    + by apply (remove_att i c k p l l1).
    + intros _. unfold l1, put_call. cbn [lp_calls set_field note]. rewrite delete_set. apply (hole_avoid _ _ _ _ _ _ _ _ _ H).
      apply list_elem_of_fmap_2. by eapply list_elem_of_lookup_2.
  - rewrite (call_at_lookup _ _ _ E). destruct (Z.leb_spec (cfg_call_max cfg) (zlen (ct_parts c))) as [Hge|Hlt].
    + destruct Hfull as [I|]; [|lia]. cbn [Z.eqb]. apply (inv_used _ _ used); [intros; by apply used_grows|]. eapply inv_mono; [|by split; [apply Z.le_succ_diag_r|]].
      eapply inv_quiet; [exact I|apply send_call_error_quiet].
    + eapply (join_enter_ok e t (t + 1) b jc j members uids i false 0 c l); try done; try lia.
      intros Hin. apply list_elem_of_fmap in Hin as (p & Hp & Hin). pose proof (find_index_None _ _ _ Ek Hin) as Hne%Z.eqb_neq. done.
Qed.
Lemma join_seat_ok e t jc j members uids l :
  env_ok e → job_ok j → jb_op j = OC_CALL_OP_JOIN → is_u64 (cn_user jc) → inv cfg strict used t l → jb_channel j ≠ 0 →
  jb_conn j ≠ 0 → is_Some (lp_conns l !! jb_conn j) → jb_conn j ∉ gather att_of (lp_calls l) → t + 1 < 2 ^ 31 - 1 →
  (strict = true → ∃ r, e_rand e = Some r ∧ r ∉ used) →
  inv cfg strict (used_after e used) (t + 1) (join_seat e cfg jc j members uids l).
Proof using Hcfg.
  intros He Hj Hop Hu I Hch Hc0 Ho Hna Ht Hr. pose proof (ba_next _ _ _ _ _ (in_base _ _ _ _ _ I)) as (_ & _ & Ht0).
  destruct (call_find (jb_channel j) l) as [i|] eqn:Ef.
  - destruct (call_find_spec _ _ _ Ef) as (c & E & _ & L). destruct (open_row _ _ _ _ _ _ _ I E L) as [H _].
    eapply (seat_found e t (2 * t) jc j members uids i c l); try done; [by left].
  - unfold join_seat. rewrite Ef. destruct (call_new (e_now e) (jb_channel j) (cn_user jc) l) as [[i l1]|] eqn:En.
    + destruct (new_row t (e_now e) (jb_channel j) (cn_user jc) i l l1 I (proj1 He) Hch (proj1 Hj) Hu Ht Ef En) as (c & H & Hnil & Hco & Hatt).
      eapply (join_enter_ok e (t + 1) (t + 1) 0 jc j members uids i true 0 c l1); try done; try lia.
      * rewrite Hnil. destruct Hcfg as ((? & _) & _). unfold zlen. cbn. lia.
      * rewrite Hnil. by apply not_elem_of_nil.
      * by rewrite Hco.
      * by rewrite Hatt.
    + apply (inv_used _ _ used); [intros; by apply used_grows|]. apply (inv_mono _ _ _ t); [|lia]. eapply inv_quiet; [exact I|apply send_call_error_quiet].
Qed.

Lemma find_unique t b i c ch l : hole cfg strict used t b i c l → ct_channel c = ch → call_find ch l = Some i.
Proof using Type.
  intros H Hc. pose proof (ho_at _ _ _ _ _ _ _ _ H) as E. pose proof (ho_live _ _ _ _ _ _ _ _ H) as L.
  assert (Hch : ch ≠ 0) by (intros Hz; unfold call_live in L; rewrite Hc, Hz in L; done).
  unfold call_find. rewrite (proj2 (Z.eqb_neq _ _) Hch).
  destruct (find_index_is_Some (fun c => ct_channel c =? ch) _ _ (list_elem_of_lookup_2 _ _ _ E) (proj2 (Z.eqb_eq _ _) Hc)) as [i' Ei]. rewrite Ei. f_equal.
  apply find_index_Some in Ei as (d & Ed & Hd). apply Z.eqb_eq in Hd. destruct (decide (i' = i)) as [|Hne]; [done|]. exfalso.
  pose proof (ba_chan _ _ _ _ _ (ho_base _ _ _ _ _ _ _ _ H)) as N. rewrite (gather_split _ _ _ _ E) in N. apply NoDup_app in N as (_ & N & _).
  apply (N ch); [unfold chan_of, if_live; rewrite L, Hc; by left|]. apply elem_of_gather. exists d. split.
  - apply list_elem_of_lookup. destruct (decide (i' < i)%nat); [exists i'; by rewrite list_lookup_delete_lt|exists (i' - 1)%nat].
    rewrite list_lookup_delete_ge by lia. by replace (S (i' - 1)) with i' by lia.
  - unfold chan_of, if_live, call_live. rewrite Hd, (proj2 (Z.eqb_neq _ _) Hch). by left.
Qed.
Lemma removed_conn t b i c k p l x : hole cfg strict used t b i c l → ct_parts c !! k = Some p → pt_conn p ≠ 0 →
  call_live x = false ∨ attached x = attached (call_remove_part c k) → pt_conn p ∉ gather att_of (<[i := x]> (lp_calls l)).
Proof using Type.
  intros H Ek Hne Hx. pose proof (ho_at _ _ _ _ _ _ _ _ H) as E. pose proof (ho_live _ _ _ _ _ _ _ _ H) as L. pose proof (removed_parts c k p Ek) as HP.
  pose proof (ba_att _ _ _ _ _ (ho_base _ _ _ _ _ _ _ _ H)) as N. rewrite (gather_split _ _ _ _ E) in N. rewrite (gather_set _ _ _ _ x E).
  unfold att_of in N at 1. unfold if_live in N. rewrite L, (attached_cons p _ c (call_remove_part c k) HP eq_refl) in N. rewrite decide_True in N by done.
  cbn [app] in N. apply list.NoDup_cons in N as [N _]. rewrite not_elem_of_app in N. destruct N as [N1 N2]. rewrite not_elem_of_app. split; [|done].
  unfold att_of, if_live. destruct Hx as [->| ->]; [by apply not_elem_of_nil|]. destruct (call_live x); [done|by apply not_elem_of_nil].
Qed.

Lemma answer_join_ok e t jc j members uids l :
  env_ok e → job_ok j → jb_op j = OC_CALL_OP_JOIN → inv cfg strict used t l → jb_channel j ≠ 0 → find_by_id (jb_conn j) l = Some jc → t + 1 < 2 ^ 31 - 1 →
  (strict = true → ∃ r, e_rand e = Some r ∧ r ∉ used) →
  inv cfg strict (used_after e used) (t + 1) (answer_join e cfg jc j members uids l).
Proof using Hcfg.
  intros He Hj Hop I Hch Hjc Ht Hr. pose proof (ba_next _ _ _ _ _ (in_base _ _ _ _ _ I)) as (_ & _ & Ht0).
  assert (Hquiet : ∀ l', quietly l l' → inv cfg strict (used_after e used) (t + 1) l').
  { intros l' Q. apply (inv_used _ _ used); [intros; by apply used_grows|]. apply (inv_mono _ _ _ t); [|lia]. by eapply inv_quiet. }
  unfold answer_join. destruct (negb (jb_gen j =? cn_call_gen jc)); [by apply Hquiet|]. destruct (negb (cfg_relay cfg)); [apply Hquiet, send_call_error_quiet|].
  destruct (ba_conns _ _ _ _ _ (in_base _ _ _ _ _ I) _ _ Hjc) as [Hcid _]. assert (Hc0 : jb_conn j ≠ 0) by lia.
  unfold join_leave. destruct (call_of_conn (jb_conn j) l) as [[i k]|] eqn:Eo.
  2: { rewrite Hjc. apply join_seat_ok; try done; first [exact (proj2 (ba_conns _ _ _ _ _ (in_base _ _ _ _ _ I) _ _ Hjc))|by apply att_of_conn|by eauto]. }
  apply call_of_conn_spec in Eo as (c & p & E & L & Ek & Hp). rewrite (call_at_lookup _ _ _ E), (part_at_lookup _ _ _ Ek).
  destruct (open_row _ _ _ _ _ _ _ I E L) as [H _]. destruct (Z.eqb_spec (ct_channel c) (jb_channel j)) as [Hs|Hs].
  - pose proof (hole_remove _ _ _ _ _ _ _ _ _ _ l H Ek (or_introl eq_refl)) as H1. set (c1 := call_remove_part c k) in *.
    set (l1 := put_call i c1 (note (Revoke (pt_token p)) l)) in *. change (find_by_id (jb_conn j) l1) with (find_by_id (jb_conn j) l). rewrite Hjc.
    pose proof (zlen_perm _ _ (removed_parts c k p Ek)) as Hz. rewrite zlen_cons in Hz. fold c1 in Hz. pose proof (rp_max _ _ _ _ (ho_pre _ _ _ _ _ _ _ _ H)).
    eapply (seat_found e t (2 * t - 1) jc j members uids i c1 l1); try done; try lia.
    + apply (ba_conns _ _ _ _ _ (in_base _ _ _ _ _ I) _ _ Hjc).
    + apply (find_unique _ _ _ _ _ _ H1). destruct (remove_fields c k) as (F & _). fold c1 in F. by rewrite F.
    + rewrite <- Hp. apply (removed_conn _ _ _ _ _ _ _ c1 H Ek); [by rewrite Hp|by right].
  - pose proof (drop_ok cfg strict used Hcfg e t i c k p l I E L Ek) as I1. destruct (drop_does e i k 0 l) as (x & K & Ecalls & Hx). fold (call_drop e i k l) in K, Ecalls.
    set (l1 := call_drop e i k l) in *. rewrite (call_at_lookup _ _ _ E) in Hx. unfold find_by_id. pose proof (keeps_conn _ _ (jb_conn j) K) as Hk.
    unfold find_by_id in Hjc. rewrite Hjc in Hk. destruct (lp_conns l1 !! jb_conn j) as [jc1|] eqn:E1; [|done].
    apply join_seat_ok; try done; try first [exact (proj2 (ba_conns _ _ _ _ _ (in_base _ _ _ _ _ I1) _ _ E1))|by eauto].
    rewrite Ecalls, <- Hp. apply (removed_conn _ _ _ _ _ _ _ x H Ek); [by rewrite Hp|]. destruct Hx as [| ->]; [by left|by right].
Qed.

Lemma answer_invite_ok e t jc j members uids l : inv cfg strict used t l → inv cfg strict used t (answer_invite e cfg jc j members uids l).
Proof using Type.
  intros I. unfold answer_invite. destruct (call_of_conn (jb_conn j) l) as [[i k]|] eqn:Eo; [|eapply inv_quiet; [exact I|apply send_call_error_quiet]].
  apply call_of_conn_spec in Eo as (c & p & E & L & _). rewrite (call_at_lookup _ _ _ E). destruct (ct_channel c =? jb_channel j);
    [|eapply inv_quiet; [exact I|apply send_call_error_quiet]].
  set (c1 := call_take_members c members). destruct (call_add_invites cfg c1 uids) as [[added c2]|] eqn:Ea.
  - assert (I2 : inv cfg strict used t (put_call i c2 l)).
    { apply (inv_tweak cfg strict used t i c c2 l I E L).
      - destruct (open_row _ _ _ _ _ _ _ I E L) as [H _]. destruct (add_invites_ok cfg _ _ _ _ _ _ (members_pre cfg _ _ _ members (ho_pre _ _ _ _ _ _ _ _ H)) Ea) as [S _].
        apply (same_call_trans c c1 c2); [by split|exact S].
      - intros P. destruct (add_invites_ok cfg _ _ c1 uids added c2 (members_pre cfg _ _ _ members P) Ea) as [_ P2]. exact P2. }
    destruct (nonempty added); [|done]. eapply inv_quiet; [exact I2|]. etransitivity; [apply call_send_state_quiet|apply call_push_invites_quiet].
  - eapply inv_quiet; [|apply send_call_error_quiet]. apply (inv_tweak cfg strict used t i c c1 l I E L); [by split|]. apply members_pre.
Qed.
End Enter.

(** ** Every event *)

Lemma own_call_spec cid ch l i : own_call cid ch l = Some i →
  ∃ c p k, lp_calls l !! i = Some c ∧ call_live c = true ∧ ct_parts c !! k = Some p ∧ pt_conn p = cid.
Proof.
  unfold own_call. destruct (call_of_conn cid l) as [[i' k]|] eqn:Eo; [|done]. cbn. apply call_of_conn_spec in Eo as (c & p & H1 & H2 & H3 & H4).
  destruct (_ =? _); [|done]. intros [= <-]. eauto 10.
Qed.
Lemma sends_quiet e c sender ents l : quietly l (foldl (fun l x => match encode_in 256 (snd x) with
  | Some buf => call_send e buf (snd x) (fst x) l | None => l end) l (keys_for c sender ents)).
Proof.
  assert (Hk : Forall (fun x => announced (snd x) = None) (keys_for c sender ents)).
  { apply Forall_forall. intros x Hx. unfold keys_for in Hx. apply list_elem_of_omap in Hx as (en & _ & Hx).
    destruct (call_part_of_user _ _); [cbn in Hx|done]. destruct (_ || _); [done|]. by injection Hx as <-. }
  revert l. induction Hk as [|x xs Hx _ IH]; intros l; [done|]. cbn [foldl]. etransitivity; [|apply IH].
  destruct (encode_in 256 _); [by apply call_send_quiet|done].
Qed.

(** What a client and the database can give the loop. *)
Definition event_ok (ev : call_event) : Prop :=
  match ev with
  | EvAuthOk _ uid => is_u64 uid
  | EvFrame _ _ payload => is_bytes payload ∧ zlen payload <= OC_MAX_FRAME_SIZE
  | EvAnswer _ db => ∀ u, channel_read_access db 0 u = false
  | _ => True
  end.

Lemma decoded_wf (c : frame_codec) payload m : fc_lawful c → is_bytes payload → zlen payload <= OC_MAX_FRAME_SIZE →
  run_decode (fc_decode c) payload = inr m → fc_wf c m.
Proof.
  intros Hl Hb Hz E. apply (exact_canonical c (lawful_exact c Hl) 0 payload m (oc_wbuf_init [] 0) (oc_wbuf_init [] 0)); [done| |done].
  unfold OC_MAX_FRAME_SIZE in Hz. lia.
Qed.

Section Steps.
Context (cfg : call_cfg) (strict : bool) (Hcfg : cfg_ok cfg).

Lemma inv_frame used t t' l l' : inv cfg strict used t l → t <= t' < 2 ^ 31 - 1 →
  lp_calls l' = lp_calls l → lp_trace l' = lp_trace l → lp_next_call l' = lp_next_call l → lp_next_conn l <= lp_next_conn l' <= 1 + t' →
  Forall job_ok (lp_jobs l') → (∀ cid, is_Some (lp_conns l !! cid) → is_Some (lp_conns l' !! cid)) →
  (∀ cid c, lp_conns l' !! cid = Some c → 0 < cid < lp_next_conn l' ∧ is_u64 (cn_user c)) → inv cfg strict used t' l'.
Proof using Type.
  intros I Ht E1 E2 E3 H4 H5 H6 H7. apply (inv_mono _ _ _ _ t') in I; [|done]. destruct I as [[B1 B2 B3 B4 B5 B6 B7 B8 B9] R C].
  split; rewrite ?E1, ?E2, ?E3; try done. split; rewrite ?E1, ?E2, ?E3; try done; [|lia]. intros cid Hin. by apply H6, B4.
Qed.
Lemma inv_put_conn used t cid c c' l : inv cfg strict used t l → lp_conns l !! cid = Some c → cn_user c' = cn_user c → inv cfg strict used t (put_conn cid c' l).
Proof using Type.
  intros I E Hu. pose proof (in_base _ _ _ _ _ I) as [B1 B2 B3 B4 B5 B6 B7 B8 B9]. apply (inv_frame used t t l); try done; [lia|cbn; lia| |].
  - intros d Hd. unfold put_conn. cbn. destruct (decide (cid = d)) as [<-|]; [by rewrite lookup_insert_eq|by rewrite lookup_insert_ne].
  - intros d x. unfold put_conn. cbn. destruct (decide (cid = d)) as [<-|]; [rewrite lookup_insert_eq; intros [= <-]; rewrite Hu; by apply B5|].
    rewrite lookup_insert_ne by done. apply B5.
Qed.
Lemma inv_submit used t j l : inv cfg strict used t l → job_ok j → inv cfg strict used t (submit j l).
Proof using Type.
  intros I Hj. pose proof (in_base _ _ _ _ _ I) as [B1 B2 B3 B4 B5 B6 B7 B8 B9]. apply (inv_frame used t t l); try done; [lia|cbn; lia|].
  apply Forall_app. split; [done|]. by apply list.Forall_cons.
Qed.
Lemma append_error_ok used t cap cid m l : inv cfg strict used t l → inv cfg strict used t (snd (append_error cap cid m l)).
Proof using Type.
  intros I. unfold append_error, with_conn, find_by_id. destruct (lp_conns l !! cid) as [c|] eqn:E; [|done]. destruct (encode_in cap _); [|done].
  destruct (out_append _ _) as [ok q]. cbn [snd]. assert (I2 : inv cfg strict used t (put_conn cid (c <| cn_out := q |>) l)) by (by apply (inv_put_conn used t cid c)).
  destruct ok; [|done]. eapply inv_quiet; [exact I2|]. by apply note_quiet.
Qed.

Lemma handle_call_ok used e t cid ty payload l : inv cfg strict used t l → is_bytes payload → zlen payload <= OC_MAX_FRAME_SIZE →
  inv cfg strict used t (snd (handle_call e cid ty payload l)).
Proof using Hcfg.
  intros I Hb Hz. unfold handle_call, decoded. destruct ty.
  - destruct (run_decode (oc_decode_call_join OC_MAX_CALL_INVITES) payload) as [|m] eqn:E; [done|].
    destruct (decoded_wf (call_join_codec OC_MAX_CALL_INVITES) payload m (call_join_lawful OC_MAX_CALL_INVITES) Hb Hz E) as [(Hw1 & Hw2 & Hw3 & _ & _ & Hw4) _].
    unfold on_join, with_conn, find_by_id. destruct (lp_conns l !! cid) as [c|] eqn:Ec; [|done].
    pose proof (demo_ok_quiet (e_now e) OC_DL_CALL (cn_user c) l) as Q. destruct (demo_ok _ _ _ l) as [ok l1] eqn:Ed. cbn [snd] in Q.
    pose proof (inv_quiet _ _ _ _ _ _ I Q) as I1. assert (Ec1 : lp_conns l1 !! cid = Some c).
    { unfold demo_ok in Ed. destruct (lp_demo l); [destruct (oc_dl_take _ _ _ _)|]; by injection Ed as <- <-. }
    destruct ok; cbn [negb snd]; [|by apply append_error_ok]. apply inv_submit; [by apply (inv_put_conn used t cid c)|]. split; [exact Hw1|]. intros _. exact (conj Hw2 (conj Hw3 Hw4)).
  - destruct (run_decode (oc_decode_call_invite OC_MAX_CALL_INVITES) payload) as [|m] eqn:E; [done|].
    destruct (decoded_wf (call_invite_codec OC_MAX_CALL_INVITES) payload m (call_invite_lawful OC_MAX_CALL_INVITES) Hb Hz E) as [(Hw & _) _].
    unfold on_invite, with_conn, find_by_id. destruct (lp_conns l !! cid) as [c|] eqn:Ec; [|done]. cbn [snd]. apply inv_submit; [done|]. split; [exact Hw|done].
  - destruct (run_decode oc_decode_call_leave payload) as [|m] eqn:E; [done|]. unfold on_leave, with_conn, find_by_id.
    destruct (lp_conns l !! cid) as [c|] eqn:Ec; [|done]. cbn [snd].
    match goal with |- context [call_of_conn cid ?x] => set (l1 := x) end.
    assert (I1 : inv cfg strict used t l1) by (unfold l1; destruct (_ =? _); [by apply (inv_put_conn used t cid c)|done]).
    destruct (call_of_conn cid l1) as [[i k]|] eqn:Eo; [|done]. apply call_of_conn_spec in Eo as (cc & p & Ei & L & Ek & _).
    destruct (ct_channel (call_at i l1) =? call_leave_channel_id m); [|exact I1]. by apply (drop_ok cfg strict used Hcfg e t i cc k p).
  - destruct (run_decode oc_decode_call_decline payload) as [|m] eqn:E; [done|]. unfold on_decline, with_conn, find_by_id.
    destruct (lp_conns l !! cid) as [c|] eqn:Ec; [|done]. cbn [snd]. destruct (call_find _ l) as [i|] eqn:Ef; [|done].
    apply call_find_spec in Ef as (cc & Ei & _ & L). rewrite (call_at_lookup _ _ _ Ei). destruct (call_invited cc (cn_user c)); [|done].
    eapply inv_quiet; [|apply call_send_state_quiet]. apply (inv_tweak cfg strict used t i cc _ l I Ei L); [apply uninvite_same|apply row_pre_uninvite].
  - destruct (run_decode oc_decode_call_end payload) as [|m] eqn:E; [done|]. unfold on_end, with_conn, find_by_id.
    destruct (lp_conns l !! cid) as [c|] eqn:Ec; [|done]. cbn [snd]. destruct (call_find _ l) as [i|] eqn:Ef; [|eapply inv_quiet; [exact I|apply send_call_error_quiet]].
    apply call_find_spec in Ef as (cc & Ei & _ & L). destruct (negb _); [eapply inv_quiet; [exact I|apply send_call_error_quiet]|].
    by apply (finish_inv cfg strict used e t i cc).
  - destruct (run_decode oc_decode_call_share payload) as [|m] eqn:E; [done|]. unfold on_share. cbn [snd].
    destruct (own_call cid _ l) as [i|] eqn:Eo; [|eapply inv_quiet; [exact I|apply send_call_error_quiet]].
    apply own_call_spec in Eo as (cc & p & k & Ei & L & Ek & Hp). rewrite (call_at_lookup _ _ _ Ei).
    set (s := if negb (call_share_on m =? 0) then cid else if ct_sharer cc =? cid then 0 else ct_sharer cc).
    assert (I1 : inv cfg strict used t (put_call i (cc <| ct_sharer := s |>) l)).
    { apply (inv_tweak cfg strict used t i cc _ l I Ei L); [done|]. intros P. apply share_pre; [done|]. unfold s. destruct (negb _).
      - right. apply list_elem_of_fmap. exists p. split; [done|]. by eapply list_elem_of_lookup_2.
      - destruct (_ =? cid); [by left|apply P]. }
    rewrite ?(call_at_lookup _ _ _ Ei). destruct (s =? ct_sharer cc); [done|]. eapply inv_quiet; [exact I1|apply call_send_state_quiet].
  - destruct (run_decode (oc_decode_call_key OC_MAX_CALL_PARTICIPANTS) payload) as [|m] eqn:E; [done|]. unfold on_key, with_conn, find_by_id.
    destruct (lp_conns l !! cid) as [c|] eqn:Ec; [|done]. cbn [snd]. destruct (own_call cid _ l) as [i|]; [|eapply inv_quiet; [exact I|apply send_call_error_quiet]].
    destruct (negb _ || negb _); [done|]. eapply inv_quiet; [exact I|]. apply sends_quiet.
Qed.

Lemma on_frame_ok used e t cid ty payload l : inv cfg strict used t l → is_bytes payload → zlen payload <= OC_MAX_FRAME_SIZE →
  inv cfg strict used t (snd (on_call_frame e cid ty payload l)).
Proof using Hcfg.
  intros I Hb Hz. unfold on_call_frame, with_conn, find_by_id. destruct (lp_conns l !! cid) as [c|] eqn:Ec; [|done].
  destruct (rate_limited ty); [|by apply handle_call_ok]. destruct (win_ok _ _ _ _) as [ok w].
  assert (I1 : inv cfg strict used t (put_conn cid (c <| cn_call_rl := w |>) l)) by (by apply (inv_put_conn used t cid c)).
  destruct ok; [by apply handle_call_ok|by apply append_error_ok].
Qed.
Lemma deliver_ok used e t db j l : env_ok e → job_ok j → (∀ u, channel_read_access db 0 u = false) → inv cfg strict used t l → t + 1 < 2 ^ 31 - 1 →
  (strict = true → ∃ r, e_rand e = Some r ∧ r ∉ used) → inv cfg strict (used_after e used) (t + 1) (deliver_call e cfg (process_call_auth db j) l).
Proof using Hcfg.
  intros He Hj Hdb I Ht Hr. pose proof (ba_next _ _ _ _ _ (in_base _ _ _ _ _ I)) as (_ & _ & Ht0).
  assert (Hkept : ∀ l', inv cfg strict used t l' → inv cfg strict (used_after e used) (t + 1) l').
  { intros l' I'. apply (inv_used _ _ used); [intros; by apply used_grows|]. apply (inv_mono _ _ _ t); [done|lia]. }
  unfold process_call_auth. destruct (channel_read_access db (jb_channel j) (jb_user j)) eqn:Ea; cbn [negb deliver_call].
  - assert (Hch : jb_channel j ≠ 0) by (intros Hz; rewrite Hz, Hdb in Ea; done).
    destruct (find_by_id (jb_conn j) l) as [jc|] eqn:Ejc; [|by apply Hkept]. destruct (negb (cn_authed jc)); [by apply Hkept|].
    destruct (jb_op j) eqn:Eop; [by apply answer_join_ok|]. by apply Hkept, answer_invite_ok.
  - apply Hkept. eapply inv_quiet; [exact I|apply send_call_error_quiet].
Qed.
Lemma auth_conns cid uid l : ∀ c, lp_conns l !! cid = Some c → lp_conns (auth_ok cid uid l) = <[cid := c <| cn_authed := true |> <| cn_user := uid |>]> (lp_conns l) ∧
  lp_calls (auth_ok cid uid l) = lp_calls l ∧ lp_trace (auth_ok cid uid l) = lp_trace l ∧ lp_next_call (auth_ok cid uid l) = lp_next_call l ∧
  lp_next_conn (auth_ok cid uid l) = lp_next_conn l ∧ lp_jobs (auth_ok cid uid l) = lp_jobs l.
Proof using Type. intros c E. unfold auth_ok, user_unlink, find_by_id. by rewrite E. Qed.

Lemma call_step_ok used e ev t l : env_ok e → event_ok ev → inv cfg strict used t l → t + 1 < 2 ^ 31 - 1 →
  (strict = true → ∃ r, e_rand e = Some r ∧ r ∉ used) → inv cfg strict (used_after e used) (t + 1) (call_step cfg e ev l).
Proof using Hcfg.
  intros He Hev I Ht Hr. pose proof (in_base _ _ _ _ _ I) as [B1 B2 B3 B4 B5 B6 B7 B8 B9].
  assert (Hu : ∀ l', inv cfg strict used (t + 1) l' → inv cfg strict (used_after e used) (t + 1) l') by (intros l'; apply inv_used; intros; by apply used_grows).
  assert (Hkept : ∀ l', inv cfg strict used t l' → inv cfg strict (used_after e used) (t + 1) l') by (intros l' I'; apply Hu, (inv_mono _ _ _ t); [done|lia]).
  destruct ev as [|cid uid|cid|cid ty payload|k db|tok|]; cbn [call_step].
  - apply Hu. assert (u64 (lp_next_conn l + 1) = lp_next_conn l + 1) as Hn by (apply u64_id; unfold is_u64; lia).
    apply (inv_frame used t (t + 1) l); try done; unfold index_add, put_conn; cbn [lp_next_conn lp_conns set_field]; rewrite ?Hn; try lia.
    + intros cid [c E]. destruct (decide (lp_next_conn l = cid)) as [<-|]; [by rewrite lookup_insert_eq|]. rewrite lookup_insert_ne by done. eauto.
    + intros cid c. destruct (decide (lp_next_conn l = cid)) as [<-|]; [rewrite lookup_insert_eq; intros [= <-]; split; [lia|done]|].
      rewrite lookup_insert_ne by done. intros E. destruct (B5 _ _ E). split; [lia|done].
  - destruct (lp_conns l !! cid) as [c|] eqn:E; [|unfold auth_ok, find_by_id; rewrite E; by apply Hkept].
    destruct (auth_conns cid uid l c E) as (E1 & E2 & E3 & E4 & E5 & E6). apply Hkept, (inv_frame used t t l); try done; rewrite ?E1, ?E5, ?E6; try done; try lia.
    + intros d Hd. destruct (decide (cid = d)) as [<-|]; [by rewrite lookup_insert_eq|by rewrite lookup_insert_ne].
    + intros d x. destruct (decide (cid = d)) as [<-|]; [rewrite lookup_insert_eq; intros [= <-]; split; [by apply (B5 _ _ E)|exact Hev]|].
      rewrite lookup_insert_ne by done. apply B5.
  - apply Hu. by apply conn_close_ok.
  - destruct Hev as [Hb Hz]. destruct (find_by_id cid l) as [c|]; [|by apply Hkept]. destruct (cn_authed c); [|by apply Hkept].
    pose proof (on_frame_ok used e t cid ty payload l I Hb Hz) as I1. destruct (on_call_frame e cid ty payload l) as [[] l1]; cbn [snd] in I1; [by apply Hkept|].
    apply Hu. by apply conn_close_ok.
  - destruct (lp_jobs l !! k) as [j|] eqn:Ej; [|by apply Hkept]. pose proof (proj1 (Forall_lookup _ _) B7 _ _ Ej) as Hj. apply deliver_ok; try done.
    apply (inv_frame used t t l); try done; cbn; try lia. by apply Forall_delete.
  - apply Hkept. by apply drop_token_ok.
  - apply Hkept. by apply expire_ok.
Qed.

Definition rands (evs : list (call_env * call_event)) : list (list Z) := omap (fun x => e_rand (fst x)) evs.
Definition events_ok (evs : list (call_env * call_event)) : Prop := Forall (fun x => env_ok (fst x) ∧ event_ok (snd x)) evs.
Lemma init_inv demo : inv cfg strict [] 0 (loop_init demo).
Proof using Type.
  assert (Hdead : ∀ A (f : call_t → list A), f call_zero = [] → gather f (lp_calls (loop_init demo)) = []).
  { intros A f Hf. unfold gather, loop_init. cbn [lp_calls]. generalize OC_MAX_CALLS. intros n. induction n as [|n IH]; [done|]. cbn [replicate]. rewrite fmap_cons. cbn [concat]. by rewrite Hf, IH. }
  split.
  - split; rewrite ?Hdead by done; try done; try exact NoDup_nil_2; try (by intros ? ?%not_elem_of_nil); try (by intros ? ? ?%lookup_empty_Some).
    + split; try (by intros ? ?%not_elem_of_nil); try done; by intros ? ? ?%not_elem_of_nil.
    + intros _. split_and!; rewrite ?Hdead by done; [exact NoDup_nil_2|by intros ? ?%not_elem_of_nil|]. intros tok x. change (relay_view (lp_trace (loop_init demo))) with (∅ : gmap (list Z) (Z * Z * Z)). rewrite lookup_empty. split; [done|by intros ?%not_elem_of_nil].
  - apply Forall_replicate. done.
  - intros _. apply Forall_replicate. done.
Qed.
Lemma call_run_ok used t l evs : inv cfg strict used t l → events_ok evs → t + Z.of_nat (length evs) < 2 ^ 31 - 1 →
  (strict = true → Forall (fun x => is_Some (e_rand (fst x))) evs ∧ NoDup (rands evs) ∧ ∀ r, r ∈ rands evs → r ∉ used) →
  ∃ used', inv cfg strict used' (t + Z.of_nat (length evs)) (call_run cfg l evs).
Proof using Hcfg.
  unfold call_run. revert used t l. induction evs as [|[e ev] evs IH]; intros used t l I Hok Hn Hs.
  { exists used. cbn [length foldl]. by rewrite Z.add_0_r. }
  apply list.Forall_cons in Hok as [[He Hev] Hok]. cbn [length] in Hn. cbn [foldl fst snd].
  destruct (IH (used_after e used) (t + 1) (call_step cfg e ev l)) as [used' I'].
  - apply call_step_ok; try done; [lia|]. intros St. destruct (Hs St) as (Hsome & Hnd & Hfresh). apply list.Forall_cons in Hsome as [[r Er] _]. exists r. split; [done|].
    apply Hfresh. unfold rands. cbn in *. rewrite Er. by left.
  - done.
  - lia.
  - intros St. destruct (Hs St) as (Hsome & Hnd & Hfresh). apply list.Forall_cons in Hsome as [[r Er] Hsome]. unfold rands in Hnd, Hfresh. cbn in Er, Hnd, Hfresh.
    rewrite Er in Hnd, Hfresh. apply list.NoDup_cons in Hnd as [Hr Hnd]. split_and!; [done|done|]. intros r' Hr'. unfold used_after. rewrite Er.
    intros [->|Hin]%elem_of_cons; [done|]. apply (Hfresh r'); [by right|done].
  - exists used'. cbn [length]. by replace (t + Z.of_nat (S (length evs))) with (t + 1 + Z.of_nat (length evs)) by lia.
Qed.
End Steps.
