(* ===== verification/CallsSeats.v ===== *)
(** * Who sits in which call, and joins that are void

    A seat is a connection and the conversation whose call it is in.  Only the
    answer to a join adds one, and only while the connection's [call_gen] is the
    join's; a CALL_LEAVE ends both the seat and the joins still out. *)
From stdpp Require Import base tactics list numbers gmap strings.
From S2P Require Import Prelude.
From S2P Require Import Wire.
From S2P Require Import ProtoTypes.
From S2P Require Import ProtoCall.
From S2P Require Import ProtoUsers.
From S2P Require Import Demolimits.
From S2P Require Import Outq.
From S2P Require Import Calls.
From S2P Require Import CallsInv.
From S2P Require Import CallsStep.
From S2P Require Import CallsRun.
Local Open Scope Z_scope.
Local Open Scope oc_scope.

Definition seat_of (c : call_t) : list (Z * Z) := if_live c ((fun p => (pt_conn p, ct_channel c)) <$> ct_parts c).
Definition seats (l : loop) : list (Z * Z) := gather seat_of (lp_calls l).

(** From [l] to [l'] no connection changed but for its output, and only the seats in [add] are new. *)
Definition seated (add : list (Z * Z)) (l l' : loop) : Prop :=
  keeps l l' ∧ ∀ x, fst x ≠ 0 → x ∈ seats l' → x ∈ seats l ∨ x ∈ add.
#[export] Instance seated_refl add : Reflexive (seated add).
Proof. intros l. split; [done|]. auto. Qed.
#[export] Instance seated_trans add : Transitive (seated add).
Proof. intros l1 l2 l3 [K1 H1] [K2 H2]. split; [by transitivity l2|]. intros x Hx Hin. destruct (H2 x Hx Hin); auto. Qed.
Lemma seated_more add l l' : seated [] l l' → seated add l l'.
Proof. intros [K H]. split; [done|]. intros x Hx Hin. destruct (H x Hx Hin) as [|Hn]; [by left|by apply not_elem_of_nil in Hn]. Qed.
Lemma eqv_seated l l' add : eqv l l' → seated add l l'.
Proof. intros V. split; [by apply eqv_keeps|]. intros x _. unfold seats. rewrite (ev_calls _ _ V). auto. Qed.
Lemma quiet_seated l l' add : quietly l l' → seated add l l'.
Proof. intros [V _]. by apply eqv_seated. Qed.
Lemma error_seated e cid code msg add l : seated add l (send_call_error e cid code msg l).
Proof. apply quiet_seated, send_call_error_quiet. Qed.

Definition sub_seats (add : list (Z * Z)) (c c' : call_t) : Prop := ∀ x, fst x ≠ 0 → x ∈ seat_of c' → x ∈ seat_of c ∨ x ∈ add.
Lemma put_seated add i c c' l : lp_calls l !! i = Some c → sub_seats add c c' → ∀ l', keeps l l' → lp_calls l' = <[i := c']> (lp_calls l) → seated add l l'.
Proof.
  intros E S l' K El. split; [done|]. intros x Hx. unfold seats. rewrite El, (gather_set _ _ _ _ c' E), (gather_split seat_of _ _ _ E), !elem_of_app.
  intros [Hin|]; [|auto]. destruct (S x Hx Hin); auto.
Qed.
Lemma dead_seats add c c' : call_live c' = false → sub_seats add c c'.
Proof. intros L x _ Hin. unfold seat_of, if_live in Hin. rewrite L in Hin. by apply not_elem_of_nil in Hin. Qed.
Lemma parts_seats add c c' : ct_channel c' = ct_channel c → (∀ p, p ∈ ct_parts c' → pt_conn p ≠ 0 → p ∈ ct_parts c ∨ (pt_conn p, ct_channel c) ∈ add) → sub_seats add c c'.
Proof.
  intros Hc Hp x Hx Hin. unfold seat_of, if_live, call_live in *. rewrite Hc in Hin. destruct (negb (ct_channel c =? 0)); [|by apply not_elem_of_nil in Hin].
  apply list_elem_of_fmap in Hin as (p & -> & Hin). destruct (Hp p Hin Hx); [left|by right]. by apply (list_elem_of_fmap_2 (fun p => (pt_conn p, ct_channel c))).
Qed.
Lemma remove_sub add c k p : ct_parts c !! k = Some p → sub_seats add c (call_remove_part c k).
Proof.
  intros E. destruct (remove_fields c k) as (F & _). apply parts_seats; [done|]. intros q Hq _. left. rewrite (removed_parts c k p E). by right.
Qed.
Lemma same_seats add c c' : same_call c c' → sub_seats add c c'.
Proof. intros [F1 F2 F3 F4]. apply parts_seats; [done|]. rewrite F4. auto. Qed.
Lemma tweak_seated add i c c' l : lp_calls l !! i = Some c → same_call c c' → seated add l (put_call i c' l).
Proof. intros E S. apply (put_seated add i c c' l E (same_seats add c c' S)); done. Qed.

Lemma finish_seated e i add l : seated add l (call_finish e i l).
Proof.
  destruct (finish_does e i l) as [K E]. destruct (lp_calls l !! i) as [c|] eqn:Ei.
  - by apply (put_seated add i c _ l Ei (dead_seats add c (over (call_at i l)) eq_refl)).
  - split; [done|]. intros x _. unfold seats. rewrite E, list_insert_ge; [auto|]. by apply lookup_ge_None.
Qed.
Lemma drop_seated e i c k p tell add l : lp_calls l !! i = Some c → ct_parts c !! k = Some p → seated add l (call_drop_tell e i k tell l).
Proof.
  intros E Ek. destruct (drop_does e i k tell l) as (x & K & Ec & Hx). rewrite (call_at_lookup _ _ _ E) in Hx.
  apply (put_seated add i c x l E); [|done..]. destruct Hx as [| ->]; [by apply dead_seats|]. by apply (remove_sub add c k p).
Qed.
Lemma expire_seated e cfg l : seated [] l (call_expire_detached e cfg l).
Proof.
  unfold call_expire_detached. generalize (seq 0 OC_MAX_CALLS). intros rows. revert l. induction rows as [|i rows IH]; intros l; [done|].
  cbn [foldl]. etransitivity; [|apply IH]. unfold expire_call. destruct (bool_decide _ && _ && _ && _); [apply finish_seated|].
  generalize (if call_live (call_at i l) then length (ct_parts (call_at i l)) else O). intros k. revert l. clear. induction k as [|k IH]; intros l; [done|].
  cbn [expire_seats]. destruct (call_live (call_at i l)) eqn:L; [|done]. etransitivity; [|apply IH].
  destruct (Z.eqb_spec (pt_detached (part_at (call_at i l) k)) 0) as [|Hd]; [done|]. destruct (cfg_grace cfg <=? _); [|done]. cbn [negb andb].
  apply (drop_seated e i (call_at i l) k (part_at (call_at i l) k)); [by apply live_row|by apply detached_part].
Qed.
Lemma drop_token_seated e tok l : seated [] l (call_drop_token e tok l).
Proof.
  unfold call_drop_token. match goal with |- context [find_index ?f (lp_calls l)] => destruct (find_index f (lp_calls l)) as [i|] eqn:Ei end; [|done].
  apply find_index_Some in Ei as (c & E & _). rewrite (call_at_lookup _ _ _ E). destruct (find_index _ (ct_parts c)) as [k|] eqn:Ek; [|done].
  apply find_index_Some in Ek as (p & Ek & _). by apply (drop_seated e i c k p).
Qed.

(** ** Joining adds at most its own seat *)

Lemma start_invites_same cfg c uids : same_call c (snd (start_invites cfg c uids)).
Proof.
  unfold start_invites. destruct (nonempty uids); [|done]. unfold call_add_invites.
  destruct (_ <? zlen (ct_parts c) + zlen (ct_invited c) + zlen (pick_invites c uids [])); [|done]. by destruct (_ <? _).
Qed.
Lemma enter_seated e cfg jc j members uids i starting moved c l : lp_calls l !! i = Some c → ct_channel c = jb_channel j →
  seated [(jb_conn j, jb_channel j)] l (join_enter e cfg jc j members uids i starting moved l).
Proof.
  intros E Hc. unfold join_enter. rewrite (call_at_lookup _ _ _ E). set (c1 := call_take_members c members). set (l1 := put_call i c1 l).
  assert (E1 : lp_calls l1 !! i = Some c1) by (apply list_lookup_insert_eq; by eapply lookup_lt_Some).
  transitivity l1; [by apply (tweak_seated _ i c)|]. destruct (e_rand e) as [r|].
  - set (p := mk_call_part _ _ _ _ _ _ _). change (c1 <| ct_parts := ct_parts c1 ++ [p] |> <| ct_epoch := u32 (ct_epoch c1 + 1) |>) with (with_part c1 p).
    set (c3 := call_uninvite (with_part c1 p) (cn_user jc)). set (c4 := if cn_user jc =? ct_starter c3 then c3 else c3 <| ct_others_joined := true |>).
    destruct (if starting then start_invites cfg c4 uids else ([], c4)) as [added c5] eqn:E5.
    assert (S : same_call (with_part c1 p) c5).
    { apply (same_call_trans _ c3); [apply uninvite_same|]. apply (same_call_trans _ c4); [unfold c4; by destruct (_ =? _)|].
      destruct starting; [|by injection E5 as <- <-]. pose proof (start_invites_same cfg c4 uids) as S. by rewrite E5 in S. }
    set (l2 := note _ (put_call i c5 l1)). transitivity l2.
    + apply (put_seated _ i c1 c5 l1 E1); [|done..]. destruct S as [F1 _ _ F4]. apply parts_seats; [by rewrite F1|]. rewrite F4. intros q [Hq|Hq]%elem_of_app _; [by left|right].
      apply list_elem_of_singleton in Hq as ->. cbn. rewrite Hc. by left.
    + destruct (encode_in 2048 _) as [buf|].
      * etransitivity; [apply eqv_seated; apply (proj1 (call_send_does e buf (joined_frame cfg c5 p) (jb_conn j) l2))|].
        etransitivity; [apply eqv_seated, roster_eqv|]. etransitivity; [apply quiet_seated, call_send_state_quiet|apply quiet_seated, call_push_invites_quiet].
      * etransitivity; [apply eqv_seated, roster_eqv|]. etransitivity; [apply quiet_seated, call_send_state_quiet|apply quiet_seated, call_push_invites_quiet].
  - etransitivity; [|apply error_seated]. destruct starting; [|destruct (_ =? _)%nat; [apply finish_seated|done]].
    apply (put_seated _ i c1 (over c1) l1 E1); [by apply dead_seats|done..].
Qed.
Lemma seat_seated e cfg jc j members uids l : seated [(jb_conn j, jb_channel j)] l (join_seat e cfg jc j members uids l).
Proof.
  unfold join_seat. destruct (call_find (jb_channel j) l) as [i|] eqn:Ef.
  - apply call_find_spec in Ef as (c & E & Hc & L). rewrite (call_at_lookup _ _ _ E).
    destruct (call_part_of_user c (cn_user jc)) as [k|] eqn:Ek.
    + apply find_index_Some in Ek as (p & Ek & _). rewrite (part_at_lookup _ _ _ Ek). set (c1 := call_remove_part c k). set (l1 := put_call i c1 (note _ l)).
      assert (E1 : lp_calls l1 !! i = Some c1) by (apply list_lookup_insert_eq; by eapply lookup_lt_Some).
      assert (S1 : seated [(jb_conn j, jb_channel j)] l l1) by (apply (put_seated _ i c c1 l E); [by apply (remove_sub _ c k p)|done..]).
      rewrite (call_at_lookup _ _ _ E1). etransitivity; [exact S1|]. destruct (_ <=? _).
      * etransitivity; [apply error_seated|]. destruct (_ =? 0); [done|]. set (l2 := send_call_error _ _ _ _ l1).
        assert (E2 : lp_calls l2 !! i = Some c1) by (unfold l2; by rewrite (ev_calls _ _ (proj1 (send_call_error_quiet _ _ _ _ _)))). clearbody l2.
        etransitivity; [|apply quiet_seated, call_send_state_quiet]. etransitivity; [|apply eqv_seated, roster_eqv].
        apply (put_seated _ i c1 (bump_epoch c1) l2 E2); [|done..]. apply parts_seats; [done|auto].
      * apply (enter_seated _ _ _ _ _ _ _ _ _ c1 l1 E1). destruct (remove_fields c k) as (F & _). by fold c1 in F; rewrite F.
    + rewrite (call_at_lookup _ _ _ E). destruct (_ <=? _); [cbn [Z.eqb]; apply error_seated|]. by apply (enter_seated _ _ _ _ _ _ _ _ _ c l E).
  - destruct (call_new _ _ _ l) as [[i l1]|] eqn:En; [|apply error_seated]. unfold call_new in En.
    destruct (find_index _ (lp_calls l)) as [i'|] eqn:Ei; [|done]. cbn in En. injection En as <- <-. apply find_index_Some in Ei as (d & E & Hd).
    match goal with |- seated _ l (join_enter _ _ _ _ _ _ _ _ _ ?x) => set (l1 := x) end. set (c := mk_call _ _ _ _ _ _ _ _ _ _ _) in l1.
    assert (E1 : lp_calls l1 !! i' = Some c) by (apply list_lookup_insert_eq; by eapply lookup_lt_Some).
    transitivity l1; [|by apply (enter_seated _ _ _ _ _ _ _ _ _ c l1 E1)].
    apply (put_seated _ i' d c l E); [|done..]. intros x _ Hin. unfold seat_of, if_live in Hin. by destruct (call_live c); apply not_elem_of_nil in Hin.
Qed.
Lemma join_leave_seated e j add l : seated add l (join_leave e j l).
Proof.
  unfold join_leave. destruct (call_of_conn (jb_conn j) l) as [[i k]|] eqn:Eo; [|done]. apply call_of_conn_spec in Eo as (c & p & E & L & Ek & _).
  rewrite (call_at_lookup _ _ _ E). destruct (_ =? _); [|by apply (drop_seated e i c k p)].
  apply (put_seated _ i c (call_remove_part c k) l E); [by apply (remove_sub _ c k p)|done..].
Qed.
(** A void join adds none. *)
Lemma answer_join_seated e cfg jc j members uids l :
  seated (if jb_gen j =? cn_call_gen jc then [(jb_conn j, jb_channel j)] else []) l (answer_join e cfg jc j members uids l).
Proof.
  unfold answer_join. destruct (jb_gen j =? cn_call_gen jc); cbn [negb]; [|done]. destruct (negb (cfg_relay cfg)); [apply error_seated|].
  etransitivity; [apply join_leave_seated|]. destruct (find_by_id _ _); [apply seat_seated|]. destruct (call_find _ _); [|done].
  destruct (_ =? _)%nat; [apply finish_seated|done].
Qed.
Lemma answer_invite_seated e cfg jc j members uids l : seated [] l (answer_invite e cfg jc j members uids l).
Proof.
  unfold answer_invite. destruct (call_of_conn (jb_conn j) l) as [[i k]|] eqn:Eo; [|apply error_seated]. apply call_of_conn_spec in Eo as (c & p & E & _).
  rewrite (call_at_lookup _ _ _ E). destruct (_ =? _); [|apply error_seated]. unfold call_add_invites. destruct (_ <? _).
  - etransitivity; [|apply error_seated]. by apply (tweak_seated _ i c).
  - match goal with |- context [put_call i ?x l] => set (c2 := x) end. assert (S : seated [] l (put_call i c2 l)) by (by apply (tweak_seated _ i c)).
    destruct (nonempty _); [|done]. etransitivity; [exact S|]. etransitivity; apply quiet_seated; [apply call_send_state_quiet|apply call_push_invites_quiet].
Qed.
Lemma conn_closed_seated e cid l : seated [] l (call_conn_closed e cid l).
Proof.
  unfold call_conn_closed. destruct (call_of_conn cid l) as [[i k]|] eqn:Eo; [|done]. apply call_of_conn_spec in Eo as (c & p & E & L & Ek & _).
  rewrite (call_at_lookup _ _ _ E), (part_at_lookup _ _ _ Ek). set (d := if e_now e =? 0 then 1 else e_now e).
  match goal with |- context [put_call i ?x _] => assert (x = bump_epoch (detach c k p cid d)) as -> end.
  { unfold bump_epoch, detach. by destruct (ct_sharer c =? cid). }
  set (c1 := bump_epoch (detach c k p cid d)). set (l1 := put_call i c1 (note _ l)).
  assert (S : seated [] l l1).
  { apply (put_seated _ i c c1 l E); [|done..]. apply parts_seats; [apply (detach_same c k p cid d)|]. intros q Hq Hne. left.
    change (ct_parts c1) with (ct_parts (detach c k p cid d)) in Hq. rewrite (detach_parts c k p cid d Ek) in Hq.
    apply elem_of_cons in Hq as [->|Hq]; [done|]. rewrite (delete_Permutation _ _ _ Ek). by right. }
  etransitivity; [exact S|]. destruct (ct_sharer c =? cid); [etransitivity; [apply eqv_seated, roster_eqv|apply quiet_seated, call_send_state_quiet]|apply eqv_seated, roster_eqv].
Qed.

(** ** The joins still out *)

Record gens_ok (t : Z) (l : loop) : Prop := {
  go_bound : 0 < lp_next_conn l <= 1 + t;
  go_conn : ∀ cid c, lp_conns l !! cid = Some c → cid < lp_next_conn l ∧ 0 <= cn_call_gen c <= t;
  go_next : ∀ j, j ∈ lp_jobs l → jb_conn j < lp_next_conn l;
  go_job : ∀ j c, j ∈ lp_jobs l → jb_op j = OC_CALL_OP_JOIN → lp_conns l !! jb_conn j = Some c →
    jb_gen j <= cn_call_gen c ∧ (jb_gen j = cn_call_gen c → cn_call_join_ch c = jb_channel j) }.
(** No join of [cid] for [ch] would be acted on. *)
Definition void (cid ch : Z) (l : loop) : Prop :=
  ∀ j c, j ∈ lp_jobs l → jb_op j = OC_CALL_OP_JOIN → jb_conn j = cid → jb_channel j = ch → lp_conns l !! cid = Some c → jb_gen j < cn_call_gen c.
Record left (cid ch : Z) (l : loop) : Prop := {
  lf_seat : (cid, ch) ∉ seats l;
  lf_void : void cid ch l;
  lf_conn : 0 < cid < lp_next_conn l }.

(** Connections that keep their counters, and no more jobs than before. *)
Record calmer (l l' : loop) : Prop := {
  cm_nconn : lp_next_conn l' = lp_next_conn l;
  cm_jobs : ∀ j, j ∈ lp_jobs l' → j ∈ lp_jobs l;
  cm_conn : ∀ cid c', lp_conns l' !! cid = Some c' → ∃ c, lp_conns l !! cid = Some c ∧ cn_call_gen c' = cn_call_gen c ∧ cn_call_join_ch c' = cn_call_join_ch c;
  cm_seats : ∀ x, fst x ≠ 0 → x ∈ seats l' → x ∈ seats l }.
#[export] Instance calmer_preorder : PreOrder calmer.
Proof.
  split; [intros l; split; eauto|]. intros l1 l2 l3 [A1 A2 A3 A4] [B1 B2 B3 B4]. split; [congruence|auto| |auto].
  intros cid c3 E. destruct (B3 _ _ E) as (c2 & E2 & ? & ?). destruct (A3 _ _ E2) as (c1 & E1 & ? & ?). exists c1. split_and!; congruence.
Qed.
Lemma seated_calmer l l' : seated [] l l' → calmer l l'.
Proof.
  intros [K H]. split; [apply K|by rewrite (kp_jobs _ _ K)| |intros x Hx Hin; destruct (H x Hx Hin) as [|Hn]; [done|by apply not_elem_of_nil in Hn]].
  intros cid c' E. pose proof (keeps_conn _ _ cid K) as Hc. rewrite E in Hc. destruct (lp_conns l !! cid) as [c|]; [|done]. exists c. injection Hc as ? ? ? ?. done.
Qed.
Lemma put_conn_calmer cid c c' l : lp_conns l !! cid = Some c → cn_call_gen c' = cn_call_gen c → cn_call_join_ch c' = cn_call_join_ch c → calmer l (put_conn cid c' l).
Proof.
  intros E H1 H2. split; [done|done| |done]. intros d x. unfold put_conn. cbn. destruct (decide (cid = d)) as [<-|].
  - rewrite lookup_insert_eq. intros [= <-]. eauto.
  - rewrite lookup_insert_ne by done. eauto.
Qed.
Lemma quiet_calmer l l' : quietly l l' → calmer l l'.
Proof. intros Q. by apply seated_calmer, quiet_seated. Qed.
Lemma gens_calmer t l l' : gens_ok t l → calmer l l' → gens_ok t l'.
Proof.
  intros [G0 G1 G2 G3] [C1 C2 C3 C4]. split; rewrite ?C1; [done|..].
  - intros cid c' E. destruct (C3 _ _ E) as (c & Ec & -> & _). by apply G1.
  - intros j Hj. by apply G2, C2.
  - intros j c' Hj Hop E. destruct (C3 _ _ E) as (c & Ec & -> & ->). by apply G3; [apply C2| |].
Qed.
Lemma left_calmer cid ch l l' : left cid ch l → calmer l l' → left cid ch l'.
Proof.
  intros [L1 L2 L3] [C1 C2 C3 C4]. split; rewrite ?C1; [|..|done].
  - intros Hin. apply L1, C4; [cbn; lia|done].
  - intros j c' Hj Hop Hc Hch E. destruct (C3 _ _ E) as (c & Ec & -> & _). by apply (L2 j c); [apply C2|..].
Qed.

Lemma append_error_calmer cap cid m l : calmer l (snd (append_error cap cid m l)).
Proof.
  unfold append_error, with_conn, find_by_id. destruct (lp_conns l !! cid) as [c|] eqn:E; [|done]. destruct (encode_in cap _); [|done].
  destruct (out_append _ _) as [ok q]. cbn [snd]. assert (C : calmer l (put_conn cid (c <| cn_out := q |>) l)) by (by apply (put_conn_calmer cid c)).
  destruct ok; [|done]. etransitivity; [exact C|]. apply quiet_calmer. by apply note_quiet.
Qed.
Lemma close_calmer e cid l : calmer l (conn_close e cid l).
Proof.
  unfold conn_close. destruct (find_by_id cid l); [|done]. transitivity (index_remove cid l); [|apply seated_calmer, conn_closed_seated].
  destruct (index_remove_gone cid l) as [E1 E2 E3 E4 E5 E6]. split; [done|by rewrite E5| |by unfold seats; rewrite E1].
  intros d c'. rewrite E6. intros [_ E]%lookup_delete_Some. eauto.
Qed.
(** The frames that do not touch the counters. *)
Lemma other_frames_calmer e cid ty payload l : ty ≠ M_JOIN → ty ≠ M_INVITE → ty ≠ M_LEAVE → calmer l (snd (handle_call e cid ty payload l)).
Proof.
  intros H1 H2 H3. unfold handle_call, decoded. destruct ty; try done.
  - destruct (run_decode oc_decode_call_decline payload) as [|m]; [done|]. unfold on_decline, with_conn. destruct (find_by_id cid l) as [c|]; [|done]. cbn [snd].
    destruct (call_find _ l) as [i|] eqn:Ef; [|done]. apply call_find_spec in Ef as (cc & E & _). rewrite (call_at_lookup _ _ _ E). destruct (call_invited cc _); [|done].
    apply seated_calmer. etransitivity; [|apply quiet_seated, call_send_state_quiet]. apply (tweak_seated _ i cc); [done|apply uninvite_same].
  - destruct (run_decode oc_decode_call_end payload) as [|m]; [done|]. unfold on_end, with_conn. destruct (find_by_id cid l) as [c|]; [|done]. cbn [snd].
    destruct (call_find _ l) as [i|]; [|apply seated_calmer, error_seated]. destruct (negb _); [apply seated_calmer, error_seated|apply seated_calmer, finish_seated].
  - destruct (run_decode oc_decode_call_share payload) as [|m]; [done|]. unfold on_share. cbn [snd]. destruct (own_call cid _ l) as [i|] eqn:Eo; [|apply seated_calmer, error_seated].
    apply own_call_spec in Eo as (cc & p & k & E & _). rewrite (call_at_lookup _ _ _ E).
    match goal with |- context [put_call i ?x l] => set (c2 := x) end. assert (S : seated [] l (put_call i c2 l)) by (by apply (tweak_seated _ i cc)).
    apply seated_calmer. destruct (_ =? ct_sharer cc); [done|]. etransitivity; [exact S|]. apply quiet_seated, call_send_state_quiet.
  - destruct (run_decode (oc_decode_call_key OC_MAX_CALL_PARTICIPANTS) payload) as [|m]; [done|]. unfold on_key, with_conn. destruct (find_by_id cid l) as [c|]; [|done]. cbn [snd].
    destruct (own_call cid _ l) as [i|]; [|apply seated_calmer, error_seated]. destruct (negb _ || negb _); [done|]. apply quiet_calmer, sends_quiet.
Qed.

(** A connection's counter moves on, past every join out. *)
Lemma gens_move t cid c g chn l : gens_ok t l → t + 1 < 2 ^ 32 → lp_conns l !! cid = Some c → g = u32 (cn_call_gen c + 1) →
  gens_ok (t + 1) (put_conn cid (c <| cn_call_gen := g |> <| cn_call_join_ch := chn |>) l) ∧
  (∀ j, j ∈ lp_jobs l → jb_op j = OC_CALL_OP_JOIN → jb_conn j = cid → jb_gen j < g) ∧ 0 <= g <= t + 1.
Proof.
  intros [G0 G1 G2 G3] Ht E ->. destruct (G1 _ _ E) as [Hn Hg]. rewrite u32_id by (unfold is_u32; lia).
  assert (Hj : ∀ j, j ∈ lp_jobs l → jb_op j = OC_CALL_OP_JOIN → jb_conn j = cid → jb_gen j < cn_call_gen c + 1).
  { intros j Hj Hop Hc. subst cid. destruct (G3 j c Hj Hop E). lia. }
  split_and!; [|done|lia|lia]. split; unfold put_conn; cbn [lp_conns lp_jobs lp_next_conn set_field]; [lia|..].
  - intros d x. destruct (decide (cid = d)) as [<-|]; [rewrite lookup_insert_eq; intros [= <-]; cbn; lia|]. rewrite lookup_insert_ne by done. intros Ed. destruct (G1 _ _ Ed). lia.
  - done.
  - intros j x Hin Hop. destruct (decide (cid = jb_conn j)) as [Hc|]; [rewrite <- Hc, lookup_insert_eq; intros [= <-]; cbn|by rewrite lookup_insert_ne by done; apply G3].
    pose proof (Hj j Hin Hop (eq_sym Hc)). split; [lia|]. intros; lia.
Qed.
Lemma gens_submit t j l : gens_ok t l → jb_conn j < lp_next_conn l →
  (jb_op j = OC_CALL_OP_JOIN → ∀ c, lp_conns l !! jb_conn j = Some c → jb_gen j <= cn_call_gen c ∧ (jb_gen j = cn_call_gen c → cn_call_join_ch c = jb_channel j)) →
  gens_ok t (submit j l).
Proof.
  intros [G0 G1 G2 G3] Hn Hj. split; unfold submit; cbn [lp_conns lp_jobs lp_next_conn set_field]; [done|done|..].
  - intros x [Hx|Hx]%elem_of_app; [by apply G2|]. by apply list_elem_of_singleton in Hx as ->.
  - intros x c [Hx|Hx]%elem_of_app Hop E; [by apply G3|]. apply list_elem_of_singleton in Hx as ->. by apply Hj.
Qed.
Lemma gens_mono t t' l : gens_ok t l → t <= t' → gens_ok t' l.
Proof. intros [G0 G1 G2 G3] Ht. split; [lia| |done|done]. intros cid c E. destruct (G1 _ _ E). lia. Qed.

(** ** What each event does to them *)

Definition joins (cid ch : Z) (ev : call_event) : Prop :=
  match ev with
  | EvFrame d M_JOIN payload =>
      d = cid ∧ match run_decode (oc_decode_call_join OC_MAX_CALL_INVITES) payload with inr m => call_join_channel_id m = ch | inl _ => False end
  | _ => False
  end.
Lemma demo_ok_conns now k u l : lp_conns (snd (demo_ok now k u l)) = lp_conns l ∧ lp_jobs (snd (demo_ok now k u l)) = lp_jobs l ∧
  lp_next_conn (snd (demo_ok now k u l)) = lp_next_conn l ∧ seats (snd (demo_ok now k u l)) = seats l.
Proof. unfold demo_ok. destruct (lp_demo l); [|done]. by destruct (oc_dl_take _ _ _ _). Qed.
Lemma on_join_does e cid m l t : gens_ok t l → t + 1 < 2 ^ 32 →
  gens_ok (t + 1) (snd (on_join e cid m l)) ∧ ∀ d ch, left d ch l → (d = cid → call_join_channel_id m ≠ ch) → left d ch (snd (on_join e cid m l)).
Proof.
  intros G Ht. unfold on_join, with_conn, find_by_id. destruct (lp_conns l !! cid) as [c|] eqn:E; [|split; [by apply (gens_mono t); [|lia]|done]].
  destruct (demo_ok_conns (e_now e) OC_DL_CALL (cn_user c) l) as (E1 & E2 & E3 & E4). pose proof (demo_ok_quiet (e_now e) OC_DL_CALL (cn_user c) l) as Q.
  destruct (demo_ok _ _ _ l) as [ok l1]. cbn [snd] in *. apply quiet_calmer in Q. pose proof (gens_calmer _ _ _ G Q) as G1. rewrite <- E1 in E.
  destruct ok; cbn [negb snd].
  2: { assert (C : calmer l (snd (demo_refuse_call cid l1))) by (etransitivity; [exact Q|apply append_error_calmer]).
       split; [apply (gens_mono t); [by apply (gens_calmer _ l)|lia]|]. intros d ch L _. by apply (left_calmer d ch l). }
  set (g := u32 (cn_call_gen c + 1)). destruct (gens_move t cid c g (call_join_channel_id m) l1 G1 Ht E eq_refl) as (G2 & Hj & Hg). split.
  - apply gens_submit; [done|apply (go_conn _ _ G1 _ _ E)|]. intros _ c'. unfold put_conn. cbn [lp_conns set_field jb_conn]. rewrite lookup_insert_eq. intros [= <-]. cbn. split; [lia|done].
  - intros d ch L Hne. apply (left_calmer _ _ _ _ L) in Q as [L1 L2 L3]. split; [exact L1| |exact L3].
    intros j x [Hin|Hin]%elem_of_app Hop Hc Hch; unfold submit, put_conn; cbn [lp_conns set_field].
    + destruct (decide (cid = d)) as [->|]; [rewrite lookup_insert_eq; intros [= <-]; cbn; by apply Hj|]. rewrite lookup_insert_ne by done. by apply (L2 j).
    + apply list_elem_of_singleton in Hin as ->. cbn in Hc, Hch. exfalso. by apply Hne.
Qed.
Lemma on_invite_does cid m l t : gens_ok t l → gens_ok t (snd (on_invite cid m l)) ∧ ∀ d ch, left d ch l → left d ch (snd (on_invite cid m l)).
Proof.
  intros G. unfold on_invite, with_conn, find_by_id. destruct (lp_conns l !! cid) as [c|] eqn:E; [|done]. cbn [snd]. split.
  - apply gens_submit; [done|apply (go_conn _ _ G _ _ E)|done].
  - intros d ch [L1 L2 L3]. split; [exact L1| |exact L3]. intros j x [Hin|Hin]%elem_of_app Hop; [by apply (L2 j)|]. by apply list_elem_of_singleton in Hin as ->.
Qed.
Lemma on_leave_does e cid m l t : gens_ok t l → t + 1 < 2 ^ 32 →
  gens_ok (t + 1) (snd (on_leave e cid m l)) ∧ ∀ d ch, left d ch l → left d ch (snd (on_leave e cid m l)).
Proof.
  intros G Ht. unfold on_leave, with_conn, find_by_id. destruct (lp_conns l !! cid) as [c|] eqn:E; [|split; [by apply (gens_mono t); [|lia]|done]]. cbn [snd].
  set (g := u32 (cn_call_gen c + 1)). destruct (gens_move t cid c g 0 l G Ht E eq_refl) as (G2 & Hj & Hg).
  match goal with |- context [call_of_conn cid ?x] => set (l1 := x) end.
  assert (G1 : gens_ok (t + 1) l1) by (unfold l1; destruct (_ =? _); [exact G2|apply (gens_mono t); [done|lia]]).
  assert (Ll : ∀ d ch, left d ch l → left d ch l1).
  { intros d ch L. unfold l1. destruct (_ =? _); [|done]. destruct L as [L1 L2 L3]. split; [exact L1| |exact L3]. intros j x Hin Hop Hc Hch.
    unfold put_conn. cbn [lp_conns set_field]. destruct (decide (cid = d)) as [->|]; [rewrite lookup_insert_eq; intros [= <-]; cbn; by apply Hj|].
    rewrite lookup_insert_ne by done. by apply (L2 j). }
  clearbody l1.
  assert (C : calmer l1 (match call_of_conn cid l1 with Some (i, k) => if ct_channel (call_at i l1) =? call_leave_channel_id m then call_drop e i k l1 else l1 | None => l1 end)).
  { destruct (call_of_conn cid l1) as [[i k]|] eqn:Eo; [|done]. apply call_of_conn_spec in Eo as (cc & p & Ei & _ & Ek & _). destruct (_ =? _); [|done].
    apply seated_calmer. by apply (drop_seated e i cc k p). }
  split; [by apply (gens_calmer _ l1)|]. intros d ch L. apply (left_calmer d ch l1); [by apply Ll|done].
Qed.
Lemma frame_does e cid ty payload l t : gens_ok t l → t + 1 < 2 ^ 32 →
  gens_ok (t + 1) (snd (on_call_frame e cid ty payload l)) ∧
  ∀ d ch, left d ch l → ¬ joins d ch (EvFrame cid ty payload) → left d ch (snd (on_call_frame e cid ty payload l)).
Proof.
  intros G Ht.
  assert (Hh : ∀ l, gens_ok t l → gens_ok (t + 1) (snd (handle_call e cid ty payload l)) ∧
    ∀ d ch, left d ch l → ¬ joins d ch (EvFrame cid ty payload) → left d ch (snd (handle_call e cid ty payload l))).
  { clear l G. intros l G. assert (Gm : gens_ok (t + 1) l) by (apply (gens_mono t); [done|lia]).
    assert (Hcalm : ty ≠ M_JOIN → ty ≠ M_INVITE → ty ≠ M_LEAVE → gens_ok (t + 1) (snd (handle_call e cid ty payload l)) ∧
      ∀ d ch, left d ch l → ¬ joins d ch (EvFrame cid ty payload) → left d ch (snd (handle_call e cid ty payload l))).
    { intros H1 H2 H3. pose proof (other_frames_calmer e cid ty payload l H1 H2 H3) as C. split; [by apply (gens_calmer _ l)|]. intros d ch L _. by apply (left_calmer d ch l). }
    destruct ty; try (by apply Hcalm); unfold handle_call, decoded.
    - destruct (run_decode (oc_decode_call_join OC_MAX_CALL_INVITES) payload) as [|m] eqn:E; [done|]. destruct (on_join_does e cid m l t G Ht) as [H1 H2]. split; [done|].
      intros d ch L Hn. apply H2; [done|]. intros -> Hm. apply Hn. cbn. by rewrite E.
    - destruct (run_decode (oc_decode_call_invite OC_MAX_CALL_INVITES) payload) as [|m] eqn:E; [done|]. destruct (on_invite_does cid m l t G) as [H1 H2].
      split; [by apply (gens_mono t); [|lia]|]. auto.
    - destruct (run_decode oc_decode_call_leave payload) as [|m] eqn:E; [done|]. destruct (on_leave_does e cid m l t G Ht) as [H1 H2]. split; auto. }
  unfold on_call_frame, with_conn, find_by_id. destruct (lp_conns l !! cid) as [c|] eqn:E; [|split; [by apply (gens_mono t); [|lia]|done]].
  destruct (rate_limited ty); [|by apply Hh]. destruct (win_ok _ _ _ _) as [ok w].
  assert (C : calmer l (put_conn cid (c <| cn_call_rl := w |>) l)) by (by apply (put_conn_calmer cid c)). pose proof (gens_calmer _ _ _ G C) as G1.
  destruct ok.
  - destruct (Hh _ G1) as [H1 H2]. split; [done|]. intros d ch L. apply H2. by apply (left_calmer d ch l).
  - assert (C2 : calmer l (snd (call_rate_refuse cid (put_conn cid (c <| cn_call_rl := w |>) l)))) by (etransitivity; [exact C|apply append_error_calmer]).
    split; [apply (gens_mono t); [by apply (gens_calmer _ l)|lia]|]. intros d ch L _. by apply (left_calmer d ch l).
Qed.
Lemma deliver_does e cfg db j l t : gens_ok t l →
  gens_ok t (deliver_call e cfg (process_call_auth db j) l) ∧
  ∀ d ch, left d ch l → (∀ c, jb_op j = OC_CALL_OP_JOIN → jb_conn j = d → jb_channel j = ch → lp_conns l !! d = Some c → jb_gen j < cn_call_gen c) →
    left d ch (deliver_call e cfg (process_call_auth db j) l).
Proof.
  intros G. assert (Hc : ∀ l', calmer l l' → gens_ok t l' ∧ ∀ d ch, left d ch l → (∀ c, jb_op j = OC_CALL_OP_JOIN → jb_conn j = d → jb_channel j = ch → lp_conns l !! d = Some c → jb_gen j < cn_call_gen c) → left d ch l').
  { intros l' C. split; [by apply (gens_calmer _ l)|]. intros d ch L _. by apply (left_calmer d ch l). }
  unfold process_call_auth. destruct (negb _); cbn [deliver_call]; [apply Hc, seated_calmer, error_seated|].
  unfold find_by_id. destruct (lp_conns l !! jb_conn j) as [jc|] eqn:E; [|by apply Hc]. destruct (negb (cn_authed jc)); [by apply Hc|].
  destruct (jb_op j) eqn:Eop; [|by apply Hc, seated_calmer, answer_invite_seated].
  set (l' := answer_join _ _ _ _ _ _ _). destruct (answer_join_seated e cfg jc j (load_members db (jb_channel j))
    (filter (fun u => Is_true (negb (u =? 0) && negb (u =? jb_user j) && user_is_active db u && channel_read_access db (jb_channel j) u)) (jb_uids j)) l) as [K S]. fold l' in K, S.
  assert (K' : ∀ cid c', lp_conns l' !! cid = Some c' → ∃ c, lp_conns l !! cid = Some c ∧ cn_call_gen c' = cn_call_gen c ∧ cn_call_join_ch c' = cn_call_join_ch c).
  { intros cid c' E'. pose proof (keeps_conn _ _ cid K) as Hk. rewrite E' in Hk. destruct (lp_conns l !! cid) as [c|]; [|done]. exists c. injection Hk as ? ? ? ?. done. }
  split.
  - destruct G as [G0 G1 G2 G3]. split; rewrite ?(kp_nconn _ _ K), ?(kp_jobs _ _ K); try done.
    + intros cid c' E'. destruct (K' _ _ E') as (c & Ec & -> & _). by apply G1.
    + intros j' c' Hj Hop E'. destruct (K' _ _ E') as (c & Ec & -> & ->). by apply G3.
  - intros d ch [L1 L2 L3] Hv. split; rewrite ?(kp_nconn _ _ K); [| |done].
    + intros Hin. destruct (S (d, ch) ltac:(cbn; lia) Hin) as [|Ha]; [done|]. destruct (Z.eqb_spec (jb_gen j) (cn_call_gen jc)) as [Hg|]; [|by apply not_elem_of_nil in Ha].
      apply list_elem_of_singleton in Ha. injection Ha as -> ->. pose proof (Hv jc eq_refl eq_refl eq_refl E). lia.
    + intros j' c' Hj Hop Hcc Hch E'. rewrite (kp_jobs _ _ K) in Hj. destruct (K' _ _ E') as (c & Ec & -> & _). by apply (L2 j' c).
Qed.
Lemma step_does cfg e ev l t : gens_ok t l → t + 1 < 2 ^ 32 →
  gens_ok (t + 1) (call_step cfg e ev l) ∧ ∀ d ch, left d ch l → ¬ joins d ch ev → left d ch (call_step cfg e ev l).
Proof.
  intros G Ht. assert (Gm : gens_ok (t + 1) l) by (apply (gens_mono t); [done|lia]).
  assert (Hc : ∀ l', calmer l l' → gens_ok (t + 1) l' ∧ ∀ d ch, left d ch l → ¬ joins d ch ev → left d ch l').
  { intros l' C. split; [by apply (gens_calmer _ l)|]. intros d ch L _. by apply (left_calmer d ch l). }
  destruct ev as [|cid uid|cid|cid ty payload|k db|tok|]; cbn [call_step].
  - pose proof G as [G0 G1 G2 G3]. assert (u64 (lp_next_conn l + 1) = lp_next_conn l + 1) as Hn by (apply u64_id; unfold is_u64; lia). split.
    + split; unfold index_add, put_conn; cbn [lp_conns lp_jobs lp_next_conn set_field]; rewrite ?Hn; [lia|..].
      * intros cid c. destruct (decide (lp_next_conn l = cid)) as [<-|]; [rewrite lookup_insert_eq; intros [= <-]; cbn; lia|]. rewrite lookup_insert_ne by done. intros E. destruct (G1 _ _ E). lia.
      * intros j Hj. pose proof (G2 j Hj). lia.
      * intros j c Hj Hop. pose proof (G2 j Hj). rewrite lookup_insert_ne by lia. by apply G3.
    + intros d ch [L1 L2 L3] _. split; [exact L1| |unfold index_add, put_conn; cbn [lp_next_conn set_field]; rewrite Hn; lia]. intros j c Hj Hop Hcc Hch. unfold index_add, put_conn. cbn [lp_conns set_field].
      rewrite lookup_insert_ne by (change (lp_next_conn l ≠ d); lia). by apply (L2 j).
  - apply Hc. destruct (lp_conns l !! cid) as [c|] eqn:E; [|unfold auth_ok, find_by_id; by rewrite E]. destruct (auth_conns cid uid l c E) as (E1 & E2 & E3 & E4 & E5 & E6).
    split; [done|by rewrite E6| |by unfold seats; rewrite E2]. intros d x. rewrite E1. destruct (decide (cid = d)) as [<-|]; [rewrite lookup_insert_eq; intros [= <-]; eauto|].
    rewrite lookup_insert_ne by done. eauto.
  - apply Hc, close_calmer.
  - destruct (find_by_id cid l) as [c|]; [|by apply Hc]. destruct (cn_authed c); [|by apply Hc]. destruct (frame_does e cid ty payload l t G Ht) as [H1 H2].
    destruct (on_call_frame e cid ty payload l) as [[] l1]; cbn [snd] in *; [done|]. split; [apply (gens_calmer _ l1); [done|apply close_calmer]|].
    intros d ch L Hn. apply (left_calmer d ch l1); [by apply H2|apply close_calmer].
  - destruct (lp_jobs l !! k) as [j|] eqn:Ej; [|by apply Hc]. set (l1 := l <| lp_jobs := delete k (lp_jobs l) |>).
    assert (C : calmer l l1).
    { split; [done| |eauto|done]. intros x Hx. change (lp_jobs l1) with (delete k (lp_jobs l)) in Hx. rewrite (delete_Permutation _ _ _ Ej). by right. }
    destruct (deliver_does e cfg db j l1 t (gens_calmer _ _ _ G C)) as [H1 H2]. split; [by apply (gens_mono t); [|lia]|]. intros d ch L _.
    apply H2; [by apply (left_calmer d ch l)|]. intros c Hop Hcc Hch E. by apply (lf_void _ _ _ L j c); [eapply list_elem_of_lookup_2|..].
  - apply Hc. transitivity (note (Swept tok) l); [apply seated_calmer, eqv_seated; by apply eqv_note|apply seated_calmer, drop_token_seated].
  - apply Hc, seated_calmer, expire_seated.
Qed.
Lemma run_does cfg evs : ∀ l t, gens_ok t l → t + Z.of_nat (length evs) < 2 ^ 32 →
  gens_ok (t + Z.of_nat (length evs)) (call_run cfg l evs) ∧
  ∀ d ch, left d ch l → Forall (fun x => ¬ joins d ch (snd x)) evs → left d ch (call_run cfg l evs).
Proof.
  unfold call_run. induction evs as [|[e ev] evs IH]; intros l t G Hn; cbn [length foldl] in *; [split; [by rewrite Z.add_0_r|done]|].
  destruct (step_does cfg e ev l t G ltac:(lia)) as [G1 L1]. destruct (IH (call_step cfg e ev l) (t + 1) G1 ltac:(lia)) as [G2 L2].
  split; [by replace (t + Z.of_nat (S (length evs))) with (t + 1 + Z.of_nat (length evs)) by lia|].
  intros d ch L Hf. apply list.Forall_cons in Hf as [Hf1 Hf2]. apply L2; [|done]. by apply L1.
Qed.
Lemma init_gens demo : gens_ok 0 (loop_init demo).
Proof. split; cbn; [lia|by intros ? ? ?%lookup_empty_Some|by intros ? ?%not_elem_of_nil|by intros ? ? ?%not_elem_of_nil]. Qed.

(** A seat is where [call_of_conn] looks. *)
Lemma seat_attached cid ch l : cid ≠ 0 → (cid, ch) ∈ seats l → cid ∈ gather att_of (lp_calls l).
Proof.
  intros Hne (c & Hc & Hin)%elem_of_gather. apply elem_of_gather. exists c. split; [done|]. unfold seat_of, att_of, if_live in *.
  destruct (call_live c); [|by apply not_elem_of_nil in Hin]. apply list_elem_of_fmap in Hin as (p & [= -> _] & Hp). apply list_elem_of_filter. split; [done|].
  by apply list_elem_of_fmap_2.
Qed.
Lemma one_seat cfg strict used t cid ch i c k p l : inv cfg strict used t l → cid ≠ 0 → (cid, ch) ∈ seats l →
  lp_calls l !! i = Some c → call_live c = true → ct_parts c !! k = Some p → pt_conn p = cid → ct_channel c = ch.
Proof.
  intros I Hne Hin E L Ek Hp. destruct (open_row _ _ _ _ _ _ _ I E L) as [H _]. unfold seats in Hin. rewrite (gather_split _ _ _ _ E) in Hin. apply elem_of_app in Hin as [Hin|Hin].
  - unfold seat_of, if_live in Hin. rewrite L in Hin. by apply list_elem_of_fmap in Hin as (q & [= _ ->] & _).
  - exfalso. apply (hole_avoid _ _ _ _ _ _ _ _ cid H).
    + apply list_elem_of_fmap. exists p. split; [done|]. by eapply list_elem_of_lookup_2.
    + apply elem_of_gather in Hin as (d & Hd & Hin). apply elem_of_gather. exists d. split; [done|]. unfold seat_of, att_of, if_live in *.
      destruct (call_live d); [|by apply not_elem_of_nil in Hin]. apply list_elem_of_fmap in Hin as (q & [= -> _] & Hq). apply list_elem_of_filter. split; [done|]. by apply list_elem_of_fmap_2.
Qed.
