(* ===== verification/CallsMain.v ===== *)
(** * What the calls promise

    Over every sequence of events from an empty loop: the table is well formed,
    a KID names one sender's key, everyone in a call holds its current roster,
    the relay forwards for exactly the participants, and a leave wins over the
    joins still out. *)
From stdpp Require Import base tactics list numbers gmap strings.
From S2P Require Import Prelude.
From S2P Require Import Wire.
From S2P Require Import ProtoTypes.
From S2P Require Import ProtoCall.
From S2P Require Import ProtoUsers.
From S2P Require Import Demolimits.
From S2P Require Import Outq.
From S2P Require Import Calls.
From S2P Require Import CallsInv.
From S2P Require Import CallsStep.
From S2P Require Import CallsRun.
From S2P Require Import CallsSeats.
Local Open Scope Z_scope.
Local Open Scope oc_scope.

(** A run from an empty loop, short enough for its 32-bit counters. *)
Definition short_run (cfg : call_cfg) (evs : list (call_env * call_event)) : Prop :=
  cfg_ok cfg ∧ events_ok evs ∧ Z.of_nat (length evs) < 2 ^ 31 - 1.
Lemma reach_inv cfg demo evs : short_run cfg evs → ∃ used, inv cfg false used (Z.of_nat (length evs)) (call_run cfg (loop_init demo) evs).
Proof. intros (Hc & He & Hn). exact (call_run_ok cfg false Hc [] 0 (loop_init demo) evs (init_inv cfg false demo) He ltac:(lia) ltac:(done)). Qed.
(** Every [oc_rand_bytes] succeeds, and no two give the same bytes. *)
Definition good_randomness (evs : list (call_env * call_event)) : Prop :=
  Forall (fun x => is_Some (e_rand (fst x))) evs ∧ NoDup (rands evs).
Lemma reach_strict cfg demo evs : short_run cfg evs → good_randomness evs →
  ∃ used, inv cfg true used (Z.of_nat (length evs)) (call_run cfg (loop_init demo) evs).
Proof.
  intros (Hc & He & Hn) [Hr1 Hr2]. apply (call_run_ok cfg true Hc [] 0 (loop_init demo) evs (init_inv cfg true demo) He); [lia|].
  intros _. split_and!; [done|done|]. intros r _. by apply not_elem_of_nil.
Qed.

(** A call as it should be. *)
Record call_good (cfg : call_cfg) (l : loop) (c : call_t) : Prop := {
  cg_some : ct_parts c ≠ [];
  cg_max : zlen (ct_parts c) <= cfg_call_max cfg;
  cg_users : NoDup (pt_user <$> ct_parts c);
  cg_slots : NoDup (pt_slot <$> ct_parts c);
  cg_slot_max : ∀ p, p ∈ ct_parts c → 0 <= pt_slot p < cfg_call_max cfg;
  cg_seat : ∀ p, p ∈ ct_parts c → (pt_conn p = 0 ∧ pt_detached p ≠ 0) ∨ (is_Some (lp_conns l !! pt_conn p) ∧ pt_detached p = 0);
  cg_invited : NoDup (ct_invited c) ∧ zlen (ct_invited c) <= cfg_call_max cfg;
  cg_apart : ∀ u, u ∈ ct_invited c → u ∉ pt_user <$> ct_parts c;
  cg_sharer : ct_sharer c = 0 ∨ ct_sharer c ∈ pt_conn <$> ct_parts c }.

(** C18: the table of calls stays well formed.  Whatever clients send, however
    the reader answers, and whichever connections drop, every call has someone in
    it and no more than the cap; its users and its slots are distinct and its
    slots below the cap (so they fit their byte and their array); a participant
    is on an open connection or away, with a time; nobody is both invited and in;
    and whoever shares a screen is in the call.  No two calls are of one
    conversation, and no connection is in two. *)
Theorem calls_wellformed cfg demo evs :
  short_run cfg evs →
  let l := call_run cfg (loop_init demo) evs in
  (∀ c, c ∈ lp_calls l → call_live c = true → call_good cfg l c) ∧
  NoDup (gather chan_of (lp_calls l)) ∧ NoDup (gather att_of (lp_calls l)).
Proof.
  intros H l. destruct (reach_inv cfg demo evs H) as [used [B R _]]. fold l in B, R. split_and!; [|apply B|apply B].
  intros c Hc L. rewrite Forall_forall in R. destruct (R c Hc L) as [[Rmax Rparts Rusers Rslots Rsh Rinv Rap Rim Rch Rst Rid Rep] Hn].
  rewrite Forall_forall in Rparts. split; try done.
  - intros p Hp. by destruct (Rparts p Hp) as (_ & ? & _).
  - intros p Hp. destruct (Rparts p Hp) as (_ & _ & _ & _ & _ & Haway). destruct (decide (pt_conn p = 0)) as [E|E]; [left; split; [done|by apply Haway]|right].
    split; [|destruct (decide (pt_detached p = 0)); [done|exfalso; by apply E, Haway]].
    apply (ba_open _ _ _ _ _ B), elem_of_gather. exists c. split; [done|]. unfold att_of, if_live. rewrite L. apply list_elem_of_filter. split; [done|]. by apply list_elem_of_fmap_2.
Qed.

(** C2: a KID names one sender's key.  CALLS.md makes an SFrame key id of the
    epoch and a participant's slot.  Of any two rosters ever sent for one call
    with one epoch -- to anyone, in CALL_ROSTER or CALL_JOINED, across joins,
    leaves, moves to another device, lost and swept connections -- no slot is
    given to two users or two device keys. *)
Theorem call_keys_unambiguous cfg demo evs x y p q :
  short_run cfg evs →
  x ∈ rosters (lp_trace (call_run cfg (loop_init demo) evs)) → y ∈ rosters (lp_trace (call_run cfg (loop_init demo) evs)) →
  fst x = fst y → p ∈ snd x → q ∈ snd y → call_part_slot p = call_part_slot q →
  call_part_user_id p = call_part_user_id q ∧ call_part_device_key p = call_part_device_key q.
Proof.
  intros H Hx Hy E Hp Hq Hs. destruct (reach_inv cfg demo evs H) as [used [B _ _]]. destruct (ba_rosters _ _ _ _ _ B) as [_ _ Rsame Rslots].
  assert (x = y) as <- by (by apply Rsame). rewrite Forall_forall in Rslots. specialize (Rslots x Hx). unfold slots_apart in Rslots.
  apply list_elem_of_lookup in Hp as (a & Ha), Hq as (b & Hb).
  assert (a = b) as ->; [|rewrite Ha in Hb; by injection Hb as ->].
  apply (NoDup_lookup _ a b (call_part_slot p) Rslots); rewrite list_lookup_fmap; [by rewrite Ha|by rewrite Hb, Hs].
Qed.

(** C15: While the random source answers, everyone is told of every change: for each
    connected participant of a call, the roster of that call as it stands, with its
    epoch, is the last one the connection was sent, or that very roster was dropped
    because the connection's output was over its cap ([Missed]). *)
Theorem everyone_has_roster cfg demo evs c cid :
  short_run cfg evs → good_randomness evs →
  c ∈ lp_calls (call_run cfg (loop_init demo) evs) → call_live c = true → cid ∈ attached c →
  got (lp_trace (call_run cfg (loop_init demo) evs)) cid = Some (ct_id c, ct_epoch c, call_fill_parts c) ∨
  ∃ fr, Missed cid fr ∈ lp_trace (call_run cfg (loop_init demo) evs) ∧ announced fr = Some (ct_id c, ct_epoch c, call_fill_parts c).
Proof.
  intros H Hr Hc L Hcid. destruct (reach_strict cfg demo evs H Hr) as [used [_ _ C]]. specialize (C eq_refl). rewrite Forall_forall in C.
  apply view_got. exact (C c Hc L cid Hcid).
Qed.

(** C6: the relay forwards for exactly the participants.  The tokens the loop
    has authorized and neither revoked nor had swept are those of the
    participants on an open connection, each for its call, user and
    connection: nobody who left, was dropped or lost the connection is relayed,
    and nobody in a call is left out. *)
Theorem relay_exact cfg demo evs tok id user cid :
  short_run cfg evs → good_randomness evs →
  let l := call_run cfg (loop_init demo) evs in
  relay_view (lp_trace l) !! tok = Some (id, user, cid) ↔
  ∃ c p, c ∈ lp_calls l ∧ call_live c = true ∧ p ∈ ct_parts c ∧ pt_conn p ≠ 0 ∧
    tok = pt_token p ∧ id = ct_id c ∧ user = pt_user p ∧ cid = pt_conn p.
Proof.
  intros H Hr l. destruct (reach_strict cfg demo evs H Hr) as [used [B _ _]]. fold l in B. destruct (ba_tokens _ _ _ _ _ B eq_refl) as (_ & _ & ->).
  rewrite elem_of_gather. split.
  - intros (c & Hc & Hin). destruct (call_live c) eqn:L; [|unfold ents_of, if_live in Hin; rewrite L in Hin; by apply not_elem_of_nil in Hin].
    apply (ents_iff _ _ _ L) in Hin as (p & Hp & Hne & [= -> -> -> ->]). exists c, p. done.
  - intros (c & p & Hc & L & Hp & Hne & -> & -> & -> & ->). exists c. split; [done|]. apply (ents_iff _ _ _ L). eauto.
Qed.

(** C19: a leave wins over the joins still out.  A join is answered after the
    reader's check, so a CALL_LEAVE can arrive first.  Once the loop has handled a
    connection's CALL_LEAVE for a conversation, the connection is not in that
    conversation's call, and stays out whatever is answered and whatever else
    happens, until it sends another CALL_JOIN for it. *)
Theorem leave_wins cfg demo evs evs' e cid payload ch :
  short_run cfg evs → Z.of_nat (length evs + length evs') < 2 ^ 31 - 2 →
  (∃ c, lp_conns (call_run cfg (loop_init demo) evs) !! cid = Some c ∧ cn_authed c = true) →
  run_decode oc_decode_call_leave payload = inr (mk_oc_call_leave ch) →
  Forall (fun x => ¬ joins cid ch (snd x)) evs' →
  (cid, ch) ∉ seats (call_run cfg (call_step cfg e (EvFrame cid M_LEAVE payload) (call_run cfg (loop_init demo) evs)) evs').
Proof.
  intros H Hlen (c & E & Ha) Hd Hf. destruct (reach_inv cfg demo evs H) as [used I]. destruct H as (Hcfg & _ & Hn).
  destruct (run_does cfg evs (loop_init demo) 0 (init_gens demo) ltac:(lia)) as [G _]. set (l := call_run cfg (loop_init demo) evs) in *. rewrite Z.add_0_l in G.
  set (t := Z.of_nat (length evs)) in *. destruct (ba_conns _ _ _ _ _ (in_base _ _ _ _ _ I) _ _ E) as [Hcid _].
  assert (Hl : call_step cfg e (EvFrame cid M_LEAVE payload) l = snd (on_leave e cid (mk_oc_call_leave ch) l)).
  { cbn [call_step]. unfold find_by_id at 1. rewrite E, Ha. unfold on_call_frame, with_conn at 1, find_by_id at 1. rewrite E. cbn [rate_limited]. unfold handle_call, decoded. rewrite Hd.
    unfold on_leave, with_conn. unfold find_by_id. by rewrite E. }
  destruct (on_leave_does e cid (mk_oc_call_leave ch) l t G ltac:(lia)) as [G1 _].
  rewrite Hl. assert (L1 : left cid ch (snd (on_leave e cid (mk_oc_call_leave ch) l))).
  { unfold on_leave, with_conn, find_by_id. rewrite E. cbn [snd call_leave_channel_id].
    set (l1 := if cn_call_join_ch c =? ch then put_conn cid (c <| cn_call_gen := u32 (cn_call_gen c + 1) |> <| cn_call_join_ch := 0 |>) l else l).
    assert (I1 : inv cfg false used t l1) by (unfold l1; destruct (_ =? _); [by apply (inv_put_conn cfg false used t cid c)|done]).
    assert (V1 : void cid ch l1 ∧ lp_next_conn l1 = lp_next_conn l).
    { destruct (gens_move t cid c _ 0 l G ltac:(lia) E eq_refl) as (_ & Hj & _). unfold l1. destruct (Z.eqb_spec (cn_call_join_ch c) ch) as [Hjc|Hjc]; (split; [|done]).
      - intros j x Hin Hop Hc Hch. unfold put_conn. cbn [lp_conns set_field]. rewrite lookup_insert_eq. intros [= <-]. by apply Hj.
      - intros j x Hin Hop Hc Hch Ex. rewrite E in Ex. injection Ex as <-. rewrite <- Hc in E. destruct (go_job _ _ G j c Hin Hop E) as [Hle Heq].
        destruct (decide (jb_gen j = cn_call_gen c)) as [Hg|]; [|lia]. exfalso. apply Hjc. rewrite (Heq Hg). done. }
    clearbody l1. destruct V1 as [V1 N1]. destruct (call_of_conn cid l1) as [[i k]|] eqn:Eo.
    - apply call_of_conn_spec in Eo as (cc & p & Ei & L & Ek & Hp). rewrite (call_at_lookup _ _ _ Ei). destruct (Z.eqb_spec (ct_channel cc) ch) as [Hch|Hch].
      + destruct (open_row _ _ _ _ _ _ _ I1 Ei L) as [Ho _]. destruct (drop_does e i k 0 l1) as (x & K & Ec & Hx). fold (call_drop e i k l1) in K, Ec. rewrite (call_at_lookup _ _ _ Ei) in Hx. split.
        * intros Hin. apply seat_attached in Hin; [|lia]. revert Hin. rewrite Ec, <- Hp. apply (removed_conn cfg false used _ _ _ _ _ _ _ x Ho Ek); [lia|]. destruct Hx as [|Hx]; [by left|right; by rewrite Hx].
        * intros j y Hin Hop Hc Hchj Ey. rewrite (kp_jobs _ _ K) in Hin. pose proof (keeps_conn _ _ cid K) as Hk. rewrite Ey in Hk. destruct (lp_conns l1 !! cid) as [y1|] eqn:Ey1; [|done].
          pose proof (V1 j y1 Hin Hop Hc Hchj Ey1). injection Hk as _ _ -> _. done.
        * rewrite (kp_nconn _ _ K), N1. lia.
      + split; [|done|rewrite N1; lia]. intros Hin. apply Hch. apply (one_seat cfg false used t cid ch i cc k p l1); try done. lia.
    - split; [|done|rewrite N1; lia]. intros Hin. apply seat_attached in Hin; [|lia]. revert Hin. by apply att_of_conn; [lia|]. }
  destruct (run_does cfg evs' (snd (on_leave e cid (mk_oc_call_leave ch) l)) (t + 1) G1 ltac:(lia)) as [_ L2]. apply (L2 cid ch L1 Hf).
Qed.

(** ** A run *)

Definition ex_cfg : call_cfg := mk_call_cfg 3 [1] 4000 true 15000.
Definition ex_env (n : Z) : call_env := mk_call_env (1000 + n) (fun _ => true) (Some (replicate 16 n)).
Definition ex_db : call_db := mk_call_db (fun ch _ => negb (ch =? 0)) (fun _ => [7; 8]) (fun _ => true).
Definition ex_join (ch : Z) : list Z := [0; 0; 0; 0; 0; 0; 0; ch] ++ replicate 32 ch ++ [1; 0; 0].
Definition ex_leave (ch : Z) : list Z := [0; 0; 0; 0; 0; 0; 0; ch].
(** Users 7 and 8 join the call of conversation 9; a third connection, user 7's
    phone, takes over; connection 2 is lost and its join is not yet answered. *)
Definition ex_run : list (call_env * call_event) :=
  [(ex_env 1, EvOpen); (ex_env 2, EvOpen); (ex_env 3, EvOpen); (ex_env 4, EvAuthOk 1 7); (ex_env 5, EvAuthOk 2 8); (ex_env 6, EvAuthOk 3 7);
   (ex_env 7, EvFrame 1 M_JOIN (ex_join 9)); (ex_env 8, EvAnswer 0 ex_db);
   (ex_env 9, EvFrame 2 M_JOIN (ex_join 9)); (ex_env 10, EvAnswer 0 ex_db);
   (ex_env 11, EvFrame 3 M_JOIN (ex_join 9)); (ex_env 12, EvAnswer 0 ex_db); (ex_env 13, EvClose 2)].
Ltac ex_event :=
  lazymatch goal with
  | |- env_ok _ => split; [cbn; lia|intros r [= <-]; split; [repeat constructor; unfold is_u8; lia|done]]
  | |- event_ok _ => first [exact I | split; [repeat constructor; lia|done] | (intros u; reflexivity) | (unfold event_ok, is_u64; lia)]
  end.
Lemma ex_short : short_run ex_cfg ex_run.
Proof.
  split; [|split].
  - unfold cfg_ok, ex_cfg, OC_MAX_CALL_PARTICIPANTS, is_u16. cbn. split_and!; try lia; [repeat constructor; lia|done].
  - unfold ex_run. repeat (apply list.Forall_cons; split; [split; cbn [fst snd]; ex_event|]). apply list.Forall_nil_2.
  - done.
Qed.
Lemma ex_random : good_randomness ex_run.
Proof. split; [repeat constructor; eauto|]. apply (bool_decide_unpack _). vm_compute. exact I. Qed.

Lemma calls_wellformed_witness :
  let l := call_run ex_cfg (loop_init false) ex_run in
  (∃ c, c ∈ lp_calls l ∧ call_live c = true ∧ map pt_user (ct_parts c) = [8; 7] ∧ map pt_slot (ct_parts c) = [1; 0]) ∧
  ∀ c, c ∈ lp_calls l → call_live c = true → call_good ex_cfg l c.
Proof.
  split; [|exact (proj1 (calls_wellformed ex_cfg false ex_run ex_short))].
  exists (nth 0 (lp_calls (call_run ex_cfg (loop_init false) ex_run)) call_zero). split; [|by split_and!; vm_compute].
  apply (list_elem_of_lookup_2 _ 0). vm_compute. reflexivity.
Defined.

Abbreviation ex_final := (call_run ex_cfg (loop_init false) ex_run).
Definition ex_call : call_t := call_at 0 ex_final.
Abbreviation ex_rosters := (rosters (lp_trace ex_final)).
Definition ex_roster (n : nat) : Z * Z * list oc_call_part := nth n ex_rosters (0, 0, []).
Definition ex_part (n m : nat) : oc_call_part := nth m (snd (ex_roster n)) (mk_oc_call_part 0 0 [] 0 0).
Lemma ex_call_in : ex_call ∈ lp_calls ex_final.
Proof. apply (list_elem_of_lookup_2 _ 0). vm_compute. reflexivity. Qed.
Lemma ex_roster_in n : bool_decide (is_Some (ex_rosters !! n)) = true → ex_roster n ∈ ex_rosters.
Proof. intros [x E]%bool_decide_eq_true. unfold ex_roster. rewrite nth_lookup, E. by eapply list_elem_of_lookup_2. Qed.

Lemma call_keys_unambiguous_witness :
  fst (ex_roster 1) = (1008, 2) ∧ fst (ex_roster 2) = (1008, 2) ∧ call_part_slot (ex_part 1 0) = 0 ∧ call_part_slot (ex_part 2 0) = 0 ∧
  call_part_user_id (ex_part 1 0) = call_part_user_id (ex_part 2 0) ∧ call_part_device_key (ex_part 1 0) = call_part_device_key (ex_part 2 0).
Proof.
  split; [vm_compute; reflexivity|]. split; [vm_compute; reflexivity|]. split; [vm_compute; reflexivity|]. split; [vm_compute; reflexivity|].
  apply (call_keys_unambiguous ex_cfg false ex_run (ex_roster 1) (ex_roster 2) (ex_part 1 0) (ex_part 2 0) ex_short).
  - apply ex_roster_in. vm_compute. reflexivity.
  - apply ex_roster_in. vm_compute. reflexivity.
  - vm_compute. reflexivity.
  - apply list_elem_of_In. vm_compute. left. reflexivity.
  - apply list_elem_of_In. vm_compute. left. reflexivity.
  - vm_compute. reflexivity.
Defined.

Lemma everyone_has_roster_witness :
  ct_epoch ex_call = 4 ∧ (got (lp_trace ex_final) 3 = Some (ct_id ex_call, ct_epoch ex_call, call_fill_parts ex_call) ∨
    ∃ fr, Missed 3 fr ∈ lp_trace ex_final ∧ announced fr = Some (ct_id ex_call, ct_epoch ex_call, call_fill_parts ex_call)).
Proof.
  split; [vm_compute; reflexivity|]. apply (everyone_has_roster ex_cfg false ex_run ex_call 3 ex_short ex_random ex_call_in).
  - vm_compute. reflexivity.
  - apply list_elem_of_In. vm_compute. left. reflexivity.
Defined.

Lemma relay_exact_witness :
  relay_view (lp_trace ex_final) !! (1 :: replicate 16 12) = Some (1008, 7, 3) ∧ relay_view (lp_trace ex_final) !! (1 :: replicate 16 10) = None.
Proof.
  split; [|vm_compute; reflexivity].
  apply (relay_exact ex_cfg false ex_run (1 :: replicate 16 12) 1008 7 3 ex_short ex_random).
  exists ex_call, (part_at ex_call 1). split; [exact ex_call_in|]. split; [vm_compute; reflexivity|]. split; [apply list_elem_of_In; vm_compute; right; left; reflexivity|].
  split; [vm_compute; discriminate|]. split_and!; vm_compute; reflexivity.
Defined.

(** User 7 joins and leaves before the join is answered. *)
Lemma leave_wins_witness :
  (1, 9) ∉ seats (call_run ex_cfg (call_step ex_cfg (ex_env 20) (EvFrame 1 M_LEAVE (ex_leave 9)) (call_run ex_cfg (loop_init false) (take 7 ex_run)))
                   [(ex_env 21, EvAnswer 0 ex_db)]).
Proof.
  apply (leave_wins ex_cfg false (take 7 ex_run) [(ex_env 21, EvAnswer 0 ex_db)] (ex_env 20) 1 (ex_leave 9) 9).
  - destruct ex_short as (H1 & H2 & _). split; [exact H1|]. split; [apply Forall_take; exact H2|cbn; lia].
  - vm_compute. reflexivity.
  - destruct (lp_conns (call_run ex_cfg (loop_init false) (take 7 ex_run)) !! 1) as [c|] eqn:E; [|vm_compute in E; discriminate].
    exists c. split; [reflexivity|]. vm_compute in E. by injection E as <-.
  - vm_compute. reflexivity.
  - apply list.Forall_cons. split; [intros []|apply list.Forall_nil_2].
Defined.

(** A rejoin without randomness strands the others.  When [oc_rand_bytes]
    fails for someone rejoining a call from the same connection, the seat is
    taken away and its token revoked, but the epoch does not move and nobody is
    told: the others still hold a roster of that epoch that lists the user, and
    seal keys for it. *)
Theorem no_randomness_strands :
  ∃ evs c, short_run ex_cfg evs ∧ c ∈ lp_calls (call_run ex_cfg (loop_init false) evs) ∧ call_live c = true ∧
    attached c = [2] ∧ map pt_user (ct_parts c) = [8] ∧
    (fun x => (snd (fst x), map call_part_user_id (snd x))) <$> view (lp_trace (call_run ex_cfg (loop_init false) evs)) 2 = Some (ct_epoch c, [7; 8]).
Proof.
  set (evs := take 10 ex_run ++ [(ex_env 30, EvFrame 1 M_JOIN (ex_join 9)); (mk_call_env 1040 (fun _ => true) None, EvAnswer 0 ex_db)]).
  exists evs, (call_at 0 (call_run ex_cfg (loop_init false) evs)). split.
  - destruct ex_short as (H1 & H2 & _). split; [exact H1|]. split; [|vm_compute; reflexivity]. apply Forall_app. split; [apply Forall_take; exact H2|].
    repeat (apply list.Forall_cons; split; [split; cbn [fst snd]; [|ex_event]|]); [ex_event| |apply list.Forall_nil_2]. split; [cbn; lia|done].
  - split; [apply (list_elem_of_lookup_2 _ 0); vm_compute; reflexivity|]. split_and!; vm_compute; reflexivity.
Qed.
