(* ===== verification/Relay.v ===== *)
(** * The media relay of calls: [daemon/relay.c]

    Participants are rows of a table of 2048, found by a key of their token
    ([by_token]) or by their connection ([by_conn]) and chained per call from
    [by_call] through [c_next] and [c_prev].  The three indexes are the id maps of
    [Idmap], which keep pointers: row [i] is [i + 1], NULL is 0.  A row's token is
    its first [token_len] bytes; [token_key] reads eight of them in the byte order
    of a little-endian host.

    The kernel's part is explicit: a datagram that arrives is an argument with its
    source and control messages, [sendmmsg] a function from the datagrams offered
    to the number taken, and what leaves is a value ([sent]): packets for the
    [tcp_send] hook and datagrams.  An operation is [None] only when a loop ran
    out of fuel, which [relay_step_ok] excludes.

    The specification ([relay_spec]) is a list of entries, the most recently
    authorized first, without rows, indexes or links. *)
From stdpp Require Import base tactics list numbers gmap.
From S2P Require Import Prelude.
From S2P Require Import Wire.
From S2P Require Import OpenAddr.
From S2P Require Import Idmap.
From S2P Require Import Calls.
Local Open Scope Z_scope.
Local Open Scope oc_scope.

Definition OC_RELAY_MAX_PARTS : nat := 2048.
#[global] Arguments OC_RELAY_MAX_PARTS : simpl never.
Definition OC_AUDIO_TOKEN_RAND : Z := 16.
Definition OC_AUDIO_PREFIX_MAX : Z := 16.
Definition OC_AUDIO_TOKEN_MAX : Z := OC_AUDIO_PREFIX_MAX + OC_AUDIO_TOKEN_RAND.
Definition OC_AUDIO_S2C_HDR : Z := 8 + 2.
Definition OC_AUDIO_MAX_PACKET : Z := 1300.
Definition OC_AUDIO_SILENCE_MS : Z := 20000.

(** ** Addresses *)

(** [sa_rest] is what is sent to but not compared: an IPv6 flow label and scope. *)
Record inet_addr := mk_inet_addr { sa_len : Z; sa_family : Z; sa_port : Z; sa_addr : list Z; sa_rest : list Z }.
Definition inet_zero : inet_addr := mk_inet_addr 0 0 0 [] [].
Record in6_pktinfo := mk_in6_pktinfo { ipi6_addr : list Z; ipi6_ifindex : Z }.
Record in_pktinfo := mk_in_pktinfo { ipi_ifindex : Z; ipi_spec_dst : list Z; ipi_addr : list Z }.
Inductive cmsg := IPV6_PKTINFO (pi : in6_pktinfo) | IP_PKTINFO (pi : in_pktinfo) | OTHER_CMSG.

(** ** Rows and the relay *)

Record participant := mk_participant {
  rp_used : bool;
  rp_token : list Z;
  rp_key : Z;
  rp_call : Z;
  rp_user : Z;
  rp_conn : Z;
  rp_tcp : bool;
  rp_next : Z;
  rp_prev : Z;
  rp_addr : inet_addr;
  rp_addr_known : bool;
  rp_local6 : in6_pktinfo;
  rp_local4 : in_pktinfo;
  rp_local_known : bool;
  rp_seen : Z }.
#[export] Instance participant_eta : Eta participant := fun p =>
  mk_participant (rp_used p) (rp_token p) (rp_key p) (rp_call p) (rp_user p) (rp_conn p) (rp_tcp p) (rp_next p) (rp_prev p)
    (rp_addr p) (rp_addr_known p) (rp_local6 p) (rp_local4 p) (rp_local_known p) (rp_seen p).
Definition participant_zero : participant :=
  mk_participant false [] 0 0 0 0 false 0 0 inet_zero false (mk_in6_pktinfo [] 0) (mk_in_pktinfo 0 [] []) false 0.

(** [rl_inet6] is whether the socket is of [AF_INET6]; the hooks are set or not. *)
Record oc_relay := mk_relay {
  rl_inet6 : bool;
  rl_silence_ms : Z;
  rl_gone_hook : bool;
  rl_tcp_hook : bool;
  rl_token_len : Z;
  rl_by_token : oc_idmap;
  rl_by_call : oc_idmap;
  rl_by_conn : oc_idmap;
  rl_n : Z;
  rl_received : Z;
  rl_parts : list participant }.
#[export] Instance relay_eta : Eta oc_relay := fun r =>
  mk_relay (rl_inet6 r) (rl_silence_ms r) (rl_gone_hook r) (rl_tcp_hook r) (rl_token_len r) (rl_by_token r) (rl_by_call r)
    (rl_by_conn r) (rl_n r) (rl_received r) (rl_parts r).

(** [oc_relay_open], with its three allocations successful. *)
Definition relay_index : oc_idmap := snd (oc_idmap_init true (2 * Z.of_nat OC_RELAY_MAX_PARTS)).
Definition oc_relay_open (inet6 gone tcp : bool) : oc_relay :=
  mk_relay inet6 OC_AUDIO_SILENCE_MS gone tcp 0 relay_index relay_index relay_index 0 0
    (replicate OC_RELAY_MAX_PARTS participant_zero).
Definition oc_relay_set_silence_ms (r : oc_relay) (ms : Z) : oc_relay :=
  r <| rl_silence_ms := if ms =? 0 then OC_AUDIO_SILENCE_MS else ms |>.
Definition oc_relay_count (r : oc_relay) : Z := rl_n r.

(** The row a pointer points to. *)
Definition row (r : oc_relay) (e : Z) : participant := nth (Z.to_nat (e - 1)) (rl_parts r) participant_zero.
Definition set_row (e : Z) (p : participant) (r : oc_relay) : oc_relay :=
  r <| rl_parts := <[Z.to_nat (e - 1) := p]> (rl_parts r) |>.
Definition upd_row (e : Z) (f : participant → participant) (r : oc_relay) : oc_relay := set_row e (f (row r e)) r.

Definition of_le (bs : list Z) : Z := foldr (fun b a => b + 256 * a) 0 bs.
Definition token_key (token : list Z) : Z :=
  let k := of_le (ztake 8 (zdrop (zlen token - OC_AUDIO_TOKEN_RAND) token)) in
  if k =? 0 then 1 else k.
Definition find_token (r : oc_relay) (token : list Z) : option Z :=
  if negb (zlen token =? rl_token_len r) || (zlen token <? OC_AUDIO_TOKEN_RAND) then Some 0
  else
    e ← oc_idmap_get (rl_by_token r) (token_key token);
    Some (if negb (e =? 0) && bool_decide (rp_token (row r e) = token) then e else 0).

Definition call_unlink (r : oc_relay) (e : Z) : option oc_relay :=
  let p := row r e in
  r ← (if negb (rp_prev p =? 0) then Some (upd_row (rp_prev p) (fun q => q <| rp_next := rp_next p |>) r)
       else if negb (rp_next p =? 0) then
         '(_, m) ← oc_idmap_put (rl_by_call r) (rp_call p) (rp_next p); Some (r <| rl_by_call := m |>)
       else m ← oc_idmap_del (rl_by_call r) (rp_call p); Some (r <| rl_by_call := m |>));
  let r := if negb (rp_next p =? 0) then upd_row (rp_next p) (fun q => q <| rp_prev := rp_prev p |>) r else r in
  Some (upd_row e (fun p => p <| rp_next := 0 |> <| rp_prev := 0 |>) r).

Definition call_link (r : oc_relay) (e : Z) : option (Z * oc_relay) :=
  head ← oc_idmap_get (rl_by_call r) (rp_call (row r e));
  '(rc, m) ← oc_idmap_put (rl_by_call r) (rp_call (row r e)) e;
  if negb (rc =? 0) then Some (-1, r)
  else
    let r := upd_row e (fun p => p <| rp_prev := 0 |> <| rp_next := head |>) (r <| rl_by_call := m |>) in
    Some (0, if negb (head =? 0) then upd_row head (fun q => q <| rp_prev := e |>) r else r).

(** [if (oc_idmap_get(&r->by_conn, p->conn_id) == p) oc_idmap_del(...)]. *)
Definition conn_unindex (r : oc_relay) (e : Z) : option oc_relay :=
  q ← oc_idmap_get (rl_by_conn r) (rp_conn (row r e));
  if q =? e then m ← oc_idmap_del (rl_by_conn r) (rp_conn (row r e)); Some (r <| rl_by_conn := m |>)
  else Some r.

Definition drop_row (r : oc_relay) (e : Z) : option oc_relay :=
  r ← call_unlink r e;
  r ← conn_unindex r e;
  m ← oc_idmap_del (rl_by_token r) (rp_key (row r e));
  let r := upd_row e (fun p => p <| rp_used := false |>) (r <| rl_by_token := m |>) in
  let r := r <| rl_n := rl_n r - 1 |> in
  Some (if rl_n r =? 0 then r <| rl_token_len := 0 |> else r).

(** ** Joining and leaving *)

Definition free_row (r : oc_relay) : option Z :=
  i ← find_index (fun p => negb (rp_used p)) (rl_parts r); Some (Z.of_nat i + 1).
Definition authorize_row (now : Z) (r : oc_relay) (e call user conn : Z) : option (Z * oc_relay) :=
  let r := upd_row e (fun p => p <| rp_call := call |> <| rp_user := user |> <| rp_conn := conn |> <| rp_seen := now |>) r in
  '(rc, r) ← call_link r e;
  if negb (rc =? 0) then r ← drop_row r e; Some (-1, r)
  else if conn =? 0 then Some (0, r)
  else '(_, m) ← oc_idmap_put (rl_by_conn r) conn e; Some (0, r <| rl_by_conn := m |>).
Definition oc_relay_authorize (now : Z) (r : oc_relay) (call user conn : Z) (token : list Z) : option (Z * oc_relay) :=
  let len := zlen token in
  if (len <? OC_AUDIO_TOKEN_RAND) || (OC_AUDIO_TOKEN_MAX <? len) || (call =? 0) then Some (-1, r)
  else if negb (rl_n r =? 0) && negb (len =? rl_token_len r) then Some (-1, r)
  else
    let r := if rl_n r =? 0 then r <| rl_token_len := len |> else r in
    e ← find_token r token;
    if negb (e =? 0) then
      r ← call_unlink r e;
      r ← conn_unindex r e;
      authorize_row now r e call user conn
    else
      other ← oc_idmap_get (rl_by_token r) (token_key token);
      if negb (other =? 0) then Some (-1, r)
      else
        match free_row r with
        | None => Some (-1, r)
        | Some e =>
            let r := set_row e (participant_zero <| rp_token := token |> <| rp_key := token_key token |>) r in
            '(rc, m) ← oc_idmap_put (rl_by_token r) (token_key token) e;
            if negb (rc =? 0) then Some (-1, r)
            else
              let r := upd_row e (fun p => p <| rp_used := true |>) (r <| rl_by_token := m |>) in
              authorize_row now (r <| rl_n := rl_n r + 1 |>) e call user conn
        end.
Definition oc_relay_revoke (r : oc_relay) (token : list Z) : option oc_relay :=
  e ← find_token r token;
  if negb (e =? 0) then drop_row r e else Some r.

(** ** Forwarding *)

Inductive send_ctl := CTL6 (pi : in6_pktinfo) | CTL4 (pi : in_pktinfo).
Record datagram := mk_datagram { dg_to : inet_addr; dg_ctl : option send_ctl; dg_bytes : list Z }.
Record tcp_packet := mk_tcp_packet { tp_conn : Z; tp_sender : Z; tp_seq : Z; tp_ct : list Z }.
Definition sent : Type := list tcp_packet * list datagram.

Definition same_peer (e : participant) (src : inet_addr) : bool :=
  (sa_len (rp_addr e) =? sa_len src) && (sa_family (rp_addr e) =? sa_family src) &&
  (sa_port (rp_addr e) =? sa_port src) && bool_decide (sa_addr (rp_addr e) = sa_addr src).

(** The control message [prepare] builds. *)
Definition prepare_ctl (inet6 : bool) (to : participant) : option send_ctl :=
  if negb (rp_local_known to) then None
  else Some (if inet6 then CTL6 (mk_in6_pktinfo (ipi6_addr (rp_local6 to)) 0)
             else CTL4 (mk_in_pktinfo 0 (ipi_addr (rp_local4 to)) [0; 0; 0; 0])).
Definition prepare (r : oc_relay) (to : participant) (out : list Z) : datagram :=
  mk_datagram (rp_addr to) (prepare_ctl (rl_inet6 r) to) out.

Section Forward.
Context (r : oc_relay) (me : Z) (seq : Z) (payload out : list Z).

(** The loop over the call from [e], with [k] datagrams prepared. *)
Fixpoint forward_from (fuel : nat) (e k : Z) : option sent :=
  match fuel with
  | O => None
  | S fuel =>
      if (e =? 0) || (OC_MAX_CALL_PARTICIPANTS <=? k) then Some ([], [])
      else
        let p := row r e in
        let next := if nonempty payload then rp_next p else 0 in
        if nonempty payload && (e =? me) then forward_from fuel next k
        else if rp_tcp p then
          '(ts, ds) ← forward_from fuel next k;
          Some ((if rl_tcp_hook r then [mk_tcp_packet (rp_conn p) (rp_user (row r me)) seq payload] else []) ++ ts, ds)
        else if negb (rp_addr_known p) then forward_from fuel next k
        else '(ts, ds) ← forward_from fuel next (k + 1); Some (ts, prepare r p out :: ds)
  end.
End Forward.

(** The [sendmmsg] loop. *)
Fixpoint send_loop (fuel : nat) (sendmmsg : list datagram → Z) (mm : list datagram) : list datagram :=
  match fuel, mm with
  | O, _ | _, [] => []
  | S fuel, _ => let got := sendmmsg mm in if got <=? 0 then [] else ztake got mm ++ send_loop fuel sendmmsg (zdrop got mm)
  end.

Definition forward (sendmmsg : list datagram → Z) (r : oc_relay) (me seq : Z) (payload : list Z) : option sent :=
  if OC_AUDIO_MAX_PACKET - OC_AUDIO_S2C_HDR <? zlen payload then Some ([], [])
  else
    let out := be64 (rp_user (row r me)) ++ be16 seq ++ payload in
    first ← (if nonempty payload then oc_idmap_get (rl_by_call r) (rp_call (row r me)) else Some me);
    '(ts, ds) ← forward_from r me seq payload out (S OC_RELAY_MAX_PARTS) first 0;
    Some (ts, send_loop (length ds) sendmmsg ds).

Definition oc_relay_from_tcp (sendmmsg : list datagram → Z) (now : Z) (r : oc_relay) (conn seq : Z) (ct : list Z)
    : option (Z * oc_relay * sent) :=
  me ← (if conn =? 0 then Some 0 else oc_idmap_get (rl_by_conn r) conn);
  if me =? 0 then Some (-1, r, ([], []))
  else
    let r := upd_row me (fun p => p <| rp_tcp := true |> <| rp_seen := now |>) r in
    s ← forward sendmmsg r me seq ct;
    Some (0, r, s).

(** A datagram, and the clock when it is taken off the socket. *)
Record arrival := mk_arrival { ar_bytes : list Z; ar_src : inet_addr; ar_ctl : list cmsg; ar_now : Z }.
Definition learn_cmsg (p : participant) (cm : cmsg) : participant :=
  match cm with
  | IPV6_PKTINFO pi => p <| rp_local6 := pi |> <| rp_local_known := true |>
  | IP_PKTINFO pi => p <| rp_local4 := pi |> <| rp_local_known := true |>
  | OTHER_CMSG => p
  end.
Definition learn (a : arrival) (p : participant) : participant :=
  foldl learn_cmsg (p <| rp_addr := ar_src a |> <| rp_addr_known := true |>) (ar_ctl a).

Definition relay_one (sendmmsg : list datagram → Z) (r : oc_relay) (a : arrival) : option (oc_relay * sent) :=
  let pkt := ztake OC_AUDIO_MAX_PACKET (ar_bytes a) in
  let r := r <| rl_received := u64 (rl_received r + 1) |> in
  if (rl_token_len r =? 0) || (zlen pkt <? rl_token_len r + 2) then Some (r, ([], []))
  else
    me ← find_token r (ztake (rl_token_len r) pkt);
    if me =? 0 then Some (r, ([], []))
    else if rp_addr_known (row r me) && negb (same_peer (row r me) (ar_src a)) then Some (r, ([], []))
    else
      let r := if rp_addr_known (row r me) then r else upd_row me (learn a) r in
      let r := upd_row me (fun p => p <| rp_seen := ar_now a |> <| rp_tcp := false |>) r in
      let tl := zlen (rp_token (row r me)) in
      let seq := Z.lor (Z.shiftl (nth (Z.to_nat tl) pkt 0) 8) (nth (Z.to_nat (tl + 1)) pkt 0) in
      s ← forward sendmmsg r me seq (zdrop (tl + 2) pkt);
      Some (r, s).

(** Up to [max_packets] of the datagrams waiting; what is left of them, and 1
    when the bound stopped it. *)
Fixpoint oc_relay_on_readable (sendmmsg : list datagram → Z) (max_packets : nat) (waiting : list arrival) (r : oc_relay)
    : option (Z * list arrival * oc_relay * list sent) :=
  match max_packets with
  | O => Some (1, waiting, r, [])
  | S k =>
      match waiting with
      | [] => Some (0, [], r, [])
      | a :: waiting =>
          '(r, s) ← relay_one sendmmsg r a;
          '(rc, waiting, r, ss) ← oc_relay_on_readable sendmmsg k waiting r;
          Some (rc, waiting, r, s :: ss)
      end
  end.

(** ** The silence sweep *)

Fixpoint sweep_rows (now : Z) (es : list Z) (r : oc_relay) : option (list (list Z) * oc_relay) :=
  match es with
  | [] => Some ([], r)
  | e :: es =>
      let p := row r e in
      if negb (rp_used p) || (u64 (now - rp_seen p) <=? rl_silence_ms r) then sweep_rows now es r
      else
        r ← drop_row r e;
        '(gone, r) ← sweep_rows now es r;
        Some ((if rl_gone_hook r then [rp_token p] else []) ++ gone, r)
  end.
Definition row_ptrs : list Z := Z.of_nat <$> seq 1 OC_RELAY_MAX_PARTS.
Definition oc_relay_sweep (now : Z) (r : oc_relay) : option (list (list Z) * oc_relay) :=
  if rl_n r =? 0 then Some ([], r) else sweep_rows now row_ptrs r.
