(* ===== verification/RelayInv.v ===== *)
(** * The relay refines a list of entries

    The specification of [Relay] and the simulation: every operation on the
    table, its three indexes and its chains answers and sends what the list does.
    [links_ok] is the chains' half of the invariant, [table_ok] the indexes'
    half; [call_unlink] and [call_link] only touch the first. *)
From stdpp Require Import base tactics list numbers gmap.
From S2P Require Import Prelude.
From S2P Require Import Wire.
From S2P Require Import OpenAddr.
From S2P Require Import Idmap.
From S2P Require Import Calls.
From S2P Require Import CallsInv.
From S2P Require Import Relay.
Local Open Scope Z_scope.
Local Open Scope oc_scope.

(** ** The specification *)

(** [en_peer] is where and from which local address a participant is answered,
    once its first datagram has said. *)
Record entry := mk_entry {
  en_token : list Z;
  en_call : Z;
  en_user : Z;
  en_conn : Z;
  en_tcp : bool;
  en_peer : option (inet_addr * option send_ctl);
  en_seen : Z }.
#[export] Instance entry_eta : Eta entry := fun x =>
  mk_entry (en_token x) (en_call x) (en_user x) (en_conn x) (en_tcp x) (en_peer x) (en_seen x).

(** The participants, the latest authorized first, and the one each connection
    speaks for. *)
Record relay_spec := mk_relay_spec { rs_entries : list entry; rs_conn : gmap Z (list Z) }.

Definition spec_find (token : list Z) (xs : list entry) : option entry := List.find (fun x => bool_decide (en_token x = token)) xs.
Definition spec_without (token : list Z) (xs : list entry) : list entry := filter (fun x => en_token x ≠ token) xs.
Definition spec_update (token : list Z) (f : entry → entry) (xs : list entry) : list entry :=
  (fun x => if bool_decide (en_token x = token) then f x else x) <$> xs.
Definition spec_unname (x : entry) (m : gmap Z (list Z)) : gmap Z (list Z) :=
  if decide (m !! en_conn x = Some (en_token x)) then delete (en_conn x) m else m.
Definition spec_name (conn : Z) (token : list Z) (m : gmap Z (list Z)) : gmap Z (list Z) :=
  if conn =? 0 then m else <[conn := token]> m.

Definition spec_drop (s : relay_spec) (x : entry) : relay_spec :=
  mk_relay_spec (spec_without (en_token x) (rs_entries s)) (spec_unname x (rs_conn s)).
Definition spec_authorize (now : Z) (s : relay_spec) (call user conn : Z) (token : list Z) : Z * relay_spec :=
  if (zlen token <? OC_AUDIO_TOKEN_RAND) || (OC_AUDIO_TOKEN_MAX <? zlen token) || (call =? 0) ||
     existsb (fun x => negb (zlen (en_token x) =? zlen token)) (rs_entries s) then (-1, s)
  else
    match spec_find token (rs_entries s) with
    | Some x =>
        let x' := mk_entry token call user conn (en_tcp x) (en_peer x) now in
        (0, mk_relay_spec (x' :: spec_without token (rs_entries s)) (spec_name conn token (spec_unname x (rs_conn s))))
    | None =>
        if existsb (fun x => token_key (en_token x) =? token_key token) (rs_entries s) ||
           (Z.of_nat OC_RELAY_MAX_PARTS <=? zlen (rs_entries s)) then (-1, s)
        else (0, mk_relay_spec (mk_entry token call user conn false None now :: rs_entries s) (spec_name conn token (rs_conn s)))
    end.
Definition spec_revoke (s : relay_spec) (token : list Z) : relay_spec :=
  match spec_find token (rs_entries s) with Some x => spec_drop s x | None => s end.

(** Without the participants that hold any of [ts], and the names of theirs. *)
Definition spec_lose (ts : list (list Z)) (s : relay_spec) : relay_spec :=
  mk_relay_spec (filter (fun x => en_token x ∉ ts) (rs_entries s)) (filter (fun ct => snd ct ∉ ts) (rs_conn s)).

Section Spec.
Context (inet6 gone_hook tcp_hook : bool) (sendmmsg : list datagram → Z) (silence_ms : Z).

(** A packet to each of [xs], while fewer than 32 datagrams are prepared. *)
Fixpoint spec_fan (user seq : Z) (payload : list Z) (xs : list entry) (k : Z) : sent :=
  match xs with
  | [] => ([], [])
  | x :: xs =>
      if OC_MAX_CALL_PARTICIPANTS <=? k then ([], [])
      else if en_tcp x then
        let '(ts, ds) := spec_fan user seq payload xs k in
        ((if tcp_hook then [mk_tcp_packet (en_conn x) user seq payload] else []) ++ ts, ds)
      else
        match en_peer x with
        | None => spec_fan user seq payload xs k
        | Some (to, ctl) =>
            let '(ts, ds) := spec_fan user seq payload xs (k + 1) in
            (ts, mk_datagram to ctl (be64 user ++ be16 seq ++ payload) :: ds)
        end
  end.
(** A keepalive is answered; anything else goes to the rest of the call. *)
Definition spec_targets (xs : list entry) (me : entry) (payload : list Z) : list entry :=
  if nonempty payload then filter (fun x => en_call x = en_call me ∧ en_token x ≠ en_token me) xs else [me].
Definition spec_forward (xs : list entry) (me : entry) (seq : Z) (payload : list Z) : sent :=
  if OC_AUDIO_MAX_PACKET - OC_AUDIO_S2C_HDR <? zlen payload then ([], [])
  else
    let '(ts, ds) := spec_fan (en_user me) seq payload (spec_targets xs me payload) 0 in
    (ts, send_loop (length ds) sendmmsg ds).

Definition spec_from_tcp (now : Z) (s : relay_spec) (conn seq : Z) (ct : list Z) : Z * relay_spec * sent :=
  match rs_conn s !! conn ≫= fun token => spec_find token (rs_entries s) with
  | None => (-1, s, ([], []))
  | Some x =>
      let me := x <| en_tcp := true |> <| en_seen := now |> in
      let xs := spec_update (en_token x) (fun _ => me) (rs_entries s) in
      (0, mk_relay_spec xs (rs_conn s), spec_forward xs me seq ct)
  end.

Definition spec_learn (a : arrival) (x : entry) : entry :=
  match en_peer x with
  | Some _ => x
  | None => x <| en_peer := Some (ar_src a, prepare_ctl inet6 (foldl learn_cmsg participant_zero (ar_ctl a))) |>
  end.
Definition same_source (x : entry) (src : inet_addr) : bool :=
  match en_peer x with
  | None => true
  | Some (to, _) => (sa_len to =? sa_len src) && (sa_family to =? sa_family src) && (sa_port to =? sa_port src) &&
                    bool_decide (sa_addr to = sa_addr src)
  end.
(** A datagram is a token, a number and a payload. *)
Definition spec_datagram (s : relay_spec) (a : arrival) : relay_spec * sent :=
  let pkt := ztake OC_AUDIO_MAX_PACKET (ar_bytes a) in
  match rs_entries s with
  | [] => (s, ([], []))
  | x0 :: _ =>
      let tl := zlen (en_token x0) in
      match spec_find (ztake tl pkt) (rs_entries s) with
      | None => (s, ([], []))
      | Some x =>
          if (zlen pkt <? tl + 2) || negb (same_source x (ar_src a)) then (s, ([], []))
          else
            let me := spec_learn a x <| en_seen := ar_now a |> <| en_tcp := false |> in
            let xs := spec_update (en_token x) (fun _ => me) (rs_entries s) in
            let seq := Z.lor (Z.shiftl (nth (Z.to_nat tl) pkt 0) 8) (nth (Z.to_nat (tl + 1)) pkt 0) in
            (mk_relay_spec xs (rs_conn s), spec_forward xs me seq (zdrop (tl + 2) pkt))
      end
  end.

(** Everyone silent for longer goes; who is reported in no particular order. *)
Definition silent (now : Z) (x : entry) : bool := negb (u64 (now - en_seen x) <=? silence_ms).
Definition spec_sweep (now : Z) (s : relay_spec) : list (list Z) * relay_spec :=
  let gone := en_token <$> filter (fun x => silent now x = true) (rs_entries s) in
  (if gone_hook then gone else [], spec_lose gone s).
End Spec.

(** ** Rows *)

Definition ptr (e : Z) : Prop := 1 <= e <= Z.of_nat OC_RELAY_MAX_PARTS.
Definition table_len (r : oc_relay) : Prop := length (rl_parts r) = OC_RELAY_MAX_PARTS.
(** A row without its links, and what the specification sees of it. *)
Definition unlinked (p : participant) : participant := p <| rp_next := 0 |> <| rp_prev := 0 |>.
Definition entry_of (inet6 : bool) (p : participant) : entry :=
  mk_entry (rp_token p) (rp_call p) (rp_user p) (rp_conn p) (rp_tcp p)
    (if rp_addr_known p then Some (rp_addr p, prepare_ctl inet6 p) else None) (rp_seen p).

Lemma row_upd r e f x : table_len r → ptr e → ptr x → row (upd_row e f r) x = if decide (x = e) then f (row r e) else row r x.
Proof.
  unfold table_len, ptr, upd_row, set_row, row. simpl. intros Hl He Hx. destruct (decide (x = e)) as [->|Hne].
  - rewrite nth_lookup, list_lookup_insert_eq; [done|]. rewrite Hl. lia.
  - by rewrite !nth_lookup, list_lookup_insert_ne by lia.
Qed.
Lemma row_upd_eq r e f : table_len r → ptr e → row (upd_row e f r) e = f (row r e).
Proof. intros. by rewrite row_upd, decide_True. Qed.
Lemma row_upd_ne r e f x : table_len r → ptr e → ptr x → x ≠ e → row (upd_row e f r) x = row r x.
Proof. intros. by rewrite row_upd, decide_False. Qed.
Lemma upd_row_len r e f : table_len r → table_len (upd_row e f r).
Proof. unfold table_len, upd_row, set_row. simpl. by rewrite length_insert. Qed.
#[export] Hint Resolve upd_row_len : core.

(** Everything but the rows and the calls' index is the same. *)
Record same_table (r r' : oc_relay) : Prop := {
  st_len : table_len r → table_len r';
  st_inet6 : rl_inet6 r' = rl_inet6 r;
  st_silence : rl_silence_ms r' = rl_silence_ms r;
  st_gone : rl_gone_hook r' = rl_gone_hook r;
  st_tcp : rl_tcp_hook r' = rl_tcp_hook r;
  st_token_len : rl_token_len r' = rl_token_len r;
  st_by_token : rl_by_token r' = rl_by_token r;
  st_by_conn : rl_by_conn r' = rl_by_conn r;
  st_n : rl_n r' = rl_n r;
  st_received : rl_received r' = rl_received r }.
Lemma same_table_refl r : same_table r r. Proof. by split. Qed.
Lemma same_table_trans r1 r2 r3 : same_table r1 r2 → same_table r2 r3 → same_table r1 r3.
Proof. intros [] []. split; [auto|congruence..]. Qed.
Lemma same_table_upd r e f : same_table r (upd_row e f r).
Proof. split; try done. auto. Qed.
Lemma same_table_call r m : same_table r (r <| rl_by_call := m |>).
Proof. by split. Qed.
#[export] Hint Resolve same_table_refl same_table_upd same_table_call : core.

(** ** Chains *)

(** [l] is doubly linked, after [prev] and before [nxt]. *)
Fixpoint seg (P : Z → participant) (prev : Z) (l : list Z) (nxt : Z) : Prop :=
  match l with
  | [] => True
  | e :: l => rp_prev (P e) = prev ∧ rp_next (P e) = default nxt (head l) ∧ seg P e l nxt
  end.

Lemma seg_app P prev l k nxt :
  seg P prev (l ++ k) nxt ↔ seg P prev l (default nxt (head k)) ∧ seg P (default prev (list.last l)) k nxt.
Proof.
  revert prev. induction l as [|e l IH]; intros prev; [simpl; tauto|]. cbn [app seg]. rewrite IH, last_cons.
  assert (default nxt (head (l ++ k)) = default (default nxt (head k)) (head l)) as -> by (by destruct l).
  destruct (list.last l); simpl; tauto.
Qed.
Lemma seg_ext P P' prev l nxt :
  (∀ e, e ∈ l → rp_prev (P' e) = rp_prev (P e) ∧ rp_next (P' e) = rp_next (P e)) → seg P prev l nxt → seg P' prev l nxt.
Proof.
  revert prev. induction l as [|e l IH]; intros prev H; [done|]. simpl. intros (H1 & H2 & H3).
  destruct (H e ltac:(by left)) as [-> ->]. split_and!; [done|done|]. apply IH; [|done]. intros x Hx. apply H. by right.
Qed.

Lemma last_split {A} (l : list A) : l = [] ∨ ∃ k x, l = k ++ [x].
Proof. induction l as [|x k _] using rev_ind; eauto. Qed.

(** Taking [e] out of a chain, by what becomes of its neighbours. *)
Lemma seg_remove P P' l1 e l2 :
  seg P 0 (l1 ++ e :: l2) 0 → NoDup (l1 ++ e :: l2) →
  (∀ x, x ∈ l1 → rp_prev (P' x) = rp_prev (P x)) → (∀ x, x ∈ l2 → rp_next (P' x) = rp_next (P x)) →
  (∀ x, x ∈ l1 → list.last l1 ≠ Some x → rp_next (P' x) = rp_next (P x)) →
  (∀ x, x ∈ l2 → head l2 ≠ Some x → rp_prev (P' x) = rp_prev (P x)) →
  (∀ x, list.last l1 = Some x → rp_next (P' x) = default 0 (head l2)) →
  (∀ x, head l2 = Some x → rp_prev (P' x) = default 0 (list.last l1)) →
  seg P' 0 (l1 ++ l2) 0.
Proof.
  intros H Hnd Hp1 Hn2 Hn1 Hp2 Hl Hh. apply seg_app in H as [H1 (_ & _ & H2)]. apply NoDup_app in Hnd as (Hnd1 & _ & Hnd2).
  apply list.NoDup_cons in Hnd2 as [_ Hnd2]. apply seg_app. split.
  - destruct (last_split l1) as [->|(k & a & ->)]; [done|]. rewrite last_snoc in *.
    apply seg_app in H1 as [H1 (Ha & _ & _)]. apply NoDup_app in Hnd1 as (_ & Hka & _). apply seg_app. split.
    + eapply seg_ext; [|exact H1]. intros x Hx.
      assert (x ≠ a) by (intros ->; eapply Hka; [done|by left]).
      split; [apply Hp1|apply Hn1]; [set_solver..|]. congruence.
    + simpl. rewrite Hp1, Hl by set_solver. done.
  - destruct l2 as [|b m]; [done|]. destruct H2 as (_ & Hb & Hm). apply list.NoDup_cons in Hnd2 as [Hbm _]. simpl.
    rewrite Hh, Hn2 by set_solver. split_and!; [done|done|]. eapply seg_ext; [|exact Hm].
    intros x Hx. split; [apply Hp2|apply Hn2]; [set_solver| |set_solver]. intros [= ->]. done.
Qed.
(** Putting [e] at the head of one. *)
Lemma seg_push P P' e l :
  seg P 0 l 0 → NoDup (e :: l) → rp_prev (P' e) = 0 → rp_next (P' e) = default 0 (head l) →
  (∀ x, x ∈ l → rp_next (P' x) = rp_next (P x)) → (∀ x, x ∈ l → head l ≠ Some x → rp_prev (P' x) = rp_prev (P x)) →
  (∀ x, head l = Some x → rp_prev (P' x) = e) → seg P' 0 (e :: l) 0.
Proof.
  intros H Hnd Hp Hn Hnx Hpx Hh. simpl. split_and!; [done|done|]. destruct l as [|b m]; [done|].
  destruct H as (_ & Hb & Hm). apply list.NoDup_cons in Hnd as [_ Hnd]. apply list.NoDup_cons in Hnd as [Hbm _]. simpl.
  rewrite Hh, Hnx by set_solver. split_and!; [done|done|]. eapply seg_ext; [|exact Hm].
  intros x Hx. split; [apply Hpx|apply Hnx]; [set_solver| |set_solver]. intros [= ->]. done.
Qed.

Lemma index_size (M : gmap Z Z) (f : Z → Z) ps : (∀ k e, M !! k = Some e → e ∈ ps ∧ f e = k) → (size M ≤ length ps)%nat.
Proof.
  intros H. rewrite <- length_map_to_list, <- (length_fmap fst), <- (length_fmap f ps).
  apply List.NoDup_incl_length; [apply NoDup_ListNoDup, NoDup_fst_map_to_list|].
  intros k Hk%list_elem_of_In. apply list_elem_of_fmap in Hk as ([k' e] & -> & Hm%elem_of_map_to_list). apply list_elem_of_In.
  destruct (H _ _ Hm) as [He <-]. by apply (list_elem_of_fmap_2 f).
Qed.

Definition chain (P : Z → participant) (ps : list Z) (c : Z) : list Z := filter (fun e => rp_call (P e) = c) ps.
Definition index_cap : Z := 2 * Z.of_nat OC_RELAY_MAX_PARTS.

(** The participants [ps], latest first, are chained per call. *)
Record links_ok (r : oc_relay) (ps : list Z) (M : gmap Z Z) : Prop := {
  lk_len : table_len r;
  lk_nodup : NoDup ps;
  lk_ptr : ∀ e, e ∈ ps → ptr e;
  lk_call : ∀ e, e ∈ ps → rp_call (row r e) ≠ 0;
  lk_repr : idmap_repr (rl_by_call r) M;
  lk_cap : im_cap (rl_by_call r) = index_cap;
  lk_index : ∀ c, M !! c = head (chain (row r) ps c);
  lk_chain : ∀ c, seg (row r) 0 (chain (row r) ps c) 0 }.

Lemma elem_of_chain P ps c e : e ∈ chain P ps c ↔ rp_call (P e) = c ∧ e ∈ ps.
Proof. unfold chain. by rewrite list_elem_of_filter. Qed.
Lemma chain_nodup P ps c : NoDup ps → NoDup (chain P ps c).
Proof. apply NoDup_filter. Qed.
Lemma chain_ext P P' ps c : (∀ e, e ∈ ps → rp_call (P' e) = rp_call (P e)) → chain P' ps c = chain P ps c.
Proof.
  intros H. unfold chain. induction ps as [|e ps IH]; [done|]. rewrite !filter_cons, IH by (intros; apply H; by right).
  rewrite (H e) by (by left). done.
Qed.
Lemma filter_keeps {A} (Q : A → Prop) `{∀ x, Decision (Q x)} (l : list A) : (∀ x, x ∈ l → Q x) → filter Q l = l.
Proof.
  induction l as [|x l IH]; intros H'; [done|]. rewrite filter_cons, decide_True by (apply H'; by left).
  f_equal. apply IH. intros y Hy. apply H'. by right.
Qed.
Lemma chain_without P ps e c : rp_call (P e) ≠ c → chain P (filter (fun x => x ≠ e) ps) c = chain P ps c.
Proof.
  intros He. unfold chain. rewrite list_filter_filter. apply list_filter_iff. intros x. split; [tauto|]. intros <-. split; [done|].
  by intros ->.
Qed.
Lemma filter_out_one l1 (e : Z) l2 : NoDup (l1 ++ e :: l2) → filter (fun x => x ≠ e) (l1 ++ e :: l2) = l1 ++ l2.
Proof.
  intros Hnd. apply NoDup_app in Hnd as (_ & Hd & Hnd). apply list.NoDup_cons in Hnd as [He _].
  rewrite filter_app, filter_cons, decide_False by tauto.
  f_equal; apply filter_keeps; intros x Hx; [|by intros ->]. intros ->. apply (Hd e); [done|by left].
Qed.
Lemma chain_remove P ps e c l1 l2 : NoDup ps → chain P ps c = l1 ++ e :: l2 →
  chain P (filter (fun x => x ≠ e) ps) c = l1 ++ l2.
Proof.
  intros Hnd Hc. unfold chain. rewrite list_filter_filter.
  rewrite (list_filter_iff _ (fun x => x ≠ e ∧ rp_call (P x) = c)) by tauto. rewrite <- list_filter_filter. fold (chain P ps c).
  rewrite Hc. apply filter_out_one. rewrite <- Hc. by apply chain_nodup.
Qed.

(** Where a participant is in its chain. *)
Lemma links_split r ps M e : links_ok r ps M → e ∈ ps → ∃ l1 l2,
  chain (row r) ps (rp_call (row r e)) = l1 ++ e :: l2 ∧ NoDup (l1 ++ e :: l2) ∧ (∀ x, x ∈ l1 ++ e :: l2 → ptr x) ∧
  rp_prev (row r e) = default 0 (list.last l1) ∧ rp_next (row r e) = default 0 (head l2).
Proof.
  intros L He. destruct (list_elem_of_split (chain (row r) ps (rp_call (row r e))) e) as (l1 & l2 & E); [by apply elem_of_chain|].
  exists l1, l2. pose proof (lk_chain _ _ _ L (rp_call (row r e))) as Hs. rewrite E in Hs.
  apply seg_app in Hs as [_ (H1 & H2 & _)]. split_and!; [done| | |done|done]; rewrite <- E.
  - apply chain_nodup, L.
  - intros x [_ Hx]%elem_of_chain. by apply (lk_ptr _ _ _ L).
Qed.
Lemma opt_ptr (o : option Z) : (∀ x, o = Some x → ptr x) → (default 0 o =? 0) = bool_decide (o = None).
Proof. intros H. destruct o as [x|]; [|done]. specialize (H x eq_refl). unfold ptr in H. simpl. by destruct (Z.eqb_spec x 0); [lia|]. Qed.

Lemma seg_row_ext r r' l prev nxt : (∀ x, x ∈ l → row r' x = row r x) → seg (row r) prev l nxt → seg (row r') prev l nxt.
Proof. intros H. apply seg_ext. intros e He. by rewrite H. Qed.

(** What [call_unlink] does to the rows, with [e] between [l1] and [l2]. *)
Definition unlink_rows (l1 l2 : list Z) (e : Z) (r : oc_relay) : oc_relay :=
  let r := match list.last l1 with Some a => upd_row a (fun q => q <| rp_next := default 0 (head l2) |>) r | None => r end in
  let r := match head l2 with Some b => upd_row b (fun q => q <| rp_prev := default 0 (list.last l1) |>) r | None => r end in
  upd_row e (fun p => p <| rp_next := 0 |> <| rp_prev := 0 |>) r.
Lemma unlink_rows_spec l1 l2 e r :
  table_len r → (∀ x, x ∈ l1 ++ e :: l2 → ptr x) → NoDup (l1 ++ e :: l2) →
  let r' := unlink_rows l1 l2 e r in
  same_table r r' ∧ rl_by_call r' = rl_by_call r ∧
  (∀ x, ptr x → unlinked (row r' x) = unlinked (row r x)) ∧
  (∀ x, ptr x → x ∉ l1 ++ e :: l2 → row r' x = row r x) ∧
  (seg (row r) 0 (l1 ++ e :: l2) 0 → seg (row r') 0 (l1 ++ l2) 0).
Proof.
  intros Hlen Hptr Hnd r'.
  assert (Ha : ∀ a, list.last l1 = Some a → ptr a ∧ a ≠ e ∧ a ∈ l1 ∧ a ∉ l2).
  { intros a Ha%last_Some_elem_of. pose proof Hnd as Hnd'. apply NoDup_app in Hnd' as (_ & Hd & _).
    split_and!; [apply Hptr; set_solver| |done|]; [intros ->|intros Hi]; apply (Hd _ Ha); set_solver. }
  assert (Hb : ∀ b, head l2 = Some b → ptr b ∧ b ≠ e ∧ b ∈ l2 ∧ b ∉ l1).
  { intros b Hb%head_Some_elem_of. pose proof Hnd as Hnd'. apply NoDup_app in Hnd' as (_ & Hd & Hn').
    apply list.NoDup_cons in Hn' as [He _].
    split_and!; [apply Hptr; set_solver|by intros ->|done|]. intros Hi. apply (Hd _ Hi). set_solver. }
  assert (Hpe : ptr e) by (apply Hptr; set_solver).
  assert (Hrow : ∀ x, ptr x → row r' x =
    if decide (x = e) then unlinked (row r e)
    else if decide (head l2 = Some x) then row r x <| rp_prev := default 0 (list.last l1) |>
    else if decide (list.last l1 = Some x) then row r x <| rp_next := default 0 (head l2) |> else row r x).
  { intros x Hx. subst r'. unfold unlink_rows.
    destruct (list.last l1) as [a|]; [destruct (Ha a eq_refl) as (? & ? & ? & ?)|];
    (destruct (head l2) as [b|]; [destruct (Hb b eq_refl) as (? & ? & ? & ?)|]);
    rewrite !row_upd by auto; repeat case_decide; simplify_eq; try done; set_solver. }
  assert (Hfr : ∀ x, x ∈ l1 ∨ x ∈ l2 → ptr x ∧ x ≠ e).
  { intros x Hx. split; [apply Hptr; set_solver|]. intros ->. apply NoDup_app in Hnd as (_ & Hd & Hnd).
    apply list.NoDup_cons in Hnd as [He _]. destruct Hx as [Hx|Hx]; [apply (Hd e Hx); by left|done]. }
  split_and!.
  - subst r'. unfold unlink_rows. destruct (list.last l1), (head l2); eauto using same_table_trans.
  - subst r'. unfold unlink_rows. by destruct (list.last l1), (head l2).
  - intros x Hx. rewrite Hrow by done. repeat case_decide; by simplify_eq.
  - intros x Hx Hn. rewrite Hrow, !decide_False; [done|..]; [| |set_solver|done].
    + intros (? & ? & ? & ?)%Ha. set_solver.
    + intros (? & ? & ? & ?)%Hb. set_solver.
  - intros Hs. eapply (seg_remove _ _ l1 e l2 Hs Hnd).
    + intros x Hx. destruct (Hfr x (or_introl Hx)). rewrite Hrow, decide_False by done.
      rewrite decide_False by (intros (? & ? & ? & ?)%Hb; done). by case_decide.
    + intros x Hx. destruct (Hfr x (or_intror Hx)). rewrite Hrow, decide_False by done. case_decide; [done|].
      rewrite decide_False; [done|]. intros (? & ? & ? & ?)%Ha. done.
    + intros x Hx Hl. destruct (Hfr x (or_introl Hx)). rewrite Hrow, decide_False by done. case_decide; [done|]. by rewrite decide_False.
    + intros x Hx Hh. destruct (Hfr x (or_intror Hx)). rewrite Hrow, decide_False by done. rewrite decide_False by done. by case_decide.
    + intros x Hx. destruct (Ha x Hx) as (? & ? & ? & ?). rewrite Hrow, decide_False by done.
      rewrite decide_False by (intros (? & ? & ? & ?)%Hb; done). by rewrite decide_True.
    + intros x Hx. destruct (Hb x Hx) as (? & ? & ? & ?). by rewrite Hrow, decide_False, decide_True.
Qed.

Lemma unlinked_fields p q : unlinked p = unlinked q → rp_call p = rp_call q ∧ rp_key p = rp_key q ∧ rp_conn p = rp_conn q ∧
  rp_token p = rp_token q ∧ rp_used p = rp_used q.
Proof. destruct p, q. by intros [= ]. Qed.

(** The invariant after [e] has left chain [l1 ++ e :: l2] and the index says [M']. *)
Lemma unlinked_links r ps M e l1 l2 m M' :
  links_ok r ps M → e ∈ ps → chain (row r) ps (rp_call (row r e)) = l1 ++ e :: l2 → idmap_repr m M' → im_cap m = index_cap →
  M' !! rp_call (row r e) = head (l1 ++ l2) → (∀ c, c ≠ rp_call (row r e) → M' !! c = M !! c) →
  let r' := unlink_rows l1 l2 e (r <| rl_by_call := m |>) in
  same_table r r' ∧ links_ok r' (filter (fun x => x ≠ e) ps) M' ∧ (∀ x, ptr x → unlinked (row r' x) = unlinked (row r x)).
Proof.
  intros L He E Rm Hcap Hhd Hoth r'. set (r0 := r <| rl_by_call := m |>).
  assert (Hnd : NoDup (l1 ++ e :: l2)) by (rewrite <- E; apply chain_nodup, L).
  assert (Hin : ∀ x, x ∈ l1 ++ e :: l2 → rp_call (row r x) = rp_call (row r e) ∧ x ∈ ps) by (intros x; rewrite <- E; apply elem_of_chain).
  destruct (unlink_rows_spec l1 l2 e r0) as (Hst & Hbc & Hun & Hsame & Hseg); [apply L|intros x Hx; by apply (lk_ptr _ _ _ L), Hin|done|].
  change (unlink_rows l1 l2 e r0) with r' in Hst, Hbc, Hun, Hsame, Hseg.
  assert (Hch : ∀ c, chain (row r') (filter (fun x => x ≠ e) ps) c = chain (row r) (filter (fun x => x ≠ e) ps) c).
  { intros c. apply chain_ext. intros x [_ Hx]%list_elem_of_filter. by apply unlinked_fields, Hun, L. }
  split_and!; [by eapply same_table_trans; [apply same_table_call|]| |done].
  split.
  - apply Hst, L.
  - apply NoDup_filter, L.
  - intros x [_ Hx]%list_elem_of_filter. by apply L.
  - intros x [_ Hx]%list_elem_of_filter.
    assert (rp_call (row r' x) = rp_call (row r x)) as -> by (by apply unlinked_fields, Hun, L). by apply (lk_call _ _ _ L).
  - by rewrite Hbc.
  - by rewrite Hbc.
  - intros c. rewrite Hch. destruct (decide (c = rp_call (row r e))) as [->|Hc].
    + by rewrite (chain_remove _ _ _ _ l1 l2 (lk_nodup _ _ _ L) E).
    + rewrite chain_without, Hoth by done. apply L.
  - intros c. rewrite Hch. destruct (decide (c = rp_call (row r e))) as [->|Hc].
    + rewrite (chain_remove _ _ _ _ l1 l2 (lk_nodup _ _ _ L) E). apply Hseg. change (row r0) with (row r). rewrite <- E. apply L.
    + rewrite chain_without by done. apply (seg_row_ext r); [|apply L]. intros x [Hxc Hx]%elem_of_chain.
      apply Hsame; [by apply L|]. intros [Hx' _]%Hin. congruence.
Qed.

Lemma call_unlink_ok r ps M e : links_ok r ps M → e ∈ ps → ∃ r' M',
  call_unlink r e = Some r' ∧ same_table r r' ∧ links_ok r' (filter (fun x => x ≠ e) ps) M' ∧
  (∀ x, ptr x → unlinked (row r' x) = unlinked (row r x)).
Proof.
  intros L He. destruct (links_split r ps M e L He) as (l1 & l2 & E & Hnd & Hptr & Hp & Hn).
  pose proof (lk_call _ _ _ L e He) as Hc0. pose proof (lk_index _ _ _ L (rp_call (row r e))) as HM. rewrite E in HM.
  unfold call_unlink. rewrite Hp, Hn, !opt_ptr by
    (intros x Hx; apply Hptr; first [apply last_Some_elem_of in Hx|apply head_Some_elem_of in Hx]; set_solver).
  destruct (last_split l1) as [->|(k & a & ->)].
  - simpl list.last. simpl default. destruct l2 as [|b l2].
    + destruct (del_ok _ _ (rp_call (row r e)) (lk_repr _ _ _ L)) as (m & Em & Hcap & Rm). simpl. rewrite Em. simpl.
      do 2 eexists. split; [done|]. apply (unlinked_links r ps M e [] [] m _ L He E Rm); [rewrite Hcap; apply (lk_cap _ _ _ L)| |].
      * by rewrite lookup_delete_eq.
      * intros c Hc. by rewrite lookup_delete_ne.
    + destruct (put_ok _ _ (rp_call (row r e)) b (lk_repr _ _ _ L)) as (m & Em & Hcap & Rm).
      simpl in Em, Rm. rewrite bool_decide_eq_true_2 in Em, Rm by (rewrite HM; eauto). simpl in Em, Rm. simpl. rewrite Em. simpl.
      do 2 eexists. split; [done|]. apply (unlinked_links r ps M e [] (b :: l2) m _ L He E Rm); [rewrite Hcap; apply (lk_cap _ _ _ L)| |].
      * by rewrite lookup_insert_eq.
      * intros c Hc. by rewrite lookup_insert_ne.
  - rewrite last_snoc. simpl default. rewrite (bool_decide_eq_false_2 (Some a = None)) by done. simpl negb. cbv iota. cbn [mbind option_bind].
    destruct (unlinked_links r ps M e (k ++ [a]) l2 (rl_by_call r) M L He E (lk_repr _ _ _ L) (lk_cap _ _ _ L)) as (H1 & H2 & H3).
    { rewrite HM. by destruct k. }
    { done. }
    unfold unlink_rows in *. rewrite last_snoc in *. simpl default in *.
    assert (r <| rl_by_call := rl_by_call r |> = r) as Er by (by destruct r). rewrite Er in *.
    destruct l2 as [|b l2]; do 2 eexists; (split; [done|]); done.
Qed.

Lemma chain_push P e ps c : chain P (e :: ps) c = if decide (rp_call (P e) = c) then e :: chain P ps c else chain P ps c.
Proof. unfold chain. rewrite filter_cons. by case_decide. Qed.

Lemma calls_size r ps M : links_ok r ps M → (size M ≤ length ps)%nat.
Proof.
  intros L. apply (index_size M (fun x => rp_call (row r x))). intros c x Hx. rewrite (lk_index _ _ _ L) in Hx.
  apply head_Some_elem_of, elem_of_chain in Hx. tauto.
Qed.
Lemma put_room m M k v : idmap_repr m M → k ≠ 0 → (size M < OC_RELAY_MAX_PARTS)%nat → im_cap m = index_cap →
  ∃ m', oc_idmap_put m k v = Some (0, m') ∧ im_cap m' = index_cap ∧ idmap_repr m' (<[k := v]> M).
Proof.
  intros R Hk Hs Hc. destruct (put_ok m M k v R) as (m' & E & Hc' & R'). simpl in E, R'.
  assert (Hh : Z.of_nat (size M) < im_cap m / 2).
  { rewrite Hc. change (index_cap / 2) with (Z.of_nat OC_RELAY_MAX_PARTS). lia. }
  rewrite bool_decide_eq_true_2 in E, R' by auto. exists m'. split_and!; [done|congruence|done].
Qed.

Lemma call_link_ok r ps M e : links_ok r ps M → e ∉ ps → ptr e → rp_call (row r e) ≠ 0 → (length ps < OC_RELAY_MAX_PARTS)%nat →
  ∃ r' M', call_link r e = Some (0, r') ∧ same_table r r' ∧ links_ok r' (e :: ps) M' ∧
    (∀ x, ptr x → unlinked (row r' x) = unlinked (row r x)).
Proof.
  intros L He Hpe Hc Hroom. pose proof (calls_size r ps M L) as Hsz. unfold call_link.
  rewrite (get_ok _ _ _ (lk_repr _ _ _ L)). cbn [mbind option_bind].
  destruct (put_room _ _ (rp_call (row r e)) e (lk_repr _ _ _ L) Hc ltac:(lia) (lk_cap _ _ _ L)) as (m & -> & Hcap & Rm). simpl.
  rewrite (lk_index _ _ _ L). set (l := chain (row r) ps (rp_call (row r e))).
  assert (Hl : ∀ x, x ∈ l → ptr x ∧ x ≠ e).
  { intros x [_ Hx]%elem_of_chain. split; [by apply L|]. by intros ->. }
  set (r1 := upd_row e (fun p => p <| rp_prev := 0 |> <| rp_next := default 0 (head l) |>) (r <| rl_by_call := m |>)).
  set (r' := if negb (default 0 (head l) =? 0) then upd_row (default 0 (head l)) (fun q => q <| rp_prev := e |>) r1 else r1).
  assert (Hr1 : table_len r1) by apply upd_row_len, L.
  assert (Hrow : ∀ x, ptr x → row r' x =
    if decide (x = e) then row r e <| rp_prev := 0 |> <| rp_next := default 0 (head l) |>
    else if decide (head l = Some x) then row r x <| rp_prev := e |> else row r x).
  { intros x Hx. subst r'. rewrite opt_ptr by (intros y Hy; by apply Hl, head_Some_elem_of).
    assert (∀ y, ptr y → row r1 y = if decide (y = e) then row r e <| rp_prev := 0 |> <| rp_next := default 0 (head l) |> else row r y) as Hr.
    { intros y Hy. subst r1. rewrite row_upd; [done|apply L|done..]. }
    destruct (head l) as [h|] eqn:Eh; simpl; [|by rewrite Hr].
    destruct (Hl h (head_Some_elem_of _ _ Eh)) as [Hh Hhe]. rewrite row_upd, !Hr by done. repeat case_decide; by simplify_eq. }
  assert (Hun : ∀ x, ptr x → unlinked (row r' x) = unlinked (row r x)).
  { intros x Hx. rewrite Hrow by done. repeat case_decide; by subst. }
  assert (Hst : same_table r r').
  { subst r' r1. destruct (negb _); eauto using same_table_trans. }
  assert (Hbc : rl_by_call r' = m) by (subst r'; by destruct (negb _)).
  assert (Hcall : ∀ x, ptr x → rp_call (row r' x) = rp_call (row r x)) by (intros x Hx; by apply unlinked_fields, Hun).
  assert (Hch : ∀ c, chain (row r') ps c = chain (row r) ps c) by (intros c; apply chain_ext; intros x Hx; by apply Hcall, L).
  exists r', (<[rp_call (row r e) := e]> M). split_and!; [done|done| |done]. split.
  - apply Hst, L.
  - apply list.NoDup_cons. split; [done|apply L].
  - intros x [->|Hx]%elem_of_cons; [done|by apply L].
  - intros x [->|Hx]%elem_of_cons; rewrite Hcall; [done|done|by apply (lk_call _ _ _ L)|by apply L].
  - by rewrite Hbc.
  - by rewrite Hbc.
  - intros c. rewrite chain_push, Hch, Hcall by done. case_decide as Hcc; [subst c; by rewrite lookup_insert_eq|].
    rewrite lookup_insert_ne by done. apply L.
  - intros c. rewrite chain_push, Hch, Hcall by done. case_decide as Hcc.
    + subst c. fold l. apply (seg_push (row r)); [apply L| | | |intros x Hx|intros x Hx Hh|intros x Hx].
      * apply list.NoDup_cons. split; [intros [_ ?]%elem_of_chain; done|apply chain_nodup, L].
      * by rewrite Hrow, decide_True.
      * by rewrite Hrow, decide_True.
      * destruct (Hl x Hx). rewrite Hrow, decide_False by done. by case_decide.
      * destruct (Hl x Hx). by rewrite Hrow, !decide_False.
      * destruct (Hl x (head_Some_elem_of _ _ Hx)). by rewrite Hrow, decide_False, decide_True.
    + apply (seg_row_ext r); [|apply L]. intros x [Hxc Hx]%elem_of_chain. rewrite Hrow, !decide_False; [done| | |by apply L].
      * intros [Hxl _]%head_Some_elem_of%elem_of_chain. congruence.
      * intros ->. done.
Qed.

(** ** The table and its other indexes *)

(** Nothing is known of the local address before the peer's. *)
Definition fresh_ok (p : participant) : Prop :=
  rp_addr_known p = false →
  rp_local_known p = false ∧ rp_local6 p = rp_local6 participant_zero ∧ rp_local4 p = rp_local4 participant_zero.
Record table_ok (r : oc_relay) (us : list Z) (Mt Mn : gmap Z Z) : Prop := {
  tb_nodup : NoDup us;
  tb_used : ∀ e, ptr e → e ∈ us ↔ rp_used (row r e) = true;
  tb_n : rl_n r = zlen us;
  tb_tok_repr : idmap_repr (rl_by_token r) Mt;
  tb_tok_cap : im_cap (rl_by_token r) = index_cap;
  tb_tok : ∀ k e, Mt !! k = Some e ↔ e ∈ us ∧ rp_key (row r e) = k;
  tb_token : ∀ e, e ∈ us → rp_key (row r e) = token_key (rp_token (row r e)) ∧ zlen (rp_token (row r e)) = rl_token_len r ∧
               OC_AUDIO_TOKEN_RAND <= zlen (rp_token (row r e)) <= OC_AUDIO_TOKEN_MAX;
  tb_fresh : ∀ e, e ∈ us → fresh_ok (row r e);
  tb_conn_repr : idmap_repr (rl_by_conn r) Mn;
  tb_conn_cap : im_cap (rl_by_conn r) = index_cap;
  tb_conn : ∀ c e, Mn !! c = Some e → e ∈ us ∧ rp_conn (row r e) = c }.

(** Rows that agree on what the table needs. *)
Definition agree (p q : participant) : Prop :=
  rp_used q = rp_used p ∧ rp_key q = rp_key p ∧ rp_token q = rp_token p ∧ rp_conn q = rp_conn p ∧ (fresh_ok p → fresh_ok q).
Lemma agree_refl p : agree p p. Proof. by split_and!. Qed.
Lemma unlinked_agree p q : unlinked q = unlinked p → agree p q.
Proof. destruct p, q. intros [= ]; subst. split_and!; done. Qed.
#[export] Hint Resolve agree_refl unlinked_agree : core.

Lemma table_rows r r' us Mt Mn :
  table_ok r us Mt Mn → (∀ e, e ∈ us → ptr e) → (∀ x, ptr x → agree (row r x) (row r' x)) → rl_n r' = rl_n r →
  rl_by_token r' = rl_by_token r → rl_token_len r' = rl_token_len r → rl_by_conn r' = rl_by_conn r → table_ok r' us Mt Mn.
Proof.
  intros [] Hp Hag Hn Ht Hl Hc.
  assert (Hrow : ∀ e, e ∈ us → agree (row r e) (row r' e)) by auto.
  split; rewrite ?Hn, ?Ht, ?Hl, ?Hc; try done.
  - intros e He. destruct (Hag e He) as (-> & _). auto.
  - intros k e. rewrite tb_tok0. split; intros [He Hk]; (split; [done|]); destruct (Hrow e He) as (_ & E & _); congruence.
  - intros e He. destruct (Hrow e He) as (_ & -> & -> & _). auto.
  - intros e He. apply (Hrow e He). auto.
  - intros c e [He Hk]%tb_conn0. split; [done|]. destruct (Hrow e He) as (_ & _ & _ & -> & _). done.
Qed.
Lemma links_rows r r' ps M :
  links_ok r ps M → table_len r' → rl_by_call r' = rl_by_call r →
  (∀ x, x ∈ ps → rp_call (row r' x) = rp_call (row r x) ∧ rp_prev (row r' x) = rp_prev (row r x) ∧ rp_next (row r' x) = rp_next (row r x)) →
  links_ok r' ps M.
Proof.
  intros [] Hl Hb Hr. assert (Hch : ∀ c, chain (row r') ps c = chain (row r) ps c) by (intros c; apply chain_ext; intros; by apply Hr).
  split; rewrite ?Hb; try done.
  - intros e He. destruct (Hr e He) as (-> & _). auto.
  - intros c. by rewrite Hch.
  - intros c. rewrite Hch. eapply seg_ext; [|apply lk_chain0]. intros x [_ Hx]%elem_of_chain. by apply Hr.
Qed.

Lemma key_nonzero t : token_key t ≠ 0.
Proof. unfold token_key. by destruct (Z.eqb_spec (of_le (ztake 8 (zdrop (zlen t - OC_AUDIO_TOKEN_RAND) t))) 0). Qed.
Lemma token_inj r us Mt Mn e e' : table_ok r us Mt Mn → e ∈ us → e' ∈ us → rp_token (row r e) = rp_token (row r e') → e = e'.
Proof.
  intros T He He' Ht. destruct (tb_token _ _ _ _ T e He) as [H1 _]. destruct (tb_token _ _ _ _ T e' He') as [H2 _].
  assert (H3 : Mt !! rp_key (row r e) = Some e) by (by apply (tb_tok _ _ _ _ T)).
  assert (H4 : Mt !! rp_key (row r e') = Some e') by (by apply (tb_tok _ _ _ _ T)). rewrite H1 in H3. rewrite H2, <- Ht in H4. congruence.
Qed.

Lemma find_token_ok r us Mt Mn token : table_ok r us Mt Mn → (∀ e, e ∈ us → ptr e) → ∃ e, find_token r token = Some e ∧
  ((e = 0 ∧ ∀ x, x ∈ us → rp_token (row r x) ≠ token) ∨ (e ∈ us ∧ rp_token (row r e) = token)).
Proof.
  intros T Hp. unfold find_token.
  assert (Hlen : ∀ x, x ∈ us → rp_token (row r x) = token → zlen token = rl_token_len r ∧ OC_AUDIO_TOKEN_RAND <= zlen token).
  { intros x Hx <-. destruct (tb_token _ _ _ _ T x Hx) as (_ & ? & ? & _). done. }
  destruct (Z.eqb_spec (zlen token) (rl_token_len r)) as [El|El]; simpl.
  2:{ exists 0. split; [done|]. left. split; [done|]. by intros x Hx [? _]%(Hlen x Hx). }
  destruct (Z.ltb_spec (zlen token) OC_AUDIO_TOKEN_RAND) as [Hs|Hs].
  { exists 0. split; [done|]. left. split; [done|]. intros x Hx [_ ?]%(Hlen x Hx). lia. }
  rewrite (get_ok _ _ _ (tb_tok_repr _ _ _ _ T)). cbn [mbind option_bind].
  assert (Hkey : ∀ x, x ∈ us → rp_token (row r x) = token → Mt !! token_key token = Some x).
  { intros x Hx <-. apply (tb_tok _ _ _ _ T). split; [done|]. by apply (tb_token _ _ _ _ T). }
  destruct (Mt !! token_key token) as [e|] eqn:E; simpl.
  - pose proof E as [He _]%(tb_tok _ _ _ _ T). pose proof (Hp e He) as Hpe. unfold ptr in Hpe.
    destruct (Z.eqb_spec e 0); [lia|]. simpl. case_bool_decide as Ht; [by eauto|].
    exists 0. split; [done|]. left. split; [done|]. intros x Hx Hxt. specialize (Hkey x Hx Hxt). congruence.
  - exists 0. split; [done|]. left. split; [done|]. intros x Hx Hxt. specialize (Hkey x Hx Hxt). congruence.
Qed.

(** Forgetting the name of [e], as the code and as the specification does. *)
Definition unname (c e : Z) (M : gmap Z Z) : gmap Z Z := if decide (M !! c = Some e) then delete c M else M.
Lemma unname_le c e M c' e' : unname c e M !! c' = Some e' → M !! c' = Some e' ∧ (e' = e → M !! c = Some e → c' ≠ c).
Proof. unfold unname. case_decide as H; [rewrite lookup_delete_Some|]; naive_solver. Qed.
Lemma conn_unindex_ok r us Mt Mn e : table_ok r us Mt Mn → e ∈ us → ptr e → ∃ m,
  conn_unindex r e = Some (r <| rl_by_conn := m |>) ∧
  table_ok (r <| rl_by_conn := m |>) us Mt (unname (rp_conn (row r e)) e Mn).
Proof.
  intros T He Hp. unfold conn_unindex. rewrite (get_ok _ _ _ (tb_conn_repr _ _ _ _ T)). cbn [mbind option_bind].
  assert (Heq : (default 0 (Mn !! rp_conn (row r e)) =? e) = bool_decide (Mn !! rp_conn (row r e) = Some e)).
  { unfold ptr in Hp. destruct (Mn !! rp_conn (row r e)) as [x|]; simpl.
    - case_bool_decide; [simplify_eq; apply Z.eqb_refl|apply Z.eqb_neq; congruence].
    - by destruct e; [lia|..]. }
  rewrite Heq. unfold unname. case_bool_decide as Hd.
  - destruct (del_ok _ _ (rp_conn (row r e)) (tb_conn_repr _ _ _ _ T)) as (m & -> & Hc & Rm). cbn [mbind option_bind].
    exists m. split; [done|]. rewrite decide_True by done. destruct T. split; try done; cbn.
    + by rewrite Hc.
    + intros c x [_ Hx]%lookup_delete_Some. by apply tb_conn0.
  - exists (rl_by_conn r). rewrite decide_False by done. assert (r <| rl_by_conn := rl_by_conn r |> = r) as -> by (by destruct r). done.
Qed.

(** ** The simulation *)

Record relay_ok (r : oc_relay) (ps : list Z) (Mc Mt Mn : gmap Z Z) : Prop := {
  ro_links : links_ok r ps Mc;
  ro_table : table_ok r ps Mt Mn;
  ro_empty : ps = [] → rl_token_len r = 0 }.
Record same_conf (r r' : oc_relay) : Prop := {
  sc_inet6 : rl_inet6 r' = rl_inet6 r;
  sc_silence : rl_silence_ms r' = rl_silence_ms r;
  sc_gone : rl_gone_hook r' = rl_gone_hook r;
  sc_tcp : rl_tcp_hook r' = rl_tcp_hook r }.
Lemma same_conf_refl r : same_conf r r. Proof. by split. Qed.
Lemma same_conf_trans r1 r2 r3 : same_conf r1 r2 → same_conf r2 r3 → same_conf r1 r3.
Proof. intros [] []. split; congruence. Qed.
Lemma same_table_conf r r' : same_table r r' → same_conf r r'.
Proof. intros []. by split. Qed.
#[export] Hint Resolve same_conf_refl same_table_conf : core.

Definition entries (r : oc_relay) (ps : list Z) : list entry := (fun e => entry_of (rl_inet6 r) (row r e)) <$> ps.
Definition names (r : oc_relay) (M : gmap Z Z) : gmap Z (list Z) := (fun e => rp_token (row r e)) <$> M.
(** [s] is what the specification sees of the participants [ps]. *)
Definition stands (r : oc_relay) (ps : list Z) (s : relay_spec) : Prop :=
  ∃ Mc Mt Mn, relay_ok r ps Mc Mt Mn ∧ s = mk_relay_spec (entries r ps) (names r Mn).
Definition sim (r : oc_relay) (s : relay_spec) : Prop := ∃ ps, stands r ps s.

Lemma entry_unlinked inet6 p q : unlinked p = unlinked q → entry_of inet6 p = entry_of inet6 q.
Proof. destruct p, q. by intros [= ]; subst. Qed.
Lemma entries_ext r r' ps : rl_inet6 r' = rl_inet6 r →
  (∀ e, e ∈ ps → entry_of (rl_inet6 r) (row r' e) = entry_of (rl_inet6 r) (row r e)) → entries r' ps = entries r ps.
Proof. intros E H. unfold entries. rewrite E. apply list_fmap_ext. intros i e He. apply H. by eapply list_elem_of_lookup_2. Qed.
Lemma names_ext r r' M : (∀ c e, M !! c = Some e → rp_token (row r' e) = rp_token (row r e)) → names r' M = names r M.
Proof. intros H. apply map_fmap_ext. intros c e He. by eapply H. Qed.

Lemma without_entries r ps Mt Mn e : table_ok r ps Mt Mn → e ∈ ps →
  spec_without (rp_token (row r e)) (entries r ps) = entries r (filter (fun x => x ≠ e) ps).
Proof.
  intros T He. unfold spec_without, entries.
  assert (H : ∀ x, x ∈ ps → rp_token (row r x) ≠ rp_token (row r e) ↔ x ≠ e).
  { intros x Hx. split; [by intros ? ->|]. intros Hne Ht. apply Hne. by eapply token_inj. }
  clear T He. induction ps as [|x ps IH]; [done|]. rewrite fmap_cons, !filter_cons.
  rewrite IH by (intros y Hy; apply H; by right). pose proof (H x ltac:(by left)) as Hx.
  repeat case_decide; cbn in *; tauto.
Qed.
Lemma unname_names r us Mt Mn e : table_ok r us Mt Mn → e ∈ us →
  spec_unname (entry_of (rl_inet6 r) (row r e)) (names r Mn) = names r (unname (rp_conn (row r e)) e Mn).
Proof.
  intros T He. unfold spec_unname, unname. cbn.
  assert (H : names r Mn !! rp_conn (row r e) = Some (rp_token (row r e)) ↔ Mn !! rp_conn (row r e) = Some e).
  { unfold names. rewrite lookup_fmap. split; [|by intros ->]. intros (x & E & Hx)%fmap_Some.
    destruct (tb_conn _ _ _ _ T _ _ E) as [Hxu _]. rewrite E. f_equal. symmetry. by eapply token_inj. }
  repeat case_decide; [|tauto..|done]. unfold names. by rewrite fmap_delete.
Qed.

Lemma table_drop r us Mt Mn e m :
  table_ok r us Mt Mn → e ∈ us → (∀ x, x ∈ us → ptr x) → table_len r → unname (rp_conn (row r e)) e Mn = Mn →
  idmap_repr m (delete (rp_key (row r e)) Mt) → im_cap m = index_cap →
  let r1 := upd_row e (fun p => p <| rp_used := false |>) (r <| rl_by_token := m |>) <| rl_n := rl_n r - 1 |> in
  table_ok (if rl_n r1 =? 0 then r1 <| rl_token_len := 0 |> else r1) (filter (fun x => x ≠ e) us) (delete (rp_key (row r e)) Mt) Mn.
Proof.
  intros T He Hp Hlen Hun Rm Hcap r1. match goal with |- table_ok ?x _ _ _ => set (r' := x) end.
  assert (Hrow : ∀ x, ptr x → row r' x = if decide (x = e) then row r e <| rp_used := false |> else row r x).
  { intros x Hx. transitivity (row r1 x); [unfold r'; by destruct (_ =? 0)|]. pose (r0 := r <| rl_by_token := m |>). exact (row_upd r0 e _ x Hlen (Hp e He) Hx). }
  assert (Hne : ∀ x, x ∈ filter (fun x => x ≠ e) us → row r' x = row r x).
  { intros x [Hx1 Hx2]%list_elem_of_filter. rewrite Hrow, decide_False; auto. }
  assert (Hn : rl_n r' = rl_n r - 1) by (unfold r'; by destruct (_ =? 0)).
  assert (Hbt : rl_by_token r' = m) by (unfold r'; by destruct (_ =? 0)).
  assert (Hbc : rl_by_conn r' = rl_by_conn r) by (unfold r'; by destruct (_ =? 0)).
  assert (Hlen' : zlen (filter (fun x => x ≠ e) us) = zlen us - 1).
  { destruct (list_elem_of_split us e He) as (l1 & l2 & ->). rewrite filter_out_one by apply T. rewrite !zlen_app, zlen_cons. lia. }
  assert (Hnz : filter (fun x => x ≠ e) us ≠ [] → rl_token_len r' = rl_token_len r).
  { intros Hnn. unfold r'. destruct (Z.eqb_spec (rl_n r1) 0) as [E|]; [|done]. cbn in E. rewrite (tb_n _ _ _ _ T) in E.
    destruct (filter _ us); [done|]. rewrite zlen_cons in Hlen'. pose proof (zlen_nonneg l). lia. }
  pose proof T as []. split; rewrite ?Hn, ?Hbt, ?Hbc; try done.
  - by apply NoDup_filter.
  - intros x Hx. rewrite list_elem_of_filter, Hrow by done. case_decide; [naive_solver|]. rewrite tb_used0 by done. naive_solver.
  - lia.
  - intros k x. rewrite lookup_delete_Some, tb_tok0, list_elem_of_filter. split.
    + intros (Hk & Hx & Hkx). assert (x ≠ e) by (by intros ->). rewrite Hne; [done|]. by apply list_elem_of_filter.
    + intros [[Hx1 Hx2] Hk]. rewrite Hne in Hk by (by apply list_elem_of_filter). split_and!; [|done|done].
      intros Hkk. apply Hx1. assert (Mt !! k = Some x) by (by apply tb_tok0). assert (Mt !! k = Some e) by (by apply tb_tok0). congruence.
  - intros x Hx. rewrite Hnz by (intros Hnil; rewrite Hnil in Hx; by apply not_elem_of_nil in Hx).
    rewrite Hne by done. apply list_elem_of_filter in Hx as [_ Hx]. auto.
  - intros x Hx. rewrite Hne by done. apply list_elem_of_filter in Hx as [_ Hx]. auto.
  - intros c x Hx. pose proof Hx as [Hxu Hxc]%tb_conn0.
    assert (x ≠ e).
    { intros ->. rewrite Hxc in Hun. rewrite <- Hun in Hx. apply unname_le in Hx as [Hx Hy]. by apply Hy. }
    assert (Hxf : x ∈ filter (fun x => x ≠ e) us) by (by apply list_elem_of_filter). by rewrite Hne.
Qed.

Lemma unlink_table r r' us Mt Mn : same_table r r' → (∀ x, ptr x → unlinked (row r' x) = unlinked (row r x)) → (∀ x, x ∈ us → ptr x) →
  table_ok r us Mt Mn → table_ok r' us Mt Mn.
Proof. intros [] Hun Hp T. apply (table_rows r); auto. Qed.

Lemma unname_twice c e M : unname c e (unname c e M) = unname c e M.
Proof. unfold unname at 2 3. case_decide as H; unfold unname; [by rewrite lookup_delete_eq|by rewrite decide_False]. Qed.

Lemma drop_row_ok r ps s e : stands r ps s → e ∈ ps → ∃ r', drop_row r e = Some r' ∧ same_conf r r' ∧ rl_received r' = rl_received r ∧
  (∀ x, ptr x → x ≠ e → unlinked (row r' x) = unlinked (row r x)) ∧
  stands r' (filter (fun x => x ≠ e) ps) (spec_drop s (entry_of (rl_inet6 r) (row r e))).
Proof.
  intros (Mc & Mt & Mn & [L T Hem] & ->) He. pose proof (lk_ptr _ _ _ L) as Hp. pose proof (Hp e He) as Hpe.
  destruct (call_unlink_ok r ps Mc e L He) as (r1 & Mc' & E1 & St & L1 & Hun).
  pose proof (unlink_table r r1 ps Mt Mn St Hun Hp T) as T1. pose proof (unlinked_fields _ _ (Hun e Hpe)) as (_ & Hkey & Hconn & _).
  destruct (conn_unindex_ok r1 ps Mt Mn e T1 He Hpe) as (m2 & E2 & T2). rewrite Hconn in T2.
  set (r2 := r1 <| rl_by_conn := m2 |>) in *. destruct (del_ok _ _ (rp_key (row r2 e)) (tb_tok_repr _ _ _ _ T2)) as (m3 & E3 & C3 & R3).
  assert (Hl2 : table_len r2) by apply L1.
  pose proof (table_drop r2 ps Mt _ e m3 T2 He Hp Hl2) as T3. cbv zeta in T3.
  change (rp_conn (row r2 e)) with (rp_conn (row r1 e)) in T3. rewrite Hconn in T3.
  specialize (T3 (unname_twice _ _ _) R3 ltac:(rewrite C3; apply (tb_tok_cap _ _ _ _ T2))).
  unfold drop_row. rewrite E1. cbn [mbind option_bind]. rewrite E2. cbn [mbind option_bind].
  rewrite E3. cbn [mbind option_bind]. eexists. split; [reflexivity|]. cbv zeta.
  match type of T3 with table_ok ?x _ _ _ => set (r' := x) in *; change (if rl_n _ =? 0 then _ else _) with r' end.
  assert (Hrow : ∀ x, ptr x → row r' x = if decide (x = e) then row r1 e <| rp_used := false |> else row r1 x).
  { intros x Hx. pose (r0 := r2 <| rl_by_token := m3 |>). etransitivity; [|exact (row_upd r0 e (fun p => p <| rp_used := false |>) x Hl2 Hpe Hx)].
    unfold r'. by destruct (_ =? 0). }
  assert (Hcf : same_conf r r' ∧ rl_received r' = rl_received r ∧ rl_by_call r' = rl_by_call r1 ∧ table_len r').
  { assert (table_len r') by (unfold r'; destruct (_ =? 0); apply (upd_row_len (r2 <| rl_by_token := m3 |>)), Hl2).
    destruct St. unfold r'. destruct (_ =? 0); split_and!; try done; by split. }
  destruct Hcf as (Hcf & Hrec & Hbc & Hl').
  assert (Hsame : ∀ x, ptr x → x ≠ e → unlinked (row r' x) = unlinked (row r x)).
  { intros x Hx Hne. rewrite Hrow, decide_False by done. auto. }
  split_and!; [done|done|done|]. do 3 eexists. split; [split; [|exact T3|]|].
  - apply (links_rows r1); [exact L1|done|done|]. intros x [Hne Hx]%list_elem_of_filter. rewrite Hrow, decide_False; auto.
  - intros Hnil. pose proof (tb_n _ _ _ _ T3) as Hn. rewrite Hnil, zlen_nil in Hn. unfold r' in Hn |- *.
    match type of Hn with context [?n =? 0] => destruct (Z.eqb_spec n 0) as [|Hz] end; [done|]. by destruct Hz.
  - unfold spec_drop. cbn [rs_entries rs_conn]. f_equal.
    + cbn [en_token entry_of]. rewrite (without_entries r ps Mt Mn e T He). symmetry. apply entries_ext; [apply Hcf|].
      intros x [Hne Hx]%list_elem_of_filter. by apply entry_unlinked, Hsame; [apply Hp|].
    + rewrite (unname_names r ps Mt Mn e T He). symmetry. apply names_ext. intros c x Hx.
      pose proof (tb_conn _ _ _ _ T3 _ _ Hx) as [[Hne Hxu]%list_elem_of_filter _]. by apply unlinked_fields, Hsame; [apply Hp|].
Qed.

(** ** Authorizing *)

Lemma elem_of_row_ptrs e : e ∈ row_ptrs ↔ ptr e.
Proof.
  unfold row_ptrs, ptr. rewrite list_elem_of_fmap. split.
  - intros (n & -> & Hn%elem_of_seq). lia.
  - intros He. exists (Z.to_nat e). rewrite elem_of_seq. lia.
Qed.
Lemma ptrs_count us : NoDup us → (∀ e, e ∈ us → ptr e) → (length us ≤ OC_RELAY_MAX_PARTS)%nat.
Proof.
  intros Hnd Hp. transitivity (length row_ptrs); [|unfold row_ptrs; by rewrite length_fmap, length_seq].
  apply List.NoDup_incl_length; [by apply NoDup_ListNoDup|]. intros e He. apply list_elem_of_In, elem_of_row_ptrs, Hp. by apply list_elem_of_In.
Qed.
Lemma table_perm r us us' Mt Mn : us ≡ₚ us' → table_ok r us Mt Mn → table_ok r us' Mt Mn.
Proof.
  intros Hperm []. assert (Hel : ∀ x, x ∈ us' ↔ x ∈ us) by (intros x; by rewrite Hperm). split; try done.
  - by rewrite <- Hperm.
  - intros e He. rewrite Hel. auto.
  - rewrite tb_n0. unfold zlen. by rewrite Hperm.
  - intros k e. rewrite Hel. apply tb_tok0.
  - intros e He%Hel. auto.
  - intros e He%Hel. auto.
  - intros c e [He Hc]%tb_conn0. by rewrite Hel.
Qed.

(** The row is given its call, user and connection. *)
Lemma table_retag r us Mt Mn e f :
  table_ok r us Mt Mn → table_len r → (∀ x, x ∈ us → ptr x) → e ∈ us → (∀ c, Mn !! c ≠ Some e) →
  (∀ p, rp_used (f p) = rp_used p ∧ rp_key (f p) = rp_key p ∧ rp_token (f p) = rp_token p ∧ (fresh_ok p → fresh_ok (f p))) →
  table_ok (upd_row e f r) us Mt Mn.
Proof.
  intros T Hl Hp He Hn Hf. pose proof T as []. assert (Hpe : ptr e) by auto.
  assert (Hrow : ∀ x, ptr x → rp_used (row (upd_row e f r) x) = rp_used (row r x) ∧ rp_key (row (upd_row e f r) x) = rp_key (row r x) ∧
    rp_token (row (upd_row e f r) x) = rp_token (row r x) ∧ (fresh_ok (row r x) → fresh_ok (row (upd_row e f r) x))).
  { intros x Hx. rewrite row_upd by done. case_decide; [subst x; apply Hf|done]. }
  split; try done.
  - intros x Hx. destruct (Hrow x Hx) as (-> & _). auto.
  - intros k x. rewrite tb_tok0. split; intros [Hx Hk]; (split; [done|]); destruct (Hrow x (Hp x Hx)) as (_ & E & _); congruence.
  - intros x Hx. destruct (Hrow x (Hp x Hx)) as (_ & -> & -> & _). auto.
  - intros x Hx. apply Hrow; auto.
  - intros c x Hx. pose proof Hx as [Hxu Hxc]%tb_conn0. split; [done|]. rewrite row_upd_ne; auto. intros ->. by eapply Hn.
Qed.

Lemma authorize_row_ok now r ps us Mc Mt Mn e call user conn :
  links_ok r ps Mc → table_ok r us Mt Mn → us ≡ₚ e :: ps → ptr e → (∀ c, Mn !! c ≠ Some e) → call ≠ 0 →
  ∃ r', authorize_row now r e call user conn = Some (0, r') ∧ same_conf r r' ∧ rl_received r' = rl_received r ∧
    stands r' (e :: ps)
      (mk_relay_spec (entry_of (rl_inet6 r) (row r e <| rp_call := call |> <| rp_user := user |> <| rp_conn := conn |> <| rp_seen := now |>)
                        :: entries r ps) (spec_name conn (rp_token (row r e)) (names r Mn))).
Proof.
  intros L T Hperm Hpe Hn Hc. pose proof (lk_len _ _ _ L) as Hl. pose proof (lk_ptr _ _ _ L) as Hp.
  assert (Hpu : ∀ x, x ∈ us → ptr x) by (intros x; rewrite Hperm; intros [->|?]%elem_of_cons; auto).
  assert (Heu : e ∈ us) by (rewrite Hperm; by left).
  assert (Hnd : NoDup (e :: ps)) by (rewrite <- Hperm; apply T). apply list.NoDup_cons in Hnd as [Heps Hnd].
  assert (Hroom : (length ps < OC_RELAY_MAX_PARTS)%nat).
  { pose proof (ptrs_count us (tb_nodup _ _ _ _ T) Hpu) as H. rewrite Hperm in H. simpl length in H. lia. }
  unfold authorize_row. set (f := fun p => p <| rp_call := call |> <| rp_user := user |> <| rp_conn := conn |> <| rp_seen := now |>).
  set (r1 := upd_row e f r).
  assert (T1 : table_ok r1 us Mt Mn) by (by apply table_retag).
  assert (Hrow1 : row r1 e = f (row r e)) by (by apply row_upd_eq).
  assert (L1 : links_ok r1 ps Mc).
  { apply (links_rows r); [done|by apply upd_row_len|done|]. intros x Hx. unfold r1. rewrite row_upd_ne; auto. by intros ->. }
  destruct (call_link_ok r1 ps Mc e L1 Heps Hpe ltac:(by rewrite Hrow1) Hroom) as (r2 & Mc2 & E2 & St & L2 & Hun).
  rewrite E2. cbn [mbind option_bind]. change (negb (0 =? 0)) with false. cbv iota.
  pose proof (unlink_table r1 r2 us Mt Mn St Hun Hpu T1) as T2. apply (table_perm _ _ _ _ _ Hperm) in T2.
  assert (Hent : ∀ rr, rl_inet6 rr = rl_inet6 r → (∀ x, row rr x = row r2 x) → entries rr (e :: ps) = entry_of (rl_inet6 r) (f (row r e)) :: entries r ps).
  { intros rr Hi Hr. unfold entries. rewrite fmap_cons, Hi. f_equal.
    - rewrite Hr, <- Hrow1. by apply entry_unlinked, Hun.
    - apply list_fmap_ext. intros i x Hx. apply list_elem_of_lookup_2 in Hx. rewrite Hr. transitivity (entry_of (rl_inet6 r) (row r1 x)).
      + by apply entry_unlinked, Hun, Hp.
      + unfold r1. rewrite row_upd_ne; auto. by intros ->. }
  assert (Hnm : ∀ rr, (∀ x, row rr x = row r2 x) → names rr Mn = names r Mn).
  { intros rr Hr. apply names_ext. intros c x Hx. pose proof (tb_conn _ _ _ _ T _ _ Hx) as [Hxu _]. rewrite Hr.
    destruct (unlinked_fields _ _ (Hun x (Hpu x Hxu))) as (_ & _ & _ & -> & _). unfold r1. rewrite row_upd_ne; auto. intros ->. by eapply Hn. }
  assert (Hte : rp_token (row r2 e) = rp_token (row r e)).
  { destruct (unlinked_fields _ _ (Hun e Hpe)) as (_ & _ & _ & -> & _). by rewrite Hrow1. }
  pose proof (same_table_trans _ _ _ (same_table_upd r e f) St) as St'. unfold spec_name. destruct (Z.eqb_spec conn 0) as [->|Hc0].
  - exists r2. split_and!; [done|auto|apply St'|]. do 3 eexists. split; [split; [exact L2|exact T2|done]|].
    by rewrite (Hent r2), (Hnm r2) by (done || apply St').
  - assert (Hsz : (size Mn ≤ length ps)%nat).
    { apply (index_size Mn (fun x => rp_conn (row r x))). intros c x Hx. pose proof (tb_conn _ _ _ _ T _ _ Hx) as [Hxu ?].
      rewrite Hperm in Hxu. apply elem_of_cons in Hxu as [->|?]; [by apply Hn in Hx|done]. }
    destruct (put_room _ _ conn e (tb_conn_repr _ _ _ _ T2) Hc0 ltac:(lia) (tb_conn_cap _ _ _ _ T2)) as (m & -> & Hcap & Rm).
    cbn [mbind option_bind]. eexists. split; [done|]. split; [destruct St'; by split|]. split; [apply St'|].
    exists Mc2, Mt, (<[conn := e]> Mn). split.
    + split; [by apply (links_rows r2); [|apply L2| |]| |done].
      destruct T2. split; try done. intros c x Hx. destruct (decide (c = conn)) as [->|Hcc].
      * rewrite lookup_insert_eq in Hx. simplify_eq. split; [by left|]. change (rp_conn (row r2 x) = conn).
        destruct (unlinked_fields _ _ (Hun x Hpe)) as (_ & _ & -> & _). by rewrite Hrow1.
      * rewrite lookup_insert_ne in Hx by done. by apply tb_conn0.
    + rewrite Hent by (done || apply St'). f_equal. unfold names at 2. rewrite fmap_insert. f_equal; [|by symmetry; apply Hnm]. done.
Qed.

Lemma find_entries r ps Mt Mn token : table_ok r ps Mt Mn →
  (∀ e, e ∈ ps → rp_token (row r e) = token → spec_find token (entries r ps) = Some (entry_of (rl_inet6 r) (row r e))) ∧
  ((∀ e, e ∈ ps → rp_token (row r e) ≠ token) → spec_find token (entries r ps) = None).
Proof.
  intros T. assert (Hinj : ∀ e e', e ∈ ps → e' ∈ ps → rp_token (row r e) = rp_token (row r e') → e = e') by (intros e e'; by apply (token_inj r ps Mt Mn)).
  clear T. unfold spec_find, entries. split.
  - induction ps as [|x ps IH]; intros e He Ht; [by apply not_elem_of_nil in He|]. rewrite fmap_cons. simpl.
    case_bool_decide as Hx.
    + rewrite (Hinj x e); [done|by left|done|congruence].
    + apply elem_of_cons in He as [->|He]; [done|]. apply IH; auto. intros; apply Hinj; by (right || done).
  - induction ps as [|x ps IH]; intros H; [done|]. rewrite fmap_cons. simpl. rewrite bool_decide_eq_false_2 by (apply H; by left).
    apply IH; [intros; apply Hinj; by (right || done)|intros e He; apply H; by right].
Qed.

Lemma free_row_ok r us Mt Mn : table_ok r us Mt Mn → table_len r → (∀ x, x ∈ us → ptr x) →
  match free_row r with
  | Some e => ptr e ∧ e ∉ us
  | None => (OC_RELAY_MAX_PARTS ≤ length us)%nat
  end.
Proof.
  intros T Hl Hp. unfold free_row. destruct (find_index _ (rl_parts r)) as [i|] eqn:E; cbn [mbind option_bind].
  - apply find_index_Some in E as (p & Hi & Hu). pose proof (lookup_lt_Some _ _ _ Hi) as Hlt. rewrite Hl in Hlt.
    assert (Hpe : ptr (Z.of_nat i + 1)) by (unfold ptr; lia). split; [done|]. rewrite (tb_used _ _ _ _ T) by done.
    unfold row. replace (Z.to_nat (Z.of_nat i + 1 - 1)) with i by lia. rewrite (nth_lookup_Some _ _ _ p Hi). by destruct (rp_used p).
  - transitivity (length row_ptrs); [unfold row_ptrs; by rewrite length_fmap, length_seq|].
    apply List.NoDup_incl_length.
    { apply NoDup_ListNoDup. unfold row_ptrs. apply NoDup_fmap_2; [|apply NoDup_seq]. intros ???; lia. }
    intros e He%list_elem_of_In%elem_of_row_ptrs. apply list_elem_of_In. apply (tb_used _ _ _ _ T); [done|].
    unfold row, ptr in *.
    assert (Hlt : (Z.to_nat (e - 1) < length (rl_parts r))%nat) by (rewrite Hl; lia). apply lookup_lt_is_Some in Hlt as [p Hi].
    rewrite (nth_lookup_Some _ _ _ p Hi). apply list_elem_of_lookup_2 in Hi.
    apply (find_index_None _ _ p E) in Hi. by destruct (rp_used p).
Qed.

(** A fresh row under a token whose key is free. *)
Lemma table_add r us Mt Mn e token m :
  table_ok r us Mt Mn → table_len r → (∀ x, x ∈ us → ptr x) → ptr e → e ∉ us → Mt !! token_key token = None →
  zlen token = rl_token_len r → OC_AUDIO_TOKEN_RAND <= zlen token <= OC_AUDIO_TOKEN_MAX →
  idmap_repr m (<[token_key token := e]> Mt) → im_cap m = index_cap →
  let p := participant_zero <| rp_token := token |> <| rp_key := token_key token |> <| rp_used := true |> in
  table_ok (set_row e p (r <| rl_by_token := m |>) <| rl_n := rl_n r + 1 |>) (e :: us) (<[token_key token := e]> Mt) Mn.
Proof.
  intros T Hl Hp Hpe He HM Hlen Hrng Rm Hcap p. set (r' := set_row _ _ _ <| rl_n := _ |>).
  assert (Hrow : ∀ x, ptr x → row r' x = if decide (x = e) then p else row r x).
  { intros x Hx. pose (r0 := r <| rl_by_token := m |>). exact (row_upd r0 e (fun _ => p) x Hl Hpe Hx). }
  assert (Hold : ∀ x, x ∈ us → row r' x = row r x) by (intros x Hx; rewrite Hrow, decide_False; [done|by intros ->|auto]).
  assert (Hnew : row r' e = p) by (by rewrite Hrow, decide_True).
  pose proof T as []. split; try done.
  - by apply list.NoDup_cons.
  - intros x Hx. rewrite elem_of_cons, Hrow by done. case_decide; [naive_solver|]. rewrite tb_used0 by done. naive_solver.
  - cbn. rewrite tb_n0, zlen_cons. lia.
  - intros k x. rewrite elem_of_cons. destruct (decide (k = token_key token)) as [->|Hk].
    + rewrite lookup_insert_eq. split; [intros [= <-]; split; [by left|by rewrite Hnew]|].
      intros [[->|Hx] Hkx]; [done|]. rewrite Hold in Hkx by done. assert (Mt !! token_key token = Some x) by (by apply tb_tok0). congruence.
    + rewrite lookup_insert_ne, tb_tok0 by done. split.
      * intros [Hx Hkx]. rewrite Hold by done. auto.
      * intros [[->|Hx] Hkx]; [rewrite Hnew in Hkx; by cbn in Hkx|]. by rewrite Hold in Hkx.
  - intros x [->|Hx]%elem_of_cons; [rewrite Hnew; by cbn|]. rewrite Hold by done. auto.
  - intros x [->|Hx]%elem_of_cons; [by rewrite Hnew|]. rewrite Hold by done. auto.
  - intros c x [Hx Hc]%tb_conn0. rewrite Hold by done. split; [by right|done].
Qed.

Lemma lens_guard r ps Mt Mn (token : list Z) : table_ok r ps Mt Mn →
  negb (rl_n r =? 0) && negb (zlen token =? rl_token_len r) = existsb (fun x => negb (zlen (en_token x) =? zlen token)) (entries r ps).
Proof.
  intros T. rewrite (tb_n _ _ _ _ T). assert (Ht : ∀ e, e ∈ ps → zlen (rp_token (row r e)) = rl_token_len r) by (intros e He; by apply (tb_token _ _ _ _ T)).
  clear T. unfold entries. destruct ps as [|e ps]; [done|]. rewrite zlen_cons. pose proof (zlen_nonneg ps).
  destruct (Z.eqb_spec (1 + zlen ps) 0); [lia|]. simpl negb at 1. rewrite andb_true_l.
  destruct (Z.eqb_spec (zlen token) (rl_token_len r)) as [El|El]; simpl negb; symmetry.
  - apply not_true_is_false. intros (x & (e' & -> & He')%list_elem_of_In%list_elem_of_fmap & Hx)%existsb_exists. cbn in Hx.
    rewrite Ht, <- El, Z.eqb_refl in Hx by done. done.
  - rewrite fmap_cons. cbn [existsb en_token entry_of]. rewrite Ht by (by left). by destruct (Z.eqb_spec (rl_token_len r) (zlen token)).
Qed.

Lemma links_conf r r' ps M : links_ok r ps M → rl_parts r' = rl_parts r → rl_by_call r' = rl_by_call r → links_ok r' ps M.
Proof.
  intros L Hp Hb. assert (∀ x, row r' x = row r x) as Hr by (intros x; unfold row; by rewrite Hp).
  apply (links_rows r); [done|unfold table_len; rewrite Hp; apply L|done|]. intros x _. by rewrite Hr.
Qed.

Lemma relen_ok r ps Mc Mt Mn (token : list Z) : relay_ok r ps Mc Mt Mn → existsb (fun x => negb (zlen (en_token x) =? zlen token)) (entries r ps) = false →
  let r1 := if rl_n r =? 0 then r <| rl_token_len := zlen token |> else r in
  rl_token_len r1 = zlen token ∧ links_ok r1 ps Mc ∧ table_ok r1 ps Mt Mn ∧ (∀ x, row r1 x = row r x) ∧ same_conf r r1 ∧ rl_received r1 = rl_received r.
Proof.
  intros [L T _] Hg r1. rewrite <- (lens_guard r ps Mt Mn token T) in Hg. subst r1. destruct (Z.eqb_spec (rl_n r) 0) as [Hn|Hn]; simpl in Hg.
  - assert (ps = []) as -> by (rewrite (tb_n _ _ _ _ T) in Hn; by apply zlen_0 in Hn).
    split_and!; try done. 1: by apply (links_conf r). destruct T. split; try done; by intros e ?%not_elem_of_nil.
  - destruct (Z.eqb_spec (zlen token) (rl_token_len r)) as [El|]; [|done]. by split_and!.
Qed.

Lemma key_entries r ps Mt Mn token : table_ok r ps Mt Mn →
  existsb (fun x => token_key (en_token x) =? token_key token) (entries r ps) = bool_decide (is_Some (Mt !! token_key token)).
Proof.
  intros T. case_bool_decide as Hk.
  - destruct Hk as [e [He Hk]%(tb_tok _ _ _ _ T)]. apply existsb_exists. exists (entry_of (rl_inet6 r) (row r e)). split.
    + apply list_elem_of_In. unfold entries. by apply (list_elem_of_fmap_2 (fun e => entry_of (rl_inet6 r) (row r e))).
    + cbn. apply Z.eqb_eq. rewrite <- Hk. symmetry. by apply (tb_token _ _ _ _ T).
  - apply not_true_is_false. intros (x & (e & -> & He)%list_elem_of_In%list_elem_of_fmap & Hx)%existsb_exists. cbn in Hx.
    apply Hk. exists e. apply (tb_tok _ _ _ _ T). split; [done|]. rewrite (proj1 (tb_token _ _ _ _ T e He)). by apply Z.eqb_eq.
Qed.

Lemma upd_set_row r e p f m n : table_len r → ptr e →
  upd_row e f (set_row e p r <| rl_by_token := m |>) <| rl_n := n |> = set_row e (f p) (r <| rl_by_token := m |>) <| rl_n := n |>.
Proof.
  intros Hl Hpe. unfold upd_row, set_row, row. cbn. rewrite nth_lookup, list_lookup_insert_eq by (rewrite Hl; unfold ptr in Hpe; lia).
  by rewrite list_insert_insert_eq.
Qed.

(** A token nobody has. *)
Lemma authorize_fresh now r ps Mc Mt Mn call user conn token e :
  links_ok r ps Mc → table_ok r ps Mt Mn → zlen token = rl_token_len r → OC_AUDIO_TOKEN_RAND <= zlen token <= OC_AUDIO_TOKEN_MAX →
  call ≠ 0 → Mt !! token_key token = None → ptr e → e ∉ ps →
  ∃ m r', oc_idmap_put (rl_by_token r) (token_key token) e = Some (0, m) ∧
    authorize_row now (upd_row e (fun p => p <| rp_used := true |>)
                         (set_row e (participant_zero <| rp_token := token |> <| rp_key := token_key token |>) r <| rl_by_token := m |>)
                       <| rl_n := rl_n r + 1 |>) e call user conn = Some (0, r') ∧
    same_conf r r' ∧ rl_received r' = rl_received r ∧
    stands r' (e :: ps) (mk_relay_spec (mk_entry token call user conn false None now :: entries r ps) (spec_name conn token (names r Mn))).
Proof.
  intros L T Hlen Hrng Hc HM Hpe He. pose proof (lk_len _ _ _ L) as Hl. pose proof (lk_ptr _ _ _ L) as Hp.
  assert (Hroom : (size Mt < OC_RELAY_MAX_PARTS)%nat).
  { pose proof (index_size Mt (fun x => rp_key (row r x)) ps (fun k x => proj1 (tb_tok _ _ _ _ T k x))).
    pose proof (ptrs_count (e :: ps)) as H'. simpl length in H'. enough (S (length ps) ≤ OC_RELAY_MAX_PARTS)%nat by lia.
    apply H'; [apply list.NoDup_cons; split; [done|apply T]|intros x [->|Hx]%elem_of_cons; auto]. }
  destruct (put_room _ _ (token_key token) e (tb_tok_repr _ _ _ _ T) (key_nonzero token) Hroom (tb_tok_cap _ _ _ _ T)) as (m & Em & Hcap & Rm).
  pose proof (table_add r ps Mt Mn e token m T Hl Hp Hpe He HM Hlen Hrng Rm Hcap) as T1. cbv zeta in T1.
  match type of T1 with table_ok ?x _ _ _ => set (r1 := x) in * end.
  assert (Hrow : ∀ x, ptr x → x ≠ e → row r1 x = row r x).
  { intros x Hx Hne. pose (r0 := r <| rl_by_token := m |>). pose (p := participant_zero <| rp_token := token |> <| rp_key := token_key token |> <| rp_used := true |>). exact (row_upd_ne r0 e (fun _ => p) x Hl Hpe Hx Hne). }
  assert (Hrowe : row r1 e = participant_zero <| rp_token := token |> <| rp_key := token_key token |> <| rp_used := true |>).
  { pose (r0 := r <| rl_by_token := m |>). pose (p := participant_zero <| rp_token := token |> <| rp_key := token_key token |> <| rp_used := true |>).
    exact (row_upd_eq r0 e (fun _ => p) Hl Hpe). }
  assert (L1 : links_ok r1 ps Mc).
  { apply (links_rows r); [done|unfold table_len; cbn; by rewrite length_insert|done|]. intros x Hx. rewrite Hrow; auto. by intros ->. }
  destruct (authorize_row_ok now r1 ps (e :: ps) Mc _ Mn e call user conn L1 T1) as (r' & E' & Hcf & Hrec & Hst); [done|done| |done|].
  { intros c Hce. by apply (tb_conn _ _ _ _ T) in Hce as [? _]. }
  exists m, r'. rewrite (upd_set_row r e _ (fun p => p <| rp_used := true |>) m) by done. split_and!; [done|exact E'| |exact Hrec|].
  { eapply same_conf_trans; [|exact Hcf]. by split. }
  replace (mk_relay_spec _ _) with (mk_relay_spec (entry_of (rl_inet6 r1) (row r1 e <| rp_call := call |> <| rp_user := user |> <| rp_conn := conn |> <| rp_seen := now |>)
                        :: entries r1 ps) (spec_name conn (rp_token (row r1 e)) (names r1 Mn))); [done|].
  rewrite Hrowe. cbn. f_equal; [f_equal|f_equal].
  - apply entries_ext; [done|]. intros x Hx. rewrite Hrow; auto. by intros ->.
  - apply names_ext. intros c x [Hx _]%(tb_conn _ _ _ _ T). rewrite Hrow; auto. by intros ->.
Qed.

(** A token that is moved. *)
Lemma without_perm (e : Z) ps : NoDup ps → e ∈ ps → ps ≡ₚ e :: filter (fun x => x ≠ e) ps.
Proof.
  intros Hnd He. destruct (list_elem_of_split ps e He) as (l1 & l2 & ->). rewrite filter_out_one by done. by rewrite <- Permutation_middle.
Qed.
Lemma authorize_again now r ps Mc Mt Mn call user conn e :
  links_ok r ps Mc → table_ok r ps Mt Mn → call ≠ 0 → e ∈ ps →
  ∃ r1 r2 r', call_unlink r e = Some r1 ∧ conn_unindex r1 e = Some r2 ∧ authorize_row now r2 e call user conn = Some (0, r') ∧
    same_conf r r' ∧ rl_received r' = rl_received r ∧
    let x := entry_of (rl_inet6 r) (row r e) in
    stands r' (e :: filter (fun x => x ≠ e) ps)
      (mk_relay_spec (mk_entry (en_token x) call user conn (en_tcp x) (en_peer x) now :: spec_without (en_token x) (entries r ps))
                     (spec_name conn (en_token x) (spec_unname x (names r Mn)))).
Proof.
  intros L T Hc He. pose proof (lk_ptr _ _ _ L) as Hp. pose proof (Hp e He) as Hpe.
  destruct (call_unlink_ok r ps Mc e L He) as (r1 & Mc' & E1 & St & L1 & Hun).
  pose proof (unlink_table r r1 ps Mt Mn St Hun Hp T) as T1. pose proof (unlinked_fields _ _ (Hun e Hpe)) as (_ & _ & Hconn & Htok & _).
  destruct (conn_unindex_ok r1 ps Mt Mn e T1 He Hpe) as (m2 & E2 & T2). rewrite Hconn in T2. set (r2 := r1 <| rl_by_conn := m2 |>) in *.
  assert (L2 : links_ok r2 (filter (fun x => x ≠ e) ps) Mc') by (by apply (links_conf r1)).
  destruct (authorize_row_ok now r2 _ ps Mc' Mt _ e call user conn L2 T2 (without_perm e ps (lk_nodup _ _ _ L) He) Hpe) as (r' & E' & Hcf & Hrec & Hst).
  { intros c Hce. apply unname_le in Hce as [Hce Hn]. pose proof (tb_conn _ _ _ _ T _ _ Hce) as [_ Hcc]. subst c. by apply Hn. }
  { done. }
  exists r1, r2, r'. split_and!; [done|done|done| | |].
  { apply (same_conf_trans _ r1); [auto|]. apply (same_conf_trans _ r2); [by split|done]. }
  { rewrite Hrec. apply St. }
  cbv zeta. cbn [entry_of en_token en_tcp en_peer]. rewrite (without_entries r ps Mt Mn e T He).
  replace (spec_unname _ _) with (names r (unname (rp_conn (row r e)) e Mn)) by (symmetry; by apply (unname_names r ps Mt)).
  replace (mk_relay_spec _ _) with (mk_relay_spec (entry_of (rl_inet6 r2) (row r2 e <| rp_call := call |> <| rp_user := user |> <| rp_conn := conn |> <| rp_seen := now |>)
                        :: entries r2 (filter (fun x => x ≠ e) ps)) (spec_name conn (rp_token (row r2 e)) (names r2 (unname (rp_conn (row r e)) e Mn)))); [done|].
  change (rp_token (row r2 e)) with (rp_token (row r1 e)). rewrite Htok. f_equal; [f_equal|f_equal].
  - change (row r2 e) with (row r1 e). change (rl_inet6 r2) with (rl_inet6 r1). rewrite (st_inet6 _ _ St). pose proof (Hun e Hpe) as H.
    destruct (row r1 e), (row r e). injection H as -> -> -> -> -> -> -> -> -> -> -> -> ->. done.
  - apply entries_ext; [apply St|]. intros x [_ Hx]%list_elem_of_filter. by apply entry_unlinked, Hun, Hp.
  - apply names_ext. intros c x [Hx _]%(tb_conn _ _ _ _ T2). by apply unlinked_fields, Hun, Hp.
Qed.
Lemma authorize_ok now r s call user conn token : sim r s → ∃ r',
  oc_relay_authorize now r call user conn token = Some (fst (spec_authorize now s call user conn token), r') ∧
  same_conf r r' ∧ rl_received r' = rl_received r ∧ sim r' (snd (spec_authorize now s call user conn token)).
Proof.
  intros (ps & Mc & Mt & Mn & R & ->). pose proof R as [L T Hem].
  assert (Hfail : sim r (mk_relay_spec (entries r ps) (names r Mn))) by (by exists ps, Mc, Mt, Mn).
  unfold oc_relay_authorize, spec_authorize. cbn [rs_entries rs_conn].
  destruct (Z.ltb_spec (zlen token) OC_AUDIO_TOKEN_RAND) as [|H1]; [eauto|].
  destruct (Z.ltb_spec OC_AUDIO_TOKEN_MAX (zlen token)) as [|H2]; [eauto|].
  destruct (Z.eqb_spec call 0) as [|Hc]; [eauto|]. simpl orb. rewrite (lens_guard r ps Mt Mn token T).
  destruct (existsb _ (entries r ps)) eqn:Hg; [eauto|]. clear Hfail.
  destruct (relen_ok r ps Mc Mt Mn token R Hg) as (Hlen & L1 & T1 & Hrow & Hcf & Hrec). cbv zeta.
  set (r1 := if rl_n r =? 0 then _ else r) in *. assert (Hent : entries r1 ps = entries r ps).
  { apply entries_ext; [apply Hcf|]. intros e _. by rewrite Hrow. }
  assert (Hnm : names r1 Mn = names r Mn) by (apply names_ext; intros; by rewrite Hrow).
  rewrite <- Hent, <- Hnm. pose proof (lk_ptr _ _ _ L1) as Hp.
  destruct (find_token_ok r1 ps Mt Mn token T1 Hp) as (e & Ef & [[-> Hno]|[He Ht]]); rewrite Ef; cbn [mbind option_bind].
  - rewrite (proj2 (find_entries r1 ps Mt Mn token T1) Hno). change (negb (0 =? 0)) with false. cbv iota.
    rewrite (get_ok _ _ _ (tb_tok_repr _ _ _ _ T1)). cbn [mbind option_bind]. rewrite (key_entries r1 ps Mt Mn token T1).
    assert (Hkeep : ps ≠ [] → sim r1 (mk_relay_spec (entries r1 ps) (names r1 Mn))).
    { intros Hne. exists ps, Mc, Mt, Mn. split; [by split|done]. }
    destruct (Mt !! token_key token) as [o|] eqn:HM; simpl default.
    { pose proof HM as [Ho _]%(tb_tok _ _ _ _ T1). pose proof (Hp o Ho) as Hpo.
      assert (negb (o =? 0) = true) as -> by (unfold ptr in Hpo; by destruct (Z.eqb_spec o 0); [lia|]).
      rewrite bool_decide_eq_true_2 by eauto. exists r1. split_and!; [done|done|done|]. apply Hkeep. intros ->. by apply not_elem_of_nil in Ho. }
    rewrite bool_decide_eq_false_2 by (by intros [? ?]). simpl orb. change (negb (0 =? 0)) with false. cbv iota.
    assert (Hlp : zlen (entries r1 ps) = zlen ps) by (unfold entries, zlen; by rewrite length_fmap). rewrite !Hlp.
    pose proof (free_row_ok r1 ps Mt Mn T1 (lk_len _ _ _ L1) Hp) as Hfree. destruct (free_row r1) as [e|].
    + destruct Hfree as [Hpe He]. pose proof (ptrs_count (e :: ps)) as Hcnt. simpl length in Hcnt.
      destruct (Z.leb_spec (Z.of_nat OC_RELAY_MAX_PARTS) (zlen ps)) as [Hbad|_]; [unfold zlen in Hbad|].
      { enough (S (length ps) ≤ OC_RELAY_MAX_PARTS)%nat by lia.
        apply Hcnt; [apply list.NoDup_cons; split; [done|apply T1]|intros x [->|Hx]%elem_of_cons; auto]. }
      destruct (authorize_fresh now r1 ps Mc Mt Mn call user conn token e L1 T1 (eq_sym Hlen) ltac:(lia) Hc HM Hpe He) as (m & r' & Em & E' & Hcf' & Hrec' & Hst).
      change (rl_by_token (set_row _ _ r1)) with (rl_by_token r1). rewrite Em. cbn [mbind option_bind]. change (negb (0 =? 0)) with false. cbv iota zeta.
      exists r'. split_and!; [exact E'|by eapply same_conf_trans|congruence|]. exists (e :: ps). exact Hst.
    + destruct (Z.leb_spec (Z.of_nat OC_RELAY_MAX_PARTS) (zlen ps)) as [_|Hbad]; [|unfold zlen in Hbad; lia]. exists r1. split_and!; [done|done|done|].
      apply Hkeep. intros ->. unfold OC_RELAY_MAX_PARTS in Hfree. simpl in Hfree. lia.
  - rewrite (proj1 (find_entries r1 ps Mt Mn token T1) e He Ht). pose proof (Hp e He) as Hpe.
    assert (negb (e =? 0) = true) as -> by (unfold ptr in Hpe; by destruct (Z.eqb_spec e 0); [lia|]).
    destruct (authorize_again now r1 ps Mc Mt Mn call user conn e L1 T1 Hc He) as (r2 & r3 & r' & E2 & E3 & E' & Hcf' & Hrec' & Hst).
    rewrite E2. cbn [mbind option_bind]. rewrite E3. cbn [mbind option_bind]. exists r'. cbv zeta in Hst. cbn [en_token entry_of] in Hst. rewrite Ht in Hst.
    split_and!; [exact E'|by eapply same_conf_trans|congruence|]. by eexists.
Qed.

Lemma find_stands r ps s token : stands r ps s → ∃ e, find_token r token = Some e ∧
  ((e = 0 ∧ spec_find token (rs_entries s) = None) ∨
   (e ∈ ps ∧ ptr e ∧ rp_token (row r e) = token ∧ spec_find token (rs_entries s) = Some (entry_of (rl_inet6 r) (row r e)))).
Proof.
  intros (Mc & Mt & Mn & [L T _] & ->). destruct (find_token_ok r ps Mt Mn token T (lk_ptr _ _ _ L)) as (e & E & H). exists e. split; [done|].
  destruct (find_entries r ps Mt Mn token T) as [H1 H2]. destruct H as [[-> H]|[He Ht]]; [left; auto|right].
  split_and!; [done|by apply L|done|by apply H1].
Qed.
Lemma ptr_test e : ptr e → (e =? 0) = false.
Proof. unfold ptr. intros H. apply Z.eqb_neq. lia. Qed.

Lemma revoke_ok r s token : sim r s → ∃ r', oc_relay_revoke r token = Some r' ∧ same_conf r r' ∧ rl_received r' = rl_received r ∧
  sim r' (spec_revoke s token).
Proof.
  intros (ps & S). unfold oc_relay_revoke, spec_revoke.
  destruct (find_stands r ps s token S) as (e & -> & [[-> ->]|(He & Hpe & Ht & ->)]); cbn [mbind option_bind].
  - exists r. split_and!; [done|done|done|by exists ps].
  - rewrite (ptr_test e Hpe). simpl negb. cbv iota. destruct (drop_row_ok r ps s e S He) as (r' & E & Hcf & Hrec & _ & S'). exists r'.
    split_and!; [done|done|done|by eexists].
Qed.

(** ** Forwarding *)

Lemma update_ok r ps s e f : stands r ps s → e ∈ ps →
  (∀ p, agree p (f p) ∧ rp_call (f p) = rp_call p ∧ rp_prev (f p) = rp_prev p ∧ rp_next (f p) = rp_next p) →
  stands (upd_row e f r) ps
    (mk_relay_spec (spec_update (rp_token (row r e)) (fun _ => entry_of (rl_inet6 r) (f (row r e))) (rs_entries s)) (rs_conn s)).
Proof.
  intros (Mc & Mt & Mn & [L T Hem] & ->) He Hf. pose proof (lk_len _ _ _ L) as Hl. pose proof (lk_ptr _ _ _ L) as Hp.
  assert (Hrow : ∀ x, ptr x → row (upd_row e f r) x = if decide (x = e) then f (row r e) else row r x) by (intros x Hx; apply row_upd; auto).
  exists Mc, Mt, Mn. cbn [rs_entries rs_conn]. split; [split|].
  - apply (links_rows r); [done|by apply upd_row_len|done|]. intros x Hx. rewrite Hrow by auto. case_decide; [subst x; apply Hf|done].
  - apply (table_rows r); try done. intros x Hx. rewrite Hrow by done. case_decide; [subst x; apply Hf|auto].
  - done.
  - f_equal.
    + unfold spec_update, entries. rewrite <- list_fmap_compose. apply list_fmap_ext. intros i x Hx%list_elem_of_lookup_2. unfold compose. change (rl_inet6 (upd_row e f r)) with (rl_inet6 r). cbn [en_token entry_of].
      rewrite Hrow by auto. case_bool_decide as Ht; case_decide as Hxe; try done.
      * by destruct Hxe; apply (token_inj r ps Mt Mn).
      * by subst x.
    + symmetry. apply names_ext. intros c x [Hx _]%(tb_conn _ _ _ _ T). rewrite Hrow by auto. case_decide; [subst x|done].
      by destruct (Hf (row r e)) as [(_ & _ & -> & _) _].
Qed.

(** The walk along what is left of a chain. *)
Lemma forward_from_ok r me seq payload l : nonempty payload = true → (∀ x, x ∈ l → ptr x) →
  ∀ prev fuel k, seg (row r) prev l 0 → (length l < fuel)%nat →
  forward_from r me seq payload (be64 (rp_user (row r me)) ++ be16 seq ++ payload) fuel (default 0 (head l)) k =
    Some (spec_fan (rl_tcp_hook r) (rp_user (row r me)) seq payload (entries r (filter (fun x => x ≠ me) l)) k).
Proof.
  intros Hne. induction l as [|e l IH]; intros Hp prev fuel k Hs Hfuel; (destruct fuel as [|fuel]; [simpl in Hfuel; lia|]); [done|].
  destruct Hs as (_ & Hn & Hs). change (default 0 (head (e :: l))) with e. cbn [forward_from]. rewrite (ptr_test e) by (apply Hp; by left). rewrite Hne, Hn. simpl orb.
  specialize (IH ltac:(intros x Hx; apply Hp; by right) e fuel). simpl in Hfuel. rewrite filter_cons. simpl andb.
  destruct (Z.eqb_spec e me) as [->|Hem].
  - rewrite decide_False by tauto. destruct (Z.leb_spec OC_MAX_CALL_PARTICIPANTS k) as [Hk|Hk]; [|apply IH; [done|lia]].
    by destruct (entries r (filter _ l)); simpl; [|destruct (Z.leb_spec OC_MAX_CALL_PARTICIPANTS k); [|lia]].
  - rewrite decide_True by done. unfold entries. rewrite fmap_cons. fold (entries r (filter (fun x => x ≠ me) l)). cbn [spec_fan].
    destruct (Z.leb_spec OC_MAX_CALL_PARTICIPANTS k) as [Hk|Hk]; [done|]. cbn [entry_of en_tcp en_peer en_conn].
    destruct (rp_tcp (row r e)).
    + rewrite IH by (done || lia). cbn [mbind option_bind]. by destruct (spec_fan _ _ _ _ _ _).
    + destruct (rp_addr_known (row r e)); simpl negb; cbv iota; [|apply IH; [done|lia]].
      rewrite IH by (done || lia). cbn [mbind option_bind]. by destruct (spec_fan _ _ _ _ _ _).
Qed.

Lemma targets_entries r ps Mt Mn me payload : table_ok r ps Mt Mn → me ∈ ps → nonempty payload = true →
  spec_targets (entries r ps) (entry_of (rl_inet6 r) (row r me)) payload =
  entries r (filter (fun x => x ≠ me) (chain (row r) ps (rp_call (row r me)))).
Proof.
  intros T Hme Hne. unfold spec_targets. rewrite Hne. cbn [en_call en_token entry_of].
  assert (Hin : ∀ x, x ∈ ps → rp_token (row r x) ≠ rp_token (row r me) ↔ x ≠ me).
  { intros x Hx. split; [by intros ? ->|]. intros Hxm Ht. apply Hxm. by apply (token_inj r ps Mt Mn). }
  clear T Hme. unfold chain, entries. induction ps as [|x ps IH]; [done|].
  rewrite fmap_cons, !filter_cons, IH by (intros y Hy; apply Hin; by right). specialize (Hin x ltac:(by left)).
  cbn [en_call en_token entry_of]. destruct (decide (rp_call (row r x) = rp_call (row r me))) as [Hc|Hc].
  - rewrite filter_cons. destruct (decide (x ≠ me)) as [Hx|Hx].
    + rewrite fmap_cons. rewrite decide_True by tauto. done.
    + rewrite decide_False by tauto. done.
  - rewrite decide_False by tauto. done.
Qed.

Lemma forward_ok sendmmsg r ps s me seq payload : stands r ps s → me ∈ ps →
  forward sendmmsg r me seq payload =
    Some (spec_forward (rl_tcp_hook r) sendmmsg (rs_entries s) (entry_of (rl_inet6 r) (row r me)) seq payload).
Proof.
  intros (Mc & Mt & Mn & [L T Hem] & ->) Hme. unfold forward, spec_forward. cbn [rs_entries].
  destruct (Z.ltb_spec (OC_AUDIO_MAX_PACKET - OC_AUDIO_S2C_HDR) (zlen payload)) as [|_]; [done|]. cbv zeta.
  destruct (nonempty payload) eqn:Hne.
  - rewrite (get_ok _ _ _ (lk_repr _ _ _ L)), (lk_index _ _ _ L). cbn [mbind option_bind].
    rewrite (forward_from_ok r me seq payload (chain (row r) ps (rp_call (row r me))) Hne) with (prev := 0).
    + cbn [mbind option_bind]. rewrite (targets_entries r ps Mt Mn me payload T Hme Hne). cbn [en_user entry_of]. by destruct (spec_fan _ _ _ _ _ _).
    + intros x [_ Hx]%elem_of_chain. by apply L.
    + apply L.
    + pose proof (ptrs_count (chain (row r) ps (rp_call (row r me)))) as Hc. enough (length (chain (row r) ps (rp_call (row r me))) ≤ OC_RELAY_MAX_PARTS)%nat by lia.
      apply Hc; [apply chain_nodup, L|]. intros x [_ Hx]%elem_of_chain. by apply L.
  - destruct payload; [|done]. unfold spec_targets. cbn [nonempty mbind option_bind]. pose proof (lk_ptr _ _ _ L me Hme) as Hpm.
    assert (∃ n, OC_RELAY_MAX_PARTS = S n) as [n ->] by (by exists 2047%nat). cbn [forward_from nonempty spec_fan]. rewrite (ptr_test me Hpm).
    destruct (Z.leb_spec OC_MAX_CALL_PARTICIPANTS 0) as [Hk|_]; [done|]. simpl orb. simpl andb. cbv iota.
    cbn [en_tcp en_peer en_conn en_user entry_of].
    destruct (rp_tcp (row r me)); [done|]. by destruct (rp_addr_known (row r me)).
Qed.

Lemma from_tcp_ok sendmmsg now r s conn seq ct : sim r s → ∃ r',
  let '(rc, s', o) := spec_from_tcp (rl_tcp_hook r) sendmmsg now s conn seq ct in
  oc_relay_from_tcp sendmmsg now r conn seq ct = Some (rc, r', o) ∧ same_conf r r' ∧ rl_received r' = rl_received r ∧ sim r' s'.
Proof.
  intros (ps & S). pose proof S as (Mc & Mt & Mn & [L T _] & ->). unfold spec_from_tcp, oc_relay_from_tcp. cbn [rs_entries rs_conn].
  assert (Hget : (if conn =? 0 then Some 0 else oc_idmap_get (rl_by_conn r) conn) = Some (default 0 (Mn !! conn))).
  { destruct (Z.eqb_spec conn 0) as [->|]; [by rewrite (idmap_no_zero _ _ (tb_conn_repr _ _ _ _ T))|]. apply get_ok, T. }
  assert (Hname : (names r Mn !! conn ≫= fun token => spec_find token (entries r ps)) =
    match Mn !! conn with Some e => Some (entry_of (rl_inet6 r) (row r e)) | None => None end).
  { unfold names. rewrite lookup_fmap. destruct (Mn !! conn) as [e|] eqn:Ec; [|done]. simpl.
    apply (find_entries r ps Mt Mn _ T); [|done]. by apply (tb_conn _ _ _ _ T _ _ Ec). }
  rewrite Hget, Hname. cbn [mbind option_bind]. destruct (Mn !! conn) as [e|] eqn:Ec; simpl default.
  2:{ exists r. split_and!; [done|done|done|by exists ps]. }
  pose proof (tb_conn _ _ _ _ T _ _ Ec) as [He Hconn]. rewrite (ptr_test e) by (by apply L). cbn [en_token entry_of].
  set (f := fun p => p <| rp_tcp := true |> <| rp_seen := now |>).
  pose proof (update_ok r ps _ e f S He) as S'. cbn [rs_entries rs_conn] in S'. specialize (S' ltac:(by intros p; split_and!)).
  rewrite (forward_ok sendmmsg _ ps _ e seq ct S' He). cbn [mbind option_bind rs_entries].
  rewrite (row_upd_eq r e f (lk_len _ _ _ L) (lk_ptr _ _ _ L e He)). eexists. split_and!; [done|by split|done|by exists ps].
Qed.

(** What a first datagram teaches. *)
Lemma learn_ctl inet6 cms p q : rp_local6 p = rp_local6 q → rp_local4 p = rp_local4 q → rp_local_known p = rp_local_known q →
  prepare_ctl inet6 (foldl learn_cmsg p cms) = prepare_ctl inet6 (foldl learn_cmsg q cms).
Proof.
  revert p q. induction cms as [|cm cms IH]; intros p q H6 H4 Hk; cbn [foldl].
  - unfold prepare_ctl. by rewrite H6, H4, Hk.
  - by destruct cm; apply IH.
Qed.
Lemma learn_keeps cms p : let q := foldl learn_cmsg p cms in
  rp_used q = rp_used p ∧ rp_key q = rp_key p ∧ rp_token q = rp_token p ∧ rp_conn q = rp_conn p ∧ rp_call q = rp_call p ∧ rp_prev q = rp_prev p ∧
  rp_next q = rp_next p ∧ rp_user q = rp_user p ∧ rp_addr q = rp_addr p ∧ rp_addr_known q = rp_addr_known p.
Proof. revert p. induction cms as [|cm cms IH]; intros p; [done|]. cbn [foldl]. destruct (IH (learn_cmsg p cm)) as (-> & -> & -> & -> & -> & -> & -> & -> & -> & ->). by destruct cm. Qed.

(** What an accepted datagram makes of its sender's row. *)
Definition heard (a : arrival) (p : participant) : participant :=
  (if rp_addr_known p then p else learn a p) <| rp_seen := ar_now a |> <| rp_tcp := false |>.
Lemma heard_keeps a p : agree p (heard a p) ∧ rp_call (heard a p) = rp_call p ∧ rp_prev (heard a p) = rp_prev p ∧ rp_next (heard a p) = rp_next p.
Proof.
  unfold heard. destruct (rp_addr_known p) eqn:Ek; [by split_and!|]. unfold learn.
  destruct (learn_keeps (ar_ctl a) (p <| rp_addr := ar_src a |> <| rp_addr_known := true |>)) as (H1 & H2 & H3 & H4 & H5 & H6 & H7 & _ & _ & H8).
  split_and!; cbn; try done. unfold agree, fresh_ok. cbn. split_and!; try done. intros _ Hk. cbn in H8. congruence.
Qed.
Lemma heard_entry inet6 a p : fresh_ok p →
  entry_of inet6 (heard a p) = spec_learn inet6 a (entry_of inet6 p) <| en_seen := ar_now a |> <| en_tcp := false |>.
Proof.
  intros Hf. unfold heard, spec_learn. cbn [en_peer entry_of]. destruct (rp_addr_known p) eqn:Ek.
  - unfold entry_of. cbn. by rewrite Ek.
  - destruct (Hf Ek) as (Hk & H6 & H4). unfold learn, entry_of.
    destruct (learn_keeps (ar_ctl a) (p <| rp_addr := ar_src a |> <| rp_addr_known := true |>)) as (_ & _ & H1 & H2 & H3 & _ & _ & H5 & Ha & H8).
    cbn in *. rewrite H8, H1, H2, H3, H5, Ha. cbn. do 3 f_equal.
    transitivity (prepare_ctl inet6 (foldl learn_cmsg (p <| rp_addr := ar_src a |> <| rp_addr_known := true |>) (ar_ctl a))); [done|].
    by apply learn_ctl.
Qed.
Lemma same_peer_entry inet6 p src : rp_addr_known p && negb (same_peer p src) = negb (same_source (entry_of inet6 p) src).
Proof. unfold same_source, same_peer. cbn. by destruct (rp_addr_known p). Qed.

Lemma upd_row_twice r e f g : table_len r → ptr e → upd_row e g (upd_row e f r) = upd_row e (fun p => g (f p)) r.
Proof.
  intros Hl Hpe. unfold upd_row at 1. rewrite row_upd_eq by done. unfold upd_row, set_row. cbn. by rewrite list_insert_insert_eq.
Qed.

Lemma datagram_ok sendmmsg r s a : sim r s → ∃ r',
  let '(s', o) := spec_datagram (rl_inet6 r) (rl_tcp_hook r) sendmmsg s a in
  relay_one sendmmsg r a = Some (r', o) ∧ same_conf r r' ∧ rl_received r' = u64 (rl_received r + 1) ∧ sim r' s'.
Proof.
  intros (ps & S). unfold relay_one, spec_datagram. set (pkt := ztake OC_AUDIO_MAX_PACKET (ar_bytes a)).
  pose (r0 := r <| rl_received := u64 (rl_received r + 1) |>). change (r <| rl_received := u64 (rl_received r + 1) |>) with r0.
  assert (S0 : stands r0 ps s).
  { destruct S as (Mc & Mt & Mn & [L T Hem] & ->). exists Mc, Mt, Mn. split; [|done]. split; [by apply (links_conf r)| |done]. by apply (table_rows r); try done; apply L. }
  clear S. pose proof S0 as (Mc & Mt & Mn & [L T Hem] & Es).
  assert (Hstay : ∃ r', Some (r0, (([], []) : sent)) = Some (r', ([], [])) ∧ same_conf r r' ∧ rl_received r' = u64 (rl_received r + 1) ∧ sim r' s).
  { exists r0. split_and!; [done|by split|done|by exists ps]. }
  assert (Hent : rs_entries s = entries r0 ps) by (by rewrite Es). cbv zeta.
  change (rl_inet6 r) with (rl_inet6 r0). change (rl_tcp_hook r) with (rl_tcp_hook r0).
  assert (Hcf : same_conf r r0) by (by split). assert (Hrec : rl_received r0 = u64 (rl_received r + 1)) by done. clearbody r0.
  destruct (rs_entries s) as [|x0 xs] eqn:Ex.
  { destruct ps; [|done]. rewrite (Hem eq_refl). simpl orb. destruct Hstay as (r' & ? & ?). by exists r'. }
  destruct ps as [|e0 ps]; [done|].
  assert (zlen (en_token x0) = rl_token_len r0 ∧ OC_AUDIO_TOKEN_RAND <= rl_token_len r0) as [-> Hlen].
  { unfold entries in Hent. rewrite fmap_cons in Hent. injection Hent as -> _. cbn [en_token entry_of].
    destruct (tb_token _ _ _ _ T e0 ltac:(by left)) as (_ & Hl & Hr & _). rewrite <- Hl at 2. done. }
  destruct (Z.eqb_spec (rl_token_len r0) 0) as [Hz|_]; [unfold OC_AUDIO_TOKEN_RAND in Hlen; lia|]. simpl orb. rewrite <- Ex.
  destruct (find_stands r0 (e0 :: ps) s (ztake (rl_token_len r0) pkt) S0) as (e & Ef & Hf).
  destruct (Z.ltb_spec (zlen pkt) (rl_token_len r0 + 2)) as [Hshort|Hlong].
  { simpl orb. cbv iota. destruct Hstay as (r' & ? & ?). exists r'. by destruct (spec_find _ _). }
  rewrite Ef. cbn [mbind option_bind]. destruct Hf as [[-> ->]|(He & Hpe & Ht & ->)].
  { destruct Hstay as (r' & ? & ?). by exists r'. }
  rewrite (ptr_test e Hpe), (same_peer_entry (rl_inet6 r0)). simpl orb.
  destruct (negb (same_source _ _)); [destruct Hstay as (r' & ? & ?); by exists r'|].
  pose proof (update_ok r0 (e0 :: ps) s e (heard a) S0 He (heard_keeps a)) as S'.
  rewrite (heard_entry (rl_inet6 r0) a (row r0 e) (tb_fresh _ _ _ _ T e He)) in S'.
  set (r' := upd_row e (heard a) r0) in *.
  assert (upd_row e (fun p => p <| rp_seen := ar_now a |> <| rp_tcp := false |>) (if rp_addr_known (row r0 e) then r0 else upd_row e (learn a) r0) = r') as ->.
  { unfold r', heard. destruct (rp_addr_known (row r0 e)) eqn:Ek.
    - unfold upd_row. by rewrite Ek.
    - rewrite upd_row_twice by (done || apply L). unfold upd_row. by rewrite Ek. }
  assert (Hrow : row r' e = heard a (row r0 e)) by (apply row_upd_eq; [apply L|done]).
  assert (Htl : zlen (rp_token (row r' e)) = rl_token_len r0).
  { rewrite Hrow. destruct (heard_keeps a (row r0 e)) as [(_ & _ & -> & _) _]. by apply (tb_token _ _ _ _ T). }
  rewrite Htl. exists r'. rewrite (forward_ok sendmmsg r' (e0 :: ps) _ e _ _ S' He). cbn [mbind option_bind rs_entries].
  rewrite Hrow. change (rl_inet6 r') with (rl_inet6 r0). rewrite (heard_entry (rl_inet6 r0) a (row r0 e) (tb_fresh _ _ _ _ T e He)).
  cbn [en_token entry_of] in S' |- *.
  split_and!; [done|apply (same_conf_trans _ r0); [done|by split]|done|by exists (e0 :: ps)].
Qed.

(** ** The sweep *)

Lemma lose_ext ts ts' s : (∀ t, t ∈ ts ↔ t ∈ ts') → spec_lose ts s = spec_lose ts' s.
Proof.
  intros H. unfold spec_lose. f_equal; [apply list_filter_iff; intros x; by rewrite H|].
  apply map_filter_ext. intros c t _. simpl. by rewrite H.
Qed.
Lemma lose_none s : spec_lose [] s = s.
Proof.
  destruct s as [xs m]. unfold spec_lose. cbn [rs_entries rs_conn]. f_equal.
  - apply filter_keeps. intros x _. apply not_elem_of_nil.
  - apply map_filter_id. intros c t _. apply not_elem_of_nil.
Qed.
Lemma lose_cons t ts s : spec_lose ts (spec_lose [t] s) = spec_lose (t :: ts) s.
Proof.
  unfold spec_lose. cbn [rs_entries rs_conn]. f_equal.
  - rewrite list_filter_filter. apply list_filter_iff. intros x. set_solver.
  - rewrite map_filter_filter. apply map_filter_ext. intros c x _. simpl. set_solver.
Qed.
Lemma drop_lose r ps s e : stands r ps s → e ∈ ps → spec_drop s (entry_of (rl_inet6 r) (row r e)) = spec_lose [rp_token (row r e)] s.
Proof.
  intros (Mc & Mt & Mn & [L T _] & ->) He. unfold spec_drop, spec_lose, spec_without. cbn [rs_entries rs_conn en_token entry_of]. f_equal.
  - apply list_filter_iff. intros x. by rewrite list_elem_of_singleton.
  - assert (Hc : ∀ c t, names r Mn !! c = Some t → t = rp_token (row r e) → c = rp_conn (row r e)).
    { intros c t Hct ->. unfold names in Hct. rewrite lookup_fmap in Hct. apply fmap_Some in Hct as (x & Hx & Ht).
      pose proof (tb_conn _ _ _ _ T _ _ Hx) as [Hxu <-]. by rewrite (token_inj r ps Mt Mn e x). }
    unfold spec_unname. cbn [en_conn en_token entry_of]. apply map_eq. intros c. apply option_eq. intros t.
    rewrite map_lookup_filter_Some. simpl. rewrite list_elem_of_singleton. case_decide as Hd.
    + rewrite lookup_delete_Some. split; [|naive_solver]. intros [Hne Hct]. split; [done|]. intros ->. by destruct Hne; symmetry; eapply Hc.
    + split; [|tauto]. intros Hct. split; [done|]. intros ->. apply Hd. by rewrite <- (Hc c _ Hct eq_refl).
Qed.

Definition swept (now : Z) (r : oc_relay) (e : Z) : bool :=
  rp_used (row r e) && negb (u64 (now - rp_seen (row r e)) <=? rl_silence_ms r).
Definition swept_tokens (now : Z) (r : oc_relay) (es : list Z) : list (list Z) :=
  (fun e => rp_token (row r e)) <$> filter (fun e => swept now r e = true) es.
Lemma swept_ext now r r' es : (∀ e, e ∈ es → unlinked (row r' e) = unlinked (row r e)) → rl_silence_ms r' = rl_silence_ms r →
  swept_tokens now r' es = swept_tokens now r es.
Proof.
  intros H Hs. unfold swept_tokens. induction es as [|e es IH]; [done|]. rewrite !filter_cons.
  assert (E : unlinked (row r' e) = unlinked (row r e)) by (apply H; by left).
  assert (swept now r' e = swept now r e ∧ rp_token (row r' e) = rp_token (row r e)) as [-> Ht].
  { unfold swept. rewrite Hs. destruct (row r' e), (row r e). by injection E as -> -> -> -> -> -> -> -> -> -> -> -> ->. }
  case_decide; [rewrite !fmap_cons, Ht; f_equal|]; apply IH; intros x Hx; apply H; by right.
Qed.

Lemma swept_cons now r e es : swept_tokens now r (e :: es) = (if swept now r e then [rp_token (row r e)] else []) ++ swept_tokens now r es.
Proof. unfold swept_tokens. rewrite filter_cons. by case_decide; destruct (swept now r e). Qed.

Lemma sweep_rows_ok now es : ∀ r ps s, stands r ps s → NoDup es → (∀ e, e ∈ es → ptr e) → ∃ r',
  sweep_rows now es r = Some (if rl_gone_hook r then swept_tokens now r es else [], r') ∧ same_conf r r' ∧ rl_received r' = rl_received r ∧
  sim r' (spec_lose (swept_tokens now r es) s).
Proof.
  induction es as [|e es IH]; intros r ps s S Hnd Hp.
  { exists r. rewrite lose_none. split_and!; [by destruct (rl_gone_hook r)|done|done|by exists ps]. }
  apply list.NoDup_cons in Hnd as [He Hnd]. assert (Hp' : ∀ x, x ∈ es → ptr x) by (intros; apply Hp; by right).
  cbn [sweep_rows]. rewrite swept_cons.
  assert (negb (rp_used (row r e)) || (u64 (now - rp_seen (row r e)) <=? rl_silence_ms r) = negb (swept now r e)) as ->.
  { unfold swept. by destruct (rp_used (row r e)), (u64 (now - rp_seen (row r e)) <=? rl_silence_ms r). }
  destruct (swept now r e) eqn:Hsw; simpl negb; cbv iota; [|by apply (IH r ps s)].
  assert (Hu : rp_used (row r e) = true) by (unfold swept in Hsw; by destruct (rp_used (row r e))).
  assert (Heps : e ∈ ps) by (destruct S as (Mc & Mt & Mn & [L T _] & _); apply (tb_used _ _ _ _ T); [apply Hp; by left|done]).
  destruct (drop_row_ok r ps s e S Heps) as (r1 & -> & Hcf & Hrec & Hun & S1). cbn [mbind option_bind]. rewrite (drop_lose r ps s e S Heps) in S1.
  destruct (IH r1 _ _ S1 Hnd Hp') as (r' & -> & Hcf' & Hrec' & S'). cbn [mbind option_bind].
  assert (swept_tokens now r1 es = swept_tokens now r es) as Hex.
  { apply swept_ext; [|apply Hcf]. intros x Hx. apply Hun; [auto|by intros ->]. }
  rewrite Hex, lose_cons in S'. rewrite Hex. exists r'. split_and!; [|by eapply same_conf_trans|congruence|done].
  rewrite (sc_gone _ _ Hcf'), (sc_gone _ _ Hcf). by destruct (rl_gone_hook r).
Qed.

Lemma filter_entries r (f : entry → bool) ps :
  filter (fun x => f x = true) (entries r ps) = entries r (filter (fun e => f (entry_of (rl_inet6 r) (row r e)) = true) ps).
Proof. unfold entries. induction ps as [|e ps IH]; [done|]. rewrite fmap_cons, !filter_cons, IH. by case_decide. Qed.

Lemma sweep_ok now r s : sim r s → ∃ gone r', oc_relay_sweep now r = Some (gone, r') ∧ same_conf r r' ∧ rl_received r' = rl_received r ∧
  gone ≡ₚ fst (spec_sweep (rl_gone_hook r) (rl_silence_ms r) now s) ∧ sim r' (snd (spec_sweep (rl_gone_hook r) (rl_silence_ms r) now s)).
Proof.
  intros (ps & S). pose proof S as (Mc & Mt & Mn & [L T _] & ->). unfold oc_relay_sweep, spec_sweep. cbn [rs_entries fst snd].
  destruct (Z.eqb_spec (rl_n r) 0) as [Hn|_].
  { assert (ps = []) as -> by (rewrite (tb_n _ _ _ _ T) in Hn; by apply zlen_0). exists [], r. cbn. rewrite lose_none.
    split_and!; [done|done|done|by destruct (rl_gone_hook r)|by exists []]. }
  destruct (sweep_rows_ok now row_ptrs r ps _ S) as (r' & -> & Hcf & Hrec & S').
  { unfold row_ptrs. apply NoDup_fmap_2; [intros ???; lia|apply NoDup_seq]. }
  { intros e. apply elem_of_row_ptrs. }
  assert (Hgone : swept_tokens now r row_ptrs ≡ₚ en_token <$> filter (fun x => silent (rl_silence_ms r) now x = true) (entries r ps)).
  { rewrite filter_entries. unfold entries. rewrite <- list_fmap_compose. unfold swept_tokens. apply fmap_Permutation, NoDup_Permutation.
    - apply NoDup_filter. unfold row_ptrs. apply NoDup_fmap_2; [intros ???; lia|apply NoDup_seq].
    - apply NoDup_filter, T.
    - intros e. rewrite !list_elem_of_filter, elem_of_row_ptrs. unfold swept, silent, compose. cbn [en_seen entry_of]. split.
      + intros [[Hu Hs]%andb_true_iff Hpe]. split; [done|]. by apply (tb_used _ _ _ _ T).
      + intros [Hs He]. pose proof (lk_ptr _ _ _ L e He) as Hpe. split; [|done]. apply andb_true_iff. split; [|done]. by apply (tb_used _ _ _ _ T). }
  eexists _, r'. split_and!; [done|done|done|by destruct (rl_gone_hook r)|].
  rewrite (lose_ext _ (swept_tokens now r row_ptrs)); [done|]. intros t. by rewrite Hgone.
Qed.
