(* ===== verification/RelayMain.v ===== *)
(** * What the relay promises

    Over every sequence of calls from an empty relay: it answers and sends what a
    list of entries does, and an address once learned stays the participant's. *)
From stdpp Require Import base tactics list numbers gmap.
From S2P Require Import Prelude.
From S2P Require Import Wire.
From S2P Require Import OpenAddr.
From S2P Require Import Idmap.
From S2P Require Import Calls.
From S2P Require Import CallsInv.
From S2P Require Import Relay.
From S2P Require Import RelayInv.
Local Open Scope Z_scope.
Local Open Scope oc_scope.

Inductive relay_op :=
  | RAuthorize (now call user conn : Z) (token : list Z)
  | RRevoke (token : list Z)
  | RFromTcp (sendmmsg : list datagram → Z) (now conn seq : Z) (ct : list Z)
  | RReadable (sendmmsg : list datagram → Z) (max_packets : nat) (waiting : list arrival)
  | RSweep (now : Z)
  | RSilence (ms : Z).
(** What a call returns, what it sends, what it reports through [gone]. *)
Inductive relay_res :=
  | Returned (rc : Z)
  | Relayed (rc : Z) (left_ : list arrival) (out : list sent)
  | Reported (gone : list (list Z)).

Definition relay_step (r : oc_relay) (op : relay_op) : option (relay_res * oc_relay) :=
  match op with
  | RAuthorize now call user conn token => '(rc, r) ← oc_relay_authorize now r call user conn token; Some (Returned rc, r)
  | RRevoke token => r ← oc_relay_revoke r token; Some (Returned 0, r)
  | RFromTcp sendmmsg now conn seq ct => '(rc, r, o) ← oc_relay_from_tcp sendmmsg now r conn seq ct; Some (Relayed rc [] [o], r)
  | RReadable sendmmsg k waiting => '(rc, w, r, os) ← oc_relay_on_readable sendmmsg k waiting r; Some (Relayed rc w os, r)
  | RSweep now => '(gone, r) ← oc_relay_sweep now r; Some (Reported gone, r)
  | RSilence ms => Some (Returned 0, oc_relay_set_silence_ms r ms)
  end.
Fixpoint relay_run (r : oc_relay) (ops : list relay_op) : option (list relay_res * oc_relay) :=
  match ops with
  | [] => Some ([], r)
  | op :: ops => '(x, r) ← relay_step r op; '(xs, r) ← relay_run r ops; Some (x :: xs, r)
  end.

Section SpecRun.
Context (inet6 gone_hook tcp_hook : bool).

Fixpoint spec_readable (sendmmsg : list datagram → Z) (waiting : list arrival) (s : relay_spec) : relay_spec * list sent :=
  match waiting with
  | [] => (s, [])
  | a :: waiting =>
      let '(s, o) := spec_datagram inet6 tcp_hook sendmmsg s a in
      let '(s, os) := spec_readable sendmmsg waiting s in (s, o :: os)
  end.
(** The specification with the silence interval in force. *)
Definition relay_spec_step (q : Z * relay_spec) (op : relay_op) : relay_res * (Z * relay_spec) :=
  let '(silence, s) := q in
  match op with
  | RAuthorize now call user conn token => let '(rc, s) := spec_authorize now s call user conn token in (Returned rc, (silence, s))
  | RRevoke token => (Returned 0, (silence, spec_revoke s token))
  | RFromTcp sendmmsg now conn seq ct =>
      let '(rc, s, o) := spec_from_tcp tcp_hook sendmmsg now s conn seq ct in (Relayed rc [] [o], (silence, s))
  | RReadable sendmmsg k waiting =>
      let '(s, os) := spec_readable sendmmsg (take k waiting) s in
      (Relayed (if (k <=? length waiting)%nat then 1 else 0) (drop k waiting) os, (silence, s))
  | RSweep now => let '(gone, s) := spec_sweep gone_hook silence now s in (Reported gone, (silence, s))
  | RSilence ms => (Returned 0, (if ms =? 0 then OC_AUDIO_SILENCE_MS else ms, s))
  end.
Fixpoint relay_spec_run (q : Z * relay_spec) (ops : list relay_op) : list relay_res :=
  match ops with
  | [] => []
  | op :: ops => let '(x, q) := relay_spec_step q op in x :: relay_spec_run q ops
  end.
End SpecRun.

(** A sweep reports in the order of the table, which the specification leaves open. *)
#[export] Instance relay_res_equiv : Equiv relay_res := fun x y =>
  match x, y with Reported l, Reported k => l ≡ₚ k | _, _ => x = y end.
#[export] Instance relay_res_equivalence : Equivalence (≡@{relay_res}).
Proof.
  unfold equiv, relay_res_equiv. split.
  - by intros [].
  - intros [] []; intros H; try done; by symmetry.
  - intros [] [] []; intros H1 H2; try done; by etrans.
Qed.

(** The relay [r] stands for [q]. *)
Definition relay_sim (inet6 gone_hook tcp_hook : bool) (r : oc_relay) (q : Z * relay_spec) : Prop :=
  rl_inet6 r = inet6 ∧ rl_gone_hook r = gone_hook ∧ rl_tcp_hook r = tcp_hook ∧ rl_silence_ms r = fst q ∧ sim r (snd q).
Lemma relay_sim_conf i g t r r' q s : relay_sim i g t r q → same_conf r r' → sim r' s → relay_sim i g t r' (fst q, s).
Proof. intros (H1 & H2 & H3 & H4 & _) [] S. split_and!; try done; cbn; congruence. Qed.

Lemma readable_ok sendmmsg k : ∀ waiting r s, sim r s → ∃ r',
  let '(s', os) := spec_readable (rl_inet6 r) (rl_tcp_hook r) sendmmsg (take k waiting) s in
  oc_relay_on_readable sendmmsg k waiting r = Some (if (k <=? length waiting)%nat then 1 else 0, drop k waiting, r', os) ∧
  same_conf r r' ∧ sim r' s'.
Proof.
  induction k as [|k IH]; intros waiting r s S; [by exists r; cbn; rewrite drop_0|]. destruct waiting as [|a waiting]; [by exists r|].
  cbn [take spec_readable oc_relay_on_readable]. pose proof (datagram_ok sendmmsg r s a S) as (r1 & H1).
  destruct (spec_datagram _ _ _ s a) as [s1 o1]. destruct H1 as (-> & Hcf & _ & S1). cbn [mbind option_bind].
  destruct (IH waiting r1 s1 S1) as (r2 & H2). rewrite (sc_inet6 _ _ Hcf), (sc_tcp _ _ Hcf) in H2.
  destruct (spec_readable _ _ _ (take k waiting) s1) as [s2 os]. destruct H2 as (-> & Hcf2 & S2). cbn [mbind option_bind].
  exists r2. split_and!; [done|by eapply same_conf_trans|done].
Qed.

Lemma relay_step_ok i g t r q op : relay_sim i g t r q → ∃ x r',
  relay_step r op = Some (x, r') ∧ x ≡ fst (relay_spec_step i g t q op) ∧ relay_sim i g t r' (snd (relay_spec_step i g t q op)).
Proof.
  intros Q. pose proof Q as (Hi & Hg & Ht & Hs & S). destruct q as [sil s]. cbn [fst snd] in *. destruct op; cbn [relay_step relay_spec_step].
  - destruct (authorize_ok now r s call user conn token S) as (r' & -> & Hcf & _ & S'). cbn [mbind option_bind].
    destruct (spec_authorize _ _ _ _ _ _) as [rc s']. do 2 eexists. split_and!; [done|done|]. by eapply (relay_sim_conf _ _ _ r r' (sil, s)).
  - destruct (revoke_ok r s token S) as (r' & -> & Hcf & _ & S'). do 2 eexists. split_and!; [done|done|]. by eapply (relay_sim_conf _ _ _ r r' (sil, s)).
  - destruct (from_tcp_ok sendmmsg now r s conn seq ct S) as (r' & H). rewrite Ht in H.
    destruct (spec_from_tcp _ _ _ _ _ _ _) as [[rc s'] o]. destruct H as (-> & Hcf & _ & S'). do 2 eexists. split_and!; [done|done|].
    by eapply (relay_sim_conf _ _ _ r r' (sil, s)).
  - destruct (readable_ok sendmmsg max_packets waiting r s S) as (r' & H). rewrite Hi, Ht in H.
    destruct (spec_readable _ _ _ _ _) as [s' os]. destruct H as (-> & Hcf & S'). do 2 eexists. split_and!; [done|done|].
    by eapply (relay_sim_conf _ _ _ r r' (sil, s)).
  - destruct (sweep_ok now r s S) as (gone & r' & -> & Hcf & _ & Hp & S'). rewrite Hg, Hs in Hp, S'.
    destruct (spec_sweep _ _ _ _) as [gone' s']. do 2 eexists. split_and!; [done|exact Hp|]. by eapply (relay_sim_conf _ _ _ r r' (sil, s)).
  - do 2 eexists. split_and!; [done|done|]. split_and!; try done.
    destruct S as (ps & Mc & Mt & Mn & [L T Hem] & ->). exists ps, Mc, Mt, Mn. split; [|done]. split; [by apply (links_conf r)| |done].
    by apply (table_rows r); try done; apply L.
Qed.
Lemma relay_run_ok i g t ops : ∀ r q, relay_sim i g t r q → ∃ xs r', relay_run r ops = Some (xs, r') ∧ Forall2 (≡) xs (relay_spec_run i g t q ops).
Proof.
  induction ops as [|op ops IH]; intros r q Q; [by exists [], r|]. cbn [relay_run relay_spec_run].
  destruct (relay_step_ok i g t r q op Q) as (x & r1 & -> & Hx & Q1). cbn [mbind option_bind]. destruct (relay_spec_step i g t q op) as [x' q1].
  destruct (IH r1 q1 Q1) as (xs & r' & -> & Hxs). cbn [mbind option_bind]. exists (x :: xs), r'. split; [done|]. by constructor.
Qed.

Lemma open_sim i g t : relay_sim i g t (oc_relay_open i g t) (OC_AUDIO_SILENCE_MS, mk_relay_spec [] ∅).
Proof.
  split_and!; try done. cbn [snd]. pose proof (proj2 (init_repr index_cap ltac:(done) eq_refl)) as R. change (snd (oc_idmap_init true index_cap)) with relay_index in R.
  exists [], ∅, ∅, ∅. split; [|unfold names; by rewrite fmap_empty]. split; [| |done].
  - split; try done; first [by apply list.NoDup_nil|by intros e ?%not_elem_of_nil].
  - split; try done; try by intros e ?%not_elem_of_nil.
    + by apply list.NoDup_nil.
    + intros e He. split; [by intros ?%not_elem_of_nil|]. unfold row, oc_relay_open. cbn [rl_parts]. by rewrite nth_replicate.
    + intros k e. split; [by rewrite lookup_empty|]. by intros [?%not_elem_of_nil _].
Qed.

(** C8: the relay is a list of participants.  Whatever sequence of
    authorizations, revocations, packets by datagram or by connection, sweeps
    and changes of the silence interval an empty relay is given, every call
    ends, returns and sends what it would if the participants were kept in a
    plain list without rows, hash indexes or chained calls; sweeps report the
    same participants, in an order of their own. *)
Theorem relay_refines inet6 gone_hook tcp_hook ops : ∃ xs r,
  relay_run (oc_relay_open inet6 gone_hook tcp_hook) ops = Some (xs, r) ∧
  Forall2 (≡) xs (relay_spec_run inet6 gone_hook tcp_hook (OC_AUDIO_SILENCE_MS, mk_relay_spec [] ∅) ops).
Proof. apply relay_run_ok, open_sim. Qed.

(** ** Addresses *)

Definition registered (r : oc_relay) (token : list Z) : Prop := ∃ e, ptr e ∧ rp_used (row r e) = true ∧ rp_token (row r e) = token.
(** [token]'s participant is answered at [to]. *)
Definition bound_to (r : oc_relay) (token : list Z) (to : inet_addr) : Prop :=
  ∃ e, ptr e ∧ rp_used (row r e) = true ∧ rp_token (row r e) = token ∧ rp_addr_known (row r e) = true ∧ rp_addr (row r e) = to.
(** A different peer, as far as [same_peer] looks. *)
Definition other_peer (to src : inet_addr) : Prop :=
  sa_len to ≠ sa_len src ∨ sa_family to ≠ sa_family src ∨ sa_port to ≠ sa_port src ∨ sa_addr to ≠ sa_addr src.

Definition known (s : relay_spec) (token : list Z) : Prop := ∃ x, x ∈ rs_entries s ∧ en_token x = token.
Definition pinned (s : relay_spec) (token : list Z) (to : inet_addr) : Prop :=
  ∀ x, x ∈ rs_entries s → en_token x = token → ∃ ctl, en_peer x = Some (to, ctl).

Lemma registered_known r s token : sim r s → registered r token ↔ known s token.
Proof.
  intros (ps & Mc & Mt & Mn & [L T _] & ->). unfold known, registered, entries. cbn [rs_entries]. split.
  - intros (e & Hp & Hu & Ht). exists (entry_of (rl_inet6 r) (row r e)). split; [|done].
    apply (list_elem_of_fmap_2 (fun e => entry_of (rl_inet6 r) (row r e))). by apply (tb_used _ _ _ _ T).
  - intros (x & (e & -> & He)%list_elem_of_fmap & Ht). exists e. pose proof (lk_ptr _ _ _ L e He). split_and!; [done|by apply (tb_used _ _ _ _ T)|done].
Qed.
Lemma bound_pinned r s token to : sim r s → bound_to r token to ↔ known s token ∧ pinned s token to.
Proof.
  intros S. pose proof S as (ps & Mc & Mt & Mn & [L T _] & ->). rewrite <- (registered_known r _ token S). unfold registered, pinned, bound_to, entries. cbn [rs_entries]. split.
  - intros (e & Hp & Hu & Ht & Hk & Ha). split; [eauto|]. intros x (e' & -> & He')%list_elem_of_fmap Hx. cbn in Hx |- *.
    assert (He : e ∈ ps) by (by apply (tb_used _ _ _ _ T)). rewrite <- (token_inj r ps Mt Mn e e' T He He') by congruence. rewrite Hk, Ha. eauto.
  - intros [(e & Hp & Hu & Ht) H]. assert (He : e ∈ ps) by (by apply (tb_used _ _ _ _ T)).
    destruct (H _ (list_elem_of_fmap_2 (fun e => entry_of (rl_inet6 r) (row r e)) _ _ He) Ht) as [ctl Hctl]. cbn in Hctl.
    destruct (rp_addr_known (row r e)) eqn:Ek; [|done]. injection Hctl as <- _. by exists e.
Qed.

Lemma spec_find_Some token xs x : spec_find token xs = Some x → x ∈ xs ∧ en_token x = token.
Proof. intros [H1 H2]%List.find_some. split; [by apply list_elem_of_In|]. by apply bool_decide_eq_true in H2. Qed.
Lemma spec_find_known token s : known s token → ∃ x, spec_find token (rs_entries s) = Some x.
Proof.
  intros (x & Hx & Ht). destruct (spec_find token (rs_entries s)) as [y|] eqn:E; [eauto|]. exfalso.
  apply list_elem_of_In in Hx. apply (List.find_none _ _ E x) in Hx. by apply bool_decide_eq_false in Hx.
Qed.
(** An entry is replaced by one with its token and, if it had one, its address. *)
Lemma update_pinned s token to x me : pinned s token to → x ∈ rs_entries s → en_token me = en_token x →
  (∀ p, en_peer x = Some p → en_peer me = Some p) →
  let s' := mk_relay_spec (spec_update (en_token x) (fun _ => me) (rs_entries s)) (rs_conn s) in
  pinned s' token to ∧ (known s token → known s' token).
Proof.
  intros Hp Hx Ht Hpeer s'. split.
  - intros y (z & -> & Hz)%list_elem_of_fmap. case_bool_decide as Hzx; [|by apply Hp].
    intros Hme. destruct (Hp x Hx ltac:(congruence)) as [ctl Hc]. exists ctl. by apply Hpeer.
  - intros (z & Hz & Hzt). exists (if bool_decide (en_token z = en_token x) then me else z). split.
    + apply list_elem_of_fmap. by exists z.
    + case_bool_decide; [congruence|done].
Qed.
Lemma datagram_pinned i t sendmmsg s a token to : pinned s token to →
  let s' := fst (spec_datagram i t sendmmsg s a) in pinned s' token to ∧ (known s token → known s' token).
Proof.
  intros Hp. unfold spec_datagram. destruct (rs_entries s) as [|x0 xs] eqn:Ex; [done|]. rewrite <- Ex.
  destruct (spec_find _ _) as [x|] eqn:Ef; [|done]. apply spec_find_Some in Ef as [Hx _]. destruct (_ || _); [done|]. cbn [fst].
  apply update_pinned; [done|done| |].
  - unfold spec_learn. by destruct (en_peer x).
  - intros p Hpx. unfold spec_learn. by rewrite Hpx.
Qed.
Lemma readable_pinned i t sendmmsg w token to : ∀ s, pinned s token to →
  let s' := fst (spec_readable i t sendmmsg w s) in pinned s' token to ∧ (known s token → known s' token).
Proof.
  induction w as [|a w IH]; intros s Hp; [done|]. cbn [spec_readable]. destruct (datagram_pinned i t sendmmsg s a token to Hp) as [H1 H2].
  destruct (spec_datagram _ _ _ s a) as [s1 o]. destruct (IH s1 H1) as [H3 H4]. destruct (spec_readable _ _ _ w s1). cbn [fst] in *. auto.
Qed.
Lemma sub_pinned s xs m token to : pinned s token to → (∀ x, x ∈ xs → x ∈ rs_entries s) → pinned (mk_relay_spec xs m) token to.
Proof. intros Hp Hs x Hx. by apply Hp, Hs. Qed.
Lemma step_pinned i g t q op token to : known (snd q) token → pinned (snd q) token to → pinned (snd (snd (relay_spec_step i g t q op))) token to.
Proof.
  destruct q as [sil s]. cbn [snd]. intros Hk Hp. destruct op; cbn [relay_spec_step].
  - unfold spec_authorize. destruct (_ || _); [done|]. destruct (spec_find token0 (rs_entries s)) as [x|] eqn:Ef.
    + apply spec_find_Some in Ef as [Hx Ht]. cbn [snd]. intros y [->|[_ Hy]%list_elem_of_filter]%elem_of_cons; [|by apply Hp].
      cbn. intros ->. by apply Hp.
    + destruct (_ || _); [done|]. cbn [snd]. intros y [->|Hy]%elem_of_cons; [|by apply Hp]. cbn. intros ->.
      destruct (spec_find_known _ _ Hk) as [z Hz]. congruence.
  - cbn [snd]. unfold spec_revoke, spec_drop. destruct (spec_find _ _); [|done]. apply (sub_pinned s); [done|]. by intros x [_ Hx]%list_elem_of_filter.
  - unfold spec_from_tcp. destruct (_ ≫= _) as [x|] eqn:Ef; [|done]. apply bind_Some in Ef as (tok & _ & [Hx _]%spec_find_Some).
    cbn [snd]. by apply update_pinned.
  - destruct (readable_pinned i t sendmmsg (take max_packets waiting) token to s Hp) as [H1 _]. by destruct (spec_readable _ _ _ _ s).
  - cbn [snd spec_sweep]. apply (sub_pinned s); [done|]. by intros x [_ Hx]%list_elem_of_filter.
  - done.
Qed.

Lemma run_sim i g t ops : ∀ r q xs r', relay_sim i g t r q → relay_run r ops = Some (xs, r') → ∃ q', relay_sim i g t r' q'.
Proof.
  induction ops as [|op ops IH]; intros r q xs r' Q E; cbn [relay_run] in E; [injection E as <- <-; eauto|].
  destruct (relay_step_ok i g t r q op Q) as (x & r1 & E1 & _ & Q1). rewrite E1 in E. cbn [mbind option_bind] in E.
  destruct (relay_run r1 ops) as [[ys r2]|] eqn:E2; [|done]. injection E as <- <-. by eapply IH.
Qed.

(** C20: a participant's address is learned once.  In any reachable state, while
    a participant stays registered no call changes the address its packets are
    sent to; and a datagram that carries its token from any other address sends
    nothing and leaves everything but the count of datagrams as it was.  The
    token leads every packet in the clear, so this is what keeps someone who saw
    one from taking the audio over. *)
Theorem address_pinned inet6 gone_hook tcp_hook ops xs r token to :
  relay_run (oc_relay_open inet6 gone_hook tcp_hook) ops = Some (xs, r) → bound_to r token to →
  (∀ op x r', relay_step r op = Some (x, r') → registered r' token → bound_to r' token to) ∧
  (∀ sendmmsg a, ztake (zlen token) (ztake OC_AUDIO_MAX_PACKET (ar_bytes a)) = token → other_peer to (ar_src a) →
    relay_one sendmmsg r a = Some (r <| rl_received := u64 (rl_received r + 1) |>, ([], []))).
Proof.
  intros E B. destruct (run_sim _ _ _ _ _ _ _ _ (open_sim inet6 gone_hook tcp_hook) E) as [q Q]. pose proof Q as (_ & _ & _ & _ & S).
  pose proof (proj1 (bound_pinned r _ token to S) B) as [Hk Hp]. split.
  - intros op x r' Es Hreg. destruct (relay_step_ok _ _ _ r q op Q) as (x' & r2 & Es' & _ & Q'). rewrite Es in Es'. injection Es' as <- <-.
    pose proof Q' as (_ & _ & _ & _ & S'). apply (bound_pinned r' _ token to S'). split; [by apply (registered_known r' _ token S')|]. by apply step_pinned.
  - intros sendmmsg a Hc Ho. destruct S as (ps & S). pose proof S as (Mc & Mt & Mn & [L T Hem] & Eq). destruct B as (e & Hpe & Hu & Ht & Hak & Ha).
    assert (He : e ∈ ps) by (by apply (tb_used _ _ _ _ T)). destruct (tb_token _ _ _ _ T e He) as (_ & Hlen & _). rewrite Ht in Hlen.
    unfold relay_one. set (r0 := r <| rl_received := u64 (rl_received r + 1) |>). cbv zeta.
    change (rl_token_len r0) with (rl_token_len r). change (find_token r0) with (find_token r). change (row r0) with (row r).
    rewrite <- Hlen, Hc. destruct (_ || _); [done|]. destruct (find_stands r ps _ token S) as (e' & Ef & Hf). rewrite Ef. cbn [mbind option_bind].
    destruct Hf as [[-> Hn]|(He' & Hpe' & Ht' & _)].
    + done.
    + rewrite (ptr_test e' Hpe'). assert (e' = e) as -> by (apply (token_inj r ps Mt Mn); [done|done|done|congruence]).
      rewrite Hak. simpl andb.
      assert (same_peer (row r e) (ar_src a) = false) as ->; [|done]. unfold same_peer. rewrite Ha.
      destruct Ho as [H|[H|[H|H]]]; [apply Z.eqb_neq in H; by rewrite H|apply Z.eqb_neq in H; rewrite H, andb_false_r; done|
        apply Z.eqb_neq in H; rewrite H, andb_false_r; done|rewrite (bool_decide_eq_false_2 _ H); by rewrite andb_false_r].
Qed.

Definition takes_all (mm : list datagram) : Z := zlen mm.
Definition ex_token : list Z := replicate 16 7.
Definition ex_peer : inet_addr := mk_inet_addr 16 2 5000 [10; 0; 0; 1] [].
Definition ex_ops : list relay_op :=
  [RAuthorize 5 9 3 4 ex_token; RReadable takes_all 4 [mk_arrival (ex_token ++ [0; 1; 65]) ex_peer [] 6]].
Lemma address_pinned_witness : ∃ xs r,
  relay_run (oc_relay_open false true true) ex_ops = Some (xs, r) ∧
  relay_one takes_all r (mk_arrival (ex_token ++ [0; 2; 66]) (mk_inet_addr 16 2 5001 [10; 0; 0; 1] []) [] 7)
    = Some (r <| rl_received := u64 (rl_received r + 1) |>, ([], [])).
Proof.
  assert (H : match relay_run (oc_relay_open false true true) ex_ops with
              | Some (_, r) => rp_used (row r 1) && bool_decide (rp_token (row r 1) = ex_token) && rp_addr_known (row r 1) && (sa_port (rp_addr (row r 1)) =? 5000)
              | None => false end = true) by (vm_compute; reflexivity).
  destruct (relay_run _ ex_ops) as [[xs r]|] eqn:E; [|discriminate H]. exists xs, r. split; [reflexivity|].
  apply andb_true_iff in H as [H Hport]. apply andb_true_iff in H as [H Hk]. apply andb_true_iff in H as [Hu Ht%bool_decide_eq_true]. apply Z.eqb_eq in Hport.
  apply (address_pinned false true true ex_ops xs r ex_token (rp_addr (row r 1)) E).
  - exists 1. split; [unfold ptr, OC_RELAY_MAX_PARTS; lia|]. split; [exact Hu|]. split; [exact Ht|]. split; [exact Hk|reflexivity].
  - reflexivity.
  - right. right. left. rewrite Hport. discriminate.
Defined.
