(* ===== verification/Media.v ===== *)
(** * Calls and their relay: the media of [daemon/netloop.c]

    The loop of [Calls] with the relay of [Relay] behind it.  An [authorize] or
    [revoke] of the loop is a call into the relay, whose answer the loop drops:
    [feed] makes those calls, in the order of the trace.  The relay's hooks are
    [relay_gone], which takes a swept participant out of its call, and
    [relay_tcp_send], which queues a packet on a connection.  The relay is open
    ([g_relay] is set) and both hooks are.

    What a step does to the relay is read off the trace ([step_relay]): some
    revocations, and at most one authorization, of a fresh token, last. *)
From stdpp Require Import base tactics list numbers gmap strings.
From S2P Require Import Prelude.
From S2P Require Import Wire.
From S2P Require Import ProtoTypes.
From S2P Require Import ProtoCall.
From S2P Require Import Outq.
From S2P Require Import Calls.
From S2P Require Import CallsInv.
From S2P Require Import CallsStep.
From S2P Require Import CallsRun.
From S2P Require Import Relay.
Local Open Scope Z_scope.
Local Open Scope oc_scope.

Definition OC_MEDIA_SOFT : Z := 262144.
Definition OC_RELAY_BUDGET : nat := 128.

Record media := mk_media { md_loop : loop; md_relay : oc_relay }.

(** ** The loop's calls into the relay *)

Definition relay_call (now : Z) (r : oc_relay) (x : effect) : option oc_relay :=
  match x with
  | Authorize id user cid token => '(_, r) ← oc_relay_authorize now r id user cid token; Some r
  | Revoke token => oc_relay_revoke r token
  | _ => Some r
  end.
Fixpoint feed (now : Z) (xs : list effect) (r : oc_relay) : option oc_relay :=
  match xs with
  | [] => Some r
  | x :: xs => r ← relay_call now r x; feed now xs r
  end.
(** The loop went on to [l], and made the calls it noted on the way. *)
Definition went (e : call_env) (m : media) (l : loop) : option media :=
  r ← feed (e_now e) (drop (length (lp_trace (md_loop m))) (lp_trace l)) (md_relay m);
  Some (mk_media l r).

(** ** The relay's hooks *)

Definition encode_media (p : tcp_packet) : option (list Z) :=
  let cap := OC_AUDIO_MAX_PACKET + 64 in
  let '(r, w) := oc_encode_call_media_down OC_PROTOCOL_VERSION (mk_oc_call_media_pkt (tp_sender p) (tp_seq p) (tp_ct p))
                   (oc_wbuf_init (replicate (Z.to_nat cap) 0) cap) in
  if bool_decide (r = OC_OK) then Some (ztake (w_len w) (w_data w)) else None.
Definition relay_tcp_send (e : call_env) (l : loop) (p : tcp_packet) : loop :=
  match find_by_id (tp_conn p) l with
  | None => l
  | Some c =>
      if OC_MEDIA_SOFT <=? pending_out (cn_out c) then l
      else
        match encode_media p with
        | None => l
        | Some buf =>
            let '(ok, q) := out_append (cn_out c) buf in
            put_conn (tp_conn p) (c <| cn_out := if ok then snd (flush_out (e_io e (tp_conn p)) q) else q |>) l
        end
  end.
(** Every token is of the configured length, which the hook checks again. *)
Definition relay_gone (e : call_env) (m : media) (token : list Z) : option media :=
  went e m (call_drop_token e token (note (Swept token) (md_loop m))).
Fixpoint all_gone (e : call_env) (m : media) (tokens : list (list Z)) : option media :=
  match tokens with
  | [] => Some m
  | token :: tokens => m ← relay_gone e m token; all_gone e m tokens
  end.

(** ** The loop *)

Inductive media_event :=
  | MCall (ev : call_event)
  | MFrame (sendmmsg : list datagram → Z) (cid : Z) (payload : list Z)
  | MReadable (sendmmsg : list datagram → Z) (waiting : list arrival)
  | MSweep (silence_ms : Z).
Definition deliver_tcp (e : call_env) (l : loop) (out : sent) : loop := foldl (relay_tcp_send e) l (fst out).
(** A CALL_MEDIA frame of a client. *)
Definition media_frame (e : call_env) (sendmmsg : list datagram → Z) (cid : Z) (payload : list Z) (m : media) : option (media * list sent) :=
  match run_decode oc_decode_call_media_up payload with
  | inl _ => m ← went e m (conn_close e cid (md_loop m)); Some (m, [])
  | inr pkt =>
      '(_, r, out) ← oc_relay_from_tcp sendmmsg (e_now e) (md_relay m) cid (call_media_pkt_seq pkt) (call_media_pkt_ct pkt);
      Some (mk_media (deliver_tcp e (md_loop m) out) r, [out])
  end.
(** The datagrams that wait, as many as one turn takes. *)
Definition media_readable (e : call_env) (sendmmsg : list datagram → Z) (waiting : list arrival) (m : media) : option (media * list sent) :=
  '(_, _, r, outs) ← oc_relay_on_readable sendmmsg OC_RELAY_BUDGET waiting (md_relay m);
  Some (mk_media (foldl (deliver_tcp e) (md_loop m) outs) r, outs).
(** A turn in which the sweep is due. *)
Definition media_sweep (cfg : call_cfg) (e : call_env) (silence_ms : Z) (m : media) : option (media * list sent) :=
  '(gone, r) ← oc_relay_sweep (e_now e) (oc_relay_set_silence_ms (md_relay m) silence_ms);
  m ← all_gone e (mk_media (md_loop m) r) gone;
  m ← went e m (call_expire_detached e cfg (md_loop m));
  Some (m, []).
(** A step, with the packets the relay sent in it. *)
Definition media_step (cfg : call_cfg) (e : call_env) (ev : media_event) (m : media) : option (media * list sent) :=
  match ev with
  | MCall ev => m ← went e m (call_step cfg e ev (md_loop m)); Some (m, [])
  | MFrame sendmmsg cid payload =>
      match find_by_id cid (md_loop m) with
      | Some c => if cn_authed c then media_frame e sendmmsg cid payload m else Some (m, [])
      | None => Some (m, [])
      end
  | MReadable sendmmsg waiting => media_readable e sendmmsg waiting m
  | MSweep silence_ms => media_sweep cfg e silence_ms m
  end.

Definition media_init (demo inet6 : bool) : media := mk_media (loop_init demo) (oc_relay_open inet6 true true).
Fixpoint media_run (cfg : call_cfg) (evs : list (call_env * media_event)) (m : media) : option media :=
  match evs with
  | [] => Some m
  | (e, ev) :: evs => '(m, _) ← media_step cfg e ev m; media_run cfg evs m
  end.

(** ** What a step notes *)

(** Nothing for the relay; nothing but revocations for it. *)
Definition aside (x : effect) : Prop :=
  match x with Authorize _ _ _ _ | Revoke _ | Swept _ => False | _ => True end.
Definition parting (x : effect) : Prop :=
  match x with Authorize _ _ _ _ | Swept _ => False | _ => True end.
Class quiet_in (P : effect → Prop) : Prop := aside_in : ∀ x, aside x → P x.
#[export] Instance aside_quiet : quiet_in aside. Proof. by intros x. Qed.
#[export] Instance parting_quiet : quiet_in parting. Proof. by intros []. Qed.

(** From [l] to [l'] only effects in [P] were noted, in a table of the same rows. *)
Definition adds (P : effect → Prop) (l l' : loop) : Prop :=
  length (lp_calls l') = length (lp_calls l) ∧ ∃ xs, lp_trace l' = lp_trace l ++ xs ∧ Forall P xs.
#[export] Instance adds_preorder P : PreOrder (adds P).
Proof.
  split.
  - intros l. split; [done|]. exists []. by rewrite app_nil_r.
  - intros l1 l2 l3 [H1 (s1 & E1 & P1)] [H2 (s2 & E2 & P2)]. split; [congruence|].
    exists (s1 ++ s2). rewrite E2, E1, app_assoc. split; [done|]. by apply Forall_app.
Qed.
Lemma adds_same P l l' : length (lp_calls l') = length (lp_calls l) → lp_trace l' = lp_trace l → adds P l l'.
Proof. intros H E. split; [done|]. exists []. by rewrite app_nil_r. Qed.
Lemma adds_note (P : effect → Prop) x l : P x → adds P l (note x l).
Proof. intros Hx. split; [done|]. exists [x]. split; [done|]. by constructor. Qed.
Lemma adds_put P i c l : adds P l (put_call i c l).
Proof. apply adds_same; [|done]. apply length_insert. Qed.
Lemma adds_fold P {A} (f : loop → A → loop) : (∀ l x, adds P l (f l x)) → ∀ xs l, adds P l (foldl f l xs).
Proof. intros H xs. induction xs as [|x xs IH]; intros l; [done|]. cbn. transitivity (f l x); auto. Qed.

Section Adds.
Context (P : effect → Prop) `{!quiet_in P}.

Lemma plain_aside x : plain x → P x.
Proof using Type*. intros Hx. apply aside_in. by destruct x. Qed.
Lemma quietly_adds l l' : quietly l l' → adds P l l'.
Proof using Type*.
  intros [V (s & E & Hs)]. split; [by rewrite (ev_calls _ _ V)|]. exists s. split; [done|]. eapply Forall_impl; [done|]. apply plain_aside.
Qed.
Lemma call_send_adds e buf fr cid l : adds P l (call_send e buf fr cid l).
Proof using Type*.
  destruct (call_send_does e buf fr cid l) as (V & x & Hx & E). split; [by rewrite (ev_calls _ _ V)|]. eexists. split; [exact E|].
  destruct (decide _); [|done]. apply Forall_singleton, aside_in. by destruct Hx as [-> | ->].
Qed.
Lemma roster_adds e c except also l : adds P l (call_send_roster e c except also l).
Proof using Type*. unfold call_send_roster. destruct (encode_in 2048 _); [|done]. apply adds_fold. intros. apply call_send_adds. Qed.
Lemma state_adds e c ended l : adds P l (call_send_state e c ended l).
Proof using Type*. apply quietly_adds, call_send_state_quiet. Qed.
Lemma error_adds e cid code msg l : adds P l (send_call_error e cid code msg l).
Proof using Type*. apply quietly_adds, send_call_error_quiet. Qed.
Lemma push_adds e c uids inviter l : adds P l (call_push_invites e c uids inviter l).
Proof using Type*. apply quietly_adds, call_push_invites_quiet. Qed.
End Adds.
Create HintDb media.
#[export] Hint Resolve adds_put call_send_adds roster_adds state_adds error_adds push_adds : media.
#[export] Hint Extern 1 (adds _ _ (note _ _)) => (apply adds_note; exact I) : media.
#[export] Hint Extern 0 (quiet_in _) => typeclasses eauto : media.
(** The last operation of the goal is one of these. *)
Ltac adds_last := first [reflexivity | solve [auto with media] | etransitivity; [|solve [auto with media]]].
Ltac adds_all := repeat first [adds_last | case_match].

Lemma revoke_all_adds ps l : adds parting l (revoke_all ps l).
Proof. apply adds_fold. intros. by apply adds_note. Qed.
#[export] Hint Resolve revoke_all_adds : media.
Lemma finish_adds e i l : adds parting l (call_finish e i l).
Proof. unfold call_finish. adds_all. Qed.
#[export] Hint Resolve finish_adds : media.
Lemma drop_tell_adds e i k tell l : adds parting l (call_drop_tell e i k tell l).
Proof. unfold call_drop_tell. adds_all. Qed.
#[export] Hint Resolve drop_tell_adds : media.
Lemma drop_adds e i k l : adds parting l (call_drop e i k l).
Proof. apply drop_tell_adds. Qed.
#[export] Hint Resolve drop_adds : media.
Lemma conn_close_adds e cid l : adds parting l (conn_close e cid l).
Proof.
  unfold conn_close. destruct (find_by_id cid l) eqn:E; [|done]. transitivity (index_remove cid l).
  { apply adds_same; unfold index_remove, user_unlink; by destruct (find_by_id cid l). }
  generalize (index_remove cid l). clear. intros l. unfold call_conn_closed. adds_all.
Qed.
#[export] Hint Resolve conn_close_adds : media.
Lemma expire_adds e cfg l : adds parting l (call_expire_detached e cfg l).
Proof.
  apply adds_fold. intros l' i. unfold expire_call. case_match; [auto with media|]. generalize (if call_live (call_at i l') then length (ct_parts (call_at i l')) else O).
  intros k. clear. revert l'. induction k as [|k IH]; intros l; [done|]. cbn [expire_seats]. case_match; [|done]. etransitivity; [|apply IH]. adds_all.
Qed.
Lemma drop_token_adds e token l : adds parting l (call_drop_token e token l).
Proof. unfold call_drop_token. adds_all. Qed.

Lemma put_conn_adds P cid c l : adds P l (put_conn cid c l).
Proof. by apply adds_same. Qed.
Lemma submit_adds P j l : adds P l (submit j l).
Proof. by apply adds_same. Qed.
#[export] Hint Resolve put_conn_adds submit_adds : media.
Lemma append_error_adds cap cid m l : adds parting l (snd (append_error cap cid m l)).
Proof. unfold append_error, with_conn. case_match; [|done]. case_match; [|done]. destruct (out_append _ _) as [[] q]; cbn [snd]; adds_all. Qed.
Lemma answer_invite_adds e cfg jc j members uids l : adds parting l (answer_invite e cfg jc j members uids l).
Proof. unfold answer_invite. adds_all. Qed.
Lemma join_leave_adds e j l : adds parting l (join_leave e j l).
Proof. unfold join_leave. adds_all. Qed.
Lemma call_frame_adds e cid ty payload l : adds parting l (snd (handle_call e cid ty payload l)).
Proof.
  unfold handle_call, decoded. destruct ty; (case_match; [done|]).
  - unfold on_join, with_conn. case_match; [|done]. match goal with |- context [demo_ok ?a ?b ?c ?d] => pose proof (demo_ok_quiet a b c d) as Q; destruct (demo_ok a b c d) as [[] l1] end;
      cbn [negb snd] in *; (transitivity l1; [by apply quietly_adds; [apply _|]|]); [adds_all|apply append_error_adds].
  - unfold on_invite, with_conn. case_match; [|done]. cbn [snd]. adds_all.
  - unfold on_leave, with_conn. case_match; [|done]. cbn [snd]. adds_all.
  - unfold on_decline, with_conn. case_match; [|done]. cbn [snd]. adds_all.
  - unfold on_end, with_conn. case_match; [|done]. cbn [snd]. adds_all.
  - unfold on_share. cbn [snd]. adds_all.
  - unfold on_key, with_conn. case_match; [|done]. cbn [snd]. case_match; [|adds_all]. case_match; [done|]. apply adds_fold. intros. adds_all.
Qed.
Lemma frame_adds e cid ty payload l : adds parting l (snd (on_call_frame e cid ty payload l)).
Proof.
  unfold on_call_frame, with_conn. case_match; [|done]. destruct (rate_limited ty); [|apply call_frame_adds]. destruct (win_ok _ _ _ _) as [[] w].
  - etransitivity; [|apply call_frame_adds]. auto with media.
  - etransitivity; [|apply append_error_adds]. auto with media.
Qed.

(** ** The one authorization of a join *)

(** Revocations, the authorization of [token], and then nothing for the relay. *)
Definition admits (token : list Z) (l l' : loop) : Prop :=
  ∃ id user cid l1, adds parting l l1 ∧ adds aside (note (Authorize id user cid token) l1) l'.
(** A step either parts or admits [token]. *)
Definition moves (cfg : call_cfg) (e : call_env) (l l' : loop) : Prop :=
  adds parting l l' ∨ ∃ rnd, e_rand e = Some rnd ∧ admits (cfg_prefix cfg ++ rnd) l l'.
Lemma moves_after cfg e l l1 l2 : adds parting l l1 → moves cfg e l1 l2 → moves cfg e l l2.
Proof.
  intros H [H2|(rnd & Er & id & u & cid & l3 & H3 & H4)]; [left; by transitivity l1|right].
  exists rnd. split; [done|]. exists id, u, cid, l3. split; [by transitivity l1|done].
Qed.

Lemma join_enter_moves e cfg jc j members uids i starting moved l : moves cfg e l (join_enter e cfg jc j members uids i starting moved l).
Proof.
  unfold join_enter. set (c1 := call_take_members _ _). apply (moves_after _ _ _ (put_call i c1 l)); [auto with media|]. generalize (put_call i c1 l). generalize c1. clear. intros c l.
  destruct (e_rand e) as [rnd|] eqn:Er; [right; exists rnd; split; [done|]|left; adds_all].
  set (p := mk_call_part _ _ _ _ _ _ _). match goal with |- context [if starting then start_invites cfg ?c uids else _] => set (c3 := c) end.
  destruct (if starting then start_invites cfg c3 uids else ([], c3)) as [added c4].
  exists (ct_id c4), (pt_user p), (pt_conn p), (put_call i c4 l). split; [auto with media|].
  change (pt_token p) with (cfg_prefix cfg ++ rnd). generalize (note (Authorize (ct_id c4) (pt_user p) (pt_conn p) (cfg_prefix cfg ++ rnd)) (put_call i c4 l)).
  clear. intros l. adds_all.
Qed.
Lemma join_seat_moves e cfg jc j members uids l : moves cfg e l (join_seat e cfg jc j members uids l).
Proof.
  unfold join_seat. destruct (call_find _ l) as [i|].
  - destruct (call_part_of_user _ _) as [k|].
    + set (l1 := put_call i _ (note _ l)). apply (moves_after _ _ _ l1); [unfold l1; adds_all|]. generalize l1. clear l1. intros l1.
      case_match; [left; adds_all|apply join_enter_moves].
    + case_match; [left; adds_all|apply join_enter_moves].
  - destruct (call_new _ _ _ l) as [[i l1]|] eqn:En; [|left; adds_all]. apply (moves_after _ _ _ l1); [|apply join_enter_moves].
    unfold call_new in En. destruct (find_index _ _) as [i'|]; [|done]. cbn in En. injection En as <- <-. apply adds_same; [apply length_insert|done].
Qed.
Lemma deliver_moves e cfg db j l : moves cfg e l (deliver_call e cfg (process_call_auth db j) l).
Proof.
  unfold process_call_auth. destruct (negb _); cbn [deliver_call]; [left; adds_all|]. case_match; [|by left]. case_match; [by left|].
  destruct (jb_op j); [|left; apply answer_invite_adds]. unfold answer_join. case_match; [by left|]. case_match; [left; adds_all|].
  apply (moves_after _ _ _ (join_leave e j l)); [apply join_leave_adds|]. case_match; [apply join_seat_moves|left; adds_all].
Qed.
(** What an event notes for the relay. *)
Lemma step_relay cfg e ev l : (∀ token, ev ≠ EvSwept token) → moves cfg e l (call_step cfg e ev l).
Proof.
  intros Hev. destruct ev as [|cid uid|cid|cid ty payload|k db|tok|]; cbn [call_step].
  - by left; apply adds_same.
  - left. apply adds_same; unfold auth_ok, user_unlink; by destruct (find_by_id cid l).
  - left. apply conn_close_adds.
  - left. case_match; [|done]. case_match; [|done]. pose proof (frame_adds e cid ty payload l) as H1. destruct (on_call_frame e cid ty payload l) as [[] l1]; [done|].
    etransitivity; [exact H1|apply conn_close_adds].
  - case_match; [|by left]. match goal with |- moves _ _ _ (deliver_call _ _ _ ?x) => apply (moves_after _ _ _ x); [by apply adds_same|] end. apply deliver_moves.
  - by destruct (Hev tok).
  - left. apply expire_adds.
Qed.
