(* ===== verification/MediaMain.v ===== *)
(** * What calls and their relay promise together

    Over every run of the loop and its relay: the relay holds exactly the seats
    of the calls, never for want of room, and a packet goes to the others of its
    sender's call and to no one else. *)
From stdpp Require Import base tactics list numbers gmap strings.
From S2P Require Import Prelude.
From S2P Require Import Wire.
From S2P Require Import ProtoTypes.
From S2P Require Import ProtoCall.
From S2P Require Import Outq.
From S2P Require Import Calls.
From S2P Require Import CallsInv.
From S2P Require Import CallsStep.
From S2P Require Import CallsRun.
From S2P Require Import CallsMain.
From S2P Require Import Relay.
From S2P Require Import RelayInv.
From S2P Require Import RelayMain.
From S2P Require Import Media.
Local Open Scope Z_scope.
Local Open Scope oc_scope.

(** ** The relay's entries and the tokens in force *)

Definition who (x : entry) : list Z * (Z * Z * Z) := (en_token x, (en_call x, en_user x, en_conn x)).
(** [s] holds the participants [V], and every one's connection speaks for it. *)
Record serves (V : gmap (list Z) (Z * Z * Z)) (s : relay_spec) : Prop := {
  sv_tokens : NoDup (en_token <$> rs_entries s);
  sv_view : ∀ tok y, V !! tok = Some y ↔ (tok, y) ∈ who <$> rs_entries s;
  sv_conn : ∀ c tok, rs_conn s !! c = Some tok ↔ ∃ id u, (tok, (id, u, c)) ∈ who <$> rs_entries s }.

Lemma elem_of_who tok y (xs : list entry) : (tok, y) ∈ who <$> xs ↔ ∃ x, x ∈ xs ∧ en_token x = tok ∧ (en_call x, en_user x, en_conn x) = y.
Proof.
  rewrite list_elem_of_fmap. split; [intros (x & [= -> ->] & Hx); eauto|]. intros (x & Hx & <- & <-). by exists x.
Qed.
Lemma nodup_fmap_eq {A B} (f : A → B) (l : list A) x y : NoDup (f <$> l) → x ∈ l → y ∈ l → f x = f y → x = y.
Proof.
  intros N (i & Hi)%list_elem_of_lookup (j & Hj)%list_elem_of_lookup E.
  assert (i = j) as ->; [|congruence]. apply (NoDup_lookup _ i j (f x) N); rewrite list_lookup_fmap; [by rewrite Hi|by rewrite Hj, E].
Qed.
Lemma find_entry tok xs : match spec_find tok xs with
  | Some x => x ∈ xs ∧ en_token x = tok
  | None => ∀ x, x ∈ xs → en_token x ≠ tok
  end.
Proof.
  destruct (spec_find tok xs) as [x|] eqn:E; [by apply spec_find_Some|]. intros x Hx Ht.
  pose proof (List.find_none _ _ E x (proj1 (list_elem_of_In _ _) Hx)) as H. cbn in H. by rewrite bool_decide_eq_true_2 in H.
Qed.
Lemma find_entry_in xs x : NoDup (en_token <$> xs) → x ∈ xs → spec_find (en_token x) xs = Some x.
Proof.
  intros N Hx. pose proof (find_entry (en_token x) xs) as H. destruct (spec_find _ xs) as [y|]; [|by destruct (H x Hx)].
  destruct H as [Hy Ht]. f_equal. by apply (nodup_fmap_eq en_token xs y x N).
Qed.

Lemma serves_lose ts V s : serves V s → serves (filter (fun x => fst x ∉ ts) V) (spec_lose ts s).
Proof.
  intros [N E C]. assert (Hw : ∀ tok y, (tok, y) ∈ who <$> filter (fun x => en_token x ∉ ts) (rs_entries s) ↔ tok ∉ ts ∧ (tok, y) ∈ who <$> rs_entries s).
  { intros tok y. rewrite !elem_of_who. split.
    - intros (x & [Hn Hx]%list_elem_of_filter & <- & ?). eauto 6.
    - intros (Hn & x & Hx & <- & ?). exists x. rewrite list_elem_of_filter. auto. }
  split; cbn [spec_lose rs_entries rs_conn].
  - apply (nodup_sub _ (en_token <$> rs_entries s)); [|done]. apply fmap_submseteq, sublist_submseteq, sublist_filter.
  - intros tok y. rewrite map_lookup_filter_Some, Hw, E. cbn. tauto.
  - intros c tok. rewrite map_lookup_filter_Some, C. cbn. split.
    + intros [(id & u & H) Hn]. exists id, u. by apply Hw.
    + intros (id & u & [Hn H]%Hw). eauto.
Qed.
Lemma one_name V s x c : serves V s → x ∈ rs_entries s → rs_conn s !! c = Some (en_token x) ↔ c = en_conn x.
Proof.
  intros [N E C] Hx. rewrite C. split.
  - intros (id & u & (y & Hy & Ht & [= _ _ <-])%elem_of_who). f_equal. by apply (nodup_fmap_eq en_token (rs_entries s)).
  - intros ->. exists (en_call x), (en_user x). by apply (list_elem_of_fmap_2 who).
Qed.
Lemma revoke_lose V s tok : serves V s → spec_revoke s tok = spec_lose [tok] s.
Proof.
  intros S. unfold spec_revoke, spec_lose. pose proof (find_entry tok (rs_entries s)) as Hf. destruct (spec_find tok (rs_entries s)) as [x|].
  - destruct Hf as [Hx <-]. unfold spec_drop, spec_without. f_equal; [apply list_filter_iff; intros y; set_solver|]. unfold spec_unname.
    rewrite decide_True by (by apply (one_name V)). apply map_eq. intros c. apply option_eq. intros t.
    rewrite lookup_delete_Some, map_lookup_filter_Some. cbn. pose proof (one_name V s x c S Hx). rewrite list_elem_of_singleton. split.
    + intros [Hn Ht]. split; [done|]. intros ->. apply Hn. symmetry. by apply H.
    + intros [Ht Hn]. split; [|done]. intros <-. apply Hn. pose proof (proj2 H eq_refl). congruence.
  - destruct s as [xs m]. cbn in *. f_equal.
    + symmetry. apply filter_keeps. intros x Hx. rewrite list_elem_of_singleton. auto.
    + symmetry. apply map_filter_id. intros c t Ht. cbn. rewrite list_elem_of_singleton. intros ->. apply (sv_conn _ _ S) in Ht as (id & u & (x & Hx & Ht & _)%elem_of_who).
      by apply (Hf x).
Qed.
Lemma serves_revoke V s tok : serves V s → serves (delete tok V) (spec_revoke s tok).
Proof.
  intros S. rewrite (revoke_lose V s tok S). pose proof (serves_lose [tok] V s S) as S'.
  assert (delete tok V = filter (fun x => fst x ∉ [tok]) V) as ->; [|done]. apply map_eq. intros t. apply option_eq. intros y.
  rewrite lookup_delete_Some, map_lookup_filter_Some. cbn. rewrite list_elem_of_singleton. naive_solver.
Qed.

(** ** The calls the loop makes *)

Definition spec_call (now : Z) (s : relay_spec) (x : effect) : relay_spec :=
  match x with
  | Authorize id user cid token => snd (spec_authorize now s id user cid token)
  | Revoke token => spec_revoke s token
  | _ => s
  end.
Lemma feed_ok now xs : ∀ r s, sim r s → ∃ r', feed now xs r = Some r' ∧ same_conf r r' ∧ sim r' (foldl (spec_call now) s xs).
Proof.
  induction xs as [|x xs IH]; intros r s S; [by exists r|]. cbn [feed foldl].
  assert (∃ r1, relay_call now r x = Some r1 ∧ same_conf r r1 ∧ sim r1 (spec_call now s x)) as (r1 & -> & Hc & S1).
  { destruct x as [| |id u cid tok|tok| | |]; cbn [relay_call spec_call]; try (by exists r).
    - destruct (authorize_ok now r s id u cid tok S) as (r1 & -> & ? & _ & ?). by exists r1.
    - destruct (revoke_ok r s tok S) as (r1 & -> & ? & _ & ?). by exists r1. }
  cbn [mbind option_bind]. destruct (IH r1 _ S1) as (r2 & -> & Hc2 & S2). exists r2. split_and!; [done|by eapply same_conf_trans|done].
Qed.
Lemma serves_parting now xs : Forall parting xs → ∀ V s, serves V s → serves (foldl relay_apply V xs) (foldl (spec_call now) s xs).
Proof.
  induction 1 as [|x xs Hx _ IH]; intros V s S; [done|]. cbn [foldl]. apply IH. destruct x; cbn in Hx |- *; try done. by apply serves_revoke.
Qed.
Lemma parting_sub xs : Forall parting xs → ∀ V : gmap (list Z) (Z * Z * Z), foldl relay_apply V xs ⊆ V.
Proof.
  induction 1 as [|x xs Hx _ IH]; intros V; [done|]. cbn [foldl]. transitivity (relay_apply V x); [apply IH|].
  destruct x; cbn in Hx |- *; try done. apply delete_subseteq.
Qed.
Lemma aside_none now xs : Forall aside xs → ∀ V s, foldl relay_apply V xs = V ∧ foldl (spec_call now) s xs = s.
Proof. induction 1 as [|x xs Hx _ IH]; intros V s; [done|]. cbn [foldl]. destruct x; cbn in Hx |- *; try done; apply IH. Qed.

(** A fresh authorization of a connection that speaks for no one yet. *)
Lemma serves_authorize now V s id u cid tok : serves V s →
  OC_AUDIO_TOKEN_RAND <= zlen tok <= OC_AUDIO_TOKEN_MAX → id ≠ 0 → cid ≠ 0 →
  (∀ t y, V !! t = Some y → zlen t = zlen tok ∧ token_key t ≠ token_key tok ∧ snd y ≠ cid) → (length (rs_entries s) < OC_RELAY_MAX_PARTS)%nat →
  serves (<[tok := (id, u, cid)]> V) (snd (spec_authorize now s id u cid tok)).
Proof.
  intros S Hl Hid Hcid HV Hn. assert (Hx : ∀ x, x ∈ rs_entries s → zlen (en_token x) = zlen tok ∧ token_key (en_token x) ≠ token_key tok ∧ en_conn x ≠ cid).
  { intros x Hx. apply (HV (en_token x) (en_call x, en_user x, en_conn x)), (sv_view _ _ S). by apply (list_elem_of_fmap_2 who). }
  unfold spec_authorize. rewrite (proj2 (Z.ltb_ge _ _)), (proj2 (Z.ltb_ge _ _)), (proj2 (Z.eqb_neq _ _)) by (done || lia). cbn [orb].
  assert (existsb (fun x => negb (zlen (en_token x) =? zlen tok)) (rs_entries s) = false) as ->.
  { apply not_true_iff_false. intros (x & Hin%list_elem_of_In & H)%existsb_exists. apply negb_true_iff, Z.eqb_neq in H. by apply H, Hx. }
  pose proof (find_entry tok (rs_entries s)) as Hf. destruct (spec_find tok (rs_entries s)) as [x|]; [destruct Hf as [Hin <-]; by destruct (Hx x Hin) as (_ & ? & _)|].
  assert (existsb (fun x => token_key (en_token x) =? token_key tok) (rs_entries s) = false) as ->.
  { apply not_true_iff_false. intros (x & Hin%list_elem_of_In & H)%existsb_exists. apply Z.eqb_eq in H. by destruct (Hx x Hin) as (_ & ? & _). }
  rewrite (proj2 (Z.leb_gt _ _)) by (unfold zlen; lia). cbn [orb snd]. destruct S as [N E C]. split; cbn [rs_entries rs_conn].
  - rewrite fmap_cons. apply list.NoDup_cons. split; [|done]. intros (x & Ht & Hin)%list_elem_of_fmap. by destruct (Hf x Hin).
  - intros t y. rewrite fmap_cons, elem_of_cons, <- E, lookup_insert_Some. change (who _) with (tok, (id, u, cid)).
    assert (V !! tok = None) as Hno by (apply eq_None_not_Some; intros [z Hz]; by destruct (HV _ _ Hz) as (_ & ? & _)). split.
    + intros [[<- <-]|[_ H]]; auto.
    + intros [[= -> ->]|H]; [by left|right]. split; [congruence|done].
  - intros c t. unfold spec_name. rewrite (proj2 (Z.eqb_neq _ _)) by done. rewrite lookup_insert_Some, C, fmap_cons.
    change (who _) with (tok, (id, u, cid)) at 1. split.
    + intros [[<- <-]|(_ & id' & u' & H)]; [exists id, u; by left|exists id', u'; by right].
    + intros (id' & u' & [[= -> -> -> ->]|H]%elem_of_cons); [by left|right]. split; [|eauto]. intros ->.
      apply E, HV in H as (_ & _ & H). done.
Qed.

(** ** The loop and its relay *)

Definition without (ts : list (list Z)) (V : gmap (list Z) (Z * Z * Z)) : gmap (list Z) (Z * Z * Z) := filter (fun x => fst x ∉ ts) V.
Lemma without_nil V : without [] V = V.
Proof. apply map_filter_id. intros k y _. apply not_elem_of_nil. Qed.
Lemma without_delete ts tok V : delete tok (without ts V) = without ts (delete tok V).
Proof. symmetry. apply map_filter_delete. Qed.
Lemma without_cons tok ts V : without (tok :: ts) V = without ts (delete tok V).
Proof.
  apply map_eq. intros t. apply option_eq. intros y. unfold without. rewrite !map_lookup_filter_Some, lookup_delete_Some. cbn. rewrite not_elem_of_cons. naive_solver.
Qed.
Lemma without_parting ts xs : Forall parting xs → ∀ V, foldl relay_apply (without ts V) xs = without ts (foldl relay_apply V xs).
Proof.
  induction 1 as [|x xs Hx _ IH]; intros V; [done|]. cbn [foldl]. rewrite <- IH. f_equal. destruct x; cbn in Hx |- *; try done. apply without_delete.
Qed.

(** While the loop is told of a sweep, [rest] is still to come. *)
Record media_inv (cfg : call_cfg) (used : list (list Z)) (t : Z) (rest : list (list Z)) (m : media) : Prop := {
  mi_inv : inv cfg true used t (md_loop m);
  mi_rows : length (lp_calls (md_loop m)) = OC_MAX_CALLS;
  mi_used : Forall (fun r => zlen r = 16) used;
  mi_hooks : rl_gone_hook (md_relay m) = true ∧ rl_tcp_hook (md_relay m) = true;
  mi_relay : ∃ s, sim (md_relay m) s ∧ serves (without rest (relay_view (lp_trace (md_loop m)))) s }.

Lemma went_feeds e m l xs s : lp_trace l = lp_trace (md_loop m) ++ xs → sim (md_relay m) s →
  ∃ r, went e m l = Some (mk_media l r) ∧ same_conf (md_relay m) r ∧ sim r (foldl (spec_call (e_now e)) s xs).
Proof.
  intros E S. unfold went. rewrite E, drop_app_length. destruct (feed_ok (e_now e) xs _ s S) as (r & -> & Hc & S'). by exists r.
Qed.
Lemma keep_hooks r r' : same_conf r r' → rl_gone_hook r = true ∧ rl_tcp_hook r = true → rl_gone_hook r' = true ∧ rl_tcp_hook r' = true.
Proof. intros [_ _ H1 H2]. by rewrite H1, H2. Qed.

Section Composed.
Context (cfg : call_cfg) (Hcfg : cfg_ok cfg).

Lemma went_parts e used used' t t' rest m l : media_inv cfg used t rest m → inv cfg true used' t' l → Forall (fun r => zlen r = 16) used' →
  adds parting (md_loop m) l → ∃ m', went e m l = Some m' ∧ media_inv cfg used' t' rest m' ∧ md_loop m' = l.
Proof using Type.
  intros [I Hrows _ Hh (s & S & Sv)] I' Hu (Hlen & xs & E & Hxs). destruct (went_feeds e m l xs s E S) as (r & -> & Hc & S'). eexists. split_and!; [done| |done].
  split; try done; [cbn [md_loop]; by rewrite Hlen|by eapply keep_hooks|]. exists (foldl (spec_call (e_now e)) s xs). split; [done|]. cbn [md_loop].
  rewrite E, relay_view_app, <- without_parting by done. by apply serves_parting.
Qed.
Lemma gone_ok e used t tok rest m : media_inv cfg used t (tok :: rest) m → ∃ m', relay_gone e m tok = Some m' ∧ media_inv cfg used t rest m'.
Proof using Hcfg.
  intros [I Hrows Hu Hh (s & S & Sv)]. unfold relay_gone. destruct (drop_token_adds e tok (note (Swept tok) (md_loop m))) as (Hlen & xs & E & Hxs).
  set (l := call_drop_token e tok (note (Swept tok) (md_loop m))) in *.
  assert (E' : lp_trace l = lp_trace (md_loop m) ++ Swept tok :: xs) by (rewrite E; cbn; by rewrite <- app_assoc).
  destruct (went_feeds e m l (Swept tok :: xs) s E' S) as (r & -> & Hc & S'). eexists. split; [done|]. split; try done.
  - by apply drop_token_ok.
  - rewrite <- Hrows. exact Hlen.
  - by eapply keep_hooks.
  - exists (foldl (spec_call (e_now e)) s xs). split; [done|]. cbn [md_loop]. rewrite E', relay_view_app. cbn [foldl relay_apply].
    rewrite <- without_parting by done. apply serves_parting; [done|]. by rewrite <- without_cons.
Qed.
Lemma all_gone_ok e used t rest : ∀ m, media_inv cfg used t rest m → ∃ m', all_gone e m rest = Some m' ∧ media_inv cfg used t [] m'.
Proof using Hcfg.
  induction rest as [|tok rest IH]; intros m M; [by exists m|]. cbn [all_gone]. destruct (gone_ok e used t tok rest m M) as (m1 & -> & M1). cbn [mbind option_bind]. by apply IH.
Qed.

(** ** Room for every seat *)

Lemma att_ents calls : gather att_of calls = (fun x => snd (snd x)) <$> gather ents_of calls.
Proof using Type.
  unfold gather. induction calls as [|c calls IH]; [done|]. rewrite !fmap_cons. cbn [concat]. rewrite fmap_app, IH. f_equal.
  unfold att_of, ents_of, if_live. destruct (call_live c); [|done]. unfold attached. rewrite <- list_fmap_compose. generalize (ct_parts c). clear. intros ps.
  induction ps as [|p ps IH]; [done|]. rewrite fmap_cons, !filter_cons. case_decide; rewrite IH; [|done]. done.
Qed.
Lemma ents_room calls next b : Forall (row_ok cfg next b) calls → (length (gather ents_of calls) ≤ length calls * 32)%nat.
Proof using Hcfg.
  unfold gather. induction 1 as [|c calls Hc _ IH]; [done|]. rewrite fmap_cons. cbn [concat length]. rewrite length_app.
  enough (length (ents_of c) ≤ 32)%nat by lia. unfold ents_of, if_live. destruct (call_live c) eqn:L; [|cbn; lia]. destruct (Hc L) as [[Hm _ _ _ _ _ _ _ _ _ _ _] _].
  rewrite length_fmap. destruct Hcfg as [[_ H32] _]. unfold zlen, OC_MAX_CALL_PARTICIPANTS in *. etransitivity; [apply length_filter|]. lia.
Qed.
Lemma key_of_rand p r : zlen r = 16 → token_key (p ++ r) = token_key r.
Proof using Type.
  intros Hr. unfold token_key. rewrite zlen_app. unfold OC_AUDIO_TOKEN_RAND. rewrite Hr.
  replace (zdrop (zlen p + 16 - 16) (p ++ r)) with (zdrop (16 - 16) r); [done|]. unfold zdrop, zlen. change (Z.to_nat (16 - 16)) with 0%nat.
  replace (Z.to_nat (Z.of_nat (length p) + 16 - 16)) with (length p) by lia. by rewrite drop_app_length.
Qed.

Lemma view_token used t l tok y : inv cfg true used t l → relay_view (lp_trace l) !! tok = Some y → ∃ r, r ∈ used ∧ tok = cfg_prefix cfg ++ r.
Proof using Type.
  intros I Hy. destruct (ba_tokens _ _ _ _ _ (in_base _ _ _ _ _ I) eq_refl) as (_ & U & E). apply U. apply E, elem_of_gather in Hy as (c & Hc & Hin).
  apply elem_of_gather. exists c. split; [done|]. unfold ents_of, toks_of, if_live in *. destruct (call_live c); [|by apply not_elem_of_nil in Hin].
  apply list_elem_of_fmap in Hin as (p & [= -> _] & [_ Hp]%list_elem_of_filter). by apply list_elem_of_fmap_2.
Qed.
Lemma view_entry used t l tok id u cid : inv cfg true used t l → relay_view (lp_trace l) !! tok = Some (id, u, cid) → id ≠ 0 ∧ cid ≠ 0.
Proof using Type.
  intros I Hy. destruct (ba_tokens _ _ _ _ _ (in_base _ _ _ _ _ I) eq_refl) as (_ & _ & E). apply E, elem_of_gather in Hy as (c & Hc & Hin).
  destruct (call_live c) eqn:L; [|unfold ents_of, if_live in Hin; rewrite L in Hin; by apply not_elem_of_nil in Hin].
  apply (ents_iff _ _ _ L) in Hin as (p & Hp & Hne & [= _ -> _ ->]). split; [|done].
  pose proof (proj1 (Forall_forall _ _) (in_rows _ _ _ _ _ I) c Hc L) as [[] _]. lia.
Qed.
Lemma view_conn used t l tok tok' y y' : inv cfg true used t l → relay_view (lp_trace l) !! tok = Some y → relay_view (lp_trace l) !! tok' = Some y' →
  snd y = snd y' → tok = tok'.
Proof using Type.
  intros I Hy Hy' Es. destruct (ba_tokens _ _ _ _ _ (in_base _ _ _ _ _ I) eq_refl) as (_ & _ & E). apply E in Hy, Hy'.
  pose proof (ba_att _ _ _ _ _ (in_base _ _ _ _ _ I)) as N. rewrite att_ents in N.
  by injection (nodup_fmap_eq (fun x : list Z * (Z * Z * Z) => snd (snd x)) _ (tok, y) (tok', y') N Hy Hy' Es).
Qed.
(** The seats fit in the relay's table. *)
Lemma view_room used t l (toks : list (list Z)) : inv cfg true used t l → length (lp_calls l) = OC_MAX_CALLS → NoDup toks →
  (∀ tok, tok ∈ toks → is_Some (relay_view (lp_trace l) !! tok)) → (length toks ≤ OC_RELAY_MAX_PARTS)%nat.
Proof using Hcfg.
  intros I Hrows N H. pose proof (ents_room _ _ _ (in_rows _ _ _ _ _ I)) as Hroom. rewrite Hrows in Hroom.
  transitivity (length (gather ents_of (lp_calls l))); [|exact Hroom]. rewrite <- (length_fmap fst). apply submseteq_length, NoDup_submseteq; [done|].
  intros tok Htok. destruct (H tok Htok) as [y Hy]. destruct (ba_tokens _ _ _ _ _ (in_base _ _ _ _ _ I) eq_refl) as (_ & _ & E). apply E in Hy.
  apply list_elem_of_fmap. by exists (tok, y).
Qed.

Lemma went_admits e used used' t t' rnd m l : media_inv cfg used t [] m → inv cfg true used' t' l → Forall (fun r => zlen r = 16) used' →
  zlen rnd = 16 → (∀ r, r ∈ used → token_key r ≠ token_key rnd) → admits (cfg_prefix cfg ++ rnd) (md_loop m) l →
  ∃ m', went e m l = Some m' ∧ media_inv cfg used' t' [] m' ∧ md_loop m' = l.
Proof using Hcfg.
  intros [I Hrows Hu Hh (s & S & Sv)] I' Hu' Hrnd Hkey (id & u & cid & l1 & (Hlen1 & xs & E1 & Hxs) & (Hlen2 & ys & E2 & Hys)).
  set (tok := cfg_prefix cfg ++ rnd) in *. rewrite without_nil in Sv. set (V1 := foldl relay_apply (relay_view (lp_trace (md_loop m))) xs).
  set (s1 := foldl (spec_call (e_now e)) s xs). assert (Sv1 : serves V1 s1) by (by apply serves_parting).
  assert (E : lp_trace l = lp_trace (md_loop m) ++ xs ++ Authorize id u cid tok :: ys) by (rewrite E2; cbn; rewrite E1, <- !app_assoc; done).
  assert (EV : relay_view (lp_trace l) = <[tok := (id, u, cid)]> V1).
  { rewrite E, relay_view_app, foldl_app. cbn [foldl relay_apply]. fold V1. by destruct (aside_none 0 ys Hys (<[tok := (id, u, cid)]> V1) s1) as [-> _]. }
  destruct (went_feeds e m l _ s E S) as (r & -> & Hc & S'). eexists. split_and!; [done| |done]. split; try done; [cbn [md_loop]; by rewrite Hlen2; cbn; rewrite Hlen1|by eapply keep_hooks|].
  eexists. split; [exact S'|]. cbn [md_loop]. rewrite without_nil, EV, foldl_app. cbn [foldl]. fold s1.
  destruct (aside_none (e_now e) ys Hys ∅ (spec_call (e_now e) s1 (Authorize id u cid tok))) as [_ ->]. cbn [spec_call].
  assert (Hold : ∀ t y, V1 !! t = Some y → ∃ r, r ∈ used ∧ t = cfg_prefix cfg ++ r).
  { intros tk y Hy. eapply (view_token used _ (md_loop m)); [done|]. eapply lookup_weaken; [exact Hy|]. by apply parting_sub. }
  assert (Hnew : V1 !! tok = None).
  { apply eq_None_not_Some. intros [y Hy]. destruct (Hold _ _ Hy) as (r0 & Hr0 & Heq). apply app_inv_head in Heq as <-. by apply (Hkey rnd). }
  assert (Hlen16 : ∀ r, r ∈ used → zlen r = 16) by (by apply Forall_forall).
  destruct (view_entry used' t' l tok id u cid I') as [Hid Hcid]; [by rewrite EV, lookup_insert_eq|]. destruct Hcfg as (_ & _ & Hpre & _).
  apply serves_authorize; try done.
  - unfold tok. rewrite zlen_app, Hrnd. unfold OC_AUDIO_TOKEN_RAND, OC_AUDIO_TOKEN_MAX, OC_AUDIO_PREFIX_MAX. pose proof (zlen_nonneg (cfg_prefix cfg)). unfold OC_AUDIO_TOKEN_RAND. lia.
  - intros tk y Hy. destruct (Hold tk y Hy) as (r0 & Hr0 & ->). unfold tok. rewrite !zlen_app, !key_of_rand by auto. split_and!; [by rewrite Hrnd, (Hlen16 r0 Hr0)|by apply Hkey|].
    intros Hsame. assert (cfg_prefix cfg ++ r0 = tok) as Heq; [|by rewrite Heq, Hnew in Hy]. apply (view_conn used' t' l _ _ y (id, u, cid) I'); [|by rewrite EV, lookup_insert_eq|done].
    rewrite EV. rewrite lookup_insert_ne; [done|]. intros Heq. by rewrite <- Heq, Hnew in Hy.
  - enough (length (tok :: (en_token <$> rs_entries s1)) ≤ OC_RELAY_MAX_PARTS)%nat as H by (cbn [length] in H; rewrite length_fmap in H; lia).
    apply (view_room used' t' l); [done|rewrite Hlen2; cbn; by rewrite Hlen1| |].
    + apply list.NoDup_cons. split; [|apply Sv1]. intros (x & -> & Hx)%list_elem_of_fmap.
      assert (V1 !! en_token x = Some (en_call x, en_user x, en_conn x)) as Hs by (apply (sv_view _ _ Sv1); by apply (list_elem_of_fmap_2 who)). congruence.
    + intros tk [->|(x & -> & Hx)%list_elem_of_fmap]%elem_of_cons; [by rewrite EV, lookup_insert_eq|].
      assert (V1 !! en_token x = Some (en_call x, en_user x, en_conn x)) as Hs by (apply (sv_view _ _ Sv1); by apply (list_elem_of_fmap_2 who)).
      rewrite EV, lookup_insert_ne by congruence. eauto.
Qed.
End Composed.

(** ** Packets change neither the seats nor who speaks for them *)

Lemma serves_who V s xs : serves V s → who <$> xs = who <$> rs_entries s → serves V (mk_relay_spec xs (rs_conn s)).
Proof.
  intros [N E C] Hw. split; cbn [rs_entries rs_conn]; rewrite ?Hw; try done.
  assert (en_token <$> xs = fst <$> (who <$> xs)) as -> by (by rewrite <- list_fmap_compose). by rewrite Hw, <- list_fmap_compose.
Qed.
Lemma update_who xs x me : NoDup (en_token <$> xs) → x ∈ xs → who me = who x → who <$> spec_update (en_token x) (fun _ => me) xs = who <$> xs.
Proof.
  intros N Hx Hw. unfold spec_update. rewrite <- list_fmap_compose. apply list_fmap_ext. intros i y Hy. unfold compose. case_bool_decide as Ht; [|done].
  rewrite Hw. f_equal. apply (nodup_fmap_eq en_token xs); try done. by eapply list_elem_of_lookup_2.
Qed.
Lemma serves_update V s x me : serves V s → x ∈ rs_entries s → who me = who x →
  serves V (mk_relay_spec (spec_update (en_token x) (fun _ => me) (rs_entries s)) (rs_conn s)).
Proof. intros S Hx Hw. apply serves_who; [done|]. apply update_who; [apply S|done|done]. Qed.
Lemma serves_from_tcp V tcp sendmmsg now s conn seq ct : serves V s → serves V (snd (fst (spec_from_tcp tcp sendmmsg now s conn seq ct))).
Proof.
  intros S. unfold spec_from_tcp. destruct (rs_conn s !! conn) as [tok|]; [|done]. cbn [mbind option_bind]. pose proof (find_entry tok (rs_entries s)) as Hf.
  destruct (spec_find tok (rs_entries s)) as [x|]; [|done]. destruct Hf as [Hx _]. cbn [fst snd]. by apply serves_update.
Qed.
Lemma serves_datagram V i6 tcp sendmmsg s a : serves V s → serves V (fst (spec_datagram i6 tcp sendmmsg s a)).
Proof.
  intros S. unfold spec_datagram. destruct (rs_entries s) as [|x0 xs] eqn:Es; [done|]. rewrite <- Es. set (tok := ztake _ _). pose proof (find_entry tok (rs_entries s)) as Hf.
  destruct (spec_find tok (rs_entries s)) as [x|]; [|done]. destruct Hf as [Hx _]. case_match; [done|]. cbn [fst]. apply serves_update; [done|done|].
  unfold spec_learn. by destruct (en_peer x).
Qed.
Lemma serves_readable V i6 tcp sendmmsg waiting : ∀ s, serves V s → serves V (fst (spec_readable i6 tcp sendmmsg waiting s)).
Proof.
  induction waiting as [|a waiting IH]; intros s S; [done|]. cbn [spec_readable]. pose proof (serves_datagram V i6 tcp sendmmsg s a S) as S1.
  destruct (spec_datagram _ _ _ s a) as [s1 o]. specialize (IH s1 S1). by destruct (spec_readable _ _ _ waiting s1).
Qed.
Lemma tcp_send_quiet e l p : quietly l (relay_tcp_send e l p) ∧ lp_trace (relay_tcp_send e l p) = lp_trace l.
Proof.
  unfold relay_tcp_send, find_by_id. destruct (lp_conns l !! tp_conn p) as [c|] eqn:E; [|done]. case_match; [done|]. case_match; [|done]. destruct (out_append _ _) as [ok q].
  split; [|done]. split; [by apply (eqv_put_conn _ c)|]. exists []. by rewrite app_nil_r.
Qed.
Lemma deliver_tcp_quiet e l out : quietly l (deliver_tcp e l out) ∧ lp_trace (deliver_tcp e l out) = lp_trace l.
Proof.
  unfold deliver_tcp. generalize (fst out). intros ps. revert l. induction ps as [|p ps IH]; intros l; [done|]. cbn [foldl].
  destruct (tcp_send_quiet e l p) as [Q E], (IH (relay_tcp_send e l p)) as [Q' E']. split; [by transitivity (relay_tcp_send e l p)|congruence].
Qed.
Lemma delivers_quiet e outs : ∀ l, quietly l (foldl (deliver_tcp e) l outs) ∧ lp_trace (foldl (deliver_tcp e) l outs) = lp_trace l.
Proof.
  induction outs as [|out outs IH]; intros l; [done|]. cbn [foldl].
  destruct (deliver_tcp_quiet e l out) as [Q E], (IH (deliver_tcp e l out)) as [Q' E']. split; [by transitivity (deliver_tcp e l out)|congruence].
Qed.

Definition media_event_ok (ev : media_event) : Prop :=
  match ev with MCall ev => event_ok ev ∧ ∀ token, ev ≠ EvSwept token | _ => True end.

Section Run.
Context (cfg : call_cfg) (Hcfg : cfg_ok cfg).

Lemma relay_only used t m l r s : media_inv cfg used t [] m → quietly (md_loop m) l → lp_trace l = lp_trace (md_loop m) →
  same_conf (md_relay m) r → sim r s → serves (relay_view (lp_trace (md_loop m))) s → media_inv cfg used t [] (mk_media l r).
Proof using Type.
  intros [I Hrows Hu Hh _] Q E Hc S' Sv. split; try done; cbn [md_loop md_relay].
  - by eapply inv_quiet.
  - by rewrite (ev_calls _ _ (proj1 Q)).
  - by eapply keep_hooks.
  - exists s. split; [done|]. by rewrite E, without_nil.
Qed.
Lemma media_later used t t' m : media_inv cfg used t [] m → t <= t' < 2 ^ 31 - 1 → media_inv cfg used t' [] m.
Proof using Type. intros [I ? ? ? ?] Ht. split; try done. by apply (inv_mono _ _ _ t). Qed.
Lemma media_used e used t m : media_inv cfg used t [] m → env_ok e → media_inv cfg (used_after e used) t [] m.
Proof using Type.
  intros [I ? Hu ? ?] [_ He]. split; try done; [by apply (inv_used _ _ used); [apply used_grows|]|]. unfold used_after. destruct (e_rand e) as [r|]; [|done].
  apply list.Forall_cons. split; [|done]. by apply He.
Qed.

Lemma sweep_step e used t m silence : media_inv cfg used t [] m → t + 1 < 2 ^ 31 - 1 →
  ∃ m', media_sweep cfg e silence m = Some (m', []) ∧ media_inv cfg used t [] m'.
Proof using Hcfg.
  intros M Ht. pose proof M as [I Hrows Hu [Hg Htcp] (s & S & Sv)]. unfold media_sweep. rewrite without_nil in Sv.
  set (r0 := oc_relay_set_silence_ms (md_relay m) silence). assert (S0 : sim r0 s).
  { destruct S as (ps & Mc & Mt & Mn & [L T Hem] & ->). exists ps, Mc, Mt, Mn. split; [|done]. split; [by apply (links_conf (md_relay m))| |done].
    by apply (table_rows (md_relay m)); try done; apply L. }
  destruct (sweep_ok (e_now e) r0 s S0) as (gone & r & -> & Hc & _ & Hp & S'). cbn [mbind option_bind].
  unfold spec_sweep in Hp, S'. change (rl_gone_hook r0) with (rl_gone_hook (md_relay m)) in *. rewrite Hg in Hp. cbn [fst snd] in Hp, S'. rewrite <- (lose_ext gone) in S' by (intros tok; by rewrite Hp).
  destruct (all_gone_ok cfg Hcfg e used t gone (mk_media (md_loop m) r)) as (m1 & -> & M1).
  { split; try done; cbn [md_loop md_relay]; [by apply (keep_hooks r0)|]. eexists. split; [exact S'|]. by apply serves_lose. }
  cbn [mbind option_bind]. destruct (went_parts cfg e used used t t [] m1 _ M1 (expire_ok cfg true used Hcfg e t _ (mi_inv _ _ _ _ _ M1)) Hu (expire_adds e cfg _)) as (m2 & -> & M2 & _).
  by exists m2.
Qed.
Lemma media_step_ok e ev used t m rnd : env_ok e → media_event_ok ev → media_inv cfg used t [] m → t + 1 < 2 ^ 31 - 1 →
  e_rand e = Some rnd → (∀ r, r ∈ used → token_key r ≠ token_key rnd) →
  ∃ m' outs, media_step cfg e ev m = Some (m', outs) ∧ media_inv cfg (used_after e used) (t + 1) [] m'.
Proof using Hcfg.
  intros He Hev M Ht Er Hk. pose proof M as [I Hrows Hu [Hg Htcp] (s & S & Sv)]. rewrite without_nil in Sv.
  pose proof (ba_next _ _ _ _ _ (in_base _ _ _ _ _ I)) as (_ & _ & Ht0). pose proof (mi_used _ _ _ _ _ (media_used e used t m M He)) as Hu'.
  assert (Hlater : ∀ m' (outs : list sent), media_inv cfg used t [] m' → ∃ m1 outs1, Some (m', outs) = Some (m1, outs1) ∧ media_inv cfg (used_after e used) (t + 1) [] m1).
  { intros m' outs M'. exists m', outs. split; [done|]. apply (media_later _ t); [by apply media_used|lia]. }
  assert (Hr16 : zlen rnd = 16) by (by apply He). destruct ev as [ev|sendmmsg cid payload|sendmmsg waiting|silence]; cbn [media_step].
  - destruct Hev as [Hev Hns].
    assert (I' : inv cfg true (used_after e used) (t + 1) (call_step cfg e ev (md_loop m))).
    { apply call_step_ok; try done. intros _. exists rnd. split; [done|]. intros Hin. by apply (Hk rnd). }
    destruct (step_relay cfg e ev (md_loop m) Hns) as [Ha|(rnd' & Er' & Ha)].
    + destruct (went_parts cfg e used _ t _ [] m _ M I' Hu' Ha) as (m1 & -> & M1 & _). by exists m1, [].
    + assert (rnd' = rnd) as -> by congruence. destruct (went_admits cfg Hcfg e used _ t _ rnd m _ M I' Hu' Hr16 Hk Ha) as (m1 & -> & M1 & _). by exists m1, [].
  - destruct (find_by_id cid (md_loop m)) as [c|]; [|by apply Hlater]. destruct (cn_authed c); [|by apply Hlater]. unfold media_frame. destruct (run_decode _ _) as [|pkt].
    + destruct (went_parts cfg e used _ t (t + 1) [] m _ M (inv_used _ _ used _ _ _ (used_grows e used) (conn_close_ok cfg true used Hcfg e t cid _ I Ht)) Hu' (conn_close_adds e cid _)) as (m1 & -> & M1 & _).
      by exists m1, [].
    + destruct (from_tcp_ok sendmmsg (e_now e) (md_relay m) s cid (call_media_pkt_seq pkt) (call_media_pkt_ct pkt) S) as (r & H).
      pose proof (serves_from_tcp _ (rl_tcp_hook (md_relay m)) sendmmsg (e_now e) s cid (call_media_pkt_seq pkt) (call_media_pkt_ct pkt) Sv) as Sv'.
      destruct (spec_from_tcp _ _ _ _ _ _ _) as [[rc s'] out]. destruct H as (-> & Hc & _ & S'). cbn [mbind option_bind]. apply Hlater.
      destruct (deliver_tcp_quiet e (md_loop m) out) as [Q E]. by apply (relay_only used t m _ r s').
  - unfold media_readable. destruct (readable_ok sendmmsg OC_RELAY_BUDGET waiting (md_relay m) s S) as (r & H).
    pose proof (serves_readable _ (rl_inet6 (md_relay m)) (rl_tcp_hook (md_relay m)) sendmmsg (take OC_RELAY_BUDGET waiting) s Sv) as Sv'.
    destruct (spec_readable _ _ _ _ s) as [s' outs]. destruct H as (-> & Hc & S'). cbn [mbind option_bind]. apply Hlater.
    destruct (delivers_quiet e outs (md_loop m)) as [Q E]. by apply (relay_only used t m _ r s').
  - destruct (sweep_step e used t m silence M Ht) as (m1 & -> & M1). by apply Hlater.
Qed.

(** A run short enough for the 32-bit counters, whose random bytes differ where the relay looks. *)
Definition media_keys (evs : list (call_env * media_event)) : list Z := omap (fun x => token_key <$> e_rand (fst x)) evs.
Definition media_ok (evs : list (call_env * media_event)) : Prop :=
  Forall (fun x => env_ok (fst x) ∧ media_event_ok (snd x) ∧ is_Some (e_rand (fst x))) evs ∧ NoDup (media_keys evs) ∧
  Z.of_nat (length evs) < 2 ^ 31 - 1.
Lemma media_run_ok evs : ∀ used t m, media_inv cfg used t [] m →
  Forall (fun x => env_ok (fst x) ∧ media_event_ok (snd x) ∧ is_Some (e_rand (fst x))) evs → NoDup (media_keys evs) →
  (∀ r, r ∈ used → token_key r ∉ media_keys evs) → t + Z.of_nat (length evs) < 2 ^ 31 - 1 →
  ∃ m' used', media_run cfg evs m = Some m' ∧ media_inv cfg used' (t + Z.of_nat (length evs)) [] m'.
Proof using Hcfg.
  induction evs as [|[e ev] evs IH]; intros used t m M Hok N Hk Hn.
  { exists m, used. cbn [length]. by rewrite Z.add_0_r. }
  apply list.Forall_cons in Hok as [(He & Hev & rnd & Er) Hok]. cbn [fst snd] in *. cbn [length] in Hn |- *.
  assert (Hkeys : media_keys ((e, ev) :: evs) = token_key rnd :: media_keys evs) by (unfold media_keys; cbn; by rewrite Er).
  rewrite Hkeys in N, Hk. apply list.NoDup_cons in N as [Hnew N].
  destruct (media_step_ok e ev used t m rnd He Hev M ltac:(lia) Er) as (m1 & outs & E & M1); [intros r Hr Heq; apply (Hk r Hr); rewrite Heq; by left|].
  cbn [media_run]. rewrite E. cbn [mbind option_bind].
  destruct (IH (used_after e used) (t + 1) m1 M1 Hok N) as (m' & used' & -> & M').
  - unfold used_after. rewrite Er. intros r [->|Hr]%elem_of_cons; [done|]. intros Hin. apply (Hk r Hr). by right.
  - lia.
  - exists m', used'. split; [done|]. by replace (t + Z.of_nat (S (length evs))) with (t + 1 + Z.of_nat (length evs)) by lia.
Qed.
Lemma media_init_inv demo inet6 : media_inv cfg [] 0 [] (media_init demo inet6).
Proof using Type.
  split; try done; [apply init_inv|]. destruct (open_sim inet6 true true) as (_ & _ & _ & _ & S). exists (mk_relay_spec [] ∅).
  split; [exact S|]. rewrite without_nil. split; cbn [rs_entries rs_conn]; [apply NoDup_nil_2| |].
  - intros tok y. change (relay_view (lp_trace (md_loop (media_init demo inet6)))) with (∅ : gmap (list Z) (Z * Z * Z)). rewrite lookup_empty. split; [done|by intros ?%not_elem_of_nil].
  - intros c tok. rewrite lookup_empty. split; [done|]. by intros (? & ? & ?%not_elem_of_nil).
Qed.
End Run.

(** ** Where a packet goes *)

Definition relay_row (r : oc_relay) (token : list Z) : option participant :=
  e ← find_token r token; if e =? 0 then None else Some (row r e).
(** The others of a call that are on a connection. *)
Definition others (c : call_t) (p : call_part) : list call_part := filter (fun q => pt_conn q ≠ 0 ∧ pt_token q ≠ pt_token p) (ct_parts c).
(** Their packets: over the connection for who last sent that way, else to the address learned. *)
Definition tcp_to (r : oc_relay) (user seq : Z) (ct : list Z) (q : call_part) : option tcp_packet :=
  x ← relay_row r (pt_token q); if rp_tcp x then Some (mk_tcp_packet (pt_conn q) user seq ct) else None.
Definition udp_to (r : oc_relay) (out : list Z) (q : call_part) : option datagram :=
  x ← relay_row r (pt_token q); if rp_tcp x || negb (rp_addr_known x) then None else Some (prepare r x out).

Lemma row_entry r s token : sim r s → entry_of (rl_inet6 r) <$> relay_row r token = spec_find token (rs_entries s).
Proof.
  intros (ps & S). unfold relay_row. destruct (find_stands r ps s token S) as (e & -> & [[-> ->]|(_ & Hp & _ & ->)]); cbn [mbind option_bind]; [done|].
  by rewrite (ptr_test e Hp).
Qed.
Definition fan_tcp (user seq : Z) (ct : list Z) (x : entry) : option tcp_packet :=
  if en_tcp x then Some (mk_tcp_packet (en_conn x) user seq ct) else None.
Definition fan_udp (out : list Z) (x : entry) : option datagram :=
  if en_tcp x then None else '(to, ctl) ← en_peer x; Some (mk_datagram to ctl out).
Lemma fan_all user seq ct xs : ∀ k, k + zlen xs <= OC_MAX_CALL_PARTICIPANTS →
  spec_fan true user seq ct xs k = (omap (fan_tcp user seq ct) xs, omap (fan_udp (be64 user ++ be16 seq ++ ct)) xs).
Proof.
  induction xs as [|x xs IH]; intros k Hk; [done|]. assert (Hz : zlen (x :: xs) = 1 + zlen xs) by (unfold zlen; cbn; lia). pose proof (zlen_nonneg xs).
  cbn [spec_fan]. rewrite (proj2 (Z.leb_gt _ _)) by lia. cbn [omap list_omap]. unfold fan_tcp at 1, fan_udp at 1.
  destruct (en_tcp x); [by rewrite IH by lia|]. destruct (en_peer x) as [[to ctl]|]; cbn [mbind option_bind]; by rewrite IH by lia.
Qed.
Lemma gather_inj {A} (f : call_t → list A) calls c c' x : NoDup (gather f calls) → c ∈ calls → c' ∈ calls → x ∈ f c → x ∈ f c' → c = c'.
Proof.
  intros N (i & Hi)%list_elem_of_lookup Hc' Hx Hx'. rewrite (gather_split f _ _ _ Hi) in N. apply NoDup_app in N as (_ & N & _).
  rewrite (delete_Permutation _ _ _ Hi) in Hc'. apply elem_of_cons in Hc' as [->|Hc']; [done|]. destruct (N x Hx). apply elem_of_gather. eauto.
Qed.
Lemma length_omap {A B} (f : A → option B) (l : list A) : (length (omap f l) ≤ length l)%nat.
Proof. induction l as [|x l IH]; [done|]. cbn [omap list_omap]. destruct (f x); cbn [length]; [apply le_n_S, IH|]. etransitivity; [apply IH|apply Nat.le_succ_diag_r]. Qed.
Lemma omap_after {A B C} (g : A → option B) (f : B → option C) (h : A → option C) (l : list A) : (∀ x, x ∈ l → g x ≫= f = h x) → omap f (omap g l) = omap h l.
Proof.
  induction l as [|x l IH]; intros H; [done|]. cbn. rewrite <- (H x) by (by left). destruct (g x) as [y|]; cbn; [destruct (f y)|]; rewrite IH; try done; intros; apply H; by right.
Qed.

Section Reach.
Context (cfg : call_cfg) (Hcfg : cfg_ok cfg) (used : list (list Z)) (t : Z) (m : media) (M : media_inv cfg used t [] m).
Context (s : relay_spec) (S : sim (md_relay m) s) (Sv : serves (relay_view (lp_trace (md_loop m))) s).
Context (c : call_t) (p : call_part).
Hypothesis Hc : c ∈ lp_calls (md_loop m).
Hypothesis L : call_live c = true.

Lemma seat_entry q : q ∈ ct_parts c → pt_conn q ≠ 0 →
  ∃ x, spec_find (pt_token q) (rs_entries s) = Some x ∧ x ∈ rs_entries s ∧ who x = relay_entry c q.
Proof using M Sv Hc L.
  intros Hq Hne. destruct (ba_tokens _ _ _ _ _ (in_base _ _ _ _ _ (mi_inv _ _ _ _ _ M)) eq_refl) as (_ & _ & E).
  assert (relay_view (lp_trace (md_loop m)) !! pt_token q = Some (ct_id c, pt_user q, pt_conn q)) as HV.
  { apply E, elem_of_gather. exists c. split; [done|]. apply (ents_iff _ _ _ L). eauto. }
  apply (sv_view _ _ Sv), elem_of_who in HV as (x & Hx & Ht & Hy). exists x. rewrite <- Ht. split_and!; [|done|].
  - apply find_entry_in; [apply Sv|done].
  - unfold who, relay_entry. by rewrite Ht, Hy.
Qed.
Lemma call_entry x : x ∈ rs_entries s → en_call x = ct_id c → ∃ q, q ∈ ct_parts c ∧ pt_conn q ≠ 0 ∧ who x = relay_entry c q.
Proof using M Sv Hc L.
  intros Hx Hid. pose proof (in_base _ _ _ _ _ (mi_inv _ _ _ _ _ M)) as B. destruct (ba_tokens _ _ _ _ _ B eq_refl) as (_ & _ & E).
  assert (who x ∈ gather ents_of (lp_calls (md_loop m))) as Hin by (apply E, (sv_view _ _ Sv); by apply (list_elem_of_fmap_2 who)).
  apply elem_of_gather in Hin as (c' & Hc' & Hin). destruct (call_live c') eqn:L'; [|unfold ents_of, if_live in Hin; rewrite L' in Hin; by apply not_elem_of_nil in Hin].
  apply (ents_iff _ _ _ L') in Hin as (q & Hq & Hne & Hw). assert (c' = c) as ->; [|eauto].
  apply (gather_inj id_of _ c' c (ct_id c) (ba_id _ _ _ _ _ B)); try done; unfold id_of, if_live; rewrite ?L, ?L'; [|by left].
  injection Hw as _ Hw _ _. rewrite <- Hid, Hw. by left.
Qed.
Lemma parts_tokens : NoDup (pt_token <$> ct_parts c).
Proof using M Hc L.
  destruct (ba_tokens _ _ _ _ _ (in_base _ _ _ _ _ (mi_inv _ _ _ _ _ M)) eq_refl) as (N & _ & _).
  apply list_elem_of_lookup in Hc as (i & Hi). rewrite (gather_split _ _ _ _ Hi) in N. apply NoDup_app in N as (N & _). unfold toks_of, if_live in N. by rewrite L in N.
Qed.

Hypothesis Hp : p ∈ ct_parts c.
Hypothesis Hon : pt_conn p ≠ 0.

(** The entries a packet of [p] is sent to are the others' of its call. *)
Lemma targets_others x me ct : who x = relay_entry c p → x ∈ rs_entries s → who me = who x → nonempty ct = true →
  spec_targets (spec_update (en_token x) (fun _ => me) (rs_entries s)) me ct ≡ₚ omap (fun q => spec_find (pt_token q) (rs_entries s)) (others c p).
Proof using M Sv Hc L Hp Hon.
  intros Hw Hx Hme Hct. unfold spec_targets. rewrite Hct. set (xs := spec_update _ _ _). assert (Hwx : who <$> xs = who <$> rs_entries s) by (apply update_who; [apply Sv|done|done]).
  assert (Hmem : ∀ y, en_token y ≠ en_token x → y ∈ xs ↔ y ∈ rs_entries s).
  { intros y Hne. unfold xs, spec_update. rewrite list_elem_of_fmap. split.
    - intros (z & -> & Hz). case_bool_decide as Hz'; [|done]. injection Hme as Ht _ _ _. by rewrite Ht in Hne.
    - intros Hy. exists y. by rewrite bool_decide_eq_false_2. }
  pose proof (sv_tokens _ _ (serves_who _ _ _ Sv Hwx)) as Nxs. cbn [rs_entries] in Nxs. injection Hw as Hxt Hxc _ _. injection Hme as Hmt Hmc _ _.
  apply NoDup_Permutation.
  - apply NoDup_filter. by apply (NoDup_fmap_1 en_token).
  - apply (NoDup_fmap_1 en_token). assert (en_token <$> omap (fun q => spec_find (pt_token q) (rs_entries s)) (others c p) = pt_token <$> others c p) as ->.
    { assert (Hsub : ∀ q, q ∈ others c p → q ∈ ct_parts c ∧ pt_conn q ≠ 0) by (by intros q [[? _] ?]%list_elem_of_filter). revert Hsub. generalize (others c p). intros qs Hsub.
      induction qs as [|q qs IH]; [done|]. cbn [omap list_omap]. destruct (Hsub q ltac:(by left)) as [Hq Hne]. destruct (seat_entry q Hq Hne) as (y & -> & _ & [= Hy _]).
      rewrite !fmap_cons, IH, Hy; [done|]. intros; apply Hsub; by right. }
    apply (nodup_sub _ (pt_token <$> ct_parts c)); [|apply parts_tokens]. apply fmap_submseteq, sublist_submseteq, sublist_filter.
  - intros y. rewrite list_elem_of_filter, list_elem_of_omap. rewrite Hmc, Hmt, Hxc. split.
    + intros [[Hyc Hyt] Hy]. apply Hmem in Hy; [|done]. destruct (call_entry y Hy Hyc) as (q & Hq & Hne & Hyw). injection Hyw as Hyq _ _ _. exists q. split.
      * apply list_elem_of_filter. split; [|done]. split; [done|]. by rewrite <- Hyq, <- Hxt.
      * rewrite <- Hyq. apply find_entry_in; [apply Sv|done].
    + intros (q & [[Hne Hqt] Hq]%list_elem_of_filter & Hf). destruct (seat_entry q Hq Hne) as (z & Hz & Hin & Hzw). rewrite Hz in Hf. injection Hf as <-. injection Hzw as Hzt Hzc _ _.
      assert (en_token z ≠ en_token x) by (by rewrite Hzt, Hxt). split; [done|]. by apply Hmem.
Qed.
Lemma forward_reaches sendmmsg x me seq ct : who x = relay_entry c p → x ∈ rs_entries s → who me = who x → nonempty ct = true →
  zlen ct <= OC_AUDIO_MAX_PACKET - OC_AUDIO_S2C_HDR →
  ∃ ts ds, spec_forward true sendmmsg (spec_update (en_token x) (fun _ => me) (rs_entries s)) me seq ct = (ts, send_loop (length ds) sendmmsg ds) ∧
    ts ≡ₚ omap (tcp_to (md_relay m) (pt_user p) seq ct) (others c p) ∧
    ds ≡ₚ omap (udp_to (md_relay m) (be64 (pt_user p) ++ be16 seq ++ ct)) (others c p).
Proof using Hcfg M S Sv Hc L Hp Hon.
  intros Hw Hx Hme Hct Hlen. pose proof (targets_others x me ct Hw Hx Hme Hct) as HP. unfold spec_forward. rewrite (proj2 (Z.ltb_ge _ _)) by lia.
  set (targets := spec_targets _ me ct) in *. set (found := fun q => spec_find (pt_token q) (rs_entries s)) in *.
  assert (en_user me = pt_user p) as Hu by (rewrite Hw in Hme; by injection Hme). rewrite Hu. rewrite fan_all.
  2:{ pose proof (Permutation_length HP) as Hl. assert (length (omap found (others c p)) ≤ length (ct_parts c))%nat as Hle.
      { transitivity (length (others c p)); [apply length_omap|apply length_filter]. }
      pose proof (proj1 (Forall_forall _ _) (in_rows _ _ _ _ _ (mi_inv _ _ _ _ _ M)) c Hc L) as [[Hmax _ _ _ _ _ _ _ _ _ _ _] _].
      destruct Hcfg as [[_ H32] _]. unfold zlen in *. lia. }
  do 2 eexists. split; [done|]. assert (Hsub : ∀ q, q ∈ others c p → q ∈ ct_parts c ∧ pt_conn q ≠ 0) by (by intros q [[? _] ?]%list_elem_of_filter).
  split; (etransitivity; [by apply omap_Permutation|]); erewrite omap_after; try done; intros q Hq; destruct (Hsub q Hq) as [Hq1 Hq2];
    destruct (seat_entry q Hq1 Hq2) as (y & Hy & _ & [= _ _ _ Hyc]); unfold found; rewrite Hy; unfold tcp_to, udp_to, fan_tcp, fan_udp; pose proof (row_entry _ s (pt_token q) S) as Hr; rewrite Hy in Hr;
    destruct (relay_row (md_relay m) (pt_token q)) as [z|]; try done; injection Hr as <-; cbn [mbind option_bind]; cbn in Hyc |- *; [by rewrite Hyc|].
  destruct (rp_tcp z); [done|]. by destruct (rp_addr_known z).
Qed.
End Reach.

(** [out] is a packet of [p] to each of the others of its call. *)
Definition fans_out (sendmmsg : list datagram → Z) (m : media) (c : call_t) (p : call_part) (seq : Z) (ct : list Z) (out : sent) : Prop :=
  ∃ ts ds, out = (ts, send_loop (length ds) sendmmsg ds) ∧
    ts ≡ₚ omap (tcp_to (md_relay m) (pt_user p) seq ct) (others c p) ∧
    ds ≡ₚ omap (udp_to (md_relay m) (be64 (pt_user p) ++ be16 seq ++ ct)) (others c p).

Lemma entry_seat cfg used t m s x : media_inv cfg used t [] m → serves (relay_view (lp_trace (md_loop m))) s → x ∈ rs_entries s →
  ∃ c q, c ∈ lp_calls (md_loop m) ∧ call_live c = true ∧ q ∈ ct_parts c ∧ pt_conn q ≠ 0 ∧ who x = relay_entry c q.
Proof.
  intros M Sv Hx. destruct (ba_tokens _ _ _ _ _ (in_base _ _ _ _ _ (mi_inv _ _ _ _ _ M)) eq_refl) as (_ & _ & E).
  assert (who x ∈ gather ents_of (lp_calls (md_loop m))) as Hin by (apply E, (sv_view _ _ Sv); by apply (list_elem_of_fmap_2 who)).
  apply elem_of_gather in Hin as (c & Hc & Hin). destruct (call_live c) eqn:L; [|unfold ents_of, if_live in Hin; rewrite L in Hin; by apply not_elem_of_nil in Hin].
  apply (ents_iff _ _ _ L) in Hin as (q & Hq & Hne & Hw). by exists c, q.
Qed.
Lemma entry_length cfg used t m s x : media_inv cfg used t [] m → serves (relay_view (lp_trace (md_loop m))) s → x ∈ rs_entries s →
  zlen (en_token x) = zlen (cfg_prefix cfg) + 16.
Proof.
  intros M Sv Hx. assert (relay_view (lp_trace (md_loop m)) !! en_token x = Some (en_call x, en_user x, en_conn x)) as HV by (apply (sv_view _ _ Sv); by apply (list_elem_of_fmap_2 who)).
  destruct (view_token cfg used t _ _ _ (mi_inv _ _ _ _ _ M) HV) as (r & Hr & ->). rewrite zlen_app. by rewrite (proj1 (Forall_forall _ _) (mi_used _ _ _ _ _ M) r Hr).
Qed.
Lemma reach_media cfg demo inet6 evs : cfg_ok cfg → media_ok evs → ∃ m used t s, media_run cfg evs (media_init demo inet6) = Some m ∧
  media_inv cfg used t [] m ∧ sim (md_relay m) s ∧ serves (relay_view (lp_trace (md_loop m))) s.
Proof.
  intros Hcfg (Hok & N & Hn). destruct (media_run_ok cfg Hcfg evs [] 0 _ (media_init_inv cfg demo inet6) Hok N) as (m & used & E & M); [by intros r ?%not_elem_of_nil|lia|].
  destruct (mi_relay _ _ _ _ _ M) as (s & S & Sv). rewrite without_nil in Sv. by exists m, used, (0 + Z.of_nat (length evs)), s.
Qed.

Lemma packet_fields tok hi lo (ct : list Z) : let pkt := tok ++ hi :: lo :: ct in
  nth (Z.to_nat (zlen tok)) pkt 0 = hi ∧ nth (Z.to_nat (zlen tok + 1)) pkt 0 = lo ∧ zdrop (zlen tok + 2) pkt = ct.
Proof.
  intros pkt. unfold zdrop, zlen. replace (Z.to_nat (Z.of_nat (length tok) + 1)) with (length tok + 1)%nat by lia.
  replace (Z.to_nat (Z.of_nat (length tok) + 2)) with (length tok + 2)%nat by lia. rewrite Nat2Z.id. unfold pkt.
  rewrite !app_nth2, drop_app_add by lia. rewrite Nat.sub_diag. replace (length tok + 1 - length tok)%nat with 1%nat by lia. done.
Qed.

(** C7: media over a connection reaches the sender's call and no one else.
    The loop and its relay together, from the start, through any joins, leaves,
    moves, lost connections, packets and sweeps: every call into the relay
    returns, and afterwards a CALL_MEDIA packet of a participant is sent to each
    other participant of its call that is on a connection, over the connection
    if that one last sent that way and to its learned address otherwise, once
    each and to nobody else; neither the relay's table nor its 32 datagrams run
    out.  A connection that is in no call is refused. *)
Theorem media_reaches_call cfg demo inet6 evs : cfg_ok cfg → media_ok evs →
  ∃ m, media_run cfg evs (media_init demo inet6) = Some m ∧
  (∀ c p sendmmsg now seq ct, c ∈ lp_calls (md_loop m) → call_live c = true → p ∈ ct_parts c → pt_conn p ≠ 0 →
    nonempty ct = true → zlen ct <= OC_AUDIO_MAX_PACKET - OC_AUDIO_S2C_HDR →
    ∃ r out, oc_relay_from_tcp sendmmsg now (md_relay m) (pt_conn p) seq ct = Some (0, r, out) ∧ fans_out sendmmsg m c p seq ct out) ∧
  (∀ cid sendmmsg now seq ct, (∀ c, c ∈ lp_calls (md_loop m) → call_live c = true → cid ∉ pt_conn <$> ct_parts c) →
    ∃ r, oc_relay_from_tcp sendmmsg now (md_relay m) cid seq ct = Some (-1, r, ([], []))).
Proof.
  intros Hcfg Hok. destruct (reach_media cfg demo inet6 evs Hcfg Hok) as (m & used & t & s & E & M & S & Sv). exists m. split_and!; [done| |].
  - intros c p sendmmsg now seq ct Hc L Hp Hon Hct Hlen. destruct (from_tcp_ok sendmmsg now (md_relay m) s (pt_conn p) seq ct S) as (r & H).
    rewrite (proj2 (mi_hooks _ _ _ _ _ M)) in H. unfold spec_from_tcp in H. destruct (seat_entry cfg used t m M s Sv c Hc L p Hp Hon) as (x & Hf & Hx & Hw).
    rewrite (proj2 (sv_conn _ _ Sv (pt_conn p) (pt_token p))) in H; [|exists (ct_id c), (pt_user p); apply elem_of_who; exists x; injection Hw as ????; split_and!; congruence].
    cbn [mbind option_bind] in H. rewrite Hf in H. destruct H as (H & _). rewrite H. do 2 eexists. split; [done|].
    by apply (forward_reaches cfg Hcfg used t m M s S Sv c p Hc L Hp Hon).
  - intros cid sendmmsg now seq ct Hno. destruct (from_tcp_ok sendmmsg now (md_relay m) s cid seq ct S) as (r & H). exists r. unfold spec_from_tcp in H.
    destruct (rs_conn s !! cid) as [tok|] eqn:Ec; [|by destruct H as (-> & _)]. exfalso. apply (sv_conn _ _ Sv) in Ec as (id & u & (x & Hx & _ & [= _ _ Hxc])%elem_of_who).
    destruct (entry_seat cfg used t m s x M Sv Hx) as (c & q & Hc & L & Hq & _ & Hw). injection Hw as _ _ _ Hw. apply (Hno c Hc L). rewrite <- Hxc, Hw. by apply list_elem_of_fmap_2.
Qed.

(** C9: media by datagram reaches the sender's call and no one else.  After
    any such run, a datagram that starts with a participant's token, from its
    address if one is known, goes to the others of its call as a packet over its
    connection would; a datagram that starts with no participant's token makes
    the relay send nothing. *)
Theorem datagram_reaches_call cfg demo inet6 evs : cfg_ok cfg → media_ok evs →
  ∃ m, media_run cfg evs (media_init demo inet6) = Some m ∧
  (∀ c p sendmmsg a hi lo ct, c ∈ lp_calls (md_loop m) → call_live c = true → p ∈ ct_parts c → pt_conn p ≠ 0 →
    ar_bytes a = pt_token p ++ hi :: lo :: ct → zlen (ar_bytes a) <= OC_AUDIO_MAX_PACKET → nonempty ct = true →
    (∀ x, relay_row (md_relay m) (pt_token p) = Some x → rp_addr_known x = true → same_peer x (ar_src a) = true) →
    ∃ r out, relay_one sendmmsg (md_relay m) a = Some (r, out) ∧ fans_out sendmmsg m c p (Z.lor (Z.shiftl hi 8) lo) ct out) ∧
  (∀ sendmmsg a, (∀ c p, c ∈ lp_calls (md_loop m) → call_live c = true → p ∈ ct_parts c → pt_conn p ≠ 0 → ¬ pt_token p `prefix_of` ar_bytes a) →
    ∃ r, relay_one sendmmsg (md_relay m) a = Some (r, ([], []))).
Proof.
  intros Hcfg Hok. destruct (reach_media cfg demo inet6 evs Hcfg Hok) as (m & used & t & s & E & M & S & Sv). exists m. split_and!; [done| |].
  - intros c p sendmmsg a hi lo ct Hc L Hp Hon Hb Hlen Hct Hsrc. destruct (datagram_ok sendmmsg (md_relay m) s a S) as (r & H).
    destruct (seat_entry cfg used t m M s Sv c Hc L p Hp Hon) as (x & Hf & Hx & Hw). pose proof Hw as [= Hxt _ _ _].
    pose proof (entry_length cfg used t m s x M Sv Hx) as Hxl. rewrite Hxt in Hxl. rewrite (proj2 (mi_hooks _ _ _ _ _ M)) in H. unfold spec_datagram in H.
    destruct (rs_entries s) as [|x0 xs] eqn:Es; [by apply not_elem_of_nil in Hx|]. rewrite <- Es in *.
    assert (Hx0 : zlen (en_token x0) = zlen (pt_token p)) by (rewrite Hxl; apply (entry_length cfg used t m s x0 M Sv); rewrite Es; by left).
    destruct (packet_fields (pt_token p) hi lo ct) as (Hhi & Hlo & Hrest). rewrite Hx0, Hb, (ztake_all OC_AUDIO_MAX_PACKET) in H by (by rewrite <- Hb).
    rewrite ztake_app_eq, Hf in H by done. assert (Hz : zlen (pt_token p ++ hi :: lo :: ct) = zlen (pt_token p) + 2 + zlen ct) by (rewrite zlen_app; unfold zlen; cbn; lia).
    pose proof (zlen_nonneg ct). rewrite (proj2 (Z.ltb_ge _ _)) in H by lia. pose proof (row_entry (md_relay m) s (pt_token p) S) as Hr. rewrite Hf in Hr.
    destruct (relay_row (md_relay m) (pt_token p)) as [z|] eqn:Erow; [|done]. injection Hr as <-.
    rewrite <- same_peer_entry in H. assert (rp_addr_known z && negb (same_peer z (ar_src a)) = false) as Hok'.
    { destruct (rp_addr_known z) eqn:Ek; [|done]. by rewrite (Hsrc z eq_refl Ek). }
    rewrite Hok' in H. cbn [orb] in H. cbv iota zeta in H. rewrite Hhi, Hlo, Hrest in H. destruct H as (H & _). rewrite H. do 2 eexists. split; [done|].
    apply (forward_reaches cfg Hcfg used t m M s S Sv c p Hc L Hp Hon); try done; [unfold spec_learn; by destruct (en_peer _)|].
    rewrite Hb, Hz in Hlen. unfold OC_AUDIO_MAX_PACKET, OC_AUDIO_S2C_HDR in *. pose proof (zlen_nonneg (cfg_prefix cfg)). lia.
  - intros sendmmsg a Hno. destruct (datagram_ok sendmmsg (md_relay m) s a S) as (r & H). exists r. unfold spec_datagram in H.
    destruct (rs_entries s) as [|x0 xs] eqn:Es; [by destruct H as (-> & _)|]. rewrite <- Es in *. set (tok := ztake (zlen (en_token x0)) _) in H.
    pose proof (find_entry tok (rs_entries s)) as Hf. destruct (spec_find tok (rs_entries s)) as [x|]; [|by destruct H as (-> & _)]. destruct Hf as [Hx Ht].
    destruct (entry_seat cfg used t m s x M Sv Hx) as (c & q & Hc & L & Hq & Hne & Hw). injection Hw as Hw _ _ _. destruct (Hno c q Hc L Hq Hne).
    rewrite <- Hw, Ht. unfold tok, ztake. rewrite take_take. apply prefix_take.
Qed.

(** ** A run *)

(** Users 7 and 8 are in the call of conversation 9, on connections 1 and 2; a
    datagram of 8 has told the relay where 8 is, and 7 has sent over its connection. *)
Definition ex_media : list (call_env * media_event) :=
  [(ex_env 1, MCall EvOpen); (ex_env 2, MCall EvOpen); (ex_env 3, MCall (EvAuthOk 1 7)); (ex_env 4, MCall (EvAuthOk 2 8));
   (ex_env 5, MCall (EvFrame 1 M_JOIN (ex_join 9))); (ex_env 6, MCall (EvAnswer 0 ex_db));
   (ex_env 7, MCall (EvFrame 2 M_JOIN (ex_join 9))); (ex_env 8, MCall (EvAnswer 0 ex_db));
   (ex_env 9, MReadable takes_all [mk_arrival (1 :: replicate 16 8 ++ [0; 1; 55]) ex_peer [] 1009]);
   (ex_env 10, MFrame takes_all 1 [0; 3; 0; 0; 0; 2; 66; 67]); (ex_env 11, MSweep 0)].
Lemma ex_media_ok : cfg_ok ex_cfg ∧ media_ok ex_media.
Proof.
  split; [apply ex_short|]. split; [|split].
  - unfold ex_media. repeat (apply list.Forall_cons; split; [split_and!; cbn [fst snd media_event_ok]; [ex_event|first [exact Logic.I|split; [ex_event|by intros]]|eexists; reflexivity]|]). apply list.Forall_nil_2.
  - apply (bool_decide_unpack _). vm_compute. exact I.
  - done.
Qed.
Definition ex_after : media := default (media_init false false) (media_run ex_cfg ex_media (media_init false false)).
Definition ex_seats : list call_part := ct_parts (call_at 0 (md_loop ex_after)).
Example ex_seats_are : map (fun p => (pt_user p, pt_conn p)) ex_seats = [(7, 1); (8, 2)].
Proof. vm_compute. reflexivity. Qed.

Lemma media_reaches_call_witness : ∃ r out,
  oc_relay_from_tcp takes_all 1100 (md_relay ex_after) 1 5 [66; 67] = Some (0, r, out) ∧
  out = ([], [mk_datagram ex_peer None (be64 7 ++ be16 5 ++ [66; 67])]).
Proof.
  destruct (media_reaches_call ex_cfg false false ex_media (proj1 ex_media_ok) (proj2 ex_media_ok)) as (m & E & H & _).
  assert (m = ex_after) as -> by (unfold ex_after; rewrite E; reflexivity).
  destruct (H (call_at 0 (md_loop ex_after)) (nth 0 ex_seats part_zero) takes_all 1100 5 [66; 67]) as (r & out & Er & ts & ds & Eo & Hts & Hds).
  - apply (list_elem_of_lookup_2 _ 0). vm_compute. reflexivity.
  - vm_compute. reflexivity.
  - apply (list_elem_of_lookup_2 _ 0). vm_compute. reflexivity.
  - vm_compute. discriminate.
  - reflexivity.
  - vm_compute. discriminate.
  - exists r, out. split; [exact Er|]. assert (ts = []) as -> by (apply Permutation_nil; symmetry; etransitivity; [exact Hts|]; vm_compute; reflexivity).
    assert (ds = [mk_datagram ex_peer None (be64 7 ++ be16 5 ++ [66; 67])]) as ->.
    { apply Permutation_length_1_inv. symmetry. etransitivity; [exact Hds|]. vm_compute. reflexivity. }
    rewrite Eo. vm_compute. reflexivity.
Defined.
Lemma datagram_reaches_call_witness : ∃ r out,
  relay_one takes_all (md_relay ex_after) (mk_arrival (1 :: replicate 16 8 ++ [0; 2; 77]) ex_peer [] 1100) = Some (r, out) ∧
  out = ([mk_tcp_packet 1 8 2 [77]], []).
Proof.
  destruct (datagram_reaches_call ex_cfg false false ex_media (proj1 ex_media_ok) (proj2 ex_media_ok)) as (m & E & H & _).
  assert (m = ex_after) as -> by (unfold ex_after; rewrite E; reflexivity).
  destruct (H (call_at 0 (md_loop ex_after)) (nth 1 ex_seats part_zero) takes_all (mk_arrival (1 :: replicate 16 8 ++ [0; 2; 77]) ex_peer [] 1100) 0 2 [77]) as (r & out & Er & ts & ds & Eo & Hts & Hds).
  - apply (list_elem_of_lookup_2 _ 0). vm_compute. reflexivity.
  - vm_compute. reflexivity.
  - apply (list_elem_of_lookup_2 _ 1). vm_compute. reflexivity.
  - vm_compute. discriminate.
  - vm_compute. reflexivity.
  - vm_compute. discriminate.
  - reflexivity.
  - intros x Hx _. vm_compute in Hx. injection Hx as <-. vm_compute. reflexivity.
  - exists r, out. split; [exact Er|]. assert (ds = []) as -> by (apply Permutation_nil; symmetry; etransitivity; [exact Hds|]; vm_compute; reflexivity).
    assert (ts = [mk_tcp_packet 1 8 2 [77]]) as ->.
    { apply Permutation_length_1_inv. symmetry. etransitivity; [exact Hts|]. vm_compute. reflexivity. }
    rewrite Eo. vm_compute. reflexivity.
Defined.
