(* ===== verification/Pdm.v ===== *)
(** * Encrypted DMs on the network loop: [daemon/netloop.c]

    An encrypted DM joins two devices: the opener's connection, and whichever of
    the peer's connections answers the invitation first.  [pdm_t] is a row of
    [g_pdms]; a side keeps its place for the session that holds it while its
    connection is away, and the frames for it wait in [pd_q].

    The connections are those of [Calls]: [pl_net] holds their ids, users and
    output, [pl_extra] the rest this part reads of a connection.  [pl_trace] keeps
    what happened, in order: sign-ins, the session each side is bound to, the
    frames given to connections, those accepted for a side ([Took]) and then
    written to it ([Gave]) or dropped because its connection's output was full
    ([Lost]), the connections a result went to, and the jobs.

    The writer may use the id of a DM that is gone for a new one.  So that the
    trace tells them apart, [pl_serial] numbers the DMs as their channels are
    made; [pd_serial] is a row's number.  Nothing the daemon does reads them.

    Allocations succeed and the clock is read once per event.  A step is [None]
    when the daemon reads through a null pointer. *)
From stdpp Require Import base tactics list numbers gmap strings.
From S2P Require Import Prelude.
From S2P Require Import Wire.
From S2P Require Import ProtoTypes.
From S2P Require Import ProtoCall.
From S2P Require Import ProtoChannel.
From S2P Require Import ProtoUsers.
From S2P Require Import Demolimits.
From S2P Require Import Outq.
From S2P Require Import Calls.
Local Open Scope Z_scope.
Local Open Scope oc_scope.

Definition OC_PDM_MAX : nat := 256.
Definition OC_PDM_PER_USER : Z := 16.
Definition OC_PDM_QUEUE_MAX : Z := 64.
Definition OC_PDM_HOLD_MS : Z := 86400000.
Definition OC_PDM_RATE_MAX : Z := 30.
Definition OC_PDM_RATE_MS : Z := 10000.
Definition OC_SEND_RATE_WINDOW_MS : Z := 3000.
Definition OC_CHANNEL_KIND_DM : Z := 1.

Inductive pdm_reason :=
  | OC_PDM_END_CLOSED | OC_PDM_END_TAKEN | OC_PDM_END_GONE | OC_PDM_END_LOST | OC_PDM_END_REFUSED | OC_PDM_END_DECLINED.
Definition pdm_reason_code (r : pdm_reason) : Z :=
  match r with
  | OC_PDM_END_CLOSED => 1 | OC_PDM_END_TAKEN => 2 | OC_PDM_END_GONE => 3
  | OC_PDM_END_LOST => 4 | OC_PDM_END_REFUSED => 5 | OC_PDM_END_DECLINED => 6
  end.

(** ** Data *)

(** The arrays of two: [0] the opener, [1] the peer. *)
Inductive side := Opener | Peer.
#[export] Instance side_eq_dec : EqDecision side.
Proof. solve_decision. Defined.
Definition other (s : side) : side := match s with Opener => Peer | Peer => Opener end.
Record two (A : Type) := mk_two { at_opener : A; at_peer : A }.
Arguments mk_two {A} _ _.
Arguments at_opener {A} _.
Arguments at_peer {A} _.
Definition at_side {A} (x : two A) (s : side) : A := match s with Opener => at_opener x | Peer => at_peer x end.
Definition set_side {A} (s : side) (v : A) (x : two A) : two A :=
  match s with Opener => mk_two v (at_peer x) | Peer => mk_two (at_opener x) v end.

Inductive pdm_frame :=
  | FOpened (m : oc_pdm_opened)
  | FInvite (m : oc_pdm_invite)
  | FInfo (m : oc_channel_info)
  | FHsFor (m : oc_pdm_hs)
  | FMsg (m : oc_pdm_msg)
  | FEnd (m : oc_pdm_end)
  | FRefusal (m : oc_error).
Definition pdm_encoder (fr : pdm_frame) : encoder :=
  match fr with
  | FOpened m => oc_encode_pdm_opened OC_PROTOCOL_VERSION m
  | FInvite m => oc_encode_pdm_invite OC_PROTOCOL_VERSION m
  | FInfo m => oc_encode_channel_info OC_PROTOCOL_VERSION m
  | FHsFor m => oc_encode_pdm_hs OC_PROTOCOL_VERSION OC_MSG_PDM_HS_FOR m
  | FMsg m => oc_encode_pdm_msg OC_PROTOCOL_VERSION OC_MSG_PDM_MSG m
  | FEnd m => oc_encode_pdm_end OC_PROTOCOL_VERSION m
  | FRefusal m => oc_encode_error OC_PROTOCOL_VERSION m
  end.
(** The frame's bytes in a buffer of [cap]. *)
Definition pdm_bytes (cap : Z) (fr : pdm_frame) : option (list Z) :=
  let '(r, w) := pdm_encoder fr (oc_wbuf_init (replicate (Z.to_nat cap) 0) cap) in
  if bool_decide (r = OC_OK) then Some (ztake (w_len w) (w_data w)) else None.

(** A frame with its bytes. *)
Definition ready : Type := pdm_frame * list Z.
Record pdm_t := mk_pdm {
  pd_used : bool;
  pd_id : Z;
  pd_accepted : bool;
  pd_user : two Z;
  pd_session : two Z;
  pd_conn : two Z;
  pd_away : two Z;
  pd_q : two (list ready);
  pd_hs1 : list Z;
  pd_peer_info : option ready;
  pd_created : Z;
  pd_serial : Z }.
#[export] Instance pdm_eta : Eta pdm_t := fun d =>
  mk_pdm (pd_used d) (pd_id d) (pd_accepted d) (pd_user d) (pd_session d) (pd_conn d) (pd_away d) (pd_q d) (pd_hs1 d)
    (pd_peer_info d) (pd_created d) (pd_serial d).
Definition pdm_zero : pdm_t :=
  mk_pdm false 0 false (mk_two 0 0) (mk_two 0 0) (mk_two 0 0) (mk_two 0 0) (mk_two [] []) [] None 0 0.

(** What this part reads of a connection besides [Calls.conn]. *)
Record pextra := mk_pextra { px_session : Z; px_rl : rate_win; px_send : rate_win; px_send_max : Z }.
#[export] Instance pextra_eta : Eta pextra := fun x => mk_pextra (px_session x) (px_rl x) (px_send x) (px_send_max x).

(** [Fanned]: by [fanout_members], with the number of the live DM of that channel;
    [Replied]: a thread reply; [Told]: by [send_to_user]. *)
Inductive pdm_effect :=
  | SignedIn (cid user session : Z)
  | Bound (n : Z) (s : side) (user session : Z)
  | PSent (cid : Z) (fr : pdm_frame)
  | Took (n : Z) (s : side) (accepted : bool) (fr : pdm_frame)
  | Gave (n : Z) (s : side) (cid : Z) (fr : pdm_frame)
  | Lost (n : Z) (s : side) (cid : Z) (fr : pdm_frame)
  | Fanned (channel : Z) (dm : option Z) (cid : Z)
  | Replied (channel : Z) (cid : Z)
  | Told (channel : Z) (cid : Z)
  | OpenJob (cid user peer : Z)
  | CloseJob (channel : Z).

Record ploop := mk_ploop {
  pl_net : loop;
  pl_extra : gmap Z pextra;
  pl_pdms : list pdm_t;
  pl_serial : Z;
  pl_trace : list pdm_effect }.
#[export] Instance ploop_eta : Eta ploop := fun l => mk_ploop (pl_net l) (pl_extra l) (pl_pdms l) (pl_serial l) (pl_trace l).
Definition ploop_init (demo : bool) : ploop := mk_ploop (loop_init demo) ∅ (replicate OC_PDM_MAX pdm_zero) 0 [].

Definition pnote (x : pdm_effect) (l : ploop) : ploop := l <| pl_trace := pl_trace l ++ [x] |>.
Definition pconn (cid : Z) (l : ploop) : option conn := find_by_id cid (pl_net l).
Definition extra (cid : Z) (l : ploop) : pextra := default (mk_pextra 0 (mk_rate_win 0 0) (mk_rate_win 0 0) 0) (pl_extra l !! cid).
Definition put_extra (cid : Z) (x : pextra) (l : ploop) : ploop := l <| pl_extra := <[cid := x]> (pl_extra l) |>.
Definition pusers (uid : Z) (l : ploop) : list Z := user_conns uid (pl_net l).
Definition pdm_at (i : nat) (l : ploop) : pdm_t := nth i (pl_pdms l) pdm_zero.
Definition put_pdm (i : nat) (d : pdm_t) (l : ploop) : ploop := l <| pl_pdms := <[i := d]> (pl_pdms l) |>.

(** ** Lookups *)

Definition pdm_find (id : Z) (l : ploop) : option nat :=
  if id =? 0 then None else find_index (fun d => pd_used d && (pd_id d =? id)) (pl_pdms l).
Definition pdm_count_of (uid : Z) (l : ploop) : Z :=
  zlen (filter (fun d => Is_true (pd_used d && ((at_opener (pd_user d) =? uid) || (at_peer (pd_user d) =? uid)))) (pl_pdms l)).
Definition pdm_side_of (d : pdm_t) (cid : Z) : option side :=
  if negb (cid =? 0) && (at_opener (pd_conn d) =? cid) then Some Opener
  else if negb (cid =? 0) && (at_peer (pd_conn d) =? cid) then Some Peer
  else None.

(** ** Sending *)

(** The bytes given to a connection, as [call_send] does. *)
Definition hand (e : call_env) (buf : list Z) (cid : Z) (c : conn) (l : ploop) : ploop :=
  l <| pl_net := put_conn cid (c <| cn_out := presence_send (e_io e cid) (cn_out c) buf |>) (pl_net l) |>.
(** Whether the connection's output has room for the bytes: [presence_send] drops
    them when it has not. *)
Definition takes (c : conn) (buf : list Z) : bool := fst (out_append (cn_out c) buf).
Definition pdm_send (e : call_env) (fr : ready) (cid : Z) (l : ploop) : ploop :=
  match pconn cid l with
  | None => l
  | Some c =>
      let l := hand e (snd fr) cid c l in
      if takes c (snd fr) then pnote (PSent cid (fst fr)) l else l
  end.
Definition pdm_give (e : call_env) (n : Z) (s : side) (fr : ready) (cid : Z) (l : ploop) : ploop :=
  match pconn cid l with
  | None => l
  | Some c => pnote (if takes c (snd fr) then Gave n s cid (fst fr) else Lost n s cid (fst fr)) (hand e (snd fr) cid c l)
  end.
(** [out_append] to a connection, without a flush; [false] when it does not fit. *)
Definition pdm_append (fr : ready) (cid : Z) (l : ploop) : bool * ploop :=
  match pconn cid l with
  | None => (true, l)
  | Some c =>
      let '(ok, q) := out_append (cn_out c) (snd fr) in
      let l := l <| pl_net := put_conn cid (c <| cn_out := q |>) (pl_net l) |> in
      (ok, if ok then pnote (PSent cid (fst fr)) l else l)
  end.

Definition pdm_free (i : nat) (l : ploop) : ploop :=
  let d := pdm_at i l in
  put_pdm i pdm_zero (if pd_id d =? 0 then l else pnote (CloseJob (pd_id d)) l).

(** [false] when the queue is full. *)
Definition pdm_deliver (e : call_env) (i : nat) (s : side) (fr : ready) (l : ploop) : bool * ploop :=
  let d := pdm_at i l in
  let cid := at_side (pd_conn d) s in
  let took l := pnote (Took (pd_serial d) s (pd_accepted d) (fst fr)) l in
  if negb (cid =? 0) && bool_decide (is_Some (pconn cid l)) then (true, pdm_give e (pd_serial d) s fr cid (took l))
  else if OC_PDM_QUEUE_MAX <=? zlen (at_side (pd_q d) s) then (false, l)
  else (true, put_pdm i (d <| pd_q := set_side s (at_side (pd_q d) s ++ [fr]) (pd_q d) |>) (took l)).

Definition pdm_end_frame (id : Z) (reason : pdm_reason) : option ready :=
  let fr := FEnd (mk_oc_pdm_end id (pdm_reason_code reason)) in
  buf ← pdm_bytes 64 fr; Some (fr, buf).
Definition pdm_send_end (e : call_env) (cid id : Z) (reason : pdm_reason) (l : ploop) : ploop :=
  match pdm_end_frame id reason with Some fr => pdm_send e fr cid l | None => l end.
Definition pdm_withdraw_invite (e : call_env) (i : nat) (except_conn : Z) (reason : pdm_reason) (l : ploop) : ploop :=
  let d := pdm_at i l in
  foldl (fun l cid => if cid =? except_conn then l else pdm_send_end e cid (pd_id d) reason l) l (pusers (at_peer (pd_user d)) l).
(** [ended_by] is [None] for neither side. *)
Definition pdm_end (e : call_env) (i : nat) (ended_by : option side) (reason : pdm_reason) (l : ploop) : ploop :=
  let d := pdm_at i l in
  let tell s l := if bool_decide (ended_by = Some s) || (at_side (pd_conn d) s =? 0) then l
                  else pdm_send_end e (at_side (pd_conn d) s) (pd_id d) reason l in
  pdm_free i
    (if pd_accepted d then tell Peer (tell Opener l)
     else tell Opener (pdm_withdraw_invite e i 0 match reason with OC_PDM_END_CLOSED => OC_PDM_END_GONE | r => r end l)).

(** ** Connections come and go *)

Definition row_conn_closed (now cid : Z) (d : pdm_t) : pdm_t :=
  match (if pd_used d then pdm_side_of d cid else None) with
  | None => d
  | Some s => d <| pd_conn := set_side s 0 (pd_conn d) |> <| pd_away := set_side s now (pd_away d) |>
  end.
Definition pdm_conn_closed (e : call_env) (cid : Z) (l : ploop) : ploop :=
  l <| pl_pdms := map (row_conn_closed (e_now e) cid) (pl_pdms l) |>.
(** [conn_close], of which the DMs are told when the connection was signed in. *)
Definition pconn_close (e : call_env) (cid : Z) (l : ploop) : ploop :=
  match pconn cid l with
  | None => l
  | Some c =>
      let l := l <| pl_net := conn_close e cid (pl_net l) |> in
      if cn_authed c then pdm_conn_closed e cid l else l
  end.

Definition invite_frame (d : pdm_t) : pdm_frame :=
  FInvite (mk_oc_pdm_invite (pd_id d) (at_opener (pd_user d)) (pd_hs1 d)).
(** Side [s] of row [i] on connection [cid], which has just signed in. *)
Definition attach_side (e : call_env) (cid uid sid : Z) (i : nat) (l : ploop) (s : side) : ploop :=
  let d := pdm_at i l in
  if negb (at_side (pd_user d) s =? uid) || negb (at_side (pd_session d) s =? sid) || (at_side (pd_session d) s =? 0) ||
     negb (at_side (pd_conn d) s =? 0) then l
  else
    let l := put_pdm i (d <| pd_conn := set_side s cid (pd_conn d) |> <| pd_away := set_side s 0 (pd_away d) |>
                          <| pd_q := set_side s [] (pd_q d) |>) l in
    foldl (fun l fr => pdm_give e (pd_serial d) s fr cid l) l (at_side (pd_q d) s).
Definition attach_row (e : call_env) (cid uid sid : Z) (l : ploop) (i : nat) : ploop :=
  let d := pdm_at i l in
  if negb (pd_used d) || (pd_id d =? 0) then l
  else
    let l := attach_side e cid uid sid i (attach_side e cid uid sid i l Opener) Peer in
    let d := pdm_at i l in
    if negb (pd_accepted d) && (at_peer (pd_user d) =? uid) then
      match pdm_bytes OC_MAX_FRAME_SIZE (invite_frame d) with
      | Some buf => pdm_send e (invite_frame d, buf) cid l
      | None => l
      end
    else l.
Definition pdm_attach (e : call_env) (cid : Z) (l : ploop) : ploop :=
  match pconn cid l with
  | None => l
  | Some c => foldl (attach_row e cid (cn_user c) (px_session (extra cid l))) l (seq 0 OC_PDM_MAX)
  end.

Definition expire_side (e : call_env) (i : nat) (l : ploop) (s : side) : ploop :=
  let d := pdm_at i l in
  if pd_used d && negb (at_side (pd_away d) s =? 0) && (OC_PDM_HOLD_MS <=? u64 (e_now e - at_side (pd_away d) s))
  then pdm_end e i (Some s) OC_PDM_END_GONE l else l.
Definition expire_row (e : call_env) (l : ploop) (i : nat) : ploop :=
  let d := pdm_at i l in
  if negb (pd_used d) then l
  else if negb (pd_accepted d) && (OC_PDM_HOLD_MS <=? u64 (e_now e - pd_created d)) then pdm_end e i None OC_PDM_END_GONE l
  else expire_side e i (expire_side e i l Opener) Peer.
Definition pdm_expire (e : call_env) (l : ploop) : ploop := foldl (expire_row e) l (seq 0 OC_PDM_MAX).

(** ** The channel was made, or not *)

(** The result of the writer for an encrypted DM: channel 0 when it was not made. *)
Record pdm_made := mk_made { ma_conn : Z; ma_peer : Z; ma_channel : Z; ma_created : Z }.
Definition dm_info (r : pdm_made) (peer_id : Z) : pdm_frame :=
  FInfo (mk_oc_channel_info (ma_channel r) OC_CHANNEL_KIND_DM [] 0 1 (ma_created r) peer_id [] 0 0 [] 1).
Definition in_g_enc (fr : pdm_frame) : option ready := buf ← pdm_bytes OC_MAX_FRAME_SIZE fr; Some (fr, buf).
Definition send_if (e : call_env) (fr : option ready) (cid : Z) (l : ploop) : ploop :=
  match fr with Some fr => pdm_send e fr cid l | None => l end.
Definition pdm_opening (r : pdm_made) (l : ploop) : option nat :=
  find_index (fun d => pd_used d && (pd_id d =? 0) && (at_opener (pd_conn d) =? ma_conn r) && (at_peer (pd_user d) =? ma_peer r)) (pl_pdms l).
Definition pdm_opened (e : call_env) (r : pdm_made) (l : ploop) : ploop :=
  match pdm_opening r l with
  | None => if ma_channel r =? 0 then l else pnote (CloseJob (ma_channel r)) l
  | Some i =>
      let d := pdm_at i l in
      let cid := at_opener (pd_conn d) in
      match pconn cid l with
      | None => pdm_free i l
      | Some _ =>
          if ma_channel r =? 0 then pdm_free i (pdm_send_end e cid 0 OC_PDM_END_REFUSED l)
          else
            let n := pl_serial l + 1 in
            let d := d <| pd_id := ma_channel r |> <| pd_peer_info := in_g_enc (dm_info r (at_opener (pd_user d))) |> <| pd_serial := n |> in
            let l := pnote (Bound n Opener (at_opener (pd_user d)) (at_opener (pd_session d))) (put_pdm i d l <| pl_serial := n |>) in
            let l := send_if e (in_g_enc (FOpened (mk_oc_pdm_opened (pd_id d) (at_peer (pd_user d))))) cid l in
            let l := send_if e (in_g_enc (dm_info r (at_peer (pd_user d)))) cid l in
            match in_g_enc (invite_frame d) with
            | Some fr => foldl (fun l t => pdm_send e fr t l) l (pusers (at_peer (pd_user d)) l)
            | None => l
            end
      end
  end.

(** ** The frames of a client *)

(** Go on, close the connection ([return -1]), or read through a null pointer. *)
Inductive outcome := Went (l : ploop) | Closes (l : ploop) | Fault.
Definition unless_full (r : bool * ploop) (k : ploop → outcome) : outcome := if fst r then k (snd r) else Closes (snd r).
Definition reply_if (fr : option ready) (cid : Z) (l : ploop) : outcome :=
  match fr with Some fr => unless_full (pdm_append fr cid l) Went | None => Went l end.

Definition pdm_rate_ok (e : call_env) (cid : Z) (l : ploop) : bool * ploop :=
  let x := extra cid l in
  let '(ok, w) := win_ok (e_now e) (px_rl x) OC_PDM_RATE_MAX OC_PDM_RATE_MS in
  (ok, put_extra cid (x <| px_rl := w |>) l).
Definition error_ready (cap code : Z) (msg : string) : option ready :=
  let fr := FRefusal (mk_oc_error code 0 [] (text_bytes msg)) in
  buf ← pdm_bytes cap fr; Some (fr, buf).
Definition reject_pdm_rate (cid : Z) (l : ploop) : outcome :=
  reply_if (error_ready 96 (reason_code OC_ERR_SEND_RATE_LIMITED) "private DM rate exceeded") cid l.

(** [send_rate_ok]; a maximum of 0 is none. *)
Definition send_rate_ok (e : call_env) (cid : Z) (l : ploop) : bool * ploop :=
  let x := extra cid l in
  if px_send_max x =? 0 then (true, l)
  else
    let '(ok, w) := win_ok (e_now e) (px_send x) (px_send_max x) OC_SEND_RATE_WINDOW_MS in
    (ok, put_extra cid (x <| px_send := w |>) l).
(** [reject_send_rate] copies the sixteen bytes [idem] points to. *)
Definition reject_send_rate (idem : option (list Z)) (cid : Z) (l : ploop) : outcome :=
  match idem with
  | None => Fault
  | Some idem =>
      let fr := FRefusal (mk_oc_error (reason_code OC_ERR_SEND_RATE_LIMITED) 0 idem (text_bytes "send rate exceeded")) in
      reply_if (buf ← pdm_bytes 96 fr; Some (fr, buf)) cid l
  end.
Definition demo_message_why : string := "This is a public demo: each person may post 200 messages a day, and the workspace 5,000.".
Definition demo_refuse_message (cid : Z) (l : ploop) : outcome :=
  match error_ready 320 (reason_code OC_ERR_DEMO_LIMIT) demo_message_why with
  | Some fr => unless_full (pdm_append fr cid l) Went
  | None => Closes l
  end.

Definition on_pdm_open (e : call_env) (cid : Z) (c : conn) (m : oc_pdm_open) (l : ploop) : outcome :=
  let '(ok, l) := pdm_rate_ok e cid l in
  if negb ok then reject_pdm_rate cid l
  else
    let slot :=
      if negb (pdm_open_peer m =? 0) && negb (pdm_open_peer m =? cn_user c) && nonempty (pusers (pdm_open_peer m) l) &&
         (pdm_count_of (cn_user c) l <? OC_PDM_PER_USER) && (pdm_count_of (pdm_open_peer m) l <? OC_PDM_PER_USER)
      then find_index (fun d => negb (pd_used d)) (pl_pdms l) else None in
    match slot with
    | None => reply_if (pdm_end_frame 0 OC_PDM_END_REFUSED) cid l
    | Some i =>
        let d := mk_pdm true 0 false (mk_two (cn_user c) (pdm_open_peer m)) (mk_two (px_session (extra cid l)) 0) (mk_two cid 0)
                   (mk_two 0 0) (mk_two [] []) (pdm_open_hs m) None (e_now e) 0 in
        Went (pnote (OpenJob cid (cn_user c) (pdm_open_peer m)) (put_pdm i d l))
    end.
(** [fr] for the other side; the DM ends when there is no room for it. *)
Definition pass_on (e : call_env) (i : nat) (s : side) (fr : pdm_frame) (l : ploop) : outcome :=
  match in_g_enc fr with
  | None => Went l
  | Some fr =>
      let '(ok, l) := pdm_deliver e i (other s) fr l in
      Went (if ok then l else pdm_end e i None OC_PDM_END_GONE l)
  end.
(** The first of the peer's devices to answer takes it. *)
Definition pdm_accept (e : call_env) (cid : Z) (i : nat) (l : ploop) : bool * ploop :=
  let d := pdm_at i l in
  let sid := px_session (extra cid l) in
  let l := pnote (Bound (pd_serial d) Peer (at_peer (pd_user d)) sid)
             (put_pdm i (d <| pd_accepted := true |> <| pd_session := set_side Peer sid (pd_session d) |>
                           <| pd_conn := set_side Peer cid (pd_conn d) |>) l) in
  let l := pdm_withdraw_invite e i cid OC_PDM_END_TAKEN l in
  match pd_peer_info d with
  | Some fr => pdm_append fr cid l
  | None => (true, l)
  end.
Definition on_pdm_hs (e : call_env) (cid : Z) (c : conn) (m : oc_pdm_hs) (l : ploop) : outcome :=
  let '(ok, l) := pdm_rate_ok e cid l in
  if negb ok then reject_pdm_rate cid l
  else
    let refuse l := reply_if (pdm_end_frame (pdm_hs_pdm_id m) OC_PDM_END_REFUSED) cid l in
    match pdm_find (pdm_hs_pdm_id m) l with
    | None => refuse l
    | Some i =>
        let d := pdm_at i l in
        match pdm_side_of d cid with
        | Some s => pass_on e i s (FHsFor m) l
        | None =>
            if negb (pd_accepted d) && (at_peer (pd_user d) =? cn_user c)
            then unless_full (pdm_accept e cid i l) (pass_on e i Peer (FHsFor m))
            else refuse l
        end
    end.
Definition on_pdm_send (e : call_env) (cid : Z) (c : conn) (m : oc_pdm_msg) (l : ploop) : outcome :=
  let '(ok, l) := send_rate_ok e cid l in
  if negb ok then reject_send_rate None cid l
  else
    let '(ok, net) := demo_ok (e_now e) OC_DL_MESSAGE (cn_user c) (pl_net l) in
    let l := l <| pl_net := net |> in
    if negb ok then demo_refuse_message cid l
    else
      let refuse := reply_if (pdm_end_frame (pdm_msg_pdm_id m) OC_PDM_END_REFUSED) cid l in
      match pdm_find (pdm_msg_pdm_id m) l with
      | None => refuse
      | Some i =>
          match (if pd_accepted (pdm_at i l) then pdm_side_of (pdm_at i l) cid else None) with
          | None => refuse
          | Some s => pass_on e i s (FMsg m) l
          end
      end.
Definition on_pdm_end (e : call_env) (cid : Z) (c : conn) (m : oc_pdm_end) (l : ploop) : outcome :=
  Went
    match pdm_find (pdm_end_pdm_id m) l with
    | None => l
    | Some i =>
        let d := pdm_at i l in
        match pdm_side_of d cid with
        | Some s => pdm_end e i (Some s) (if pdm_end_reason m =? pdm_reason_code OC_PDM_END_LOST then OC_PDM_END_LOST else OC_PDM_END_CLOSED) l
        | None => if negb (pd_accepted d) && (at_peer (pd_user d) =? cn_user c) then pdm_end e i (Some Peer) OC_PDM_END_DECLINED l else l
        end
    end.

Inductive pdm_msg_type := M_PDM_OPEN | M_PDM_HS | M_PDM_SEND | M_PDM_END.
Definition decoded_pdm {A} (d : rd A) (payload : list Z) (l : ploop) (k : A → outcome) : outcome :=
  match run_decode d payload with inl _ => Closes l | inr m => k m end.
Definition on_pdm_frame (e : call_env) (cid : Z) (c : conn) (t : pdm_msg_type) (payload : list Z) (l : ploop) : outcome :=
  match t with
  | M_PDM_OPEN => decoded_pdm oc_decode_pdm_open payload l (fun m => on_pdm_open e cid c m l)
  | M_PDM_HS => decoded_pdm oc_decode_pdm_hs payload l (fun m => on_pdm_hs e cid c m l)
  | M_PDM_SEND => decoded_pdm oc_decode_pdm_msg payload l (fun m => on_pdm_send e cid c m l)
  | M_PDM_END => decoded_pdm oc_decode_pdm_end payload l (fun m => on_pdm_end e cid c m l)
  end.

(** ** The ordinary frames of a DM's channel *)

Definition pdm_conn_bound (d : pdm_t) (cid : Z) : bool :=
  negb (cid =? 0) && ((at_opener (pd_conn d) =? cid) || (pd_accepted d && (at_peer (pd_conn d) =? cid))).
Definition pdm_refuses (cid ch : Z) (l : ploop) : bool :=
  match pdm_find ch l with
  | Some i => negb (pdm_conn_bound (pdm_at i l) cid)
  | None => false
  end.
(** One connection of a walk over the members: [only] is [g_fan_only] where the
    walk looks at it, [eff] what is noted. *)
Definition fan_to (e : call_env) (eff : Z → pdm_effect) (only : option nat) (gen : Z) (buf : list Z) (l : ploop) (cid : Z) : ploop :=
  match pconn cid l with
  | None => l
  | Some c =>
      if (cn_fan_gen c =? gen) || match only with Some i => negb (pdm_conn_bound (pdm_at i l) cid) | None => false end then l
      else
        let c := c <| cn_fan_gen := gen |> in
        let l := pnote (eff cid) (l <| pl_net := put_conn cid c (pl_net l) |>) in
        match send_bytes (e_io e cid) (cn_out c) buf with
        | Some q => l <| pl_net := put_conn cid (c <| cn_out := q |>) (pl_net l) |>
        | None => pconn_close e cid l
        end
  end.
Definition next_fan (l : ploop) : ploop := l <| pl_net := pl_net l <| lp_fan_gen := u64 (lp_fan_gen (pl_net l) + 1) |> |>.
Definition fan_gen (l : ploop) : Z := lp_fan_gen (pl_net l).
Definition fanout_members (e : call_env) (ch : Z) (only : option nat) (members : list Z) (except_uid : Z) (buf : list Z) (l : ploop) : ploop :=
  let dm : option Z := match only with Some i => Some (pd_serial (pdm_at i l)) | None => None end in
  let l := next_fan l in
  let gen := fan_gen l in
  foldl (fun l uid => if negb (except_uid =? 0) && (uid =? except_uid) then l
                      else foldl (fan_to e (Fanned ch dm) only gen buf) l (pusers uid l)) l members.
(** The walk of a thread reply, which has two forms of the frame and does not look
    at [g_fan_only]; a member comes with whether it is in the thread. *)
Definition fanout_reply (e : call_env) (ch : Z) (members : list (Z * bool)) (inside outside : list Z) (l : ploop) : ploop :=
  let l := next_fan l in
  let gen := fan_gen l in
  foldl (fun l (m : Z * bool) => foldl (fan_to e (Replied ch) None gen (if snd m then inside else outside)) l (pusers (fst m) l)) l members.
Definition tell_to (e : call_env) (ch except_conn : Z) (buf : list Z) (l : ploop) (cid : Z) : ploop :=
  match pconn cid l with
  | None => l
  | Some c =>
      if cid =? except_conn then l
      else
        let l := pnote (Told ch cid) l in
        match send_bytes (e_io e cid) (cn_out c) buf with
        | Some q => l <| pl_net := put_conn cid (c <| cn_out := q |>) (pl_net l) |>
        | None => pconn_close e cid l
        end
  end.
Definition send_to_user (e : call_env) (ch uid except_conn : Z) (buf : list Z) (l : ploop) : ploop :=
  foldl (tell_to e ch except_conn buf) l (pusers uid l).

(** One of the ways [deliver_result_to] reaches more than the connection that asked;
    a result that uses several is as many of these. *)
Inductive fan_way :=
  | ToMembers (members : list Z) (except_uid : Z) (buf : list Z)
  | ToThread (members : list (Z * bool)) (inside outside : list Z)
  | ToUser (uid except_conn : Z) (buf : list Z).
(** A result about channel [ch]. *)
Definition deliver_result (e : call_env) (ch : Z) (w : fan_way) (l : ploop) : ploop :=
  let g_fan_only := if ch =? 0 then None else pdm_find ch l in
  match w with
  | ToMembers members except_uid buf => fanout_members e ch g_fan_only members except_uid buf l
  | ToThread members inside outside => fanout_reply e ch members inside outside l
  | ToUser uid except_conn buf => send_to_user e ch uid except_conn buf l
  end.

(** ** The loop *)

Inductive pdm_event :=
  | PvOpen (send_max : Z)
  | PvAuthOk (cid uid sid : Z) (kept : bool)
  | PvClose (cid : Z)
  | PvFrame (cid : Z) (t : pdm_msg_type) (payload : list Z)
  | PvMade (r : pdm_made)
  | PvResult (ch : Z) (w : fan_way)
  | PvTick.
(** [OC_RES_AUTH_OK]; [kept]: the frames between did not cost the connection. *)
Definition pdm_auth_ok (e : call_env) (cid uid sid : Z) (kept : bool) (l : ploop) : ploop :=
  match pconn cid l with
  | None => l
  | Some _ =>
      let l := l <| pl_net := auth_ok cid uid (pl_net l) |> in
      let l := pnote (SignedIn cid uid sid) (put_extra cid (extra cid l <| px_session := sid |>) l) in
      if kept then pdm_attach e cid l else pconn_close e cid l
  end.
Definition pdm_step (e : call_env) (ev : pdm_event) (l : ploop) : option ploop :=
  match ev with
  | PvOpen send_max =>
      let cid := lp_next_conn (pl_net l) in
      Some (put_extra cid (mk_pextra 0 (mk_rate_win 0 0) (mk_rate_win 0 0) send_max) (l <| pl_net := index_add (pl_net l) |>))
  | PvAuthOk cid uid sid kept => Some (pdm_auth_ok e cid uid sid kept l)
  | PvClose cid => Some (pconn_close e cid l)
  | PvFrame cid t payload =>
      match pconn cid l with
      | Some c =>
          if cn_authed c then
            match on_pdm_frame e cid c t payload l with
            | Went l => Some l
            | Closes l => Some (pconn_close e cid l)
            | Fault => None
            end
          else Some l
      | None => Some l
      end
  | PvMade r => Some (pdm_opened e r l)
  | PvResult ch w => Some (deliver_result e ch w l)
  | PvTick => Some (pdm_expire e l)
  end.
Fixpoint pdm_run (evs : list (call_env * pdm_event)) (l : ploop) : option ploop :=
  match evs with
  | [] => Some l
  | (e, ev) :: evs => l ← pdm_step e ev l; pdm_run evs l
  end.
