(* ===== verification/PdmInv.v ===== *)
(** * The invariant of the encrypted DMs

    What the table of [Pdm] and its trace say of each other, and that the changes
    an event is made of keep it. *)
From stdpp Require Import base tactics list numbers gmap strings.
From S2P Require Import Prelude.
From S2P Require Import Wire.
From S2P Require Import ProtoTypes.
From S2P Require Import Outq.
From S2P Require Import Calls.
From S2P Require Import CallsInv.
From S2P Require Import CallsStep.
From S2P Require Import CallsRun.
From S2P Require Import CallsSeats.
From S2P Require Import Pdm.
Local Open Scope Z_scope.
Local Open Scope oc_scope.

(** ** The trace *)

(** The frames accepted for a side, those its connection was handed, and of these
    the ones its output took. *)
Definition took (n : Z) (s : side) (tr : list pdm_effect) : list pdm_frame :=
  omap (fun x => match x with Took n' s' _ fr => if bool_decide (n' = n ∧ s' = s) then Some fr else None | _ => None end) tr.
Definition handled (n : Z) (s : side) (tr : list pdm_effect) : list pdm_frame :=
  omap (fun x => match x with Gave n' s' _ fr | Lost n' s' _ fr => if bool_decide (n' = n ∧ s' = s) then Some fr else None | _ => None end) tr.
Definition gave (n : Z) (s : side) (tr : list pdm_effect) : list pdm_frame :=
  omap (fun x => match x with Gave n' s' _ fr => if bool_decide (n' = n ∧ s' = s) then Some fr else None | _ => None end) tr.
Definition lost (n : Z) (s : side) (tr : list pdm_effect) : list pdm_frame :=
  omap (fun x => match x with Lost n' s' _ fr => if bool_decide (n' = n ∧ s' = s) then Some fr else None | _ => None end) tr.
(** A frame goes to connection [cid], or would have. *)
Definition handing (n : Z) (s : side) (cid : Z) (fr : pdm_frame) (x : pdm_effect) : Prop := x = Gave n s cid fr ∨ x = Lost n s cid fr.
(** Nothing was sent to the peer before a device of the peer had accepted. *)
Definition calm (id : Z) (s : side) (tr : list pdm_effect) : Prop := s = Peer → ∀ fr, Took id Peer false fr ∉ tr.
(** The conversation an effect is of. *)
Definition of_dm (x : pdm_effect) : option Z :=
  match x with
  | Bound n _ _ _ | Took n _ _ _ | Gave n _ _ _ | Lost n _ _ _ => Some n
  | Fanned _ dm _ => dm
  | _ => None
  end.
(** The DMs that [made] channels were made for. *)
Definition numbered (n made : Z) : Prop := 0 < n <= made.

Lemma took_app id s t1 t2 : took id s (t1 ++ t2) = took id s t1 ++ took id s t2.
Proof. apply omap_app. Qed.
Lemma handled_app id s t1 t2 : handled id s (t1 ++ t2) = handled id s t1 ++ handled id s t2.
Proof. apply omap_app. Qed.
Lemma calm_app id s t1 t2 : calm id s (t1 ++ t2) → calm id s t1.
Proof. intros H Hs fr Hin. apply (H Hs fr), elem_of_app. by left. Qed.
(** Effects of other conversations. *)
Lemma took_none id s tr : (∀ x, x ∈ tr → of_dm x ≠ Some id) → took id s tr = [].
Proof.
  intros H. unfold took. induction tr as [|x tr IH]; [done|]. cbn. pose proof (H x ltac:(by left)). destruct x; cbn in *; try (apply IH; intros; apply H; by right).
  rewrite bool_decide_eq_false_2 by (intros [-> _]; done). apply IH. intros; apply H; by right.
Qed.
Lemma gave_sublist n s tr : gave n s tr `sublist_of` handled n s tr.
Proof.
  unfold gave, handled. induction tr as [|x tr IH]; [done|]. destruct x; cbn; try exact IH; case_bool_decide; try exact IH; by constructor.
Qed.
Lemma gave_handled n s tr : lost n s tr = [] → gave n s tr = handled n s tr.
Proof.
  unfold gave, handled, lost. induction tr as [|x tr IH]; [done|]. destruct x; cbn; try exact IH; case_bool_decide; try exact IH; try done. intros Hl. by rewrite IH.
Qed.
Lemma handled_none id s tr : (∀ x, x ∈ tr → of_dm x ≠ Some id) → handled id s tr = [].
Proof.
  intros H. unfold handled. induction tr as [|x tr IH]; [done|]. cbn. pose proof (H x ltac:(by left)). destruct x; cbn in *; try (apply IH; intros; apply H; by right);
    rewrite bool_decide_eq_false_2 by (intros [-> _]; done); apply IH; intros; apply H; by right.
Qed.

(** ** The rows *)

Definition heads (l : ploop) : gmap Z (bool * Z * Z * Z) := core <$> lp_conns (pl_net l).
Definition next_conn (l : ploop) : Z := lp_next_conn (pl_net l).
Definition live (d : pdm_t) : Prop := pd_used d = true ∧ pd_id d ≠ 0.

(** What binds a row to the trace [tr]; [opened] are the open connections. *)
Record bound_ok (tr : list pdm_effect) (next : Z) (d : pdm_t) : Prop := {
  bo_conn : ∀ s, at_side (pd_conn d) s ≠ 0 →
    SignedIn (at_side (pd_conn d) s) (at_side (pd_user d) s) (at_side (pd_session d) s) ∈ tr ∧ at_side (pd_conn d) s < next;
  bo_peer : pd_accepted d = false → at_peer (pd_conn d) = 0 ∧ at_peer (pd_session d) = 0 ∧ ∀ u sid, Bound (pd_serial d) Peer u sid ∉ tr;
  bo_opener : pd_id d ≠ 0 → Bound (pd_serial d) Opener (at_opener (pd_user d)) (at_opener (pd_session d)) ∈ tr;
  bo_accepted : pd_accepted d = true → pd_id d ≠ 0 ∧ Bound (pd_serial d) Peer (at_peer (pd_user d)) (at_peer (pd_session d)) ∈ tr }.
Record queues_ok (tr : list pdm_effect) (opened : gset Z) (d : pdm_t) : Prop := {
  qo_max : ∀ s, zlen (at_side (pd_q d) s) <= OC_PDM_QUEUE_MAX;
  qo_none : pd_id d = 0 → ∀ s, at_side (pd_q d) s = [];
  qo_order : ∀ s, pd_id d ≠ 0 → calm (pd_serial d) s tr → took (pd_serial d) s tr = handled (pd_serial d) s tr ++ (fst <$> at_side (pd_q d) s);
  qo_open : ∀ s, at_side (pd_conn d) s ∈ opened → calm (pd_serial d) s tr → at_side (pd_q d) s = [];
  qo_early : pd_accepted d = false → at_peer (pd_q d) ≠ [] → ∃ fr, Took (pd_serial d) Peer false fr ∈ tr }.
Definition row_inv (tr : list pdm_effect) (next : Z) (opened : gset Z) (made : Z) (d : pdm_t) : Prop :=
  pd_used d = true → ((pd_id d = 0 ∧ pd_serial d = 0) ∨ (pd_id d ≠ 0 ∧ numbered (pd_serial d) made)) ∧ bound_ok tr next d ∧ queues_ok tr opened d.

Record trace_ok (made : Z) (tr : list pdm_effect) : Prop := {
  to_made : ∀ x id, x ∈ tr → of_dm x = Some id → numbered id made;
  to_bound : ∀ id s u sid u' sid', Bound id s u sid ∈ tr → Bound id s u' sid' ∈ tr → u = u' ∧ sid = sid';
  to_gave : ∀ x id s cid fr, x ∈ tr → handing id s cid fr x → ∃ u sid, Bound id s u sid ∈ tr ∧ SignedIn cid u sid ∈ tr;
  to_fanned : ∀ ch id cid, Fanned ch (Some id) cid ∈ tr → ∃ s u sid, Bound id s u sid ∈ tr ∧ SignedIn cid u sid ∈ tr;
  to_prefix : ∀ id s, calm id s tr → handled id s tr `prefix_of` took id s tr }.

Definition of_user (u : Z) (d : pdm_t) : bool := pd_used d && ((at_opener (pd_user d) =? u) || (at_peer (pd_user d) =? u)).
Definition count_of (u : Z) (ds : list pdm_t) : Z := zlen (filter (fun d => Is_true (of_user u d)) ds).
(** [t] connections at most have been opened. *)
Section invariant.
Context {t : Z}.
Record pinv (made : Z) (l : ploop) : Prop := {
  pv_conns : ∀ cid h, heads l !! cid = Some h → 0 < cid < next_conn l;
  pv_sign : ∀ cid u g j, heads l !! cid = Some (true, u, g, j) → SignedIn cid u (px_session (extra cid l)) ∈ pl_trace l;
  pv_rows : Forall (row_inv (pl_trace l) (next_conn l) (dom (heads l)) made) (pl_pdms l);
  pv_ids : ∀ i j d d', pl_pdms l !! i = Some d → pl_pdms l !! j = Some d' → live d → live d' → pd_id d = pd_id d' ∨ pd_serial d = pd_serial d' → i = j;
  pv_counts : ∀ u, count_of u (pl_pdms l) <= OC_PDM_PER_USER;
  pv_trace : trace_ok made (pl_trace l);
  pv_next : 0 < next_conn l <= 1 + t;
  pv_size : length (pl_pdms l) = OC_PDM_MAX;
  pv_made : pl_serial l = made ∧ 0 <= made }.

(** ** Rules *)

Lemma omit_dm (xs : list pdm_effect) id : Forall (fun x => of_dm x = None) xs → ∀ x, x ∈ xs → of_dm x ≠ Some id.
Proof. intros H x Hx. rewrite (proj1 (Forall_forall _ _) H x Hx). done. Qed.

(** A row, when only other conversations went on. *)
Lemma row_other tr xs next next' opened opened' made made' d :
  row_inv tr next opened made d → (∀ x, x ∈ xs → of_dm x ≠ Some (pd_serial d)) → next <= next' →
  (∀ s, at_side (pd_conn d) s ∈ opened' → at_side (pd_conn d) s ∈ opened) → made <= made' →
  row_inv (tr ++ xs) next' opened' made' d.
Proof.
  intros H Hxs Hn Ho Hm Hu. destruct (H Hu) as (Hid & [B1 B2 B3 B4] & [Q1 Q2 Q3 Q4 Q5]). clear H.
  assert (Hin : ∀ x, x ∈ tr → x ∈ tr ++ xs) by (intros; apply elem_of_app; by left).
  assert (Hno : ∀ x, x ∈ tr ++ xs → of_dm x = Some (pd_serial d) → x ∈ tr) by (intros x [|Hx]%elem_of_app Hd; [done|by destruct (Hxs x Hx)]).
  split_and!; [unfold numbered in *; lia| |].
  - split.
    + intros s Hs. destruct (B1 s Hs). split; [auto|lia].
    + intros Ha. destruct (B2 Ha) as (? & ? & Hb). split_and!; [done|done|]. intros u sid Hx. by apply (Hb u sid), Hno.
    + intros Hz. by apply Hin, B3.
    + intros Ha. destruct (B4 Ha). split; [done|by apply Hin].
  - split; try done.
    + intros s Hz Hc. rewrite took_app, handled_app, (took_none _ _ xs), (handled_none _ _ xs), !app_nil_r by done. apply Q3; [done|]. by eapply calm_app.
    + intros s Hs Hc. apply (Q4 s); [by apply Ho|by eapply calm_app].
    + intros Ha Hq. destruct (Q5 Ha Hq) as (fr & Hfr). exists fr. by apply Hin.
Qed.
Lemma trace_plain made tr xs : trace_ok made tr → Forall (fun x => of_dm x = None) xs → trace_ok made (tr ++ xs).
Proof.
  intros [T1 T2 T3 T4 T5] Hxs. assert (Hno : ∀ x id, x ∈ tr ++ xs → of_dm x = Some id → x ∈ tr) by (intros x id [|Hx]%elem_of_app Hd; [done|by destruct (omit_dm _ id Hxs x Hx)]).
  assert (Hin : ∀ x, x ∈ tr → x ∈ tr ++ xs) by (intros; apply elem_of_app; by left). split.
  - intros x id Hx Hd. apply (T1 x id); [by eapply Hno|done].
  - intros id s u sid u' sid' H1 H2. apply (T2 id s); by eapply Hno.
  - intros x id s cid fr Hg Hh. destruct (T3 x id s cid fr) as (u & sid & ? & ?); [eapply Hno; [done|by destruct Hh as [->| ->]]|done|]. exists u, sid. split; by apply Hin.
  - intros ch id cid Hf. destruct (T4 ch id cid) as (s & u & sid & ? & ?); [by eapply Hno|]. exists s, u, sid. split; by apply Hin.
  - intros id s Hc. rewrite took_app, handled_app, (took_none _ _ xs), (handled_none _ _ xs), !app_nil_r by (by apply omit_dm). apply T5. by eapply calm_app.
Qed.

Record same_net (l l' : ploop) : Prop := {
  sn_heads : heads l' = heads l;
  sn_next : next_conn l' = next_conn l;
  sn_serial : pl_serial l' = pl_serial l;
  sn_sessions : ∀ cid, px_session (extra cid l') = px_session (extra cid l) }.
#[export] Instance same_net_preorder : PreOrder same_net.
Proof. split; [done|]. intros l1 l2 l3 [H1 H2 H3 H4] [H5 H6 H7 H8]. split; [congruence..|]. intros cid. by rewrite H8, H4. Qed.
(** Nothing but effects of no conversation. *)
Definition aside_only (l l' : ploop) : Prop :=
  same_net l l' ∧ pl_pdms l' = pl_pdms l ∧ ∃ xs, pl_trace l' = pl_trace l ++ xs ∧ Forall (fun x => of_dm x = None) xs.
#[export] Instance aside_only_preorder : PreOrder aside_only.
Proof.
  split.
  - intros l. split_and!; [done|done|]. exists []. by rewrite app_nil_r.
  - intros l1 l2 l3 (N1 & E1 & xs & T1 & F1) (N2 & E2 & ys & T2 & F2). split_and!; [by transitivity l2|congruence|].
    exists (xs ++ ys). rewrite T2, T1, app_assoc. split; [done|]. by apply Forall_app.
Qed.

Lemma aside_inv made l l' : pinv made l → aside_only l l' → pinv made l'.
Proof.
  intros [V1 V2 V3 V4 V5 V6 V7 V8 V9] ([N1 N2 Nm N3] & E & xs & T & Hxs). split; rewrite ?N1, ?N2, ?Nm, ?E, ?T; try done.
  - intros cid u g j Hh. rewrite N3. apply elem_of_app. left. by eapply V2.
  - eapply Forall_impl; [exact V3|]. intros d Hd. eapply row_other; try done. by apply omit_dm.
  - by apply trace_plain.
Qed.

Lemma count_insert u ds i d d0 : ds !! i = Some d0 → (of_user u d = true → of_user u d0 = true) → count_of u (<[i := d]> ds) <= count_of u ds.
Proof.
  intros E H. pose proof (lookup_lt_Some _ _ _ E) as Hi. unfold count_of. rewrite <- (take_drop_middle ds i d0 E) at 2. rewrite insert_take_drop by done.
  rewrite !filter_app, !filter_cons, !zlen_app. enough (zlen (if decide (Is_true (of_user u d)) then d :: filter (fun d => Is_true (of_user u d)) (drop (S i) ds) else filter (fun d => Is_true (of_user u d)) (drop (S i) ds))
    <= zlen (if decide (Is_true (of_user u d0)) then d0 :: filter (fun d => Is_true (of_user u d)) (drop (S i) ds) else filter (fun d => Is_true (of_user u d)) (drop (S i) ds))) by lia.
  unfold zlen. destruct (decide (Is_true (of_user u d))) as [Hd|], (decide (Is_true (of_user u d0))) as [|Hd0]; cbn [length]; try lia.
  exfalso. apply Hd0. apply Is_true_eq_left, H. by apply Is_true_eq_true.
Qed.
(** One row changes, with effects of its own conversation. *)
Lemma change_row made made' l l' i d0 d xs : pinv made l → heads l' = heads l → next_conn l' = next_conn l →
  (∀ cid, px_session (extra cid l') = px_session (extra cid l)) → pl_pdms l !! i = Some d0 →
  pl_pdms l' = <[i := d]> (pl_pdms l) → pl_trace l' = pl_trace l ++ xs → pl_serial l' = made' →
  made <= made' →
  (∀ x id, x ∈ xs → of_dm x = Some id → id = pd_serial d ∧ live d) →
  (live d → ∀ j d', j ≠ i → pl_pdms l !! j = Some d' → pd_used d' = true → pd_id d' ≠ pd_id d ∧ pd_serial d' ≠ pd_serial d) →
  row_inv (pl_trace l ++ xs) (next_conn l) (dom (heads l)) made' d → trace_ok made' (pl_trace l ++ xs) →
  (∀ u, count_of u (<[i := d]> (pl_pdms l)) <= OC_PDM_PER_USER) → pinv made' l'.
Proof.
  intros [V1 V2 V3 V4 V5 V6 V7 V8 [V9 V9']] N1 N2 N3 E0 E T Em Hm Hxs Hids Hrow Htr Hcnt. split; rewrite ?N1, ?N2, ?E, ?T; try done.
  - intros cid u g j Hh. rewrite N3. apply elem_of_app. left. by eapply V2.
  - apply Forall_lookup. intros j d' Hj. destruct (decide (j = i)) as [->|Hne].
    + rewrite list_lookup_insert_eq in Hj by (by eapply lookup_lt_Some). by injection Hj as <-.
    + rewrite list_lookup_insert_ne in Hj by done. intros Hu. apply (row_other (pl_trace l) xs (next_conn l) _ (dom (heads l)) _ made _ d'); try done.
      * by apply (proj1 (Forall_lookup _ _) V3 j).
      * intros x Hx Hd. destruct (Hxs x _ Hx Hd) as [Hid Hl]. by destruct (Hids Hl j d' Hne Hj Hu).
  - intros j k dj dk Hj Hk Lj Lk Hid. pose proof (lookup_lt_Some _ _ _ E0) as Hi.
    destruct (decide (j = i)) as [->|Hji], (decide (k = i)) as [->|Hki]; try done;
      rewrite ?list_lookup_insert_eq in Hj by done; rewrite ?list_lookup_insert_eq in Hk by done; rewrite ?list_lookup_insert_ne in Hj by done; rewrite ?list_lookup_insert_ne in Hk by done.
    + injection Hj as <-. destruct (Hids Lj k dk Hki Hk (proj1 Lk)). intuition congruence.
    + injection Hk as <-. destruct (Hids Lk j dj Hji Hj (proj1 Lj)). intuition congruence.
    + by apply (V4 j k dj dk).
  - by rewrite length_insert.
  - split; [done|lia].
Qed.
(** The same, when no channel was made. *)
Lemma change_row_same made l l' i d0 d xs : pinv made l → same_net l l' → pl_pdms l !! i = Some d0 →
  pl_pdms l' = <[i := d]> (pl_pdms l) → pl_trace l' = pl_trace l ++ xs →
  (∀ x id, x ∈ xs → of_dm x = Some id → id = pd_serial d ∧ live d) →
  (live d → ∀ j d', j ≠ i → pl_pdms l !! j = Some d' → pd_used d' = true → pd_id d' ≠ pd_id d ∧ pd_serial d' ≠ pd_serial d) →
  row_inv (pl_trace l ++ xs) (next_conn l) (dom (heads l)) made d → trace_ok made (pl_trace l ++ xs) →
  (∀ u, count_of u (<[i := d]> (pl_pdms l)) <= OC_PDM_PER_USER) → pinv made l'.
Proof.
  intros I [N1 N2 Nm N3] E0 E T Hxs Hids Hrow Htr Hcnt. apply (change_row made made l l' i d0 d xs); try done. rewrite Nm. apply (pv_made _ _ I).
Qed.

(** ** What only sends *)

Lemma hand_aside e buf cid c l : pconn cid l = Some c → aside_only l (hand e buf cid c l).
Proof.
  intros E. split_and!; [|done|exists []; by rewrite app_nil_r]. unfold pconn, find_by_id in E. split; [|done..].
  unfold heads, hand. cbn [pl_net set_field]. by apply (ev_conns (pl_net l)), (eqv_put_conn cid c).
Qed.
Lemma note_aside x l : of_dm x = None → aside_only l (pnote x l).
Proof. intros H. split_and!; [done|done|]. exists [x]. split; [done|]. by constructor. Qed.
Lemma send_aside e fr cid l : aside_only l (pdm_send e fr cid l).
Proof. unfold pdm_send. destruct (pconn cid l) as [c|] eqn:E; [|done]. etransitivity; [by apply (hand_aside e (snd fr) cid c)|]. case_match; [by apply note_aside|done]. Qed.
Lemma append_aside fr cid l : aside_only l (snd (pdm_append fr cid l)).
Proof.
  unfold pdm_append. destruct (pconn cid l) as [c|] eqn:E; [|done]. destruct (out_append _ _) as [ok q]. cbn [snd]. unfold pconn, find_by_id in E.
  assert (A : aside_only l (l <| pl_net := put_conn cid (c <| cn_out := q |>) (pl_net l) |>)).
  { split_and!; [|done|exists []; by rewrite app_nil_r]. split; [|done..]. unfold heads. cbn [pl_net set_field]. by apply (ev_conns (pl_net l)), (eqv_put_conn cid c). }
  destruct ok; [|done]. etransitivity; [exact A|by apply note_aside].
Qed.
Lemma send_end_aside e cid id reason l : aside_only l (pdm_send_end e cid id reason l).
Proof. unfold pdm_send_end. destruct (pdm_end_frame id reason); [apply send_aside|done]. Qed.
Lemma send_if_aside e fr cid l : aside_only l (send_if e fr cid l).
Proof. destruct fr; [apply send_aside|done]. Qed.
Lemma aside_fold {A} (f : ploop → A → ploop) : (∀ l x, aside_only l (f l x)) → ∀ xs l, aside_only l (foldl f l xs).
Proof. intros H xs. induction xs as [|x xs IH]; intros l; [done|]. cbn. transitivity (f l x); auto. Qed.
Lemma withdraw_aside e i except reason l : aside_only l (pdm_withdraw_invite e i except reason l).
Proof. apply aside_fold. intros l' cid. case_match; [done|apply send_end_aside]. Qed.
Lemma put_extra_aside cid x l : px_session x = px_session (extra cid l) → aside_only l (put_extra cid x l).
Proof.
  intros H. split_and!; [|done|exists []; by rewrite app_nil_r]. split; [done..|]. intros d. unfold extra at 1, put_extra. cbn [pl_extra set_field].
  destruct (decide (cid = d)) as [<-|]; [by rewrite lookup_insert_eq|by rewrite lookup_insert_ne].
Qed.

(** ** Rows *)

Lemma pdm_at_lookup i l d : pl_pdms l !! i = Some d → pdm_at i l = d.
Proof. intros E. unfold pdm_at. by rewrite nth_lookup, E. Qed.
Lemma used_row i l : pd_used (pdm_at i l) = true → pl_pdms l !! i = Some (pdm_at i l).
Proof. unfold pdm_at. rewrite nth_lookup. by destruct (pl_pdms l !! i). Qed.
Lemma pdm_find_spec id l i : pdm_find id l = Some i → ∃ d, pl_pdms l !! i = Some d ∧ pdm_at i l = d ∧ live d ∧ pd_id d = id.
Proof.
  unfold pdm_find. destruct (Z.eqb_spec id 0) as [|Hz]; [done|]. intros (d & E & H)%find_index_Some. apply andb_true_iff in H as [Hu Hid%Z.eqb_eq].
  exists d. split_and!; [done|by apply pdm_at_lookup|split; [done|congruence]|done].
Qed.
Lemma aside_at l l' i : aside_only l l' → pdm_at i l' = pdm_at i l.
Proof. intros (_ & E & _). unfold pdm_at. by rewrite E. Qed.

Lemma row_zero tr next opened made : row_inv tr next opened made pdm_zero.
Proof. done. Qed.
Lemma free_inv made i l : pinv made l → pinv made (pdm_free i l).
Proof.
  intros I. unfold pdm_free. set (l1 := if pd_id (pdm_at i l) =? 0 then l else _).
  assert (I1 : pinv made l1) by (unfold l1; case_match; [done|]; eapply aside_inv; [exact I|by apply note_aside]). clearbody l1.
  destruct (pl_pdms l1 !! i) as [d|] eqn:E.
  - eapply (change_row_same made l1 _ i d pdm_zero [] I1); try done.
    + by rewrite app_nil_r.
    + by intros x id ?%not_elem_of_nil.
    + by intros [].
    + rewrite app_nil_r. apply I1.
    + intros u. etransitivity; [|apply (pv_counts _ _ I1 u)]. by eapply count_insert.
  - assert (put_pdm i pdm_zero l1 = l1) as -> by (unfold put_pdm; rewrite list_insert_ge by (by apply lookup_ge_None); by destruct l1). done.
Qed.
Lemma end_inv made e i by_ reason l : pinv made l → pinv made (pdm_end e i by_ reason l).
Proof.
  intros I. unfold pdm_end. apply free_inv. eapply aside_inv; [exact I|].
  assert (T : ∀ s l', aside_only l' (if bool_decide (by_ = Some s) || (at_side (pd_conn (pdm_at i l)) s =? 0) then l'
                  else pdm_send_end e (at_side (pd_conn (pdm_at i l)) s) (pd_id (pdm_at i l)) reason l')) by (intros s l'; case_match; [done|apply send_end_aside]).
  destruct (pd_accepted _); (etransitivity; [|apply T]); [apply T|apply withdraw_aside].
Qed.
Lemma expire_inv made e l : pinv made l → pinv made (pdm_expire e l).
Proof.
  unfold pdm_expire. generalize (seq 0 OC_PDM_MAX). intros rows. revert l. induction rows as [|i rows IH]; intros l I; [done|]. cbn [foldl]. apply IH. unfold expire_row.
  case_match; [done|]. case_match; [by apply end_inv|]. assert (S : ∀ s l', pinv made l' → pinv made (expire_side e i l' s)) by (intros s l' I'; unfold expire_side; case_match; [by apply end_inv|done]).
  auto.
Qed.

(** ** Connections *)

Lemma net_inv made l l' xs : pinv made l → pl_pdms l' = pl_pdms l → pl_serial l' = pl_serial l → pl_trace l' = pl_trace l ++ xs → Forall (fun x => of_dm x = None) xs → next_conn l <= next_conn l' <= 1 + t →
  (∀ cid h, heads l' !! cid = Some h → 0 < cid < next_conn l') →
  (∀ cid u g j, heads l' !! cid = Some (true, u, g, j) → SignedIn cid u (px_session (extra cid l')) ∈ pl_trace l') →
  (∀ cid, cid < next_conn l → cid ∈ dom (heads l') → cid ∈ dom (heads l)) → pinv made l'.
Proof.
  intros [V1 V2 V3 V4 V5 V6 V7 V8 V9] E Em T Hxs Hn Hc Hs Hd. split; try done; rewrite ?E, ?T, ?Em; try done.
  - eapply Forall_impl; [exact V3|]. intros d Hrow Hu. destruct (Hrow Hu) as (Hid & B & Q). apply (row_other (pl_trace l) xs (next_conn l) _ (dom (heads l)) _ made made d); try done; [by apply omit_dm|lia|].
    intros s Hs'. apply Hd; [|done]. apply B. intros Hz. rewrite Hz in Hs'. apply elem_of_dom in Hs' as [h Hh]. by destruct (Hc _ _ Hh).
  - by apply trace_plain.
  - lia.
Qed.
Lemma closed_heads e cid l : is_Some (lp_conns l !! cid) → core <$> lp_conns (conn_close e cid l) = delete cid (core <$> lp_conns l) ∧ lp_next_conn (conn_close e cid l) = lp_next_conn l.
Proof.
  intros [c E]. unfold conn_close, find_by_id. rewrite E. destruct (conn_closed_seated e cid (index_remove cid l)) as [K _]. rewrite (kp_conns _ _ K), (kp_nconn _ _ K).
  unfold index_remove, user_unlink, find_by_id. rewrite E. cbn. split; [|done]. apply fmap_delete.
Qed.
Lemma count_map u f ds : (∀ d, of_user u (f d) = of_user u d) → count_of u (map f ds) = count_of u ds.
Proof.
  intros H. unfold count_of. induction ds as [|d ds IH]; [done|]. cbn [map]. rewrite !filter_cons, H. case_decide; [|exact IH].
  unfold zlen in *. cbn [length]. lia.
Qed.
Lemma map_rows made l f : pinv made l → (∀ d, pd_used (f d) = pd_used d ∧ pd_id (f d) = pd_id d ∧ pd_user (f d) = pd_user d ∧ pd_serial (f d) = pd_serial d) →
  (∀ d, row_inv (pl_trace l) (next_conn l) (dom (heads l)) made d → row_inv (pl_trace l) (next_conn l) (dom (heads l)) made (f d)) →
  pinv made (l <| pl_pdms := map f (pl_pdms l) |>).
Proof.
  intros [V1 V2 V3 V4 V5 V6 V7 V8 V9] Hf Hrow. split; try done.
  - cbn [pl_pdms set_field]. apply Forall_fmap. eapply Forall_impl; [exact V3|]. intros d Hd. by apply Hrow.
  - cbn [pl_pdms set_field]. intros i j d d' Hi Hj Ld Ld' Hid. change (f <$> pl_pdms l !! i) with (f <$> pl_pdms l !! i) in Hi.
    rewrite list_lookup_fmap in Hi, Hj. destruct (pl_pdms l !! i) as [x|] eqn:Ex; [|done]. destruct (pl_pdms l !! j) as [y|] eqn:Ey; [|done].
    injection Hi as <-. injection Hj as <-. destruct (Hf x) as (Hx1 & Hx2 & _ & Hx3), (Hf y) as (Hy1 & Hy2 & _ & Hy3). unfold live in *. rewrite Hx1, Hx2, Hx3 in *. rewrite Hy1, Hy2, Hy3 in *.
    by apply (V4 i j x y).
  - intros u. cbn [pl_pdms set_field]. rewrite count_map; [done|]. intros d. unfold of_user. by destruct (Hf d) as (-> & _ & -> & _).
  - cbn [pl_pdms set_field]. by rewrite length_map.
Qed.
Lemma side_set_eq {A} s (v : A) x : at_side (set_side s v x) s = v.
Proof. by destruct s. Qed.
Lemma side_set_other {A} s s' (v : A) x : s' ≠ s → at_side (set_side s v x) s' = at_side x s'.
Proof. by destruct s, s'. Qed.
Lemma row_detached tr next opened made d s now : 0 ∉ opened → row_inv tr next opened made d →
  row_inv tr next opened made (d <| pd_conn := set_side s 0 (pd_conn d) |> <| pd_away := set_side s now (pd_away d) |>).
Proof.
  intros H0 H Hu. destruct (H Hu) as (Hid & [B1 B2 B3 B4] & [Q1 Q2 Q3 Q4 Q5]). split_and!; [done| |].
  - split; try done; cbn [pd_conn pd_user pd_session pd_id pd_serial pd_accepted set_field].
    + intros s'. destruct (decide (s' = s)) as [->|Hne]; [by rewrite side_set_eq|]. rewrite side_set_other by done. apply B1.
    + intros Ha. destruct (B2 Ha) as (? & ? & ?). split_and!; try done. by destruct s.
  - split; try done; cbn [pd_conn pd_q pd_id pd_serial set_field]. intros s'. destruct (decide (s' = s)) as [->|Hne]; [by rewrite side_set_eq|]. rewrite side_set_other by done. apply Q4.
Qed.
Lemma close_inv made e cid l : pinv made l → pinv made (pconn_close e cid l).
Proof.
  intros I. unfold pconn_close. destruct (pconn cid l) as [c|] eqn:E; [|done]. unfold pconn, find_by_id in E. set (l1 := l <| pl_net := conn_close e cid (pl_net l) |>).
  destruct (closed_heads e cid (pl_net l) ltac:(eauto)) as [Hh Hn]. assert (Hh1 : heads l1 = delete cid (heads l)) by exact Hh. assert (Hn1 : next_conn l1 = next_conn l) by exact Hn.
  assert (I1 : pinv made l1).
  { apply (net_inv made l l1 []); try done; try (by rewrite app_nil_r); rewrite ?Hn1; try done; [split; [done|apply (pv_next _ _ I)]|..].
    - intros d h. rewrite Hh1, lookup_delete_Some. intros [_ Hd]. by eapply (pv_conns _ _ I).
    - intros d u g j. rewrite Hh1, lookup_delete_Some. intros [_ Hd]. cbn [pl_trace set_field]. by eapply (pv_sign _ _ I).
    - intros d _. rewrite Hh1, dom_delete. set_solver. }
  destruct (cn_authed c); [|done]. apply map_rows; [done| |].
  - intros d. unfold row_conn_closed. case_match; by split_and!.
  - intros d Hd. unfold row_conn_closed. case_match; [|done]. apply row_detached; [|done]. intros H0. apply elem_of_dom in H0 as [h Hh0]. destruct (pv_conns _ _ I1 _ _ Hh0). lia.
Qed.

(** ** Frames for a side *)

Lemma took_same id s a fr : took id s [Took id s a fr] = [fr].
Proof. unfold took. cbn. by rewrite bool_decide_eq_true_2. Qed.
Lemma took_other id s s' a fr : s' ≠ s → took id s' [Took id s a fr] = [].
Proof. intros H. unfold took. cbn. rewrite bool_decide_eq_false_2; [done|]. by intros [_ ->]. Qed.
Lemma handled_same id s cid fr x : handing id s cid fr x → handled id s [x] = [fr].
Proof. intros [-> | ->]; unfold handled; cbn; by rewrite bool_decide_eq_true_2. Qed.
Lemma handled_other id s id' s' cid fr x : handing id s cid fr x → ¬ (id' = id ∧ s' = s) → handled id' s' [x] = [].
Proof. intros [-> | ->] H; unfold handled; cbn; (rewrite bool_decide_eq_false_2; [done|]; intros [-> ->]; by apply H). Qed.
Lemma took_handing id s id' s' cid fr x : handing id s cid fr x → took id' s' [x] = [].
Proof. by intros [-> | ->]. Qed.

Lemma trace_took made tr id s a fr : trace_ok made tr → numbered id made → trace_ok made (tr ++ [Took id s a fr]).
Proof.
  intros [T1 T2 T3 T4 T5] Hid. assert (Hin : ∀ x, x ∈ tr → x ∈ tr ++ [Took id s a fr]) by (intros; apply elem_of_app; by left). split.
  - intros x y [Hx|Hx%list_elem_of_singleton]%elem_of_app Hy; [by eapply T1|subst x; by injection Hy as <-].
  - intros y s' u sid u' sid' [H1|H1%list_elem_of_singleton]%elem_of_app [H2|H2%list_elem_of_singleton]%elem_of_app; try done. by eapply T2.
  - intros x y s' cid f [H1|H1%list_elem_of_singleton]%elem_of_app Hh; [|subst x; by destruct Hh]. destruct (T3 _ _ _ _ _ H1 Hh) as (u & sid & ? & ?). exists u, sid. split; by apply Hin.
  - intros ch y cid [H1|H1%list_elem_of_singleton]%elem_of_app; [|done]. destruct (T4 _ _ _ H1) as (s' & u & sid & ? & ?). exists s', u, sid. split; by apply Hin.
  - intros y s' Hc. rewrite took_app, handled_app. assert (handled y s' [Took id s a fr] = []) as -> by done. rewrite app_nil_r. apply prefix_app_r, T5. by eapply calm_app.
Qed.
Lemma trace_gave made tr id s cid fr u sid x : trace_ok made tr → handing id s cid fr x → numbered id made → Bound id s u sid ∈ tr → SignedIn cid u sid ∈ tr →
  (calm id s tr → handled id s tr ++ [fr] `prefix_of` took id s tr) → trace_ok made (tr ++ [x]).
Proof.
  intros [T1 T2 T3 T4 T5] Hx Hid Hb Hs Hp. assert (Hin : ∀ y, y ∈ tr → y ∈ tr ++ [x]) by (intros; apply elem_of_app; by left). split.
  - intros y n [Hy|Hy%list_elem_of_singleton]%elem_of_app Hn; [by eapply T1|subst y]. destruct Hx as [-> | ->]; by injection Hn as <-.
  - intros y s' v vid v' vid' [H1|H1%list_elem_of_singleton]%elem_of_app [H2|H2%list_elem_of_singleton]%elem_of_app; subst; try (by destruct Hx). by eapply T2.
  - intros y n s' c' f [H1|H1%list_elem_of_singleton]%elem_of_app Hh; [destruct (T3 _ _ _ _ _ H1 Hh) as (v & vid & ? & ?); exists v, vid; split; by apply Hin|].
    subst y. assert (n = id ∧ s' = s ∧ c' = cid) as (-> & -> & ->) by (destruct Hx as [-> | ->], Hh as [[=]|[=]]; by subst). exists u, sid. split; by apply Hin.
  - intros ch y c' [H1|H1%list_elem_of_singleton]%elem_of_app; [|subst x; by destruct Hx]. destruct (T4 _ _ _ H1) as (s' & v & vid & ? & ?). exists s', v, vid. split; by apply Hin.
  - intros y s' Hc. apply calm_app in Hc. rewrite took_app, handled_app, (took_handing id s y s' cid fr x Hx), app_nil_r.
    destruct (decide (y = id ∧ s' = s)) as [[-> ->]|Hne]; [rewrite (handled_same _ _ _ _ _ Hx); by apply Hp|].
    rewrite (handled_other _ _ _ _ _ _ _ Hx Hne), app_nil_r. by apply T5.
Qed.
Lemma bound_ext tr xs next d : bound_ok tr next d → (∀ u sid, Bound (pd_serial d) Peer u sid ∉ xs) → bound_ok (tr ++ xs) next d.
Proof.
  intros [B1 B2 B3 B4] H. assert (Hin : ∀ x, x ∈ tr → x ∈ tr ++ xs) by (intros; apply elem_of_app; by left). split.
  - intros s Hs. destruct (B1 s Hs). split; [by apply Hin|done].
  - intros Ha. destruct (B2 Ha) as (? & ? & Hb). split_and!; [done|done|]. intros u sid [|]%elem_of_app; [by eapply Hb|by eapply H].
  - intros Hz. by apply Hin, B3.
  - intros Ha. destruct (B4 Ha). split; [done|by apply Hin].
Qed.
(** The side [s] of a row is bound to a session its connection signed in with. *)
Lemma side_bound tr next d s : bound_ok tr next d → pd_id d ≠ 0 → at_side (pd_conn d) s ≠ 0 →
  Bound (pd_serial d) s (at_side (pd_user d) s) (at_side (pd_session d) s) ∈ tr ∧
  SignedIn (at_side (pd_conn d) s) (at_side (pd_user d) s) (at_side (pd_session d) s) ∈ tr.
Proof.
  intros B Hz Hc. split; [|by apply B]. destruct s; [by apply B|]. apply (bo_accepted _ _ _ B). destruct (pd_accepted d) eqn:Ha; [done|].
  destruct (bo_peer _ _ _ B Ha) as (Hp & _). by cbn in Hc.
Qed.

Lemma dom_heads cid l : cid ∈ dom (heads l) ↔ is_Some (pconn cid l).
Proof. rewrite elem_of_dom. unfold heads, pconn, find_by_id. by rewrite lookup_fmap, fmap_is_Some. Qed.
Lemma heads_pos made l : pinv made l → 0 ∉ dom (heads l).
Proof. intros I [h H]%elem_of_dom. destruct (pv_conns _ _ I _ _ H). lia. Qed.
Lemma row_at made l i d : pinv made l → pl_pdms l !! i = Some d → pd_used d = true → ((pd_id d = 0 ∧ pd_serial d = 0) ∨ (pd_id d ≠ 0 ∧ numbered (pd_serial d) made)) ∧ bound_ok (pl_trace l) (next_conn l) d ∧
  queues_ok (pl_trace l) (dom (heads l)) d.
Proof. intros I E. by apply (proj1 (Forall_lookup _ _) (pv_rows _ _ I) i d E). Qed.
Lemma same_user_counts made l i d d0 : pinv made l → pl_pdms l !! i = Some d0 → pd_used d = pd_used d0 → pd_user d = pd_user d0 →
  ∀ u, count_of u (<[i := d]> (pl_pdms l)) <= OC_PDM_PER_USER.
Proof. intros I E H1 H2 u. etransitivity; [|apply (pv_counts _ _ I u)]. eapply count_insert; [done|]. unfold of_user. by rewrite H1, H2. Qed.
Lemma same_id_apart made l i d d0 : pinv made l → pl_pdms l !! i = Some d0 → pd_used d = pd_used d0 → pd_id d = pd_id d0 → pd_serial d = pd_serial d0 →
  live d → ∀ j d', j ≠ i → pl_pdms l !! j = Some d' → pd_used d' = true → pd_id d' ≠ pd_id d ∧ pd_serial d' ≠ pd_serial d.
Proof.
  intros I E H1 H2 H3 [L1 L2] j d' Hne Hj Hu. assert (L0 : live d0) by (unfold live; by rewrite <- H1, <- H2).
  destruct (decide (pd_id d' = 0)) as [Hz|Hz].
  - destruct (proj1 (Forall_lookup _ _) (pv_rows _ _ I) j d' Hj Hu) as ([[_ Hs]|[? _]] & _); [|done].
    destruct (proj1 (Forall_lookup _ _) (pv_rows _ _ I) i d0 E (proj1 L0)) as ([[? _]|[_ Hn]] & _); [by destruct L0|]. rewrite H3, Hs. unfold numbered in Hn. split; [congruence|lia].
  - split; intros Heq; apply Hne, (pv_ids _ _ I j i d' d0); try done; rewrite <- ?H2, <- ?H3; auto.
Qed.

Lemma give_does e id s fr cid l : is_Some (pconn cid l) → same_net l (pdm_give e id s fr cid l) ∧ pl_pdms (pdm_give e id s fr cid l) = pl_pdms l ∧
  ∃ x, handing id s cid (fst fr) x ∧ pl_trace (pdm_give e id s fr cid l) = pl_trace l ++ [x].
Proof.
  intros [c E]. unfold pdm_give. rewrite E. destruct (hand_aside e (snd fr) cid c l E) as ([N1 N2 N3 N4] & Ep & _). split_and!; [by split|done|].
  eexists. split; [|done]. unfold handing. case_match; auto.
Qed.
Lemma gives_does e id s cid frs : ∀ l, is_Some (pconn cid l) → let l' := foldl (fun l fr => pdm_give e id s fr cid l) l frs in
  same_net l l' ∧ pl_pdms l' = pl_pdms l ∧ ∃ xs, Forall2 (handing id s cid) (fst <$> frs) xs ∧ pl_trace l' = pl_trace l ++ xs.
Proof.
  induction frs as [|fr frs IH]; intros l Hc; [split_and!; try done; exists []; by rewrite app_nil_r|]. cbn [foldl]. destruct (give_does e id s fr cid l Hc) as (N & Ep & x & Hx & Et).
  destruct (IH (pdm_give e id s fr cid l)) as (N' & Ep' & xs & Hxs & Et').
  { apply dom_heads. rewrite (sn_heads _ _ N). by apply dom_heads. }
  split_and!; [by etransitivity|congruence|]. exists (x :: xs). rewrite fmap_cons. split; [by constructor|]. by rewrite Et', Et, <- app_assoc.
Qed.
Lemma trace_gaves made id s cid u sid frs xs : Forall2 (handing id s cid) frs xs → ∀ tr, trace_ok made tr → numbered id made → Bound id s u sid ∈ tr → SignedIn cid u sid ∈ tr →
  (calm id s tr → handled id s tr ++ frs `prefix_of` took id s tr) → trace_ok made (tr ++ xs).
Proof.
  induction 1 as [|fr x frs xs Hx Hxs IH]; intros tr T Hid Hb Hs Hp; [by rewrite app_nil_r|].
  rewrite (app_assoc tr [x] xs : tr ++ x :: xs = _). apply IH; try done.
  - eapply trace_gave; try done. intros Hc. etransitivity; [|by apply Hp]. rewrite (app_assoc _ [fr] frs : handled id s tr ++ fr :: frs = _). by exists frs.
  - apply elem_of_app. by left.
  - apply elem_of_app. by left.
  - intros Hc%calm_app. rewrite handled_app, took_app, (handled_same _ _ _ _ _ Hx), (took_handing _ _ _ _ _ _ _ Hx), app_nil_r, <- app_assoc. by apply Hp.
Qed.
Lemma handled_all id s cid frs xs : Forall2 (handing id s cid) frs xs → handled id s xs = frs.
Proof. induction 1 as [|fr x frs xs Hx Hxs IH]; [done|]. change (x :: xs) with ([x] ++ xs). by rewrite handled_app, (handled_same _ _ _ _ _ Hx), IH. Qed.
Lemma handled_all_other id s s' cid frs xs : s' ≠ s → Forall2 (handing id s cid) frs xs → handled id s' xs = [].
Proof.
  intros Hne. induction 1 as [|fr x frs xs Hx Hxs IH]; [done|]. change (x :: xs) with ([x] ++ xs).
  rewrite handled_app, IH, (handled_other _ _ _ _ _ _ _ Hx) by (by intros []). done.
Qed.
Lemma took_gaves id s s' id' cid frs xs : Forall2 (handing id s cid) frs xs → took id' s' xs = [].
Proof. induction 1 as [|fr x frs xs Hx Hxs IH]; [done|]. change (x :: xs) with ([x] ++ xs). by rewrite took_app, (took_handing _ _ _ _ _ _ _ Hx), IH. Qed.
Lemma handing_in id s cid frs xs x : Forall2 (handing id s cid) frs xs → x ∈ xs → ∃ fr, handing id s cid fr x.
Proof. intros H [i Hi]%list_elem_of_lookup. destruct (Forall2_lookup_r _ _ _ _ _ H Hi) as (fr & _ & Hx). eauto. Qed.

(** A side's connection is there: what was accepted is handed to it. *)
Lemma deliver_now tr opened d s a fr cid x : queues_ok tr opened d → pd_id d ≠ 0 → at_side (pd_conn d) s ∈ opened → handing (pd_serial d) s cid fr x →
  let tr' := tr ++ [Took (pd_serial d) s a fr; x] in
  ∀ s', calm (pd_serial d) s' tr' → took (pd_serial d) s' tr' = handled (pd_serial d) s' tr' ++ (fst <$> at_side (pd_q d) s').
Proof.
  intros Q Hz Hop Hx tr' s' Hc. unfold tr' in *. change [Took (pd_serial d) s a fr; x] with ([Took (pd_serial d) s a fr] ++ [x]) in *. apply calm_app in Hc. rewrite !took_app, !handled_app.
  pose proof (qo_order _ _ _ Q s' Hz Hc) as Ho. rewrite (took_handing _ _ _ _ _ _ _ Hx), app_nil_r.
  assert (handled (pd_serial d) s' [Took (pd_serial d) s a fr] = []) as -> by done. rewrite app_nil_l. destruct (decide (s' = s)) as [->|Hne].
  - rewrite took_same, (handled_same _ _ _ _ _ Hx), Ho. by rewrite (qo_open _ _ _ Q s), !app_nil_r.
  - rewrite took_other, (handled_other _ _ _ _ _ _ _ Hx), !app_nil_r; [done|by intros []|done].
Qed.
Lemma deliver_inv made e i d s fr l : pinv made l → pl_pdms l !! i = Some d → live d → pinv made (snd (pdm_deliver e i s fr l)).
Proof.
  intros I E [Hu Hz]. unfold pdm_deliver. rewrite (pdm_at_lookup _ _ _ E). destruct (row_at made l i d I E Hu) as (Hid & B & Q). destruct Hid as [[]|[_ Hid]]; [done|].
  set (cid := at_side (pd_conn d) s). set (took1 := Took (pd_serial d) s (pd_accepted d) (fst fr)). destruct (negb (cid =? 0) && bool_decide (is_Some (pconn cid l))) eqn:Hop.
  - apply andb_true_iff in Hop as [Hc0%negb_true_iff%Z.eqb_neq Hop%bool_decide_eq_true]. cbn [snd]. destruct (give_does e (pd_serial d) s fr cid (pnote took1 l) Hop) as (N & Ep & x & Hx & Et).
    destruct (side_bound _ _ _ s B Hz Hc0) as [Hb Hs]. apply dom_heads in Hop as Hdom.
    assert (Hxd : of_dm x = Some (pd_serial d)) by (by destruct Hx as [-> | ->]).
    eapply (change_row_same made l _ i d d [took1; x] I); try done.
    + destruct N as [N1 N2 N3 N4]. by split.
    + etransitivity; [exact Ep|]. symmetry. by apply list_insert_id.
    + etransitivity; [exact Et|]. unfold pnote. cbn [pl_trace set_field]. by rewrite <- app_assoc.
    + intros y id Hy Hd. apply elem_of_cons in Hy as [->|Hy]; [by injection Hd as <-|]. apply list_elem_of_singleton in Hy as ->. split; [congruence|done].
    + by apply (same_id_apart made l i d d).
    + intros _. split_and!; [by right|apply bound_ext; [done|intros u sid Hin; apply elem_of_cons in Hin as [|<-%list_elem_of_singleton]; [done|by destruct Hx]]|].
      pose proof (deliver_now _ _ _ s (pd_accepted d) (fst fr) cid x Q Hz Hdom Hx) as Hord. destruct Q as [Q1 Q2 Q3 Q4 Q5]. split; try done; [intros s' _; apply Hord|intros s' Ho Hc; apply Q4; [done|by eapply calm_app]|].
      intros Ha Hq. destruct (Q5 Ha Hq) as [f Hf]. exists f. apply elem_of_app. by left.
    + change [took1; x] with ([took1] ++ [x]). rewrite app_assoc. eapply (trace_gave made _ _ _ _ _ (at_side (pd_user d) s) (at_side (pd_session d) s)); [by apply trace_took; [apply I|]|exact Hx|done|apply elem_of_app; by left|apply elem_of_app; by left|].
      intros Hc%calm_app. rewrite handled_app, took_app. assert (handled (pd_serial d) s [took1] = []) as -> by done. unfold took1. rewrite app_nil_r, took_same, (qo_order _ _ _ Q s Hz Hc).
      by rewrite (qo_open _ _ _ Q s), app_nil_r.
    + by apply (same_user_counts made l i d d).
  - destruct (Z.leb_spec OC_PDM_QUEUE_MAX (zlen (at_side (pd_q d) s))) as [|Hroom]; [done|]. cbn [snd].
    assert (Hno : cid ∉ dom (heads l)).
    { rewrite dom_heads. intros Hs. rewrite (bool_decide_eq_true_2 _ Hs), andb_true_r in Hop. apply negb_false_iff, Z.eqb_eq in Hop. rewrite Hop in Hs. apply dom_heads in Hs. by apply (heads_pos made l I). }
    eapply (change_row_same made l _ i d _ [took1] I); try done.
    + intros x id ->%list_elem_of_singleton [= <-]. done.
    + by apply (same_id_apart made l i _ d).
    + intros _. split_and!; [by right|apply bound_ext; [by destruct B|intros u sid; set_solver]|]. destruct Q as [Q1 Q2 Q3 Q4 Q5].
      split; cbn [pd_q pd_id pd_serial pd_conn pd_accepted set_field].
      * intros s'. destruct (decide (s' = s)) as [->|Hne]; [rewrite side_set_eq, zlen_app; unfold zlen in *; cbn [length]; lia|by rewrite side_set_other].
      * done.
      * intros s' _ Hc. apply calm_app in Hc. rewrite took_app, handled_app, (Q3 s' Hz Hc). assert (handled (pd_serial d) s' [took1] = []) as -> by done. rewrite app_nil_r. unfold took1. destruct (decide (s' = s)) as [->|Hne].
        -- by rewrite side_set_eq, took_same, fmap_app, app_assoc.
        -- by rewrite side_set_other, took_other, app_nil_r.
      * intros s' Ho Hc. destruct (decide (s' = s)) as [->|Hne]; [done|]. rewrite side_set_other by done. apply Q4; [done|by eapply calm_app].
      * intros Ha Hq. destruct s.
        -- destruct (Q5 Ha Hq) as [f Hf]. exists f. apply elem_of_app. by left.
        -- exists (fst fr). apply elem_of_app. right. unfold took1. rewrite Ha. by left.
    + apply trace_took; [apply I|done].
    + by apply (same_user_counts made l i _ d).
Qed.

(** ** A session comes back *)

Lemma attach_side_inv made e cid uid sid i l s : pinv made l → is_Some (pconn cid l) → SignedIn cid uid sid ∈ pl_trace l →
  pd_used (pdm_at i l) = true → pd_id (pdm_at i l) ≠ 0 → let l' := attach_side e cid uid sid i l s in
  pinv made l' ∧ same_net l l' ∧ (∃ xs, pl_trace l' = pl_trace l ++ xs) ∧ pd_used (pdm_at i l') = true ∧ pd_id (pdm_at i l') ≠ 0.
Proof.
  intros I Hc Hs Hu Hz. unfold attach_side. pose proof (used_row i l Hu) as E. set (d := pdm_at i l) in *.
  destruct (_ || _) eqn:G; [split_and!; try done; exists []; by rewrite app_nil_r|].
  rewrite !orb_false_iff, !negb_false_iff, !Z.eqb_eq, Z.eqb_neq in G. destruct G as (((Gu & Gs) & G0) & Gc).
  set (d' := d <| pd_conn := set_side s cid (pd_conn d) |> <| pd_away := set_side s 0 (pd_away d) |> <| pd_q := set_side s [] (pd_q d) |>).
  set (l1 := put_pdm i d' l). destruct (gives_does e (pd_serial d) s cid (at_side (pd_q d) s) l1 Hc) as (N & Ep & xs & Hf2 & Et). set (l' := foldl _ l1 _) in *.
  pose proof (lookup_lt_Some _ _ _ E) as Hi.
  assert (Hat : pdm_at i l' = d') by (apply pdm_at_lookup; rewrite Ep; by apply list_lookup_insert_eq).
  destruct (row_at made l i d I E Hu) as ([[]|[_ Hid]] & B & Q); [done|]. apply dom_heads in Hc as Hc'. pose proof Hc' as [h Hh]%elem_of_dom. destruct (pv_conns _ _ I _ _ Hh) as [Hc0 Hcn].
  assert (Hb : Bound (pd_serial d) s uid sid ∈ pl_trace l).
  { rewrite <- Gu, <- Gs. destruct s; [by apply B|]. apply B. destruct (pd_accepted d) eqn:Ha; [done|]. destruct (bo_peer _ _ _ B Ha) as (_ & Hp & _). by cbn in G0. }
  assert (Hxs : ∀ x, x ∈ xs → ∃ fr, handing (pd_serial d) s cid fr x) by (intros x; by eapply handing_in).
  split_and!; [|by etransitivity; [|exact N]|exists xs; exact Et|by rewrite Hat|by rewrite Hat].
  eapply (change_row_same made l l' i d d' xs I); try done.
  - by etransitivity; [|exact N].
  - intros x id Hx Hd. destruct (Hxs x Hx) as [fr [-> | ->]]; by injection Hd as <-.
  - by apply (same_id_apart made l i d' d).
  - intros _. split_and!; [by right| |].
    + apply bound_ext; [|intros u v Hx; by destruct (Hxs _ Hx) as [? [|]]]. destruct B as [B1 B2 B3 B4]. split; try done; cbn [d' pd_conn pd_user pd_session pd_accepted pd_id pd_serial set_field].
      * intros s'. destruct (decide (s' = s)) as [->|Hne]; [|rewrite side_set_other by done; apply B1]. rewrite side_set_eq. intros _. by rewrite Gu, Gs.
      * intros Ha. destruct (B2 Ha) as (Hp1 & Hp2 & Hp3). destruct s; [done|by cbn in G0].
    + destruct Q as [Q1 Q2 Q3 Q4 Q5]. split; cbn [d' pd_q pd_id pd_serial pd_conn pd_accepted set_field].
      * intros s'. destruct (decide (s' = s)) as [->|Hne]; [by rewrite side_set_eq|rewrite side_set_other by done; apply Q1].
      * done.
      * intros s' _ Hcm. rewrite took_app, handled_app, (took_gaves _ _ _ _ _ _ _ Hf2), app_nil_r. apply calm_app in Hcm. rewrite (Q3 s' Hz Hcm). destruct (decide (s' = s)) as [->|Hne].
        -- by rewrite side_set_eq, (handled_all _ _ _ _ _ Hf2), app_nil_r.
        -- by rewrite side_set_other, (handled_all_other _ _ _ _ _ _ Hne Hf2), app_nil_r.
      * intros s'. destruct (decide (s' = s)) as [->|Hne]; [by rewrite !side_set_eq|]. rewrite !side_set_other by done. intros Ho Hcm. apply Q4; [done|by eapply calm_app].
      * intros Ha Hq. destruct s; [|done]. destruct (Q5 Ha Hq) as [f Hf]. exists f. apply elem_of_app. by left.
  - eapply trace_gaves; try done; [apply I|]. intros Hcm. by rewrite (qo_order _ _ _ Q s Hz Hcm).
  - by apply (same_user_counts made l i d' d).
Qed.
Lemma attach_row_inv made e cid uid sid i l : pinv made l → is_Some (pconn cid l) → SignedIn cid uid sid ∈ pl_trace l →
  let l' := attach_row e cid uid sid l i in pinv made l' ∧ same_net l l' ∧ ∃ xs, pl_trace l' = pl_trace l ++ xs.
Proof.
  intros I Hc Hs. unfold attach_row. destruct (pd_used (pdm_at i l)) eqn:Hu; [|split_and!; [done|done|exists []; by rewrite app_nil_r]].
  destruct (Z.eqb_spec (pd_id (pdm_at i l)) 0) as [|Hz]; [split_and!; [done|done|exists []; by rewrite app_nil_r]|]. cbn [negb orb].
  destruct (attach_side_inv made e cid uid sid i l Opener I Hc Hs Hu Hz) as (I1 & N1 & (xs1 & T1) & Hu1 & Hz1). set (l1 := attach_side e cid uid sid i l Opener) in *.
  assert (Hc1 : is_Some (pconn cid l1)) by (apply dom_heads; rewrite (sn_heads _ _ N1); by apply dom_heads).
  destruct (attach_side_inv made e cid uid sid i l1 Peer I1 Hc1 ltac:(rewrite T1; apply elem_of_app; by left) Hu1 Hz1) as (I2 & N2 & (xs2 & T2) & _ & _).
  set (l2 := attach_side e cid uid sid i l1 Peer) in *. assert (N : same_net l l2) by (by transitivity l1).
  assert (T : pl_trace l2 = pl_trace l ++ xs1 ++ xs2) by (by rewrite T2, T1, app_assoc).
  assert (Hstay : pinv made l2 ∧ same_net l l2 ∧ ∃ xs, pl_trace l2 = pl_trace l ++ xs) by eauto.
  destruct (negb _ && _); [|exact Hstay]. destruct (pdm_bytes _ _) as [buf|]; [|exact Hstay].
  destruct (send_aside e (invite_frame (pdm_at i l2), buf) cid l2) as (N3 & E3 & xs3 & T3 & F3). split_and!.
  - eapply aside_inv; [exact I2|]. apply send_aside.
  - by transitivity l2.
  - exists ((xs1 ++ xs2) ++ xs3). etransitivity; [exact T3|]. by rewrite T, !app_assoc.
Qed.
Lemma attach_inv made e cid l u g j : pinv made l → heads l !! cid = Some (true, u, g, j) → pinv made (pdm_attach e cid l).
Proof.
  intros I Hh. pose proof (pv_sign _ _ I _ _ _ _ Hh) as Hs. unfold pdm_attach, pconn, find_by_id. unfold heads in Hh. rewrite lookup_fmap in Hh.
  destruct (lp_conns (pl_net l) !! cid) as [c|] eqn:E; [|done]. assert (u = cn_user c) as -> by (by injection Hh).
  assert (Hc : is_Some (pconn cid l)) by (unfold pconn, find_by_id; by rewrite E). generalize dependent (px_session (extra cid l)). intros sid Hs. generalize (seq 0 OC_PDM_MAX). clear E Hh. intros rows.
  revert l I Hs Hc. induction rows as [|i rows IH]; intros l I Hs Hc; [done|]. cbn [foldl]. destruct (attach_row_inv made e cid (cn_user c) sid i l I Hc Hs) as (I' & N & xs & T).
  apply IH; [done|rewrite T; apply elem_of_app; by left|]. apply dom_heads. rewrite (sn_heads _ _ N). by apply dom_heads.
Qed.

(** ** Sign-ins and new connections *)

Lemma auth_inv made e cid uid sid kept l : pinv made l → pinv made (pdm_auth_ok e cid uid sid kept l).
Proof.
  intros I. unfold pdm_auth_ok, pconn at 1, find_by_id. destruct (lp_conns (pl_net l) !! cid) as [c|] eqn:E; [|done].
  destruct (auth_conns cid uid (pl_net l) c E) as (E1 & _ & _ & _ & E5 & _). set (l1 := l <| pl_net := auth_ok cid uid (pl_net l) |>).
  set (l2 := pnote _ (put_extra cid _ l1)). assert (Hh : heads l2 = <[cid := (true, uid, cn_call_gen c, cn_call_join_ch c)]> (heads l)).
  { transitivity (core <$> lp_conns (auth_ok cid uid (pl_net l))); [done|]. rewrite E1, fmap_insert. done. }
  assert (Hn : next_conn l2 = next_conn l) by exact E5. assert (Ho : heads l !! cid = Some (core c)) by (unfold heads; by rewrite lookup_fmap, E).
  assert (I2 : pinv made l2).
  { apply (net_inv made l l2 [SignedIn cid uid sid]); try done; rewrite ?Hn; try done.
    - by constructor.
    - split; [done|apply (pv_next _ _ I)].
    - intros d h. rewrite Hh. intros [[<- _]|[_ Hd]]%lookup_insert_Some; by eapply (pv_conns _ _ I).
    - intros d u g j. rewrite Hh. unfold l2, pnote. cbn [pl_trace set_field]. intros [[<- [= <- _ _]]|[Hne Hd]]%lookup_insert_Some; apply elem_of_app.
      + right. unfold extra, put_extra. cbn [pl_extra set_field]. rewrite lookup_insert_eq. by left.
      + left. unfold extra, put_extra. cbn [pl_extra set_field]. rewrite lookup_insert_ne by done. by eapply (pv_sign _ _ I).
    - intros d _. rewrite Hh, dom_insert. intros [->%elem_of_singleton|]%elem_of_union; [by apply elem_of_dom|done]. }
  destruct kept; [|by apply close_inv]. eapply attach_inv; [done|]. by rewrite Hh, lookup_insert_eq.
Qed.
Lemma new_conn_inv made max l : pinv made l → next_conn l <= t → t + 1 < 2 ^ 64 → let cid := next_conn l in
  let l' := put_extra cid (mk_pextra 0 (mk_rate_win 0 0) (mk_rate_win 0 0) max) (l <| pl_net := index_add (pl_net l) |>) in
  pinv made l'.
Proof.
  intros I Hn Ht cid l'. pose proof (pv_next _ _ I) as H0. assert (Hnx : next_conn l' = next_conn l + 1) by (apply u64_id; unfold is_u64; lia).
  assert (Hh : heads l' = <[cid := core conn_zero]> (heads l)) by (unfold heads, l', put_extra, index_add, put_conn; cbn; by rewrite fmap_insert).
  assert (Hx : ∀ d, d ≠ cid → px_session (extra d l') = px_session (extra d l)) by (intros d Hd; unfold extra, l', put_extra; cbn [pl_extra set_field]; by rewrite lookup_insert_ne).
  apply (net_inv made l l' []); try done; rewrite ?Hnx; try lia; try (by rewrite app_nil_r).
  - intros d h. rewrite Hh. intros [[<- _]|[_ Hd]]%lookup_insert_Some; [unfold cid; lia|]. destruct (pv_conns _ _ I _ _ Hd). lia.
  - intros d u g j. rewrite Hh. intros [[_ ?]|[Hne Hd]]%lookup_insert_Some; [done|]. rewrite Hx by done. by apply (pv_sign _ _ I _ _ _ _ Hd).
  - intros d Hd. rewrite Hh, dom_insert. intros [->%elem_of_singleton|]%elem_of_union; [unfold cid in Hd; lia|done].
Qed.

(** ** New rows, and rows that are bound *)

Lemma queues_ext tr xs opened d : queues_ok tr opened d → (∀ s, took (pd_serial d) s xs = [] ∧ handled (pd_serial d) s xs = []) → queues_ok (tr ++ xs) opened d.
Proof.
  intros [Q1 Q2 Q3 Q4 Q5] H. split; try done.
  - intros s Hz Hc. destruct (H s) as [H1 H2]. rewrite took_app, handled_app, H1, H2, !app_nil_r. apply Q3; [done|by eapply calm_app].
  - intros s Ho Hc. apply Q4; [done|by eapply calm_app].
  - intros Ha Hq. destruct (Q5 Ha Hq) as [f Hf]. exists f. apply elem_of_app. by left.
Qed.
Lemma trace_bound made tr id s u sid : trace_ok made tr → numbered id made → (∀ u' sid', Bound id s u' sid' ∉ tr) → trace_ok made (tr ++ [Bound id s u sid]).
Proof.
  intros [T1 T2 T3 T4 T5] Hid Hno. assert (Hin : ∀ x, x ∈ tr → x ∈ tr ++ [Bound id s u sid]) by (intros; apply elem_of_app; by left). split.
  - intros x y [Hx|Hx%list_elem_of_singleton]%elem_of_app Hy; [by eapply T1|subst x; by injection Hy as <-].
  - intros y s' v vid v' vid' [H1|H1%list_elem_of_singleton]%elem_of_app [H2|H2%list_elem_of_singleton]%elem_of_app.
    + by eapply T2.
    + injection H2 as -> -> -> ->. by destruct (Hno _ _ H1).
    + injection H1 as -> -> -> ->. by destruct (Hno _ _ H2).
    + injection H1 as -> -> -> ->. by injection H2 as -> ->.
  - intros x y s' cid f [H1|H1%list_elem_of_singleton]%elem_of_app Hh; [|subst x; by destruct Hh]. destruct (T3 _ _ _ _ _ H1 Hh) as (v & vid & ? & ?). exists v, vid. split; by apply Hin.
  - intros ch y cid [H1|H1%list_elem_of_singleton]%elem_of_app; [|done]. destruct (T4 _ _ _ H1) as (s' & v & vid & ? & ?). exists s', v, vid. split; by apply Hin.
  - intros y s' Hc. rewrite took_app, handled_app. assert (took y s' [Bound id s u sid] = []) as -> by done. assert (handled y s' [Bound id s u sid] = []) as -> by done. rewrite !app_nil_r. apply T5. by eapply calm_app.
Qed.
Lemma trace_fanned made tr ch id cid s u sid : trace_ok made tr → numbered id made → Bound id s u sid ∈ tr → SignedIn cid u sid ∈ tr → trace_ok made (tr ++ [Fanned ch (Some id) cid]).
Proof.
  intros [T1 T2 T3 T4 T5] Hid Hb Hs. set (x := Fanned ch (Some id) cid). assert (Hin : ∀ y, y ∈ tr → y ∈ tr ++ [x]) by (intros; apply elem_of_app; by left). split.
  - intros z y [Hx|Hx%list_elem_of_singleton]%elem_of_app Hy; [by eapply T1|subst z; by injection Hy as <-].
  - intros y s' v vid v' vid' [H1|H1%list_elem_of_singleton]%elem_of_app [H2|H2%list_elem_of_singleton]%elem_of_app; try done. by eapply T2.
  - intros z y s' c' f [H1|H1%list_elem_of_singleton]%elem_of_app Hh; [|subst z; by destruct Hh]. destruct (T3 _ _ _ _ _ H1 Hh) as (v & vid & ? & ?). exists v, vid. split; by apply Hin.
  - intros ch' y c' [H1|H1%list_elem_of_singleton]%elem_of_app; [destruct (T4 _ _ _ H1) as (s' & v & vid & ? & ?); exists s', v, vid; split; by apply Hin|].
    injection H1 as -> -> ->. exists s, u, sid. split; by apply Hin.
  - intros y s' Hc. rewrite took_app, handled_app. assert (took y s' [x] = []) as -> by done. assert (handled y s' [x] = []) as -> by done. rewrite !app_nil_r. apply T5. by eapply calm_app.
Qed.
Lemma count_more u ds i d d0 : ds !! i = Some d0 → count_of u (<[i := d]> ds) <= count_of u ds + (if of_user u d then 1 else 0).
Proof.
  intros E. destruct (of_user u d) eqn:Hd; [|rewrite Z.add_0_r; eapply count_insert; [done|congruence]].
  pose proof (lookup_lt_Some _ _ _ E) as Hi. unfold count_of. rewrite <- (take_drop_middle ds i d0 E) at 2. rewrite insert_take_drop by done.
  rewrite !filter_app, !filter_cons, !zlen_app. rewrite decide_True by (by apply Is_true_eq_left). unfold zlen. case_decide; cbn [length]; lia.
Qed.

Lemma open_row_inv made e cid u sid peer hs i d0 l : pinv made l → pl_pdms l !! i = Some d0 → pd_used d0 = false → is_Some (pconn cid l) →
  SignedIn cid u sid ∈ pl_trace l → pdm_count_of u l < OC_PDM_PER_USER → pdm_count_of peer l < OC_PDM_PER_USER →
  pinv made (pnote (OpenJob cid u peer) (put_pdm i (mk_pdm true 0 false (mk_two u peer) (mk_two sid 0) (mk_two cid 0) (mk_two 0 0) (mk_two [] []) hs None (e_now e) 0) l)).
Proof.
  intros I E Hu Hc Hs H1 H2. set (d := mk_pdm _ _ _ _ _ _ _ _ _ _ _ _). apply dom_heads, elem_of_dom in Hc as [h Hh]. destruct (pv_conns _ _ I _ _ Hh) as [Hc0 Hcn].
  eapply (change_row_same made l _ i d0 d [OpenJob cid u peer] I); try done.
  - intros x id ->%list_elem_of_singleton ?. done.
  - by intros [_ ?].
  - intros _. split_and!; [by left| |].
    + apply bound_ext; [|intros ? ? ?%list_elem_of_singleton; done]. split; try done.
      * intros [] Hne; [by split|done].
      * intros _. split_and!; try done. intros v vid Hb. pose proof (to_made _ _ (pv_trace _ _ I) _ _ Hb eq_refl) as Hn. unfold numbered in Hn. cbn in Hn. lia.
    + split; unfold d; cbn [pd_q pd_id pd_serial pd_conn pd_accepted].
      * by intros [].
      * by intros _ [].
      * by intros s Hz.
      * by intros [].
      * by intros _ [].
  - by apply trace_plain; [apply I|constructor].
  - intros v. etransitivity; [by apply (count_more v _ i d d0 E)|]. pose proof (pv_counts _ _ I v). destruct (of_user v d) eqn:Hv; [|lia].
    unfold of_user in Hv. cbn in Hv. apply orb_true_iff in Hv as [Hv%Z.eqb_eq|Hv%Z.eqb_eq]; subst v;
      [change (pdm_count_of u l) with (count_of u (pl_pdms l)) in H1|change (pdm_count_of peer l) with (count_of peer (pl_pdms l)) in H2]; lia.
Qed.
Lemma made_row_inv made r i d l : pinv made l → ma_channel r ≠ 0 → pdm_find (ma_channel r) l = None → pl_pdms l !! i = Some d → pd_used d = true → pd_id d = 0 →
  pinv (made + 1) (pnote (Bound (made + 1) Opener (at_opener (pd_user d)) (at_opener (pd_session d)))
    (put_pdm i (d <| pd_id := ma_channel r |> <| pd_peer_info := in_g_enc (dm_info r (at_opener (pd_user d))) |> <| pd_serial := made + 1 |>) l <| pl_serial := made + 1 |>)).
Proof.
  intros I Hr Hnew E Hu Hz. destruct (row_at made l i d I E Hu) as (_ & B & Q). pose proof (pv_trace _ _ I) as T. destruct (pv_made _ _ I) as [_ Hm].
  assert (Hno : ∀ x, x ∈ pl_trace l → of_dm x ≠ Some (made + 1)) by (intros x Hx Hd; destruct (to_made _ _ T x _ Hx Hd); lia).
  assert (Ha : pd_accepted d = false) by (destruct (pd_accepted d) eqn:Ha; [|done]; by destruct (bo_accepted _ _ _ B Ha)).
  set (bd := Bound _ _ _ _). assert (Hnb : ∀ s u sid, Bound (made + 1) s u sid ∉ pl_trace l) by (intros s u sid Hx; by apply (Hno _ Hx)).
  eapply (change_row made (made + 1) l _ i d _ [bd] I); try done.
  - lia.
  - intros x id ->%list_elem_of_singleton [= <-]. done.
  - intros _ j d' Hne Hj Hu'. cbn. split.
    + intros Heq. unfold pdm_find in Hnew. rewrite (proj2 (Z.eqb_neq _ _) Hr) in Hnew. apply list_elem_of_lookup_2 in Hj.
      pose proof (find_index_None _ _ d' Hnew Hj) as Hf. cbn in Hf. by rewrite Hu', Heq, Z.eqb_refl in Hf.
    + destruct (row_at made l j d' I Hj Hu') as [[[_ ->]|[_ [_ Hn]]] _]; lia.
  - intros _. split_and!; [right; split; [done|unfold numbered; cbn; lia]| |].
    + destruct B as [B1 B2 B3 B4]. destruct (B2 Ha) as (P1 & P2 & _). split; cbn [pd_id pd_serial pd_conn pd_user pd_session pd_accepted set_field].
      * intros s Hs. destruct (B1 s Hs). split; [apply elem_of_app; by left|done].
      * intros _. split_and!; [done|done|]. intros u sid [Hx|Hx%list_elem_of_singleton]%elem_of_app; [by eapply Hnb|done].
      * intros _. apply elem_of_app. right. by left.
      * intros Ha'. congruence.
    + destruct Q as [Q1 Q2 Q3 Q4 Q5]. split; cbn [pd_id pd_serial pd_q pd_conn pd_accepted set_field].
      * done.
      * done.
      * intros s _ _. rewrite took_app, handled_app, (took_none _ _ (pl_trace l)), (handled_none _ _ (pl_trace l)), (Q2 Hz s) by done. done.
      * intros s _ _. by apply Q2.
      * intros _ Hq. pose proof (Q2 Hz Peer) as Hq'. cbn in Hq'. congruence.
  - apply trace_bound; [|unfold numbered; lia|by apply Hnb]. destruct T as [T1 T2 T3 T4 T5]. split; try done. intros x id Hx Hd. destruct (T1 x id Hx Hd). unfold numbered. lia.
  - by apply (same_user_counts made l i _ d).
Qed.
Lemma accept_row_inv made cid sid i d l : pinv made l → pl_pdms l !! i = Some d → live d → pd_accepted d = false → is_Some (pconn cid l) →
  SignedIn cid (at_peer (pd_user d)) sid ∈ pl_trace l →
  pinv made (pnote (Bound (pd_serial d) Peer (at_peer (pd_user d)) sid)
    (put_pdm i (d <| pd_accepted := true |> <| pd_session := set_side Peer sid (pd_session d) |> <| pd_conn := set_side Peer cid (pd_conn d) |>) l)).
Proof.
  intros I E [Hu Hz] Ha Hc Hs. destruct (row_at made l i d I E Hu) as ([[]|[_ Hid]] & B & Q); [done|]. pose proof (pv_trace _ _ I) as T. destruct (bo_peer _ _ _ B Ha) as (P1 & P2 & P3).
  apply dom_heads, elem_of_dom in Hc as Hc'. destruct Hc' as [h Hh]. destruct (pv_conns _ _ I _ _ Hh) as [Hc0 Hcn]. set (bd := Bound _ _ _ _).
  eapply (change_row_same made l _ i d _ [bd] I); try done.
  - intros x id ->%list_elem_of_singleton [= <-]. done.
  - by apply (same_id_apart made l i _ d).
  - intros _. split_and!; [by right| |].
    + destruct B as [B1 B2 B3 B4]. split; cbn [pd_id pd_serial pd_conn pd_user pd_session pd_accepted set_field]; try done.
      * intros [] Hne; cbn in Hne |- *; [destruct (B1 Opener Hne); split; [apply elem_of_app; by left|done]|split; [apply elem_of_app; by left|done]].
      * intros _. apply elem_of_app. left. by apply B3.
      * intros _. split; [done|]. apply elem_of_app. right. by left.
    + destruct Q as [Q1 Q2 Q3 Q4 Q5]. split; cbn [pd_id pd_serial pd_q pd_conn pd_accepted set_field]; try done.
      * intros s _ Hcm. rewrite took_app, handled_app. assert (took (pd_serial d) s [bd] = []) as -> by done. assert (handled (pd_serial d) s [bd] = []) as -> by done. rewrite !app_nil_r. apply Q3; [done|by eapply calm_app].
      * intros [] Ho Hcm; [apply (Q4 Opener); [done|by eapply calm_app]|]. destruct (at_peer (pd_q d)) as [|fr q] eqn:Hq; [done|]. destruct (Q5 Ha ltac:(done)) as [f Hf].
        exfalso. apply (Hcm eq_refl f). apply elem_of_app. by left.
  - apply trace_bound; [done|done|]. exact P3.
  - by apply (same_user_counts made l i _ d).
Qed.
(** What a walk over members notes: of a live DM's row, or of no conversation. *)
Definition only_row (eff : Z → pdm_effect) (only : option nat) (l : ploop) : Prop :=
  match only with
  | Some i => ∃ d ch, pl_pdms l !! i = Some d ∧ live d ∧ ∀ cid, eff cid = Fanned ch (Some (pd_serial d)) cid
  | None => ∀ cid, of_dm (eff cid) = None
  end.
Lemma fanned_inv made eff only cid l : pinv made l → only_row eff only l → (∀ i, only = Some i → pdm_conn_bound (pdm_at i l) cid = true) →
  pinv made (pnote (eff cid) l).
Proof.
  intros I Ho Hb. destruct only as [i|]; [|eapply aside_inv; [exact I|by apply note_aside, Ho]]. destruct Ho as (d & ch & E & [Hu Hz] & ->). specialize (Hb i eq_refl). rewrite (pdm_at_lookup _ _ _ E) in Hb.
  destruct (row_at made l i d I E Hu) as ([[]|[_ Hm]] & B & Q); [done|]. apply andb_true_iff in Hb as [Hc0%negb_true_iff%Z.eqb_neq Hb].
  assert (∃ s, at_side (pd_conn d) s = cid) as [s Hs].
  { apply orb_true_iff in Hb as [Hb%Z.eqb_eq|[_ Hb%Z.eqb_eq]%andb_true_iff]; [by exists Opener|by exists Peer]. }
  destruct (side_bound _ _ _ s B Hz ltac:(by rewrite Hs)) as [Hb1 Hb2]. rewrite Hs in Hb2.
  eapply (change_row_same made l _ i d d [Fanned ch (Some (pd_serial d)) cid] I); try done.
  - symmetry. by apply list_insert_id.
  - intros x id ->%list_elem_of_singleton [= <-]. done.
  - by apply (same_id_apart made l i d d).
  - intros _. split_and!; [by right|apply bound_ext; [done|intros ? ? ?%list_elem_of_singleton; done]|]. apply queues_ext; [done|]. intros s'. by split.
  - by eapply trace_fanned; [apply I|..].
  - by apply (same_user_counts made l i d d).
Qed.
End invariant.
Lemma pinv_later t t' made l : t <= t' → @pinv t made l → @pinv t' made l.
Proof. intros Ht [V1 V2 V3 V4 V5 V6 V7 V8 V9]. split; try done. lia. Qed.
