(* ===== verification/PdmMain.v ===== *)
(** * What the encrypted DMs promise

    Over every run of the loop: a conversation stays between two devices, what is
    sent in it arrives in order however often a device comes and goes, the tables
    stay within their limits, and a session that comes back finds its place.  And
    three things that go wrong. *)
From stdpp Require Import base tactics list numbers gmap strings.
From S2P Require Import Prelude.
From S2P Require Import Wire.
From S2P Require Import ProtoTypes.
From S2P Require Import ProtoCall.
From S2P Require Import Demolimits.
From S2P Require Import Outq.
From S2P Require Import Calls.
From S2P Require Import CallsInv.
From S2P Require Import CallsStep.
From S2P Require Import CallsRun.
From S2P Require Import Pdm.
From S2P Require Import PdmInv.
Local Open Scope Z_scope.
Local Open Scope oc_scope.

(** ** Frames *)

Section frames.
Context {t : Z}.
Local Notation pinv := (@pinv t).
Definition kept (made : Z) (o : outcome) : Prop :=
  match o with Went l | Closes l => pinv made l | Fault => True end.
Lemma kept_aside made l l' : pinv made l → aside_only l l' → kept made (Went l').
Proof. apply aside_inv. Qed.
Lemma kept_full made fr cid l k : pinv made l → (pinv made (snd (pdm_append fr cid l)) → kept made (k (snd (pdm_append fr cid l)))) → kept made (unless_full (pdm_append fr cid l) k).
Proof.
  intros I Hk. unfold unless_full. assert (I' : pinv made (snd (pdm_append fr cid l))) by (eapply aside_inv; [exact I|apply append_aside]).
  destruct (fst _); [by apply Hk|done].
Qed.
Lemma kept_reply made fr cid l : pinv made l → kept made (reply_if fr cid l).
Proof. intros I. destruct fr; [|done]. by apply kept_full. Qed.
Lemma rate_aside e cid l : aside_only l (snd (pdm_rate_ok e cid l)) ∧ pl_net (snd (pdm_rate_ok e cid l)) = pl_net l.
Proof. unfold pdm_rate_ok. destruct (win_ok _ _ _ _). split; [|done]. by apply put_extra_aside. Qed.
Lemma send_rate_aside e cid l : aside_only l (snd (send_rate_ok e cid l)) ∧ pl_net (snd (send_rate_ok e cid l)) = pl_net l.
Proof. unfold send_rate_ok. case_match; [done|]. destruct (win_ok _ _ _ _). split; [|done]. by apply put_extra_aside. Qed.
Lemma kept_pass made e i d s fr l : pinv made l → pl_pdms l !! i = Some d → live d → kept made (pass_on e i s fr l).
Proof.
  intros I E L. unfold pass_on. destruct (in_g_enc fr) as [f|]; [|done]. pose proof (deliver_inv made e i d (other s) f l I E L) as I'.
  destruct (pdm_deliver e i (other s) f l) as [[] l']; cbn [snd] in I'; [done|]. by apply end_inv.
Qed.

(** A connection that has signed in sends a frame. *)
Definition speaks (cid : Z) (c : conn) (l : ploop) : Prop := pconn cid l = Some c ∧ cn_authed c = true.
Lemma speaks_signed made cid c l : pinv made l → speaks cid c l → SignedIn cid (cn_user c) (px_session (extra cid l)) ∈ pl_trace l.
Proof.
  intros I [E Ha]. assert (Hc : core c = (true, cn_user c, cn_call_gen c, cn_call_join_ch c)) by (unfold core; by rewrite Ha).
  apply (pv_sign _ _ I cid _ (cn_call_gen c) (cn_call_join_ch c)). unfold heads. unfold pconn, find_by_id in E. rewrite lookup_fmap, E. exact (f_equal Some Hc).
Qed.
Lemma accept_inv made e cid c i d l : pinv made l → speaks cid c l → pl_pdms l !! i = Some d → live d → pd_accepted d = false → at_peer (pd_user d) = cn_user c →
  let l' := snd (pdm_accept e cid i l) in pinv made l' ∧ ∃ d', pl_pdms l' !! i = Some d' ∧ live d'.
Proof.
  intros I Sp E L Ha Hp. unfold pdm_accept. rewrite (pdm_at_lookup _ _ _ E). pose proof (speaks_signed made cid c l I Sp) as Hs. rewrite <- Hp in Hs.
  set (sid := px_session (extra cid l)) in *. assert (Hc : is_Some (pconn cid l)) by (destruct Sp as [-> _]; eauto).
  pose proof (accept_row_inv made cid sid i d l I E L Ha Hc Hs) as I1. set (l1 := pnote _ (put_pdm i _ l)) in *.
  assert (E1 : ∃ d', pl_pdms l1 !! i = Some d' ∧ live d') by (eexists; split; [apply list_lookup_insert_eq; by eapply lookup_lt_Some|done]).
  assert (A : aside_only l1 (snd (match pd_peer_info d with Some fr => pdm_append fr cid (pdm_withdraw_invite e i cid OC_PDM_END_TAKEN l1) | None => (true, pdm_withdraw_invite e i cid OC_PDM_END_TAKEN l1) end))).
  { etransitivity; [apply withdraw_aside|]. destruct (pd_peer_info d); [apply append_aside|done]. }
  split; [by eapply aside_inv|]. destruct A as (_ & EA & _). cbv zeta. rewrite EA. exact E1.
Qed.
Lemma frame_inv made e cid c ty payload l : pinv made l → speaks cid c l → kept made (on_pdm_frame e cid c ty payload l).
Proof.
  intros I Sp. unfold on_pdm_frame, decoded_pdm. destruct ty; (destruct (run_decode _ payload) as [|m]; [done|]).
  - unfold on_pdm_open. destruct (rate_aside e cid l) as [A N]. destruct (pdm_rate_ok e cid l) as [[] l1]; cbn [snd negb] in *; pose proof (aside_inv _ _ _ I A) as I1; [|by apply kept_reply].
    assert (Sp1 : speaks cid c l1) by (unfold speaks, pconn in *; by rewrite N). destruct (_ && _ && _ && _ && _) eqn:G; [|by apply kept_reply].
    rewrite !andb_true_iff, !Z.ltb_lt in G. destruct G as [[_ G1] G2]. destruct (find_index _ (pl_pdms l1)) as [i|] eqn:Ei; [|by apply kept_reply].
    apply find_index_Some in Ei as (d0 & E & Hu%negb_true_iff). cbn [kept]. apply (open_row_inv made e cid (cn_user c) _ (pdm_open_peer m) (pdm_open_hs m) i d0); try done.
    + destruct Sp1 as [-> _]. eauto.
    + by apply (speaks_signed made).
  - unfold on_pdm_hs. destruct (rate_aside e cid l) as [A N]. destruct (pdm_rate_ok e cid l) as [[] l1]; cbn [snd negb] in *; pose proof (aside_inv _ _ _ I A) as I1; [|by apply kept_reply].
    assert (Sp1 : speaks cid c l1) by (unfold speaks, pconn in *; by rewrite N). destruct (pdm_find _ l1) as [i|] eqn:Ef; [|by apply kept_reply].
    apply pdm_find_spec in Ef as (d & E & -> & L & _). destruct (pdm_side_of d cid) as [s|]; [by eapply kept_pass|].
    destruct (pd_accepted d) eqn:Ha; cbn [negb andb]; [by apply kept_reply|]. destruct (Z.eqb_spec (at_peer (pd_user d)) (cn_user c)) as [Hp|]; [|by apply kept_reply].
    destruct (accept_inv made e cid c i d l1 I1 Sp1 E L Ha Hp) as (I2 & d' & E2 & L2). unfold unless_full. destruct (fst _); [by eapply kept_pass|done].
  - unfold on_pdm_send. destruct (send_rate_aside e cid l) as [A N]. destruct (send_rate_ok e cid l) as [[] l1]; cbn [snd negb] in *; pose proof (aside_inv _ _ _ I A) as I1; [|done].
    pose proof (demo_ok_quiet (e_now e) OC_DL_MESSAGE (cn_user c) (pl_net l1)) as Q. destruct (demo_ok _ _ _ _) as [ok net]. cbn [snd] in Q.
    assert (I2 : pinv made (l1 <| pl_net := net |>)).
    { eapply aside_inv; [exact I1|]. destruct Q as [Q _]. split_and!; [|done|exists []; by rewrite app_nil_r]. split; [exact (ev_conns _ _ Q)|exact (ev_nconn _ _ Q)|done|done]. }
    destruct ok; cbn [negb]; [|unfold demo_refuse_message; destruct (error_ready _ _ _); [by apply kept_full|done]].
    destruct (pdm_find _ _) as [i|] eqn:Ef; [|by apply kept_reply]. apply pdm_find_spec in Ef as (d & E & -> & L & _).
    destruct (if pd_accepted d then pdm_side_of d cid else None) as [s|]; [by eapply kept_pass|by apply kept_reply].
  - unfold on_pdm_end. cbn [kept]. destruct (pdm_find _ l) as [i|]; [|done]. case_match; [by apply end_inv|]. case_match; [by apply end_inv|done].
Qed.

(** ** Results *)

(** No live DM has the id of a channel just made: it is the primary key of a row that
    goes no earlier than a day after the DM ended. *)
Definition unused (ev : pdm_event) (l : ploop) : bool :=
  match ev with PvMade r => (ma_channel r =? 0) || negb (bool_decide (is_Some (pdm_find (ma_channel r) l))) | _ => true end.
Lemma announce_aside e a b x cid peer l : aside_only l (let l := send_if e a cid l in let l := send_if e b cid l in
  match x with Some fr => foldl (fun l t => pdm_send e fr t l) l (pusers peer l) | None => l end).
Proof. cbv zeta. etransitivity; [apply send_if_aside|]. etransitivity; [apply send_if_aside|]. destruct x; [|done]. apply aside_fold. intros. apply send_aside. Qed.
Lemma opened_inv made e r l : pinv made l → unused (PvMade r) l = true → ∃ made', pinv made' (pdm_opened e r l).
Proof.
  intros I Hnew. unfold pdm_opened. destruct (pdm_opening r l) as [i|] eqn:Ei.
  2:{ exists made. case_match; [done|]. eapply aside_inv; [exact I|by apply note_aside]. }
  apply find_index_Some in Ei as (d & E & H). rewrite !andb_true_iff, !Z.eqb_eq in H. destruct H as [[[Hu Hz] _] _]. rewrite (pdm_at_lookup _ _ _ E).
  destruct (pconn _ l); [|by exists made; apply free_inv]. destruct (Z.eqb_spec (ma_channel r) 0) as [Hr|Hr].
  { exists made. apply free_inv. eapply aside_inv; [exact I|]. apply send_end_aside. }
  assert (Hf : pdm_find (ma_channel r) l = None).
  { cbn [unused] in Hnew. apply orb_true_iff in Hnew as [?%Z.eqb_eq|Hn%negb_true_iff%bool_decide_eq_false]; [done|]. destruct (pdm_find _ _); [|done]. by destruct Hn. }
  exists (made + 1). pose proof (made_row_inv made r i d l I Hr Hf E Hu Hz) as I1. destruct (pv_made _ _ I) as [-> _].
  exact (aside_inv _ _ _ I1 (announce_aside e _ _ _ _ _ _)).
Qed.

Lemma fan_gen_aside l : aside_only l (next_fan l).
Proof. split_and!; [done|done|]. exists []. by rewrite app_nil_r. Qed.
Lemma only_close e cid eff only l : only_row eff only l → only_row eff only (pconn_close e cid l).
Proof.
  destruct only as [i|]; [|done]. intros (d & ch & E & L & Hid). unfold pconn_close. destruct (pconn cid l) as [c|]; [|by exists d, ch]. destruct (cn_authed c); [|by exists d, ch].
  cbn [only_row]. unfold pdm_conn_closed. cbn [pl_pdms set_field]. exists (row_conn_closed (e_now e) cid d), ch. split_and!.
  - change (map (row_conn_closed (e_now e) cid) (pl_pdms l)) with (row_conn_closed (e_now e) cid <$> pl_pdms l). by rewrite list_lookup_fmap, E.
  - unfold live, row_conn_closed in *. by case_match.
  - unfold row_conn_closed. by case_match.
Qed.
(** A connection's output changes. *)
Lemma out_aside cid c q l : pconn cid l = Some c → core q = core c → aside_only l (l <| pl_net := put_conn cid q (pl_net l) |>).
Proof.
  intros E Hq. split_and!; [|done|exists []; by rewrite app_nil_r]. split; [|done..]. unfold heads. cbn [pl_net set_field]. by apply (ev_conns (pl_net l)), (eqv_put_conn cid c).
Qed.
Lemma fan_to_inv made e eff only gen buf l cid : pinv made l → only_row eff only l → pinv made (fan_to e eff only gen buf l cid) ∧ only_row eff only (fan_to e eff only gen buf l cid).
Proof.
  intros I Ho. unfold fan_to. destruct (pconn cid l) as [c|] eqn:Ec; [|done]. destruct (_ || _) eqn:G; [done|]. apply orb_false_iff in G as [_ G].
  set (c1 := c <| cn_fan_gen := gen |>). set (l0 := l <| pl_net := put_conn cid c1 (pl_net l) |>).
  assert (A : aside_only l l0) by (by apply (out_aside cid c c1)).
  set (l1 := pnote _ l0). assert (I1 : pinv made l1).
  { apply (fanned_inv made eff only); [by eapply aside_inv|by destruct only|]. intros i ->. rewrite (aside_at _ _ i A). by apply negb_false_iff in G. }
  assert (Ho1 : only_row eff only l1) by (by destruct only). destruct (send_bytes _ _ _) as [q|]; [|split; [by apply close_inv|by apply only_close]].
  split; [|by destruct only]. eapply aside_inv; [exact I1|]. apply (out_aside cid c1); [|done]. unfold l1, l0, pconn, find_by_id, pnote, put_conn. cbn. by rewrite lookup_insert_eq.
Qed.
Lemma fan_tos_inv made e eff only gen buf cids : ∀ l, pinv made l → only_row eff only l →
  pinv made (foldl (fan_to e eff only gen buf) l cids) ∧ only_row eff only (foldl (fan_to e eff only gen buf) l cids).
Proof. induction cids as [|cid cids IH]; intros l I Hol; [done|]. cbn [foldl]. destruct (fan_to_inv made e eff only gen buf l cid I Hol). by apply IH. Qed.
Lemma members_inv made e ch members except buf l : pinv made l → pinv made (fanout_members e ch (if ch =? 0 then None else pdm_find ch l) members except buf l).
Proof.
  intros I. unfold fanout_members. set (only := if ch =? 0 then None else pdm_find ch l). set (dm := match only with Some _ => _ | None => _ end). set (gen := fan_gen _). set (l0 := next_fan l).
  assert (Ho : only_row (Fanned ch dm) only l0).
  { unfold dm, only. destruct (ch =? 0); [done|]. destruct (pdm_find ch l) as [i|] eqn:Ef; [|done]. apply pdm_find_spec in Ef as (d & E & -> & L & Hid). by exists d, ch. }
  assert (I0 : pinv made l0) by (eapply aside_inv; [exact I|apply fan_gen_aside]). clearbody only dm gen l0. clear I l.
  revert l0 I0 Ho. induction members as [|u members IH]; intros l I Ho; [done|]. cbn [foldl]. case_match; [by apply IH|]. destruct (fan_tos_inv made e _ only gen buf (pusers u l) l I Ho). by apply IH.
Qed.
Lemma reply_inv made e ch members inside outside l : pinv made l → pinv made (fanout_reply e ch members inside outside l).
Proof.
  intros I. unfold fanout_reply. set (gen := fan_gen _). assert (I0 : pinv made (next_fan l)) by (eapply aside_inv; [exact I|apply fan_gen_aside]).
  clearbody gen. revert I0. generalize (next_fan l). clear I l. induction members as [|[u inT] members IH]; intros l I; [done|]. cbn [foldl]. apply IH. by apply fan_tos_inv.
Qed.
Lemma told_inv made e ch uid except buf l : pinv made l → pinv made (send_to_user e ch uid except buf l).
Proof.
  unfold send_to_user. generalize (pusers uid l). intros cids. revert l. induction cids as [|cid cids IH]; intros l I; [done|]. cbn [foldl]. apply IH. unfold tell_to.
  destruct (pconn cid l) as [c|] eqn:Ec; [|done]. case_match; [done|]. assert (I1 : pinv made (pnote (Told ch cid) l)) by (eapply aside_inv; [exact I|by apply note_aside]).
  destruct (send_bytes _ _ _) as [q|]; [|by apply close_inv]. eapply aside_inv; [exact I1|]. by apply (out_aside cid c).
Qed.
Lemma result_inv made e ch w l : pinv made l → pinv made (deliver_result e ch w l).
Proof. intros I. destruct w; [by apply members_inv|by apply reply_inv|by apply told_inv]. Qed.
End frames.

(** ** Events *)

Lemma step_inv t made e ev l l' : @pinv t made l → unused ev l = true → 0 <= t < 2 ^ 63 → pdm_step e ev l = Some l' → ∃ made', @pinv (t + 1) made' l'.
Proof.
  intros I0 Hnew Ht Hs. assert (I : @pinv (t + 1) made l) by (eapply pinv_later; [|exact I0]; lia).
  destruct ev as [max|cid uid sid k|cid|cid ty payload|r|ch w|]; unfold pdm_step in Hs.
  - apply (inj Some) in Hs. subst l'. exists made. apply new_conn_inv; [done| |lia]. destruct (pv_next _ _ I0). unfold next_conn in *. lia.
  - apply (inj Some) in Hs. subst l'. exists made. by apply auth_inv.
  - apply (inj Some) in Hs. subst l'. exists made. by apply close_inv.
  - exists made. destruct (pconn cid l) as [c|] eqn:Ec; [|apply (inj Some) in Hs; by subst l']. destruct (cn_authed c) eqn:Ha; [|apply (inj Some) in Hs; by subst l'].
    pose proof (frame_inv made e cid c ty payload l I (conj Ec Ha)) as K. destruct (on_pdm_frame _ _ _ _ _ _); [apply (inj Some) in Hs; subst l'; exact K|apply (inj Some) in Hs; subst l'; by apply close_inv|done].
  - apply (inj Some) in Hs. subst l'. by apply (opened_inv made).
  - apply (inj Some) in Hs. subst l'. exists made. by apply result_inv.
  - apply (inj Some) in Hs. subst l'. exists made. by apply expire_inv.
Qed.

(** Every channel of a run was made with an id no live DM had. *)
Fixpoint ids_free (evs : list (call_env * pdm_event)) (l : ploop) : bool :=
  match evs with
  | [] => true
  | (e, ev) :: evs => unused ev l && match pdm_step e ev l with Some l => ids_free evs l | None => true end
  end.
Lemma run_inv evs : ∀ t made l l', @pinv t made l → ids_free evs l = true → 0 <= t → t + zlen evs <= 2 ^ 63 → pdm_run evs l = Some l' →
  ∃ made', @pinv (t + zlen evs) made' l'.
Proof.
  induction evs as [|[e ev] evs IH]; intros t made l l' I Hf Ht Hb Hr.
  { injection Hr as <-. exists made. eapply pinv_later; [|exact I]. unfold zlen. cbn. lia. }
  cbn [pdm_run ids_free] in Hr, Hf. apply andb_true_iff in Hf as [Hf1 Hf2]. destruct (pdm_step e ev l) as [l1|] eqn:Es; [|done]. cbn [mbind option_bind] in Hr.
  rewrite zlen_cons in *. pose proof (zlen_nonneg evs). destruct (step_inv t made e ev l l1 I Hf1 ltac:(lia) Es) as [made1 I1].
  replace (t + (1 + zlen evs)) with (t + 1 + zlen evs) by lia. apply (IH _ _ _ _ I1); try done; lia.
Qed.
Lemma start_inv demo : @pinv 0 0 (ploop_init demo).
Proof.
  assert (Hz : ∀ i d, pl_pdms (ploop_init demo) !! i = Some d → d = pdm_zero) by (intros i d [-> _]%lookup_replicate; done). split.
  - done.
  - done.
  - apply Forall_lookup. intros i d ->%Hz. done.
  - intros i j d d' ->%Hz ->%Hz [? _]. done.
  - intros u. assert (count_of u (pl_pdms (ploop_init demo)) = 0) as ->; [|unfold OC_PDM_PER_USER; lia]. unfold count_of. cbn [pl_pdms ploop_init]. generalize OC_PDM_MAX. intros n. induction n as [|n IH]; [done|].
    cbn [replicate]. rewrite filter_cons, decide_False by (cbn; tauto). exact IH.
  - change (trace_ok 0 []). split; try (intros; exfalso; by eapply not_elem_of_nil). intros id s _. by exists [].
  - done.
  - apply length_replicate.
  - done.
Qed.

(** A run of the loop from the start. *)
Definition ran (demo : bool) (evs : list (call_env * pdm_event)) (l : ploop) : Prop :=
  pdm_run evs (ploop_init demo) = Some l ∧ ids_free evs (ploop_init demo) = true ∧ zlen evs <= 2 ^ 63.
Lemma ran_inv demo evs l : ran demo evs l → ∃ t made, @pinv t made l.
Proof. intros (Hr & Hd & Hb). destruct (run_inv evs 0 0 (ploop_init demo) l (start_inv demo)) as [made I]; try done. eauto. Qed.

(** ** The promises *)

(** Who holds a side: the user and the session it was bound to first. *)
Definition owner (id : Z) (s : side) (tr : list pdm_effect) : option (Z * Z) :=
  head (omap (fun x => match x with Bound id' s' u sid => if bool_decide (id' = id ∧ s' = s) then Some (u, sid) else None | _ => None end) tr).
(** A connection of the session that holds side [s]. *)
Definition device_of (id : Z) (s : side) (cid : Z) (tr : list pdm_effect) : Prop :=
  ∃ u sid, owner id s tr = Some (u, sid) ∧ SignedIn cid u sid ∈ tr.

Lemma owner_bound t made l id s u sid : @pinv t made l → Bound id s u sid ∈ pl_trace l → owner id s (pl_trace l) = Some (u, sid).
Proof.
  intros I Hb. pose proof (to_bound _ _ (pv_trace _ _ I) id s) as Hone. unfold owner. set (f := fun x => match x with Bound _ _ _ _ => _ | _ => _ end).
  destruct (omap f (pl_trace l)) as [|[u' sid'] rest] eqn:E.
  - exfalso. assert (H : (u, sid) ∈ omap f (pl_trace l)); [|rewrite E in H; by apply not_elem_of_nil in H].
    apply list_elem_of_omap. exists (Bound id s u sid). split; [done|]. unfold f. by rewrite bool_decide_eq_true_2.
  - cbn. assert (H : (u', sid') ∈ omap f (pl_trace l)) by (rewrite E; by left). apply list_elem_of_omap in H as (x & Hx & Hf). unfold f in Hf.
    destruct x as [|id' s' v vid| | | | | | | | |]; try done. case_bool_decide as Hd; [|done]. destruct Hd as [-> ->]. injection Hf as -> ->. by destruct (Hone u sid u' sid' Hb Hx) as [-> ->].
Qed.
Lemma side_device t made l i d s : @pinv t made l → pl_pdms l !! i = Some d → live d → at_side (pd_conn d) s ≠ 0 → device_of (pd_serial d) s (at_side (pd_conn d) s) (pl_trace l).
Proof.
  intros I E [Hu Hz] Hc. destruct (row_at made l i d I E Hu) as (_ & B & _). destruct (side_bound _ _ _ s B Hz Hc) as [Hb Hs].
  exists (at_side (pd_user d) s), (at_side (pd_session d) s). split; [by eapply owner_bound|done].
Qed.

Lemma found t made l i d : @pinv t made l → pl_pdms l !! i = Some d → live d → pdm_find (pd_id d) l = Some i.
Proof.
  intros I E L. destruct (pdm_find (pd_id d) l) as [j|] eqn:Hj.
  - apply pdm_find_spec in Hj as (d' & E' & _ & L' & Hid). f_equal. symmetry. apply (pv_ids _ _ I i j d d'); auto.
  - exfalso. unfold pdm_find in Hj. destruct L as [Hu Hz]. destruct (Z.eqb_spec (pd_id d) 0); [done|]. apply list_elem_of_lookup_2 in E.
    pose proof (find_index_None _ _ d Hj E) as Hf. cbn in Hf. by rewrite Hu, Z.eqb_refl in Hf.
Qed.

(** C10: an encrypted DM stays between two devices, whatever connections, sign-ins,
    losses, frames, results and expiries a run is made of: each side of a DM is held by
    one session of one user, for good; every frame handed to a side, queued ones
    included, goes to a connection that signed in with the session holding it; a result
    that [fanout_members] sends while the DM is live goes only to connections of the two
    sessions, though both users may be signed in elsewhere; and only those may use the
    channel's ordinary messages.  (Thread replies and what [send_to_user] sends do not
    keep to this: [reply_reaches_others].) *)
Theorem two_devices demo evs l : ran demo evs l →
  (∀ n s u sid, Bound n s u sid ∈ pl_trace l → owner n s (pl_trace l) = Some (u, sid)) ∧
  (∀ n s cid fr, Gave n s cid fr ∈ pl_trace l → device_of n s cid (pl_trace l)) ∧
  (∀ ch n cid, Fanned ch (Some n) cid ∈ pl_trace l → ∃ s, device_of n s cid (pl_trace l)) ∧
  (∀ id i cid, pdm_find id l = Some i → pdm_refuses cid id l = false → ∃ s, device_of (pd_serial (pdm_at i l)) s cid (pl_trace l)).
Proof.
  intros (t & made & I)%ran_inv. pose proof (pv_trace _ _ I) as T. split_and!.
  - intros n s u sid. by eapply owner_bound.
  - intros n s cid fr Hg. destruct (to_gave _ _ T _ n s cid fr Hg (or_introl eq_refl)) as (u & sid & Hb & Hs). exists u, sid. split; [by eapply owner_bound|done].
  - intros ch n cid Hf. destruct (to_fanned _ _ T _ _ _ Hf) as (s & u & sid & Hb & Hs). exists s, u, sid. split; [by eapply owner_bound|done].
  - intros id i cid Hi. unfold pdm_refuses. rewrite Hi. apply pdm_find_spec in Hi as (d & E & -> & L & <-). rewrite negb_false_iff. unfold pdm_conn_bound.
    rewrite andb_true_iff, orb_true_iff, andb_true_iff, negb_true_iff, Z.eqb_neq, !Z.eqb_eq. intros [Hc [Hs|[_ Hs]]]; rewrite <- Hs in Hc |- *.
    + exists Opener. by eapply (side_device t made l i d Opener).
    + exists Peer. by eapply (side_device t made l i d Peer).
Qed.

(** C11: what is sent in an encrypted DM arrives in the order it was accepted, without a
    repeat, however often the receiving device loses its connection and comes back: the
    frames written to a side are, in order, among those accepted for it, and are a
    beginning of them unless one was dropped because the connection's output was full;
    for a live DM what was accepted is what the side's connections were handed, in order,
    and then what waits in its queue; and nothing waits while its connection is open.
    For the peer's side this is when nothing was accepted for it before one of its
    devices answered ([calm]). *)
Theorem frames_in_order demo evs l : ran demo evs l → ∀ n s, calm n s (pl_trace l) →
  gave n s (pl_trace l) `sublist_of` took n s (pl_trace l) ∧
  (lost n s (pl_trace l) = [] → gave n s (pl_trace l) `prefix_of` took n s (pl_trace l)) ∧
  ∀ id i, pdm_find id l = Some i → let d := pdm_at i l in pd_serial d = n →
    took n s (pl_trace l) = handled n s (pl_trace l) ++ (fst <$> at_side (pd_q d) s) ∧
    (is_Some (pconn (at_side (pd_conn d) s) l) → at_side (pd_q d) s = []).
Proof.
  intros (t & made & I)%ran_inv n s Hc. pose proof (to_prefix _ _ (pv_trace _ _ I) n s Hc) as Hp. split_and!.
  - etransitivity; [apply gave_sublist|]. destruct Hp as [rest ->]. by apply sublist_inserts_r.
  - intros Hl. by rewrite (gave_handled _ _ _ Hl).
  - intros id i Hi. apply pdm_find_spec in Hi as (d & E & -> & [Hu Hz] & _). intros d' <-. subst d'.
    destruct (row_at made l i d I E Hu) as (_ & _ & Q). split; [by apply Q|]. intros Ho. apply (qo_open _ _ _ Q); [by apply dom_heads|done].
Qed.

(** C37: the tables stay within their limits over any run: no side has more than 64
    frames waiting, no user is in more than 16 encrypted DMs, and no two live DMs have
    the same id, so that looking one up finds it and no other. *)
Theorem dm_bounds demo evs l : ran demo evs l →
  (∀ d s, d ∈ pl_pdms l → pd_used d = true → zlen (at_side (pd_q d) s) <= OC_PDM_QUEUE_MAX) ∧
  (∀ u, pdm_count_of u l <= OC_PDM_PER_USER) ∧
  (∀ i d, pl_pdms l !! i = Some d → live d → pdm_find (pd_id d) l = Some i).
Proof.
  intros (t & made & I)%ran_inv. split_and!.
  - intros d s [i E]%list_elem_of_lookup Hu. destruct (row_at made l i d I E Hu) as (_ & _ & Q). apply Q.
  - intros u. apply (pv_counts _ _ I u).
  - intros i d. by eapply found.
Qed.

(** ** Coming back *)

(** What a sign-in of [cid] may do to a row. *)
Record settles (cid : Z) (d d' : pdm_t) : Prop := {
  se_id : pd_id d' = pd_id d;
  se_used : pd_used d' = pd_used d;
  se_user : pd_user d' = pd_user d;
  se_session : pd_session d' = pd_session d;
  se_serial : pd_serial d' = pd_serial d;
  se_conn : ∀ s, at_side (pd_conn d') s = at_side (pd_conn d) s ∨ at_side (pd_conn d) s = 0 ∧ at_side (pd_conn d') s = cid }.
#[export] Instance settles_preorder cid : PreOrder (settles cid).
Proof.
  split; [intros d; split; auto|]. intros d1 d2 d3 [A1 A2 A3 A4 A5 A6] [B1 B2 B3 B4 B5 B6]. split; try congruence.
  intros s. destruct (A6 s) as [Ha|[Ha Hb]], (B6 s) as [Hc|[Hc Hd]]; rewrite ?Hc, ?Hd; auto; right; split; congruence.
Qed.
(** The side [s] of the user [uid] and the session [sid]. *)
Definition place_of (uid sid : Z) (s : side) (d : pdm_t) : Prop := at_side (pd_user d) s = uid ∧ at_side (pd_session d) s = sid ∧ sid ≠ 0.
Lemma settles_place cid uid sid s d d' : settles cid d d' → place_of uid sid s d → place_of uid sid s d'.
Proof. intros [_ _ Hu Hs _ _]. unfold place_of. by rewrite Hu, Hs. Qed.
Lemma settles_taken cid s d d' : settles cid d d' → at_side (pd_conn d) s ≠ 0 → at_side (pd_conn d') s ≠ 0.
Proof. intros S H. destruct (se_conn _ _ _ S s) as [->|[? _]]; congruence. Qed.

Section coming_back.
Context (e : call_env) (cid uid sid : Z) (Hcid : cid ≠ 0).
Lemma attach_side_row i s l d : pl_pdms l !! i = Some d → is_Some (pconn cid l) → let l' := attach_side e cid uid sid i l s in
  same_net l l' ∧ ∃ d', pl_pdms l' = <[i := d']> (pl_pdms l) ∧ settles cid d d' ∧ (place_of uid sid s d → at_side (pd_conn d') s ≠ 0).
Proof.
  intros E Hc. unfold attach_side. rewrite (pdm_at_lookup _ _ _ E). destruct (_ || _) eqn:G.
  - split; [done|]. exists d. split_and!; [by rewrite list_insert_id|done|]. intros (<- & <- & Hs) Hz. rewrite Hz, !Z.eqb_refl in G. destruct (Z.eqb_spec (at_side (pd_session d) s) 0); done.
  - rewrite !orb_false_iff, !negb_false_iff, !Z.eqb_eq in G. destruct G as [_ G].
    set (d' := d <| pd_conn := set_side s cid (pd_conn d) |> <| pd_away := set_side s 0 (pd_away d) |> <| pd_q := set_side s [] (pd_q d) |>).
    destruct (gives_does e (pd_serial d) s cid (at_side (pd_q d) s) (put_pdm i d' l) Hc) as (N & Ep & _). split; [by etransitivity; [|exact N]|]. exists d'. split_and!; [exact Ep| |].
    + split; try done. intros s'. cbn [pd_conn d' set_field]. destruct (decide (s' = s)) as [->|]; [rewrite side_set_eq; auto|rewrite side_set_other by done; auto].
    + intros _. cbn [pd_conn d' set_field]. by rewrite side_set_eq.
Qed.
Lemma same_net_conn l l' : same_net l l' → is_Some (pconn cid l) → is_Some (pconn cid l').
Proof. intros N Hc. apply dom_heads. rewrite (sn_heads _ _ N). by apply dom_heads. Qed.
Lemma attach_row_row j l i d : pl_pdms l !! i = Some d → is_Some (pconn cid l) → let l' := attach_row e cid uid sid l j in
  same_net l l' ∧ ∃ d', pl_pdms l' !! i = Some d' ∧ settles cid d d' ∧ (i = j → live d → ∀ s, place_of uid sid s d → at_side (pd_conn d') s ≠ 0).
Proof.
  intros E Hc. unfold attach_row. destruct (negb (pd_used (pdm_at j l)) || (pd_id (pdm_at j l) =? 0)) eqn:G.
  { split; [done|]. exists d. split_and!; try done. intros <- [Hu Hz] s _. rewrite (pdm_at_lookup _ _ _ E), Hu in G. by apply Z.eqb_eq in G. }
  apply orb_false_iff in G as [Gu%negb_false_iff _]. pose proof (used_row j l Gu) as Ej. set (dj := pdm_at j l) in *. pose proof (lookup_lt_Some _ _ _ Ej) as Hj.
  destruct (attach_side_row j Opener l dj Ej Hc) as (N1 & d1 & Ep1 & S1 & C1). set (l1 := attach_side e cid uid sid j l Opener) in *.
  assert (E1 : pl_pdms l1 !! j = Some d1) by (rewrite Ep1; by apply list_lookup_insert_eq).
  destruct (attach_side_row j Peer l1 d1 E1 (same_net_conn _ _ N1 Hc)) as (N2 & d2 & Ep2 & S2 & C2). set (l2 := attach_side e cid uid sid j l1 Peer) in *.
  assert (H2 : same_net l l2 ∧ ∃ d', pl_pdms l2 !! i = Some d' ∧ settles cid d d' ∧ (i = j → live d → ∀ s, place_of uid sid s d → at_side (pd_conn d') s ≠ 0)).
  { split; [by transitivity l1|]. rewrite Ep2, Ep1, list_insert_insert_eq. destruct (decide (i = j)) as [->|Hne].
    - rewrite E in Ej. injection Ej as ->. exists d2. rewrite list_lookup_insert_eq by done. split_and!; [done|by transitivity d1|]. intros _ _ [] Hp; [eapply settles_taken; [exact S2|by apply C1]|].
      apply C2. by eapply settles_place.
    - exists d. rewrite list_lookup_insert_ne by done. by split_and!. }
  destruct (negb _ && _); [|exact H2]. destruct (pdm_bytes _ _) as [buf|]; [|exact H2].
  destruct (send_aside e (invite_frame (pdm_at j l2), buf) cid l2) as (N3 & E3 & _). destruct H2 as [N H2]. split; [by transitivity l2|]. by rewrite E3.
Qed.
Lemma attach_rows_row rows i : ∀ l d, pl_pdms l !! i = Some d → is_Some (pconn cid l) →
  let l' := foldl (attach_row e cid uid sid) l rows in same_net l l' ∧ ∃ d', pl_pdms l' !! i = Some d' ∧ settles cid d d' ∧ (i ∈ rows → live d → ∀ s, place_of uid sid s d → at_side (pd_conn d') s ≠ 0).
Proof.
  induction rows as [|j rows IH]; intros l d E Hc; [split; [done|]; exists d; split_and!; try done; by intros ?%not_elem_of_nil|]. cbn [foldl].
  destruct (attach_row_row j l i d E Hc) as (N & d1 & E1 & S1 & C1). destruct (IH _ d1 E1 (same_net_conn _ _ N Hc)) as (N' & d2 & E2 & S2 & C2).
  split; [by etransitivity|]. exists d2. split_and!; [done|by transitivity d1|]. intros [Hij|Hin]%elem_of_cons L s Hp; [eapply settles_taken; [exact S2|by apply C1]|].
  apply C2; [done| |by eapply settles_place]. destruct S1 as [S1 S1' _ _ _ _]. unfold live. by rewrite S1, S1'.
Qed.
Lemma auth_row t made l i d s : @pinv t made l → pl_pdms l !! i = Some d → live d → place_of uid sid s d → is_Some (pconn cid l) →
  let l' := pdm_auth_ok e cid uid sid true l in ∃ d', pl_pdms l' !! i = Some d' ∧ settles cid d d' ∧ at_side (pd_conn d') s ≠ 0 ∧ is_Some (pconn cid l').
Proof.
  intros I E L Hp [c Hc]. unfold pdm_auth_ok, pdm_attach. rewrite Hc. unfold pconn, find_by_id in Hc. destruct (auth_conns cid uid (pl_net l) c Hc) as (E1 & _).
  set (l1 := pnote _ _). assert (Hc1 : pconn cid l1 = Some (c <| cn_authed := true |> <| cn_user := uid |>)).
  { transitivity (lp_conns (auth_ok cid uid (pl_net l)) !! cid); [done|]. by rewrite E1, lookup_insert_eq. }
  assert (Hx : px_session (extra cid l1) = sid) by (unfold extra, l1, pnote, put_extra; cbn [pl_extra set_field]; by rewrite lookup_insert_eq).
  rewrite Hc1, Hx. cbn [cn_user set_field]. destruct (attach_rows_row (seq 0 OC_PDM_MAX) i l1 d E ltac:(by rewrite Hc1)) as (N & d' & E' & S & C). exists d'. split_and!; [done|done| |eapply same_net_conn; [exact N|by rewrite Hc1]].
  apply C; try done. apply elem_of_seq. apply lookup_lt_Some in E. rewrite (pv_size _ _ I) in E. lia.
Qed.
End coming_back.

(** C21: a session that comes back finds its place.  When a side of a live DM has no
    connection and a connection signs in with the session that holds it, the side is
    on that connection from then on and may use the channel's ordinary messages again;
    and when nothing was accepted for the peer before it answered ([calm]), everything
    accepted for the side has then been handed to its connections, in order, and
    written to them but for what an over-full output dropped. *)
Theorem session_returns demo evs l e cid uid sid id s i : ran demo evs l → pdm_find id l = Some i → place_of uid sid s (pdm_at i l) →
  at_side (pd_conn (pdm_at i l)) s = 0 → is_Some (pconn cid l) →
  let l' := pdm_auth_ok e cid uid sid true l in let n := pd_serial (pdm_at i l) in
  at_side (pd_conn (pdm_at i l')) s = cid ∧ pdm_find id l' = Some i ∧ pdm_refuses cid id l' = false ∧
  (calm n s (pl_trace l') → handled n s (pl_trace l') = took n s (pl_trace l') ∧
    (lost n s (pl_trace l') = [] → gave n s (pl_trace l') = took n s (pl_trace l'))).
Proof.
  intros (t & made & I)%ran_inv Hi Hp Hz Hc l' n. apply pdm_find_spec in Hi as (d & E & Hd & L & <-). unfold n. rewrite Hd in *. clear n.
  assert (I' : @pinv t made l') by (by apply auth_inv). assert (R : ∃ d', pl_pdms l' !! i = Some d' ∧ settles cid d d' ∧ at_side (pd_conn d') s ≠ 0 ∧ is_Some (pconn cid l')) by (eapply auth_row; [intros ->; apply (heads_pos made l I), dom_heads, Hc|done..]).
  clearbody l'. destruct R as (d' & E' & S & Hn & Hc'). assert (L' : live d') by (unfold live; by rewrite (se_id _ _ _ S), (se_used _ _ _ S)).
  assert (Hcid : at_side (pd_conn d') s = cid) by (destruct (se_conn _ _ _ S s) as [H|[_ H]]; congruence).
  rewrite (pdm_at_lookup _ _ _ E'), <- (se_id _ _ _ S), <- (se_serial _ _ _ S). destruct (row_at made l' i d' I' E' (proj1 L')) as (_ & B & Q). assert (Hf : pdm_find (pd_id d') l' = Some i) by by eapply found.
  split_and!; [done|done| |].
  - unfold pdm_refuses. rewrite Hf, (pdm_at_lookup _ _ _ E'). apply negb_false_iff. unfold pdm_conn_bound. rewrite <- Hcid. rewrite (proj2 (Z.eqb_neq _ _) Hn). cbn [negb andb].
    destruct s; cbn [at_side]; rewrite Z.eqb_refl; [done|]. destruct (pd_accepted d') eqn:Ha; [apply orb_true_r|]. by destruct (bo_peer _ _ _ B Ha).
  - intros Hcm. assert (Hall : handled (pd_serial d') s (pl_trace l') = took (pd_serial d') s (pl_trace l')).
    { rewrite (qo_order _ _ _ Q s (proj2 L') Hcm), (qo_open _ _ _ Q s); [by rewrite app_nil_r|rewrite Hcid; by apply dom_heads|done]. }
    split; [exact Hall|]. intros Hl. by rewrite (gave_handled _ _ _ Hl).
Qed.

(** ** Runs *)

Definition pe (n : Z) : call_env := mk_call_env (1000 + n) (fun _ => true) None.
Definition ex_u64 (n : Z) : list Z := [0; 0; 0; 0; 0; 0; 0; n].
Definition ex_open (peer x : Z) : list Z := ex_u64 peer ++ [0; 0; 0; 1; x].
Definition ex_hs (id x : Z) : list Z := ex_u64 id ++ [0; 0; 0; 1; x].
Definition ex_send (id x : Z) : list Z := ex_u64 id ++ [0; 0; 0; 40] ++ replicate 40 x ++ [0; 0; 0; 16] ++ replicate 16 x.
(** User 7 with session 70 on connection 1, user 8 with sessions 80 and 81 on 2 and 3. *)
Definition ex_signed_in : list (call_env * pdm_event) :=
  [(pe 1, PvOpen 1); (pe 2, PvOpen 9); (pe 3, PvOpen 9); (pe 4, PvAuthOk 1 7 70 true); (pe 5, PvAuthOk 2 8 80 true); (pe 6, PvAuthOk 3 8 81 true)].
(** 7 opens a DM with 8, which is channel 5; connection 2 answers. *)
Definition ex_joined : list (call_env * pdm_event) :=
  ex_signed_in ++ [(pe 7, PvFrame 1 M_PDM_OPEN (ex_open 8 11)); (pe 8, PvMade (mk_made 1 8 5 1008)); (pe 9, PvFrame 2 M_PDM_HS (ex_hs 5 12))].
(** Connection 2 is lost, 7 goes on, and a fourth connection opens. *)
Definition ex_lost : list (call_env * pdm_event) :=
  ex_joined ++ [(pe 10, PvResult 5 (ToMembers [7; 8] 0 [1])); (pe 11, PvClose 2); (pe 12, PvFrame 1 M_PDM_SEND (ex_send 5 13)); (pe 13, PvFrame 1 M_PDM_HS (ex_hs 5 14)); (pe 14, PvOpen 9)].
Definition after (evs : list (call_env * pdm_event)) : ploop := default (ploop_init false) (pdm_run evs (ploop_init false)).
(** An effect is in a trace that is known. *)
Ltac in_trace := apply list_elem_of_In; vm_compute; repeat first [left; reflexivity|right].
Lemma run_app evs evs' l : pdm_run (evs ++ evs') l = l ← pdm_run evs l; pdm_run evs' l.
Proof. revert l. induction evs as [|[e ev] evs IH]; intros l; [done|]. cbn [app pdm_run]. destruct (pdm_step e ev l); [apply IH|done]. Qed.
Definition early (n : Z) (x : pdm_effect) : bool := match x with Took n' Peer false _ => n' =? n | _ => false end.
Lemma calm_dec_sound id tr fr : existsb (early id) tr = false → Took id Peer false fr ∉ tr.
Proof. intros H Hin%list_elem_of_In. apply not_true_iff_false in H. apply H, existsb_exists. exists (Took id Peer false fr). split; [done|]. apply Z.eqb_refl. Qed.
Lemma ex_ran : ran false ex_lost (after ex_lost).
Proof. split; [vm_compute; reflexivity|]. split; [vm_compute; reflexivity|vm_compute; discriminate]. Qed.

Lemma two_devices_witness : ∃ s, device_of 1 s 2 (pl_trace (after ex_lost)).
Proof.
  destruct (two_devices false ex_lost (after ex_lost) ex_ran) as (_ & _ & H & _). apply (H 5 1 2). in_trace.
Defined.
Definition ex_waiting : list pdm_frame := fst <$> at_side (pd_q (pdm_at 0 (after ex_lost))) Peer.
Lemma frames_in_order_witness : length ex_waiting = 2%nat ∧ took 1 Peer (pl_trace (after ex_lost)) = handled 1 Peer (pl_trace (after ex_lost)) ++ ex_waiting.
Proof.
  split; [vm_compute; reflexivity|]. destruct (frames_in_order false ex_lost (after ex_lost) ex_ran 1 Peer) as (_ & _ & H).
  - intros _ fr. apply (calm_dec_sound 1). vm_compute. reflexivity.
  - destruct (H 5 0%nat) as [E _]; [vm_compute; reflexivity|vm_compute; reflexivity|]. unfold ex_waiting. exact E.
Defined.
Lemma dm_bounds_witness : pdm_find 5 (after ex_lost) = Some 0%nat.
Proof.
  destruct (dm_bounds false ex_lost (after ex_lost) ex_ran) as (_ & _ & H). specialize (H 0%nat (pdm_at 0 (after ex_lost))).
  replace (pd_id (pdm_at 0 (after ex_lost))) with 5 in H by (vm_compute; reflexivity). apply H; [vm_compute; reflexivity|].
  split; vm_compute; [reflexivity|discriminate].
Defined.
(** The session 80 comes back on connection 4, which is handed the two frames. *)
Lemma session_returns_witness : let l := pdm_auth_ok (pe 15) 4 8 80 true (after ex_lost) in gave 1 Peer (pl_trace l) = ex_waiting ∧ pdm_refuses 4 5 l = false.
Proof.
  destruct (session_returns false ex_lost (after ex_lost) (pe 15) 4 8 80 5 Peer 0%nat ex_ran) as (_ & _ & H & G).
  - vm_compute. reflexivity.
  - split; [|split]; vm_compute; [reflexivity|reflexivity|discriminate].
  - vm_compute. reflexivity.
  - vm_compute. eauto.
  - replace (pd_serial (pdm_at 0 (after ex_lost))) with 1 in G by (vm_compute; reflexivity).
    split; [|exact H]. destruct G as [_ G]; [intros _ fr; apply (calm_dec_sound 1); vm_compute; reflexivity|]. rewrite G; vm_compute; reflexivity.
Defined.

(** ** What goes wrong *)

(** A signed-in client that sends encrypted messages faster than its rate makes the
    daemon read sixteen bytes through a null pointer: the refusal of [PDM_SEND] has no
    idempotency key to copy. *)
Theorem over_rate_faults e cid c payload m l : pconn cid l = Some c → cn_authed c = true → run_decode oc_decode_pdm_msg payload = inr m →
  fst (send_rate_ok e cid l) = false → pdm_step e (PvFrame cid M_PDM_SEND payload) l = None.
Proof.
  intros Ec Ha Hm Hr. unfold pdm_step. rewrite Ec, Ha. unfold on_pdm_frame, decoded_pdm. rewrite Hm. unfold on_pdm_send. by destruct (send_rate_ok e cid l) as [[] l1].
Qed.
(** Two messages in a window of one. *)
Lemma over_rate_faults_witness : pdm_run (ex_lost ++ [(pe 15, PvFrame 1 M_PDM_SEND (ex_send 5 15))]) (ploop_init false) = None.
Proof.
  enough (pdm_step (pe 15) (PvFrame 1 M_PDM_SEND (ex_send 5 15)) (after ex_lost) = None) as H.
  - rewrite run_app, (proj1 ex_ran). cbn [mbind option_bind pdm_run]. rewrite H. reflexivity.
  - eapply over_rate_faults; vm_compute; reflexivity.
Defined.

(** A device that is back before its old connection is found lost is not given its
    place: the frames for it wait, and it may not use the channel. *)
Example early_return_shut_out :
  let l := after (ex_joined ++ [(pe 10, PvOpen 9); (pe 11, PvAuthOk 4 8 80 true); (pe 12, PvClose 2); (pe 13, PvFrame 1 M_PDM_SEND (ex_send 5 13))]) in
  device_of 1 Peer 4 (pl_trace l) ∧ pconn 4 l ≠ None ∧ at_peer (pd_conn (pdm_at 0 l)) = 0 ∧ length (at_peer (pd_q (pdm_at 0 l))) = 1%nat ∧ pdm_refuses 4 5 l = true.
Proof.
  split; [|vm_compute; split_and!; [discriminate|reflexivity..]]. exists 8, 80. split; [vm_compute; reflexivity|in_trace].
Qed.
(** A row whose opener went before the channel was made stays, with no id. *)
Example row_left_behind :
  let l := after (ex_signed_in ++ [(pe 7, PvFrame 1 M_PDM_OPEN (ex_open 8 11)); (pe 8, PvClose 1); (pe 9, PvMade (mk_made 1 8 5 1009)); (pe 10, PvTick)]) in
  CloseJob 5 ∈ pl_trace l ∧ pd_used (pdm_at 0 l) = true ∧ pd_id (pdm_at 0 l) = 0 ∧ pdm_count_of 8 l = 1.
Proof. split; [in_trace|vm_compute; auto]. Qed.
(** What the opener sends before it is answered is overtaken by what it sends after. *)
Example early_frame_overtaken :
  let l := after (ex_signed_in ++ [(pe 7, PvFrame 1 M_PDM_OPEN (ex_open 8 11)); (pe 8, PvMade (mk_made 1 8 5 1008)); (pe 9, PvFrame 1 M_PDM_HS (ex_hs 5 21));
    (pe 10, PvFrame 2 M_PDM_HS (ex_hs 5 12)); (pe 11, PvFrame 1 M_PDM_HS (ex_hs 5 22))]) in
  took 1 Peer (pl_trace l) = [FHsFor (mk_oc_pdm_hs 5 [21]); FHsFor (mk_oc_pdm_hs 5 [22])] ∧ gave 1 Peer (pl_trace l) = [FHsFor (mk_oc_pdm_hs 5 [22])].
Proof. vm_compute. split; reflexivity. Qed.
(** A thread reply in a live DM goes to every connection of the two users: here to
    connection 3, of a session of user 8 that holds neither side. *)
Example reply_reaches_others :
  let l := after (ex_joined ++ [(pe 10, PvResult 5 (ToThread [(7, true); (8, true)] [1] [2]))]) in
  pdm_find 5 l = Some 0%nat ∧ Replied 5 3 ∈ pl_trace l ∧ ¬ (∃ s, device_of 1 s 3 (pl_trace l)) ∧ pdm_refuses 3 5 l = true.
Proof.
  split; [vm_compute; reflexivity|]. split; [in_trace|]. split; [|vm_compute; reflexivity].
  intros ([] & u & sid & Ho & Hs); vm_compute in Ho; injection Ho as <- <-; apply list_elem_of_In in Hs; vm_compute in Hs; intuition congruence.
Qed.
(** The 64 frames that may wait are together more than a connection's output holds: a
    device that comes back to 64 of the longest messages is not given all of them, and
    the rest is freed. *)
Definition ex_long (x : Z) : list Z := ex_u64 5 ++ [0; 0; 0; 40] ++ replicate 40 x ++ [0; 0; 64; 16] ++ replicate (Z.to_nat OC_PDM_MAX_CT) x.
Example return_loses_frames :
  let l := after ([(pe 1, PvOpen 0); (pe 2, PvOpen 9); (pe 3, PvAuthOk 1 7 70 true); (pe 4, PvAuthOk 2 8 80 true);
    (pe 5, PvFrame 1 M_PDM_OPEN (ex_open 8 11)); (pe 6, PvMade (mk_made 1 8 5 1006)); (pe 7, PvFrame 2 M_PDM_HS (ex_hs 5 12)); (pe 8, PvClose 2)] ++
    map (fun n => (pe 9, PvFrame 1 M_PDM_SEND (ex_long n))) (seqZ 1 64) ++ [(pe 10, PvOpen 9); (pe 11, PvAuthOk 3 8 80 true)]) in
  length (took 1 Peer (pl_trace l)) = 64%nat ∧ length (gave 1 Peer (pl_trace l)) = 63%nat ∧ at_peer (pd_q (pdm_at 0 l)) = [].
Proof. vm_compute. split_and!; reflexivity. Qed.
